(* ===== verification/_CoqProject ===== *)
-Q . S2P
Prelude.v
Archive.v
Md4Hash.v
Md4.v
CTag.v
Bitfield.v
Packets.v
ClientPackets.v
Search.v
KadId.v
RoutingTable.v
RoutingTableInv.v
RoutingTableProps.v
PiecePicker.v
PiecePickerBuckets.v
PiecePickerInv.v
PiecePickerUpdate.v
PiecePickerView.v
PiecePickerBlocks.v
PiecePickerMarks.v
PiecePickerCounts.v
PiecePickerSteps.v
PiecePickerCheck.v
PiecePick.v
PiecePickProps.v
PiecePickBounds.v
PiecePickerTheorems.v
IpFilter.v
Entry.v
LazyEntry.v
Policy.v
PolicyInv.v
PolicySteps.v
PolicyConnect.v
PolicyTheorems.v
Bandwidth.v
PacketBuffer.v
Dht.v
DhtInv.v
DhtSteps.v
DhtEntries.v
DhtNode.v
DhtTheorems.v
KadPackets.v
DhtTracker.v
DhtTrackerProps.v
ConnectionQueue.v
ChainedBuffer.v
TimestampHistory.v
PeerRequests.v
PeerUpload.v
PeerUploadProps.v
PeerUploadLive.v
PeerDownload.v
PeerDownloadProps.v
PeerSwarm.v
PeerSwarmProps.v
EscapeString.v
EscapeStringProps.v
Collection.v
CollectionProps.v
SharedFiles.v
SharedFilesProps.v
FileTypes.v
ParamsMaker.v
ServerConnection.v
ServerConnectionProps.v
