(* ===== verification/Prelude.v ===== *)
(** * libed2k: a verification library

    libed2k is a library of the eDonkey2000 and Kademlia networks.  A session
    (src/session_impl.cpp) talks to servers (src/server_connection.cpp) and peers
    (src/peer_connection.cpp) in packets of tagged data; a transfer
    (src/transfer.cpp) keeps a peer list (src/policy.cpp), from which it connects
    to peers, and a piece picker (src/piece_picker.cpp), which says which blocks to
    request from each of them; files, pieces and nodes are known by MD4 hashes; a
    Kademlia node (src/kademlia/) keeps a routing table of other nodes; and the
    state that is kept on disk is bencoded.  This library models the parts of it
    that compute, and proves what they promise to the others.

    ** The files

    - Prelude.v (this file): bytes, machine integers, lists, the notation scope
      [ed2k_scope] and the tactics and hints that the components share.
    - Archive.v (include/libed2k/archive.hpp): the archives that read and write
      wire data.  The class [Serializable] is the interface of everything that is
      sent, [reads] the way its loaders are reasoned about: a loader that [reads] a
      byte string gives the object, takes exactly these bytes and throws on every
      shorter input; [LoadsFitting] says that what a loader gives fits its types.
      CTag.v, Packets.v, ClientPackets.v and KadPackets.v are its instances.
    - Md4Hash.v and Md4.v (src/md4.cpp, include/libed2k/hasher.hpp): the 16-byte
      hash values and the streaming digest, against RFC 1320.
    - CTag.v (src/ctag.cpp, include/libed2k/ctag.hpp): tags and tag lists.
    - Bitfield.v (include/libed2k/bitfield.hpp): piece maps.
    - Packets.v, ClientPackets.v (src/packet_struct.cpp,
      include/libed2k/packet_struct.hpp): headers, containers, server and client
      packets, making and extracting messages.
    - Search.v (src/search.cpp): from the text of a query to the entries of a
      search request.
    - KadId.v (src/kademlia/node_id.cpp): the XOR metric, identifiers bound to an
      address.  RoutingTable.v (src/kademlia/routing_table.cpp) has the table,
      RoutingTableInv.v its invariant, RoutingTableProps.v what it promises.
    - PiecePicker.v (src/piece_picker.cpp): the picker and its operations;
      PiecePick.v: [pick_pieces] and its passes.  PiecePickerBuckets.v and
      PiecePickerUpdate.v relate [m_pieces] and its boundaries to buckets of
      pieces, PiecePickerView.v and PiecePickerMarks.v the downloads and their
      shared block storage to a list of blocks per piece; PiecePickerInv.v,
      PiecePickerBlocks.v and PiecePickerCounts.v are the invariants of the order,
      the blocks and the counters, PiecePickerSteps.v the operations as steps,
      PiecePickerCheck.v the [check_invariant] of the code; PiecePickProps.v and
      PiecePickBounds.v what is picked and how much; PiecePickerTheorems.v states
      the results for reachable pickers.
    - IpFilter.v (src/ip_filter.cpp, include/libed2k/ip_filter.hpp): the filters of
      addresses and ports, against the list of rules they were given.  The class
      [AddrOps] with its laws is the interface the template has to its address
      types.
    - Entry.v (src/entry.cpp, include/libed2k/bencode.hpp) and LazyEntry.v
      (src/lazy_bdecode.cpp): bencoded values, two decoders.
    - Policy.v (src/policy.cpp, include/libed2k/policy.hpp,
      include/libed2k/peer.hpp): the peer list, with the filter of IpFilter.v that
      blocks peers and the picker of PiecePicker.v that erased peers are cleared
      from; PolicyInv.v its invariant, PolicySteps.v the operations that keep it,
      PolicyConnect.v the choice of the next peer, PolicyTheorems.v the results.
    - Bandwidth.v (src/bandwidth_manager.cpp, src/bandwidth_limit.cpp,
      src/bandwidth_queue_entry.cpp): the rate limits; channels are shared, so they
      are a store.
    - PacketBuffer.v (src/packet_buffer.cpp): the circular buffer of uTP packets,
      against a finite map.
    - Dht.v (src/kademlia/traversal_algorithm.cpp, find_data.cpp, refresh.cpp,
      rpc_manager.cpp, node.cpp): the Kademlia node, that is its lookups, the
      requests that are under way, and the answers it gives, over the table of
      RoutingTable.v.  Lookups and the rpc manager share observers, so these are a
      store.  DhtInv.v has the invariant of the node, DhtSteps.v, DhtEntries.v and
      DhtNode.v the operations that keep it, DhtTheorems.v the results.
    - KadPackets.v (include/libed2k/kademlia/kad_packet_struct.hpp): the packets of
      the Kademlia protocol and the file of known nodes.  DhtTracker.v
      (src/kademlia/dht_tracker.cpp): from datagrams to messages of the node and
      back, the state that is kept on disk; DhtTrackerProps.v: that messages arrive.
    - ConnectionQueue.v (src/connection_queue.cpp): the connection attempts that
      wait and those that are under way, as steps of the users, the timer and the
      event loop.
    - ChainedBuffer.v (src/chained_buffer.cpp): the blocks of a send buffer, against
      a queue of bytes.  TimestampHistory.v (src/timestamp_history.cpp): the lowest
      delay of the last minutes, for clocks that wrap.
    - PeerRequests.v (src/peer_connection.cpp, include/libed2k/util.hpp): ranges,
      blocks and requests of a file.  PeerUpload.v (src/peer_connection.cpp,
      src/base_connection.cpp): the sending half of a peer connection, over the
      buffer of ChainedBuffer.v; PeerUploadProps.v what it sends, PeerUploadLive.v
      that it serves its requests.  PeerDownload.v: the receiving half, over the
      picker; PeerDownloadProps.v what it does with unexpected parts.  PeerSwarm.v
      (src/transfer.cpp): the connections of a transfer that share its picker;
      PeerSwarmProps.v that no block is lost to a connection.
    - EscapeString.v (src/escape_string.cpp, src/parse_url.cpp): numbers as text,
      the encodings of text and URLs; EscapeStringProps.v that they can be undone.
    - Collection.v (src/file.cpp, src/util.cpp, include/libed2k/file.hpp): ed2k
      links, emule collections and the structures of the .met files;
      CollectionProps.v that what is written is read back, and when it is not.
      SharedFiles.v (src/file.cpp): hashing a file, the files of known.met;
      SharedFilesProps.v: the hash of a file is the one of the network.
      FileTypes.v: types of files by their extensions.  ParamsMaker.v: the thread
      that hashes files, as steps of its callers and of the thread, the sections
      under its mutex.
    - ServerConnection.v (src/server_connection.cpp, [get_announce] of
      src/transfer.cpp): the connection to a server as a state machine, over the
      packets of Packets.v and the queries of Search.v; the asynchronous operations
      under way are a list, and the function that a completed one calls is an
      operation.  ServerConnectionProps.v: that these fit its state, that transfers
      are announced.

    ** How the code is modelled

    Objects are records with the fields of the classes, under the names of the
    code; every operation is a function from the state before to the state after.
    Unsigned integers are [Z] with [to_uint] where a store cuts them; bytes are
    [byte].  Exceptions and error codes are values of [option] or of a result type.
    Pointers and iterators are positions, or numbers where only their identity
    counts (the peers of Policy.v).  What the code takes from outside is an
    argument: [random()], the clock, memory from [malloc], the checksum of
    identifiers, the session around the peer list (the record [env]), and whether
    an allocation or a datagram of the Kademlia node succeeds (the record
    [environment]).

    Loops are fixpoints on their data where they can be.  The others have fuel:
    8 in [shift_out] and [top_bit] (the bits of a byte), 10 and 20 digits in
    [num_digits] and [write_digits] (an int and a 64-bit number), the number of
    boundaries in the loops of [add] and [remove], [whole_pieces] in the expansion
    of a piece, 100 levels in [bdecode] (the limit of the code) with the length of
    the input for each loop, [2 * item_limit + 2] steps in [lazy_bdecode],
    [num_blocks] rounds in [random_pass] with [num_pieces + 1] steps in
    [next_piece], at most 300 peers in the loops of the peer list (the limit of the
    code) and one more than the number of peers in [ip_filter_updated], 16 doublings
    in [grow] (from 16 to the 65536 sequence numbers there are) and the capacity in
    the other loops of the packet buffer, one round per piece in
    [mk_peer_requests], two levels of [fill_send_buffer], 38 blocks in
    [hash_blocks] (a piece) and the number of pieces of the file around it, the
    length of the input in [chunks], the room for digits in [decimal].  [receive_data] and
    [do_read] call each other, to the depth [n]: [None] is a recursion that is
    deeper, and [empty_part_never_ends] shows when it never ends.  That the
    fuel is enough is proved where the result could depend on it
    ([PiecePickBounds.v], [LazyEntry.lazy_bdecode_ends], the round trips of
    Entry.v, [PolicySteps.filter_loop_ok], [mk_peer_requests_spec],
    [upload_inv_step]).

    ** What is shown

    - Round trips: messages, tag lists, hashes as text, identifiers and their
      addresses, bencoded values through either decoder, filters through their
      exported ranges, messages of the Kademlia node through its datagrams, ed2k
      links, collections as text and in the binary form, escaped text and URLs.
    - Types: whatever bytes arrive, the Kademlia node handles a message whose fields
      are in range, or nothing.
    - Equivalence and refinement: the digest is RFC 1320's however the data is cut;
      a query becomes the prefix form of the expression it prints; block operations
      are updates of an abstract list of blocks; a filter is its list of rules; the
      packet buffer is a finite map; the send buffer is a queue of bytes; the hash
      of a file is the MD4 of the MD4s of its pieces, with the empty piece where the
      network wants it; the base 64 and base 32 encodings are RFC 4648's.
    - Invariants of all states an object can reach: the routing table, the piece
      picker ([check_invariant] of the code, two assertions aside), the peer list,
      also that no block of a picker names an erased peer, the bandwidth manager,
      also that no channel hands out more than it has, the Kademlia node, whose
      lookups count the requests they wait for, the connections of a transfer, whose
      queues account for every requested block of the picker, the hasher thread,
      which takes every file once and in order, the connection to a server, where
      nothing is queued without a session, and which in orderly runs ([sc_step] says
      which) has exactly one read under way while it is open, and a write while
      there is something to write.
    - What a peer connection sends: whole messages and parts, with the data that was
      asked for, each byte counted once.
    - Progress: a picker always finds a block there is, a request for bandwidth is
      answered, a Kademlia lookup ends although nobody answers, a connection attempt
      ends in time, accepted requests of a peer are served, queued files are hashed,
      transfers are announced to the server in packets of the agreed size (as long
      as no announced transfer is removed), and an attempt to connect to it that
      fails is made again.
    - What operations answer: the nodes nearest to a target, the bucket to refresh,
      the blocks to request (wanted, not more than asked for, and some whenever
      there is one), the best peer to connect to, the nodes a lookup hands over,
      ordered by their distance, the peers a filter leaves, the functions of a
      connection attempt that are called, the lowest delay.
    - Errors: truncated input is refused by every loader; and, where the code
      departs from what it means to do, what it does instead (a message cut short,
      queries with missing brackets, malformed bencoding, the counter of connect
      candidates, the flag of a full piece, answers of Kademlia nodes that the same
      implementation drops, URLs whose arguments are encoded away, parts of files a
      connection does not expect, names that a collection changes, a connect that
      completes after its attempt is over, transfers that are never announced).

    ** What is not modelled

    The event loop, sockets and streams, timers, threads, the disk thread and the
    file system: they consist of calls into boost::asio and the system. The session
    mostly orders such calls. Of the connection to a server the code under
    [LIBED2K_IS74] is left out. Of a peer connection the handlers of hello, file
    lists and other messages, and compressed parts are left out; of the transfer
    resume data, alerts and pausing. The HTTP parser and connection, the mapping of
    pieces to several files, port mapping, interface enumeration, vendored
    compression and Unicode code, logging and printing are left out. IPv6 is off in
    the configuration of the repository. The reference counts that free the
    observers and lookups of the Kademlia node are not modelled: what nobody refers
    to stays in the store. *)

From coqutil Require Export Byte Word.LittleEndianList.
From Stdlib Require Export ZArith Lia.
From stdpp Require Export base numbers list option tactics.

#[export] Set Default Goal Selector "!".

Declare Scope ed2k_scope.
Delimit Scope ed2k_scope with ed2k.
Open Scope Z_scope.

(** ** Bytes and machine integers *)

Abbreviation bytes := (list byte).

#[global] Instance byte_eq_dec : EqDecision byte := Byte.byte_eq_dec.
#[global] Instance byte_inhabited : Inhabited byte := populate Byte.x00.

(** The values an unsigned integer of [w] bytes can hold. *)
Definition is_uint (w : nat) (v : Z) : Prop := 0 <= v < 2 ^ (Z.of_nat w * 8).

#[global] Instance is_uint_dec w v : Decision (is_uint w v).
Proof. unfold is_uint. apply _. Defined.

(** [static_cast] to an unsigned integer of [w] bytes. *)
Definition to_uint (w : nat) (v : Z) : Z := v mod 2 ^ (Z.of_nat w * 8).

Lemma pow2_bytes_pos w : 0 < 2 ^ (Z.of_nat w * 8).
Proof. apply Z.pow_pos_nonneg; lia. Qed.

Lemma to_uint_range w v : is_uint w (to_uint w v).
Proof. apply Z.mod_pos_bound, pow2_bytes_pos. Qed.

Lemma to_uint_small w v : is_uint w v -> to_uint w v = v.
Proof. apply Z.mod_small. Qed.

(** [int64_t] and [int] arithmetic. *)
Definition to_int64 (v : Z) : Z := (v + 2 ^ 63) mod 2 ^ 64 - 2 ^ 63.
Definition to_int32 (v : Z) : Z := (v + 2 ^ 31) mod 2 ^ 32 - 2 ^ 31.

Lemma to_int32_small v : - 2 ^ 31 <= v < 2 ^ 31 -> to_int32 v = v.
Proof. intros. unfold to_int32. rewrite Z.mod_small; lia. Qed.

Lemma to_int64_small v : - 2 ^ 63 <= v < 2 ^ 63 -> to_int64 v = v.
Proof. intros. unfold to_int64. rewrite Z.mod_small; lia. Qed.

Lemma byte_unsigned_uint (b : byte) : is_uint 1 (byte.unsigned b).
Proof. apply byte.unsigned_range. Qed.

Lemma le_combine_le_split w v : is_uint w v -> le_combine (le_split w v) = v.
Proof. intros. rewrite le_combine_split. by apply to_uint_small. Qed.

Lemma Z_testbit_above v k i : 0 <= v < 2 ^ k -> 0 <= k <= i -> Z.testbit v i = false.
Proof.
  intros Hv Hi. rewrite <- (Z.mod_small v (2 ^ k)) by done.
  by apply Z.mod_pow2_bits_high.
Qed.

(** High part and low part do not overlap: [lor] is [+]. *)
Lemma Z_lor_shiftl_add x v k :
  0 <= v < 2 ^ k -> 0 <= k -> Z.lor (Z.shiftl x k) v = x * 2 ^ k + v.
Proof.
  intros Hv Hk. rewrite <- Z.shiftl_mul_pow2 by done.
  assert (Z.land (Z.shiftl x k) v = 0) as H0.
  { apply Z.bits_inj'. intros i Hi. rewrite Z.land_spec, Z.bits_0.
    destruct (Z.lt_ge_cases i k); [by rewrite Z.shiftl_spec_low|].
    rewrite (Z_testbit_above v k i) by lia. apply andb_false_r. }
  rewrite <- Z.lxor_lor by done. by rewrite Z.add_nocarry_lxor.
Qed.

Lemma Z_testbit_split x v k i :
  0 <= v < 2 ^ k -> 0 <= k -> 0 <= i ->
  Z.testbit (x * 2 ^ k + v) i = if i <? k then Z.testbit v i else Z.testbit x (i - k).
Proof.
  intros Hv Hk Hi. rewrite <- Z_lor_shiftl_add, Z.lor_spec by done.
  destruct (Z.ltb_spec i k).
  - by rewrite Z.shiftl_spec_low.
  - by rewrite Z.shiftl_spec, (Z_testbit_above v k i), orb_false_r by lia.
Qed.

Lemma Z_lxor_bound a b k : 0 <= a < 2 ^ k -> 0 <= b < 2 ^ k -> 0 <= k -> 0 <= Z.lxor a b < 2 ^ k.
Proof.
  intros Ha Hb Hk.
  assert (Z.lxor a b mod 2 ^ k = Z.lxor a b) as <-; [|by apply Z.mod_pos_bound, Z.pow_pos_nonneg; lia].
  apply Z.bits_inj'. intros i Hi. destruct (Z.lt_ge_cases i k).
  - by rewrite Z.mod_pow2_bits_low.
  - by rewrite Z.mod_pow2_bits_high, Z.lxor_spec, !(Z_testbit_above _ k) by lia.
Qed.

(** [lxor] works on the high and the low part separately. *)
Lemma Z_lxor_split x y v w k :
  0 <= v < 2 ^ k -> 0 <= w < 2 ^ k -> 0 <= k ->
  Z.lxor (x * 2 ^ k + v) (y * 2 ^ k + w) = Z.lxor x y * 2 ^ k + Z.lxor v w.
Proof.
  intros Hv Hw Hk. apply Z.bits_inj'. intros i Hi.
  rewrite Z.lxor_spec, !Z_testbit_split, !Z.lxor_spec by (auto using Z_lxor_bound).
  by destruct (i <? k).
Qed.

(** ** Lists *)

Lemma take_app_split {A} (k : nat) (l1 l2 : list A) :
  (length l1 <= k)%nat -> take k (l1 ++ l2) = l1 ++ take (k - length l1) l2.
Proof.
  intros. rewrite take_app. by rewrite take_ge by lia.
Qed.

(** ** Errors

    [errors::error_code_enum] of error_code.hpp. *)

Inductive error_code : Type :=
| no_error | no_memory | tag_type_mismatch | unexpected_ostream_error
| unexpected_istream_error | invalid_tag_type | blob_tag_too_long
| incompatible_tag_getter | tag_list_index_error | lines_syntax_error | levels_value_error
| empty_or_commented_line | invalid_entry_type | depth_exceeded | unexpected_eof
| expected_string | expected_value | expected_colon | limit_exceeded | metadata_too_large
| invalid_bencoding | transfer_missing_piece_length | transfer_missing_name
| transfer_invalid_name | transfer_invalid_length | transfer_file_parse_failed
| transfer_missing_pieces | transfer_invalid_hashes | transfer_is_no_dict
| transfer_info_no_dict | transfer_missing_info | unsupported_url_protocol
| expected_close_bracket_in_address | decode_packet_error | invalid_protocol_type
| unsupported_packed_type | unsupported_udp_res1_type | unsupported_udp_res2_type
| unsupported_kad_packed_type | invalid_packet_size | session_closing | duplicate_transfer
| transfer_paused | transfer_finished | transfer_aborted | transfer_removed
| stopping_transfer | no_router | timed_out | timed_out_inactivity | self_connection
| duplicate_peer_id | peer_not_constructed | banned_by_ip_filter | too_many_connections
| invalid_transfer_handle | invalid_peer_connection_handle | session_pointer_is_null
| destructing_transfer | transfer_not_ready | unsupported_protocol_version
| natpmp_not_authorized | network_failure | no_resources | unsupported_opcode
| http_parse_error | http_missing_location | http_failed_decompress | no_i2p_router
| filesize_is_zero | file_was_truncated | file_unavaliable | file_too_short
| file_collision | mismatching_number_of_files | mismatching_file_size
| mismatching_file_timestamp | missing_file_sizes | missing_pieces | not_a_dictionary
| invalid_blocks_per_piece | missing_slots | too_many_slots | invalid_slot_list
| invalid_piece_index | pieces_need_reorder | no_files_in_resume_data
| unclosed_quotation_mark | operator_incorrect_place | empty_brackets
| incorrect_brackets_count | met_file_invalid_header_byte | input_string_too_large
| search_expression_too_complex | pending_file_entry_in_transform
| fast_resume_parse_error | invalid_file_tag | missing_transfer_hash
| mismatching_transfer_hash | hashes_dont_match_pieces | failed_hash_check
| invalid_escaped_string | file_params_making_was_cancelled | num_errors.

#[global] Instance error_code_eq_dec : EqDecision error_code.
Proof. intros x y. unfold Decision. decide equality. Defined.

(** A C++ computation that may throw [libed2k_exception]. *)
Inductive outcome (A : Type) : Type :=
| Ok (a : A)
| Throw (e : error_code).
Arguments Ok {A} a.
Arguments Throw {A} e.

Definition is_throw {A} (o : outcome A) : Prop := exists e, o = Throw e.

#[global] Instance outcome_ret : MRet outcome := fun A a => Ok a.
#[global] Instance outcome_bind : MBind outcome :=
  fun A B f o => match o with Ok a => f a | Throw e => Throw e end.

(** ** Automation *)

Create HintDb ed2k discriminated.

#[export] Hint Resolve to_uint_range byte_unsigned_uint pow2_bytes_pos : ed2k.

(** Case analysis on every boolean test of the goal, with [lia] on the
    resulting (in)equalities. *)
Ltac bool_cases :=
  repeat match goal with
  | |- context [Z.leb ?a ?b] => destruct (Z.leb_spec a b)
  | |- context [Z.ltb ?a ?b] => destruct (Z.ltb_spec a b)
  | |- context [Z.eqb ?a ?b] => destruct (Z.eqb_spec a b)
  | |- context [Nat.leb ?a ?b] => destruct (Nat.leb_spec a b)
  | |- context [Nat.ltb ?a ?b] => destruct (Nat.ltb_spec a b)
  | |- context [Nat.eqb ?a ?b] => destruct (Nat.eqb_spec a b)
  end.
