(* ===== verification/Archive.v ===== *)
(** * Archives: include/libed2k/archive.hpp

    The input and the output archive of the ed2k wire format, the interface
    every serialisable type implements ([Serializable]) and the reasoning
    principle for loaders ([reads]): a loader that [reads] a byte string
    returns the expected object, consumes exactly these bytes, and throws on
    every strict prefix of them. *)

From S2P Require Import Prelude.

(** ** ed2k_iarchive *)

(** The stream buffer below the archive and the read position in it. *)
Record ed2k_iarchive := IA { m_container : bytes; tellg : nat }.

(** A member function that reads from the archive. *)
Definition reader (A : Type) : Type := ed2k_iarchive -> outcome (A * ed2k_iarchive).

#[global] Instance reader_ret : MRet reader := fun A a ar => Ok (a, ar).
#[global] Instance reader_bind : MBind reader :=
  fun A B f m ar => match m ar with Ok (a, ar') => f a ar' | Throw e => Throw e end.

Definition throw {A} (e : error_code) : reader A := fun _ => Throw e.

(** [m_length - tellg()], [m_length] being the position of the end. *)
Definition bytes_left : reader Z :=
  fun ar => Ok (Z.of_nat (length (m_container ar)) - Z.of_nat (tellg ar), ar).

(** [istream::read] followed by the test of [good()]. *)
Definition raw_read (nSize : nat) : reader bytes :=
  fun ar =>
    if (tellg ar + nSize <=? length (m_container ar))%nat
    then Ok (take nSize (drop (tellg ar) (m_container ar)),
             IA (m_container ar) (tellg ar + nSize))
    else Throw unexpected_istream_error.

(** [seekg(off, std::ios::cur)] and the test of [good()] the callers make;
    [e] is the error they throw. *)
Definition seekg (off : Z) (e : error_code) : reader unit :=
  fun ar =>
    let p := Z.of_nat (tellg ar) + off in
    if (0 <=? p) && (p <=? Z.of_nat (length (m_container ar)))
    then Ok (tt, IA (m_container ar) (Z.to_nat p))
    else Throw e.

(** [deserialize_impl] for a fundamental type of [w] bytes: the raw memory
    block, little endian. *)
Definition read_uint (w : nat) : reader Z :=
  v ← raw_read w; mret (le_combine v).

(** [operator>>(std::string&)]: the string has been resized by the caller. *)
Definition read_string (nSize : nat) : reader bytes :=
  if decide (nSize = 0%nat) then mret [] else raw_read nSize.

(** [m] loaded elements in a row: [for (i = 0; i < n; i++) ar & c[i]]. *)
Fixpoint read_each {A} (load : A -> reader A) (l : list A) : reader (list A) :=
  match l with
  | [] => mret []
  | x :: l' => y ← load x; ys ← read_each load l'; mret (y :: ys)
  end.

(** ** ed2k_oarchive

    The output container is a memory buffer that grows; a member function
    that saves yields the bytes it appends. *)

(** [serialize_impl] for a fundamental type of [w] bytes. *)
Definition write_uint (w : nat) (v : Z) : bytes := le_split w v.

(** [operator<<(const std::string&)]. *)
Definition write_string (s : bytes) : bytes := s.

(** ** The interface of serialisable types

    [ar & x] dispatches on [is_saving]; loading writes into an existing
    object, so [load] takes the object being overwritten. *)
Class Serializable (T : Type) := {
  fresh : T;                    (* the default-constructed object *)
  save : T -> bytes;
  load : T -> reader T
}.
#[global] Hint Mode Serializable ! : typeclass_instances.

(** ** Reasoning about loaders *)

(** [r] accepts [bs], whatever surrounds it, returns [a] and stops right
    after [bs]; cut short anywhere inside [bs], it throws. *)
Definition accepts {A} (r : reader A) (bs : bytes) (a : A) : Prop :=
  forall pre post,
    r (IA (pre ++ bs ++ post) (length pre)) =
    Ok (a, IA (pre ++ bs ++ post) (length pre + length bs)).

Definition rejects_prefixes {A} (r : reader A) (bs : bytes) : Prop :=
  forall pre k, (k < length bs)%nat ->
    is_throw (r (IA (pre ++ take k bs) (length pre))).

Definition reads {A} (r : reader A) (bs : bytes) (a : A) : Prop :=
  accepts r bs a /\ rejects_prefixes r bs.

(** What a serialisable type promises to its clients: an object that fits the
    wire format ([wf]) is loaded back, into a fresh object, as [stored] says;
    for most types [stored] is the identity. *)
Class Wire (T : Type) `{Serializable T} := {
  wf : T -> Prop;
  stored : T -> T;
  load_save : forall x, wf x -> reads (load fresh) (save x) (stored x)
}.
#[global] Hint Mode Wire ! - : typeclass_instances.

Lemma reads_ret {A} (a : A) : reads (mret a) [] a.
Proof.
  split; [|intros pre k Hk; simpl in Hk; lia].
  intros pre post. cbn. by rewrite Nat.add_0_r.
Qed.

Lemma reads_bind {A B} (m : reader A) (f : A -> reader B) b1 b2 a b :
  reads m b1 a -> reads (f a) b2 b -> reads (m ≫= f) (b1 ++ b2) b.
Proof.
  intros [Hm Hmt] [Hf Hft]. split.
  - intros pre post. unfold mbind, reader_bind.
    rewrite <- app_assoc, Hm.
    specialize (Hf (pre ++ b1) post). rewrite <- !app_assoc, length_app in Hf.
    rewrite Hf, length_app. by rewrite Nat.add_assoc.
  - intros pre k Hk. rewrite length_app in Hk. unfold mbind, reader_bind.
    destruct (decide (k < length b1)%nat).
    + rewrite take_app_le by lia.
      destruct (Hmt pre k) as [e He]; [lia|]. rewrite He. by eexists.
    + rewrite take_app_split by lia. rewrite Hm.
      destruct (Hft (pre ++ b1) (k - length b1)%nat) as [e He]; [lia|].
      rewrite <- app_assoc, length_app in He. rewrite He. by eexists.
Qed.

(** The form in which the last read of a loader matches the last bytes. *)
Lemma reads_bind_ret {A B} (m : reader A) (f : A -> B) bs a :
  reads m bs a -> reads (m ≫= fun x => mret (f x)) bs (f a).
Proof.
  intros. rewrite <- (app_nil_r bs). eapply reads_bind; [done|apply reads_ret].
Qed.

Lemma reads_raw_read bs : reads (raw_read (length bs)) bs bs.
Proof.
  split.
  - intros pre post. unfold raw_read. cbn [tellg m_container].
    destruct (Nat.leb_spec (length pre + length bs) (length (pre ++ bs ++ post)));
      [|rewrite !length_app in *; lia].
    by rewrite drop_app_length, take_app_length.
  - intros pre k Hk. unfold raw_read. cbn [tellg m_container].
    destruct (Nat.leb_spec (length pre + length bs) (length (pre ++ take k bs)));
      [rewrite length_app, length_take in *; lia|by eexists].
Qed.

Lemma reads_raw_read_len n bs : length bs = n -> reads (raw_read n) bs bs.
Proof. intros <-. apply reads_raw_read. Qed.

Lemma reads_uint w v : is_uint w v -> reads (read_uint w) (write_uint w v) v.
Proof.
  intros Hv. unfold read_uint.
  rewrite <- (le_combine_le_split w v) at 2 by done.
  apply (reads_bind_ret (raw_read w) le_combine).
  apply reads_raw_read_len, length_le_split.
Qed.

Lemma reads_string s : reads (read_string (length s)) (write_string s) s.
Proof.
  unfold read_string, write_string. case_decide as Hs.
  - apply nil_length_inv in Hs as ->. apply reads_ret.
  - apply reads_raw_read.
Qed.

Lemma reads_string_len n s : length s = n -> reads (read_string n) (write_string s) s.
Proof. intros <-. apply reads_string. Qed.

(** Elements loaded one after the other into fresh slots. *)
Lemma reads_each {A} (ld : A -> reader A) (sv : A -> bytes) (g : A -> A) (x0 : A) xs :
  (forall x, x ∈ xs -> reads (ld x0) (sv x) (g x)) ->
  reads (read_each ld (replicate (length xs) x0)) (xs ≫= sv) (g <$> xs).
Proof.
  induction xs as [|x xs IH]; intros Hxs; [apply reads_ret|]. cbn.
  eapply reads_bind; [apply Hxs; left|].
  apply (reads_bind_ret _ (fun ys => g x :: ys)).
  apply IH. intros. apply Hxs. by right.
Qed.

#[export] Hint Resolve reads_uint reads_string reads_string_len reads_ret : ed2k.

(** Looking ahead over the bytes that are about to be read. *)
Lemma reads_look_ahead {A} (m : reader A) bs n e1 e2 a :
  n = Z.of_nat (length bs) -> reads m bs a ->
  reads ((seekg n e1 ≫= fun _ => seekg (- n) e2) ≫= fun _ => m) bs a.
Proof.
  intros -> [Hm Hmt]. split.
  - intros pre post. unfold mbind, reader_bind, seekg. cbn [tellg m_container].
    rewrite !length_app. bool_cases; try lia. cbn [andb tellg m_container].
    bool_cases; rewrite ?length_app in *; try lia. cbn [andb].
    rewrite <- Hm. do 2 f_equal. lia.
  - intros pre k Hk. unfold mbind, reader_bind, seekg. cbn [tellg m_container].
    rewrite length_app, length_take. bool_cases; try lia; by eexists.
Qed.

Lemma reads_bind_pure {A B} (m : reader A) (f : A -> reader B) bs a b :
  reads m [] a -> reads (f a) bs b -> reads (m ≫= f) bs b.
Proof. intros. change bs with ([] ++ bs). by eapply reads_bind. Qed.

(** A loader that is a sequence of reads, one block of bytes per step: [field]
    proves each step. *)
Ltac reads_steps field :=
  repeat first
    [ apply reads_ret
    | eapply reads_bind_ret; solve [field]
    | eapply reads_bind; [solve [field]|] ].

(** ** Loaders on arbitrary input

    Whatever the bytes are, what a loader returns satisfies [P]. *)
Definition yields {A} (P : A -> Prop) (r : reader A) : Prop := forall ar a ar', r ar = Ok (a, ar') -> P a.

Lemma yields_ret {A} (P : A -> Prop) a : P a -> yields P (mret a).
Proof. intros Ha ar b ar' [= <- _]. done. Qed.

Lemma yields_bind {A B} (Q : A -> Prop) (P : B -> Prop) (m : reader A) (f : A -> reader B) :
  yields Q m -> (forall a, Q a -> yields P (f a)) -> yields P (m ≫= f).
Proof.
  intros Hm Hf ar b ar'. unfold mbind, reader_bind. destruct (m ar) as [[a ar1]|e] eqn:Ha; [|done].
  apply Hf. by eapply Hm.
Qed.

Lemma yields_uint w : yields (is_uint w) (read_uint w).
Proof.
  intros ar a ar'. unfold read_uint, mbind, reader_bind, raw_read. destruct (Nat.leb_spec (tellg ar + w) (length (m_container ar))) as [Hl|]; [|done].
  intros [= <- _]. pose proof (le_combine_bound (take w (drop (tellg ar) (m_container ar)))) as Hb.
  rewrite length_take, length_drop, Nat.min_l in Hb by lia. unfold is_uint. by rewrite Z.mul_comm.
Qed.

Lemma yields_each {A} (P : A -> Prop) (load : A -> reader A) l :
  Forall P l -> (forall x, P x -> yields P (load x)) -> yields (fun l' => Forall P l' /\ length l' = length l) (read_each load l).
Proof.
  intros Hl Hload. induction Hl as [|x l Hx Hl IH]; cbn [read_each]; [by apply yields_ret|].
  eapply yields_bind; [by apply Hload|]. intros y Hy. eapply yields_bind; [exact IH|].
  intros ys [Hys Hn]. apply yields_ret. split; [by constructor|]. cbn. by rewrite Hn.
Qed.

(** Types whose loaders only return objects that fit the wire format. *)
Class LoadsFitting (T : Type) `{Wire T} := {
  fresh_fits : wf (fresh : T);
  load_fits : forall x : T, wf x -> yields wf (load x)
}.
