(* ===== verification/Md4Hash.v ===== *)
(** * md4_hash: include/libed2k/hasher.hpp and the class part of src/md4.cpp

    The 16-byte identifier of files, clients and Kademlia nodes: its order,
    its bit operations, its text form, and its place in archives.  [value]
    reads an identifier as the 128-bit big-endian number it stands for; the
    order and the xor metric are shown to be those of that number. *)

From S2P Require Import Prelude Archive.

Abbreviation b2z := byte.unsigned.
Abbreviation z2b := byte.of_Z.

Definition MD4_DIGEST_LENGTH : nat := 16.

Record md4_hash := Hash { m_hash : bytes }.

#[global] Instance md4_hash_eq_dec : EqDecision md4_hash.
Proof. solve_decision. Defined.

(** The array type [md4hash_container] has a fixed length. *)
Definition hash_wf (h : md4_hash) : Prop := length (m_hash h) = MD4_DIGEST_LENGTH.

#[global] Instance hash_wf_dec h : Decision (hash_wf h).
Proof. unfold hash_wf. apply _. Defined.

(** [md4_hash()] clears the container. *)
Definition hash_clear : md4_hash := Hash (replicate MD4_DIGEST_LENGTH (z2b 0)).

Definition hash_min : md4_hash := Hash (replicate MD4_DIGEST_LENGTH (z2b 0)).
Definition hash_max : md4_hash := Hash (replicate MD4_DIGEST_LENGTH (z2b 0xff)).

Fixpoint all_zeros (l : bytes) : bool :=
  match l with [] => true | b :: l' => if negb (b2z b =? 0) then false else all_zeros l' end.

Definition is_all_zeros (h : md4_hash) : bool := all_zeros (m_hash h).

(** [sum |= m_hash[i]] over the container. *)
Definition defined (h : md4_hash) : bool :=
  negb (foldl (fun sum b => Z.lor sum (b2z b)) 0 (m_hash h) =? 0).

(** [operator==]: [std::equal] over the 16 bytes. *)
Fixpoint bytes_equal (l1 l2 : bytes) : bool :=
  match l1, l2 with
  | b1 :: l1', b2 :: l2' => (b2z b1 =? b2z b2) && bytes_equal l1' l2'
  | _, _ => true
  end.

Definition hash_eqb (h n : md4_hash) : bool := bytes_equal (m_hash n) (m_hash h).

(** [operator<]: the loop with its two early returns. *)
Fixpoint bytes_ltb (l1 l2 : bytes) : bool :=
  match l1, l2 with
  | b1 :: l1', b2 :: l2' =>
      if b2z b1 <? b2z b2 then true
      else if b2z b2 <? b2z b1 then false
      else bytes_ltb l1' l2'
  | _, _ => false
  end.

Definition hash_ltb (h n : md4_hash) : bool := bytes_ltb (m_hash h) (m_hash n).

Definition hash_not (h : md4_hash) : md4_hash :=
  Hash ((fun b => z2b (Z.lnot (b2z b))) <$> m_hash h).

Definition hash_and (h n : md4_hash) : md4_hash :=
  Hash (zip_with (fun a b => z2b (Z.land (b2z a) (b2z b))) (m_hash h) (m_hash n)).

Definition hash_or (h n : md4_hash) : md4_hash :=
  Hash (zip_with (fun a b => z2b (Z.lor (b2z a) (b2z b))) (m_hash h) (m_hash n)).

Definition hash_xor (h n : md4_hash) : md4_hash :=
  Hash (zip_with (fun a b => z2b (Z.lxor (b2z a) (b2z b))) (m_hash h) (m_hash n)).

(** The in-place loop of [operator<<=]: bytes [0 .. size-2] take the high bits
    of their right neighbour, which has not been shifted yet. *)
Fixpoint shl_loop (n : Z) (l : bytes) : bytes :=
  match l with
  | b :: ((b' :: _) as l') =>
      z2b (Z.lor (Z.shiftl (b2z b) n) (Z.shiftr (b2z b') (8 - n))) :: shl_loop n l'
  | _ => l
  end.

Definition hash_shl (h : md4_hash) (n : Z) : md4_hash :=
  let num_bytes := Z.to_nat (n / 8) in
  if (MD4_DIGEST_LENGTH <=? num_bytes)%nat then hash_clear
  else
    let l := drop num_bytes (m_hash h) ++ replicate num_bytes (z2b 0) in
    let n' := n - Z.of_nat num_bytes * 8 in
    Hash (if 0 <? n' then shl_loop n' l else l).

(** [operator>>=] runs from the last byte down to byte 1; the left neighbour
    has not been shifted yet. *)
Fixpoint shr_loop (n : Z) (prev : byte) (l : bytes) : bytes :=
  match l with
  | [] => []
  | b :: l' => z2b (Z.lor (Z.shiftr (b2z b) n) (Z.shiftl (b2z prev) (8 - n))) :: shr_loop n b l'
  end.

Definition hash_shr (h : md4_hash) (n : Z) : md4_hash :=
  let num_bytes := Z.to_nat (n / 8) in
  if (MD4_DIGEST_LENGTH <=? num_bytes)%nat then hash_clear
  else
    let l := replicate num_bytes (z2b 0) ++ take (MD4_DIGEST_LENGTH - num_bytes) (m_hash h) in
    let n' := n - Z.of_nat num_bytes * 8 in
    Hash (if 0 <? n' then match l with b :: l' => b :: shr_loop n' b l' | [] => [] end else l).

(** ** Text form *)

(** [hex_to_int] and [from_hex] of src/escape_string.cpp.  [from_hex] returns
    its status and what it has written to [out]. *)
Definition hex_to_int (c : byte) : Z :=
  let x := b2z c in
  if (48 <=? x) && (x <=? 57) then x - 48
  else if (65 <=? x) && (x <=? 70) then x - 65 + 10
  else if (97 <=? x) && (x <=? 102) then x - 97 + 10
  else -1.

Fixpoint from_hex (s : bytes) : bool * bytes :=
  match s with
  | [] => (true, [])
  | c1 :: s1 =>
      let t := hex_to_int c1 in
      if t =? -1 then (false, [])
      else
        let hi := z2b (Z.shiftl t 4) in
        match s1 with
        | [] => (false, [hi])       (* reads the terminating NUL *)
        | c2 :: s2 =>
            let t2 := hex_to_int c2 in
            if t2 =? -1 then (false, [hi])
            else
              let b := z2b (Z.lor (b2z hi) (Z.land t2 15)) in
              let '(ok, out) := from_hex s2 in (ok, b :: out)
        end
  end.

(** [md4_hash::fromString]: [invalid] (all zero) on a character that is not a
    hexadecimal digit.  The source asserts that the length is 32; of a shorter
    string the terminating NUL is read. *)
Definition fromString (s : bytes) : md4_hash :=
  let '(ok, out) := from_hex (take (2 * MD4_DIGEST_LENGTH) (s ++ [z2b 0])) in
  if ok then Hash out else hash_clear.

(** The table [c] of [toString]: ['0' .. '9', 'A' .. 'F']. *)
Definition hex_char (x : Z) : byte :=
  z2b (if x <? 10 then 48 + x else 65 + (x - 10)).

Definition toString (h : md4_hash) : bytes :=
  m_hash h ≫= fun b => [hex_char (Z.shiftr (b2z b) 4); hex_char (Z.land (b2z b) 0x0F)].

(** ** Serialisation: one [ar & m_hash[n]] per byte *)

Definition read_byte : reader byte := v ← read_uint 1; mret (z2b v).

#[global] Instance md4_hash_serializable : Serializable md4_hash := {
  fresh := hash_clear;
  save h := m_hash h ≫= fun b => write_uint 1 (b2z b);
  load h := l ← read_each (fun _ => read_byte) (m_hash h); mret (Hash l)
}.

(** ** The number an identifier stands for *)

Fixpoint be_value (l : bytes) : Z :=
  match l with
  | [] => 0
  | b :: l' => b2z b * 2 ^ (8 * Z.of_nat (length l')) + be_value l'
  end.

Definition value (h : md4_hash) : Z := be_value (m_hash h).

(** * Lemmas *)

Lemma b2z_range b : 0 <= b2z b < 256.
Proof. apply byte.unsigned_range. Qed.

Lemma b2z_z2b v : 0 <= v < 256 -> b2z (z2b v) = v.
Proof. intros. rewrite byte.unsigned_of_Z. by apply Z.mod_small. Qed.

Lemma z2b_b2z b : z2b (b2z b) = b.
Proof. apply byte.of_Z_unsigned. Qed.

Lemma write_byte b : write_uint 1 (b2z b) = [b].
Proof. cbv [write_uint le_split]. by rewrite z2b_b2z. Qed.

Lemma reads_byte b : reads read_byte (write_uint 1 (b2z b)) b.
Proof.
  unfold read_byte. rewrite <- (z2b_b2z b) at 2.
  apply (reads_bind_ret _ z2b), reads_uint, byte_unsigned_uint.
Qed.

Lemma save_hash h : save h = m_hash h.
Proof.
  cbn. induction (m_hash h) as [|b l IH]; [done|].
  rewrite bind_cons, write_byte, IH. done.
Qed.

#[global] Program Instance md4_hash_wire : Wire md4_hash := {
  wf := hash_wf; stored h := h
}.
Next Obligation.
  intros [l] Hl. unfold hash_wf in Hl. cbn [m_hash] in Hl.
  change (reads (k ← read_each (fun _ => read_byte) (replicate MD4_DIGEST_LENGTH (z2b 0));
                 mret (Hash k))
    (l ≫= fun b => write_uint 1 (b2z b)) (Hash l)).
  rewrite <- Hl. apply (reads_bind_ret _ Hash). rewrite <- (list_fmap_id l) at 3.
  apply (reads_each (fun _ => read_byte) _ id). intros. apply reads_byte.
Qed.

Lemma be_value_cons b l :
  be_value (b :: l) = b2z b * 2 ^ (8 * Z.of_nat (length l)) + be_value l.
Proof. done. Qed.

Lemma be_value_range l : 0 <= be_value l < 2 ^ (8 * Z.of_nat (length l)).
Proof.
  induction l as [|b l IH]; cbn [be_value length]; [done|].
  pose proof (b2z_range b).
  replace (8 * Z.of_nat (S (length l))) with (8 + 8 * Z.of_nat (length l)) by lia.
  rewrite Z.pow_add_r by lia. change (2 ^ 8) with 256. nia.
Qed.

Lemma bytes_equal_spec l1 l2 :
  length l1 = length l2 -> bytes_equal l1 l2 = true <-> l1 = l2.
Proof.
  revert l2. induction l1 as [|b1 l1 IH]; intros [|b2 l2] Hl; try done.
  cbn. rewrite andb_true_iff. rewrite Z.eqb_eq, IH by (simpl in Hl; lia).
  split; [intros [Hb ->]; f_equal; by apply byte.unsigned_inj|by intros [= -> ->]].
Qed.

Lemma bytes_ltb_spec l1 l2 :
  length l1 = length l2 -> bytes_ltb l1 l2 = true <-> be_value l1 < be_value l2.
Proof.
  revert l2. induction l1 as [|b1 l1 IH]; intros [|b2 l2] Hl; try done.
  cbn [bytes_ltb be_value]. injection Hl as Hl.
  pose proof (be_value_range l1) as R1. pose proof (be_value_range l2) as R2.
  rewrite <- Hl in *. bool_cases.
  - split; [intros _; nia|done].
  - split; [done|nia].
  - rewrite IH by done. replace (b2z b2) with (b2z b1) by lia. lia.
Qed.

Lemma be_value_xor l1 l2 :
  length l1 = length l2 ->
  be_value (zip_with (fun a b => z2b (Z.lxor (b2z a) (b2z b))) l1 l2) =
  Z.lxor (be_value l1) (be_value l2).
Proof.
  revert l2. induction l1 as [|a l1 IH]; intros [|b l2] Hl; try done.
  cbn [zip_with be_value]. injection Hl as Hl.
  rewrite length_zip_with, <- Hl, Nat.min_id, IH by done.
  rewrite b2z_z2b by (apply (Z_lxor_bound _ _ 8); auto using b2z_range; done).
  pose proof (be_value_range l2) as H2. rewrite <- Hl in H2.
  by rewrite Z_lxor_split by (auto using be_value_range; lia).
Qed.

Lemma value_inj h n : hash_wf h -> hash_wf n -> value h = value n -> h = n.
Proof.
  destruct h as [l], n as [k]. unfold hash_wf, value. cbn [m_hash]. intros Hl Hk E.
  f_equal. assert (length l = length k) as Hlen by congruence. clear Hl Hk.
  revert k E Hlen. induction l as [|a l IH]; intros [|b k] E Hlen; try done.
  injection Hlen as Hlen. cbn [be_value] in E.
  pose proof (be_value_range l) as R1. pose proof (be_value_range k) as R2.
  rewrite <- Hlen in *.
  assert (b2z a = b2z b) as Hab by nia.
  f_equal; [by apply byte.unsigned_inj|]. apply IH; [nia|done].
Qed.

Lemma hash_xor_wf h n : hash_wf h -> hash_wf n -> hash_wf (hash_xor h n).
Proof. unfold hash_wf, hash_xor. cbn [m_hash]. rewrite length_zip_with. lia. Qed.

Lemma hash_xor_value h n :
  hash_wf h -> hash_wf n -> value (hash_xor h n) = Z.lxor (value h) (value n).
Proof. unfold hash_wf. intros. apply be_value_xor. congruence. Qed.

Lemma hash_ltb_value h n :
  hash_wf h -> hash_wf n -> hash_ltb h n = (value h <? value n).
Proof.
  unfold hash_wf. intros Hh Hn. apply eq_true_iff_eq. unfold hash_ltb.
  rewrite bytes_ltb_spec by congruence. by rewrite Z.ltb_lt.
Qed.

Lemma hash_eqb_spec h n : hash_wf h -> hash_wf n -> hash_eqb h n = true <-> h = n.
Proof.
  destruct h as [l], n as [k]. unfold hash_wf, hash_eqb. cbn [m_hash]. intros Hl Hk.
  rewrite bytes_equal_spec by congruence. split; congruence.
Qed.

(** *** Text form *)

Lemma hex_digit_roundtrip x : 0 <= x < 16 -> hex_to_int (hex_char x) = x.
Proof.
  intros. unfold hex_to_int, hex_char.
  rewrite b2z_z2b by (bool_cases; lia). bool_cases; simpl; lia.
Qed.

Lemma byte_nibbles b :
  z2b (Z.lor (b2z (z2b (Z.shiftl (Z.shiftr (b2z b) 4) 4))) (Z.land (Z.land (b2z b) 15) 15)) = b.
Proof. by destruct b. Qed.

Lemma from_hex_toString l :
  from_hex (l ≫= fun b => [hex_char (Z.shiftr (b2z b) 4); hex_char (Z.land (b2z b) 15)]) = (true, l).
Proof.
  induction l as [|b l IH]; [done|]. rewrite bind_cons.
  cbn [app from_hex]. pose proof (b2z_range b).
  assert (0 <= Z.shiftr (b2z b) 4 < 16).
  { rewrite Z.shiftr_div_pow2 by lia. change (2 ^ 4) with 16.
    split; [apply Z.div_pos; lia|apply Z.div_lt_upper_bound; lia]. }
  assert (0 <= Z.land (b2z b) 15 < 16).
  { change 15 with (Z.ones 4). rewrite Z.land_ones by lia. by apply Z.mod_pos_bound. }
  rewrite !hex_digit_roundtrip by done. bool_cases; try lia.
  rewrite IH. by rewrite byte_nibbles.
Qed.

(** *** Shifts *)

Lemma shl_loop_length n l : length (shl_loop n l) = length l.
Proof. induction l as [|b [|b' l] IH]; [done..|]. cbn [shl_loop length] in *. by rewrite IH. Qed.

(** Shifting [b] left by [n] inside a byte and or-ing in [q < 2^n]. *)
Lemma shl_byte_value b q n :
  0 < n < 8 -> 0 <= b < 256 -> 0 <= q < 2 ^ n ->
  Z.lor (Z.shiftl b n) q mod 256 = (b * 2 ^ n) mod 256 + q.
Proof.
  intros Hn Hb Hq. rewrite Z_lor_shiftl_add by lia.
  replace 256 with (2 ^ (8 - n) * 2 ^ n) by (rewrite <- Z.pow_add_r, Z.sub_add by lia; done).
  assert (0 < 2 ^ n) by (apply Z.pow_pos_nonneg; lia).
  assert (0 < 2 ^ (8 - n)) by (apply Z.pow_pos_nonneg; lia).
  rewrite Z.mul_mod_distr_r by lia.
  symmetry. apply (Z.mod_unique_pos _ _ (b / 2 ^ (8 - n))).
  - pose proof (Z.mod_pos_bound b (2 ^ (8 - n))). nia.
  - pose proof (Z.div_mod b (2 ^ (8 - n))). nia.
Qed.

(** What spills out of the top of a shifted string is what spills out of its
    first byte. *)
Lemma shl_carry b l n :
  0 < n < 8 ->
  be_value (b :: l) * 2 ^ n / 2 ^ (8 * Z.of_nat (length (b :: l))) = b2z b / 2 ^ (8 - n).
Proof.
  intros Hn. pose proof (b2z_range b). pose proof (be_value_range l) as Hl.
  cbn [be_value length]. set (m := 8 * Z.of_nat (length l)) in *.
  replace (8 * Z.of_nat (S (length l))) with (m + (8 - n) + n) by lia.
  assert (0 < 2 ^ n) by (apply Z.pow_pos_nonneg; lia).
  assert (0 < 2 ^ (8 - n)) by (apply Z.pow_pos_nonneg; lia).
  assert (0 < 2 ^ m) by (apply Z.pow_pos_nonneg; lia).
  rewrite (Z.pow_add_r 2 (m + (8 - n)) n) by lia.
  rewrite Z.div_mul_cancel_r by lia.
  rewrite Z.pow_add_r, <- Z.div_div by lia.
  by rewrite Z.div_add_l, (Z.div_small (be_value l)), Z.add_0_r by lia.
Qed.

Lemma shl_carry_bound b n : 0 < n < 8 -> 0 <= b2z b / 2 ^ (8 - n) < 2 ^ n.
Proof.
  intros Hn. pose proof (b2z_range b).
  assert (0 < 2 ^ (8 - n)) by (apply Z.pow_pos_nonneg; lia).
  split; [apply Z.div_pos; lia|]. apply Z.div_lt_upper_bound; [done|].
  rewrite <- Z.pow_add_r, Z.sub_add by lia. change (2 ^ 8) with 256. lia.
Qed.

(** Shifting a string whose first byte is [b] and whose tail is worth [V]. *)
Lemma shl_top_value b V n m :
  0 < n < 8 -> 0 <= b < 256 -> 0 <= m -> 0 <= V * 2 ^ n / 2 ^ m < 2 ^ n ->
  ((b * 2 ^ m + V) * 2 ^ n) mod 2 ^ (m + 8) =
  ((b * 2 ^ n) mod 256 + V * 2 ^ n / 2 ^ m) * 2 ^ m + (V * 2 ^ n) mod 2 ^ m.
Proof.
  intros Hn Hb Hm Hq.
  assert (0 < 2 ^ m) by (apply Z.pow_pos_nonneg; lia).
  assert (0 < 2 ^ n) by (apply Z.pow_pos_nonneg; lia).
  rewrite Z.pow_add_r by lia. change (2 ^ 8) with 256.
  rewrite <- shl_byte_value by done. rewrite Z_lor_shiftl_add by lia.
  symmetry. set (q := V * 2 ^ n / 2 ^ m) in *.
  apply (Z.mod_unique_pos _ _ ((b * 2 ^ n + q) / 256)).
  - pose proof (Z.mod_pos_bound (b * 2 ^ n + q) 256).
    pose proof (Z.mod_pos_bound (V * 2 ^ n) (2 ^ m)). nia.
  - pose proof (Z.div_mod (b * 2 ^ n + q) 256).
    pose proof (Z.div_mod (V * 2 ^ n) (2 ^ m)). nia.
Qed.

Lemma last_default {A} (x d d' : A) l : List.last (x :: l) d = List.last (x :: l) d'.
Proof. revert x. induction l as [|y l IH]; intros x; [done|apply (IH y)]. Qed.

(** The in-place loop shifts every byte but the last one, [z]. *)
Lemma shl_loop_value n b l :
  0 < n < 8 ->
  let z := b2z (List.last (b :: l) b) in
  be_value (shl_loop n (b :: l)) =
  (be_value (b :: l) * 2 ^ n) mod 2 ^ (8 * Z.of_nat (length (b :: l)))
  - (z * 2 ^ n) mod 256 + z.
Proof.
  intros Hn. cbv zeta. revert b. induction l as [|b' l IH]; intros b.
  { cbn [shl_loop be_value length List.last]. change (2 ^ (8 * Z.of_nat 1)) with 256.
    change (2 ^ (8 * Z.of_nat 0)) with 1. rewrite Z.mul_1_r, Z.add_0_r. lia. }
  change (shl_loop n (b :: b' :: l)) with
    (z2b (Z.lor (Z.shiftl (b2z b) n) (Z.shiftr (b2z b') (8 - n))) :: shl_loop n (b' :: l)).
  change (List.last (b :: b' :: l) b) with (List.last (b' :: l) b).
  rewrite (last_default b' b b' l). set (z := b2z (List.last (b' :: l) b')) in *.
  rewrite be_value_cons.
  rewrite IH, shl_loop_length, byte.unsigned_of_Z. fold z.
  change (byte.wrap ?v) with (v mod 256).
  pose proof (b2z_range b). pose proof (shl_carry b' l n Hn) as Hq.
  rewrite Z.shiftr_div_pow2 by lia.
  rewrite shl_byte_value by (try apply shl_carry_bound; done). rewrite <- Hq.
  change (be_value (b :: b' :: l)) with
    (b2z b * 2 ^ (8 * Z.of_nat (length (b' :: l))) + be_value (b' :: l)).
  replace (8 * Z.of_nat (length (b :: b' :: l))) with (8 * Z.of_nat (length (b' :: l)) + 8)
    by (cbn [length]; lia).
  rewrite shl_top_value; [lia|done..| |]; [lia|]. rewrite Hq. by apply shl_carry_bound.
Qed.

Lemma be_value_app l1 l2 :
  be_value (l1 ++ l2) = be_value l1 * 2 ^ (8 * Z.of_nat (length l2)) + be_value l2.
Proof.
  induction l1 as [|b l1 IH]; [cbn [be_value app]; lia|].
  change ((b :: l1) ++ l2) with (b :: (l1 ++ l2)).
  rewrite !be_value_cons, IH, length_app.
  replace (8 * Z.of_nat (length l1 + length l2)) with
    (8 * Z.of_nat (length l1) + 8 * Z.of_nat (length l2)) by lia.
  rewrite Z.pow_add_r by lia. ring.
Qed.

Lemma be_value_zeros k : be_value (replicate k (z2b 0)) = 0.
Proof. induction k as [|k IH]; [done|]. cbn [replicate]. by rewrite be_value_cons, IH. Qed.

(** The [memmove]/[memset] pair is the shift by whole bytes. *)
Lemma shl_bytes_value k l :
  (k <= length l)%nat ->
  be_value (drop k l ++ replicate k (z2b 0)) =
  (be_value l * 2 ^ (8 * Z.of_nat k)) mod 2 ^ (8 * Z.of_nat (length l)).
Proof.
  intros Hk. rewrite be_value_app, be_value_zeros, length_replicate, Z.add_0_r.
  rewrite <- (take_drop k l) at 2. rewrite be_value_app, length_drop.
  set (D := be_value (drop k l)).
  assert (0 <= D < 2 ^ (8 * Z.of_nat (length l - k))) as HD.
  { subst D. rewrite <- length_drop. apply be_value_range. }
  assert (0 < 2 ^ (8 * Z.of_nat k)) by (apply Z.pow_pos_nonneg; lia).
  replace (8 * Z.of_nat (length l)) with (8 * Z.of_nat (length l - k) + 8 * Z.of_nat k) by lia.
  rewrite Z.pow_add_r by lia. rewrite Z.mul_mod_distr_r by lia. f_equal.
  rewrite Z.add_comm, Z.mod_add by lia. by rewrite Z.mod_small.
Qed.

Lemma last_snoc_zeros k l d : List.last (l ++ replicate (S k) (z2b 0)) d = z2b 0.
Proof. rewrite replicate_S_end, app_assoc. apply List.last_last. Qed.

(** ** Properties *)

(** [operator<] and [operator==] of [md4_hash] are the order and the
    equality of the 128-bit big-endian numbers the identifiers stand for; in
    particular [operator<] is a strict total order on identifiers. *)
Theorem hash_order (h n : md4_hash) :
  hash_wf h -> hash_wf n ->
  (hash_ltb h n = true <-> value h < value n) /\
  (hash_eqb h n = true <-> value h = value n) /\
  (hash_ltb h n = true \/ hash_ltb n h = true \/ h = n).
Proof.
  intros Hh Hn. rewrite !hash_ltb_value, hash_eqb_spec, !Z.ltb_lt by done.
  split_and!; [done|split; [by intros ->|by apply value_inj]|].
  destruct (Z.lt_trichotomy (value h) (value n)) as [?|[?|?]]; auto.
  right. right. by apply value_inj.
Qed.

Lemma hash_order_witness :
  hash_wf hash_min /\ hash_wf hash_max /\ hash_ltb hash_min hash_max = true.
Proof.
  split_and!; [done..|]. apply (hash_order hash_min hash_max); [done..|]. by vm_compute.
Defined.

(** The text form of an identifier has 32 characters and [fromString]
    reads it back. *)
Theorem fromString_toString (h : md4_hash) :
  hash_wf h -> length (toString h) = 32%nat /\ fromString (toString h) = h.
Proof.
  destruct h as [l]. unfold hash_wf. cbn [m_hash]. intros Hl.
  assert (length (toString (Hash l)) = 32%nat) as E.
  { unfold toString. cbn [m_hash]. change 32%nat with (2 * MD4_DIGEST_LENGTH)%nat. rewrite <- Hl. clear Hl.
    induction l as [|b k IH]; [done|]. rewrite bind_cons. cbn [app length]. lia. }
  split; [done|]. unfold fromString. rewrite take_app_le by (rewrite E; done). rewrite take_ge by (rewrite E; done).
  unfold toString. cbn [m_hash]. by rewrite from_hex_toString.
Qed.

Lemma fromString_toString_witness :
  hash_wf hash_max /\ fromString (toString hash_max) = hash_max.
Proof. split; [done|]. apply (fromString_toString hash_max). done. Defined.

(** [operator<<=] is the shift of the 128-bit number when it moves whole
    bytes or at least 8 bits; for a shift of 1 to 7 bits it leaves the last
    byte [z] of the identifier unshifted. *)
Theorem hash_shl_value (h : md4_hash) (n : Z) :
  hash_wf h -> 0 <= n < 128 ->
  let z := b2z (List.last (m_hash h) (z2b 0)) in
  value (hash_shl h n) =
    (value h * 2 ^ n) mod 2 ^ 128
    + (if (0 <? n) && (n <? 8) then z - (z * 2 ^ n) mod 256 else 0).
Proof.
  destruct h as [l]. unfold hash_wf, value, hash_shl, MD4_DIGEST_LENGTH. cbn [m_hash].
  intros Hl Hn. cbv zeta. set (k := Z.to_nat (n / 8)).
  assert (Z.of_nat k = n / 8) as Hk by (subst k; rewrite Z2Nat.id; [done|apply Z.div_pos; lia]).
  assert (n / 8 < 16) by (apply Z.div_lt_upper_bound; lia).
  destruct (Nat.leb_spec 16 k); [lia|]. cbn [m_hash].
  pose proof (Z.div_mod n 8) as Hdm. pose proof (Z.mod_pos_bound n 8).
  set (r := n - Z.of_nat k * 8). assert (r = n mod 8) as Hr by lia.
  set (l' := drop k l ++ replicate k (z2b 0)).
  assert (length l' = 16%nat) as Hl' by (subst l'; rewrite length_app, length_drop, length_replicate; lia).
  assert (be_value l' = (be_value l * 2 ^ (8 * Z.of_nat k)) mod 2 ^ 128) as HV.
  { subst l'. rewrite shl_bytes_value by lia. by rewrite Hl. }
  destruct (Z.ltb_spec 0 r).
  - destruct l' as [|b l1] eqn:El; [done|].
    rewrite shl_loop_value by lia. rewrite <- El in *. rewrite Hl', HV.
    change (8 * Z.of_nat 16) with 128. rewrite Z.mul_mod_idemp_l by done.
    rewrite <- Z.mul_assoc, <- Z.pow_add_r by lia.
    replace (8 * Z.of_nat k + r) with n by lia.
    destruct k as [|k'].
    + replace (n <? 8) with true by lia. replace (0 <? n) with true by lia.
      rewrite El, (last_default b b (z2b 0)), <- El. subst l'.
      cbn [replicate andb]. rewrite app_nil_r, drop_0. replace r with n by lia. lia.
    + replace (n <? 8) with false by lia. rewrite andb_false_r. subst l'.
      rewrite El, (last_default b b (z2b 0)), <- El, last_snoc_zeros.
      change (b2z (z2b 0)) with 0. rewrite Z.mul_0_l, Z.mod_0_l by done. lia.
  - replace ((0 <? n) && (n <? 8)) with false by lia.
    rewrite HV. replace (8 * Z.of_nat k) with n by lia. lia.
Qed.

(** The number 1 shifted left by one bit stays 1: the value is not doubled. *)
Lemma hash_shl_value_witness :
  let one := Hash (replicate 15 (z2b 0) ++ [z2b 1]) in
  hash_wf one /\ value (hash_shl one 1) = 1 /\ value (hash_shl one 9) = 512.
Proof.
  cbv zeta. split_and!; [done|rewrite hash_shl_value..]; done || by vm_compute.
Defined.
