(* ===== verification/Md4.v ===== *)
(** * MD4: src/md4.cpp and class hasher of include/libed2k/hasher.hpp

    The streaming implementation of the hash that identifies files, pieces
    and keywords, and the reference definition of RFC 1320 it is shown to
    compute: however the message is cut into [MD4_Update] calls,
    [MD4_Final] yields the digest of the whole message. *)

From S2P Require Import Prelude Archive Md4Hash.

(** ** The block transformation *)

Definition w32 (x : Z) : Z := x mod 2 ^ 32.

Definition F (x y z : Z) : Z := Z.lxor z (Z.land x (Z.lxor y z)).
Definition G (x y z : Z) : Z := Z.lor (Z.lor (Z.land x y) (Z.land x z)) (Z.land y z).
Definition H (x y z : Z) : Z := Z.lxor (Z.lxor x y) z.

(** [(a) += f((b), (c), (d)) + (x); (a) = ((a) << (s)) | ((a) >> (32 - (s)))] *)
Definition STEP (f : Z -> Z -> Z -> Z) (a b c d x s : Z) : Z :=
  let a := w32 (a + (f b c d + x)) in
  Z.lor (w32 (Z.shiftl a s)) (Z.shiftr a (32 - s)).

Record MD4_CTX := Ctx {
  lo : Z; hi : Z;
  ra : Z; rb : Z; rc : Z; rd : Z;
  buffer : bytes
}.

Definition regs : Type := Z * Z * Z * Z.

(** [SET(n)]/[GET(n)]: the [n]-th little-endian word of the block. *)
Definition SET (ptr : bytes) (n : nat) : Z := le_combine (take 4 (drop (4 * n) ptr)).

(** A line group of the transformation: the four [STEP]s in which each register
    is updated once. *)
Definition STEP4 (f : Z -> Z -> Z -> Z) (r : regs) (x0 s0 x1 s1 x2 s2 x3 s3 : Z) : regs :=
  let '(a, b, c, d) := r in
  let a := STEP f a b c d x0 s0 in
  let d := STEP f d a b c x1 s1 in
  let c := STEP f c d a b x2 s2 in
  let b := STEP f b c d a x3 s3 in
  (a, b, c, d).

(** One turn of the do-while loop of [body]. *)
Definition body_block (r : regs) (ptr : bytes) : regs :=
  let X := SET ptr in
  let '(saved_a, saved_b, saved_c, saved_d) := r in
  (* Round 1 *)
  let r := STEP4 F r (X 0%nat) 3 (X 1%nat) 7 (X 2%nat) 11 (X 3%nat) 19 in
  let r := STEP4 F r (X 4%nat) 3 (X 5%nat) 7 (X 6%nat) 11 (X 7%nat) 19 in
  let r := STEP4 F r (X 8%nat) 3 (X 9%nat) 7 (X 10%nat) 11 (X 11%nat) 19 in
  let r := STEP4 F r (X 12%nat) 3 (X 13%nat) 7 (X 14%nat) 11 (X 15%nat) 19 in
  (* Round 2 *)
  let r := STEP4 G r (X 0%nat + 0x5A827999) 3 (X 4%nat + 0x5A827999) 5 (X 8%nat + 0x5A827999) 9 (X 12%nat + 0x5A827999) 13 in
  let r := STEP4 G r (X 1%nat + 0x5A827999) 3 (X 5%nat + 0x5A827999) 5 (X 9%nat + 0x5A827999) 9 (X 13%nat + 0x5A827999) 13 in
  let r := STEP4 G r (X 2%nat + 0x5A827999) 3 (X 6%nat + 0x5A827999) 5 (X 10%nat + 0x5A827999) 9 (X 14%nat + 0x5A827999) 13 in
  let r := STEP4 G r (X 3%nat + 0x5A827999) 3 (X 7%nat + 0x5A827999) 5 (X 11%nat + 0x5A827999) 9 (X 15%nat + 0x5A827999) 13 in
  (* Round 3 *)
  let r := STEP4 H r (X 0%nat + 0x6ED9EBA1) 3 (X 8%nat + 0x6ED9EBA1) 9 (X 4%nat + 0x6ED9EBA1) 11 (X 12%nat + 0x6ED9EBA1) 15 in
  let r := STEP4 H r (X 2%nat + 0x6ED9EBA1) 3 (X 10%nat + 0x6ED9EBA1) 9 (X 6%nat + 0x6ED9EBA1) 11 (X 14%nat + 0x6ED9EBA1) 15 in
  let r := STEP4 H r (X 1%nat + 0x6ED9EBA1) 3 (X 9%nat + 0x6ED9EBA1) 9 (X 5%nat + 0x6ED9EBA1) 11 (X 13%nat + 0x6ED9EBA1) 15 in
  let r := STEP4 H r (X 3%nat + 0x6ED9EBA1) 3 (X 11%nat + 0x6ED9EBA1) 9 (X 7%nat + 0x6ED9EBA1) 11 (X 15%nat + 0x6ED9EBA1) 15 in
  let '(a, b, c, d) := r in
  (w32 (a + saved_a), w32 (b + saved_b), w32 (c + saved_c), w32 (d + saved_d)).

(** [do { ... ptr += 64; } while (size -= 64)], [n] turns. *)
Fixpoint body_loop (n : nat) (r : regs) (ptr : bytes) : regs * bytes :=
  match n with
  | O => (r, ptr)
  | S n' => body_loop n' (body_block r (take 64 ptr)) (drop 64 ptr)
  end.

(** [body(ctx, data, size)]: the new registers and the returned pointer; [size]
    is a positive multiple of 64 at every call. *)
Definition body (ctx : MD4_CTX) (data : bytes) (size : nat) : MD4_CTX * bytes :=
  let '(a, b, c, d, ptr) := body_loop (size / 64) (ra ctx, rb ctx, rc ctx, rd ctx) data in
  (Ctx (lo ctx) (hi ctx) a b c d (buffer ctx), ptr).

(** ** The streaming interface *)

Definition MD4_Init (ctx : MD4_CTX) : MD4_CTX :=
  Ctx 0 0 0x67452301 0xefcdab89 0x98badcfe 0x10325476 (buffer ctx).

(** [memcpy(&buffer[at], data, size)]. *)
Definition memcpy (buf : bytes) (at_ : nat) (data : bytes) : bytes :=
  take at_ buf ++ data ++ drop (at_ + length data) buf.

Definition set_buffer (ctx : MD4_CTX) (buf : bytes) : MD4_CTX :=
  Ctx (lo ctx) (hi ctx) (ra ctx) (rb ctx) (rc ctx) (rd ctx) buf.

(** The bit counters: [lo] counts bytes modulo [2^29], [hi] the carries. *)
Definition update_counters (ctx : MD4_CTX) (size : Z) : MD4_CTX :=
  let saved_lo := lo ctx in
  let lo' := Z.land (w32 (saved_lo + size)) 0x1fffffff in
  let hi' := if lo' <? saved_lo then w32 (hi ctx + 1) else hi ctx in
  let hi' := w32 (hi' + Z.shiftr size 29) in
  Ctx lo' hi' (ra ctx) (rb ctx) (rc ctx) (rd ctx) (buffer ctx).

(** The tail of [MD4_Update], after a partial block has been completed. *)
Definition update_blocks (ctx : MD4_CTX) (data : bytes) : MD4_CTX :=
  let size := length data in
  let '(ctx, data) :=
    if (64 <=? size)%nat then body ctx data (64 * (size / 64)) else (ctx, data) in
  set_buffer ctx (memcpy (buffer ctx) 0 (take (size mod 64) data)).

Definition MD4_Update (ctx0 : MD4_CTX) (data : bytes) : MD4_CTX :=
  let size := length data in
  let ctx := update_counters ctx0 (Z.of_nat size) in
  let used := Z.to_nat (Z.land (lo ctx0) 0x3f) in
  if decide (used = 0)%nat then update_blocks ctx data
  else
    let free := (64 - used)%nat in
    if (size <? free)%nat then set_buffer ctx (memcpy (buffer ctx) used data)
    else
      let ctx := set_buffer ctx (memcpy (buffer ctx) used (take free data)) in
      let '(ctx, _) := body ctx (buffer ctx) 64 in
      update_blocks ctx (drop free data).

(** The first half of [MD4_Final]: the 0x80 byte, and an extra block when less
    than 8 bytes are free; the context and the new [used] and [free]. *)
Definition final_close (ctx : MD4_CTX) : MD4_CTX * nat * nat :=
  let used := Z.to_nat (Z.land (lo ctx) 0x3f) in
  let ctx := set_buffer ctx (memcpy (buffer ctx) used [z2b 0x80]) in
  let used := S used in
  let free := (64 - used)%nat in
  if (free <? 8)%nat then
    let ctx := set_buffer ctx (memcpy (buffer ctx) used (replicate free (z2b 0))) in
    (fst (body ctx (buffer ctx) 64), 0%nat, 64%nat)
  else (ctx, used, free).

(** Its second half, before the last [body]: zeros and the bit count. *)
Definition final_count (ctx : MD4_CTX) (used free : nat) : MD4_CTX :=
  let ctx := set_buffer ctx (memcpy (buffer ctx) used (replicate (free - 8) (z2b 0))) in
  let ctx := Ctx (w32 (Z.shiftl (lo ctx) 3)) (hi ctx) (ra ctx) (rb ctx) (rc ctx) (rd ctx) (buffer ctx) in
  set_buffer ctx (memcpy (buffer ctx) 56 (le_split 4 (lo ctx) ++ le_split 4 (hi ctx))).

Definition final_pad (ctx : MD4_CTX) : MD4_CTX :=
  let '(ctx, used, free) := final_close ctx in final_count ctx used free.

(** The digest; the source then wipes the context. *)
Definition MD4_Final (ctx : MD4_CTX) : md4_hash :=
  let ctx := final_pad ctx in
  let '(ctx, _) := body ctx (buffer ctx) 64 in
  Hash (le_split 4 (ra ctx) ++ le_split 4 (rb ctx) ++ le_split 4 (rc ctx) ++ le_split 4 (rd ctx)).

(** Some memory for a context that has not been initialised. *)
Definition ctx_memory : MD4_CTX := Ctx 0 0 0 0 0 0 (replicate 64 (z2b 0)).

(** [hasher h; h.update(c) ...; h.final()]. *)
Definition hasher_run (mem : MD4_CTX) (chunks : list bytes) : md4_hash :=
  MD4_Final (foldl MD4_Update (MD4_Init mem) chunks).

(** [md4_hash::fromHashset]. *)
Definition fromHashset (hashset : list md4_hash) : md4_hash :=
  match hashset with
  | [] => hash_clear
  | [h] => h
  | _ => hasher_run ctx_memory [hashset ≫= m_hash]
  end.

(** ** RFC 1320 *)

Definition rfc_F (x y z : Z) : Z := Z.lor (Z.land x y) (Z.land (Z.ldiff (2 ^ 32 - 1) x) z).
Definition rotl (x s : Z) : Z := w32 (Z.shiftl x s) + Z.shiftr x (32 - s).

(** An operation of a round: [a = (a + f(b,c,d) + X[k] + t) <<< s], after which
    the registers rotate. *)
Definition rfc_op (f : Z -> Z -> Z -> Z) (t : Z) (X : nat -> Z) (r : regs) (op : nat * Z) : regs :=
  let '(a, b, c, d) := r in
  (d, rotl (w32 (a + f b c d + X (fst op) + t)) (snd op), b, c).

Definition round_ops (order : list nat) (shifts : list Z) : list (nat * Z) :=
  zip order (shifts ++ shifts ++ shifts ++ shifts).

Definition round1 := round_ops (seq 0 16) [3; 7; 11; 19].
Definition round2 := round_ops [0; 4; 8; 12; 1; 5; 9; 13; 2; 6; 10; 14; 3; 7; 11; 15]%nat [3; 5; 9; 13].
Definition round3 := round_ops [0; 8; 4; 12; 2; 10; 6; 14; 1; 9; 5; 13; 3; 11; 7; 15]%nat [3; 9; 11; 15].

Definition rfc_block (r : regs) (blk : bytes) : regs :=
  let X := SET blk in
  let r1 := foldl (rfc_op rfc_F 0 X) r round1 in
  let r2 := foldl (rfc_op G 0x5A827999 X) r1 round2 in
  let r3 := foldl (rfc_op H 0x6ED9EBA1 X) r2 round3 in
  let '(a, b, c, d) := r in
  let '(a', b', c', d') := r3 in
  (w32 (a + a'), w32 (b + b'), w32 (c + c'), w32 (d + d')).

(** Section 3.1 and 3.2: padding to 56 modulo 64 bytes, then the bit length
    modulo [2^64]. *)
Definition rfc_pad (m : bytes) : bytes :=
  m ++ [z2b 0x80] ++ replicate ((119 - length m mod 64) mod 64) (z2b 0)
    ++ le_split 8 (8 * Z.of_nat (length m)).

Fixpoint rfc_blocks (n : nat) (r : regs) (m : bytes) : regs :=
  match n with
  | O => r
  | S n' => rfc_blocks n' (rfc_block r (take 64 m)) (drop 64 m)
  end.

Definition rfc_init : regs := (0x67452301, 0xefcdab89, 0x98badcfe, 0x10325476).

Definition rfc_md4 (m : bytes) : md4_hash :=
  let p := rfc_pad m in
  let '(a, b, c, d) := rfc_blocks (length p / 64) rfc_init p in
  Hash (le_split 4 a ++ le_split 4 b ++ le_split 4 c ++ le_split 4 d).

(** * Lemmas *)

(** ** The block transformation is that of the RFC *)

Definition is_w32 (x : Z) : Prop := 0 <= x < 2 ^ 32.
Definition regs_ok (r : regs) : Prop :=
  let '(a, b, c, d) := r in is_w32 a /\ is_w32 b /\ is_w32 c /\ is_w32 d.

Lemma w32_range x : is_w32 (w32 x).
Proof. by apply Z.mod_pos_bound. Qed.

Lemma F_rfc x y z : is_w32 x -> is_w32 y -> is_w32 z -> F x y z = rfc_F x y z.
Proof.
  unfold is_w32, F, rfc_F. intros Hx Hy Hz. change (2 ^ 32 - 1) with (Z.ones 32).
  apply Z.bits_inj'. intros i Hi.
  rewrite Z.lor_spec, !Z.land_spec, Z.ldiff_spec, Z.lxor_spec, Z.land_spec, Z.lxor_spec.
  destruct (Z.lt_ge_cases i 32).
  - rewrite Z.ones_spec_low by lia. by destruct (Z.testbit x i), (Z.testbit y i), (Z.testbit z i).
  - rewrite (Z_testbit_above x 32 i), (Z_testbit_above y 32 i), (Z_testbit_above z 32 i) by lia.
    by destruct (Z.testbit (Z.ones 32) i).
Qed.

Lemma rotl_lor x s :
  is_w32 x -> 0 < s < 32 -> Z.lor (w32 (Z.shiftl x s)) (Z.shiftr x (32 - s)) = rotl x s.
Proof.
  unfold rotl, is_w32, w32. intros Hx Hs.
  assert (Z.shiftl x s mod 2 ^ 32 = Z.shiftl (x mod 2 ^ (32 - s)) s) as ->.
  { rewrite !Z.shiftl_mul_pow2 by lia.
    replace (2 ^ 32) with (2 ^ (32 - s) * 2 ^ s) by (rewrite <- Z.pow_add_r, Z.sub_add by lia; done).
    apply Z.mul_mod_distr_r; apply Z.pow_nonzero; lia. }
  rewrite Z_lor_shiftl_add; [by rewrite Z.shiftl_mul_pow2 by lia| |lia].
  rewrite Z.shiftr_div_pow2 by lia.
  assert (0 < 2 ^ (32 - s)) by (apply Z.pow_pos_nonneg; lia).
  split; [apply Z.div_pos; lia|]. apply Z.div_lt_upper_bound; [done|].
  rewrite <- Z.pow_add_r, Z.sub_add by lia. lia.
Qed.

Lemma rotl_range x s : is_w32 x -> 0 < s < 32 -> is_w32 (rotl x s).
Proof.
  intros Hx Hs. rewrite <- rotl_lor by done. unfold is_w32 in *.
  assert (Z.lor (w32 (Z.shiftl x s)) (Z.shiftr x (32 - s)) mod 2 ^ 32 =
          Z.lor (w32 (Z.shiftl x s)) (Z.shiftr x (32 - s))) as <-; [|by apply Z.mod_pos_bound].
  apply Z.bits_inj'. intros i Hi. destruct (Z.lt_ge_cases i 32).
  - by rewrite Z.mod_pow2_bits_low.
  - rewrite Z.mod_pow2_bits_high, Z.lor_spec, Z.shiftr_spec by lia.
    rewrite (Z_testbit_above _ 32 i) by (try apply w32_range; lia).
    by rewrite (Z_testbit_above x 32) by lia.
Qed.

Lemma STEP_rfc f g a b c d k t s :
  f b c d = g b c d -> 0 < s < 32 ->
  STEP f a b c d (k + t) s = rotl (w32 (a + g b c d + k + t)) s.
Proof.
  intros E Hs. unfold STEP. rewrite E, rotl_lor by (done || apply w32_range).
  by rewrite !Z.add_assoc.
Qed.

Lemma STEP_range f a b c d x s : 0 < s < 32 -> is_w32 (STEP f a b c d x s).
Proof. intros. unfold STEP. rewrite rotl_lor by (done || apply w32_range). apply rotl_range; [apply w32_range|done]. Qed.

(** Four RFC operations are one line group. *)
Lemma STEP4_rfc f g t X r k0 s0 k1 s1 k2 s2 k3 s3 x0 x1 x2 x3 :
  (forall x y z, is_w32 x -> is_w32 y -> is_w32 z -> f x y z = g x y z) ->
  x0 = X k0 + t -> x1 = X k1 + t -> x2 = X k2 + t -> x3 = X k3 + t ->
  0 < s0 < 32 -> 0 < s1 < 32 -> 0 < s2 < 32 -> 0 < s3 < 32 -> regs_ok r ->
  let r' := STEP4 f r x0 s0 x1 s1 x2 s2 x3 s3 in
  foldl (rfc_op g t X) r [(k0, s0); (k1, s1); (k2, s2); (k3, s3)] = r' /\ regs_ok r'.
Proof.
  destruct r as [[[a b] c] d].
  intros E -> -> -> -> H0 H1 H2 H3 (Ha & Hb & Hc & Hd). cbv zeta.
  unfold STEP4. cbn [foldl rfc_op fst snd].
  set (a' := STEP f a b c d _ _). assert (is_w32 a') by by apply STEP_range.
  set (d' := STEP f d a' b c _ _). assert (is_w32 d') by by apply STEP_range.
  set (c' := STEP f c d' a' b _ _). assert (is_w32 c') by by apply STEP_range.
  split; [|split_and!; auto using STEP_range].
  rewrite <- (STEP_rfc f g a b c d) by auto. fold a'.
  rewrite <- (STEP_rfc f g d a' b c) by auto. fold d'.
  rewrite <- (STEP_rfc f g c d' a' b) by auto. fold c'.
  by rewrite <- (STEP_rfc f g b c' d' a') by auto.
Qed.

(** Sixteen operations are four line groups. *)
Lemma foldl_sixteen {A B} (f : A -> B -> A) r x0 x1 x2 x3 x4 x5 x6 x7 x8 x9 xa xb xc xd xe xf :
  foldl f r [x0; x1; x2; x3; x4; x5; x6; x7; x8; x9; xa; xb; xc; xd; xe; xf] =
  foldl f (foldl f (foldl f (foldl f r [x0; x1; x2; x3]) [x4; x5; x6; x7])
    [x8; x9; xa; xb]) [xc; xd; xe; xf].
Proof. done. Qed.

(** Replace the innermost group of RFC operations by the line group of the
    source, and forget how it was computed. *)
Ltac line_group :=
  match goal with
  | |- context [foldl (rfc_op ?g ?t ?X) ?r [(?k0, ?s0); (?k1, ?s1); (?k2, ?s2); (?k3, ?s3)]] =>
    match goal with
    | |- context [STEP4 ?f r ?x0 s0 ?x1 s1 ?x2 s2 ?x3 s3] =>
      let E := fresh in let K := fresh in
      destruct (STEP4_rfc f g t X r k0 s0 k1 s1 k2 s2 k3 s3 x0 x1 x2 x3) as [E K];
      [solve [auto using F_rfc]|rewrite ?Z.add_0_r; reflexivity..|lia|lia|lia|lia|done|];
      rewrite E; clear E;
      generalize dependent (STEP4 f r x0 s0 x1 s1 x2 s2 x3 s3); intros
    end
  end.

Lemma body_block_rfc r blk :
  regs_ok r -> body_block r blk = rfc_block r blk /\ regs_ok (body_block r blk).
Proof.
  destruct r as [[[a0 b0] c0] d0]. intros Hr. unfold body_block, rfc_block.
  unfold round1, round2, round3, round_ops. cbn [zip zip_with seq app].
  cbv zeta. rewrite !foldl_sixteen. do 12 line_group.
  match goal with |- context [match ?x with _ => _ end] => destruct x as [[[a b] c] d] end.
  split; [|split_and!; apply w32_range].
  by rewrite (Z.add_comm a), (Z.add_comm b), (Z.add_comm c), (Z.add_comm d).
Qed.

#[local] Opaque body_block rfc_block.

Lemma body_loop_rfc n r m :
  regs_ok r ->
  body_loop n r m = (rfc_blocks n r m, drop (64 * n) m) /\ regs_ok (rfc_blocks n r m).
Proof.
  revert r m. induction n as [|n IH]; intros r m Hr; [done|].
  cbn [body_loop rfc_blocks]. destruct (body_block_rfc r (take 64 m) Hr) as [E Hr'].
  rewrite E in *. destruct (IH _ (drop 64 m) Hr') as [-> ?]. split; [|done].
  f_equal. rewrite drop_drop. f_equal. lia.
Qed.

(** ** Streaming *)

Lemma rfc_blocks_add n k r m :
  rfc_blocks (n + k) r m = rfc_blocks k (rfc_blocks n r m) (drop (64 * n) m).
Proof.
  revert r m. induction n as [|n IH]; intros r m; [done|].
  cbn [Nat.add rfc_blocks]. rewrite IH, drop_drop. do 2 f_equal. lia.
Qed.

Lemma rfc_blocks_app n r m x :
  (64 * n <= length m)%nat -> rfc_blocks n r (m ++ x) = rfc_blocks n r m.
Proof.
  revert r m. induction n as [|n IH]; intros r m Hn; [done|]. cbn [rfc_blocks].
  rewrite take_app_le, drop_app_le by lia. apply IH. rewrite length_drop. lia.
Qed.

(** The registers after the complete blocks of [m], and what is left of it. *)
Definition md4_regs (m : bytes) : regs := rfc_blocks (length m / 64) rfc_init m.
Definition tail (m : bytes) : bytes := drop (64 * (length m / 64)) m.

Lemma div_mod_64 n : (n = 64 * (n / 64) + n mod 64 /\ n mod 64 < 64)%nat.
Proof. split; [apply Nat.div_mod_eq|apply Nat.mod_upper_bound; lia]. Qed.

Lemma length_tail m : length (tail m) = (length m mod 64)%nat.
Proof. unfold tail. rewrite length_drop. pose proof (div_mod_64 (length m)). lia. Qed.

Lemma split_app (m x : bytes) :
  (length (m ++ x) / 64 = length m / 64 + length (tail m ++ x) / 64)%nat.
Proof.
  rewrite !length_app, length_tail. destruct (div_mod_64 (length m)) as [E _].
  rewrite E at 1.
  replace (64 * (length m / 64) + length m mod 64 + length x)%nat with
    (length m mod 64 + length x + (length m / 64) * 64)%nat by lia.
  rewrite Nat.div_add by lia. lia.
Qed.

Lemma drop_app_tail (m x : bytes) :
  drop (64 * (length m / 64)) (m ++ x) = tail m ++ x.
Proof. unfold tail. rewrite drop_app_le; [done|]. pose proof (div_mod_64 (length m)). lia. Qed.

(** Appending to the message continues from its registers and its tail. *)
Lemma md4_regs_app m x :
  md4_regs (m ++ x) = rfc_blocks (length (tail m ++ x) / 64) (md4_regs m) (tail m ++ x).
Proof.
  unfold md4_regs. rewrite split_app, rfc_blocks_add, drop_app_tail.
  rewrite (rfc_blocks_app (length m / 64)); [done|].
  pose proof (div_mod_64 (length m)). lia.
Qed.

Lemma tail_app m x : tail (m ++ x) = tail (tail m ++ x).
Proof.
  unfold tail at 1. rewrite split_app, Nat.mul_add_distr_l, <- drop_drop, drop_app_tail.
  done.
Qed.

Lemma tail_short m : (length m < 64)%nat -> tail m = m.
Proof. intros. unfold tail. by rewrite Nat.div_small. Qed.

Lemma md4_regs_short m : (length m < 64)%nat -> md4_regs m = rfc_init.
Proof. intros. unfold md4_regs. by rewrite Nat.div_small. Qed.

Definition ctx_regs (ctx : MD4_CTX) : regs := (ra ctx, rb ctx, rc ctx, rd ctx).

(** What the context knows of the message [m] fed so far. *)
Record ctx_inv (ctx : MD4_CTX) (m : bytes) : Prop := {
  inv_regs : ctx_regs ctx = md4_regs m;
  inv_regs_ok : regs_ok (ctx_regs ctx);
  inv_buffer : length (buffer ctx) = 64%nat;
  inv_tail : take (length m mod 64) (buffer ctx) = tail m;
  inv_lo : lo ctx = Z.of_nat (length m) mod 2 ^ 29;
  inv_hi : hi ctx = (Z.of_nat (length m) / 2 ^ 29) mod 2 ^ 32
}.

Lemma body_spec ctx data n :
  regs_ok (ctx_regs ctx) ->
  let '(ctx', ptr) := body ctx data (64 * n) in
  ctx_regs ctx' = rfc_blocks n (ctx_regs ctx) data /\ regs_ok (ctx_regs ctx') /\
  buffer ctx' = buffer ctx /\ lo ctx' = lo ctx /\ hi ctx' = hi ctx /\ ptr = drop (64 * n) data.
Proof.
  intros Hr. unfold body. rewrite Nat.mul_comm, Nat.div_mul by lia.
  destruct (body_loop_rfc n (ctx_regs ctx) data Hr) as [E Hr'].
  unfold ctx_regs in E at 1. rewrite E. rewrite Nat.mul_comm.
  destruct (rfc_blocks n _ data) as [[[a b] c] d]. by split_and!.
Qed.

Lemma length_memcpy buf k data :
  (k + length data <= length buf)%nat -> length (memcpy buf k data) = length buf.
Proof. intros. unfold memcpy. rewrite !length_app, length_take, length_drop. lia. Qed.

(** [memcpy] in the middle of the buffer extends its known prefix. *)
Lemma take_memcpy buf k data :
  (k <= length buf)%nat -> take (k + length data) (memcpy buf k data) = take k buf ++ data.
Proof.
  intros. unfold memcpy. rewrite app_assoc. apply take_app_length'.
  rewrite length_app, length_take. lia.
Qed.

Lemma update_blocks_spec ctx data :
  regs_ok (ctx_regs ctx) -> length (buffer ctx) = 64%nat ->
  let ctx' := update_blocks ctx data in
  ctx_regs ctx' = rfc_blocks (length data / 64) (ctx_regs ctx) data /\
  regs_ok (ctx_regs ctx') /\ length (buffer ctx') = 64%nat /\
  take (length data mod 64) (buffer ctx') = tail data /\
  lo ctx' = lo ctx /\ hi ctx' = hi ctx.
Proof.
  intros Hr Hb. cbv zeta. unfold update_blocks.
  pose proof (div_mod_64 (length data)) as [Hdm Hlt].
  pose proof (length_tail data) as Ht.
  destruct (Nat.leb_spec 64 (length data)) as [Hs|Hs].
  - pose proof (body_spec ctx data (length data / 64) Hr) as HB.
    destruct (body ctx data _) as [ctx' ptr]. destruct HB as (E & Hr' & Eb & El & Eh & ->).
    fold (tail data). rewrite (take_ge (tail data)) by lia.
    unfold set_buffer, ctx_regs in *. cbn [ra rb rc rd lo hi buffer].
    rewrite Eb in *. split_and!; try done.
    + rewrite length_memcpy; lia.
    + rewrite <- Ht. apply (take_memcpy _ 0). lia.
  - rewrite Nat.mod_small, Nat.div_small, tail_short, take_ge by lia.
    unfold set_buffer, ctx_regs in *. cbn [ra rb rc rd lo hi buffer rfc_blocks].
    split_and!; try done.
    + rewrite length_memcpy; lia.
    + apply (take_memcpy _ 0). lia.
Qed.

Lemma length_app_mod m x :
  (length (m ++ x) mod 64 = length (tail m ++ x) mod 64)%nat.
Proof. rewrite <- !length_tail. by rewrite tail_app. Qed.

(** The bytes already used in the buffer. *)
Lemma used_spec ctx (m : bytes) :
  lo ctx = Z.of_nat (length m) mod 2 ^ 29 ->
  Z.to_nat (Z.land (lo ctx) 0x3f) = (length m mod 64)%nat.
Proof.
  intros ->. change 0x3f with (Z.ones 6). rewrite Z.land_ones by lia.
  rewrite Z.mod_mod_divide by (exists (2 ^ 23); done).
  change (2 ^ 6) with (Z.of_nat 64). by rewrite <- Nat2Z.inj_mod, Nat2Z.id.
Qed.

(** The counters hold the byte count of the message modulo [2^61]. *)
Lemma counters_spec n s :
  0 <= n -> 0 <= s < 2 ^ 32 ->
  let l := n mod 2 ^ 29 in
  let h := (n / 2 ^ 29) mod 2 ^ 32 in
  let l' := Z.land (w32 (l + s)) 0x1fffffff in
  l' = (n + s) mod 2 ^ 29 /\
  w32 ((if l' <? l then w32 (h + 1) else h) + Z.shiftr s 29) = ((n + s) / 2 ^ 29) mod 2 ^ 32.
Proof.
  intros Hn Hs. cbv zeta. change 0x1fffffff with (Z.ones 29). rewrite Z.land_ones by lia.
  unfold w32. rewrite Z.mod_mod_divide by (exists 8; done).
  rewrite Z.add_mod_idemp_l by done. split; [done|].
  rewrite Z.shiftr_div_pow2 by lia. set (M := 2 ^ 29).
  assert (((n + s) / M) = n / M + s / M + (if (n + s) mod M <? n mod M then 1 else 0)) as ->.
  { subst M. destruct (Z.ltb_spec ((n + s) mod 2 ^ 29) (n mod 2 ^ 29));
      Z.div_mod_to_equations; lia. }
  destruct (_ <? _); rewrite ?Z.add_mod_idemp_l, ?Z.add_0_r by done.
  - rewrite <- Z.add_assoc, Z.add_mod_idemp_l by done. f_equal. lia.
  - done.
Qed.

Lemma update_counters_spec ctx m data :
  ctx_inv ctx m -> Z.of_nat (length data) < 2 ^ 32 ->
  lo (update_counters ctx (Z.of_nat (length data))) = Z.of_nat (length (m ++ data)) mod 2 ^ 29 /\
  hi (update_counters ctx (Z.of_nat (length data))) =
    (Z.of_nat (length (m ++ data)) / 2 ^ 29) mod 2 ^ 32.
Proof.
  intros [_ _ _ _ Hlo Hhi] Hd. unfold update_counters. cbn [lo hi]. rewrite Hlo, Hhi.
  rewrite length_app, Nat2Z.inj_add. apply counters_spec; lia.
Qed.

(** A tail shorter than a block is completed by the first bytes of the data. *)
Lemma blocks_first r t x :
  (length t < 64)%nat -> (64 <= length (t ++ x))%nat ->
  let free := (64 - length t)%nat in
  rfc_blocks (length (t ++ x) / 64) r (t ++ x) =
    rfc_blocks (length (drop free x) / 64) (rfc_block r (t ++ take free x)) (drop free x) /\
  tail (t ++ x) = tail (drop free x) /\
  (length (t ++ x) mod 64 = length (drop free x) mod 64)%nat.
Proof.
  intros Ht Hx. cbv zeta. rewrite length_app in Hx.
  assert (length (t ++ x) = length (drop (64 - length t) x) + 1 * 64)%nat as El.
  { rewrite length_app, length_drop. lia. }
  assert (drop 64 (t ++ x) = drop (64 - length t) x) as Ed.
  { rewrite drop_app, drop_ge by lia. done. }
  assert (take 64 (t ++ x) = t ++ take (64 - length t) x) as Et.
  { rewrite take_app, take_ge by lia. done. }
  unfold tail. rewrite El, Nat.div_add, Nat.Div0.mod_add by lia.
  split_and!; [| |done].
  2: { replace (64 * (length (drop (64 - length t) x) / 64 + 1))%nat with
         (64 + 64 * (length (drop (64 - length t) x) / 64))%nat by lia.
       by rewrite <- drop_drop, Ed. }
  rewrite Nat.add_comm. cbn [Nat.add rfc_blocks]. by rewrite Et, Ed.
Qed.

(** Completing the partial block in the buffer. *)
Lemma complete_block_spec ctx t data :
  regs_ok (ctx_regs ctx) -> length (buffer ctx) = 64%nat ->
  take (length t) (buffer ctx) = t -> (length t < 64)%nat -> (64 - length t <= length data)%nat ->
  let free := (64 - length t)%nat in
  let buf := memcpy (buffer ctx) (length t) (take free data) in
  let ctx2 := fst (body (set_buffer ctx buf) buf 64) in
  ctx_regs ctx2 = rfc_block (ctx_regs ctx) (t ++ take free data) /\ regs_ok (ctx_regs ctx2) /\
  length (buffer ctx2) = 64%nat /\ lo ctx2 = lo ctx /\ hi ctx2 = hi ctx.
Proof.
  intros Hok Hb Ht Hlt Hs. cbv zeta.
  set (free := (64 - length t)%nat). set (buf := memcpy _ _ _).
  assert (length (take free data) = free) as Hfree by (rewrite length_take; lia).
  assert (length buf = 64%nat) as Hbuf by (subst buf; rewrite length_memcpy; lia).
  assert (buf = t ++ take free data) as Ebuf.
  { rewrite <- Ht at 1. rewrite <- (take_memcpy (buffer ctx)) by lia. fold buf.
    rewrite take_ge by lia. done. }
  pose proof (body_spec (set_buffer ctx buf) buf 1 Hok) as HB.
  change (64 * 1)%nat with 64%nat in HB. cbn [set_buffer buffer rfc_blocks] in *.
  destruct (body _ _ 64) as [ctx2 ptr]. destruct HB as (E & Hr' & Eb' & El & Eh & _).
  rewrite (take_ge buf) in E by lia. cbn [fst]. rewrite <- Ebuf, Eb'. by split_and!.
Qed.

(** The invariant for [m ++ data], said of the tail of [m] and [data]. *)
Lemma ctx_inv_app ctx m data :
  let x := tail m ++ data in
  ctx_regs ctx = rfc_blocks (length x / 64) (md4_regs m) x ->
  regs_ok (ctx_regs ctx) -> length (buffer ctx) = 64%nat ->
  take (length x mod 64) (buffer ctx) = tail x ->
  lo ctx = Z.of_nat (length (m ++ data)) mod 2 ^ 29 ->
  hi ctx = (Z.of_nat (length (m ++ data)) / 2 ^ 29) mod 2 ^ 32 ->
  ctx_inv ctx (m ++ data).
Proof.
  cbv zeta. intros.
  split; [rewrite md4_regs_app|..]; try (rewrite length_app_mod, tail_app); assumption.
Qed.

Lemma MD4_Update_inv ctx m data :
  ctx_inv ctx m -> Z.of_nat (length data) < 2 ^ 32 -> ctx_inv (MD4_Update ctx data) (m ++ data).
Proof.
  intros HI Hd. destruct (update_counters_spec ctx m data HI Hd) as [Hlo' Hhi'].
  destruct HI as [Hr Hok Hb Ht Hlo Hhi]. unfold MD4_Update. rewrite (used_spec ctx m Hlo).
  set (ctx1 := update_counters ctx (Z.of_nat (length data))) in *.
  change (ctx_regs ctx) with (ctx_regs ctx1) in *. change (buffer ctx) with (buffer ctx1) in *.
  clearbody ctx1. pose proof (length_tail m) as Hlt. pose proof (div_mod_64 (length m)) as [_ Hu].
  assert (length (tail m) < 64)%nat by lia. rewrite <- Hlt in Ht |- *.
  case_decide as Hz.
  - apply nil_length_inv in Hz.
    pose proof (update_blocks_spec ctx1 data Hok Hb) as (U1&U2&U3&U4&U5&U6).
    apply ctx_inv_app; rewrite ?Hz, ?U5, ?U6; try assumption. by rewrite U1, Hr.
  - destruct (Nat.ltb_spec (length data) (64 - length (tail m))) as [Hs|Hs].
    + assert (length (tail m ++ data) < 64)%nat by (rewrite length_app; lia).
      apply ctx_inv_app; [|exact Hok| | |exact Hlo'|exact Hhi'].
      * rewrite Nat.div_small by assumption. apply Hr.
      * cbn [set_buffer buffer]. rewrite length_memcpy; lia.
      * rewrite Nat.mod_small, (tail_short (tail m ++ data)), length_app by assumption. cbn [set_buffer buffer].
        rewrite take_memcpy by lia. by rewrite Ht.
    + destruct (blocks_first (md4_regs m) (tail m) data) as (Eb & Et & Em);
        [assumption|rewrite length_app; lia|].
      destruct (complete_block_spec ctx1 (tail m) data) as (E & Hr' & Hb2 & El & Eh); [assumption..|].
      cbn [set_buffer buffer] in *. destruct (body _ _ 64) as [ctx2 ptr]. cbn [fst] in *.
      pose proof (update_blocks_spec ctx2 (drop (64 - length (tail m)) data) Hr' Hb2)
        as (U1&U2&U3&U4&U5&U6).
      apply ctx_inv_app; rewrite ?Eb, ?Et, ?Em, ?U5, ?U6, ?El, ?Eh; try assumption.
      by rewrite U1, E, Hr.
Qed.

(** The known prefix of the 64-byte buffer. *)
Definition buf_prefix (buf t : bytes) : Prop := length buf = 64%nat /\ take (length t) buf = t.

Lemma buf_prefix_memcpy buf t d k :
  buf_prefix buf t -> k = length t -> (length t + length d <= 64)%nat ->
  buf_prefix (memcpy buf k d) (t ++ d).
Proof.
  intros [Hb Ht] -> Hl. split; [rewrite length_memcpy; lia|].
  rewrite length_app, take_memcpy by lia. by rewrite Ht.
Qed.

Lemma buf_prefix_full buf t : buf_prefix buf t -> length t = 64%nat -> buf = t.
Proof. intros [Hb Ht] Hl. rewrite <- Ht. rewrite take_ge; [done|lia]. Qed.

Lemma le_split_add n k v :
  le_split (n + k) v = le_split n v ++ le_split k (Z.shiftr v (8 * Z.of_nat n)).
Proof.
  revert v. induction n as [|n IH]; intros v; [cbn [Nat.add]; by rewrite Z.mul_0_r, Z.shiftr_0_r|].
  cbv [le_split Nat.add] in *. fold le_split in *. fold Nat.add in *.
  rewrite IH. cbn [app]. do 3 f_equal. rewrite Z.shiftr_shiftr by lia. f_equal. lia.
Qed.

(** The 8 bytes of the bit count that [MD4_Final] stores. *)
Lemma bit_count_spec n :
  0 <= n ->
  le_split 4 (w32 (Z.shiftl (n mod 2 ^ 29) 3)) ++ le_split 4 ((n / 2 ^ 29) mod 2 ^ 32) =
  le_split 8 (8 * n).
Proof.
  intros Hn. change 8%nat with (4 + 4)%nat. rewrite le_split_add.
  change (8 * Z.of_nat 4) with 32.
  rewrite (le_split_mod (8 * n) 4), (le_split_mod (Z.shiftr (8 * n) 32) 4).
  change (2 ^ (Z.of_nat 4 * 8)) with (2 ^ 32).
  rewrite Z.shiftl_mul_pow2, Z.shiftr_div_pow2 by lia. unfold w32. do 2 f_equal.
  - change (2 ^ 32) with (2 ^ 29 * 2 ^ 3). rewrite (Z.mul_comm 8).
    rewrite Zmult_mod_distr_r by done. change 8 with (2 ^ 3).
    rewrite Z.mul_mod_distr_r by done. by rewrite Z.mod_mod.
  - f_equal. change (2 ^ 32) with (8 * 2 ^ 29). by rewrite Z.div_mul_cancel_l by done.
Qed.

Lemma body_one ctx buf :
  regs_ok (ctx_regs ctx) -> length buf = 64%nat ->
  let ctx' := fst (body ctx buf 64) in
  ctx_regs ctx' = rfc_block (ctx_regs ctx) buf /\ regs_ok (ctx_regs ctx') /\
  buffer ctx' = buffer ctx /\ lo ctx' = lo ctx /\ hi ctx' = hi ctx.
Proof.
  intros Hr Hb. cbv zeta. pose proof (body_spec ctx buf 1 Hr) as HB.
  change (64 * 1)%nat with 64%nat in HB.
  destruct (body ctx buf 64) as [ctx' ptr]. cbn [fst].
  destruct HB as (E & Hr' & Eb & El & Eh & _). cbn [rfc_blocks] in E.
  rewrite take_ge in E by lia. by split_and!.
Qed.

(** The padding of the RFC, as it follows the tail of the message. *)
Definition padding (m : bytes) : bytes :=
  [z2b 0x80] ++ replicate ((119 - length m mod 64) mod 64) (z2b 0)
    ++ le_split 8 (8 * Z.of_nat (length m)).

Lemma pad_mod u :
  (u < 64)%nat ->
  ((119 - u) mod 64 = if (64 - S u <? 8)%nat then 64 - S u + 56 else 64 - S u - 8)%nat.
Proof.
  intros Hu. destruct (Nat.ltb_spec (64 - S u) 8).
  - rewrite Nat.mod_small; lia.
  - replace (119 - u)%nat with (64 - S u - 8 + 1 * 64)%nat by lia.
    rewrite Nat.Div0.mod_add, Nat.mod_small; lia.
Qed.

Ltac buf_len := rewrite ?length_app, ?length_replicate; cbn [length]; lia.

(** The buffer when the count fits after the message. *)
Lemma pad_one_block buf t cnt :
  buf_prefix buf t -> length cnt = 8%nat -> (8 <= 64 - S (length t))%nat ->
  memcpy (memcpy (memcpy buf (length t) [z2b 0x80]) (S (length t))
    (replicate (64 - S (length t) - 8) (z2b 0))) 56 cnt =
  t ++ [z2b 0x80] ++ replicate (64 - S (length t) - 8) (z2b 0) ++ cnt.
Proof.
  intros P Hc Hf. rewrite !app_assoc. apply buf_prefix_full; [|buf_len].
  do 3 (apply buf_prefix_memcpy; [|buf_len..]). done.
Qed.

(** The buffer that closes the message when it does not. *)
Lemma pad_first_block buf t :
  buf_prefix buf t -> (length t < 64)%nat ->
  memcpy (memcpy buf (length t) [z2b 0x80]) (S (length t)) (replicate (64 - S (length t)) (z2b 0)) =
  t ++ [z2b 0x80] ++ replicate (64 - S (length t)) (z2b 0).
Proof.
  intros P Hf. rewrite !app_assoc. apply buf_prefix_full; [|buf_len].
  do 2 (apply buf_prefix_memcpy; [|buf_len..]). done.
Qed.

Lemma pad_second_block buf cnt :
  length buf = 64%nat -> length cnt = 8%nat ->
  memcpy (memcpy buf 0 (replicate 56 (z2b 0))) 56 cnt = replicate 56 (z2b 0) ++ cnt.
Proof.
  intros Hb Hc. apply buf_prefix_full; [|buf_len].
  apply buf_prefix_memcpy; [|buf_len..].
  apply (buf_prefix_memcpy buf []); [by split|done|buf_len].
Qed.

(** Two blocks, the first of them full. *)
Lemma rfc_two_blocks r b1 b2 :
  length b1 = 64%nat -> length b2 = 64%nat ->
  rfc_blocks (length (b1 ++ b2) / 64) r (b1 ++ b2) = rfc_block (rfc_block r b1) b2.
Proof.
  intros H1 H2. rewrite length_app, H1, H2. change ((64 + 64) / 64)%nat with 2%nat.
  cbn [rfc_blocks]. rewrite take_app_length', drop_app_length', take_ge by lia. done.
Qed.

(** The bit count of [m], as the context holds it. *)
Definition count_bytes (m : bytes) : bytes := le_split 8 (8 * Z.of_nat (length m)).

Lemma final_count_spec ctx (m t : bytes) free :
  buf_prefix (buffer ctx) t -> length t = (64 - free)%nat -> (8 <= free <= 64)%nat ->
  lo ctx = Z.of_nat (length m) mod 2 ^ 29 ->
  hi ctx = (Z.of_nat (length m) / 2 ^ 29) mod 2 ^ 32 ->
  let ctx' := final_count ctx (length t) free in
  buffer ctx' = t ++ replicate (free - 8) (z2b 0) ++ count_bytes m /\
  ctx_regs ctx' = ctx_regs ctx.
Proof.
  intros P Hl Hf Hlo Hhi. cbv zeta. split; [|done].
  unfold final_count, set_buffer, count_bytes. cbn [lo hi buffer].
  rewrite <- bit_count_spec, <- Hlo, <- Hhi by lia.
  rewrite app_assoc. apply buf_prefix_full; [|rewrite !length_app, !length_le_split; buf_len].
  do 2 (apply buf_prefix_memcpy; [|rewrite ?length_app, ?length_le_split; buf_len..]). done.
Qed.

(** What [MD4_Final] leaves in registers and buffer is the last block of the
    padded message. *)
Lemma final_pad_spec ctx m :
  ctx_inv ctx m ->
  let ctx' := final_pad ctx in
  regs_ok (ctx_regs ctx') /\ length (buffer ctx') = 64%nat /\
  rfc_blocks (length (tail m ++ padding m) / 64) (md4_regs m) (tail m ++ padding m) =
  rfc_block (ctx_regs ctx') (buffer ctx').
Proof.
  intros [Hr Hok Hb Ht Hlo Hhi]. cbv zeta. unfold final_pad, final_close, padding.
  rewrite (used_spec ctx m Hlo). fold (count_bytes m).
  assert (length (count_bytes m) = 8%nat) as Hc by apply length_le_split.
  pose proof (length_tail m) as Hlt. pose proof (div_mod_64 (length m)) as [_ Hu].
  rewrite <- Hlt in Ht, Hu |- *. rewrite pad_mod by done. set (t := tail m) in *.
  assert (buf_prefix (buffer ctx) t) as P by by split.
  set (ctx1 := set_buffer ctx (memcpy _ _ [_])).
  assert (buf_prefix (buffer ctx1) (t ++ [z2b 128])) as P1
    by (apply buf_prefix_memcpy; [done|done|buf_len]).
  assert (length (t ++ [z2b 128]) = S (length t)) as Hl1 by buf_len.
  destruct (Nat.ltb_spec (64 - S (length t)) 8) as [Hf|Hf].
  - set (ctx2 := set_buffer ctx1 _).
    assert (buffer ctx2 = t ++ [z2b 128] ++ replicate (64 - S (length t)) (z2b 0)) as E2
      by (apply pad_first_block; done).
    assert (length (buffer ctx2) = 64%nat) as Hb2 by (rewrite E2; buf_len).
    destruct (body_one ctx2 (buffer ctx2) Hok Hb2) as (R1 & R2 & R3 & R4 & R5).
    change (ctx_regs ctx2) with (ctx_regs ctx) in R1. change (lo ctx2) with (lo ctx) in R4.
    change (hi ctx2) with (hi ctx) in R5.
    generalize dependent (fst (body ctx2 (buffer ctx2) 64)). intros ctx3 R1 R2 R3 R4 R5.
    destruct (final_count_spec ctx3 m [] 64) as [B C];
      [split; [by rewrite R3|done]|done|lia|congruence..|]. cbn [length] in B, C.
    rewrite C, B. split_and!; [done|buf_len|].
    rewrite replicate_add. change (64 - 8)%nat with 56%nat. cbn [app].
    replace (t ++ z2b 128 :: (replicate (64 - S (length t)) (z2b 0) ++ replicate 56 (z2b 0)) ++ count_bytes m)
      with (buffer ctx2 ++ replicate 56 (z2b 0) ++ count_bytes m)
      by (rewrite E2; by rewrite <- !app_assoc).
    rewrite rfc_two_blocks by (done || buf_len). rewrite R1, Hr. done.
  - destruct (final_count_spec ctx1 m (t ++ [z2b 128]) (64 - S (length t))) as [B C];
      [done|lia|lia|done..|]. rewrite Hl1 in B, C. rewrite C, B, <- !app_assoc.
    split_and!; [exact Hok|buf_len|]. change (ctx_regs ctx1) with (ctx_regs ctx). rewrite <- Hr.
    set (buf := t ++ _). assert (length buf = 64%nat) as Hbuf by (subst buf; buf_len).
    rewrite Hbuf. change (64 / 64)%nat with 1%nat. cbn [rfc_blocks]. by rewrite take_ge by lia.
Qed.

Lemma MD4_Final_spec ctx m : ctx_inv ctx m -> MD4_Final ctx = rfc_md4 m.
Proof.
  intros HI. destruct (final_pad_spec ctx m HI) as (Hok & Hb & E).
  unfold MD4_Final, rfc_md4. change (rfc_pad m) with (m ++ padding m).
  fold (md4_regs (m ++ padding m)). rewrite md4_regs_app, E.
  destruct (body_one _ _ Hok Hb) as (R & _). rewrite <- R. unfold ctx_regs.
  by destruct (body _ _ 64).
Qed.

Lemma MD4_Init_inv mem : length (buffer mem) = 64%nat -> ctx_inv (MD4_Init mem) [].
Proof. intros. by split. Qed.

Lemma updates_inv chunks ctx m :
  ctx_inv ctx m -> Forall (fun c : bytes => Z.of_nat (length c) < 2 ^ 32) chunks ->
  ctx_inv (foldl MD4_Update ctx chunks) (m ++ concat chunks).
Proof.
  intros HI HF. revert ctx m HI. induction HF as [|c chunks Hc HF IH]; intros ctx m HI.
  - cbn. by rewrite app_nil_r.
  - cbn [foldl concat]. rewrite app_assoc. apply IH, MD4_Update_inv; done.
Qed.

(** ** Properties *)

(** C2: the streaming MD4 of src/md4.cpp computes RFC 1320: however a message
    is cut into chunks of less than 4 GiB, initialising a context (over any
    memory contents), updating it with the chunks in order and finalising it
    yields the digest that the RFC defines for the whole message, including
    messages whose bit length exceeds 32 bits. *)
Theorem md4_streaming (mem : MD4_CTX) (chunks : list bytes) :
  length (buffer mem) = 64%nat ->
  Forall (fun c : bytes => Z.of_nat (length c) < 2 ^ 32) chunks ->
  hasher_run mem chunks = rfc_md4 (concat chunks).
Proof.
  intros Hb HF. unfold hasher_run. apply MD4_Final_spec.
  apply (updates_inv chunks (MD4_Init mem) []); [by apply MD4_Init_inv|done].
Qed.

(** RFC 1320's test vector MD4("abc"), fed as "a" and "bc". *)
Lemma md4_streaming_witness :
  let chunks := [[z2b 97]; [z2b 98; z2b 99]] in
  hasher_run ctx_memory chunks = rfc_md4 [z2b 97; z2b 98; z2b 99] /\
  value (hasher_run ctx_memory chunks) = 0xa448017aaf21d8525fc10ae87aa6729d.
Proof.
  cbv zeta. split.
  - apply (md4_streaming ctx_memory [[z2b 97]; [z2b 98; z2b 99]]); [done|].
    repeat constructor.
  - by vm_compute.
Defined.

(** The digest of the empty message is [md4_hash::terminal], the extra entry of
    the hash set of a file whose size is a multiple of the piece size. *)
Example terminal_is_empty_digest :
  value (hasher_run ctx_memory []) = 0x31D6CFE0D16AE931B73C59D7E0C089C0.
Proof. by vm_compute. Qed.
