(* ===== verification/CTag.v ===== *)
(** * Tags and tag lists: include/libed2k/ctag.hpp, src/ctag.cpp

    The typed name/value pairs that carry file and client properties in
    almost every packet.  The class hierarchy below [base_tag] is a record
    with a sum of the value types; virtual functions are functions by cases
    on that sum.  [tag_stored] says which tag comes back when a tag is saved
    and loaded again. *)

From S2P Require Import Prelude Archive Md4Hash.

(** ** Tag types *)

Definition TAGTYPE_UNDEFINED : Z := 0x00.
Definition TAGTYPE_HASH16    : Z := 0x01.
Definition TAGTYPE_STRING    : Z := 0x02.
Definition TAGTYPE_UINT32    : Z := 0x03.
Definition TAGTYPE_FLOAT32   : Z := 0x04.
Definition TAGTYPE_BOOL      : Z := 0x05.
Definition TAGTYPE_BOOLARRAY : Z := 0x06.
Definition TAGTYPE_BLOB      : Z := 0x07.
Definition TAGTYPE_UINT16    : Z := 0x08.
Definition TAGTYPE_UINT8     : Z := 0x09.
Definition TAGTYPE_BSOB      : Z := 0x0A.
Definition TAGTYPE_UINT64    : Z := 0x0B.
Definition TAGTYPE_STR1      : Z := 0x11.
Definition TAGTYPE_STR16     : Z := 0x20.
Definition TAGTYPE_STR22     : Z := 0x26.

(** [MAX_ED2K_PACKET_LEN = 2 * BLOCK_SIZE] of constants.hpp. *)
Definition BLOCK_SIZE : Z := 256 * 1024.
Definition MAX_ED2K_PACKET_LEN : Z := 2 * BLOCK_SIZE.

(** ** The classes *)

(** [typed_tag<T>::m_value], [string_tag::m_type]/[m_strValue] and
    [array_tag::m_value].  A float is its 32-bit pattern, a bool its byte. *)
Inductive tag_value : Type :=
| typed_uint8 (v : Z)
| typed_uint16 (v : Z)
| typed_uint32 (v : Z)
| typed_uint64 (v : Z)
| typed_float (v : Z)
| typed_bool (v : Z)
| typed_hash (v : md4_hash)
| string_value (m_type : Z) (m_strValue : bytes)
| array_value (v : bytes).

Record base_tag := Tag {
  m_strName : bytes;
  m_nNameId : Z;
  m_bNewED2K : bool;
  m_value : tag_value
}.

#[global] Instance tag_value_eq_dec : EqDecision tag_value.
Proof. solve_decision. Defined.
#[global] Instance base_tag_eq_dec : EqDecision base_tag.
Proof. solve_decision. Defined.

(** [getType]: [tag_type_number<T>::value], [m_type], [TAGTYPE_BLOB]. *)
Definition value_type (v : tag_value) : Z :=
  match v with
  | typed_uint8 _ => TAGTYPE_UINT8
  | typed_uint16 _ => TAGTYPE_UINT16
  | typed_uint32 _ => TAGTYPE_UINT32
  | typed_uint64 _ => TAGTYPE_UINT64
  | typed_float _ => TAGTYPE_FLOAT32
  | typed_bool _ => TAGTYPE_BOOL
  | typed_hash _ => TAGTYPE_HASH16
  | string_value t _ => t
  | array_value _ => TAGTYPE_BLOB
  end.

Definition getType (t : base_tag) : Z := value_type (m_value t).

(** [getUniformType]: the type regardless of the size of the value. *)
Definition getUniformType (t : base_tag) : Z :=
  match m_value t with
  | typed_uint8 _ | typed_uint16 _ | typed_uint32 _ | typed_uint64 _ => TAGTYPE_UINT64
  | string_value _ _ => TAGTYPE_STRING
  | v => value_type v
  end.

(** [base_tag::defined]. *)
Definition tag_defined (t : base_tag) : bool :=
  negb (bool_decide (m_strName t = [])) || negb (m_nNameId t =? 0).

(** The getters; the ones a class does not override throw. *)
Definition asInt (t : base_tag) : outcome Z :=
  match m_value t with
  | typed_uint8 v | typed_uint16 v | typed_uint32 v | typed_uint64 v => Ok v
  | _ => Throw incompatible_tag_getter
  end.

Definition asString (t : base_tag) : outcome bytes :=
  match m_value t with string_value _ s => Ok s | _ => Throw incompatible_tag_getter end.

Definition asBool (t : base_tag) : outcome bool :=
  match m_value t with
  | typed_bool v => Ok (negb (v =? 0)) | _ => Throw incompatible_tag_getter end.

Definition asFloat (t : base_tag) : outcome Z :=
  match m_value t with typed_float v => Ok v | _ => Throw incompatible_tag_getter end.

Definition asBlob (t : base_tag) : outcome bytes :=
  match m_value t with array_value v => Ok v | _ => Throw incompatible_tag_getter end.

Definition asHash (t : base_tag) : outcome md4_hash :=
  match m_value t with typed_hash v => Ok v | _ => Throw incompatible_tag_getter end.

(** [string_tag::length2type]. *)
Definition length2type (s : bytes) : Z :=
  let n := Z.of_nat (length s) in
  if (1 <=? n) && (n <=? 16) then to_uint 1 (to_uint 1 (TAGTYPE_STR1 + n) - 1) else TAGTYPE_STRING.

(** [make_string_tag]: the constructor compresses the type for new ED2K only. *)
Definition make_string_tag (s : bytes) (nNameId : Z) (strName : bytes) (bNewED2K : bool) : base_tag :=
  Tag strName nNameId bNewED2K
    (string_value (if bNewED2K then length2type s else TAGTYPE_STRING) s).

(** [make_typed_tag<uint32_t>], by id. *)
Definition make_uint32_tag (v nNameId : Z) (bNewED2K : bool) : base_tag :=
  Tag [] nNameId bNewED2K (typed_uint32 v).

Definition make_blob_tag (v : bytes) (nNameId : Z) (bNewED2K : bool) : base_tag :=
  Tag [] nNameId bNewED2K (array_value v).

Definition is_string_tag (t : base_tag) : bool :=
  (getType t =? TAGTYPE_STRING) || ((TAGTYPE_STR1 <=? getType t) && (getType t <=? TAGTYPE_STR22)).

Definition is_int_tag (t : base_tag) : bool :=
  (getType t =? TAGTYPE_UINT8) || (getType t =? TAGTYPE_UINT16) ||
  (getType t =? TAGTYPE_UINT32) || (getType t =? TAGTYPE_UINT64).

(** [operator==] on IEEE single-precision bit patterns: NaN differs from
    everything, the two zeros are equal. *)
Definition float_is_nan (v : Z) : bool :=
  (Z.land (Z.shiftr v 23) 0xff =? 0xff) && negb (Z.land v 0x7fffff =? 0).
Definition float_eqb (v w : Z) : bool :=
  negb (float_is_nan v) && negb (float_is_nan w) &&
  ((v =? w) || ((Z.land v 0x7fffffff =? 0) && (Z.land w 0x7fffffff =? 0))).

(** [is_equal].  When the uniform types, ids and names agree, the source
    reinterprets the other object as one of its own class; for two integer
    tags of different width that reads memory of another layout, which the
    language leaves undefined: [None]. *)
Definition value_is_equal (v w : tag_value) : option bool :=
  match v, w with
  | typed_uint8 a, typed_uint8 b | typed_uint16 a, typed_uint16 b
  | typed_uint32 a, typed_uint32 b | typed_uint64 a, typed_uint64 b
  | typed_bool a, typed_bool b => Some (a =? b)
  | typed_float a, typed_float b => Some (float_eqb a b)
  | typed_hash a, typed_hash b => Some (hash_eqb a b)
  | string_value _ a, string_value _ b => Some (bool_decide (a = b))
  | array_value a, array_value b => Some (bool_decide (a = b))
  | _, _ => None
  end.

Definition is_equal (t pt : base_tag) : option bool :=
  if (getUniformType pt =? getUniformType t) && (m_nNameId t =? m_nNameId pt)
     && bool_decide (m_strName t = m_strName pt)
  then value_is_equal (m_value t) (m_value pt)
  else Some false.

(** ** Saving *)

(** [base_tag::save]: the tag header. *)
Definition header_save (t : base_tag) : bytes :=
  let nType := getType t in
  if bool_decide (m_strName t = []) then
    (if m_bNewED2K t then write_uint 1 (Z.lor nType 0x80)
     else write_uint 1 nType ++ write_uint 2 1) ++ write_uint 1 (m_nNameId t)
  else
    write_uint 1 nType ++ write_uint 2 (to_uint 2 (Z.of_nat (length (m_strName t))))
      ++ write_string (m_strName t).

Definition value_save (v : tag_value) : bytes :=
  match v with
  | typed_uint8 v => write_uint 1 v
  | typed_uint16 v => write_uint 2 v
  | typed_uint32 v => write_uint 4 v
  | typed_uint64 v => write_uint 8 v
  | typed_float v => write_uint 4 v
  | typed_bool v => write_uint 1 v
  | typed_hash h => save h
  | string_value t s =>
      (if t =? TAGTYPE_STRING then write_uint 2 (to_uint 2 (Z.of_nat (length s))) else [])
        ++ write_string s
  | array_value v => write_uint 4 (to_uint 4 (Z.of_nat (length v))) ++ v
  end.

Definition tag_save (t : base_tag) : bytes := header_save t ++ value_save (m_value t).

(** ** Loading *)

(** The byte order mark of UTF-8 and [bom_filter] of src/util.cpp. *)
Definition CHECK_BOM (s : bytes) : bool :=
  match s with
  | a :: b :: c :: _ => (b2z a =? 0xEF) && (b2z b =? 0xBB) && (b2z c =? 0xBF)
  | _ => false
  end.

Definition bom_filter (s : bytes) : bytes := if CHECK_BOM s then drop 3 s else s.

(** [string_tag::load]. *)
Definition string_load (m_type : Z) : reader tag_value :=
  nLength ← (if (TAGTYPE_STR1 <=? m_type) && (m_type <=? TAGTYPE_STR16)
             then mret (to_uint 2 (to_uint 2 (m_type - TAGTYPE_STR1) + 1))
             else read_uint 2);
  s ← read_string (Z.to_nat nLength);
  mret (string_value m_type (bom_filter s)).

(** [int nSignLength = -1*nSize] for an unsigned 32-bit [nSize]. *)
Definition nSignLength (nSize : Z) : Z :=
  let u := to_uint 4 (- nSize) in if u <? 2 ^ 31 then u else u - 2 ^ 32.

(** [array_tag::load]: a blob longer than a packet is accepted only when the
    stream really holds it; the failed seek back is noticed by the read. *)
Definition array_load : reader tag_value :=
  nSize ← read_uint 4;
  if 0 <? nSize then
    _ ← (if MAX_ED2K_PACKET_LEN <? nSize
         then seekg nSize blob_tag_too_long ≫= fun _ =>
              seekg (nSignLength nSize) unexpected_istream_error
         else mret tt);
    v ← raw_read (Z.to_nat nSize);
    mret (array_value v)
  else mret (array_value []).

(** The [switch (nType)] of [tag_list::load] and the [load] of the class it
    creates. *)
Definition value_load (nType : Z) : reader tag_value :=
  if nType =? TAGTYPE_UINT64 then v ← read_uint 8; mret (typed_uint64 v)
  else if nType =? TAGTYPE_UINT32 then v ← read_uint 4; mret (typed_uint32 v)
  else if nType =? TAGTYPE_UINT16 then v ← read_uint 2; mret (typed_uint16 v)
  else if nType =? TAGTYPE_UINT8 then v ← read_uint 1; mret (typed_uint8 v)
  else if nType =? TAGTYPE_FLOAT32 then v ← read_uint 4; mret (typed_float v)
  else if nType =? TAGTYPE_BOOL then v ← read_uint 1; mret (typed_bool v)
  else if nType =? TAGTYPE_HASH16 then h ← load fresh; mret (typed_hash h)
  else if nType =? TAGTYPE_BLOB then array_load
  else if (nType =? TAGTYPE_STRING) || ((TAGTYPE_STR1 <=? nType) && (nType <=? TAGTYPE_STR16))
  then string_load nType
  else throw invalid_tag_type.

(** The header: type, name id, name. *)
Definition header_load : reader (Z * Z * bytes) :=
  nType ← read_uint 1;
  if negb (Z.land nType 0x80 =? 0) then
    nNameId ← read_uint 1; mret (Z.land nType 0x7F, nNameId, [])
  else
    nLength ← read_uint 2;
    if nLength =? 1 then nNameId ← read_uint 1; mret (nType, nNameId, [])
    else strName ← read_string (Z.to_nat nLength); mret (nType, 0, strName).

(** One turn of the loop of [tag_list::load]: a bool array and a BSOB are
    skipped, any other tag is appended. *)
Definition tag_load : reader (option base_tag) :=
  '(nType, nNameId, strName) ← header_load;
  if nType =? TAGTYPE_BOOLARRAY then
    nLength ← read_uint 2;
    _ ← seekg (nLength / 8 + 1) unexpected_istream_error; mret None
  else if nType =? TAGTYPE_BSOB then
    len ← read_uint 1;
    _ ← seekg len unexpected_istream_error; mret None
  else
    v ← value_load nType; mret (Some (Tag strName nNameId false v)).

(** ** tag_list<size_type>, [w] the size of [size_type] *)

Definition tag_list : Type := list base_tag.

Definition tag_list_save (w : nat) (l : tag_list) : bytes :=
  write_uint w (to_uint w (Z.of_nat (length l))) ++ (l ≫= tag_save).

Fixpoint tags_load (n : nat) (m_container : tag_list) : reader tag_list :=
  match n with
  | O => mret m_container
  | S n' => o ← tag_load;
            tags_load n' (match o with Some t => m_container ++ [t] | None => m_container end)
  end.

Definition tag_list_load (w : nat) (m_container : tag_list) : reader tag_list :=
  nSize ← read_uint w; tags_load (Z.to_nat nSize) m_container.

(** Lookup by id and by name: [operator==] of [base_tag] never matches the
    undefined id and the empty name. *)
Definition getTagByNameId (l : tag_list) (nId : Z) : option base_tag :=
  List.find (fun t => negb (m_nNameId t =? TAGTYPE_UNDEFINED) && (m_nNameId t =? nId)) l.

Definition getTagByName (l : tag_list) (name : bytes) : option base_tag :=
  List.find (fun t => negb (bool_decide (m_strName t = [])) && bool_decide (m_strName t = name)) l.

Definition getStringTagByNameId (l : tag_list) (nId : Z) : bytes :=
  match getTagByNameId l nId with
  | Some t => match asString t with Ok s => s | Throw _ => [] end
  | None => []
  end.

Definition getIntTagByNameId (l : tag_list) (nId : Z) : Z :=
  match getTagByNameId l nId with
  | Some t => match asInt t with Ok v => v | Throw _ => 0 end
  | None => 0
  end.

(** [operator==] of tag lists: same size, and every tag of [t1] equals one of
    [t2].  An undefined comparison makes the whole result undefined. *)
Fixpoint tag_found (t : base_tag) (l : tag_list) : option bool :=
  match l with
  | [] => Some false
  | x :: l' =>
      match is_equal x t with
      | Some true => Some true
      | Some false => tag_found t l'
      | None => None
      end
  end.

Fixpoint all_found (l1 l2 : tag_list) : option bool :=
  match l1 with
  | [] => Some true
  | t :: l1' =>
      match tag_found t l2 with
      | Some true => all_found l1' l2
      | r => r
      end
  end.

Definition tag_list_eq (l1 l2 : tag_list) : option bool :=
  if (length l1 =? length l2)%nat then all_found l1 l2 else Some false.

(** ** What comes back *)

(** The tags that fit the wire format. *)
Definition value_wf (v : tag_value) : Prop :=
  match v with
  | typed_uint8 v | typed_bool v => is_uint 1 v
  | typed_uint16 v => is_uint 2 v
  | typed_uint32 v | typed_float v => is_uint 4 v
  | typed_uint64 v => is_uint 8 v
  | typed_hash h => hash_wf h
  | string_value t s =>
      (t = TAGTYPE_STRING /\ Z.of_nat (length s) < 2 ^ 16) \/
      (TAGTYPE_STR1 <= t <= TAGTYPE_STR16 /\ Z.of_nat (length s) = t - TAGTYPE_STR1 + 1)
  | array_value v => Z.of_nat (length v) <= 2 ^ 31
  end.

Definition tag_wf (t : base_tag) : Prop :=
  is_uint 1 (m_nNameId t) /\ Z.of_nat (length (m_strName t)) < 2 ^ 16 /\ value_wf (m_value t).

Definition value_stored (v : tag_value) : tag_value :=
  match v with string_value t s => string_value t (bom_filter s) | _ => v end.

(** A one-byte name becomes a name id, a longer name loses the id, a string
    loses its byte order mark, and the new-format flag is not kept. *)
Definition tag_stored (t : base_tag) : base_tag :=
  let v := value_stored (m_value t) in
  match m_strName t with
  | [] => Tag [] (m_nNameId t) false v
  | [b] => Tag [] (b2z b) false v
  | name => Tag name 0 false v
  end.

(** * Lemmas *)

Lemma value_type_range v : value_wf v -> 0 <= value_type v < 0x80 /\
  value_type v <> TAGTYPE_BOOLARRAY /\ value_type v <> TAGTYPE_BSOB.
Proof. 
  destruct v; cbn [value_type value_wf];
    unfold TAGTYPE_STRING, TAGTYPE_STR1, TAGTYPE_STR16, TAGTYPE_BOOLARRAY, TAGTYPE_BSOB; try done.
  lia.
Qed.

Lemma reads_array v :
  Z.of_nat (length v) <= 2 ^ 31 ->
  reads array_load (write_uint 4 (to_uint 4 (Z.of_nat (length v))) ++ v) (array_value v).
Proof.
  intros Hv. unfold array_load.
  assert (is_uint 4 (Z.of_nat (length v))) as Hu by (split; [lia|]; change (2 ^ (Z.of_nat 4 * 8)) with (2 ^ 32); lia).
  rewrite to_uint_small by done. eapply reads_bind; [by apply reads_uint|].
  destruct (Z.ltb_spec 0 (Z.of_nat (length v))).
  - assert (reads (v ← raw_read (Z.to_nat (Z.of_nat (length v))); mret (array_value v)) v (array_value v)).
    { rewrite Nat2Z.id. apply (reads_bind_ret _ array_value), reads_raw_read. }
    destruct (_ <? _); [|by eapply reads_bind_pure; [apply reads_ret|]].
    replace (nSignLength (Z.of_nat (length v))) with (- Z.of_nat (length v)).
    + by apply reads_look_ahead.
    + unfold nSignLength, to_uint. change (2 ^ (Z.of_nat 4 * 8)) with (2 ^ 32).
      rewrite Z.mod_opp_l_nz by (rewrite ?Z.mod_small; lia).
      rewrite Z.mod_small by lia. bool_cases; lia.
  - destruct v; [apply reads_ret|cbn [length] in *; lia].
Qed.

Lemma reads_string_value t s :
  value_wf (string_value t s) ->
  reads (string_load t) (value_save (string_value t s)) (string_value t (bom_filter s)).
Proof.
  cbn [value_wf value_save]. unfold string_load, TAGTYPE_STRING, TAGTYPE_STR1, TAGTYPE_STR16.
  intros [[-> Hs]|[Ht Hs]].
  - change ((17 <=? 2) && (2 <=? 32)) with false. change (2 =? 2) with true. cbn [andb].
    assert (is_uint 2 (Z.of_nat (length s))) by (split; [lia|done]).
    rewrite to_uint_small by done. eapply reads_bind; [by apply reads_uint|].
    rewrite Nat2Z.id. apply (reads_bind_ret _ (fun s => string_value 2 (bom_filter s))), reads_string.
  - replace ((17 <=? t) && (t <=? 32)) with true by lia.
    replace (t =? 2) with false by lia. cbn [app].
    eapply reads_bind_pure; [apply reads_ret|].
    apply (reads_bind_ret _ (fun s => string_value t (bom_filter s))).
    assert (forall x, 0 <= x < 65536 -> to_uint 2 x = x) as E by (intros; by apply to_uint_small).
    rewrite !E; [|lia|rewrite E; lia]. apply reads_string_len. lia.
Qed.

Lemma reads_value v :
  value_wf v -> reads (value_load (value_type v)) (value_save v) (value_stored v).
Proof.
  intros Hv. destruct v; cbn [value_type value_stored];
    try (cbn [value_wf] in Hv; cbn [value_save]; unfold value_load; cbn;
         apply (reads_bind_ret (read_uint _) _); by apply reads_uint).
  - apply (reads_bind_ret (load fresh) typed_hash). exact (load_save v Hv).
  - pose proof (reads_string_value _ _ Hv) as HR. unfold value_load. cbn [value_wf] in Hv.
    unfold TAGTYPE_STRING, TAGTYPE_STR1, TAGTYPE_STR16, TAGTYPE_UINT64, TAGTYPE_UINT32,
      TAGTYPE_UINT16, TAGTYPE_UINT8, TAGTYPE_FLOAT32, TAGTYPE_BOOL, TAGTYPE_HASH16,
      TAGTYPE_BLOB in *.
    bool_cases; try lia; done.
  - by apply reads_array.
Qed.

Lemma land_lor_new_flag n : 0 <= n < 0x80 ->
  Z.land (Z.lor n 0x80) 0x80 = 0x80 /\ Z.land (Z.lor n 0x80) 0x7F = n /\
  Z.land n 0x80 = 0 /\ is_uint 1 (Z.lor n 0x80).
Proof.
  intros Hn. replace (Z.lor n 0x80) with (1 * 2 ^ 7 + n).
  2: { rewrite Z.lor_comm. change 0x80 with (Z.shiftl 1 7). rewrite Z_lor_shiftl_add by lia. done. }
  change 0x80 with (2 ^ 7). change 0x7F with (Z.ones 7).
  assert (forall x, 0 <= x < 256 -> Z.land x (2 ^ 7) = if x <? 128 then 0 else 128) as E.
  { intros x Hx. rewrite <- (b2z_z2b x) by lia. by destruct (z2b x). }
  rewrite !E, Z.land_ones by lia. change (2 ^ 7) with 128. bool_cases; try lia.
  split_and!; try done; [|split; simpl; lia].
  rewrite Z.add_comm, Z.mod_add by done.
  by apply Z.mod_small.
Qed.

Lemma reads_header t :
  tag_wf t ->
  reads header_load (header_save t)
    (getType t, m_nNameId (tag_stored t), m_strName (tag_stored t)).
Proof.
  intros (Hid & Hname & Hv). pose proof (value_type_range _ Hv) as (Hty & _ & _).
  destruct (land_lor_new_flag _ Hty) as (E1 & E2 & E3 & E4).
  unfold header_load, header_save, getType, tag_stored.
  assert (is_uint 1 (value_type (m_value t))) by (split; simpl; lia).
  destruct (m_strName t) as [|b name] eqn:En;
    [rewrite bool_decide_true by done|rewrite bool_decide_false by done].
  - destruct (m_bNewED2K t).
    + eapply reads_bind; [by apply reads_uint|]. rewrite E1, E2. cbn [negb Z.eqb].
      apply (reads_bind_ret _ (fun i => (value_type (m_value t), i, []))). by apply reads_uint.
    + rewrite <- app_assoc. eapply reads_bind; [by apply reads_uint|]. rewrite E3. cbn [negb Z.eqb].
      eapply reads_bind; [by apply reads_uint|]. cbn [Z.eqb Pos.eqb].
      apply (reads_bind_ret _ (fun i => (value_type (m_value t), i, []))). by apply reads_uint.
  - eapply reads_bind; [by apply reads_uint|]. rewrite E3. cbn [negb Z.eqb].
    assert (is_uint 2 (Z.of_nat (length (b :: name)))) by (split; [lia|done]).
    rewrite to_uint_small by done. eapply reads_bind; [by apply reads_uint|].
    destruct name as [|b' name].
    + cbn [length Z.of_nat]. change (Z.pos _ =? 1) with true. cbv iota.
      unfold write_string. rewrite <- write_byte.
      apply (reads_bind_ret _ (fun i => (value_type (m_value t), i, []))). apply reads_uint, byte_unsigned_uint.
    + destruct (Z.eqb_spec (Z.of_nat (length (b :: b' :: name))) 1) as [Hc|_];
        [cbn [length] in Hc; lia|].
      rewrite Nat2Z.id.
      apply (reads_bind_ret _ (fun n => (value_type (m_value t), 0, n))), reads_string.
Qed.

Lemma reads_tag t : tag_wf t -> reads tag_load (tag_save t) (Some (tag_stored t)).
Proof.
  intros Ht. pose proof Ht as (_ & _ & Hv). unfold tag_load, tag_save.
  eapply reads_bind; [by apply reads_header|]. cbn beta iota.
  pose proof (value_type_range _ Hv) as (_ & H1 & H2). unfold getType.
  rewrite (proj2 (Z.eqb_neq _ _) H1), (proj2 (Z.eqb_neq _ _) H2).
  replace (tag_stored t) with
    (Tag (m_strName (tag_stored t)) (m_nNameId (tag_stored t)) false (value_stored (m_value t))).
  - apply (reads_bind_ret _ (fun v => Some (Tag _ _ false v))). by apply reads_value.
  - unfold tag_stored. by destruct (m_strName t) as [|? [|? ?]].
Qed.

Lemma reads_tags l acc :
  Forall tag_wf l -> reads (tags_load (length l) acc) (l ≫= tag_save) (acc ++ (tag_stored <$> l)).
Proof.
  intros Hl. revert acc. induction Hl as [|t l Ht Hl IH]; intros acc.
  - cbn. rewrite app_nil_r. apply reads_ret.
  - cbn [length tags_load fmap list_fmap]. rewrite bind_cons.
    eapply reads_bind; [by apply reads_tag|]. cbv iota.
    rewrite (app_assoc acc [tag_stored t] (tag_stored <$> l) : acc ++ tag_stored t :: _ = _).
    apply IH.
Qed.

(** The tag lists that fit a list header of [w] bytes. *)
Definition tag_list_wf (w : nat) (l : tag_list) : Prop :=
  is_uint w (Z.of_nat (length l)) /\ Forall tag_wf l.

Lemma reads_tag_list w l acc :
  tag_list_wf w l ->
  reads (tag_list_load w acc) (tag_list_save w l) (acc ++ (tag_stored <$> l)).
Proof.
  intros [Hn Hl]. unfold tag_list_load, tag_list_save. rewrite to_uint_small by done.
  eapply reads_bind; [by apply reads_uint|]. rewrite Nat2Z.id. by apply reads_tags.
Qed.

(** ** Properties *)

(** C3: a tag list whose tags fit the wire format survives saving and loading
    with any 1-, 2- or 4-byte list header: loading yields, appended to the tags
    the list already held, exactly the saved tags as [tag_stored] describes
    them, and consumes exactly the saved bytes; if the input ends anywhere
    inside the saved bytes, loading throws. *)
Theorem tag_list_roundtrip (w : nat) (l acc : tag_list) :
  tag_list_wf w l ->
  reads (tag_list_load w acc) (tag_list_save w l) (acc ++ (tag_stored <$> l)).
Proof. apply reads_tag_list. Qed.

(** A string in both formats, a blob, and an id/value pair. *)
Definition sample_tags : tag_list :=
  [make_string_tag (z2b <$> [76; 75]) 0x01 [] true;
   make_string_tag (z2b <$> [76; 75]) 0 (z2b <$> [110; 97; 109; 101]) false;
   make_blob_tag (z2b <$> [1; 2; 3]) 0x31 true;
   make_uint32_tag 4294967295 0x11 true].

Lemma tag_list_roundtrip_witness :
  tag_list_wf 4 sample_tags /\
  tag_list_load 4 [] (IA (tag_list_save 4 sample_tags) 0) =
    Ok (tag_stored <$> sample_tags, IA (tag_list_save 4 sample_tags) (length (tag_list_save 4 sample_tags))).
Proof.
  assert (tag_list_wf 4 sample_tags) as Hwf.
  { split; [by vm_compute|]. repeat constructor; try (by vm_compute); right; by vm_compute. }
  split; [exact Hwf|].
  pose proof (proj1 (tag_list_roundtrip 4 sample_tags [] Hwf) [] []) as E.
  cbn [app length Nat.add] in E. rewrite app_nil_r in E. exact E.
Defined.
