(* ===== verification/Bitfield.v ===== *)
(** * bitfield: include/libed2k/bitfield.hpp

    The bit vector of piece maps.  A null [m_bytes] is the empty list; memory
    that [malloc] and [realloc] hand out holds arbitrary bytes, given by the
    section variable [memory].  [bits] reads a bitfield as the list of its
    bits, most significant bit of each byte first, and the operations are
    shown to act on that list. *)

From S2P Require Import Prelude Archive Md4Hash.
Open Scope nat_scope.

Record bitfield := BF { m_bytes : bytes; m_size : nat; m_own : bool }.

(** The number of bytes that hold [n] bits. *)
Definition bits2bytes (n : nat) : nat := (n + 7) / 8.

Definition update_byte (l : bytes) (i : nat) (f : Z -> Z) : bytes :=
  alter (fun b => z2b (f (b2z b))) i l.

(** ** Bits *)

Definition mask (index : nat) : Z := Z.shiftr 0x80 (Z.of_nat (index mod 8)).

Definition get_bit (bf : bitfield) (index : nat) : bool :=
  negb (Z.eqb (Z.land (b2z (default (z2b 0) (m_bytes bf !! (index / 8)))) (mask index)) 0).

Definition clear_bit (bf : bitfield) (index : nat) : bitfield :=
  BF (update_byte (m_bytes bf) (index / 8) (fun b => Z.land b (Z.lnot (mask index))))
     (m_size bf) (m_own bf).

Definition set_bit (bf : bitfield) (index : nat) : bitfield :=
  BF (update_byte (m_bytes bf) (index / 8) (fun b => Z.lor b (mask index)))
     (m_size bf) (m_own bf).

Definition size (bf : bitfield) : nat := m_size bf.
Definition empty (bf : bitfield) : bool := m_size bf =? 0.

(** [count]: a nibble table for the complete bytes, single bits for the rest. *)
Definition num_bits : list nat := [0; 1; 1; 2; 1; 2; 2; 3; 1; 2; 2; 3; 2; 3; 3; 4].

Definition byte_count (b : byte) : nat :=
  nth (Z.to_nat (Z.land (b2z b) 0xf)) num_bits 0 + nth (Z.to_nat (Z.shiftr (b2z b) 4)) num_bits 0.

Definition count (bf : bitfield) : nat :=
  let num_bytes := m_size bf / 8 in
  let ret := foldl (fun ret b => ret + byte_count b) 0 (take num_bytes (m_bytes bf)) in
  let rest := m_size bf - num_bytes * 8 in
  let last := b2z (default (z2b 0) (m_bytes bf !! num_bytes)) in
  foldl (fun ret i => ret + Z.to_nat (Z.land (Z.shiftr last (7 - Z.of_nat i)) 1)) ret (seq 0 rest).

(** ** Storage *)

Definition clear_trailing_bits (bf : bitfield) : bitfield :=
  if m_size bf mod 8 =? 0 then bf
  else BF (update_byte (m_bytes bf) (bits2bytes (m_size bf) - 1)
             (fun b => Z.land b (Z.shiftl 0xff (8 - Z.of_nat (m_size bf mod 8)))))
          (m_size bf) (m_own bf).

(** [memset(m_bytes + from, v, n)]. *)
Definition memset (l : bytes) (from : nat) (v : Z) (n : nat) : bytes :=
  take from l ++ replicate n (z2b v) ++ drop (from + n) l.

Definition set_all (bf : bitfield) : bitfield :=
  clear_trailing_bits (BF (memset (m_bytes bf) 0 0xff (bits2bytes (m_size bf))) (m_size bf) (m_own bf)).

Definition clear_all (bf : bitfield) : bitfield :=
  BF (memset (m_bytes bf) 0 0x00 (bits2bytes (m_size bf))) (m_size bf) (m_own bf).

Section Storage.
(** What freshly allocated memory holds. *)
Context (memory : nat -> byte).

(** [n] bytes of new memory of which the first are copied from [l]. *)
Definition fresh_copy (l : bytes) (n : nat) : bytes :=
  take n l ++ (memory <$> seq (length l) (n - length l)).

(** [resize(int bits)]. *)
Definition resize (bf : bitfield) (bits : nat) : bitfield :=
  let b := bits2bytes bits in
  let '(mem, own) :=
    match m_bytes bf with
    | [] => if 0 <? bits then (fresh_copy [] b, true) else ([], m_own bf)
    | l => if m_own bf then (fresh_copy l b, true)
           else if m_size bf <? bits
                then (fresh_copy (take (Nat.min (bits2bytes (m_size bf)) b) l) b, true)
                else (l, m_own bf)
    end in
  clear_trailing_bits (BF mem bits own).

(** [resize(int bits, bool val)]. *)
Definition resize_val (bf : bitfield) (bits : nat) (val : bool) : bitfield :=
  let s := m_size bf in
  let b := m_size bf mod 8 in
  let bf := resize bf bits in
  if m_size bf <=? s then bf
  else
    let old_size_bytes := bits2bytes s in
    let new_size_bytes := bits2bytes (m_size bf) in
    if val then
      let l := if negb (old_size_bytes =? 0) && negb (b =? 0)
               then update_byte (m_bytes bf) (old_size_bytes - 1)
                      (fun x => Z.lor x (Z.shiftr 0xff (Z.of_nat b)))
               else m_bytes bf in
      let l := if old_size_bytes <? new_size_bytes
               then memset l old_size_bytes 0xff (new_size_bytes - old_size_bytes) else l in
      clear_trailing_bits (BF l (m_size bf) (m_own bf))
    else
      BF (if old_size_bytes <? new_size_bytes
          then memset (m_bytes bf) old_size_bytes 0x00 (new_size_bytes - old_size_bytes)
          else m_bytes bf) (m_size bf) (m_own bf).

(** [assign(char const* b, int bits)]: [memcpy] of the bytes that hold them. *)
Definition assign (bf : bitfield) (b : bytes) (bits : nat) : bitfield :=
  let bf := resize bf bits in
  clear_trailing_bits
    (BF (take (bits2bytes bits) b ++ drop (bits2bytes bits) (m_bytes bf)) (m_size bf) (m_own bf)).

(** The constructors. *)
Definition bitfield_empty : bitfield := BF [] 0 false.
Definition bitfield_filled (bits : nat) (val : bool) : bitfield := resize_val bitfield_empty bits val.
Definition bitfield_of_bytes (b : bytes) (bits : nat) : bitfield := assign bitfield_empty b bits.

(** [borrow_bytes], and [free]. *)
Definition borrow_bytes (bf : bitfield) (b : bytes) (bits : nat) : bitfield := BF b bits false.
Definition bitfield_free (bf : bitfield) : bitfield := BF [] 0 (m_own bf).
End Storage.

(** ** const_iterator: the byte it points at and the bit inside it *)

Record const_iterator := It { it_byte : nat; it_bit : Z }.

Definition it_begin (bf : bitfield) : const_iterator := It 0 (Z.shiftr 0x80 0).
Definition it_end (bf : bitfield) : const_iterator :=
  It (m_size bf / 8) (Z.shiftr 0x80 (Z.of_nat (m_size bf mod 8))).

Definition it_deref (bf : bitfield) (it : const_iterator) : bool :=
  negb (Z.eqb (Z.land (b2z (default (z2b 0) (m_bytes bf !! it_byte it))) (it_bit it)) 0).

Definition it_inc (it : const_iterator) : const_iterator :=
  if (it_bit it =? 0x01)%Z then It (S (it_byte it)) 0x80 else It (it_byte it) (Z.shiftr (it_bit it) 1).

Definition it_dec (it : const_iterator) : const_iterator :=
  if (it_bit it =? 0x80)%Z then It (it_byte it - 1) 0x01 else It (it_byte it) (Z.shiftl (it_bit it) 1).

Definition it_eqb (i j : const_iterator) : bool :=
  (it_byte i =? it_byte j) && (it_bit i =? it_bit j)%Z.

(** ** The list of bits *)

Definition bits (bf : bitfield) : list bool := get_bit bf <$> seq 0 (m_size bf).

(** Enough bytes for the size, and no set bit behind the last one. *)
Record bf_wf (bf : bitfield) : Prop := {
  wf_bytes : bits2bytes (m_size bf) <= length (m_bytes bf);
  wf_tail : forall i, m_size bf <= i < 8 * bits2bytes (m_size bf) -> get_bit bf i = false
}.

(** * Lemmas *)

(** ** Bits of bytes *)

(** Bit [k] of a byte, counted from the most significant one. *)
Definition tb (b : byte) (k : nat) : bool := Z.testbit (b2z b) (7 - Z.of_nat k).
Definition byte_at (l : bytes) (i : nat) : byte := default (z2b 0) (l !! i).

Lemma tb_z2b v k : k < 8 -> tb (z2b v) k = Z.testbit v (7 - Z.of_nat k).
Proof.
  intros. unfold tb. rewrite byte.unsigned_of_Z. apply Z.mod_pow2_bits_low. lia.
Qed.

Lemma mask_pow k : k < 8 -> Z.shiftr 0x80 (Z.of_nat k) = (2 ^ (7 - Z.of_nat k))%Z.
Proof. intros. do 8 (destruct k as [|k]; [done|]). lia. Qed.

Lemma land_pow2_eqb x j : (0 <= j)%Z -> negb (Z.eqb (Z.land x (2 ^ j)) 0) = Z.testbit x j.
Proof.
  intros Hj. destruct (Z.testbit x j) eqn:E.
  - destruct (Z.eqb_spec (Z.land x (2 ^ j)) 0) as [H0|]; [|done].
    apply (f_equal (fun z => Z.testbit z j)) in H0.
    rewrite Z.land_spec, E, Z.pow2_bits_true, Z.bits_0 in H0 by done. done.
  - assert (Z.land x (2 ^ j) = 0)%Z as ->; [|done].
    apply Z.bits_inj'. intros i Hi. rewrite Z.land_spec, Z.pow2_bits_eqb, Z.bits_0 by done.
    destruct (Z.eqb_spec j i) as [<-|]; [by rewrite E|apply andb_false_r].
Qed.

Lemma get_bit_tb bf i : get_bit bf i = tb (byte_at (m_bytes bf) (i / 8)) (i mod 8).
Proof.
  pose proof (Nat.mod_upper_bound i 8). unfold get_bit, mask, tb.
  rewrite mask_pow by lia. apply land_pow2_eqb. lia.
Qed.

Lemma byte_at_update l i f j :
  byte_at (update_byte l i f) j =
  if decide (i = j /\ i < length l) then z2b (f (b2z (byte_at l i))) else byte_at l j.
Proof.
  unfold byte_at, update_byte. case_decide as Hd.
  - destruct Hd as [-> Hj]. rewrite list_lookup_alter_eq.
    destruct (lookup_lt_is_Some_2 l j Hj) as [b ->]. done.
  - destruct (decide (i = j)) as [->|Hne]; [|by rewrite list_lookup_alter_ne].
    rewrite !lookup_ge_None_2; [done|lia|rewrite length_alter; lia].
Qed.

(** The bit of a bitfield after one of its bytes has been rewritten. *)
Lemma get_bit_update l i f n own j :
  i < length l ->
  get_bit (BF (update_byte l i f) n own) j =
  if decide (i = j / 8) then Z.testbit (f (b2z (byte_at l i))) (7 - Z.of_nat (j mod 8))
  else get_bit (BF l n own) j.
Proof.
  intros Hi. rewrite !get_bit_tb. cbn [m_bytes]. rewrite byte_at_update.
  pose proof (Nat.mod_upper_bound j 8).
  destruct (decide (i = j / 8)) as [->|Hne].
  - rewrite decide_True by done. apply tb_z2b. lia.
  - rewrite decide_False; [done|by intros [? _]].
Qed.

Lemma testbit_byte_at l j n own :
  Z.testbit (b2z (byte_at l (j / 8))) (7 - Z.of_nat (j mod 8)) = get_bit (BF l n own) j.
Proof. by rewrite get_bit_tb. Qed.

Lemma bits2bytes_spec n : 8 * bits2bytes n = n + (8 - n mod 8) mod 8.
Proof.
  unfold bits2bytes. pose proof (Nat.div_mod_eq n 8). pose proof (Nat.mod_upper_bound n 8).
  pose proof (Nat.div_mod_eq (n + 7) 8). pose proof (Nat.mod_upper_bound (n + 7) 8).
  destruct (decide (n mod 8 = 0)) as [E|E].
  - rewrite E in *. change ((8 - 0) mod 8) with 0. lia.
  - rewrite (Nat.mod_small (8 - n mod 8)) by lia. lia.
Qed.

Lemma index_in_bytes i n : i < n -> i / 8 < bits2bytes n.
Proof.
  intros. unfold bits2bytes. apply Nat.Div0.div_lt_upper_bound.
  pose proof (Nat.div_mod_eq (n + 7) 8). pose proof (Nat.mod_upper_bound (n + 7) 8). lia.
Qed.

Lemma index_eq i j : i / 8 = j / 8 -> i mod 8 = j mod 8 -> i = j.
Proof. intros. rewrite (Nat.div_mod_eq i 8), (Nat.div_mod_eq j 8). congruence. Qed.

(** ** set_bit and clear_bit *)

Lemma get_set_bit bf i j :
  i / 8 < length (m_bytes bf) -> get_bit (set_bit bf i) j = bool_decide (i = j) || get_bit bf j.
Proof.
  intros Hi. unfold set_bit. rewrite get_bit_update by done.
  pose proof (Nat.mod_upper_bound i 8). pose proof (Nat.mod_upper_bound j 8).
  destruct (decide (i / 8 = j / 8)) as [E|E].
  - rewrite Z.lor_spec, E, testbit_byte_at with (n := m_size bf) (own := m_own bf).
    unfold mask. rewrite mask_pow, Z.pow2_bits_eqb by lia. destruct bf. cbn [m_bytes m_size m_own] in *.
    rewrite orb_comm. f_equal. apply eq_true_iff_eq. rewrite Z.eqb_eq, bool_decide_eq_true.
    split; [intros; apply index_eq; [done|lia]|intros ->; done].
  - rewrite bool_decide_false by congruence. by destruct bf.
Qed.

Lemma get_clear_bit bf i j :
  i / 8 < length (m_bytes bf) -> get_bit (clear_bit bf i) j = negb (bool_decide (i = j)) && get_bit bf j.
Proof.
  intros Hi. unfold clear_bit. rewrite get_bit_update by done.
  pose proof (Nat.mod_upper_bound i 8). pose proof (Nat.mod_upper_bound j 8).
  destruct (decide (i / 8 = j / 8)) as [E|E].
  - rewrite Z.land_spec, E, testbit_byte_at with (n := m_size bf) (own := m_own bf).
    unfold mask. rewrite mask_pow, Z.lnot_spec, Z.pow2_bits_eqb by lia.
    destruct bf. cbn [m_bytes m_size m_own] in *.
    rewrite andb_comm. do 2 f_equal. apply eq_true_iff_eq. rewrite Z.eqb_eq, bool_decide_eq_true.
    split; [intros; apply index_eq; [done|lia]|intros ->; done].
  - rewrite bool_decide_false by congruence. by destruct bf.
Qed.

Lemma lookup_bits bf i : i < m_size bf -> bits bf !! i = Some (get_bit bf i).
Proof. intros. unfold bits. by rewrite list_lookup_fmap, lookup_seq_lt. Qed.

Lemma length_bits bf : length (bits bf) = m_size bf.
Proof. unfold bits. by rewrite length_fmap, length_seq. Qed.

(** Two bit lists agree when they agree bit by bit. *)
Lemma bits_ext bf l :
  length l = m_size bf -> (forall i, i < m_size bf -> l !! i = Some (get_bit bf i)) -> bits bf = l.
Proof.
  intros Hl H. apply list_eq. intros i. destruct (decide (i < m_size bf)).
  - by rewrite lookup_bits, H.
  - rewrite !lookup_ge_None_2; [done|rewrite ?length_bits; lia..].
Qed.

Lemma wf_index bf i : bf_wf bf -> i < m_size bf -> i / 8 < length (m_bytes bf).
Proof. intros [H _] Hi. pose proof (index_in_bytes i _ Hi). lia. Qed.

Lemma length_update_byte l i f : length (update_byte l i f) = length l.
Proof. apply length_alter. Qed.

Lemma set_bit_wf bf i : bf_wf bf -> i < m_size bf -> bf_wf (set_bit bf i).
Proof.
  intros Hwf Hi. pose proof (wf_index bf i Hwf Hi). destruct Hwf as [Hb Ht].
  split; cbn [set_bit m_bytes m_size]; [by rewrite length_update_byte|].
  intros j Hj. rewrite get_set_bit, Ht, bool_decide_false by (done || lia). done.
Qed.

Lemma clear_bit_wf bf i : bf_wf bf -> i < m_size bf -> bf_wf (clear_bit bf i).
Proof.
  intros Hwf Hi. pose proof (wf_index bf i Hwf Hi). destruct Hwf as [Hb Ht].
  split; cbn [clear_bit m_bytes m_size]; [by rewrite length_update_byte|].
  intros j Hj. rewrite get_clear_bit, Ht by done. apply andb_false_r.
Qed.

(** ** Storage *)

Lemma get_clear_trailing bf i :
  bits2bytes (m_size bf) <= length (m_bytes bf) -> i < 8 * bits2bytes (m_size bf) ->
  get_bit (clear_trailing_bits bf) i = bool_decide (i < m_size bf) && get_bit bf i.
Proof.
  intros Hb Hi. unfold clear_trailing_bits. pose proof (bits2bytes_spec (m_size bf)) as Hs.
  pose proof (Nat.mod_upper_bound (m_size bf) 8).
  destruct (Nat.eqb_spec (m_size bf mod 8) 0) as [E|E].
  { rewrite E in Hs. change ((8 - 0) mod 8) with 0 in Hs. by rewrite bool_decide_true by lia. }
  rewrite (Nat.mod_small (8 - _)) in Hs by lia.
  pose proof (Nat.div_mod_eq i 8). pose proof (Nat.mod_upper_bound i 8).
  pose proof (Nat.div_mod_eq (m_size bf) 8).
  rewrite get_bit_update by lia. case_decide as Ei.
  - rewrite Z.land_spec, Z.shiftl_spec by lia. change 0xff%Z with (Z.ones 8).
    rewrite Ei, testbit_byte_at with (n := m_size bf) (own := m_own bf).
    destruct bf as [l n own]. cbn [m_bytes m_size m_own] in *. rewrite andb_comm. f_equal.
    destruct (decide (i < n)) as [Hlt|Hge].
    + rewrite bool_decide_true, Z.ones_spec_low by (done || lia). done.
    + rewrite bool_decide_false, Z.testbit_neg_r by (done || lia). done.
  - rewrite bool_decide_true by lia. by destruct bf.
Qed.

Lemma clear_trailing_fields bf :
  m_size (clear_trailing_bits bf) = m_size bf /\
  length (m_bytes (clear_trailing_bits bf)) = length (m_bytes bf).
Proof.
  unfold clear_trailing_bits. destruct (_ =? _); [done|]. cbn [m_size m_bytes].
  by rewrite length_update_byte.
Qed.

Lemma clear_trailing_wf bf :
  bits2bytes (m_size bf) <= length (m_bytes bf) -> bf_wf (clear_trailing_bits bf).
Proof.
  intros Hb. destruct (clear_trailing_fields bf) as [Es El].
  split; rewrite Es; [by rewrite El|].
  intros i Hi. rewrite get_clear_trailing, bool_decide_false by lia. done.
Qed.

Lemma get_bit_app l l' n own n' own' i :
  i / 8 < length l -> get_bit (BF (l ++ l') n own) i = get_bit (BF l n' own') i.
Proof. intros. rewrite !get_bit_tb. cbn [m_bytes]. unfold byte_at. by rewrite lookup_app_l. Qed.

Lemma get_bit_take l k n own n' own' i :
  i / 8 < k -> get_bit (BF (take k l) n own) i = get_bit (BF l n' own') i.
Proof. intros. rewrite !get_bit_tb. cbn [m_bytes]. unfold byte_at. by rewrite lookup_take_lt. Qed.

Lemma length_fresh_copy memory l n : length (fresh_copy memory l n) = n.
Proof. unfold fresh_copy. rewrite length_app, length_take, length_fmap, length_seq. lia. Qed.

Lemma get_fresh_copy memory l k n own n' own' i :
  i / 8 < k -> i / 8 < length l ->
  get_bit (BF (fresh_copy memory l k) n own) i = get_bit (BF l n' own') i.
Proof.
  intros. unfold fresh_copy. rewrite (get_bit_app _ _ _ _ n' own') by (rewrite length_take; lia).
  by apply get_bit_take.
Qed.

Lemma bits2bytes_mono n m : n <= m -> bits2bytes n <= bits2bytes m.
Proof. intros. apply Nat.Div0.div_le_mono. lia. Qed.

Lemma div8_lt i k : i / 8 < k <-> i < 8 * k.
Proof.
  pose proof (Nat.div_mod_eq i 8). pose proof (Nat.mod_upper_bound i 8). lia.
Qed.

(** [resize] keeps what both sizes hold, the padding bits of the old last byte
    included. *)
Lemma resize_spec memory bf n :
  bf_wf bf ->
  let bf' := resize memory bf n in
  m_size bf' = n /\ bf_wf bf' /\
  forall i, i < n -> i < 8 * bits2bytes (m_size bf) -> get_bit bf' i = get_bit bf i.
Proof.
  intros [Hb Ht]. cbv zeta. unfold resize.
  set (p := match m_bytes bf with [] => _ | _ => _ end).
  assert (bits2bytes n <= length (fst p) /\
    forall i, i < n -> i < 8 * bits2bytes (m_size bf) ->
      get_bit (BF (fst p) n (snd p)) i = get_bit bf i) as [HL HK].
  { pose proof (bits2bytes_mono n (m_size bf)) as Hm. subst p.
    destruct bf as [[|b l] s own]; cbn [m_bytes m_size m_own] in *.
    - cbn [length] in Hb.
      split; [|lia]. destruct (Nat.ltb_spec 0 n); cbn [fst]; [by rewrite length_fresh_copy|].
      by replace n with 0 by lia.
    - assert (forall i, i < n -> i / 8 < bits2bytes n) as HI by (intros; by apply index_in_bytes).
      destruct own; [|destruct (Nat.ltb_spec s n)]; cbn [fst snd];
        (split; [by rewrite ?length_fresh_copy || lia|intros i Hn Hi; apply div8_lt in Hi;
                 specialize (HI i Hn)]).
      + apply get_fresh_copy; lia.
      + rewrite (get_fresh_copy _ _ _ _ _ s false) by (rewrite ?length_take; lia).
        apply get_bit_take. lia.
      + by rewrite !get_bit_tb. }
  destruct p as [mem own]. cbn [fst snd] in *.
  destruct (clear_trailing_fields (BF mem n own)) as [Es _]. cbn [m_size] in Es.
  split_and!; [done|by apply clear_trailing_wf|].
  intros i Hn Hi. pose proof (bits2bytes_spec n).
  rewrite get_clear_trailing by (cbn [m_bytes m_size]; lia). cbn [m_size].
  rewrite bool_decide_true by lia. by apply HK.
Qed.

Lemma length_memset l from v n : from + n <= length l -> length (memset l from v n) = length l.
Proof. intros. unfold memset. rewrite !length_app, length_take, length_replicate, length_drop. lia. Qed.

Lemma byte_at_memset l from v n i :
  from + n <= length l ->
  byte_at (memset l from v n) i =
  if decide (from <= i < from + n) then z2b v else byte_at l i.
Proof.
  intros Hl. unfold byte_at, memset. case_decide as Hi.
  - rewrite lookup_app_r, length_take, lookup_app_l, lookup_replicate_2
      by (rewrite ?length_take, ?length_replicate; lia). done.
  - destruct (decide (i < from)).
    + rewrite lookup_app_l, lookup_take_lt by (rewrite ?length_take; lia). done.
    + rewrite !lookup_app_r, length_take, length_replicate, lookup_drop
        by (rewrite ?length_take, ?length_replicate; lia).
      do 3 f_equal. lia.
Qed.

Lemma get_bit_memset l from v n s own i :
  from + n <= length l ->
  get_bit (BF (memset l from v n) s own) i =
  if decide (from <= i / 8 < from + n) then Z.testbit v (7 - Z.of_nat (i mod 8))
  else get_bit (BF l s own) i.
Proof.
  intros Hl. rewrite !get_bit_tb. cbn [m_bytes]. rewrite byte_at_memset by done.
  pose proof (Nat.mod_upper_bound i 8). case_decide; [apply tb_z2b; lia|done].
Qed.

Lemma testbit_ff k : k < 8 -> Z.testbit 0xff (7 - Z.of_nat k) = true.
Proof. intros. change 0xff%Z with (Z.ones 8). apply Z.ones_spec_low. lia. Qed.

(** Filling the old last byte from bit [b] on, and all new bytes. *)
Lemma get_fill l s n own i :
  s < n -> bits2bytes n <= length l -> i < 8 * bits2bytes n ->
  let l1 := if negb (bits2bytes s =? 0) && negb (s mod 8 =? 0)
            then update_byte l (bits2bytes s - 1) (fun x => Z.lor x (Z.shiftr 0xff (Z.of_nat (s mod 8))))
            else l in
  let l2 := if bits2bytes s <? bits2bytes n
            then memset l1 (bits2bytes s) 0xff (bits2bytes n - bits2bytes s) else l1 in
  length l2 = length l /\
  get_bit (BF l2 n own) i = if decide (i < s) then get_bit (BF l n own) i else true.
Proof.
  intros Hsn Hl Hi. cbv zeta. pose proof (bits2bytes_spec s) as Hs.
  pose proof (Nat.mod_upper_bound s 8). pose proof (Nat.div_mod_eq s 8).
  pose proof (Nat.div_mod_eq i 8). pose proof (Nat.mod_upper_bound i 8).
  pose proof (bits2bytes_mono s n).
  set (l1 := if negb _ && negb _ then update_byte _ _ _ else l).
  assert (length l1 = length l) as El1 by (subst l1; destruct (_ && _); by rewrite ?length_update_byte).
  assert (i < 8 * bits2bytes s ->
    get_bit (BF l1 n own) i = if decide (i < s) then get_bit (BF l n own) i else true) as HL1.
  { intros Hi'. subst l1. destruct (Nat.eqb_spec (s mod 8) 0) as [E|E].
    - rewrite andb_false_r. rewrite E in Hs. change ((8 - 0) mod 8) with 0 in Hs.
      by rewrite decide_True by lia.
    - rewrite (Nat.mod_small (8 - _)) in Hs by lia.
      destruct (Nat.eqb_spec (bits2bytes s) 0); [lia|]. cbn [negb andb].
      rewrite get_bit_update by lia. case_decide as Ei; [|by rewrite decide_True by lia].
      rewrite Z.lor_spec, Z.shiftr_spec by lia.
      rewrite Ei, testbit_byte_at with (n := n) (own := own). change 0xff%Z with (Z.ones 8).
      case_decide.
      + rewrite Z.ones_spec_high by lia. apply orb_false_r.
      + rewrite Z.ones_spec_low by lia. apply orb_true_r. }
  destruct (Nat.ltb_spec (bits2bytes s) (bits2bytes n)).
  - rewrite length_memset by lia. split; [done|]. rewrite get_bit_memset by lia.
    destruct (decide (_ <= i / 8 < _)).
    + rewrite testbit_ff, decide_False by lia. done.
    + apply HL1. lia.
  - split; [done|]. apply HL1. lia.
Qed.

Lemma get_bit_fields bf n own i : get_bit (BF (m_bytes bf) n own) i = get_bit bf i.
Proof. by rewrite !get_bit_tb. Qed.

(** Clearing all new bytes after a [resize] to a larger size. *)
Lemma get_zero_fill memory bf n i :
  bf_wf bf -> m_size bf < n -> i < 8 * bits2bytes n ->
  let bf1 := resize memory bf n in
  let l2 := if bits2bytes (m_size bf) <? bits2bytes n
            then memset (m_bytes bf1) (bits2bytes (m_size bf)) 0 (bits2bytes n - bits2bytes (m_size bf))
            else m_bytes bf1 in
  length l2 = length (m_bytes bf1) /\
  get_bit (BF l2 n (m_own bf1)) i = if decide (i < m_size bf) then get_bit bf i else false.
Proof.
  intros Hwf Hsn Hi. cbv zeta.
  pose proof (resize_spec memory bf n Hwf) as (Es & [Hb1 Ht1] & HK). destruct Hwf as [Hb Ht].
  set (bf1 := resize memory bf n) in *. rewrite Es in Hb1, Ht1.
  pose proof (bits2bytes_mono (m_size bf) n). pose proof (bits2bytes_spec (m_size bf)).
  assert (i < 8 * bits2bytes (m_size bf) ->
    get_bit bf1 i = if decide (i < m_size bf) then get_bit bf i else false) as HL1.
  { intros Hi'. destruct (decide (i < n)).
    - rewrite HK by lia. case_decide; [done|]. apply Ht. lia.
    - rewrite Ht1, decide_False by lia. done. }
  destruct (Nat.ltb_spec (bits2bytes (m_size bf)) (bits2bytes n)).
  - rewrite length_memset by lia. split; [done|]. rewrite get_bit_memset by lia.
    pose proof (div8_lt i (bits2bytes (m_size bf))). pose proof (div8_lt i (bits2bytes n)).
    destruct (decide (_ <= i / 8 < _)).
    + rewrite Z.bits_0, decide_False by lia. done.
    + rewrite get_bit_fields. apply HL1. lia.
  - split; [done|]. rewrite get_bit_fields. apply HL1. lia.
Qed.

Lemma resize_val_spec memory bf n val :
  bf_wf bf ->
  let bf' := resize_val memory bf n val in
  m_size bf' = n /\ bf_wf bf' /\
  forall i, i < n -> get_bit bf' i = if decide (i < m_size bf) then get_bit bf i else val.
Proof.
  intros Hwf. cbv zeta. unfold resize_val.
  pose proof (resize_spec memory bf n Hwf) as (Es & [Hb1 Ht1] & HK). 
  pose proof (bits2bytes_spec (m_size bf)). pose proof (bits2bytes_spec n).
  rewrite Es in *. destruct (Nat.leb_spec n (m_size bf)).
  { split_and!; [done|split; by rewrite Es|]. intros i Hi. rewrite decide_True, HK by lia. done. }
  destruct val.
  - set (l2 := if bits2bytes _ <? bits2bytes _ then memset _ _ _ _ else _).
    assert (forall i, i < 8 * bits2bytes n -> length l2 = length (m_bytes (resize memory bf n)) /\
      get_bit (BF l2 n (m_own (resize memory bf n))) i =
      if decide (i < m_size bf) then
        get_bit (BF (m_bytes (resize memory bf n)) n (m_own (resize memory bf n))) i else true)
      as HF by (intros; by apply get_fill).
    destruct (HF 0) as [El2 _]; [lia|].
    destruct (clear_trailing_fields (BF l2 n (m_own (resize memory bf n)))) as [Ef _].
    cbn [m_size] in Ef.
    split_and!; [done|apply clear_trailing_wf; cbn [m_size m_bytes]; lia|].
    intros i Hi. rewrite get_clear_trailing by (cbn [m_size m_bytes]; lia). cbn [m_size].
    rewrite bool_decide_true by done. cbn [andb]. destruct (HF i) as [_ ->]; [lia|].
    case_decide; [|done]. rewrite get_bit_fields. apply HK; lia.
  - set (l2 := if bits2bytes _ <? bits2bytes _ then memset _ _ _ _ else _).
    assert (forall i, i < 8 * bits2bytes n -> length l2 = length (m_bytes (resize memory bf n)) /\
      get_bit (BF l2 n (m_own (resize memory bf n))) i =
      if decide (i < m_size bf) then get_bit bf i else false) as HF by (intros; by apply get_zero_fill).
    destruct (HF 0) as [El2 _]; [lia|].
    split_and!; [done|split; cbn [m_size m_bytes]; [lia|]|].
    + intros i Hi. rewrite (proj2 (HF i ltac:(lia))), decide_False by lia. done.
    + intros i Hi. apply HF. lia.
Qed.

Lemma assign_spec memory bf b n :
  bf_wf bf -> bits2bytes n <= length b ->
  let bf' := assign memory bf b n in
  m_size bf' = n /\ bf_wf bf' /\ forall i, i < n -> get_bit bf' i = tb (byte_at b (i / 8)) (i mod 8).
Proof.
  intros Hwf Hl. cbv zeta. unfold assign.
  pose proof (resize_spec memory bf n Hwf) as (Es & [Hb1 Ht1] & _). rewrite Es in *.
  set (l := take _ _ ++ _).
  assert (bits2bytes n <= length l) by (subst l; rewrite length_app, length_take; lia).
  destruct (clear_trailing_fields (BF l n (m_own (resize memory bf n)))) as [Ef _].
  split_and!; [done|by apply clear_trailing_wf|].
  intros i Hi. pose proof (bits2bytes_spec n). pose proof (index_in_bytes i n Hi).
  rewrite get_clear_trailing by (cbn [m_size m_bytes]; lia). cbn [m_size].
  rewrite bool_decide_true by done. cbn [andb]. subst l.
  rewrite (get_bit_app _ _ _ _ 0 true) by (rewrite length_take; lia).
  rewrite (get_bit_take _ _ _ _ 0 true) by done. by rewrite get_bit_tb.
Qed.

(** ** count *)

Lemma byte_count_spec b : byte_count b = count_occ Bool.bool_dec (tb b <$> seq 0 8) true.
Proof. by destruct b. Qed.

Lemma foldl_sum {A} (f : A -> nat) l a : foldl (fun r x => r + f x) a l = a + foldl (fun r x => r + f x) 0 l.
Proof. revert a. induction l as [|x l IH]; intros a; cbn; [lia|]. rewrite (IH (a + f x)), (IH (f x)). lia. Qed.

Lemma div8_add k i : i < 8 -> (8 * k + i) / 8 = k /\ (8 * k + i) mod 8 = i.
Proof.
  intros. split; symmetry; [apply (Nat.div_unique _ _ _ i)|apply (Nat.mod_unique _ _ k)]; lia.
Qed.

Lemma byte_bits l n own k :
  get_bit (BF l n own) <$> seq (8 * k) 8 = tb (byte_at l k) <$> seq 0 8.
Proof.
  rewrite <- (Nat.add_0_r (8 * k)), <- fmap_add_seq, <- list_fmap_compose.
  apply list_fmap_ext. intros i x Hx. apply lookup_seq in Hx as [-> Hi]. cbn [compose].
  rewrite get_bit_tb. cbn [m_bytes]. destruct (div8_add k i Hi) as [E1 E2].
  by rewrite Nat.add_0_l, E1, E2.
Qed.

Lemma count_bytes_spec l n own k :
  k <= length l ->
  foldl (fun ret b => ret + byte_count b) 0 (take k l) =
  count_occ Bool.bool_dec (get_bit (BF l n own) <$> seq 0 (8 * k)) true.
Proof.
  induction k as [|k IH]; intros Hk; [done|].
  destruct (lookup_lt_is_Some_2 l k) as [b Hb]; [lia|].
  rewrite (take_S_r _ _ _ Hb), foldl_app, IH by lia. cbn [foldl].
  replace (8 * S k) with (8 * k + 8) by lia. rewrite seq_app, fmap_app, count_occ_app.
  cbn [Nat.add]. rewrite byte_bits. unfold byte_at. rewrite Hb. cbn [default].
  by rewrite byte_count_spec.
Qed.

Lemma tb_land b i :
  i < 8 -> Z.to_nat (Z.land (Z.shiftr (b2z b) (7 - Z.of_nat i)) 1) = Nat.b2n (tb b i).
Proof.
  intros. unfold tb. change 1%Z with (Z.ones 1). rewrite Z.land_ones by lia.
  rewrite <- Z.bit0_mod, Z.shiftr_spec by lia. cbn [Z.add]. by destruct (Z.testbit _ _).
Qed.

Lemma count_rest b r :
  r <= 8 ->
  foldl (fun ret i => ret + Z.to_nat (Z.land (Z.shiftr (b2z b) (7 - Z.of_nat i)) 1)) 0 (seq 0 r) =
  count_occ Bool.bool_dec (tb b <$> seq 0 r) true.
Proof.
  induction r as [|r IH]; intros Hr; [done|].
  rewrite seq_S, foldl_app, IH, fmap_app, count_occ_app by lia. cbn [foldl].
  rewrite Nat.add_0_l, tb_land by lia. cbn. by destruct (tb b r).
Qed.

Lemma count_spec bf :
  bits2bytes (m_size bf) <= length (m_bytes bf) ->
  count bf = count_occ Bool.bool_dec (bits bf) true.
Proof.
  intros Hb. unfold count, bits. destruct bf as [l n own]. cbn [m_size m_bytes] in *.
  pose proof (Nat.div_mod_eq n 8). pose proof (Nat.mod_upper_bound n 8).
  pose proof (bits2bytes_spec n).
  rewrite foldl_sum, (count_bytes_spec l n own) by lia.
  assert (seq 0 n = seq 0 (8 * (n / 8)) ++ seq (8 * (n / 8)) (n mod 8)) as Eseq
    by (rewrite <- (seq_app (8 * (n / 8)) (n mod 8) 0 : _ = _ ++ seq (8 * (n / 8)) _); f_equal; lia).
  rewrite Eseq, fmap_app, count_occ_app. f_equal.
  replace (n - n / 8 * 8) with (n mod 8) by lia. rewrite count_rest by lia.
  fold (byte_at l (n / 8)). f_equal.
  pose proof (f_equal (take (n mod 8)) (byte_bits l n own (n / 8))) as E.
  rewrite <- !fmap_take, !take_seq, Nat.min_l in E by lia. done.
Qed.

(** ** Iterators *)

Lemma it_inc_spec i : it_inc (It (i / 8) (mask i)) = It (S i / 8) (mask (S i)).
Proof.
  unfold it_inc, mask. cbn [it_byte it_bit].
  pose proof (Nat.div_mod_eq i 8) as Hi. pose proof (Nat.mod_upper_bound i 8).
  destruct (decide (i mod 8 = 7)) as [E|E].
  - rewrite E. change (Z.eqb (Z.shiftr 128 (Z.of_nat 7)) 1) with true. cbv iota.
    destruct (div8_add (S (i / 8)) 0) as [E1 E2]; [lia|].
    replace (S i) with (8 * S (i / 8) + 0) by lia. by rewrite E1, E2.
  - destruct (div8_add (i / 8) (S (i mod 8))) as [E1 E2]; [lia|].
    replace (S i) with (8 * (i / 8) + S (i mod 8)) by lia. rewrite E1, E2.
    revert H E. generalize (i mod 8). intros k Hk Hk7.
    do 7 (destruct k as [|k]; [done|]). lia.
Qed.

Lemma it_iter_spec k bf :
  Nat.iter k it_inc (it_begin bf) = It (k / 8) (mask k).
Proof. induction k as [|k IH]; [done|]. rewrite Nat.iter_succ, IH. apply it_inc_spec. Qed.

Lemma mask_inj i j : i / 8 = j / 8 -> mask i = mask j -> i = j.
Proof.
  intros E1 E2. apply index_eq; [done|]. unfold mask in E2.
  pose proof (Nat.mod_upper_bound i 8). pose proof (Nat.mod_upper_bound j 8).
  rewrite !mask_pow in E2 by lia. apply (Z.pow_inj_r 2) in E2; lia.
Qed.

(** ** Properties *)

(** [set_bit] and [clear_bit] at a valid index replace exactly that bit of
    the list of bits, and keep the invariant that no bit is set behind the
    last one. *)
Theorem set_clear_bit (bf : bitfield) (i : nat) :
  bf_wf bf -> i < m_size bf ->
  bits (set_bit bf i) = <[i:=true]> (bits bf) /\ bf_wf (set_bit bf i) /\
  bits (clear_bit bf i) = <[i:=false]> (bits bf) /\ bf_wf (clear_bit bf i).
Proof.
  intros Hwf Hi. pose proof (wf_index bf i Hwf Hi).
  split_and!; [|by apply set_bit_wf| |by apply clear_bit_wf];
    apply bits_ext; rewrite ?length_insert, ?length_bits; try done;
    cbn [set_bit clear_bit m_size]; intros j Hj;
    rewrite list_lookup_insert, lookup_bits, length_bits by done.
  - rewrite get_set_bit by done. case_decide as Hd.
    + destruct Hd as [-> _]. by rewrite bool_decide_true.
    + rewrite bool_decide_false; [done|by intros ->; destruct Hd].
  - rewrite get_clear_bit by done. case_decide as Hd.
    + destruct Hd as [-> _]. by rewrite bool_decide_true.
    + rewrite bool_decide_false; [done|by intros ->; destruct Hd].
Qed.

Definition sample_bits : bitfield := BF (z2b <$> [0xa0; 0x80]%Z) 10 true.

Lemma sample_bits_wf : bf_wf sample_bits.
Proof.
  split; [by vm_compute|]. intros i Hi. change (bits2bytes (m_size sample_bits)) with 2 in Hi.
  cbn [sample_bits m_size] in Hi. do 10 (destruct i as [|i]; [lia|]).
  do 6 (destruct i as [|i]; [done|]). lia.
Defined.

Lemma set_clear_bit_witness :
  bits (set_bit sample_bits 1) = <[1:=true]> (bits sample_bits).
Proof. apply (set_clear_bit sample_bits 1); [apply sample_bits_wf|vm_compute; lia]. Defined.

(** [count] is the number of set bits, and never exceeds [size]. *)
Theorem count_bits (bf : bitfield) :
  bf_wf bf -> count bf = count_occ Bool.bool_dec (bits bf) true /\ count bf <= size bf.
Proof.
  intros [Hb _]. rewrite count_spec by done. split; [done|].
  rewrite count_occ_bound. by rewrite length_bits.
Qed.

Lemma count_bits_witness : bf_wf sample_bits /\ count sample_bits = 3.
Proof.
  split; [apply sample_bits_wf|].
  rewrite (proj1 (count_bits sample_bits sample_bits_wf)). by vm_compute.
Defined.

(** Whatever new memory holds, [resize(bits, val)] truncates the list of
    bits or extends it with [val], and keeps the invariant. *)
Theorem resize_val_bits (memory : nat -> byte) (bf : bitfield) (n : nat) (val : bool) :
  bf_wf bf ->
  bits (resize_val memory bf n val) =
    take n (bits bf) ++ replicate (n - size bf) val /\
  bf_wf (resize_val memory bf n val).
Proof.
  intros Hwf. destruct (resize_val_spec memory bf n val Hwf) as (Es & Hw & HG).
  split; [|done]. apply bits_ext; rewrite Es; unfold size.
  - rewrite length_app, length_take, length_bits, length_replicate. lia.
  - intros i Hi. rewrite HG by done. case_decide.
    + rewrite lookup_app_l by (rewrite length_take, length_bits; lia).
      by rewrite lookup_take_lt, lookup_bits by done.
    + rewrite lookup_app_r by (rewrite length_take, length_bits; lia).
      apply lookup_replicate_2. rewrite length_take, length_bits. lia.
Qed.

Lemma resize_val_bits_witness :
  bf_wf sample_bits /\
  bits (resize_val (fun _ => z2b 0xff) sample_bits 12 false) =
    [true; false; true; false; false; false; false; false; true; false; false; false].
Proof.
  split; [apply sample_bits_wf|].
  rewrite (proj1 (resize_val_bits (fun _ => z2b 0xff) sample_bits 12 false sample_bits_wf)).
  by vm_compute.
Defined.

(** [assign] copies: it yields the bits stored in the given bytes, so the
    copy of a bitfield has the bits of the original. *)
Theorem assign_bits (memory : nat -> byte) (bf rhs : bitfield) :
  bf_wf bf -> bf_wf rhs ->
  bits (assign memory bf (m_bytes rhs) (size rhs)) = bits rhs /\
  bf_wf (assign memory bf (m_bytes rhs) (size rhs)).
Proof.
  intros Hwf Hr. pose proof Hr as [Hb _].
  destruct (assign_spec memory bf (m_bytes rhs) (size rhs) Hwf Hb) as (Es & Hw & HG).
  split; [|done]. apply bits_ext; rewrite Es; [apply length_bits|].
  intros i Hi. by rewrite HG, lookup_bits, get_bit_tb.
Qed.

Lemma assign_bits_witness :
  bf_wf bitfield_empty /\ bits (assign (fun _ => z2b 0xff) bitfield_empty (m_bytes sample_bits) 10)
    = bits sample_bits.
Proof.
  assert (bf_wf bitfield_empty) as He by (split; [done|intros i Hi; vm_compute in Hi; lia]).
  split; [done|].
  apply (assign_bits (fun _ => z2b 0xff) bitfield_empty sample_bits He sample_bits_wf).
Defined.

(** Iterating from [begin()] visits the bits in order and reaches [end()]
    after exactly [size()] increments. *)
Theorem iterator_bits (bf : bitfield) (k : nat) :
  it_deref bf (Nat.iter k it_inc (it_begin bf)) = get_bit bf k /\
  (it_eqb (Nat.iter k it_inc (it_begin bf)) (it_end bf) = true <-> k = size bf).
Proof.
  rewrite it_iter_spec. split; [done|]. unfold it_eqb, it_end. cbn [it_byte it_bit].
  fold (mask (m_size bf)). rewrite andb_true_iff, Nat.eqb_eq, Z.eqb_eq.
  split; [intros [? ?]; by apply mask_inj|by intros ->].
Qed.
