(* ===== verification/Packets.v ===== *)
(** * Packet structures: include/libed2k/packet_struct.hpp, src/packet_struct.cpp

    Headers, the generic container, the structures exchanged with servers,
    message assembly and extraction.  A template [serialize(Archive&)] is one
    [Serializable] instance whose [save] and [load] follow its field order. *)

From S2P Require Import Prelude Archive Md4Hash CTag Bitfield.
Open Scope Z_scope.

(** ** Headers *)

Definition OP_EDONKEYPROT        : Z := 0xE3.
Definition OP_PACKEDPROT         : Z := 0xD4.
Definition OP_EMULEPROT          : Z := 0xC5.
Definition OP_UDPRESERVEDPROT1   : Z := 0xA3.
Definition OP_UDPRESERVEDPROT2   : Z := 0xB2.
Definition OP_KADEMLIAHEADER     : Z := 0xE4.
Definition OP_KADEMLIAPACKEDPROT : Z := 0xE5.

Definition OP_SENDINGPART        : Z := 0x46.
Definition OP_SENDINGPART_I64    : Z := 0xA2.
Definition OP_COMPRESSEDPART     : Z := 0x40.
Definition OP_COMPRESSEDPART_I64 : Z := 0xA1.

(** The packed struct [libed2k_header]: 6 bytes. *)
Record libed2k_header := Header { m_protocol : Z; h_size : Z; m_type : Z }.

#[global] Instance libed2k_header_eq_dec : EqDecision libed2k_header.
Proof. solve_decision. Defined.

Definition header_default : libed2k_header := Header OP_EDONKEYPROT 1 0.

Definition sizeof_header : nat := 6.

Definition header_bytes (h : libed2k_header) : bytes :=
  write_uint 1 (m_protocol h) ++ write_uint 4 (h_size h) ++ write_uint 1 (m_type h).

(** [assign]: the packed struct read from the first 6 bytes of the buffer. *)
Definition header_assign (buf : bytes) : libed2k_header :=
  Header (le_combine (take 1 buf)) (le_combine (take 4 (drop 1 buf)))
         (le_combine (take 1 (drop 5 buf))).

(** [size_t body_size() const { return m_size - 1; }]: the subtraction is done
    on 32-bit unsigned integers. *)
Definition body_size (h : libed2k_header) : Z := to_uint 4 (h_size h - 1).

Definition check_packet (h : libed2k_header) : error_code :=
  let p := m_protocol h in
  if (p =? OP_EDONKEYPROT) || (p =? OP_EMULEPROT) || (p =? OP_KADEMLIAHEADER) || (p =? OP_PACKEDPROT)
  then if (h_size h <? 1) || (MAX_ED2K_PACKET_LEN <? h_size h) then invalid_packet_size else no_error
  else if p =? OP_UDPRESERVEDPROT1 then unsupported_udp_res1_type
  else if p =? OP_UDPRESERVEDPROT2 then unsupported_udp_res2_type
  else if p =? OP_KADEMLIAPACKEDPROT then unsupported_kad_packed_type
  else invalid_protocol_type.

(** How much of the body is the packet structure; the rest is file data. *)
Definition service_size (h : libed2k_header) : Z :=
  if m_type h =? OP_SENDINGPART then 16 + 2 * 4
  else if m_type h =? OP_SENDINGPART_I64 then 16 + 2 * 8
  else if (m_protocol h =? OP_EMULEPROT) && (m_type h =? OP_COMPRESSEDPART) then 16 + 2 * 4
  else if (m_protocol h =? OP_EMULEPROT) && (m_type h =? OP_COMPRESSEDPART_I64) then 16 + 8 + 4
  else to_uint 4 (h_size h - 1).

(** ** container_holder<size_type, collection_type>

    [w] is the size of [size_type]. *)

Definition MAX_COLLECTION_SIZE : Z := BLOCK_SIZE.

Record container_holder (w : nat) (T : Type) := Holder { m_size : Z; m_collection : list T }.
Arguments Holder {w T} _ _.
Arguments m_size {w T} _.
Arguments m_collection {w T} _.

(** [add] and [clear]; [m_size] is a [size_type] and wraps. *)
Definition holder_add {w T} (h : container_holder w T) (e : T) : container_holder w T :=
  Holder (to_uint w (m_size h + 1)) (m_collection h ++ [e]).
Definition holder_clear {w T} (h : container_holder w T) : container_holder w T := Holder 0 [].
Definition holder_of {w T} (l : list T) : container_holder w T := Holder (to_uint w (Z.of_nat (length l))) l.

(** [collection.resize(n)]. *)
Definition resize_collection {T} (x0 : T) (n : nat) (l : list T) : list T :=
  take n l ++ replicate (n - length l) x0.

Section Holder.
Context (w : nat) (T : Type) `{Wire T}.

#[global] Instance holder_serializable : Serializable (container_holder w T) := {
  fresh := Holder 0 [];
  (* [save] first refreshes [m_size] from the collection *)
  save h := write_uint w (to_uint w (Z.of_nat (length (m_collection h))))
              ++ (m_collection h ≫= save);
  load h :=
    n ← read_uint w;
    if MAX_COLLECTION_SIZE <? n then throw decode_packet_error
    else l ← read_each load (resize_collection fresh (Z.to_nat n) (m_collection h));
         mret (Holder n l)
}.

#[global] Program Instance holder_wire : Wire (container_holder w T) := {
  wf h := Forall wf (m_collection h) /\ is_uint w (Z.of_nat (length (m_collection h))) /\
          Z.of_nat (length (m_collection h)) <= MAX_COLLECTION_SIZE;
  stored h := Holder (Z.of_nat (length (m_collection h))) (stored <$> m_collection h)
}.
Next Obligation.
  intros [n l] (Hl & Hn & Hmax). cbn [m_collection] in *. cbn [save load fresh holder_serializable m_collection].
  rewrite to_uint_small by done. eapply reads_bind; [by apply reads_uint|].
  destruct (Z.ltb_spec MAX_COLLECTION_SIZE (Z.of_nat (length l))); [lia|].
  unfold resize_collection. rewrite take_nil, Nat2Z.id, Nat.sub_0_r. cbn [app].
  apply (reads_bind_ret _ (Holder (w := w) (Z.of_nat (length l)))).
  apply (reads_each load save stored). intros x Hx. apply load_save.
  rewrite Forall_forall in Hl. by apply Hl, list_elem_of_In.
Qed.
End Holder.

(** A [char] or [unsigned char] element. *)
#[global] Instance byte_serializable : Serializable byte := {
  fresh := z2b 0; save b := write_uint 1 (b2z b); load _ := read_byte
}.
#[global] Program Instance byte_wire : Wire byte := { wf _ := True; stored b := b }.
Next Obligation. intros. apply reads_byte. Qed.

(** A [std::string] or byte vector behind a size field. *)
Abbreviation string_holder w := (container_holder w byte).

(** ** Common structures *)

(** A step of a loader: an integer of known width, a nested structure, or a tag
    list. *)
Ltac wire_field :=
  first
    [ apply reads_uint; tauto
    | apply load_save; tauto
    | refine (reads_tag_list _ _ [] _); tauto
    | apply reads_string_len; tauto ].

Tactic Notation "wire_record" reference(inst) :=
  let x := fresh "x" in
  intros x; cbn [load save fresh inst]; destruct x;
  cbn -[reads read_uint write_uint tag_list_save tag_list_load fresh save load
    stored wf app is_uint]; intros; destruct_and?; reads_steps wire_field.

(** [net_identifier]. *)
Record net_identifier := NetId { m_nIP : Z; m_nPort : Z }.

#[global] Instance net_identifier_eq_dec : EqDecision net_identifier.
Proof. solve_decision. Defined.

Definition net_identifier_ltb (a b : net_identifier) : bool :=
  if m_nIP a =? m_nIP b then m_nPort a <? m_nPort b else m_nIP a <? m_nIP b.
Definition net_identifier_eqb (a b : net_identifier) : bool :=
  (m_nIP a =? m_nIP b) && (m_nPort a =? m_nPort b).
Definition net_identifier_empty (a : net_identifier) : bool := (m_nIP a =? 0) || (m_nPort a =? 0).

#[global] Instance net_identifier_serializable : Serializable net_identifier := {
  fresh := NetId 0 0;
  save x := write_uint 4 (m_nIP x) ++ write_uint 2 (m_nPort x);
  load x := ip ← read_uint 4; port ← read_uint 2; mret (NetId ip port)
}.
#[global] Program Instance net_identifier_wire : Wire net_identifier := {
  wf x := is_uint 4 (m_nIP x) /\ is_uint 2 (m_nPort x); stored x := x
}.
Next Obligation. wire_record net_identifier_serializable. Qed.

(** [shared_file_entry]; [cs_login_request] and [server_info_entry] have the
    same three fields. *)
Record shared_file_entry := SharedFile {
  sf_hFile : md4_hash; sf_network_point : net_identifier; sf_list : tag_list }.

Definition tags_stored (l : tag_list) : tag_list := tag_stored <$> l.

#[global] Instance shared_file_entry_serializable : Serializable shared_file_entry := {
  fresh := SharedFile fresh fresh [];
  save x := save (sf_hFile x) ++ save (sf_network_point x) ++ tag_list_save 4 (sf_list x);
  load x := h ← load (sf_hFile x); np ← load (sf_network_point x);
            l ← tag_list_load 4 (sf_list x); mret (SharedFile h np l)
}.
#[global] Program Instance shared_file_entry_wire : Wire shared_file_entry := {
  wf x := wf (sf_hFile x) /\ wf (sf_network_point x) /\ tag_list_wf 4 (sf_list x);
  stored x := SharedFile (sf_hFile x) (sf_network_point x) (tags_stored (sf_list x))
}.
Next Obligation. wire_record shared_file_entry_serializable. Qed.

(** [shared_files_list] and [server_list]. *)
Abbreviation shared_files_list := (container_holder 4 shared_file_entry).
Abbreviation server_list := (container_holder 1 net_identifier).

(** ** Client to server and back *)

(** [cs_login_request]: on login to a server. *)
Record cs_login_request := CsLoginRequest { login_hClient : md4_hash; login_network_point : net_identifier; login_list : tag_list }.
#[global] Instance cs_login_request_serializable : Serializable cs_login_request := {
  fresh := CsLoginRequest fresh fresh [];
  save x := save (login_hClient x) ++ save (login_network_point x) ++ tag_list_save 4 (login_list x);
  load x := v0 ← load (login_hClient x); v1 ← load (login_network_point x); v2 ← tag_list_load 4 (login_list x); mret (CsLoginRequest v0 v1 v2)
}.
#[global] Program Instance cs_login_request_wire : Wire cs_login_request := {
  wf x := wf (login_hClient x) /\ wf (login_network_point x) /\ tag_list_wf 4 (login_list x);
  stored x := CsLoginRequest (stored (login_hClient x)) (stored (login_network_point x)) (tags_stored (login_list x))
}.
Next Obligation. wire_record cs_login_request_serializable. Qed.

(** [server_info_entry]. *)
Record server_info_entry := ServerInfoEntry { si_hServer : md4_hash; si_network_point : net_identifier; si_list : tag_list }.
#[global] Instance server_info_entry_serializable : Serializable server_info_entry := {
  fresh := ServerInfoEntry fresh fresh [];
  save x := save (si_hServer x) ++ save (si_network_point x) ++ tag_list_save 4 (si_list x);
  load x := v0 ← load (si_hServer x); v1 ← load (si_network_point x); v2 ← tag_list_load 4 (si_list x); mret (ServerInfoEntry v0 v1 v2)
}.
#[global] Program Instance server_info_entry_wire : Wire server_info_entry := {
  wf x := wf (si_hServer x) /\ wf (si_network_point x) /\ tag_list_wf 4 (si_list x);
  stored x := ServerInfoEntry (stored (si_hServer x)) (stored (si_network_point x)) (tags_stored (si_list x))
}.
Next Obligation. wire_record server_info_entry_serializable. Qed.

(** [callback_request_in], server to client. *)
Record callback_request_in := CallbackRequestIn { cbi_network_point : net_identifier }.
#[global] Instance callback_request_in_serializable : Serializable callback_request_in := {
  fresh := CallbackRequestIn fresh;
  save x := save (cbi_network_point x);
  load x := v0 ← load (cbi_network_point x); mret (CallbackRequestIn v0)
}.
#[global] Program Instance callback_request_in_wire : Wire callback_request_in := {
  wf x := wf (cbi_network_point x);
  stored x := CallbackRequestIn (stored (cbi_network_point x))
}.
Next Obligation. wire_record callback_request_in_serializable. Qed.

(** [callback_request_out], client to server. *)
Record callback_request_out := CallbackRequestOut { cbo_nClientId : Z }.
#[global] Instance callback_request_out_serializable : Serializable callback_request_out := {
  fresh := CallbackRequestOut 0;
  save x := write_uint 4 (cbo_nClientId x);
  load x := v0 ← read_uint 4; mret (CallbackRequestOut v0)
}.
#[global] Program Instance callback_request_out_wire : Wire callback_request_out := {
  wf x := is_uint 4 (cbo_nClientId x);
  stored x := CallbackRequestOut (cbo_nClientId x)
}.
Next Obligation. wire_record callback_request_out_serializable. Qed.

(** [server_status]. *)
Record server_status := ServerStatus { st_nUserCount : Z; st_nFilesCount : Z }.
#[global] Instance server_status_serializable : Serializable server_status := {
  fresh := ServerStatus 0 0;
  save x := write_uint 4 (st_nUserCount x) ++ write_uint 4 (st_nFilesCount x);
  load x := v0 ← read_uint 4; v1 ← read_uint 4; mret (ServerStatus v0 v1)
}.
#[global] Program Instance server_status_wire : Wire server_status := {
  wf x := is_uint 4 (st_nUserCount x) /\ is_uint 4 (st_nFilesCount x);
  stored x := ServerStatus (st_nUserCount x) (st_nFilesCount x)
}.
Next Obligation. wire_record server_status_serializable. Qed.

(** [found_file_sources]. *)
Record found_file_sources := FoundFileSources { ffs_hFile : md4_hash; ffs_sources : (container_holder 1 net_identifier) }.
#[global] Instance found_file_sources_serializable : Serializable found_file_sources := {
  fresh := FoundFileSources fresh fresh;
  save x := save (ffs_hFile x) ++ save (ffs_sources x);
  load x := v0 ← load (ffs_hFile x); v1 ← load (ffs_sources x); mret (FoundFileSources v0 v1)
}.
#[global] Program Instance found_file_sources_wire : Wire found_file_sources := {
  wf x := wf (ffs_hFile x) /\ wf (ffs_sources x);
  stored x := FoundFileSources (stored (ffs_hFile x)) (stored (ffs_sources x))
}.
Next Obligation. wire_record found_file_sources_serializable. Qed.

(** [server_message]: the text is resized to [m_nLength], also when saving. *)
Record server_message := ServerMessage { sm_nLength : Z; sm_strMessage : bytes }.

Definition string_resize (n : nat) (s : bytes) : bytes := take n s ++ replicate (n - length s) (z2b 0).

#[global] Instance server_message_serializable : Serializable server_message := {
  fresh := ServerMessage 0 [];
  save x := write_uint 2 (sm_nLength x)
              ++ write_string (string_resize (Z.to_nat (sm_nLength x)) (sm_strMessage x));
  load x := n ← read_uint 2; s ← read_string (Z.to_nat n); mret (ServerMessage n s)
}.
Lemma length_string_resize n s : length (string_resize n s) = n.
Proof. unfold string_resize. rewrite length_app, length_take, length_replicate. lia. Qed.

#[global] Program Instance server_message_wire : Wire server_message := {
  wf x := is_uint 2 (sm_nLength x);
  stored x := ServerMessage (sm_nLength x) (string_resize (Z.to_nat (sm_nLength x)) (sm_strMessage x))
}.
Next Obligation.
  intros [n s]. cbn [sm_nLength sm_strMessage]. intros Hn. eapply reads_bind; [by apply reads_uint|].
  apply (reads_bind_ret _ (ServerMessage n)), reads_string_len, length_string_resize.
Qed.

(** [id_change]: the later fields are present only in longer packets.  Saving
    stops after the id, since [bytes_left()] of an output archive is 0. *)
Record id_change := IdChange { m_client_id : Z; m_tcp_flags : Z; m_aux_port : Z }.

#[global] Instance id_change_serializable : Serializable id_change := {
  fresh := IdChange 0 0 0;
  save x := write_uint 4 (m_client_id x);
  load x :=
    cid ← read_uint 4;
    n ← bytes_left;
    if 4 <=? n then
      flags ← read_uint 4;
      n ← bytes_left;
      if 4 <=? n then aux ← read_uint 4; mret (IdChange cid flags aux)
      else mret (IdChange cid flags (m_aux_port x))
    else mret (IdChange cid (m_tcp_flags x) (m_aux_port x))
}.

(** ** Search requests *)

Definition SEARCH_TYPE_BOOL    : Z := 0x00.
Definition SEARCH_TYPE_STR     : Z := 0x01.
Definition SEARCH_TYPE_STR_TAG : Z := 0x02.
Definition SEARCH_TYPE_UINT32  : Z := 0x03.
Definition SEARCH_TYPE_UINT64  : Z := 0x08.

(** [SRE_Operation]. *)
Definition SRE_AND : Z := 0.
Definition SRE_OR  : Z := 1.
Definition SRE_NOT : Z := 2.
Definition SRE_OBR : Z := 3.
Definition SRE_CBR : Z := 4.
Definition SRE_END : Z := 5.

(** [sre_nValue] is the union of [m_nValue32] and [m_nValue64]. *)
Record search_request_entry := SRE {
  sre_type : Z; sre_operator : Z; sre_strValue : bytes; sre_nValue : Z;
  sre_meta_type : option Z; sre_strMetaName : option bytes }.

#[global] Instance search_request_entry_eq_dec : EqDecision search_request_entry.
Proof. solve_decision. Defined.

(** The constructors; [u] is the uninitialised part of the object. *)
Definition sre_operation (u soper : Z) : search_request_entry :=
  SRE SEARCH_TYPE_BOOL soper [] u None None.
Definition sre_string (u : Z) (strValue : bytes) : search_request_entry :=
  SRE SEARCH_TYPE_STR SRE_END strValue u None None.
Definition sre_string_meta (u nMetaTagId : Z) (strValue : bytes) : search_request_entry :=
  SRE SEARCH_TYPE_STR_TAG SRE_END strValue u (Some nMetaTagId) None.
Definition sre_string_name (u : Z) (strMetaTagName strValue : bytes) : search_request_entry :=
  SRE SEARCH_TYPE_STR_TAG SRE_END strValue u None (Some strMetaTagName).
Definition sre_int_type (nValue : Z) : Z :=
  if 0xFFFFFFFF <? nValue then SEARCH_TYPE_UINT64 else SEARCH_TYPE_UINT32.
Definition sre_int_meta (nMetaTagId nOperator nValue : Z) : search_request_entry :=
  SRE (sre_int_type nValue) nOperator [] nValue (Some nMetaTagId) None.
(** The name goes to [m_strValue], as in the source. *)
Definition sre_int_name (strMetaTagName : bytes) (nOperator nValue : Z) : search_request_entry :=
  SRE (sre_int_type nValue) nOperator strMetaTagName nValue None None.

Definition isLogic (e : search_request_entry) : bool :=
  (sre_type e =? SEARCH_TYPE_BOOL) && (sre_operator e <=? SRE_NOT).
Definition isOperator (e : search_request_entry) : bool := sre_type e =? SEARCH_TYPE_BOOL.

(** The meta tag: by name, by id, or absent. *)
Definition meta_save (e : search_request_entry) : bytes :=
  match sre_strMetaName e, sre_meta_type e with
  | Some name, _ => write_uint 2 (to_uint 2 (Z.of_nat (length name))) ++ write_string name
  | None, Some t => write_uint 2 1 ++ write_uint 1 t
  | None, None => []
  end.

Definition sre_save (e : search_request_entry) : bytes :=
  let t := sre_type e in
  write_uint 1 t ++
  if t =? SEARCH_TYPE_BOOL then write_uint 1 (sre_operator e)
  else if (t =? SEARCH_TYPE_STR) || (t =? SEARCH_TYPE_STR_TAG) then
    write_uint 2 (to_uint 2 (Z.of_nat (length (sre_strValue e))))
      ++ write_string (sre_strValue e) ++ meta_save e
  else if (t =? SEARCH_TYPE_UINT32) || (t =? SEARCH_TYPE_UINT64) then
    (if t =? SEARCH_TYPE_UINT32 then write_uint 4 (sre_nValue e) else write_uint 8 (sre_nValue e))
      ++ write_uint 1 (sre_operator e) ++ meta_save e
  else [].

(** [search_request_block::serialize]. *)
Definition search_request_block_save (order : list search_request_entry) : bytes := order ≫= sre_save.

(** [search_result]: the trailing flag is read when exactly one byte is left;
    saving does nothing. *)
Record search_result := SearchResult { sr_files : shared_files_list; m_more_results_avaliable : Z }.

#[global] Instance search_result_serializable : Serializable search_result := {
  fresh := SearchResult fresh 0;
  save x := [];
  load x :=
    files ← load (sr_files x);
    n ← bytes_left;
    if n =? 1 then more ← read_uint 1; mret (SearchResult files more)
    else mret (SearchResult files 0)
}.

(** [__file_size] and [get_file_sources]: the high part is on the wire only
    when it is not zero, preceded by an empty 32-bit size. *)
Record file_size := FileSize { nLowPart : Z; nHighPart : Z }.

#[global] Instance file_size_serializable : Serializable file_size := {
  fresh := FileSize 0 0;
  save x := write_uint 4 (nLowPart x) ++ (if 0 <? nHighPart x then write_uint 4 (nHighPart x) else []);
  load x := lo ← read_uint 4;
            if 0 <? nHighPart x then hi ← read_uint 4; mret (FileSize lo hi)
            else mret (FileSize lo (nHighPart x))
}.

Record get_file_sources := GetFileSources { gfs_hFile : md4_hash; gfs_file_size : file_size }.

#[global] Instance get_file_sources_serializable : Serializable get_file_sources := {
  fresh := GetFileSources fresh fresh;
  save x := save (gfs_hFile x)
              ++ (if 0 <? nHighPart (gfs_file_size x) then write_uint 4 0 else [])
              ++ save (gfs_file_size x);
  load x := h ← load (gfs_hFile x);
            _ ← (if 0 <? nHighPart (gfs_file_size x) then read_uint 4 else mret 0);
            sz ← load (gfs_file_size x);
            mret (GetFileSources h sz)
}.

(** [global_server_state_res]: [DECREMENT_READ(nCounter, x)] reads [x] when
    [nCounter >= sizeof(x)] and returns otherwise; it does not decrement. *)
Record global_server_state_res := GlobalState {
  gs_nChallenge : Z; gs_nUsersCount : Z; gs_nFilesCount : Z;
  gs_nCurrentMaxUsers : Z; gs_nSoftFiles : Z; gs_nHardFiles : Z; gs_nUDPFlags : Z;
  gs_nLowIdUsers : Z; gs_nUDPObfuscationPort : Z; gs_nTCPObfuscationPort : Z;
  gs_nServerUDPKey : Z; gs_nMaxSize : Z }.

Definition gs_new (nMaxSize : Z) : global_server_state_res :=
  GlobalState 0 0 0 0 0 0 0 0 0 0 0 nMaxSize.

(** The optional fields in order, [w] bytes each; the values of those read. *)
Fixpoint decrement_read (nCounter : Z) (ws : list nat) : reader (list Z) :=
  match ws with
  | [] => mret []
  | w :: ws' =>
      if Z.of_nat w <=? nCounter
      then v ← read_uint w; vs ← decrement_read nCounter ws'; mret (v :: vs)
      else mret []
  end.

Definition gs_load (x : global_server_state_res) : reader global_server_state_res :=
  let nCounter := to_uint 8 (gs_nMaxSize x - (4 - 4 - 4)) in
  ch ← read_uint 4; us ← read_uint 4; fs ← read_uint 4;
  vs ← decrement_read nCounter [4; 4; 4; 4; 4; 2; 2; 4]%nat;
  let f i old := nth i vs old in
  mret (GlobalState ch us fs (f 0%nat (gs_nCurrentMaxUsers x)) (f 1%nat (gs_nSoftFiles x))
    (f 2%nat (gs_nHardFiles x)) (f 3%nat (gs_nUDPFlags x)) (f 4%nat (gs_nLowIdUsers x))
    (f 5%nat (gs_nUDPObfuscationPort x)) (f 6%nat (gs_nTCPObfuscationPort x))
    (f 7%nat (gs_nServerUDPKey x)) (gs_nMaxSize x)).

(** ** Messages *)

(** [packet_type<T>]: opcode and protocol; [packet_extra] is the file data that
    the [body_size] overload of [client_sending_part] accounts for. *)
Class PacketType (T : Type) := {
  packet_value : Z;
  packet_protocol : Z;
  packet_extra : T -> Z
}.
Arguments packet_value T {_}.
Arguments packet_protocol T {_}.
#[global] Hint Mode PacketType ! : typeclass_instances.

Definition packet (T : Type) (v p : Z) : PacketType T := Build_PacketType T v p (fun _ => 0).

#[global] Instance cs_login_request_packet : PacketType cs_login_request := packet _ 0x01 OP_EDONKEYPROT.
#[global] Instance shared_files_list_packet : PacketType shared_files_list := packet _ 0x15 OP_EDONKEYPROT.
#[global] Instance search_result_packet : PacketType search_result := packet _ 0x33 OP_EDONKEYPROT.
#[global] Instance get_file_sources_packet : PacketType get_file_sources := packet _ 0x19 OP_EDONKEYPROT.
#[global] Instance found_file_sources_packet : PacketType found_file_sources := packet _ 0x42 OP_EDONKEYPROT.
#[global] Instance callback_request_out_packet : PacketType callback_request_out := packet _ 0x1C OP_EDONKEYPROT.
#[global] Instance callback_request_in_packet : PacketType callback_request_in := packet _ 0x35 OP_EDONKEYPROT.
#[global] Instance server_list_packet : PacketType server_list := packet _ 0x32 OP_EDONKEYPROT.
#[global] Instance server_status_packet : PacketType server_status := packet _ 0x34 OP_EDONKEYPROT.
#[global] Instance id_change_packet : PacketType id_change := packet _ 0x40 OP_EDONKEYPROT.
#[global] Instance server_message_packet : PacketType server_message := packet _ 0x38 OP_EDONKEYPROT.
#[global] Instance server_info_entry_packet : PacketType server_info_entry := packet _ 0x41 OP_EDONKEYPROT.

Definition message : Type := libed2k_header * bytes.

Definition make_message {T} `{Serializable T, PacketType T} (t : T) : message :=
  let body := save t in
  (Header (packet_protocol T) (to_uint 4 (Z.of_nat (length body) + packet_extra t + 1))
     (packet_value T), body).

(** The bytes of a message on the wire. *)
Definition message_bytes (m : message) : bytes := header_bytes (fst m) ++ snd m.

(** [extract_message(p, bytes, ec)].  The copy of the body reads
    [body_size()] bytes behind the header; when the buffer ends earlier it
    reads memory that does not belong to it. *)
Inductive extracted : Type :=
| Extracted (m : message) (ec : error_code)
| ReadsPastEnd.

Definition extract_message (p : bytes) : extracted :=
  let bytes_ := Z.of_nat (length p) in
  if bytes_ <? Z.of_nat sizeof_header then Extracted (header_default, []) invalid_packet_size
  else
    let h := header_assign p in
    let ec := check_packet h in
    if decide (ec = no_error) then
      if bytes_ <? body_size h then Extracted (h, []) invalid_packet_size
      else if Z.of_nat (length (drop sizeof_header p)) <? body_size h then ReadsPastEnd
      else Extracted (h, take (Z.to_nat (body_size h)) (drop sizeof_header p)) no_error
    else Extracted (h, []) ec.

(** ** Option words *)

Record misc_options := Misc {
  m_nAICHVersion : Z; m_nUnicodeSupport : Z; m_nUDPVer : Z; m_nDataCompVer : Z;
  m_nSupportSecIdent : Z; m_nSourceExchange1Ver : Z; m_nExtendedRequestsVer : Z;
  m_nAcceptCommentVer : Z; m_nNoViewSharedFiles : Z; m_nMultiPacket : Z; m_nSupportsPreview : Z }.

Definition misc_options_load (opts : Z) : misc_options :=
  Misc (Z.land (Z.shiftr opts (4 * 7 + 1)) 0x07) (Z.land (Z.shiftr opts (4 * 7)) 0x01)
       (Z.land (Z.shiftr opts (4 * 6)) 0x0f) (Z.land (Z.shiftr opts (4 * 5)) 0x0f)
       (Z.land (Z.shiftr opts (4 * 4)) 0x0f) (Z.land (Z.shiftr opts (4 * 3)) 0x0f)
       (Z.land (Z.shiftr opts (4 * 2)) 0x0f) (Z.land (Z.shiftr opts (4 * 1)) 0x0f)
       (Z.land (Z.shiftr opts 2) 0x01) (Z.land (Z.shiftr opts 1) 0x01) (Z.land (Z.shiftr opts 0) 0x01).

(** The shifts are done on 32-bit unsigned integers. *)
Definition misc_options_generate (o : misc_options) : Z :=
  let sh v n := to_uint 4 (Z.shiftl v n) in
  Z.lor (sh (m_nAICHVersion o) (4 * 7 + 1)) (Z.lor (sh (m_nUnicodeSupport o) (4 * 7))
  (Z.lor (sh (m_nUDPVer o) (4 * 6)) (Z.lor (sh (m_nDataCompVer o) (4 * 5))
  (Z.lor (sh (m_nSupportSecIdent o) (4 * 4)) (Z.lor (sh (m_nSourceExchange1Ver o) (4 * 3))
  (Z.lor (sh (m_nExtendedRequestsVer o) (4 * 2)) (Z.lor (sh (m_nAcceptCommentVer o) (4 * 1))
  (Z.lor (sh (m_nNoViewSharedFiles o) 2) (Z.lor (sh (m_nMultiPacket o) 1)
     (sh (m_nSupportsPreview o) 0)))))))))).

(** [misc_options2]: one word, four flags. *)
Definition LARGE_FILE_OFFSET : Z := 4.
Definition MULTIP_OFFSET     : Z := 5.
Definition SRC_EXT_OFFSET    : Z := 10.
Definition CAPTHA_OFFSET     : Z := 11.

Definition misc2_support (options off : Z) : bool := negb (Z.land (Z.shiftr options off) 0x01 =? 0).
Definition misc2_set (options off : Z) : Z := Z.lor options (to_uint 4 (Z.shiftl 1 off)).

(** [uagent2csoft]: the client software from two bytes of the user hash. *)
Definition SO_EMULE    : Z := 0.
Definition SO_MLDONKEY : Z := 0x34.
Definition SO_OLDEMULE : Z := 0x35.
Definition SO_UNKNOWN  : Z := 0x36.
Definition SO_LIBED2K  : Z := 0x99.
Definition SO_QMULE    : Z := 0xA0.

Definition uagent2csoft (ua_hash : md4_hash) : Z :=
  let b n := b2z (byte_at (m_hash ua_hash) n) in
  if (b 5%nat =? 13) && (b 14%nat =? 110) then SO_OLDEMULE
  else if (b 5%nat =? 14) && (b 14%nat =? 111) then SO_EMULE
  else if (b 5%nat =? 77) && (b 14%nat =? 76) then SO_MLDONKEY
  else if (b 5%nat =? 76) && (b 14%nat =? 75) then SO_LIBED2K
  else if (b 5%nat =? 81) && (b 14%nat =? 77) then SO_QMULE
  else SO_UNKNOWN.

(** ** Properties of messages *)

Definition header_wf (h : libed2k_header) : Prop :=
  is_uint 1 (m_protocol h) /\ is_uint 4 (h_size h) /\ is_uint 1 (m_type h).

Lemma length_header_bytes h : length (header_bytes h) = sizeof_header.
Proof. unfold header_bytes, write_uint. by rewrite !length_app, !length_le_split. Qed.

Lemma header_assign_bytes h rest :
  header_wf h -> header_assign (header_bytes h ++ rest) = h.
Proof.
  intros (Hp & Hs & Ht). unfold header_assign, header_bytes, write_uint.
  rewrite <- !app_assoc.
  rewrite take_app_length' by (by rewrite length_le_split).
  rewrite drop_app_length' by (by rewrite length_le_split).
  rewrite take_app_length' by (by rewrite length_le_split).
  rewrite (app_assoc (le_split 1 _)), drop_app_length'
    by (by rewrite length_app, !length_le_split).
  rewrite take_app_length' by (by rewrite length_le_split).
  rewrite !le_combine_le_split by done. by destruct h.
Qed.

(** Anything longer than a header: the verdict of [extract_message] on a good
    header followed by [body]. *)
Lemma extract_message_good h body :
  header_wf h -> check_packet h = no_error ->
  extract_message (header_bytes h ++ body) =
    if Z.of_nat (sizeof_header + length body) <? body_size h then Extracted (h, []) invalid_packet_size
    else if Z.of_nat (length body) <? body_size h then ReadsPastEnd
    else Extracted (h, take (Z.to_nat (body_size h)) body) no_error.
Proof.
  intros Hh Hc. unfold extract_message.
  rewrite length_app, length_header_bytes, header_assign_bytes, Hc by done.
  rewrite drop_app_length' by (by rewrite length_header_bytes).
  destruct (Z.ltb_spec (Z.of_nat (sizeof_header + length body)) (Z.of_nat sizeof_header)); [lia|].
  by rewrite decide_True.
Qed.

(** The protocols whose packets [check_packet] lets through. *)
Definition known_protocol (p : Z) : Prop :=
  p = OP_EDONKEYPROT \/ p = OP_EMULEPROT \/ p = OP_KADEMLIAHEADER \/ p = OP_PACKEDPROT.

Lemma check_packet_ok p n t :
  known_protocol p -> 1 <= n <= MAX_ED2K_PACKET_LEN -> check_packet (Header p n t) = no_error.
Proof.
  intros Hp Hn. unfold check_packet. cbn [m_protocol h_size].
  destruct (Z.ltb_spec n 1); [lia|]. destruct (Z.ltb_spec MAX_ED2K_PACKET_LEN n); [lia|].
  by destruct Hp as [->|[->|[->| ->]]].
Qed.

Lemma check_packet_no_error_inv h :
  check_packet h = no_error ->
  known_protocol (m_protocol h) /\ 1 <= h_size h <= MAX_ED2K_PACKET_LEN.
Proof.
  unfold check_packet, known_protocol. intros Hc.
  destruct (Z.eqb_spec (m_protocol h) OP_EDONKEYPROT), (Z.eqb_spec (m_protocol h) OP_EMULEPROT),
    (Z.eqb_spec (m_protocol h) OP_KADEMLIAHEADER), (Z.eqb_spec (m_protocol h) OP_PACKEDPROT);
    cbn [orb] in Hc;
    try (destruct (Z.ltb_spec (h_size h) 1); [done|];
         destruct (Z.ltb_spec MAX_ED2K_PACKET_LEN (h_size h)); [done|]; split; [tauto|lia]).
  by repeat case_match.
Qed.

Lemma packet_len_uint n : 0 <= n <= MAX_ED2K_PACKET_LEN -> is_uint 4 n.
Proof. unfold is_uint, MAX_ED2K_PACKET_LEN, BLOCK_SIZE. change (2 ^ (Z.of_nat 4 * 8)) with 4294967296. lia. Qed.

Section Messages.
Context {T : Type} `{Wire T, !PacketType T}.

(** A packet that fits into one message, without file data behind it. *)
Definition sendable (t : T) : Prop :=
  wf t /\ packet_extra t = 0 /\ known_protocol (packet_protocol T) /\ is_uint 1 (packet_value T) /\
  Z.of_nat (length (save t)) < MAX_ED2K_PACKET_LEN.

Lemma make_message_header t :
  sendable t ->
  let h := fst (make_message t) in
  header_wf h /\ check_packet h = no_error /\ body_size h = Z.of_nat (length (save t)) /\
  h = Header (packet_protocol T) (Z.of_nat (length (save t)) + 1) (packet_value T).
Proof.
  intros (_ & He & Hp & Hv & Hn). cbn. rewrite He, Z.add_0_r.
  rewrite (to_uint_small 4) by (apply packet_len_uint; lia).
  split_and!.
  - split_and!; cbn; [|apply packet_len_uint; lia|done].
    by destruct Hp as [->|[->|[->| ->]]].
  - apply check_packet_ok; [done|lia].
  - unfold body_size. cbn. rewrite Z.add_simpl_r. apply to_uint_small, packet_len_uint; lia.
  - done.
Qed.
End Messages.

(** C1: Sending and receiving agree.  The bytes of [make_message t], followed
    by anything, are split by [extract_message] into exactly this header and
    body, and loading the body into a fresh packet yields [t] as the wire
    format stores it, with nothing left over. *)
Theorem message_roundtrip {T} `{Wire T, !PacketType T} (t : T) (rest : bytes) :
  sendable t ->
  extract_message (message_bytes (make_message t) ++ rest) = Extracted (make_message t) no_error /\
  load fresh (IA (snd (make_message t)) 0) =
    Ok (stored t, IA (snd (make_message t)) (length (snd (make_message t)))).
Proof.
  intros Ht. destruct (make_message_header t Ht) as (Hw & Hc & Hb & _). split.
  - unfold message_bytes. rewrite <- app_assoc, extract_message_good, Hb by done.
    cbn [snd make_message]. rewrite length_app. bool_cases; try lia.
    by rewrite Nat2Z.id, take_app_length.
  - destruct Ht as (Hwf & _). destruct (load_save t Hwf) as [Hl _].
    specialize (Hl [] []). rewrite app_nil_r in Hl. exact Hl.
Qed.

Definition sample_sources : found_file_sources :=
  FoundFileSources (Hash (replicate 16 (z2b 7))) (holder_of [NetId 0x0100007F 4662; NetId 5 4661]).

Lemma message_roundtrip_witness :
  extract_message (message_bytes (make_message sample_sources) ++ [z2b 1; z2b 2]) =
    Extracted (make_message sample_sources) no_error /\
  load fresh (IA (snd (make_message sample_sources)) 0) =
    Ok (stored sample_sources,
        IA (snd (make_message sample_sources)) (length (snd (make_message sample_sources)))).
Proof.
  apply (message_roundtrip sample_sources).
  unfold sendable. split_and!; [|by vm_compute|by left|by vm_compute|by vm_compute].
  split; [by vm_compute|]. split_and!; [|by vm_compute|by vm_compute].
  cbn [ffs_sources sample_sources holder_of m_collection].
  repeat (apply Forall_cons_2; [by vm_compute|]). apply Forall_nil_2.
Defined.

(** A message cut short behind its header is not always refused.
    [extract_message] compares the body size with the length of the buffer
    including the header: when fewer than [sizeof(libed2k_header)] bytes are
    missing it copies memory behind the buffer; when more are missing it
    reports [invalid_packet_size]. *)
Theorem extract_message_truncated {T} `{Wire T, !PacketType T} (t : T) (k : nat) :
  sendable t -> (k < length (save t))%nat ->
  extract_message (take (sizeof_header + k) (message_bytes (make_message t))) =
    if (sizeof_header + k <? length (save t))%nat
    then Extracted (fst (make_message t), []) invalid_packet_size
    else ReadsPastEnd.
Proof.
  intros Ht Hk. destruct (make_message_header t Ht) as (Hw & Hc & Hb & _).
  unfold message_bytes. rewrite take_app_split by (rewrite length_header_bytes; lia).
  rewrite length_header_bytes, extract_message_good, Hb by done.
  cbn [snd make_message]. rewrite length_take. bool_cases; try lia; done.
Qed.

Lemma extract_message_truncated_witness :
  extract_message (take (sizeof_header + 27) (message_bytes (make_message sample_sources))) = ReadsPastEnd.
Proof.
  rewrite (extract_message_truncated sample_sources 27).
  - done.
  - unfold sendable. split_and!; [|by vm_compute|by left|by vm_compute|by vm_compute].
    split; [by vm_compute|]. split_and!; [|by vm_compute|by vm_compute].
    cbn [ffs_sources sample_sources holder_of m_collection].
    repeat (apply Forall_cons_2; [by vm_compute|]). apply Forall_nil_2.
  - vm_compute. lia.
Defined.

(** ** Properties of the structures *)

Lemma read_each_length {A} (ld : A -> reader A) l ar l' ar' :
  read_each ld l ar = Ok (l', ar') -> length l' = length l.
Proof.
  revert ar l' ar'. induction l as [|x l IH]; intros ar l' ar'; cbn; [by intros [= <- <-]|].
  unfold mbind, reader_bind, mret, reader_ret.
  destruct (ld x ar) as [[y ar1]|]; [|done].
  destruct (read_each ld l ar1) as [[ys ar2]|] eqn:E; [|done].
  intros [= <- <-]. cbn. f_equal. by eapply IH.
Qed.

(** Whatever the bytes, a container that has been loaded has as many
    elements as its size field says, at most [MAX_COLLECTION_SIZE]: a hostile
    size field cannot make the loader allocate more.  A size above the limit is
    the error [decode_packet_error]. *)
Theorem holder_load_bounded w T `{Wire T} (h : container_holder w T) (ar : ed2k_iarchive) :
  match load h ar with
  | Ok (h', _) => Z.of_nat (length (m_collection h')) = m_size h' /\ m_size h' <= MAX_COLLECTION_SIZE
  | Throw e =>
      match read_uint w ar with
      | Ok (n, _) => MAX_COLLECTION_SIZE < n -> e = decode_packet_error
      | Throw e' => e = e'
      end
  end.
Proof.
  cbn [load holder_serializable]. unfold mbind, reader_bind at 1.
  destruct (read_uint w ar) as [[n ar1]|e] eqn:En; [|done].
  assert (0 <= n) as Hn.
  { unfold read_uint, raw_read, mbind, reader_bind, mret, reader_ret in En.
    destruct (_ <=? _)%nat; [|done]. injection En as <- _.
    by apply (le_combine_bound (take w (drop (tellg ar) (m_container ar)))). }
  destruct (Z.ltb_spec MAX_COLLECTION_SIZE n); [done|].
  unfold reader_bind, mret, reader_ret.
  destruct (read_each _ _ ar1) as [[l ar2]|] eqn:El; [|lia].
  apply read_each_length in El. cbn [m_collection m_size]. rewrite El.
  unfold resize_collection. rewrite length_app, length_take, length_replicate. lia.
Qed.

(** [id_change] is as long as the server made it: the TCP flags and the
    auxiliary port are taken from packets of at least 8 and 12 bytes, and keep
    their old values in shorter ones; packets of the length the library itself
    saves carry only the id. *)
Theorem id_change_load_by_length (x y : id_change) :
  is_uint 4 (m_client_id x) -> is_uint 4 (m_tcp_flags x) -> is_uint 4 (m_aux_port x) ->
  let body := write_uint 4 (m_client_id x) ++ write_uint 4 (m_tcp_flags x) ++ write_uint 4 (m_aux_port x) in
  load y (IA body 0) = Ok (x, IA body 12) /\
  load y (IA (take 8 body) 0) =
    Ok (IdChange (m_client_id x) (m_tcp_flags x) (m_aux_port y), IA (take 8 body) 8) /\
  take 4 body = save x /\
  load y (IA (save x) 0) =
    Ok (IdChange (m_client_id x) (m_tcp_flags y) (m_aux_port y), IA (save x) 4).
Proof.
  intros Hc Ht Ha body.
  destruct (reads_uint 4 _ Hc) as [Rc _], (reads_uint 4 _ Ht) as [Rt _], (reads_uint 4 _ Ha) as [Ra _].
  assert (forall v, length (write_uint 4 v) = 4%nat) as L by (intros; apply length_le_split).
  assert (take 8 body = write_uint 4 (m_client_id x) ++ write_uint 4 (m_tcp_flags x)) as ->.
  { unfold body. rewrite app_assoc. rewrite take_app_length' by (by rewrite length_app, !L). done. }
  subst body.
  specialize (Rc []) as Rc1. cbn [app length Nat.add] in Rc1. rewrite L in Rc1.
  pose proof (Rt (write_uint 4 (m_client_id x))) as Rt1. rewrite !L in Rt1.
  pose proof (Ra (write_uint 4 (m_client_id x) ++ write_uint 4 (m_tcp_flags x)) []) as Ra1.
  rewrite <- !app_assoc, length_app, !L, app_nil_r in Ra1.
  pose proof (Rc1 []) as Rc0. pose proof (Rt1 []) as Rt0. rewrite app_nil_r in Rc0, Rt0.
  cbn [load save id_change_serializable]. unfold mbind, reader_bind, bytes_left, mret, reader_ret.
  split_and!.
  - rewrite Rc1. cbn [m_container tellg]. rewrite !length_app, !L, (proj2 (Z.leb_le _ _)) by lia.
    rewrite Rt1. cbn [m_container tellg]. rewrite !length_app, !L, (proj2 (Z.leb_le _ _)) by lia.
    rewrite Ra1. by destruct x.
  - rewrite Rc1. cbn [m_container tellg]. rewrite !length_app, !L, (proj2 (Z.leb_le _ _)) by lia.
    rewrite Rt0. cbn [m_container tellg]. rewrite !length_app, !L. done.
  - rewrite take_app_length' by (by rewrite L). done.
  - rewrite Rc0. cbn [m_container tellg]. rewrite L. done.
Qed.

Lemma id_change_load_by_length_witness :
  let x := IdChange 0x01020304 0x38 4662 in
  let body := write_uint 4 (m_client_id x) ++ write_uint 4 (m_tcp_flags x) ++ write_uint 4 (m_aux_port x) in
  load fresh (IA body 0) = Ok (x, IA body 12).
Proof.
  refine (proj1 (id_change_load_by_length (IdChange 0x01020304 0x38 4662) fresh _ _ _)); by vm_compute.
Defined.

(** A reader that needs exactly [n] bytes, whatever they are. *)
Definition consumes {A} (r : reader A) (n : nat) : Prop :=
  forall c p, (p <= length c)%nat ->
    match r (IA c p) with
    | Ok (_, ar') => (p + n <= length c)%nat /\ ar' = IA c (p + n)
    | Throw _ => (length c < p + n)%nat
    end.

Lemma consumes_ret {A} (a : A) : consumes (mret a) 0.
Proof. intros c p Hp. cbn. by rewrite Nat.add_0_r. Qed.

Lemma consumes_bind {A B} (m : reader A) (f : A -> reader B) n1 n2 :
  consumes m n1 -> (forall a, consumes (f a) n2) -> consumes (m ≫= f) (n1 + n2).
Proof.
  intros Hm Hf c p Hp. unfold mbind, reader_bind. specialize (Hm c p Hp).
  destruct (m (IA c p)) as [[a ar1]|]; [|lia]. destruct Hm as [H1 ->].
  specialize (Hf a c (p + n1)%nat H1).
  destruct (f a _) as [[b ar2]|]; [|lia]. by rewrite Nat.add_assoc.
Qed.

Lemma consumes_uint w : consumes (read_uint w) w.
Proof.
  unfold read_uint. rewrite <- (Nat.add_0_r w) at 2.
  apply consumes_bind; [|intros; apply consumes_ret].
  intros c p Hp. unfold raw_read. cbn [tellg m_container].
  destruct (Nat.leb_spec (p + w) (length c)); [done|lia].
Qed.

Lemma consumes_decrement_read nCounter ws :
  Forall (fun w => Z.of_nat w <= nCounter) ws -> consumes (decrement_read nCounter ws) (sum_list ws).
Proof.
  induction 1 as [|w ws Hw _ IH]; [apply consumes_ret|]. cbn.
  rewrite (proj2 (Z.leb_le _ _)) by done. apply consumes_bind; [apply consumes_uint|intros v].
  rewrite <- (Nat.add_0_r (sum_list ws)). apply consumes_bind; [done|intros; apply consumes_ret].
Qed.

(** [global_server_state_res] does not stop at the end of a short packet.
    The counter of remaining bytes starts four too high instead of twelve lower
    and is never decremented, so whatever size the packet was announced with,
    all eleven fields are read: 40 bytes, and an exception when there are
    fewer. *)
Theorem global_state_reads_all (x : global_server_state_res) :
  0 <= gs_nMaxSize x < 2 ^ 64 - 4 -> consumes (gs_load x) 40.
Proof.
  intros Hx. unfold gs_load.
  assert (to_uint 8 (gs_nMaxSize x - (4 - 4 - 4)) = gs_nMaxSize x + 4) as ->.
  { unfold to_uint. change (2 ^ (Z.of_nat 8 * 8)) with (2 ^ 64). rewrite Z.mod_small; lia. }
  do 3 (apply (consumes_bind _ _ 4); [apply consumes_uint|intros]).
  change 28%nat with (28 + 0)%nat. apply consumes_bind; [|intros; apply consumes_ret].
  change 28%nat with (sum_list [4; 4; 4; 4; 4; 2; 2; 4]%nat).
  apply consumes_decrement_read. repeat apply Forall_cons_2; try lia. apply Forall_nil_2.
Qed.

Lemma global_state_reads_all_witness : consumes (gs_load (gs_new 12)) 40.
Proof. apply (global_state_reads_all (gs_new 12)). cbn. lia. Defined.

(** A search condition on a number whose tag is given by name is sent
    without that name: the constructor stores it where the string value goes,
    and for numbers only the meta tag is written.  Two such conditions on
    different tags are the same bytes. *)
Theorem sre_int_name_lost (n1 n2 : bytes) (op v : Z) :
  sre_save (sre_int_name n1 op v) = sre_save (sre_int_name n2 op v) /\
  sre_save (sre_int_name n1 op v) =
    write_uint 1 (sre_int_type v) ++
    write_uint (if v <=? 0xFFFFFFFF then 4 else 8) v ++ write_uint 1 op.
Proof.
  unfold sre_save, sre_int_name, sre_int_type. cbn [sre_type sre_nValue sre_operator].
  split; bool_cases; try lia; cbn -[write_uint]; by rewrite ?app_nil_r.
Qed.

(** ** Properties of the option words *)

Definition misc_options_wf (o : misc_options) : Prop :=
  0 <= m_nAICHVersion o < 2 ^ 3 /\ 0 <= m_nUnicodeSupport o < 2 ^ 1 /\ 0 <= m_nUDPVer o < 2 ^ 4 /\
  0 <= m_nDataCompVer o < 2 ^ 4 /\ 0 <= m_nSupportSecIdent o < 2 ^ 4 /\
  0 <= m_nSourceExchange1Ver o < 2 ^ 4 /\ 0 <= m_nExtendedRequestsVer o < 2 ^ 4 /\
  0 <= m_nAcceptCommentVer o < 2 ^ 4 /\ 0 <= m_nNoViewSharedFiles o < 2 ^ 1 /\
  0 <= m_nMultiPacket o < 2 ^ 1 /\ 0 <= m_nSupportsPreview o < 2 ^ 1.

(** The word as a sum: the fields do not overlap. *)
Lemma misc_options_generate_sum o :
  misc_options_wf o ->
  misc_options_generate o =
    m_nAICHVersion o * 2 ^ 29 + (m_nUnicodeSupport o * 2 ^ 28 + (m_nUDPVer o * 2 ^ 24 +
    (m_nDataCompVer o * 2 ^ 20 + (m_nSupportSecIdent o * 2 ^ 16 + (m_nSourceExchange1Ver o * 2 ^ 12 +
    (m_nExtendedRequestsVer o * 2 ^ 8 + (m_nAcceptCommentVer o * 2 ^ 4 + (m_nNoViewSharedFiles o * 2 ^ 2 +
    (m_nMultiPacket o * 2 ^ 1 + m_nSupportsPreview o))))))))).
Proof.
  intros Ho. unfold misc_options_wf in Ho. destruct_and!.
  assert (forall v n k, 0 <= v < 2 ^ n -> 0 <= n -> 0 <= k -> n + k <= 32 ->
    to_uint 4 (Z.shiftl v k) = Z.shiftl v k) as Hsh.
  { intros v n k Hv Hn Hk Hnk. apply to_uint_small. unfold is_uint. rewrite Z.shiftl_mul_pow2 by done.
    change (2 ^ (Z.of_nat 4 * 8)) with (2 ^ 32).
    assert (2 ^ (n + k) <= 2 ^ 32) as Hp by (apply Z.pow_le_mono_r; lia).
    rewrite Z.pow_add_r in Hp by done. pose proof (Z.pow_pos_nonneg 2 k). nia. }
  unfold misc_options_generate. cbv beta zeta. cbn [Z.mul Pos.mul Z.add Pos.add Pos.succ].
  rewrite (Hsh _ 3), (Hsh (m_nUnicodeSupport o) 1), (Hsh (m_nUDPVer o) 4), (Hsh (m_nDataCompVer o) 4),
    (Hsh (m_nSupportSecIdent o) 4), (Hsh (m_nSourceExchange1Ver o) 4), (Hsh (m_nExtendedRequestsVer o) 4),
    (Hsh (m_nAcceptCommentVer o) 4), (Hsh (m_nNoViewSharedFiles o) 1), (Hsh (m_nMultiPacket o) 1),
    (Hsh (m_nSupportsPreview o) 1) by (done || lia).
  rewrite (Z.shiftl_0_r (m_nSupportsPreview o)).
  rewrite (Z_lor_shiftl_add (m_nMultiPacket o)) by lia.
  rewrite (Z_lor_shiftl_add (m_nNoViewSharedFiles o)) by lia.
  rewrite (Z_lor_shiftl_add (m_nAcceptCommentVer o)) by lia.
  rewrite (Z_lor_shiftl_add (m_nExtendedRequestsVer o)) by lia.
  rewrite (Z_lor_shiftl_add (m_nSourceExchange1Ver o)) by lia.
  rewrite (Z_lor_shiftl_add (m_nSupportSecIdent o)) by lia.
  rewrite (Z_lor_shiftl_add (m_nDataCompVer o)) by lia.
  rewrite (Z_lor_shiftl_add (m_nUDPVer o)) by lia.
  rewrite (Z_lor_shiftl_add (m_nUnicodeSupport o)) by lia.
  by rewrite (Z_lor_shiftl_add (m_nAICHVersion o)) by lia.
Qed.

(** A bit field: [n] bits from position [k]. *)
Lemma land_shiftr_field x k n : 0 <= k -> 0 <= n -> Z.land (Z.shiftr x k) (Z.ones n) = x / 2 ^ k mod 2 ^ n.
Proof. intros. by rewrite Z.land_ones, Z.shiftr_div_pow2 by done. Qed.

Lemma field_of_sum hi v lo k n x :
  0 <= v < 2 ^ n -> 0 <= lo < 2 ^ k -> x = (hi * 2 ^ n + v) * 2 ^ k + lo -> x / 2 ^ k mod 2 ^ n = v.
Proof.
  intros Hv Hlo ->. rewrite Z.div_add_l, (Z.div_small lo), Z.add_0_r by lia.
  by rewrite Z.add_comm, Z.mod_add, Z.mod_small by lia.
Qed.

Lemma misc_options_load_fields x :
  misc_options_load x =
    Misc (x / 2 ^ 29 mod 2 ^ 3) (x / 2 ^ 28 mod 2 ^ 1) (x / 2 ^ 24 mod 2 ^ 4) (x / 2 ^ 20 mod 2 ^ 4)
      (x / 2 ^ 16 mod 2 ^ 4) (x / 2 ^ 12 mod 2 ^ 4) (x / 2 ^ 8 mod 2 ^ 4) (x / 2 ^ 4 mod 2 ^ 4)
      (x / 2 ^ 2 mod 2 ^ 1) (x / 2 ^ 1 mod 2 ^ 1) (x / 2 ^ 0 mod 2 ^ 1).
Proof.
  unfold misc_options_load. change 0x07 with (Z.ones 3). change 0x01 with (Z.ones 1). change 0x0f with (Z.ones 4).
  by rewrite !land_shiftr_field.
Qed.

(** The next digit of a number, above position [k]. *)
Lemma next_field x k n k' :
  k' = k + n -> 0 <= k -> 0 <= n -> x / 2 ^ k = x / 2 ^ k' * 2 ^ n + x / 2 ^ k mod 2 ^ n.
Proof.
  intros -> ? ?. rewrite Z.pow_add_r, <- Z.div_div by lia.
  rewrite Z.mul_comm. apply Z.div_mod. lia.
Qed.

Lemma clearbit_sub x k : 0 <= k -> Z.clearbit x k = x - x / 2 ^ k mod 2 ^ 1 * 2 ^ k.
Proof.
  intros Hk. rewrite Z.clearbit_spec', <- Z.shiftr_div_pow2, <- Z.land_ones by lia.
  rewrite <- Z.shiftl_mul_pow2 by done.
  assert (Z.shiftl (Z.land (Z.shiftr x k) (Z.ones 1)) k = Z.land x (2 ^ k)) as ->.
  { apply Z.bits_inj'. intros i Hi.
    rewrite Z.land_spec, Z.pow2_bits_eqb, Z.shiftl_spec, Z.land_spec by lia.
    destruct (Z.eqb_spec k i) as [->|]; [by rewrite Z.sub_diag, Z.shiftr_spec|].
    rewrite andb_false_r. destruct (Z.lt_ge_cases i k); [by rewrite Z.testbit_neg_r by lia|].
    by rewrite Z.ones_spec_high, andb_false_r by lia. }
  rewrite Z.sub_nocarry_ldiff.
  - apply Z.bits_inj'. intros i Hi. rewrite !Z.ldiff_spec, Z.land_spec by done.
    by destruct (Z.testbit x i), (Z.testbit (2 ^ k) i).
  - apply Z.bits_inj'. intros i Hi. rewrite !Z.ldiff_spec, Z.land_spec, Z.bits_0 by done.
    by destruct (Z.testbit x i), (Z.testbit (2 ^ k) i).
Qed.

Lemma misc_options_load_wf opts : misc_options_wf (misc_options_load opts).
Proof. rewrite misc_options_load_fields. split_and!; by apply Z.mod_pos_bound. Qed.

Lemma misc_options_load_generate o : misc_options_wf o -> misc_options_load (misc_options_generate o) = o.
Proof.
  intros Ho. rewrite misc_options_generate_sum, misc_options_load_fields by done.
  unfold misc_options_wf in Ho. destruct o as [a b c d e f g h i j k]; cbn [m_nAICHVersion m_nUnicodeSupport
      m_nUDPVer m_nDataCompVer m_nSupportSecIdent m_nSourceExchange1Ver m_nExtendedRequestsVer
      m_nAcceptCommentVer m_nNoViewSharedFiles m_nMultiPacket m_nSupportsPreview] in *.
  destruct_and!.
  pose (s0 := k). pose (s1 := j * 2 ^ 1 + s0). pose (s2 := i * 2 ^ 2 + s1). pose (s3 := h * 2 ^ 4 + s2).
  pose (s4 := g * 2 ^ 8 + s3). pose (s5 := f * 2 ^ 12 + s4). pose (s6 := e * 2 ^ 16 + s5).
  pose (s7 := d * 2 ^ 20 + s6). pose (s8 := c * 2 ^ 24 + s7). pose (s9 := b * 2 ^ 28 + s8).
  pose (h9 := a). pose (h8 := h9 * 2 + b). pose (h7 := h8 * 2 ^ 4 + c). pose (h6 := h7 * 2 ^ 4 + d).
  pose (h5 := h6 * 2 ^ 4 + e). pose (h4 := h5 * 2 ^ 4 + f). pose (h3 := h4 * 2 ^ 4 + g).
  pose (h2 := (h3 * 2 ^ 4 + h) * 2). pose (h1 := h2 * 2 + i). pose (h0 := h1 * 2 + j).
  f_equal; [apply (field_of_sum 0 _ s9)|apply (field_of_sum h9 _ s8)|apply (field_of_sum h8 _ s7)
    |apply (field_of_sum h7 _ s6)|apply (field_of_sum h6 _ s5)|apply (field_of_sum h5 _ s4)
    |apply (field_of_sum h4 _ s3)|apply (field_of_sum h3 _ s2)|apply (field_of_sum h2 _ s1)
    |apply (field_of_sum h1 _ s0)|apply (field_of_sum h0 _ 0)]; lia.
Qed.

Lemma misc_options_generate_load opts :
  is_uint 4 opts -> misc_options_generate (misc_options_load opts) = Z.clearbit opts 3.
Proof.
  intros Hopts. rewrite misc_options_generate_sum by apply misc_options_load_wf.
  rewrite misc_options_load_fields, clearbit_sub by lia.
  cbn [m_nAICHVersion m_nUnicodeSupport m_nUDPVer m_nDataCompVer m_nSupportSecIdent m_nSourceExchange1Ver
    m_nExtendedRequestsVer m_nAcceptCommentVer m_nNoViewSharedFiles m_nMultiPacket m_nSupportsPreview].
  assert (opts / 2 ^ 32 = 0) as H32 by (by apply Z.div_small).
  assert (H0 := next_field opts 0 1 1 eq_refl ltac:(lia) ltac:(lia)). assert (H1 := next_field opts 1 1 2 eq_refl ltac:(lia) ltac:(lia)). assert (H2 := next_field opts 2 1 3 eq_refl ltac:(lia) ltac:(lia)).
  assert (H3 := next_field opts 3 1 4 eq_refl ltac:(lia) ltac:(lia)). assert (H4 := next_field opts 4 4 8 eq_refl ltac:(lia) ltac:(lia)). assert (H8 := next_field opts 8 4 12 eq_refl ltac:(lia) ltac:(lia)).
  assert (H12 := next_field opts 12 4 16 eq_refl ltac:(lia) ltac:(lia)). assert (H16 := next_field opts 16 4 20 eq_refl ltac:(lia) ltac:(lia)). assert (H20 := next_field opts 20 4 24 eq_refl ltac:(lia) ltac:(lia)).
  assert (H24 := next_field opts 24 4 28 eq_refl ltac:(lia) ltac:(lia)). assert (H28 := next_field opts 28 1 29 eq_refl ltac:(lia) ltac:(lia)). assert (H29 := next_field opts 29 3 32 eq_refl ltac:(lia) ltac:(lia)).
  change (2 ^ 0) with 1 in *. rewrite Z.div_1_r in *. lia.
Qed.

(** The first option word of a hello packet: every set of options in
    range is recovered from the word it is packed into, and every word is
    recovered from its options, up to bit 3 which no option uses. *)
Theorem misc_options_roundtrip (o : misc_options) (opts : Z) :
  misc_options_wf o -> is_uint 4 opts ->
  misc_options_load (misc_options_generate o) = o /\
  misc_options_wf (misc_options_load opts) /\
  misc_options_generate (misc_options_load opts) = Z.clearbit opts 3.
Proof.
  auto using misc_options_load_generate, misc_options_load_wf, misc_options_generate_load.
Qed.

Lemma misc_options_roundtrip_witness :
  let o := Misc 1 1 4 1 3 3 2 1 0 1 1 in
  misc_options_load (misc_options_generate o) = o /\
  misc_options_wf (misc_options_load 0xFFFFFFFF) /\
  misc_options_generate (misc_options_load 0xFFFFFFFF) = Z.clearbit 0xFFFFFFFF 3.
Proof.
  refine (misc_options_roundtrip (Misc 1 1 4 1 3 3 2 1 0 1 1) 0xFFFFFFFF _ _); by vm_compute.
Defined.
