(* ===== verification/ClientPackets.v ===== *)
(** * Client to client packets: include/libed2k/packet_struct.hpp

    The structures two clients exchange: hello, shared file lists, hash sets,
    part requests and parts, messages and source exchange. *)

From S2P Require Import Prelude Archive Md4Hash CTag Bitfield Packets.
Open Scope Z_scope.

(** [client_hello_answer]. *)
Record client_hello_answer := ClientHelloAnswer { ha_hClient : md4_hash; ha_network_point : net_identifier; ha_list : tag_list; ha_server_network_point : net_identifier }.
#[global] Instance client_hello_answer_serializable : Serializable client_hello_answer := {
  fresh := ClientHelloAnswer fresh fresh [] fresh;
  save x := save (ha_hClient x) ++ save (ha_network_point x) ++ tag_list_save 4 (ha_list x) ++ save (ha_server_network_point x);
  load x := v0 ← load (ha_hClient x); v1 ← load (ha_network_point x); v2 ← tag_list_load 4 (ha_list x); v3 ← load (ha_server_network_point x); mret (ClientHelloAnswer v0 v1 v2 v3)
}.
#[global] Program Instance client_hello_answer_wire : Wire client_hello_answer := {
  wf x := wf (ha_hClient x) /\ wf (ha_network_point x) /\ tag_list_wf 4 (ha_list x) /\ wf (ha_server_network_point x);
  stored x := ClientHelloAnswer (stored (ha_hClient x)) (stored (ha_network_point x)) (tags_stored (ha_list x)) (stored (ha_server_network_point x))
}.
Next Obligation. wire_record client_hello_answer_serializable. Qed.

(** [client_hello]: the hash length, then the base class. *)
Record client_hello := ClientHello { hello_nHashLength : Z; hello_answer : client_hello_answer }.
#[global] Instance client_hello_serializable : Serializable client_hello := {
  fresh := ClientHello 16 fresh;
  save x := write_uint 1 (hello_nHashLength x) ++ save (hello_answer x);
  load x := v0 ← read_uint 1; v1 ← load (hello_answer x); mret (ClientHello v0 v1)
}.
#[global] Program Instance client_hello_wire : Wire client_hello := {
  wf x := is_uint 1 (hello_nHashLength x) /\ wf (hello_answer x);
  stored x := ClientHello (hello_nHashLength x) (stored (hello_answer x))
}.
Next Obligation. wire_record client_hello_serializable. Qed.

(** [client_ext_hello]; [client_ext_hello_answer] has the same fields. *)
Record client_ext_hello := ClientExtHello { eh_nVersion : Z; eh_list : tag_list }.
#[global] Instance client_ext_hello_serializable : Serializable client_ext_hello := {
  fresh := ClientExtHello 0 [];
  save x := write_uint 2 (eh_nVersion x) ++ tag_list_save 4 (eh_list x);
  load x := v0 ← read_uint 2; v1 ← tag_list_load 4 (eh_list x); mret (ClientExtHello v0 v1)
}.
#[global] Program Instance client_ext_hello_wire : Wire client_ext_hello := {
  wf x := is_uint 2 (eh_nVersion x) /\ tag_list_wf 4 (eh_list x);
  stored x := ClientExtHello (eh_nVersion x) (tags_stored (eh_list x))
}.
Next Obligation. wire_record client_ext_hello_serializable. Qed.

Record client_ext_hello_answer := ClientExtHelloAnswer { eha_nVersion : Z; eha_list : tag_list }.
#[global] Instance client_ext_hello_answer_serializable : Serializable client_ext_hello_answer := {
  fresh := ClientExtHelloAnswer 0 [];
  save x := write_uint 2 (eha_nVersion x) ++ tag_list_save 4 (eha_list x);
  load x := v0 ← read_uint 2; v1 ← tag_list_load 4 (eha_list x); mret (ClientExtHelloAnswer v0 v1)
}.
#[global] Program Instance client_ext_hello_answer_wire : Wire client_ext_hello_answer := {
  wf x := is_uint 2 (eha_nVersion x) /\ tag_list_wf 4 (eha_list x);
  stored x := ClientExtHelloAnswer (eha_nVersion x) (tags_stored (eha_list x))
}.
Next Obligation. wire_record client_ext_hello_answer_serializable. Qed.

(** Shared files and directories. *)
Record client_shared_files_answer := ClientSharedFilesAnswer { sfa_files : shared_files_list }.
#[global] Instance client_shared_files_answer_serializable : Serializable client_shared_files_answer := {
  fresh := ClientSharedFilesAnswer fresh;
  save x := save (sfa_files x);
  load x := v0 ← load (sfa_files x); mret (ClientSharedFilesAnswer v0)
}.
#[global] Program Instance client_shared_files_answer_wire : Wire client_shared_files_answer := {
  wf x := wf (sfa_files x);
  stored x := ClientSharedFilesAnswer (stored (sfa_files x))
}.
Next Obligation. wire_record client_shared_files_answer_serializable. Qed.

Record client_shared_directory_files_request := ClientSharedDirectoryFilesRequest { sdfr_directory : (string_holder 2) }.
#[global] Instance client_shared_directory_files_request_serializable : Serializable client_shared_directory_files_request := {
  fresh := ClientSharedDirectoryFilesRequest fresh;
  save x := save (sdfr_directory x);
  load x := v0 ← load (sdfr_directory x); mret (ClientSharedDirectoryFilesRequest v0)
}.
#[global] Program Instance client_shared_directory_files_request_wire : Wire client_shared_directory_files_request := {
  wf x := wf (sdfr_directory x);
  stored x := ClientSharedDirectoryFilesRequest (stored (sdfr_directory x))
}.
Next Obligation. wire_record client_shared_directory_files_request_serializable. Qed.

Record client_shared_directories_answer := ClientSharedDirectoriesAnswer { sda_dirs : (container_holder 4 (string_holder 2)) }.
#[global] Instance client_shared_directories_answer_serializable : Serializable client_shared_directories_answer := {
  fresh := ClientSharedDirectoriesAnswer fresh;
  save x := save (sda_dirs x);
  load x := v0 ← load (sda_dirs x); mret (ClientSharedDirectoriesAnswer v0)
}.
#[global] Program Instance client_shared_directories_answer_wire : Wire client_shared_directories_answer := {
  wf x := wf (sda_dirs x);
  stored x := ClientSharedDirectoriesAnswer (stored (sda_dirs x))
}.
Next Obligation. wire_record client_shared_directories_answer_serializable. Qed.

Record client_shared_directory_files_answer := ClientSharedDirectoryFilesAnswer { sdfa_directory : (string_holder 2); sdfa_list : shared_files_list }.
#[global] Instance client_shared_directory_files_answer_serializable : Serializable client_shared_directory_files_answer := {
  fresh := ClientSharedDirectoryFilesAnswer fresh fresh;
  save x := save (sdfa_directory x) ++ save (sdfa_list x);
  load x := v0 ← load (sdfa_directory x); v1 ← load (sdfa_list x); mret (ClientSharedDirectoryFilesAnswer v0 v1)
}.
#[global] Program Instance client_shared_directory_files_answer_wire : Wire client_shared_directory_files_answer := {
  wf x := wf (sdfa_directory x) /\ wf (sdfa_list x);
  stored x := ClientSharedDirectoryFilesAnswer (stored (sdfa_directory x)) (stored (sdfa_list x))
}.
Next Obligation. wire_record client_shared_directory_files_answer_serializable. Qed.

(** Requests that name a file. *)
Record client_file_request := ClientFileRequest { fr_hFile : md4_hash }.
#[global] Instance client_file_request_serializable : Serializable client_file_request := {
  fresh := ClientFileRequest fresh;
  save x := save (fr_hFile x);
  load x := v0 ← load (fr_hFile x); mret (ClientFileRequest v0)
}.
#[global] Program Instance client_file_request_wire : Wire client_file_request := {
  wf x := wf (fr_hFile x);
  stored x := ClientFileRequest (stored (fr_hFile x))
}.
Next Obligation. wire_record client_file_request_serializable. Qed.

Record client_file_answer := ClientFileAnswer { fa_hFile : md4_hash; fa_filename : (string_holder 2) }.
#[global] Instance client_file_answer_serializable : Serializable client_file_answer := {
  fresh := ClientFileAnswer fresh fresh;
  save x := save (fa_hFile x) ++ save (fa_filename x);
  load x := v0 ← load (fa_hFile x); v1 ← load (fa_filename x); mret (ClientFileAnswer v0 v1)
}.
#[global] Program Instance client_file_answer_wire : Wire client_file_answer := {
  wf x := wf (fa_hFile x) /\ wf (fa_filename x);
  stored x := ClientFileAnswer (stored (fa_hFile x)) (stored (fa_filename x))
}.
Next Obligation. wire_record client_file_answer_serializable. Qed.

Record client_file_description := ClientFileDescription { fd_nRating : Z; fd_sComment : (string_holder 4) }.
#[global] Instance client_file_description_serializable : Serializable client_file_description := {
  fresh := ClientFileDescription 0 fresh;
  save x := write_uint 1 (fd_nRating x) ++ save (fd_sComment x);
  load x := v0 ← read_uint 1; v1 ← load (fd_sComment x); mret (ClientFileDescription v0 v1)
}.
#[global] Program Instance client_file_description_wire : Wire client_file_description := {
  wf x := is_uint 1 (fd_nRating x) /\ wf (fd_sComment x);
  stored x := ClientFileDescription (fd_nRating x) (stored (fd_sComment x))
}.
Next Obligation. wire_record client_file_description_serializable. Qed.

Record client_filestatus_request := ClientFilestatusRequest { fsr_hFile : md4_hash }.
#[global] Instance client_filestatus_request_serializable : Serializable client_filestatus_request := {
  fresh := ClientFilestatusRequest fresh;
  save x := save (fsr_hFile x);
  load x := v0 ← load (fsr_hFile x); mret (ClientFilestatusRequest v0)
}.
#[global] Program Instance client_filestatus_request_wire : Wire client_filestatus_request := {
  wf x := wf (fsr_hFile x);
  stored x := ClientFilestatusRequest (stored (fsr_hFile x))
}.
Next Obligation. wire_record client_filestatus_request_serializable. Qed.

Record client_no_file := ClientNoFile { nf_hFile : md4_hash }.
#[global] Instance client_no_file_serializable : Serializable client_no_file := {
  fresh := ClientNoFile fresh;
  save x := save (nf_hFile x);
  load x := v0 ← load (nf_hFile x); mret (ClientNoFile v0)
}.
#[global] Program Instance client_no_file_wire : Wire client_no_file := {
  wf x := wf (nf_hFile x);
  stored x := ClientNoFile (stored (nf_hFile x))
}.
Next Obligation. wire_record client_no_file_serializable. Qed.

Record client_hashset_request := ClientHashsetRequest { hsr_hFile : md4_hash }.
#[global] Instance client_hashset_request_serializable : Serializable client_hashset_request := {
  fresh := ClientHashsetRequest fresh;
  save x := save (hsr_hFile x);
  load x := v0 ← load (hsr_hFile x); mret (ClientHashsetRequest v0)
}.
#[global] Program Instance client_hashset_request_wire : Wire client_hashset_request := {
  wf x := wf (hsr_hFile x);
  stored x := ClientHashsetRequest (stored (hsr_hFile x))
}.
Next Obligation. wire_record client_hashset_request_serializable. Qed.

Record client_hashset_answer := ClientHashsetAnswer { hsa_hFile : md4_hash; hsa_vhParts : (container_holder 2 md4_hash) }.
#[global] Instance client_hashset_answer_serializable : Serializable client_hashset_answer := {
  fresh := ClientHashsetAnswer fresh fresh;
  save x := save (hsa_hFile x) ++ save (hsa_vhParts x);
  load x := v0 ← load (hsa_hFile x); v1 ← load (hsa_vhParts x); mret (ClientHashsetAnswer v0 v1)
}.
#[global] Program Instance client_hashset_answer_wire : Wire client_hashset_answer := {
  wf x := wf (hsa_hFile x) /\ wf (hsa_vhParts x);
  stored x := ClientHashsetAnswer (stored (hsa_hFile x)) (stored (hsa_vhParts x))
}.
Next Obligation. wire_record client_hashset_answer_serializable. Qed.

Record client_start_upload := ClientStartUpload { su_hFile : md4_hash }.
#[global] Instance client_start_upload_serializable : Serializable client_start_upload := {
  fresh := ClientStartUpload fresh;
  save x := save (su_hFile x);
  load x := v0 ← load (su_hFile x); mret (ClientStartUpload v0)
}.
#[global] Program Instance client_start_upload_wire : Wire client_start_upload := {
  wf x := wf (su_hFile x);
  stored x := ClientStartUpload (stored (su_hFile x))
}.
Next Obligation. wire_record client_start_upload_serializable. Qed.

Record client_queue_ranking := ClientQueueRanking { qr_nRank : Z }.
#[global] Instance client_queue_ranking_serializable : Serializable client_queue_ranking := {
  fresh := ClientQueueRanking 0;
  save x := write_uint 2 (qr_nRank x);
  load x := v0 ← read_uint 2; mret (ClientQueueRanking v0)
}.
#[global] Program Instance client_queue_ranking_wire : Wire client_queue_ranking := {
  wf x := is_uint 2 (qr_nRank x);
  stored x := ClientQueueRanking (qr_nRank x)
}.
Next Obligation. wire_record client_queue_ranking_serializable. Qed.

(** [client_sending_part<size_type>], [w] bytes per offset. *)
Record client_sending_part (w : nat) := ClientSendingPart { sp_hFile : md4_hash; sp_begin_offset : Z; sp_end_offset : Z }.
Arguments ClientSendingPart {w} _ _ _.
Arguments sp_hFile {w} _.
Arguments sp_begin_offset {w} _.
Arguments sp_end_offset {w} _.
#[global] Instance client_sending_part_serializable (w : nat) : Serializable (client_sending_part w) := {
  fresh := ClientSendingPart fresh 0 0;
  save x := save (sp_hFile x) ++ write_uint w (sp_begin_offset x) ++ write_uint w (sp_end_offset x);
  load x := v0 ← load (sp_hFile x); v1 ← read_uint w; v2 ← read_uint w; mret (ClientSendingPart v0 v1 v2)
}.
#[global] Program Instance client_sending_part_wire (w : nat) : Wire (client_sending_part w) := {
  wf x := wf (sp_hFile x) /\ is_uint w (sp_begin_offset x) /\ is_uint w (sp_end_offset x);
  stored x := ClientSendingPart (stored (sp_hFile x)) (sp_begin_offset x) (sp_end_offset x)
}.
Next Obligation. wire_record client_sending_part_serializable. Qed.

(** [client_compressed_part<size_type>]. *)
Record client_compressed_part (w : nat) := ClientCompressedPart { cp_hFile : md4_hash; cp_begin_offset : Z; cp_compressed_size : Z }.
Arguments ClientCompressedPart {w} _ _ _.
Arguments cp_hFile {w} _.
Arguments cp_begin_offset {w} _.
Arguments cp_compressed_size {w} _.
#[global] Instance client_compressed_part_serializable (w : nat) : Serializable (client_compressed_part w) := {
  fresh := ClientCompressedPart fresh 0 0;
  save x := save (cp_hFile x) ++ write_uint w (cp_begin_offset x) ++ write_uint 4 (cp_compressed_size x);
  load x := v0 ← load (cp_hFile x); v1 ← read_uint w; v2 ← read_uint 4; mret (ClientCompressedPart v0 v1 v2)
}.
#[global] Program Instance client_compressed_part_wire (w : nat) : Wire (client_compressed_part w) := {
  wf x := wf (cp_hFile x) /\ is_uint w (cp_begin_offset x) /\ is_uint 4 (cp_compressed_size x);
  stored x := ClientCompressedPart (stored (cp_hFile x)) (cp_begin_offset x) (cp_compressed_size x)
}.
Next Obligation. wire_record client_compressed_part_serializable. Qed.

Record client_end_download := ClientEndDownload { ed_hFile : md4_hash }.
#[global] Instance client_end_download_serializable : Serializable client_end_download := {
  fresh := ClientEndDownload fresh;
  save x := save (ed_hFile x);
  load x := v0 ← load (ed_hFile x); mret (ClientEndDownload v0)
}.
#[global] Program Instance client_end_download_wire : Wire client_end_download := {
  wf x := wf (ed_hFile x);
  stored x := ClientEndDownload (stored (ed_hFile x))
}.
Next Obligation. wire_record client_end_download_serializable. Qed.

Record client_captcha_result := ClientCaptchaResult { cr_captcha_result : Z }.
#[global] Instance client_captcha_result_serializable : Serializable client_captcha_result := {
  fresh := ClientCaptchaResult 0;
  save x := write_uint 1 (cr_captcha_result x);
  load x := v0 ← read_uint 1; mret (ClientCaptchaResult v0)
}.
#[global] Program Instance client_captcha_result_wire : Wire client_captcha_result := {
  wf x := is_uint 1 (cr_captcha_result x);
  stored x := ClientCaptchaResult (cr_captcha_result x)
}.
Next Obligation. wire_record client_captcha_result_serializable. Qed.

Record client_directory_request := ClientDirectoryRequest { dr_hash : md4_hash }.
#[global] Instance client_directory_request_serializable : Serializable client_directory_request := {
  fresh := ClientDirectoryRequest fresh;
  save x := save (dr_hash x);
  load x := v0 ← load (dr_hash x); mret (ClientDirectoryRequest v0)
}.
#[global] Program Instance client_directory_request_wire : Wire client_directory_request := {
  wf x := wf (dr_hash x);
  stored x := ClientDirectoryRequest (stored (dr_hash x))
}.
Next Obligation. wire_record client_directory_request_serializable. Qed.

Record client_directory_answer := ClientDirectoryAnswer { da_files : shared_files_list }.
#[global] Instance client_directory_answer_serializable : Serializable client_directory_answer := {
  fresh := ClientDirectoryAnswer fresh;
  save x := save (da_files x);
  load x := v0 ← load (da_files x); mret (ClientDirectoryAnswer v0)
}.
#[global] Program Instance client_directory_answer_wire : Wire client_directory_answer := {
  wf x := wf (da_files x);
  stored x := ClientDirectoryAnswer (stored (da_files x))
}.
Next Obligation. wire_record client_directory_answer_serializable. Qed.

Record client_directory_content_request := ClientDirectoryContentRequest { dcr_hash : md4_hash }.
#[global] Instance client_directory_content_request_serializable : Serializable client_directory_content_request := {
  fresh := ClientDirectoryContentRequest fresh;
  save x := save (dcr_hash x);
  load x := v0 ← load (dcr_hash x); mret (ClientDirectoryContentRequest v0)
}.
#[global] Program Instance client_directory_content_request_wire : Wire client_directory_content_request := {
  wf x := wf (dcr_hash x);
  stored x := ClientDirectoryContentRequest (stored (dcr_hash x))
}.
Next Obligation. wire_record client_directory_content_request_serializable. Qed.

Record client_directory_content_result := ClientDirectoryContentResult { dcs_hdirectory : md4_hash; dcs_files : shared_files_list }.
#[global] Instance client_directory_content_result_serializable : Serializable client_directory_content_result := {
  fresh := ClientDirectoryContentResult fresh fresh;
  save x := save (dcs_hdirectory x) ++ save (dcs_files x);
  load x := v0 ← load (dcs_hdirectory x); v1 ← load (dcs_files x); mret (ClientDirectoryContentResult v0 v1)
}.
#[global] Program Instance client_directory_content_result_wire : Wire client_directory_content_result := {
  wf x := wf (dcs_hdirectory x) /\ wf (dcs_files x);
  stored x := ClientDirectoryContentResult (stored (dcs_hdirectory x)) (stored (dcs_files x))
}.
Next Obligation. wire_record client_directory_content_result_serializable. Qed.

Record client_public_ip_answer := ClientPublicIpAnswer { pia_client_id : Z }.
#[global] Instance client_public_ip_answer_serializable : Serializable client_public_ip_answer := {
  fresh := ClientPublicIpAnswer 0;
  save x := write_uint 4 (pia_client_id x);
  load x := v0 ← read_uint 4; mret (ClientPublicIpAnswer v0)
}.
#[global] Program Instance client_public_ip_answer_wire : Wire client_public_ip_answer := {
  wf x := is_uint 4 (pia_client_id x);
  stored x := ClientPublicIpAnswer (pia_client_id x)
}.
Next Obligation. wire_record client_public_ip_answer_serializable. Qed.

Record sources_request_base := SourcesRequestBase { sr_file_hash : md4_hash }.
#[global] Instance sources_request_base_serializable : Serializable sources_request_base := {
  fresh := SourcesRequestBase fresh;
  save x := save (sr_file_hash x);
  load x := v0 ← load (sr_file_hash x); mret (SourcesRequestBase v0)
}.
#[global] Program Instance sources_request_base_wire : Wire sources_request_base := {
  wf x := wf (sr_file_hash x);
  stored x := SourcesRequestBase (stored (sr_file_hash x))
}.
Next Obligation. wire_record sources_request_base_serializable. Qed.

(** ** Structures without a fixed layout *)

(** The empty structures: [client_shared_files_request],
    [client_shared_directories_request], [client_shared_files_denied],
    [client_accept_upload], [client_out_parts], [client_cancel_transfer] and
    [client_public_ip_request], told apart by their opcode. *)
Record empty_packet (op : Z) := EmptyPacket {}.
Arguments EmptyPacket {op}.

#[global] Instance empty_packet_serializable op : Serializable (empty_packet op) := {
  fresh := EmptyPacket; save _ := []; load x := mret x
}.
#[global] Program Instance empty_packet_wire op : Wire (empty_packet op) := { wf _ := True; stored x := x }.
Next Obligation. intros op [] _. apply reads_ret. Qed.

(** The constructor of [client_hello_answer]. *)
Definition CT_NAME           : Z := 0x01.
Definition CT_VERSION        : Z := 0x11.
Definition CT_EMULE_UDPPORTS : Z := 0xF9.
Definition ET_MOD_VERSION    : Z := 0x55.

Definition client_hello_answer_new (client_hash : md4_hash) (np sp : net_identifier)
    (client_name program_name : bytes) (version : Z) : client_hello_answer :=
  let nUdpPort := 0 in
  ClientHelloAnswer client_hash np
    [make_string_tag client_name CT_NAME [] true; make_string_tag program_name ET_MOD_VERSION [] true;
     make_uint32_tag version CT_VERSION true; make_uint32_tag nUdpPort CT_EMULE_UDPPORTS true] sp.

Definition client_hello_new (client_hash : md4_hash) (np sp : net_identifier)
    (client_name program_name : bytes) (version : Z) : client_hello :=
  ClientHello 16 (client_hello_answer_new client_hash np sp client_name program_name version).

(** [client_file_status]: loading and saving are two member functions. *)
Record client_file_status := ClientFileStatus { fs_hFile : md4_hash; fs_status : bitfield }.

(** [memory] is what memory that [bitfield::assign] allocates holds. *)
Definition file_status_load (memory : nat -> byte) (x : client_file_status) : reader client_file_status :=
  h ← load (fs_hFile x);
  bits ← read_uint 2;
  if 0 <? bits then
    buf ← raw_read (bits2bytes (Z.to_nat bits));
    mret (ClientFileStatus h (assign memory (fs_status x) buf (Z.to_nat bits)))
  else mret (ClientFileStatus h (fs_status x)).

Definition file_status_save (x : client_file_status) : bytes :=
  save (fs_hFile x) ++
  let bits := to_uint 2 (Z.of_nat (size (fs_status x))) in
  if bits <? Z.of_nat (count (fs_status x)) then    (* part file *)
    write_uint 2 bits ++ take (bits2bytes (Z.to_nat bits)) (m_bytes (fs_status x))
  else write_uint 2 0.                              (* complete file *)

#[global] Instance client_file_status_serializable : Serializable client_file_status := {
  fresh := ClientFileStatus fresh bitfield_empty;
  save := file_status_save;
  load := file_status_load (fun _ => z2b 0)
}.

(** [client_request_parts<size_type>]: three ranges, [w] bytes per offset. *)
Record client_request_parts (w : nat) := RequestParts {
  rp_hFile : md4_hash; rp_begin_offset : list Z; rp_end_offset : list Z; rp_parts : nat }.
Arguments RequestParts {w} _ _ _ _.
Arguments rp_hFile {w} _.
Arguments rp_begin_offset {w} _.
Arguments rp_end_offset {w} _.
Arguments rp_parts {w} _.

Definition rp_reset {w} (x : client_request_parts w) : client_request_parts w :=
  RequestParts (rp_hFile x) [0; 0; 0] [0; 0; 0] 0.
Definition rp_full {w} (x : client_request_parts w) : bool := (2 <? rp_parts x)%nat.
Definition rp_empty {w} (x : client_request_parts w) : bool := (rp_parts x =? 0)%nat.

(** [None] is the failed assertion of [append]. *)
Definition rp_append {w} (x : client_request_parts w) (range : Z * Z) : option (client_request_parts w) :=
  if rp_full x then None
  else Some (RequestParts (rp_hFile x) (<[rp_parts x := fst range]> (rp_begin_offset x))
               (<[rp_parts x := snd range]> (rp_end_offset x)) (S (rp_parts x))).

#[global] Instance client_request_parts_serializable (w : nat) : Serializable (client_request_parts w) := {
  fresh := RequestParts fresh [0; 0; 0] [0; 0; 0] 0;
  save x := save (rp_hFile x) ++ (rp_begin_offset x ≫= write_uint w) ++ (rp_end_offset x ≫= write_uint w);
  load x := h ← load (rp_hFile x);
            b ← read_each (fun _ => read_uint w) (rp_begin_offset x);
            e ← read_each (fun _ => read_uint w) (rp_end_offset x);
            mret (RequestParts h b e (rp_parts x))
}.

(** The two C arrays have three slots of [w]-byte integers. *)
Definition three_uints (w : nat) (l : list Z) : Prop := length l = 3%nat /\ Forall (is_uint w) l.

Lemma reads_three_uints w l :
  three_uints w l ->
  reads (read_each (fun _ => read_uint w) [0; 0; 0]) (l ≫= write_uint w) l.
Proof.
  intros [Hl Hw]. change [0; 0; 0] with (replicate 3 0). rewrite <- Hl.
  rewrite <- (list_fmap_id l) at 3. apply (reads_each (fun _ => read_uint w) (write_uint w) id).
  intros x Hx. rewrite Forall_forall in Hw. by apply reads_uint, Hw, list_elem_of_In.
Qed.

(** [m_parts] is not on the wire. *)
#[global] Program Instance client_request_parts_wire (w : nat) : Wire (client_request_parts w) := {
  wf x := wf (rp_hFile x) /\ three_uints w (rp_begin_offset x) /\ three_uints w (rp_end_offset x);
  stored x := RequestParts (rp_hFile x) (rp_begin_offset x) (rp_end_offset x) 0
}.
Next Obligation.
  intros w [h b e n] (Hh & Hb & He). cbn [rp_hFile rp_begin_offset rp_end_offset] in *.
  eapply reads_bind; [by apply load_save|]. eapply reads_bind; [by apply reads_three_uints|].
  by apply (reads_bind_ret _ (fun e => RequestParts h b e 0)), reads_three_uints.
Qed.

(** [client_message]. *)
Record client_message := ClientMessage { cm_nMsgLength : Z; cm_strMessage : bytes }.

Definition CLIENT_MAX_MESSAGE_LENGTH : Z := 450.

Definition client_message_new (strMessage : bytes) : client_message :=
  let n := to_uint 2 (Z.of_nat (length strMessage)) in
  let n := if CLIENT_MAX_MESSAGE_LENGTH <? n then CLIENT_MAX_MESSAGE_LENGTH else n in
  ClientMessage n (take (Z.to_nat n) strMessage).

#[global] Instance client_message_serializable : Serializable client_message := {
  fresh := ClientMessage 0 [];
  save x := write_uint 2 (cm_nMsgLength x) ++ write_string (cm_strMessage x);
  load x :=
    n ← read_uint 2;
    let n := if CLIENT_MAX_MESSAGE_LENGTH <? n then CLIENT_MAX_MESSAGE_LENGTH else n in
    s ← read_string (Z.to_nat n);
    mret (ClientMessage n s)
}.

#[global] Program Instance client_message_wire : Wire client_message := {
  wf x := Z.of_nat (length (cm_strMessage x)) = cm_nMsgLength x /\ cm_nMsgLength x <= CLIENT_MAX_MESSAGE_LENGTH;
  stored x := x
}.
Next Obligation.
  intros [n s] [Hn Hm]. cbn [cm_nMsgLength cm_strMessage] in *.
  assert (is_uint 2 n) as Hu by (unfold is_uint, CLIENT_MAX_MESSAGE_LENGTH in *; cbn; lia).
  eapply reads_bind; [by apply reads_uint|]. cbv zeta. cbn [cm_nMsgLength cm_strMessage].
  destruct (Z.ltb_spec CLIENT_MAX_MESSAGE_LENGTH n); [lia|].
  apply (reads_bind_ret _ (ClientMessage n)), reads_string_len. lia.
Qed.

(** [client_captcha_request]: the picture is what follows the tag list. *)
Record client_captcha_request := CaptchaRequest { cap_list : tag_list; cap_captcha : bytes }.

#[global] Instance client_captcha_request_serializable : Serializable client_captcha_request := {
  fresh := CaptchaRequest [] [];
  save x := tag_list_save 1 (cap_list x) ++ (cap_captcha x ≫= save);
  load x :=
    l ← tag_list_load 1 (cap_list x);
    n ← bytes_left;
    c ← read_each load (resize_collection (z2b 0) (Z.to_nat n) (cap_captcha x));
    mret (CaptchaRequest l c)
}.

(** Source exchange.  The version [v] of an element decides which fields are on
    the wire. *)
Record sources_answer_element := SourceElement {
  sae_client_id : net_identifier; sae_server_id : net_identifier;
  sae_client_hash : md4_hash; sae_flag : Z; sae_sx_version : Z }.

Definition sae_new (v : Z) : sources_answer_element := SourceElement fresh fresh fresh 0 v.

Definition sae_save (x : sources_answer_element) : bytes :=
  save (sae_client_id x) ++ save (sae_server_id x)
    ++ (if 1 <? sae_sx_version x then save (sae_client_hash x) else [])
    ++ (if 3 <? sae_sx_version x then write_uint 1 (sae_flag x) else []).

Definition sae_load (x : sources_answer_element) : reader sources_answer_element :=
  c ← load (sae_client_id x);
  s ← load (sae_server_id x);
  h ← (if 1 <? sae_sx_version x then load (sae_client_hash x) else mret (sae_client_hash x));
  f ← (if 3 <? sae_sx_version x then read_uint 1 else mret (sae_flag x));
  mret (SourceElement c s h f (sae_sx_version x)).

Record sources_answer_base := SourcesAnswer {
  sab_file_hash : md4_hash; sab_size : Z; sab_elems : list sources_answer_element; sab_sx_version : Z }.

Definition sab_new (v : Z) : sources_answer_base := SourcesAnswer fresh 0 [] v.

(** [elems.push_back] in a loop. *)
Definition sab_load (x : sources_answer_base) : reader sources_answer_base :=
  h ← load (sab_file_hash x);
  n ← read_uint 2;
  es ← read_each sae_load (replicate (Z.to_nat n) (sae_new (sab_sx_version x)));
  mret (SourcesAnswer h n (sab_elems x ++ es) (sab_sx_version x)).

(** The count is computed but not written. *)
Definition sab_save (x : sources_answer_base) : bytes :=
  save (sab_file_hash x) ++ (sab_elems x ≫= sae_save).

(** ** Opcodes *)

Definition client_shared_files_request := empty_packet 0x4A.
Definition client_shared_directories_request := empty_packet 0x5D.
Definition client_shared_files_denied := empty_packet 0x61.
Definition client_accept_upload := empty_packet 0x55.
Definition client_out_parts := empty_packet 0x57.
Definition client_cancel_transfer := empty_packet 0x56.
Definition client_public_ip_request := empty_packet 0x97.

#[global] Instance client_hello_packet : PacketType client_hello := packet _ 0x01 OP_EDONKEYPROT.
#[global] Instance client_hello_answer_packet : PacketType client_hello_answer := packet _ 0x4C OP_EDONKEYPROT.
#[global] Instance client_ext_hello_packet : PacketType client_ext_hello := packet _ 0x01 OP_EMULEPROT.
#[global] Instance client_ext_hello_answer_packet : PacketType client_ext_hello_answer := packet _ 0x02 OP_EMULEPROT.
#[global] Instance client_shared_files_request_packet : PacketType client_shared_files_request := packet _ 0x4A OP_EDONKEYPROT.
#[global] Instance client_shared_directories_request_packet : PacketType client_shared_directories_request := packet _ 0x5D OP_EDONKEYPROT.
#[global] Instance client_shared_directory_files_request_packet : PacketType client_shared_directory_files_request := packet _ 0x5E OP_EDONKEYPROT.
#[global] Instance client_shared_files_answer_packet : PacketType client_shared_files_answer := packet _ 0x4B OP_EDONKEYPROT.
#[global] Instance client_shared_directories_answer_packet : PacketType client_shared_directories_answer := packet _ 0x5F OP_EDONKEYPROT.
#[global] Instance client_shared_directory_files_answer_packet : PacketType client_shared_directory_files_answer := packet _ 0x60 OP_EDONKEYPROT.
#[global] Instance client_file_request_packet : PacketType client_file_request := packet _ 0x58 OP_EDONKEYPROT.
#[global] Instance client_file_answer_packet : PacketType client_file_answer := packet _ 0x59 OP_EDONKEYPROT.
#[global] Instance client_shared_files_denied_packet : PacketType client_shared_files_denied := packet _ 0x61 OP_EDONKEYPROT.
#[global] Instance client_file_description_packet : PacketType client_file_description := packet _ 0x61 OP_EMULEPROT.
#[global] Instance client_filestatus_request_packet : PacketType client_filestatus_request := packet _ 0x4F OP_EDONKEYPROT.
#[global] Instance client_no_file_packet : PacketType client_no_file := packet _ 0x48 OP_EDONKEYPROT.
#[global] Instance client_file_status_packet : PacketType client_file_status := packet _ 0x50 OP_EDONKEYPROT.
#[global] Instance client_hashset_request_packet : PacketType client_hashset_request := packet _ 0x51 OP_EDONKEYPROT.
#[global] Instance client_hashset_answer_packet : PacketType client_hashset_answer := packet _ 0x52 OP_EDONKEYPROT.
#[global] Instance client_start_upload_packet : PacketType client_start_upload := packet _ 0x54 OP_EDONKEYPROT.
#[global] Instance client_queue_ranking_packet : PacketType client_queue_ranking := packet _ 0x60 OP_EMULEPROT.
#[global] Instance client_accept_upload_packet : PacketType client_accept_upload := packet _ 0x55 OP_EDONKEYPROT.
#[global] Instance client_out_parts_packet : PacketType client_out_parts := packet _ 0x57 OP_EDONKEYPROT.
#[global] Instance client_cancel_transfer_packet : PacketType client_cancel_transfer := packet _ 0x56 OP_EDONKEYPROT.
#[global] Instance client_request_parts_32_packet : PacketType (client_request_parts 4) := packet _ 0x47 OP_EDONKEYPROT.
#[global] Instance client_request_parts_64_packet : PacketType (client_request_parts 8) := packet _ 0xA3 OP_EMULEPROT.
#[global] Instance client_compressed_part_32_packet : PacketType (client_compressed_part 4) := packet _ OP_COMPRESSEDPART OP_EMULEPROT.
#[global] Instance client_compressed_part_64_packet : PacketType (client_compressed_part 8) := packet _ OP_COMPRESSEDPART_I64 OP_EMULEPROT.
#[global] Instance client_end_download_packet : PacketType client_end_download := packet _ 0x49 OP_EDONKEYPROT.
#[global] Instance client_message_packet : PacketType client_message := packet _ 0x4E OP_EDONKEYPROT.
#[global] Instance client_captcha_request_packet : PacketType client_captcha_request := packet _ 0xA5 OP_EMULEPROT.
#[global] Instance client_captcha_result_packet : PacketType client_captcha_result := packet _ 0xA6 OP_EMULEPROT.
#[global] Instance client_public_ip_request_packet : PacketType client_public_ip_request := packet _ 0x97 OP_EMULEPROT.
#[global] Instance client_public_ip_answer_packet : PacketType client_public_ip_answer := packet _ 0x98 OP_EMULEPROT.
#[global] Instance client_directory_answer_packet : PacketType client_directory_answer := packet _ 0x4B OP_EDONKEYPROT.
#[global] Instance client_directory_content_request_packet : PacketType client_directory_content_request := packet _ 0xB2 OP_EDONKEYPROT.
#[global] Instance client_directory_content_result_packet : PacketType client_directory_content_result := packet _ 0xB3 OP_EDONKEYPROT.

(** The overload of [body_size] for sending parts counts the file data that
    follows the structure: [end - begin] bytes. *)
Definition sending_part_extra {w} (x : client_sending_part w) : Z := sp_end_offset x - sp_begin_offset x.

#[global] Instance client_sending_part_32_packet : PacketType (client_sending_part 4) := {
  packet_value := OP_SENDINGPART; packet_protocol := OP_EDONKEYPROT; packet_extra := sending_part_extra }.
#[global] Instance client_sending_part_64_packet : PacketType (client_sending_part 8) := {
  packet_value := OP_SENDINGPART_I64; packet_protocol := OP_EMULEPROT; packet_extra := sending_part_extra }.

(** ** Properties *)

Lemma save_hash_length h : hash_wf h -> length (save h) = 16%nat.
Proof. intros Hh. by rewrite save_hash. Qed.

(** The file status sent to a peer never carries the part map.  The save
    routine tests [size < count]; since the number of set bits cannot exceed
    the size, it always writes the empty map, which means a complete file.  The
    load routine, given a status with its map, restores every bit. *)
Theorem file_status_never_partial (memory : nat -> byte) (x : client_file_status) :
  hash_wf (fs_hFile x) -> bf_wf (fs_status x) -> (0 < size (fs_status x))%nat -> Z.of_nat (size (fs_status x)) < 2 ^ 16 ->
  save x = save (fs_hFile x) ++ write_uint 2 0 /\
  exists y,
    reads (file_status_load memory fresh)
      (save (fs_hFile x) ++ write_uint 2 (Z.of_nat (size (fs_status x)))
         ++ take (bits2bytes (size (fs_status x))) (m_bytes (fs_status x))) y /\
    fs_hFile y = fs_hFile x /\ bits (fs_status y) = bits (fs_status x).
Proof.
  intros Hh Hwf Hpos Hsz. pose proof Hwf as [Hb _].
  assert (is_uint 2 (Z.of_nat (size (fs_status x)))) as Hu by (split; [lia|exact Hsz]).
  split.
  - cbn [save client_file_status_serializable]. unfold file_status_save. rewrite to_uint_small by done.
    rewrite count_spec by done. pose proof (count_occ_bound Bool.bool_dec true (bits (fs_status x))) as Hc.
    rewrite length_bits in Hc. cbv zeta. bool_cases; [|done]. unfold size in *. lia.
  - set (n := size (fs_status x)) in *. set (buf := take (bits2bytes n) (m_bytes (fs_status x))).
    assert (length buf = bits2bytes n) as Hbuf.
    { unfold buf. rewrite length_take. unfold size in n. subst n. lia. }
    exists (ClientFileStatus (fs_hFile x) (assign memory bitfield_empty buf n)).
    split_and!; [|done|].
    + unfold file_status_load. eapply reads_bind; [by apply (load_save (fs_hFile x))|].
      eapply reads_bind; [by apply reads_uint|]. rewrite (proj2 (Z.ltb_lt _ _)) by lia.
      rewrite Nat2Z.id. eapply (reads_bind_ret _ (fun b => ClientFileStatus _ (assign memory _ b n))).
      by apply reads_raw_read_len.
    + cbn [fs_status]. assert (bf_wf bitfield_empty) as He.
      { split; [done|]. intros i Hi. vm_compute in Hi. lia. }
      destruct (assign_spec memory bitfield_empty buf n He ltac:(lia)) as (Es & _ & HG).
      apply bits_ext; rewrite Es; [apply length_bits|].
      intros i Hi. rewrite HG, lookup_bits, get_bit_tb by done. unfold buf, byte_at.
      rewrite lookup_take_lt; [done|]. by apply index_in_bytes.
Qed.

Lemma file_status_never_partial_witness :
  save (ClientFileStatus (Hash (replicate 16 (z2b 1))) sample_bits) =
    save (Hash (replicate 16 (z2b 1))) ++ write_uint 2 0.
Proof.
  refine (proj1 (file_status_never_partial (fun _ => z2b 0)
    (ClientFileStatus (Hash (replicate 16 (z2b 1))) sample_bits) _ sample_bits_wf _ _)).
  - by vm_compute.
  - cbn. lia.
  - cbn. lia.
Defined.

(** File data is framed as the receiver expects it.  The header of a part
    announces the structure and the file data together, and on the receiving
    side [service_size] separates exactly the [end - begin] bytes of data, for
    32-bit and for 64-bit offsets. *)
Theorem sending_part_framing (h : md4_hash) (b e : Z) :
  hash_wf h -> 0 <= b <= e -> e - b <= BLOCK_SIZE ->
  let m4 := make_message (ClientSendingPart (w := 4) h b e) in
  let m8 := make_message (ClientSendingPart (w := 8) h b e) in
  service_size (fst m4) = Z.of_nat (length (snd m4)) /\
  body_size (fst m4) - service_size (fst m4) = e - b /\ check_packet (fst m4) = no_error /\
  service_size (fst m8) = Z.of_nat (length (snd m8)) /\
  body_size (fst m8) - service_size (fst m8) = e - b /\ check_packet (fst m8) = no_error.
Proof.
  intros Hh Hbe Hlen. cbv zeta.
  assert (forall w, length (save (ClientSendingPart (w := w) h b e)) = (16 + 2 * w)%nat) as L.
  { intros w. cbn [save client_sending_part_serializable sp_hFile sp_begin_offset sp_end_offset].
    unfold write_uint. rewrite !length_app, !length_le_split, save_hash_length by done. lia. }
  unfold make_message, body_size, service_size. cbn [fst snd m_type h_size m_protocol packet_value
    packet_protocol packet_extra client_sending_part_32_packet client_sending_part_64_packet].
  unfold sending_part_extra. cbn [sp_begin_offset sp_end_offset]. rewrite !L.
  assert (forall n, 0 <= n <= 32 -> to_uint 4 (n + (e - b) + 1) = n + (e - b) + 1 /\
    to_uint 4 (n + (e - b) + 1 - 1) = n + (e - b)) as U.
  { intros n Hn. rewrite Z.add_simpl_r. unfold BLOCK_SIZE in Hlen.
    split; apply to_uint_small, packet_len_uint; unfold MAX_ED2K_PACKET_LEN, BLOCK_SIZE; lia. }
  destruct (U (Z.of_nat (16 + 2 * 4)) ltac:(lia)) as [-> ->].
  destruct (U (Z.of_nat (16 + 2 * 8)) ltac:(lia)) as [-> ->].
  split_and!; try done; try (cbn; lia);
    (apply check_packet_ok; [unfold known_protocol; tauto|unfold MAX_ED2K_PACKET_LEN, BLOCK_SIZE in *; lia]).
Qed.

Lemma sending_part_framing_witness :
  let m := make_message (ClientSendingPart (w := 4) (Hash (replicate 16 (z2b 9))) 1000 5000) in
  body_size (fst m) - service_size (fst m) = 4000.
Proof.
  refine (proj1 (proj2 (sending_part_framing (Hash (replicate 16 (z2b 9))) 1000 5000 _ _ _))); by vm_compute.
Defined.

(** A chat message is cut to at most 450 bytes when it is made, and what
    was made is what the peer loads.  The length is first reduced modulo 2^16,
    so it is this remainder that is cut.  A longer message from the wire is
    loaded up to 450 bytes, the rest staying unread. *)
Theorem client_message_bounded (s : bytes) :
  let m := client_message_new s in
  let n := Z.to_nat (Z.min CLIENT_MAX_MESSAGE_LENGTH (Z.of_nat (length s) mod 2 ^ 16)) in
  m = ClientMessage (Z.of_nat n) (take n s) /\
  reads (load fresh) (save m) m /\
  (CLIENT_MAX_MESSAGE_LENGTH <= Z.of_nat (length s) < 2 ^ 16 ->
   accepts (load fresh) (write_uint 2 (Z.of_nat (length s)) ++ take 450 s) (ClientMessage 450 (take 450 s))).
Proof.
  cbv zeta. unfold client_message_new, to_uint. change (2 ^ (Z.of_nat 2 * 8)) with (2 ^ 16).
  pose proof (Z.mod_pos_bound (Z.of_nat (length s)) (2 ^ 16) ltac:(lia)) as Hr.
  pose proof (Z.mod_le (Z.of_nat (length s)) (2 ^ 16) ltac:(lia) ltac:(lia)) as Hle.
  set (r := Z.of_nat (length s) mod 2 ^ 16) in *.
  assert ((if CLIENT_MAX_MESSAGE_LENGTH <? r then CLIENT_MAX_MESSAGE_LENGTH else r) =
    Z.min CLIENT_MAX_MESSAGE_LENGTH r) as -> by (bool_cases; lia).
  assert (0 <= Z.min CLIENT_MAX_MESSAGE_LENGTH r) as Hm by (unfold CLIENT_MAX_MESSAGE_LENGTH; lia).
  rewrite Z2Nat.id by done. split_and!; [done| |].
  - match goal with |- reads _ _ ?x => change (reads (load fresh) (save x) (stored x)); apply load_save end.
    split; cbn [cm_nMsgLength cm_strMessage].
    + rewrite length_take. lia.
    + lia.
  - intros Hs. unfold CLIENT_MAX_MESSAGE_LENGTH in Hs. assert (is_uint 2 (Z.of_nat (length s))) as Hu by (split; [lia|exact (proj2 Hs)]).
    eapply reads_bind; [by apply reads_uint|]. cbv zeta.
    assert ((if CLIENT_MAX_MESSAGE_LENGTH <? Z.of_nat (length s) then CLIENT_MAX_MESSAGE_LENGTH
      else Z.of_nat (length s)) = 450) as -> by (unfold CLIENT_MAX_MESSAGE_LENGTH; bool_cases; lia).
    apply (reads_bind_ret _ (ClientMessage 450)), reads_string_len. rewrite length_take. lia.
Qed.

(** [append] for every range in turn. *)
Definition rp_append_all {w} (x : client_request_parts w) (ranges : list (Z * Z)) :
    option (client_request_parts w) :=
  foldl (fun o r => x ← o; rp_append x r) (Some x) ranges.

Lemma append_failed {w} (ranges : list (Z * Z)) :
  foldl (fun (o : option (client_request_parts w)) r => x ← o; rp_append x r) None ranges = None.
Proof. by induction ranges. Qed.

(** A part request holds up to three ranges, in the order in which they
    were appended, the unused slots being zero; it reaches the peer unchanged;
    a fourth range is refused. *)
Theorem request_parts_append w (x : client_request_parts w) (ranges : list (Z * Z)) :
  hash_wf (rp_hFile x) -> Forall (fun r => is_uint w (fst r) /\ is_uint w (snd r)) ranges ->
  match rp_append_all (rp_reset x) ranges with
  | Some y =>
      (length ranges <= 3)%nat /\ rp_parts y = length ranges /\ rp_hFile y = rp_hFile x /\
      rp_begin_offset y = (fst <$> ranges) ++ replicate (3 - length ranges) 0 /\
      rp_end_offset y = (snd <$> ranges) ++ replicate (3 - length ranges) 0 /\
      (rp_full y = true <-> length ranges = 3%nat) /\
      reads (load fresh) (save y) (stored y)
  | None => (3 < length ranges)%nat
  end.
Proof.
  intros Hh Hr. assert (is_uint w 0) as H0 by (split; [done|apply pow2_bytes_pos]).
  destruct ranges as [|[b1 e1] [|[b2 e2] [|[b3 e3] [|r4 rest]]]]; cbn -[save load fresh stored].
  5: { rewrite append_failed. cbn. lia. }
  all: rewrite ?Forall_cons_iff in Hr; cbn [fst snd] in Hr.
  all: split_and!; try done; try lia.
  all: apply load_save; split_and!; [done|..].
  all: split; [done|]; cbn [rp_reset rp_begin_offset rp_end_offset];
    repeat apply Forall_cons_2; try apply Forall_nil_2; tauto.
Qed.

Lemma request_parts_append_witness :
  let ranges := [(0, 184320); (184320, 368640)] in
  match rp_append_all (rp_reset (fresh : client_request_parts 4)) ranges with
  | Some y =>
      (length ranges <= 3)%nat /\ rp_parts y = length ranges /\ rp_hFile y = rp_hFile (fresh : client_request_parts 4) /\
      rp_begin_offset y = (fst <$> ranges) ++ replicate (3 - length ranges) 0 /\
      rp_end_offset y = (snd <$> ranges) ++ replicate (3 - length ranges) 0 /\
      (rp_full y = true <-> length ranges = 3%nat) /\
      reads (load fresh) (save y) (stored y)
  | None => (3 < length ranges)%nat
  end.
Proof.
  refine (request_parts_append 4 fresh [(0, 184320); (184320, 368640)] _ _); [by vm_compute|].
  repeat (apply Forall_cons_2; [by vm_compute|]). apply Forall_nil_2.
Defined.

Lemma save_bytes (l : bytes) : l ≫= save = l.
Proof.
  induction l as [|b l IH]; [done|]. rewrite bind_cons, IH. cbn [save byte_serializable].
  by rewrite write_byte.
Qed.

(** A captcha request is recovered from its message: the tags, and as the
    picture everything up to the end of the packet, however long. *)
Theorem captcha_roundtrip (x : client_captcha_request) :
  tag_list_wf 1 (cap_list x) ->
  load fresh (IA (save x) 0) =
    Ok (CaptchaRequest (tags_stored (cap_list x)) (cap_captcha x), IA (save x) (length (save x))).
Proof.
  intros Hl. destruct (reads_tag_list 1 (cap_list x) [] Hl) as [Ht _].
  cbn [load save fresh client_captcha_request_serializable cap_list cap_captcha].
  specialize (Ht [] (cap_captcha x ≫= save)). cbn [app length Nat.add] in Ht.
  unfold mbind at 1, reader_bind at 1. rewrite Ht. cbn [app].
  unfold mbind at 1, reader_bind at 1. unfold bytes_left. cbn [m_container tellg].
  rewrite length_app, save_bytes.
  replace (Z.of_nat _ - Z.of_nat _) with (Z.of_nat (length (cap_captcha x))) by lia.
  rewrite Nat2Z.id. unfold resize_collection. rewrite take_nil, Nat.sub_0_r. cbn [app length].
  destruct (reads_each load save id (z2b 0) (cap_captcha x)) as [Hc _].
  { intros b _. apply reads_byte. }
  rewrite save_bytes, list_fmap_id in Hc.
  specialize (Hc (tag_list_save 1 (cap_list x)) []). rewrite app_nil_r in Hc.
  unfold mbind, reader_bind. rewrite Hc. done.
Qed.

Lemma captcha_roundtrip_witness :
  let x := CaptchaRequest sample_tags [z2b 66; z2b 77; z2b 0] in
  load fresh (IA (save x) 0) =
    Ok (CaptchaRequest (tags_stored (cap_list x)) (cap_captcha x), IA (save x) (length (save x))).
Proof.
  refine (captcha_roundtrip (CaptchaRequest sample_tags [z2b 66; z2b 77; z2b 0]) _).
  split; [by vm_compute|]. repeat constructor; try (by vm_compute); right; by vm_compute.
Defined.

Definition sae_wf (v : Z) (x : sources_answer_element) : Prop :=
  wf (sae_client_id x) /\ wf (sae_server_id x) /\ hash_wf (sae_client_hash x) /\ is_uint 1 (sae_flag x) /\
  sae_sx_version x = v.

(** The fields an old version does not send have their default values. *)
Definition sae_stored (x : sources_answer_element) : sources_answer_element :=
  let v := sae_sx_version x in
  SourceElement (sae_client_id x) (sae_server_id x)
    (if 1 <? v then sae_client_hash x else fresh) (if 3 <? v then sae_flag x else 0) v.

Lemma reads_sae v x : sae_wf v x -> reads (sae_load (sae_new v)) (sae_save x) (sae_stored x).
Proof.
  destruct x as [c s h f v']. intros (Hc & Hs & Hh & Hf & Hv). cbn in Hc, Hs, Hh, Hf, Hv. subst v'.
  unfold sae_load, sae_save, sae_stored, sae_new.
  cbn [sae_client_id sae_server_id sae_client_hash sae_flag sae_sx_version].
  eapply reads_bind; [by apply (load_save c)|]. eapply reads_bind; [by apply (load_save s)|].
  eapply (reads_bind _ _ _ _ (if 1 <? v then h else fresh)).
  { destruct (1 <? v); [exact (load_save h Hh)|apply reads_ret]. }
  rewrite <- (app_nil_r (if 3 <? v then _ else _)).
  eapply (reads_bind _ _ _ _ (if 3 <? v then f else 0)); [|apply reads_ret].
  destruct (3 <? v); [by apply reads_uint|apply reads_ret].
Qed.

(** The answer to a source request cannot be read by its own loader: the
    loader expects the number of sources behind the file hash, the saver leaves
    it out, so what it writes is two bytes short.  With the count in its place
    the answer is loaded back, whatever the protocol version; without it, an
    answer that found no source is an exception at the receiver. *)
Theorem sources_answer_count_missing (x : sources_answer_base) :
  let v := sab_sx_version x in
  let n := Z.of_nat (length (sab_elems x)) in
  hash_wf (sab_file_hash x) -> Forall (sae_wf v) (sab_elems x) -> is_uint 2 n ->
  let with_count := save (sab_file_hash x) ++ write_uint 2 n ++ drop 16 (sab_save x) in
  reads (sab_load (sab_new v)) with_count (SourcesAnswer (sab_file_hash x) n (sae_stored <$> sab_elems x) v) /\
  length with_count = (2 + length (sab_save x))%nat /\
  (sab_elems x = [] -> is_throw (sab_load (sab_new v) (IA (sab_save x) 0))).
Proof.
  intros v n Hh Hes Hn.
  assert (drop 16 (sab_save x) = sab_elems x ≫= sae_save) as ->.
  { unfold sab_save. apply drop_app_length'. by rewrite save_hash_length. }
  assert (reads (sab_load (sab_new v)) (save (sab_file_hash x) ++ write_uint 2 n ++ (sab_elems x ≫= sae_save))
    (SourcesAnswer (sab_file_hash x) n (sae_stored <$> sab_elems x) v)) as HR.
  { unfold sab_load, sab_new. cbn [sab_file_hash sab_size sab_elems sab_sx_version].
    eapply reads_bind; [by apply (load_save (sab_file_hash x))|]. eapply reads_bind; [by apply reads_uint|].
    unfold n. rewrite Nat2Z.id. eapply (reads_bind_ret _ (fun es => SourcesAnswer _ n ([] ++ es) v)).
    apply (reads_each sae_load sae_save sae_stored). intros e He. rewrite Forall_forall in Hes.
    by apply reads_sae, Hes, list_elem_of_In. }
  cbv zeta. split_and!; [done| |].
  - unfold sab_save. rewrite !length_app. unfold write_uint. rewrite length_le_split. lia.
  - intros He. destruct HR as [_ HR]. specialize (HR [] 16%nat). cbn [app length] in HR.
    rewrite !length_app, save_hash_length in HR by done. unfold write_uint in HR at 1.
    rewrite length_le_split in HR. specialize (HR ltac:(lia)).
    rewrite take_app_length' in HR by (by rewrite save_hash_length).
    unfold sab_save. rewrite He. cbn [mbind list_bind app]. by rewrite app_nil_r.
Qed.

Lemma sources_answer_count_missing_witness :
  is_throw (sab_load (sab_new 2) (IA (sab_save (sab_new 2)) 0)).
Proof.
  refine (proj2 (proj2 (sources_answer_count_missing (sab_new 2) _ _ _)) eq_refl);
    [by vm_compute|apply Forall_nil_2|by vm_compute].
Defined.
