(* ===== verification/Search.v ===== *)
(** * Search requests: src/search.cpp

    A user query becomes a list of entries in infix order, with the logical
    operator AND inserted where two operands meet, and is then converted to the
    prefix order the servers expect.  The second half of the file gives the
    grammar of queries and shows that every expression of it, printed as a
    query, is converted to its prefix form. *)

From Stdlib Require Import Strings.String Strings.Byte.
From S2P Require Import Prelude Archive Md4Hash CTag Packets.
Open Scope Z_scope.

(** A string literal as bytes. *)
Definition str (s : string) : bytes := list_byte_of_string s.

Definition SEARCH_REQ_ELEM_LENGTH : nat := 20.
Definition SEARCH_REQ_QUERY_LENGTH : nat := 450.
Definition SEARCH_REQ_ELEM_COUNT : nat := 30.

Definition ED2KFTSTR_PROGRAM         : bytes := str "Pro".
Definition ED2KFTSTR_ARCHIVE         : bytes := str "Arc".
Definition ED2KFTSTR_CDIMAGE         : bytes := str "Iso".
Definition ED2KFTSTR_EMULECOLLECTION : bytes := str "EmuleCollection".
Definition ED2KFTSTR_FOLDER          : bytes := str "Folder".
Definition ED2KFTSTR_USER            : bytes := str "User".

Definition ED2K_SEARCH_OP_GREATER       : Z := 1.
Definition ED2K_SEARCH_OP_LESS          : Z := 2.
Definition ED2K_SEARCH_OP_GREATER_EQUAL : Z := 3.

Definition FT_FILESIZE         : Z := 0x02.
Definition FT_FILETYPE         : Z := 0x03.
Definition FT_FILEFORMAT       : Z := 0x04.
Definition FT_SOURCES          : Z := 0x15.
Definition FT_COMPLETE_SOURCES : Z := 0x30.
Definition FT_MEDIA_LENGTH     : Z := 0xD3.
Definition FT_MEDIA_BITRATE    : Z := 0xD4.
Definition FT_MEDIA_CODEC      : Z := 0xD5.

Definition string2OperType (strMark : bytes) : Z :=
  if decide (strMark = str "AND") then SRE_AND
  else if decide (strMark = str "OR") then SRE_OR
  else if decide (strMark = str "NOT") then SRE_NOT
  else SRE_END.

(** The characters with a meaning in a query. *)
Definition SPACE : byte := z2b 0x20.
Definition OPEN  : byte := z2b 0x28.
Definition CLOSE : byte := z2b 0x29.
Definition QUOTE : byte := z2b 0x22.

Definition is_quote (c : byte) : bool := bool_decide (c = QUOTE).

Section Search.
(** What the numeric part of an entry holds when its constructor does not set
    it. *)
Context (u : Z).

(** ** Infix order *)

Definition item_append (dst : list search_request_entry) (sre : search_request_entry) :
    outcome (list search_request_entry) :=
  if isLogic sre then Ok (dst ++ [sre])
  else
    match list.last dst with
    | None => Ok (dst ++ [sre])
    | Some back =>
        let join :=
          (negb (isOperator back) && negb (isOperator sre))
          || (negb (isOperator back) && (sre_operator sre =? SRE_OBR))
          || ((sre_operator back =? SRE_CBR) && negb (isOperator sre))
          || ((sre_operator back =? SRE_CBR) && (sre_operator sre =? SRE_OBR)) in
        let back' := if join then sre_operation u SRE_AND else back in
        if (sre_operator back' =? SRE_OBR) && (sre_operator sre =? SRE_CBR)
        then Throw empty_brackets
        else Ok ((if join then dst ++ [sre_operation u SRE_AND] else dst) ++ [sre])
    end.

Fixpoint item_append_all (dst l : list search_request_entry) : outcome (list search_request_entry) :=
  match l with
  | [] => Ok dst
  | e :: l' => dst ← item_append dst e; item_append_all dst l'
  end.

(** The parameters of a search besides the query. *)
Record search_filter := Filter {
  nMinSize : Z; nMaxSize : Z; nSourcesCount : Z; nCompleteSourcesCount : Z;
  strFileType : bytes; strFileExtension : bytes; strCodec : bytes;
  nMediaLength : Z; nMediaBitrate : Z }.

Definition no_filter : search_filter := Filter 0 0 0 0 [] [] [] 0 0.

Definition when (b : bool) (e : search_request_entry) : list search_request_entry := if b then [e] else [].

(** The entries the parameters contribute, in order. *)
Definition filter_entries (f : search_filter) : list search_request_entry :=
  let ty := strFileType f in
  if decide (ty = ED2KFTSTR_USER) then [sre_string u (str "'+++USERNICK+++'")]
  else if decide (ty = ED2KFTSTR_FOLDER) then
    [sre_operation u SRE_OBR; sre_string_meta u FT_FILETYPE ED2KFTSTR_EMULECOLLECTION;
     sre_operation u SRE_NOT; sre_string u (str "ED2K:\"); sre_operation u SRE_CBR]
  else
    when (negb (bool_decide (ty = [])))
      (sre_string_meta u FT_FILETYPE
         (if decide (ty = ED2KFTSTR_ARCHIVE \/ ty = ED2KFTSTR_CDIMAGE) then ED2KFTSTR_PROGRAM else ty)) ++
    if decide (ty = ED2KFTSTR_EMULECOLLECTION) then []
    else
      when (negb (nMinSize f =? 0)) (sre_int_meta FT_FILESIZE ED2K_SEARCH_OP_GREATER (nMinSize f)) ++
      when (negb (nMaxSize f =? 0)) (sre_int_meta FT_FILESIZE ED2K_SEARCH_OP_LESS (nMaxSize f)) ++
      when (negb (nSourcesCount f =? 0)) (sre_int_meta FT_SOURCES ED2K_SEARCH_OP_GREATER (nSourcesCount f)) ++
      when (negb (nCompleteSourcesCount f =? 0))
        (sre_int_meta FT_COMPLETE_SOURCES ED2K_SEARCH_OP_GREATER (nCompleteSourcesCount f)) ++
      when (negb (bool_decide (strFileExtension f = []))) (sre_string_meta u FT_FILEFORMAT (strFileExtension f)) ++
      when (negb (bool_decide (strCodec f = []))) (sre_string_meta u FT_MEDIA_CODEC (strCodec f)) ++
      when (negb (nMediaLength f =? 0))
        (sre_int_meta FT_MEDIA_LENGTH ED2K_SEARCH_OP_GREATER_EQUAL (nMediaLength f)) ++
      when (negb (nMediaBitrate f =? 0))
        (sre_int_meta FT_MEDIA_BITRATE ED2K_SEARCH_OP_GREATER_EQUAL (nMediaBitrate f)).

(** The state of the loop over the characters of the query. *)
Record scan := Scan { bVerbatim : bool; strItem : bytes; vResult : list search_request_entry }.

(** A finished item in front of the character [c]. *)
Definition end_item (vResult : list search_request_entry) (strItem : bytes) (c : byte) :
    outcome (list search_request_entry) :=
  let so := string2OperType strItem in
  if so =? SRE_END then item_append vResult (sre_string u (filter (fun c => negb (is_quote c)) strItem))
  else if bool_decide (vResult = []) || from_option isLogic false (list.last vResult) || bool_decide (c = CLOSE)
  then Throw operator_incorrect_place
  else item_append vResult (sre_operation u so).

Definition scan_char (s : scan) (c : byte) : outcome scan :=
  if decide (c = SPACE \/ c = OPEN \/ c = CLOSE) then
    s ← (if bVerbatim s then Ok (Scan true (strItem s ++ [c]) (vResult s))
         else if decide (strItem s = []) then Ok s
         else v ← end_item (vResult s) (strItem s) c; Ok (Scan false [] v));
    s ← (if decide (c = OPEN) then v ← item_append (vResult s) (sre_operation u SRE_OBR);
           Ok (Scan (bVerbatim s) (strItem s) v) else Ok s);
    if decide (c = CLOSE) then v ← item_append (vResult s) (sre_operation u SRE_CBR);
      Ok (Scan (bVerbatim s) (strItem s) v) else Ok s
  else Ok (Scan (if is_quote c then negb (bVerbatim s) else bVerbatim s) (strItem s ++ [c]) (vResult s)).

Fixpoint scan_query (s : scan) (q : bytes) : outcome scan :=
  match q with
  | [] => Ok s
  | c :: q' => s ← scan_char s c; scan_query s q'
  end.

(** After the loop: quotes closed, the last item is not an operator. *)
Definition scan_end (s : scan) : outcome (list search_request_entry) :=
  if bVerbatim s then Throw unclosed_quotation_mark
  else if decide (strItem s = []) then Ok (vResult s)
  else if string2OperType (strItem s) =? SRE_END
  then item_append (vResult s) (sre_string u (filter (fun c => negb (is_quote c)) (strItem s)))
  else Throw operator_incorrect_place.

(** ** Prefix order *)

(** The stack of operators, top first, and the result. *)
Definition pref_state : Type := list search_request_entry * list search_request_entry.

Fixpoint roll_up (operators_stack vPrefResult : list search_request_entry) : outcome pref_state :=
  match operators_stack with
  | [] => Throw incorrect_brackets_count
  | top :: rest =>
      if sre_operator top =? SRE_CBR then Ok (rest, vPrefResult)
      else roll_up rest (top :: vPrefResult)
  end.

Definition pref_step (s : pref_state) (e : search_request_entry) : outcome pref_state :=
  let '(stack, res) := s in
  if isOperator e then
    if sre_operator e =? SRE_OBR then roll_up stack res
    else
      match stack with
      | top :: rest =>
          if (sre_operator e <=? SRE_NOT) && (sre_operator top <=? SRE_NOT)
          then Ok (e :: rest, top :: res)
          else Ok (e :: stack, res)
      | [] => Ok ([e], res)
      end
  else Ok (stack, e :: res).

Fixpoint pref_loop (s : pref_state) (l : list search_request_entry) : outcome pref_state :=
  match l with
  | [] => Ok s
  | e :: l' => s ← pref_step s e; pref_loop s l'
  end.

(** From the last entry to the first; then what is left on the stack. *)
Definition to_prefix (v : list search_request_entry) : outcome (list search_request_entry) :=
  '(stack, res) ← pref_loop ([], []) (reverse v);
  match stack with
  | [] => Ok res
  | top :: _ => if SRE_NOT <? sre_operator top then Throw incorrect_brackets_count else Ok (top :: res)
  end.

Definition generateSearchRequest (f : search_filter) (strQuery : bytes) :
    outcome (list search_request_entry) :=
  if bool_decide (SEARCH_REQ_ELEM_LENGTH < length (strFileType f))%nat
     || bool_decide (SEARCH_REQ_ELEM_LENGTH < length (strFileExtension f))%nat
     || bool_decide (SEARCH_REQ_ELEM_LENGTH < length (strCodec f))%nat
     || bool_decide (SEARCH_REQ_QUERY_LENGTH < length strQuery)%nat
  then Throw input_string_too_large
  else if decide (strQuery = []) then Ok []
  else
    before ← item_append_all [] (filter_entries f);
    s ← scan_query (Scan false [] before) strQuery;
    v ← scan_end s;
    if bool_decide (SEARCH_REQ_ELEM_COUNT < length v - length before)%nat
    then Throw search_expression_too_complex
    else to_prefix v.

(** The overload for related files. *)
Definition generateSearchRequest_related (hFile : md4_hash) : list search_request_entry :=
  [sre_string u (str "related::" ++ toString hFile)].
End Search.

(** ** The grammar of queries *)

(** A leaf is one entry; operands are combined by a written operator or by
    standing next to each other. *)
Inductive conn : Type := Written (o : Z) | Juxtaposed.

Inductive prim : Type :=
| Leaf (e : search_request_entry)
| Group (x : expr)
with expr : Type :=
| One (p : prim)
| Bin (p : prim) (c : conn) (x : expr).

Scheme prim_mut := Induction for prim Sort Prop
  with expr_mut := Induction for expr Sort Prop.
Combined Scheme prim_expr_ind from prim_mut, expr_mut.

Definition conn_op (c : conn) : Z := match c with Written o => o | Juxtaposed => SRE_AND end.

Section Grammar.
Context (u : Z).

Abbreviation operation := (sre_operation u).

(** The infix order, brackets included. *)
Fixpoint flatten_prim (p : prim) : list search_request_entry :=
  match p with
  | Leaf e => [e]
  | Group x => [operation SRE_OBR] ++ flatten x ++ [operation SRE_CBR]
  end
with flatten (x : expr) : list search_request_entry :=
  match x with
  | One p => flatten_prim p
  | Bin p c x => flatten_prim p ++ [operation (conn_op c)] ++ flatten x
  end.

(** The prefix order: operators associate to the right, with one precedence. *)
Fixpoint prefix_prim (p : prim) : list search_request_entry :=
  match p with
  | Leaf e => [e]
  | Group x => prefix x
  end
with prefix (x : expr) : list search_request_entry :=
  match x with
  | One p => prefix_prim p
  | Bin p c x => operation (conn_op c) :: prefix_prim p ++ prefix x
  end.

(** Leaves that are operands, connectives that are AND, OR or NOT. *)
Definition conn_ok (c : conn) : Prop := 0 <= conn_op c <= SRE_NOT.

Fixpoint prim_ok (leaf_ok : search_request_entry -> Prop) (p : prim) : Prop :=
  match p with
  | Leaf e => leaf_ok e
  | Group x => expr_ok leaf_ok x
  end
with expr_ok (leaf_ok : search_request_entry -> Prop) (x : expr) : Prop :=
  match x with
  | One p => prim_ok leaf_ok p
  | Bin p c x => prim_ok leaf_ok p /\ conn_ok c /\ expr_ok leaf_ok x
  end.

Definition operand (e : search_request_entry) : Prop := isOperator e = false.

(** ** From infix to prefix *)

(** The operator that is still on the stack when [x] has been processed, and
    what is already in the result. *)
Definition pending (x : expr) : list search_request_entry :=
  match x with One _ => [] | Bin _ c _ => [operation (conn_op c)] end.
Definition settled (x : expr) : list search_request_entry :=
  match x with One p => prefix_prim p | Bin p _ x => prefix_prim p ++ prefix x end.

Lemma pending_settled x : pending x ++ settled x = prefix x.
Proof. by destruct x. Qed.

(** No operator on top of the stack that would be moved. *)
Definition fenced (stack : list search_request_entry) : Prop :=
  match stack with [] => True | top :: _ => SRE_NOT < sre_operator top end.

Lemma pref_step_operator o stack res :
  0 <= o <= SRE_NOT ->
  pref_step (stack, res) (operation o) =
    match stack with
    | top :: rest => if sre_operator top <=? SRE_NOT then Ok (operation o :: rest, top :: res)
                     else Ok (operation o :: stack, res)
    | [] => Ok ([operation o], res)
    end.
Proof.
  intros Ho. unfold pref_step. cbn [isOperator sre_type sre_operation sre_operator].
  rewrite (proj2 (Z.leb_le o SRE_NOT)) by lia. cbn [andb Z.eqb SEARCH_TYPE_BOOL].
  destruct (Z.eqb_spec o SRE_OBR); [unfold SRE_NOT, SRE_OBR in *; lia|]. done.
Qed.

Lemma roll_up_pending x stack res :
  expr_ok operand x -> roll_up (pending x ++ operation SRE_CBR :: stack) res = Ok (stack, pending x ++ res).
Proof.
  destruct x as [p|p c x]; cbn; [done|]. intros (_ & Hc & _). unfold conn_ok, SRE_NOT, SRE_CBR in *.
  destruct (Z.eqb_spec (conn_op c) 4); [lia|done].
Qed.

Lemma pref_loop_flatten :
  (forall p stack res l, prim_ok operand p ->
    pref_loop (stack, res) (reverse (flatten_prim p) ++ l) = pref_loop (stack, prefix_prim p ++ res) l) /\
  (forall x stack res l, expr_ok operand x -> fenced stack ->
    pref_loop (stack, res) (reverse (flatten x) ++ l) = pref_loop (pending x ++ stack, settled x ++ res) l).
Proof.
  apply prim_expr_ind.
  - intros e stack res l He. cbn in *. unfold operand in He. by rewrite He.
  - intros x IH stack res l Hx. cbn [flatten_prim prefix_prim prim_ok] in *.
    rewrite !reverse_app, !reverse_singleton, <- !app_assoc. cbn [app pref_loop].
    assert (pref_step (stack, res) (operation SRE_CBR) = Ok (operation SRE_CBR :: stack, res)) as ->
      by (by destruct stack).
    unfold mbind, outcome_bind at 1. rewrite IH by done. cbn [app pref_loop].
    unfold pref_step at 1. cbn [isOperator sre_type sre_operator sre_operation].
    rewrite roll_up_pending by done. unfold mbind, outcome_bind at 1.
    by rewrite app_assoc, pending_settled.
  - intros p IH stack res l Hp _. cbn. by apply IH.
  - intros p IHp c x IHx stack res l (Hp & Hc & Hx) Hst. cbn [flatten].
    rewrite !reverse_app, reverse_singleton, <- !app_assoc, IHx by done. cbn [app pref_loop].
    rewrite pref_step_operator by done.
    assert (pref_step (pending x ++ stack, settled x ++ res) (operation (conn_op c)) =
      Ok (operation (conn_op c) :: stack, prefix x ++ res)) as E.
    { rewrite pref_step_operator by done. destruct x as [p'|p' c' x']; cbn.
      - destruct stack as [|top rest]; [done|]. cbn in Hst. by destruct (Z.leb_spec (sre_operator top) SRE_NOT); [lia|].
      - destruct Hx as (_ & Hc' & _). unfold conn_ok in Hc'. by destruct (Z.leb_spec (conn_op c') SRE_NOT); [|lia]. }
    rewrite pref_step_operator in E by done. rewrite E. unfold mbind, outcome_bind at 1.
    rewrite IHp by done. cbn [pending settled app]. by rewrite app_assoc.
Qed.

Lemma pref_loop_expr x stack res :
  expr_ok operand x -> fenced stack ->
  pref_loop (stack, res) (reverse (flatten x)) = Ok (pending x ++ stack, settled x ++ res).
Proof.
  intros Hx Hst. rewrite <- (app_nil_r (reverse (flatten x))).
  by rewrite (proj2 pref_loop_flatten).
Qed.

Lemma to_prefix_flatten x : expr_ok operand x -> to_prefix (flatten x) = Ok (prefix x).
Proof.
  intros Hx. unfold to_prefix. rewrite pref_loop_expr by done. unfold mbind, outcome_bind.
  rewrite !app_nil_r. destruct x as [p|p c x]; [done|]. cbn.
  destruct Hx as (_ & Hc & _). unfold conn_ok in Hc. by destruct (Z.ltb_spec SRE_NOT (conn_op c)); [lia|].
Qed.

(** ** From the query to infix order *)

(** Before an operand: nothing, an operator, or an open bracket. *)
Definition ready (v : list search_request_entry) : bool :=
  match list.last v with
  | None => true
  | Some b => isOperator b && negb (sre_operator b =? SRE_CBR)
  end.

(** The operator AND goes in front of an operand that follows an operand. *)
Definition joined (v : list search_request_entry) : list search_request_entry :=
  if ready v then v else v ++ [operation SRE_AND].

Lemma last_snoc {A} (l : list A) x : list.last (l ++ [x]) = Some x.
Proof. apply last_snoc. Qed.

Lemma joined_ready v : ready (joined v) = true.
Proof. unfold joined. destruct (ready v) eqn:E; [done|]. unfold ready. by rewrite last_snoc. Qed.

Lemma joined_snoc_open v : joined (joined v ++ [operation SRE_OBR]) = joined v ++ [operation SRE_OBR].
Proof. unfold joined at 1, ready. by rewrite last_snoc. Qed.

Definition is_open (e : search_request_entry) : Prop := e = operation SRE_OBR.

(** An operand or an open bracket. *)
Lemma item_append_operand v e :
  (isOperator e = false /\ sre_operator e <> SRE_CBR) \/ e = operation SRE_OBR ->
  item_append u v e = Ok (joined v ++ [e]).
Proof.
  intros He. unfold item_append.
  assert (isLogic e = false) as ->.
  { destruct He as [[He _]| ->]; [|done]. unfold isLogic. unfold isOperator in He. by rewrite He. }
  unfold joined, ready. destruct (list.last v) as [b|]; [|done].
  destruct He as [[He Hc]| ->].
  - rewrite He, (proj2 (Z.eqb_neq _ _) Hc), andb_false_r.
    by destruct (isOperator b), (sre_operator b =? SRE_CBR), (sre_operator e =? SRE_OBR).
  - cbn [isOperator sre_operator sre_operation sre_type]. rewrite andb_false_r.
    by destruct (isOperator b), (sre_operator b =? SRE_CBR).
Qed.

(** The end of an operand of the query. *)
Definition ended (v : list search_request_entry) : Prop :=
  exists b, list.last v = Some b /\
    ((isOperator b = false /\ sre_operator b = SRE_END) \/ b = operation SRE_CBR).

Lemma ended_not_ready v : ended v -> ready v = false.
Proof. unfold ready. intros (b & -> & [[-> _]| ->]); done. Qed.

Lemma ended_not_logic v : ended v -> from_option isLogic false (list.last v) = false.
Proof.
  intros (b & -> & [[H _]| ->]); [|done]. cbn. unfold isLogic. unfold isOperator in H. by rewrite H.
Qed.

Lemma ended_snoc v e :
  (isOperator e = false /\ sre_operator e = SRE_END) \/ e = operation SRE_CBR -> ended (v ++ [e]).
Proof. intros He. exists e. by rewrite last_snoc. Qed.

Lemma item_append_close v : ended v -> item_append u v (operation SRE_CBR) = Ok (v ++ [operation SRE_CBR]).
Proof.
  intros (b & Hb & He). unfold item_append. rewrite Hb.
  change (isLogic (operation SRE_CBR)) with false. cbv beta iota zeta.
  destruct He as [[H1 H2]| ->]; [|done]. rewrite H1, H2. cbn. by rewrite H2.
Qed.

Lemma item_append_logic v o : 0 <= o <= SRE_NOT -> item_append u v (operation o) = Ok (v ++ [operation o]).
Proof.
  intros Ho. unfold item_append, isLogic. cbn [sre_type sre_operator sre_operation].
  by rewrite (proj2 (Z.leb_le o SRE_NOT)) by lia.
Qed.

(** Words: no character of them has a meaning, and they are no operator. *)
Definition ordinary (c : byte) : Prop := c <> SPACE /\ c <> OPEN /\ c <> CLOSE /\ c <> QUOTE.

Definition word (w : bytes) : Prop := w <> [] /\ Forall ordinary w /\ string2OperType w = SRE_END.

Definition word_leaf (e : search_request_entry) : Prop := exists w, word w /\ e = sre_string u w.

Definition operator_name (o : Z) : bytes :=
  if o =? SRE_AND then str "AND" else if o =? SRE_OR then str "OR" else str "NOT".

Definition print_conn (c : conn) : bytes :=
  match c with
  | Written o => [SPACE] ++ operator_name o ++ [SPACE]
  | Juxtaposed => [SPACE]
  end.

(** An expression as a user writes it. *)
Fixpoint print_prim (p : prim) : bytes :=
  match p with
  | Leaf e => sre_strValue e
  | Group x => [OPEN] ++ print x ++ [CLOSE]
  end
with print (x : expr) : bytes :=
  match x with
  | One p => print_prim p
  | Bin p c x => print_prim p ++ print_conn c ++ print x
  end.

Lemma scan_query_app s q1 q2 : scan_query u s (q1 ++ q2) = (s ← scan_query u s q1; scan_query u s q2).
Proof.
  revert s. induction q1 as [|c q1 IH]; intros s; [done|]. cbn. unfold mbind, outcome_bind.
  destruct (scan_char u s c); [apply IH|done].
Qed.

Lemma scan_word w item v :
  Forall ordinary w -> scan_query u (Scan false item v) w = Ok (Scan false (item ++ w) v).
Proof.
  intros Hw. revert item. induction Hw as [|c w (H1 & H2 & H3 & H4) _ IH]; intros item; cbn [scan_query].
  - by rewrite app_nil_r.
  - unfold scan_char. rewrite decide_False by tauto. unfold mbind, outcome_bind.
    unfold is_quote. rewrite bool_decide_eq_false_2 by done. cbn [bVerbatim strItem vResult].
    rewrite IH. by rewrite <- app_assoc.
Qed.

Lemma ordinary_quotes w : Forall ordinary w -> filter (fun c => negb (is_quote c)) w = w.
Proof.
  induction 1 as [|c w (_ & _ & _ & H) _ IH]; [done|]. rewrite filter_cons_True, IH; [done|].
  unfold is_quote. by rewrite bool_decide_eq_false_2.
Qed.

(** What the loop knows after a complete operand: it is in the result, or it is
    a word that has not been finished yet. *)
Definition unfinished (w : bytes) (v r : list search_request_entry) : Prop :=
  ended r /\ ((w = [] /\ v = r) \/ (word w /\ item_append u v (sre_string u w) = Ok r)).

Lemma end_item_word v w c : word w -> end_item u v w c = item_append u v (sre_string u w).
Proof.
  intros (_ & Hw & Ht). unfold end_item. rewrite Ht, ordinary_quotes by done. done.
Qed.

Lemma scan_end_unfinished w v r : unfinished w v r -> scan_end u (Scan false w v) = Ok r.
Proof.
  intros (_ & [[-> ->]|[Hw Hi]]); [done|]. pose proof Hw as (Hne & Ho & Ht).
  unfold scan_end. cbn [bVerbatim strItem vResult]. rewrite decide_False by done.
  by rewrite Ht, ordinary_quotes.
Qed.

(** A character that ends words, behind an operand. *)
Lemma scan_char_unfinished w v r c :
  unfinished w v r -> c = SPACE \/ c = CLOSE ->
  scan_char u (Scan false w v) c =
    Ok (Scan false [] (if decide (c = CLOSE) then r ++ [operation SRE_CBR] else r)).
Proof.
  intros [He Hu] Hc. unfold scan_char. rewrite decide_True by tauto. cbn [bVerbatim strItem vResult].
  assert ((if decide (w = []) then Ok (Scan false w v)
    else v0 ← end_item u v w c; Ok (Scan false [] v0)) = Ok (Scan false [] r)) as ->.
  { destruct Hu as [[-> ->]|[Hw Hi]]; [done|]. rewrite decide_False by apply Hw.
    rewrite end_item_word, Hi by done. done. }
  unfold mbind, outcome_bind. cbn [bVerbatim strItem vResult].
  destruct Hc as [-> | ->]; [done|]. rewrite decide_False by done. rewrite item_append_close by done.
  by rewrite !decide_True.
Qed.

Lemma word_leaf_operand e : word_leaf e -> operand e /\ sre_operator e = SRE_END.
Proof. by intros (w & _ & ->). Qed.

Lemma unfinished_word v w : word w -> unfinished w v (joined v ++ [sre_string u w]).
Proof.
  intros Hw. split; [by apply ended_snoc; left|]. right. split; [done|].
  apply item_append_operand. by left.
Qed.

Lemma string2OperType_name o : 0 <= o <= SRE_NOT -> string2OperType (operator_name o) = o.
Proof.
  intros Ho. assert (o = SRE_AND \/ o = SRE_OR \/ o = SRE_NOT) as [->|[->| ->]]
    by (unfold SRE_AND, SRE_OR, SRE_NOT in *; lia); by vm_compute.
Qed.

Lemma operator_name_ordinary o : operator_name o <> [] /\ Forall ordinary (operator_name o).
Proof.
  unfold operator_name. repeat case_match; (split; [done|]);
    repeat (apply Forall_cons_2; [split_and!; by vm_compute|]); apply Forall_nil_2.
Qed.

(** A written operator between blanks, behind an operand. *)
Lemma scan_operator w v r o :
  unfinished w v r -> 0 <= o <= SRE_NOT ->
  scan_query u (Scan false w v) ([SPACE] ++ operator_name o ++ [SPACE]) =
    Ok (Scan false [] (r ++ [operation o])).
Proof.
  intros Hu Ho. destruct (operator_name_ordinary o) as [Hne Hord].
  cbn [app scan_query]. rewrite (scan_char_unfinished _ _ r) by tauto.
  rewrite decide_False by done. unfold mbind, outcome_bind at 1.
  rewrite scan_query_app, scan_word by done. cbn [app].
  unfold mbind, outcome_bind, scan_query, scan_char. rewrite decide_True by tauto.
  cbn [bVerbatim strItem vResult]. rewrite decide_False by done.
  assert (end_item u r (operator_name o) SPACE = Ok (r ++ [operation o])) as ->.
  { unfold end_item. rewrite string2OperType_name by done.
    destruct (Z.eqb_spec o SRE_END); [unfold SRE_NOT, SRE_END in *; lia|].
    destruct Hu as [He _]. rewrite ended_not_logic by done.
    rewrite (bool_decide_eq_false_2 (SPACE = CLOSE)) by done.
    rewrite bool_decide_eq_false_2; [by apply item_append_logic|].
    intros ->. by destruct He as (b & [=] & _). }
  done.
Qed.

Lemma scan_char_open v :
  scan_char u (Scan false [] v) OPEN = Ok (Scan false [] (joined v ++ [operation SRE_OBR])).
Proof.
  unfold scan_char. rewrite decide_True by tauto. cbn [bVerbatim strItem vResult].
  unfold mbind, outcome_bind. rewrite (decide_True (P := [] = [])) by done. cbn [vResult bVerbatim strItem].
  rewrite (decide_True (P := OPEN = OPEN)) by done. by rewrite item_append_operand by (by right).
Qed.

(** A printed expression is read as its infix order, joined to what is there. *)
Lemma scan_print :
  (forall p v, prim_ok word_leaf p -> exists w v',
    scan_query u (Scan false [] v) (print_prim p) = Ok (Scan false w v') /\
    unfinished w v' (joined v ++ flatten_prim p)) /\
  (forall x v, expr_ok word_leaf x -> exists w v',
    scan_query u (Scan false [] v) (print x) = Ok (Scan false w v') /\
    unfinished w v' (joined v ++ flatten x)).
Proof.
  apply prim_expr_ind.
  - intros e v (w & Hw & ->). exists w, v. split; [|by apply unfinished_word].
    apply scan_word, Hw.
  - intros x IH v Hx. cbn [print_prim flatten_prim].
    destruct (IH (joined v ++ [operation SRE_OBR]) Hx) as (w & v' & Hs & Hu).
    rewrite joined_snoc_open in Hu. rewrite <- app_assoc in Hu.
    exists [], ((joined v ++ [operation SRE_OBR] ++ flatten x) ++ [operation SRE_CBR]). split.
    + cbn [app scan_query]. rewrite scan_char_open. unfold mbind, outcome_bind at 1.
      rewrite scan_query_app, Hs. unfold mbind, outcome_bind at 1. cbn [scan_query].
      by rewrite (scan_char_unfinished _ _ _ _ Hu) by tauto.
    + rewrite !app_assoc. split; [by apply ended_snoc; right|]. by left.
  - intros p IH v Hp. by apply IH.
  - intros p IHp c x IHx v (Hp & Hc & Hx). cbn [print flatten].
    destruct (IHp v Hp) as (w & v' & Hs & Hu). rewrite scan_query_app, Hs.
    set (r := joined v ++ flatten_prim p) in *. unfold mbind, outcome_bind at 1.
    rewrite scan_query_app. pose proof (proj1 Hu) as He.
    assert (exists v2, scan_query u (Scan false w v') (print_conn c) = Ok (Scan false [] v2) /\
      joined v2 = r ++ [operation (conn_op c)]) as (v2 & -> & Hj).
    { destruct c as [o|]; cbn [print_conn conn_op].
      - exists (r ++ [operation o]). split; [by apply scan_operator|].
        unfold conn_ok, SRE_NOT in Hc. cbn in Hc. unfold joined, ready. rewrite last_snoc. cbn.
        unfold SRE_CBR. by destruct (Z.eqb_spec o 4); [lia|].
      - exists r. cbn [scan_query]. rewrite (scan_char_unfinished _ _ _ _ Hu) by tauto.
        split; [done|]. unfold joined. by rewrite ended_not_ready. }
    unfold mbind, outcome_bind. destruct (IHx v2 Hx) as (w2 & v3 & -> & Hu2).
    exists w2, v3. split; [done|]. rewrite Hj in Hu2. subst r. by rewrite <- !app_assoc in *.
Qed.

Lemma print_nonempty :
  (forall p, prim_ok word_leaf p -> print_prim p <> []) /\
  (forall x, expr_ok word_leaf x -> print x <> []).
Proof.
  apply prim_expr_ind; cbn; [|done|done|].
  - intros e (w & (Hne & _) & ->). done.
  - intros p IHp c x _ (Hp & _) [E _]%app_eq_nil. by apply IHp.
Qed.

Lemma expr_ok_mono (P Q : search_request_entry -> Prop) :
  (forall e, P e -> Q e) ->
  (forall p, prim_ok P p -> prim_ok Q p) /\ (forall x, expr_ok P x -> expr_ok Q x).
Proof. intros HPQ. apply prim_expr_ind; cbn; [apply HPQ|tauto..]. Qed.

Lemma word_operands x : expr_ok word_leaf x -> expr_ok operand x.
Proof. apply expr_ok_mono. intros e He. by apply word_leaf_operand. Qed.

(** ** The parameters of the search *)

(** Conditions in front of the query, each joined by AND. *)
Definition with_conditions (ps : list prim) (x : expr) : expr :=
  foldr (fun p x => Bin p Juxtaposed x) x ps.

Definition filter_prims (f : search_filter) : list prim :=
  if decide (strFileType f = ED2KFTSTR_FOLDER)
  then [Group (Bin (Leaf (sre_string_meta u FT_FILETYPE ED2KFTSTR_EMULECOLLECTION)) (Written SRE_NOT)
          (One (Leaf (sre_string u (str "ED2K:\")))))]
  else Leaf <$> filter_entries u f.

Definition condition (e : search_request_entry) : Prop := operand e /\ sre_operator e <> SRE_CBR.

Lemma joined_snoc_operand v e : operand e -> joined (v ++ [e]) = v ++ [e; operation SRE_AND].
Proof.
  intros He. unfold operand in He. unfold joined, ready. rewrite last_snoc, He. cbn [andb].
  by rewrite <- app_assoc.
Qed.

Lemma append_conditions es v :
  Forall condition es -> exists v', item_append_all u v es = Ok v' /\
    joined v' = joined v ++ (es ≫= fun e => [e; operation SRE_AND]).
Proof.
  intros Hes. revert v. induction Hes as [|e es [He Hc] _ IH]; intros v; cbn.
  - exists v. by rewrite app_nil_r.
  - unfold mbind, outcome_bind at 1. rewrite item_append_operand by (by left).
    destruct (IH (joined v ++ [e])) as (v' & -> & Hj). exists v'. split; [done|].
    rewrite Hj, joined_snoc_operand, <- app_assoc by done. done.
Qed.

Lemma Forall_when (P : search_request_entry -> Prop) b e l : P e -> Forall P l -> Forall P (when b e ++ l).
Proof. intros He Hl. destruct b; [by apply Forall_cons_2|done]. Qed.

Lemma int_condition m o n : o <> SRE_CBR -> condition (sre_int_meta m o n).
Proof. intros. unfold sre_int_meta, sre_int_type. split; [|done]. unfold operand, isOperator. cbn. by case_match. Qed.

Lemma filter_conditions f : strFileType f <> ED2KFTSTR_FOLDER -> Forall condition (filter_entries u f).
Proof.
  intros Hf. unfold filter_entries. case_decide; [by apply Forall_cons_2|].
  rewrite decide_False by done. apply Forall_when; [done|]. case_decide; [apply Forall_nil_2|].
  do 7 (apply Forall_when; [first [by apply int_condition|done]|]).
  rewrite <- (app_nil_r (when _ _)). apply Forall_when; [by apply int_condition|apply Forall_nil_2].
Qed.

Lemma flatten_conditions es x :
  flatten (with_conditions (Leaf <$> es) x) = (es ≫= fun e => [e; operation SRE_AND]) ++ flatten x.
Proof.
  induction es as [|e es IH]; [done|]. rewrite fmap_cons, bind_cons, <- app_assoc, <- IH. done.
Qed.

(** What the parameters leave for the query to continue. *)
Lemma append_filters f x :
  exists v, item_append_all u [] (filter_entries u f) = Ok v /\
    joined v ++ flatten x = flatten (with_conditions (filter_prims f) x) /\
    (length (joined v) <= S (length v))%nat.
Proof.
  assert (forall v, length (joined v) <= S (length v))%nat as Hlen.
  { intros v. unfold joined. destruct (ready v); [lia|]. rewrite length_app. cbn. lia. }
  unfold filter_prims. case_decide as Hf.
  - unfold filter_entries. rewrite Hf. rewrite decide_False by done. rewrite decide_True by done.
    eexists. split_and!; [reflexivity| |apply Hlen]. done.
  - destruct (append_conditions (filter_entries u f) [] (filter_conditions f Hf)) as (v & -> & Hj).
    exists v. split_and!; [done| |apply Hlen]. rewrite Hj, flatten_conditions. done.
Qed.

Lemma conditions_ok f x : expr_ok operand x -> expr_ok operand (with_conditions (filter_prims f) x).
Proof.
  intros Hx. unfold filter_prims. case_decide as Hf.
  - cbn. unfold conn_ok. cbn. unfold SRE_AND, SRE_NOT. split_and!; try done; lia.
  - induction (filter_conditions f Hf) as [|e es [He _] _ IH]; [done|].
    cbn. split_and!; [done| |done]. unfold conn_ok. cbn. unfold SRE_AND, SRE_NOT. lia.
Qed.
End Grammar.

(** ** Properties *)

(** C27: Queries mean what they say.  Any combination of words by AND, OR, NOT
    or mere juxtaposition, with brackets, printed as a query and combined with
    any parameters of the search, is turned into exactly the prefix form of
    this expression in conjunction with the conditions of the parameters: the
    operators associate to the right with one precedence, brackets group,
    juxtaposition is AND. *)
Theorem search_request_prefix (u : Z) (f : search_filter) (x : expr) :
  (length (strFileType f) <= 20)%nat -> (length (strFileExtension f) <= 20)%nat ->
  (length (strCodec f) <= 20)%nat ->
  expr_ok (word_leaf u) x -> (length (print x) <= 450)%nat -> (length (flatten u x) < 30)%nat ->
  generateSearchRequest u f (print x) = Ok (prefix u (with_conditions (filter_prims u f) x)).
Proof.
  intros H1 H2 H3 Hx Hq Hn. unfold generateSearchRequest, SEARCH_REQ_ELEM_LENGTH, SEARCH_REQ_QUERY_LENGTH.
  rewrite !bool_decide_eq_false_2 by lia. cbn [orb].
  rewrite decide_False by (by apply (print_nonempty u)).
  destruct (append_filters u f x) as (v & -> & Hfl & Hlen). unfold mbind, outcome_bind at 1.
  destruct (proj2 (scan_print u) x v Hx) as (w & v' & -> & Hu). unfold outcome_bind at 1.
  rewrite (scan_end_unfinished _ _ _ _ Hu). unfold outcome_bind, SEARCH_REQ_ELEM_COUNT.
  rewrite bool_decide_eq_false_2 by (rewrite length_app; lia).
  rewrite Hfl. by apply to_prefix_flatten, conditions_ok, (word_operands u).
Qed.

(** [(a b)c OR d], for files of at least 10 bytes with the type Iso. *)
Definition sample_expr : expr :=
  let w s := Leaf (sre_string 0 (str s)) in
  Bin (Group (Bin (w "a"%string) Juxtaposed (One (w "b"%string)))) Juxtaposed (Bin (w "c"%string) (Written SRE_OR) (One (w "d"%string))).
Definition sample_filter : search_filter := Filter 10 0 0 0 (str "Iso") [] [] 0 0.

Lemma word_intro w :
  w <> [] -> forallb (fun c => negb (bool_decide (c = SPACE)) && negb (bool_decide (c = OPEN)) &&
    negb (bool_decide (c = CLOSE)) && negb (bool_decide (c = QUOTE))) w = true ->
  string2OperType w = SRE_END -> word w.
Proof.
  intros Hne Hf Ht. split_and!; [done| |done]. apply Forall_forall. intros c Hc.
  rewrite forallb_forall in Hf. specialize (Hf c Hc).
  apply andb_prop in Hf as [[[H1 H2]%andb_prop H3]%andb_prop H4].
  rewrite negb_true_iff in *. rewrite !bool_decide_eq_false in *. done.
Qed.

Lemma search_request_prefix_witness :
  expr_ok (word_leaf 0) sample_expr /\
  generateSearchRequest 0 sample_filter (str "(a b) c OR d") =
    Ok [sre_operation 0 SRE_AND; sre_string_meta 0 FT_FILETYPE (str "Pro");
        sre_operation 0 SRE_AND; sre_int_meta FT_FILESIZE ED2K_SEARCH_OP_GREATER 10;
        sre_operation 0 SRE_AND; sre_operation 0 SRE_AND; sre_string 0 (str "a"); sre_string 0 (str "b");
        sre_operation 0 SRE_OR; sre_string 0 (str "c"); sre_string 0 (str "d")].
Proof.
  assert (expr_ok (word_leaf 0) sample_expr) as Hx.
  { cbn. unfold conn_ok. cbn. unfold SRE_AND, SRE_OR, SRE_NOT.
    split_and!; try lia; (eexists; split; [|reflexivity]; by apply word_intro). }
  split; [exact Hx|].
  change (str "(a b) c OR d") with (print sample_expr).
  rewrite (search_request_prefix 0 sample_filter sample_expr); [reflexivity| | | |exact Hx| |]; vm_compute; lia.
Defined.

(** What the conversion makes of unbalanced brackets.  An open bracket
    without its close bracket is always refused.  A close bracket without its
    open bracket is refused behind a single operand, but accepted and dropped
    behind an operator: only the top of the stack is examined at the end. *)
Theorem missing_bracket (u : Z) (x : expr) :
  expr_ok operand x ->
  to_prefix (sre_operation u SRE_OBR :: flatten u x) = Throw incorrect_brackets_count /\
  to_prefix (flatten u x ++ [sre_operation u SRE_CBR]) =
    match x with One _ => Throw incorrect_brackets_count | Bin _ _ _ => Ok (prefix u x) end.
Proof.
  intros Hx. unfold to_prefix. split.
  - rewrite reverse_cons, (proj2 (pref_loop_flatten u)) by done. rewrite app_nil_r.
    destruct x as [p|p c x]; cbn; [done|]. destruct Hx as (_ & Hc & _).
    unfold conn_ok, SRE_NOT, SRE_CBR in *. by destruct (Z.eqb_spec (conn_op c) 4); [lia|].
  - rewrite reverse_snoc. cbn [pref_loop pref_step isOperator sre_type sre_operator sre_operation].
    cbn -[pref_loop reverse flatten]. rewrite (pref_loop_expr u) by done.
    destruct x as [p|p c x]; cbn; [done|]. destruct Hx as (_ & Hc & _). unfold conn_ok in Hc.
    destruct (Z.ltb_spec SRE_NOT (conn_op c)); [lia|]. by rewrite app_nil_r.
Qed.

Lemma missing_bracket_witness :
  expr_ok operand sample_expr /\
  to_prefix (flatten 0 sample_expr ++ [sre_operation 0 SRE_CBR]) = Ok (prefix 0 sample_expr).
Proof.
  assert (expr_ok operand sample_expr) as Hx.
  { cbn. unfold conn_ok. cbn. unfold SRE_AND, SRE_OR, SRE_NOT. split_and!; try lia; reflexivity. }
  split; [exact Hx|]. exact (proj2 (missing_bracket 0 sample_expr Hx)).
Defined.

Lemma generate_no_filter u q :
  q <> [] -> (length q <= 450)%nat ->
  generateSearchRequest u no_filter q =
    (s ← scan_query u (Scan false [] []) q; v ← scan_end u s;
     if bool_decide (30 < length v - 0)%nat then Throw search_expression_too_complex else to_prefix v).
Proof.
  intros Hq Hl. unfold generateSearchRequest, SEARCH_REQ_ELEM_LENGTH, SEARCH_REQ_QUERY_LENGTH.
  rewrite !bool_decide_eq_false_2 by (cbn; lia). cbn [orb]. by rewrite decide_False.
Qed.

(** An operator at the end of the query is refused only when nothing
    follows it.  With a blank behind it the request is built, and its operator
    has a single operand. *)
Theorem dangling_operator (u : Z) (w : bytes) (o : Z) :
  word w -> 0 <= o <= SRE_NOT -> (length w <= 440)%nat ->
  generateSearchRequest u no_filter (w ++ [SPACE] ++ operator_name o) = Throw operator_incorrect_place /\
  generateSearchRequest u no_filter (w ++ [SPACE] ++ operator_name o ++ [SPACE]) =
    Ok [sre_operation u o; sre_string u w].
Proof.
  intros Hw Ho Hl. pose proof Hw as (Hwn & Hwo & _).
  destruct (operator_name_ordinary o) as [Hne Hord].
  assert (length (operator_name o) <= 3)%nat as Hn.
  { unfold operator_name. repeat case_match; cbn; lia. }
  pose proof (unfinished_word u [] w Hw) as Hu.
  rewrite !generate_no_filter by (rewrite ?length_app; first [intros [? _]%app_eq_nil; done|cbn; lia]).
  rewrite !(scan_query_app _ _ w), (scan_word _ w) by done. cbn [app]. unfold mbind, outcome_bind. split.
  - cbn [scan_query]. rewrite (scan_char_unfinished u _ _ _ _ Hu), decide_False by (done || tauto).
    unfold mbind, outcome_bind. rewrite scan_word by done. unfold scan_end. cbn [bVerbatim strItem vResult app].
    rewrite decide_False, string2OperType_name by done.
    by destruct (Z.eqb_spec o SRE_END); [unfold SRE_NOT, SRE_END in *; lia|].
  - change (SPACE :: operator_name o ++ [SPACE]) with ([SPACE] ++ operator_name o ++ [SPACE]).
    rewrite (scan_operator u w [] _ o Hu Ho). unfold scan_end. cbn [bVerbatim strItem vResult].
    rewrite decide_True, bool_decide_eq_false_2 by (done || (cbn; lia)).
    unfold to_prefix. change (reverse _) with [sre_operation u o; sre_string u w].
    cbn [pref_loop]. rewrite pref_step_operator by done. cbn.
    by destruct (Z.ltb_spec SRE_NOT o); [lia|].
Qed.

Lemma dangling_operator_witness :
  generateSearchRequest 0 no_filter (str "linux AND ") = Ok [sre_operation 0 SRE_AND; sre_string 0 (str "linux")].
Proof.
  refine (proj2 (dangling_operator 0 (str "linux") SRE_AND _ _ _)).
  - by apply word_intro.
  - unfold SRE_AND, SRE_NOT. lia.
  - vm_compute. lia.
Defined.
