(* ===== verification/KadId.v ===== *)
(** * Kademlia identifiers: src/kademlia/node_id.cpp

    The XOR metric on 128-bit identifiers, the bucket number of a distance,
    identifiers bound to an IPv4 address, and the address helpers of
    src/broadcast_socket.cpp.  An IPv4 address is the list of its 4 bytes in
    network order ([address_v4::bytes_type]). *)

From S2P Require Import Prelude Archive Md4Hash Bitfield.
Open Scope Z_scope.

Abbreviation node_id := md4_hash.

Definition kad_total_bits : Z := 16 * 8.

Definition distance (n1 n2 : node_id) : node_id :=
  Hash (zip_with (fun i j => z2b (Z.lxor (b2z i) (b2z j))) (m_hash n1) (m_hash n2)).

Fixpoint compare_ref_loop (l1 l2 ref : bytes) : bool :=
  match l1, l2, ref with
  | i :: l1', j :: l2', k :: ref' =>
      let lhs := b2z (z2b (Z.lxor (b2z i) (b2z k))) in
      let rhs := b2z (z2b (Z.lxor (b2z j) (b2z k))) in
      if lhs <? rhs then true else if rhs <? lhs then false else compare_ref_loop l1' l2' ref'
  | _, _, _ => false
  end.

Definition compare_ref (n1 n2 ref : node_id) : bool :=
  compare_ref_loop (m_hash n1) (m_hash n2) (m_hash ref).

(** [for (int b = 7; b >= 0; --b) if (t >= (1 << b)) return bit + b; return bit;],
    with [fuel] steps left, the next one at [b = fuel - 1]. *)
Fixpoint top_bit (fuel : nat) (t : Z) : Z :=
  match fuel with
  | O => 0
  | S b => if Z.shiftl 1 (Z.of_nat b) <=? t then Z.of_nat b else top_bit b t
  end.

(** [byte] counts down from [size - 1]. *)
Fixpoint distance_exp_loop (byte_ : Z) (l1 l2 : bytes) : Z :=
  match l1, l2 with
  | i :: l1', j :: l2' =>
      let t := b2z (z2b (Z.lxor (b2z i) (b2z j))) in
      if t =? 0 then distance_exp_loop (byte_ - 1) l1' l2' else byte_ * 8 + top_bit 8 t
  | _, _ => 0
  end.

Definition distance_exp (n1 n2 : node_id) : Z := distance_exp_loop (16 - 1) (m_hash n1) (m_hash n2).

(** ** Addresses *)

Definition address : Type := bytes.

Definition address_wf (a : address) : Prop := length a = 4%nat.

(** [is_local]: the private and local ranges of IPv4. *)
Definition is_local (a : address) : bool :=
  let ip := be_value a in
  (Z.land ip 0xff000000 =? 0x0a000000) || (Z.land ip 0xfff00000 =? 0xac100000)
  || (Z.land ip 0xffff0000 =? 0xc0a80000) || (Z.land ip 0xffff0000 =? 0xa9fe0000)
  || (Z.land ip 0xff000000 =? 0x7f000000).

(** [for (; a > 0; a >>= 1) --ret;]: the number of rounds is the number of
    binary digits of [a], at most 8. *)
Fixpoint shift_out (fuel : nat) (a ret : Z) : Z :=
  match fuel with
  | O => ret
  | S fuel => if 0 <? a then shift_out fuel (Z.shiftr a 1) (ret - 1) else ret
  end.

Fixpoint common_bits_loop (i : Z) (b1 b2 : bytes) : Z :=
  match b1, b2 with
  | x :: b1', y :: b2' =>
      let a := b2z (z2b (Z.lxor (b2z x) (b2z y))) in
      if a =? 0 then common_bits_loop (i + 1) b1' b2' else shift_out 8 a (i * 8 + 8)
  | _, _ => i * 8
  end.

Definition common_bits (b1 b2 : bytes) : Z := common_bits_loop 0 b1 b2.

(** [cidr_distance] of two IPv4 addresses. *)
Definition cidr_distance (a1 a2 : address) : Z := 4 * 8 - common_bits a1 a2.

(** ** Identifiers bound to an address *)

Section GenerateId.
(** The CRC-32C of boost, and the random bytes of the middle of the
    identifier. *)
Context (crc32c : bytes -> Z) (random : nat -> Z).

Definition v4mask : bytes := z2b <$> [0x03; 0x0f; 0x3f; 0xff].

(** The masked address with three bits of [r], the input of the checksum. *)
Definition masked_ip (ip_ : address) (r : Z) : bytes :=
  let ip := zip_with (fun b m => z2b (Z.land (b2z b) (b2z m))) ip_ v4mask in
  match ip with
  | b :: ip' => z2b (Z.lor (b2z b) (Z.shiftl (Z.land r 0x7) 5)) :: ip'
  | [] => []
  end.

Definition generate_id_impl (ip_ : address) (r : Z) : node_id :=
  let c := crc32c (masked_ip ip_ r) in
  Hash ([z2b (Z.land (Z.shiftr c 24) 0xff); z2b (Z.land (Z.shiftr c 16) 0xff);
         z2b (Z.lor (Z.land (Z.shiftr c 8) 0xf8) (Z.land (random 2) 0x7))]
        ++ ((fun i => z2b (random i)) <$> seq 3 12) ++ [z2b r]).

Definition verify_id (nid : node_id) (source_ip : address) : bool :=
  if is_local source_ip then true
  else
    let h := generate_id_impl source_ip (b2z (byte_at (m_hash nid) 15)) in
    let at_ (n : node_id) i := b2z (byte_at (m_hash n) i) in
    (at_ nid 0%nat =? at_ h 0%nat) && (at_ nid 1%nat =? at_ h 1%nat)
    && (Z.land (at_ nid 2%nat) 0xf8 =? Z.land (at_ h 2%nat) 0xf8).
End GenerateId.

(** ** Lemmas *)

Lemma xor_byte_range a b : 0 <= Z.lxor (b2z a) (b2z b) < 256.
Proof. apply (Z_lxor_bound _ _ 8); [apply b2z_range..|lia]. Qed.

Lemma distance_wf n1 n2 : hash_wf n1 -> hash_wf n2 -> hash_wf (distance n1 n2).
Proof. apply hash_xor_wf. Qed.

Lemma distance_value n1 n2 :
  hash_wf n1 -> hash_wf n2 -> value (distance n1 n2) = Z.lxor (value n1) (value n2).
Proof. apply hash_xor_value. Qed.

Lemma compare_ref_loop_spec l1 l2 ref :
  length l1 = length ref -> length l2 = length ref ->
  compare_ref_loop l1 l2 ref =
    bytes_ltb (zip_with (fun i j => z2b (Z.lxor (b2z i) (b2z j))) l1 ref)
              (zip_with (fun i j => z2b (Z.lxor (b2z i) (b2z j))) l2 ref).
Proof.
  revert l1 l2. induction ref as [|k ref IH]; intros [|i l1] [|j l2] H1 H2; try done.
  cbn [compare_ref_loop zip_with bytes_ltb]. injection H1 as H1. injection H2 as H2.
  by rewrite IH.
Qed.

(** [top_bit] is the binary logarithm. *)
Lemma top_bit_log2 n t : 0 < t < 2 ^ Z.of_nat n -> top_bit n t = Z.log2 t.
Proof.
  induction n as [|n IH]; intros Ht; [cbn in Ht; lia|].
  cbn [top_bit]. rewrite Z.shiftl_1_l. destruct (Z.leb_spec (2 ^ Z.of_nat n) t) as [H|H].
  - symmetry. apply Z.log2_unique; [lia|]. rewrite Nat2Z.inj_succ in Ht. lia.
  - apply IH. lia.
Qed.

Lemma log2_high_byte t v k : 0 < t -> 0 <= k -> 0 <= v < 2 ^ k -> Z.log2 (t * 2 ^ k + v) = k + Z.log2 t.
Proof.
  intros Ht Hk Hv. apply Z.log2_unique; [pose proof (Z.log2_nonneg t); lia|].
  destruct (Z.log2_spec t Ht) as [H1 H2].
  rewrite <- Z.add_succ_r, !Z.pow_add_r by (pose proof (Z.log2_nonneg t); lia). nia.
Qed.

Lemma distance_exp_loop_spec l1 l2 :
  length l1 = length l2 ->
  distance_exp_loop (Z.of_nat (length l1) - 1) l1 l2 = Z.log2 (Z.lxor (be_value l1) (be_value l2)).
Proof.
  revert l2. induction l1 as [|i l1 IH]; intros [|j l2] Hl; try done.
  cbn [distance_exp_loop]. injection Hl as Hl. pose proof (xor_byte_range i j) as Hx.
  rewrite b2z_z2b by done. rewrite <- be_value_xor by (cbn; lia). cbn [zip_with].
  rewrite be_value_cons, b2z_z2b by done. rewrite length_zip_with, <- Hl, Nat.min_id.
  rewrite be_value_xor by done.
  destruct (Z.eqb_spec (Z.lxor (b2z i) (b2z j)) 0) as [-> |Hne].
  - rewrite Z.mul_0_l, Z.add_0_l, <- IH by done. f_equal. cbn [length]. lia.
  - rewrite top_bit_log2 by lia. rewrite log2_high_byte; [cbn [length]; lia|lia|lia|].
    rewrite <- be_value_xor by done. pose proof (be_value_range
      (zip_with (fun i j => z2b (Z.lxor (b2z i) (b2z j))) l1 l2)) as Hr.
    rewrite length_zip_with, <- Hl, Nat.min_id in Hr. done.
Qed.

Lemma distance_exp_log2 n1 n2 :
  hash_wf n1 -> hash_wf n2 -> distance_exp n1 n2 = Z.log2 (Z.lxor (value n1) (value n2)).
Proof.
  unfold hash_wf, MD4_DIGEST_LENGTH. intros H1 H2. unfold distance_exp, value.
  rewrite <- distance_exp_loop_spec by congruence. by rewrite H1.
Qed.

Lemma distance_exp_range n1 n2 : hash_wf n1 -> hash_wf n2 -> 0 <= distance_exp n1 n2 < kad_total_bits.
Proof.
  intros H1 H2. rewrite distance_exp_log2 by done. split; [apply Z.log2_nonneg|].
  pose proof (be_value_range (m_hash (distance n1 n2))) as Hr.
  pose proof (distance_wf n1 n2 H1 H2) as Hw. unfold hash_wf, MD4_DIGEST_LENGTH in Hw. rewrite Hw in Hr.
  change (be_value (m_hash (distance n1 n2))) with (value (distance n1 n2)) in Hr.
  rewrite distance_value in Hr by done. destruct (Z.eq_dec (Z.lxor (value n1) (value n2)) 0) as [->|]; [done|].
  apply Z.log2_lt_pow2; [lia|]. apply Hr.
Qed.

Lemma compare_ref_lt n1 n2 ref :
  hash_wf n1 -> hash_wf n2 -> hash_wf ref ->
  (compare_ref n1 n2 ref = true <-> value (distance n1 ref) < value (distance n2 ref)).
Proof.
  intros H1 H2 Hr. unfold compare_ref, hash_wf in *. by rewrite compare_ref_loop_spec, bytes_ltb_spec by (rewrite ?length_zip_with; congruence).
Qed.

Lemma distance_inj n1 n2 ref :
  hash_wf n1 -> hash_wf n2 -> hash_wf ref -> value (distance n1 ref) = value (distance n2 ref) -> n1 = n2.
Proof.
  intros H1 H2 Hr E. rewrite !distance_value in E by done. apply value_inj; [done..|].
  rewrite <- (Z.lxor_0_r (value n1)), <- (Z.lxor_0_r (value n2)), <- (Z.lxor_nilpotent (value ref)), <- !Z.lxor_assoc. by rewrite E.
Qed.

(** ** Properties *)

(** The identifiers carry the XOR metric.  [distance] is the exclusive or
    of the 128-bit numbers; [compare_ref] orders identifiers by their distance
    to [ref]; [distance_exp] is the [n] with [2^n <= distance < 2^(n+1)] the
    comment promises, for different identifiers. *)
Theorem kad_metric (n1 n2 ref : node_id) :
  hash_wf n1 -> hash_wf n2 -> hash_wf ref ->
  value (distance n1 n2) = Z.lxor (value n1) (value n2) /\
  (compare_ref n1 n2 ref = true <-> value (distance n1 ref) < value (distance n2 ref)) /\
  (n1 <> n2 -> let d := value (distance n1 n2) in
     2 ^ distance_exp n1 n2 <= d < 2 ^ (distance_exp n1 n2 + 1)) /\
  distance_exp n1 n1 = 0 /\ distance_exp n1 n2 = distance_exp n2 n1.
Proof.
  intros H1 H2 Hr. rewrite !distance_exp_log2, Z.lxor_nilpotent by done.
  split_and!; [by apply distance_value| | |done|by rewrite Z.lxor_comm].
  - by apply compare_ref_lt.
  - intros Hne. cbv zeta. rewrite distance_value by done. apply Z.log2_spec.
    pose proof (be_value_range (m_hash n1)). pose proof (be_value_range (m_hash n2)).
    assert (0 <= Z.lxor (value n1) (value n2)) by (apply Z.lxor_nonneg; unfold value; lia).
    assert (Z.lxor (value n1) (value n2) <> 0); [|lia].
    rewrite Z.lxor_eq_0_iff. intros E. by apply Hne, value_inj.
Qed.

Lemma kad_metric_witness :
  let n1 := Hash (replicate 15 (z2b 0) ++ [z2b 9]) in
  let n2 := Hash (replicate 15 (z2b 0) ++ [z2b 3]) in
  compare_ref n2 n1 (Hash (replicate 16 (z2b 0))) = true /\ distance_exp n1 n2 = 3.
Proof.
  split; [|by vm_compute].
  refine (proj2 (proj1 (proj2 (kad_metric (Hash (replicate 15 (z2b 0) ++ [z2b 3]))
    (Hash (replicate 15 (z2b 0) ++ [z2b 9])) (Hash (replicate 16 (z2b 0))) _ _ _))) _); by vm_compute.
Defined.

Lemma land_7_byte r : Z.land (b2z (z2b r)) 0x7 = Z.land r 0x7.
Proof.
  change 0x7 with (Z.ones 3). rewrite !Z.land_ones by lia. rewrite byte.unsigned_of_Z. unfold byte.wrap.
  apply Z.mod_mod_divide. by exists (2 ^ 5).
Qed.

Lemma byte_land_f8 c k :
  Z.land (b2z (z2b (Z.lor (Z.land c 0xf8) (Z.land k 0x7)))) 0xf8 = Z.land c 0xf8.
Proof.
  rewrite byte.unsigned_of_Z. unfold byte.wrap. rewrite <- Z.land_ones by lia.
  apply Z.bits_inj'. intros i Hi. rewrite !Z.land_spec, Z.lor_spec, !Z.land_spec.
  destruct (Z.lt_ge_cases i 8) as [H|H].
  - assert (i = 0 \/ i = 1 \/ i = 2 \/ i = 3 \/ i = 4 \/ i = 5 \/ i = 6 \/ i = 7) as Hc by lia.
    destruct_or! Hc; subst i; cbn; by rewrite ?andb_true_r, ?andb_false_r, ?orb_false_r.
  - rewrite (Z_testbit_above 0xf8 8 i) by lia. by rewrite !andb_false_r.
Qed.

(** An identifier generated for an address is accepted from this address:
    whatever the checksum function, the random bits and the 32-bit seed of
    which only the low byte is kept in the identifier. *)
Theorem generated_id_verifies (crc32c : bytes -> Z) (random random' : nat -> Z) (ip : address) (r : Z) :
  address_wf ip ->
  hash_wf (generate_id_impl crc32c random ip r) /\
  verify_id crc32c random' (generate_id_impl crc32c random ip r) ip = true.
Proof.
  intros Hip. split; [done|]. unfold verify_id. destruct (is_local ip); [done|].
  set (nid := generate_id_impl crc32c random _ r).
  assert (byte_at (m_hash nid) 15 = z2b r) as -> by done.
  assert (masked_ip ip (b2z (z2b r)) = masked_ip ip r) as Em.
  { unfold masked_ip. by rewrite land_7_byte. }
  unfold generate_id_impl. rewrite Em. set (c := crc32c (masked_ip ip r)).
  set (h := Hash _). assert (forall i, (i < 2)%nat -> byte_at (m_hash h) i = byte_at (m_hash nid) i) as E.
  { intros [|[|i]] Hi; [done..|lia]. }
  rewrite !E, !Z.eqb_refl by lia. cbn [andb]. apply Z.eqb_eq.
  assert (forall (rnd : nat -> Z), Z.land (b2z (byte_at [z2b (Z.land (Z.shiftr c 24) 0xff);
    z2b (Z.land (Z.shiftr c 16) 0xff); z2b (Z.lor (Z.land (Z.shiftr c 8) 0xf8) (Z.land (rnd 2%nat) 0x7))] 2)) 0xf8 =
    Z.land (Z.shiftr c 8) 0xf8) as F by (intros; apply byte_land_f8).
  transitivity (Z.land (Z.shiftr c 8) 0xf8); [exact (F random)|symmetry; exact (F random')].
Qed.

Lemma generated_id_verifies_witness :
  address_wf (z2b <$> [124; 31; 75; 21]) /\
  verify_id be_value (fun _ => 5) (generate_id_impl be_value (fun _ => 1) (z2b <$> [124; 31; 75; 21]) 0x12345)
    (z2b <$> [124; 31; 75; 21]) = true.
Proof.
  split; [done|].
  exact (proj2 (generated_id_verifies be_value (fun _ => 1) (fun _ => 5) (z2b <$> [124; 31; 75; 21]) 0x12345 eq_refl)).
Defined.
