(* ===== verification/RoutingTable.v ===== *)
(** * The Kademlia routing table: src/kademlia/routing_table.cpp

    The k-buckets with their replacement caches.  The first bucket holds the
    nodes furthest away from our own identifier; the last one is split when it
    is full.  Times are microseconds; the clock is an argument of the operations
    that read it.  Iterators and entry pointers are positions. *)

From S2P Require Import Prelude Archive Md4Hash Bitfield KadId.
Open Scope Z_scope.

(** ** node_entry.hpp *)

Definition endpoint : Type := address * Z.

Record node_entry := NodeEntry { addr : address; port : Z; timeout_count : Z; nid : node_id }.

#[global] Instance node_entry_eq_dec : EqDecision node_entry.
Proof. solve_decision. Defined.

Definition node_entry_new (id_ : node_id) (ep : endpoint) (pinged : bool) : node_entry :=
  NodeEntry (fst ep) (snd ep) (if pinged then 0 else 0xffff) id_.

Definition pinged (e : node_entry) : bool := negb (timeout_count e =? 0xffff).
Definition set_timeout (n : Z) (e : node_entry) : node_entry := NodeEntry (addr e) (port e) n (nid e).
Definition set_pinged (e : node_entry) : node_entry :=
  if timeout_count e =? 0xffff then set_timeout 0 e else e.
(** [++timeout_count] on 16 bits. *)
Definition timed_out_entry (e : node_entry) : node_entry :=
  if pinged e then set_timeout (to_uint 2 (timeout_count e + 1)) e else e.
Definition fail_count (e : node_entry) : Z := if pinged e then timeout_count e else 0.
Definition ep (e : node_entry) : endpoint := (addr e, port e).
Definition confirmed (e : node_entry) : bool := timeout_count e =? 0.

(** ** The table *)

Record routing_table_node := Bucket {
  replacements : list node_entry; live_nodes : list node_entry; last_active : Z }.

(** The settings the table reads. *)
Record dht_settings := Settings { restrict_routing_ips : bool; max_fail_count : Z }.

Record routing_table := Table {
  m_bucket_size : nat;
  m_settings : dht_settings;
  m_buckets : list routing_table_node;
  m_id : node_id;
  m_last_bootstrap : Z;
  m_last_refresh : Z;
  m_last_self_refresh : Z;
  m_router_nodes : list endpoint;   (* a set *)
  m_ips : list address              (* a multiset *)
}.

Definition set_buckets (bs : list routing_table_node) (t : routing_table) : routing_table :=
  Table (m_bucket_size t) (m_settings t) bs (m_id t) (m_last_bootstrap t) (m_last_refresh t)
    (m_last_self_refresh t) (m_router_nodes t) (m_ips t).
Definition set_ips (ips : list address) (t : routing_table) : routing_table :=
  Table (m_bucket_size t) (m_settings t) (m_buckets t) (m_id t) (m_last_bootstrap t) (m_last_refresh t)
    (m_last_self_refresh t) (m_router_nodes t) ips.
Definition set_last_bootstrap (now : Z) (t : routing_table) : routing_table :=
  Table (m_bucket_size t) (m_settings t) (m_buckets t) (m_id t) now (m_last_refresh t)
    (m_last_self_refresh t) (m_router_nodes t) (m_ips t).
Definition set_last_refresh (now : Z) (t : routing_table) : routing_table :=
  Table (m_bucket_size t) (m_settings t) (m_buckets t) (m_id t) (m_last_bootstrap t) now
    (m_last_self_refresh t) (m_router_nodes t) (m_ips t).
Definition set_last_self_refresh (now : Z) (t : routing_table) : routing_table :=
  Table (m_bucket_size t) (m_settings t) (m_buckets t) (m_id t) (m_last_bootstrap t) (m_last_refresh t)
    now (m_router_nodes t) (m_ips t).
Definition set_router_nodes (rs : list endpoint) (t : routing_table) : routing_table :=
  Table (m_bucket_size t) (m_settings t) (m_buckets t) (m_id t) (m_last_bootstrap t) (m_last_refresh t)
    (m_last_self_refresh t) rs (m_ips t).

Definition seconds (n : Z) : Z := n * 1000000.
Definition minutes (n : Z) : Z := seconds (n * 60).

(** [m_ips.count], [m_ips.insert], and [m_ips.erase(key)], which removes every
    copy of the key. *)
Definition ips_count (a : address) (ips : list address) : nat := length (filter (fun x => x = a) ips).
Definition ips_insert (a : address) (ips : list address) : list address := a :: ips.
Definition ips_erase (a : address) (ips : list address) : list address := filter (fun x => x <> a) ips.

Definition empty_bucket (active : Z) : routing_table_node := Bucket [] [] active.
Definition set_live (l : list node_entry) (b : routing_table_node) : routing_table_node :=
  Bucket (replacements b) l (last_active b).
Definition set_repl (l : list node_entry) (b : routing_table_node) : routing_table_node :=
  Bucket l (live_nodes b) (last_active b).
Definition set_active (now : Z) (b : routing_table_node) : routing_table_node :=
  Bucket (replacements b) (live_nodes b) now.

(** [std::find_if]: the position and value of the first match. *)
Definition find_if (p : node_entry -> bool) (l : list node_entry) : option (nat * node_entry) :=
  list_find (fun e => p e) l.

Definition same_id (id : node_id) (e : node_entry) : bool := bool_decide (nid e = id).

(** [std::max_element] by [fail_count]: the first of the largest. *)
Fixpoint max_element_from (i : nat) (best : nat * node_entry) (l : list node_entry) : nat * node_entry :=
  match l with
  | [] => best
  | e :: l' =>
      max_element_from (S i) (if fail_count (snd best) <? fail_count e then (i, e) else best) l'
  end.
Definition max_element (l : list node_entry) : option (nat * node_entry) :=
  match l with [] => None | e :: l' => Some (max_element_from 1 (0%nat, e) l') end.

Section Table.
(** [min_time()]. *)
Context (min_time : Z).

Definition routing_table_new (id : node_id) (bucket_size : nat) (settings : dht_settings) : routing_table :=
  Table bucket_size settings [] id min_time min_time min_time [] [].

(** The bucket of [id] among [n] buckets. *)
Definition bucket_index (own : node_id) (n : nat) (id : node_id) : nat :=
  Z.to_nat (Z.min (kad_total_bits - 1 - distance_exp own id) (Z.of_nat n - 1)).

(** [find_bucket] creates the first bucket. *)
Definition with_first_bucket (t : routing_table) : routing_table :=
  match m_buckets t with
  | [] => set_buckets [empty_bucket (min_time + seconds 160)] t
  | _ => t
  end.

Definition find_bucket (t : routing_table) (id : node_id) : routing_table * nat :=
  let t := with_first_bucket t in
  (t, bucket_index (m_id t) (length (m_buckets t)) id).

Definition touch_bucket (now : Z) (t : routing_table) (target : node_id) : routing_table :=
  let '(t, i) := find_bucket t target in
  set_buckets (alter (set_active now) i (m_buckets t)) t.

(** A node in the table: bucket, in the replacement cache or not, position. *)
Record node_pos := Pos { pos_bucket : nat; pos_repl : bool; pos_index : nat }.

Definition find_in_bucket (i : nat) (b : routing_table_node) (p : node_entry -> bool) : option (node_pos * node_entry) :=
  match find_if p (replacements b) with
  | Some (j, e) => Some (Pos i true j, e)
  | None => match find_if p (live_nodes b) with
            | Some (j, e) => Some (Pos i false j, e)
            | None => None
            end
  end.

Fixpoint find_node_from (i : nat) (bs : list routing_table_node) (p : node_entry -> bool) :
    option (node_pos * node_entry) :=
  match bs with
  | [] => None
  | b :: bs' => match find_in_bucket i b p with
                | Some r => Some r
                | None => find_node_from (S i) bs' p
                end
  end.

(** [find_node(endpoint)]. *)
Definition find_node_ep (t : routing_table) (e : endpoint) : option (node_pos * node_entry) :=
  find_node_from 0 (m_buckets t) (fun j => bool_decide (addr j = fst e) && bool_decide (port j = snd e)).

(** The lists of a bucket, at a position. *)
Definition alter_pos (f : list node_entry -> list node_entry) (p : node_pos) (bs : list routing_table_node) :
    list routing_table_node :=
  alter (fun b => if pos_repl p then set_repl (f (replacements b)) b else set_live (f (live_nodes b)) b)
    (pos_bucket p) bs.

Definition remove_node (t : routing_table) (p : node_pos) (n : node_entry) : routing_table :=
  set_ips (ips_erase (addr n) (m_ips t)) (set_buckets (alter_pos (delete (pos_index p)) p (m_buckets t)) t).

Definition any_confirmed (bs : list routing_table_node) : bool :=
  existsb (fun b => existsb confirmed (live_nodes b)) bs.

Definition need_bootstrap (now : Z) (t : routing_table) : bool * routing_table :=
  if now - m_last_bootstrap t <? seconds 30 then (false, t)
  else if any_confirmed (m_buckets t) then (false, t)
  else (true, set_last_bootstrap now t).

Definition compare_ip_cidr (lhs rhs : node_entry) : bool := cidr_distance (addr lhs) (addr rhs) <=? 8.

(** *** The steps of add_node *)

(** The IP is already in the table: [inl t] returns, [inr t] goes on. *)
Definition add_known_ip (t : routing_table) (e : node_entry) : routing_table + routing_table :=
  if (0 <? ips_count (addr e) (m_ips t))%nat then
    match pinged e, find_node_ep t (ep e) with
    | true, Some (p, existing) =>
        if decide (nid existing = nid e)
        then inl (set_buckets (alter_pos (alter (set_timeout 0) (pos_index p)) p (m_buckets t)) t)
        else inr (remove_node t p existing)
    | _, _ => if restrict_routing_ips (m_settings t) then inl t else inr t
    end
  else inr t.

(** The live node at [j] makes room for [e]. *)
Definition replace_live (t : routing_table) (i j : nat) (n e : node_entry) : routing_table :=
  set_ips (ips_insert (addr e) (ips_erase (addr n) (m_ips t)))
    (set_buckets (alter (fun b => set_live (delete j (live_nodes b) ++ [e]) b) i (m_buckets t)) t).

(** Into the replacement cache, whose oldest or unconfirmed entry is dropped
    when it is full. *)
Definition add_replacement (t : routing_table) (i : nat) (rb : list node_entry) (e : node_entry) : routing_table :=
  match find_if (same_id (nid e)) rb with
  | Some (j, n) =>
      if decide (ep n = ep e)
      then set_buckets (alter (fun b => set_repl (alter set_pinged j (replacements b)) b) i (m_buckets t)) t
      else t
  | None =>
      let '(rb, ips) :=
        if (m_bucket_size t <=? length rb)%nat then
          (* [rb] is not empty: buckets have a positive size *)
          let '(j, n) := match find_if (fun n => negb (pinged n)) rb, rb with
                         | Some jn, _ => jn
                         | None, n :: _ => (0%nat, n)
                         | None, [] => (0%nat, e)
                         end in
          (delete j rb, ips_erase (addr n) (m_ips t))
        else (rb, m_ips t) in
      set_ips (ips_insert (addr e) ips)
        (set_buckets (alter (set_repl (rb ++ [e])) i (m_buckets t)) t)
  end.

(** Does [id] stay in bucket [i] when the bucket is split? *)
Definition stays (own : node_id) (i : nat) (e : node_entry) : bool :=
  kad_total_bits - 1 - Z.of_nat i <=? distance_exp own (nid e).

(** The loop over the replacement cache of the bucket that is split: live nodes
    of the old and the new bucket, replacements that stay and that move. *)
Fixpoint split_repl (k : nat) (own : node_id) (i : nat) (rb b nb rb' nrb : list node_entry) :
    list node_entry * list node_entry * list node_entry * list node_entry :=
  match rb with
  | [] => (b, nb, rb', nrb)
  | j :: rest =>
      if stays own i j then
        if (k <=? length b)%nat then split_repl k own i rest b nb (rb' ++ [j]) nrb
        else split_repl k own i rest (b ++ [j]) nb rb' nrb
      else if (length nb <? k)%nat then split_repl k own i rest b (nb ++ [j]) rb' nrb
      else split_repl k own i rest b nb rb' (nrb ++ [j])
  end.

(** The last bucket, number [i], is split and [e] goes to its place. *)
Definition split_bucket (t : routing_table) (i : nat) (b rb : list node_entry) (active : Z) (e : node_entry) :
    routing_table :=
  let k := m_bucket_size t in
  let own := m_id t in
  let new_active := min_time + seconds (kad_total_bits - Z.of_nat (S (length (m_buckets t)))) in
  let live := filter (fun j => stays own i j) b in
  let moved := filter (fun j => ~ stays own i j) b in
  let '(b, nb, rb, nrb) := split_repl k own i rb live moved [] [] in
  let '(added, b, nb, rb, nrb) :=
    if stays own i e then
      if (length b <? k)%nat then (true, b ++ [e], nb, rb, nrb)
      else if (length rb <? k)%nat then (true, b, nb, rb ++ [e], nrb)
      else (false, b, nb, rb, nrb)
    else
      if (length nb <? k)%nat then (true, b, nb ++ [e], rb, nrb)
      else if (length nrb <? k)%nat then (true, b, nb, rb, nrb ++ [e])
      else (false, b, nb, rb, nrb) in
  set_ips (if added then ips_insert (addr e) (m_ips t) else m_ips t)
    (set_buckets (<[i := Bucket rb b active]> (m_buckets t) ++ [Bucket nrb nb new_active]) t).

(** A node that is new to its full bucket. *)
Definition add_full (t : routing_table) (i : nat) (bkt : routing_table_node) (e : node_entry) : routing_table :=
  let b := live_nodes bkt in
  let rb := replacements bkt in
  if pinged e && (fail_count e =? 0) then
    match find_if (fun n => negb (pinged n)) b with
    | Some (j, n) => replace_live t i j n e
    | None =>
        match max_element b with
        | Some (j, n) =>
            if 0 <? fail_count n then replace_live t i j n e
            else if (S i =? length (m_buckets t))%nat && (Z.of_nat (length (m_buckets t)) <? kad_total_bits)
            then split_bucket t i b rb (last_active bkt) e
            else add_replacement t i rb e
        | None =>
            if (S i =? length (m_buckets t))%nat && (Z.of_nat (length (m_buckets t)) <? kad_total_bits)
            then split_bucket t i b rb (last_active bkt) e
            else add_replacement t i rb e
        end
    end
  else add_replacement t i rb e.

(** From [find_bucket(e.id)] on. *)
Definition add_to_bucket (t : routing_table) (e : node_entry) : routing_table :=
  let '(t, i) := find_bucket t (nid e) in
  match m_buckets t !! i with
  | None => t   (* the index is in range *)
  | Some bkt =>
      match find_if (same_id (nid e)) (live_nodes bkt) with
      | Some (j, n) =>
          if decide (addr n <> addr e \/ port n <> port e) then t
          else set_buckets (alter (fun b => set_live (alter (set_timeout 0) j (live_nodes b)) b) i (m_buckets t)) t
      | None =>
          if bool_decide (is_Some (find_if (same_id (nid e)) (replacements bkt))) then t
          else if restrict_routing_ips (m_settings t)
                  && (existsb (fun n => compare_ip_cidr n e) (live_nodes bkt)
                      || existsb (fun n => compare_ip_cidr n e) (replacements bkt)) then t
          else if (length (live_nodes bkt) <? m_bucket_size t)%nat then
            set_ips (ips_insert (addr e) (m_ips t))
              (set_buckets (alter (fun b => set_live (live_nodes b ++ [e]) b) i (m_buckets t)) t)
          else add_full t i bkt e
      end
  end.

(** [add_node]: the return value says whether the table should be refreshed. *)
Definition add_node (now : Z) (t : routing_table) (e : node_entry) : bool * routing_table :=
  if decide (ep e ∈ m_router_nodes t) then (false, t)
  else
    let '(ret, t) := need_bootstrap now t in
    if decide (nid e = m_id t) then (ret, t)
    else
      match add_known_ip t e with
      | inl t => (ret, t)
      | inr t => (ret, add_to_bucket t e)
      end.

Definition heard_about (now : Z) (t : routing_table) (id : node_id) (e : endpoint) : routing_table :=
  snd (add_node now t (node_entry_new id e false)).
Definition node_seen (now : Z) (t : routing_table) (id : node_id) (e : endpoint) : bool * routing_table :=
  add_node now t (node_entry_new id e true).

Definition add_router_node (t : routing_table) (router : endpoint) : routing_table :=
  if decide (router ∈ m_router_nodes t) then t else set_router_nodes (router :: m_router_nodes t) t.

(** *** node_failed *)

Definition node_failed (t : routing_table) (id : node_id) (e : endpoint) : routing_table :=
  if decide (id = m_id t) then t
  else
    let '(t, i) := find_bucket t id in
    match m_buckets t !! i with
    | None => t
    | Some bkt =>
        match find_if (same_id id) (live_nodes bkt) with
        | None => t
        | Some (j, n) =>
            if decide (ep n <> e) then t
            else
              match replacements bkt with
              | [] =>
                  let n' := timed_out_entry n in
                  if (max_fail_count (m_settings t) <=? fail_count n') || negb (pinged n') then
                    set_ips (ips_erase (addr n) (m_ips t))
                      (set_buckets (alter (fun b => set_live (delete j (live_nodes b)) b) i (m_buckets t)) t)
                  else
                    set_buckets (alter (fun b => set_live (<[j := n']> (live_nodes b)) b) i (m_buckets t)) t
              | r0 :: _ =>
                  let '(k, r) := match find_if pinged (replacements bkt) with
                                 | Some kr => kr
                                 | None => (0%nat, r0)
                                 end in
                  set_ips (ips_erase (addr n) (m_ips t))
                    (set_buckets (alter (fun b => Bucket (delete k (replacements b))
                       (delete j (live_nodes b) ++ [r]) (last_active b)) i (m_buckets t)) t)
              end
        end
    end.

(** *** find_node *)

Definition copy_n (l : list node_entry) (n : nat) : list node_entry := take n l.
Definition copy_if_n (p : node_entry -> bool) (l : list node_entry) (n : nat) : list node_entry :=
  take n (filter (fun e => p e) l).

(** Buckets closer to us: only the first [to_copy] nodes of each are looked at. *)
Fixpoint find_closer (include_failed : bool) (count : nat) (l : list node_entry) (bs : list routing_table_node) :
    list node_entry :=
  match bs with
  | [] => l
  | b :: bs' =>
      if (length l <? count)%nat then
        let to_copy := Nat.min (count - length l) (length (live_nodes b)) in
        let l := l ++ (if include_failed then take to_copy (live_nodes b)
                       else filter (fun e => confirmed e) (take to_copy (live_nodes b))) in
        find_closer include_failed count l bs'
      else l
  end.

(** Buckets further away, from the nearest one on. *)
Fixpoint find_further (include_failed : bool) (count : nat) (l : list node_entry) (bs : list routing_table_node) :
    list node_entry :=
  match bs with
  | [] => l
  | b :: bs' =>
      if (length l <? count)%nat then
        let to_copy := Nat.min (count - length l) (length (live_nodes b)) in
        let l := l ++ (if include_failed then copy_n (live_nodes b) to_copy
                       else copy_if_n confirmed (live_nodes b) to_copy) in
        find_further include_failed count l bs'
      else l
  end.

Definition find_node (t : routing_table) (target : node_id) (include_failed : bool) (count : nat) :
    routing_table * list node_entry :=
  let count := if (count =? 0)%nat then m_bucket_size t else count in
  let '(t, i) := find_bucket t target in
  let b := default [] (live_nodes <$> m_buckets t !! i) in
  let l := if include_failed then copy_n b (Nat.min count (length b))
           else copy_if_n confirmed b (Nat.min count (length b)) in
  let l := find_closer include_failed count l (drop (S i) (m_buckets t)) in
  (t, find_further include_failed count l (reverse (take i (m_buckets t)))).

(** *** Numbers *)

Definition table_size (t : routing_table) : nat * nat :=
  foldl (fun '(n, r) b => (n + length (live_nodes b), r + length (replacements b)))%nat (0, 0)%nat (m_buckets t).

Fixpoint deepest (k : nat) (bucket size : nat) (bs : list routing_table_node) : nat * nat :=
  match bs with
  | [] => (bucket, size)
  | b :: bs' =>
      let size := length (live_nodes b) in
      if (size <? k)%nat then (bucket, size) else deepest k (S bucket) size bs'
  end.

Definition num_global_nodes (t : routing_table) : Z :=
  let k := m_bucket_size t in
  let '(bucket, size) := deepest k 0 0 (m_buckets t) in
  if (bucket =? 0)%nat then 1 + Z.of_nat size
  else if (size <? k / 2)%nat then Z.shiftl 1 (Z.of_nat bucket) * Z.of_nat k
  else Z.shiftl 2 (Z.of_nat bucket) * Z.of_nat size.

(** [bucket_size(int)]; [None] reads behind the last bucket. *)
Definition bucket_size_of (t : routing_table) (bucket : nat) : option nat :=
  let num_buckets := length (m_buckets t) in
  if (num_buckets =? 0)%nat then Some 0%nat
  else
    let bucket := if (bucket <? num_buckets)%nat then (num_buckets - 1)%nat else bucket in
    (fun b => length (live_nodes b)) <$> m_buckets t !! bucket.

Definition replacement_cache (t : routing_table) : list node_entry := m_buckets t ≫= replacements.

(** *** need_refresh *)

Definition refresh_key (b : routing_table_node) : Z :=
  last_active b + seconds (Z.of_nat (length (live_nodes b)) * 5).

(** [std::min_element]: the first of the smallest. *)
Fixpoint min_element_from (i : nat) (best : nat * routing_table_node) (bs : list routing_table_node) :
    nat * routing_table_node :=
  match bs with
  | [] => best
  | b :: bs' => min_element_from (S i) (if refresh_key b <? refresh_key (snd best) then (i, b) else best) bs'
  end.

(** The first [num_bits] bits set, as the loop sets them one by one. *)
Fixpoint refresh_mask (num_bits : nat) : node_id :=
  match num_bits with
  | O => hash_clear
  | S i => Hash (update_byte (m_hash (refresh_mask i)) (i / 8)%nat (fun v => Z.lor v (mask i)))
  end.

(** A random identifier [r] moved into the bucket with [num_bits - 1] bits in
    common with our own. *)
Definition refresh_target (own r : node_id) (num_bits : nat) : node_id :=
  let mask_ := refresh_mask num_bits in
  let target := hash_or (hash_and r (hash_not mask_)) (hash_and own mask_) in
  let i := (num_bits - 1)%nat in
  let target := update_byte (m_hash target) (i / 8)%nat (fun v => Z.land v (Z.lnot (mask i))) in
  Hash (update_byte target (i / 8)%nat
    (fun v => Z.lor v (Z.land (Z.lnot (b2z (byte_at (m_hash own) (i / 8)%nat))) (mask i)))).

Definition need_refresh (now : Z) (random_id : node_id) (t : routing_table) : option node_id * routing_table :=
  if minutes 15 <? now - m_last_self_refresh t then (Some (m_id t), set_last_self_refresh now t)
  else
    match m_buckets t with
    | [] => (None, t)
    | b0 :: bs =>
        let '(i, b) := min_element_from 1 (0%nat, b0) bs in
        if now - last_active b <? minutes 15 then (None, t)
        else if now - m_last_refresh t <? seconds 45 then (None, t)
        else (Some (refresh_target (m_id t) random_id (S i)), set_last_refresh now t)
    end.
End Table.
