(* ===== verification/RoutingTableInv.v ===== *)
(** * The invariant of the routing table

    Every reachable table with restricted IPs is well formed: buckets within
    their size, every node in the bucket of its distance, no identifier and no
    IP twice, and the set of IPs exactly that of the nodes.  Further, what the
    operations promise: confirmed nodes are not displaced, searches return what
    they should, refresh targets fall into their bucket. *)

From S2P Require Import Prelude Archive Md4Hash Bitfield KadId RoutingTable.
From stdpp Require Import list relations.
Open Scope Z_scope.

(** ** Keys

    All the invariant needs of a node: its identifier and its address. *)

Definition key (e : node_entry) : node_id * address := (nid e, addr e).
Definition bucket_entries (b : routing_table_node) : list node_entry := live_nodes b ++ replacements b.
Definition bucket_keys (b : routing_table_node) : list (node_id * address) := key <$> bucket_entries b.
Definition table_keys (bs : list routing_table_node) : list (node_id * address) := bs ≫= bucket_keys.

Definition placed (own : node_id) (n i : nat) (x : node_id * address) : Prop :=
  hash_wf (fst x) /\ fst x <> own /\ bucket_index own n (fst x) = i.

Definition bounded (k : nat) (b : routing_table_node) : Prop :=
  (length (live_nodes b) <= k)%nat /\ (length (replacements b) <= k)%nat.

Record table_inv (t : routing_table) : Prop := {
  inv_size : (0 < m_bucket_size t)%nat;
  inv_restrict : restrict_routing_ips (m_settings t) = true;
  inv_own : hash_wf (m_id t);
  inv_count : Z.of_nat (length (m_buckets t)) <= kad_total_bits;
  inv_bounds : Forall (bounded (m_bucket_size t)) (m_buckets t);
  inv_placed : forall i b, m_buckets t !! i = Some b ->
    Forall (placed (m_id t) (length (m_buckets t)) i) (bucket_keys b);
  inv_ids : NoDup ((table_keys (m_buckets t)).*1);
  inv_addrs : NoDup ((table_keys (m_buckets t)).*2);
  inv_ips : m_ips t ≡ₚ (table_keys (m_buckets t)).*2
}.

(** ** Keys of lists *)

Lemma key_alter f j (l : list node_entry) : (forall e, key (f e) = key e) -> key <$> alter f j l = key <$> l.
Proof.
  intros Hf. apply list_eq. intros i. rewrite !list_lookup_fmap.
  destruct (decide (i = j)) as [->|Hne].
  - rewrite list_lookup_alter_eq. destruct (l !! j); cbn; by rewrite ?Hf.
  - by rewrite list_lookup_alter_ne.
Qed.

Lemma delete_keys j (l : list node_entry) n : l !! j = Some n -> key <$> l ≡ₚ key n :: (key <$> delete j l).
Proof. intros Hj. rewrite (delete_Permutation l j n Hj) at 1. done. Qed.

Lemma bucket_keys_eq b : bucket_keys b = (key <$> live_nodes b) ++ (key <$> replacements b).
Proof. apply fmap_app. Qed.

(** The table around one of its buckets. *)
Definition other_keys (bs : list routing_table_node) (i : nat) : list (node_id * address) :=
  table_keys (take i bs) ++ table_keys (drop (S i) bs).

Lemma table_keys_split bs i b :
  bs !! i = Some b -> table_keys bs ≡ₚ bucket_keys b ++ other_keys bs i.
Proof.
  intros Hi. unfold other_keys, table_keys. rewrite <- (take_drop_middle bs i b Hi) at 1.
  rewrite bind_app, bind_cons. rewrite app_assoc, (Permutation_app_comm _ (bucket_keys b)), <- app_assoc. done.
Qed.

Lemma table_keys_insert bs i b b' :
  bs !! i = Some b -> table_keys (<[i := b']> bs) ≡ₚ bucket_keys b' ++ other_keys bs i.
Proof.
  intros Hi. pose proof (lookup_lt_Some _ _ _ Hi) as Hlt.
  rewrite (table_keys_split _ i b') by (by apply list_lookup_insert_eq). f_equiv. unfold other_keys.
  rewrite take_insert_ge, drop_insert_lt by lia. done.
Qed.

Lemma alter_insert (bs : list routing_table_node) (i : nat) b f : bs !! i = Some b -> alter f i bs = <[i := f b]> bs.
Proof.
  intros Hi. apply list_eq. intros j. destruct (decide (j = i)) as [->|Hne].
  - rewrite list_lookup_alter_eq, Hi. rewrite list_lookup_insert_eq; [done|by eapply lookup_lt_Some].
  - by rewrite list_lookup_alter_ne, list_lookup_insert_ne.
Qed.

(** ** The set of IPs *)

Lemma ips_erase_perm a ips l : ips ≡ₚ a :: l -> NoDup (a :: l) -> ips_erase a ips ≡ₚ l.
Proof.
  intros Hp [Ha _]%NoDup_cons. unfold ips_erase. rewrite Hp, filter_cons_False by tauto.
  clear Hp. induction l as [|x l IH]; [done|]. apply not_elem_of_cons in Ha as [Hx Ha].
  rewrite filter_cons_True by congruence. by rewrite (IH Ha).
Qed.

Lemma ips_count_pos a ips : (0 <? ips_count a ips)%nat = true <-> a ∈ ips.
Proof.
  unfold ips_count. rewrite Nat.ltb_lt. split.
  - intros Hl. destruct (filter _ ips) as [|x l] eqn:E; [cbn in Hl; lia|].
    assert (x ∈ filter (fun x => x = a) ips) as Hx by (rewrite E; left).
    apply list_elem_of_filter in Hx as [-> Hx]. done.
  - intros Ha. assert (a ∈ filter (fun x => x = a) ips) as Hx by (by apply list_elem_of_filter).
    destruct (filter _ ips); [by apply not_elem_of_nil in Hx|cbn; lia].
Qed.

(** ** One bucket changes

    Keys [rem] leave the bucket, keys [add] (at most one) enter it. *)
Lemma inv_update t i b b' ips' rem add common :
  table_inv t -> m_buckets t !! i = Some b ->
  bucket_keys b ≡ₚ rem ++ common -> bucket_keys b' ≡ₚ add ++ common ->
  bounded (m_bucket_size t) b' ->
  Forall (placed (m_id t) (length (m_buckets t)) i) add ->
  NoDup ((add ++ common ++ other_keys (m_buckets t) i).*1) ->
  NoDup ((add ++ common ++ other_keys (m_buckets t) i).*2) ->
  ips' ≡ₚ (add ++ common ++ other_keys (m_buckets t) i).*2 ->
  table_inv (set_ips ips' (set_buckets (<[i := b']> (m_buckets t)) t)).
Proof.
  intros Hinv Hi Hb Hb' Hbd Hpl Hids Haddrs Hips. destruct Hinv.
  assert (table_keys (<[i := b']> (m_buckets t)) ≡ₚ add ++ common ++ other_keys (m_buckets t) i) as Hk.
  { rewrite table_keys_insert by done. by rewrite Hb', <- app_assoc. }
  split; cbn [m_bucket_size m_settings m_buckets m_id m_ips set_ips set_buckets]; try done.
  - by rewrite length_insert.
  - by apply Forall_insert.
  - intros j c Hj. rewrite length_insert. destruct (decide (i = j)) as [->|Hne].
    + rewrite list_lookup_insert_eq in Hj by (by eapply lookup_lt_Some). injection Hj as <-.
      rewrite Hb'. apply Forall_app. split; [done|]. specialize (inv_placed0 j b Hi).
      rewrite Hb in inv_placed0. apply Forall_app in inv_placed0. apply inv_placed0.
    + rewrite list_lookup_insert_ne in Hj by done. by apply inv_placed0.
  - by rewrite Hk.
  - by rewrite Hk.
  - by rewrite Hk.
Qed.

Lemma inv_keys t i b :
  table_inv t -> m_buckets t !! i = Some b ->
  NoDup ((bucket_keys b ++ other_keys (m_buckets t) i).*1) /\
  NoDup ((bucket_keys b ++ other_keys (m_buckets t) i).*2) /\
  m_ips t ≡ₚ (bucket_keys b ++ other_keys (m_buckets t) i).*2 /\
  Forall (placed (m_id t) (length (m_buckets t)) i) (bucket_keys b).
Proof.
  intros [] Hi. rewrite <- (table_keys_split _ i b) by done. auto.
Qed.

(** Nothing but the other fields of nodes changes. *)
Lemma inv_same_keys t i b b' :
  table_inv t -> m_buckets t !! i = Some b -> bucket_keys b' = bucket_keys b ->
  bounded (m_bucket_size t) b' -> table_inv (set_buckets (<[i := b']> (m_buckets t)) t).
Proof.
  intros Hinv Hi Hk Hbd. destruct (inv_keys t i b Hinv Hi) as (H1 & H2 & H3 & _).
  apply (inv_update t i b b' (m_ips t) [] [] (bucket_keys b)); try done; by rewrite ?Hk.
Qed.

(** A node [n] leaves. *)
Lemma inv_remove t i b b' n common :
  table_inv t -> m_buckets t !! i = Some b ->
  bucket_keys b ≡ₚ key n :: common -> bucket_keys b' ≡ₚ common ->
  bounded (m_bucket_size t) b' ->
  table_inv (set_ips (ips_erase (addr n) (m_ips t)) (set_buckets (<[i := b']> (m_buckets t)) t)) /\
  addr n ∉ ips_erase (addr n) (m_ips t).
Proof.
  intros Hinv Hi Hb Hb' Hbd. destruct (inv_keys t i b Hinv Hi) as (H1 & H2 & H3 & _).
  rewrite Hb in H1, H2, H3. cbn in H1, H2, H3. split.
  - apply (inv_update t i b b' _ [key n] [] common); try done; cbn [app].
    + by apply NoDup_cons in H1 as [_ ?].
    + by apply NoDup_cons in H2 as [_ ?].
    + by rewrite (ips_erase_perm _ _ _ H3 H2).
  - unfold ips_erase. rewrite list_elem_of_filter. tauto.
Qed.

(** A new node [e] enters, while the nodes [rem] leave. *)
Lemma inv_add t i b b' e rem common ips' :
  table_inv t -> m_buckets t !! i = Some b ->
  bucket_keys b ≡ₚ rem ++ common -> bucket_keys b' ≡ₚ key e :: common ->
  bounded (m_bucket_size t) b' -> placed (m_id t) (length (m_buckets t)) i (key e) ->
  nid e ∉ (table_keys (m_buckets t)).*1 -> addr e ∉ m_ips t ->
  ips' ≡ₚ addr e :: (common ++ other_keys (m_buckets t) i).*2 ->
  table_inv (set_ips ips' (set_buckets (<[i := b']> (m_buckets t)) t)).
Proof.
  intros Hinv Hi Hb Hb' Hbd Hpl Hid Hip Hips.
  destruct (inv_keys t i b Hinv Hi) as (H1 & H2 & H3 & _).
  rewrite (table_keys_split _ i b Hi) in Hid. rewrite H3 in Hip. rewrite Hb in H1, H2, Hid, Hip.
  rewrite <- app_assoc in H1, H2, Hid, Hip. rewrite fmap_app in H1. rewrite fmap_app in H2.
  rewrite fmap_app in Hid. rewrite fmap_app in Hip.
  apply NoDup_app in H1 as (_ & _ & H1). apply NoDup_app in H2 as (_ & _ & H2).
  apply not_elem_of_app in Hid. apply not_elem_of_app in Hip.
  apply (inv_update t i b b' ips' rem [key e] common); try done; cbn [app fmap list_fmap].
  - by apply Forall_singleton.
  - apply NoDup_cons. tauto.
  - apply NoDup_cons. tauto.
Qed.

(** ** Searching lists *)

Lemma find_if_Some p l j e : find_if p l = Some (j, e) -> l !! j = Some e /\ p e = true.
Proof. unfold find_if. intros (H1 & H2 & _)%list_find_Some. split; [done|]. by destruct (p e). Qed.

Lemma find_if_None p l e : find_if p l = None -> e ∈ l -> p e = false.
Proof.
  unfold find_if. intros H%list_find_None He. rewrite Forall_forall in H. specialize (H e He).
  by destruct (p e).
Qed.

Lemma max_element_from_elem l i best :
  max_element_from i best l = best \/
  exists j e, max_element_from i best l = (i + j, e)%nat /\ l !! j = Some e.
Proof.
  revert i best. induction l as [|e l IH]; intros i best; cbn; [by left|].
  case_match.
  - right. destruct (IH (S i) (i, e)) as [->|(j & e' & -> & Hj)].
    + exists 0%nat, e. by rewrite Nat.add_0_r.
    + exists (S j), e'. split; [f_equal; lia|done].
  - destruct (IH (S i) best) as [?|(j & e' & -> & Hj)]; [by left|].
    right. exists (S j), e'. split; [f_equal; lia|done].
Qed.

Lemma max_element_Some l j e : max_element l = Some (j, e) -> l !! j = Some e.
Proof.
  destruct l as [|e0 l]; [done|]. cbn. intros [= H].
  destruct (max_element_from_elem l 1 (0%nat, e0)) as [E|(j' & e' & E & Hj)].
  - rewrite E in H. by injection H as <- <-.
  - rewrite E in H. by injection H as <- <-.
Qed.

(** ** Places *)

Lemma bucket_index_lt own n id :
  hash_wf own -> hash_wf id -> (0 < n)%nat -> (bucket_index own n id < n)%nat.
Proof.
  intros Ho Hi Hn. pose proof (distance_exp_range own id Ho Hi). unfold bucket_index, kad_total_bits in *. lia.
Qed.

Section Operations.
Context (min_time : Z).

Lemma inv_first_bucket t : table_inv t -> table_inv (with_first_bucket min_time t).
Proof.
  intros Hinv. unfold with_first_bucket. destruct (m_buckets t) as [|b bs] eqn:E; [|done].
  destruct Hinv. rewrite E in *. split; cbn; try done.
  - apply Forall_singleton. split; cbn; lia.
  - intros [|i] b; cbn; [|done]. intros [= <-]. apply Forall_nil_2.
Qed.

Lemma first_bucket_fields t :
  let t' := with_first_bucket min_time t in
  m_bucket_size t' = m_bucket_size t /\ m_settings t' = m_settings t /\ m_id t' = m_id t /\
  m_ips t' = m_ips t /\ (0 < length (m_buckets t'))%nat /\
  table_keys (m_buckets t') = table_keys (m_buckets t).
Proof. cbv zeta. unfold with_first_bucket. destruct (m_buckets t) eqn:E; cbn; rewrite ?E; cbn; split_and!; done || lia. Qed.

(** The bucket [find_bucket] yields. *)
Lemma find_bucket_lookup t id :
  table_inv t -> hash_wf id ->
  let '(t', i) := find_bucket min_time t id in
  table_inv t' /\ i = bucket_index (m_id t') (length (m_buckets t')) id /\
  t' = with_first_bucket min_time t /\ exists b, m_buckets t' !! i = Some b.
Proof.
  intros Hinv Hid. unfold find_bucket. pose proof (inv_first_bucket t Hinv) as H'.
  split_and!; [done..|]. destruct (first_bucket_fields t) as (_ & _ & _ & _ & Hlen & _).
  apply lookup_lt_is_Some_2, bucket_index_lt; [apply H'|done|done].
Qed.

Lemma fresh_id t i b id :
  table_inv t -> m_buckets t !! i = Some b -> bucket_index (m_id t) (length (m_buckets t)) id = i ->
  find_if (same_id id) (live_nodes b) = None -> find_if (same_id id) (replacements b) = None ->
  id ∉ (table_keys (m_buckets t)).*1.
Proof.
  intros Hinv Hi Hidx Hl Hr (x & -> & Hx)%list_elem_of_fmap.
  unfold table_keys in Hx. apply list_elem_of_bind in Hx as (c & Hc & Hin).
  apply list_elem_of_lookup in Hin as [j Hj].
  pose proof (inv_placed _ Hinv j c Hj) as Hp. rewrite Forall_forall in Hp.
  destruct (Hp x Hc) as (_ & _ & Hpl). rewrite Hpl in Hidx. subst j.
  rewrite Hi in Hj. injection Hj as <-.
  unfold bucket_keys in Hc. apply list_elem_of_fmap in Hc as (e & -> & He).
  apply elem_of_app in He. destruct He as [He|He].
  - pose proof (find_if_None _ _ _ Hl He) as H. unfold same_id in H.
    by rewrite bool_decide_eq_true_2 in H.
  - pose proof (find_if_None _ _ _ Hr He) as H. unfold same_id in H.
    by rewrite bool_decide_eq_true_2 in H.
Qed.

(** ** Known IPs *)

Lemma find_node_from_Some bs p i pos n :
  find_node_from i bs p = Some (pos, n) ->
  p n = true /\ exists b, (i <= pos_bucket pos)%nat /\ bs !! (pos_bucket pos - i)%nat = Some b /\
    (if pos_repl pos then replacements b else live_nodes b) !! pos_index pos = Some n.
Proof.
  revert i. induction bs as [|b bs IH]; intros i; cbn; [done|]. unfold find_in_bucket.
  destruct (find_if p (replacements b)) as [[j e]|] eqn:E1.
  { intros [= <- <-]. apply find_if_Some in E1 as [? ?]. split; [done|]. exists b. cbn.
    rewrite Nat.sub_diag. auto with lia. }
  destruct (find_if p (live_nodes b)) as [[j e]|] eqn:E2.
  { intros [= <- <-]. apply find_if_Some in E2 as [? ?]. split; [done|]. exists b. cbn.
    rewrite Nat.sub_diag. auto with lia. }
  intros H. destruct (IH _ H) as (Hp & b' & Hle & Hb & Hn). split; [done|]. exists b'.
  split_and!; [lia| |done]. destruct (pos_bucket pos - i)%nat as [|k] eqn:Ek; [lia|]. cbn.
  by replace k with (pos_bucket pos - S i)%nat by lia.
Qed.

Lemma find_node_ep_Some t x pos n :
  find_node_ep t x = Some (pos, n) ->
  ep n = x /\ exists b, m_buckets t !! pos_bucket pos = Some b /\
    (if pos_repl pos then replacements b else live_nodes b) !! pos_index pos = Some n.
Proof.
  intros (Hp & b & _ & Hb & Hn)%find_node_from_Some. rewrite Nat.sub_0_r in Hb.
  apply andb_prop in Hp as [H1 H2]. apply bool_decide_eq_true in H1, H2.
  split; [|by exists b]. destruct x. unfold ep. cbn in *. congruence.
Qed.

(** What [alter_pos] does to the keys of its bucket. *)
Lemma alter_pos_insert f pos bs b :
  bs !! pos_bucket pos = Some b ->
  alter_pos f pos bs = <[pos_bucket pos :=
    if pos_repl pos then set_repl (f (replacements b)) b else set_live (f (live_nodes b)) b]> bs.
Proof. intros Hb. unfold alter_pos. by rewrite (alter_insert _ _ b). Qed.

Lemma bounded_bucket t i b : table_inv t -> m_buckets t !! i = Some b -> bounded (m_bucket_size t) b.
Proof. intros Hinv Hi. pose proof (inv_bounds _ Hinv) as H. by eapply Forall_lookup_1 in H. Qed.

Lemma add_known_ip_inv t e :
  table_inv t ->
  match add_known_ip t e with
  | inl t' => table_inv t'
  | inr t' => table_inv t' /\ (addr e ∉ m_ips t') /\ m_id t' = m_id t
  end.
Proof.
  intros Hinv. unfold add_known_ip.
  destruct (0 <? ips_count (addr e) (m_ips t))%nat eqn:Ec.
  2: { split_and!; try done. intros H. apply ips_count_pos in H. congruence. }
  rewrite (inv_restrict _ Hinv). destruct (pinged e); [|done].
  destruct (find_node_ep t (ep e)) as [[pos n]|] eqn:Ef; [|done].
  apply find_node_ep_Some in Ef as (Hep & b & Hb & Hn). pose proof (bounded_bucket t _ b Hinv Hb) as Hbd.
  case_decide as Hid.
  - rewrite (alter_pos_insert _ _ _ b Hb). apply (inv_same_keys t _ b); [done..| |].
    + rewrite !bucket_keys_eq. by destruct (pos_repl pos); cbn; rewrite key_alter.
    + destruct Hbd. destruct (pos_repl pos); split; cbn; rewrite ?length_alter; done.
  - unfold remove_node. rewrite (alter_pos_insert _ _ _ b Hb).
    assert (addr n = addr e) as Ha by (unfold ep in Hep; congruence).
    set (b' := if pos_repl pos then _ else _).
    assert (bucket_keys b ≡ₚ key n :: bucket_keys b') as Hk.
    { subst b'. rewrite !bucket_keys_eq. destruct (pos_repl pos); cbn.
      - rewrite (delete_keys _ _ _ Hn). by rewrite Permutation_middle.
      - by rewrite (delete_keys _ _ _ Hn). }
    assert (bounded (m_bucket_size t) b') as Hbd'.
    { subst b'. destruct Hbd. destruct (pos_repl pos); split; cbn; try done;
        apply lookup_lt_Some in Hn; rewrite length_delete; try lia; by apply lookup_lt_is_Some_2. }
    destruct (inv_remove t _ b b' n (bucket_keys b') Hinv Hb Hk ltac:(done) Hbd') as [H1 H2].
    rewrite Ha in H2 at 1. done.
Qed.

Lemma snoc_app_perm {A} (l1 l2 : list A) x : (l1 ++ [x]) ++ l2 ≡ₚ x :: l1 ++ l2.
Proof. rewrite <- app_assoc. cbn [app]. symmetry. apply Permutation_middle. Qed.

(** ** A new node

    [e] is new to the table: its identifier belongs to bucket [i], whose content
    is [b], and neither its identifier nor its IP is known. *)
Record new_node (t : routing_table) (i : nat) (b : routing_table_node) (e : node_entry) : Prop := {
  new_inv : table_inv t;
  new_bucket : m_buckets t !! i = Some b;
  new_placed : placed (m_id t) (length (m_buckets t)) i (key e);
  new_id : nid e ∉ (table_keys (m_buckets t)).*1;
  new_ip : addr e ∉ m_ips t
}.

(** The IPs after [n] has left bucket [i]. *)
Lemma erase_ips t i b n common :
  table_inv t -> m_buckets t !! i = Some b -> bucket_keys b ≡ₚ key n :: common ->
  ips_erase (addr n) (m_ips t) ≡ₚ (common ++ other_keys (m_buckets t) i).*2.
Proof.
  intros Hinv Hi Hb. destruct (inv_keys t i b Hinv Hi) as (_ & H2 & H3 & _).
  rewrite Hb in H2, H3. cbn in H2, H3. by apply ips_erase_perm.
Qed.

Lemma replace_inv t i b b' n e common :
  new_node t i b e -> bucket_keys b ≡ₚ key n :: common -> bucket_keys b' ≡ₚ key e :: common ->
  bounded (m_bucket_size t) b' ->
  table_inv (set_ips (ips_insert (addr e) (ips_erase (addr n) (m_ips t)))
               (set_buckets (<[i := b']> (m_buckets t)) t)).
Proof.
  intros [Hinv Hi Hpl Hid Hip] Hk Hk' Hbd.
  apply (inv_add t i b b' e [key n] common); try done.
  unfold ips_insert. f_equiv. by apply (erase_ips t i b).
Qed.

Lemma insert_inv t i b b' e :
  new_node t i b e -> bucket_keys b' ≡ₚ key e :: bucket_keys b -> bounded (m_bucket_size t) b' ->
  table_inv (set_ips (ips_insert (addr e) (m_ips t)) (set_buckets (<[i := b']> (m_buckets t)) t)).
Proof.
  intros [Hinv Hi Hpl Hid Hip] Hk' Hbd. apply (inv_add t i b b' e [] (bucket_keys b)); try done.
  unfold ips_insert. f_equiv. by apply inv_keys.
Qed.

Lemma replace_live_inv t i b j n e :
  new_node t i b e -> live_nodes b !! j = Some n -> table_inv (replace_live t i j n e).
Proof.
  intros Hnew Hj. pose proof (new_inv _ _ _ _ Hnew) as Hinv. pose proof (new_bucket _ _ _ _ Hnew) as Hi.
  destruct (bounded_bucket t i b Hinv Hi) as [Hb1 Hb2].
  unfold replace_live. rewrite (alter_insert _ _ b) by done.
  apply (replace_inv t i b _ n e ((key <$> delete j (live_nodes b)) ++ (key <$> replacements b))); [done|..].
  - rewrite bucket_keys_eq. by rewrite (delete_keys _ _ _ Hj).
  - rewrite bucket_keys_eq. cbn. rewrite fmap_app. cbn. apply snoc_app_perm.
  - apply lookup_lt_Some in Hj as Hlt. split; cbn; [|done].
    rewrite length_app, length_delete by (by eexists). cbn. lia.
Qed.

Lemma add_replacement_inv t i b e :
  new_node t i b e -> find_if (same_id (nid e)) (replacements b) = None ->
  table_inv (add_replacement t i (replacements b) e).
Proof.
  intros Hnew Hnone. pose proof (new_inv _ _ _ _ Hnew) as Hinv. pose proof (new_bucket _ _ _ _ Hnew) as Hi.
  destruct (bounded_bucket t i b Hinv Hi) as [Hb1 Hb2]. pose proof (inv_size _ Hinv) as Hk.
  unfold add_replacement. rewrite Hnone.
  destruct (Nat.leb_spec (m_bucket_size t) (length (replacements b))) as [Hfull|Hroom].
  - set (jn := match find_if _ _ with Some _ => _ | None => _ end). destruct jn as [j n] eqn:Ej.
    assert (replacements b !! j = Some n) as Hj.
    { subst jn. revert Ej. destruct (find_if (fun n => negb (pinged n)) (replacements b)) as [[j' n']|] eqn:Ef.
      - intros [= <- <-]. by apply find_if_Some in Ef as [? _].
      - destruct (replacements b) as [|r rb]; [cbn in Hfull; lia|]. by intros [= <- <-]. }
    rewrite (alter_insert _ _ b) by done.
    apply (replace_inv t i b _ n e ((key <$> live_nodes b) ++ (key <$> delete j (replacements b)))); [done|..].
    + rewrite bucket_keys_eq. rewrite (delete_keys _ _ _ Hj). by rewrite Permutation_middle.
    + rewrite bucket_keys_eq. cbn. rewrite fmap_app. cbn. rewrite app_assoc. by rewrite <- Permutation_cons_append.
    + apply lookup_lt_Some in Hj as Hlt. split; cbn; [done|].
      rewrite length_app, length_delete by (by eexists). cbn. lia.
  - rewrite (alter_insert _ _ b) by done. apply (insert_inv t i b); [done|..].
    + rewrite !bucket_keys_eq. cbn. rewrite fmap_app. cbn. rewrite app_assoc. by rewrite <- Permutation_cons_append.
    + split; cbn; [done|]. rewrite length_app. cbn. lia.
Qed.

Lemma add_live_inv t i b e :
  new_node t i b e -> (length (live_nodes b) < m_bucket_size t)%nat ->
  table_inv (set_ips (ips_insert (addr e) (m_ips t))
    (set_buckets (alter (fun b => set_live (live_nodes b ++ [e]) b) i (m_buckets t)) t)).
Proof.
  intros Hnew Hroom. pose proof (new_inv _ _ _ _ Hnew) as Hinv. pose proof (new_bucket _ _ _ _ Hnew) as Hi.
  destruct (bounded_bucket t i b Hinv Hi) as [Hb1 Hb2].
  rewrite (alter_insert _ _ b) by done. apply (insert_inv t i b); [done|..].
  - rewrite !bucket_keys_eq. cbn. rewrite fmap_app. cbn. apply snoc_app_perm.
  - split; cbn; [|done]. rewrite length_app. cbn. lia.
Qed.

(** ** Splitting the last bucket *)

Abbreviation stay own i := (fun j => stays own i j = true).
Abbreviation leave own i := (fun j => stays own i j = false).

Ltac split_side :=
  rewrite ?Forall_app, ?Forall_singleton, ?length_app; cbn [length]; first [done|lia|tauto].

Ltac move_front := repeat (progress cbn [app] || rewrite <- Permutation_middle); reflexivity.

Lemma split_repl_spec k own i rb b nb rb' nrb :
  Forall (stay own i) (b ++ rb') -> Forall (leave own i) (nb ++ nrb) ->
  (length b <= k)%nat -> (length nb <= k)%nat ->
  let '(b1, nb1, rb1, nrb1) := split_repl k own i rb b nb rb' nrb in
  (b1 ++ rb1) ++ (nb1 ++ nrb1) ≡ₚ rb ++ (b ++ rb') ++ (nb ++ nrb) /\
  Forall (stay own i) (b1 ++ rb1) /\ Forall (leave own i) (nb1 ++ nrb1) /\
  (length b1 <= k)%nat /\ (length nb1 <= k)%nat /\
  (length rb1 <= length rb' + length rb)%nat /\ (length nrb1 <= length nrb + length rb)%nat /\
  b ⊆ b1 /\ nb ⊆ nb1.
Proof.
  revert b nb rb' nrb. induction rb as [|j rb IH]; intros b nb rb' nrb Hs Hl Hb Hnb; cbn [split_repl].
  { split_and!; try done; cbn; lia. }
  rewrite Forall_app in Hs, Hl. destruct Hs as [Hs1 Hs2], Hl as [Hl1 Hl2].
  destruct (stays own i j) eqn:Ej.
  - destruct (Nat.leb_spec k (length b)).
    + specialize (IH b nb (rb' ++ [j]) nrb ltac:(split_side) ltac:(split_side) ltac:(split_side) ltac:(split_side)).
      destruct (split_repl _ _ _ _ _ _ _ _) as [[[b1 nb1] rb1] nrb1].
      destruct IH as (H1 & H2 & H3 & H4 & H5 & H6 & H7 & H8 & H9).
      rewrite length_app in H6. cbn [length] in *. split_and!; try done; try lia.
      rewrite H1, <- (Permutation_cons_append rb' j). move_front.
    + specialize (IH (b ++ [j]) nb rb' nrb ltac:(split_side) ltac:(split_side) ltac:(split_side) ltac:(split_side)).
      destruct (split_repl _ _ _ _ _ _ _ _) as [[[b1 nb1] rb1] nrb1].
      destruct IH as (H1 & H2 & H3 & H4 & H5 & H6 & H7 & H8 & H9).
      cbn [length] in *. split_and!; try done; try lia.
      * rewrite H1, <- (Permutation_cons_append b j). move_front.
      * intros x Hx. apply H8. by apply elem_of_app; left.
  - destruct (Nat.ltb_spec (length nb) k).
    + specialize (IH b (nb ++ [j]) rb' nrb ltac:(split_side) ltac:(split_side) ltac:(split_side) ltac:(split_side)).
      destruct (split_repl _ _ _ _ _ _ _ _) as [[[b1 nb1] rb1] nrb1].
      destruct IH as (H1 & H2 & H3 & H4 & H5 & H6 & H7 & H8 & H9).
      cbn [length] in *. split_and!; try done; try lia.
      * rewrite H1, <- (Permutation_cons_append nb j). move_front.
      * intros x Hx. apply H9. by apply elem_of_app; left.
    + specialize (IH b nb rb' (nrb ++ [j]) ltac:(split_side) ltac:(split_side) ltac:(split_side) ltac:(split_side)).
      destruct (split_repl _ _ _ _ _ _ _ _) as [[[b1 nb1] rb1] nrb1].
      destruct IH as (H1 & H2 & H3 & H4 & H5 & H6 & H7 & H8 & H9).
      rewrite length_app in H7. cbn [length] in *. split_and!; try done; try lia.
      rewrite H1, <- (Permutation_cons_append nrb j). move_front.
Qed.

(** Places in a table with one more bucket. *)
Lemma placed_more own n i x :
  hash_wf own -> (i < n - 1)%nat -> placed own n i x -> placed own (S n) i x.
Proof.
  intros Ho Hi (Hw & Hne & Hb). split_and!; try done.
  pose proof (distance_exp_range own (fst x) Ho Hw). unfold bucket_index, kad_total_bits in *. lia.
Qed.

Lemma placed_split own n e :
  hash_wf own -> (0 < n)%nat -> placed own n (n - 1) (key e) ->
  placed own (S n) (if stays own (n - 1) e then n - 1 else n) (key e).
Proof.
  intros Ho Hn (Hw & Hne & Hb). split_and!; try done. cbn [fst key] in *.
  pose proof (distance_exp_range own (nid e) Ho Hw). unfold stays.
  destruct (Z.leb_spec (kad_total_bits - 1 - Z.of_nat (n - 1)) (distance_exp own (nid e)));
    unfold bucket_index, kad_total_bits in *; lia.
Qed.

(** The two halves of the last bucket replace it. *)
Lemma inv_split t i b b1 b2 ips' add :
  table_inv t -> m_buckets t !! i = Some b -> S i = length (m_buckets t) ->
  Z.of_nat (length (m_buckets t)) < kad_total_bits ->
  bucket_keys b1 ++ bucket_keys b2 ≡ₚ add ++ bucket_keys b ->
  bounded (m_bucket_size t) b1 -> bounded (m_bucket_size t) b2 ->
  Forall (placed (m_id t) (S (length (m_buckets t))) i) (bucket_keys b1) ->
  Forall (placed (m_id t) (S (length (m_buckets t))) (S i)) (bucket_keys b2) ->
  NoDup ((add ++ table_keys (m_buckets t)).*1) -> NoDup ((add ++ table_keys (m_buckets t)).*2) ->
  ips' ≡ₚ (add ++ table_keys (m_buckets t)).*2 ->
  table_inv (set_ips ips' (set_buckets (<[i := b1]> (m_buckets t) ++ [b2]) t)).
Proof.
  intros Hinv Hi Hlast Hmax Hk Hb1 Hb2 Hp1 Hp2 Hids Haddrs Hips. pose proof (inv_own _ Hinv) as Ho.
  assert (table_keys (<[i := b1]> (m_buckets t) ++ [b2]) ≡ₚ add ++ table_keys (m_buckets t)) as Hkeys.
  { unfold table_keys at 1. rewrite bind_app. cbn. rewrite app_nil_r.
    change (<[i := b1]> (m_buckets t) ≫= bucket_keys) with (table_keys (<[i := b1]> (m_buckets t))).
    rewrite (table_keys_insert _ i b), (table_keys_split _ i b) by done.
    rewrite <- app_assoc, (Permutation_app_comm (other_keys _ _)), app_assoc, Hk. by rewrite <- app_assoc. }
  destruct Hinv. split; cbn [m_bucket_size m_settings m_buckets m_id m_ips set_ips set_buckets]; try done.
  - rewrite length_app, length_insert. cbn. lia.
  - apply Forall_app. split; [by apply Forall_insert|by apply Forall_singleton].
  - intros j c Hj. rewrite length_app, length_insert. cbn [length]. rewrite Nat.add_1_r.
    destruct (decide (j = i)) as [->|Hne].
    { rewrite lookup_app_l, list_lookup_insert_eq in Hj by (rewrite ?length_insert; lia). by injection Hj as <-. }
    destruct (decide (j = S i)) as [->|Hne2].
    { rewrite lookup_app_r in Hj by (rewrite length_insert; lia).
      rewrite length_insert, Hlast, Nat.sub_diag in Hj. injection Hj as <-. done. }
    assert (j < i)%nat.
    { apply lookup_lt_Some in Hj. rewrite length_app, length_insert in Hj. cbn in Hj. lia. }
    rewrite lookup_app_l, list_lookup_insert_ne in Hj by (rewrite ?length_insert; lia).
    eapply Forall_impl; [by apply inv_placed0|]. intros x. apply placed_more; [done|lia].
  - by rewrite Hkeys.
  - by rewrite Hkeys.
  - by rewrite Hkeys.
Qed.

(** The loops over the live nodes and the replacements, together. *)
Lemma split_parts t i b :
  table_inv t -> m_buckets t !! i = Some b ->
  let '(b1, nb1, rb1, nrb1) :=
    split_repl (m_bucket_size t) (m_id t) i (replacements b) (filter (fun j => stays (m_id t) i j) (live_nodes b))
      (filter (fun j => ~ stays (m_id t) i j) (live_nodes b)) [] [] in
  (b1 ++ rb1) ++ (nb1 ++ nrb1) ≡ₚ bucket_entries b /\
  Forall (stay (m_id t) i) (b1 ++ rb1) /\ Forall (leave (m_id t) i) (nb1 ++ nrb1) /\
  bounded (m_bucket_size t) (Bucket rb1 b1 0) /\ bounded (m_bucket_size t) (Bucket nrb1 nb1 0) /\
  live_nodes b ⊆ b1 ++ nb1.
Proof.
  intros Hinv Hi. destruct (bounded_bucket t i b Hinv Hi) as [Hb1 Hb2].
  set (l1 := filter (fun j => stays (m_id t) i j) (live_nodes b)).
  set (l2 := filter (fun j => ~ stays (m_id t) i j) (live_nodes b)).
  assert (l1 ++ l2 ≡ₚ live_nodes b) as Hp by apply filter_app_complement.
  assert (length l1 + length l2 = length (live_nodes b))%nat as Hlen by (rewrite <- Hp, length_app; done).
  assert (Forall (stay (m_id t) i) l1) as Hs.
  { apply Forall_forall. intros x [Hx _]%list_elem_of_filter. by destruct (stays _ _ x). }
  assert (Forall (leave (m_id t) i) l2) as Hl.
  { apply Forall_forall. intros x [Hx _]%list_elem_of_filter. by destruct (stays _ _ x). }
  pose proof (split_repl_spec (m_bucket_size t) (m_id t) i (replacements b) l1 l2 [] []) as H.
  rewrite !app_nil_r in H. specialize (H Hs Hl ltac:(lia) ltac:(lia)).
  destruct (split_repl _ _ _ _ _ _ _ _) as [[[b1 nb1] rb1] nrb1].
  destruct H as (H1 & H2 & H3 & H4 & H5 & H6 & H7 & H8 & H9). cbn [length] in *.
  split_and!; try done.
  - rewrite H1, Hp. unfold bucket_entries. apply Permutation_app_comm.
  - split; cbn; lia.
  - split; cbn; lia.
  - intros x Hx. rewrite <- Hp in Hx. apply elem_of_app in Hx. apply elem_of_app.
    destruct Hx as [Hx|Hx]; [left; by apply H8|right; by apply H9].
Qed.

Lemma split_inv t i b b1 b2 add ips' :
  table_inv t -> m_buckets t !! i = Some b -> S i = length (m_buckets t) ->
  Z.of_nat (length (m_buckets t)) < kad_total_bits ->
  bucket_entries b1 ++ bucket_entries b2 ≡ₚ add ++ bucket_entries b ->
  bounded (m_bucket_size t) b1 -> bounded (m_bucket_size t) b2 ->
  Forall (stay (m_id t) i) (bucket_entries b1) -> Forall (leave (m_id t) i) (bucket_entries b2) ->
  (add = [] /\ ips' = m_ips t \/ exists e, add = [e] /\ new_node t i b e /\ ips' = ips_insert (addr e) (m_ips t)) ->
  table_inv (set_ips ips' (set_buckets (<[i := b1]> (m_buckets t) ++ [b2]) t)).
Proof.
  intros Hinv Hi Hlast Hmax Hk Hb1 Hb2 Hs Hl Hadd. pose proof (inv_own _ Hinv) as Ho.
  pose proof (inv_placed _ Hinv i b Hi) as Hpl.
  assert (Forall (fun e => placed (m_id t) (S i) (S i - 1) (key e)) (bucket_entries b1 ++ bucket_entries b2)) as Hp.
  { rewrite Hk. apply Forall_app. replace (S i - 1)%nat with i by lia. rewrite Hlast. split.
    - destruct Hadd as [[-> _]|(e & -> & Hnew & _)]; [apply Forall_nil_2|]. apply Forall_singleton, Hnew.
    - unfold bucket_keys in Hpl. by rewrite Forall_fmap in Hpl. }
  apply Forall_app in Hp as [Hp1 Hp2]. rewrite Forall_forall in Hp1, Hp2, Hs, Hl.
  apply (inv_split t i b b1 b2 ips' (key <$> add)); try done.
  - unfold bucket_keys. rewrite <- !fmap_app. by rewrite Hk.
  - unfold bucket_keys. apply Forall_fmap, Forall_forall. intros e He.
    pose proof (placed_split (m_id t) (S i) e Ho ltac:(lia) (Hp1 e He)) as H.
    replace (S i - 1)%nat with i in H by lia. rewrite (Hs e He) in H. by rewrite <- Hlast.
  - unfold bucket_keys. apply Forall_fmap, Forall_forall. intros e He.
    pose proof (placed_split (m_id t) (S i) e Ho ltac:(lia) (Hp2 e He)) as H.
    replace (S i - 1)%nat with i in H by lia. rewrite (Hl e He) in H. by rewrite <- Hlast.
  - destruct Hadd as [[-> _]|(e & -> & [] & _)]; [apply Hinv|]. cbn. apply NoDup_cons. split; [done|apply Hinv].
  - destruct Hadd as [[-> _]|(e & -> & [] & _)]; [apply Hinv|]. cbn. apply NoDup_cons.
    split; [|apply Hinv]. by rewrite <- (inv_ips _ Hinv).
  - destruct Hadd as [[-> ->]|(e & -> & [] & ->)]; [apply Hinv|]. cbn. unfold ips_insert. f_equiv. apply Hinv.
Qed.

Ltac split_goal H1 :=
  unfold bucket_entries; cbn [live_nodes replacements];
  first [split; cbn [live_nodes replacements]; rewrite ?length_app; cbn [length]; lia
        |rewrite ?Forall_app, ?Forall_singleton; tauto
        |rewrite <- H1, <- ?Permutation_cons_append; move_front].

Lemma split_bucket_inv t i b e :
  new_node t i b e -> S i = length (m_buckets t) -> Z.of_nat (length (m_buckets t)) < kad_total_bits ->
  table_inv (split_bucket min_time t i (live_nodes b) (replacements b) (last_active b) e).
Proof.
  intros Hnew Hlast Hmax. pose proof (new_inv _ _ _ _ Hnew) as Hinv. pose proof (new_bucket _ _ _ _ Hnew) as Hi.
  unfold split_bucket. cbv zeta. pose proof (split_parts t i b Hinv Hi) as H.
  destruct (split_repl _ _ _ _ _ _ _ _) as [[[b1 nb1] rb1] nrb1].
  destruct H as (H1 & H2 & H3 & [H4 H5] & [H6 H7] & _). cbn in H4, H5, H6, H7.
  apply Forall_app in H2 as [H2 H2']. apply Forall_app in H3 as [H3 H3'].
  unfold bucket_entries in H1.
  destruct (stays (m_id t) i e) eqn:Es; [destruct (Nat.ltb_spec (length b1) (m_bucket_size t));
    [|destruct (Nat.ltb_spec (length rb1) (m_bucket_size t))]
    |destruct (Nat.ltb_spec (length nb1) (m_bucket_size t));
    [|destruct (Nat.ltb_spec (length nrb1) (m_bucket_size t))]];
    cbn [fst snd];
    first [apply (split_inv t i b _ _ [e]); try done; [..|right; by exists e]
          |apply (split_inv t i b _ _ []); try done; [..|by left]]; split_goal H1.
Qed.

(** ** The operations keep the invariant *)

Lemma add_full_inv t i b e :
  new_node t i b e -> find_if (same_id (nid e)) (replacements b) = None ->
  table_inv (add_full min_time t i b e).
Proof.
  intros Hnew Hnone. unfold add_full.
  destruct (pinged e && (fail_count e =? 0)); [|by apply add_replacement_inv].
  assert (table_inv
    (if (S i =? length (m_buckets t))%nat && (Z.of_nat (length (m_buckets t)) <? kad_total_bits)
     then split_bucket min_time t i (live_nodes b) (replacements b) (last_active b) e
     else add_replacement t i (replacements b) e)) as Hrest.
  { destruct (_ && _) eqn:Ec; [|by apply add_replacement_inv].
    apply andb_prop in Ec as [Hl Hm]. apply Nat.eqb_eq in Hl. apply Z.ltb_lt in Hm. by apply split_bucket_inv. }
  destruct (find_if (fun n => negb (pinged n)) (live_nodes b)) as [[j n]|] eqn:Ef.
  - apply find_if_Some in Ef as [Hj _]. by apply (replace_live_inv t i b).
  - destruct (max_element (live_nodes b)) as [[j n]|] eqn:Em; [|done].
    destruct (0 <? fail_count n); [|done]. apply max_element_Some in Em. by apply (replace_live_inv t i b).
Qed.

Lemma add_to_bucket_inv t e :
  table_inv t -> hash_wf (nid e) -> nid e <> m_id t -> addr e ∉ m_ips t ->
  table_inv (add_to_bucket min_time t e).
Proof.
  intros Hinv0 Hid Hne0 Hip0. unfold add_to_bucket. pose proof (find_bucket_lookup t (nid e) Hinv0 Hid) as H.
  destruct (find_bucket min_time t (nid e)) as [t' i]. destruct H as (Hinv & Hidx & -> & b & Hb). rewrite Hb.
  destruct (first_bucket_fields t) as (_ & _ & Hown & Hips & _ & _).
  set (t' := with_first_bucket min_time t) in *. rewrite <- Hown in Hne0. rewrite <- Hips in Hip0.
  destruct (find_if (same_id (nid e)) (live_nodes b)) as [[j n]|] eqn:El.
  { case_decide; [done|]. rewrite (alter_insert _ _ b _ Hb).
    destruct (bounded_bucket t' i b Hinv Hb) as [Hb1 Hb2]. apply (inv_same_keys t' i b); [done..| |].
    - rewrite !bucket_keys_eq. cbn. by rewrite key_alter.
    - split; cbn; rewrite ?length_alter; done. }
  destruct (find_if (same_id (nid e)) (replacements b)) as [jn|] eqn:Er.
  { by rewrite bool_decide_eq_true_2. }
  rewrite bool_decide_eq_false_2 by (by intros [? ?]).
  destruct (_ && _); [done|].
  assert (new_node t' i b e) as Hnew.
  { split; try done. by apply (fresh_id t' i b). }
  destruct (Nat.ltb_spec (length (live_nodes b)) (m_bucket_size t')); [by apply (add_live_inv t' i b)|].
  by apply add_full_inv.
Qed.

Lemma need_bootstrap_inv now t : table_inv t -> table_inv (snd (need_bootstrap now t)).
Proof. intros Hinv. unfold need_bootstrap. repeat case_match; cbn; try done. destruct Hinv; by split. Qed.

Lemma add_node_inv now t e : table_inv t -> hash_wf (nid e) -> table_inv (snd (add_node min_time now t e)).
Proof.
  intros Hinv0 Hid. unfold add_node. case_decide; [done|].
  pose proof (need_bootstrap_inv now t Hinv0) as Hinv.
  destruct (need_bootstrap now t) as [ret t']. cbn in Hinv. case_decide as Hne; [done|].
  pose proof (add_known_ip_inv t' e Hinv) as Hk. destruct (add_known_ip t' e) as [t1|t1]; cbn; [done|].
  destruct Hk as (H1 & H2 & H3). apply add_to_bucket_inv; congruence || done.
Qed.

Lemma touch_bucket_inv now t id : table_inv t -> hash_wf id -> table_inv (touch_bucket min_time now t id).
Proof.
  intros Hinv0 Hid. unfold touch_bucket. pose proof (find_bucket_lookup t id Hinv0 Hid) as H.
  destruct (find_bucket min_time t id) as [t' i]. destruct H as (Hinv & _ & _ & b & Hb).
  rewrite (alter_insert _ _ b _ Hb). apply (inv_same_keys t' i b); [done..|]. by apply (bounded_bucket t' i b).
Qed.

Lemma node_failed_inv t id x : table_inv t -> hash_wf id -> table_inv (node_failed min_time t id x).
Proof.
  intros Hinv0 Hid. unfold node_failed. case_decide; [done|]. pose proof (find_bucket_lookup t id Hinv0 Hid) as H'.
  destruct (find_bucket min_time t id) as [t' i]. destruct H' as (Hinv & _ & _ & b & Hb). rewrite Hb.
  destruct (find_if (same_id id) (live_nodes b)) as [[j n]|] eqn:El; [|done].
  apply find_if_Some in El as [Hj _]. pose proof (lookup_lt_Some _ _ _ Hj) as Hlt. case_decide; [done|].
  destruct (bounded_bucket t' i b Hinv Hb) as [Hb1 Hb2].
  destruct (replacements b) as [|r0 rs] eqn:Er.
  - case_match.
    + rewrite (alter_insert _ _ b _ Hb). apply (inv_remove t' i b _ n (key <$> delete j (live_nodes b))); try done.
      * rewrite bucket_keys_eq, Er. cbn. rewrite app_nil_r. by apply delete_keys.
      * rewrite bucket_keys_eq. cbn. by rewrite Er, app_nil_r.
      * split; cbn; [rewrite length_delete by (by eexists); lia|rewrite Er; cbn; lia].
    + rewrite (alter_insert _ _ b _ Hb). apply (inv_same_keys t' i b); [done..| |].
      * rewrite !bucket_keys_eq. cbn. f_equal. rewrite list_fmap_insert, list_insert_id; [done|].
        rewrite list_lookup_fmap, Hj. unfold timed_out_entry. cbn. by destruct (pinged n).
      * split; cbn; [by rewrite length_insert|rewrite Er; cbn; lia].
  - set (kr := match find_if _ _ with Some _ => _ | None => _ end). destruct kr as [k r] eqn:Ek.
    assert (replacements b !! k = Some r) as Hr.
    { rewrite Er. subst kr. destruct (find_if pinged (r0 :: rs)) as [[k' r']|] eqn:Ef; injection Ek as <- <-; [|done].
      by apply find_if_Some in Ef as [? _]. }
    rewrite (alter_insert _ _ b _ Hb).
    apply (inv_remove t' i b _ n ((key <$> delete j (live_nodes b)) ++ (key <$> replacements b))); try done.
    + rewrite bucket_keys_eq. by rewrite (delete_keys j _ n).
    + rewrite bucket_keys_eq. cbn [live_nodes replacements]. rewrite fmap_app, (delete_keys k (replacements b) r Hr).
      rewrite <- app_assoc. done.
    + split; cbn [live_nodes replacements].
      * rewrite length_app, length_delete by (by eexists). cbn. lia.
      * rewrite length_delete by (by eexists). rewrite Er in *. lia.
Qed.

Lemma need_refresh_inv now r t : table_inv t -> table_inv (snd (need_refresh now r t)).
Proof. intros Hinv. unfold need_refresh. repeat case_match; cbn; try done; destruct Hinv; by split. Qed.

Lemma find_node_table t target inc count :
  fst (find_node min_time t target inc count) = with_first_bucket min_time t.
Proof. done. Qed.

(** ** Reachable tables *)

Inductive table_step (t : routing_table) : routing_table -> Prop :=
| step_heard now id x : hash_wf id -> table_step t (heard_about min_time now t id x)
| step_seen now id x : hash_wf id -> table_step t (snd (node_seen min_time now t id x))
| step_failed id x : hash_wf id -> table_step t (node_failed min_time t id x)
| step_touch now id : hash_wf id -> table_step t (touch_bucket min_time now t id)
| step_find target inc count : hash_wf target -> table_step t (fst (find_node min_time t target inc count))
| step_refresh now r : table_step t (snd (need_refresh now r t))
| step_bootstrap now : table_step t (snd (need_bootstrap now t))
| step_router x : table_step t (add_router_node t x).

Definition reachable (id : node_id) (k : nat) (max_fail : Z) : routing_table -> Prop :=
  rtc table_step (routing_table_new min_time id k (Settings true max_fail)).

Lemma new_table_inv id k max_fail :
  hash_wf id -> (0 < k)%nat -> table_inv (routing_table_new min_time id k (Settings true max_fail)).
Proof. intros Hid Hk. split; cbn; try done; apply NoDup_nil_2. Qed.

Lemma table_step_inv t t' : table_inv t -> table_step t t' -> table_inv t'.
Proof.
  intros Hinv [].
  - by apply add_node_inv.
  - by apply add_node_inv.
  - by apply node_failed_inv.
  - by apply touch_bucket_inv.
  - by apply inv_first_bucket.
  - by apply need_refresh_inv.
  - by apply need_bootstrap_inv.
  - unfold add_router_node. case_decide; [done|]. destruct Hinv; by split.
Qed.

(** C4: every table reached from the empty one by any sequence of operations,
    with the protection against duplicate IPs on, is well formed: no more
    buckets than bits, buckets and replacement caches within their size, each
    node (other than ourselves) in the bucket its distance selects, no
    identifier and no IP twice in the whole table, and [m_ips] holding exactly
    the IPs of the nodes. *)
Theorem reachable_invariant id k max_fail t :
  hash_wf id -> (0 < k)%nat -> reachable id k max_fail t -> table_inv t.
Proof.
  intros Hid Hk Hr. pose proof (new_table_inv id k max_fail Hid Hk) as H0. unfold reachable in Hr.
  induction Hr as [t|t t' t'' Hstep _ IH]; [done|]. apply IH. by apply (table_step_inv t).
Qed.
End Operations.

(** A table with one node in it. *)
Lemma reachable_invariant_witness :
  exists t, reachable 0 (Hash (replicate 16 (z2b 0))) 8 20 t /\ length (m_ips t) = 1%nat /\ table_inv t.
Proof.
  set (t0 := routing_table_new 0 (Hash (replicate 16 (z2b 0))) 8 (Settings true 20)).
  assert (hash_wf hash_max) as Hmax by done.
  exists (snd (node_seen 0 0 t0 hash_max (z2b <$> [1; 2; 3; 4], 4672))).
  assert (reachable 0 (Hash (replicate 16 (z2b 0))) 8 20 (snd (node_seen 0 0 t0 hash_max (z2b <$> [1; 2; 3; 4], 4672))))
    as Hr by (apply rtc_once; by constructor).
  split_and!; [done|by vm_compute|]. apply (reachable_invariant 0 (Hash (replicate 16 (z2b 0))) 8 20); [done|lia|done].
Defined.
