(* ===== verification/RoutingTableProps.v ===== *)
(** * What the routing table promises

    On top of the invariant of RoutingTableInv: confirmed nodes are not
    displaced, searches return the nodes they should in the order they should,
    refresh targets fall into their bucket; and what [bucket_size] and the set
    of IPs do not deliver. *)

From S2P Require Import Prelude Archive Md4Hash Bitfield KadId RoutingTable RoutingTableInv.
From stdpp Require Import list relations.
Open Scope Z_scope.

(** ** Bits of an identifier, counted from the most significant one *)

Definition id_bit (h : node_id) (i : nat) : bool := get_bit (BF (m_hash h) 0 false) i.

Lemma be_value_testbit l i :
  (i < 8 * length l)%nat ->
  Z.testbit (be_value l) (8 * Z.of_nat (length l) - 1 - Z.of_nat i) = get_bit (BF l 0 false) i.
Proof.
  revert i. induction l as [|b l IH]; intros i Hi; [cbn in Hi; lia|].
  rewrite be_value_cons, Z_testbit_split by first [apply be_value_range|cbn [length] in *; lia].
  rewrite get_bit_tb. cbn [m_bytes]. unfold byte_at.
  pose proof (Nat.div_mod i 8 ltac:(done)) as Hd. pose proof (Nat.mod_upper_bound i 8 ltac:(done)) as Hm.
  destruct (i / 8)%nat as [|q] eqn:Eq; cbn [length] in *.
  - cbn [lookup list_lookup default from_option id].
    destruct (Z.ltb_spec (8 * Z.of_nat (S (length l)) - 1 - Z.of_nat i) (8 * Z.of_nat (length l))); [lia|].
    unfold tb. f_equal. lia.
  - cbn [lookup list_lookup].
    destruct (Z.ltb_spec (8 * Z.of_nat (S (length l)) - 1 - Z.of_nat i) (8 * Z.of_nat (length l))); [|lia].
    replace (8 * Z.of_nat (S (length l)) - 1 - Z.of_nat i) with (8 * Z.of_nat (length l) - 1 - Z.of_nat (i - 8)) by lia.
    rewrite IH by lia. rewrite get_bit_tb. cbn [m_bytes]. unfold byte_at.
    replace ((i - 8) / 8)%nat with q by (apply (Nat.div_unique _ _ _ (i mod 8)); lia).
    replace ((i - 8) mod 8)%nat with (i mod 8)%nat; [done|].
    apply (Nat.mod_unique _ _ q); lia.
Qed.

Lemma log2_top_bit v k :
  0 <= v -> 0 <= k -> Z.testbit v k = true -> (forall j, k < j -> Z.testbit v j = false) -> Z.log2 v = k.
Proof.
  intros Hv Hk Ht Hz. destruct (Z.lt_trichotomy (Z.log2 v) k) as [H|[H|H]]; [|done|].
  - rewrite Z.bits_above_log2 in Ht by done. done.
  - assert (0 < v) by (destruct (Z.eq_dec v 0) as [->|]; [by rewrite Z.bits_0 in Ht|lia]).
    pose proof (Z.bit_log2 v ltac:(done)) as Hb. by rewrite Hz in Hb.
Qed.

(** The distance of identifiers that first differ at bit [i]. *)
Lemma distance_exp_first_bit n1 n2 i :
  hash_wf n1 -> hash_wf n2 -> (i < 128)%nat ->
  (forall j, (j < i)%nat -> id_bit n1 j = id_bit n2 j) -> id_bit n1 i <> id_bit n2 i ->
  distance_exp n1 n2 = 127 - Z.of_nat i.
Proof.
  intros H1 H2 Hi Heq Hne. rewrite distance_exp_log2 by done.
  unfold hash_wf, MD4_DIGEST_LENGTH in H1, H2.
  assert (forall n j, length (m_hash n) = 16%nat -> (j < 128)%nat ->
    Z.testbit (value n) (127 - Z.of_nat j) = id_bit n j) as Hbit.
  { intros n j Hn Hj. unfold value, id_bit. rewrite <- be_value_testbit by (rewrite Hn; lia). by rewrite Hn. }
  pose proof (be_value_range (m_hash n1)) as R1. pose proof (be_value_range (m_hash n2)) as R2.
  rewrite H1 in R1. rewrite H2 in R2. change (8 * Z.of_nat 16) with 128 in *.
  fold (value n1) in R1. fold (value n2) in R2.
  apply log2_top_bit; [apply Z.lxor_nonneg; lia|lia|..].
  - rewrite Z.lxor_spec, !Hbit by done. by destruct (id_bit n1 i), (id_bit n2 i).
  - intros j Hj. rewrite Z.lxor_spec. destruct (Z_lt_le_dec j 128).
    + replace j with (127 - Z.of_nat (Z.to_nat (127 - j))) by lia.
      rewrite !Hbit by (done || lia). rewrite Heq by lia. apply xorb_nilpotent.
    + by rewrite !(Z_testbit_above _ 128) by lia.
Qed.

Lemma get_bit_zip f l1 l2 (g : bool -> bool -> bool) i :
  (forall a b j, 0 <= j -> Z.testbit (f a b) j = g (Z.testbit a j) (Z.testbit b j)) ->
  length l1 = length l2 -> (i < 8 * length l1)%nat ->
  get_bit (BF (zip_with (fun a b => z2b (f (b2z a) (b2z b))) l1 l2) 0 false) i =
  g (get_bit (BF l1 0 false) i) (get_bit (BF l2 0 false) i).
Proof.
  intros Hf Hl Hi. rewrite !get_bit_tb. cbn [m_bytes]. unfold byte_at.
  pose proof (Nat.mod_upper_bound i 8 ltac:(done)) as Hm.
  assert (i / 8 < length l1)%nat as Hq by (by apply div8_lt).
  destruct (lookup_lt_is_Some_2 l1 _ Hq) as [a Ha]. rewrite Hl in Hq.
  destruct (lookup_lt_is_Some_2 l2 _ Hq) as [b Hb].
  rewrite lookup_zip_with, Ha, Hb. cbn [mbind option_bind fmap option_fmap option_map default from_option id].
  rewrite tb_z2b, Hf by lia. done.
Qed.

Lemma id_bit_and h n i : hash_wf h -> hash_wf n -> (i < 128)%nat -> id_bit (hash_and h n) i = id_bit h i && id_bit n i.
Proof.
  unfold hash_wf, MD4_DIGEST_LENGTH. intros H1 H2 Hi. unfold id_bit, hash_and. cbn [m_hash].
  apply (get_bit_zip Z.land); [intros; apply Z.land_spec|congruence|lia].
Qed.

Lemma id_bit_or h n i : hash_wf h -> hash_wf n -> (i < 128)%nat -> id_bit (hash_or h n) i = id_bit h i || id_bit n i.
Proof.
  unfold hash_wf, MD4_DIGEST_LENGTH. intros H1 H2 Hi. unfold id_bit, hash_or. cbn [m_hash].
  apply (get_bit_zip Z.lor); [intros; apply Z.lor_spec|congruence|lia].
Qed.

Lemma id_bit_not h i : hash_wf h -> (i < 128)%nat -> id_bit (hash_not h) i = negb (id_bit h i).
Proof.
  unfold hash_wf, MD4_DIGEST_LENGTH. intros H1 Hi. unfold id_bit, hash_not. cbn [m_hash].
  rewrite !get_bit_tb. cbn [m_bytes]. unfold byte_at.
  pose proof (Nat.mod_upper_bound i 8 ltac:(done)) as Hm.
  assert (i / 8 < length (m_hash h))%nat as Hq by (rewrite div8_lt; lia).
  destruct (lookup_lt_is_Some_2 _ _ Hq) as [a Ha].
  rewrite list_lookup_fmap, Ha. cbn [fmap option_fmap option_map default from_option id].
  rewrite tb_z2b by lia. unfold tb. apply Z.lnot_spec. lia.
Qed.

Lemma id_bit_update h q f i :
  hash_wf h -> (q < 16)%nat ->
  id_bit (Hash (update_byte (m_hash h) q f)) i =
  if decide (q = (i / 8)%nat) then Z.testbit (f (b2z (byte_at (m_hash h) q))) (7 - Z.of_nat (i mod 8)) else id_bit h i.
Proof.
  unfold hash_wf, MD4_DIGEST_LENGTH. intros H1 Hq. unfold id_bit. cbn [m_hash]. apply get_bit_update. lia.
Qed.

Lemma update_wf h q f : hash_wf h -> hash_wf (Hash (update_byte (m_hash h) q f)).
Proof. unfold hash_wf. cbn [m_hash]. by rewrite length_update_byte. Qed.

Lemma hash_and_wf h n : hash_wf h -> hash_wf n -> hash_wf (hash_and h n).
Proof. unfold hash_wf, hash_and. cbn [m_hash]. rewrite length_zip_with. lia. Qed.

Lemma hash_or_wf h n : hash_wf h -> hash_wf n -> hash_wf (hash_or h n).
Proof. unfold hash_wf, hash_or. cbn [m_hash]. rewrite length_zip_with. lia. Qed.

Lemma hash_not_wf h : hash_wf h -> hash_wf (hash_not h).
Proof. unfold hash_wf, hash_not. cbn [m_hash]. by rewrite length_fmap. Qed.

Create HintDb hash.
#[export] Hint Resolve hash_and_wf hash_or_wf hash_not_wf update_wf : hash.

Lemma mask_testbit i j :
  (i / 8 = j / 8)%nat -> Z.testbit (Bitfield.mask i) (7 - Z.of_nat (j mod 8)) = bool_decide (i = j).
Proof.
  intros E. pose proof (Nat.mod_upper_bound i 8). pose proof (Nat.mod_upper_bound j 8).
  unfold Bitfield.mask. rewrite mask_pow, Z.pow2_bits_eqb by lia. apply eq_true_iff_eq.
  rewrite Z.eqb_eq, bool_decide_eq_true. split; [intros; apply index_eq; [done|lia]|by intros ->].
Qed.

Lemma id_bit_byte h i : Z.testbit (b2z (byte_at (m_hash h) (i / 8)%nat)) (7 - Z.of_nat (i mod 8)) = id_bit h i.
Proof. apply testbit_byte_at. Qed.

Lemma refresh_mask_spec n :
  (n <= 128)%nat -> hash_wf (refresh_mask n) /\
  forall i, (i < 128)%nat -> id_bit (refresh_mask n) i = bool_decide (i < n)%nat.
Proof.
  induction n as [|n IH]; intros Hn; cbn [refresh_mask].
  - split; [done|]. intros i Hi. rewrite bool_decide_false by lia. unfold id_bit.
    assert (be_value (m_hash hash_clear) = 0) as Hz by done.
    rewrite <- be_value_testbit by (cbn; lia). by rewrite Hz, Z.bits_0.
  - destruct IH as [Hw IH]; [lia|]. split; [by apply update_wf|]. intros i Hi.
    rewrite id_bit_update by (done || by apply Nat.Div0.div_lt_upper_bound; lia).
    case_decide as E.
    + rewrite Z.lor_spec, mask_testbit, E, id_bit_byte, IH by done.
      apply eq_true_iff_eq. rewrite orb_true_iff, !bool_decide_eq_true. lia.
    + rewrite IH by done. apply bool_decide_ext. split; [lia|]. intros H.
      destruct (decide (i = n)) as [->|]; [done|lia].
Qed.

Lemma refresh_target_bits own r n :
  hash_wf own -> hash_wf r -> (0 < n <= 128)%nat ->
  hash_wf (refresh_target own r n) /\
  forall i, (i < n)%nat ->
    id_bit (refresh_target own r n) i = xorb (id_bit own i) (bool_decide (i = (n - 1)%nat)).
Proof.
  intros Ho Hr Hn. destruct (refresh_mask_spec n ltac:(lia)) as [Hmw Hm]. unfold refresh_target. cbv zeta.
  set (t0 := hash_or _ _).
  assert (hash_wf t0) as Hw0 by (subst t0; auto with hash).
  set (t1 := update_byte (m_hash t0) _ _).
  assert (hash_wf (Hash t1)) as Hw1 by (subst t1; by apply update_wf).
  change t1 with (m_hash (Hash t1)). split; [by apply update_wf|]. intros i Hi.
  assert ((n - 1) / 8 < 16)%nat by (apply Nat.Div0.div_lt_upper_bound; lia).
  assert (forall j, (j < n)%nat -> id_bit t0 j = id_bit own j) as H0.
  { intros j Hj. subst t0. rewrite id_bit_or, !id_bit_and, id_bit_not, Hm by (lia || auto with hash).
    rewrite bool_decide_true by done. cbn. by rewrite andb_false_r, andb_true_r. }
  rewrite id_bit_update by done. case_decide as E.
  - rewrite Z.lor_spec, Z.land_spec, Z.lnot_spec, mask_testbit by (done || pose proof (Nat.mod_upper_bound i 8); lia).
    rewrite E, !id_bit_byte. subst t1. rewrite id_bit_update by done. rewrite decide_True by done.
    rewrite Z.land_spec, Z.lnot_spec, mask_testbit by (done || pose proof (Nat.mod_upper_bound i 8); lia).
    rewrite E, id_bit_byte, H0 by done.
    rewrite (bool_decide_ext (n - 1 = i)%nat (i = n - 1)%nat) by lia.
    case_bool_decide; destruct (id_bit own i); done.
  - subst t1. rewrite id_bit_update by done. rewrite decide_False, H0 by done.
    rewrite bool_decide_false by (intros ->; done). by rewrite xorb_false_r.
Qed.

Lemma refresh_target_distance own r n :
  hash_wf own -> hash_wf r -> (0 < n <= 128)%nat ->
  distance_exp own (refresh_target own r n) = kad_total_bits - Z.of_nat n.
Proof.
  intros Ho Hr Hn. destruct (refresh_target_bits own r n Ho Hr Hn) as [Hw Hb].
  rewrite (distance_exp_first_bit _ _ (n - 1)); [unfold kad_total_bits; lia|done|done|lia|..].
  - intros j Hj. rewrite Hb, bool_decide_false by lia. by rewrite xorb_false_r.
  - rewrite Hb, bool_decide_true by lia. by destruct (id_bit own (n - 1)).
Qed.

Lemma min_element_from_spec bs i best :
  let r := min_element_from i best bs in
  (r = best \/ exists j b, r = (i + j, b)%nat /\ bs !! j = Some b) /\
  Forall (fun b => refresh_key (snd r) <= refresh_key b) (snd best :: bs).
Proof.
  revert i best. induction bs as [|b bs IH]; intros i best; cbn [min_element_from].
  { split; [by left|]. apply Forall_singleton. lia. }
  set (best' := if refresh_key b <? refresh_key (snd best) then (i, b) else best).
  destruct (IH (S i) best') as [H1 H2]. apply Forall_cons in H2 as [H2 H3].
  assert (refresh_key (snd best') <= refresh_key (snd best) /\ refresh_key (snd best') <= refresh_key b) as [Ha Hb].
  { subst best'. destruct (Z.ltb_spec (refresh_key b) (refresh_key (snd best))); cbn; lia. }
  split; [|repeat (apply Forall_cons_2; [lia|]); done].
  destruct H1 as [->|(j & b' & -> & Hj)].
  - subst best'. destruct (refresh_key b <? refresh_key (snd best)); [|by left].
    right. exists 0%nat, b. by rewrite Nat.add_0_r.
  - right. exists (S j), b'. split; [f_equal; lia|done].
Qed.

(** The target of a refresh is an identifier. *)
Lemma need_refresh_wf now r t target t' :
  table_inv t -> hash_wf r -> need_refresh now r t = (Some target, t') -> hash_wf target.
Proof.
  intros Hinv Hr. unfold need_refresh. destruct (_ <? _); [intros [= <- _]; apply (inv_own _ Hinv)|].
  destruct (m_buckets t) as [|b0 bs] eqn:Eb; [done|]. destruct (min_element_from_spec bs 1 (0%nat, b0)) as [H1 _].
  destruct (min_element_from 1 (0%nat, b0) bs) as [i b]. destruct (_ <? _); [done|]. destruct (_ <? _); [done|]. intros [= <- _].
  pose proof (inv_count _ Hinv) as Hc. rewrite Eb in Hc. unfold kad_total_bits in Hc.
  assert (i < length (b0 :: bs))%nat as Hi.
  { destruct H1 as [[= -> _]|(j & b' & [= -> _] & Hj)]; cbn; [lia|]. apply lookup_lt_Some in Hj. lia. }
  apply refresh_target_bits; [apply (inv_own _ Hinv)|done|lia].
Qed.

(** When [need_refresh] asks for the refresh of a bucket, it is the one that
    was active longest ago (five seconds credited per live node), inactive for
    at least 15 minutes, and the random target it returns falls into that very
    bucket: its distance exponent is [kad_total_bits - num_bits], as the
    assertion of the code says. *)
Theorem need_refresh_target now r t target t' :
  table_inv t -> hash_wf r -> need_refresh now r t = (Some target, t') ->
  (target = m_id t /\ minutes 15 < now - m_last_self_refresh t) \/
  exists i b, m_buckets t !! i = Some b /\
    Forall (fun b' => refresh_key b <= refresh_key b') (m_buckets t) /\
    minutes 15 <= now - last_active b /\ seconds 45 <= now - m_last_refresh t /\
    distance_exp (m_id t) target = kad_total_bits - Z.of_nat (S i) /\
    bucket_index (m_id t) (length (m_buckets t)) target = i.
Proof.
  intros Hinv Hr. unfold need_refresh. destruct (Z.ltb_spec (minutes 15) (now - m_last_self_refresh t)).
  { intros [= <- _]. by left. }
  destruct (m_buckets t) as [|b0 bs] eqn:Eb; [done|].
  destruct (min_element_from_spec bs 1 (0%nat, b0)) as [H1 H2].
  destruct (min_element_from 1 (0%nat, b0) bs) as [i b]. cbn [snd] in H2.
  destruct (Z.ltb_spec (now - last_active b) (minutes 15)); [done|].
  destruct (Z.ltb_spec (now - m_last_refresh t) (seconds 45)); [done|].
  intros [= <- _]. right. exists i, b. rewrite <- Eb in H2.
  assert (m_buckets t !! i = Some b) as Hi.
  { rewrite Eb. destruct H1 as [[= -> ->]|(j & b' & [= -> ->] & Hj)]; done. }
  apply lookup_lt_Some in Hi as Hlt. pose proof (inv_count _ Hinv) as Hc. unfold kad_total_bits in Hc.
  rewrite Eb in *. pose proof (inv_own _ Hinv) as Ho.
  rewrite refresh_target_distance by (done || lia). split_and!; try done.
  unfold bucket_index. rewrite refresh_target_distance by (done || lia). unfold kad_total_bits. lia.
Qed.

Definition sample_own : node_id := Hash (replicate 16 (z2b 0)).
(** An identifier with the given first byte. *)
Definition sample_id (b : Z) : node_id := Hash (z2b b :: replicate 15 (z2b 1)).
Definition sample_ep (b : Z) : endpoint := (z2b <$> [b; 0; 0; 1], 4672).

Lemma sample_id_wf b : hash_wf (sample_id b).
Proof. done. Qed.

(** A table (bucket size 2) that has seen three near nodes. *)
Definition sample_table : routing_table :=
  let t := routing_table_new 0 sample_own 2 (Settings true 20) in
  let t := snd (node_seen 0 0 t (sample_id 1) (sample_ep 1)) in
  let t := snd (node_seen 0 0 t (sample_id 2) (sample_ep 2)) in
  snd (node_seen 0 0 t (sample_id 3) (sample_ep 4)).

Lemma sample_table_reachable : reachable 0 sample_own 2 20 sample_table.
Proof.
  unfold reachable, sample_table. cbv zeta.
  eapply rtc_l; [apply step_seen, sample_id_wf|]. eapply rtc_l; [apply step_seen, sample_id_wf|].
  eapply rtc_l; [apply step_seen, sample_id_wf|]. apply rtc_refl.
Qed.

Lemma sample_table_inv : table_inv sample_table.
Proof.
  unfold sample_table. repeat apply add_node_inv; try apply sample_id_wf.
  apply new_table_inv; [done|lia].
Qed.

(** Long after its own refresh, bucket 1 is refreshed. *)
Lemma need_refresh_target_witness :
  let t := set_last_self_refresh (minutes 20) sample_table in
  let target := refresh_target sample_own (sample_id 255) 2 in
  table_inv t /\ fst (need_refresh (minutes 20) (sample_id 255) t) = Some target /\
  exists i, bucket_index sample_own 2 target = i /\ (i < 2)%nat.
Proof.
  cbv zeta. set (t := set_last_self_refresh (minutes 20) sample_table).
  assert (table_inv t) as Hinv by (destruct sample_table_inv; by split).
  split; [done|]. split; [by vm_compute|].
  assert (need_refresh (minutes 20) (sample_id 255) t =
    (Some (refresh_target sample_own (sample_id 255) 2), snd (need_refresh (minutes 20) (sample_id 255) t)))
    as Heq by (by vm_compute).
  destruct (need_refresh_target (minutes 20) (sample_id 255) t _ _ Hinv (sample_id_wf 255) Heq)
    as [[H _]|(i & b & Hi & _ & _ & _ & _ & H)]; [by vm_compute in H|].
  exists i. split; [exact H|]. apply lookup_lt_Some in Hi. by vm_compute in Hi.
Defined.

(** ** Live nodes *)

Definition live_of (t : routing_table) : list node_entry := m_buckets t ≫= live_nodes.

Lemma live_insert bs i b b' n :
  bs !! i = Some b -> n ∈ bs ≫= live_nodes -> (n ∈ live_nodes b -> n ∈ live_nodes b') ->
  n ∈ <[i := b']> bs ≫= live_nodes.
Proof.
  intros Hi (c & Hn & Hc)%list_elem_of_bind Hkeep. apply list_elem_of_bind.
  apply list_elem_of_lookup in Hc as [j Hj]. destruct (decide (i = j)) as [->|Hne].
  - exists b'. split; [apply Hkeep; congruence|]. apply list_elem_of_lookup. exists j.
    apply list_lookup_insert_eq. by eapply lookup_lt_Some.
  - exists c. split; [done|]. apply list_elem_of_lookup. exists j. by rewrite list_lookup_insert_ne.
Qed.

Lemma delete_keep (l : list node_entry) j x n : l !! j = Some x -> n ∈ l -> n <> x -> n ∈ delete j l.
Proof. intros Hj Hn Hne. rewrite (delete_Permutation l j x Hj) in Hn. by apply elem_of_cons in Hn as [?|?]. Qed.

Lemma confirmed_timeout n : confirmed n = true -> set_timeout 0 n = n.
Proof. destruct n as [a p c i]. unfold confirmed, set_timeout. cbn. intros ->%Z.eqb_eq. done. Qed.

Lemma confirmed_pinged n : confirmed n = true -> pinged n = true /\ fail_count n = 0.
Proof. unfold confirmed, fail_count, pinged. intros ->%Z.eqb_eq. done. Qed.

Lemma alter_timeout_keep (l : list node_entry) j n : confirmed n = true -> n ∈ l -> n ∈ alter (set_timeout 0) j l.
Proof.
  intros Hc [k Hk]%list_elem_of_lookup. apply list_elem_of_lookup. exists k.
  destruct (decide (k = j)) as [->|Hne]; [|by rewrite list_lookup_alter_ne].
  rewrite list_lookup_alter_eq, Hk. cbn. by rewrite confirmed_timeout.
Qed.

Lemma add_known_ip_live t e n :
  n ∈ live_of t -> confirmed n = true -> ~ (ep n = ep e /\ nid n <> nid e) ->
  match add_known_ip t e with inl t' => n ∈ live_of t' | inr t' => n ∈ live_of t' end.
Proof.
  intros Hn Hc Hne. unfold add_known_ip. destruct (_ <? _)%nat; [|done].
  destruct (pinged e); [|by destruct (restrict_routing_ips _)].
  destruct (find_node_ep t (ep e)) as [[pos x]|] eqn:Ef; [|by destruct (restrict_routing_ips _)].
  apply find_node_ep_Some in Ef as (Hep & b & Hb & Hx). unfold live_of in *. case_decide as Hid.
  - cbn [m_buckets set_buckets]. rewrite (alter_pos_insert _ _ _ b Hb).
    apply (live_insert _ _ b); [done..|]. destruct (pos_repl pos); cbn; [done|]. by apply alter_timeout_keep.
  - cbn [m_buckets remove_node set_buckets set_ips]. rewrite (alter_pos_insert _ _ _ b Hb).
    apply (live_insert _ _ b); [done..|]. destruct (pos_repl pos); cbn; [done|].
    intros Hl. apply (delete_keep _ _ x); [done..|]. intros ->. by apply Hne.
Qed.

Lemma replace_live_keep t i b j x e n :
  m_buckets t !! i = Some b -> live_nodes b !! j = Some x -> n ∈ live_of t -> n <> x ->
  n ∈ live_of (replace_live t i j x e).
Proof.
  intros Hi Hj Hn Hne. unfold live_of, replace_live. cbn [m_buckets set_buckets set_ips].
  rewrite (alter_insert _ _ b) by done. apply (live_insert _ _ b); [done..|]. cbn. intros Hl.
  apply elem_of_app. left. by apply (delete_keep _ _ x).
Qed.

Lemma add_replacement_keep t i b e n :
  m_buckets t !! i = Some b -> n ∈ live_of t -> n ∈ live_of (add_replacement t i (replacements b) e).
Proof.
  intros Hi Hn. unfold live_of, add_replacement. repeat case_match; cbn [m_buckets set_buckets set_ips]; try done;
    rewrite (alter_insert _ _ b) by done; by apply (live_insert _ _ b).
Qed.

Lemma split_bucket_keep min_time t i b e n :
  table_inv t -> m_buckets t !! i = Some b -> n ∈ live_of t ->
  n ∈ live_of (split_bucket min_time t i (live_nodes b) (replacements b) (last_active b) e).
Proof.
  intros Hinv Hi Hn. unfold split_bucket. cbv zeta. pose proof (split_parts t i b Hinv Hi) as H.
  destruct (split_repl _ _ _ _ _ _ _ _) as [[[b1 nb1] rb1] nrb1]. destruct H as (_ & _ & _ & _ & _ & Hsub).
  set (r := if stays (m_id t) i e then _ else _).
  assert (exists added b1' nb1' rb1' nrb1', r = (added, b1', nb1', rb1', nrb1') /\ b1 ⊆ b1' /\ nb1 ⊆ nb1')
    as (added & b1' & nb1' & rb1' & nrb1' & -> & H1 & H2).
  { subst r. repeat case_match; do 5 eexists; (split; [reflexivity|]); split; intros x Hx; rewrite ?elem_of_app; auto. }
  unfold live_of in *. cbn [m_buckets set_buckets set_ips]. rewrite bind_app. cbn. rewrite app_nil_r.
  apply list_elem_of_bind in Hn as (c & Hn & Hc). apply list_elem_of_lookup in Hc as [j Hj].
  apply elem_of_app. destruct (decide (i = j)) as [->|Hne].
  - assert (c = b) as -> by congruence. specialize (Hsub n Hn). apply elem_of_app in Hsub as [Hs|Hs]; [left|right; by apply H2].
    apply list_elem_of_bind. eexists. split; [|apply list_elem_of_lookup; exists j; apply list_lookup_insert_eq;
      by eapply lookup_lt_Some]. cbn. by apply H1.
  - left. apply list_elem_of_bind. exists c. split; [done|]. apply list_elem_of_lookup. exists j.
    by rewrite list_lookup_insert_ne.
Qed.

Lemma add_full_keep min_time t i b e n :
  table_inv t -> m_buckets t !! i = Some b -> n ∈ live_of t -> confirmed n = true ->
  n ∈ live_of (add_full min_time t i b e).
Proof.
  intros Hinv Hi Hn Hc. destruct (confirmed_pinged n Hc) as [Hp Hf]. unfold add_full.
  destruct (pinged e && (fail_count e =? 0)); [|by apply add_replacement_keep].
  assert (n ∈ live_of
    (if (S i =? length (m_buckets t))%nat && (Z.of_nat (length (m_buckets t)) <? kad_total_bits)
     then split_bucket min_time t i (live_nodes b) (replacements b) (last_active b) e
     else add_replacement t i (replacements b) e)) as Hrest.
  { destruct (_ && _); [by apply split_bucket_keep|by apply add_replacement_keep]. }
  destruct (find_if (fun n => negb (pinged n)) (live_nodes b)) as [[j x]|] eqn:Ef.
  - apply find_if_Some in Ef as [Hj Hx]. apply (replace_live_keep t i b); try done.
    intros ->. by rewrite Hp in Hx.
  - destruct (max_element (live_nodes b)) as [[j x]|] eqn:Em; [|done].
    destruct (Z.ltb_spec 0 (fail_count x)); [|done]. apply max_element_Some in Em.
    apply (replace_live_keep t i b); try done. intros ->. lia.
Qed.

Lemma with_first_live min_time t : live_of (with_first_bucket min_time t) = live_of t.
Proof. unfold live_of, with_first_bucket. destruct (m_buckets t) eqn:E; cbn; by rewrite ?E. Qed.

Lemma add_to_bucket_keep min_time t e n :
  table_inv t -> hash_wf (nid e) -> n ∈ live_of t -> confirmed n = true ->
  n ∈ live_of (add_to_bucket min_time t e).
Proof.
  intros Hinv0 Hid Hn Hc. unfold add_to_bucket. pose proof (find_bucket_lookup min_time t (nid e) Hinv0 Hid) as H.
  destruct (find_bucket min_time t (nid e)) as [t' i]. destruct H as (Hinv & _ & -> & b & Hb). rewrite Hb.
  rewrite <- (with_first_live min_time t) in Hn. set (t' := with_first_bucket min_time t) in *.
  destruct (find_if (same_id (nid e)) (live_nodes b)) as [[j x]|].
  { case_decide; [done|]. unfold live_of in *. cbn [m_buckets set_buckets]. rewrite (alter_insert _ _ b _ Hb).
    apply (live_insert _ _ b); [done..|]. by apply alter_timeout_keep. }
  case_match; [done|]. destruct (_ && _); [done|]. destruct (_ <? _)%nat.
  - unfold live_of in *. cbn [m_buckets set_buckets set_ips]. rewrite (alter_insert _ _ b _ Hb).
    apply (live_insert _ _ b); [done..|]. cbn. intros. apply elem_of_app. by left.
  - by apply add_full_keep.
Qed.

(** C28: adding a node, heard about or seen, never displaces a live node that
    answered our last message to it, except when the new node answers from the
    very endpoint of the old one under another identifier. *)
Theorem add_node_keeps_confirmed min_time now t e n :
  table_inv t -> hash_wf (nid e) -> n ∈ live_of t -> confirmed n = true ->
  ~ (ep n = ep e /\ nid n <> nid e) ->
  n ∈ live_of (snd (add_node min_time now t e)).
Proof.
  intros Hinv0 Hid Hn Hc Hne. unfold add_node. case_decide; [done|].
  pose proof (need_bootstrap_inv now t Hinv0) as Hinv.
  assert (live_of (snd (need_bootstrap now t)) = live_of t) as Hl by (unfold need_bootstrap; by repeat case_match).
  destruct (need_bootstrap now t) as [ret t']. cbn in Hinv, Hl. rewrite <- Hl in Hn. case_decide; [done|].
  pose proof (add_known_ip_live t' e n Hn Hc Hne) as Hk. pose proof (add_known_ip_inv t' e Hinv) as Hi.
  destruct (add_known_ip t' e) as [t1|t1]; cbn; [done|]. apply add_to_bucket_keep; tauto.
Qed.

Definition sample_node (b : Z) : node_entry := node_entry_new (sample_id b) (sample_ep b) true.

Lemma add_node_keeps_confirmed_witness :
  table_inv sample_table /\
  sample_node 1 ∈ live_of (snd (add_node 0 0 sample_table (sample_node 200))).
Proof.
  split; [apply sample_table_inv|].
  apply (add_node_keeps_confirmed 0 0 sample_table (sample_node 200) (sample_node 1)).
  - apply sample_table_inv.
  - done.
  - apply list_elem_of_lookup. exists 0%nat. by vm_compute.
  - done.
  - intros [H _]. by vm_compute in H.
Defined.

(** ** find_node *)

(** The order in which [find_node] visits the live nodes: the bucket of the
    target, the buckets closer to us, then the ones further away. *)
Definition search_order (bs : list routing_table_node) (i : nat) : list node_entry :=
  (drop i bs ++ reverse (take i bs)) ≫= live_nodes.

Lemma search_order_perm bs i : search_order bs i ≡ₚ bs ≫= live_nodes.
Proof.
  unfold search_order. rewrite !bind_app, Permutation_app_comm.
  rewrite <- (take_drop i bs) at 3. rewrite bind_app. f_equiv. by rewrite reverse_Permutation.
Qed.

Lemma take_min_length {A} (n : nat) (l : list A) : take (Nat.min n (length l)) l = take n l.
Proof.
  destruct (Nat.le_ge_cases n (length l)); [by rewrite Nat.min_l|].
  rewrite Nat.min_r, !take_ge by lia. done.
Qed.

Lemma take_snoc_app {A} (n : nat) (l1 l2 : list A) : take n l1 ++ take (n - length (take n l1)) l2 = take n (l1 ++ l2).
Proof.
  rewrite take_app, length_take. f_equal. destruct (Nat.le_ge_cases n (length l1)).
  - rewrite Nat.min_l by done. by replace (n - length l1)%nat with (n - n)%nat by lia.
  - by rewrite Nat.min_r.
Qed.

(** With failed nodes included, both loops take what is missing. *)
Lemma find_closer_all c pre bs :
  find_closer true c (take c pre) bs = take c (pre ++ (bs ≫= live_nodes)).
Proof.
  revert pre. induction bs as [|b bs IH]; intros pre; cbn [find_closer]; [by rewrite app_nil_r|].
  rewrite bind_cons. destruct (Nat.ltb_spec (length (take c pre)) c) as [Hlt|Hge].
  - rewrite take_min_length, take_snoc_app, IH. by rewrite app_assoc.
  - rewrite length_take in Hge. by rewrite take_app_le by lia.
Qed.

Lemma find_further_all c pre bs :
  find_further true c (take c pre) bs = take c (pre ++ (bs ≫= live_nodes)).
Proof.
  revert pre. induction bs as [|b bs IH]; intros pre; cbn [find_further]; [by rewrite app_nil_r|].
  rewrite bind_cons. unfold copy_n. destruct (Nat.ltb_spec (length (take c pre)) c) as [Hlt|Hge].
  - rewrite take_min_length, take_snoc_app, IH. by rewrite app_assoc.
  - rewrite length_take in Hge. by rewrite take_app_le by lia.
Qed.

(** Without them, a sublist of the confirmed nodes. *)
Definition good_answer (c : nat) (l all : list node_entry) : Prop :=
  l `sublist_of` filter (fun e => confirmed e) all /\ (length l <= c)%nat.

Lemma good_answer_skip c l all more : good_answer c l all -> good_answer c l (all ++ more).
Proof. intros [H1 H2]. split; [|done]. rewrite filter_app. by apply sublist_inserts_r. Qed.

Lemma good_answer_app c l all l' more :
  good_answer c l all -> l' `sublist_of` filter (fun e => confirmed e) more ->
  (length l + length l' <= c)%nat -> good_answer c (l ++ l') (all ++ more).
Proof.
  intros [H1 H2] H3 H4. split; [|rewrite length_app; lia]. rewrite filter_app. by apply sublist_app.
Qed.

Lemma filter_take_sublist (l : list node_entry) n :
  filter (fun e => confirmed e) (take n l) `sublist_of` filter (fun e => confirmed e) l.
Proof. rewrite <- (take_drop n l) at 2. rewrite filter_app. by apply sublist_inserts_r. Qed.

Lemma find_closer_confirmed c l all bs :
  good_answer c l all -> good_answer c (find_closer false c l bs) (all ++ (bs ≫= live_nodes)).
Proof.
  revert l all. induction bs as [|b bs IH]; intros l all Hl; cbn [find_closer]; [by rewrite app_nil_r|].
  rewrite bind_cons. destruct (Nat.ltb_spec (length l) c) as [Hlt|Hge]; [|by apply good_answer_skip].
  rewrite app_assoc. apply IH, good_answer_app; [done|apply filter_take_sublist|].
  etrans; [apply Nat.add_le_mono_l; etrans; [apply length_filter|rewrite length_take; apply Nat.le_min_l]|]. lia.
Qed.

Lemma find_further_confirmed c l all bs :
  good_answer c l all -> good_answer c (find_further false c l bs) (all ++ (bs ≫= live_nodes)).
Proof.
  revert l all. induction bs as [|b bs IH]; intros l all Hl; cbn [find_further]; [by rewrite app_nil_r|].
  rewrite bind_cons. destruct (Nat.ltb_spec (length l) c) as [Hlt|Hge]; [|by apply good_answer_skip].
  rewrite app_assoc. apply IH, good_answer_app; [done|apply sublist_take|].
  unfold copy_if_n. rewrite length_take. lia.
Qed.

(** [find_node] returns at most [count] (by default, a bucket size) live
    nodes.  With [include_failed] it returns exactly the first [count] of the
    search order; without it, a sublist of the confirmed nodes in that order.
    The search order lists every live node once, the bucket of the target
    first. *)
Theorem find_node_answer min_time t target count :
  table_inv t -> hash_wf target -> m_buckets t <> [] ->
  let c := if (count =? 0)%nat then m_bucket_size t else count in
  let order := search_order (m_buckets t) (bucket_index (m_id t) (length (m_buckets t)) target) in
  snd (find_node min_time t target true count) = take c order /\
  good_answer c (snd (find_node min_time t target false count)) order /\
  order ≡ₚ live_of t.
Proof.
  intros Hinv Ht Hne. cbv zeta. split_and!; [..|apply search_order_perm].
  all: pose proof (find_bucket_lookup min_time t target Hinv Ht) as H; unfold find_node;
    destruct (find_bucket min_time t target) as [t' i]; destruct H as (_ & -> & -> & b & Hb);
    assert (with_first_bucket min_time t = t) as E by (unfold with_first_bucket; by destruct (m_buckets t));
    rewrite E in *; set (i := bucket_index _ _ _) in *; cbn [snd]; rewrite Hb; cbn [fmap option_fmap option_map default from_option id];
    set (c := if (count =? 0)%nat then _ else _); unfold search_order; rewrite (drop_S _ _ _ Hb); cbn [app];
    rewrite bind_cons, bind_app, app_assoc.
  - unfold copy_n. by rewrite take_min_length, find_closer_all, find_further_all.
  - apply find_further_confirmed, find_closer_confirmed. split; [apply sublist_take|].
    unfold copy_if_n. rewrite length_take. lia.
Qed.

Lemma find_node_answer_witness :
  table_inv sample_table /\
  snd (find_node 0 sample_table (sample_id 200) true 1) = [sample_node 1].
Proof.
  split; [apply sample_table_inv|].
  assert (m_buckets sample_table <> []) as Hne by (by vm_compute).
  rewrite (proj1 (find_node_answer 0 sample_table (sample_id 200) 1 sample_table_inv (sample_id_wf 200) Hne)).
  by vm_compute.
Defined.

(** ** What the code does not deliver *)

(** The sample table after its first node failed (and was replaced from the
    cache) and its second node failed once. *)
Definition failed_table : routing_table :=
  node_failed 0 (node_failed 0 sample_table (sample_id 1) (sample_ep 1)) (sample_id 2) (sample_ep 2).

(** The loop over the buckets closer to us looks only at as many nodes as
    are still missing, confirmed or not, where the other two loops look for as
    many confirmed nodes: in a reachable table a search for one node returns
    nothing although a confirmed live node is there. *)
Theorem find_node_misses_confirmed :
  reachable 0 sample_own 2 20 failed_table /\
  (exists n, n ∈ live_of failed_table /\ confirmed n = true) /\
  snd (find_node 0 failed_table (sample_id 200) false 1) = [].
Proof.
  split_and!; [|exists (node_entry_new (sample_id 3) (sample_ep 4) true)|by vm_compute].
  - unfold reachable. transitivity sample_table; [apply sample_table_reachable|]. unfold failed_table.
    eapply rtc_l; [apply step_failed, sample_id_wf|]. eapply rtc_l; [apply step_failed, sample_id_wf|].
    apply rtc_refl.
  - split; [|done]. apply list_elem_of_lookup. exists 1%nat. by vm_compute.
Qed.

(** [bucket_size(int)] answers the size of the last bucket whatever bucket
    is asked for, and reads behind the buckets when there is none of that
    number: the guard has the wrong direction. *)
Theorem bucket_size_of_last t i :
  m_buckets t <> [] ->
  bucket_size_of t i =
    if (i <? length (m_buckets t))%nat then (fun b => length (live_nodes b)) <$> last (m_buckets t)
    else None.
Proof.
  intros Hne. unfold bucket_size_of. destruct (m_buckets t) as [|b bs] eqn:E; [done|].
  rewrite <- E, last_lookup in *. destruct (Nat.eqb_spec (length (m_buckets t)) 0); [rewrite E in *; done|].
  destruct (Nat.ltb_spec i (length (m_buckets t))).
  - by rewrite Nat.sub_1_r.
  - by rewrite lookup_ge_None_2.
Qed.

Lemma bucket_size_of_last_witness : bucket_size_of sample_table 0 = Some 2%nat /\ bucket_size_of sample_table 2 = None.
Proof. split; (rewrite bucket_size_of_last; [by vm_compute|by vm_compute]). Defined.

(** Two nodes behind one IP, duplicates allowed; then one of them is dropped. *)
Definition shared_ip_table : routing_table :=
  let t := routing_table_new 0 sample_own 2 (Settings false 20) in
  let t := snd (node_seen 0 0 t (sample_id 1) (z2b <$> [1; 0; 0; 1], 1)) in
  let t := snd (node_seen 0 0 t (sample_id 2) (z2b <$> [1; 0; 0; 1], 2)) in
  snd (node_seen 0 0 t (sample_id 3) (z2b <$> [1; 0; 0; 1], 1)).

(** Without the restriction on IPs, [m_ips] loses track of the nodes:
    [multiset::erase] with a key removes all its copies, so that one node leaving
    also forgets the IP of another one behind the same address. *)
Theorem shared_ip_forgotten :
  length (live_of shared_ip_table) = 2%nat /\
  Forall (fun n => addr n = z2b <$> [1; 0; 0; 1]) (live_of shared_ip_table) /\
  ips_count (z2b <$> [1; 0; 0; 1]) (m_ips shared_ip_table) = 1%nat.
Proof. split_and!; [by vm_compute| |by vm_compute]. vm_compute. repeat constructor. Qed.
