(* ===== verification/PiecePicker.v ===== *)
(** * The piece picker: src/piece_picker.cpp, include/libed2k/piece_picker.hpp

    Which pieces can be downloaded, in the order of their priority
    ([m_pieces] cut into ranges by [m_priority_boundries]), which are being
    downloaded and the state of their blocks.  Piece numbers are integers ([-1]
    is the sentinel of [add]); positions and boundaries are natural numbers.
    [random()] and [std::random_shuffle] are arguments.  A read of a piece that
    does not exist, undefined in C++, leaves the picker as it is. *)

From S2P Require Import Prelude Archive Md4Hash Bitfield.
Open Scope Z_scope.

(** ** Data *)

Definition priority_levels : Z := 8.
Definition prio_factor : Z := priority_levels - 4.
Definition we_have_index : Z := 0xffffffff.
Definition filter_priority : Z := 0.
Definition max_peer_count : Z := 0xffff.

Record piece_pos := PiecePos {
  peer_count : Z;       (* 16 bits *)
  downloading : bool;
  full : bool;
  piece_priority : Z;   (* 3 bits *)
  index : Z             (* 32 bits *)
}.

Definition piece_pos_new (peer_count_ index_ : Z) : piece_pos := PiecePos peer_count_ false false 1 index_.

Definition have (p : piece_pos) : bool := index p =? we_have_index.
Definition filtered (p : piece_pos) : bool := piece_priority p =? filter_priority.
Definition set_index (n : Z) (p : piece_pos) : piece_pos :=
  PiecePos (peer_count p) (downloading p) (full p) (piece_priority p) n.
Definition set_have (p : piece_pos) : piece_pos := set_index we_have_index p.
Definition set_not_have (p : piece_pos) : piece_pos := set_index 0 p.
Definition set_peer_count (n : Z) (p : piece_pos) : piece_pos :=
  PiecePos (to_uint 2 n) (downloading p) (full p) (piece_priority p) (index p).
Definition set_downloading (d : bool) (p : piece_pos) : piece_pos :=
  PiecePos (peer_count p) d (full p) (piece_priority p) (index p).
Definition set_full (f : bool) (p : piece_pos) : piece_pos :=
  PiecePos (peer_count p) (downloading p) f (piece_priority p) (index p).
Definition set_priority (n : Z) (p : piece_pos) : piece_pos :=
  PiecePos (peer_count p) (downloading p) (full p) (n mod 8) (index p).

(** [piece_pos::priority], with the seeds of the picker. *)
Definition priority (m_seeds : Z) (p : piece_pos) : Z :=
  if filtered p || have p || (peer_count p + m_seeds =? 0) then -1
  else if piece_priority p =? priority_levels - 1 then 1 - Z.b2z (downloading p)
  else
    let '(availability, pr) :=
      if priority_levels / 2 <=? piece_priority p
      then (peer_count p / 2, piece_priority p - (priority_levels - 2) / 2)
      else (peer_count p, piece_priority p) in
    if downloading p then availability * prio_factor
    else availability * prio_factor + priority_levels / 2 - pr.

Inductive block_state := state_none | state_requested | state_writing | state_finished.

#[global] Instance block_state_eq_dec : EqDecision block_state.
Proof. solve_decision. Defined.

(** [peer] is a pointer, 0 the null pointer; [num_peers] has 14 bits. *)
Record block_info := BlockInfo { bi_peer : Z; bi_num_peers : Z; bi_state : block_state }.

Definition block_info_new : block_info := BlockInfo 0 0 state_none.

Inductive piece_state_t := none | slow | medium | fast.

#[global] Instance piece_state_eq_dec : EqDecision piece_state_t.
Proof. solve_decision. Defined.

(** [info] points into [m_block_info]: an offset.  The counters (16 bits) are
    bounded by the number of blocks, less than [2^13]. *)
Record downloading_piece := Downloading {
  dp_state : piece_state_t; dp_index : Z; dp_info : nat;
  dp_finished : Z; dp_writing : Z; dp_requested : Z
}.

Record piece_block := PieceBlock { piece_index : Z; block_index : nat }.

Record piece_picker := Picker {
  m_seeds : Z;
  m_pieces : list Z;
  m_priority_boundries : list nat;
  m_piece_map : list piece_pos;
  m_downloads : list downloading_piece;
  m_block_info : list block_info;
  m_blocks_per_piece : nat;
  m_blocks_in_last_piece : nat;
  m_num_filtered : Z;
  m_num_have_filtered : Z;
  m_num_have : Z;
  m_cursor : nat;
  m_reverse_cursor : nat;
  m_sparse_regions : Z;
  m_dirty : bool
}.

Definition with_buckets (ps : list Z) (bs : list nat) (map : list piece_pos) (t : piece_picker) : piece_picker :=
  Picker (m_seeds t) ps bs map (m_downloads t) (m_block_info t) (m_blocks_per_piece t) (m_blocks_in_last_piece t)
    (m_num_filtered t) (m_num_have_filtered t) (m_num_have t) (m_cursor t) (m_reverse_cursor t)
    (m_sparse_regions t) (m_dirty t).
Definition with_map (map : list piece_pos) (t : piece_picker) : piece_picker :=
  with_buckets (m_pieces t) (m_priority_boundries t) map t.
Definition with_seeds (n : Z) (t : piece_picker) : piece_picker :=
  Picker n (m_pieces t) (m_priority_boundries t) (m_piece_map t) (m_downloads t) (m_block_info t)
    (m_blocks_per_piece t) (m_blocks_in_last_piece t) (m_num_filtered t) (m_num_have_filtered t) (m_num_have t)
    (m_cursor t) (m_reverse_cursor t) (m_sparse_regions t) (m_dirty t).
Definition with_dirty (d : bool) (t : piece_picker) : piece_picker :=
  Picker (m_seeds t) (m_pieces t) (m_priority_boundries t) (m_piece_map t) (m_downloads t) (m_block_info t)
    (m_blocks_per_piece t) (m_blocks_in_last_piece t) (m_num_filtered t) (m_num_have_filtered t) (m_num_have t)
    (m_cursor t) (m_reverse_cursor t) (m_sparse_regions t) d.
Definition with_counts (nf nhf nh : Z) (t : piece_picker) : piece_picker :=
  Picker (m_seeds t) (m_pieces t) (m_priority_boundries t) (m_piece_map t) (m_downloads t) (m_block_info t)
    (m_blocks_per_piece t) (m_blocks_in_last_piece t) nf nhf nh
    (m_cursor t) (m_reverse_cursor t) (m_sparse_regions t) (m_dirty t).
Definition with_cursors (c rc : nat) (t : piece_picker) : piece_picker :=
  Picker (m_seeds t) (m_pieces t) (m_priority_boundries t) (m_piece_map t) (m_downloads t) (m_block_info t)
    (m_blocks_per_piece t) (m_blocks_in_last_piece t) (m_num_filtered t) (m_num_have_filtered t) (m_num_have t)
    c rc (m_sparse_regions t) (m_dirty t).
Definition with_sparse (n : Z) (t : piece_picker) : piece_picker :=
  Picker (m_seeds t) (m_pieces t) (m_priority_boundries t) (m_piece_map t) (m_downloads t) (m_block_info t)
    (m_blocks_per_piece t) (m_blocks_in_last_piece t) (m_num_filtered t) (m_num_have_filtered t) (m_num_have t)
    (m_cursor t) (m_reverse_cursor t) n (m_dirty t).
Definition with_downloads (ds : list downloading_piece) (bi : list block_info) (t : piece_picker) : piece_picker :=
  Picker (m_seeds t) (m_pieces t) (m_priority_boundries t) (m_piece_map t) ds bi
    (m_blocks_per_piece t) (m_blocks_in_last_piece t) (m_num_filtered t) (m_num_have_filtered t) (m_num_have t)
    (m_cursor t) (m_reverse_cursor t) (m_sparse_regions t) (m_dirty t).

Definition piece_picker_new : piece_picker :=
  Picker 0 [] [0%nat] [] [] [] 0 0 0 0 0 0 0 1 false.

(** [m_piece_map[i]]. *)
Definition piece_at (map : list piece_pos) (i : Z) : option piece_pos := map !! Z.to_nat i.
Definition alter_piece (f : piece_pos -> piece_pos) (i : Z) (map : list piece_pos) : list piece_pos :=
  alter f (Z.to_nat i) map.

Definition num_pieces (t : piece_picker) : nat := length (m_piece_map t).
Definition num_want_left (t : piece_picker) : Z := Z.of_nat (num_pieces t) - m_num_have t - m_num_filtered t.
Definition have_piece (t : piece_picker) (i : Z) : bool :=
  match piece_at (m_piece_map t) i with Some p => have p | None => false end.

(** [std::vector::resize(n, x)]. *)
Definition vec_resize {A} (n : nat) (x : A) (l : list A) : list A := take n l ++ replicate (n - length l) x.

(** ** The buckets of pieces of one priority *)

Definition priority_range (bs : list nat) (prio : nat) : nat * nat :=
  (match prio with O => 0%nat | S k => bs !!! k end, bs !!! prio).

(** [do { temp = m_priority_boundries[priority]++; ++priority; }
    while (temp == new_index && priority < m_priority_boundries.size());] *)
Fixpoint add_skip (n : nat) (bs : list nat) (prio new_index : nat) : nat * nat * list nat :=
  match n with
  | O => (new_index, prio, bs)
  | S n =>
      let temp := bs !!! prio in
      let bs := <[prio := S temp]> bs in
      if (temp =? new_index)%nat && (S prio <? length bs)%nat
      then add_skip n bs (S prio) new_index else (temp, S prio, bs)
  end.

Fixpoint add_loop (n : nat) (ps : list Z) (map : list piece_pos) (bs : list nat) (prio new_index : nat) (index : Z) :
    list Z * list piece_pos * list nat * nat * Z :=
  match n with
  | O => (ps, map, bs, new_index, index)
  | S n =>
      let temp := ps !!! new_index in
      let ps := <[new_index := index]> ps in
      let map := alter_piece (set_index (Z.of_nat new_index)) index map in
      let index := temp in
      let '(new_index, prio, bs) := add_skip (length bs) bs prio new_index in
      if (length bs <=? prio)%nat then (ps, map, bs, new_index, index)
      else add_loop n ps map bs prio new_index index
  end.

(** [add(index)], with the value of [random()]. *)
Definition add (random : nat) (index : Z) (t : piece_picker) : piece_picker :=
  match piece_at (m_piece_map t) index with
  | None => t
  | Some p =>
      let prio := Z.to_nat (priority (m_seeds t) p) in
      let bs := m_priority_boundries t in
      let bs := if (length bs <=? prio)%nat then vec_resize (S prio) (length (m_pieces t)) bs else bs in
      let '(range_start, range_end) := priority_range bs prio in
      let new_index := if (range_end =? range_start)%nat then range_start
                       else (random mod (range_end - range_start + 1) + range_start)%nat in
      let ps := m_pieces t ++ [-1] in
      let '(ps, map, bs, new_index, index) := add_loop (length bs) ps (m_piece_map t) bs prio new_index index in
      if index =? -1 then with_buckets ps bs map t
      else with_buckets (<[new_index := index]> ps) bs (alter_piece (set_index (Z.of_nat new_index)) index map) t
  end.

(** [do { temp = --m_priority_boundries[priority]; ++priority; }
    while (next_index == temp && priority < m_priority_boundries.size());] *)
Fixpoint remove_skip (n : nat) (bs : list nat) (prio next_index : nat) : nat * nat * list nat :=
  match n with
  | O => (next_index, prio, bs)
  | S n =>
      let temp := (bs !!! prio - 1)%nat in
      let bs := <[prio := temp]> bs in
      if (next_index =? temp)%nat && (S prio <? length bs)%nat
      then remove_skip n bs (S prio) next_index else (temp, S prio, bs)
  end.

Fixpoint remove_loop (n : nat) (ps : list Z) (map : list piece_pos) (bs : list nat) (prio elem_index next_index : nat) :
    list Z * list piece_pos * list nat :=
  match n with
  | O => (ps, map, bs)
  | S n =>
      let '(temp, prio, bs) := remove_skip (length bs) bs prio next_index in
      if (next_index =? temp)%nat then (ps, map, bs)
      else
        let next_index := temp in
        let piece := ps !!! next_index in
        let ps := <[elem_index := piece]> ps in
        let map := alter_piece (set_index (Z.of_nat elem_index)) piece map in
        let elem_index := next_index in
        if (prio =? length bs)%nat then (ps, map, bs)
        else remove_loop n ps map bs prio elem_index next_index
  end.

(** [remove(priority, elem_index)]. *)
Definition remove (prio elem_index : nat) (t : piece_picker) : piece_picker :=
  let '(ps, map, bs) := remove_loop (length (m_priority_boundries t)) (m_pieces t) (m_piece_map t)
                          (m_priority_boundries t) prio elem_index elem_index in
  with_buckets (take (length ps - 1) ps) bs map t.

Definition shuffle (random : nat) (prio elem_index : nat) (t : piece_picker) : piece_picker :=
  let '(range_start, range_end) := priority_range (m_priority_boundries t) prio in
  let other_index := (random mod (range_end - range_start) + range_start)%nat in
  if (other_index =? elem_index)%nat then t
  else
    let ps := m_pieces t in
    let map := m_piece_map t in
    let i1 := ps !!! other_index in
    let i2 := ps !!! elem_index in
    match piece_at map i1, piece_at map i2 with
    | Some p1, Some p2 =>
        let map := alter_piece (set_index (index p1)) i2 (alter_piece (set_index (index p2)) i1 map) in
        with_buckets (<[elem_index := i1]> (<[other_index := i2]> ps)) (m_priority_boundries t) map t
    | _, _ => t
    end.

(** The two loops of [update]: [n] is the number of priority levels to move
    by. *)
Fixpoint update_down (n : nat) (ps : list Z) (map : list piece_pos) (bs : list nat) (prio elem_index : nat) (temp : Z) :
    list Z * list piece_pos * list nat * nat :=
  match n with
  | O => (ps, map, bs, elem_index)
  | S n =>
      let prio := (prio - 1)%nat in
      let new_index := bs !!! prio in
      let bs := <[prio := S new_index]> bs in
      if temp =? ps !!! new_index then update_down n ps map bs prio new_index temp
      else
        let temp := ps !!! new_index in
        update_down n (<[elem_index := temp]> ps) (alter_piece (set_index (Z.of_nat elem_index)) temp map)
          bs prio new_index temp
  end.

Fixpoint update_up (n : nat) (ps : list Z) (map : list piece_pos) (bs : list nat) (prio elem_index : nat) (temp : Z) :
    list Z * list piece_pos * list nat * nat :=
  match n with
  | O => (ps, map, bs, elem_index)
  | S n =>
      let new_index := (bs !!! prio - 1)%nat in
      let bs := <[prio := new_index]> bs in
      if temp =? ps !!! new_index then update_up n ps map bs (S prio) new_index temp
      else
        let temp := ps !!! new_index in
        update_up n (<[elem_index := temp]> ps) (alter_piece (set_index (Z.of_nat elem_index)) temp map)
          bs (S prio) new_index temp
  end.

(** [update(priority, elem_index)], with the value of [random()]. *)
Definition update (random : nat) (prio : Z) (elem_index : nat) (t : piece_picker) : piece_picker :=
  let ps := m_pieces t in
  let index := ps !!! elem_index in
  match piece_at (m_piece_map t) index with
  | None => t
  | Some p =>
      let new_priority := priority (m_seeds t) p in
      if new_priority =? prio then t
      else if new_priority =? -1 then remove (Z.to_nat prio) elem_index t
      else
        let np := Z.to_nat new_priority in
        let op := Z.to_nat prio in
        let bs := m_priority_boundries t in
        let bs := if (length bs <=? np)%nat then vec_resize (S np) (length ps) bs else bs in
        let '(ps, map, bs, elem_index) :=
          if new_priority <? prio then update_down (op - np) ps (m_piece_map t) bs op elem_index index
          else update_up (np - op) ps (m_piece_map t) bs op elem_index index in
        let ps := <[elem_index := index]> ps in
        let map := alter_piece (set_index (Z.of_nat elem_index)) index map in
        shuffle random np elem_index (with_buckets ps bs map t)
  end.

(** ** update_pieces: the buckets from scratch *)

Section UpdatePieces.
(** [std::random_shuffle] of the range that starts at a position. *)
Context (random_shuffle : nat -> list Z -> list Z).

(** Number the pieces of every priority, counting them in the boundaries. *)
Fixpoint count_pieces (m_seeds : Z) (bs : list nat) (map : list piece_pos) : list nat * list piece_pos :=
  match map with
  | [] => (bs, [])
  | p :: map =>
      let prio := priority m_seeds p in
      if prio =? -1 then let '(bs, map) := count_pieces m_seeds bs map in (bs, p :: map)
      else
        let k := Z.to_nat prio in
        let bs := if (length bs <=? k)%nat then vec_resize (S k) 0%nat bs else bs in
        let p := set_index (Z.of_nat (bs !!! k)) p in
        let '(bs, map) := count_pieces m_seeds (<[k := S (bs !!! k)]> bs) map in (bs, p :: map)
  end.

Fixpoint sum_boundries (index : nat) (bs : list nat) : list nat :=
  match bs with
  | [] => []
  | b :: bs => (b + index)%nat :: sum_boundries (b + index) bs
  end.

Fixpoint place_pieces (m_seeds : Z) (bs : list nat) (index : Z) (map : list piece_pos) (ps : list Z) : list Z :=
  match map with
  | [] => ps
  | p :: map =>
      let prio := priority m_seeds p in
      if prio =? -1 then place_pieces m_seeds bs (index + 1) map ps
      else
        let new_index := (fst (priority_range bs (Z.to_nat prio)) + Z.to_nat (PiecePicker.index p))%nat in
        place_pieces m_seeds bs (index + 1) map (<[new_index := index]> ps)
  end.

Fixpoint shuffle_ranges (start : nat) (bs : list nat) (ps : list Z) : list Z :=
  match bs with
  | [] => ps
  | b :: bs =>
      if (start =? b)%nat then shuffle_ranges start bs ps
      else shuffle_ranges b bs (take start ps ++ random_shuffle start (take (b - start) (drop start ps)) ++ drop b ps)
  end.

Fixpoint index_pieces (i : nat) (ps : list Z) (map : list piece_pos) : list piece_pos :=
  match ps with
  | [] => map
  | x :: ps => index_pieces (S i) ps (alter_piece (set_index (Z.of_nat i)) x map)
  end.

Definition update_pieces (t : piece_picker) : piece_picker :=
  let bs := match m_priority_boundries t with [] => [0%nat] | bs => bs end in
  let '(bs, map) := count_pieces (m_seeds t) ((fun _ => 0%nat) <$> bs) (m_piece_map t) in
  let bs := sum_boundries 0 bs in
  let ps := vec_resize (List.last bs 0%nat) 0 (m_pieces t) in
  let ps := place_pieces (m_seeds t) bs 0 map ps in
  let ps := shuffle_ranges 0 bs ps in
  with_dirty false (with_buckets ps bs (index_pieces 0 ps map) t).
End UpdatePieces.

(** ** Availability *)

(** What [inc_refcount], [set_piece_priority] and others do after a change of
    the piece: [p] is the piece as it was. *)
Definition reorder (random : nat) (prev_priority new_priority : Z) (i : Z) (p : piece_pos) (t : piece_picker) : piece_picker :=
  if prev_priority =? new_priority then t
  else if m_dirty t then t
  else if prev_priority =? -1 then add random i t
  else update random prev_priority (Z.to_nat (index p)) t.

Definition inc_refcount (random : nat) (i : Z) (t : piece_picker) : piece_picker :=
  match piece_at (m_piece_map t) i with
  | None => t
  | Some p =>
      let p' := set_peer_count (peer_count p + 1) p in
      reorder random (priority (m_seeds t) p) (priority (m_seeds t) p') i p
        (with_map (alter_piece (fun _ => p') i (m_piece_map t)) t)
  end.

Definition dec_refcount (random : nat) (i : Z) (t : piece_picker) : piece_picker :=
  match piece_at (m_piece_map t) i with
  | None => t
  | Some p =>
      let prev_priority := priority (m_seeds t) p in
      let t := with_map (alter_piece (fun _ => set_peer_count (peer_count p - 1) p) i (m_piece_map t)) t in
      if m_dirty t then t
      else if 0 <=? prev_priority then update random prev_priority (Z.to_nat (index p)) t else t
  end.

(** With a bitfield: the loop over its bits. *)
Definition refcount_mask (d : Z) (bitmask : bitfield) (t : piece_picker) : piece_picker :=
  let bits := get_bit bitmask <$> seq 0 (size bitmask) in
  let map := zip_with (fun (b : bool) p => if b then set_peer_count (peer_count p + d) p else p)
               bits (m_piece_map t) ++ drop (length bits) (m_piece_map t) in
  let t := with_map map t in
  if existsb id bits then with_dirty true t else t.

Definition inc_refcount_mask : bitfield -> piece_picker -> piece_picker := refcount_mask 1.
Definition dec_refcount_mask : bitfield -> piece_picker -> piece_picker := refcount_mask (-1).

Definition inc_refcount_all (t : piece_picker) : piece_picker :=
  let t := with_seeds (m_seeds t + 1) t in
  if m_seeds t =? 1 then with_dirty true t else t.

Definition dec_refcount_all (t : piece_picker) : piece_picker :=
  if 0 <? m_seeds t then
    let t := with_seeds (m_seeds t - 1) t in
    if m_seeds t =? 0 then with_dirty true t else t
  else with_dirty true (with_map ((fun p => set_peer_count (peer_count p - 1) p) <$> m_piece_map t) t).

(** ** Cursors *)

Definition skipped (p : piece_pos) : bool := have p || filtered p.

Fixpoint skip_count (l : list piece_pos) : nat :=
  match l with
  | [] => 0
  | p :: l => if skipped p then S (skip_count l) else 0
  end.

(** The loops that move [m_cursor] and [m_reverse_cursor] over the pieces we
    have or do not want. *)
Definition cursor_from (c : nat) (map : list piece_pos) : nat := c + skip_count (drop c map).
Definition reverse_cursor_from (rc : nat) (map : list piece_pos) : nat := rc - skip_count (reverse (take rc map)).

Definition init (blocks_per_piece blocks_in_last_piece total_num_pieces : nat) (t : piece_picker) : piece_picker :=
  let map := (fun p => PiecePos 0 false (full p) (piece_priority p) 0)
    <$> vec_resize total_num_pieces (piece_pos_new 0 0) (m_piece_map t) in
  Picker (m_seeds t) (m_pieces t) (m_priority_boundries t) map [] []
    blocks_per_piece (if (blocks_in_last_piece =? 0)%nat then blocks_per_piece else blocks_in_last_piece)
    (m_num_filtered t + m_num_have_filtered t) 0 0
    (cursor_from 0 map) (reverse_cursor_from (length map) map) (m_sparse_regions t) true.

(** A piece that is no longer to be downloaded moves the cursors on. *)
Definition cursors_done (i : nat) (map : list piece_pos) (t : piece_picker) : piece_picker :=
  let c := m_cursor t in
  let rc := m_reverse_cursor t in
  if (rc =? S c)%nat && (c =? i)%nat then with_cursors (length map) 0 t
  else if (c =? i)%nat then with_cursors (cursor_from (S c) map) rc t
  else if (rc =? S i)%nat then with_cursors c (reverse_cursor_from (rc - 1) map) t
  else t.

(** A piece that is to be downloaded again moves them back. *)
Definition cursors_wanted (i : nat) (t : piece_picker) : piece_picker :=
  let c := if (i <? m_cursor t)%nat then i else m_cursor t in
  let rc := if (m_reverse_cursor t <=? i)%nat then S i else m_reverse_cursor t in
  if (rc =? c)%nat then with_cursors (num_pieces t) 0 t else with_cursors c rc t.

(** ** The pieces being downloaded *)

Definition blocks_in_piece (t : piece_picker) (i : Z) : nat :=
  if i + 1 =? Z.of_nat (num_pieces t) then m_blocks_in_last_piece t else m_blocks_per_piece t.

(** [std::lower_bound] by piece number. *)
Fixpoint lower_bound (i : Z) (ds : list downloading_piece) : nat :=
  match ds with
  | [] => 0
  | d :: ds => if dp_index d <? i then S (lower_bound i ds) else 0
  end.

Definition find_dl_piece (i : Z) (t : piece_picker) : option (nat * downloading_piece) :=
  let j := lower_bound i (m_downloads t) in
  match m_downloads t !! j with
  | Some d => if dp_index d =? i then Some (j, d) else None
  | None => None
  end.

(** A range of [m_block_info] is overwritten. *)
Definition write_blocks (at_ : nat) (l : list block_info) (bi : list block_info) : list block_info :=
  take at_ bi ++ l ++ drop (at_ + length l) bi.

(** [add_download_piece]: the new entry has the next free range of blocks. *)
Definition add_download_piece (i : Z) (t : piece_picker) : piece_picker :=
  let bpp := m_blocks_per_piece t in
  let at_ := (length (m_downloads t) * bpp)%nat in
  let bi := m_block_info t in
  let bi := if (length bi <? at_ + bpp)%nat then vec_resize (at_ + bpp) block_info_new bi else bi in
  let j := lower_bound i (m_downloads t) in
  let d := Downloading none i at_ 0 0 0 in
  with_downloads (take j (m_downloads t) ++ d :: drop j (m_downloads t))
    (write_blocks at_ (replicate bpp block_info_new) bi) t.

(** [erase_download_piece(i)]: the last range of blocks takes the place of that
    of entry [j]. *)
Definition erase_download_piece (j : nat) (t : piece_picker) : piece_picker :=
  let bpp := m_blocks_per_piece t in
  let last_info := ((length (m_downloads t) - 1) * bpp)%nat in
  match m_downloads t !! j, list_find (fun d => dp_info d = last_info) (m_downloads t) with
  | Some d, Some (o, other) =>
      let '(ds, bi) :=
        if (j =? o)%nat then (m_downloads t, m_block_info t)
        else
          (alter (fun other => Downloading (dp_state other) (dp_index other) (dp_info d)
                                 (dp_finished other) (dp_writing other) (dp_requested other)) o (m_downloads t),
           write_blocks (dp_info d) (take bpp (drop (dp_info other) (m_block_info t))) (m_block_info t)) in
      with_map (alter_piece (set_downloading false) (dp_index d) (m_piece_map t))
        (with_downloads (delete j ds) bi t)
  | _, _ => t
  end.

Definition set_dp (j : nat) (d : downloading_piece) (t : piece_picker) : piece_picker :=
  with_downloads (<[j := d]> (m_downloads t)) (m_block_info t) t.
Definition set_block (k : nat) (b : block_info) (t : piece_picker) : piece_picker :=
  with_downloads (m_downloads t) (<[k := b]> (m_block_info t)) t.
Definition set_counts (f w r : Z) (d : downloading_piece) : downloading_piece :=
  Downloading (dp_state d) (dp_index d) (dp_info d) f w r.
Definition set_dp_state (s : piece_state_t) (d : downloading_piece) : downloading_piece :=
  Downloading s (dp_index d) (dp_info d) (dp_finished d) (dp_writing d) (dp_requested d).

Definition update_full (d : downloading_piece) (t : piece_picker) : piece_picker :=
  let num_blocks := Z.of_nat (blocks_in_piece t (dp_index d)) in
  with_map (alter_piece (set_full (dp_requested d + dp_finished d + dp_writing d =? num_blocks))
    (dp_index d) (m_piece_map t)) t.

(** The block of a piece that is being downloaded: its entry and its block
    info. *)
Definition find_block (b : piece_block) (t : piece_picker) : option (nat * downloading_piece * block_info) :=
  '(j, d) ← find_dl_piece (piece_index b) t;
  info ← m_block_info t !! (dp_info d + block_index b)%nat;
  Some (j, d, info).

(** A piece that is not being downloaded yet is entered, with block [b] in state
    [info] and the counters and the speed of [f]. *)
Definition start_piece (random : nat) (b : piece_block) (p : piece_pos) (t : piece_picker) : piece_picker :=
  let i := piece_index b in
  let prio := priority (m_seeds t) p in
  let t := with_map (alter_piece (set_downloading true) i (m_piece_map t)) t in
  let t := if (0 <=? prio) && negb (m_dirty t) then update random prio (Z.to_nat (index p)) t else t in
  add_download_piece i t.

Definition to_uint14 (n : Z) : Z := n mod 2 ^ 14.

Definition mark_as_downloading (random : nat) (b : piece_block) (peer : Z) (state : piece_state_t) (t : piece_picker) :
    bool * piece_picker :=
  match piece_at (m_piece_map t) (piece_index b) with
  | None => (false, t)
  | Some p =>
      if negb (downloading p) then
        let t := start_piece random b p t in
        match find_block b t with
        | None => (true, t)
        | Some (j, d, info) =>
            let d := set_counts (dp_finished d) (dp_writing d) (dp_requested d + 1) (set_dp_state state d) in
            let t := set_dp j d (set_block (dp_info d + block_index b) (BlockInfo peer 1 state_requested) t) in
            (true, update_full d t)
        end
      else
        match find_block b t with
        | None => (false, t)
        | Some (j, d, info) =>
            match bi_state info with
            | state_writing | state_finished => (false, t)
            | st =>
                let fresh := negb (bool_decide (st = state_requested)) in
                let d := if fresh then set_counts (dp_finished d) (dp_writing d) (dp_requested d + 1) d else d in
                let t := if fresh then update_full d t else t in
                let t := set_block (dp_info d + block_index b)
                  (BlockInfo peer (to_uint14 (bi_num_peers info + 1)) state_requested) t in
                (true, set_dp j (if bool_decide (dp_state d = none) then set_dp_state state d else d) t)
            end
        end
  end.

Definition mark_as_writing (random : nat) (b : piece_block) (peer : Z) (t : piece_picker) : bool * piece_picker :=
  match piece_at (m_piece_map t) (piece_index b) with
  | None => (false, t)
  | Some p =>
      if negb (downloading p) then
        if have p then (false, t)
        else
          let t := start_piece random b p t in
          match find_block b t with
          | None => (true, t)
          | Some (j, d, info) =>
              let d := set_counts (dp_finished d) 1 (dp_requested d) (set_dp_state none d) in
              let t := set_dp j d (set_block (dp_info d + block_index b) (BlockInfo peer 0 state_writing) t) in
              (true, update_full d t)
          end
      else
        match find_block b t with
        | None => (false, t)
        | Some (j, d, info) =>
            let k := (dp_info d + block_index b)%nat in
            match bi_state info with
            | state_writing | state_finished =>
                (false, set_block k (BlockInfo peer (bi_num_peers info) (bi_state info)) t)
            | st =>
                let requested := if bool_decide (st = state_requested) then dp_requested d - 1 else dp_requested d in
                let d := set_counts (dp_finished d) (dp_writing d + 1) requested d in
                let d := if requested =? 0 then set_dp_state none d else d in
                (true, set_dp j d (set_block k (BlockInfo peer 0 state_writing) t))
            end
        end
  end.

Definition mark_as_finished (random : nat) (b : piece_block) (peer : Z) (t : piece_picker) : piece_picker :=
  match piece_at (m_piece_map t) (piece_index b) with
  | None => t
  | Some p =>
      if negb (downloading p) then
        if have p then t
        else
          let t := start_piece random b p t in
          match find_block b t with
          | None => t
          | Some (j, d, info) =>
              let finished := if bool_decide (bi_state info = state_finished) then dp_finished d else dp_finished d + 1 in
              let d := set_counts finished (dp_writing d) (dp_requested d) (set_dp_state none d) in
              set_dp j d (set_block (dp_info d + block_index b)
                (BlockInfo peer (bi_num_peers info) state_finished) t)
          end
      else
        match find_block b t with
        | None => t
        | Some (j, d, info) =>
            if bool_decide (bi_state info = state_finished) then t
            else
              let writing := if bool_decide (bi_state info = state_writing) then dp_writing d - 1 else dp_writing d in
              let d := set_counts (dp_finished d + 1) writing (dp_requested d) d in
              set_dp j d (set_block (dp_info d + block_index b)
                (BlockInfo peer (bi_num_peers info) state_finished) t)
        end
  end.

(** The entry [j] of piece [i] is erased and the piece moves to its new
    place. *)
Definition drop_download (random : nat) (j : nat) (i : Z) (t : piece_picker) : piece_picker :=
  match piece_at (m_piece_map t) i with
  | None => t
  | Some p =>
      reorder random (priority (m_seeds t) p) (priority (m_seeds t) (set_downloading false p)) i p
        (erase_download_piece j t)
  end.

Definition restore_piece (random : nat) (i : Z) (t : piece_picker) : piece_picker :=
  match find_dl_piece i t with
  | None => t
  | Some (j, _) => drop_download random j i t
  end.

Definition write_failed (random : nat) (b : piece_block) (t : piece_picker) : piece_picker :=
  match find_block b t with
  | None => t
  | Some (j, d, info) =>
      if bool_decide (bi_state info = state_finished) then t
      else
        let writing := if bool_decide (bi_state info = state_writing) then dp_writing d - 1 else dp_writing d in
        let d := set_counts (dp_finished d) writing (dp_requested d) d in
        let t := set_dp j d (set_block (dp_info d + block_index b) (BlockInfo 0 (bi_num_peers info) state_none) t) in
        let t := update_full d t in
        if dp_finished d + dp_writing d + dp_requested d =? 0 then drop_download random j (piece_index b) t else t
  end.

(** [abort_download]: [prev_prio] and the priority after the erasure decide; an
    [update] to the same priority does nothing. *)
Definition abort_download (random : nat) (b : piece_block) (peer : Z) (t : piece_picker) : piece_picker :=
  match piece_at (m_piece_map t) (piece_index b), find_block b t with
  | Some p, Some (j, d, info) =>
      if negb (downloading p) then t
      else
        match bi_state info with
        | state_requested =>
            let k := (dp_info d + block_index b)%nat in
            let n := if 0 <? bi_num_peers info then bi_num_peers info - 1 else bi_num_peers info in
            let pr := if bi_peer info =? peer then 0 else bi_peer info in
            if 0 <? n then set_block k (BlockInfo pr n state_requested) t
            else
              let d := set_counts (dp_finished d) (dp_writing d) (dp_requested d - 1) d in
              let t := update_full d (set_dp j d (set_block k (BlockInfo 0 n state_none) t)) in
              if dp_requested d + dp_finished d + dp_writing d =? 0
              then drop_download random j (piece_index b) t
              else if dp_requested d =? 0 then set_dp j (set_dp_state none d) t else t
        | _ => t
        end
  | _, _ => t
  end.

Definition clear_peer (peer : Z) (t : piece_picker) : piece_picker :=
  with_downloads (m_downloads t)
    ((fun b => if bi_peer b =? peer then BlockInfo 0 (bi_num_peers b) (bi_state b) else b) <$> m_block_info t) t.

(** ** Having pieces, wanting pieces *)

(** The number of regions of missing pieces when piece [i] arrives. *)
Definition sparse_regions_have (i : nat) (map : list piece_pos) (n : Z) : Z :=
  let have_at k := match map !! k with Some p => have p | None => false end in
  if (i =? 0)%nat then
    if (i =? length map - 1)%nat || have_at (S i) then n - 1 else n
  else if (i =? length map - 1)%nat then
    if have_at (i - 1)%nat then n - 1 else n
  else
    let have_before := have_at (i - 1)%nat in
    let have_after := have_at (S i) in
    if have_after && have_before then n - 1
    else if negb have_after && negb have_before then n + 1 else n.

Definition we_have (i : Z) (t : piece_picker) : piece_picker :=
  match piece_at (m_piece_map t) i with
  | None => t
  | Some p =>
      let info_index := Z.to_nat (index p) in
      let prio := priority (m_seeds t) p in
      let t := if downloading p
               then match find_dl_piece i t with Some (j, _) => erase_download_piece j t | None => t end
               else t in
      if have p then t
      else
        let t := with_sparse (sparse_regions_have (Z.to_nat i) (m_piece_map t) (m_sparse_regions t)) t in
        let t := if filtered p
                 then with_counts (m_num_filtered t - 1) (m_num_have_filtered t + 1) (m_num_have t + 1) t
                 else with_counts (m_num_filtered t) (m_num_have_filtered t) (m_num_have t + 1) t in
        let t := with_map (alter_piece set_have i (m_piece_map t)) t in
        let t := cursors_done (Z.to_nat i) (m_piece_map t) t in
        if prio =? -1 then t
        else if m_dirty t then t
        else remove (Z.to_nat prio) info_index t
  end.

Definition we_dont_have (random : nat) (i : Z) (t : piece_picker) : piece_picker :=
  match piece_at (m_piece_map t) i with
  | None => t
  | Some p =>
      if negb (have p) then t
      else
        let t := if filtered p
                 then with_counts (m_num_filtered t + 1) (m_num_have_filtered t - 1) (m_num_have t) t
                 else cursors_wanted (Z.to_nat i) t in
        let t := with_counts (m_num_filtered t) (m_num_have_filtered t) (m_num_have t - 1) t in
        let p := set_not_have p in
        let t := with_map (alter_piece (fun _ => p) i (m_piece_map t)) t in
        if m_dirty t then t
        else if 0 <=? priority (m_seeds t) p then add random i t else t
  end.

Definition set_piece_priority (random : nat) (i new_piece_priority : Z) (t : piece_picker) : bool * piece_picker :=
  match piece_at (m_piece_map t) i with
  | None => (false, t)
  | Some p =>
      if new_piece_priority =? piece_priority p then (false, t)
      else
        let prev_priority := priority (m_seeds t) p in
        let '(ret, t) :=
          if (new_piece_priority =? filter_priority) && negb (piece_priority p =? filter_priority) then
            (true,
             if have p then with_counts (m_num_filtered t) (m_num_have_filtered t + 1) (m_num_have t) t
             else cursors_done (Z.to_nat i) (m_piece_map t)
                    (with_counts (m_num_filtered t + 1) (m_num_have_filtered t) (m_num_have t) t))
          else if negb (new_piece_priority =? filter_priority) && (piece_priority p =? filter_priority) then
            (true,
             if have p then with_counts (m_num_filtered t) (m_num_have_filtered t - 1) (m_num_have t) t
             else cursors_wanted (Z.to_nat i)
                    (with_counts (m_num_filtered t - 1) (m_num_have_filtered t) (m_num_have t) t))
          else (false, t) in
        let p' := set_priority new_piece_priority p in
        let t := with_map (alter_piece (fun _ => p') i (m_piece_map t)) t in
        (ret, reorder random prev_priority (priority (m_seeds t) p') i p t)
  end.

(** ** Queries *)

Definition block_state_of (b : piece_block) (t : piece_picker) : option block_state :=
  '(_, _, info) ← find_block b t; Some (bi_state info).

Definition is_requested (b : piece_block) (t : piece_picker) : bool :=
  match piece_at (m_piece_map t) (piece_index b) with
  | Some p => downloading p && bool_decide (block_state_of b t = Some state_requested)
  | None => false
  end.

Definition is_downloaded (b : piece_block) (t : piece_picker) : bool :=
  match piece_at (m_piece_map t) (piece_index b) with
  | Some p => have p || (downloading p
      && (bool_decide (block_state_of b t = Some state_finished) || bool_decide (block_state_of b t = Some state_writing)))
  | None => false
  end.

Definition is_finished (b : piece_block) (t : piece_picker) : bool :=
  match piece_at (m_piece_map t) (piece_index b) with
  | Some p => have p || (downloading p && bool_decide (block_state_of b t = Some state_finished))
  | None => false
  end.

Definition is_piece_finished (i : Z) (t : piece_picker) : bool :=
  match piece_at (m_piece_map t) i, find_dl_piece i t with
  | Some p, Some (_, d) => downloading p && (Z.of_nat (blocks_in_piece t i) <=? dp_finished d + dp_writing d)
  | _, _ => false
  end.

Definition num_peers (b : piece_block) (t : piece_picker) : Z :=
  match piece_at (m_piece_map t) (piece_index b), find_block b t with
  | Some p, Some (_, _, info) => if downloading p then bi_num_peers info else 0
  | _, _ => 0
  end.

Definition get_downloader (b : piece_block) (t : piece_picker) : Z :=
  match find_block b t with
  | Some (_, _, info) => if bool_decide (bi_state info = state_none) then 0 else bi_peer info
  | None => 0
  end.

Definition get_downloaders (i : Z) (t : piece_picker) : list Z :=
  match find_dl_piece i t with
  | Some (_, d) => bi_peer <$> take (blocks_in_piece t i) (drop (dp_info d) (m_block_info t))
  | None => []
  end.

Definition unverified_blocks (t : piece_picker) : Z := foldr (fun d n => dp_finished d + n) 0 (m_downloads t).

Definition get_availability (t : piece_picker) : list Z := (fun p => peer_count p + m_seeds t) <$> m_piece_map t.

Fixpoint copies_loop (min_availability integer_part fraction_part : Z) (map : list piece_pos) : Z * Z * Z :=
  match map with
  | [] => (min_availability, integer_part, fraction_part)
  | p :: map =>
      let n := if have p then peer_count p + 1 else peer_count p in
      if n <? min_availability then copies_loop n 1 (fraction_part + integer_part) map
      else if n =? min_availability then copies_loop min_availability (integer_part + 1) fraction_part map
      else copies_loop min_availability integer_part (fraction_part + 1) map
  end.

Definition distributed_copies (t : piece_picker) : Z * Z :=
  if (num_pieces t =? 0)%nat then (1, 0)
  else
    let '(min_availability, _, fraction_part) := copies_loop max_peer_count 0 0 (m_piece_map t) in
    (min_availability + m_seeds t, fraction_part * 1000 / Z.of_nat (num_pieces t)).

Definition piece_priorities (t : piece_picker) : list Z := piece_priority <$> m_piece_map t.

Definition filtered_pieces (t : piece_picker) : list bool := filtered <$> m_piece_map t.

(** The out parameter [st] keeps its [state] unless the piece is being
    downloaded; the pointer to the blocks is cleared, here to offset 0. *)
Definition piece_info (i : Z) (st : downloading_piece) (t : piece_picker) : downloading_piece :=
  match piece_at (m_piece_map t) i with
  | None => st
  | Some p =>
      if downloading p then
        match find_dl_piece i t with
        | Some (_, d) => Downloading (dp_state d) (dp_index d) 0 (dp_finished d) (dp_writing d) (dp_requested d)
        | None => st
        end
      else Downloading (dp_state st) i 0 (if have p then Z.of_nat (blocks_in_piece t i) else 0) 0 0
  end.
