(* ===== verification/PiecePickerBuckets.v ===== *)
(** * The priority buckets of the piece picker

    [m_pieces] and [m_priority_boundries] represent a list of buckets, one per
    priority.  [add], [remove], [update] and [shuffle] move one piece between
    the buckets in place, by shifting one piece of every bucket in between; they
    are shown to refine the change of the piece's bucket, and the positions
    stored in the pieces to stay right. *)

From S2P Require Import Prelude Archive Md4Hash Bitfield PiecePicker.
From stdpp Require Import list sorting.
Open Scope Z_scope.

(** ** Buckets as lists *)

Fixpoint sums (n : nat) (Bs : list (list Z)) : list nat :=
  match Bs with
  | [] => []
  | b :: Bs => (n + length b)%nat :: sums (n + length b) Bs
  end.

(** The first element moves to the end; the last element moves to the front. *)
Definition rotate_left (l : list Z) : list Z := match l with [] => [] | c :: cs => cs ++ [c] end.
Definition rotate_right (l : list Z) : list Z := match reverse l with [] => [] | c :: cs => c :: reverse cs end.

Lemma rotl_perm l : rotate_left l ≡ₚ l.
Proof. destruct l as [|c cs]; [done|]. cbn. by rewrite <- Permutation_cons_append. Qed.

Lemma rotr_snoc cs c : rotate_right (cs ++ [c]) = c :: cs.
Proof. unfold rotate_right. rewrite reverse_snoc. by rewrite reverse_involutive. Qed.

Lemma rotr_perm l : rotate_right l ≡ₚ l.
Proof.
  destruct l as [|c cs] using rev_ind; [done|]. rewrite rotr_snoc. by rewrite <- Permutation_cons_append.
Qed.

Lemma length_rotl l : length (rotate_left l) = length l.
Proof. by rewrite rotl_perm. Qed.
Lemma length_rotr l : length (rotate_right l) = length l.
Proof. by rewrite rotr_perm. Qed.

Lemma sums_app n A B : sums n (A ++ B) = sums n A ++ sums (n + length (concat A)) B.
Proof.
  revert n. induction A as [|a A IH]; intros n; cbn [app sums concat length].
  - by rewrite Nat.add_0_r.
  - rewrite IH, length_app. by rewrite Nat.add_assoc.
Qed.

Lemma length_sums n Bs : length (sums n Bs) = length Bs.
Proof. revert n. induction Bs as [|b Bs IH]; intros n; cbn; [done|]. by rewrite IH. Qed.

Lemma sums_S n Bs : sums (S n) Bs = S <$> sums n Bs.
Proof. revert n. induction Bs as [|b Bs IH]; intros n; cbn; [done|]. f_equal. apply (IH (n + length b)%nat). Qed.

Lemma sums_same n (f : list Z -> list Z) Bs : (forall b, length (f b) = length b) -> sums n (f <$> Bs) = sums n Bs.
Proof. intros Hf. revert n. induction Bs as [|b Bs IH]; intros n; cbn; [done|]. by rewrite Hf, IH. Qed.

Lemma length_concat_same (f : list Z -> list Z) (Bs : list (list Z)) :
  (forall b, length (f b) = length b) -> length (concat (f <$> Bs)) = length (concat Bs).
Proof. intros Hf. induction Bs as [|b Bs IH]; cbn; [done|]. by rewrite !length_app, Hf, IH. Qed.

(** Reading and writing the boundary behind a prefix. *)
Lemma lookup_total_mid (pre : list nat) x post : (pre ++ x :: post) !!! length pre = x.
Proof. by rewrite list_lookup_total_middle. Qed.

Lemma insert_mid (pre : list nat) x y post : <[length pre := y]> (pre ++ x :: post) = pre ++ y :: post.
Proof. by rewrite insert_app_r_alt, Nat.sub_diag by lia. Qed.

Lemma lookup_total_midZ (F : list Z) x R : (F ++ x :: R) !!! length F = x.
Proof. by rewrite list_lookup_total_middle. Qed.

Lemma insert_midZ (F : list Z) x y R : <[length F := y]> (F ++ x :: R) = F ++ y :: R.
Proof. by rewrite insert_app_r_alt, Nat.sub_diag by lia. Qed.

(** ** Positions *)

(** Every piece at a position other than [e] stores that position. *)
Definition synced (e : option nat) (ps : list Z) (map : list piece_pos) : Prop :=
  forall k i, ps !! k = Some i -> 0 <= i -> Some k <> e ->
  exists p, piece_at map i = Some p /\ index p = Z.of_nat k.

(** Nothing but stored positions changes, and no piece becomes one we have or
    stops being one. *)
Definition reindexed (map map' : list piece_pos) : Prop :=
  Forall2 (fun p q => (exists n, q = set_index n p) /\ have q = have p) map map'.

Lemma reindexed_refl map : reindexed map map.
Proof. apply Forall_Forall2_diag, Forall_forall. intros [] _. split; [by eexists|done]. Qed.

Lemma reindexed_trans map1 map2 map3 : reindexed map1 map2 -> reindexed map2 map3 -> reindexed map1 map3.
Proof.
  unfold reindexed. apply Forall2_trans. intros p q r [[n ->] H1] [[m ->] H2]. split; [by exists m|congruence].
Qed.

Lemma reindexed_lookup map map' i p :
  reindexed map map' -> piece_at map i = Some p ->
  exists q, piece_at map' i = Some q /\ (exists n, q = set_index n p) /\ have q = have p.
Proof. intros Hr Hp. unfold piece_at in *. eapply Forall2_lookup_l in Hr as (q & Hq & ? & ?); [|done]. eauto. Qed.

Lemma priority_set_index seeds p n : have (set_index n p) = have p -> priority seeds (set_index n p) = priority seeds p.
Proof. unfold priority, filtered. intros ->. done. Qed.

Lemma reindexed_priority map map' seeds i p :
  reindexed map map' -> piece_at map i = Some p ->
  exists q, piece_at map' i = Some q /\ priority seeds q = priority seeds p.
Proof.
  intros Hr Hp. destruct (reindexed_lookup _ _ _ _ Hr Hp) as (q & Hq & [n ->] & Hh).
  exists (set_index n p). split; [done|]. by apply priority_set_index.
Qed.

(** A piece we do not have. *)
Definition missing (map : list piece_pos) (i : Z) : Prop :=
  0 <= i /\ exists p, piece_at map i = Some p /\ have p = false.

Lemma missing_reindexed map map' i : reindexed map map' -> missing map i -> missing map' i.
Proof.
  intros Hr [Hi (p & Hp & Hh)]. split; [done|]. destruct (reindexed_lookup _ _ _ _ Hr Hp) as (q & Hq & _ & E).
  exists q. split; congruence.
Qed.

Lemma reindexed_write map i (n : nat) :
  missing map i -> Z.of_nat n < we_have_index -> reindexed map (alter_piece (set_index (Z.of_nat n)) i map).
Proof.
  intros [Hi (p & Hp & Hh)] Hn. unfold reindexed, alter_piece, piece_at in *. apply Forall2_same_length_lookup.
  split; [by rewrite length_alter|]. intros k x y Hx Hy. destruct (decide (k = Z.to_nat i)) as [->|Hne].
  - rewrite list_lookup_alter_eq, Hx in Hy. injection Hy as <-. rewrite Hp in Hx. injection Hx as <-.
    split; [by eexists|]. rewrite Hh. unfold have. cbn. apply Z.eqb_neq. lia.
  - rewrite list_lookup_alter_ne in Hy by done. rewrite Hx in Hy. injection Hy as <-.
    split; [destruct x; by eexists|done].
Qed.

Lemma piece_at_alter f i j map :
  0 <= i -> 0 <= j -> piece_at (alter_piece f i map) j = if decide (i = j) then f <$> piece_at map i else piece_at map j.
Proof.
  intros Hi Hj. unfold piece_at, alter_piece. case_decide as E; [subst; by rewrite list_lookup_alter_eq|].
  rewrite list_lookup_alter_ne; [done|]. lia.
Qed.

(** Piece [i] moves to position [k], the hole. *)
Lemma synced_write e k i ps map :
  synced e ps map -> missing map i -> (forall j, ps !! j = Some i -> Some j = e \/ j = k) -> (k < length ps)%nat ->
  synced (if decide (e = Some k) then None else e) (<[k := i]> ps) (alter_piece (set_index (Z.of_nat k)) i map).
Proof.
  intros Hs [Hi (p & Hp & _)] Hnot Hk j x Hj Hx He. rewrite piece_at_alter by done.
  destruct (decide (j = k)) as [->|Hne].
  - rewrite list_lookup_insert_eq in Hj by done. injection Hj as <-. rewrite decide_True, Hp by done. cbn. by eexists.
  - rewrite list_lookup_insert_ne in Hj by done.
    assert (Some j <> e) as He' by (case_decide as E; subst; congruence).
    rewrite decide_False; [by apply Hs|]. intros <-. destruct (Hnot j Hj); congruence.
Qed.

(** Piece [c] at [s] fills the hole at [e]; the hole is at [s] then. *)
Lemma synced_move e s c ps map :
  synced (Some e) ps map -> missing map c -> (e < length ps)%nat ->
  (forall j, ps !! j = Some c -> j = s \/ j = e) ->
  synced (Some s) (<[e := c]> ps) (alter_piece (set_index (Z.of_nat e)) c map).
Proof.
  intros Hs [Hc (p & Hp & _)] He Hj k i Hk Hi Hne. rewrite piece_at_alter by done.
  destruct (decide (k = e)) as [->|Hke].
  - rewrite list_lookup_insert_eq in Hk by done. injection Hk as <-. rewrite decide_True, Hp by done. by eexists.
  - rewrite list_lookup_insert_ne in Hk by done. rewrite decide_False; [apply Hs; congruence|].
    intros <-. destruct (Hj k Hk); congruence.
Qed.

Lemma lookup_mid_unique (F R : list Z) c j : c ∉ F -> c ∉ R -> (F ++ c :: R) !! j = Some c -> j = length F.
Proof.
  intros HF HR Hj. apply lookup_app_Some in Hj as [Hj|[Hle Hj]]; [by apply list_elem_of_lookup_2 in Hj|].
  destruct (j - length F)%nat as [|r] eqn:Er; [lia|]. cbn in Hj. by apply list_elem_of_lookup_2 in Hj.
Qed.

(** ** add *)

Lemma add_skip_fuel n m bs prio k :
  (prio < length bs)%nat -> (length bs - prio <= n)%nat -> (length bs - prio <= m)%nat ->
  add_skip n bs prio k = add_skip m bs prio k.
Proof.
  revert m bs prio. induction n as [|n IH]; intros [|m] bs prio Hp Hn Hm; try lia. cbn [add_skip].
  rewrite length_insert. destruct (_ =? _)%nat; cbn [andb]; [|done].
  destruct (Nat.ltb_spec (S prio) (length bs)); [|done]. apply IH; rewrite length_insert; lia.
Qed.

(** An empty bucket is skipped. *)
Lemma add_loop_empty n ps map pre (F : list Z) Bs idx :
  Bs <> [] ->
  add_loop (S n) ps map (pre ++ sums (length F) ([] :: Bs)) (length pre) (length F) idx =
  add_loop (S n) ps map ((pre ++ [S (length F)]) ++ sums (length F) Bs) (length (pre ++ [S (length F)])) (length F) idx.
Proof.
  intros HB. cbn [sums length]. rewrite Nat.add_0_r. cbn [add_loop].
  set (bs := (pre ++ [S (length F)]) ++ sums (length F) Bs).
  assert (length Bs > 0)%nat by (destruct Bs; [done|cbn; lia]).
  assert (length (pre ++ length F :: sums (length F) Bs) = S (length pre + length Bs)) as El
    by (rewrite length_app; cbn; rewrite length_sums; lia).
  assert (length bs = S (length pre + length Bs)) as Eb
    by (subst bs; rewrite !length_app, length_sums; cbn; lia).
  rewrite El. cbn [add_skip]. rewrite lookup_total_mid, insert_mid, Nat.eqb_refl. cbn [andb].
  replace (pre ++ S (length F) :: sums (length F) Bs) with bs by (subst bs; by rewrite <- app_assoc).
  destruct (Nat.ltb_spec (S (length pre)) (length bs)) as [_|]; [|lia].
  rewrite length_app. cbn [length]. rewrite Nat.add_1_r.
  rewrite (add_skip_fuel (length pre + length Bs) (length bs)) by lia. done.
Qed.

(** What [add] stores after its loop. *)
Definition add_store (r : list Z * list piece_pos * list nat * nat * Z) : list Z * list piece_pos * list nat :=
  let '(ps, map, bs, new_index, index) := r in
  if index =? -1 then (ps, map, bs)
  else (<[new_index := index]> ps, alter_piece (set_index (Z.of_nat new_index)) index map, bs).

(** [idx] is written behind [F], and one piece of every bucket in [Bs] moves to
    its end. *)
Lemma add_loop_spec (n : nat) (Bs : list (list Z)) (F : list Z) (idx : Z) map (pre : list nat) :
  Bs <> [] -> (length Bs <= n)%nat ->
  Forall (missing map) (idx :: F ++ concat Bs) -> NoDup (idx :: F ++ concat Bs) ->
  synced None (F ++ concat Bs ++ [-1]) map ->
  Z.of_nat (length (F ++ concat Bs)) < we_have_index ->
  exists map', add_store (add_loop n (F ++ concat Bs ++ [-1]) map (pre ++ sums (length F) Bs) (length pre) (length F) idx)
    = (F ++ idx :: concat (rotate_left <$> Bs), map', pre ++ sums (S (length F)) Bs) /\
  reindexed map map' /\ synced None (F ++ idx :: concat (rotate_left <$> Bs)) map'.
Proof.
  revert n F idx map pre. induction Bs as [|b Bs IH]; intros n F idx map pre HB Hn Hm Hd Hs Hlen; [done|].
  destruct n as [|n]; [cbn in Hn; lia|].
  apply Forall_cons in Hm as [Hmi Hm]. apply NoDup_cons in Hd as [Hdi Hd].
  assert (forall k, (F ++ concat (b :: Bs) ++ [-1]) !! k = Some idx -> Some k = None \/ k = length F) as Hnot.
  { intros k Hk. apply list_elem_of_lookup_2 in Hk. rewrite app_assoc in Hk. apply elem_of_app in Hk as [Hk|Hk]; [done|].
    apply list_elem_of_singleton in Hk. destruct Hmi as [? _]. lia. }
  assert (length F < length (F ++ concat (b :: Bs) ++ [(-1)%Z]))%nat as HF by (rewrite !length_app; cbn; lia).
  pose proof (synced_write None (length F) idx _ map Hs Hmi Hnot HF) as Hw. cbn [decide] in Hw.
  rewrite decide_False in Hw by done.
  assert (reindexed map (alter_piece (set_index (Z.of_nat (length F))) idx map)) as Hre.
  { apply reindexed_write; [done|]. rewrite length_app in Hlen. lia. }
  destruct b as [|c cs].
  - destruct Bs as [|b' Bs].
    + cbn [concat app sums length] in *. rewrite Nat.add_0_r. cbn [add_loop].
      rewrite length_app. cbn [length]. rewrite Nat.add_1_r. cbn [add_skip].
      rewrite lookup_total_mid, insert_mid, Nat.eqb_refl, lookup_total_midZ, insert_midZ.
      rewrite length_app. cbn [length]. rewrite Nat.add_1_r, Nat.ltb_irrefl. cbn [andb].
      rewrite length_app. cbn [length]. rewrite Nat.add_1_r, Nat.leb_refl. cbn [add_store Z.eqb].
      rewrite insert_midZ in Hw. eexists. split; [cbn; rewrite Nat.add_0_r; reflexivity|]. done.
    + rewrite add_loop_empty by done. cbn [concat app] in *.
      destruct (IH (S n) F idx map (pre ++ [S (length F)])) as (map' & E & H1 & H2); try done.
      * cbn [length] in *. lia.
      * by apply Forall_cons.
      * by apply NoDup_cons.
      * exists map'. split; [|done]. etrans; [exact E|]. f_equal. rewrite <- app_assoc. cbn. by rewrite !Nat.add_0_r.
  - cbn [concat app] in *. cbn [add_loop sums].
    rewrite lookup_total_midZ, insert_midZ in *.
    destruct (length (pre ++ (length F + length (c :: cs))%nat :: sums (length F + length (c :: cs)) Bs)) as [|m] eqn:El;
      [rewrite length_app in El; cbn in El; lia|].
    cbn [add_skip]. rewrite lookup_total_mid, insert_mid.
    replace (length F + length (c :: cs) =? length F)%nat with false by (symmetry; apply Nat.eqb_neq; cbn; lia).
    cbn [andb].
    assert (F ++ idx :: (cs ++ concat Bs) ++ [-1] = (F ++ idx :: cs) ++ concat Bs ++ [-1]) as EA
      by (by rewrite <- !app_assoc).
    assert (length (F ++ idx :: cs) = length F + length (c :: cs))%nat as EL by (rewrite length_app; cbn; lia).
    assert (missing map c) as Hmc by (rewrite Forall_app in Hm; destruct Hm as [_ Hm]; by inversion Hm).
    pose proof (missing_reindexed _ _ _ Hre Hmc) as Hmc'.
    set (map1 := alter_piece (set_index (Z.of_nat (length F))) idx map) in *.
    assert (c :: (F ++ idx :: cs) ++ concat Bs ≡ₚ idx :: F ++ (c :: cs) ++ concat Bs) as Hperm.
    { rewrite <- !Permutation_middle. cbn [app]. rewrite <- Permutation_middle, <- app_assoc. apply perm_swap. }
    assert (NoDup (c :: (F ++ idx :: cs) ++ concat Bs)) as Hd' by (rewrite Hperm; by apply NoDup_cons).
    assert (Forall (missing map1) (c :: (F ++ idx :: cs) ++ concat Bs)) as Hm'.
    { rewrite Hperm. apply (Forall_impl (missing map)); [by apply Forall_cons|]. intros x. by apply missing_reindexed. }
    rewrite length_app. cbn [length]. rewrite length_sums.
    destruct (Nat.leb_spec (length pre + S (length Bs)) (S (length pre))) as [Hle|Hgt].
    + assert (Bs = []) as -> by (destruct Bs; [done|cbn in Hle; lia]). cbn [concat app add_store sums fmap list_fmap rotate_left].
      destruct (Z.eqb_spec c (-1)); [destruct Hmc; lia|].
      rewrite !app_nil_r in *. rewrite EA. cbn [concat app].
      replace (length F + S (length cs))%nat with (length (F ++ idx :: cs)) by (rewrite EL; cbn; lia).
      rewrite insert_midZ. exists (alter_piece (set_index (Z.of_nat (length (F ++ idx :: cs)))) c map1).
      split; [f_equal; [f_equal; by rewrite <- app_assoc|do 2 f_equal; rewrite EL; cbn; lia]|]. split.
      * eapply reindexed_trans; [done|]. apply reindexed_write; [done|]. rewrite !length_app in *. cbn [length] in *. lia.
      * rewrite EA in Hw. cbn [concat app] in Hw.
        assert ((F ++ idx :: cs ++ [c]) = <[length (F ++ idx :: cs) := c]> ((F ++ idx :: cs) ++ [-1])) as ->
          by (rewrite insert_midZ, <- app_assoc; done).
        pose proof (synced_write None (length (F ++ idx :: cs)) c ((F ++ idx :: cs) ++ [-1]) map1 Hw Hmc') as H.
        rewrite decide_False in H by done. apply H; [|rewrite !length_app; cbn; lia].
        intros j Hj. apply list_elem_of_lookup_2, elem_of_app in Hj as [Hj|Hj].
        -- by apply NoDup_cons in Hd' as [? _].
        -- apply list_elem_of_singleton in Hj. lia.
    + rewrite EA in *. replace (length F + S (length cs))%nat with (length (F ++ idx :: cs)) by (rewrite EL; cbn; lia).
      destruct (IH n (F ++ idx :: cs) c map1 (pre ++ [S (length (F ++ idx :: cs))])) as (map' & E & H1 & H2); try done.
      * intros ->. cbn in Hgt. lia.
      * cbn [length] in Hn. lia.
      * rewrite !length_app in *. cbn [length] in *. rewrite !length_app in *. lia.
      * replace (length (pre ++ [S (length (F ++ idx :: cs))])) with (S (length pre)) in E
          by (rewrite (length_app pre); cbn; lia).
        rewrite <- !(app_assoc pre) in E. cbn [app] in E.
        exists map'. split; [|split; [by eapply reindexed_trans|]].
        -- etrans; [exact E|]. cbn [fmap list_fmap rotate_left concat sums length]. rewrite <- !app_assoc. cbn [app].
           by rewrite Nat.add_succ_l, EL.
        -- cbn [fmap list_fmap rotate_left concat]. rewrite <- !app_assoc in *. done.
Qed.

(** ** remove *)

Lemma remove_skip_fuel n m bs prio k :
  (prio < length bs)%nat -> (length bs - prio <= n)%nat -> (length bs - prio <= m)%nat ->
  remove_skip n bs prio k = remove_skip m bs prio k.
Proof.
  revert m bs prio. induction n as [|n IH]; intros [|m] bs prio Hp Hn Hm; try lia. cbn [remove_skip].
  rewrite length_insert. destruct (_ =? _)%nat; cbn [andb]; [|done].
  destruct (Nat.ltb_spec (S prio) (length bs)); [|done]. apply IH; rewrite length_insert; lia.
Qed.

Lemma remove_loop_empty n ps map pre (F : list Z) Bs :
  Bs <> [] ->
  remove_loop (S n) ps map (pre ++ sums (S (length F)) ([] :: Bs)) (length pre) (length F) (length F) =
  remove_loop (S n) ps map ((pre ++ [length F]) ++ sums (S (length F)) Bs) (length (pre ++ [length F])) (length F) (length F).
Proof.
  intros HB. cbn [sums length]. rewrite Nat.add_0_r. cbn [remove_loop].
  set (bs := (pre ++ [length F]) ++ sums (S (length F)) Bs).
  assert (length Bs > 0)%nat by (destruct Bs; [done|cbn; lia]).
  assert (length (pre ++ S (length F) :: sums (S (length F)) Bs) = S (length pre + length Bs)) as El
    by (rewrite length_app; cbn; rewrite length_sums; lia).
  assert (length bs = S (length pre + length Bs)) as Eb
    by (subst bs; rewrite !length_app, length_sums; cbn; lia).
  rewrite El. cbn [remove_skip]. rewrite lookup_total_mid, insert_mid, Nat.sub_1_r. cbn [Nat.pred].
  rewrite Nat.eqb_refl. cbn [andb].
  replace (pre ++ length F :: sums (S (length F)) Bs) with bs by (subst bs; by rewrite <- app_assoc).
  destruct (Nat.ltb_spec (S (length pre)) (length bs)) as [_|]; [|lia].
  rewrite (length_app pre). cbn [length]. rewrite Nat.add_1_r.
  rewrite (remove_skip_fuel (length pre + length Bs) (length bs)) by lia. done.
Qed.

Lemma sums_pred n Bs : sums n Bs = Nat.pred <$> sums (S n) Bs.
Proof. rewrite sums_S, <- list_fmap_compose. symmetry. apply list_fmap_id. Qed.

(** The hole behind [F] is filled by the last piece of every bucket in [Bs]; the
    hole ends up last. *)
Lemma remove_loop_spec (n : nat) (Bs : list (list Z)) (F : list Z) (h : Z) map (pre : list nat) :
  Bs <> [] -> (length Bs <= n)%nat ->
  Forall (missing map) (concat Bs) -> NoDup (F ++ concat Bs) -> h ∉ concat Bs ->
  synced (Some (length F)) (F ++ h :: concat Bs) map ->
  Z.of_nat (length (F ++ concat Bs)) < we_have_index ->
  exists h' map', remove_loop n (F ++ h :: concat Bs) map (pre ++ sums (S (length F)) Bs) (length pre) (length F) (length F)
    = ((F ++ concat (rotate_right <$> Bs)) ++ [h'], map', pre ++ sums (length F) Bs) /\
  reindexed map map' /\ synced None (F ++ concat (rotate_right <$> Bs)) map'.
Proof.
  revert n F h map pre. induction Bs as [|b Bs IH]; intros n F h map pre HB Hn Hm Hd Hh Hs Hlen; [done|].
  destruct n as [|n]; [cbn in Hn; lia|]. destruct b as [|c cs _] using rev_ind.
  - destruct Bs as [|b' Bs].
    + cbn [concat app sums length] in *. rewrite Nat.add_0_r. cbn [remove_loop].
      rewrite length_app. cbn [length]. rewrite Nat.add_1_r. cbn [remove_skip].
      rewrite lookup_total_mid, insert_mid, Nat.sub_1_r. cbn [Nat.pred].
      rewrite Nat.eqb_refl, length_app. cbn [length]. rewrite Nat.add_1_r, Nat.ltb_irrefl. cbn [andb].
      rewrite Nat.eqb_refl. exists h, map. cbn. rewrite !app_nil_r, Nat.add_0_r. split; [done|].
      split; [apply reindexed_refl|]. intros k i Hk Hi _. apply Hs; [by apply lookup_app_l_Some|done|].
      apply lookup_lt_Some in Hk. intros [= ->]. lia.
    + rewrite remove_loop_empty by done. cbn [concat app] in *.
      destruct (IH (S n) F h map (pre ++ [length F])) as (h' & map' & E & H1 & H2); try done.
      * cbn [length] in *. lia.
      * exists h', map'. split; [|done]. etrans; [exact E|]. f_equal. rewrite <- app_assoc. cbn. by rewrite !Nat.add_0_r.
  - cbn [concat] in *. cbn [remove_loop sums].
    destruct (length (pre ++ (S (length F) + length (cs ++ [c]))%nat :: sums (S (length F) + length (cs ++ [c])) Bs))
      as [|m] eqn:El; [rewrite length_app in El; cbn in El; lia|].
    cbn [remove_skip]. rewrite lookup_total_mid, insert_mid, Nat.sub_1_r. cbn [Nat.add Nat.pred].
    assert (length (cs ++ [c]) = S (length cs)) as Ec by (rewrite length_app; cbn; lia).
    replace (length F =? length F + length (cs ++ [c]))%nat with false by (symmetry; apply Nat.eqb_neq; lia).
    cbn [andb].
    replace (length F =? length F + length (cs ++ [c]))%nat with false by (symmetry; apply Nat.eqb_neq; lia).
    assert (length (F ++ h :: cs) = length F + length (cs ++ [c]))%nat as EL by (rewrite length_app, Ec; cbn; lia).
    assert (F ++ h :: (cs ++ [c]) ++ concat Bs = (F ++ h :: cs) ++ c :: concat Bs) as EA by (by rewrite <- !app_assoc).
    rewrite EA, <- EL. rewrite lookup_total_midZ.
    rewrite <- app_assoc. cbn [app]. rewrite insert_midZ.
    assert (F ++ c :: cs ++ c :: concat Bs = (F ++ c :: cs) ++ c :: concat Bs) as EA' by (by rewrite <- !app_assoc).
    assert (length (F ++ h :: cs) = length (F ++ c :: cs)) as EL' by (rewrite !length_app; done).
    assert (missing map c) as Hmc.
    { rewrite Forall_forall in Hm. apply Hm. rewrite <- app_assoc. apply elem_of_app. right. left. }
    assert (reindexed map (alter_piece (set_index (Z.of_nat (length F))) c map)) as Hre.
    { apply reindexed_write; [done|]. rewrite length_app in Hlen. lia. }
    assert (synced (Some (length (F ++ c :: cs))) ((F ++ c :: cs) ++ c :: concat Bs)
              (alter_piece (set_index (Z.of_nat (length F))) c map)) as Hw.
    { rewrite <- EA', <- EL', <- (insert_midZ F h c (cs ++ c :: concat Bs)).
      change (F ++ h :: cs ++ c :: concat Bs) with (F ++ (h :: cs) ++ c :: concat Bs). rewrite app_assoc, <- EA.
      apply synced_move; [done|done|rewrite length_app; cbn; lia|]. intros j Hj. left. rewrite EA in Hj.
      rewrite <- app_assoc in Hd, Hh. cbn [app] in Hd, Hh. rewrite <- Permutation_middle in Hd, Hh.
      rewrite <- Permutation_middle in Hd. apply NoDup_cons in Hd as [Hd _].
      rewrite not_elem_of_cons, not_elem_of_app in Hh. rewrite !not_elem_of_app in Hd.
      apply (lookup_mid_unique _ (concat Bs) c); [|tauto|done]. rewrite elem_of_app, elem_of_cons. intuition congruence. }
    rewrite length_app. cbn [length]. rewrite length_sums.
    destruct (Nat.eqb_spec (S (length pre)) (length pre + S (length Bs))) as [Heq|Hne].
    + assert (Bs = []) as -> by (destruct Bs; [done|cbn in Heq; lia]).
      exists c, (alter_piece (set_index (Z.of_nat (length F))) c map). cbn [fmap list_fmap concat sums].
      rewrite rotr_snoc, app_nil_r in *. split; [|split; [done|]].
      * rewrite <- app_assoc. cbn [app]. do 3 f_equal; by rewrite ?EL.
      * intros k i Hk Hi _. cbn [concat] in Hw. apply Hw; [by apply lookup_app_l_Some|done|].
        apply lookup_lt_Some in Hk. intros [= ->]. lia.
    + rewrite EA', EL'.
      destruct (IH n (F ++ c :: cs) c (alter_piece (set_index (Z.of_nat (length F))) c map) (pre ++ [length (F ++ c :: cs)]))
        as (h' & map' & E & H1 & H2); try done.
      * intros ->. cbn in Hne. lia.
      * cbn [length] in Hn. lia.
      * rewrite Forall_app in Hm. eapply Forall_impl; [apply Hm|]. intros x. by apply missing_reindexed.
      * rewrite <- app_assoc in Hd. cbn [app] in Hd. rewrite <- app_assoc. cbn [app].
        assert (F ++ c :: cs ++ concat Bs ≡ₚ F ++ cs ++ c :: concat Bs) as ->; [|done].
        f_equiv. by rewrite <- Permutation_middle.
      * rewrite <- app_assoc in Hd. apply NoDup_app in Hd as (_ & _ & Hd). apply NoDup_app in Hd as (_ & _ & Hd).
        by apply NoDup_cons in Hd as [? _].
      * clear - Hlen. rewrite !length_app in Hlen. rewrite !length_app. cbn [length] in *. lia.
      * exists h', map'. cbn [fmap list_fmap concat sums]. rewrite rotr_snoc.
        replace (length (pre ++ [length (F ++ c :: cs)])) with (S (length pre)) in E
          by (rewrite (length_app pre); cbn; lia).
        rewrite <- !(app_assoc pre) in E. cbn [app] in E. split; [|split; [by eapply reindexed_trans|]].
        -- etrans; [|etrans; [exact E|]].
           ++ by rewrite <- EL', EL.
           ++ rewrite <- !app_assoc. cbn [app]. rewrite <- EL', EL, Ec. done.
        -- rewrite <- !app_assoc in H2. done.
Qed.

(** ** update *)

(** The hole moves down: it ends up behind the lowest bucket of [Ls], and one
    piece of every bucket above moves to its end. *)
Lemma update_down_spec Ls l1 P h R map pre post :
  Forall (missing map) (concat Ls ++ l1) -> NoDup (P ++ concat Ls ++ l1 ++ R) -> h ∉ concat Ls ++ l1 ->
  synced (Some (length (P ++ concat Ls ++ l1))) ((P ++ concat Ls ++ l1) ++ h :: R) map ->
  Z.of_nat (length (P ++ concat Ls ++ l1)) < we_have_index ->
  exists b Ms h' map', Ls ++ [l1] = b :: Ms /\
    update_down (length Ls) ((P ++ concat Ls ++ l1) ++ h :: R) map (pre ++ sums (length P) Ls ++ post)
      (length pre + length Ls) (length (P ++ concat Ls ++ l1)) h
    = ((P ++ b) ++ h' :: concat (rotate_left <$> Ms) ++ R, map', pre ++ (S <$> sums (length P) Ls) ++ post, length (P ++ b)) /\
    reindexed map map' /\ synced (Some (length (P ++ b))) ((P ++ b) ++ h' :: concat (rotate_left <$> Ms) ++ R) map'.
Proof.
  revert l1 h R map post. induction Ls as [|m Ls IH] using rev_ind; intros l1 h R map post Hm Hd Hh Hs Hlen.
  - exists l1, [], h, map. cbn. split; [done|]. split; [done|]. split; [apply reindexed_refl|done].
  - rewrite concat_app in *. cbn [concat] in *. rewrite app_nil_r in *.
    rewrite length_app. cbn [length]. rewrite Nat.add_1_r. cbn [update_down].
    replace (length pre + S (length Ls) - 1)%nat with (length (pre ++ sums (length P) Ls))
      by (rewrite length_app, length_sums; lia).
    rewrite sums_app. cbn [sums]. rewrite <- !app_assoc. cbn [app]. rewrite (app_assoc pre).
    rewrite lookup_total_mid, insert_mid. set (X := P ++ concat Ls ++ m).
    assert (length P + length (concat Ls) + length m = length X)%nat as EX by (subst X; rewrite !length_app; lia).
    rewrite EX. rewrite !app_assoc. rewrite <- (app_assoc P). fold X.
    assert (P ++ (concat Ls ++ m) ++ l1 = X ++ l1) as E1 by (subst X; by rewrite <- !app_assoc).
    rewrite E1 in Hs, Hlen.
    assert (exists h' map', (if h =? ((X ++ l1) ++ h :: R) !!! length X
        then update_down (length Ls) ((X ++ l1) ++ h :: R) map (((pre ++ sums (length P) Ls) ++ S (length X) :: post))
               (length (pre ++ sums (length P) Ls)) (length X) h
        else update_down (length Ls) (<[length (X ++ l1) := ((X ++ l1) ++ h :: R) !!! length X]> ((X ++ l1) ++ h :: R))
               (alter_piece (set_index (Z.of_nat (length (X ++ l1)))) (((X ++ l1) ++ h :: R) !!! length X) map)
               ((pre ++ sums (length P) Ls) ++ S (length X) :: post)
               (length (pre ++ sums (length P) Ls)) (length X) (((X ++ l1) ++ h :: R) !!! length X))
      = update_down (length Ls) (X ++ h' :: rotate_left l1 ++ R) map' ((pre ++ sums (length P) Ls) ++ S (length X) :: post)
               (length (pre ++ sums (length P) Ls)) (length X) h' /\
      reindexed map map' /\ synced (Some (length X)) (X ++ h' :: rotate_left l1 ++ R) map' /\
      (h' ∉ concat Ls ++ m)) as (h1 & map1 & -> & Hre & Hs1 & Hh1).
    { assert (NoDup (X ++ l1 ++ R)) as HdX by (subst X; by rewrite <- !app_assoc in *).
      destruct l1 as [|c cs].
      - rewrite app_nil_r, lookup_total_midZ, Z.eqb_refl. exists h, map. cbn [rotate_left app].
        split; [done|]. split; [apply reindexed_refl|]. rewrite app_nil_r in *. by split.
      - rewrite <- (app_assoc X). cbn [app]. rewrite lookup_total_midZ.
        assert (h <> c) as Hne by (intros ->; apply Hh; rewrite elem_of_app; right; left).
        destruct (Z.eqb_spec h c); [done|].
        assert (missing map c) as Hmc by (rewrite Forall_app in Hm; destruct Hm as [_ Hm]; by inversion Hm).
        assert (forall y, X ++ c :: cs ++ y :: R = (X ++ c :: cs) ++ y :: R) as EY by (intros; by rewrite <- app_assoc).
        rewrite EY, insert_midZ. exists c, (alter_piece (set_index (Z.of_nat (length (X ++ c :: cs)))) c map).
        cbn [rotate_left]. rewrite <- (app_assoc cs). cbn [app]. rewrite EY. split; [done|].
        cbn [app] in HdX. rewrite <- Permutation_middle in HdX. apply NoDup_cons in HdX as [HcX HdX].
        rewrite !not_elem_of_app in HcX.
        split; [by apply reindexed_write|]. split.
        + rewrite <- (insert_midZ _ h c R). apply synced_move; [done|done|rewrite !length_app; cbn; lia|].
          intros j Hj. rewrite <- EY in Hj. left. apply (lookup_mid_unique _ (cs ++ h :: R) c); [tauto| |done].
          rewrite not_elem_of_app, not_elem_of_cons. intuition congruence.
        + subst X. rewrite !not_elem_of_app in HcX. rewrite not_elem_of_app. tauto. }
    replace (length (pre ++ sums (length P) Ls)) with (length pre + length Ls)%nat by (rewrite length_app, length_sums; lia).
    rewrite <- (app_assoc pre).
    destruct (IH m h1 (rotate_left l1 ++ R) map1 (S (length X) :: post)) as (b & Ms & h' & map' & Eb & E & H1 & H2); try done.
    + rewrite <- app_assoc in Hm. rewrite !Forall_app in *. destruct Hm as (Hm1 & Hm2 & _).
      split; (eapply Forall_impl; [done|]); intros x; by apply missing_reindexed.
    + assert (P ++ concat Ls ++ m ++ rotate_left l1 ++ R ≡ₚ P ++ (concat Ls ++ m) ++ l1 ++ R) as ->; [|done].
      rewrite <- !app_assoc. by rewrite rotl_perm.
    + subst X. rewrite length_app in Hlen. lia.
    + exists b, (Ms ++ [l1]), h', map'. split.
      { change (b :: Ms ++ [l1]) with ((b :: Ms) ++ [l1]). by rewrite <- Eb, <- app_assoc. }
      rewrite fmap_app, concat_app. cbn [fmap list_fmap concat].
      rewrite app_nil_r, <- !(app_assoc (concat (rotate_left <$> Ms))). split; [|split; [by eapply reindexed_trans|done]].
      etrans; [exact E|]. rewrite fmap_app. cbn [fmap list_fmap]. by rewrite <- !app_assoc.
Qed.

(** The hole moves up: it ends up before the highest bucket, and one piece of
    every bucket below moves to its front. *)
Lemma update_up_spec Ls L h R map pre post :
  Forall (missing map) (concat Ls) -> NoDup (L ++ concat Ls ++ R) -> h ∉ concat Ls ->
  synced (Some (length L)) (L ++ h :: concat Ls ++ R) map ->
  Z.of_nat (length (L ++ concat Ls)) < we_have_index ->
  exists h' map',
    update_up (length Ls) (L ++ h :: concat Ls ++ R) map (pre ++ sums (S (length L)) Ls ++ post) (length pre) (length L) h
    = ((L ++ concat (rotate_right <$> Ls)) ++ h' :: R, map', pre ++ sums (length L) Ls ++ post, length (L ++ concat Ls)) /\
    reindexed map map' /\
    synced (Some (length (L ++ concat Ls))) ((L ++ concat (rotate_right <$> Ls)) ++ h' :: R) map'.
Proof.
  revert L h map pre. induction Ls as [|b Ls IH]; intros L h map pre Hm Hd Hh Hs Hlen.
  - exists h, map. cbn in *. rewrite !app_nil_r. split; [done|]. split; [apply reindexed_refl|done].
  - cbn [concat length update_up sums app] in *. rewrite <- !app_assoc in *.
    rewrite lookup_total_mid, insert_mid, Nat.sub_1_r. cbn [Nat.add Nat.pred].
    set (R' := concat Ls ++ R) in *.
    assert (exists h' map', (if h =? (L ++ h :: b ++ R') !!! (length L + length b)%nat
        then update_up (length Ls) (L ++ h :: b ++ R') map (pre ++ (length L + length b)%nat :: sums (S (length L + length b)) Ls ++ post)
               (S (length pre)) (length L + length b) h
        else update_up (length Ls) (<[length L := (L ++ h :: b ++ R') !!! (length L + length b)%nat]> (L ++ h :: b ++ R'))
               (alter_piece (set_index (Z.of_nat (length L))) ((L ++ h :: b ++ R') !!! (length L + length b)%nat) map)
               (pre ++ (length L + length b)%nat :: sums (S (length L + length b)) Ls ++ post)
               (S (length pre)) (length L + length b) ((L ++ h :: b ++ R') !!! (length L + length b)%nat))
      = update_up (length Ls) ((L ++ rotate_right b) ++ h' :: R') map'
               (pre ++ (length L + length b)%nat :: sums (S (length L + length b)) Ls ++ post)
               (S (length pre)) (length L + length b) h' /\
      reindexed map map' /\ synced (Some (length L + length b)%nat) ((L ++ rotate_right b) ++ h' :: R') map' /\
      (h' ∉ concat Ls)) as (h1 & map1 & -> & Hre & Hs1 & Hh1).
    { destruct b as [|c cs _] using rev_ind.
      - cbn [rotate_right length app] in *. rewrite Nat.add_0_r, lookup_total_midZ, Z.eqb_refl. exists h, map.
        unfold rotate_right. cbn. rewrite app_nil_r. split; [done|]. split; [apply reindexed_refl|]. by split.
      - assert (length L + length (cs ++ [c]) = length (L ++ h :: cs))%nat as EL by (rewrite !length_app; cbn; lia).
        assert (L ++ h :: (cs ++ [c]) ++ R' = (L ++ h :: cs) ++ c :: R') as EA by (by rewrite <- !app_assoc).
        rewrite EL, EA, lookup_total_midZ. rewrite <- app_assoc. cbn [app]. rewrite insert_midZ.
        rewrite <- app_assoc in Hd. cbn [app] in Hd. rewrite app_assoc in Hd. rewrite <- Permutation_middle in Hd.
        apply NoDup_cons in Hd as [HcX _]. unfold R' in HcX. rewrite !not_elem_of_app in HcX, Hh.
        rewrite not_elem_of_cons in Hh. destruct HcX as [[HcL Hccs] [HcLs HcR]%not_elem_of_app].
        destruct (Z.eqb_spec h c); [tauto|].
        assert (missing map c) as Hmc.
        { rewrite Forall_forall in Hm. apply Hm. rewrite <- app_assoc. apply elem_of_app. right. left. }
        exists c, (alter_piece (set_index (Z.of_nat (length L))) c map). rewrite rotr_snoc.
        assert (L ++ c :: cs ++ c :: R' = (L ++ c :: cs) ++ c :: R') as -> by (by rewrite <- app_assoc).
        split; [done|]. split; [apply reindexed_write; [done|]; rewrite length_app in Hlen; lia|]. split; [|tauto].
        assert ((L ++ c :: cs) ++ c :: R' = <[length L := c]> (L ++ h :: (cs ++ [c]) ++ R')) as ->
          by (rewrite insert_midZ, <- !app_assoc; done).
        apply synced_move; [done|done|rewrite length_app; cbn; lia|]. intros j Hj. left. rewrite EA in Hj.
        apply (lookup_mid_unique _ R' c); [|unfold R'; rewrite elem_of_app; tauto|done].
        rewrite elem_of_app, elem_of_cons. intuition congruence. }
    assert (length (L ++ rotate_right b) = length L + length b)%nat as EL by (by rewrite length_app, length_rotr).
    destruct (IH (L ++ rotate_right b) h1 map1 (pre ++ [(length L + length b)%nat])) as (h' & map' & E & H1 & H2); try done.
    + rewrite Forall_app in Hm. eapply Forall_impl; [apply Hm|]. intros x. by apply missing_reindexed.
    + subst R'. assert ((L ++ rotate_right b) ++ concat Ls ++ R ≡ₚ L ++ b ++ concat Ls ++ R) as ->; [|done].
      by rewrite rotr_perm, <- app_assoc.
    + by rewrite EL.
    + rewrite length_app, EL. rewrite !length_app in Hlen. lia.
    + rewrite EL in E. rewrite (length_app pre) in E. cbn [length] in E. rewrite Nat.add_1_r in E.
      rewrite <- !(app_assoc pre) in E. cbn [app] in E. subst R'. exists h', map'.
      cbn [fmap list_fmap concat]. rewrite (length_app (L ++ rotate_right b)), EL in E, H2. rewrite (app_assoc L (rotate_right b)).
      replace (length (L ++ b ++ concat Ls)) with (length L + length b + length (concat Ls))%nat
        by (rewrite !length_app; lia).
      split; [exact E|]. split; [by eapply reindexed_trans|done].
Qed.

(** ** The abstraction: a bucket for every piece

    [f] assigns every piece its bucket, [-1] if it is in none. *)

Definition in_bucket (Bs : list (list Z)) (k : nat) (x : Z) : Prop := exists b, Bs !! k = Some b /\ x ∈ b.

Definition set_value (f : Z -> Z) (i v : Z) : Z -> Z := fun x => if x =? i then v else f x.

Record represents (e : option nat) (f : Z -> Z) (map : list piece_pos) (ps : list Z) (bs : list nat)
    (Bs : list (list Z)) : Prop := {
  rep_pieces : ps = concat Bs;
  rep_bounds : bs = sums 0 Bs;
  rep_nonempty : Bs <> [];
  rep_bucket : forall k x, in_bucket Bs k x <-> 0 <= x < Z.of_nat (length map) /\ f x = Z.of_nat k;
  rep_nodup : NoDup ps;
  rep_missing : forall k x, ps !! k = Some x -> Some k <> e -> missing map x;
  rep_synced : synced e ps map
}.

Lemma in_bucket_app A B k x :
  in_bucket (A ++ B) k x <-> in_bucket A k x \/ (length A <= k)%nat /\ in_bucket B (k - length A) x.
Proof.
  unfold in_bucket. split.
  - intros (b & Hb & Hx). apply lookup_app_Some in Hb as [Hb|[Hle Hb]]; eauto.
  - intros [(b & Hb & Hx)|(Hle & b & Hb & Hx)]; exists b; (split; [|done]).
    + by apply lookup_app_l_Some.
    + by rewrite lookup_app_r.
Qed.

Lemma in_bucket_cons b B k x :
  in_bucket (b :: B) k x <-> (k = 0%nat /\ x ∈ b) \/ exists k', k = S k' /\ in_bucket B k' x.
Proof.
  unfold in_bucket. destruct k as [|k]; cbn; split.
  - intros (b' & [= <-] & Hx). by left.
  - intros [[_ Hx]|(k' & ? & _)]; [by exists b|done].
  - intros H. right. by exists k.
  - intros [[? _]|(k' & [= ->] & H)]; done.
Qed.

Lemma in_bucket_perm g Bs k x : (forall b, g b ≡ₚ b) -> in_bucket (g <$> Bs) k x <-> in_bucket Bs k x.
Proof.
  intros Hg. unfold in_bucket. split.
  - intros (b & Hb & Hx). apply list_lookup_fmap_Some in Hb as (b' & -> & Hb). exists b'. by rewrite Hg in Hx.
  - intros (b & Hb & Hx). exists (g b). rewrite list_lookup_fmap, Hb. split; [done|]. by rewrite Hg.
Qed.

Lemma in_bucket_concat Bs x : x ∈ concat Bs <-> exists k, in_bucket Bs k x.
Proof.
  induction Bs as [|b Bs IH]; cbn.
  - split; [by intros ?%not_elem_of_nil|]. intros (k & b & Hb & _). by rewrite lookup_nil in Hb.
  - rewrite elem_of_app, IH. split.
    + intros [Hx|[k Hk]]; [exists 0%nat|exists (S k)]; rewrite in_bucket_cons; eauto.
    + intros [k [[_ Hx]|(k' & _ & Hk)]%in_bucket_cons]; eauto.
Qed.

Lemma concat_perm g (Bs : list (list Z)) : (forall b, g b ≡ₚ b) -> concat (g <$> Bs) ≡ₚ concat Bs.
Proof. intros Hg. induction Bs as [|b Bs IH]; cbn; [done|]. by rewrite Hg, IH. Qed.

(** Distinct pieces of a map of [n] are at most [n]. *)
Lemma distinct_pieces (ps : list Z) n : NoDup ps -> (forall x, x ∈ ps -> 0 <= x < Z.of_nat n) -> (length ps <= n)%nat.
Proof.
  intros Hd Hr.
  assert (ps ⊆+ seqZ 0 (Z.of_nat n)) as Hs.
  { apply NoDup_submseteq; [done|]. intros x Hx. apply elem_of_seqZ. specialize (Hr x Hx). lia. }
  apply submseteq_length in Hs. rewrite length_seqZ in Hs. lia.
Qed.

Lemma rep_range e f map ps bs Bs x : represents e f map ps bs Bs -> x ∈ ps -> 0 <= x < Z.of_nat (length map).
Proof.
  intros [] Hx. rewrite rep_pieces0 in Hx. apply in_bucket_concat in Hx as [k Hk]. by apply rep_bucket0 in Hk as [? _].
Qed.

Lemma rep_length e f map ps bs Bs : represents e f map ps bs Bs -> (length ps <= length map)%nat.
Proof. intros H. apply distinct_pieces; [apply H|]. intros x. by apply (rep_range e f map ps bs Bs). Qed.

(** More boundaries, with nothing between them. *)
Lemma in_bucket_nil n k x : ~ in_bucket (replicate n []) k x.
Proof. intros (b & Hb & Hx). apply lookup_replicate in Hb as [-> _]. by apply not_elem_of_nil in Hx. Qed.

Lemma concat_nils n : concat (replicate n ([] : list Z)) = [].
Proof. by induction n. Qed.

Lemma sums_nils m n : sums m (replicate n []) = replicate n m.
Proof. induction n as [|n IH]; cbn; [done|]. by rewrite Nat.add_0_r, IH. Qed.

Lemma rep_resize e f map ps bs Bs k :
  represents e f map ps bs Bs ->
  exists Bs', represents e f map ps (if (length bs <=? k)%nat then vec_resize (S k) (length ps) bs else bs) Bs' /\
    (k < length Bs')%nat.
Proof.
  intros H. pose proof (rep_bounds _ _ _ _ _ _ H) as Hb. pose proof (length_sums 0 Bs) as Hl.
  destruct (Nat.leb_spec (length bs) k) as [Hle|Hgt]; [|exists Bs; split; [done|]; rewrite Hb in Hgt; lia].
  exists (Bs ++ replicate (S k - length bs) []).
  split; [|rewrite length_app, length_replicate, Hb, length_sums; lia]. unfold vec_resize. rewrite take_ge by lia.
  destruct H. split; try done.
  - by rewrite concat_app, concat_nils, app_nil_r.
  - rewrite sums_app, sums_nils. cbn. by rewrite <- rep_bounds0, rep_pieces0.
  - destruct Bs; done.
  - intros j x. rewrite in_bucket_app, <- rep_bucket0. split; [|by left].
    intros [?|[_ Hn]]; [done|]. by apply in_bucket_nil in Hn.
Qed.

(** ** The operations on the buckets *)

Lemma priority_missing seeds p : 0 <= priority seeds p -> have p = false.
Proof. unfold priority. destruct (have p); [|done]. rewrite orb_true_r. cbn. lia. Qed.

Lemma lookup_total_at (pre : list nat) x post n : length pre = n -> (pre ++ x :: post) !!! n = x.
Proof. intros <-. apply lookup_total_mid. Qed.

Lemma priority_range_mid lo b hi :
  priority_range (sums 0 (lo ++ b :: hi)) (length lo) = (length (concat lo), length (concat lo) + length b)%nat.
Proof.
  unfold priority_range. rewrite sums_app. cbn [sums]. rewrite Nat.add_0_l.
  rewrite (lookup_total_at _ _ _ (length lo)) by apply length_sums. f_equal.
  destruct lo as [|c lo _] using rev_ind; [done|]. rewrite length_app. cbn [length]. rewrite Nat.add_1_r.
  rewrite sums_app. cbn [sums]. rewrite concat_app. cbn [concat]. rewrite app_nil_r, length_app, Nat.add_0_l.
  rewrite <- app_assoc. cbn [app]. apply lookup_total_at, length_sums.
Qed.

Lemma split_bucket_at {A} (Bs : list (list A)) k :
  (k < length Bs)%nat -> exists lo b hi, Bs = lo ++ b :: hi /\ length lo = k.
Proof.
  intros Hk. destruct (lookup_lt_is_Some_2 Bs k Hk) as [b Hb]. exists (take k Bs), b, (drop (S k) Bs).
  split; [by rewrite take_drop_middle|]. rewrite length_take. lia.
Qed.

Lemma rep_missing_all f map ps bs Bs : represents None f map ps bs Bs -> Forall (missing map) ps.
Proof. intros []. apply Forall_forall. intros x [k Hk]%list_elem_of_lookup. by apply (rep_missing0 k). Qed.

Lemma rep_absent e f map ps bs Bs i : represents e f map ps bs Bs -> f i = -1 -> i ∉ ps.
Proof.
  intros [] Hf Hi. rewrite rep_pieces0 in Hi. apply in_bucket_concat in Hi as [k Hk]. apply rep_bucket0 in Hk. lia.
Qed.

(** Assembles the abstraction after one piece has moved. *)
Lemma represents_moved f f' map map' ps bs Bs Bs' :
  represents None f map ps bs Bs -> reindexed map map' -> Bs' <> [] ->
  (forall k x, in_bucket Bs' k x <-> 0 <= x < Z.of_nat (length map) /\ f' x = Z.of_nat k) ->
  NoDup (concat Bs') -> Forall (missing map') (concat Bs') -> synced None (concat Bs') map' ->
  represents None f' map' (concat Bs') (sums 0 Bs') Bs'.
Proof.
  intros H Hre Hne Hb Hd Hm Hs. assert (length map' = length map) as Hl by (by apply Forall2_length in Hre).
  split; try done.
  - intros k x. by rewrite Hl.
  - intros k x Hk _. rewrite Forall_forall in Hm. apply Hm. by eapply list_elem_of_lookup_2.
Qed.

Lemma add_represents random i p t Bs f :
  represents None f (m_piece_map t) (m_pieces t) (m_priority_boundries t) Bs ->
  Z.of_nat (length (m_piece_map t)) < we_have_index ->
  0 <= i -> piece_at (m_piece_map t) i = Some p -> f i = -1 -> 0 <= priority (m_seeds t) p ->
  exists ps bs map Bs', add random i t = with_buckets ps bs map t /\
    represents None (set_value f i (priority (m_seeds t) p)) map ps bs Bs' /\ reindexed (m_piece_map t) map.
Proof.
  intros H0 Hlen Hi Hp Hf Hprio. unfold add. rewrite Hp. set (k := Z.to_nat (priority (m_seeds t) p)).
  destruct (rep_resize _ _ _ _ _ _ k H0) as (Bs1 & H & Hk). set (bs1 := if (_ <=? _)%nat then _ else _) in *.
  destruct (split_bucket_at Bs1 k Hk) as (lo & b & hi & -> & Hlo).
  replace (priority_range bs1 k) with (length (concat lo), length (concat lo) + length b)%nat
    by (rewrite (rep_bounds _ _ _ _ _ _ H), <- Hlo; symmetry; apply priority_range_mid).
  set (j := if (length b =? 0)%nat then 0%nat else (random mod (length b + 1))%nat).
  assert (j <= length b)%nat as Hj.
  { subst j. destruct (Nat.eqb_spec (length b) 0); [lia|]. pose proof (Nat.mod_upper_bound random (length b + 1)). lia. }
  set (F := concat lo ++ take j b).
  assert (length F = length (concat lo) + j)%nat as HF by (subst F; rewrite length_app, length_take; lia).
  set (ni := if (_ =? _)%nat then _ else _). assert (ni = length F) as ->.
  { subst ni j. rewrite HF. destruct (Nat.eqb_spec (length (concat lo) + length b) (length (concat lo))) as [E|E].
    - destruct (Nat.eqb_spec (length b) 0); lia.
    - destruct (Nat.eqb_spec (length b) 0); [lia|].
      replace (length (concat lo) + length b - length (concat lo) + 1)%nat with (length b + 1)%nat by lia. lia. }
  assert (m_pieces t = F ++ concat (drop j b :: hi)) as EP.
  { rewrite (rep_pieces _ _ _ _ _ _ H). subst F. rewrite concat_app. cbn [concat].
    rewrite <- (take_drop j b) at 1. by rewrite <- !app_assoc. }
  assert (bs1 = sums 0 lo ++ sums (length F) (drop j b :: hi)) as EB.
  { rewrite (rep_bounds _ _ _ _ _ _ H), sums_app. cbn [sums]. rewrite length_drop, HF.
    by replace (length (concat lo) + j + (length b - j))%nat with (0 + length (concat lo) + length b)%nat by lia. }
  pose proof (rep_absent _ _ _ _ _ _ i H Hf) as Habs. pose proof (rep_length _ _ _ _ _ _ H) as Hpl.
  assert (missing (m_piece_map t) i) as Hmi by (split; [done|]; exists p; split; [done|]; by apply (priority_missing (m_seeds t))).
  destruct (add_loop_spec (length bs1) (drop j b :: hi) F i (m_piece_map t) (sums 0 lo)) as (map' & E & Hre & Hs).
  - done.
  - rewrite EB, length_app, !length_sums. cbn [length]. lia.
  - rewrite <- EP. apply Forall_cons. split; [done|]. by apply (rep_missing_all f _ _ bs1 (lo ++ b :: hi)).
  - rewrite <- EP. apply NoDup_cons. split; [done|]. apply H.
  - rewrite app_assoc, <- EP. intros n x Hn Hx _. apply lookup_app_Some in Hn as [Hn|[_ Hn]].
    + by apply (rep_synced _ _ _ _ _ _ H).
    + apply list_elem_of_lookup_2, list_elem_of_singleton in Hn. lia.
  - rewrite <- EP. lia.
  - rewrite length_sums, Hlo, <- EB, app_assoc, <- EP in E.
    set (Bs' := lo ++ (take j b ++ i :: rotate_left (drop j b)) :: (rotate_left <$> hi)).
    assert (concat Bs' = F ++ i :: concat (rotate_left <$> drop j b :: hi)) as EC.
    { subst Bs' F. rewrite concat_app. cbn [concat fmap list_fmap]. by rewrite <- !app_assoc. }
    assert (sums 0 Bs' = sums 0 lo ++ sums (S (length F)) (drop j b :: hi)) as ES.
    { subst Bs'. rewrite sums_app. cbn [sums]. rewrite (sums_same _ rotate_left) by apply length_rotl.
      rewrite length_app. cbn [length]. rewrite length_rotl, length_take, length_drop, HF.
      assert (0 + length (concat lo) + (j `min` length b + S (length b - j)) =
        S (length (concat lo) + j) + (length b - j))%nat as -> by lia. done. }
    rewrite <- EC, <- ES in E. rewrite <- EC in Hs. exists (concat Bs'), (sums 0 Bs'), map', Bs'. split; [|split; [|done]].
    + destruct (add_loop _ _ _ _ _ _ _) as [[[[ps2 map2] bs2] ni2] i2]. unfold add_store in E.
      destruct (i2 =? -1); injection E as <- <- <-; done.
    + assert (concat Bs' ≡ₚ i :: m_pieces t) as Hperm.
      { rewrite EC, EP, <- Permutation_middle. by rewrite (concat_perm rotate_left) by apply rotl_perm. }
      apply (represents_moved f _ (m_piece_map t) _ (m_pieces t) bs1 (lo ++ b :: hi)); try done.
      * subst Bs'. by destruct lo.
      * intros n x. subst Bs'. unfold set_value. rewrite in_bucket_app, in_bucket_cons.
        rewrite elem_of_app, elem_of_cons, rotl_perm.
        assert (in_bucket (lo ++ b :: hi) n x <-> in_bucket lo n x \/ (length lo <= n)%nat /\
          ((n - length lo)%nat = 0%nat /\ (x ∈ take j b \/ x ∈ drop j b) \/
           exists k', (n - length lo)%nat = S k' /\ in_bucket hi k' x)) as Hold.
        { rewrite in_bucket_app, in_bucket_cons, <- elem_of_app, take_drop. done. }
        rewrite (rep_bucket _ _ _ _ _ _ H) in Hold.
        assert ((exists k', (n - length lo)%nat = S k' /\ in_bucket (rotate_left <$> hi) k' x) <->
                (exists k', (n - length lo)%nat = S k' /\ in_bucket hi k' x)) as ->.
        { split; intros (k' & Hk' & Hx); exists k'; (split; [done|]); by apply (in_bucket_perm rotate_left _ _ _ rotl_perm). }
        destruct (Z.eqb_spec x i) as [->|Hne]; [|rewrite Hold; tauto].
        assert (i < Z.of_nat (length (m_piece_map t))).
        { apply lookup_lt_Some in Hp. lia. }
        split.
        -- intros [Hx|[Hle [[Hx _]|Hx]]]; [exfalso; assert (f i = Z.of_nat n) by tauto; lia|lia|].
           exfalso. assert (f i = Z.of_nat n) by tauto. lia.
        -- intros [_ Hx]. right. split; [lia|]. left. split; [lia|]. tauto.
      * rewrite Hperm. apply NoDup_cons. split; [done|apply H].
      * rewrite Hperm. apply (Forall_impl (missing (m_piece_map t))); [|intros x; by apply missing_reindexed].
        apply Forall_cons. split; [done|]. by apply (rep_missing_all f _ _ bs1 (lo ++ b :: hi)).
Qed.

(** A hole may be anywhere; the assignment matters pointwise. *)
Lemma rep_hole e f map ps bs Bs : represents None f map ps bs Bs -> represents (Some e) f map ps bs Bs.
Proof.
  intros []. split; try done.
  - intros k x Hk _. by apply (rep_missing0 k).
  - intros k x Hk Hx _. by apply rep_synced0.
Qed.

Lemma rep_ext e f f' map ps bs Bs :
  (forall x, 0 <= x < Z.of_nat (length map) -> f' x = f x) ->
  represents e f map ps bs Bs -> represents e f' map ps bs Bs.
Proof.
  intros Hf []. split; try done. intros k x. rewrite rep_bucket0. split; intros [Hx E]; (split; [done|]);
    specialize (Hf x Hx); congruence.
Qed.

(** The bucket of a piece at a position. *)
Lemma rep_at e f map ps bs Bs j i k :
  represents e f map ps bs Bs -> ps !! j = Some i -> f i = Z.of_nat k ->
  exists lo l1 l2 hi, Bs = lo ++ (l1 ++ i :: l2) :: hi /\ length lo = k /\ j = length (concat lo ++ l1) /\
    ps = (concat lo ++ l1) ++ i :: l2 ++ concat hi.
Proof.
  intros H Hj Hf. pose proof (rep_range _ _ _ _ _ _ i H ltac:(by eapply list_elem_of_lookup_2)) as Hr.
  assert (in_bucket Bs k i) as (b & Hb & Hi) by (by apply (rep_bucket _ _ _ _ _ _ H)).
  apply list_elem_of_split in Hi as (l1 & l2 & ->).
  exists (take k Bs), l1, l2, (drop (S k) Bs). split; [by rewrite take_drop_middle|].
  split; [rewrite length_take; apply lookup_lt_Some in Hb; lia|].
  assert (ps = (concat (take k Bs) ++ l1) ++ i :: l2 ++ concat (drop (S k) Bs)) as E.
  { rewrite (rep_pieces _ _ _ _ _ _ H). rewrite <- (take_drop_middle Bs k _ Hb) at 1.
    rewrite concat_app. cbn [concat]. by rewrite <- !app_assoc. }
  split; [|done]. pose proof (rep_nodup _ _ _ _ _ _ H) as Hd. rewrite E in Hj, Hd.
  rewrite <- Permutation_middle in Hd. apply NoDup_cons in Hd as [Hd _]. rewrite not_elem_of_app in Hd.
  apply (lookup_mid_unique _ (l2 ++ concat (drop (S k) Bs)) i); tauto.
Qed.

Lemma rep_missing_but f map ps bs Bs F h R :
  represents (Some (length F)) f map ps bs Bs -> ps = F ++ h :: R -> Forall (missing map) (F ++ R).
Proof.
  intros H ->. apply Forall_app. split; apply Forall_forall; intros x [k Hk]%list_elem_of_lookup.
  - apply (rep_missing _ _ _ _ _ _ H k); [by apply lookup_app_l_Some|]. apply lookup_lt_Some in Hk. intros [= ->]. lia.
  - apply (rep_missing _ _ _ _ _ _ H (length F + S k)); [|intros [= ?]; lia].
    rewrite lookup_app_r by lia. by replace (length F + S k - length F)%nat with (S k) by lia.
Qed.

(** Membership after one bucket lost [i] and the others were rotated. *)
Lemma in_bucket_lost g lo l1 l2 hi i n x :
  (forall b, g b ≡ₚ b) -> NoDup (concat (lo ++ (l1 ++ i :: l2) :: hi)) ->
  in_bucket (lo ++ (l1 ++ g l2) :: (g <$> hi)) n x <-> in_bucket (lo ++ (l1 ++ i :: l2) :: hi) n x /\ x <> i.
Proof.
  intros Hg Hd. rewrite !in_bucket_app, !in_bucket_cons, !elem_of_app, Hg.
  rewrite concat_app in Hd. cbn [concat] in Hd. rewrite <- app_assoc in Hd. cbn [app] in Hd.
  rewrite app_assoc, <- Permutation_middle in Hd. apply NoDup_cons in Hd as [Hd _].
  apply not_elem_of_app in Hd as [[Hd1 Hd2]%not_elem_of_app [Hd3 Hd4]%not_elem_of_app].
  assert ((exists k', (n - length lo)%nat = S k' /\ in_bucket (g <$> hi) k' x) <->
          (exists k', (n - length lo)%nat = S k' /\ in_bucket hi k' x)) as ->.
  { split; intros (k' & Hk' & Hx); exists k'; (split; [done|]); by apply (in_bucket_perm g _ _ _ Hg). }
  rewrite elem_of_cons. destruct (decide (x = i)) as [->|Hne]; [|tauto].
  assert (~ in_bucket lo n i) by (intros Hx; apply Hd1, in_bucket_concat; eauto).
  assert (~ exists k', (n - length lo)%nat = S k' /\ in_bucket hi k' i)
    by (intros (k' & _ & Hx); apply Hd4, in_bucket_concat; eauto).
  tauto.
Qed.

Lemma remove_represents k j i t Bs f :
  represents (Some j) f (m_piece_map t) (m_pieces t) (m_priority_boundries t) Bs ->
  Z.of_nat (length (m_piece_map t)) < we_have_index ->
  m_pieces t !! j = Some i -> f i = Z.of_nat k ->
  exists ps bs map Bs', PiecePicker.remove k j t = with_buckets ps bs map t /\
    represents None (set_value f i (-1)) map ps bs Bs' /\ reindexed (m_piece_map t) map.
Proof.
  intros H Hlen Hj Hf. destruct (rep_at _ _ _ _ _ _ _ _ _ H Hj Hf) as (lo & l1 & l2 & hi & -> & Hlo & -> & EP).
  set (F := concat lo ++ l1) in *. pose proof (rep_missing_but _ _ _ _ _ F i (l2 ++ concat hi) H EP) as Hm.
  pose proof (rep_nodup _ _ _ _ _ _ H) as Hd. pose proof (rep_length _ _ _ _ _ _ H) as Hpl.
  pose proof (rep_synced _ _ _ _ _ _ H) as Hs. rewrite EP in Hd, Hpl, Hs. rewrite <- Permutation_middle in Hd.
  apply NoDup_cons in Hd as [Hi Hd]. rewrite length_app in Hpl. cbn [length] in Hpl.
  assert (m_priority_boundries t = sums 0 lo ++ sums (S (length F)) (l2 :: hi)) as EB.
  { rewrite (rep_bounds _ _ _ _ _ _ H), sums_app. cbn [sums]. rewrite length_app. cbn [length].
    assert (0 + length (concat lo) + (length l1 + S (length l2)) = S (length F) + length l2)%nat as ->; [|done].
    subst F. rewrite length_app. lia. }
  destruct (remove_loop_spec (length (m_priority_boundries t)) (l2 :: hi) F i (m_piece_map t) (sums 0 lo))
    as (h' & map' & E & Hre & Hs'); try done.
  - rewrite EB, length_app, !length_sums. cbn [length]. lia.
  - cbn [concat]. by apply Forall_app in Hm as [_ Hm].
  - cbn [concat]. rewrite not_elem_of_app in Hi. tauto.
  - cbn [concat]. rewrite !length_app in *. lia.
  - cbn [concat] in E. rewrite <- EP, <- EB, length_sums, Hlo in E. unfold PiecePicker.remove. rewrite E.
    rewrite length_app. cbn [length]. rewrite Nat.add_sub, take_app_length.
    set (Bs' := lo ++ (l1 ++ rotate_right l2) :: (rotate_right <$> hi)).
    assert (concat Bs' = F ++ concat (rotate_right <$> l2 :: hi)) as EC.
    { subst Bs' F. rewrite concat_app. cbn [concat fmap list_fmap]. by rewrite <- !app_assoc. }
    assert (sums 0 Bs' = sums 0 lo ++ sums (length F) (l2 :: hi)) as ES.
    { subst Bs' F. rewrite sums_app. cbn [sums]. rewrite (sums_same _ rotate_right) by apply length_rotr.
      rewrite !length_app, length_rotr. by rewrite Nat.add_0_l, Nat.add_assoc. }
    rewrite <- EC, <- ES in *. exists (concat Bs'), (sums 0 Bs'), map', Bs'. split; [done|]. split; [|done].
    assert (concat Bs' ≡ₚ F ++ l2 ++ concat hi) as Hperm.
    { rewrite EC. cbn [fmap list_fmap concat]. by rewrite rotr_perm, (concat_perm rotate_right) by apply rotr_perm. }
    assert (length map' = length (m_piece_map t)) as Hl by (by apply Forall2_length in Hre).
    assert (Forall (missing map') (concat Bs')) as Hm'.
    { rewrite Hperm. eapply Forall_impl; [exact Hm|]. intros x. by apply missing_reindexed. }
    split; try done.
    + subst Bs'. by destruct lo.
    + intros n x. subst Bs'. rewrite (in_bucket_lost rotate_right) by (apply rotr_perm ||
        (rewrite <- (rep_pieces _ _ _ _ _ _ H); apply H)).
      rewrite (rep_bucket _ _ _ _ _ _ H), Hl. unfold set_value. destruct (Z.eqb_spec x i) as [->|Hne]; [lia|tauto].
    + by rewrite Hperm.
    + intros n x Hn _. rewrite Forall_forall in Hm'. apply Hm'. by eapply list_elem_of_lookup_2.
Qed.

(** Two elements change places. *)
Lemma swap_perm (l : list Z) i j x y :
  l !! i = Some x -> l !! j = Some y -> i <> j -> <[i := y]> (<[j := x]> l) ≡ₚ l.
Proof.
  intros Hi Hj Hne. apply lookup_lt_Some in Hi as Hil. apply lookup_lt_Some in Hj as Hjl.
  apply (Permutation_inj). split; [by rewrite !length_insert|].
  exists (fun n => if decide (n = i) then j else if decide (n = j) then i else n). split.
  - intros n m. repeat case_decide; congruence.
  - intros n. case_decide as E1; [subst; rewrite list_lookup_insert_eq by (by rewrite length_insert); done|].
    rewrite list_lookup_insert_ne by done. case_decide as E2; [subst; by rewrite list_lookup_insert_eq|].
    by rewrite list_lookup_insert_ne.
Qed.

Lemma insert_concat (lo : list (list Z)) b hi j y :
  (j < length b)%nat ->
  <[(length (concat lo) + j)%nat := y]> (concat (lo ++ b :: hi)) = concat (lo ++ <[j := y]> b :: hi).
Proof.
  intros Hj. rewrite !concat_app. cbn [concat]. rewrite insert_app_r_alt by lia.
  replace (length (concat lo) + j - length (concat lo))%nat with j by lia. by rewrite insert_app_l.
Qed.

Lemma lookup_concat (lo : list (list Z)) b hi j :
  (j < length b)%nat -> concat (lo ++ b :: hi) !! (length (concat lo) + j)%nat = b !! j.
Proof.
  intros Hj. rewrite concat_app. cbn [concat]. rewrite lookup_app_r by lia.
  replace (length (concat lo) + j - length (concat lo))%nat with j by lia. by rewrite lookup_app_l.
Qed.

Lemma in_bucket_same lo b b' hi n x :
  (x ∈ b' <-> x ∈ b) -> in_bucket (lo ++ b' :: hi) n x <-> in_bucket (lo ++ b :: hi) n x.
Proof. intros Hb. rewrite !in_bucket_app, !in_bucket_cons, Hb. done. Qed.

Lemma shuffle_represents random k e i t Bs f :
  represents None f (m_piece_map t) (m_pieces t) (m_priority_boundries t) Bs ->
  Z.of_nat (length (m_piece_map t)) < we_have_index ->
  m_pieces t !! e = Some i -> f i = Z.of_nat k ->
  exists ps bs map Bs', shuffle random k e t = with_buckets ps bs map t /\
    represents None f map ps bs Bs' /\ reindexed (m_piece_map t) map.
Proof.
  intros H Hlen He Hf. pose proof (rep_length _ _ _ _ _ _ H) as Hpl.
  destruct (rep_at _ _ _ _ _ _ _ _ _ H He Hf) as (lo & l1 & l2 & hi & -> & Hlo & Ee & _).
  set (b := l1 ++ i :: l2) in *. unfold shuffle.
  rewrite (rep_bounds _ _ _ _ _ _ H), <- Hlo, priority_range_mid.
  replace (length (concat lo) + length b - length (concat lo))%nat with (length b) by lia.
  assert (length l1 < length b)%nat as Hl1 by (subst b; rewrite length_app; cbn; lia).
  set (r := (random mod length b)%nat). assert (r < length b)%nat as Hr by (apply Nat.mod_upper_bound; lia).
  rewrite length_app in Ee. rewrite (Nat.add_comm r).
  destruct (Nat.eqb_spec (length (concat lo) + r) e) as [_|Hne].
  { exists (m_pieces t), (m_priority_boundries t), (m_piece_map t), (lo ++ b :: hi).
    split; [by destruct t|]. split; [done|apply reindexed_refl]. }
  set (o := (length (concat lo) + r)%nat) in *. destruct (lookup_lt_is_Some_2 b r Hr) as [i1 Hi1].
  assert (m_pieces t !! o = Some i1) as Ho by (rewrite (rep_pieces _ _ _ _ _ _ H); subst o; by rewrite lookup_concat).
  rewrite (list_lookup_total_correct _ _ _ Ho), (list_lookup_total_correct _ _ _ He).
  assert (Forall (missing (m_piece_map t)) (m_pieces t)) as Hm by (by eapply rep_missing_all).
  assert (missing (m_piece_map t) i1) as Hm1 by (eapply Forall_lookup_1 in Hm; done).
  assert (missing (m_piece_map t) i) as Hm2 by (eapply Forall_lookup_1 in Hm; done).
  destruct (rep_synced _ _ _ _ _ _ H o i1 Ho ltac:(apply Hm1) ltac:(done)) as (p1 & Hp1 & Ei1).
  destruct (rep_synced _ _ _ _ _ _ H e i He ltac:(apply Hm2) ltac:(done)) as (p2 & Hp2 & Ei2).
  rewrite Hp1, Hp2, Ei1, Ei2.
  set (map1 := alter_piece (set_index (Z.of_nat e)) i1 (m_piece_map t)).
  assert (e < length (m_piece_map t))%nat as Hel by (apply lookup_lt_Some in He; lia).
  assert (o < length (m_piece_map t))%nat as Hol by (apply lookup_lt_Some in Ho; lia).
  assert (reindexed (m_piece_map t) map1) as Hre1 by (apply reindexed_write; [done|lia]).
  pose proof (missing_reindexed _ _ _ Hre1 Hm2) as Hm2'.
  assert (reindexed map1 (alter_piece (set_index (Z.of_nat o)) i map1)) as Hre2 by (apply reindexed_write; [done|lia]).
  pose proof (reindexed_trans _ _ _ Hre1 Hre2) as Hre.
  set (b' := <[length l1 := i1]> (<[r := i]> b)).
  assert (b !! length l1 = Some i) as Hbi by (subst b; by rewrite lookup_app_r, Nat.sub_diag).
  assert (b' ≡ₚ b) as Hb' by (apply swap_perm; [done..|lia]).
  assert (<[e := i1]> (<[o := i]> (m_pieces t)) = concat (lo ++ b' :: hi)) as EC.
  { rewrite (rep_pieces _ _ _ _ _ _ H), Ee. subst o. rewrite !insert_concat; [done|by rewrite length_insert|done]. }
  assert (concat (lo ++ b' :: hi) ≡ₚ m_pieces t) as Hperm.
  { rewrite (rep_pieces _ _ _ _ _ _ H), !concat_app. cbn [concat]. by rewrite Hb'. }
  exists (concat (lo ++ b' :: hi)), (sums 0 (lo ++ b' :: hi)), (alter_piece (set_index (Z.of_nat o)) i map1), (lo ++ b' :: hi).
  split; [rewrite EC; f_equal; rewrite !sums_app; cbn [sums]; by rewrite Hb'|]. split; [|done].
  apply (represents_moved f f (m_piece_map t) _ (m_pieces t) (m_priority_boundries t) (lo ++ b :: hi)); try done.
  - by destruct lo.
  - intros n x. rewrite (in_bucket_same lo b b') by (by rewrite Hb'). apply H.
  - rewrite Hperm. apply H.
  - rewrite Hperm. eapply Forall_impl; [exact Hm|]. intros x. by apply missing_reindexed.
  - rewrite <- EC. pose proof (rep_nodup _ _ _ _ _ _ H) as Hd.
    intros n x Hn Hx _. rewrite piece_at_alter by (done || apply Hm2).
    destruct (decide (n = e)) as [->|Hn1].
    + rewrite list_lookup_insert_eq in Hn by (rewrite length_insert; by apply lookup_lt_Some in He).
      injection Hn as <-. rewrite decide_False by (intros ->; apply Hne; by eapply NoDup_lookup).
      subst map1. rewrite piece_at_alter, decide_True, Hp1 by (done || apply Hm1). by eexists.
    + rewrite list_lookup_insert_ne in Hn by done. destruct (decide (n = o)) as [->|Hn2].
      * rewrite list_lookup_insert_eq in Hn by (by apply lookup_lt_Some in Ho). injection Hn as <-.
        rewrite decide_True by done. subst map1. rewrite piece_at_alter by (done || apply Hm1).
        rewrite decide_False by (intros ->; apply Hne; by eapply NoDup_lookup). rewrite Hp2. by eexists.
      * rewrite list_lookup_insert_ne in Hn by done.
        rewrite decide_False by (intros <-; apply Hn1; by eapply NoDup_lookup).
        subst map1. rewrite piece_at_alter by (done || apply Hm1).
        rewrite decide_False by (intros <-; apply Hn2; by eapply NoDup_lookup).
        by apply (rep_synced _ _ _ _ _ _ H).
Qed.

(** [i] is written into the hole and is in bucket [lo] then. *)
Lemma fill_hole f map map1 ps bs Bs lo1 b hi1 x1 x2 h i v :
  represents None f map ps bs Bs -> reindexed map map1 -> Z.of_nat (length map) < we_have_index ->
  concat (lo1 ++ b :: hi1) = x1 ++ i :: x2 -> x1 ++ i :: x2 ≡ₚ ps ->
  synced (Some (length x1)) (x1 ++ h :: x2) map1 ->
  (forall n x, in_bucket (lo1 ++ b :: hi1) n x <-> 0 <= x < Z.of_nat (length map) /\ set_value f i v x = Z.of_nat n) ->
  represents None (set_value f i v) (alter_piece (set_index (Z.of_nat (length x1))) i map1)
    (x1 ++ i :: x2) (sums 0 (lo1 ++ b :: hi1)) (lo1 ++ b :: hi1) /\
  reindexed map (alter_piece (set_index (Z.of_nat (length x1))) i map1).
Proof.
  intros H Hre Hlen EC Hperm Hs Hb. pose proof (rep_missing_all _ _ _ _ _ H) as Hm.
  pose proof (rep_length _ _ _ _ _ _ H) as Hpl. pose proof (rep_nodup _ _ _ _ _ _ H) as Hd.
  rewrite <- Hperm in Hm, Hd, Hpl. rewrite length_app in Hpl. cbn [length] in Hpl.
  assert (missing map1 i) as Hmi.
  { apply (missing_reindexed _ _ _ Hre). rewrite Forall_forall in Hm. apply Hm, elem_of_app. right. left. }
  assert (reindexed map (alter_piece (set_index (Z.of_nat (length x1))) i map1)) as Hre'.
  { eapply reindexed_trans; [done|]. apply reindexed_write; [done|lia]. }
  split; [|done]. rewrite <- EC in *.
  apply (represents_moved f _ map _ ps bs Bs); try done.
  - by destruct lo1.
  - eapply Forall_impl; [exact Hm|]. intros x. by apply missing_reindexed.
  - rewrite EC, <- (insert_midZ x1 h i x2). rewrite EC in Hd. rewrite <- Permutation_middle in Hd.
    apply NoDup_cons in Hd as [Hd _]. rewrite not_elem_of_app in Hd.
    pose proof (synced_write (Some (length x1)) (length x1) i (x1 ++ h :: x2) map1 Hs Hmi) as Hw.
    rewrite decide_True in Hw by done. apply Hw; [|rewrite length_app; cbn; lia].
    intros j Hj. right. destruct (decide (j = length x1)) as [|Hne]; [done|].
    rewrite <- (list_lookup_insert_ne _ (length x1) j i) in Hj by done. rewrite insert_midZ in Hj.
    apply (lookup_mid_unique _ x2 i); tauto.
Qed.

(** The buckets hold the same pieces, [i] apart. *)
Definition same_but (i : Z) (b b' : list Z) : Prop := forall x, x <> i -> x ∈ b' <-> x ∈ b.

Lemma same_but_perm i b b' : b' ≡ₚ b -> same_but i b b'.
Proof. intros E x _. by rewrite E. Qed.

Lemma same_but_fmap i g Bs : (forall b, g b ≡ₚ b) -> Forall2 (same_but i) Bs (g <$> Bs).
Proof. intros Hg. induction Bs as [|b Bs IH]; constructor; [by apply same_but_perm|done]. Qed.

Lemma same_but_refl i Bs : Forall2 (same_but i) Bs Bs.
Proof. induction Bs; constructor; [by apply same_but_perm|done]. Qed.

Lemma same_but_bucket i Bs Bs' n x :
  Forall2 (same_but i) Bs Bs' -> x <> i -> in_bucket Bs' n x <-> in_bucket Bs n x.
Proof.
  intros HF Hx. unfold in_bucket. split; intros (b & Hb & Hin).
  - eapply Forall2_lookup_r in HF as (b' & Hb' & Hs); [|done]. exists b'. split; [done|]. by apply Hs.
  - eapply Forall2_lookup_l in HF as (b' & Hb' & Hs); [|done]. exists b'. split; [done|]. by apply Hs.
Qed.

Lemma in_bucket_inj Bs n m x : NoDup (concat Bs) -> in_bucket Bs n x -> in_bucket Bs m x -> n = m.
Proof.
  revert n m. induction Bs as [|b Bs IH]; intros n m Hd Hn Hm.
  { destruct Hn as (b & Hb & _). by rewrite lookup_nil in Hb. }
  cbn in Hd. apply NoDup_app in Hd as (_ & Hdis & Hd). rewrite in_bucket_cons in Hn, Hm.
  destruct Hn as [[-> Hn]|(n' & -> & Hn)], Hm as [[-> Hm]|(m' & -> & Hm)]; [done|..].
  - destruct (Hdis x Hn). apply in_bucket_concat. eauto.
  - destruct (Hdis x Hm). apply in_bucket_concat. eauto.
  - f_equal. by apply IH.
Qed.

(** Membership after [i] moved between two buckets. *)
Lemma in_bucket_moved f map ps bs Bs Bs' i k' :
  represents None f map ps bs Bs -> i ∈ ps -> Forall2 (same_but i) Bs Bs' ->
  concat Bs' ≡ₚ ps -> in_bucket Bs' k' i ->
  forall n x, in_bucket Bs' n x <-> 0 <= x < Z.of_nat (length map) /\ set_value f i (Z.of_nat k') x = Z.of_nat n.
Proof.
  intros H Hi Hsame Hperm Hk n x. unfold set_value. destruct (Z.eqb_spec x i) as [->|Hne].
  - pose proof (rep_range _ _ _ _ _ _ i H Hi) as Hr. split.
    + intros Hn. split; [done|]. f_equal. symmetry. apply (in_bucket_inj Bs' n k' i); [|done..].
      rewrite Hperm. apply H.
    + intros [_ E]. by replace n with k' by lia.
  - rewrite (same_but_bucket i Bs Bs') by done. apply H.
Qed.

Lemma fmap_S_sums n b (mid : list (list Z)) x :
  S <$> sums n (b :: mid) = sums n ((b ++ [x]) :: mid).
Proof.
  cbn [sums fmap list_fmap]. rewrite length_app. cbn [length]. rewrite Nat.add_1_r, Nat.add_succ_r. f_equal.
  symmetry. apply (sums_S (n + length b)).
Qed.

Lemma update_down_represents np k e i t Bs f :
  represents None f (m_piece_map t) (m_pieces t) (m_priority_boundries t) Bs ->
  Z.of_nat (length (m_piece_map t)) < we_have_index ->
  m_pieces t !! e = Some i -> f i = Z.of_nat k -> (np < k)%nat ->
  let '(ps, map, bs, e') := update_down (k - np) (m_pieces t) (m_piece_map t) (m_priority_boundries t) k e i in
  exists Bs', represents None (set_value f i (Z.of_nat np)) (alter_piece (set_index (Z.of_nat e')) i map)
      (<[e' := i]> ps) bs Bs' /\
    reindexed (m_piece_map t) (alter_piece (set_index (Z.of_nat e')) i map) /\ <[e' := i]> ps !! e' = Some i.
Proof.
  intros H Hlen He Hf Hnp. destruct (rep_at _ _ _ _ _ _ _ _ _ H He Hf) as (lo0 & l1 & l2 & hi & -> & Hlo & -> & EP).
  destruct (split_bucket_at lo0 np ltac:(lia)) as (lo & bn & mid & -> & Hnpl).
  rewrite length_app in Hlo. cbn [length] in Hlo. subst np k.
  set (P := concat lo) in *. rewrite concat_app in EP. cbn [concat] in EP. fold P in EP.
  assert (m_pieces t = (P ++ concat (bn :: mid) ++ l1) ++ i :: l2 ++ concat hi) as EP' by (rewrite EP; cbn; by rewrite <- !app_assoc).
  assert (m_priority_boundries t = sums 0 lo ++ sums (length P) (bn :: mid) ++
    sums (length (concat (lo ++ bn :: mid))) ((l1 ++ i :: l2) :: hi)) as EB.
  { rewrite (rep_bounds _ _ _ _ _ _ H), sums_app, sums_app. rewrite !Nat.add_0_l. by rewrite <- app_assoc. }
  pose proof (rep_nodup _ _ _ _ _ _ H) as Hd. pose proof (rep_missing_all _ _ _ _ _ H) as Hm.
  pose proof (rep_length _ _ _ _ _ _ H) as Hpl. pose proof (rep_synced _ _ _ _ _ _ (rep_hole (length (concat (lo ++ bn :: mid) ++ l1)) _ _ _ _ _ H)) as Hs.
  assert (concat (lo ++ bn :: mid) ++ l1 = P ++ concat (bn :: mid) ++ l1) as EH by (rewrite concat_app; by rewrite <- app_assoc).
  rewrite EH in *. rewrite EP' in Hd, Hm, Hpl, Hs. rewrite <- Permutation_middle in Hd, Hm.
  apply NoDup_cons in Hd as [Hi Hd]. apply Forall_cons in Hm as [_ Hm]. rewrite length_app in Hpl. cbn [length] in Hpl.
  rewrite <- !app_assoc in Hd, Hm, Hi.
  destruct (update_down_spec (bn :: mid) l1 P i (l2 ++ concat hi) (m_piece_map t) (sums 0 lo)
    (sums (length (concat (lo ++ bn :: mid))) ((l1 ++ i :: l2) :: hi))) as (b & Ms & h' & map' & Eb & E & Hre & Hs'); try done.
  - rewrite !Forall_app in *. tauto.
  - rewrite !not_elem_of_app in *. tauto.
  - lia.
  - injection Eb as <- <-. rewrite <- EP', <- EB, length_sums in E. cbn [length] in E.
    replace (length lo + S (length mid) - length lo)%nat with (S (length mid)) by lia. rewrite E.
    rewrite insert_midZ. set (x2 := concat (rotate_left <$> mid ++ [l1]) ++ l2 ++ concat hi) in *.
    set (hi' := (rotate_left <$> mid) ++ (rotate_left l1 ++ l2) :: hi).
    assert (concat (lo ++ (bn ++ [i]) :: hi') = (P ++ bn) ++ i :: x2) as EC.
    { subst hi' x2. rewrite concat_app. cbn [concat]. rewrite concat_app. cbn [concat].
      rewrite fmap_app, concat_app. cbn [fmap list_fmap concat]. rewrite app_nil_r, <- !app_assoc. done. }
    assert ((P ++ bn) ++ i :: x2 ≡ₚ m_pieces t) as Hperm.
    { rewrite EP'. rewrite <- !Permutation_middle. f_equiv. subst x2.
      rewrite (concat_perm rotate_left) by apply rotl_perm. rewrite concat_app. cbn [concat].
      by rewrite app_nil_r, <- !app_assoc. }
    assert (pre_sums : sums 0 lo ++ (S <$> sums (length P) (bn :: mid)) ++
      sums (length (concat (lo ++ bn :: mid))) ((l1 ++ i :: l2) :: hi) = sums 0 (lo ++ (bn ++ [i]) :: hi')).
    { rewrite (fmap_S_sums _ _ _ i), (sums_app 0 lo). f_equal. rewrite Nat.add_0_l. fold P.
      change ((bn ++ [i]) :: hi') with (((bn ++ [i]) :: (rotate_left <$> mid)) ++ (rotate_left l1 ++ l2) :: hi). rewrite sums_app.
      cbn [sums]. rewrite (sums_same _ rotate_left) by apply length_rotl. cbn [app concat]. repeat rewrite <- app_comm_cons.
      rewrite !length_app, (length_concat_same rotate_left), length_rotl, concat_app by apply length_rotl. cbn [concat length].
      rewrite !length_app. fold P.
      assert (length P + (length bn + length (concat mid)) + (length l1 + S (length l2)) =
        length P + (length bn + 1 + length (concat mid)) + (length l1 + length l2))%nat as -> by lia. done. }
    rewrite pre_sums.
    destruct (fill_hole f (m_piece_map t) map' (m_pieces t) (m_priority_boundries t) ((lo ++ bn :: mid) ++ (l1 ++ i :: l2) :: hi)
      lo (bn ++ [i]) hi' (P ++ bn) x2 h' i (Z.of_nat (length lo))) as [H1 H2]; try done.
    + apply (in_bucket_moved f (m_piece_map t) (m_pieces t) (m_priority_boundries t) ((lo ++ bn :: mid) ++ (l1 ++ i :: l2) :: hi));
        try done.
      * rewrite EP'. apply elem_of_app. right. left.
      * rewrite <- app_assoc. cbn [app]. apply Forall2_app; [apply same_but_refl|]. constructor.
        { intros x Hx. rewrite elem_of_app, list_elem_of_singleton. tauto. }
        apply Forall2_app; [apply same_but_fmap, rotl_perm|]. constructor; [|apply same_but_refl].
        intros x Hx. rewrite !elem_of_app, elem_of_cons, rotl_perm. tauto.
      * by rewrite EC.
      * apply in_bucket_app. right. split; [done|]. rewrite Nat.sub_diag, in_bucket_cons, elem_of_app. left.
        split; [done|]. right. left.
    + exists (lo ++ (bn ++ [i]) :: hi'). split; [done|]. split; [done|]. by rewrite lookup_app_r, Nat.sub_diag.
Qed.

Lemma update_up_represents np k e i t Bs f :
  represents None f (m_piece_map t) (m_pieces t) (m_priority_boundries t) Bs ->
  Z.of_nat (length (m_piece_map t)) < we_have_index ->
  m_pieces t !! e = Some i -> f i = Z.of_nat k -> (k < np < length Bs)%nat ->
  let '(ps, map, bs, e') := update_up (np - k) (m_pieces t) (m_piece_map t) (m_priority_boundries t) k e i in
  exists Bs', represents None (set_value f i (Z.of_nat np)) (alter_piece (set_index (Z.of_nat e')) i map)
      (<[e' := i]> ps) bs Bs' /\
    reindexed (m_piece_map t) (alter_piece (set_index (Z.of_nat e')) i map) /\ <[e' := i]> ps !! e' = Some i.
Proof.
  intros H Hlen He Hf [Hnp Hnb]. destruct (rep_at _ _ _ _ _ _ _ _ _ H He Hf) as (lo & l1 & l2 & hi0 & -> & Hlo & -> & EP).
  rewrite length_app in Hnb. cbn [length] in Hnb.
  destruct (split_bucket_at hi0 (np - k - 1) ltac:(lia)) as (mid & bn & hi & -> & Hmid).
  set (L := concat lo ++ l1) in *. rewrite concat_app in EP. cbn [concat] in EP.
  assert (m_pieces t = L ++ i :: concat (l2 :: mid) ++ bn ++ concat hi) as EP' by (rewrite EP; cbn; by rewrite <- !app_assoc).
  set (post := sums (length (concat lo) + length (concat ((l1 ++ i :: l2) :: mid))) (bn :: hi)).
  assert (m_priority_boundries t = sums 0 lo ++ sums (S (length L)) (l2 :: mid) ++ post) as EB.
  { rewrite (rep_bounds _ _ _ _ _ _ H), sums_app. f_equal. rewrite Nat.add_0_l.
    change ((l1 ++ i :: l2) :: mid ++ bn :: hi) with (((l1 ++ i :: l2) :: mid) ++ bn :: hi). rewrite sums_app. f_equal.
    cbn [sums]. assert (length (concat lo) + length (l1 ++ i :: l2) = S (length L) + length l2)%nat as ->; [|done].
    subst L. rewrite !length_app. cbn [length]. lia. }
  pose proof (rep_nodup _ _ _ _ _ _ H) as Hd. pose proof (rep_missing_all _ _ _ _ _ H) as Hm.
  pose proof (rep_length _ _ _ _ _ _ H) as Hpl. pose proof (rep_synced _ _ _ _ _ _ (rep_hole (length L) _ _ _ _ _ H)) as Hs.
  rewrite EP' in Hd, Hm, Hpl, Hs. rewrite <- Permutation_middle in Hd, Hm.
  apply NoDup_cons in Hd as [Hi Hd]. apply Forall_cons in Hm as [_ Hm]. rewrite length_app in Hpl. cbn [length] in Hpl.
  rewrite !length_app in Hpl.
  destruct (update_up_spec (l2 :: mid) L i (bn ++ concat hi) (m_piece_map t) (sums 0 lo) post) as (h' & map' & E & Hre & Hs');
    try done.
  - rewrite !Forall_app in Hm. tauto.
  - rewrite !not_elem_of_app in Hi. tauto.
  - rewrite length_app. lia.
  - rewrite <- EP', <- EB, length_sums in E. cbn [length] in E. rewrite <- Hlo.
    replace (np - length lo)%nat with (S (length mid)) by lia. rewrite E.
    assert (length (L ++ concat (l2 :: mid)) = length (L ++ concat (rotate_right <$> l2 :: mid))) as EL
      by (rewrite !length_app, (length_concat_same rotate_right) by apply length_rotr; done).
    rewrite EL, insert_midZ in *. set (lo' := lo ++ (l1 ++ rotate_right l2) :: (rotate_right <$> mid)).
    assert (concat (lo' ++ (i :: bn) :: hi) = (L ++ concat (rotate_right <$> l2 :: mid)) ++ i :: bn ++ concat hi) as EC.
    { subst lo' L. rewrite !concat_app. cbn [concat fmap list_fmap]. by rewrite <- !app_assoc. }
    assert ((L ++ concat (rotate_right <$> l2 :: mid)) ++ i :: bn ++ concat hi ≡ₚ m_pieces t) as Hperm.
    { rewrite EP', <- !Permutation_middle. f_equiv. rewrite (concat_perm rotate_right) by apply rotr_perm. by rewrite <- app_assoc. }
    assert (sums 0 lo ++ sums (length L) (l2 :: mid) ++ post = sums 0 (lo' ++ (i :: bn) :: hi)) as ES.
    { subst lo'. rewrite <- app_assoc, (sums_app 0 lo). f_equal. rewrite Nat.add_0_l. cbn [app].
      change ((l1 ++ rotate_right l2) :: (rotate_right <$> mid) ++ (i :: bn) :: hi) with (((l1 ++ rotate_right l2) :: (rotate_right <$> mid)) ++ (i :: bn) :: hi).
      rewrite sums_app. cbn [sums concat]. rewrite (sums_same _ rotate_right) by apply length_rotr.
      rewrite !length_app, (length_concat_same rotate_right), length_rotr by apply length_rotr. subst post L. cbn [sums concat length].
      rewrite !length_app. cbn [length]. rewrite <- (Nat.add_assoc (length (concat lo)) (length l1) (length l2)).
      assert (length (concat lo) + (length l1 + S (length l2) + length (concat mid)) + length bn =
        length (concat lo) + (length l1 + length l2 + length (concat mid)) + S (length bn))%nat as -> by lia. done. }
    rewrite ES.
    destruct (fill_hole f (m_piece_map t) map' (m_pieces t) (m_priority_boundries t) (lo ++ (l1 ++ i :: l2) :: mid ++ bn :: hi)
      lo' (i :: bn) hi (L ++ concat (rotate_right <$> l2 :: mid)) (bn ++ concat hi) h' i (Z.of_nat np)) as [H1 H2]; try done.
    + apply (in_bucket_moved f (m_piece_map t) (m_pieces t) (m_priority_boundries t) (lo ++ (l1 ++ i :: l2) :: mid ++ bn :: hi));
        try done.
      * rewrite EP'. apply elem_of_app. right. left.
      * subst lo'. rewrite <- app_assoc. cbn [app]. apply Forall2_app; [apply same_but_refl|]. constructor.
        { intros x Hx. rewrite !elem_of_app, elem_of_cons, rotr_perm. tauto. }
        apply Forall2_app; [apply same_but_fmap, rotr_perm|]. constructor; [|apply same_but_refl].
        intros x Hx. rewrite elem_of_cons. tauto.
      * by rewrite EC.
      * assert (length lo' = np) as Hl by (subst lo'; rewrite length_app; cbn [length]; rewrite length_fmap; lia).
        apply in_bucket_app. right. rewrite Hl. split; [done|]. rewrite Nat.sub_diag, in_bucket_cons. left.
        split; [done|]. left.
    + exists (lo' ++ (i :: bn) :: hi). split; [done|]. split; [done|]. by rewrite lookup_app_r, Nat.sub_diag.
Qed.

(** [update] moves the piece at [e] from bucket [k] to that of its priority. *)
Lemma update_represents random k e i p t Bs f :
  represents None f (m_piece_map t) (m_pieces t) (m_priority_boundries t) Bs ->
  Z.of_nat (length (m_piece_map t)) < we_have_index ->
  m_pieces t !! e = Some i -> piece_at (m_piece_map t) i = Some p -> f i = k -> 0 <= k -> -1 <= priority (m_seeds t) p ->
  exists ps bs map Bs', update random k e t = with_buckets ps bs map t /\
    represents None (set_value f i (priority (m_seeds t) p)) map ps bs Bs' /\ reindexed (m_piece_map t) map.
Proof.
  intros H Hlen He Hp Hf Hk Hnew. unfold update. rewrite (list_lookup_total_correct _ _ _ He), Hp.
  assert (f i = Z.of_nat (Z.to_nat k)) as Hf' by lia. set (np := priority (m_seeds t) p) in *.
  destruct (Z.eqb_spec np k) as [E|Hne].
  { exists (m_pieces t), (m_priority_boundries t), (m_piece_map t), Bs. split; [by destruct t|]. split; [|apply reindexed_refl].
    eapply rep_ext; [|exact H]. intros x _. unfold set_value. destruct (Z.eqb_spec x i); congruence. }
  destruct (Z.eqb_spec np (-1)) as [E|Hne1].
  { rewrite E. by apply (remove_represents _ _ _ _ Bs); [apply rep_hole|..]. }
  destruct (rep_resize _ _ _ _ _ _ (Z.to_nat np) H) as (Bs1 & H1 & Hlen1).
  set (bs1 := if (_ <=? _)%nat then _ else _) in *. set (t1 := with_buckets (m_pieces t) bs1 (m_piece_map t) t).
  set (r := if np <? k then _ else _).
  assert (let '(ps, map, bs, e') := r in
    exists Bs', represents None (set_value f i np) (alter_piece (set_index (Z.of_nat e')) i map) (<[e' := i]> ps) bs Bs' /\
    reindexed (m_piece_map t) (alter_piece (set_index (Z.of_nat e')) i map) /\ <[e' := i]> ps !! e' = Some i) as Hr.
  { subst r. assert (Z.of_nat (Z.to_nat np) = np) as Ez by lia. destruct (Z.ltb_spec np k).
    - pose proof (update_down_represents (Z.to_nat np) (Z.to_nat k) e i t1 Bs1 f H1 Hlen He Hf' ltac:(lia)) as Hd.
      rewrite Ez in Hd. exact Hd.
    - pose proof (update_up_represents (Z.to_nat np) (Z.to_nat k) e i t1 Bs1 f H1 Hlen He Hf' ltac:(lia)) as Hd.
      rewrite Ez in Hd. exact Hd. }
  clearbody r. destruct r as [[[ps map] bs] e']. destruct Hr as (Bs2 & H2 & Hre & He').
  destruct (shuffle_represents random (Z.to_nat np) e' i
    (with_buckets (<[e' := i]> ps) bs (alter_piece (set_index (Z.of_nat e')) i map) t) Bs2 (set_value f i np))
    as (ps3 & bs3 & map3 & Bs3 & E3 & H3 & Hre3); try done.
  - cbn. apply Forall2_length in Hre. lia.
  - unfold set_value. rewrite Z.eqb_refl. lia.
  - exists ps3, bs3, map3, Bs3. split; [rewrite E3; done|]. split; [done|]. by eapply reindexed_trans.
Qed.

(** ** Reading the buckets *)

Lemma rep_elem e f map ps bs Bs i :
  represents e f map ps bs Bs -> i ∈ ps <-> 0 <= i < Z.of_nat (length map) /\ 0 <= f i.
Proof.
  intros H. rewrite (rep_pieces _ _ _ _ _ _ H), in_bucket_concat. setoid_rewrite (rep_bucket _ _ _ _ _ _ H). split.
  - intros (k & Hi & Hk). split; [done|lia].
  - intros [Hi Hf]. exists (Z.to_nat (f i)). split; [done|lia].
Qed.

Lemma buckets_sorted (f : Z -> Z) Bs k :
  (forall j b x, Bs !! j = Some b -> x ∈ b -> f x = Z.of_nat (k + j)) -> StronglySorted (fun i j => f i <= f j) (concat Bs).
Proof.
  revert k. induction Bs as [|b Bs IH]; intros k Hb; [constructor|]. cbn [concat].
  assert (forall x, x ∈ b -> f x = Z.of_nat k) as Hf by (intros x Hx; rewrite (Hb 0%nat b x eq_refl Hx); f_equal; lia).
  assert (forall x, x ∈ concat Bs -> Z.of_nat k <= f x) as Hg.
  { intros x (j & c & Hj & Hx)%in_bucket_concat. rewrite (Hb (S j) c x Hj Hx). lia. }
  specialize (IH (S k) ltac:(intros j c x Hj Hx; rewrite (Hb (S j) c x Hj Hx); f_equal; lia)). clear Hb.
  induction b as [|y b IHb]; [done|]. cbn. constructor.
  - apply IHb. intros x Hx. apply Hf. by apply list_elem_of_further.
  - apply Forall_forall. intros x [Hx|Hx]%elem_of_app; rewrite (Hf y (list_elem_of_here _ _)).
    + rewrite (Hf x (list_elem_of_further _ _ _ Hx)). lia.
    + by apply Hg.
Qed.

Lemma rep_sorted e f map ps bs Bs : represents e f map ps bs Bs -> StronglySorted (fun i j => f i <= f j) ps.
Proof.
  intros H. rewrite (rep_pieces _ _ _ _ _ _ H). apply (buckets_sorted f Bs 0). intros j b x Hj Hx.
  apply (rep_bucket _ _ _ _ _ _ H j x). by exists b.
Qed.
