(* ===== verification/PiecePickerInv.v ===== *)
(** * The piece picker keeps its pieces ordered

    Unless it is marked dirty, [m_pieces] holds exactly the pieces that can be
    picked, each at the position it stores, ordered by priority, with the
    boundaries of the priorities in [m_priority_boundries]: the part of
    [check_invariant] about the buckets, for every operation; and
    [update_pieces] establishes it. *)

From S2P Require Import Prelude Archive Md4Hash Bitfield PiecePicker PiecePickerBuckets.
From stdpp Require Import list relations.
Open Scope Z_scope.

(** ** Priorities *)

Definition piece_wf (p : piece_pos) : Prop := is_uint 2 (peer_count p) /\ 0 <= piece_priority p < 8.

Lemma priority_lower seeds p : piece_wf p -> -1 <= priority seeds p.
Proof.
  intros [Hc Hp]. unfold is_uint in Hc. unfold priority, filtered, filter_priority, prio_factor, priority_levels.
  change (8 / 2) with 4. change ((8 - 2) / 2) with 3. change (8 - 4) with 4.
  destruct (Z.eqb_spec (piece_priority p) 0); cbn [orb]; [lia|]. cbn [orb].
  destruct (have p || _); [lia|]. destruct (piece_priority p =? 8 - 1); [destruct (downloading p); unfold Z.b2z; lia|].
  pose proof (Z.div_pos (peer_count p) 2 ltac:(lia) ltac:(lia)).
  destruct (Z.leb_spec 4 (piece_priority p)); destruct (downloading p); lia.
Qed.

Definition prio_of (seeds : Z) (map : list piece_pos) (i : Z) : Z :=
  match piece_at map i with Some p => priority seeds p | None => -1 end.

Lemma prio_of_alter seeds map i p p' x :
  0 <= i -> 0 <= x -> piece_at map i = Some p ->
  prio_of seeds (alter_piece (fun _ => p') i map) x = set_value (prio_of seeds map) i (priority seeds p') x.
Proof.
  intros Hi Hx Hp. unfold prio_of, set_value. rewrite piece_at_alter by done.
  case_decide as E; [subst; rewrite Hp, Z.eqb_refl; done|]. destruct (Z.eqb_spec x i); [congruence|done].
Qed.

Lemma prio_of_reindexed seeds map map' x : reindexed map map' -> prio_of seeds map' x = prio_of seeds map x.
Proof.
  intros Hr. unfold prio_of. destruct (piece_at map x) as [p|] eqn:E.
  - destruct (reindexed_priority _ _ seeds _ _ Hr E) as (q & -> & ->). done.
  - destruct (piece_at map' x) eqn:E'; [|done]. unfold piece_at in *.
    apply lookup_lt_Some in E'. apply lookup_ge_None in E. apply Forall2_length in Hr. lia.
Qed.

(** ** Changing a piece without moving it *)

Lemma length_alter_piece f i map : length (alter_piece f i map) = length map.
Proof. apply length_alter. Qed.

Lemma missing_alter f i map x :
  0 <= i -> (forall p, piece_at map i = Some p -> have (f p) = have p) -> missing map x -> missing (alter_piece f i map) x.
Proof.
  intros Hi Hf [Hx (p & Hp & Hh)]. split; [done|]. rewrite piece_at_alter by done. case_decide as E; [|by exists p].
  subst x. rewrite Hp. exists (f p). split; [done|]. by rewrite Hf.
Qed.

(** Position and possession stay: the buckets are the same. *)
Lemma rep_alter e f g map ps bs Bs i p :
  represents e f map ps bs Bs -> 0 <= i -> piece_at map i = Some p -> index (g p) = index p ->
  represents e f (alter_piece g i map) ps bs Bs.
Proof.
  intros [] Hi Hp Hidx. assert (have (g p) = have p) as Hh by (unfold have; by rewrite Hidx). split; try done.
  - intros k x. by rewrite length_alter_piece.
  - intros k x Hk He. apply missing_alter; [done| |by apply (rep_missing k)]. intros q Hq. congruence.
  - intros k x Hk Hx He. destruct (rep_synced k x Hk Hx He) as (q & Hq & Eq). rewrite piece_at_alter by done.
    case_decide as E; [|by exists q]. subst x. rewrite Hp in *. injection Hq as <-. exists (g p). split; [done|]. congruence.
Qed.

(** A piece in no bucket may change in any way. *)
Lemma rep_alter_absent e f g map ps bs Bs i :
  represents e f map ps bs Bs -> 0 <= i -> f i = -1 -> represents e f (alter_piece g i map) ps bs Bs.
Proof.
  intros H Hi Hf. pose proof (rep_absent _ _ _ _ _ _ i H Hf) as Hni. destruct H. split; try done.
  - intros k x. by rewrite length_alter_piece.
  - intros k x Hk He. destruct (rep_missing k x Hk He) as [Hx (p & Hp & Hh)]. split; [done|].
    rewrite piece_at_alter, decide_False; [by exists p|intros ->; by apply list_elem_of_lookup_2 in Hk|done|done].
  - intros k x Hk Hx He. destruct (rep_synced k x Hk Hx He) as (q & Hq & Eq).
    rewrite piece_at_alter, decide_False; [by exists q|intros ->; by apply list_elem_of_lookup_2 in Hk|done|done].
Qed.

(** The piece at the hole may change in any way. *)
Lemma rep_alter_hole e f g map ps bs Bs i :
  represents None f map ps bs Bs -> ps !! e = Some i -> 0 <= i -> represents (Some e) f (alter_piece g i map) ps bs Bs.
Proof.
  intros H He Hi. pose proof (rep_nodup _ _ _ _ _ _ H) as Hd. destruct H. split; try done.
  - intros k x. by rewrite length_alter_piece.
  - intros k x Hk Hne. destruct (rep_missing k x Hk ltac:(done)) as [Hx (p & Hp & Hh)]. split; [done|].
    rewrite piece_at_alter, decide_False; [by exists p| |done|done].
    intros ->. apply Hne. f_equal. by eapply NoDup_lookup.
  - intros k x Hk Hx Hne. destruct (rep_synced k x Hk Hx ltac:(done)) as (q & Hq & Eq).
    rewrite piece_at_alter, decide_False; [by exists q| |done|done].
    intros ->. apply Hne. f_equal. by eapply NoDup_lookup.
Qed.

(** ** Ordered pickers *)

Definition ordered_map (seeds : Z) (map : list piece_pos) (ps : list Z) (bs : list nat) : Prop :=
  exists Bs, represents None (prio_of seeds map) map ps bs Bs.

Record ordered (t : piece_picker) : Prop := {
  ord_wf : Forall piece_wf (m_piece_map t);
  ord_size : Z.of_nat (length (m_piece_map t)) < we_have_index;
  ord_seeds : 0 <= m_seeds t;
  ord_buckets : m_dirty t = false -> ordered_map (m_seeds t) (m_piece_map t) (m_pieces t) (m_priority_boundries t)
}.

Lemma ordered_piece t i p : ordered t -> piece_at (m_piece_map t) i = Some p -> piece_wf p.
Proof. intros H Hp. apply ord_wf in H. by eapply Forall_lookup_1 in H. Qed.

(** The position of a piece in a bucket. *)
Lemma rep_position f map ps bs Bs i p :
  represents None f map ps bs Bs -> 0 <= i -> piece_at map i = Some p -> 0 <= f i ->
  exists e, ps !! e = Some i /\ index p = Z.of_nat e.
Proof.
  intros H Hi Hp Hf. assert (i < Z.of_nat (length map)).
  { apply lookup_lt_Some in Hp. lia. }
  assert (in_bucket Bs (Z.to_nat (f i)) i) as Hb by (apply (rep_bucket _ _ _ _ _ _ H); lia).
  assert (i ∈ ps) as [e He]%list_elem_of_lookup.
  { rewrite (rep_pieces _ _ _ _ _ _ H). apply in_bucket_concat. eauto. }
  exists e. split; [done|]. destruct (rep_synced _ _ _ _ _ _ H e i He Hi ltac:(done)) as (q & Hq & Eq). congruence.
Qed.

(** The order is restored after piece [i], in its old place, has become [p']. *)
Lemma reorder_ordered_map random i p p' t Bs f :
  represents None f (m_piece_map t) (m_pieces t) (m_priority_boundries t) Bs ->
  Z.of_nat (length (m_piece_map t)) < we_have_index ->
  0 <= i -> piece_at (m_piece_map t) i = Some p' -> index p = index p' -> piece_wf p' -> -1 <= f i ->
  (forall x, 0 <= x -> prio_of (m_seeds t) (m_piece_map t) x = set_value f i (priority (m_seeds t) p') x) ->
  m_dirty t = false ->
  exists ps bs map, reorder random (f i) (priority (m_seeds t) p') i p t = with_buckets ps bs map t /\
    reindexed (m_piece_map t) map /\ ordered_map (m_seeds t) map ps bs.
Proof.
  intros H Hlen Hi Hp Hidx Hwf Hfi Hprio Hdirty. pose proof (priority_lower (m_seeds t) p' Hwf) as Hlow.
  assert (forall ps bs map Bs', represents None (set_value f i (priority (m_seeds t) p')) map ps bs Bs' ->
    reindexed (m_piece_map t) map -> ordered_map (m_seeds t) map ps bs) as Hfin.
  { intros ps bs map Bs' HR Hre. exists Bs'. eapply rep_ext; [|exact HR]. intros x Hx.
    rewrite (prio_of_reindexed _ _ _ _ Hre). apply Hprio. lia. }
  unfold reorder. rewrite Hdirty. destruct (Z.eqb_spec (f i) (priority (m_seeds t) p')) as [E|Hne].
  { exists (m_pieces t), (m_priority_boundries t), (m_piece_map t). split; [by destruct t|]. split; [apply reindexed_refl|].
    apply (Hfin _ _ _ Bs); [|apply reindexed_refl]. eapply rep_ext; [|exact H]. intros x Hx. unfold set_value.
    destruct (Z.eqb_spec x i); congruence. }
  destruct (Z.eqb_spec (f i) (-1)) as [E|Hne1].
  - destruct (add_represents random i p' t Bs f) as (ps & bs & map & Bs' & -> & HR & Hre); try done; [lia|]. eauto 10.
  - destruct (rep_position _ _ _ _ _ i p' H Hi Hp ltac:(lia)) as (e & He & Ee). rewrite Hidx, Ee, Nat2Z.id.
    destruct (update_represents random (f i) e i p' t Bs f) as (ps & bs & map & Bs' & -> & HR & Hre); try done; [lia|].
    eauto 10.
Qed.

(** ** The operations *)

(** All that the order depends on besides the pieces themselves. *)
Definition same_order (t t0 : piece_picker) : Prop :=
  m_pieces t = m_pieces t0 /\ m_priority_boundries t = m_priority_boundries t0 /\
  m_seeds t = m_seeds t0 /\ m_dirty t = m_dirty t0.

Lemma wf_reindexed map map' : reindexed map map' -> Forall piece_wf map -> Forall piece_wf map'.
Proof.
  intros Hr Hw. apply Forall_lookup. intros k q Hq. eapply Forall2_lookup_r in Hr as (p & Hp & [n ->] & _); [|done].
  exact (Forall_lookup_1 _ _ _ _ Hw Hp).
Qed.

Lemma wf_alter g i map :
  Forall piece_wf map -> (forall p, piece_wf p -> piece_wf (g p)) -> Forall piece_wf (alter_piece g i map).
Proof. intros Hw Hg. apply Forall_alter; [done|]. intros p _ Hp. by apply Hg. Qed.

Lemma ordered_dirty t :
  Forall piece_wf (m_piece_map t) -> Z.of_nat (length (m_piece_map t)) < we_have_index -> 0 <= m_seeds t ->
  m_dirty t = true -> ordered t.
Proof. intros Hw Hs Hd E. split; [done..|]. intros. congruence. Qed.

Lemma alter_piece_const g i p map : piece_at map i = Some p -> alter_piece g i map = alter_piece (fun _ => g p) i map.
Proof. intros Hp. unfold alter_piece, piece_at in *. apply list_alter_ext; [|done]. intros x Hx. congruence. Qed.

Lemma alter_piece_absent g i map : piece_at map i = None -> alter_piece g i map = map.
Proof.
  unfold alter_piece, piece_at. intros Hp. apply list_eq. intros k. destruct (decide (k = Z.to_nat i)) as [->|Hne].
  - by rewrite list_lookup_alter_eq, Hp.
  - by rewrite list_lookup_alter_ne.
Qed.

(** Only the buckets, and the positions the pieces store, have changed. *)
Definition rebucketed (t t' : piece_picker) : Prop :=
  exists ps bs map, t' = with_buckets ps bs map t /\ reindexed (m_piece_map t) map.

Lemma rebucketed_refl t : rebucketed t t.
Proof. exists (m_pieces t), (m_priority_boundries t), (m_piece_map t). split; [by destruct t|apply reindexed_refl]. Qed.

Lemma rebucketed_ordered t ps bs map :
  Forall piece_wf (m_piece_map t) -> Z.of_nat (length (m_piece_map t)) < we_have_index -> 0 <= m_seeds t ->
  reindexed (m_piece_map t) map -> ordered_map (m_seeds t) map ps bs ->
  ordered (with_buckets ps bs map t) /\ rebucketed t (with_buckets ps bs map t).
Proof.
  intros Hw Hl Hs Hre Ho. split; [|by exists ps, bs, map].
  split; cbn; [by eapply wf_reindexed|apply Forall2_length in Hre; lia|done|by intros _].
Qed.

(** Nothing that matters has changed but piece [i], from [p] to [p']. *)
Lemma reorder_frame random i p p' t0 t :
  ordered t0 -> 0 <= i -> piece_at (m_piece_map t0) i = Some p -> index p' = index p -> piece_wf p' ->
  m_piece_map t = alter_piece (fun _ => p') i (m_piece_map t0) -> same_order t t0 ->
  let t' := reorder random (priority (m_seeds t0) p) (priority (m_seeds t0) p') i p t in ordered t' /\ rebucketed t t'.
Proof.
  intros H0 Hi Hp Hidx Hwf Hmap (Hps & Hbs & Hsd & Hdt). cbv zeta. pose proof H0 as [Hw Hsz Hse Hb].
  assert (Forall piece_wf (m_piece_map t)) as Hw' by (rewrite Hmap; by apply wf_alter).
  assert (Z.of_nat (length (m_piece_map t)) < we_have_index) as Hsz' by (by rewrite Hmap, length_alter_piece).
  destruct (m_dirty t) eqn:Ed.
  { unfold reorder. rewrite Ed. destruct (_ =? _); (split; [apply ordered_dirty; congruence || done|apply rebucketed_refl]). }
  destruct (Hb ltac:(congruence)) as [Bs HR].
  assert (piece_at (m_piece_map t) i = Some p') as Hp'.
  { rewrite Hmap, piece_at_alter, decide_True, Hp by done. done. }
  destruct (reorder_ordered_map random i p p' t Bs (prio_of (m_seeds t0) (m_piece_map t0)))
    as (ps & bs & map & E & Hre & Ho); try done.
  - rewrite Hmap, Hps, Hbs. by apply (rep_alter _ _ (fun _ => p') _ _ _ _ i p).
  - unfold prio_of. rewrite Hp. apply priority_lower. by eapply ordered_piece.
  - intros x Hx. rewrite Hmap, Hsd. by apply (prio_of_alter _ _ i p).
  - unfold prio_of in E at 1. rewrite Hp, Hsd in E. rewrite E. apply rebucketed_ordered; try done. congruence.
Qed.

Lemma reorder_ordered random i p p' t0 t :
  ordered t0 -> 0 <= i -> piece_at (m_piece_map t0) i = Some p -> index p' = index p -> piece_wf p' ->
  m_piece_map t = alter_piece (fun _ => p') i (m_piece_map t0) -> same_order t t0 ->
  ordered (reorder random (priority (m_seeds t0) p) (priority (m_seeds t0) p') i p t).
Proof. intros. by eapply reorder_frame. Qed.

Lemma to_uint2_wf n p : piece_wf p -> piece_wf (set_peer_count n p).
Proof. intros [_ Hp]. split; [apply to_uint_range|done]. Qed.

Lemma inc_refcount_ordered random i t : ordered t -> 0 <= i -> ordered (inc_refcount random i t).
Proof.
  intros H Hi. unfold inc_refcount. destruct (piece_at (m_piece_map t) i) as [p|] eqn:Hp; [|done].
  apply (reorder_ordered random i p _ t); try done. apply to_uint2_wf. by eapply ordered_piece.
Qed.

(** When a piece in no bucket stays in none, calling [update] for the others is
    all there is to do. *)
Lemma update_reorder random i p p' t0 t :
  ordered t0 -> 0 <= i -> piece_at (m_piece_map t0) i = Some p -> index p' = index p ->
  (priority (m_seeds t0) p = -1 -> priority (m_seeds t0) p' = -1) ->
  m_piece_map t = alter_piece (fun _ => p') i (m_piece_map t0) -> same_order t t0 ->
  (if m_dirty t then t
   else if 0 <=? priority (m_seeds t0) p then update random (priority (m_seeds t0) p) (Z.to_nat (index p)) t else t)
  = reorder random (priority (m_seeds t0) p) (priority (m_seeds t0) p') i p t.
Proof.
  intros H Hi Hp Hidx Hout Hmap (Hps & Hbs & Hsd & Hdt). unfold reorder.
  pose proof (priority_lower (m_seeds t0) p ltac:(by eapply ordered_piece)) as Hlow.
  destruct (m_dirty t) eqn:Ed; [by destruct (_ =? _)|].
  destruct (Z.leb_spec 0 (priority (m_seeds t0) p)) as [Hge|Hlt].
  - destruct (Z.eqb_spec (priority (m_seeds t0) p) (priority (m_seeds t0) p')) as [E|Hne].
    + destruct (ord_buckets _ H ltac:(congruence)) as [Bs HR].
      destruct (rep_position _ _ _ _ _ i p HR Hi Hp) as (e & He & Ee); [unfold prio_of; by rewrite Hp|].
      unfold update. rewrite Ee, Nat2Z.id, Hps, (list_lookup_total_correct _ _ _ He), Hmap, Hsd.
      rewrite piece_at_alter, decide_True, Hp by done. cbn. by rewrite <- E, Z.eqb_refl.
    + destruct (Z.eqb_spec (priority (m_seeds t0) p) (-1)); [lia|done].
  - assert (priority (m_seeds t0) p = -1) as E by lia. by rewrite (Hout E), E.
Qed.

(** Why a piece is in no bucket. *)
Lemma priority_none seeds p :
  piece_wf p -> priority seeds p = -1 <-> skipped p = true \/ peer_count p + seeds = 0.
Proof.
  intros [Hw1 Hw2]. unfold is_uint in Hw1. unfold skipped, priority. rewrite (orb_comm (have p)).
  destruct (filtered p || have p); [tauto|]. cbn [orb].
  destruct (Z.eqb_spec (peer_count p + seeds) 0); [tauto|]. split; [|intros [?|?]; done].
  unfold prio_factor, priority_levels in *. change ((8 - 2) / 2) with 3 in *. change (8 / 2) with 4 in *.
  pose proof (Z.div_pos (peer_count p) 2 ltac:(lia) ltac:(lia)).
  destruct (Z.eqb_spec (piece_priority p) (8 - 1)), (Z.leb_spec 4 (piece_priority p)), (downloading p);
    unfold Z.b2z in *; lia.
Qed.

Lemma dec_refcount_ordered random i t :
  ordered t -> 0 <= i -> (forall p, piece_at (m_piece_map t) i = Some p -> 0 < peer_count p) ->
  ordered (dec_refcount random i t).
Proof.
  intros H Hi Hc. unfold dec_refcount. destruct (piece_at (m_piece_map t) i) as [p|] eqn:Hp; [|done].
  specialize (Hc p eq_refl). pose proof (ordered_piece _ _ _ H Hp) as Hw. pose proof (ord_seeds _ H) as Hs.
  rewrite (update_reorder random i p (set_peer_count (peer_count p - 1) p) t); try done.
  - apply (reorder_ordered random i p _ t); try done. by apply to_uint2_wf.
  - rewrite (priority_none _ p), (priority_none _ (set_peer_count _ p)) by (done || by apply to_uint2_wf).
    intros [?|?]; [by left|lia].
Qed.

Lemma ordered_same t t0 : ordered t0 -> m_piece_map t = m_piece_map t0 -> same_order t t0 -> ordered t.
Proof.
  intros [] Hm (H1 & H2 & H3 & H4). split; rewrite ?Hm, ?H1, ?H2, ?H3; try done. rewrite H4. done.
Qed.

(** A change of a piece that the order does not see. *)
Lemma ordered_neutral g i t t0 :
  ordered t0 -> 0 <= i -> (forall s p, index (g p) = index p /\ priority s (g p) = priority s p /\ (piece_wf p -> piece_wf (g p))) ->
  m_piece_map t = alter_piece g i (m_piece_map t0) -> same_order t t0 -> ordered t.
Proof.
  intros H0 Hi Hg Hm Hso. destruct (piece_at (m_piece_map t0) i) as [p|] eqn:Hp.
  - rewrite (alter_piece_const g i p) in Hm by done.
    destruct (Hg (m_seeds t0) p) as (G1 & G2 & G3).
    pose proof (reorder_ordered 0 i p (g p) t0 t H0 Hi Hp G1 (G3 (ordered_piece _ _ _ H0 Hp)) Hm Hso) as H.
    unfold reorder in H. by rewrite G2, Z.eqb_refl in H.
  - apply (ordered_same t t0); [done| |done]. rewrite Hm. by apply alter_piece_absent.
Qed.

Lemma update_full_ordered d t : ordered t -> 0 <= dp_index d -> ordered (update_full d t).
Proof. intros H Hi. unfold update_full. by apply (ordered_neutral (set_full (dp_requested d + dp_finished d + dp_writing d =? Z.of_nat (blocks_in_piece t (dp_index d)))) (dp_index d) _ t). Qed.

(** ** Possession and priority *)

Lemma cursors_done_same i map t : same_order (cursors_done i map t) t /\ m_piece_map (cursors_done i map t) = m_piece_map t.
Proof. unfold cursors_done. repeat case_match; done. Qed.

Lemma cursors_wanted_same i t : same_order (cursors_wanted i t) t /\ m_piece_map (cursors_wanted i t) = m_piece_map t.
Proof. unfold cursors_wanted. case_match; done. Qed.

Lemma same_order_trans t1 t2 t3 : same_order t1 t2 -> same_order t2 t3 -> same_order t1 t3.
Proof. unfold same_order. intros (-> & -> & -> & ->) (-> & -> & -> & ->). done. Qed.

Lemma set_priority_wf n p : piece_wf p -> piece_wf (set_priority n p).
Proof. intros [Hw _]. split; [done|]. cbn. apply Z.mod_pos_bound. lia. Qed.

Lemma set_piece_priority_ordered random i n t : ordered t -> 0 <= i -> ordered (snd (set_piece_priority random i n t)).
Proof.
  intros H Hi. unfold set_piece_priority. destruct (piece_at (m_piece_map t) i) as [p|] eqn:Hp; [|done].
  destruct (n =? piece_priority p); [done|]. set (r := if _ && _ then _ else _).
  assert (same_order (snd r) t /\ m_piece_map (snd r) = m_piece_map t) as [Hso Hm].
  { subst r. repeat case_match; cbn [snd]; try done.
    - destruct (cursors_done_same (Z.to_nat i) (m_piece_map t)
        (with_counts (m_num_filtered t + 1) (m_num_have_filtered t) (m_num_have t) t)) as [G1 G2]. done.
    - destruct (cursors_wanted_same (Z.to_nat i)
        (with_counts (m_num_filtered t - 1) (m_num_have_filtered t) (m_num_have t) t)) as [G1 G2]. done. }
  destruct r as [ret t1]. cbn [snd] in *.
  assert (m_seeds t1 = m_seeds t) as Hs by apply Hso.
  cbn [m_seeds with_map with_buckets]. rewrite Hs.
  apply (reorder_ordered random i p (set_priority n p) t); try done.
  - apply set_priority_wf. by eapply ordered_piece.
  - cbn. by rewrite Hm.
Qed.

(** A piece we had returns to the buckets. *)
Lemma restore_frame random i p t0 t :
  ordered t0 -> 0 <= i -> piece_at (m_piece_map t0) i = Some p -> have p = true ->
  m_piece_map t = alter_piece (fun _ => set_not_have p) i (m_piece_map t0) -> same_order t t0 ->
  let t' := if m_dirty t then t else if 0 <=? priority (m_seeds t) (set_not_have p) then add random i t else t in
  ordered t' /\ rebucketed t t'.
Proof.
  intros H Hi Hp Hh Hm (S1 & S2 & S3 & S4). cbv zeta. pose proof H as [Hw Hsz Hse Hb]. set (p' := set_not_have p) in *.
  assert (piece_wf p') as Hwp by (by apply (ordered_piece _ _ _ H) in Hp).
  assert (Forall piece_wf (m_piece_map t)) as W1 by (rewrite Hm; by apply wf_alter).
  assert (Z.of_nat (length (m_piece_map t)) < we_have_index) as W2 by (by rewrite Hm, length_alter_piece).
  assert (0 <= m_seeds t) as W3 by congruence.
  assert (piece_at (m_piece_map t) i = Some p') as Hp' by (rewrite Hm, piece_at_alter, decide_True, Hp by done; done).
  destruct (m_dirty t) eqn:Ed; [split; [by apply ordered_dirty|apply rebucketed_refl]|].
  destruct (Hb ltac:(congruence)) as [Bs HR]. set (f := prio_of (m_seeds t0) (m_piece_map t0)) in *.
  assert (f i = -1) as Hfi by (unfold f, prio_of; rewrite Hp; unfold priority; by rewrite Hh, orb_true_r).
  assert (represents None f (m_piece_map t) (m_pieces t) (m_priority_boundries t) Bs) as HR2
    by (rewrite Hm, S1, S2; by apply rep_alter_absent).
  assert (forall map ps bs Bs', represents None (set_value f i (priority (m_seeds t) p')) map ps bs Bs' ->
    reindexed (m_piece_map t) map -> ordered_map (m_seeds t) map ps bs) as Hfin.
  { intros map ps bs Bs' HR' Hre. exists Bs'. eapply rep_ext; [|exact HR']. intros x Hx.
    rewrite (prio_of_reindexed _ _ _ _ Hre), Hm, S3. apply (prio_of_alter _ _ i p); [done|lia|done]. }
  destruct (Z.leb_spec 0 (priority (m_seeds t) p')) as [Hge|Hlt].
  - destruct (add_represents random i p' t Bs f) as (ps & bs & map & Bs' & -> & HR' & Hre); try done.
    apply rebucketed_ordered; try done. by apply (Hfin _ _ _ Bs').
  - split; [|apply rebucketed_refl]. split; try done. intros _. apply (Hfin _ _ _ Bs); [|apply reindexed_refl].
    eapply rep_ext; [|exact HR2]. intros x Hx. unfold set_value.
    destruct (Z.eqb_spec x i) as [->|]; [|done]. pose proof (priority_lower (m_seeds t) p' Hwp). lia.
Qed.

Lemma we_dont_have_ordered random i t : ordered t -> 0 <= i -> ordered (we_dont_have random i t).
Proof.
  intros H Hi. unfold we_dont_have. destruct (piece_at (m_piece_map t) i) as [p|] eqn:Hp; [|done].
  destruct (have p) eqn:Hh; [|done]. cbn [negb]. set (t1 := if filtered p then _ else _).
  assert (same_order t1 t /\ m_piece_map t1 = m_piece_map t) as [Hso Hm].
  { subst t1. destruct (filtered p); [done|]. apply cursors_wanted_same. }
  clearbody t1. apply (restore_frame random i p t); try done. cbn. by rewrite Hm.
Qed.

Lemma find_dl_piece_index i t j d : find_dl_piece i t = Some (j, d) -> dp_index d = i /\ m_downloads t !! j = Some d.
Proof.
  unfold find_dl_piece. destruct (m_downloads t !! lower_bound i (m_downloads t)) as [d'|] eqn:E; [|done].
  destruct (Z.eqb_spec (dp_index d') i); [|done]. intros [= <- <-]. done.
Qed.

(** What [erase_download_piece] does to the pieces. *)
Lemma erase_download_same j d t :
  m_downloads t !! j = Some d ->
  same_order (erase_download_piece j t) t /\
  (m_piece_map (erase_download_piece j t) = m_piece_map t \/
   m_piece_map (erase_download_piece j t) = alter_piece (set_downloading false) (dp_index d) (m_piece_map t)).
Proof.
  intros Hj. unfold erase_download_piece. rewrite Hj. destruct (list_find _ _) as [[o other]|]; [|split; [done|by left]].
  destruct (j =? o)%nat; (split; [done|by right]).
Qed.

(** A piece that arrives leaves the buckets: [t1] is the picker before it is
    marked, in which its priority may have changed. *)
Lemma arrive_frame i p p1 t0 map1 t :
  ordered t0 -> 0 <= i -> piece_at (m_piece_map t0) i = Some p -> index p1 = index p -> piece_wf p1 ->
  map1 = alter_piece (fun _ => p1) i (m_piece_map t0) -> m_piece_map t = alter_piece set_have i map1 -> same_order t t0 ->
  let prio := priority (m_seeds t0) p in
  let t' := if prio =? -1 then t else if m_dirty t then t else PiecePicker.remove (Z.to_nat prio) (Z.to_nat (index p)) t in
  ordered t' /\ rebucketed t t'.
Proof.
  intros H Hi Hp Hidx Hw1 Hm Hm5 (T1 & T2 & T3 & T4). cbv zeta. pose proof H as [Hw Hsz Hse Hb].
  assert (piece_at map1 i = Some p1) as Hp1 by (rewrite Hm, piece_at_alter, decide_True, Hp by done; done).
  assert (Forall piece_wf (m_piece_map t)) as W1 by (rewrite Hm5, Hm; apply wf_alter; [by apply wf_alter|done]).
  assert (Z.of_nat (length (m_piece_map t)) < we_have_index) as W2 by (by rewrite Hm5, length_alter_piece, Hm, length_alter_piece).
  assert (0 <= m_seeds t) as W3 by congruence.
  destruct (m_dirty t) eqn:Ed.
  { destruct (_ =? -1); (split; [by apply ordered_dirty|apply rebucketed_refl]). }
  destruct (Hb ltac:(congruence)) as [Bs HR]. set (f := prio_of (m_seeds t0) (m_piece_map t0)) in *.
  assert (f i = priority (m_seeds t0) p) as Hfi by (unfold f, prio_of; by rewrite Hp).
  assert (represents None f map1 (m_pieces t) (m_priority_boundries t) Bs) as HR1.
  { rewrite Hm, T1, T2. by apply (rep_alter _ _ (fun _ => p1) _ _ _ _ i p). }
  assert (forall map ps bs Bs', represents None (set_value f i (-1)) map ps bs Bs' ->
    reindexed (m_piece_map t) map -> ordered_map (m_seeds t) map ps bs) as Hfin.
  { intros map ps bs Bs' HR' Hre. exists Bs'. eapply rep_ext; [|exact HR']. intros x Hx.
    rewrite (prio_of_reindexed _ _ _ _ Hre), Hm5, T3. rewrite (alter_piece_const _ _ p1) by done.
    rewrite (prio_of_alter _ _ i p1) by (done || lia). unfold set_value.
    replace (priority (m_seeds t0) (set_have p1)) with (-1) by (unfold priority, have; cbn; by rewrite orb_true_r).
    destruct (Z.eqb_spec x i) as [->|Hne]; [done|]. rewrite Hm, (prio_of_alter _ _ i p) by (done || lia).
    unfold set_value. by destruct (Z.eqb_spec x i). }
  destruct (Z.eqb_spec (priority (m_seeds t0) p) (-1)) as [E|Hne].
  - split; [|apply rebucketed_refl]. split; try done. intros _. apply (Hfin _ _ _ Bs); [|apply reindexed_refl].
    rewrite Hm5. eapply rep_ext; [|apply rep_alter_absent; [exact HR1|done|congruence]].
    intros x Hx. unfold set_value. destruct (Z.eqb_spec x i) as [->|]; congruence.
  - pose proof (priority_lower (m_seeds t0) p ltac:(by eapply ordered_piece)) as Hlow.
    destruct (rep_position _ _ _ _ _ i p HR Hi Hp ltac:(lia)) as (e & He & Ee).
    destruct (remove_represents (Z.to_nat (priority (m_seeds t0) p)) e i t Bs f) as (ps & bs & map & Bs' & E & HR' & Hre); try done.
    + rewrite Hm5. apply rep_alter_hole; [done|congruence|done].
    + congruence.
    + lia.
    + rewrite Ee, Nat2Z.id, E. apply rebucketed_ordered; try done. by apply (Hfin _ _ _ Bs').
Qed.

Lemma alter_piece_id i p map : piece_at map i = Some p -> alter_piece (fun _ => p) i map = map.
Proof.
  intros Hp. unfold alter_piece, piece_at in *. apply list_eq. intros k. destruct (decide (k = Z.to_nat i)) as [->|].
  - by rewrite list_lookup_alter_eq, Hp.
  - by rewrite list_lookup_alter_ne.
Qed.

(** The entry of a piece that arrives is dropped. *)
Definition stop_download (i : Z) (p : piece_pos) (t : piece_picker) : piece_picker :=
  if downloading p then match find_dl_piece i t with Some (j, _) => erase_download_piece j t | None => t end else t.

Lemma stop_download_same i p t :
  ordered t -> piece_at (m_piece_map t) i = Some p ->
  same_order (stop_download i p t) t /\ exists p1, m_piece_map (stop_download i p t) = alter_piece (fun _ => p1) i (m_piece_map t) /\
    index p1 = index p /\ filtered p1 = filtered p /\ piece_wf p1.
Proof.
  intros H Hp. pose proof (ordered_piece _ _ _ H Hp) as Hw. pose proof (alter_piece_id _ _ _ Hp) as Hsame.
  unfold stop_download. destruct (downloading p); [|split; [done|by exists p]].
  destruct (find_dl_piece i t) as [[j d]|] eqn:Ef; [|split; [done|by exists p]].
  apply find_dl_piece_index in Ef as [<- Hj]. destruct (erase_download_same j d t Hj) as [Hso [E|E]].
  - split; [done|]. exists p. by rewrite E, Hsame.
  - split; [done|]. exists (set_downloading false p). rewrite E. split; [by apply alter_piece_const|done].
Qed.

(** The picker once the piece is marked, before it leaves the buckets. *)
Definition mark_have (i : Z) (p : piece_pos) (t : piece_picker) : piece_picker :=
  let t := with_sparse (sparse_regions_have (Z.to_nat i) (m_piece_map t) (m_sparse_regions t)) t in
  let t := if filtered p
           then with_counts (m_num_filtered t - 1) (m_num_have_filtered t + 1) (m_num_have t + 1) t
           else with_counts (m_num_filtered t) (m_num_have_filtered t) (m_num_have t + 1) t in
  let t := with_map (alter_piece set_have i (m_piece_map t)) t in
  cursors_done (Z.to_nat i) (m_piece_map t) t.

Lemma mark_have_same i p t :
  same_order (mark_have i p t) t /\ m_piece_map (mark_have i p t) = alter_piece set_have i (m_piece_map t).
Proof.
  unfold mark_have. cbv zeta. set (t1 := if filtered p then _ else _). set (t2 := with_map _ t1).
  destruct (cursors_done_same (Z.to_nat i) (m_piece_map t2) t2) as [Hso Hm].
  assert (same_order t2 t /\ m_piece_map t2 = alter_piece set_have i (m_piece_map t)) as [Hso2 Hm2]
    by (subst t2 t1; destruct (filtered p); done).
  split; [by eapply same_order_trans|]. by rewrite Hm, Hm2.
Qed.

Lemma we_have_eq i t p :
  piece_at (m_piece_map t) i = Some p ->
  we_have i t =
    let t1 := stop_download i p t in
    if have p then t1
    else
      let prio := priority (m_seeds t) p in
      let t := mark_have i p t1 in
      if prio =? -1 then t else if m_dirty t then t else PiecePicker.remove (Z.to_nat prio) (Z.to_nat (index p)) t.
Proof. intros Hp. unfold we_have. rewrite Hp. done. Qed.

(** Either the piece was there already, or it is marked and leaves the
    buckets. *)
Lemma we_have_frame i t p :
  ordered t -> 0 <= i -> piece_at (m_piece_map t) i = Some p ->
  ordered (we_have i t) /\
  rebucketed (if have p then stop_download i p t else mark_have i p (stop_download i p t)) (we_have i t).
Proof.
  intros H Hi Hp. rewrite (we_have_eq i t p Hp). cbv zeta.
  destruct (stop_download_same i p t H Hp) as [Hso (p1 & Hm & Hidx & Hfil & Hw1)].
  destruct (have p) eqn:Hh.
  - split; [|apply rebucketed_refl].
    pose proof (reorder_ordered 0 i p p1 t _ H Hi Hp Hidx Hw1 Hm Hso) as Hr.
    unfold reorder in Hr. replace (priority (m_seeds t) p1) with (priority (m_seeds t) p) in Hr; [by rewrite Z.eqb_refl in Hr|].
    unfold priority, have. rewrite Hidx. fold (have p). by rewrite Hh, !orb_true_r.
  - destruct (mark_have_same i p (stop_download i p t)) as [Hso2 Hm2].
    apply (arrive_frame i p p1 t (m_piece_map (stop_download i p t))); try done. by eapply same_order_trans.
Qed.

Lemma we_have_ordered i t : ordered t -> 0 <= i -> ordered (we_have i t).
Proof.
  intros H Hi. destruct (piece_at (m_piece_map t) i) as [p|] eqn:Hp; [|unfold we_have; by rewrite Hp].
  by apply (we_have_frame i t p).
Qed.

(** ** Seeds and bitfields *)

Lemma priority_seeds s s' p : 0 < s -> 0 < s' -> piece_wf p -> priority s p = priority s' p.
Proof.
  intros Hs Hs' [Hw _]. unfold is_uint in Hw. unfold priority.
  destruct (Z.eqb_spec (peer_count p + s) 0), (Z.eqb_spec (peer_count p + s') 0); lia || done.
Qed.

Lemma with_seeds_ordered s t : ordered t -> 0 < m_seeds t -> 0 < s -> ordered (with_seeds s t).
Proof.
  intros H Hs Hs'. pose proof H as [H1 H2 H3 H4]. split; cbn; try done; [lia|]. intros Hd. destruct (H4 Hd) as [Bs HR].
  exists Bs. eapply rep_ext; [|exact HR]. intros x Hx. unfold prio_of. destruct (piece_at (m_piece_map t) x) as [p|] eqn:Hp; [|done].
  apply priority_seeds; [done..|]. by eapply ordered_piece.
Qed.

Lemma inc_refcount_all_ordered t : ordered t -> ordered (inc_refcount_all t).
Proof.
  intros H. pose proof H as [H1 H2 H3 H4]. unfold inc_refcount_all. cbn [m_seeds with_seeds].
  destruct (Z.eqb_spec (m_seeds t + 1) 1); [apply ordered_dirty; cbn; (done || lia)|].
  apply with_seeds_ordered; [done|lia..].
Qed.

Lemma dec_refcount_all_ordered t : ordered t -> ordered (dec_refcount_all t).
Proof.
  intros H. pose proof H as [H1 H2 H3 H4]. unfold dec_refcount_all. cbn [m_seeds with_seeds].
  destruct (Z.ltb_spec 0 (m_seeds t)).
  - destruct (Z.eqb_spec (m_seeds t - 1) 0); [apply ordered_dirty; cbn; (done || lia)|].
    apply with_seeds_ordered; [done|lia..].
  - apply ordered_dirty; cbn; try done; [|by rewrite length_fmap]. apply Forall_fmap.
    eapply Forall_impl; [exact H1|]. intros p. apply to_uint2_wf.
Qed.

Lemma zip_with_length_app {A} (bits : list bool) (f : bool -> A -> A) (l : list A) :
  length (zip_with f bits l ++ drop (length bits) l) = length l.
Proof. rewrite length_app, length_zip_with, length_drop. lia. Qed.

Lemma refcount_mask_ordered d bitmask t : ordered t -> ordered (refcount_mask d bitmask t).
Proof.
  intros H. pose proof H as [H1 H2 H3 H4]. unfold refcount_mask. cbv zeta. set (bits := get_bit _ <$> _). set (g := fun (b : bool) p => _).
  destruct (existsb id bits) eqn:E.
  - apply ordered_dirty; cbn; try done; [|by rewrite zip_with_length_app]. apply Forall_app. split; [|by apply Forall_drop].
    revert H1. generalize (m_piece_map t). clear. induction bits as [|b bits IH]; intros [|p map]; cbn; try done.
    intros [Hp Hm]%Forall_cons. apply Forall_cons. split; [|by apply IH].
    unfold g. destruct b; [by apply to_uint2_wf|done].
  - apply (ordered_same _ t); [done| |done]. cbn. clear -E. revert E. generalize (m_piece_map t).
    induction bits as [|b bits IH]; intros [|p map]; cbn; try done. intros [Hb E]%orb_false_elim.
    unfold id in Hb. subst b. cbn. f_equal. by apply IH.
Qed.

Lemma init_ordered bpp last total t :
  ordered t -> Z.of_nat total < we_have_index -> ordered (init bpp last total t).
Proof.
  intros H Ht. pose proof H as [H1 H2 H3 H4]. apply ordered_dirty; cbn; try done.
  - apply Forall_fmap. unfold vec_resize. apply Forall_app. split.
    + apply Forall_take. eapply Forall_impl; [exact H1|]. intros p [_ Hp]. by split.
    + apply Forall_replicate. done.
  - rewrite length_fmap. unfold vec_resize. rewrite length_app, length_take, length_replicate. lia.
Qed.

Lemma new_ordered : ordered piece_picker_new.
Proof.
  split; cbn; try done. intros _. exists [[]]. split; try done.
  - intros k x. split; [|cbn; lia]. intros (b & Hb & Hx). destruct k as [|k]; [|done]. injection Hb as <-.
    by apply not_elem_of_nil in Hx.
  - apply NoDup_nil_2.
Qed.
