(* ===== verification/PiecePickerUpdate.v ===== *)
(** * update_pieces rebuilds the buckets

    The counting sort of [update_pieces]: whatever [m_pieces] and the boundaries
    held before, afterwards the picker is ordered. *)

From S2P Require Import Prelude Archive Md4Hash Bitfield PiecePicker PiecePickerBuckets PiecePickerInv.
From stdpp Require Import list.
Open Scope Z_scope.

Section Update.
Context (seeds : Z).

(** The pieces of priority [k], the first piece of the list having number
    [i]. *)
Fixpoint members (k : nat) (i : Z) (map : list piece_pos) : list Z :=
  match map with
  | [] => []
  | p :: map => if priority seeds p =? Z.of_nat k then i :: members k (i + 1) map else members k (i + 1) map
  end.

Abbreviation cnt k map := (length (members k 0 map)).

Lemma length_members k i j map : length (members k i map) = length (members k j map).
Proof.
  revert i j. induction map as [|p map IH]; intros i j; cbn; [done|].
  destruct (_ =? _); cbn; by rewrite (IH (i + 1) (j + 1)).
Qed.

Lemma elem_of_members k i map x :
  x ∈ members k i map <-> exists (r : nat) p, map !! r = Some p /\ priority seeds p = Z.of_nat k /\ x = i + Z.of_nat r.
Proof.
  revert i. induction map as [|p map IH]; intros i; cbn.
  - split; [by intros ?%not_elem_of_nil|]. intros (r & p & Hr & _). by rewrite lookup_nil in Hr.
  - assert ((exists (r : nat) q, map !! r = Some q /\ priority seeds q = Z.of_nat k /\ x = i + 1 + Z.of_nat r) <->
      exists (r : nat) q, (p :: map) !! S r = Some q /\ priority seeds q = Z.of_nat k /\ x = i + Z.of_nat (S r)) as Hs.
    { split; intros (r & q & H1 & H2 & H3); exists r, q; (split_and!; [done..|lia]). }
    destruct (Z.eqb_spec (priority seeds p) (Z.of_nat k)) as [E|Hne].
    + rewrite elem_of_cons, IH, Hs. split.
      * intros [->|(r & q & H)]; [exists 0%nat, p; split_and!; [done..|lia]|by exists (S r), q].
      * intros ([|r] & q & H1 & H2 & H3); [left; lia|right; by exists r, q].
    + rewrite IH, Hs. split; [intros (r & q & H); by exists (S r), q|].
      intros ([|r] & q & H1 & H2 & H3); [cbn in H1; congruence|by exists r, q].
Qed.

Lemma members_rank k i map r p :
  map !! r = Some p -> priority seeds p = Z.of_nat k ->
  members k i map !! cnt k (take r map) = Some (i + Z.of_nat r).
Proof.
  revert i r. induction map as [|q map IH]; intros i [|r] Hr Hp; try done; cbn in *.
  - injection Hr as ->. rewrite Hp, Z.eqb_refl. cbn. f_equal. lia.
  - destruct (priority seeds q =? Z.of_nat k); cbn; rewrite (length_members k _ 0), (IH (i + 1)) by done; f_equal; lia.
Qed.

Lemma members_nodup k i map : NoDup (members k i map).
Proof.
  revert i. induction map as [|p map IH]; intros i; cbn; [apply NoDup_nil_2|].
  destruct (_ =? _); [|done]. apply NoDup_cons. split; [|done].
  intros (r & q & _ & _ & E)%elem_of_members. lia.
Qed.

Lemma NoDup_concat_fmap (g : nat -> list Z) (l : list nat) :
  NoDup l -> (forall k, NoDup (g k)) -> (forall k k' x, x ∈ g k -> x ∈ g k' -> k = k') -> NoDup (concat (g <$> l)).
Proof.
  intros Hl Hg Hd. induction l as [|k l IH]; cbn; [apply NoDup_nil_2|]. apply NoDup_cons in Hl as [Hk Hl].
  apply NoDup_app. split_and!; [apply Hg| |by apply IH]. intros x Hx (n & b & Hb & Hxb)%in_bucket_concat.
  apply list_lookup_fmap_Some in Hb as (k' & -> & Hk'). apply list_elem_of_lookup_2 in Hk'.
  by rewrite (Hd k k' x Hx Hxb) in Hk.
Qed.

(** ** Counting *)

Lemma lookup_total_resize n k (bs : list nat) :
  (length bs <= n)%nat -> vec_resize (S n) 0%nat bs !!! k = bs !!! k.
Proof.
  intros Hn. unfold vec_resize. rewrite take_ge by lia. destruct (decide (k < length bs)%nat) as [Hk|Hk].
  - by rewrite lookup_total_app_l.
  - rewrite lookup_total_app_r by lia. rewrite (list_lookup_total_alt bs), (lookup_ge_None_2 bs) by lia. cbn.
    rewrite list_lookup_total_alt. destruct (replicate _ _ !! _) as [y|] eqn:E; [|done].
    by apply lookup_replicate in E as [-> _].
Qed.

Lemma count_pieces_spec map bs :
  Forall piece_wf map -> (forall k, Z.of_nat (bs !!! k + length map) < we_have_index) ->
  let '(bs', map') := count_pieces seeds bs map in
  (length bs <= length bs')%nat /\ (forall k, bs' !!! k = bs !!! k + cnt k map)%nat /\
  (forall p, p ∈ map -> 0 <= priority seeds p -> (Z.to_nat (priority seeds p) < length bs')%nat) /\
  reindexed map map' /\
  (forall r p, map !! r = Some p -> 0 <= priority seeds p -> exists q, map' !! r = Some q /\
     let k := Z.to_nat (priority seeds p) in index q = Z.of_nat (bs !!! k + cnt k (take r map))).
Proof.
  revert bs. induction map as [|p map IH]; intros bs Hw Hbd; cbn [count_pieces].
  { split_and!; [done|intros; cbn; lia|by intros ? ?%not_elem_of_nil|constructor|]. intros r p Hr. by rewrite lookup_nil in Hr. }
  apply Forall_cons in Hw as [Hwp Hw]. pose proof (priority_lower seeds p Hwp) as Hlow.
  destruct (Z.eqb_spec (priority seeds p) (-1)) as [E|Hne].
  - assert (forall k, Z.of_nat (bs !!! k + length map) < we_have_index) as Hbd'
      by (intros k; specialize (Hbd k); cbn [length] in Hbd; lia).
    specialize (IH bs Hw Hbd').
    destruct (count_pieces seeds bs map) as [bs' map']. destruct IH as (H1 & H2 & H3 & H4 & H5). split_and!.
    + done.
    + intros k. rewrite H2. cbn. destruct (Z.eqb_spec (priority seeds p) (Z.of_nat k)); [lia|].
      change (0 + 1) with 1. by rewrite (length_members k 1 0).
    + intros q [->|Hq]%elem_of_cons Hge; [lia|auto].
    + constructor; [|done]. destruct p. split; [by eexists|done].
    + intros [|r] q Hq Hge; cbn in Hq; [injection Hq as <-; lia|]. destruct (H5 r q Hq Hge) as (q' & Hq' & Ei).
      exists q'. split; [done|]. cbv zeta in *. rewrite Ei. cbn.
      destruct (Z.eqb_spec (priority seeds p) (Z.of_nat (Z.to_nat (priority seeds q)))); [lia|].
      change (0 + 1) with 1. by rewrite (length_members _ 1 0).
  - set (k0 := Z.to_nat (priority seeds p)). set (bs1 := if (_ <=? _)%nat then _ else _).
    assert (forall k, bs1 !!! k = bs !!! k) as Hb1.
    { intros k. subst bs1. destruct (Nat.leb_spec (length bs) k0); [by apply lookup_total_resize|done]. }
    assert (length bs <= length bs1 /\ k0 < length bs1)%nat as [Hl1 Hk0].
    { subst bs1. destruct (Nat.leb_spec (length bs) k0); [|lia]. unfold vec_resize.
      rewrite length_app, length_take, length_replicate. lia. }
    set (bs2 := <[k0 := S (bs1 !!! k0)]> bs1).
    assert (forall k, bs2 !!! k = if decide (k = k0) then S (bs !!! k) else bs !!! k) as Hb2.
    { intros k. subst bs2. case_decide as Ek; [subst k; by rewrite list_lookup_total_insert_eq, Hb1|].
      by rewrite list_lookup_total_insert_ne, Hb1. }
    assert (forall k, Z.of_nat (bs2 !!! k + length map) < we_have_index) as Hbd'.
    { intros k. rewrite Hb2. specialize (Hbd k). cbn [length] in Hbd. case_decide; lia. }
    specialize (IH bs2 Hw Hbd').
    destruct (count_pieces seeds bs2 map) as [bs' map']. destruct IH as (H1 & H2 & H3 & H4 & H5).
    assert (length bs2 = length bs1) as Hl2 by apply length_insert. rewrite Hb1. split_and!.
    + lia.
    + intros k. rewrite H2, Hb2. cbn. destruct (Z.eqb_spec (priority seeds p) (Z.of_nat k)) as [Ek|Ek].
      * rewrite decide_True by (subst k0; lia). cbn. change (0 + 1) with 1; rewrite (length_members k 1 0). lia.
      * rewrite decide_False by (subst k0; lia). change (0 + 1) with 1. by rewrite (length_members k 1 0).
    + intros q [->|Hq]%elem_of_cons Hge; [fold k0; lia|auto].
    + constructor; [|done]. split; [by eexists|]. rewrite (priority_missing seeds p) by lia.
      unfold have. cbn. apply Z.eqb_neq. specialize (Hbd k0). lia.
    + intros [|r] q Hq Hge; cbn in Hq.
      * injection Hq as <-. eexists. split; [done|]. cbn. fold k0. lia.
      * destruct (H5 r q Hq Hge) as (q' & Hq' & Ei). exists q'. split; [done|]. cbv zeta in *. rewrite Ei, Hb2. cbn.
        destruct (Z.eqb_spec (priority seeds p) (Z.of_nat (Z.to_nat (priority seeds q)))).
        -- rewrite decide_True by (subst k0; lia). cbn. change (0 + 1) with 1; rewrite (length_members _ 1 0). lia.
        -- rewrite decide_False by (subst k0; lia). change (0 + 1) with 1. by rewrite (length_members _ 1 0).
Qed.

(** ** Placing *)

Lemma sum_boundries_sums n (Cs : list (list Z)) : sum_boundries n (length <$> Cs) = sums n Cs.
Proof.
  revert n. induction Cs as [|c Cs IH]; intros n; cbn; [done|]. rewrite (Nat.add_comm (length c)). f_equal. apply IH.
Qed.

Lemma last_sums n Cs d : Cs <> [] -> List.last (sums n Cs) d = (n + length (concat Cs))%nat.
Proof.
  revert n. induction Cs as [|c Cs IH]; intros n Hne; [done|]. cbn [sums concat]. rewrite length_app.
  destruct Cs as [|c' Cs]; [cbn; lia|]. change (List.last (?x :: sums ?m (c' :: Cs)) d) with (List.last (sums m (c' :: Cs)) d).
  rewrite IH by done. lia.
Qed.

(** The position at which [place_pieces] writes a piece. *)
Definition place (bs : list nat) (p : piece_pos) : nat :=
  (fst (priority_range bs (Z.to_nat (priority seeds p))) + Z.to_nat (PiecePicker.index p))%nat.

Lemma place_pieces_spec (A : list Z) bs i map ps :
  Forall piece_wf map -> length ps = length A ->
  (forall r p, map !! r = Some p -> 0 <= priority seeds p -> A !! place bs p = Some (i + Z.of_nat r)) ->
  length (place_pieces seeds bs i map ps) = length A /\
  forall j x, A !! j = Some x ->
    ps !! j = Some x \/ (exists r p, map !! r = Some p /\ 0 <= priority seeds p /\ place bs p = j) ->
    place_pieces seeds bs i map ps !! j = Some x.
Proof.
  revert i ps. induction map as [|p map IH]; intros i ps Hw Hl Hplace; cbn [place_pieces].
  { split; [done|]. intros j x Hj [?|(r & p & Hr & _)]; [done|]. by rewrite lookup_nil in Hr. }
  apply Forall_cons in Hw as [Hwp Hw]. pose proof (priority_lower seeds p Hwp) as Hlow.
  assert (forall r q, map !! r = Some q -> 0 <= priority seeds q -> A !! place bs q = Some (i + 1 + Z.of_nat r)) as Hplace'.
  { intros r q Hr Hq. rewrite (Hplace (S r) q) by done. f_equal. lia. }
  destruct (Z.eqb_spec (priority seeds p) (-1)) as [E|Hne].
  - destruct (IH (i + 1) ps Hw Hl Hplace') as [H1 H2]. split; [done|]. intros j x Hj [Hp|(r & q & Hr & Hq & Hpl)]; [by apply H2; [|left]|].
    apply H2; [done|]. destruct r as [|r]; [cbn in Hr; injection Hr as <-; lia|]. right. by exists r, q.
  - fold (place bs p). assert (A !! place bs p = Some i) as Hi by (rewrite (Hplace 0%nat p) by (done || lia); f_equal; lia).
    assert (place bs p < length ps)%nat as Hlt by (rewrite Hl; by eapply lookup_lt_Some).
    destruct (IH (i + 1) (<[place bs p := i]> ps) Hw ltac:(by rewrite length_insert) Hplace') as [H1 H2]. split; [done|].
    intros j x Hj Hor. apply H2; [done|]. destruct (decide (j = place bs p)) as [->|Hnp].
    + left. rewrite list_lookup_insert_eq by done. congruence.
    + destruct Hor as [Hp|(r & q & Hr & Hq & Hpl)]; [left; by rewrite list_lookup_insert_ne|].
      destruct r as [|r]; [cbn in Hr; congruence|]. right. by exists r, q.
Qed.

(** ** Shuffling and numbering *)

Lemma shuffle_ranges_spec (random_shuffle : nat -> list Z -> list Z) (F : list Z) Cs :
  (forall k l, random_shuffle k l ≡ₚ l) ->
  exists Ds, shuffle_ranges random_shuffle (length F) (sums (length F) Cs) (F ++ concat Cs) = F ++ concat Ds /\
    Forall2 (≡ₚ) Ds Cs.
Proof.
  intros Hsh. revert F. induction Cs as [|c Cs IH]; intros F; cbn [sums shuffle_ranges concat]; [by exists []|].
  destruct (Nat.eqb_spec (length F) (length F + length c)) as [E|Hne].
  - destruct c; [|cbn in E; lia]. cbn. rewrite Nat.add_0_r. destruct (IH F) as (Ds & E' & HD). exists ([] :: Ds).
    split; [done|by constructor].
  - rewrite take_app_length, drop_app_length. replace (length F + length c - length F)%nat with (length c) by lia.
    rewrite take_app_length. rewrite (app_assoc F c). rewrite (drop_app_length' (F ++ c)) by (by rewrite length_app).
    set (d := random_shuffle (length F) c). assert (d ≡ₚ c) as Hd by apply Hsh. rewrite app_assoc.
    replace (length F + length c)%nat with (length (F ++ d)) by (by rewrite length_app, Hd).
    destruct (IH (F ++ d)) as (Ds & E' & HD). exists (d :: Ds). rewrite E'. cbn. rewrite app_assoc. split; [done|by constructor].
Qed.

Lemma index_pieces_spec i ps map :
  NoDup ps -> Forall (missing map) ps -> Z.of_nat (i + length ps) < we_have_index ->
  reindexed map (index_pieces i ps map) /\
  (forall x, 0 <= x -> x ∉ ps -> piece_at (index_pieces i ps map) x = piece_at map x) /\
  (forall k x, ps !! k = Some x -> exists p, piece_at (index_pieces i ps map) x = Some p /\ index p = Z.of_nat (i + k)).
Proof.
  revert i map. induction ps as [|x ps IH]; intros i map Hd Hm Hb; cbn [index_pieces].
  { split_and!; [apply reindexed_refl|done|]. intros k x Hk. by rewrite lookup_nil in Hk. }
  apply NoDup_cons in Hd as [Hx Hd]. apply Forall_cons in Hm as [Hmx Hm]. cbn [length] in Hb.
  assert (reindexed map (alter_piece (set_index (Z.of_nat i)) x map)) as Hre by (apply reindexed_write; [done|lia]).
  destruct (IH (S i) (alter_piece (set_index (Z.of_nat i)) x map)) as (H1 & H2 & H3); [done| |lia|].
  { eapply Forall_impl; [exact Hm|]. intros y. by apply missing_reindexed. }
  destruct Hmx as [Hx0 (p & Hp & _)]. split_and!.
  - by eapply reindexed_trans.
  - intros y Hy Hny. apply not_elem_of_cons in Hny as [Hne Hny]. by rewrite H2, piece_at_alter, decide_False by done.
  - intros [|k] y Hk; cbn in Hk.
    + injection Hk as <-. rewrite H2, piece_at_alter, decide_True, Hp by done. eexists. split; [done|]. cbn. lia.
    + destruct (H3 k y Hk) as (q & Hq & Eq). exists q. split; [done|]. lia.
Qed.

(** ** The whole sort *)

(** What the counting leaves: buckets [Cs] whose sizes are the counts, and every
    piece numbered within its bucket. *)
Record counted (map : list piece_pos) (bs' : list nat) (map' : list piece_pos) (Cs : list (list Z)) : Prop := {
  cnt_sizes : bs' = length <$> Cs;
  cnt_nonempty : Cs <> [];
  cnt_bucket : forall k x, in_bucket Cs k x <-> 0 <= x < Z.of_nat (length map) /\ prio_of seeds map x = Z.of_nat k;
  cnt_nodup : NoDup (concat Cs);
  cnt_reindexed : reindexed map map';
  cnt_place : forall r p, map' !! r = Some p -> 0 <= priority seeds p ->
    concat Cs !! place (sums 0 Cs) p = Some (Z.of_nat r)
}.

Lemma elem_of_members_prio k map x :
  x ∈ members k 0 map <-> 0 <= x < Z.of_nat (length map) /\ prio_of seeds map x = Z.of_nat k.
Proof.
  rewrite elem_of_members. unfold prio_of, piece_at. split.
  - intros (r & p & Hr & Hp & ->). pose proof (lookup_lt_Some _ _ _ Hr). rewrite Z.add_0_l, Nat2Z.id, Hr. split; [lia|done].
  - intros [Hx Hp]. destruct (map !! Z.to_nat x) as [p|] eqn:E; [|lia]. exists (Z.to_nat x), p. split_and!; [done..|lia].
Qed.

Lemma lookup_in_concat (Cs : list (list Z)) k b r x :
  Cs !! k = Some b -> b !! r = Some x -> concat Cs !! (fst (priority_range (sums 0 Cs) k) + r)%nat = Some x.
Proof.
  intros Hk Hr. apply list_elem_of_split_length in Hk as (lo & hi & -> & ->). rewrite priority_range_mid. cbn [fst].
  rewrite concat_app. cbn [concat]. rewrite lookup_app_r by lia. rewrite Nat.add_comm, Nat.add_sub.
  by apply lookup_app_l_Some.
Qed.

Lemma count_pieces_counted map (bs : list nat) :
  Forall piece_wf map -> Z.of_nat (length map) < we_have_index -> bs <> [] ->
  let '(bs', map') := count_pieces seeds ((fun _ => 0%nat) <$> bs) map in exists Cs, counted map bs' map' Cs.
Proof.
  intros Hw Hlen Hne. set (bs0 := (fun _ : nat => 0%nat) <$> bs).
  assert (forall k, bs0 !!! k = 0%nat) as Hz.
  { intros k. subst bs0. rewrite list_lookup_total_alt, list_lookup_fmap. by destruct (bs !! k). }
  pose proof (count_pieces_spec map bs0 Hw ltac:(intros k; by rewrite Hz)) as H.
  destruct (count_pieces seeds bs0 map) as [bs' map']. destruct H as (H1 & H2 & H3 & H4 & H5).
  exists ((fun k => members k 0 map) <$> seq 0 (length bs')).
  assert (forall k, (k < length bs')%nat -> ((fun k => members k 0 map) <$> seq 0 (length bs')) !! k = Some (members k 0 map)) as Hk.
  { intros k Hk. by rewrite list_lookup_fmap, lookup_seq_lt. }
  assert (0 < length bs')%nat as Hpos.
  { destruct bs; [done|]. subst bs0. cbn in H1. lia. }
  assert (forall x (k : nat), 0 <= x < Z.of_nat (length map) -> prio_of seeds map x = Z.of_nat k -> (k < length bs')%nat) as Hin.
  { intros x k Hx. unfold prio_of, piece_at. destruct (map !! Z.to_nat x) as [p|] eqn:E; [|lia]. intros Hp.
    specialize (H3 p (list_elem_of_lookup_2 _ _ _ E)). lia. }
  split; try done.
  - apply list_eq. intros k. rewrite list_lookup_fmap. destruct (decide (k < length bs')%nat) as [Hlt|Hge].
    + rewrite Hk by done. cbn. specialize (H2 k). rewrite Hz in H2. destruct (lookup_lt_is_Some_2 _ _ Hlt) as [n En].
      rewrite En. apply list_lookup_total_correct in En. f_equal. rewrite <- En. exact H2.
    + rewrite !lookup_ge_None_2; [done|rewrite length_fmap, length_seq; lia|lia].
  - intros E%(f_equal length). rewrite length_fmap, length_seq in E. cbn in E. lia.
  - intros k x. rewrite <- elem_of_members_prio. unfold in_bucket. split.
    + intros (b & Hb & Hx). apply list_lookup_fmap_Some in Hb as (k' & -> & Hk'). apply lookup_seq in Hk' as [-> _]. done.
    + intros Hx. exists (members k 0 map). split; [|done]. apply Hk. apply elem_of_members_prio in Hx as [? ?]. eauto.
  - apply NoDup_concat_fmap; [apply NoDup_seq|intros; apply members_nodup|].
    intros k k' x [_ E1]%elem_of_members_prio [_ E2]%elem_of_members_prio. lia.
  - intros r q Hq Hge. destruct (Forall2_lookup_r _ _ _ _ _ H4 Hq) as (p & Hp & [n ->] & Hh).
    rewrite priority_set_index in Hge by done. destruct (H5 r p Hp Hge) as (q & Hq' & Ei). rewrite Hq in Hq'. injection Hq' as <-.
    unfold place. rewrite priority_set_index by done. set (k := Z.to_nat (priority seeds p)) in *.
    eapply lookup_in_concat; [apply Hk; apply (Hin (Z.of_nat r))|].
    + apply lookup_lt_Some in Hp. lia.
    + unfold prio_of, piece_at. rewrite Nat2Z.id, Hp. lia.
    + rewrite Ei, Hz, Nat2Z.id. cbn [plus]. rewrite (members_rank k 0 map r p Hp) by lia. f_equal.
Qed.

Lemma placed map bs' map' Cs ps :
  counted map bs' map' Cs -> Forall piece_wf map' -> length ps = length (concat Cs) ->
  place_pieces seeds (sums 0 Cs) 0 map' ps = concat Cs.
Proof.
  intros [] Hw Hl. destruct (place_pieces_spec (concat Cs) (sums 0 Cs) 0 map' ps Hw Hl) as [H1 H2].
  { intros r p Hr Hp. rewrite (cnt_place0 r p) by done. f_equal. }
  apply list_eq. intros j. destruct (concat Cs !! j) as [x|] eqn:Hj; [|apply lookup_ge_None in Hj; apply lookup_ge_None; lia].
  apply H2; [done|]. right. pose proof Hj as Hx. apply list_elem_of_lookup_2, in_bucket_concat in Hx as [k [Hx Hp]%cnt_bucket0].
  unfold prio_of, piece_at in Hp. destruct (map !! Z.to_nat x) as [p|] eqn:E; [|lia].
  pose proof cnt_reindexed0 as Hre. eapply Forall2_lookup_l in Hre as (q & Hq & [n ->] & Hh); [|done].
  exists (Z.to_nat x), (set_index n p). rewrite priority_set_index by done. split_and!; [done|lia|].
  eapply NoDup_lookup; [exact cnt_nodup0|apply (cnt_place0 (Z.to_nat x)); [done|rewrite priority_set_index by done; lia]|].
  rewrite Z2Nat.id by lia. done.
Qed.
End Update.

Lemma perm_buckets Cs Ds k x : Forall2 (≡ₚ) Ds Cs -> in_bucket Ds k x <-> in_bucket Cs k x.
Proof.
  intros H. unfold in_bucket. split; intros (b & Hb & Hx).
  - eapply Forall2_lookup_l in H as (c & Hc & Hp); [|done]. exists c. split; [done|]. by rewrite <- Hp.
  - eapply Forall2_lookup_r in H as (c & Hc & Hp); [|done]. exists c. split; [done|]. by rewrite Hp.
Qed.

Lemma perm_sums n Cs Ds : Forall2 (≡ₚ) Ds Cs -> sums n Ds = sums n Cs.
Proof. intros H. revert n. induction H as [|d c Ds Cs Hp _ IH]; intros n; cbn; [done|]. by rewrite Hp, IH. Qed.

Lemma perm_concat (Cs Ds : list (list Z)) : Forall2 (≡ₚ) Ds Cs -> concat Ds ≡ₚ concat Cs.
Proof. induction 1 as [|d c Ds Cs Hp _ IH]; cbn; [done|]. by rewrite Hp, IH. Qed.

Lemma buckets_missing seeds map Cs :
  (forall k x, in_bucket Cs k x <-> 0 <= x < Z.of_nat (length map) /\ prio_of seeds map x = Z.of_nat k) ->
  Forall (missing map) (concat Cs).
Proof.
  intros Hb. apply Forall_forall. intros x [k [Hx Hp]%Hb]%in_bucket_concat. split; [lia|]. unfold prio_of in Hp.
  destruct (piece_at map x) as [p|]; [|lia]. exists p. split; [done|]. apply (priority_missing seeds). lia.
Qed.

(** [update_pieces] leaves an ordered picker that is not dirty. *)
Lemma update_pieces_ordered random_shuffle t :
  (forall k l, random_shuffle k l ≡ₚ l) -> ordered t ->
  ordered (update_pieces random_shuffle t) /\ m_dirty (update_pieces random_shuffle t) = false /\
  reindexed (m_piece_map t) (m_piece_map (update_pieces random_shuffle t)).
Proof.
  intros Hsh [Hw Hlen Hse _]. unfold update_pieces.
  set (bs := match m_priority_boundries t with [] => _ | _ => _ end).
  assert (bs <> []) as Hne by (subst bs; by destruct (m_priority_boundries t)).
  pose proof (count_pieces_counted (m_seeds t) (m_piece_map t) bs Hw Hlen Hne) as HC.
  destruct (count_pieces (m_seeds t) _ (m_piece_map t)) as [bs' map']. destruct HC as [Cs HC]. pose proof HC as [].
  assert (length (concat Cs) <= length (m_piece_map t))%nat as Hn.
  { apply distinct_pieces; [done|]. intros x [k [Hx _]%cnt_bucket0]%in_bucket_concat. done. }
  assert (length map' = length (m_piece_map t)) as Hl' by (by apply Forall2_length in cnt_reindexed0).
  rewrite cnt_sizes0, sum_boundries_sums, last_sums by done. cbn [plus].
  rewrite (placed (m_seeds t) (m_piece_map t) bs'); [|done|by eapply wf_reindexed|].
  2:{ unfold vec_resize. rewrite length_app, length_take, length_replicate. lia. }
  destruct (shuffle_ranges_spec random_shuffle [] Cs Hsh) as (Ds & E & HD). cbn [length app] in E. rewrite E. clear E.
  assert (NoDup (concat Ds)) as HndD by (by rewrite (perm_concat _ _ HD)).
  assert (forall k x, in_bucket Ds k x <-> 0 <= x < Z.of_nat (length map') /\ prio_of (m_seeds t) map' x = Z.of_nat k) as HbD.
  { intros k x. rewrite (perm_buckets _ _ _ _ HD), cnt_bucket0, Hl'. by rewrite (prio_of_reindexed _ _ _ _ cnt_reindexed0). }
  destruct (index_pieces_spec 0 (concat Ds) map') as (I1 & _ & I3); [done|by apply (buckets_missing (m_seeds t))| |].
  { rewrite (perm_concat _ _ HD). cbn. lia. }
  assert (reindexed (m_piece_map t) (index_pieces 0 (concat Ds) map')) as Hre by (by eapply reindexed_trans).
  assert (length (index_pieces 0 (concat Ds) map') = length map') as HlI by (by apply Forall2_length in I1).
  split_and!; [|done..]. split; cbn; [by eapply wf_reindexed|lia|done|]. intros _. exists Ds.
  assert (forall k x, in_bucket Ds k x <-> 0 <= x < Z.of_nat (length (index_pieces 0 (concat Ds) map')) /\
    prio_of (m_seeds t) (index_pieces 0 (concat Ds) map') x = Z.of_nat k) as HbI.
  { intros k x. rewrite HbD, HlI. by rewrite (prio_of_reindexed _ _ _ _ I1). }
  split; try done.
  - by rewrite (perm_sums _ _ _ HD).
  - intros ->. inversion HD. congruence.
  - intros k x Hk _. pose proof (buckets_missing _ _ _ HbI) as Hm. rewrite Forall_forall in Hm. apply Hm.
    by eapply list_elem_of_lookup_2.
  - intros k x Hk Hx _. by apply I3.
Qed.
