(* ===== verification/PiecePickerView.v ===== *)
(** * The pieces being downloaded, seen as a map

    [m_downloads] is sorted by piece number and points into [m_block_info],
    whose ranges are compacted when an entry is erased.  Behind these, the
    downloads are a map from piece numbers to an entry and its blocks: insertion,
    erasure and the change of one block refine the operations on that map. *)

From S2P Require Import Prelude Archive Md4Hash Bitfield PiecePicker.
From stdpp Require Import list sorting.
Open Scope Z_scope.

(** ** Ranges of blocks *)

Definition region (bpp off : nat) (bi : list block_info) : list block_info := take bpp (drop off bi).

Lemma region_lookup bpp off bi b : (b < bpp)%nat -> region bpp off bi !! b = bi !! (off + b)%nat.
Proof. intros Hb. unfold region. by rewrite lookup_take_lt, lookup_drop. Qed.

Lemma region_ext bpp off bi bi' :
  (forall b, (b < bpp)%nat -> bi' !! (off + b)%nat = bi !! (off + b)%nat) -> region bpp off bi' = region bpp off bi.
Proof.
  intros H. apply list_eq. intros b. destruct (decide (b < bpp)%nat) as [Hb|Hb]; [by rewrite !region_lookup, H|].
  unfold region. by rewrite !lookup_take_ge by lia.
Qed.

Lemma length_region bpp off bi : (off + bpp <= length bi)%nat -> length (region bpp off bi) = bpp.
Proof. intros H. unfold region. rewrite length_take, length_drop. lia. Qed.

Lemma region_insert bpp off bi b x :
  (b < bpp)%nat -> region bpp off (<[(off + b)%nat := x]> bi) = <[b := x]> (region bpp off bi).
Proof.
  intros Hb. unfold region. rewrite drop_insert_ge by lia. replace (off + b - off)%nat with b by lia. by rewrite take_insert_lt.
Qed.

(** Ranges of the store: multiples of the number of blocks of a piece. *)
Lemma multiples_apart (k k' bpp b b' : nat) : k <> k' -> (b < bpp)%nat -> (b' < bpp)%nat -> (k * bpp + b <> k' * bpp + b')%nat.
Proof.
  intros Hne Hb Hb' E. assert (k < k' \/ k' < k)%nat as [?|?] by lia; nia.
Qed.

Lemma region_insert_other bpp (k k' : nat) bi b x :
  k <> k' -> (b < bpp)%nat -> region bpp (k' * bpp) (<[(k * bpp + b)%nat := x]> bi) = region bpp (k' * bpp) bi.
Proof.
  intros Hne Hb. apply region_ext. intros b' Hb'. apply list_lookup_insert_ne. by apply multiples_apart.
Qed.

Lemma write_blocks_lookup at_ l bi k :
  (at_ + length l <= length bi)%nat ->
  write_blocks at_ l bi !! k = if decide (at_ <= k < at_ + length l)%nat then l !! (k - at_)%nat else bi !! k.
Proof.
  intros Hl. unfold write_blocks. case_decide as E.
  - rewrite lookup_app_r; rewrite length_take; [|lia]. rewrite Nat.min_l by lia. rewrite lookup_app_l by lia. done.
  - destruct (decide (k < at_)%nat) as [Hk|Hk].
    + rewrite lookup_app_l by (rewrite length_take; lia). by rewrite lookup_take_lt.
    + rewrite lookup_app_r; rewrite length_take; [|lia]. rewrite Nat.min_l by lia. rewrite lookup_app_r by lia.
      rewrite lookup_drop. f_equal. lia.
Qed.

Lemma length_write_blocks at_ l bi : (at_ + length l <= length bi)%nat -> length (write_blocks at_ l bi) = length bi.
Proof. intros H. unfold write_blocks. rewrite !length_app, length_take, length_drop. lia. Qed.

Lemma region_write bpp (k k' : nat) l bi :
  length l = bpp -> (k * bpp + bpp <= length bi)%nat ->
  region bpp (k' * bpp) (write_blocks (k * bpp) l bi) = if decide (k = k') then l else region bpp (k' * bpp) bi.
Proof.
  intros Hl Hb. case_decide as E.
  - subst k'. apply list_eq. intros b. destruct (decide (b < bpp)%nat) as [Hlt|Hge].
    + rewrite region_lookup by done. rewrite write_blocks_lookup by lia. rewrite decide_True by lia. f_equal. lia.
    + rewrite (lookup_ge_None_2 l) by lia. unfold region. by rewrite lookup_take_ge by lia.
  - apply region_ext. intros b Hlt. rewrite write_blocks_lookup by lia. apply decide_False. intros Hin.
    apply (multiples_apart k k' bpp (k' * bpp + b - k * bpp) b); lia.
Qed.

(** ** Entries *)

Definition sorted_downloads (ds : list downloading_piece) : Prop := StronglySorted Z.lt (dp_index <$> ds).

Lemma lower_bound_sorted ds j d :
  sorted_downloads ds -> ds !! j = Some d -> lower_bound (dp_index d) ds = j.
Proof.
  unfold sorted_downloads. revert j. induction ds as [|e ds IH]; intros j Hs Hj; [done|]. cbn in Hs.
  apply StronglySorted_cons in Hs as [Hall Hs]. cbn. destruct j as [|j]; cbn in Hj.
  - injection Hj as ->. by rewrite Z.ltb_irrefl.
  - assert (dp_index e < dp_index d) as Hlt.
    { rewrite Forall_forall in Hall. apply Hall. apply list_elem_of_fmap. exists d. split; [done|]. by eapply list_elem_of_lookup_2. }
    apply Z.ltb_lt in Hlt. rewrite Hlt. f_equal. by apply IH.
Qed.

Lemma find_dl_piece_Some i t j d :
  sorted_downloads (m_downloads t) -> find_dl_piece i t = Some (j, d) <-> m_downloads t !! j = Some d /\ dp_index d = i.
Proof.
  intros Hs. unfold find_dl_piece. split.
  - destruct (m_downloads t !! lower_bound i (m_downloads t)) as [d'|] eqn:E; [|done].
    destruct (Z.eqb_spec (dp_index d') i); [|done]. intros [= <- <-]. done.
  - intros [Hj <-]. rewrite (lower_bound_sorted _ j d) by done. rewrite Hj. by rewrite Z.eqb_refl.
Qed.

Lemma find_dl_piece_None i t :
  sorted_downloads (m_downloads t) -> find_dl_piece i t = None <-> i ∉ dp_index <$> m_downloads t.
Proof.
  intros Hs. rewrite list_elem_of_fmap. split.
  - intros E (d & -> & [j Hj]%list_elem_of_lookup). assert (find_dl_piece (dp_index d) t = Some (j, d)) as E' by (by apply find_dl_piece_Some).
    congruence.
  - intros Hn. destruct (find_dl_piece i t) as [[j d]|] eqn:E; [|done]. apply find_dl_piece_Some in E as [Hj <-]; [|done].
    exfalso. apply Hn. exists d. split; [done|]. by eapply list_elem_of_lookup_2.
Qed.

(** [std::lower_bound] splits the entries. *)
Lemma lower_bound_split i ds :
  sorted_downloads ds -> i ∉ dp_index <$> ds ->
  Forall (fun x => x < i) (dp_index <$> take (lower_bound i ds) ds) /\
  Forall (fun x => i < x) (dp_index <$> drop (lower_bound i ds) ds).
Proof.
  unfold sorted_downloads. induction ds as [|e ds IH]; intros Hs Hi; [cbn; auto|]. cbn in Hs, Hi.
  apply StronglySorted_cons in Hs as [Hall Hs]. apply not_elem_of_cons in Hi as [Hne Hi]. cbn.
  destruct (Z.ltb_spec (dp_index e) i).
  - destruct (IH Hs Hi) as [H1 H2]. split; [|done]. cbn. by constructor.
  - cbn. split; [constructor|]. constructor; [lia|]. eapply Forall_impl; [exact Hall|]. cbn. lia.
Qed.

Lemma sorted_insert_at (l1 l2 : list Z) i :
  StronglySorted Z.lt (l1 ++ l2) -> Forall (fun x => x < i) l1 -> Forall (fun x => i < x) l2 ->
  StronglySorted Z.lt (l1 ++ i :: l2).
Proof.
  induction l1 as [|x l1 IH]; cbn; intros Hs H1 H2; [by constructor|].
  apply StronglySorted_cons in Hs as [Hall Hs]. apply Forall_cons in H1 as [Hx H1]. apply Forall_app in Hall as [Ha1 Ha2].
  constructor; [by apply IH|]. apply Forall_app. split; [done|]. by constructor.
Qed.

Lemma sorted_delete (l : list Z) j : StronglySorted Z.lt l -> StronglySorted Z.lt (delete j l).
Proof.
  revert j. induction l as [|x l IH]; intros j Hs; [by destruct j|]. apply StronglySorted_cons in Hs as [Hall Hs].
  destruct j as [|j]; cbn; [done|]. constructor; [by apply IH|]. by apply Forall_delete.
Qed.

(** ** The map *)

Record entry := Entry { e_state : piece_state_t; e_finished : Z; e_writing : Z; e_requested : Z; e_blocks : list block_info }.

Definition entry_of (t : piece_picker) (d : downloading_piece) : entry :=
  Entry (dp_state d) (dp_finished d) (dp_writing d) (dp_requested d)
    (region (m_blocks_per_piece t) (dp_info d) (m_block_info t)).

Definition view (t : piece_picker) (i : Z) : option entry := '(_, d) ← find_dl_piece i t; Some (entry_of t d).

(** The ranges of the entries are the first ones of the store, in some order. *)
Record store_ok (t : piece_picker) : Prop := {
  st_sorted : sorted_downloads (m_downloads t);
  st_infos : dp_info <$> m_downloads t ≡ₚ (fun k => k * m_blocks_per_piece t)%nat <$> seq 0 (length (m_downloads t));
  st_store : (length (m_downloads t) * m_blocks_per_piece t <= length (m_block_info t))%nat
}.

Lemma view_Some t i e :
  store_ok t -> view t i = Some e <-> exists j d, m_downloads t !! j = Some d /\ dp_index d = i /\ e = entry_of t d.
Proof.
  intros [Hs _ _]. unfold view. split.
  - destruct (find_dl_piece i t) as [[j d]|] eqn:E; [|done]. cbn. intros [= <-].
    apply find_dl_piece_Some in E as [? ?]; [|done]. by exists j, d.
  - intros (j & d & Hj & <- & ->). by rewrite (proj2 (find_dl_piece_Some (dp_index d) t j d Hs) (conj Hj eq_refl)).
Qed.

Lemma view_None t i : store_ok t -> view t i = None <-> i ∉ dp_index <$> m_downloads t.
Proof.
  intros [Hs _ _]. rewrite <- (find_dl_piece_None i t Hs). unfold view. by destruct (find_dl_piece i t) as [[j d]|].
Qed.

(** Two pickers with the same map. *)
Lemma view_ext t t' i i' :
  store_ok t -> store_ok t' ->
  (forall e, (exists j d, m_downloads t !! j = Some d /\ dp_index d = i /\ e = entry_of t d) <->
             (exists j d, m_downloads t' !! j = Some d /\ dp_index d = i' /\ e = entry_of t' d)) ->
  view t' i' = view t i.
Proof.
  intros Ht Ht' H. destruct (view t i) as [e|] eqn:E.
  - apply view_Some; [done|]. apply H. by apply view_Some.
  - destruct (view t' i') as [e|] eqn:E'; [|done]. apply view_Some in E' as E''; [|done]. apply H in E''.
    apply view_Some in E''; [|done]. congruence.
Qed.

(** The map does not depend on the rest of the picker. *)
Lemma view_same t t' :
  m_downloads t' = m_downloads t -> m_block_info t' = m_block_info t -> m_blocks_per_piece t' = m_blocks_per_piece t ->
  (forall i, view t' i = view t i) /\ (store_ok t -> store_ok t').
Proof.
  intros H1 H2 H3. split.
  - intros i. unfold view, find_dl_piece, entry_of. by rewrite H1, H2, H3.
  - intros []. split; by rewrite ?H1, ?H2, ?H3.
Qed.

Lemma st_multiple t j d :
  store_ok t -> m_downloads t !! j = Some d ->
  exists k, (k < length (m_downloads t))%nat /\ dp_info d = (k * m_blocks_per_piece t)%nat.
Proof.
  intros [_ Hi _] Hj. assert (dp_info d ∈ dp_info <$> m_downloads t) as Hin.
  { apply list_elem_of_fmap. exists d. split; [done|]. by eapply list_elem_of_lookup_2. }
  rewrite Hi in Hin. apply list_elem_of_fmap in Hin as (k & -> & Hk). apply elem_of_seq in Hk. exists k. split; [lia|done].
Qed.

Lemma st_room t k : store_ok t -> (k < length (m_downloads t))%nat ->
  (k * m_blocks_per_piece t + m_blocks_per_piece t <= length (m_block_info t))%nat.
Proof. intros [_ _ H] Hk. nia. Qed.

Lemma view_length t i e : store_ok t -> view t i = Some e -> length (e_blocks e) = m_blocks_per_piece t.
Proof.
  intros H Hv. apply view_Some in Hv as (j & d & Hj & _ & ->); [|done]. destruct (st_multiple t j d H Hj) as (k & Hk & E).
  cbn. rewrite E. apply length_region. by apply st_room.
Qed.

(** Different entries have different ranges. *)
Lemma st_distinct t j j' d d' :
  store_ok t -> (0 < m_blocks_per_piece t)%nat -> m_downloads t !! j = Some d -> m_downloads t !! j' = Some d' ->
  dp_info d = dp_info d' -> j = j'.
Proof.
  intros H Hpos Hj Hj' E. assert (NoDup (dp_info <$> m_downloads t)) as Hd.
  { rewrite (st_infos t H). apply NoDup_fmap_2_strong; [|apply NoDup_seq]. intros x y _ _ Exy. nia. }
  eapply NoDup_lookup; [exact Hd|rewrite list_lookup_fmap, Hj; done|]. rewrite list_lookup_fmap, Hj'. cbn. by rewrite E.
Qed.

Lemma st_index_distinct t j j' d d' :
  store_ok t -> m_downloads t !! j = Some d -> m_downloads t !! j' = Some d' -> dp_index d = dp_index d' -> j = j'.
Proof.
  intros [Hs _ _] Hj Hj' E. rewrite <- (lower_bound_sorted _ j d), <- (lower_bound_sorted _ j' d') by done. congruence.
Qed.

(** ** One block changes *)

Lemma set_entry_store t j d d' k x :
  store_ok t -> m_downloads t !! j = Some d -> dp_index d' = dp_index d -> dp_info d' = dp_info d ->
  store_ok (set_dp j d' (set_block k x t)).
Proof.
  intros [H1 H2 H3] Hj Ei Eo. assert (forall A (f : downloading_piece -> A), f d' = f d -> f <$> <[j := d']> (m_downloads t) = f <$> m_downloads t) as Hf.
  { intros A f E. rewrite list_fmap_insert, E. apply list_insert_id. by rewrite list_lookup_fmap, Hj. }
  split; cbn; rewrite ?length_insert; unfold sorted_downloads; rewrite ?Hf by done; done.
Qed.

Lemma set_entry_view t j d d' b x i :
  store_ok t -> m_downloads t !! j = Some d -> dp_index d' = dp_index d -> dp_info d' = dp_info d ->
  (b < m_blocks_per_piece t)%nat ->
  view (set_dp j d' (set_block (dp_info d + b) x t)) i =
    if decide (i = dp_index d)
    then Some (Entry (dp_state d') (dp_finished d') (dp_writing d') (dp_requested d') (<[b := x]> (e_blocks (entry_of t d))))
    else view t i.
Proof.
  intros H Hj Ei Eo Hb. pose proof (set_entry_store t j d d' (dp_info d + b) x H Hj Ei Eo) as H'.
  assert (j < length (m_downloads t))%nat as Hlt by (by eapply lookup_lt_Some). case_decide as E.
  - apply view_Some; [done|]. exists j, d'. cbn. split_and!; [by apply list_lookup_insert_eq|congruence|].
    unfold entry_of. cbn [e_blocks m_blocks_per_piece m_block_info set_dp set_block with_downloads]. by rewrite Eo, region_insert.
  - apply view_ext; [done..|]. assert (forall j' d0, j' <> j -> m_downloads t !! j' = Some d0 ->
      entry_of (set_dp j d' (set_block (dp_info d + b) x t)) d0 = entry_of t d0) as Heq.
    { intros j' d0 Hne Hj'. unfold entry_of. cbn. f_equal.
      destruct (st_multiple t j d H Hj) as (k & Hk & Ek). destruct (st_multiple t j' d0 H Hj') as (k' & Hk' & Ek').
      rewrite Ek, Ek'. apply region_insert_other; [|done]. intros ->. apply Hne. eapply (st_distinct t); [done|lia|done..|congruence]. }
    intros e. cbn. split; intros (j' & d0 & Hj' & <- & ->).
    + assert (j' <> j) as Hne by (intros ->; congruence). exists j', d0. rewrite list_lookup_insert_ne by done. by rewrite Heq with (j' := j').
    + assert (j' <> j) as Hne by (intros ->; rewrite list_lookup_insert_eq in Hj' by done; injection Hj' as <-; congruence).
      rewrite list_lookup_insert_ne in Hj' by done. exists j', d0. by rewrite Heq with (j' := j').
Qed.

(** The entry changes, not its blocks. *)
Lemma set_dp_view t j d d' i :
  store_ok t -> m_downloads t !! j = Some d -> dp_index d' = dp_index d -> dp_info d' = dp_info d ->
  store_ok (set_dp j d' t) /\
  view (set_dp j d' t) i =
    if decide (i = dp_index d)
    then Some (Entry (dp_state d') (dp_finished d') (dp_writing d') (dp_requested d') (e_blocks (entry_of t d)))
    else view t i.
Proof.
  intros H Hj Ei Eo. pose proof (set_entry_store t j d d' (length (m_block_info t)) block_info_new H Hj Ei Eo) as H'.
  destruct (view_same (set_dp j d' (set_block (length (m_block_info t)) block_info_new t)) (set_dp j d' t)) as [E HH]; [done| |done|].
  { cbn. symmetry. apply list_insert_ge. lia. }
  split; [by apply HH|]. assert (j < length (m_downloads t))%nat as Hlt by (by eapply lookup_lt_Some). case_decide as Eq.
  - apply view_Some; [by apply HH|]. exists j, d'. cbn. split_and!; [by apply list_lookup_insert_eq|congruence|].
    unfold entry_of. cbn. by rewrite Eo.
  - apply view_ext; [done|by apply HH|]. intros e. cbn. split; intros (j' & d0 & Hj' & <- & ->).
    + assert (j' <> j) as Hne by (intros ->; congruence). exists j', d0. by rewrite list_lookup_insert_ne.
    + assert (j' <> j) as Hne by (intros ->; rewrite list_lookup_insert_eq in Hj' by done; injection Hj' as <-; congruence).
      rewrite list_lookup_insert_ne in Hj' by done. by exists j', d0.
Qed.

(** ** An entry is added *)

Definition fresh_entry (bpp : nat) : entry := Entry none 0 0 0 (replicate bpp block_info_new).

Lemma lookup_insert_at (ds : list downloading_piece) j d k x :
  (j <= length ds)%nat -> (take j ds ++ d :: drop j ds) !! k = Some x <->
  (k < j /\ ds !! k = Some x \/ k = j /\ x = d \/ j < k /\ ds !! (k - 1) = Some x)%nat.
Proof.
  intros Hj. rewrite lookup_app_Some, length_take, Nat.min_l by done. destruct (lt_eq_lt_dec k j) as [[Hlt| ->]|Hgt].
  - rewrite lookup_take_lt by done. split; [intros [?|[? _]]; [auto|lia]|]. intros [[_ ?]|[[? _]|[? _]]]; [auto|lia|lia].
  - rewrite Nat.sub_diag. cbn. rewrite lookup_take_ge by lia. split; [intros [?|[_ [= <-]]]; [done|auto]|].
    intros [[? _]|[[_ ->]|[? _]]]; [lia|auto|lia].
  - rewrite lookup_take_ge by lia. rewrite lookup_cons_ne_0, lookup_drop by lia.
    replace (j + pred (k - j))%nat with (k - 1)%nat by lia. split; [intros [?|[_ ?]]; [done|auto]|].
    intros [[? _]|[[? _]|[_ ?]]]; [lia|lia|]. right. split; [lia|done].
Qed.

Lemma lower_bound_le i ds : (lower_bound i ds <= length ds)%nat.
Proof. induction ds as [|d ds IH]; cbn; [lia|]. destruct (_ <? _); lia. Qed.

(** The store grows when it is too short. *)
Lemma store_grows m (bi : list block_info) :
  let bi' := if (length bi <? m)%nat then vec_resize m block_info_new bi else bi in
  (m <= length bi')%nat /\ forall k, (k < length bi)%nat -> bi' !! k = bi !! k.
Proof.
  cbv zeta. destruct (Nat.ltb_spec (length bi) m); [|auto]. unfold vec_resize.
  rewrite length_app, length_take, length_replicate, take_ge by lia. split; [lia|]. intros k Hk. by rewrite lookup_app_l.
Qed.

Lemma add_download_store i t :
  store_ok t -> i ∉ dp_index <$> m_downloads t -> store_ok (add_download_piece i t).
Proof.
  intros [H1 H2 H3] Hi. unfold add_download_piece. set (bpp := m_blocks_per_piece t) in *. set (n := length (m_downloads t)) in *.
  destruct (store_grows (n * bpp + bpp) (m_block_info t)) as [Hbi _]. set (bi := if (_ <? _)%nat then _ else _) in *.
  pose proof (lower_bound_le i (m_downloads t)) as Hle. pose proof (lower_bound_split i (m_downloads t) H1 Hi) as [Hl Hr].
  assert (length (take (lower_bound i (m_downloads t)) (m_downloads t) ++ Downloading none i (n * bpp) 0 0 0 ::
    drop (lower_bound i (m_downloads t)) (m_downloads t)) = S n) as El.
  { rewrite length_app, length_take. cbn. rewrite length_drop. lia. }
  split; cbn [m_downloads m_block_info m_blocks_per_piece with_downloads].
  - unfold sorted_downloads. rewrite fmap_app. cbn. apply sorted_insert_at; [|done..]. rewrite <- fmap_app, take_drop. done.
  - rewrite El, seq_S, fmap_app. cbn. rewrite fmap_app. cbn. rewrite <- Permutation_middle, <- fmap_app, take_drop, H2.
    fold n bpp. by rewrite <- Permutation_cons_append.
  - rewrite El. fold bpp. rewrite length_write_blocks by (rewrite length_replicate; done). lia.
Qed.

Lemma add_download_regions i t k :
  store_ok t -> (k <= length (m_downloads t))%nat ->
  region (m_blocks_per_piece t) (k * m_blocks_per_piece t) (m_block_info (add_download_piece i t)) =
  if decide (length (m_downloads t) = k) then replicate (m_blocks_per_piece t) block_info_new
  else region (m_blocks_per_piece t) (k * m_blocks_per_piece t) (m_block_info t).
Proof.
  intros H Hk. unfold add_download_piece. cbn [m_block_info with_downloads]. set (bpp := m_blocks_per_piece t). set (n := length (m_downloads t)) in *.
  destruct (store_grows (n * bpp + bpp) (m_block_info t)) as [Hbi Hsame]. set (bi := if (_ <? _)%nat then _ else _) in *.
  rewrite region_write; [|apply length_replicate|done]. case_decide as E; [done|].
  apply region_ext. intros b Hb. apply Hsame. pose proof (st_room t k H ltac:(subst n; lia)). subst bpp. lia.
Qed.

Lemma add_download_view i t x :
  store_ok t -> i ∉ dp_index <$> m_downloads t ->
  view (add_download_piece i t) x = if decide (x = i) then Some (fresh_entry (m_blocks_per_piece t)) else view t x.
Proof.
  intros H Hi. pose proof (add_download_store i t H Hi) as H'. pose proof (lower_bound_le i (m_downloads t)) as Hle.
  pose proof (fun k d => lookup_insert_at (m_downloads t) (lower_bound i (m_downloads t))
    (Downloading none i (length (m_downloads t) * m_blocks_per_piece t) 0 0 0) k d Hle) as Hlk.
  case_decide as E.
  - apply view_Some; [done|]. eexists _, _. split; [apply Hlk; right; left; done|]. split; [by subst|].
    unfold entry_of, fresh_entry. cbn [dp_state dp_finished dp_writing dp_requested dp_info]. f_equal.
    rewrite (add_download_regions i t) by done. by rewrite decide_True.
  - apply view_ext; [done..|]. assert (forall j d, m_downloads t !! j = Some d -> entry_of (add_download_piece i t) d = entry_of t d) as Heq.
    { intros j d Hj. destruct (st_multiple t j d H Hj) as (k & Hk & Ek). unfold entry_of. f_equal. rewrite Ek.
      change (m_blocks_per_piece (add_download_piece i t)) with (m_blocks_per_piece t).
      rewrite add_download_regions by (done || lia). rewrite decide_False by lia. done. }
    intros e. split; intros (j & d & Hj & Hd & ->).
    + rewrite <- (Heq j d Hj). destruct (decide (j < lower_bound i (m_downloads t))%nat); eexists _, d; (split; [apply Hlk|done]); [by left|].
      right. right. split; [|replace (S j - 1)%nat with j by lia; exact Hj]. lia.
    + apply Hlk in Hj as [[_ Hj]|[[_ ->]|[_ Hj]]]; [|cbn in Hd; congruence|]; eexists _, d; split; [exact Hj| |exact Hj|];
        (split; [done|by eapply Heq]).
Qed.

(** ** An entry is erased *)

Lemma delete_insert_same {A} (l : list A) (o : nat) x : delete o (<[o := x]> l) = delete o l.
Proof. revert o. induction l as [|y l IH]; intros [|o]; cbn; [done..|]. f_equal. apply IH. Qed.

Lemma delete_insert_perm (l : list nat) j o xj xo :
  l !! j = Some xj -> l !! o = Some xo -> j <> o -> delete j (<[o := xj]> l) ≡ₚ delete o l.
Proof.
  intros Hj Ho Hne. assert (<[o := xj]> l !! j = Some xj) as Hj' by (by rewrite list_lookup_insert_ne).
  apply (Permutation_cons_inv (a := xj)). rewrite <- (delete_Permutation _ j xj Hj').
  assert (<[o := xj]> l !! o = Some xj) as Ho' by (apply list_lookup_insert_eq; by eapply lookup_lt_Some).
  rewrite (delete_Permutation _ o xj Ho'). by rewrite delete_insert_same.
Qed.

Lemma lookup_delete_iff {A} (l : list A) (j : nat) x :
  (exists k, delete j l !! k = Some x) <-> exists k, k <> j /\ l !! k = Some x.
Proof.
  split.
  - intros [k Hk]. destruct (decide (k < j)%nat).
    + rewrite list_lookup_delete_lt in Hk by done. exists k. split; [lia|done].
    + rewrite list_lookup_delete_ge in Hk by lia. exists (S k). split; [lia|done].
  - intros (k & Hne & Hk). destruct (decide (k < j)%nat).
    + exists k. by rewrite list_lookup_delete_lt.
    + exists (k - 1)%nat. rewrite list_lookup_delete_ge by lia. by replace (S (k - 1)) with k by lia.
Qed.

Lemma list_fmap_delete {A B} (f : A -> B) (l : list A) (j : nat) : f <$> delete j l = delete j (f <$> l).
Proof. revert j. induction l as [|x l IH]; intros [|j]; cbn; [done..|]. f_equal. apply IH. Qed.

Lemma infos_without (l : list nat) bpp n j :
  l ≡ₚ (fun k => k * bpp)%nat <$> seq 0 (S n) -> l !! j = Some (n * bpp)%nat ->
  delete j l ≡ₚ (fun k => k * bpp)%nat <$> seq 0 n.
Proof.
  intros Hp Hj. rewrite (delete_Permutation _ _ _ Hj) in Hp. rewrite seq_S, fmap_app in Hp. cbn in Hp.
  rewrite <- Permutation_cons_append in Hp. by apply Permutation_cons_inv in Hp.
Qed.

Section Erase.
Context (t : piece_picker) (j : nat) (d : downloading_piece).
Context (Hok : store_ok t) (Hbpp : (0 < m_blocks_per_piece t)%nat) (Hj : m_downloads t !! j = Some d).

Abbreviation bpp := (m_blocks_per_piece t).
Abbreviation ds := (m_downloads t).

(** The entry whose range is the last one. *)
Lemma last_entry :
  exists o other, list_find (fun d => dp_info d = ((length ds - 1) * bpp)%nat) ds = Some (o, other) /\
    ds !! o = Some other /\ dp_info other = ((length ds - 1) * bpp)%nat.
Proof.
  assert (0 < length ds)%nat as Hpos by (apply lookup_lt_Some in Hj; lia).
  assert (((length ds - 1) * bpp)%nat ∈ dp_info <$> ds) as Hin.
  { rewrite (st_infos t Hok). apply list_elem_of_fmap. exists (length ds - 1)%nat. split; [done|]. apply elem_of_seq. lia. }
  apply list_elem_of_fmap in Hin as (other & E & Hin).
  destruct (list_find_elem_of (fun d => dp_info d = ((length ds - 1) * bpp)%nat) ds other Hin ltac:(done)) as [[o d'] Ef].
  exists o, d'. split; [done|]. by apply list_find_Some in Ef as (? & ? & _).
Qed.

Definition moved (d' : downloading_piece) (off : nat) : downloading_piece :=
  Downloading (dp_state d') (dp_index d') off (dp_finished d') (dp_writing d') (dp_requested d').

(** The entries and the store after the erasure: entry [o] has moved into the
    range of the erased entry, unless it is the erased entry itself. *)
Lemma erase_download_eq :
  exists o other, ds !! o = Some other /\ dp_info other = ((length ds - 1) * bpp)%nat /\
    erase_download_piece j t =
      with_map (alter_piece (set_downloading false) (dp_index d) (m_piece_map t))
        (with_downloads (delete j (<[o := moved other (dp_info d)]> ds))
          (if decide (j = o) then m_block_info t
           else write_blocks (dp_info d) (region bpp (dp_info other) (m_block_info t)) (m_block_info t)) t).
Proof.
  destruct last_entry as (o & other & Ef & Ho & Eo). exists o, other. split_and!; [done..|].
  unfold erase_download_piece. rewrite Hj, Ef. destruct (Nat.eqb_spec j o) as [->|Hne].
  - rewrite decide_True by done. by rewrite delete_insert_same.
  - rewrite decide_False by done. f_equal. f_equal. f_equal. apply list_eq. intros k.
    destruct (decide (k = o)) as [->|Hk].
    + rewrite list_lookup_alter_eq, Ho, list_lookup_insert_eq; [done|]. by eapply lookup_lt_Some.
    + by rewrite list_lookup_alter_ne, list_lookup_insert_ne.
Qed.

Lemma erase_download_store : store_ok (erase_download_piece j t).
Proof.
  destruct erase_download_eq as (o & other & Ho & Eo & ->). pose proof Hok as [H1 H2 H3].
  assert (0 < length ds)%nat as Hpos by (apply lookup_lt_Some in Hj; lia).
  assert (length (delete j (<[o := moved other (dp_info d)]> ds)) = length ds - 1)%nat as El.
  { rewrite length_delete by (apply lookup_lt_is_Some_2; rewrite length_insert; by eapply lookup_lt_Some). by rewrite length_insert. }
  destruct (st_multiple t j d Hok Hj) as (k & Hk & Ek). split; cbn [m_downloads m_block_info m_blocks_per_piece with_map with_buckets with_downloads].
  - unfold sorted_downloads. rewrite list_fmap_delete, list_fmap_insert. apply sorted_delete. cbn [moved dp_index].
    rewrite list_insert_id by (by rewrite list_lookup_fmap, Ho). done.
  - rewrite El, list_fmap_delete, list_fmap_insert. cbn [moved dp_info].
    replace (length ds) with (S (length ds - 1)) in H2 by lia.
    assert ((dp_info <$> ds) !! o = Some ((length ds - 1) * bpp)%nat) as Hio by (rewrite list_lookup_fmap, Ho; cbn; by rewrite Eo).
    assert ((dp_info <$> ds) !! j = Some (dp_info d)) as Hij by (by rewrite list_lookup_fmap, Hj).
    destruct (decide (j = o)) as [->|Hne].
    + rewrite delete_insert_same. by apply infos_without.
    + rewrite (delete_insert_perm _ j o _ _ Hij Hio Hne). by apply infos_without.
  - rewrite El. case_decide; [nia|]. rewrite length_write_blocks; [nia|]. rewrite Ek, Eo.
    rewrite length_region; [by apply st_room|apply st_room; [done|lia]].
Qed.

Lemma erase_download_view x :
  view (erase_download_piece j t) x = if decide (x = dp_index d) then None else view t x.
Proof.
  pose proof erase_download_store as H'. destruct erase_download_eq as (o & other & Ho & Eo & E).
  assert (o < length ds)%nat as Hlo by (by eapply lookup_lt_Some).
  assert (0 < length ds)%nat as Hpos by lia.
  destruct (st_multiple t j d Hok Hj) as (k & Hk & Ek).
  assert (forall d', (exists k, m_downloads (erase_download_piece j t) !! k = Some d') <->
    exists k, k <> j /\ <[o := moved other (dp_info d)]> ds !! k = Some d') as Hin by (intros d'; rewrite E; apply lookup_delete_iff).
  assert (forall j' d', j' <> j -> j' <> o -> ds !! j' = Some d' ->
    entry_of (erase_download_piece j t) d' = entry_of t d') as Hsame.
  { intros j' d' Hne Hno Hj'. unfold entry_of. rewrite E. cbn [m_block_info m_blocks_per_piece with_map with_buckets with_downloads].
    f_equal. case_decide; [done|]. destruct (st_multiple t j' d' Hok Hj') as (k' & Hk' & Ek').
    rewrite Ek, Ek', Eo, region_write; [|apply length_region, st_room; [done|lia]|by apply st_room].
    rewrite decide_False; [done|]. intros ->. apply Hne. eapply (st_distinct t); [done..|congruence]. }
  assert (o <> j -> entry_of (erase_download_piece j t) (moved other (dp_info d)) = entry_of t other) as Hmoved.
  { intros Hne. unfold entry_of. rewrite E. cbn [m_block_info m_blocks_per_piece with_map with_buckets with_downloads moved dp_state dp_info dp_finished dp_writing dp_requested].
    f_equal. rewrite decide_False by done. rewrite Ek at 1. rewrite Ek, region_write; [by rewrite decide_True| |by apply st_room].
    rewrite Eo. apply length_region, st_room; [done|lia]. }
  destruct (decide (x = dp_index d)) as [Ex|Ex].
  - rewrite Ex. apply view_None; [done|]. intros (d' & Ed & Hd')%list_elem_of_fmap. apply list_elem_of_lookup, Hin in Hd' as (k' & Hne & Hk').
    assert (exists d0, ds !! k' = Some d0 /\ dp_index d0 = dp_index d) as (d0 & Hd0 & E0).
    { destruct (decide (k' = o)) as [->|Hno]; [rewrite list_lookup_insert_eq in Hk' by done; injection Hk' as <-; by exists other|].
      rewrite list_lookup_insert_ne in Hk' by done. by exists d'. }
    apply Hne. by eapply (st_index_distinct t).
  - apply view_ext; [done..|]. intros e. split.
    + intros (j' & d' & Hj' & <- & ->). assert (j' <> j) as Hne by congruence.
      destruct (decide (j' = o)) as [->|Hno].
      * assert (d' = other) as -> by congruence. destruct (proj2 (Hin (moved other (dp_info d)))) as [k' Hk'].
        { exists o. split; [done|]. by apply list_lookup_insert_eq. }
        exists k', (moved other (dp_info d)). split_and!; [done..|]. by rewrite Hmoved.
      * destruct (proj2 (Hin d')) as [k' Hk']; [exists j'; by rewrite list_lookup_insert_ne|].
        exists k', d'. split_and!; [done..|]. by rewrite (Hsame j').
    + intros (k' & d' & Hk' & <- & ->). destruct (proj1 (Hin d')) as (j' & Hne & Hj'); [by exists k'|].
      destruct (decide (j' = o)) as [->|Hno].
      * rewrite list_lookup_insert_eq in Hj' by done. injection Hj' as <-. exists o, other. split_and!; [done..|]. by apply Hmoved.
      * rewrite list_lookup_insert_ne in Hj' by done. exists j', d'. split_and!; [done..|]. by apply (Hsame j').
Qed.
End Erase.
