(* ===== verification/PiecePickerBlocks.v ===== *)
(** * The blocks of the pieces being downloaded

    The counters of every entry of [m_downloads] are the numbers of its blocks
    in each state, a block has requesters exactly while it is requested, an
    entry has a speed exactly while it has requested blocks, and the
    [downloading] flags tell which pieces have an entry: the part of
    [check_invariant] about the downloads, for every operation. *)

From S2P Require Import Prelude Archive Md4Hash Bitfield PiecePicker PiecePickerBuckets PiecePickerInv PiecePickerUpdate PiecePickerView.
From stdpp Require Import list.
Open Scope Z_scope.

(** ** Counting the blocks in a state *)

Definition count_state (s : block_state) (l : list block_info) : Z :=
  Z.of_nat (length (filter (fun b => bi_state b = s) l)).

Definition is_state (s s' : block_state) : Z := if decide (s = s') then 1 else 0.

Lemma count_state_cons s b l : count_state s (b :: l) = is_state (bi_state b) s + count_state s l.
Proof. unfold count_state, is_state. rewrite filter_cons. case_decide; cbn [length]; lia. Qed.

Lemma count_state_insert s l k old b :
  l !! k = Some old -> count_state s (<[k := b]> l) = count_state s l - is_state (bi_state old) s + is_state (bi_state b) s.
Proof.
  revert k. induction l as [|x l IH]; intros [|k] Hk; [done..| |]; cbn in Hk.
  - injection Hk as ->. change (<[0%nat := b]> (old :: l)) with (b :: l). rewrite !count_state_cons. lia.
  - change (<[S k := b]> (x :: l)) with (x :: <[k := b]> l). rewrite !count_state_cons. rewrite (IH k Hk). lia.
Qed.

Lemma count_state_fresh s n : count_state s (replicate n block_info_new) = if decide (s = state_none) then Z.of_nat n else 0.
Proof.
  induction n as [|n IH]; [by case_decide|]. cbn [replicate]. rewrite count_state_cons, IH. unfold is_state. cbn [bi_state block_info_new].
  repeat case_decide; congruence || lia.
Qed.

Lemma count_state_nonneg s l : 0 <= count_state s l.
Proof. unfold count_state. lia. Qed.

(** The states together. *)
Lemma count_state_total l :
  count_state state_none l + count_state state_requested l + count_state state_writing l + count_state state_finished l =
  Z.of_nat (length l).
Proof.
  induction l as [|b l IH]; [done|]. rewrite !count_state_cons. cbn [length]. unfold is_state.
  destruct (bi_state b); repeat case_decide; congruence || lia.
Qed.

(** ** Entries *)

(** A block that is in no state is as new. *)
Definition block_ok (b : block_info) : Prop :=
  0 <= bi_num_peers b < 2 ^ 14 /\ (0 < bi_num_peers b <-> bi_state b = state_requested) /\
  (bi_state b = state_none -> b = block_info_new).

Record entry_ok (nb : nat) (e : entry) : Prop := {
  en_finished : e_finished e = count_state state_finished (take nb (e_blocks e));
  en_writing : e_writing e = count_state state_writing (take nb (e_blocks e));
  en_requested : e_requested e = count_state state_requested (take nb (e_blocks e));
  en_state : e_state e = none <-> e_requested e = 0;
  en_blocks : Forall block_ok (take nb (e_blocks e));
  en_busy : 0 < e_finished e + e_writing e + e_requested e
}.

(** Block [b] goes from [old] to [new]; the counters follow. *)
Lemma entry_ok_change nb e b old new s f w r :
  entry_ok nb e -> (b < nb)%nat -> e_blocks e !! b = Some old -> block_ok new ->
  f = e_finished e - is_state (bi_state old) state_finished + is_state (bi_state new) state_finished ->
  w = e_writing e - is_state (bi_state old) state_writing + is_state (bi_state new) state_writing ->
  r = e_requested e - is_state (bi_state old) state_requested + is_state (bi_state new) state_requested ->
  (s = none <-> r = 0) -> 0 < f + w + r ->
  entry_ok nb (Entry s f w r (<[b := new]> (e_blocks e))).
Proof.
  intros [] Hb Hold Hnew Hf Hw Hr Hs Hbusy. assert (take nb (e_blocks e) !! b = Some old) as Ho by (by rewrite lookup_take_lt).
  assert (take nb (<[b := new]> (e_blocks e)) = <[b := new]> (take nb (e_blocks e))) as Et by (by rewrite take_insert_lt).
  split; cbn; rewrite ?Et, ?(count_state_insert _ _ _ _ _ Ho); try done; try congruence. by apply Forall_insert.
Qed.

(** The first block of a new entry. *)
Lemma entry_ok_fresh nb bpp b new s f w r :
  (b < nb)%nat -> (nb <= bpp)%nat -> block_ok new -> bi_state new <> state_none ->
  f = is_state (bi_state new) state_finished -> w = is_state (bi_state new) state_writing ->
  r = is_state (bi_state new) state_requested -> (s = none <-> r = 0) ->
  entry_ok nb (Entry s f w r (<[b := new]> (replicate bpp block_info_new))).
Proof.
  intros Hb Hn Hnew Hne Hf Hw Hr Hs.
  assert (take nb (<[b := new]> (replicate bpp block_info_new)) = <[b := new]> (replicate nb block_info_new)) as Et.
  { rewrite take_insert_lt by done. by rewrite take_replicate, Nat.min_l by lia. }
  assert (replicate nb block_info_new !! b = Some block_info_new) as Ho by (by apply lookup_replicate_2).
  split; cbn [e_finished e_writing e_requested e_state e_blocks]; rewrite ?Et, ?(count_state_insert _ _ _ _ _ Ho), ?count_state_fresh; try done.
  - apply Forall_insert; [|done]. apply Forall_replicate. repeat split; done.
  - subst. unfold is_state. by destruct (bi_state new).
Qed.

Lemma entry_block nb e b info : entry_ok nb e -> (b < nb)%nat -> e_blocks e !! b = Some info -> block_ok info.
Proof.
  intros [] Hb He. eapply (Forall_lookup_1 _ _ b); [exact en_blocks0|]. by rewrite lookup_take_lt.
Qed.

(** A counted block has its state. *)
Lemma entry_counts nb e b info :
  entry_ok nb e -> (b < nb)%nat -> e_blocks e !! b = Some info ->
  match bi_state info with
  | state_none => True
  | state_requested => 0 < e_requested e
  | state_writing => 0 < e_writing e
  | state_finished => 0 < e_finished e
  end /\ 0 <= e_requested e /\ 0 <= e_writing e /\ 0 <= e_finished e.
Proof.
  intros [] Hb He. pose proof (count_state_nonneg state_finished (take nb (e_blocks e))).
  pose proof (count_state_nonneg state_writing (take nb (e_blocks e))).
  pose proof (count_state_nonneg state_requested (take nb (e_blocks e))).
  assert (take nb (e_blocks e) !! b = Some info) as Ho by (by rewrite lookup_take_lt).
  split; [|lia]. set (l := take nb (e_blocks e)) in *.
  pose proof (count_state_insert (bi_state info) l b info block_info_new Ho) as Hi.
  pose proof (count_state_nonneg (bi_state info) (<[b := block_info_new]> l)).
  unfold is_state in Hi. rewrite decide_True in Hi by done. destruct (bi_state info); [done|..]; rewrite decide_False in Hi by done; lia.
Qed.

(** ** Flags *)

Definition flag_at (map : list piece_pos) (i : Z) : option (bool * bool) := (fun p => (downloading p, have p)) <$> piece_at map i.

Lemma flag_reindexed map map' i : reindexed map map' -> flag_at map' i = flag_at map i.
Proof.
  intros Hr. unfold flag_at. destruct (piece_at map i) as [p|] eqn:E.
  - destruct (reindexed_lookup _ _ _ _ Hr E) as (q & -> & [n ->] & Hh). cbn. by rewrite Hh.
  - destruct (piece_at map' i) eqn:E'; [|done]. unfold piece_at in *.
    apply lookup_lt_Some in E'. apply lookup_ge_None in E. apply Forall2_length in Hr. lia.
Qed.

Lemma flag_alter g i map x :
  0 <= i -> 0 <= x ->
  flag_at (alter_piece g i map) x =
    if decide (i = x) then (fun p => (downloading (g p), have (g p))) <$> piece_at map i else flag_at map x.
Proof.
  intros Hi Hx. unfold flag_at. rewrite piece_at_alter by done. case_decide; [|done]. by destruct (piece_at map i).
Qed.

(** ** The invariant *)

Record blocks_ok (t : piece_picker) : Prop := {
  bk_store : store_ok t;
  bk_sizes : (0 < num_pieces t)%nat -> (0 < m_blocks_in_last_piece t <= m_blocks_per_piece t)%nat;
  bk_entries : forall i e, view t i = Some e ->
    0 <= i /\ flag_at (m_piece_map t) i = Some (true, false) /\ entry_ok (blocks_in_piece t i) e;
  bk_flags : forall i h, 0 <= i -> flag_at (m_piece_map t) i = Some (true, h) -> is_Some (view t i)
}.

Lemma new_blocks_ok : blocks_ok piece_picker_new.
Proof.
  split; cbn; [split; cbn; [constructor|done|lia]|lia|done|].
  intros i h _. unfold flag_at, piece_at. by rewrite lookup_nil.
Qed.

Lemma blocks_in_piece_le t i : blocks_ok t -> (0 < num_pieces t)%nat -> (0 < blocks_in_piece t i <= m_blocks_per_piece t)%nat.
Proof. intros H Hn. pose proof (bk_sizes t H Hn). unfold blocks_in_piece. destruct (_ =? _); lia. Qed.

(** The download of one piece changes, from whatever it was to [e]. *)
Lemma blocks_ok_change t t0 i (e : option entry) h :
  blocks_ok t0 -> store_ok t -> m_blocks_per_piece t = m_blocks_per_piece t0 ->
  m_blocks_in_last_piece t = m_blocks_in_last_piece t0 -> num_pieces t = num_pieces t0 -> 0 <= i ->
  (forall x, view t x = if decide (x = i) then e else view t0 x) ->
  (forall x, 0 <= x -> x <> i -> flag_at (m_piece_map t) x = flag_at (m_piece_map t0) x) ->
  flag_at (m_piece_map t) i = Some (bool_decide (is_Some e), h) ->
  (forall e', e = Some e' -> h = false /\ entry_ok (blocks_in_piece t i) e') ->
  blocks_ok t.
Proof.
  intros [] Hst Hbpp Hlast Hn Hi Hv Hfl Hfi He. split; [done|by rewrite Hn, Hlast, Hbpp|..].
  - intros x e' Hx. rewrite Hv in Hx. case_decide as E.
    + subst x. destruct (He e' Hx) as [-> Hok]. split_and!; [done| |done]. rewrite Hfi. by rewrite Hx, bool_decide_eq_true_2.
    + destruct (bk_entries0 x e' Hx) as (Hx0 & Hf & Hok). split_and!; [done|by rewrite Hfl|].
      replace (blocks_in_piece t x) with (blocks_in_piece t0 x); [done|]. unfold blocks_in_piece. by rewrite Hn, Hlast, Hbpp.
  - intros x h' Hx Hf. rewrite Hv. case_decide as E.
    + subst x. rewrite Hfi in Hf. injection Hf as Hf _. by apply bool_decide_eq_true in Hf.
    + rewrite Hfl in Hf by done. eauto.
Qed.

(** Nothing that matters to the downloads changes. *)
Definition same_downloads (t t0 : piece_picker) : Prop :=
  m_downloads t = m_downloads t0 /\ m_block_info t = m_block_info t0 /\
  m_blocks_per_piece t = m_blocks_per_piece t0 /\ m_blocks_in_last_piece t = m_blocks_in_last_piece t0 /\
  num_pieces t = num_pieces t0 /\ forall x, 0 <= x -> flag_at (m_piece_map t) x = flag_at (m_piece_map t0) x.

Lemma blocks_ok_same t t0 : blocks_ok t0 -> same_downloads t t0 -> blocks_ok t.
Proof.
  intros [] (H1 & H2 & H3 & H4 & H5 & H6). destruct (view_same t0 t H1 H2 H3) as [Hv Hst].
  assert (forall x, blocks_in_piece t x = blocks_in_piece t0 x) as Hbk by (intros; unfold blocks_in_piece; by rewrite H5, H4, H3).
  split; [by apply Hst|by rewrite H5, H4, H3|..].
  - intros i e Hi. rewrite Hv in Hi. destruct (bk_entries0 i e Hi) as (? & ? & ?). rewrite H6, Hbk by done. done.
  - intros i h Hi. rewrite H6, Hv by done. eauto.
Qed.

Lemma same_downloads_trans t1 t2 t3 : same_downloads t1 t2 -> same_downloads t2 t3 -> same_downloads t1 t3.
Proof.
  intros (A1 & A2 & A3 & A4 & A5 & A6) (B1 & B2 & B3 & B4 & B5 & B6). repeat split; [congruence..|].
  intros x Hx. by rewrite A6, B6.
Qed.

Lemma rebucketed_downloads t t' : rebucketed t t' -> same_downloads t' t.
Proof.
  intros (ps & bs & map & -> & Hre). repeat split; cbn; try done; [by apply Forall2_length in Hre|].
  intros x _. by apply flag_reindexed.
Qed.

(** A change of a piece that keeps its flags. *)
Lemma alter_downloads g i t :
  0 <= i -> (forall p, downloading (g p) = downloading p /\ have (g p) = have p) ->
  same_downloads (with_map (alter_piece g i (m_piece_map t)) t) t.
Proof.
  intros Hi Hg. repeat split; cbn; try done; [apply length_alter_piece|]. intros x Hx. rewrite flag_alter by done.
  case_decide as E; [|done]. subst. unfold flag_at. destruct (piece_at (m_piece_map t) x) as [p|]; [|done]. cbn.
  by destruct (Hg p) as [-> ->].
Qed.

(** ** Possession and filter *)

Definition wanted_at (map : list piece_pos) : list (bool * bool) := (fun p => (have p, filtered p)) <$> map.

(** Nothing that matters to the counters and the cursors changes. *)
Definition same_wanted (t t0 : piece_picker) : Prop :=
  wanted_at (m_piece_map t) = wanted_at (m_piece_map t0) /\
  m_num_filtered t = m_num_filtered t0 /\ m_num_have_filtered t = m_num_have_filtered t0 /\ m_num_have t = m_num_have t0 /\
  m_cursor t = m_cursor t0 /\ m_reverse_cursor t = m_reverse_cursor t0.

Lemma same_wanted_trans t1 t2 t3 : same_wanted t1 t2 -> same_wanted t2 t3 -> same_wanted t1 t3.
Proof. intros (A1 & A2 & A3 & A4 & A5 & A6) (B1 & B2 & B3 & B4 & B5 & B6). repeat split; congruence. Qed.

Lemma wanted_reindexed map map' : reindexed map map' -> wanted_at map' = wanted_at map.
Proof.
  intros Hr. unfold wanted_at. induction Hr as [|p q map map' [[n ->] Hh] _ IH]; cbn; [done|]. by rewrite IH, Hh.
Qed.

Lemma wanted_alter g i map : (forall p, have (g p) = have p /\ filtered (g p) = filtered p) -> wanted_at (alter_piece g i map) = wanted_at map.
Proof.
  intros Hg. unfold wanted_at, alter_piece. apply list_eq. intros k. rewrite !list_lookup_fmap.
  destruct (decide (k = Z.to_nat i)) as [->|]; [rewrite list_lookup_alter_eq|by rewrite list_lookup_alter_ne].
  destruct (map !! _) as [p|]; [|done]. cbn. by destruct (Hg p) as [-> ->].
Qed.

Lemma rebucketed_wanted t t' : rebucketed t t' -> same_wanted t' t.
Proof. intros (ps & bs & map & -> & Hre). repeat split. by apply wanted_reindexed. Qed.

Lemma alter_wanted g i t :
  (forall p, have (g p) = have p /\ filtered (g p) = filtered p) -> same_wanted (with_map (alter_piece g i (m_piece_map t)) t) t.
Proof. intros Hg. repeat split. by apply wanted_alter. Qed.

(** ** Changes of one download *)

(** From [t0] to [t], the download of piece [i] becomes [e]; [h] tells whether
    we have the piece. *)
Record changed (i : Z) (e : option entry) (h : bool) (t0 t : piece_picker) : Prop := {
  ch_store : store_ok t;
  ch_bpp : m_blocks_per_piece t = m_blocks_per_piece t0;
  ch_last : m_blocks_in_last_piece t = m_blocks_in_last_piece t0;
  ch_num : num_pieces t = num_pieces t0;
  ch_view : forall x, view t x = if decide (x = i) then e else view t0 x;
  ch_flags : forall x, 0 <= x -> x <> i -> flag_at (m_piece_map t) x = flag_at (m_piece_map t0) x;
  ch_flag : flag_at (m_piece_map t) i = Some (bool_decide (is_Some e), h);
  ch_wanted : same_wanted t t0
}.

Lemma changed_blocks i e h t0 t x : changed i e h t0 t -> blocks_in_piece t x = blocks_in_piece t0 x.
Proof. intros []. unfold blocks_in_piece. by rewrite ch_num0, ch_last0, ch_bpp0. Qed.

Lemma changed_ok i e h t0 t :
  blocks_ok t0 -> 0 <= i -> changed i e h t0 t ->
  (forall e', e = Some e' -> h = false /\ entry_ok (blocks_in_piece t0 i) e') -> blocks_ok t.
Proof.
  intros H Hi Hc He. pose proof Hc as []. eapply (blocks_ok_change t t0 i e h); try done.
  intros e' E. destruct (He e' E) as [? ?]. split; [done|]. by rewrite (changed_blocks _ _ _ _ _ _ Hc).
Qed.

Lemma changed_trans i e1 h1 e2 h2 t0 t1 t2 :
  changed i e1 h1 t0 t1 -> changed i e2 h2 t1 t2 -> changed i e2 h2 t0 t2.
Proof.
  intros [] []. split; try congruence.
  - intros x. rewrite ch_view1. case_decide; [done|]. by rewrite ch_view0, decide_False.
  - intros x Hx Hne. rewrite ch_flags1, ch_flags0 by done. done.
  - by eapply same_wanted_trans.
Qed.

Lemma changed_same i e h t0 t1 t2 :
  0 <= i -> changed i e h t0 t1 -> same_downloads t2 t1 -> same_wanted t2 t1 -> changed i e h t0 t2.
Proof.
  intros Hi [] (H1 & H2 & H3 & H4 & H5 & H6) Hwa. destruct (view_same t1 t2 H1 H2 H3) as [Hv Hst].
  split; try congruence; [by apply Hst|by intros x; rewrite Hv|intros x Hx Hne; by rewrite H6, ch_flags0|by rewrite H6|].
  by eapply same_wanted_trans.
Qed.

(** The block of a download. *)
Lemma find_block_Some t i b e :
  store_ok t -> view t i = Some e -> (b < m_blocks_per_piece t)%nat ->
  exists j d info, find_block (PieceBlock i b) t = Some (j, d, info) /\ m_downloads t !! j = Some d /\ dp_index d = i /\
    e = entry_of t d /\ e_blocks e !! b = Some info.
Proof.
  intros Hst Hv Hb. pose proof (view_length t i e Hst Hv) as Hl. apply view_Some in Hv as (j & d & Hj & Hd & ->); [|done].
  destruct (lookup_lt_is_Some_2 (e_blocks (entry_of t d)) b) as [info Hi]; [by rewrite Hl|].
  exists j, d, info. split_and!; [|done..]. unfold find_block. cbn [piece_index block_index].
  rewrite (proj2 (find_dl_piece_Some i t j d (st_sorted t Hst)) (conj Hj Hd)). cbn.
  cbn in Hi. rewrite region_lookup in Hi by done. by rewrite Hi.
Qed.

Lemma find_block_inv t b j d info :
  store_ok t -> find_block b t = Some (j, d, info) -> (block_index b < m_blocks_per_piece t)%nat ->
  m_downloads t !! j = Some d /\ dp_index d = piece_index b /\ view t (piece_index b) = Some (entry_of t d) /\
  e_blocks (entry_of t d) !! block_index b = Some info.
Proof.
  intros Hst Hf Hb. unfold find_block in Hf. destruct (find_dl_piece (piece_index b) t) as [[j' d']|] eqn:E; [|done]. cbn in Hf.
  destruct (m_block_info t !! _) as [info'|] eqn:Ei; [|done]. cbn in Hf. injection Hf as -> -> ->.
  apply find_dl_piece_Some in E as [Hj Hd]; [|by apply st_sorted]. split_and!; [done..| |].
  - apply view_Some; [done|]. by exists j, d.
  - cbn. by rewrite region_lookup.
Qed.

(** One block, and the counters and the state of the entry. *)
Lemma changed_entry t j d d' i b x h :
  store_ok t -> m_downloads t !! j = Some d -> dp_index d = i -> dp_index d' = i -> dp_info d' = dp_info d ->
  (b < m_blocks_per_piece t)%nat -> flag_at (m_piece_map t) i = Some (true, h) ->
  changed i (Some (Entry (dp_state d') (dp_finished d') (dp_writing d') (dp_requested d') (<[b := x]> (e_blocks (entry_of t d))))) h
    t (set_dp j d' (set_block (dp_info d + b) x t)).
Proof.
  intros Hst Hj Hd Hd' Ho Hb Hf. split; try done.
  - apply (set_entry_store t j d); congruence || done.
  - intros y. rewrite (set_entry_view t j d) by (congruence || done). by rewrite Hd.
Qed.

(** A new download. *)
Lemma changed_start random i b p t :
  ordered t -> blocks_ok t -> 0 <= i -> piece_at (m_piece_map t) i = Some p -> downloading p = false -> have p = false ->
  let t' := start_piece random (PieceBlock i b) p t in
  ordered t' /\ changed i (Some (fresh_entry (m_blocks_per_piece t))) false t t'.
Proof.
  intros Ho Hb Hi Hp Hd Hh. cbv zeta. unfold start_piece. cbn [piece_index]. set (t1 := with_map _ t).
  pose proof (ordered_piece _ _ _ Ho Hp) as Hw. set (p' := set_downloading true p).
  assert (m_piece_map t1 = alter_piece (fun _ => p') i (m_piece_map t)) as Hm by (by apply alter_piece_const).
  assert (same_order t1 t) as Hso by done.
  assert ((if (0 <=? priority (m_seeds t) p) && negb (m_dirty t1)
           then update random (priority (m_seeds t) p) (Z.to_nat (index p)) t1 else t1) =
    reorder random (priority (m_seeds t) p) (priority (m_seeds t) p') i p t1) as ->.
  { rewrite <- (update_reorder random i p p' t t1); try done; [by destruct (m_dirty t1), (0 <=? _)|].
    rewrite (priority_none _ p), (priority_none _ p') by done. done. }
  destruct (reorder_frame random i p p' t t1) as [Ho2 Hre]; try done. set (t2 := reorder _ _ _ _ _ _) in *.
  pose proof (rebucketed_wanted _ _ Hre) as Hwa. apply rebucketed_downloads in Hre as (D1 & D2 & D3 & D4 & D5 & D6).
  destruct (view_same t t2 D1 D2 D3) as [Hv Hst]. specialize (Hst (bk_store t Hb)).
  assert (i ∉ dp_index <$> m_downloads t2) as Hni.
  { apply view_None; [done|]. rewrite Hv. destruct (view t i) as [e|] eqn:E; [|done].
    destruct (bk_entries t Hb i e E) as (_ & Hf & _). unfold flag_at in Hf. rewrite Hp in Hf. cbn in Hf. congruence. }
  split; [by apply (ordered_same _ t2)|]. split; try done.
  - by apply add_download_store.
  - change (num_pieces (add_download_piece i t2)) with (num_pieces t2). rewrite D5. apply length_alter_piece.
  - intros x. rewrite add_download_view by done. rewrite Hv. by rewrite D3.
  - intros x Hx Hne. change (m_piece_map (add_download_piece i t2)) with (m_piece_map t2). rewrite D6 by done. subst t1. cbn [m_piece_map with_map with_buckets]. rewrite flag_alter by done. by rewrite decide_False.
  - change (m_piece_map (add_download_piece i t2)) with (m_piece_map t2). rewrite D6 by done. subst t1. cbn [m_piece_map with_map with_buckets].
    rewrite flag_alter, decide_True, Hp by done. cbn. by rewrite <- Hh.
  - apply (same_wanted_trans _ t1); [done|]. by apply alter_wanted.
Qed.

(** A download ends. *)
Lemma changed_erase j d i p t :
  store_ok t -> (0 < m_blocks_per_piece t)%nat -> m_downloads t !! j = Some d -> dp_index d = i -> 0 <= i ->
  piece_at (m_piece_map t) i = Some p ->
  changed i None (have p) t (erase_download_piece j t) /\
  same_order (erase_download_piece j t) t /\
  m_piece_map (erase_download_piece j t) = alter_piece (fun _ => set_downloading false p) i (m_piece_map t).
Proof.
  intros Hst Hb Hj Hd Hi Hp. pose proof (erase_download_store t j d Hst Hb Hj) as Hst'.
  pose proof (fun x => erase_download_view t j d Hst Hb Hj x) as Hv.
  assert (m_piece_map (erase_download_piece j t) = alter_piece (set_downloading false) i (m_piece_map t)) as Hm.
  { destruct (erase_download_eq t j d Hst Hb Hj) as (o & other & _ & _ & ->). cbn. by rewrite Hd. }
  destruct (erase_download_eq t j d Hst Hb Hj) as (o & other & _ & _ & E).
  split_and!; [|by rewrite E|by rewrite Hm; apply alter_piece_const]. split.
  - done.
  - by rewrite E.
  - by rewrite E.
  - unfold num_pieces. by rewrite Hm, length_alter_piece.
  - intros x. by rewrite Hv, Hd.
  - intros x Hx Hne. rewrite Hm, flag_alter by done. by rewrite decide_False.
  - rewrite Hm, flag_alter, decide_True, Hp by done. done.
  - rewrite E. repeat split. by apply wanted_alter.
Qed.

Lemma changed_drop random j d i p t :
  ordered t -> store_ok t -> (0 < m_blocks_per_piece t)%nat -> m_downloads t !! j = Some d -> dp_index d = i -> 0 <= i ->
  piece_at (m_piece_map t) i = Some p ->
  ordered (drop_download random j i t) /\ changed i None (have p) t (drop_download random j i t).
Proof.
  intros Ho Hst Hb Hj Hd Hi Hp. destruct (changed_erase j d i p t) as (Hc & Hso & Hm); try done.
  unfold drop_download. rewrite Hp. destruct (reorder_frame random i p (set_downloading false p) t (erase_download_piece j t)) as [Ho' Hre]; try done.
  { by apply (ordered_piece _ _ _ Ho) in Hp. }
  split; [done|]. eapply changed_same; [done|exact Hc|by apply rebucketed_downloads|by apply rebucketed_wanted].
Qed.
