(* ===== verification/PiecePickerMarks.v ===== *)
(** * The block operations refine updates of block states

    Behind entries, counters and compaction, the picker keeps a list of blocks
    for every piece, all new when the piece is not being downloaded ([blocks]).
    [mark_as_downloading], [mark_as_writing], [mark_as_finished],
    [write_failed] and [abort_download] update one block of that list and
    nothing else; [restore_piece] makes all blocks of a piece new. *)

From S2P Require Import Prelude Archive Md4Hash Bitfield PiecePicker PiecePickerBuckets PiecePickerInv PiecePickerUpdate PiecePickerView PiecePickerBlocks.
From stdpp Require Import list.
Open Scope Z_scope.

Definition blocks (t : piece_picker) (i : Z) : list block_info :=
  match view t i with
  | Some e => take (blocks_in_piece t i) (e_blocks e)
  | None => replicate (blocks_in_piece t i) block_info_new
  end.

(** The picker [t'] is [t] with the blocks [l] for piece [i]. *)
Record refines (t : piece_picker) (i : Z) (l : list block_info) (t' : piece_picker) : Prop := {
  rf_ordered : ordered t';
  rf_ok : blocks_ok t';
  rf_blocks : blocks t' i = l;
  rf_other : forall x, x <> i -> blocks t' x = blocks t x;
  rf_wanted : same_wanted t' t
}.

Lemma refines_changed t i e t' :
  blocks_ok t -> 0 <= i -> ordered t' -> changed i (Some e) false t t' -> entry_ok (blocks_in_piece t i) e ->
  refines t i (take (blocks_in_piece t i) (e_blocks e)) t'.
Proof.
  intros Hb Hi Ho Hc He. split; [done| | | |apply Hc].
  - eapply (changed_ok i (Some e) false t); [done..|]. by intros e' [= <-].
  - unfold blocks. by rewrite (ch_view _ _ _ _ _ Hc), decide_True, (changed_blocks _ _ _ _ _ _ Hc).
  - intros x Hx. unfold blocks. by rewrite (ch_view _ _ _ _ _ Hc), decide_False, (changed_blocks _ _ _ _ _ _ Hc).
Qed.

Lemma refines_ended t i h t' :
  blocks_ok t -> 0 <= i -> ordered t' -> changed i None h t t' ->
  refines t i (replicate (blocks_in_piece t i) block_info_new) t'.
Proof.
  intros Hb Hi Ho Hc. split; [done| | | |apply Hc].
  - by eapply (changed_ok i None h t).
  - unfold blocks. by rewrite (ch_view _ _ _ _ _ Hc), decide_True, (changed_blocks _ _ _ _ _ _ Hc).
  - intros x Hx. unfold blocks. by rewrite (ch_view _ _ _ _ _ Hc), decide_False, (changed_blocks _ _ _ _ _ _ Hc).
Qed.

Lemma same_blocks t t' : same_downloads t' t -> forall x, blocks t' x = blocks t x.
Proof.
  intros (H1 & H2 & H3 & H4 & H5 & H6) x. destruct (view_same t t' H1 H2 H3) as [Hv _]. unfold blocks, blocks_in_piece.
  by rewrite Hv, H5, H4, H3.
Qed.

(** [update_full] changes none of this. *)
Lemma update_full_downloads d t : 0 <= dp_index d -> same_downloads (update_full d t) t.
Proof. intros Hd. by apply alter_downloads. Qed.

Lemma update_full_wanted d t : same_wanted (update_full d t) t.
Proof. by apply alter_wanted. Qed.

Lemma refines_update_full t i l d t' : refines t i l t' -> 0 <= dp_index d -> refines t i l (update_full d t').
Proof.
  intros [] Hd. pose proof (update_full_downloads d t' Hd) as Hs. split.
  - by apply update_full_ordered.
  - by eapply blocks_ok_same.
  - by rewrite (same_blocks _ _ Hs).
  - intros x Hx. rewrite (same_blocks _ _ Hs). by apply rf_other0.
  - eapply same_wanted_trans; [apply update_full_wanted|done].
Qed.

(** ** One block of a download *)

Lemma flag_piece map i p : piece_at map i = Some p -> flag_at map i = Some (downloading p, have p).
Proof. intros Hp. unfold flag_at. by rewrite Hp. Qed.

(** [t0] is [t] up to the [full] flags. *)
Lemma refines_entry t t0 j d d' i b old new :
  ordered t0 -> blocks_ok t -> same_downloads t0 t -> same_wanted t0 t ->
  m_downloads t !! j = Some d -> dp_index d = i -> dp_index d' = i -> dp_info d' = dp_info d ->
  (b < blocks_in_piece t i)%nat -> e_blocks (entry_of t d) !! b = Some old -> block_ok new ->
  dp_finished d' = dp_finished d - is_state (bi_state old) state_finished + is_state (bi_state new) state_finished ->
  dp_writing d' = dp_writing d - is_state (bi_state old) state_writing + is_state (bi_state new) state_writing ->
  dp_requested d' = dp_requested d - is_state (bi_state old) state_requested + is_state (bi_state new) state_requested ->
  (dp_state d' = none <-> dp_requested d' = 0) -> 0 < dp_finished d' + dp_writing d' + dp_requested d' ->
  refines t i (<[b := new]> (blocks t i)) (set_dp j d' (set_block (dp_info d + b) new t0)).
Proof.
  intros Ho Hb Hs Hwa Hj Hd Hd' Hoff Hlt Hold Hnew Hf Hw Hr Hst Hbusy.
  assert (view t i = Some (entry_of t d)) as Hv by (apply view_Some; [apply Hb|]; by exists j, d).
  destruct (bk_entries t Hb i _ Hv) as (Hi & Hfl & He).
  assert (0 < num_pieces t)%nat as Hn.
  { unfold flag_at in Hfl. destruct (piece_at (m_piece_map t) i) as [q|] eqn:E; [|done]. apply lookup_lt_Some in E. unfold num_pieces. lia. }
  pose proof (blocks_in_piece_le t i Hb Hn) as Hle. pose proof Hs as (D1 & D2 & D3 & D4 & D5 & D6).
  destruct (view_same t t0 D1 D2 D3) as [Hv0 Hst0].
  assert (entry_of t0 d = entry_of t d) as Ee by (unfold entry_of; by rewrite D2, D3).
  assert (changed i (Some (Entry (dp_state d') (dp_finished d') (dp_writing d') (dp_requested d') (<[b := new]> (e_blocks (entry_of t d))))) false
    t (set_dp j d' (set_block (dp_info d + b) new t0))) as Hc.
  { destruct (changed_entry t0 j d d' i b new false) as []; try done.
    - apply Hst0, Hb.
    - congruence.
    - lia.
    - by rewrite D6.
    - rewrite Ee in ch_view. split; try done; try congruence; intros x; [rewrite ch_view; case_decide; [done|apply Hv0]|].
      intros Hx Hne. rewrite ch_flags by done. by apply D6. }
  replace (<[b := new]> (blocks t i)) with (take (blocks_in_piece t i) (<[b := new]> (e_blocks (entry_of t d)))).
  2:{ unfold blocks. rewrite Hv. by rewrite take_insert_lt. }
  eapply refines_changed in Hc; [exact Hc|done..| |].
  - by apply (ordered_same _ t0).
  - by eapply entry_ok_change.
Qed.

(** The blocks of a piece. *)
Lemma blocks_lookup t i b :
  blocks_ok t -> (0 < num_pieces t)%nat -> (b < blocks_in_piece t i)%nat -> is_Some (blocks t i !! b).
Proof.
  intros Hb Hn Hlt. apply lookup_lt_is_Some_2. pose proof (blocks_in_piece_le t i Hb Hn). unfold blocks.
  destruct (view t i) as [e|] eqn:E; [|by rewrite length_replicate].
  rewrite length_take, (view_length t i e (bk_store t Hb) E). lia.
Qed.

Lemma not_downloading t i p :
  blocks_ok t -> piece_at (m_piece_map t) i = Some p -> downloading p = false ->
  blocks t i = replicate (blocks_in_piece t i) block_info_new /\ view t i = None.
Proof.
  intros Hb Hp Hd. unfold blocks. destruct (view t i) as [e|] eqn:E; [|done].
  destruct (bk_entries t Hb i e E) as (_ & Hf & _). rewrite (flag_piece _ _ _ Hp) in Hf. congruence.
Qed.

Lemma is_downloading t i b p :
  blocks_ok t -> 0 <= i -> piece_at (m_piece_map t) i = Some p -> downloading p = true -> (b < blocks_in_piece t i)%nat ->
  exists j d info, find_block (PieceBlock i b) t = Some (j, d, info) /\ m_downloads t !! j = Some d /\ dp_index d = i /\
    view t i = Some (entry_of t d) /\ e_blocks (entry_of t d) !! b = Some info /\ blocks t i !! b = Some info /\
    entry_ok (blocks_in_piece t i) (entry_of t d) /\ have p = false.
Proof.
  intros Hb Hi Hp Hd Hlt. pose proof (lookup_lt_Some _ _ _ Hp) as Hn.
  destruct (bk_flags t Hb i (have p) Hi) as [e He]; [by rewrite (flag_piece _ _ _ Hp), Hd|].
  destruct (bk_entries t Hb i e He) as (_ & Hf & Hok). rewrite (flag_piece _ _ _ Hp) in Hf. injection Hf as _ Hh.
  pose proof (blocks_in_piece_le t i Hb ltac:(unfold num_pieces; lia)) as Hle.
  destruct (find_block_Some t i b e (bk_store t Hb) He ltac:(lia)) as (j & d & info & F1 & F2 & F3 & -> & F5).
  exists j, d, info. split_and!; try done. unfold blocks. rewrite He. by rewrite lookup_take_lt.
Qed.

(** ** The first block of a piece *)

Lemma refines_start random i b p t :
  ordered t -> blocks_ok t -> 0 <= i -> piece_at (m_piece_map t) i = Some p -> downloading p = false -> have p = false ->
  (b < blocks_in_piece t i)%nat ->
  exists j d, find_block (PieceBlock i b) (start_piece random (PieceBlock i b) p t) = Some (j, d, block_info_new) /\
    dp_index d = i /\ dp_finished d = 0 /\ dp_writing d = 0 /\ dp_requested d = 0 /\
    forall d' new, dp_index d' = i -> dp_info d' = dp_info d -> block_ok new -> bi_state new <> state_none ->
      dp_finished d' = is_state (bi_state new) state_finished -> dp_writing d' = is_state (bi_state new) state_writing ->
      dp_requested d' = is_state (bi_state new) state_requested -> (dp_state d' = none <-> dp_requested d' = 0) ->
      refines t i (<[b := new]> (blocks t i))
        (set_dp j d' (set_block (dp_info d + b) new (start_piece random (PieceBlock i b) p t))).
Proof.
  intros Ho Hb Hi Hp Hd Hh Hlt. pose proof (lookup_lt_Some _ _ _ Hp) as Hn.
  pose proof (blocks_in_piece_le t i Hb ltac:(unfold num_pieces; lia)) as Hle.
  destruct (changed_start random i b p t) as [Ho' Hc]; try done. set (t1 := start_piece random (PieceBlock i b) p t) in *. clearbody t1.
  pose proof (ch_bpp _ _ _ _ _ Hc) as Ebpp. pose proof (ch_store _ _ _ _ _ Hc) as Hst.
  assert (view t1 i = Some (fresh_entry (m_blocks_per_piece t))) as Hv by (by rewrite (ch_view _ _ _ _ _ Hc), decide_True).
  destruct (find_block_Some t1 i b _ Hst Hv ltac:(lia)) as (j & d & info & F1 & F2 & F3 & F4 & F5).
  cbn [fresh_entry e_blocks] in F5. rewrite lookup_replicate_2 in F5 by lia. injection F5 as <-.
  exists j, d. injection F4 as E1 E2 E3 E4 E5. split_and!; try done. intros d' new Hd' Hoff Hnew Hne Hf Hw Hr Hs.
  replace (<[b := new]> (blocks t i)) with
    (take (blocks_in_piece t i) (<[b := new]> (replicate (m_blocks_per_piece t) block_info_new))).
  2:{ rewrite take_insert_lt by done. rewrite take_replicate, Nat.min_l by lia. by destruct (not_downloading t i p) as [-> _]. }
  assert (changed i (Some (Entry (dp_state d') (dp_finished d') (dp_writing d') (dp_requested d')
    (<[b := new]> (replicate (m_blocks_per_piece t) block_info_new)))) false t1 (set_dp j d' (set_block (dp_info d + b) new t1))) as Hc2.
  { rewrite E5. apply changed_entry; try done; [lia|]. by rewrite (ch_flag _ _ _ _ _ Hc). }
  pose proof (changed_trans _ _ _ _ _ _ _ _ Hc Hc2) as Hc3. eapply refines_changed in Hc3; [exact Hc3|done..| |].
  - by apply (ordered_same _ t1).
  - apply entry_ok_fresh; (done || lia).
Qed.

(** Closes the side conditions on the new block and the counters. *)
Ltac block_solve :=
  unfold block_ok, is_state; cbn; repeat split; intros; try (repeat case_decide);
  try match goal with
      | Hn : dp_state ?d = none <-> _, H : dp_state ?d = none |- _ => apply Hn in H
      end;
  try (done || lia || congruence || tauto).

(** ** Requests *)

(** What a request does to a block; [None] when it is refused. *)
Definition requested_block (peer : Z) (b : block_info) : option block_info :=
  match bi_state b with
  | state_none | state_requested => Some (BlockInfo peer (bi_num_peers b + 1) state_requested)
  | _ => None
  end.

Lemma mark_as_downloading_refines random i b peer s p t old :
  ordered t -> blocks_ok t -> 0 <= i -> piece_at (m_piece_map t) i = Some p -> have p = false ->
  (b < blocks_in_piece t i)%nat -> s <> none -> blocks t i !! b = Some old -> bi_num_peers old < 2 ^ 14 - 1 ->
  let '(ret, t') := mark_as_downloading random (PieceBlock i b) peer s t in
  match requested_block peer old with
  | Some new => ret = true /\ refines t i (<[b := new]> (blocks t i)) t'
  | None => ret = false /\ t' = t
  end.
Proof.
  intros Ho Hb Hi Hp Hh Hlt Hs Hold Hpeers. unfold mark_as_downloading. cbn [piece_index block_index]. rewrite Hp.
  destruct (downloading p) eqn:Hd; cbn [negb].
  - destruct (is_downloading t i b p) as (j & d & info & Hf & Hj & Hdi & Hv & Hl & Hl' & Hok & _); try done.
    rewrite Hf. assert (info = old) as -> by congruence. pose proof (entry_block _ _ _ _ Hok Hlt Hl) as (Hr1 & Hr2 & Hr3).
    pose proof (entry_counts _ _ _ _ Hok Hlt Hl) as (Hc & Hc1 & Hc2 & Hc3). pose proof (en_state _ _ Hok) as Hns.
    cbn [entry_of e_requested e_writing e_finished e_state] in *.
    assert (to_uint14 (bi_num_peers old + 1) = bi_num_peers old + 1) as Eu by (unfold to_uint14; apply Z.mod_small; lia).
    unfold requested_block. destruct (bi_state old) eqn:Es; try done; (split; [done|]); rewrite Eu.
    + rewrite (bool_decide_eq_false_2 (state_none = state_requested)) by done. cbn [negb].
      set (d1 := set_counts _ _ _ d). change (dp_info d1) with (dp_info d).
      eapply (refines_entry t (update_full d1 t) j d); try done; rewrite ?Es.
      * apply update_full_ordered; [done|]. cbn. lia.
      * apply update_full_downloads. cbn. lia.
      * apply update_full_wanted.
      * by case_bool_decide.
      * by case_bool_decide.
      * block_solve.
      * case_bool_decide; block_solve.
      * case_bool_decide; block_solve.
      * case_bool_decide; block_solve.
      * case_bool_decide; block_solve.
      * case_bool_decide; block_solve.
    + rewrite (bool_decide_eq_true_2 (state_requested = state_requested)) by done. cbn [negb].
      eapply (refines_entry t t j d); try done; rewrite ?Es.
      all: try (case_bool_decide; block_solve).
      block_solve.
  - destruct (refines_start random i b p t) as (j & d & Hf & Hdi & E1 & E2 & E3 & Hr); try done. rewrite Hf.
    destruct (not_downloading t i p Hb Hp Hd) as [Eb _]. rewrite Eb, lookup_replicate_2 in Hold by done. injection Hold as <-.
    split; [done|]. apply refines_update_full; [|cbn; lia]. apply Hr; try done; block_solve.
Qed.

Lemma refines_refl t i : ordered t -> blocks_ok t -> refines t i (blocks t i) t.
Proof. intros Ho Hb. by split. Qed.

Lemma set_block_dp t j d k x : m_downloads t !! j = Some d -> set_dp j d (set_block k x t) = set_block k x t.
Proof. intros Hj. unfold set_dp, set_block. cbn. by rewrite list_insert_id. Qed.

(** ** Blocks that arrive *)

Definition written_block (peer : Z) (b : block_info) : bool * block_info :=
  match bi_state b with
  | state_none | state_requested => (true, BlockInfo peer 0 state_writing)
  | s => (false, BlockInfo peer (bi_num_peers b) s)
  end.

Lemma mark_as_writing_refines random i b peer p t old :
  ordered t -> blocks_ok t -> 0 <= i -> piece_at (m_piece_map t) i = Some p -> have p = false ->
  (b < blocks_in_piece t i)%nat -> blocks t i !! b = Some old ->
  let '(ret, t') := mark_as_writing random (PieceBlock i b) peer t in
  ret = fst (written_block peer old) /\ refines t i (<[b := snd (written_block peer old)]> (blocks t i)) t'.
Proof.
  intros Ho Hb Hi Hp Hh Hlt Hold. unfold mark_as_writing. cbn [piece_index block_index]. rewrite Hp.
  destruct (downloading p) eqn:Hd; cbn [negb].
  - destruct (is_downloading t i b p) as (j & d & info & Hf & Hj & Hdi & Hv & Hl & Hl' & Hok & _); try done.
    rewrite Hf. assert (info = old) as -> by congruence. pose proof (entry_block _ _ _ _ Hok Hlt Hl) as (Hr1 & Hr2 & Hr3).
    pose proof (entry_counts _ _ _ _ Hok Hlt Hl) as (Hc & Hc1 & Hc2 & Hc3). pose proof (en_state _ _ Hok) as Hns.
    pose proof (en_busy _ _ Hok) as Hbusy.
    cbn [entry_of e_requested e_writing e_finished e_state] in *. unfold written_block.
    destruct (bi_state old) eqn:Es; cbn [fst snd]; (split; [done|]).
    + rewrite bool_decide_eq_false_2 by done. eapply (refines_entry t t j d); try done; rewrite ?Es.
      all: destruct (Z.eqb_spec (dp_requested d) 0); block_solve.
    + rewrite bool_decide_eq_true_2 by done. eapply (refines_entry t t j d); try done; rewrite ?Es.
      all: destruct (Z.eqb_spec (dp_requested d - 1) 0); block_solve.
    + rewrite <- (set_block_dp t j d) by done. eapply (refines_entry t t j d); try done; rewrite ?Es; block_solve.
    + rewrite <- (set_block_dp t j d) by done. eapply (refines_entry t t j d); try done; rewrite ?Es; block_solve.
  - rewrite Hh. destruct (refines_start random i b p t) as (j & d & Hf & Hdi & E1 & E2 & E3 & Hr); try done. rewrite Hf.
    destruct (not_downloading t i p Hb Hp Hd) as [Eb _]. rewrite Eb, lookup_replicate_2 in Hold by done. injection Hold as <-.
    split; [done|]. apply refines_update_full; [|cbn; lia]. apply Hr; try done; block_solve.
Qed.

Definition finished_block (peer : Z) (b : block_info) : block_info :=
  match bi_state b with
  | state_finished => b
  | _ => BlockInfo peer 0 state_finished
  end.

Lemma mark_as_finished_refines random i b peer p t old :
  ordered t -> blocks_ok t -> 0 <= i -> piece_at (m_piece_map t) i = Some p -> have p = false ->
  (b < blocks_in_piece t i)%nat -> blocks t i !! b = Some old -> bi_state old <> state_requested ->
  refines t i (<[b := finished_block peer old]> (blocks t i)) (mark_as_finished random (PieceBlock i b) peer t).
Proof.
  intros Ho Hb Hi Hp Hh Hlt Hold Hreq. unfold mark_as_finished. cbn [piece_index block_index]. rewrite Hp.
  destruct (downloading p) eqn:Hd; cbn [negb].
  - destruct (is_downloading t i b p) as (j & d & info & Hf & Hj & Hdi & Hv & Hl & Hl' & Hok & _); try done.
    rewrite Hf. assert (info = old) as -> by congruence. pose proof (entry_block _ _ _ _ Hok Hlt Hl) as (Hr1 & Hr2 & Hr3).
    pose proof (entry_counts _ _ _ _ Hok Hlt Hl) as (Hc & Hc1 & Hc2 & Hc3). pose proof (en_state _ _ Hok) as Hns.
    cbn [entry_of e_requested e_writing e_finished e_state] in *. unfold finished_block.
    assert (bi_num_peers old = 0) as Hnp by (assert (~ 0 < bi_num_peers old) by tauto; lia).
    destruct (bi_state old) eqn:Es; try done.
    + rewrite !bool_decide_eq_false_2 by done. rewrite Hnp. eapply (refines_entry t t j d); try done; rewrite ?Es; block_solve.
    + rewrite bool_decide_eq_false_2, bool_decide_eq_true_2 by done. rewrite Hnp.
      eapply (refines_entry t t j d); try done; rewrite ?Es; block_solve.
    + rewrite bool_decide_eq_true_2 by done. rewrite list_insert_id by done. by apply refines_refl.
  - rewrite Hh. destruct (refines_start random i b p t) as (j & d & Hf & Hdi & E1 & E2 & E3 & Hr); try done. rewrite Hf.
    destruct (not_downloading t i p Hb Hp Hd) as [Eb _]. rewrite Eb, lookup_replicate_2 in Hold by done. injection Hold as <-.
    cbn [bi_state block_info_new]. rewrite bool_decide_eq_false_2 by done. apply Hr; try done; block_solve.
Qed.

(** ** Blocks that are given back *)

Lemma idle_blocks l :
  Forall block_ok l -> count_state state_finished l + count_state state_writing l + count_state state_requested l = 0 ->
  l = replicate (length l) block_info_new.
Proof.
  intros Hok Hz. pose proof (count_state_nonneg state_finished l). pose proof (count_state_nonneg state_writing l).
  pose proof (count_state_nonneg state_requested l). induction Hok as [|b l (_ & _ & Hb) Hok IH]; [done|]. cbn.
  rewrite !count_state_cons in *. unfold is_state in *.
  pose proof (count_state_nonneg state_finished l). pose proof (count_state_nonneg state_writing l).
  pose proof (count_state_nonneg state_requested l).
  assert (bi_state b = state_none) as E by (destruct (bi_state b); [done|..]; repeat case_decide; congruence || lia).
  rewrite (Hb E) at 1. f_equal. rewrite E in *. repeat (case_decide; [done|]). apply IH; lia.
Qed.

(** The block of a download becomes new, and the entry goes with its last
    block. *)
Section Release.
Context (random : nat) (t : piece_picker) (i : Z) (b j : nat) (d d' : downloading_piece) (p : piece_pos) (old : block_info).
Context (Ho : ordered t) (Hb : blocks_ok t) (Hi : 0 <= i) (Hp : piece_at (m_piece_map t) i = Some p).
Context (Hj : m_downloads t !! j = Some d) (Hd : dp_index d = i) (Hlt : (b < blocks_in_piece t i)%nat).
Context (Hold : e_blocks (entry_of t d) !! b = Some old).
Context (Hd' : dp_index d' = i) (Hoff : dp_info d' = dp_info d).
Context (Hf : dp_finished d' = dp_finished d - is_state (bi_state old) state_finished).
Context (Hw : dp_writing d' = dp_writing d - is_state (bi_state old) state_writing).
Context (Hr : dp_requested d' = dp_requested d - is_state (bi_state old) state_requested).

Abbreviation t1 := (update_full d' (set_dp j d' (set_block (dp_info d + b) block_info_new t))).

Lemma release_last :
  dp_finished d' + dp_writing d' + dp_requested d' = 0 ->
  refines t i (<[b := block_info_new]> (blocks t i)) (drop_download random j i t1).
Proof.
  intros Hz. assert (view t i = Some (entry_of t d)) as Hv by (apply view_Some; [apply Hb|]; by exists j, d).
  destruct (bk_entries t Hb i _ Hv) as (_ & Hfl & Hok). pose proof (lookup_lt_Some _ _ _ Hp) as Hn.
  pose proof (blocks_in_piece_le t i Hb ltac:(unfold num_pieces; lia)) as Hle.
  assert (have p = false) as Hh by (rewrite (flag_piece _ _ _ Hp) in Hfl; congruence).
  assert (same_downloads t1 (set_dp j d' (set_block (dp_info d + b) block_info_new t))) as Hs by (apply update_full_downloads; lia).
  pose proof (update_full_wanted d' (set_dp j d' (set_block (dp_info d + b) block_info_new t))) as Hwa.
  pose proof (changed_entry t j d d' i b block_info_new false (bk_store t Hb) Hj Hd Hd' Hoff ltac:(lia) Hfl) as Hc.
  pose proof (changed_same _ _ _ _ _ _ Hi Hc Hs Hwa) as Hc1.
  assert (ordered t1) as Ho1 by (apply update_full_ordered; [by apply (ordered_same _ t)|lia]).
  assert (exists q, piece_at (m_piece_map t1) i = Some q /\ have q = false) as (q & Hq & Hhq).
  { cbn. rewrite Hd', piece_at_alter, decide_True, Hp by done. eexists. split; [done|]. exact Hh. }
  destruct (changed_drop random j d' i q t1) as [Ho2 Hc2]; try done.
  { apply Hc1. } { cbn. lia. } { cbn. apply list_lookup_insert_eq. by eapply lookup_lt_Some. }
  pose proof (changed_trans _ _ _ _ _ _ _ _ Hc1 Hc2) as Hc3. apply refines_ended in Hc3; try done.
  replace (<[b := block_info_new]> (blocks t i)) with (replicate (blocks_in_piece t i) block_info_new); [done|].
  symmetry. unfold blocks. rewrite Hv. set (l := take _ _).
  assert (l !! b = Some old) as Hl by (subst l; by rewrite lookup_take_lt).
  assert (length l = blocks_in_piece t i) as El.
  { subst l. rewrite length_take, (view_length t i _ (bk_store t Hb) Hv). lia. }
  rewrite <- El, <- (length_insert l b block_info_new). apply idle_blocks.
  - apply Forall_insert; [apply Hok|]. by repeat split.
  - rewrite !(count_state_insert _ _ _ _ _ Hl). subst l. rewrite <- (en_finished _ _ Hok), <- (en_writing _ _ Hok), <- (en_requested _ _ Hok).
    cbn [entry_of e_finished e_writing e_requested bi_state block_info_new]. unfold is_state at 2 4 6. repeat (rewrite decide_False by done). lia.
Qed.

Lemma release_other :
  0 < dp_finished d' + dp_writing d' + dp_requested d' -> (dp_state d' = none <-> dp_requested d' = 0) ->
  refines t i (<[b := block_info_new]> (blocks t i)) t1.
Proof.
  intros Hbusy Hst. apply refines_update_full; [|lia].
  apply (refines_entry t t j d d' i b old); try done; match goal with |- context [is_state (bi_state block_info_new) ?s] => change (is_state (bi_state block_info_new) s) with 0 end; lia.
Qed.
End Release.

Lemma write_failed_refines random i b p t old :
  ordered t -> blocks_ok t -> 0 <= i -> piece_at (m_piece_map t) i = Some p -> downloading p = true ->
  (b < blocks_in_piece t i)%nat -> blocks t i !! b = Some old -> bi_state old = state_writing ->
  refines t i (<[b := block_info_new]> (blocks t i)) (write_failed random (PieceBlock i b) t).
Proof.
  intros Ho Hb Hi Hp Hd Hlt Hold Es.
  destruct (is_downloading t i b p) as (j & d & info & Hf & Hj & Hdi & Hv & Hl & Hl' & Hok & _); try done.
  assert (info = old) as -> by congruence. pose proof (entry_block _ _ _ _ Hok Hlt Hl) as (Hr1 & Hr2 & Hr3).
  pose proof (entry_counts _ _ _ _ Hok Hlt Hl) as (Hc & Hc1 & Hc2 & Hc3). pose proof (en_state _ _ Hok) as Hns.
  cbn [entry_of e_requested e_writing e_finished e_state] in *. rewrite Es in *.
  assert (bi_num_peers old = 0) as Hnp by (assert (~ 0 < bi_num_peers old) by (intros ?%Hr2; done); lia).
  unfold write_failed. rewrite Hf, Es, Hnp. cbn [piece_index block_index].
  rewrite bool_decide_eq_false_2, bool_decide_eq_true_2 by done. set (d' := set_counts _ _ _ d).
  change (BlockInfo 0 0 state_none) with block_info_new. change (dp_info d' + b)%nat with (dp_info d + b)%nat.
  destruct (Z.eqb_spec (dp_finished d' + dp_writing d' + dp_requested d') 0) as [Hz|Hnz].
  - eapply (release_last random t i b j d d' p old); try done; rewrite Es; subst d'; block_solve.
  - eapply (release_other t i b j d d' old); try done; rewrite ?Es; subst d'; cbn in *; block_solve.
Qed.

(** What a peer that gives up leaves of a block. *)
Definition aborted_block (peer : Z) (b : block_info) : block_info :=
  match bi_state b with
  | state_requested =>
      if 1 <? bi_num_peers b
      then BlockInfo (if bi_peer b =? peer then 0 else bi_peer b) (bi_num_peers b - 1) state_requested
      else block_info_new
  | _ => b
  end.

Lemma abort_download_refines random i b peer p t old :
  ordered t -> blocks_ok t -> 0 <= i -> piece_at (m_piece_map t) i = Some p ->
  (b < blocks_in_piece t i)%nat -> blocks t i !! b = Some old ->
  refines t i (<[b := aborted_block peer old]> (blocks t i)) (abort_download random (PieceBlock i b) peer t).
Proof.
  intros Ho Hb Hi Hp Hlt Hold. unfold abort_download. cbn [piece_index block_index]. rewrite Hp. destruct (downloading p) eqn:Hd; cbn [negb].
  2:{ destruct (not_downloading t i p Hb Hp Hd) as [Eb _]. rewrite Eb, lookup_replicate_2 in Hold by done. injection Hold as <-.
      cbn [aborted_block bi_state block_info_new]. rewrite list_insert_id by (rewrite Eb; by apply lookup_replicate_2).
      destruct (find_block _ _) as [[[? ?] ?]|]; by apply refines_refl. }
  destruct (is_downloading t i b p) as (j & d & info & Hf & Hj & Hdi & Hv & Hl & Hl' & Hok & _); try done.
  assert (info = old) as -> by congruence. pose proof (entry_block _ _ _ _ Hok Hlt Hl) as (Hr1 & Hr2 & Hr3).
  pose proof (entry_counts _ _ _ _ Hok Hlt Hl) as (Hc & Hc1 & Hc2 & Hc3). pose proof (en_state _ _ Hok) as Hns.
  pose proof (en_busy _ _ Hok) as Hbusy.
  cbn [entry_of e_requested e_writing e_finished e_state] in *. rewrite Hf. unfold aborted_block.
  destruct (bi_state old) eqn:Es; try (rewrite list_insert_id by done; by apply refines_refl).
  assert (0 < bi_num_peers old) as Hpos by (by apply Hr2). rewrite (proj2 (Z.ltb_lt _ _) Hpos).
  destruct (Z.ltb_spec 1 (bi_num_peers old)) as [Hmany|Hone].
  - rewrite (proj2 (Z.ltb_lt 0 (bi_num_peers old - 1))) by lia. rewrite <- (set_block_dp t j d) by done.
    eapply (refines_entry t t j d); try done; rewrite ?Es; block_solve.
  - assert (bi_num_peers old = 1) as -> by lia. change (0 <? 1 - 1) with false. cbv iota. set (d' := set_counts _ _ _ d).
    change (BlockInfo 0 (1 - 1) state_none) with block_info_new.
    destruct (Z.eqb_spec (dp_requested d' + dp_finished d' + dp_writing d') 0) as [Hz|Hnz].
    + eapply (release_last random t i b j d d' p old); try done; rewrite ?Es; subst d'; cbn in *; block_solve.
    + destruct (Z.eqb_spec (dp_requested d') 0) as [Hz0|Hnz0].
      * assert (set_dp j (set_dp_state none d') (update_full d' (set_dp j d' (set_block (dp_info d + b) block_info_new t))) =
          update_full (set_dp_state none d') (set_dp j (set_dp_state none d') (set_block (dp_info d + b) block_info_new t))) as ->.
        { unfold set_dp, update_full, set_block, with_map, with_downloads, with_buckets. cbn. by rewrite list_insert_insert_eq. }
        eapply (release_other t i b j d (set_dp_state none d') old); try done; rewrite ?Es; subst d'; cbn in *; block_solve.
      * eapply (release_other t i b j d d' old); try done; rewrite ?Es; subst d'; cbn in *; block_solve.
Qed.

(** ** Whole pieces *)

Lemma restore_piece_refines random i p t :
  ordered t -> blocks_ok t -> 0 <= i -> piece_at (m_piece_map t) i = Some p ->
  refines t i (replicate (blocks_in_piece t i) block_info_new) (restore_piece random i t).
Proof.
  intros Ho Hb Hi Hp. unfold restore_piece. pose proof (lookup_lt_Some _ _ _ Hp) as Hn.
  pose proof (blocks_in_piece_le t i Hb ltac:(unfold num_pieces; lia)) as Hle.
  destruct (find_dl_piece i t) as [[j d]|] eqn:Ef.
  - apply find_dl_piece_Some in Ef as [Hj Hd]; [|apply Hb]. destruct (changed_drop random j d i p t) as [Ho' Hc]; try done; [apply Hb|lia|].
    by eapply refines_ended.
  - replace (replicate (blocks_in_piece t i) block_info_new) with (blocks t i); [by apply refines_refl|].
    unfold blocks, view. by rewrite Ef.
Qed.

Definition cleared_block (peer : Z) (b : block_info) : block_info :=
  if bi_peer b =? peer then BlockInfo 0 (bi_num_peers b) (bi_state b) else b.

Lemma cleared_ok peer b : block_ok b -> block_ok (cleared_block peer b).
Proof.
  unfold cleared_block, block_ok. destruct (_ =? _); [|done]. cbn. intros (H1 & H2 & H3). split_and!; [lia|lia|done|].
  intros E. by rewrite (H3 E).
Qed.

Lemma count_state_cleared s peer l : count_state s (cleared_block peer <$> l) = count_state s l.
Proof.
  induction l as [|b l IH]; [done|]. cbn. rewrite !count_state_cons, IH. f_equal. unfold cleared_block. by destruct (_ =? _).
Qed.
