(* ===== verification/PiecePickerCounts.v ===== *)
(** * Counters and cursors of the piece picker

    [m_num_have], [m_num_filtered] and [m_num_have_filtered] count the pieces;
    [m_cursor] is the first piece that we neither have nor filter,
    [m_reverse_cursor] one past the last. *)

From S2P Require Import Prelude Archive Md4Hash Bitfield PiecePicker PiecePickerBuckets PiecePickerInv PiecePickerUpdate PiecePickerView PiecePickerBlocks.
From stdpp Require Import list.
Open Scope Z_scope.

(** ** Cursors over a list of flags *)

Record cursor_ok (l : list bool) (c : nat) : Prop := {
  cu_le : (c <= length l)%nat;
  cu_before : forall j, (j < c)%nat -> l !! j = Some true;
  cu_at : c = length l \/ l !! c = Some false
}.

Record rcursor_ok (l : list bool) (rc : nat) : Prop := {
  rc_le : (rc <= length l)%nat;
  rc_after : forall j, (rc <= j < length l)%nat -> l !! j = Some true;
  rc_at : rc = 0%nat \/ l !! (rc - 1)%nat = Some false
}.

Definition skips (map : list piece_pos) : list bool := skipped <$> map.

Lemma skip_count_spec map : cursor_ok (skips map) (skip_count map).
Proof.
  induction map as [|p map [IH1 IH2 IH3]]; [split; cbn; [lia|lia|by left]|].
  change (skips (p :: map)) with (skipped p :: skips map). cbn [skip_count]. destruct (skipped p) eqn:E.
  - split; cbn [length]; [lia| |destruct IH3 as [->|]; [by left|by right]].
    intros [|j] Hj; [done|]. apply IH2. lia.
  - split; cbn [length]; [lia|lia|by right].
Qed.

(** The forward loop, from any place behind which everything is skipped. *)
Lemma cursor_from_ok c map l :
  (c <= length map)%nat -> length l = length map -> (forall j, (j < c)%nat -> l !! j = Some true) ->
  (forall j, (c <= j)%nat -> l !! j = skips map !! j) -> cursor_ok l (cursor_from c map).
Proof.
  intros Hc Hlen Hb Hsame. unfold cursor_from. destruct (skip_count_spec (drop c map)) as [H1 H2 H3].
  unfold skips in H1, H2, H3. rewrite fmap_drop in *. rewrite length_drop, length_fmap in *. split.
  - lia.
  - intros j Hj. destruct (decide (j < c)%nat); [by apply Hb|]. rewrite Hsame by lia.
    specialize (H2 (j - c)%nat ltac:(lia)). rewrite lookup_drop in H2. by replace (c + (j - c))%nat with j in H2 by lia.
  - destruct H3 as [E|E]; [left; lia|right]. rewrite lookup_drop in E. by rewrite Hsame by lia.
Qed.

Lemma reverse_cursor_from_ok rc map l :
  (rc <= length map)%nat -> length l = length map -> (forall j, (rc <= j < length l)%nat -> l !! j = Some true) ->
  (forall j, (j < rc)%nat -> l !! j = skips map !! j) -> rcursor_ok l (reverse_cursor_from rc map).
Proof.
  intros Hc Hlen Hb Hsame. unfold reverse_cursor_from. destruct (skip_count_spec (reverse (take rc map))) as [H1 H2 H3].
  assert (forall j, (j < rc)%nat -> skips (reverse (take rc map)) !! j = skips map !! (rc - S j)%nat) as Hl.
  { intros j Hj. unfold skips. rewrite fmap_reverse, reverse_lookup by (rewrite length_fmap, length_take; lia).
    rewrite length_fmap, length_take, Nat.min_l, fmap_take by done. by rewrite lookup_take_lt by lia. }
  unfold skips in H1, H3 at 1. rewrite length_fmap, length_reverse, length_take, Nat.min_l in H1, H3 by done.
  set (k := skip_count _) in *. split.
  - lia.
  - intros j Hj. destruct (decide (rc <= j)%nat); [apply Hb; lia|]. rewrite Hsame by lia.
    specialize (H2 (rc - S j)%nat ltac:(lia)). rewrite Hl in H2 by lia. by replace (rc - S (rc - S j))%nat with j in H2 by lia.
  - destruct H3 as [E|E]; [left; lia|]. destruct (decide (k = rc)); [left; lia|right]. rewrite Hl in E by lia.
    rewrite Hsame by lia. by replace (rc - k - 1)%nat with (rc - S k)%nat by lia.
Qed.

Lemma cursor_unique l c c' : cursor_ok l c -> cursor_ok l c' -> c = c'.
Proof.
  assert (forall c c', cursor_ok l c -> cursor_ok l c' -> (c < c')%nat -> False) as H.
  { intros x y [H1 H2 H3] [G1 G2 G3] Hlt. specialize (G2 x Hlt). destruct H3 as [->|H3]; [lia|congruence]. }
  intros Hc Hc'. destruct (lt_eq_lt_dec c c') as [[?|?]|?]; [exfalso; eauto|done|exfalso; eauto].
Qed.

Lemma rcursor_unique l c c' : rcursor_ok l c -> rcursor_ok l c' -> c = c'.
Proof.
  assert (forall c c', rcursor_ok l c -> rcursor_ok l c' -> (c < c')%nat -> False) as H.
  { intros x y [H1 H2 H3] [G1 G2 G3] Hlt. destruct G3 as [->|G3]; [lia|]. rewrite H2 in G3 by lia. done. }
  intros Hc Hc'. destruct (lt_eq_lt_dec c c') as [[?|?]|?]; [exfalso; eauto|done|exfalso; eauto].
Qed.

(** The cursors enclose what is left. *)
Lemma cursors_enclose l c rc i : cursor_ok l c -> rcursor_ok l rc -> l !! i = Some false -> (c <= i < rc)%nat.
Proof.
  intros [H1 H2 H3] [G1 G2 G3] Hi. pose proof (lookup_lt_Some _ _ _ Hi). split.
  - destruct (decide (c <= i)%nat); [done|]. rewrite H2 in Hi by lia. done.
  - destruct (decide (i < rc)%nat); [done|]. rewrite G2 in Hi by lia. done.
Qed.

(** ** One flag changes *)

(** Piece [i] need no longer be downloaded: [cursors_done]. *)
Lemma cursors_done_ok l c rc i map t :
  cursor_ok l c -> rcursor_ok l rc -> l !! i = Some false -> length l = length map ->
  (forall j, j <> i -> skips map !! j = l !! j) -> m_cursor t = c -> m_reverse_cursor t = rc ->
  cursor_ok (<[i := true]> l) (m_cursor (cursors_done i map t)) /\
  rcursor_ok (<[i := true]> l) (m_reverse_cursor (cursors_done i map t)).
Proof.
  intros Hc Hr Hi Hlen Hmap Ec Er. pose proof (cursors_enclose l c rc i Hc Hr Hi) as Hin. pose proof (lookup_lt_Some _ _ _ Hi) as Hlt.
  destruct Hc as [H1 H2 H3], Hr as [G1 G2 G3].
  assert (forall j, j <> i -> <[i := true]> l !! j = l !! j) as Hne by (intros; by apply list_lookup_insert_ne).
  assert (<[i := true]> l !! i = Some true) as Heq by (by apply list_lookup_insert_eq).
  assert (length (<[i := true]> l) = length l) as Hl by apply length_insert.
  assert (forall j, (j < c)%nat -> <[i := true]> l !! j = Some true) as K1 by (intros; rewrite Hne by lia; auto).
  assert (forall j, (rc <= j < length l)%nat -> <[i := true]> l !! j = Some true) as K2 by (intros; rewrite Hne by lia; auto).
  unfold cursors_done. rewrite Ec, Er. destruct (Nat.eqb_spec rc (S c)) as [E1|N1]; cbn [andb]; destruct (Nat.eqb_spec c i) as [E2|N2];
    cbn [m_cursor m_reverse_cursor with_cursors].
  - split; split; rewrite ?Hl; try lia.
    + intros j Hj. destruct (lt_eq_lt_dec j i) as [[?| ->]|?]; [apply K1; lia|done|apply K2; lia].
    + intros j Hj. destruct (lt_eq_lt_dec j i) as [[?| ->]|?]; [apply K1; lia|done|apply K2; lia].
  - lia.
  - split.
    + apply cursor_from_ok; [lia|lia| |intros j Hj; rewrite Hne by lia; symmetry; apply Hmap; lia].
      intros j Hj. destruct (decide (j = i)) as [->|]; [done|]. apply K1. lia.
    + split; rewrite ?Hl; [done..|]. destruct G3 as [->|G3]; [by left|right]. rewrite Hne by lia. done.
  - destruct (Nat.eqb_spec rc (S i)) as [E3|N3]; cbn [m_cursor m_reverse_cursor with_cursors]; rewrite ?Ec, ?Er.
    + split.
      * split; rewrite ?Hl; [done..|]. destruct H3 as [->|H3]; [by left|right]. by rewrite Hne.
      * apply reverse_cursor_from_ok; [lia|lia| |intros j Hj; rewrite Hne by lia; symmetry; apply Hmap; lia].
        rewrite Hl. intros j Hj. destruct (decide (j = i)) as [->|]; [done|]. apply K2. lia.
    + split; split; rewrite ?Hl; try done.
      * destruct H3 as [->|H3]; [by left|right]. by rewrite Hne.
      * destruct G3 as [->|G3]; [by left|right]. by rewrite Hne by lia.
Qed.

(** Piece [i] is to be downloaded again: [cursors_wanted]. *)
Lemma cursors_wanted_ok l c rc i t :
  cursor_ok l c -> rcursor_ok l rc -> (i < length l)%nat -> num_pieces t = length l ->
  m_cursor t = c -> m_reverse_cursor t = rc ->
  cursor_ok (<[i := false]> l) (m_cursor (cursors_wanted i t)) /\
  rcursor_ok (<[i := false]> l) (m_reverse_cursor (cursors_wanted i t)).
Proof.
  intros [H1 H2 H3] [G1 G2 G3] Hlt Hn Ec Er.
  assert (forall j, j <> i -> <[i := false]> l !! j = l !! j) as Hne by (intros; by apply list_lookup_insert_ne).
  assert (<[i := false]> l !! i = Some false) as Heq by (by apply list_lookup_insert_eq).
  assert (length (<[i := false]> l) = length l) as Hl by apply length_insert.
  assert (rc = 0%nat \/ (c < rc)%nat) as Hcr.
  { destruct (decide (rc = 0%nat)); [by left|right]. destruct G3 as [G3|G3]; [done|]. destruct (decide (c < rc)%nat); [done|]. rewrite H2 in G3 by lia. done. }
  unfold cursors_wanted. rewrite Ec, Er. set (c' := if (_ <? _)%nat then _ else _). set (rc' := if (_ <=? _)%nat then _ else _).
  assert (c' = Nat.min i c /\ rc' = Nat.max (S i) rc) as [Ec' Er'].
  { subst c' rc'. destruct (Nat.ltb_spec i c), (Nat.leb_spec rc i); lia. }
  rewrite (proj2 (Nat.eqb_neq rc' c')) by lia. cbn. split; split; rewrite ?Hl, ?Ec', ?Er'; try lia.
  - intros j Hj. rewrite Hne by lia. apply H2. lia.
  - destruct (decide (i <= c)%nat); [right; by replace (Nat.min i c) with i by lia|].
    replace (Nat.min i c) with c by lia. destruct H3 as [H3|H3]; [lia|right]. by rewrite Hne by lia.
  - intros j Hj. rewrite Hne by lia. apply G2. lia.
  - right. destruct (decide (rc <= S i)%nat); [by replace (Nat.max (S i) rc - 1)%nat with i by lia|].
    replace (Nat.max (S i) rc) with rc by lia. destruct G3 as [G3|G3]; [lia|]. by rewrite Hne by lia.
Qed.

(** ** Counters *)

Definition count_if (f : bool * bool -> bool) (w : list (bool * bool)) : Z := Z.of_nat (length (List.filter f w)).

Definition w_have (w : bool * bool) : bool := fst w.
Definition w_filtered (w : bool * bool) : bool := snd w && negb (fst w).
Definition w_have_filtered (w : bool * bool) : bool := snd w && fst w.
Definition w_skipped (w : bool * bool) : bool := fst w || snd w.

Lemma count_if_cons f x w : count_if f (x :: w) = Z.b2z (f x) + count_if f w.
Proof. unfold count_if. cbn. destruct (f x); cbn [length Z.b2z]; lia. Qed.

Lemma count_if_insert f w i old new :
  w !! i = Some old -> count_if f (<[i := new]> w) = count_if f w - Z.b2z (f old) + Z.b2z (f new).
Proof.
  revert i. induction w as [|x w IH]; intros [|i] Hi; try done; cbn in Hi.
  - injection Hi as ->. change (<[0%nat := new]> (old :: w)) with (new :: w). rewrite !count_if_cons. lia.
  - change (<[S i := new]> (x :: w)) with (x :: <[i := new]> w). rewrite !count_if_cons, (IH i Hi). lia.
Qed.

Lemma skips_wanted map : skips map = w_skipped <$> wanted_at map.
Proof. unfold skips, wanted_at. rewrite <- list_fmap_compose. done. Qed.

Record counts_ok (t : piece_picker) : Prop := {
  ct_have : m_num_have t = count_if w_have (wanted_at (m_piece_map t));
  ct_filtered : m_num_filtered t = count_if w_filtered (wanted_at (m_piece_map t));
  ct_have_filtered : m_num_have_filtered t = count_if w_have_filtered (wanted_at (m_piece_map t));
  ct_cursor : cursor_ok (skips (m_piece_map t)) (m_cursor t);
  ct_reverse : rcursor_ok (skips (m_piece_map t)) (m_reverse_cursor t)
}.

Lemma counts_ok_same t t0 : counts_ok t0 -> same_wanted t t0 -> counts_ok t.
Proof.
  intros [] (H1 & H2 & H3 & H4 & H5 & H6). split; rewrite ?skips_wanted in *; rewrite ?H1, ?H2, ?H3, ?H4, ?H5, ?H6; done.
Qed.

Lemma new_counts_ok : counts_ok piece_picker_new.
Proof. split; cbn; try done; split; cbn; try lia; by left. Qed.

Lemma wanted_update i p p' map :
  piece_at map i = Some p ->
  wanted_at (alter_piece (fun _ => p') i map) = <[Z.to_nat i := (have p', filtered p')]> (wanted_at map) /\
  skips (alter_piece (fun _ => p') i map) = <[Z.to_nat i := skipped p']> (skips map) /\
  wanted_at map !! Z.to_nat i = Some (have p, filtered p) /\ skips map !! Z.to_nat i = Some (skipped p).
Proof.
  intros Hp. unfold piece_at in Hp. pose proof (lookup_lt_Some _ _ _ Hp) as Hlt.
  assert (forall A (f : piece_pos -> A), f <$> alter_piece (fun _ => p') i map = <[Z.to_nat i := f p']> (f <$> map)) as Hf.
  { intros A f. apply list_eq. intros k. unfold alter_piece. rewrite list_lookup_fmap. destruct (decide (k = Z.to_nat i)) as [->|].
    - rewrite list_lookup_alter_eq, Hp, list_lookup_insert_eq by (by rewrite length_fmap). done.
    - by rewrite list_lookup_alter_ne, list_lookup_insert_ne, list_lookup_fmap. }
  unfold wanted_at, skips. rewrite !Hf, !list_lookup_fmap, Hp. done.
Qed.

(** The piece at [i] becomes [p']; counters and cursors follow. *)
Lemma counts_ok_change i p p' t t0 :
  counts_ok t0 -> piece_at (m_piece_map t0) i = Some p -> m_piece_map t = alter_piece (fun _ => p') i (m_piece_map t0) ->
  m_num_have t = m_num_have t0 - Z.b2z (have p) + Z.b2z (have p') ->
  m_num_filtered t = m_num_filtered t0 - Z.b2z (filtered p && negb (have p)) + Z.b2z (filtered p' && negb (have p')) ->
  m_num_have_filtered t = m_num_have_filtered t0 - Z.b2z (filtered p && have p) + Z.b2z (filtered p' && have p') ->
  cursor_ok (<[Z.to_nat i := skipped p']> (skips (m_piece_map t0))) (m_cursor t) ->
  rcursor_ok (<[Z.to_nat i := skipped p']> (skips (m_piece_map t0))) (m_reverse_cursor t) -> counts_ok t.
Proof.
  intros [] Hp Hm H1 H2 H3 H4 H5. destruct (wanted_update i p p' _ Hp) as (W1 & W2 & W3 & W4).
  split; rewrite Hm, ?W1, ?W2, ?(count_if_insert _ _ _ _ _ W3); try done.
  - by rewrite H1, ct_have0.
  - by rewrite H2, ct_filtered0.
  - by rewrite H3, ct_have_filtered0.
Qed.

(** A piece that was skipped already does not move the cursors. *)
Lemma cursors_done_skipped l i map t :
  cursor_ok l (m_cursor t) -> rcursor_ok l (m_reverse_cursor t) -> l !! i = Some true -> cursors_done i map t = t.
Proof.
  intros [H1 H2 H3] [G1 G2 G3] Hi. pose proof (lookup_lt_Some _ _ _ Hi). unfold cursors_done.
  destruct (Nat.eqb_spec (m_cursor t) i) as [E|_]; [rewrite E in *; destruct H3; [lia|congruence]|]. rewrite andb_false_r.
  destruct (Nat.eqb_spec (m_reverse_cursor t) (S i)) as [E|_]; [|done]. rewrite E in *. cbn in G3. rewrite Nat.sub_0_r in G3.
  destruct G3; [lia|congruence].
Qed.

Lemma insert_same_flag (l : list bool) i x : l !! i = Some x -> <[i := x]> l = l.
Proof. apply list_insert_id. Qed.

(** Both cases of [cursors_done]: piece [i], now skipped. *)
Lemma cursors_done_counts i p map t0 t :
  counts_ok t0 -> piece_at (m_piece_map t0) i = Some p -> length map = length (m_piece_map t0) ->
  (forall j, j <> Z.to_nat i -> skips map !! j = skips (m_piece_map t0) !! j) ->
  m_cursor t = m_cursor t0 -> m_reverse_cursor t = m_reverse_cursor t0 ->
  cursor_ok (<[Z.to_nat i := true]> (skips (m_piece_map t0))) (m_cursor (cursors_done (Z.to_nat i) map t)) /\
  rcursor_ok (<[Z.to_nat i := true]> (skips (m_piece_map t0))) (m_reverse_cursor (cursors_done (Z.to_nat i) map t)).
Proof.
  intros [] Hp Hlen Hmap Ec Er. destruct (wanted_update i p p _ Hp) as (_ & _ & _ & W4).
  destruct (skipped p).
  - rewrite (cursors_done_skipped (skips (m_piece_map t0))) by (congruence || done). rewrite insert_same_flag by done. by rewrite Ec, Er.
  - eapply cursors_done_ok; try done. unfold skips. by rewrite length_fmap.
Qed.

Lemma cursors_done_fields i map t :
  m_num_have (cursors_done i map t) = m_num_have t /\ m_num_filtered (cursors_done i map t) = m_num_filtered t /\
  m_num_have_filtered (cursors_done i map t) = m_num_have_filtered t.
Proof. unfold cursors_done. repeat case_match; done. Qed.

Lemma cursors_wanted_fields i t :
  m_num_have (cursors_wanted i t) = m_num_have t /\ m_num_filtered (cursors_wanted i t) = m_num_filtered t /\
  m_num_have_filtered (cursors_wanted i t) = m_num_have_filtered t.
Proof. unfold cursors_wanted. case_match; done. Qed.

(** ** Having pieces *)

Lemma skips_alter_other i (g : piece_pos -> piece_pos) map j : j <> Z.to_nat i -> skips (alter_piece g i map) !! j = skips map !! j.
Proof. intros Hj. unfold skips, alter_piece. rewrite !list_lookup_fmap. by rewrite list_lookup_alter_ne. Qed.

Lemma mark_have_counts i p t :
  counts_ok t -> 0 <= i -> piece_at (m_piece_map t) i = Some p -> have p = false -> counts_ok (mark_have i p t).
Proof.
  intros Hc Hi Hp Hh. destruct (mark_have_same i p t) as [_ Hm]. rewrite (alter_piece_const _ _ p) in Hm by done.
  unfold mark_have in *. cbv zeta in *. set (t1 := if filtered p then _ else _) in *. set (t2 := with_map _ t1) in *.
  assert (m_piece_map t2 = alter_piece set_have i (m_piece_map t)) as Hm2 by (subst t2 t1; by destruct (filtered p)).
  assert (m_cursor t2 = m_cursor t /\ m_reverse_cursor t2 = m_reverse_cursor t) as [Ec Er] by (subst t2 t1; by destruct (filtered p)).
  destruct (cursors_done_fields (Z.to_nat i) (m_piece_map t2) t2) as (F1 & F2 & F3).
  destruct (cursors_done_counts i p (m_piece_map t2) t t2) as [K1 K2]; try done.
  { by rewrite Hm2, length_alter_piece. } { rewrite Hm2. apply skips_alter_other. }
  assert (skipped (set_have p) = true) as Es by done.
  apply (counts_ok_change i p (set_have p) _ t); try done; rewrite ?Es; try done; rewrite ?F1, ?F2, ?F3, Hh;
    subst t2 t1; change (have (set_have p)) with true; change (filtered (set_have p)) with (filtered p);
    destruct (filtered p); cbn; lia.
Qed.

(** A piece we had is missing again. *)
Definition unmark_have (i : Z) (p : piece_pos) (t : piece_picker) : piece_picker :=
  let t := if filtered p
           then with_counts (m_num_filtered t + 1) (m_num_have_filtered t - 1) (m_num_have t) t
           else cursors_wanted (Z.to_nat i) t in
  let t := with_counts (m_num_filtered t) (m_num_have_filtered t) (m_num_have t - 1) t in
  with_map (alter_piece (fun _ => set_not_have p) i (m_piece_map t)) t.

Lemma unmark_have_same i p t :
  same_order (unmark_have i p t) t /\ m_piece_map (unmark_have i p t) = alter_piece (fun _ => set_not_have p) i (m_piece_map t).
Proof.
  unfold unmark_have. cbv zeta. set (t1 := if filtered p then _ else _).
  assert (same_order t1 t /\ m_piece_map t1 = m_piece_map t) as [Hso Hm].
  { subst t1. destruct (filtered p); [done|]. apply cursors_wanted_same. }
  split; [done|]. cbn. by rewrite Hm.
Qed.

Lemma unmark_have_counts i p t :
  counts_ok t -> 0 <= i -> piece_at (m_piece_map t) i = Some p -> have p = true -> counts_ok (unmark_have i p t).
Proof.
  intros Hc Hi Hp Hh. destruct (unmark_have_same i p t) as [_ Hm]. pose proof Hc as [].
  destruct (wanted_update i p (set_not_have p) _ Hp) as (W1 & W2 & W3 & W4).
  assert (skipped (set_not_have p) = filtered p) as Es by done. destruct (filtered p) eqn:Hf.
  - apply (counts_ok_change i p (set_not_have p) _ t); try done; rewrite ?Es.
    all: try (change (have (set_not_have p)) with false; change (filtered (set_not_have p)) with (filtered p);
      unfold unmark_have; rewrite ?Hf, ?Hh; cbn; lia).
    all: rewrite insert_same_flag by (rewrite W4; unfold skipped; by rewrite Hh); unfold unmark_have; by rewrite Hf.
  - pose proof (lookup_lt_Some _ _ _ W4) as Hlt.
    destruct (cursors_wanted_ok (skips (m_piece_map t)) (m_cursor t) (m_reverse_cursor t) (Z.to_nat i) t) as [K1 K2]; try done.
    { unfold skips. by rewrite length_fmap. }
    destruct (cursors_wanted_fields (Z.to_nat i) t) as (F1 & F2 & F3).
    apply (counts_ok_change i p (set_not_have p) _ t); try done; rewrite ?Es.
    all: change (have (set_not_have p)) with false; change (filtered (set_not_have p)) with (filtered p);
      unfold unmark_have; rewrite ?Hf, ?Hh; cbn [with_counts with_map with_buckets m_num_have m_num_filtered m_num_have_filtered m_cursor m_reverse_cursor];
      rewrite ?F1, ?F2, ?F3; try done; cbn; lia.
Qed.

(** ** Priorities *)

Lemma skipped_priority n p : skipped (set_priority n p) = have p || (n mod 8 =? 0).
Proof. done. Qed.

(** The first half of [set_piece_priority]: counters and cursors, then the
    piece. *)
Definition repriced (i n : Z) (p : piece_pos) (t : piece_picker) : piece_picker :=
  let t :=
    if (n =? filter_priority) && negb (piece_priority p =? filter_priority) then
      if have p then with_counts (m_num_filtered t) (m_num_have_filtered t + 1) (m_num_have t) t
      else cursors_done (Z.to_nat i) (m_piece_map t)
             (with_counts (m_num_filtered t + 1) (m_num_have_filtered t) (m_num_have t) t)
    else if negb (n =? filter_priority) && (piece_priority p =? filter_priority) then
      if have p then with_counts (m_num_filtered t) (m_num_have_filtered t - 1) (m_num_have t) t
      else cursors_wanted (Z.to_nat i)
             (with_counts (m_num_filtered t - 1) (m_num_have_filtered t) (m_num_have t) t)
    else t in
  with_map (alter_piece (fun _ => set_priority n p) i (m_piece_map t)) t.

Lemma repriced_same i n p t :
  same_order (repriced i n p t) t /\ m_piece_map (repriced i n p t) = alter_piece (fun _ => set_priority n p) i (m_piece_map t).
Proof.
  unfold repriced. cbv zeta. set (t1 := if _ && _ then _ else _).
  assert (same_order t1 t /\ m_piece_map t1 = m_piece_map t) as [Hso Hm].
  { subst t1. repeat case_match; try done.
    - edestruct (cursors_done_same (Z.to_nat i)) as [G1 G2]. split; [exact G1|exact G2].
    - edestruct (cursors_wanted_same (Z.to_nat i)) as [G1 G2]. split; [exact G1|exact G2]. }
  split; [done|]. cbn. by rewrite Hm.
Qed.

Lemma set_piece_priority_eq random i n p t :
  piece_at (m_piece_map t) i = Some p -> n <> piece_priority p ->
  snd (set_piece_priority random i n t) =
  reorder random (priority (m_seeds t) p) (priority (m_seeds t) (set_priority n p)) i p (repriced i n p t).
Proof.
  intros Hp Hne. destruct (repriced_same i n p t) as [(_ & _ & Hs & _) _]. unfold set_piece_priority.
  rewrite Hp, (proj2 (Z.eqb_neq _ _) Hne). unfold repriced in *. cbv zeta in *.
  destruct (_ && _); [|destruct (_ && _)]; cbn [snd]; rewrite Hs; done.
Qed.

Lemma repriced_counts i n p t :
  counts_ok t -> 0 <= i -> piece_at (m_piece_map t) i = Some p -> piece_wf p -> 0 <= n < 8 -> n <> piece_priority p ->
  counts_ok (repriced i n p t).
Proof.
  intros Hc Hi Hp [_ Hw] Hn Hne. destruct (repriced_same i n p t) as [_ Hm]. pose proof Hc as [].
  destruct (wanted_update i p (set_priority n p) _ Hp) as (W1 & W2 & W3 & W4). pose proof (lookup_lt_Some _ _ _ W4) as Hlt.
  assert (n mod 8 = n) as Emod by (apply Z.mod_small; lia).
  assert (have (set_priority n p) = have p) as Eh by done.
  assert (filtered (set_priority n p) = (n =? 0)) as Ef by (unfold filtered, filter_priority; cbn; by rewrite Emod).
  assert (skipped (set_priority n p) = have p || (n =? 0)) as Es by (rewrite skipped_priority; by rewrite Emod).
  assert (skips (m_piece_map t) !! Z.to_nat i = Some (have p || (piece_priority p =? 0))) as W5 by exact W4.
  assert (forall t', m_piece_map t' = m_piece_map t -> m_num_have t' = m_num_have t ->
    m_num_filtered t' = m_num_filtered t - Z.b2z ((piece_priority p =? 0) && negb (have p)) + Z.b2z ((n =? 0) && negb (have p)) ->
    m_num_have_filtered t' = m_num_have_filtered t - Z.b2z ((piece_priority p =? 0) && have p) + Z.b2z ((n =? 0) && have p) ->
    cursor_ok (<[Z.to_nat i := have p || (n =? 0)]> (skips (m_piece_map t))) (m_cursor t') ->
    rcursor_ok (<[Z.to_nat i := have p || (n =? 0)]> (skips (m_piece_map t))) (m_reverse_cursor t') ->
    counts_ok (with_map (alter_piece (fun _ => set_priority n p) i (m_piece_map t')) t')) as Hgen.
  { intros t' M1 M2 M3 M4 M5 M6. apply (counts_ok_change i p (set_priority n p) _ t); cbn [m_piece_map with_map with_buckets];
      rewrite ?Eh, ?Ef, ?Es; try done; [by rewrite M1|cbn; lia]. }
  unfold repriced, filter_priority. cbv zeta.
  set (t1 := with_counts (m_num_filtered t + 1) _ _ t). set (t2 := with_counts (m_num_filtered t - 1) _ _ t).
  destruct (cursors_done_fields (Z.to_nat i) (m_piece_map t) t1) as (A1 & A2 & A3).
  destruct (cursors_wanted_fields (Z.to_nat i) t2) as (B1 & B2 & B3).
  destruct (cursors_done_same (Z.to_nat i) (m_piece_map t) t1) as [_ A4]. destruct (cursors_wanted_same (Z.to_nat i) t2) as [_ B4].
  destruct (cursors_done_counts i p (m_piece_map t) t t1) as [A5 A6]; try done.
  destruct (cursors_wanted_ok (skips (m_piece_map t)) (m_cursor t) (m_reverse_cursor t) (Z.to_nat i) t2) as [B5 B6]; try done.
  { unfold skips. by rewrite length_fmap. }
  apply Hgen; clear Hgen Hm.
  all: destruct (Z.eqb_spec n 0) as [->|Hn0], (Z.eqb_spec (piece_priority p) 0) as [Hp0|Hp0]; cbn [andb negb]; try congruence.
  all: destruct (have p) eqn:Hh; cbn [andb negb orb] in *.
  all: rewrite ?(insert_same_flag _ _ _ W5), ?A1, ?A2, ?A3, ?B1, ?B2, ?B3; try done; cbn; lia.
Qed.

(** ** A new download *)

Lemma count_if_none f w : (forall x, x ∈ w -> f x = false) -> count_if f w = 0.
Proof.
  intros H. induction w as [|x w IH]; [done|]. rewrite count_if_cons, H by apply list_elem_of_here. cbn.
  apply IH. intros y Hy. apply H. by apply list_elem_of_further.
Qed.

(** The filtered pieces, had or not. *)
Lemma count_if_filtered w : count_if w_filtered w + count_if w_have_filtered w = count_if snd w.
Proof.
  induction w as [|[h f] w IH]; [done|]. rewrite !count_if_cons. unfold w_filtered, w_have_filtered in *. cbn [fst snd].
  destruct f, h; cbn; lia.
Qed.

Lemma init_counts bpp last total t :
  counts_ok t -> m_piece_map t = [] \/ num_pieces t = total -> counts_ok (init bpp last total t).
Proof.
  intros Hc Hn. set (map0 := vec_resize total (piece_pos_new 0 0) (m_piece_map t)).
  set (map := m_piece_map (init bpp last total t)).
  assert (map = (fun p => PiecePos 0 false (full p) (piece_priority p) 0) <$> map0) as Em by done.
  assert (wanted_at map = (fun x : bool * bool => (false, snd x)) <$> wanted_at map0) as Ew.
  { rewrite Em. unfold wanted_at. by rewrite <- !list_fmap_compose. }
  assert (count_if snd (wanted_at map0) = m_num_filtered t + m_num_have_filtered t) as Ef.
  { rewrite (ct_filtered t Hc), (ct_have_filtered t Hc), count_if_filtered. unfold num_pieces in Hn. subst map0. unfold vec_resize.
    destruct Hn as [-> | <-].
    - rewrite take_nil. cbn. apply count_if_none. intros x (p & -> & Hp)%list_elem_of_fmap. apply elem_of_replicate in Hp as [-> _]. done.
    - rewrite Nat.sub_diag, take_ge by lia. cbn. by rewrite app_nil_r. }
  split; fold map.
  - cbn [m_num_have init]. symmetry. apply count_if_none. rewrite Ew. intros x (y & -> & _)%list_elem_of_fmap. done.
  - cbn [m_num_filtered init]. rewrite <- Ef, Ew. clear. induction (wanted_at map0) as [|[h f] w IH]; [done|].
    rewrite fmap_cons, !count_if_cons, IH. unfold w_filtered. cbn. by destruct f.
  - cbn [m_num_have_filtered init]. symmetry. apply count_if_none. rewrite Ew. intros x (y & -> & _)%list_elem_of_fmap. apply andb_false_r.
  - apply cursor_from_ok; [lia|unfold skips; by rewrite length_fmap|lia|done].
  - apply reverse_cursor_from_ok; [done|unfold skips; by rewrite length_fmap| |done].
    intros j [H1 H2]. exfalso. unfold skips in H2. rewrite length_fmap in H2. exact (Nat.lt_irrefl _ (Nat.le_lt_trans _ _ _ H1 H2)).
Qed.
