(* ===== verification/PiecePickerSteps.v ===== *)
(** * The operations of the piece picker as steps

    One constructor per operation that changes the picker, with the condition
    under which it may be called (the assertions at its head), and the
    invariants of the previous files for every picker that is reached. *)

From S2P Require Import Prelude Archive Md4Hash Bitfield PiecePicker PiecePickerBuckets PiecePickerInv PiecePickerUpdate PiecePickerView PiecePickerBlocks PiecePickerMarks PiecePickerCounts.
From stdpp Require Import list.
Open Scope Z_scope.

Record picker_ok (t : piece_picker) : Prop := {
  ok_ordered : ordered t;
  ok_blocks : blocks_ok t;
  ok_counts : counts_ok t
}.

Lemma picker_ok_new : picker_ok piece_picker_new.
Proof. split; [apply new_ordered|apply new_blocks_ok|apply new_counts_ok]. Qed.

(** Neither the downloads nor the counters are touched. *)
Lemma picker_ok_same t t0 : picker_ok t0 -> ordered t -> same_downloads t t0 -> same_wanted t t0 -> picker_ok t.
Proof. intros [] Ho Hd Hw. split; [done|by eapply blocks_ok_same|by eapply counts_ok_same]. Qed.

Lemma picker_ok_refines t i l t' : picker_ok t -> refines t i l t' -> picker_ok t'.
Proof. intros [] []. split; [done..|]. by eapply counts_ok_same. Qed.

(** ** Availability *)

Lemma refcount_ok random i p n t :
  picker_ok t -> 0 <= i -> piece_at (m_piece_map t) i = Some p ->
  picker_ok (reorder random (priority (m_seeds t) p) (priority (m_seeds t) (set_peer_count n p)) i p
    (with_map (alter_piece (fun _ => set_peer_count n p) i (m_piece_map t)) t)).
Proof.
  intros H Hi Hp. pose proof (ok_ordered t H) as Ho.
  set (t1 := with_map _ t). destruct (reorder_frame random i p (set_peer_count n p) t t1) as [Ho' Hre]; try done.
  { apply to_uint2_wf. by eapply ordered_piece. }
  eapply (picker_ok_same _ t); [done..| |].
  - eapply same_downloads_trans; [by apply rebucketed_downloads|]. subst t1.
    rewrite <- (alter_piece_const (set_peer_count n) i p) by done. by apply alter_downloads.
  - eapply same_wanted_trans; [by apply rebucketed_wanted|]. subst t1.
    rewrite <- (alter_piece_const (set_peer_count n) i p) by done. by apply alter_wanted.
Qed.

Lemma inc_refcount_ok random i t : picker_ok t -> 0 <= i -> picker_ok (inc_refcount random i t).
Proof.
  intros H Hi. unfold inc_refcount. destruct (piece_at (m_piece_map t) i) as [p|] eqn:Hp; [|done]. by apply refcount_ok.
Qed.

Lemma dec_refcount_ok random i t :
  picker_ok t -> 0 <= i -> (forall p, piece_at (m_piece_map t) i = Some p -> 0 < peer_count p) -> picker_ok (dec_refcount random i t).
Proof.
  intros H Hi Hc. pose proof (ok_ordered t H) as Ho. unfold dec_refcount.
  destruct (piece_at (m_piece_map t) i) as [p|] eqn:Hp; [|done]. specialize (Hc p eq_refl).
  pose proof (ordered_piece _ _ _ Ho Hp) as Hw. pose proof (ord_seeds _ Ho) as Hs.
  rewrite (update_reorder random i p (set_peer_count (peer_count p - 1) p) t); try done; [by apply refcount_ok|].
  rewrite (priority_none _ p), (priority_none _ (set_peer_count _ p)) by (done || by apply to_uint2_wf).
  intros [?|?]; [by left|lia].
Qed.

(** A map whose pieces differ in availability only. *)
Lemma avail_downloads t t0 :
  (fun p => (downloading p, have p)) <$> m_piece_map t = (fun p => (downloading p, have p)) <$> m_piece_map t0 ->
  m_downloads t = m_downloads t0 -> m_block_info t = m_block_info t0 -> m_blocks_per_piece t = m_blocks_per_piece t0 ->
  m_blocks_in_last_piece t = m_blocks_in_last_piece t0 -> same_downloads t t0.
Proof.
  intros Hm H1 H2 H3 H4. repeat split; try done.
  - apply (f_equal length) in Hm. by rewrite !length_fmap in Hm.
  - intros x _. unfold flag_at, piece_at. rewrite <- !list_lookup_fmap. congruence.
Qed.

Lemma mask_fmap {A} (f : piece_pos -> A) d (bits : list bool) map :
  (forall n p, f (set_peer_count n p) = f p) ->
  f <$> (zip_with (fun (b : bool) p => if b then set_peer_count (peer_count p + d) p else p) bits map ++ drop (length bits) map) = f <$> map.
Proof.
  intros Hf. revert map. induction bits as [|b bits IH]; intros [|p map]; cbn; try done. rewrite IH. f_equal. by destruct b.
Qed.

Lemma refcount_mask_downloads d bitmask t : same_downloads (refcount_mask d bitmask t) t.
Proof. unfold refcount_mask. cbv zeta. destruct (existsb _ _); (apply avail_downloads; cbn; try done; by apply mask_fmap). Qed.

Lemma refcount_mask_ok d bitmask t : picker_ok t -> picker_ok (refcount_mask d bitmask t).
Proof.
  intros H. eapply (picker_ok_same _ t); [done|by apply refcount_mask_ordered, H|apply refcount_mask_downloads|].
  unfold refcount_mask. cbv zeta. destruct (existsb _ _); (repeat split; cbn; by apply mask_fmap).
Qed.

Lemma inc_refcount_all_ok t : picker_ok t -> picker_ok (inc_refcount_all t).
Proof.
  intros H. eapply (picker_ok_same _ t); [done|by apply inc_refcount_all_ordered, H|..]; unfold inc_refcount_all; cbv zeta; by destruct (_ =? _).
Qed.

Lemma dec_refcount_all_downloads t : same_downloads (dec_refcount_all t) t.
Proof.
  unfold dec_refcount_all. cbv zeta. destruct (_ <? _); [by destruct (_ =? _)|]. apply avail_downloads; cbn; try done.
  by rewrite <- list_fmap_compose.
Qed.

Lemma dec_refcount_all_ok t : picker_ok t -> picker_ok (dec_refcount_all t).
Proof.
  intros H. eapply (picker_ok_same _ t); [done|by apply dec_refcount_all_ordered, H|apply dec_refcount_all_downloads|].
  unfold dec_refcount_all. cbv zeta. destruct (_ <? _); [by destruct (_ =? _)|]. repeat split; cbn. unfold wanted_at. by rewrite <- list_fmap_compose.
Qed.

Lemma update_pieces_ok random_shuffle t :
  (forall k l, random_shuffle k l ≡ₚ l) -> picker_ok t -> picker_ok (update_pieces random_shuffle t).
Proof.
  intros Hsh H. destruct (update_pieces_ordered random_shuffle t Hsh (ok_ordered t H)) as (Ho & _ & Hre).
  eapply (picker_ok_same _ t); [done..| |]; unfold update_pieces in *.
  - destruct (count_pieces _ _ _) as [bs map]. repeat split; cbn in *; try done; [by apply Forall2_length in Hre|].
    intros x _. by apply flag_reindexed.
  - destruct (count_pieces _ _ _) as [bs map]. repeat split; cbn in *. by apply wanted_reindexed.
Qed.

(** ** Having and wanting *)

Lemma set_piece_priority_downloads random i n t :
  picker_ok t -> 0 <= i -> 0 <= n < 8 -> same_downloads (snd (set_piece_priority random i n t)) t.
Proof.
  intros H Hi Hn. pose proof (ok_ordered t H) as Ho.
  destruct (piece_at (m_piece_map t) i) as [p|] eqn:Hp; [|unfold set_piece_priority; rewrite Hp; by repeat split].
  destruct (decide (n = piece_priority p)) as [->|Hne]; [unfold set_piece_priority; rewrite Hp, Z.eqb_refl; by repeat split|].
  rewrite (set_piece_priority_eq random i n p t Hp Hne). destruct (repriced_same i n p t) as [Hso Hm].
  pose proof (ordered_piece _ _ _ Ho Hp) as Hw.
  destruct (reorder_frame random i p (set_priority n p) t (repriced i n p t)) as [Ho' Hre]; try done; [by apply set_priority_wf|].
  eapply same_downloads_trans; [by apply rebucketed_downloads|].
  assert (forall f : piece_picker -> piece_picker, f = repriced i n p -> m_downloads (f t) = m_downloads t /\ m_block_info (f t) = m_block_info t /\
    m_blocks_per_piece (f t) = m_blocks_per_piece t /\ m_blocks_in_last_piece (f t) = m_blocks_in_last_piece t) as Hf.
  { intros f ->. unfold repriced, cursors_done, cursors_wanted. cbv zeta. repeat case_match; done. }
  destruct (Hf _ eq_refl) as (F1 & F2 & F3 & F4). apply avail_downloads; try done. rewrite Hm, <- (alter_piece_const (set_priority n) i p) by done.
  apply list_eq. intros k. unfold alter_piece. rewrite !list_lookup_fmap. destruct (decide (k = Z.to_nat i)) as [->|].
  - rewrite list_lookup_alter_eq. by destruct (m_piece_map t !! _).
  - by rewrite list_lookup_alter_ne.
Qed.

Lemma set_piece_priority_ok random i n t :
  picker_ok t -> 0 <= i -> 0 <= n < 8 -> picker_ok (snd (set_piece_priority random i n t)).
Proof.
  intros H Hi Hn. pose proof (ok_ordered t H) as Ho. pose proof (set_piece_priority_downloads random i n t H Hi Hn) as Hd. revert Hd.
  destruct (piece_at (m_piece_map t) i) as [p|] eqn:Hp; [|unfold set_piece_priority; by rewrite Hp].
  destruct (decide (n = piece_priority p)) as [->|Hne]; [unfold set_piece_priority; by rewrite Hp, Z.eqb_refl|].
  rewrite (set_piece_priority_eq random i n p t Hp Hne). destruct (repriced_same i n p t) as [Hso Hm]. intros Hd.
  pose proof (ordered_piece _ _ _ Ho Hp) as Hw.
  destruct (reorder_frame random i p (set_priority n p) t (repriced i n p t)) as [Ho' Hre]; try done; [by apply set_priority_wf|].
  split; [done|by eapply blocks_ok_same; [apply H|]|].
  eapply counts_ok_same; [|by apply rebucketed_wanted]. apply repriced_counts; try done. apply H.
Qed.

(** The possession of piece [i], which is not being downloaded, changes. *)
Lemma blocks_ok_possession t t0 i h :
  blocks_ok t0 -> 0 <= i -> view t0 i = None -> m_downloads t = m_downloads t0 -> m_block_info t = m_block_info t0 ->
  m_blocks_per_piece t = m_blocks_per_piece t0 -> m_blocks_in_last_piece t = m_blocks_in_last_piece t0 ->
  num_pieces t = num_pieces t0 ->
  (forall x, 0 <= x -> x <> i -> flag_at (m_piece_map t) x = flag_at (m_piece_map t0) x) ->
  flag_at (m_piece_map t) i = Some (false, h) -> blocks_ok t.
Proof.
  intros Hb Hi Hv H1 H2 H3 H4 H5 H6 H7. destruct (view_same t0 t H1 H2 H3) as [Hview Hst].
  eapply (blocks_ok_change t t0 i None h); try done.
  - apply Hst, Hb.
  - intros x. rewrite Hview. case_decide as E; [by subst|done].
Qed.

Lemma stop_download_changed i p t :
  blocks_ok t -> 0 <= i -> piece_at (m_piece_map t) i = Some p -> changed i None (have p) t (stop_download i p t).
Proof.
  intros Hb Hi Hp. pose proof (lookup_lt_Some _ _ _ Hp) as Hn.
  pose proof (blocks_in_piece_le t i Hb ltac:(unfold num_pieces; lia)) as Hle. unfold stop_download.
  destruct (downloading p) eqn:Hd.
  - destruct (is_downloading t i 0 p) as (j & d & info & _ & Hj & Hdi & _); try done; [lia|].
    rewrite (proj2 (find_dl_piece_Some i t j d (st_sorted t (bk_store t Hb))) (conj Hj Hdi)).
    apply (changed_erase j d i p t); try done; [apply Hb|lia].
  - destruct (not_downloading t i p Hb Hp Hd) as [_ Hv]. split; try done; [apply Hb| |by rewrite (flag_piece _ _ _ Hp), Hd].
    intros x. case_decide; [congruence|done].
Qed.

(** The fields [mark_have] leaves alone. *)
Lemma mark_have_downloads i p t :
  m_downloads (mark_have i p t) = m_downloads t /\ m_block_info (mark_have i p t) = m_block_info t /\
  m_blocks_per_piece (mark_have i p t) = m_blocks_per_piece t /\ m_blocks_in_last_piece (mark_have i p t) = m_blocks_in_last_piece t.
Proof. unfold mark_have, cursors_done. cbv zeta. repeat case_match; done. Qed.

Lemma unmark_have_downloads i p t :
  m_downloads (unmark_have i p t) = m_downloads t /\ m_block_info (unmark_have i p t) = m_block_info t /\
  m_blocks_per_piece (unmark_have i p t) = m_blocks_per_piece t /\ m_blocks_in_last_piece (unmark_have i p t) = m_blocks_in_last_piece t.
Proof. unfold unmark_have, cursors_wanted. cbv zeta. repeat case_match; done. Qed.

Lemma picker_ok_rebucketed t t' : blocks_ok t -> counts_ok t -> ordered t' -> rebucketed t t' -> picker_ok t'.
Proof.
  intros Hb Hc Ho Hre. split; [done| |].
  - eapply blocks_ok_same; [done|]. by apply rebucketed_downloads.
  - eapply counts_ok_same; [done|]. by apply rebucketed_wanted.
Qed.

Lemma we_have_ok i t : picker_ok t -> 0 <= i -> picker_ok (we_have i t).
Proof.
  intros [Ho Hb Hc] Hi. destruct (piece_at (m_piece_map t) i) as [p|] eqn:Hp; [|unfold we_have; by rewrite Hp].
  destruct (we_have_frame i t p Ho Hi Hp) as [Ho' Hre]. pose proof (stop_download_changed i p t Hb Hi Hp) as Hch.
  assert (blocks_ok (stop_download i p t)) as Hb1 by (by eapply (changed_ok i None)).
  assert (counts_ok (stop_download i p t)) as Hc1 by (eapply counts_ok_same; [done|apply Hch]).
  destruct (have p) eqn:Hh; [by eapply picker_ok_rebucketed|]. revert Hre. set (t1 := stop_download i p t) in *. intros Hre.
  destruct (stop_download_same i p t Ho Hp) as [_ (p1 & Hm & Hidx & Hfil & _)]. fold t1 in Hm.
  assert (piece_at (m_piece_map t1) i = Some p1) as Hp1 by (rewrite Hm, piece_at_alter, decide_True, Hp by done; done).
  assert (have p1 = false) as Hh1 by (unfold have in *; by rewrite Hidx).
  assert (downloading p1 = false) as Hd1.
  { pose proof (ch_flag _ _ _ _ _ Hch) as Hf. rewrite (flag_piece _ _ _ Hp1) in Hf. by injection Hf. }
  assert (mark_have i p t1 = mark_have i p1 t1) as E by (unfold mark_have; by rewrite Hfil). rewrite E in Hre. clear E.
  destruct (mark_have_same i p1 t1) as [_ Hm2]. destruct (mark_have_downloads i p1 t1) as (D1 & D2 & D3 & D4).
  eapply picker_ok_rebucketed; [| |done|exact Hre]; [|by apply mark_have_counts].
  apply (blocks_ok_possession _ t1 i true); try done.
  - by destruct (not_downloading t1 i p1).
  - unfold num_pieces. by rewrite Hm2, length_alter_piece.
  - intros x Hx Hne. rewrite Hm2, flag_alter by done. by rewrite decide_False.
  - rewrite Hm2, flag_alter, decide_True, Hp1 by done. cbn. by rewrite Hd1.
Qed.

Lemma we_dont_have_ok random i t : picker_ok t -> 0 <= i -> picker_ok (we_dont_have random i t).
Proof.
  intros [Ho Hb Hc] Hi. destruct (piece_at (m_piece_map t) i) as [p|] eqn:Hp; [|unfold we_dont_have; by rewrite Hp].
  destruct (have p) eqn:Hh; [|unfold we_dont_have; by rewrite Hp, Hh].
  assert (downloading p = false) as Hd.
  { destruct (downloading p) eqn:Hd; [|done]. destruct (bk_flags t Hb i (have p) Hi) as [e He]; [by rewrite (flag_piece _ _ _ Hp), Hd|].
    destruct (bk_entries t Hb i e He) as (_ & Hf & _). rewrite (flag_piece _ _ _ Hp) in Hf. congruence. }
  destruct (unmark_have_same i p t) as [Hso Hm]. destruct (unmark_have_downloads i p t) as (D1 & D2 & D3 & D4).
  destruct (restore_frame random i p t (unmark_have i p t) Ho Hi Hp Hh Hm Hso) as [Ho' Hre].
  assert (we_dont_have random i t = if m_dirty (unmark_have i p t) then unmark_have i p t
    else if 0 <=? priority (m_seeds (unmark_have i p t)) (set_not_have p) then add random i (unmark_have i p t) else unmark_have i p t) as ->.
  { unfold we_dont_have, unmark_have. by rewrite Hp, Hh. }
  eapply picker_ok_rebucketed; [| |exact Ho'|exact Hre]; [|by apply unmark_have_counts].
  apply (blocks_ok_possession _ t i false); try done.
  - by destruct (not_downloading t i p).
  - unfold num_pieces. by rewrite Hm, length_alter_piece.
  - intros x Hx Hne. rewrite Hm, flag_alter by done. by rewrite decide_False.
  - rewrite Hm, flag_alter, decide_True, Hp by done. cbn. by rewrite Hd.
Qed.

(** ** A new download *)

Lemma init_ok bpp last total t :
  picker_ok t -> (0 < bpp)%nat -> (last <= bpp)%nat -> Z.of_nat total < we_have_index ->
  m_piece_map t = [] \/ num_pieces t = total -> picker_ok (init bpp last total t).
Proof.
  intros [Ho Hb Hc] Hbpp Hlast Htot Hn. split; [by apply init_ordered| |by apply init_counts]. split.
  - split; cbn; [constructor|done|lia].
  - intros _. cbn. destruct (Nat.eqb_spec last 0); lia.
  - done.
  - intros i h _. unfold flag_at, piece_at. cbn. rewrite list_lookup_fmap. destruct (_ !! _); [|done]. cbn. congruence.
Qed.

(** ** Peers *)

Lemma region_fmap (g : block_info -> block_info) n off bi : region n off (g <$> bi) = g <$> region n off bi.
Proof. unfold region. by rewrite fmap_take, fmap_drop. Qed.

Lemma clear_peer_view peer t i :
  view (clear_peer peer t) i =
  (fun e => Entry (e_state e) (e_finished e) (e_writing e) (e_requested e) (cleared_block peer <$> e_blocks e)) <$> view t i.
Proof.
  unfold view. change (find_dl_piece i (clear_peer peer t)) with (find_dl_piece i t).
  destruct (find_dl_piece i t) as [[j d]|]; [|done].
  unfold entry_of. cbn [mbind option_bind fmap option_fmap option_map e_state e_finished e_writing e_requested e_blocks].
  f_equal. f_equal. exact (region_fmap (cleared_block peer) _ _ _).
Qed.

Lemma clear_peer_ok peer t : picker_ok t -> picker_ok (clear_peer peer t).
Proof.
  intros [Ho Hb Hc]. split; [by apply (ordered_same _ t)| |by apply (counts_ok_same _ t)]. pose proof Hb as []. split.
  - destruct bk_store as [H1 H2 H3]. split; [done..|]. cbn. by rewrite length_fmap.
  - done.
  - intros i e He. rewrite clear_peer_view in He. destruct (view t i) as [e0|] eqn:E; [|done]. injection He as <-.
    destruct (bk_entries i e0 E) as (Hi & Hf & []). split_and!; [done..|].
    split; cbn [e_finished e_writing e_requested e_blocks e_state]; rewrite <- ?fmap_take, ?count_state_cleared; try done.
    apply Forall_fmap. eapply Forall_impl; [exact en_blocks|]. intros b. apply cleared_ok.
  - intros i h Hi Hf. rewrite clear_peer_view. destruct (bk_flags i h Hi Hf) as [e ->]. by eexists.
Qed.

(** ** Queries *)

(** The state of a block as the queries see it. *)
Lemma block_queries t i b p old :
  blocks_ok t -> 0 <= i -> piece_at (m_piece_map t) i = Some p -> (b < blocks_in_piece t i)%nat -> blocks t i !! b = Some old ->
  is_requested (PieceBlock i b) t = bool_decide (bi_state old = state_requested) /\
  is_finished (PieceBlock i b) t = have p || bool_decide (bi_state old = state_finished) /\
  is_downloaded (PieceBlock i b) t =
    have p || bool_decide (bi_state old = state_finished) || bool_decide (bi_state old = state_writing) /\
  num_peers (PieceBlock i b) t = bi_num_peers old.
Proof.
  intros Hb Hi Hp Hlt Hold. unfold is_requested, is_finished, is_downloaded, num_peers, block_state_of. cbn [piece_index]. rewrite Hp.
  destruct (downloading p) eqn:Hd.
  - destruct (is_downloading t i b p) as (j & d & info & Hf & _ & _ & _ & _ & Hl & _ & Hh); try done.
    assert (info = old) as -> by congruence. rewrite Hf, Hh. cbn [mbind option_bind andb orb].
    assert (forall s s' : block_state, bool_decide (Some s = Some s') = bool_decide (s = s')) as Hbd.
    { intros s s'. apply bool_decide_ext. split; congruence. }
    by rewrite !Hbd.
  - destruct (not_downloading t i p Hb Hp Hd) as [Eb _]. rewrite Eb, lookup_replicate_2 in Hold by done. injection Hold as <-.
    cbn [andb orb bi_state bi_num_peers block_info_new]. rewrite !bool_decide_eq_false_2 by done. rewrite !orb_false_r.
    by destruct (find_block _ _) as [[[? ?] ?]|].
Qed.

(** ** Steps *)

Inductive op :=
| Init (blocks_per_piece blocks_in_last_piece total_num_pieces : nat)
| Inc_refcount (random : nat) (i : Z)
| Dec_refcount (random : nat) (i : Z)
| Inc_refcount_mask (bitmask : bitfield)
| Dec_refcount_mask (bitmask : bitfield)
| Inc_refcount_all
| Dec_refcount_all
| Set_piece_priority (random : nat) (i n : Z)
| We_have (i : Z)
| We_dont_have (random : nat) (i : Z)
| Mark_as_downloading (random : nat) (b : piece_block) (peer : Z) (s : piece_state_t)
| Mark_as_writing (random : nat) (b : piece_block) (peer : Z)
| Mark_as_finished (random : nat) (b : piece_block) (peer : Z)
| Write_failed (random : nat) (b : piece_block)
| Abort_download (random : nat) (b : piece_block) (peer : Z)
| Restore_piece (random : nat) (i : Z)
| Clear_peer (peer : Z)
| Update_pieces.

Section Run.
Context (random_shuffle : nat -> list Z -> list Z).

Definition run (o : op) (t : piece_picker) : piece_picker :=
  match o with
  | Init bpp last total => init bpp last total t
  | Inc_refcount random i => inc_refcount random i t
  | Dec_refcount random i => dec_refcount random i t
  | Inc_refcount_mask bits => inc_refcount_mask bits t
  | Dec_refcount_mask bits => dec_refcount_mask bits t
  | Inc_refcount_all => inc_refcount_all t
  | Dec_refcount_all => dec_refcount_all t
  | Set_piece_priority random i n => snd (set_piece_priority random i n t)
  | We_have i => we_have i t
  | We_dont_have random i => we_dont_have random i t
  | Mark_as_downloading random b peer s => snd (mark_as_downloading random b peer s t)
  | Mark_as_writing random b peer => snd (mark_as_writing random b peer t)
  | Mark_as_finished random b peer => mark_as_finished random b peer t
  | Write_failed random b => write_failed random b t
  | Abort_download random b peer => abort_download random b peer t
  | Restore_piece random i => restore_piece random i t
  | Clear_peer peer => clear_peer peer t
  | Update_pieces => update_pieces random_shuffle t
  end.

Definition is_piece (t : piece_picker) (i : Z) : bool := (0 <=? i) && (i <? Z.of_nat (num_pieces t)).
Definition is_block (t : piece_picker) (b : piece_block) : bool :=
  is_piece t (piece_index b) && (block_index b <? blocks_in_piece t (piece_index b))%nat.
Definition piece_have (t : piece_picker) (i : Z) : bool := match piece_at (m_piece_map t) i with Some p => have p | None => false end.
Definition piece_peers (t : piece_picker) (i : Z) : Z := match piece_at (m_piece_map t) i with Some p => peer_count p | None => 0 end.

(** The assertions at the head of the operations.  Two conditions are not assertions of
    the code: [init] is called for a new picker or again with the same number of pieces,
    as a transfer does; and a block has less than [2^14 - 1] requesters, more than which
    its field of 14 bits cannot count. *)
Definition allowed (o : op) (t : piece_picker) : bool :=
  match o with
  | Init bpp last total =>
      (0 <? bpp)%nat && (0 <? total)%nat && (last <=? bpp)%nat && (Z.of_nat total <? we_have_index)
      && ((num_pieces t =? 0)%nat || (num_pieces t =? total)%nat)
  | Inc_refcount _ i | We_have i | We_dont_have _ i | Restore_piece _ i => is_piece t i
  | Dec_refcount _ i => is_piece t i && (0 <? piece_peers t i)
  | Set_piece_priority _ i n => is_piece t i && (0 <=? n) && (n <? 8)
  | Mark_as_downloading _ b _ s =>
      is_block t b && negb (piece_have t (piece_index b)) && negb (bool_decide (s = none)) && (num_peers b t <? 2 ^ 14 - 1)
  | Mark_as_writing _ b _ | Abort_download _ b _ => is_block t b
  | Mark_as_finished _ b _ => is_block t b && negb (is_requested b t)
  | Write_failed _ b => is_block t b && bool_decide (block_state_of b t = Some state_writing)
  | _ => true
  end.

Inductive reachable : piece_picker -> Prop :=
| reach_new : reachable piece_picker_new
| reach_step t o : reachable t -> allowed o t = true -> reachable (run o t).

Lemma is_piece_lookup t i : is_piece t i = true -> 0 <= i /\ exists p, piece_at (m_piece_map t) i = Some p.
Proof.
  unfold is_piece, num_pieces, piece_at. intros [Hi Hn]%andb_true_iff. apply Z.leb_le in Hi. apply Z.ltb_lt in Hn. split; [done|].
  apply lookup_lt_is_Some_2. lia.
Qed.

Lemma is_block_lookup t b :
  blocks_ok t -> is_block t b = true ->
  exists i k p old, b = PieceBlock i k /\ 0 <= i /\ piece_at (m_piece_map t) i = Some p /\ (k < blocks_in_piece t i)%nat /\
    blocks t i !! k = Some old /\ (forall i', i' = i -> piece_have t i' = have p).
Proof.
  intros Hb [Hi Hk]%andb_true_iff. destruct b as [i k]. cbn [piece_index block_index] in *. apply Nat.ltb_lt in Hk.
  apply is_piece_lookup in Hi as (Hi & p & Hp). pose proof (lookup_lt_Some _ _ _ Hp) as Hn.
  destruct (blocks_lookup t i k Hb ltac:(unfold num_pieces; lia) Hk) as [old Hold].
  exists i, k, p, old. split_and!; try done. intros i' ->. unfold piece_have. by rewrite Hp.
Qed.

Lemma run_downloading_ok random b peer s t :
  picker_ok t -> allowed (Mark_as_downloading random b peer s) t = true -> picker_ok (snd (mark_as_downloading random b peer s t)).
Proof.
  intros H Ha. pose proof H as [Ho Hb _]. cbn in Ha. rewrite !andb_true_iff, !negb_true_iff in Ha. destruct Ha as [[[Hbl Hh] Hs] Hnp].
  apply is_block_lookup in Hbl as (i & k & p & old & -> & Hi & Hp & Hk & Hold & Hph); [|done]. apply bool_decide_eq_false in Hs.
  cbn [piece_index] in Hh. rewrite (Hph i eq_refl) in Hh. apply Z.ltb_lt in Hnp.
  destruct (block_queries t i k p old Hb Hi Hp Hk Hold) as (_ & _ & _ & Enp). rewrite Enp in Hnp.
  pose proof (mark_as_downloading_refines random i k peer s p t old Ho Hb Hi Hp Hh Hk Hs Hold Hnp) as Hr.
  destruct (mark_as_downloading _ _ _ _ _) as [ret t']. cbn [snd].
  destruct (requested_block peer old); destruct Hr as [_ Hr]; [by eapply picker_ok_refines|by subst].
Qed.

Lemma run_writing_ok random b peer t :
  picker_ok t -> is_block t b = true -> picker_ok (snd (mark_as_writing random b peer t)).
Proof.
  intros H Hbl. pose proof H as [Ho Hb _].
  apply is_block_lookup in Hbl as (i & k & p & old & -> & Hi & Hp & Hk & Hold & _); [|done]. destruct (have p) eqn:Hh.
  - assert (downloading p = false) as Hd.
    { destruct (downloading p) eqn:Hd; [|done]. destruct (is_downloading t i k p) as (_ & _ & _ & _ & _ & _ & _ & _ & _ & _ & ?); congruence. }
    unfold mark_as_writing. cbn [piece_index]. by rewrite Hp, Hd, Hh.
  - pose proof (mark_as_writing_refines random i k peer p t old Ho Hb Hi Hp Hh Hk Hold) as Hr.
    destruct (mark_as_writing _ _ _ _) as [ret t']. destruct Hr as [_ Hr]. by eapply picker_ok_refines.
Qed.

Lemma run_finished_ok random b peer t :
  picker_ok t -> is_block t b && negb (is_requested b t) = true -> picker_ok (mark_as_finished random b peer t).
Proof.
  intros H [Hbl Hr]%andb_true_iff. pose proof H as [Ho Hb _]. apply negb_true_iff in Hr.
  apply is_block_lookup in Hbl as (i & k & p & old & -> & Hi & Hp & Hk & Hold & _); [|done].
  destruct (block_queries t i k p old Hb Hi Hp Hk Hold) as (Eq & _). rewrite Eq in Hr. apply bool_decide_eq_false in Hr.
  destruct (have p) eqn:Hh.
  - assert (downloading p = false) as Hd.
    { destruct (downloading p) eqn:Hd; [|done]. destruct (is_downloading t i k p) as (_ & _ & _ & _ & _ & _ & _ & _ & _ & _ & ?); congruence. }
    unfold mark_as_finished. cbn [piece_index]. by rewrite Hp, Hd, Hh.
  - eapply picker_ok_refines; [done|]. by eapply mark_as_finished_refines.
Qed.

Lemma run_write_failed_ok random b t :
  picker_ok t -> is_block t b && bool_decide (block_state_of b t = Some state_writing) = true -> picker_ok (write_failed random b t).
Proof.
  intros H [Hbl Hw]%andb_true_iff. pose proof H as [Ho Hb _]. apply bool_decide_eq_true in Hw.
  apply is_block_lookup in Hbl as (i & k & p & old & -> & Hi & Hp & Hk & Hold & _); [|done].
  unfold block_state_of in Hw. destruct (find_block _ t) as [[[j d] info]|] eqn:Ef; [|done]. cbn in Hw. injection Hw as Hw.
  pose proof (lookup_lt_Some _ _ _ Hp) as Hn. pose proof (blocks_in_piece_le t i Hb ltac:(unfold num_pieces; lia)) as Hle.
  destruct (find_block_inv t _ j d info (bk_store t Hb) Ef ltac:(cbn; lia)) as (Hj & Hd & Hv & Hl). cbn [piece_index block_index] in *.
  destruct (bk_entries t Hb i _ Hv) as (_ & Hf & _). rewrite (flag_piece _ _ _ Hp) in Hf. injection Hf as Hdl _.
  assert (info = old) as ->. { unfold blocks in Hold. rewrite Hv, lookup_take_lt in Hold by done. congruence. }
  eapply picker_ok_refines; [done|]. by eapply write_failed_refines.
Qed.

(** Every operation keeps the invariants. *)
Lemma run_ok o t : (forall k l, random_shuffle k l ≡ₚ l) -> picker_ok t -> allowed o t = true -> picker_ok (run o t).
Proof.
  intros Hsh H Ha. pose proof H as [Ho Hb _]. destruct o; cbn [run allowed] in *.
  - rewrite !andb_true_iff, orb_true_iff, !Nat.eqb_eq, Nat.leb_le, !Nat.ltb_lt, Z.ltb_lt in Ha.
    apply init_ok; try done; try lia. destruct Ha as [_ [Hz|]]; [left; by apply nil_length_inv|by right].
  - apply is_piece_lookup in Ha as [Hi _]. by apply inc_refcount_ok.
  - apply andb_true_iff in Ha as [(Hi & p & Hp)%is_piece_lookup Hc]. apply Z.ltb_lt in Hc. apply dec_refcount_ok; try done.
    intros q Hq. unfold piece_peers in Hc. by rewrite Hq in Hc.
  - by apply refcount_mask_ok.
  - by apply refcount_mask_ok.
  - by apply inc_refcount_all_ok.
  - by apply dec_refcount_all_ok.
  - rewrite !andb_true_iff, Z.leb_le, Z.ltb_lt in Ha. destruct Ha as [[[Hi _]%is_piece_lookup ?] ?]. by apply set_piece_priority_ok.
  - apply is_piece_lookup in Ha as [Hi _]. by apply we_have_ok.
  - apply is_piece_lookup in Ha as [Hi _]. by apply we_dont_have_ok.
  - by apply run_downloading_ok.
  - by apply run_writing_ok.
  - by apply run_finished_ok.
  - by apply run_write_failed_ok.
  - apply is_block_lookup in Ha as (i & k & p & old & -> & Hi & Hp & Hk & Hold & _); [|done].
    eapply picker_ok_refines; [done|]. by eapply abort_download_refines.
  - apply is_piece_lookup in Ha as (Hi & p & Hp). eapply picker_ok_refines; [done|]. by eapply restore_piece_refines.
  - by apply clear_peer_ok.
  - by apply update_pieces_ok.
Qed.

Lemma reachable_ok t : (forall k l, random_shuffle k l ≡ₚ l) -> reachable t -> picker_ok t.
Proof. intros Hsh. induction 1; [apply picker_ok_new|by apply run_ok]. Qed.
End Run.
