(* ===== verification/PiecePickerCheck.v ===== *)
(** * check_invariant of the piece picker

    The consistency check that src/piece_picker.cpp runs in debug builds, as a
    boolean function, and the proof that no sequence of operations makes it
    fail, but for one assertion: the [full] flags ([check_full]), which can be
    left behind by an erased download.  The number of its piece in a block, a field
    that only builds with assertions have, and the assertion about it are left out. *)

From S2P Require Import Prelude Archive Md4Hash Bitfield PiecePicker PiecePickerBuckets PiecePickerInv PiecePickerUpdate PiecePickerView PiecePickerBlocks PiecePickerMarks PiecePickerCounts PiecePickerSteps.
From stdpp Require Import list sorting.
Open Scope Z_scope.

(** ** The check *)

Fixpoint check_sorted (ds : list downloading_piece) : bool :=
  match ds with
  | d :: ds' => match ds' with [] => true | next :: _ => dp_index d <? dp_index next end && check_sorted ds'
  | [] => true
  end.

Definition check_block (b : block_info) : bool :=
  match bi_state b with
  | state_none => true
  | state_requested => 0 <? bi_num_peers b
  | state_writing | state_finished => bi_num_peers b =? 0
  end.

Definition download_blocks (t : piece_picker) (d : downloading_piece) : list block_info :=
  take (blocks_in_piece t (dp_index d)) (drop (dp_info d) (m_block_info t)).

Definition check_download (t : piece_picker) (d : downloading_piece) : bool :=
  let l := download_blocks t d in
  forallb check_block l
  && Bool.eqb (existsb (fun b => bool_decide (bi_state b = state_requested)) l) (negb (bool_decide (dp_state d = none)))
  && (count_state state_requested l =? dp_requested d)
  && (count_state state_writing l =? dp_writing d)
  && (count_state state_finished l =? dp_finished d).

(** The assertion about [full], on its own. *)
Definition check_full (t : piece_picker) (d : downloading_piece) : bool :=
  match piece_at (m_piece_map t) (dp_index d) with
  | Some p =>
      if full p then
        count_state state_finished (download_blocks t d) + count_state state_writing (download_blocks t d)
        + count_state state_requested (download_blocks t d) =? Z.of_nat (blocks_in_piece t (dp_index d))
      else true
  | None => false
  end.

Definition verify_priority (t : piece_picker) (range_start range_end : nat) (prio : Z) : bool :=
  (range_start <=? range_end)%nat && (range_end <=? length (m_pieces t))%nat
  && forallb (fun i => is_piece t i && (prio_of (m_seeds t) (m_piece_map t) i =? prio))
       (take (range_end - range_start) (drop range_start (m_pieces t))).

Fixpoint check_ranges (t : piece_picker) (start : nat) (prio : Z) (bs : list nat) : bool :=
  match bs with
  | [] => true
  | b :: bs => verify_priority t start b prio && check_ranges t b (prio + 1) bs
  end.

Definition check_cursors (t : piece_picker) : bool :=
  let n := num_pieces t in
  (m_cursor t <=? n)%nat && (m_reverse_cursor t <=? n)%nat
  && ((m_cursor t <? m_reverse_cursor t)%nat || ((m_cursor t =? n)%nat && (m_reverse_cursor t =? 0)%nat))
  && (m_cursor t =? skip_count (m_piece_map t))%nat
  && (m_reverse_cursor t =? n - skip_count (reverse (m_piece_map t)))%nat.

Definition check_piece (t : piece_picker) (i : Z) (p : piece_pos) : bool :=
  let prio := priority (m_seeds t) p in
  negb (have p && downloading p)
  && ((prio =? -1) || Bool.eqb (downloading p) (prio mod prio_factor =? 0))
  && (m_dirty t
      || ((prio <? Z.of_nat (length (m_priority_boundries t)))
          && (if 0 <=? prio
              then (index p <? Z.of_nat (length (m_pieces t))) && (m_pieces t !!! Z.to_nat (index p) =? i)
              else (prio =? -1) && forallb (fun j => negb (j =? i)) (m_pieces t))))
  && (Z.of_nat (length (List.filter (fun d => dp_index d =? i) (m_downloads t))) =? (if downloading p then 1 else 0)).

Fixpoint check_pieces (t : piece_picker) (i : Z) (map : list piece_pos) : bool :=
  match map with
  | [] => true
  | p :: map => check_piece t i p && check_pieces t (i + 1) map
  end.

Definition check_invariant (t : piece_picker) : bool :=
  (0 <=? m_num_have t) && (0 <=? m_num_have_filtered t) && (0 <=? m_num_filtered t) && (0 <=? m_seeds t)
  && check_sorted (m_downloads t)
  && forallb (check_download t) (m_downloads t)
  && check_cursors t
  && (m_dirty t
      || (negb (bool_decide (m_priority_boundries t = []))
          && check_ranges t 0 0 (m_priority_boundries t)
          && (List.last (m_priority_boundries t) 0 =? length (m_pieces t))%nat))
  && check_pieces t 0 (m_piece_map t)
  && (count_if w_have (wanted_at (m_piece_map t)) =? m_num_have t)
  && (count_if w_filtered (wanted_at (m_piece_map t)) =? m_num_filtered t)
  && (count_if w_have_filtered (wanted_at (m_piece_map t)) =? m_num_have_filtered t)
  && (m_dirty t || forallb (fun i => 0 <=? prio_of (m_seeds t) (m_piece_map t) i) (m_pieces t)).

(** ** Downloads *)

Lemma check_sorted_ok ds : sorted_downloads ds -> check_sorted ds = true.
Proof.
  unfold sorted_downloads. induction ds as [|d [|e ds] IH]; intros Hs; [done..|]. cbn [fmap list_fmap] in Hs.
  apply StronglySorted_cons in Hs as [Hall Hs]. change (check_sorted (d :: e :: ds)) with ((dp_index d <? dp_index e) && check_sorted (e :: ds)). rewrite IH by done.
  apply Forall_cons in Hall as [Hlt _]. by rewrite (proj2 (Z.ltb_lt _ _) Hlt).
Qed.

Lemma existsb_count s l : existsb (fun b => bool_decide (bi_state b = s)) l = negb (count_state s l =? 0).
Proof.
  induction l as [|b l IH]; [done|]. cbn [existsb]. rewrite IH, count_state_cons. unfold is_state.
  pose proof (count_state_nonneg s l). destruct (decide (bi_state b = s)) as [E|E].
  - rewrite bool_decide_eq_true_2 by done. symmetry. apply negb_true_iff, Z.eqb_neq. lia.
  - by rewrite bool_decide_eq_false_2.
Qed.

Lemma check_block_ok b : block_ok b -> check_block b = true.
Proof.
  intros (Hr & Hreq & _). unfold check_block. destruct (bi_state b) eqn:E; [done|..].
  - apply Z.ltb_lt. by apply Hreq.
  - apply Z.eqb_eq. assert (~ 0 < bi_num_peers b) by (intros H%Hreq; done). lia.
  - apply Z.eqb_eq. assert (~ 0 < bi_num_peers b) by (intros H%Hreq; done). lia.
Qed.

Lemma view_entry t d : store_ok t -> d ∈ m_downloads t -> view t (dp_index d) = Some (entry_of t d).
Proof. intros Hst [j Hj]%list_elem_of_lookup. apply view_Some; [done|]. by exists j, d. Qed.

Lemma check_download_ok t d : blocks_ok t -> d ∈ m_downloads t -> check_download t d = true.
Proof.
  intros Hb Hd. pose proof (view_entry t d (bk_store t Hb) Hd) as Hv. destruct (bk_entries t Hb _ _ Hv) as (Hi & Hf & Hok).
  assert (0 < num_pieces t)%nat as Hn.
  { unfold flag_at in Hf. destruct (piece_at _ _) as [q|] eqn:E; [|done]. apply lookup_lt_Some in E. unfold num_pieces. lia. }
  pose proof (blocks_in_piece_le t (dp_index d) Hb Hn) as Hle.
  assert (download_blocks t d = take (blocks_in_piece t (dp_index d)) (e_blocks (entry_of t d))) as El.
  { unfold download_blocks. cbn. unfold region. rewrite take_take. by rewrite Nat.min_l by lia. }
  unfold check_download. cbv zeta. rewrite El, existsb_count. destruct Hok as [H1 H2 H3 H4 H5 H6]. cbn [entry_of e_finished e_writing e_requested e_state] in *.
  rewrite <- H1, <- H2, <- H3, !Z.eqb_refl, !andb_true_r. apply andb_true_iff. split.
  - apply forallb_forall. intros b Hbl%list_elem_of_In. apply check_block_ok. rewrite Forall_forall in H5. by apply H5.
  - apply Bool.eqb_true_iff. f_equal. destruct (Z.eqb_spec (dp_requested d) 0) as [E|E].
    + symmetry. by apply bool_decide_eq_true_2, H4.
    + symmetry. apply bool_decide_eq_false_2. by intros ?%H4.
Qed.

(** ** Cursors *)

Lemma check_cursors_ok t : counts_ok t -> check_cursors t = true.
Proof.
  intros Hc. pose proof (ct_cursor t Hc) as Hcu. pose proof (ct_reverse t Hc) as Hrc.
  assert (m_cursor t = skip_count (m_piece_map t)) as E1 by (eapply cursor_unique; [exact Hcu|apply skip_count_spec]).
  assert (m_reverse_cursor t = num_pieces t - skip_count (reverse (m_piece_map t)))%nat as E2.
  { eapply rcursor_unique; [exact Hrc|].
    pose proof (reverse_cursor_from_ok (num_pieces t) (m_piece_map t) (skips (m_piece_map t))) as H. unfold reverse_cursor_from in H.
    unfold num_pieces in *. rewrite take_ge in H by lia. apply H; [lia|unfold skips; by rewrite length_fmap| |done].
    intros j [Hj1 Hj2]. unfold skips in Hj2. rewrite length_fmap in Hj2. lia. }
  assert (length (skips (m_piece_map t)) = num_pieces t) as El by (unfold skips; by rewrite length_fmap).
  pose proof (cu_le _ _ Hcu). pose proof (rc_le _ _ Hrc). rewrite El in *.
  unfold check_cursors. rewrite <- E1, <- E2, !Nat.eqb_refl, !andb_true_r. rewrite !andb_true_iff, orb_true_iff, andb_true_iff, Nat.ltb_lt, !Nat.eqb_eq, !Nat.leb_le.
  split; [lia|]. destruct (cu_at _ _ Hcu) as [Hn|Hn].
  - right. rewrite El in Hn. split; [done|]. destruct (rc_at _ _ Hrc) as [|Hr]; [done|].
    destruct (decide (m_reverse_cursor t = 0%nat)); [done|]. rewrite (cu_before _ _ Hcu) in Hr by lia. done.
  - left. destruct (cursors_enclose _ _ _ _ Hcu Hrc Hn). done.
Qed.

(** ** The order *)

Lemma priority_downloading seeds p : piece_wf p -> priority seeds p <> -1 -> downloading p = (priority seeds p mod prio_factor =? 0).
Proof.
  intros [_ Hw]. unfold priority, filtered, filter_priority, prio_factor, priority_levels.
  change (8 / 2) with 4. change ((8 - 2) / 2) with 3. change (8 - 4) with 4. change (8 - 1) with 7.
  destruct (Z.eqb_spec (piece_priority p) 0); cbn [orb]; [done|]. destruct (_ || _); [done|].
  destruct (Z.eqb_spec (piece_priority p) 7); [by destruct (downloading p)|].
  assert (forall a r, 1 <= r <= 3 -> ((a * 4 + 4 - r) mod 4 =? 0) = false) as Hmod.
  { intros a r Hr. apply Z.eqb_neq. replace (a * 4 + 4 - r) with ((4 - r) + a * 4) by lia. rewrite Z.mod_add by lia.
    rewrite Z.mod_small by lia. lia. }
  destruct (Z.leb_spec 4 (piece_priority p)); destruct (downloading p); intros _; symmetry;
    try (apply Z.eqb_eq, Z.mod_mul; lia); apply Hmod; lia.
Qed.

(** The ranges between boundaries are the buckets. *)
Lemma check_ranges_ok t start prio Bs lo :
  m_pieces t = lo ++ concat Bs -> start = length lo ->
  (forall k b x, Bs !! k = Some b -> x ∈ b -> is_piece t x = true /\ prio_of (m_seeds t) (m_piece_map t) x = prio + Z.of_nat k) ->
  check_ranges t start prio (sums start Bs) = true.
Proof.
  revert start prio lo. induction Bs as [|b Bs IH]; intros start prio lo Hp -> Hb; cbn [sums check_ranges]; [done|].
  cbn [concat] in Hp. apply andb_true_iff. split.
  - unfold verify_priority. rewrite Hp. rewrite !andb_true_iff, !Nat.leb_le, !length_app. split; [lia|].
    apply forallb_forall. intros x Hx%list_elem_of_In. rewrite drop_app_length in Hx.
    replace (length lo + length b - length lo)%nat with (length b) in Hx by lia. rewrite take_app_length in Hx.
    destruct (Hb 0%nat b x eq_refl Hx) as [-> ->]. apply Z.eqb_eq. lia.
  - replace (length lo + length b)%nat with (length (lo ++ b)) by (by rewrite length_app).
    apply (IH _ _ (lo ++ b)); [by rewrite <- app_assoc|done|].
    intros k b' x Hk Hx. destruct (Hb (S k) b' x Hk Hx) as [-> ->]. split; [done|lia].
Qed.

Lemma prio_of_piece seeds map i p : piece_at map i = Some p -> prio_of seeds map i = priority seeds p.
Proof. intros Hp. unfold prio_of. by rewrite Hp. Qed.

Lemma check_order_ok t :
  ordered t -> m_dirty t = false ->
  m_priority_boundries t <> [] /\ check_ranges t 0 0 (m_priority_boundries t) = true /\
  List.last (m_priority_boundries t) 0%nat = length (m_pieces t) /\
  Forall (fun i => 0 <= prio_of (m_seeds t) (m_piece_map t) i) (m_pieces t).
Proof.
  intros Ho Hd. destruct (ord_buckets t Ho Hd) as [Bs []]. rewrite rep_bounds, rep_pieces. split_and!.
  - destruct Bs; done.
  - apply (check_ranges_ok t 0 0 Bs []); [done|done|]. intros k b x Hk Hx.
    destruct (proj1 (rep_bucket k x)) as [Hr Hp]; [by exists b|]. split; [|lia].
    unfold is_piece, num_pieces. rewrite andb_true_iff, Z.leb_le, Z.ltb_lt. done.
  - by rewrite last_sums.
  - apply Forall_forall. intros x [k [_ Hk]%rep_bucket]%in_bucket_concat. lia.
Qed.

(** ** Every piece *)

Lemma filter_none {A} (f : A -> bool) l : (forall x, x ∈ l -> f x = false) -> List.filter f l = [].
Proof.
  intros H. induction l as [|x l IH]; [done|]. cbn. rewrite H by apply list_elem_of_here. apply IH.
  intros y Hy. apply H. by apply list_elem_of_further.
Qed.

(** A piece has one entry or none. *)
Lemma entries_of_piece ds i :
  sorted_downloads ds ->
  Z.of_nat (length (List.filter (fun d => dp_index d =? i) ds)) = if decide (i ∈ dp_index <$> ds) then 1 else 0.
Proof.
  unfold sorted_downloads. induction ds as [|d ds IH]; intros Hs; [by rewrite decide_False by apply not_elem_of_nil|].
  cbn [fmap list_fmap] in Hs. apply StronglySorted_cons in Hs as [Hall Hs]. cbn. rewrite Forall_forall in Hall.
  destruct (Z.eqb_spec (dp_index d) i) as [E|E].
  - rewrite decide_True by (subst; apply list_elem_of_here). cbn [length]. rewrite filter_none; [done|].
    intros x Hx. apply Z.eqb_neq. specialize (Hall (dp_index x)). rewrite list_elem_of_fmap in Hall.
    assert (dp_index d < dp_index x) by (apply Hall; by exists x). lia.
  - rewrite IH by done. apply decide_ext. rewrite elem_of_cons. split; [by right|]. intros [?|?]; [congruence|done].
Qed.

Lemma check_piece_ok t i p : picker_ok t -> 0 <= i -> piece_at (m_piece_map t) i = Some p -> check_piece t i p = true.
Proof.
  intros [Ho Hb _] Hi Hp. pose proof (ordered_piece _ _ _ Ho Hp) as Hw. pose proof (priority_lower (m_seeds t) p Hw) as Hlow.
  pose proof (flag_piece _ _ _ Hp) as Hf. unfold check_piece. cbv zeta. rewrite !andb_true_iff. split_and!.
  - destruct (have p) eqn:Hh, (downloading p) eqn:Hd; try done. destruct (bk_flags t Hb i true Hi Hf) as [e He].
    destruct (bk_entries t Hb i e He) as (_ & Hf' & _). congruence.
  - apply orb_true_iff. destruct (Z.eqb_spec (priority (m_seeds t) p) (-1)); [by left|right].
    apply Bool.eqb_true_iff. by apply priority_downloading.
  - destruct (m_dirty t) eqn:Ed; [done|]. cbn [orb]. destruct (ord_buckets t Ho Ed) as [Bs HR].
    pose proof (prio_of_piece (m_seeds t) _ _ _ Hp) as Epr. apply andb_true_iff. split.
    + apply Z.ltb_lt. destruct (Z.leb_spec 0 (priority (m_seeds t) p)); [|lia].
      destruct (proj2 (rep_bucket _ _ _ _ _ _ HR (Z.to_nat (priority (m_seeds t) p)) i)) as (b & Hbk & _).
      { apply lookup_lt_Some in Hp. split; lia. }
      apply lookup_lt_Some in Hbk. rewrite (rep_bounds _ _ _ _ _ _ HR), length_sums. lia.
    + destruct (Z.leb_spec 0 (priority (m_seeds t) p)) as [Hge|Hlt].
      * destruct (rep_position _ _ _ _ _ i p HR Hi Hp ltac:(lia)) as (e & He & ->). pose proof (lookup_lt_Some _ _ _ He).
        rewrite andb_true_iff, Z.ltb_lt, Z.eqb_eq, Nat2Z.id. split; [lia|]. by apply list_lookup_total_correct.
      * assert (priority (m_seeds t) p = -1) as E by lia. rewrite E. cbn [andb]. apply forallb_forall.
        intros x Hx%list_elem_of_In. apply negb_true_iff, Z.eqb_neq. intros ->. revert Hx.
        apply (rep_absent _ _ _ _ _ _ i HR). congruence.
  - apply Z.eqb_eq. rewrite entries_of_piece by apply Hb. pose proof (view_None t i (bk_store t Hb)) as Hn.
    destruct (downloading p) eqn:Hd.
    + apply decide_True. destruct (bk_flags t Hb i (have p) Hi Hf) as [e He]. destruct (decide (i ∈ dp_index <$> m_downloads t)); [done|].
      rewrite (proj2 Hn) in He by done. done.
    + apply decide_False. apply Hn. by destruct (not_downloading t i p).
Qed.

Lemma check_pieces_ok t (n : nat) map :
  picker_ok t -> (forall k p, map !! k = Some p -> piece_at (m_piece_map t) (Z.of_nat (n + k)) = Some p) ->
  check_pieces t (Z.of_nat n) map = true.
Proof.
  intros H. revert n. induction map as [|p map IH]; intros n Hm; [done|]. cbn [check_pieces]. rewrite check_piece_ok; [|done|lia|].
  - cbn [andb]. replace (Z.of_nat n + 1) with (Z.of_nat (S n)) by lia. apply IH. intros k q Hk.
    replace (S n + k)%nat with (n + S k)%nat by lia. by apply Hm.
  - replace n with (n + 0)%nat by lia. by apply Hm.
Qed.

Lemma count_if_nonneg f w : 0 <= count_if f w.
Proof. unfold count_if. lia. Qed.

Lemma check_invariant_ok t : picker_ok t -> check_invariant t = true.
Proof.
  intros H. pose proof H as [Ho Hb Hc]. pose proof Hc as [C1 C2 C3 _ _]. unfold check_invariant.
  rewrite check_sorted_ok by apply Hb. rewrite check_cursors_ok by done. rewrite <- C1, <- C2, <- C3, !Z.eqb_refl, !andb_true_r.
  assert (forallb (check_download t) (m_downloads t) = true) as ->.
  { apply forallb_forall. intros d Hd%list_elem_of_In. by apply check_download_ok. }
  rewrite (check_pieces_ok t 0) by (done || intros k p Hk; unfold piece_at; by rewrite Nat2Z.id). rewrite !andb_true_r, !andb_true_iff, !Z.leb_le.
  pose proof (count_if_nonneg w_have (wanted_at (m_piece_map t))). pose proof (count_if_nonneg w_filtered (wanted_at (m_piece_map t))).
  pose proof (count_if_nonneg w_have_filtered (wanted_at (m_piece_map t))). pose proof (ord_seeds t Ho).
  split_and!; try lia; destruct (m_dirty t) eqn:Ed; try done; destruct (check_order_ok t Ho Ed) as (O1 & O2 & O3 & O4).
  - cbn [orb]. by rewrite bool_decide_eq_false_2, O2, O3, Nat.eqb_refl by done.
  - cbn [orb]. apply forallb_forall. intros x Hx%list_elem_of_In. apply Z.leb_le. rewrite Forall_forall in O4. by apply O4.
Qed.
