(* ===== verification/PiecePick.v ===== *)
(** * Picking blocks: piece_picker::pick_pieces

    Which blocks to request from a peer: [pick_pieces] and its helpers of
    src/piece_picker.cpp.  The three output vectors and the number of blocks
    still wanted form the state [picked].  [random()] is an argument, once for
    the start piece and once for the busy block. *)

From S2P Require Import Prelude Archive Md4Hash Bitfield PiecePicker.
From stdpp Require Import list.
Open Scope Z_scope.

(** ** Options *)

Definition rarest_first : Z := 1.
Definition reverse_option : Z := 2.
Definition on_parole : Z := 4.
Definition prioritize_partials : Z := 8.
Definition sequential : Z := 16.
Definition speed_affinity : Z := 32.
Definition ignore_whole_pieces : Z := 64.

Definition has_option (options flag : Z) : bool := negb (Z.land options flag =? 0).

(** ** State *)

Record picked := Picked {
  interesting_blocks : list piece_block;
  backup_blocks : list piece_block;
  backup_blocks2 : list piece_block;
  num_blocks : Z
}.

Definition enough (l : list piece_block) (n : Z) : bool := n <=? Z.of_nat (length l).

Definition push (b : piece_block) (s : picked) : picked :=
  Picked (interesting_blocks s ++ [b]) (backup_blocks s) (backup_blocks2 s) (num_blocks s - 1).
Definition push_backup (b : piece_block) (s : picked) : picked :=
  Picked (interesting_blocks s) (backup_blocks s ++ [b]) (backup_blocks2 s) (num_blocks s).
Definition push_backup2 (b : piece_block) (s : picked) : picked :=
  Picked (interesting_blocks s) (backup_blocks s) (backup_blocks2 s ++ [b]) (num_blocks s).
Definition no_less_than_zero (s : picked) : picked :=
  if num_blocks s <=? 0 then Picked (interesting_blocks s) (backup_blocks s) (backup_blocks2 s) 0 else s.

(** [append_blocks(interesting_blocks, backup_blocks, num_blocks)], and the same
    with [backup_blocks2]. *)
Definition append_blocks (dst src : list piece_block) (n : Z) : list piece_block * Z :=
  let to_copy := Z.min (Z.of_nat (length src)) n in
  (dst ++ take (Z.to_nat to_copy) src, n - to_copy).

Definition append_backup (s : picked) : picked :=
  let '(l, n) := append_blocks (interesting_blocks s) (backup_blocks s) (num_blocks s) in Picked l [] (backup_blocks2 s) n.
Definition append_backup2 (s : picked) : picked :=
  let '(l, n) := append_blocks (interesting_blocks s) (backup_blocks2 s) (num_blocks s) in Picked l (backup_blocks s) [] n.

(** [if (num_blocks <= 0) return;] *)
Definition unless_done (s : picked) (k : picked -> picked) : picked := if num_blocks s <=? 0 then s else k s.

(** A loop over pieces, left when enough blocks have been picked. *)
Fixpoint pick_each {A} (f : A -> picked -> picked) (l : list A) (s : picked) : picked :=
  match l with
  | [] => s
  | x :: l => unless_done (f x s) (pick_each f l)
  end.

Section Pick.
Context (t : piece_picker) (pieces : bitfield) (prefer_whole_pieces : Z) (peer : Z) (speed : piece_state_t) (options : Z).

Definition peer_has (i : Z) : bool := get_bit pieces (Z.to_nat i).

Definition is_piece_free (i : Z) : bool :=
  match piece_at (m_piece_map t) i with
  | Some p => peer_has i && negb (have p) && negb (filtered p)
  | None => false
  end.

Definition can_pick (i : Z) : bool :=
  match piece_at (m_piece_map t) i with
  | Some p => peer_has i && negb (have p) && negb (downloading p) && negb (filtered p)
  | None => false
  end.

(** ** Whole pieces *)

Fixpoint expand_start (fuel : nat) (lower_limit start : Z) : Z :=
  match fuel with
  | O => start
  | S fuel => if (lower_limit <? start) && can_pick start then expand_start fuel lower_limit (start - 1) else start
  end.

Fixpoint expand_end (fuel : nat) (upper_limit end_ : Z) : Z :=
  match fuel with
  | O => end_
  | S fuel => if (end_ <? upper_limit) && can_pick end_ then expand_end fuel upper_limit (end_ + 1) else end_
  end.

Definition expand_piece (piece whole_pieces : Z) : Z * Z :=
  if whole_pieces =? 0 then (piece, piece + 1)
  else
    let lower_limit := Z.max (piece - whole_pieces) (-1) in
    let start := expand_start (Z.to_nat whole_pieces) lower_limit (piece - 1) + 1 in
    let upper_limit := Z.min (start + whole_pieces) (Z.of_nat (num_pieces t)) in
    (start, expand_end (Z.to_nat whole_pieces) upper_limit (piece + 1)).

Definition zrange (a b : Z) : list Z := (fun k => a + Z.of_nat k) <$> seq 0 (Z.to_nat (b - a)).

(** All the blocks of piece [k], or the first [n] of them. *)
Definition push_piece (n : nat) (k : Z) (s : picked) : picked :=
  foldl (fun s j => push (PieceBlock k j) s) s (seq 0 n).

Definition push_whole (start end_ : Z) (s : picked) : picked :=
  foldl (fun s k => push_piece (blocks_in_piece t k) k s) s (zrange start end_).

(** ** Pieces being downloaded *)

Definition blocks_of (d : downloading_piece) : list block_info :=
  take (blocks_in_piece t (dp_index d)) (drop (dp_info d) (m_block_info t)).

Fixpoint requested_from (exclusive : bool) (l : list block_info) : bool * bool :=
  match l with
  | [] => (exclusive, true)
  | info :: l =>
      if negb (bool_decide (bi_state info = state_none)) && negb (bi_peer info =? peer) then
        if bool_decide (bi_state info = state_requested) && negb (bi_peer info =? 0) then (false, false)
        else requested_from false l
      else requested_from exclusive l
  end.

Definition speed_of (s : piece_state_t) : Z := match s with none => 0 | slow => 1 | medium => 2 | fast => 3 end.

(** The blocks of a piece that no one has requested. *)
Fixpoint free_blocks (i : Z) (j : nat) (l : list block_info) : list piece_block :=
  match l with
  | [] => []
  | info :: l =>
      if bool_decide (bi_state info = state_none) then PieceBlock i j :: free_blocks i (S j) l else free_blocks i (S j) l
  end.

(** The second loop; the flag is set when it returns from the function. *)
Fixpoint downloading_loop (dp : downloading_piece) (exclusive_active : bool) (j : nat) (l : list block_info) (s : picked) :
    picked * bool :=
  match l with
  | [] => (s, false)
  | info :: l =>
      if negb (bool_decide (bi_state info = state_none)) then downloading_loop dp exclusive_active (S j) l s
      else
        let b := PieceBlock (dp_index dp) j in
        if negb (bool_decide (dp_state dp = none)) && negb (bool_decide (dp_state dp = speed))
           && negb exclusive_active && has_option options speed_affinity then
          if Z.abs (speed_of (dp_state dp) - speed_of speed) =? 1 then
            if enough (backup_blocks s) (num_blocks s) then (s, true)
            else downloading_loop dp exclusive_active (S j) l (push_backup b s)
          else
            if enough (backup_blocks2 s) (num_blocks s) then (s, true)
            else downloading_loop dp exclusive_active (S j) l (push_backup2 b s)
        else
          let s := push b s in
          if 0 <? prefer_whole_pieces then downloading_loop dp exclusive_active (S j) l s
          else if num_blocks s <=? 0 then (s, true)
          else downloading_loop dp exclusive_active (S j) l s
  end.

Definition add_blocks_downloading (dp : downloading_piece) (s : picked) : picked :=
  if negb (peer_has (dp_index dp)) then s
  else
    let '(exclusive, exclusive_active) := requested_from true (blocks_of dp) in
    if has_option options on_parole && negb exclusive then s
    else if (0 <? prefer_whole_pieces) && negb exclusive_active then
      if enough (backup_blocks2 s) (num_blocks s) then s
      else Picked (interesting_blocks s) (backup_blocks s)
             (backup_blocks2 s ++ free_blocks (dp_index dp) 0 (blocks_of dp)) (num_blocks s)
    else
      let '(s, returned) := downloading_loop dp exclusive_active 0 (blocks_of dp) s in
      if returned then s else no_less_than_zero s.

(** ** Any piece *)

Definition add_blocks (ignore : list Z) (piece : Z) (s : picked) : picked :=
  match piece_at (m_piece_map t) piece with
  | None => s
  | Some p =>
      if existsb (Z.eqb piece) ignore then s
      else if downloading p then
        if full p then s
        else if has_option options prioritize_partials then s
        else match find_dl_piece piece t with
             | Some (_, dp) => add_blocks_downloading dp s
             | None => s
             end
      else if prefer_whole_pieces =? 0 then
        no_less_than_zero (push_piece (Z.to_nat (Z.min (Z.of_nat (blocks_in_piece t piece)) (num_blocks s))) piece s)
      else
        let '(start, end_) := expand_piece piece prefer_whole_pieces in
        no_less_than_zero (push_whole start end_ s)
  end.

Definition add_free (ignore : list Z) (piece : Z) (s : picked) : picked :=
  if is_piece_free piece then add_blocks ignore piece s else s.

(** ** The passes *)

(** Downloads first. *)
Definition partials_pass (s : picked) : picked :=
  unless_done
    (pick_each (fun dp s =>
       if negb (peer_has (dp_index dp)) then s
       else if match piece_at (m_piece_map t) (dp_index dp) with Some p => full p | None => false end
               && enough (backup_blocks s) (num_blocks s) && enough (backup_blocks2 s) (num_blocks s) then s
       else add_blocks_downloading dp s) (m_downloads t) s)
    (fun s => unless_done (append_backup s) append_backup2).

(** The order of the ranges of priorities in the reverse rarest-first order:
    each group of [prio_factor] forwards, the groups backwards. *)
Definition reverse_prio (i : nat) : nat := (i / 4) * 4 + 4 - 1 - i mod 4.

Definition reverse_pieces (ps : list Z) (bs : list nat) : list Z :=
  concat ((fun i => let '(range_start, range_end) := priority_range bs (reverse_prio i) in
                    take (range_end - range_start) (drop range_start ps))
          <$> reverse (seq 0 (length bs))).

Definition is_suggested (suggested : list Z) (piece : Z) : bool := existsb (Z.eqb piece) suggested.

(** The next piece from [piece] on that can be picked; none when the search
    comes back to [start_piece]. *)
Fixpoint next_piece (fuel : nat) (suggested : list Z) (start_piece piece : Z) : option Z :=
  match fuel with
  | O => None
  | S fuel =>
      if can_pick piece && negb (is_suggested suggested piece) then Some piece
      else
        let piece := if piece + 1 =? Z.of_nat (num_pieces t) then 0 else piece + 1 in
        if piece =? start_piece then None else next_piece fuel suggested start_piece piece
  end.

(** Without an order: from a random piece on. *)
Fixpoint random_pass (fuel : nat) (suggested : list Z) (start_piece piece : Z) (s : picked) : picked :=
  match fuel with
  | O => s
  | S fuel =>
      if num_blocks s <=? 0 then s
      else
        match next_piece (S (num_pieces t)) suggested start_piece piece with
        | None => s
        | Some piece =>
            let '(start, end_) := expand_piece piece prefer_whole_pieces in
            let s := foldl (fun s k =>
              let n := Z.of_nat (blocks_in_piece t k) in
              push_piece (Z.to_nat (if (prefer_whole_pieces =? 0) && (num_blocks s <? n) then num_blocks s else n)) k s)
              s (zrange start end_) in
            let piece := if end_ =? Z.of_nat (num_pieces t) then 0 else end_ in
            if piece =? start_piece then s else random_pass fuel suggested start_piece piece s
        end
  end.

(** Downloads that were skipped because they are full. *)
Definition full_pass (s : picked) : picked :=
  foldl (fun s dp =>
    if negb (peer_has (dp_index dp)) then s
    else if match piece_at (m_piece_map t) (dp_index dp) with Some p => full p | None => false end then
      let s' := add_blocks_downloading dp (Picked [] (backup_blocks s) (backup_blocks2 s) (num_blocks s)) in
      Picked (interesting_blocks s) (backup_blocks s') (backup_blocks2 s') (num_blocks s)
    else s) s (m_downloads t).

(** Blocks requested from other peers, of the first download that has any. *)
Fixpoint requested_blocks (i : Z) (j : nat) (l : list block_info) : list piece_block :=
  match l with
  | [] => []
  | info :: l =>
      if negb (bool_decide (bi_state info = state_requested)) || (bi_peer info =? peer) then requested_blocks i (S j) l
      else PieceBlock i j :: requested_blocks i (S j) l
  end.

Fixpoint busy_blocks (ds : list downloading_piece) : list piece_block :=
  match ds with
  | [] => []
  | dp :: ds =>
      if negb (peer_has (dp_index dp)) then busy_blocks ds
      else if match piece_at (m_piece_map t) (dp_index dp) with Some p => filtered p | None => true end then busy_blocks ds
      else match requested_blocks (dp_index dp) 0 (blocks_of dp) with
           | [] => busy_blocks ds
           | l => l
           end
  end.

(** The end of the function: backups, then one busy block. *)
Definition last_pass (random : nat) (s : picked) : picked :=
  let s := full_pass s in
  let temp := busy_blocks (m_downloads t) in
  unless_done (append_backup s) (fun s =>
    unless_done (append_backup2 s) (fun s =>
      if has_option options on_parole then s
      else match temp !! (random mod length temp)%nat with
           | Some b => Picked (interesting_blocks s ++ [b]) (backup_blocks s) (backup_blocks2 s) (num_blocks s)
           | None => s
           end)).
End Pick.

(** ** pick_pieces *)

Section PickPieces.
Context (random_shuffle : nat -> list Z -> list Z) (random1 random2 : nat).

Definition div_round_up (n d : nat) : nat := ((n + d - 1) / d)%nat.

(** The pass that depends on the order the options ask for, and the picker it
    leaves: [m_pieces] and [m_priority_boundries] are mutable. *)
Definition order_pass (pieces : bitfield) (prefer_whole_pieces peer : Z) (speed : piece_state_t) (options : Z)
    (suggested_pieces : list Z) (t : piece_picker) (s : picked) : piece_picker * picked :=
  let add t := add_free t pieces prefer_whole_pieces peer speed options suggested_pieces in
  if has_option options sequential then
    let l := zrange (Z.of_nat (m_cursor t)) (Z.of_nat (m_reverse_cursor t)) in
    (t, pick_each (add t) (if has_option options reverse_option then reverse l else l) s)
  else if has_option options rarest_first then
    let t := if m_dirty t then update_pieces random_shuffle t else t in
    if has_option options reverse_option then
      let bs := m_priority_boundries t in
      let bs := vec_resize (div_round_up (length bs) 4 * 4) (List.last bs 0%nat) bs in
      let t := with_buckets (m_pieces t) bs (m_piece_map t) t in
      (t, pick_each (add t) (reverse_pieces (m_pieces t) bs) s)
    else (t, pick_each (add t) (m_pieces t) s)
  else
    let start_piece := Z.of_nat (random1 mod num_pieces t) in
    (t, random_pass t pieces prefer_whole_pieces (Z.to_nat (num_blocks s)) suggested_pieces start_piece start_piece s).

(** The picker after the call, and the blocks. *)
Definition pick_pieces (pieces : bitfield) (interesting : list piece_block) (num_blocks0 prefer_whole_pieces peer : Z)
    (speed : piece_state_t) (options : Z) (suggested_pieces : list Z) (num_peers : Z) (t : piece_picker) :
    piece_picker * list piece_block :=
  let options := if num_peers * 3 / 2 <? Z.of_nat (length (m_downloads t)) then Z.lor options prioritize_partials else options in
  let prefer_whole_pieces := if has_option options ignore_whole_pieces then 0 else prefer_whole_pieces in
  let s := Picked interesting [] [] num_blocks0 in
  let s := if has_option options prioritize_partials
           then partials_pass t pieces prefer_whole_pieces peer speed options s else s in
  if num_blocks s <=? 0 then (t, interesting_blocks s)
  else
    let s := pick_each (add_free t pieces prefer_whole_pieces peer speed options []) suggested_pieces s in
    if num_blocks s <=? 0 then (t, interesting_blocks s)
    else
      let '(t, s) := order_pass pieces prefer_whole_pieces peer speed options suggested_pieces t s in
      if num_blocks s <=? 0 then (t, interesting_blocks s)
      else (t, interesting_blocks (last_pass t pieces prefer_whole_pieces peer speed options random2 s)).
End PickPieces.
