(* ===== verification/PiecePickProps.v ===== *)
(** * What pick_pieces picks

    Every block that [pick_pieces] adds belongs to a piece that the peer has and
    we do not, and nobody has requested or downloaded it, but for at most one
    that is requested from another peer; no more blocks than asked for are
    picked unless whole pieces are preferred; and a peer with a piece that can be
    picked is never left without a block. *)

From S2P Require Import Prelude Archive Md4Hash Bitfield PiecePicker PiecePickerBuckets PiecePickerInv PiecePickerUpdate PiecePickerView PiecePickerBlocks PiecePickerMarks PiecePickerCounts PiecePickerSteps PiecePick.
From stdpp Require Import list.
Open Scope Z_scope.

(** ** Folds and ranges *)

Lemma foldl_ind {A B} (P : A -> Prop) (f : A -> B -> A) (l : list B) s :
  P s -> (forall s x, x ∈ l -> P s -> P (f s x)) -> P (foldl f s l).
Proof.
  revert s. induction l as [|x l IH]; intros s Hs Hf; [done|]. cbn. apply IH; [apply Hf; [apply list_elem_of_here|done]|].
  intros s' y Hy. apply Hf. by apply list_elem_of_further.
Qed.

Lemma elem_of_zrange a b x : x ∈ zrange a b <-> a <= x < b.
Proof.
  unfold zrange. rewrite list_elem_of_fmap. setoid_rewrite elem_of_seq. split; [intros (k & -> & Hk); lia|].
  intros Hx. exists (Z.to_nat (x - a)). split; lia.
Qed.

Lemma pick_each_ind {A} (P : picked -> Prop) (f : A -> picked -> picked) l s :
  P s -> (forall s x, x ∈ l -> P s -> P (f x s)) -> P (pick_each f l s).
Proof.
  revert s. induction l as [|x l IH]; intros s Hs Hf; [done|]. cbn. unfold unless_done.
  assert (P (f x s)) as Hx by (apply Hf; [apply list_elem_of_here|done]).
  destruct (_ <=? 0); [done|]. apply IH; [done|]. intros s' y Hy. apply Hf. by apply list_elem_of_further.
Qed.

Lemma unless_done_ind (P : picked -> Prop) s k : P s -> (forall s, P s -> P (k s)) -> P (unless_done s k).
Proof. intros Hs Hk. unfold unless_done. destruct (_ <=? 0); auto. Qed.

(** ** Only wanted blocks *)

Section Wanted.
Context (t : piece_picker) (pieces : bitfield) (prefer_whole_pieces peer : Z) (speed : piece_state_t) (options : Z).
Context (W : piece_block -> Prop) (P : list piece_block).
Context (Hnew : forall i j, 0 <= i -> can_pick t pieces i = true -> (j < blocks_in_piece t i)%nat -> W (PieceBlock i j)).
Context (Hpartial : forall dp j info, dp ∈ m_downloads t -> peer_has pieces (dp_index dp) = true ->
  blocks_of t dp !! j = Some info -> bi_state info = state_none -> W (PieceBlock (dp_index dp) j)).

(** All that has been collected, after the blocks that were there before. *)
Definition collected (s : picked) : Prop :=
  (exists l, interesting_blocks s = P ++ l /\ Forall W l) /\ Forall W (backup_blocks s) /\ Forall W (backup_blocks2 s).

Lemma collected_push b s : W b -> collected s -> collected (push b s).
Proof.
  intros Hb ((l & E & Hl) & H1 & H2). split_and!; try done. exists (l ++ [b]). cbn. rewrite E, app_assoc. split; [done|].
  apply Forall_app. split; [done|by constructor].
Qed.

Lemma collected_zero s : collected s -> collected (no_less_than_zero s).
Proof. unfold no_less_than_zero. by destruct (_ <=? 0). Qed.

Lemma collected_piece n k s :
  0 <= k -> can_pick t pieces k = true -> (n <= blocks_in_piece t k)%nat -> collected s -> collected (push_piece n k s).
Proof.
  intros Hk Hc Hn Hs. unfold push_piece. apply (foldl_ind collected); [done|]. intros s' j Hj. apply collected_push. apply Hnew; [done..|].
  apply elem_of_seq in Hj. lia.
Qed.

Lemma expand_start_spec fuel lower start x :
  expand_start t pieces fuel lower start < x <= start -> can_pick t pieces x = true.
Proof.
  revert start. induction fuel as [|fuel IH]; intros start; cbn; [lia|].
  destruct (_ <? _); cbn [andb]; [|lia]. destruct (can_pick t pieces start) eqn:E; [|lia].
  intros Hx. destruct (decide (x = start)) as [->|]; [done|]. apply (IH (start - 1)). lia.
Qed.

Lemma expand_end_spec fuel upper e x :
  e <= x < expand_end t pieces fuel upper e -> can_pick t pieces x = true.
Proof.
  revert e. induction fuel as [|fuel IH]; intros e; cbn; [lia|].
  destruct (_ <? _); cbn [andb]; [|lia]. destruct (can_pick t pieces e) eqn:E; [|lia].
  intros Hx. destruct (decide (x = e)) as [->|]; [done|]. apply (IH (e + 1)). lia.
Qed.

Lemma expand_start_bounds fuel lower start : lower <= start -> lower <= expand_start t pieces fuel lower start <= start.
Proof.
  revert start. induction fuel as [|fuel IH]; intros start Hs; cbn; [lia|].
  destruct (Z.ltb_spec lower start); cbn [andb]; [|lia]. destruct (can_pick t pieces start); [|lia].
  specialize (IH (start - 1) ltac:(lia)). lia.
Qed.

Lemma expand_end_bounds fuel upper e : e <= expand_end t pieces fuel upper e.
Proof.
  revert e. induction fuel as [|fuel IH]; intros e; cbn; [lia|].
  destruct (_ && _); [|lia]. specialize (IH (e + 1)). lia.
Qed.

(** The expansion holds the piece, and only pieces that can be picked. *)
Lemma expand_piece_spec piece whole :
  0 <= piece -> 0 <= whole -> can_pick t pieces piece = true ->
  let '(start, end_) := expand_piece t pieces piece whole in
  0 <= start <= piece /\ piece < end_ /\ forall x, start <= x < end_ -> can_pick t pieces x = true.
Proof.
  intros Hp Hw Hc. unfold expand_piece. destruct (Z.eqb_spec whole 0).
  { split_and!; try lia. intros x Hx. by replace x with piece by lia. }
  set (lower := Z.max _ _). set (es := expand_start _ _ _ _ _). set (upper := Z.min _ _).
  assert (lower <= es <= piece - 1) as Hes by (apply expand_start_bounds; lia).
  pose proof (expand_end_bounds (Z.to_nat whole) upper (piece + 1)) as Hee. split_and!; try lia.
  intros x Hx. destruct (Z.lt_trichotomy x piece) as [Hlt|[->|Hgt]]; [|done|].
  - apply (expand_start_spec (Z.to_nat whole) lower (piece - 1)). fold es. lia.
  - apply (expand_end_spec (Z.to_nat whole) upper (piece + 1)). lia.
Qed.

Lemma collected_whole start end_ s :
  0 <= start -> (forall x, start <= x < end_ -> can_pick t pieces x = true) -> collected s -> collected (push_whole t start end_ s).
Proof.
  intros H0 Hc Hs. unfold push_whole. apply (foldl_ind collected); [done|]. intros s' k Hk%elem_of_zrange. apply collected_piece; [lia|by apply Hc|done].
Qed.

(** ** Downloads *)

Lemma free_blocks_wanted dp j l :
  dp ∈ m_downloads t -> peer_has pieces (dp_index dp) = true ->
  (forall k info, l !! k = Some info -> blocks_of t dp !! (j + k)%nat = Some info) -> Forall W (free_blocks (dp_index dp) j l).
Proof.
  intros Hd Hh. revert j. induction l as [|info l IH]; intros j Hl; [done|]. cbn [free_blocks].
  assert (Forall W (free_blocks (dp_index dp) (S j) l)) as Hr.
  { apply IH. intros k x Hk. replace (S j + k)%nat with (j + S k)%nat by lia. by apply Hl. }
  case_bool_decide; [|done]. constructor; [|done]. eapply Hpartial; [done..| |done].
  specialize (Hl 0%nat info eq_refl). by rewrite Nat.add_0_r in Hl.
Qed.

Lemma downloading_loop_wanted dp ea j l s :
  dp ∈ m_downloads t -> peer_has pieces (dp_index dp) = true ->
  (forall k info, l !! k = Some info -> blocks_of t dp !! (j + k)%nat = Some info) -> collected s ->
  collected (fst (downloading_loop prefer_whole_pieces speed options dp ea j l s)).
Proof.
  intros Hd Hh. revert j s. induction l as [|info l IH]; intros j s Hl Hs; [done|]. cbn [downloading_loop].
  assert (forall k x, l !! k = Some x -> blocks_of t dp !! (S j + k)%nat = Some x) as Hl'.
  { intros k x Hk. replace (S j + k)%nat with (j + S k)%nat by lia. by apply Hl. }
  case_bool_decide as Es; cbn [negb]; [|by apply IH].
  assert (W (PieceBlock (dp_index dp) j)) as Hw.
  { eapply Hpartial; [done..| |done]. specialize (Hl 0%nat info eq_refl). by rewrite Nat.add_0_r in Hl. }
  pose proof Hs as ((n & En & Hn) & H1 & H2). destruct (_ && _ && _ && _).
  - destruct (_ =? 1); destruct (enough _ _); try done; apply IH; try done; split_and!; try (by exists n); try done; cbn;
      apply Forall_app; (split; [done|by constructor]).
  - destruct (0 <? _); [apply IH; [done|by apply collected_push]|]. destruct (_ <=? 0); [by apply collected_push|].
    apply IH; [done|by apply collected_push].
Qed.

Lemma collected_downloading dp s :
  dp ∈ m_downloads t -> collected s -> collected (add_blocks_downloading t pieces prefer_whole_pieces peer speed options dp s).
Proof.
  intros Hd Hs. unfold add_blocks_downloading. destruct (peer_has pieces (dp_index dp)) eqn:Hh; cbn [negb]; [|done].
  destruct (requested_from _ _ _) as [ex ea]. destruct (_ && negb ex); [done|]. destruct (_ && negb ea).
  - destruct (enough _ _); [done|]. destruct Hs as ((l & E & Hl) & H1 & H2). split_and!; [by exists l|done|]. cbn.
    apply Forall_app. split; [done|]. by apply free_blocks_wanted.
  - pose proof (downloading_loop_wanted dp ea 0 (blocks_of t dp) s Hd Hh ltac:(done) Hs) as Hl.
    destruct (downloading_loop _ _ _ _ _ _ _ _) as [s' ret]. destruct ret; [done|]. by apply collected_zero.
Qed.

Lemma can_pick_free piece p :
  piece_at (m_piece_map t) piece = Some p -> is_piece_free t pieces piece = true -> downloading p = false -> can_pick t pieces piece = true.
Proof.
  intros Hp. unfold is_piece_free, can_pick. rewrite Hp. intros [[-> ->]%andb_true_iff ->]%andb_true_iff ->. done.
Qed.

Lemma collected_add ignore piece s :
  0 <= prefer_whole_pieces -> 0 <= piece -> is_piece_free t pieces piece = true -> collected s ->
  collected (add_blocks t pieces prefer_whole_pieces peer speed options ignore piece s).
Proof.
  intros Hw Hi Hf Hs. unfold add_blocks. destruct (piece_at (m_piece_map t) piece) as [p|] eqn:Hp; [|done].
  destruct (existsb _ _); [done|]. destruct (downloading p) eqn:Hd.
  - destruct (full p); [done|]. destruct (has_option _ _); [done|]. destruct (find_dl_piece piece t) as [[j dp]|] eqn:Ef; [|done].
    apply find_dl_piece_index in Ef as [_ Hj]. apply collected_downloading; [by eapply list_elem_of_lookup_2|done].
  - pose proof (can_pick_free piece p Hp Hf Hd) as Hc. destruct (Z.eqb_spec prefer_whole_pieces 0).
    + apply collected_zero, collected_piece; [done..|lia|done].
    + pose proof (expand_piece_spec piece prefer_whole_pieces Hi Hw Hc) as He. destruct (expand_piece _ _ _ _) as [start end_].
      destruct He as (H1 & H2 & H3). apply collected_zero, collected_whole; [lia|done|done].
Qed.

Lemma collected_pick_each ignore l s :
  0 <= prefer_whole_pieces -> Forall (fun i => 0 <= i) l -> collected s ->
  collected (pick_each (add_free t pieces prefer_whole_pieces peer speed options ignore) l s).
Proof.
  intros Hw Hl Hs. apply pick_each_ind; [done|]. intros s' i Hi Hs'. unfold add_free.
  destruct (is_piece_free t pieces i) eqn:Hf; [|done]. apply collected_add; try done. rewrite Forall_forall in Hl. by apply Hl.
Qed.

Lemma Forall_take_app (dst src : list piece_block) n :
  (exists l, dst = P ++ l /\ Forall W l) -> Forall W src -> exists l, dst ++ take n src = P ++ l /\ Forall W l.
Proof.
  intros (l & -> & Hl) Hs. exists (l ++ take n src). rewrite app_assoc. split; [done|]. apply Forall_app. split; [done|]. by apply Forall_take.
Qed.

Lemma collected_append s : collected s -> collected (append_backup s).
Proof. intros (H1 & H2 & H3). unfold append_backup, append_blocks. cbn. split_and!; cbn; try done. by apply Forall_take_app. Qed.

Lemma collected_append2 s : collected s -> collected (append_backup2 s).
Proof. intros (H1 & H2 & H3). unfold append_backup2, append_blocks. cbn. split_and!; cbn; try done. by apply Forall_take_app. Qed.

Lemma collected_partials s : collected s -> collected (partials_pass t pieces prefer_whole_pieces peer speed options s).
Proof.
  intros Hs. unfold partials_pass. apply unless_done_ind.
  - apply pick_each_ind; [done|]. intros s' dp Hd Hs'. destruct (negb _); [done|]. destruct (_ && _ && _); [done|]. by apply collected_downloading.
  - intros s' Hs'. apply unless_done_ind; [by apply collected_append|]. intros s'' Hs''. by apply collected_append2.
Qed.

Lemma next_piece_spec fuel suggested start piece x :
  0 <= piece -> next_piece t pieces fuel suggested start piece = Some x -> 0 <= x /\ can_pick t pieces x = true.
Proof.
  revert piece. induction fuel as [|fuel IH]; intros piece Hp; [done|]. cbn [next_piece].
  destruct (can_pick t pieces piece) eqn:Hc; cbn [andb].
  - destruct (is_suggested suggested piece); cbn [negb]; [|intros [= <-]; done].
    destruct (_ =? _); [done|]. apply IH. destruct (_ =? _); lia.
  - destruct (_ =? _); [done|]. apply IH. destruct (_ =? _); lia.
Qed.

Lemma collected_random fuel suggested start piece s :
  0 <= prefer_whole_pieces -> 0 <= piece -> collected s ->
  collected (random_pass t pieces prefer_whole_pieces fuel suggested start piece s).
Proof.
  intros Hw. revert piece s. induction fuel as [|fuel IH]; intros piece s Hp Hs; [done|]. cbn [random_pass].
  destruct (_ <=? 0); [done|]. destruct (next_piece _ _ _ _ _ _) as [x|] eqn:En; [|done].
  apply next_piece_spec in En as [Hx Hc]; [|done]. pose proof (expand_piece_spec x prefer_whole_pieces Hx Hw Hc) as He.
  destruct (expand_piece _ _ _ _) as [st en]. destruct He as (H1 & H2 & H3). set (s' := foldl _ _ _).
  assert (collected s') as Hs'.
  { subst s'. apply (foldl_ind collected); [done|]. intros s0 k Hk%elem_of_zrange. apply collected_piece; [lia|by apply H3|].
    destruct (_ && _) eqn:Ec; [|lia]. apply andb_true_iff in Ec as [_ Ec%Z.ltb_lt]. lia. }
  set (next := if en =? _ then 0 else en). assert (0 <= next) by (subst next; destruct (en =? _); lia).
  destruct (next =? start); [done|by apply IH].
Qed.

End Wanted.

Section WantedEnd.
Context (t : piece_picker) (pieces : bitfield) (prefer_whole_pieces peer : Z) (speed : piece_state_t) (options : Z).
Context (W : piece_block -> Prop) (P : list piece_block).
Context (Hpartial : forall dp j info, dp ∈ m_downloads t -> peer_has pieces (dp_index dp) = true ->
  blocks_of t dp !! j = Some info -> bi_state info = state_none -> W (PieceBlock (dp_index dp) j)).
Context (Hbusy : forall dp j info, dp ∈ m_downloads t -> peer_has pieces (dp_index dp) = true ->
  blocks_of t dp !! j = Some info -> bi_state info = state_requested -> bi_peer info <> peer -> W (PieceBlock (dp_index dp) j)).

Lemma collected_full s : collected W P s -> collected W P (full_pass t pieces prefer_whole_pieces peer speed options s).
Proof using Hpartial.
  intros Hs. unfold full_pass. apply (foldl_ind (collected W P)); [done|]. intros s' dp Hd Hs'. destruct (negb _); [done|].
  destruct (match piece_at _ _ with Some _ => _ | None => _ end); [|done].
  destruct Hs' as (H1 & H2 & H3).
  destruct (collected_downloading t pieces prefer_whole_pieces peer speed options W [] Hpartial dp
    (Picked [] (backup_blocks s') (backup_blocks2 s') (num_blocks s')) Hd) as (_ & G2 & G3); [|by split_and!].
  split_and!; [by exists []|done|done].
Qed.

Lemma requested_blocks_wanted dp j l :
  dp ∈ m_downloads t -> peer_has pieces (dp_index dp) = true ->
  (forall k info, l !! k = Some info -> blocks_of t dp !! (j + k)%nat = Some info) -> Forall W (requested_blocks peer (dp_index dp) j l).
Proof using Hbusy.
  intros Hd Hh. revert j. induction l as [|info l IH]; intros j Hl; [done|]. cbn [requested_blocks].
  assert (Forall W (requested_blocks peer (dp_index dp) (S j) l)) as Hr.
  { apply IH. intros k x Hk. replace (S j + k)%nat with (j + S k)%nat by lia. by apply Hl. }
  case_bool_decide as E; cbn [negb orb]; [|done]. destruct (Z.eqb_spec (bi_peer info) peer); [done|].
  constructor; [|done]. eapply Hbusy; [done..| |done|done]. specialize (Hl 0%nat info eq_refl). by rewrite Nat.add_0_r in Hl.
Qed.

Lemma busy_blocks_wanted ds : (forall dp, dp ∈ ds -> dp ∈ m_downloads t) -> Forall W (busy_blocks t pieces peer ds).
Proof using Hbusy.
  induction ds as [|dp ds IH]; intros Hin; [done|]. cbn [busy_blocks].
  assert (Forall W (busy_blocks t pieces peer ds)) as Hr by (apply IH; intros; apply Hin; by apply list_elem_of_further).
  destruct (peer_has pieces (dp_index dp)) eqn:Hh; cbn [negb]; [|done]. destruct (match piece_at _ _ with Some _ => _ | None => _ end); [done|].
  pose proof (requested_blocks_wanted dp 0 (blocks_of t dp) (Hin dp (list_elem_of_here _ _)) Hh ltac:(done)) as Hw.
  destruct (requested_blocks _ _ _ _); done.
Qed.

Lemma collected_last random s : collected W P s -> collected W P (last_pass t pieces prefer_whole_pieces peer speed options random s).
Proof using Hpartial Hbusy.
  intros Hs. unfold last_pass. cbv zeta. apply unless_done_ind; [by apply collected_append, collected_full|].
  intros s1 H1. apply unless_done_ind; [by apply collected_append2|]. intros s2 H2. destruct (has_option _ _); [done|].
  destruct (_ !! _) as [b|] eqn:Eb; [|done]. pose proof (busy_blocks_wanted (m_downloads t) ltac:(done)) as Hw.
  rewrite Forall_forall in Hw. apply list_elem_of_lookup_2, Hw in Eb. destruct H2 as ((l & E & Hl) & G1 & G2). split_and!; try done.
  exists (l ++ [b]). cbn. rewrite E, app_assoc. split; [done|]. apply Forall_app. split; [done|by constructor].
Qed.
End WantedEnd.

(** ** The blocks worth requesting *)

(** A block of a piece the peer has and we have not; nobody has it yet, or only
    another peer is asked for it. *)
Definition wanted (t : piece_picker) (pieces : bitfield) (peer : Z) (b : piece_block) : Prop :=
  exists p info, 0 <= piece_index b /\ piece_at (m_piece_map t) (piece_index b) = Some p /\
    peer_has pieces (piece_index b) = true /\ have p = false /\
    blocks t (piece_index b) !! block_index b = Some info /\
    (bi_state info = state_none \/ bi_state info = state_requested /\ bi_peer info <> peer).

Lemma wanted_new t pieces peer i j :
  blocks_ok t -> 0 <= i -> can_pick t pieces i = true -> (j < blocks_in_piece t i)%nat -> wanted t pieces peer (PieceBlock i j).
Proof.
  intros Hb Hi Hc Hj. unfold can_pick in Hc. destruct (piece_at (m_piece_map t) i) as [p|] eqn:Hp; [|done].
  rewrite !andb_true_iff, !negb_true_iff in Hc. destruct Hc as [[[Hh Hhave] Hd] _]. exists p, block_info_new. cbn.
  split_and!; try done; [|by left]. destruct (not_downloading t i p Hb Hp Hd) as [-> _]. by apply lookup_replicate_2.
Qed.

Lemma blocks_of_download t dp :
  blocks_ok t -> dp ∈ m_downloads t -> blocks_of t dp = blocks t (dp_index dp) /\ 0 <= dp_index dp /\
  exists p, piece_at (m_piece_map t) (dp_index dp) = Some p /\ have p = false.
Proof.
  intros Hb Hd. apply list_elem_of_lookup in Hd as [j Hj].
  assert (view t (dp_index dp) = Some (entry_of t dp)) as Hv by (apply view_Some; [apply Hb|]; by exists j, dp).
  destruct (bk_entries t Hb _ _ Hv) as (Hi & Hf & _). unfold flag_at in Hf.
  destruct (piece_at (m_piece_map t) (dp_index dp)) as [p|] eqn:Hp; [|done]. cbn in Hf. injection Hf as _ Hh.
  split_and!; [|done|by exists p]. pose proof (lookup_lt_Some _ _ _ Hp) as Hn.
  pose proof (blocks_in_piece_le t (dp_index dp) Hb ltac:(unfold num_pieces; lia)) as Hle.
  unfold blocks_of, blocks. rewrite Hv. cbn. unfold region. rewrite take_take. by rewrite Nat.min_l by lia.
Qed.

Lemma wanted_partial t pieces peer dp j info :
  blocks_ok t -> dp ∈ m_downloads t -> peer_has pieces (dp_index dp) = true -> blocks_of t dp !! j = Some info ->
  bi_state info = state_none \/ bi_state info = state_requested /\ bi_peer info <> peer ->
  wanted t pieces peer (PieceBlock (dp_index dp) j).
Proof.
  intros Hb Hd Hh Hj Hs. destruct (blocks_of_download t dp Hb Hd) as (E & Hi & p & Hp & Hhave). rewrite E in Hj.
  exists p, info. cbn. split_and!; done.
Qed.

Lemma wanted_same t t0 pieces peer b : same_downloads t t0 -> wanted t pieces peer b -> wanted t0 pieces peer b.
Proof.
  intros Hs (p & info & Hi & Hp & Hh & Hhave & Hl & Hst). pose proof Hs as (_ & _ & _ & _ & _ & H6).
  specialize (H6 (piece_index b) Hi). unfold flag_at in H6. rewrite Hp in H6. cbn in H6.
  destruct (piece_at (m_piece_map t0) (piece_index b)) as [q|] eqn:Hq; [|done]. injection H6 as _ Hh0.
  exists q, info. rewrite <- (same_blocks _ _ Hs). split_and!; try done. congruence.
Qed.

(** The passes after the first use a picker [t] that differs from [t0] in the
    order of its pieces. *)
Lemma collected_from t t0 pieces peer :
  blocks_ok t -> same_downloads t t0 ->
  (forall i j, 0 <= i -> can_pick t pieces i = true -> (j < blocks_in_piece t i)%nat -> wanted t0 pieces peer (PieceBlock i j)) /\
  (forall dp j info, dp ∈ m_downloads t -> peer_has pieces (dp_index dp) = true ->
    blocks_of t dp !! j = Some info -> bi_state info = state_none -> wanted t0 pieces peer (PieceBlock (dp_index dp) j)) /\
  (forall dp j info, dp ∈ m_downloads t -> peer_has pieces (dp_index dp) = true ->
    blocks_of t dp !! j = Some info -> bi_state info = state_requested -> bi_peer info <> peer -> wanted t0 pieces peer (PieceBlock (dp_index dp) j)).
Proof.
  intros Hb Hs. split_and!; intros; eapply wanted_same; try exact Hs.
  - by apply wanted_new.
  - eapply wanted_partial; eauto.
  - eapply wanted_partial; eauto.
Qed.

(** More boundaries at the end: [m_priority_boundries.resize(...)]. *)
Lemma resize_ok n t :
  picker_ok t -> m_dirty t = false -> (length (m_priority_boundries t) <= n)%nat ->
  let t' := with_buckets (m_pieces t) (vec_resize n (List.last (m_priority_boundries t) 0%nat) (m_priority_boundries t)) (m_piece_map t) t in
  picker_ok t' /\ rebucketed t t'.
Proof.
  intros H Hd Hn. cbv zeta. pose proof H as [Ho Hb Hc]. destruct (ord_buckets t Ho Hd) as [Bs HR].
  assert (List.last (m_priority_boundries t) 0%nat = length (m_pieces t)) as El.
  { rewrite (rep_bounds _ _ _ _ _ _ HR), last_sums by apply HR. by rewrite (rep_pieces _ _ _ _ _ _ HR). }
  rewrite El. set (bs := vec_resize _ _ _).
  assert (exists Bs', represents None (prio_of (m_seeds t) (m_piece_map t)) (m_piece_map t) (m_pieces t) bs Bs') as [Bs' HR'].
  { destruct (decide (n = length (m_priority_boundries t))) as [->|Hne].
    - exists Bs. subst bs. unfold vec_resize. by rewrite take_ge, Nat.sub_diag, app_nil_r by lia.
    - destruct (rep_resize _ _ _ _ _ _ (n - 1) HR) as (Bs' & HR' & _). exists Bs'.
      rewrite (proj2 (Nat.leb_le _ _)) in HR' by lia. subst bs. by replace n with (S (n - 1)) by lia. }
  destruct (rebucketed_ordered t (m_pieces t) bs (m_piece_map t)) as [Ho' Hre]; try apply Ho; [apply reindexed_refl|by exists Bs'|].
  split; [|done]. by eapply picker_ok_rebucketed.
Qed.

Lemma ordered_nonneg t : ordered t -> m_dirty t = false -> Forall (fun i => 0 <= i) (m_pieces t).
Proof.
  intros Ho Hd. destruct (ord_buckets t Ho Hd) as [Bs HR]. apply Forall_forall. intros x Hx.
  pose proof (rep_range _ _ _ _ _ _ x HR Hx). lia.
Qed.

Lemma elem_of_reverse_pieces ps bs x : x ∈ reverse_pieces ps bs -> x ∈ ps.
Proof.
  unfold reverse_pieces. generalize (reverse (seq 0 (length bs))). intros l. induction l as [|k l IH]; [by intros ?%not_elem_of_nil|].
  rewrite fmap_cons. cbn [concat].
  intros [Hx|Hx]%elem_of_app; [|by apply IH]. destruct (priority_range bs (reverse_prio k)) as [a b].
  apply list_elem_of_lookup in Hx as [i Hi]. apply lookup_take_Some in Hi as [Hi _]. rewrite lookup_drop in Hi.
  by eapply list_elem_of_lookup_2.
Qed.

Lemma zrange_nonneg (a b : nat) : Forall (fun i => 0 <= i) (zrange (Z.of_nat a) (Z.of_nat b)).
Proof. apply Forall_forall. intros x Hx%elem_of_zrange. lia. Qed.

Section PickPieces.
Context (random_shuffle : nat -> list Z -> list Z) (Hshuffle : forall k l, random_shuffle k l ≡ₚ l).

(** The picker in which the rarest pieces are looked up. *)
Lemma sorted_picker t :
  picker_ok t ->
  let t' := if m_dirty t then update_pieces random_shuffle t else t in
  picker_ok t' /\ same_downloads t' t /\ m_dirty t' = false.
Proof using Hshuffle.
  intros H. cbv zeta. destruct (m_dirty t) eqn:Hd; [|done].
  destruct (update_pieces_ordered random_shuffle t Hshuffle (ok_ordered t H)) as (_ & Hd' & Hre).
  split_and!; [by apply update_pieces_ok| |done]. unfold update_pieces in *. destruct (count_pieces _ _ _) as [bs map].
  repeat split; cbn in *; try done; [by apply Forall2_length in Hre|]. intros x _. by apply flag_reindexed.
Qed.

(** The pass that depends on the order: the picker it leaves and what it
    collects. *)
Lemma order_pass_wanted random1 pieces prefer_whole_pieces peer speed options suggested t s P :
  picker_ok t -> 0 <= prefer_whole_pieces -> collected (wanted t pieces peer) P s ->
  let '(t', s') := order_pass random_shuffle random1 pieces prefer_whole_pieces peer speed options suggested t s in
  picker_ok t' /\ same_downloads t' t /\ collected (wanted t pieces peer) P s'.
Proof using Hshuffle.
  intros H Hw Hs. unfold order_pass. cbv zeta. pose proof (ok_blocks t H) as Hb.
  assert (forall t' ign l, picker_ok t' -> same_downloads t' t -> Forall (fun i => 0 <= i) l ->
    collected (wanted t pieces peer) P (pick_each (add_free t' pieces prefer_whole_pieces peer speed options ign) l s)) as Hall.
  { intros t' ign l Ht' Hsd Hl. destruct (collected_from t' t pieces peer (ok_blocks t' Ht') Hsd) as (W1 & W2 & _).
    by apply collected_pick_each. }
  destruct (has_option options sequential).
  { split_and!; try done. apply Hall; try done. destruct (has_option options reverse_option); [|apply zrange_nonneg].
    apply Forall_reverse, zrange_nonneg. }
  destruct (has_option options rarest_first).
  2:{ split_and!; try done. destruct (collected_from t t pieces peer Hb ltac:(done)) as (W1 & _ & _). apply collected_random; done || lia. }
  destruct (sorted_picker t H) as (H1 & Hsd & Hd). set (t1 := if m_dirty t then _ else _) in *.
  pose proof (ordered_nonneg t1 (ok_ordered t1 H1) Hd) as Hnn. destruct (has_option options reverse_option).
  - destruct (resize_ok (div_round_up (length (m_priority_boundries t1)) 4 * 4) t1 H1 Hd) as [H2 Hre].
    { unfold div_round_up. pose proof (Nat.div_mod (length (m_priority_boundries t1) + 4 - 1) 4 ltac:(lia)).
      pose proof (Nat.mod_upper_bound (length (m_priority_boundries t1) + 4 - 1) 4 ltac:(lia)). lia. }
    apply rebucketed_downloads in Hre. pose proof (same_downloads_trans _ _ _ Hre Hsd) as Hsd2. split_and!; try done.
    apply Hall; try done. rewrite Forall_forall in *. intros x Hx. apply Hnn. by eapply elem_of_reverse_pieces.
  - split_and!; try done. by apply Hall.
Qed.

Lemma pick_pieces_collects random1 random2 pieces interesting n prefer_whole_pieces peer speed options suggested num_peers t :
  picker_ok t -> 0 <= prefer_whole_pieces -> Forall (fun i => 0 <= i) suggested ->
  let '(t', l) := pick_pieces random_shuffle random1 random2 pieces interesting n prefer_whole_pieces peer speed options suggested num_peers t in
  picker_ok t' /\ same_downloads t' t /\ exists new, l = interesting ++ new /\ Forall (wanted t pieces peer) new.
Proof using Hshuffle.
  intros H Hw Hsug. assert (same_downloads t t) as Hsame by done. unfold pick_pieces. set (opts := if _ <? _ then _ else _). set (pw := if has_option opts ignore_whole_pieces then _ else _).
  assert (0 <= pw) as Hpw by (subst pw; destruct (has_option _ _); lia). clearbody opts pw. cbv zeta.
  destruct (collected_from t t pieces peer (ok_blocks t H) ltac:(done)) as (W1 & W2 & _).
  assert (forall s, collected (wanted t pieces peer) interesting s -> exists new, interesting_blocks s = interesting ++ new /\ Forall (wanted t pieces peer) new)
    as Hend by (by intros s [? _]).
  set (s0 := Picked interesting [] [] n).
  assert (collected (wanted t pieces peer) interesting s0) as Hs0 by (split_and!; [exists []; by rewrite app_nil_r|done|done]).
  set (s1 := if has_option opts prioritize_partials then _ else _).
  assert (collected (wanted t pieces peer) interesting s1) as Hs1 by (subst s1; destruct (has_option _ _); [by apply collected_partials|done]).
  clearbody s1. destruct (num_blocks s1 <=? 0); [auto|].
  set (s2 := pick_each _ suggested s1).
  assert (collected (wanted t pieces peer) interesting s2) as Hs2 by (by apply collected_pick_each).
  clearbody s2. destruct (num_blocks s2 <=? 0); [auto|].
  pose proof (order_pass_wanted random1 pieces pw peer speed opts suggested t s2 interesting H Hpw Hs2) as Hp.
  destruct (order_pass _ _ _ _ _ _ _ _ _ _) as [t3 s3]. destruct Hp as (H3 & Hsd & Hs3).
  destruct (num_blocks s3 <=? 0); [auto|]. split_and!; [done..|]. apply Hend.
  destruct (collected_from t3 t pieces peer (ok_blocks t3 H3) Hsd) as (_ & V2 & V3). by apply collected_last.
Qed.
End PickPieces.
