(* ===== verification/PiecePickBounds.v ===== *)
(** * How much pick_pieces picks

    Not more than asked for, unless whole pieces are preferred; at least one
    block when the peer has a piece that can be picked; and the loops of the
    picker end, the fuel of the model being enough. *)

From S2P Require Import Prelude Archive Md4Hash Bitfield PiecePicker PiecePickerBuckets PiecePickerInv PiecePickerUpdate PiecePickerView PiecePickerBlocks PiecePickerMarks PiecePickerCounts PiecePickerSteps PiecePick PiecePickProps.
From stdpp Require Import list.
Open Scope Z_scope.

Abbreviation count s := (Z.of_nat (length (interesting_blocks s))).

Lemma count_push b s : count (push b s) = count s + 1.
Proof. cbn. rewrite length_app. cbn. lia. Qed.

Lemma push_from_count n j k s :
  let s' := foldl (fun s j => push (PieceBlock k j) s) s (seq j n) in
  count s' = count s + Z.of_nat n /\ num_blocks s' = num_blocks s - Z.of_nat n.
Proof.
  revert s j. induction n as [|n IH]; intros s j; [cbn [seq foldl]; lia|].
  cbn [seq foldl]. destruct (IH (push (PieceBlock k j) s) (S j)) as [-> ->]. rewrite count_push. cbn [num_blocks push]. lia.
Qed.

Lemma push_piece_count n k s :
  count (push_piece n k s) = count s + Z.of_nat n /\ num_blocks (push_piece n k s) = num_blocks s - Z.of_nat n.
Proof. apply push_from_count. Qed.

(** ** At most what was asked for *)

Section Budget.
Context (t : piece_picker) (pieces : bitfield) (peer : Z) (speed : piece_state_t) (options : Z) (N : Z).

Definition budget (s : picked) : Prop := 0 <= num_blocks s /\ count s + num_blocks s = N.

Lemma budget_zero s : budget s -> budget (no_less_than_zero s).
Proof. unfold no_less_than_zero, budget. destruct (Z.leb_spec (num_blocks s) 0); [|done]. cbn. lia. Qed.

Lemma budget_loop dp ea j l s :
  budget s -> 0 < num_blocks s -> budget (fst (downloading_loop 0 speed options dp ea j l s)).
Proof.
  revert j s. induction l as [|info l IH]; intros j s Hs Hn; [done|]. cbn [downloading_loop].
  destruct (negb _); [by apply IH|]. change (0 <? 0) with false. cbv iota.
  destruct (_ && _ && _ && _).
  - destruct (_ =? 1); destruct (enough _ _); try done; by apply IH.
  - assert (budget (push (PieceBlock (dp_index dp) j) s)) as Hp.
    { destruct Hs. split; [cbn; lia|]. rewrite count_push. cbn. lia. }
    destruct (Z.leb_spec (num_blocks (push (PieceBlock (dp_index dp) j) s)) 0); [done|]. by apply IH.
Qed.

Lemma budget_downloading dp s :
  budget s -> 0 < num_blocks s -> budget (add_blocks_downloading t pieces 0 peer speed options dp s).
Proof.
  intros Hs Hn. unfold add_blocks_downloading. destruct (negb _); [done|]. destruct (requested_from _ _ _) as [ex ea].
  destruct (_ && negb ex); [done|]. change (0 <? 0) with false. cbn [andb].
  pose proof (budget_loop dp ea 0 (blocks_of t dp) s Hs Hn) as Hl.
  destruct (downloading_loop _ _ _ _ _ _ _ _) as [s' ret]. destruct ret; [done|]. by apply budget_zero.
Qed.

Lemma budget_add ignore piece s :
  budget s -> 0 < num_blocks s -> budget (add_free t pieces 0 peer speed options ignore piece s).
Proof.
  intros Hs Hn. unfold add_free, add_blocks. destruct (is_piece_free _ _ _); [|done].
  destruct (piece_at _ _) as [p|]; [|done]. destruct (existsb _ _); [done|]. destruct (downloading p).
  - destruct (full p); [done|]. destruct (has_option _ _); [done|]. destruct (find_dl_piece _ _) as [[j dp]|]; [|done].
    by apply budget_downloading.
  - change (0 =? 0) with true. cbv iota. apply budget_zero. destruct Hs as [H1 H2]. set (n := Z.to_nat _).
    destruct (push_piece_count n piece s) as [E1 E2]. split; [|lia]. rewrite E2. subst n. lia.
Qed.

Lemma budget_each {A} (f : A -> picked -> picked) l s :
  (forall x s, budget s -> 0 < num_blocks s -> budget (f x s)) -> budget s -> 0 < num_blocks s -> budget (pick_each f l s).
Proof.
  intros Hf. revert s. induction l as [|x l IH]; intros s Hs Hn; [done|]. cbn. unfold unless_done.
  specialize (Hf x s Hs Hn) as Hx. destruct (Z.leb_spec (num_blocks (f x s)) 0); [done|]. by apply IH.
Qed.

Lemma budget_append s : budget s -> budget (append_backup s) /\ budget (append_backup2 s).
Proof.
  intros [H1 H2]. unfold append_backup, append_backup2, append_blocks, budget. cbn. rewrite !length_app, !length_take. lia.
Qed.

Lemma budget_partials s : budget s -> 0 < num_blocks s -> budget (partials_pass t pieces 0 peer speed options s).
Proof.
  intros Hs Hn. unfold partials_pass. apply unless_done_ind.
  - apply budget_each; [|done..]. intros dp s' Hs' Hn'. destruct (negb _); [done|]. destruct (_ && _ && _); [done|]. by apply budget_downloading.
  - intros s' Hs'. apply unless_done_ind; [by apply budget_append|]. intros s'' Hs''. by apply budget_append.
Qed.

Lemma budget_random fuel suggested start piece s :
  budget s -> budget (random_pass t pieces 0 fuel suggested start piece s).
Proof.
  revert piece s. induction fuel as [|fuel IH]; intros piece s Hs; [done|]. cbn [random_pass].
  destruct (Z.leb_spec (num_blocks s) 0); [done|]. destruct (next_piece _ _ _ _ _ _) as [x|]; [|done].
  unfold expand_piece. change (0 =? 0) with true. cbv iota. set (s' := foldl _ _ _). assert (budget s') as Hs'.
  { subst s'. apply (foldl_ind budget); [done|]. intros s0 k _ [H1 H2]. cbn [andb]. set (n := Z.to_nat _).
    destruct (push_piece_count n k s0) as [E1 E2]. split; [|lia]. rewrite E2. subst n.
    destruct (Z.ltb_spec (num_blocks s0) (Z.of_nat (blocks_in_piece t k))); lia. }
  destruct (_ =? start); [done|]. by apply IH.
Qed.

Lemma full_pass_count p s : interesting_blocks (full_pass t pieces p peer speed options s) = interesting_blocks s /\
  num_blocks (full_pass t pieces p peer speed options s) = num_blocks s.
Proof.
  unfold full_pass. apply (foldl_ind (fun s' => interesting_blocks s' = interesting_blocks s /\ num_blocks s' = num_blocks s)); [done|].
  intros s' dp _ Hs'. destruct (negb _); [done|]. by destruct (match piece_at _ _ with Some _ => _ | None => _ end).
Qed.

(** The last block comes when there is room. *)
Lemma budget_last random s :
  budget s -> count (last_pass t pieces 0 peer speed options random s) <= N.
Proof.
  intros Hs. unfold last_pass. cbv zeta. destruct (full_pass_count 0 s) as [E1 E2].
  set (s1 := full_pass _ _ _ _ _ _ _) in *. assert (budget s1) as H1 by (unfold budget in *; by rewrite E1, E2).
  destruct (budget_append s1 H1) as [H2 _]. set (s2 := append_backup s1) in *. unfold unless_done.
  destruct (_ <=? 0); [destruct H2; lia|]. destruct (budget_append s2 H2) as [_ H3]. set (s3 := append_backup2 s2) in *.
  destruct (Z.leb_spec (num_blocks s3) 0); [destruct H3; lia|]. destruct H3 as [H3 H4].
  destruct (has_option _ _); [lia|]. destruct (_ !! _); [|lia]. cbn [interesting_blocks]. rewrite length_app. cbn [length]. lia.
Qed.
End Budget.

(** ** At least one block *)

Section Progress.
Context (t : piece_picker) (pieces : bitfield) (prefer_whole_pieces peer : Z) (speed : piece_state_t) (options : Z).

(** Blocks are only added, and paid for. *)
Definition grows (s s' : picked) : Prop := count s <= count s' /\ count s + num_blocks s <= count s' + num_blocks s'.

Lemma grows_refl s : grows s s.
Proof. unfold grows. lia. Qed.
Lemma grows_trans s1 s2 s3 : grows s1 s2 -> grows s2 s3 -> grows s1 s3.
Proof. unfold grows. lia. Qed.
Lemma grows_zero s : grows s (no_less_than_zero s).
Proof. unfold grows, no_less_than_zero. destruct (Z.leb_spec (num_blocks s) 0); cbn; lia. Qed.
Lemma grows_push b s : grows s (push b s).
Proof. unfold grows. rewrite count_push. cbn. lia. Qed.
Lemma grows_piece n k s : grows s (push_piece n k s).
Proof. unfold grows. destruct (push_piece_count n k s) as [-> ->]. lia. Qed.

Lemma grows_foldl {A} (f : picked -> A -> picked) l s : (forall s x, grows s (f s x)) -> grows s (foldl f s l).
Proof.
  intros Hf. apply (foldl_ind (grows s)); [apply grows_refl|]. intros s' x _ Hs'. eapply grows_trans; [done|apply Hf].
Qed.

Lemma grows_each {A} (f : A -> picked -> picked) l s : (forall x s, grows s (f x s)) -> grows s (pick_each f l s).
Proof.
  intros Hf. apply (pick_each_ind (grows s)); [apply grows_refl|]. intros s' x _ Hs'. eapply grows_trans; [done|apply Hf].
Qed.

Lemma grows_whole a b s : grows s (push_whole t a b s).
Proof. unfold push_whole. apply grows_foldl. intros. apply grows_piece. Qed.

Lemma grows_loop dp ea j l s : grows s (fst (downloading_loop prefer_whole_pieces speed options dp ea j l s)).
Proof.
  revert j s. induction l as [|info l IH]; intros j s; [apply grows_refl|]. cbn [downloading_loop].
  destruct (negb _); [apply IH|]. pose proof (grows_push (PieceBlock (dp_index dp) j) s) as Hp. destruct (_ && _ && _ && _).
  - destruct (_ =? 1); destruct (enough _ _); try apply grows_refl.
    + apply (grows_trans _ (push_backup (PieceBlock (dp_index dp) j) s)); [unfold grows; cbn; lia|apply IH].
    + apply (grows_trans _ (push_backup2 (PieceBlock (dp_index dp) j) s)); [unfold grows; cbn; lia|apply IH].
  - destruct (0 <? _); [eapply grows_trans; [exact Hp|apply IH]|]. destruct (_ <=? 0); [exact Hp|eapply grows_trans; [exact Hp|apply IH]].
Qed.

Lemma grows_downloading dp s : grows s (add_blocks_downloading t pieces prefer_whole_pieces peer speed options dp s).
Proof.
  unfold add_blocks_downloading. destruct (negb _); [apply grows_refl|]. destruct (requested_from _ _ _) as [ex ea].
  destruct (_ && negb ex); [apply grows_refl|]. destruct (_ && negb ea).
  - destruct (enough _ _); [apply grows_refl|]. unfold grows. cbn. lia.
  - pose proof (grows_loop dp ea 0 (blocks_of t dp) s) as Hl. destruct (downloading_loop _ _ _ _ _ _ _ _) as [s' ret].
    destruct ret; [done|]. eapply grows_trans; [exact Hl|apply grows_zero].
Qed.

Lemma grows_add ignore piece s : grows s (add_free t pieces prefer_whole_pieces peer speed options ignore piece s).
Proof.
  unfold add_free, add_blocks. destruct (is_piece_free _ _ _); [|apply grows_refl].
  destruct (piece_at _ _) as [p|]; [|apply grows_refl]. destruct (existsb _ _); [apply grows_refl|]. destruct (downloading p).
  - destruct (full p); [apply grows_refl|]. destruct (has_option _ _); [apply grows_refl|].
    destruct (find_dl_piece _ _) as [[j dp]|]; [|apply grows_refl]. apply grows_downloading.
  - destruct (_ =? 0); [eapply grows_trans; [apply grows_piece|apply grows_zero]|].
    destruct (expand_piece _ _ _ _) as [a b]. eapply grows_trans; [apply grows_whole|apply grows_zero].
Qed.

Lemma grows_append s : 0 <= num_blocks s -> grows s (append_backup s) /\ grows s (append_backup2 s).
Proof. intros Hn. unfold append_backup, append_backup2, append_blocks, grows. cbn. rewrite !length_app, !length_take. lia. Qed.

Lemma grows_partials s : grows s (partials_pass t pieces prefer_whole_pieces peer speed options s).
Proof.
  unfold partials_pass. set (s1 := pick_each _ _ _). assert (grows s s1) as H1.
  { apply grows_each. intros dp s'. destruct (negb _); [apply grows_refl|]. destruct (_ && _ && _); [apply grows_refl|]. apply grows_downloading. }
  unfold unless_done. destruct (Z.leb_spec (num_blocks s1) 0); [done|].
  destruct (grows_append s1 ltac:(lia)) as [H2 _]. pose proof (grows_trans _ _ _ H1 H2) as H3.
  destruct (Z.leb_spec (num_blocks (append_backup s1)) 0); [done|]. eapply grows_trans; [exact H3|]. apply grows_append. lia.
Qed.

Lemma grows_random fuel suggested start piece s : grows s (random_pass t pieces prefer_whole_pieces fuel suggested start piece s).
Proof.
  revert piece s. induction fuel as [|fuel IH]; intros piece s; [apply grows_refl|]. cbn [random_pass].
  destruct (_ <=? 0); [apply grows_refl|]. destruct (next_piece _ _ _ _ _ _) as [x|]; [|apply grows_refl].
  destruct (expand_piece _ _ _ _) as [a b]. set (s' := foldl _ _ _). assert (grows s s') as Hs'.
  { subst s'. apply grows_foldl. intros. apply grows_piece. }
  destruct (_ =? start); [done|]. eapply grows_trans; [done|apply IH].
Qed.

Lemma grows_last random s : 0 < num_blocks s -> count s <= count (last_pass t pieces prefer_whole_pieces peer speed options random s).
Proof.
  intros Hn. unfold last_pass. cbv zeta. destruct (full_pass_count t pieces peer speed options prefer_whole_pieces s) as [E1 E2].
  set (s1 := full_pass _ _ _ _ _ _ _) in *. rewrite <- E1. destruct (grows_append s1 ltac:(lia)) as [[H2 _] _].
  unfold unless_done. destruct (Z.leb_spec (num_blocks (append_backup s1)) 0); [done|].
  destruct (grows_append (append_backup s1) ltac:(lia)) as [_ [H3 _]].
  destruct (_ <=? 0); [lia|]. destruct (has_option _ _); [lia|]. destruct (_ !! _); [|lia]. cbn [interesting_blocks]. rewrite length_app. lia.
Qed.

(** ** A piece that can be picked is *)

Context (Hw : 0 <= prefer_whole_pieces).

Lemma whole_progress i a b s :
  (forall x, a <= x < b -> (0 < blocks_in_piece t x)%nat) -> a <= i < b -> count s < count (push_whole t a b s).
Proof.
  intros Hb Hi. unfold push_whole. assert (i ∈ zrange a b) as Hin by (by apply elem_of_zrange).
  assert (forall x, x ∈ zrange a b -> (0 < blocks_in_piece t x)%nat) as Hb' by (intros x Hx%elem_of_zrange; auto).
  destruct (zrange a b) as [|x l]; [by apply not_elem_of_nil in Hin|]. cbn [foldl].
  destruct (push_piece_count (blocks_in_piece t x) x s) as [E _]. specialize (Hb' x (list_elem_of_here _ _)).
  destruct (grows_foldl (fun s k => push_piece (blocks_in_piece t k) k s) l (push_piece (blocks_in_piece t x) x s)) as [H1 _].
  { intros. apply grows_piece. }
  lia.
Qed.

Lemma add_progress ignore i s :
  0 <= i -> can_pick t pieces i = true -> existsb (Z.eqb i) ignore = false -> (forall x, (0 < blocks_in_piece t x)%nat) ->
  0 < num_blocks s -> count s < count (add_free t pieces prefer_whole_pieces peer speed options ignore i s).
Proof using Hw.
  intros Hi Hc Hig Hb Hn. unfold add_free, add_blocks. pose proof Hc as Hc'. unfold can_pick in Hc. unfold is_piece_free.
  destruct (piece_at (m_piece_map t) i) as [p|]; [|done]. rewrite !andb_true_iff, !negb_true_iff in Hc.
  destruct Hc as [[[-> ->] ->] ->]. cbn [andb negb]. rewrite Hig. destruct (Z.eqb_spec prefer_whole_pieces 0).
  - set (n := Z.to_nat _). destruct (push_piece_count n i s) as [E _]. destruct (grows_zero (push_piece n i s)) as [Hg _].
    specialize (Hb i). subst n. lia.
  - pose proof (expand_piece_spec t pieces i prefer_whole_pieces Hi Hw Hc') as He.
    destruct (expand_piece _ _ _ _) as [a b]. destruct He as (H1 & H2 & _).
    destruct (grows_zero (push_whole t a b s)) as [Hg _].
    pose proof (whole_progress i a b s ltac:(intros; apply Hb) ltac:(lia)). lia.
Qed.

(** A loop that meets the piece picks something, or is done already. *)
Lemma each_progress ignore l i s :
  i ∈ l -> 0 <= i -> can_pick t pieces i = true -> existsb (Z.eqb i) ignore = false -> (forall x, (0 < blocks_in_piece t x)%nat) ->
  0 < num_blocks s -> count s < count (pick_each (add_free t pieces prefer_whole_pieces peer speed options ignore) l s).
Proof using Hw.
  intros Hin Hi Hc Hig Hb. revert s. induction l as [|x l IH]; intros s Hn; [by apply not_elem_of_nil in Hin|]. cbn [pick_each].
  unfold unless_done. pose proof (grows_add ignore x s) as [G1 G2]. set (s1 := add_free _ _ _ _ _ _ _ x s) in *.
  destruct (Z.leb_spec (num_blocks s1) 0) as [Hz|Hnz]; [lia|]. apply elem_of_cons in Hin as [->|Hin].
  - pose proof (add_progress ignore x s Hi Hc Hig Hb Hn) as Hp. fold s1 in Hp.
    destruct (grows_each (add_free t pieces prefer_whole_pieces peer speed options ignore) l s1) as [G3 _]; [intros; apply grows_add|]. lia.
  - specialize (IH Hin s1 ltac:(lia)). lia.
Qed.
End Progress.

(** ** The random pass *)

Section Random.
Context (t : piece_picker) (pieces : bitfield) (suggested : list Z) (start : Z).
Context (Hstart : 0 <= start < Z.of_nat (num_pieces t)).

Abbreviation n := (Z.of_nat (num_pieces t)).

(** The piece [a] steps behind the start. *)
Definition wrap (a : Z) : Z := if start + a <? n then start + a else start + a - n.

Lemma wrap_range a : 0 <= a < n -> 0 <= wrap a < n.
Proof using Hstart. unfold wrap. destruct (Z.ltb_spec (start + a) n); lia. Qed.

Lemma wrap_onto x : 0 <= x < n -> exists a, 0 <= a < n /\ wrap a = x.
Proof using Hstart.
  intros Hx. exists (if start <=? x then x - start else x - start + n). unfold wrap.
  destruct (Z.leb_spec start x); (split; [lia|]); destruct (Z.ltb_spec (start + (x - start)) n), (Z.ltb_spec (start + (x - start + n)) n); lia.
Qed.

Lemma wrap_next a : 0 <= a < n -> (if wrap a + 1 =? n then 0 else wrap a + 1) = if a + 1 <? n then wrap (a + 1) else start.
Proof using Hstart.
  intros Ha. unfold wrap. destruct (Z.ltb_spec (start + a) n), (Z.ltb_spec (start + (a + 1)) n), (Z.ltb_spec (a + 1) n);
    match goal with |- context [?x =? n] => destruct (Z.eqb_spec x n) end; lia.
Qed.

Lemma wrap_start a : 0 < a < n -> wrap a <> start.
Proof using Hstart. unfold wrap. destruct (Z.ltb_spec (start + a) n); lia. Qed.

(** The search meets every piece once. *)
Lemma next_piece_meets fuel a k :
  0 <= a <= k -> k < n -> can_pick t pieces (wrap k) = true -> is_suggested suggested (wrap k) = false ->
  k - a < Z.of_nat fuel -> is_Some (next_piece t pieces fuel suggested start (wrap a)).
Proof using Hstart.
  revert a. induction fuel as [|fuel IH]; intros a Ha Hk Hc Hs Hf; [lia|]. cbn [next_piece].
  destruct (can_pick t pieces (wrap a) && negb (is_suggested suggested (wrap a))) eqn:E; [by eexists|].
  assert (a <> k) as Hne by (intros ->; rewrite Hc, Hs in E; done).
  rewrite wrap_next by lia. rewrite (proj2 (Z.ltb_lt (a + 1) n)) by lia.
  rewrite (proj2 (Z.eqb_neq _ _) (wrap_start (a + 1) ltac:(lia))). apply IH; (done || lia).
Qed.

(** More fuel than there are pieces changes nothing. *)
Lemma next_piece_fuel fuel fuel' a :
  0 <= a < n -> n - a <= Z.of_nat fuel -> n - a <= Z.of_nat fuel' ->
  next_piece t pieces fuel suggested start (wrap a) = next_piece t pieces fuel' suggested start (wrap a).
Proof using Hstart.
  revert fuel' a. induction fuel as [|fuel IH]; intros [|fuel'] a Ha Hf Hf'; try lia. cbn [next_piece].
  destruct (_ && negb _); [done|]. rewrite wrap_next by lia. destruct (Z.ltb_spec (a + 1) n).
  - destruct (_ =? start); [done|]. apply IH; lia.
  - by rewrite Z.eqb_refl.
Qed.
End Random.

Lemma next_piece_bound t pieces fuel suggested start piece x :
  0 <= piece < Z.of_nat (num_pieces t) -> next_piece t pieces fuel suggested start piece = Some x ->
  0 <= x < Z.of_nat (num_pieces t) /\ can_pick t pieces x = true.
Proof.
  revert piece. induction fuel as [|fuel IH]; intros piece Hp; [done|]. cbn [next_piece].
  destruct (can_pick t pieces piece && negb (is_suggested suggested piece)) eqn:E.
  - intros [= <-]. apply andb_true_iff in E as [E _]. done.
  - set (next := if _ =? Z.of_nat _ then 0 else _). assert (0 <= next < Z.of_nat (num_pieces t)).
    { subst next. destruct (Z.eqb_spec (piece + 1) (Z.of_nat (num_pieces t))); lia. }
    destruct (_ =? start); [done|]. by apply IH.
Qed.

(** The end of an expansion is a piece number, or one past the last. *)
Lemma expand_end_le t pieces fuel upper e : expand_end t pieces fuel upper e <= Z.max e upper.
Proof.
  revert e. induction fuel as [|fuel IH]; intros e; cbn; [lia|]. destruct (Z.ltb_spec e upper); cbn [andb]; [|lia].
  destruct (can_pick t pieces e); [|lia]. specialize (IH (e + 1)). lia.
Qed.

Lemma expand_piece_end t pieces piece whole :
  0 <= piece < Z.of_nat (num_pieces t) -> snd (expand_piece t pieces piece whole) <= Z.of_nat (num_pieces t).
Proof.
  intros Hp. unfold expand_piece. destruct (_ =? 0); cbn; [lia|].
  match goal with |- expand_end _ _ ?f ?u ?e <= _ => pose proof (expand_end_le t pieces f u e) end. lia.
Qed.

Section RandomPass.
Context (t : piece_picker) (pieces : bitfield) (prefer_whole_pieces : Z) (suggested : list Z) (start : Z).
Context (Hstart : 0 <= start < Z.of_nat (num_pieces t)) (Hw : 0 <= prefer_whole_pieces).
Context (Hb : forall x, (0 < blocks_in_piece t x)%nat).

(** What one round of the loop pushes. *)
Abbreviation round s k := (push_piece (Z.to_nat (if (prefer_whole_pieces =? 0) && (num_blocks s <? Z.of_nat (blocks_in_piece t k))
                                             then num_blocks s else Z.of_nat (blocks_in_piece t k))) k s).

Lemma round_spends s k : 0 < num_blocks s -> num_blocks (round s k) < num_blocks s.
Proof using Hb.
  intros Hn. pose proof (Hb k). destruct (push_piece_count (Z.to_nat (if (prefer_whole_pieces =? 0) && (num_blocks s <? Z.of_nat (blocks_in_piece t k))
    then num_blocks s else Z.of_nat (blocks_in_piece t k))) k s) as [_ ->]. destruct (_ && _); lia.
Qed.

Lemma rounds_spend l s : num_blocks (foldl (fun s k => round s k) s l) <= num_blocks s.
Proof using.
  apply (foldl_ind (fun s' => num_blocks s' <= num_blocks s)); [lia|]. intros s' k _ Hs'. cbv beta.
  match goal with |- num_blocks (push_piece ?m _ _) <= _ => destruct (push_piece_count m k s') as [_ ->] end. lia.
Qed.

Lemma rounds_spend_some a b s : a < b -> 0 < num_blocks s -> num_blocks (foldl (fun s k => round s k) s (zrange a b)) < num_blocks s.
Proof using Hb.
  intros Hab Hn. assert (a ∈ zrange a b) as Hin by (apply elem_of_zrange; lia).
  destruct (zrange a b) as [|k l]; [by apply not_elem_of_nil in Hin|]. cbn [foldl].
  pose proof (rounds_spend l (round s k)). pose proof (round_spends s k Hn). lia.
Qed.

(** The loop ends: fuel for every block that is asked for is enough. *)
Lemma random_pass_fuel fuel fuel' piece s :
  0 <= piece < Z.of_nat (num_pieces t) -> num_blocks s <= Z.of_nat fuel -> num_blocks s <= Z.of_nat fuel' ->
  random_pass t pieces prefer_whole_pieces fuel suggested start piece s =
  random_pass t pieces prefer_whole_pieces fuel' suggested start piece s.
Proof using Hstart Hw Hb.
  revert fuel' piece s. induction fuel as [|fuel IH]; intros fuel' piece s Hp Hf Hf'.
  { destruct fuel'; [done|]. cbn. by rewrite (proj2 (Z.leb_le (num_blocks s) 0)) by lia. }
  destruct fuel' as [|fuel']. { cbn. by rewrite (proj2 (Z.leb_le (num_blocks s) 0)) by lia. }
  cbn [random_pass]. destruct (Z.leb_spec (num_blocks s) 0) as [|Hn]; [done|].
  destruct (next_piece _ _ _ _ _ _) as [x|] eqn:En; [|done]. apply next_piece_bound in En as [Hx Hc]; [|done].
  pose proof (expand_piece_spec t pieces x prefer_whole_pieces ltac:(lia) Hw Hc) as He.
  pose proof (expand_piece_end t pieces x prefer_whole_pieces Hx) as Hend.
  destruct (expand_piece _ _ _ _) as [a b]. destruct He as (H1 & H2 & _). cbn [snd] in Hend.
  pose proof (rounds_spend_some a b s ltac:(lia) Hn) as Hsp. set (s' := foldl _ s _) in *.
  set (next := if b =? _ then 0 else b). destruct (next =? start); [done|]. apply IH; try lia.
  subst next. destruct (Z.eqb_spec b (Z.of_nat (num_pieces t))); lia.
Qed.

Lemma rounds_grow l s : grows s (foldl (fun s k => round s k) s l).
Proof using. apply grows_foldl. intros. apply grows_piece. Qed.

Lemma random_progress fuel x s :
  0 <= x < Z.of_nat (num_pieces t) -> can_pick t pieces x = true -> is_suggested suggested x = false -> 0 < num_blocks s ->
  (0 < fuel)%nat -> count s < count (random_pass t pieces prefer_whole_pieces fuel suggested start start s).
Proof using Hstart Hw Hb.
  intros Hx Hc Hs Hn Hf. destruct fuel as [|fuel]; [lia|]. cbn [random_pass]. rewrite (proj2 (Z.leb_gt (num_blocks s) 0)) by lia.
  destruct (wrap_onto t start Hstart x Hx) as (k & Hk & Ek).
  assert (wrap t start 0 = start) as E0 by (unfold wrap; rewrite (proj2 (Z.ltb_lt (start + 0) _)) by lia; lia).
  destruct (next_piece_meets t pieces suggested start Hstart (S (num_pieces t)) 0 k) as [y Ey]; try lia; try congruence.
  rewrite E0 in Ey. rewrite Ey. apply next_piece_bound in Ey as [Hy Hcy]; [|done].
  pose proof (expand_piece_spec t pieces y prefer_whole_pieces ltac:(lia) Hw Hcy) as He.
  destruct (expand_piece _ _ _ _) as [a b]. destruct He as (H1 & H2 & _).
  pose proof (rounds_spend_some a b s ltac:(lia) Hn) as Hsp. destruct (rounds_grow (zrange a b) s) as [G1 G2]. set (s' := foldl _ s _) in *.
  assert (count s < count s') by lia. destruct (_ =? start); [done|].
  destruct (grows_random t pieces prefer_whole_pieces fuel suggested start (if b =? Z.of_nat (num_pieces t) then 0 else b) s') as [G3 _]. lia.
Qed.
End RandomPass.

(** ** The reverse order *)

Lemma reverse_prio_split q r : (r < 4)%nat -> reverse_prio (4 * q + r) = (4 * q + (3 - r))%nat.
Proof.
  intros Hr. unfold reverse_prio. replace ((4 * q + r) / 4)%nat with q by (apply Nat.div_unique with r; lia).
  replace ((4 * q + r) mod 4)%nat with r by (apply Nat.mod_unique with q; lia). lia.
Qed.

(** Every range is visited. *)
Lemma reverse_prio_onto m k : (k < m * 4)%nat -> exists i, (i < m * 4)%nat /\ reverse_prio i = k.
Proof.
  intros Hk. pose proof (Nat.div_mod k 4 ltac:(lia)) as E. pose proof (Nat.mod_upper_bound k 4 ltac:(lia)) as Hr.
  exists (4 * (k / 4) + (3 - k mod 4))%nat. split; [lia|]. rewrite reverse_prio_split by lia. lia.
Qed.

Lemma elem_of_concat_fmap {A} (g : A -> list Z) l k x : k ∈ l -> x ∈ g k -> x ∈ concat (g <$> l).
Proof.
  intros Hk Hx. induction l as [|y l IH]; [by apply not_elem_of_nil in Hk|]. rewrite fmap_cons. cbn [concat]. apply elem_of_app.
  apply elem_of_cons in Hk as [->|Hk]; [by left|right; by apply IH].
Qed.

Lemma reverse_pieces_complete e f map ps bs Bs m x :
  represents e f map ps bs Bs -> length bs = (m * 4)%nat -> x ∈ ps -> x ∈ reverse_pieces ps bs.
Proof.
  intros HR Hm Hx. rewrite (rep_pieces _ _ _ _ _ _ HR) in Hx. apply in_bucket_concat in Hx as (k & b & Hb & Hx).
  pose proof (lookup_lt_Some _ _ _ Hb) as Hk. rewrite <- (length_sums 0), <- (rep_bounds _ _ _ _ _ _ HR), Hm in Hk.
  destruct (reverse_prio_onto m k Hk) as (i & Hi & Ei). unfold reverse_pieces. apply (elem_of_concat_fmap _ _ i).
  { apply elem_of_reverse, elem_of_seq. lia. }
  cbv beta. rewrite Ei. apply list_elem_of_split_length in Hb as (lo & hi & E & ->).
  rewrite (rep_bounds _ _ _ _ _ _ HR), (rep_pieces _ _ _ _ _ _ HR), E, priority_range_mid.
  rewrite concat_app. cbn [concat]. rewrite drop_app_length. replace (length (concat lo) + length b - length (concat lo))%nat with (length b) by lia.
  by rewrite take_app_length.
Qed.

(** ** pick_pieces *)

Section PickPieces.
Context (random_shuffle : nat -> list Z -> list Z) (Hshuffle : forall k l, random_shuffle k l ≡ₚ l).
Context (random1 random2 : nat) (pieces : bitfield) (interesting : list piece_block) (n prefer_whole_pieces peer : Z)
  (speed : piece_state_t) (options : Z) (suggested : list Z) (num_peers : Z) (t : piece_picker).

Abbreviation result := (snd (pick_pieces random_shuffle random1 random2 pieces interesting n prefer_whole_pieces peer speed options suggested num_peers t)).

Lemma pick_pieces_budget :
  0 < n -> prefer_whole_pieces = 0 \/ has_option options ignore_whole_pieces = true ->
  Z.of_nat (length result) <= Z.of_nat (length interesting) + n.
Proof using.
  intros Hn Hw. unfold pick_pieces. set (opts := if _ <? _ then _ else _). set (pw := if has_option opts ignore_whole_pieces then _ else _).
  assert (pw = 0) as ->.
  { subst pw. destruct Hw as [->|Hw]; [by destruct (has_option _ _)|]. subst opts. destruct (_ <? _); [|by rewrite Hw].
    unfold has_option in *. rewrite Z.land_lor_distr_l. change (Z.land prioritize_partials ignore_whole_pieces) with 0.
    by rewrite Z.lor_0_r, Hw. }
  clearbody opts. cbv zeta. clear Hw. set (N := Z.of_nat (length interesting) + n). set (s0 := Picked interesting [] [] n).
  assert (budget N s0) as H0 by (unfold budget, s0, N; cbn; lia).
  set (s1 := if has_option opts prioritize_partials then _ else _).
  assert (budget N s1) as H1 by (subst s1; destruct (has_option opts prioritize_partials); [by apply budget_partials|done]). clearbody s1.
  destruct (Z.leb_spec (num_blocks s1) 0); [cbn; destruct H1; lia|]. set (s2 := pick_each _ suggested s1).
  assert (budget N s2) as H2 by (apply budget_each; [intros; by apply budget_add|done|done]). clearbody s2.
  destruct (Z.leb_spec (num_blocks s2) 0); [cbn; destruct H2; lia|].
  assert (budget N (snd (order_pass random_shuffle random1 pieces 0 peer speed opts suggested t s2))) as Hbud.
  { assert (forall t' l, budget N (pick_each (add_free t' pieces 0 peer speed opts suggested) l s2)) as Heach
      by (intros; apply budget_each; [intros; by apply budget_add|done|done]).
    unfold order_pass. destruct (has_option opts sequential); [apply Heach|]. destruct (has_option opts rarest_first).
    - destruct (has_option opts reverse_option); apply Heach.
    - by apply budget_random. }
  destruct (order_pass _ _ _ _ _ _ _ _ _ _) as [t3 s3]. cbn [snd] in Hbud.
  destruct (Z.leb_spec (num_blocks s3) 0); [cbn; destruct Hbud; lia|]. cbn [snd]. by apply budget_last.
Qed.

Lemma order_pass_grows p s : grows s (snd (order_pass random_shuffle random1 pieces p peer speed options suggested t s)).
Proof using.
  unfold order_pass. destruct (has_option options sequential); [apply grows_each; intros; apply grows_add|].
  destruct (has_option options rarest_first); [|apply grows_random].
  destruct (has_option options reverse_option); apply grows_each; intros; apply grows_add.
Qed.

Lemma can_pick_reindexed map i :
  reindexed (m_piece_map t) map -> 0 <= i -> can_pick t pieces i = true ->
  forall t', m_piece_map t' = map -> can_pick t' pieces i = true.
Proof using.
  intros Hre Hi Hc t' <-. unfold can_pick in *. destruct (piece_at (m_piece_map t) i) as [p|] eqn:Hp; [|done].
  destruct (reindexed_lookup _ _ _ _ Hre Hp) as (q & -> & [m ->] & Hh). by rewrite Hh.
Qed.

Lemma can_pick_prio i p :
  picker_ok t -> piece_at (m_piece_map t) i = Some p -> can_pick t pieces i = true -> 0 < peer_count p + m_seeds t ->
  skipped p = false /\ 0 <= prio_of (m_seeds t) (m_piece_map t) i.
Proof using.
  intros [Ho _ _] Hp Hc Hav. unfold can_pick in Hc. rewrite Hp, !andb_true_iff, !negb_true_iff in Hc. destruct Hc as [[[_ Hh] _] Hf].
  assert (skipped p = false) as Hs by (unfold skipped; by rewrite Hh, Hf). split; [done|]. unfold prio_of. rewrite Hp.
  pose proof (ordered_piece _ _ _ Ho Hp) as Hw. pose proof (priority_lower (m_seeds t) p Hw). pose proof (priority_none (m_seeds t) p Hw).
  destruct (decide (priority (m_seeds t) p = -1)) as [E|]; [|lia]. destruct (proj1 H0 E); [congruence|lia].
Qed.

(** The piece is in the order in which the rarest pieces are tried. *)
Lemma rarest_meets i p :
  picker_ok t -> 0 <= i -> piece_at (m_piece_map t) i = Some p -> can_pick t pieces i = true -> 0 < peer_count p + m_seeds t ->
  let t' := if m_dirty t then update_pieces random_shuffle t else t in
  i ∈ m_pieces t' /\ can_pick t' pieces i = true /\ (forall x, blocks_in_piece t' x = blocks_in_piece t x).
Proof using Hshuffle.
  intros H Hi Hp Hc Hav. cbv zeta. destruct (sorted_picker random_shuffle Hshuffle t H) as (H1 & Hsd & Hd).
  destruct (can_pick_prio i p H Hp Hc Hav) as [_ Hpr].
  assert (reindexed (m_piece_map t) (m_piece_map (if m_dirty t then update_pieces random_shuffle t else t)) /\
    m_seeds (if m_dirty t then update_pieces random_shuffle t else t) = m_seeds t) as [Hre Hse].
  { destruct (m_dirty t); [|split; [apply reindexed_refl|done]].
    split; [by apply (update_pieces_ordered random_shuffle t Hshuffle (ok_ordered t H))|].
    unfold update_pieces. by destruct (count_pieces _ _ _). }
  set (t1 := if m_dirty t then _ else _) in *. destruct (ord_buckets t1 (ok_ordered t1 H1) Hd) as [Bs HR]. split_and!.
  - rewrite (rep_pieces _ _ _ _ _ _ HR). apply in_bucket_concat. exists (Z.to_nat (prio_of (m_seeds t) (m_piece_map t) i)).
    apply (rep_bucket _ _ _ _ _ _ HR). rewrite Hse, (prio_of_reindexed _ _ _ _ Hre).
    apply lookup_lt_Some in Hp. apply Forall2_length in Hre. split; lia.
  - by eapply can_pick_reindexed.
  - intros x. destruct Hsd as (_ & _ & E1 & E2 & E3 & _). unfold blocks_in_piece. by rewrite E1, E2, E3.
Qed.

Lemma order_pass_progress pw s i p :
  picker_ok t -> 0 <= pw -> 0 < num_blocks s -> 0 <= i -> i ∉ suggested -> piece_at (m_piece_map t) i = Some p ->
  can_pick t pieces i = true -> 0 < peer_count p + m_seeds t ->
  count s < count (snd (order_pass random_shuffle random1 pieces pw peer speed options suggested t s)).
Proof using Hshuffle.
  intros H Hw Hn Hi Hns Hp Hc Hav. pose proof H as [Ho Hb Hcnt].
  assert (0 <= i < Z.of_nat (num_pieces t)) as Hr by (apply lookup_lt_Some in Hp; unfold num_pieces; lia).
  assert (forall x, (0 < blocks_in_piece t x)%nat) as Hbp by (intros x; apply blocks_in_piece_le; [done|lia]).
  assert (existsb (Z.eqb i) suggested = false) as Hig.
  { apply not_true_is_false. intros (x & Hx & E)%existsb_exists. apply Z.eqb_eq in E. subst. by apply list_elem_of_In in Hx. }
  destruct (can_pick_prio i p H Hp Hc Hav) as [Hsk _]. unfold order_pass. destruct (has_option options sequential); cbn [snd].
  { apply (each_progress t pieces pw peer speed options Hw suggested _ i); try done.
    assert (i ∈ zrange (Z.of_nat (m_cursor t)) (Z.of_nat (m_reverse_cursor t))) as Hz.
    { apply elem_of_zrange. destruct (cursors_enclose _ _ _ (Z.to_nat i) (ct_cursor t Hcnt) (ct_reverse t Hcnt)); [|lia].
      unfold skips. rewrite list_lookup_fmap. unfold piece_at in Hp. rewrite Hp. cbn. by rewrite Hsk. }
    destruct (has_option options reverse_option); [by apply elem_of_reverse|done]. }
  destruct (has_option options rarest_first).
  2:{ apply (random_progress t pieces pw suggested _) with i; try done.
      - pose proof (Nat.mod_upper_bound random1 (num_pieces t) ltac:(lia)). lia.
      - lia. }
  destruct (rarest_meets i p H Hi Hp Hc Hav) as (Hin & Hc1 & Hb1).
  destruct (sorted_picker random_shuffle Hshuffle t H) as (H1 & _ & Hd). set (t1 := if m_dirty t then _ else _) in *.
  assert (forall x, (0 < blocks_in_piece t1 x)%nat) as Hbp1 by (intros; by rewrite Hb1).
  destruct (has_option options reverse_option); cbn [snd].
  - set (m := div_round_up (length (m_priority_boundries t1)) 4).
    assert (length (m_priority_boundries t1) <= m * 4)%nat as Hle.
    { subst m. unfold div_round_up. pose proof (Nat.div_mod (length (m_priority_boundries t1) + 4 - 1) 4 ltac:(lia)).
      pose proof (Nat.mod_upper_bound (length (m_priority_boundries t1) + 4 - 1) 4 ltac:(lia)). lia. }
    destruct (resize_ok (m * 4) t1 H1 Hd Hle) as [H2 _].
    destruct (ord_buckets _ (ok_ordered _ H2) Hd) as [Bs HR]. cbn [m_pieces m_priority_boundries m_piece_map m_seeds with_buckets] in HR.
    apply (each_progress _ pieces pw peer speed options Hw suggested _ i); try done.
    cbn [m_pieces with_buckets]. eapply reverse_pieces_complete; [exact HR| |done].
    unfold vec_resize. rewrite length_app, length_take, length_replicate. instantiate (1 := m). lia.
  - by apply (each_progress t1 pieces pw peer speed options Hw suggested _ i).
Qed.
End PickPieces.

(** A peer with a piece that can be picked gets a block. *)
Lemma pick_pieces_progress random_shuffle random1 random2 pieces interesting n prefer_whole_pieces peer speed options suggested num_peers t i p :
  (forall k l, random_shuffle k l ≡ₚ l) ->
  picker_ok t -> 0 < n -> 0 <= prefer_whole_pieces ->
  0 <= i -> piece_at (m_piece_map t) i = Some p -> can_pick t pieces i = true -> 0 < peer_count p + m_seeds t ->
  (length interesting < length (snd (pick_pieces random_shuffle random1 random2 pieces interesting n prefer_whole_pieces peer speed options suggested num_peers t)))%nat.
Proof.
  intros Hsh H Hn Hw Hi Hp Hc Hav. pose proof H as [Ho Hb Hcnt]. apply Nat2Z.inj_lt.
  assert (0 <= i < Z.of_nat (num_pieces t)) as Hr by (apply lookup_lt_Some in Hp; unfold num_pieces; lia).
  assert (forall x, (0 < blocks_in_piece t x)%nat) as Hbp by (intros x; apply blocks_in_piece_le; [done|lia]).
  unfold pick_pieces. set (opts := if _ <? _ then _ else _). set (pw := if has_option opts ignore_whole_pieces then _ else _).
  assert (0 <= pw) as Hpw by (subst pw; destruct (has_option _ _); lia). clearbody opts pw. cbv zeta.
  set (s0 := Picked interesting [] [] n). change (Z.of_nat (length interesting)) with (count s0).
  set (s1 := if has_option opts prioritize_partials then _ else _).
  assert (grows s0 s1) as [G1 G1'] by (subst s1; destruct (has_option _ _); [apply grows_partials|apply grows_refl]). clearbody s1.
  cbn [num_blocks s0] in G1'. destruct (Z.leb_spec (num_blocks s1) 0); [cbn [snd]; lia|]. set (s2 := pick_each _ suggested s1).
  assert (grows s1 s2) as [G2 G2'] by (apply grows_each; intros; apply grows_add).
  assert (i ∈ suggested -> count s1 < count s2) as Hin by (intros Hin; by apply (each_progress t pieces pw peer speed opts Hpw [] suggested i)).
  clearbody s2. destruct (Z.leb_spec (num_blocks s2) 0); [cbn [snd]; lia|].
  destruct (order_pass_grows random_shuffle random1 pieces peer speed opts suggested t pw s2) as [G3 G3'].
  assert (i ∉ suggested -> count s2 < count (snd (order_pass random_shuffle random1 pieces pw peer speed opts suggested t s2))) as Hnin.
  { intros Hns. by apply (order_pass_progress random_shuffle Hsh random1 pieces peer speed opts suggested t pw s2 i p). }
  destruct (order_pass _ _ _ _ _ _ _ _ _ _) as [t3 s3]. cbn [snd] in *.
  assert (count s0 < count s3) as Hlt by (destruct (decide (i ∈ suggested)) as [Hs|Hs]; [specialize (Hin Hs)|specialize (Hnin Hs)]; lia).
  destruct (Z.leb_spec (num_blocks s3) 0); [done|]. cbn [snd].
  pose proof (grows_last t3 pieces pw peer speed opts random2 s3 ltac:(lia)). lia.
Qed.
