(* ===== verification/PiecePickerTheorems.v ===== *)
(** * Theorems about the piece picker

    What the invariants of the previous files say of every picker that a
    sequence of operations reaches, what [pick_pieces] does with it, and three
    states in which it does not do what it is meant to. *)

From S2P Require Import Prelude Archive Md4Hash Bitfield PiecePicker PiecePickerBuckets PiecePickerInv PiecePickerUpdate PiecePickerView PiecePickerBlocks PiecePickerMarks PiecePickerCounts PiecePickerSteps PiecePickerCheck PiecePick PiecePickProps PiecePickBounds.
From stdpp Require Import list sorting.
Open Scope Z_scope.

(** ** Sequences of operations *)

Section Runs.
Context (random_shuffle : nat -> list Z -> list Z).

Fixpoint runs (ops : list op) (t : piece_picker) : piece_picker :=
  match ops with
  | [] => t
  | o :: ops => runs ops (run random_shuffle o t)
  end.

Fixpoint all_allowed (ops : list op) (t : piece_picker) : bool :=
  match ops with
  | [] => true
  | o :: ops => allowed o t && all_allowed ops (run random_shuffle o t)
  end.

Lemma reachable_runs ops t : reachable random_shuffle t -> all_allowed ops t = true -> reachable random_shuffle (runs ops t).
Proof.
  revert t. induction ops as [|o ops IH]; intros t Ht Ha; [done|]. cbn in *. apply andb_true_iff in Ha as [Ha Hs].
  apply IH; [by constructor|done].
Qed.
End Runs.

(** The examples below do not shuffle. *)
Definition keep_order (k : nat) (l : list Z) : list Z := l.

Lemma keep_order_perm k l : keep_order k l ≡ₚ l.
Proof. done. Qed.

(** Three pieces of two blocks, the last with one, all available from a seed;
    the first is being downloaded. *)
Definition example_ops : list op :=
  [Init 2 1 3; Inc_refcount_all; Update_pieces;
   Mark_as_downloading 0 (PieceBlock 0 0) 7 fast; Mark_as_writing 0 (PieceBlock 0 1) 8; Set_piece_priority 0 2 5].
Definition example_picker : piece_picker := runs keep_order example_ops piece_picker_new.

Lemma example_reachable : reachable keep_order example_picker.
Proof. apply reachable_runs; [constructor|by vm_compute]. Qed.

(** A peer that has every piece. *)
Definition all_pieces (n : nat) : bitfield := BF (replicate (bits2bytes n) (z2b 255)) n true.

(** ** Consistency *)

(** C5: from a new picker, no sequence of operations called as their assertions
    allow makes [check_invariant], the consistency check of debug builds, fail
    (the assertions about the [full] flags and about the piece number of a block, a
    field of debug builds, apart).  Beyond the assertions, [init] is called for a new
    picker or again with the same number of pieces, and a block has less than [2^14 - 1]
    requesters. *)
Theorem reachable_check_invariant random_shuffle t :
  (forall k l, random_shuffle k l ≡ₚ l) -> reachable random_shuffle t -> check_invariant t = true.
Proof. intros Hsh Hr. apply check_invariant_ok. by eapply reachable_ok. Qed.

Lemma reachable_check_invariant_witness : check_invariant example_picker = true.
Proof.
  apply (reachable_check_invariant keep_order).
  - intros k l. reflexivity.
  - apply reachable_runs; [constructor|by vm_compute].
Defined.

(** Unless the picker is dirty, [m_pieces] holds exactly the pieces that can
    be picked (wanted, missing and available), each once, in the order of their
    priorities. *)
Theorem pieces_in_order random_shuffle t :
  (forall k l, random_shuffle k l ≡ₚ l) -> reachable random_shuffle t -> m_dirty t = false ->
  StronglySorted (fun i j => prio_of (m_seeds t) (m_piece_map t) i <= prio_of (m_seeds t) (m_piece_map t) j) (m_pieces t) /\
  NoDup (m_pieces t) /\
  forall i p, 0 <= i -> piece_at (m_piece_map t) i = Some p ->
    (i ∈ m_pieces t <-> have p = false /\ filtered p = false /\ 0 < peer_count p + m_seeds t).
Proof.
  intros Hsh Hr Hd. pose proof (reachable_ok _ t Hsh Hr) as [Ho _ _]. destruct (ord_buckets t Ho Hd) as [Bs HR].
  split_and!; [by eapply rep_sorted|apply HR|]. intros i p Hi Hp. pose proof (ordered_piece _ _ _ Ho Hp) as Hw.
  rewrite (rep_elem _ _ _ _ _ _ _ HR), (prio_of_piece _ _ _ _ Hp). pose proof (priority_lower (m_seeds t) p Hw) as Hlow.
  pose proof (priority_none (m_seeds t) p Hw) as Hn. pose proof (ord_seeds t Ho) as Hse. destruct Hw as [Hpc _]. unfold is_uint in Hpc.
  unfold skipped in Hn. apply lookup_lt_Some in Hp. split.
  - intros [_ Hpr]. destruct (have p); [cbn in Hn; lia|]. destruct (filtered p); [cbn in Hn; lia|]. split_and!; [done..|]. cbn in Hn. lia.
  - intros (Hh & Hf & Hav). rewrite Hh, Hf in Hn. cbn in Hn. split; [lia|]. destruct (decide (priority (m_seeds t) p = -1)) as [E|]; [|lia].
    apply Hn in E as [?|?]; [done|lia].
Qed.

Lemma pieces_in_order_witness : 2 ∈ m_pieces example_picker.
Proof.
  refine (proj2 (proj2 (proj2 (pieces_in_order keep_order example_picker _ _ _)) 2 (PiecePos 0 false false 5 1) _ _) _).
  - intros k l. reflexivity.
  - apply reachable_runs; [constructor|by vm_compute].
  - by vm_compute.
  - lia.
  - by vm_compute.
  - by vm_compute.
Defined.

(** ** Blocks *)

(** What an operation on one block does to it. *)
Definition block_effect (o : op) : option (piece_block * (block_info -> block_info)) :=
  match o with
  | Mark_as_downloading _ b peer _ => Some (b, fun x => default x (requested_block peer x))
  | Mark_as_writing _ b peer => Some (b, fun x => snd (written_block peer x))
  | Mark_as_finished _ b peer => Some (b, finished_block peer)
  | Write_failed _ b => Some (b, fun _ => block_info_new)
  | Abort_download _ b peer => Some (b, aborted_block peer)
  | _ => None
  end.

Lemma refines_effect t t' i k (g : block_info -> block_info) old p x :
  piece_at (m_piece_map t) i = Some p -> have p = false -> blocks t i !! k = Some old ->
  refines t i (<[k := g old]> (blocks t i)) t' ->
  blocks t' x = if (x =? i) && negb (piece_have t x) then alter g k (blocks t x) else blocks t x.
Proof.
  intros Hp Hh Hold []. destruct (Z.eqb_spec x i) as [->|Hne]; cbn [andb]; [|by apply rf_other].
  unfold piece_have. rewrite Hp, Hh. cbn [negb]. rewrite rf_blocks. apply list_eq. intros j. destruct (decide (j = k)) as [->|].
  - rewrite list_lookup_alter_eq, Hold, list_lookup_insert_eq; [done|]. by eapply lookup_lt_Some.
  - by rewrite list_lookup_alter_ne, list_lookup_insert_ne.
Qed.

(** Of a piece we have, nothing changes. *)
Lemma have_effect t o b g :
  picker_ok t -> is_block t b = true -> block_effect o = Some (b, g) -> allowed o t = true -> piece_have t (piece_index b) = true ->
  run keep_order o t = t.
Proof.
  intros [Ho Hb _] Hbl He Ha Hh. apply is_block_lookup in Hbl as (i & k & p & old & -> & Hi & Hp & Hk & Hold & Hph); [|done].
  cbn [piece_index] in Hh. rewrite (Hph i eq_refl) in Hh.
  assert (downloading p = false) as Hd.
  { destruct (downloading p) eqn:Hd; [|done]. destruct (is_downloading t i k p) as (_ & _ & _ & _ & _ & _ & _ & _ & _ & _ & ?); congruence. }
  destruct (not_downloading t i p Hb Hp Hd) as [_ Hv].
  assert (find_block (PieceBlock i k) t = None) as Hf.
  { unfold find_block. cbn [piece_index]. unfold view in Hv. by destruct (find_dl_piece i t) as [[? ?]|]. }
  destruct o; cbn in He; try done; injection He as -> <-; cbn [run] in *.
  - cbn in Ha. rewrite (Hph i eq_refl), Hh in Ha. cbn in Ha. by rewrite andb_false_r in Ha.
  - unfold mark_as_writing. cbn [piece_index]. by rewrite Hp, Hd, Hh.
  - unfold mark_as_finished. cbn [piece_index]. by rewrite Hp, Hd, Hh.
  - cbn in Ha. unfold block_state_of in Ha. rewrite Hf in Ha. cbn in Ha. by rewrite andb_false_r in Ha.
  - unfold abort_download. cbn [piece_index]. by rewrite Hp, Hf.
Qed.

(** Of a piece we do not have, the block changes. *)
Lemma run_refines random_shuffle t o b g :
  picker_ok t -> allowed o t = true -> block_effect o = Some (b, g) -> is_block t b = true -> piece_have t (piece_index b) = false ->
  exists old, blocks t (piece_index b) !! block_index b = Some old /\
    refines t (piece_index b) (<[block_index b := g old]> (blocks t (piece_index b))) (run random_shuffle o t).
Proof.
  intros [Ho Hb _] Ha He Hbl Hh. apply is_block_lookup in Hbl as (i & k & p & old & -> & Hi & Hp & Hk & Hold & Hph); [|done].
  cbn [piece_index block_index] in *. rewrite (Hph i eq_refl) in Hh. exists old. split; [done|].
  destruct (block_queries t i k p old Hb Hi Hp Hk Hold) as (Q1 & _ & _ & Q4).
  destruct o; cbn in He; try done; injection He as -> <-; cbn [run allowed] in *.
  - rewrite !andb_true_iff, !negb_true_iff in Ha. destruct Ha as [[_ Hs%bool_decide_eq_false] Hn%Z.ltb_lt]. rewrite Q4 in Hn.
    pose proof (mark_as_downloading_refines random i k peer s p t old Ho Hb Hi Hp Hh Hk Hs Hold Hn) as Hr.
    destruct (mark_as_downloading _ _ _ _ _) as [ret t'] eqn:E. cbn [snd]. destruct (requested_block peer old) as [new|] eqn:Er; [by destruct Hr as [_ Hr]|].
    destruct Hr as [_ ->]. cbn [default]. rewrite list_insert_id by done. by apply refines_refl.
  - pose proof (mark_as_writing_refines random i k peer p t old Ho Hb Hi Hp Hh Hk Hold) as Hr.
    destruct (mark_as_writing _ _ _ _) as [ret t']. by destruct Hr as [_ Hr].
  - apply andb_true_iff in Ha as [_ Ha%negb_true_iff]. rewrite Q1 in Ha. apply bool_decide_eq_false in Ha. by eapply mark_as_finished_refines.
  - apply andb_true_iff in Ha as [_ Ha%bool_decide_eq_true]. destruct (downloading p) eqn:Hd.
    + destruct (is_downloading t i k p) as (j & d & info & Hf & _ & _ & _ & _ & Hl & _ & _); try done.
      unfold block_state_of in Ha. rewrite Hf in Ha. cbn in Ha. injection Ha as Ha. assert (info = old) as -> by congruence.
      by eapply write_failed_refines.
    + destruct (not_downloading t i p Hb Hp Hd) as [_ Hv]. unfold block_state_of, find_block in Ha. cbn [piece_index] in Ha.
      unfold view in Hv. by destruct (find_dl_piece i t) as [[? ?]|].
  - by eapply abort_download_refines.
Qed.

Lemma allowed_block o t b g : allowed o t = true -> block_effect o = Some (b, g) -> is_block t b = true.
Proof. intros Ha He. destruct o; cbn in He, Ha; try done; injection He as -> <-; rewrite ?andb_true_iff in Ha; tauto. Qed.

Lemma have_run random_shuffle t o b g :
  picker_ok t -> allowed o t = true -> block_effect o = Some (b, g) -> piece_have t (piece_index b) = true -> run random_shuffle o t = t.
Proof.
  intros H Ha He Hh. rewrite <- (have_effect t o b g H (allowed_block o t b g Ha He) He Ha Hh) at 2. by destruct o.
Qed.

Lemma run_effect random_shuffle t o b g x :
  picker_ok t -> allowed o t = true -> block_effect o = Some (b, g) ->
  blocks (run random_shuffle o t) x =
    if (x =? piece_index b) && negb (piece_have t x) then alter g (block_index b) (blocks t x) else blocks t x.
Proof.
  intros H Ha He. pose proof (allowed_block o t b g Ha He) as Hbl. destruct (piece_have t (piece_index b)) eqn:Hh.
  { rewrite (have_run random_shuffle t o b g) by done. destruct (Z.eqb_spec x (piece_index b)) as [->|]; [by rewrite Hh|done]. }
  destruct (run_refines random_shuffle t o b g H Ha He Hbl Hh) as (old & Hold & Hr).
  apply is_block_lookup in Hbl as (i & k & p & old' & -> & Hi & Hp & Hk & Hold' & Hph); [|apply H].
  cbn [piece_index block_index] in *. rewrite (Hph i eq_refl) in Hh. by eapply refines_effect.
Qed.

(** C6: seen from outside, the picker keeps a list of blocks for every piece, all
    of them new when it is not being downloaded.  Marking a block as requested,
    written, finished or failed and aborting a request change that block as the
    operation says and no other block of any piece: the entries, their counters
    and the ranges they are moved between do not show. *)
Theorem block_operations_refine random_shuffle t o b g :
  (forall k l, random_shuffle k l ≡ₚ l) -> reachable random_shuffle t -> allowed o t = true -> block_effect o = Some (b, g) ->
  forall x, blocks (run random_shuffle o t) x =
    if (x =? piece_index b) && negb (piece_have t x) then alter g (block_index b) (blocks t x) else blocks t x.
Proof. intros Hsh Hr Ha He x. apply run_effect; [by eapply reachable_ok|done..]. Qed.

Lemma block_operations_refine_witness :
  blocks (run keep_order (Abort_download 0 (PieceBlock 0 0) 7) example_picker) 0 = [block_info_new; BlockInfo 8 0 state_writing].
Proof.
  rewrite (block_operations_refine keep_order example_picker (Abort_download 0 (PieceBlock 0 0) 7) (PieceBlock 0 0) (aborted_block 7)).
  - by vm_compute.
  - intros k l. reflexivity.
  - apply reachable_runs; [constructor|by vm_compute].
  - by vm_compute.
  - reflexivity.
Defined.

(** ** Picking *)

(** C7: every block [pick_pieces] adds belongs to a piece that the peer has and
    we have not; nobody has requested or delivered it, or it is requested from
    another peer; and the picker stays consistent. *)
Theorem pick_pieces_wanted random_shuffle random1 random2 pieces interesting n prefer_whole_pieces peer speed options suggested num_peers t :
  (forall k l, random_shuffle k l ≡ₚ l) -> reachable random_shuffle t -> 0 <= prefer_whole_pieces -> Forall (fun i => 0 <= i) suggested ->
  let '(t', l) := pick_pieces random_shuffle random1 random2 pieces interesting n prefer_whole_pieces peer speed options suggested num_peers t in
  check_invariant t' = true /\ exists new, l = interesting ++ new /\ Forall (wanted t pieces peer) new.
Proof.
  intros Hsh Hr Hw Hs.
  pose proof (pick_pieces_collects random_shuffle Hsh random1 random2 pieces interesting n prefer_whole_pieces peer speed options suggested num_peers t
    ltac:(by eapply reachable_ok) Hw Hs) as H.
  destruct (pick_pieces _ _ _ _ _ _ _ _ _ _ _ _ _) as [t' l]. destruct H as (H1 & _ & H2). split; [by apply check_invariant_ok|done].
Qed.

Lemma pick_pieces_wanted_witness :
  let '(t', l) := pick_pieces keep_order 0 0 (all_pieces 3) [] 2 0 9 fast rarest_first [] 10 example_picker in
  check_invariant t' = true /\ exists new, l = [] ++ new /\ Forall (wanted example_picker (all_pieces 3) 9) new.
Proof.
  apply (pick_pieces_wanted keep_order 0 0 (all_pieces 3) [] 2 0 9 fast rarest_first [] 10 example_picker).
  - intros k l. reflexivity.
  - apply reachable_runs; [constructor|by vm_compute].
  - lia.
  - constructor.
Defined.

(** Unless whole pieces are preferred, [pick_pieces] adds no more blocks than
    it is asked for. *)
Theorem pick_pieces_at_most random_shuffle random1 random2 pieces interesting n prefer_whole_pieces peer speed options suggested num_peers t :
  0 < n -> prefer_whole_pieces = 0 \/ has_option options ignore_whole_pieces = true ->
  Z.of_nat (length (snd (pick_pieces random_shuffle random1 random2 pieces interesting n prefer_whole_pieces peer speed options suggested num_peers t)))
  <= Z.of_nat (length interesting) + n.
Proof. apply pick_pieces_budget. Qed.

Lemma pick_pieces_at_most_witness :
  Z.of_nat (length (snd (pick_pieces keep_order 0 0 (all_pieces 3) [] 2 5 9 fast (Z.lor rarest_first ignore_whole_pieces) [] 10 example_picker)))
  <= Z.of_nat (length ([] : list piece_block)) + 2.
Proof. apply (pick_pieces_at_most keep_order 0 0 (all_pieces 3) [] 2 5 9 fast _ [] 10 example_picker); [lia|by right]. Defined.

(** C8: a peer is not left idle: when it has a piece that we want, do not have
    and have not started, and the availability counts it, [pick_pieces] returns a
    block in every mode: sequential, rarest first, either of them reversed, or
    random. *)
Theorem pick_pieces_not_idle random_shuffle random1 random2 pieces interesting n prefer_whole_pieces peer speed options suggested num_peers t i p :
  (forall k l, random_shuffle k l ≡ₚ l) -> reachable random_shuffle t -> 0 < n -> 0 <= prefer_whole_pieces ->
  0 <= i -> piece_at (m_piece_map t) i = Some p -> can_pick t pieces i = true -> 0 < peer_count p + m_seeds t ->
  (length interesting < length (snd (pick_pieces random_shuffle random1 random2 pieces interesting n prefer_whole_pieces peer speed options suggested num_peers t)))%nat.
Proof. intros Hsh Hr. intros. eapply pick_pieces_progress; try done. by eapply reachable_ok. Qed.

Lemma pick_pieces_not_idle_witness :
  (0 < length (snd (pick_pieces keep_order 4 0 (all_pieces 3) [] 1 0 9 fast 0 [] 10 example_picker)))%nat.
Proof.
  apply (pick_pieces_not_idle keep_order 4 0 (all_pieces 3) [] 1 0 9 fast 0 [] 10 example_picker 1 (PiecePos 0 false false 1 2)).
  - intros k l. reflexivity.
  - apply reachable_runs; [constructor|by vm_compute].
  - lia.
  - lia.
  - lia.
  - by vm_compute.
  - by vm_compute.
  - by vm_compute.
Defined.

(** The loop of [pick_pieces] that starts at a random piece ends: with as many
    rounds as blocks are asked for, more rounds change nothing (and the search
    for the next piece inside it visits every piece at most once). *)
Theorem random_pass_ends random_shuffle t pieces prefer_whole_pieces suggested start piece fuel s :
  (forall k l, random_shuffle k l ≡ₚ l) -> reachable random_shuffle t -> 0 <= prefer_whole_pieces ->
  0 <= start < Z.of_nat (num_pieces t) -> 0 <= piece < Z.of_nat (num_pieces t) -> (Z.to_nat (num_blocks s) <= fuel)%nat ->
  random_pass t pieces prefer_whole_pieces fuel suggested start piece s =
  random_pass t pieces prefer_whole_pieces (Z.to_nat (num_blocks s)) suggested start piece s /\
  forall rounds, (num_pieces t <= rounds)%nat ->
    next_piece t pieces rounds suggested start start = next_piece t pieces (S (num_pieces t)) suggested start start.
Proof.
  intros Hsh Hr Hw Hs Hp Hf. pose proof (reachable_ok _ t Hsh Hr) as [_ Hb _]. split.
  - apply random_pass_fuel; try done; try lia. intros x. apply blocks_in_piece_le; [done|lia].
  - intros rounds Hrd. assert (wrap t start 0 = start) as E by (unfold wrap; rewrite (proj2 (Z.ltb_lt (start + 0) _)) by lia; lia).
    rewrite <- E at 2 4. apply next_piece_fuel; lia.
Qed.

Lemma random_pass_ends_witness :
  random_pass example_picker (all_pieces 3) 0 9 [] 1 1 (Picked [] [] [] 2) =
  random_pass example_picker (all_pieces 3) 0 2 [] 1 1 (Picked [] [] [] 2).
Proof.
  apply (random_pass_ends keep_order example_picker (all_pieces 3) 0 [] 1 1 9 (Picked [] [] [] 2)).
  - intros k l. reflexivity.
  - apply reachable_runs; [constructor|by vm_compute].
  - lia.
  - vm_compute. done.
  - vm_compute. done.
  - cbn. lia.
Defined.

(** ** Defects *)






Definition filtered_ops : list op :=
  [Init 2 2 2; Inc_refcount_all; Update_pieces; Mark_as_downloading 0 (PieceBlock 0 0) 7 fast; Set_piece_priority 0 0 0].

(** The pass over partial pieces does not look at priorities: a block of a piece
    with priority 0, which is not to be downloaded, is picked. *)
Theorem filtered_piece_picked :
  exists t p, reachable keep_order t /\ piece_at (m_piece_map t) 0 = Some p /\ filtered p = true /\
    snd (pick_pieces keep_order 0 0 (all_pieces 2) [] 1 0 9 fast (Z.lor rarest_first prioritize_partials) [] 10 t) = [PieceBlock 0 1].
Proof.
  eexists (runs keep_order filtered_ops piece_picker_new), _. split_and!; [|by vm_compute..].
  apply reachable_runs; [constructor|by vm_compute].
Qed.

(** With whole pieces preferred, [expand_piece] goes back over pieces that have
    been picked already: the same block is returned twice. *)
Theorem block_picked_twice :
  exists t, reachable keep_order t /\
    ~ NoDup (snd (pick_pieces keep_order 2 0 (all_pieces 6) [] 7 3 9 fast 0 [] 10 t)).
Proof.
  exists (runs keep_order [Init 1 1 6; Inc_refcount_all; Update_pieces] piece_picker_new). split.
  - apply reachable_runs; [constructor|by vm_compute].
  - intros H. rewrite NoDup_alt in H. specialize (H 1%nat 3%nat (PieceBlock 1 0)). by discriminate H; vm_compute.
Qed.
