(* ===== verification/IpFilter.v ===== *)
(** * Address and port filters

    [detail::filter_impl], [ip_filter] and [port_filter] of
    include/libed2k/ip_filter.hpp and src/ip_filter.cpp: a set of range starts
    with the access flags that hold from each start on.  The address type of the
    template is an interface here, with ports and byte arrays as its instances.

    The abstract specification is a function from addresses to flags; [canon]
    is the representation invariant (starts increase, neighbours differ), and two
    filters that answer alike are equal. *)

From S2P Require Import Prelude Archive Md4Hash.
Open Scope Z_scope.

(** ** What the template asks of an address *)

Class AddrOps (A : Type) := {
  addr_lt : A -> A -> bool;
  addr_eq : A -> A -> bool;
  zero : A;
  plus_one : A -> A;
  minus_one : A -> A;
  max_addr : A
}.

(** The laws: addresses are the numbers [0 .. size - 1], the steps wrap. *)
Class AddrLaws (A : Type) `{AddrOps A} (size : Z) (valid : A -> Prop) (val : A -> Z) := {
  val_range a : valid a -> 0 <= val a < size;
  val_inj a b : valid a -> valid b -> val a = val b -> a = b;
  addr_lt_val a b : valid a -> valid b -> addr_lt a b = (val a <? val b);
  addr_eq_val a b : valid a -> valid b -> addr_eq a b = (val a =? val b);
  zero_valid : valid zero;
  zero_val : val zero = 0;
  max_valid : valid max_addr;
  max_val : val max_addr = size - 1;
  plus_one_valid a : valid a -> valid (plus_one a);
  plus_one_val a : valid a -> val (plus_one a) = (val a + 1) mod size;
  minus_one_valid a : valid a -> valid (minus_one a);
  minus_one_val a : valid a -> val (minus_one a) = (val a - 1) mod size
}.

(** ** filter_impl *)

Record range (A : Type) := Range { start : A; range_access : Z }.
Arguments Range {A}.
Arguments start {A}.
Arguments range_access {A}.

Record ip_range (A : Type) := IpRange { first : A; last : A; flags : Z }.
Arguments IpRange {A}.
Arguments first {A}.
Arguments last {A}.
Arguments flags {A}.

Section FilterImpl.
Context {A : Type} `{AddrOps A}.

(** [std::set<range>]: the ranges in increasing order; an iterator is an index,
    [end()] the length. *)
Definition filter_impl : Type := list (range A).

Definition filter_new : filter_impl := [Range zero 0].

Fixpoint upper_bound (a : A) (l : filter_impl) : nat :=
  match l with
  | [] => 0
  | r :: l => if addr_lt a (start r) then 0 else S (upper_bound a l)
  end.

(** [insert]: the set, the position of the element with that key, and whether it
    is new. *)
Fixpoint set_insert (x : range A) (l : filter_impl) : filter_impl * nat * bool :=
  match l with
  | [] => ([x], 0%nat, true)
  | r :: l' =>
      if addr_lt (start x) (start r) then (x :: l, 0%nat, true)
      else if addr_lt (start r) (start x) then
        let '(l', k, inserted) := set_insert x l' in (r :: l', S k, inserted)
      else (l, 0%nat, false)
  end.

(** Where an iterator is after an insertion. *)
Definition shifted (j k : nat) (inserted : bool) : nat := if inserted && (k <=? j)%nat then S j else j.

Definition range_at (l : filter_impl) (i : nat) : range A := nth i l (Range zero 0).

(** The end of [add_rule]: a range starts behind [last] with the flags that held
    there, unless one does already or the flags are the same; a range that
    continues with the new flags is merged. *)
Definition rule_end (last : A) (flags last_access : Z) (l : filter_impl) (j : nat) : filter_impl :=
  let at_end := (j =? length l)%nat in
  let '(l, j) :=
    if (negb at_end && negb (addr_eq (minus_one (start (range_at l j))) last))
       || (at_end && negb (addr_eq last max_addr)) then
      if negb (last_access =? flags) then
        let '(l, k, _) := set_insert (Range (plus_one last) last_access) l in (l, k)
      else (l, j)
    else (l, j) in
  if negb (j =? length l)%nat && (range_access (range_at l j) =? flags)
  then take j l ++ drop (S j) l
  else l.

Definition add_rule (first last : A) (flags : Z) (m_access_list : filter_impl) : filter_impl :=
  let l := m_access_list in
  let i := upper_bound first l in
  let j := upper_bound last l in
  let i := if (i =? 0)%nat then i else (i - 1)%nat in
  let first_access := range_access (range_at l i) in
  let last_access := range_access (range_at l (j - 1)) in
  let '(l, i, j, first_access) :=
    if negb (addr_eq (start (range_at l i)) first) && negb (first_access =? flags) then
      let '(l, k, inserted) := set_insert (Range first flags) l in
      (l, k, shifted j k inserted, first_access)
    else if negb (i =? 0)%nat && (range_access (range_at l (i - 1)) =? flags) then
      (l, (i - 1)%nat, j, range_access (range_at l (i - 1)))
    else (l, i, j, first_access) in
  let '(l, j) := if (i =? j)%nat then (l, j) else (take (S i) l ++ drop j l, S i) in
  let '(l, j) :=
    if addr_eq (start (range_at l i)) first then (<[i := Range first flags]> l, j)
    else if negb (first_access =? flags) then
      let '(l, k, inserted) := set_insert (Range first flags) l in (l, shifted j k inserted)
    else (l, j) in
  rule_end last flags last_access l j.

Definition access (a : A) (m_access_list : filter_impl) : Z :=
  let i := upper_bound a m_access_list in
  range_access (range_at m_access_list (if (i =? 0)%nat then i else (i - 1)%nat)).

Fixpoint export_filter (l : filter_impl) : list (ip_range A) :=
  match l with
  | [] => []
  | r :: l' =>
      IpRange (start r) (match l' with [] => max_addr | next :: _ => minus_one (start next) end) (range_access r)
      :: export_filter l'
  end.
End FilterImpl.
Arguments filter_impl : clear implicits.

(** ** The instances *)

(** [boost::uint16_t]: the free functions overloaded for it. *)
#[global] Instance port_ops : AddrOps Z := {
  addr_lt := Z.ltb; addr_eq := Z.eqb; zero := 0;
  plus_one v := to_uint 2 (v + 1); minus_one v := to_uint 2 (v - 1); max_addr := 0xffff
}.

(** The loops of [plus_one] and [minus_one], from the last byte. *)
Fixpoint carry (l : bytes) : bytes :=
  match l with
  | [] => []
  | b :: l => if b2z b <? 0xff then z2b (b2z b + 1) :: l else z2b 0 :: carry l
  end.

Fixpoint borrow (l : bytes) : bytes :=
  match l with
  | [] => []
  | b :: l => if 0 <? b2z b then z2b (b2z b - 1) :: l else z2b 0xff :: borrow l
  end.

(** [boost::array<unsigned char, n>]: compared lexicographically. *)
Definition array_ops (n : nat) : AddrOps bytes := {|
  addr_lt := bytes_ltb; addr_eq := bytes_equal; zero := replicate n (z2b 0);
  plus_one a := reverse (carry (reverse a)); minus_one a := reverse (borrow (reverse a));
  max_addr := replicate n (z2b 0xff)
|}.

(** *** ip_filter and port_filter *)

Inductive ip_address := V4 (a : bytes) | V6 (a : bytes).

Record ip_filter := IpFilter { m_filter4 : filter_impl bytes }.

Definition ip_filter_new : ip_filter := IpFilter (filter_new (H := array_ops 4)).

(** Both addresses are of the same family; without IPv6 support a rule for IPv6
    addresses is an assertion. *)
Definition ip_add_rule (first last : ip_address) (flags : Z) (f : ip_filter) : option ip_filter :=
  match first, last with
  | V4 a, V4 b => Some (IpFilter (add_rule (H := array_ops 4) a b flags (m_filter4 f)))
  | _, _ => None
  end.

Definition ip_access (a : ip_address) (f : ip_filter) : Z :=
  match a with
  | V4 a => access (H := array_ops 4) a (m_filter4 f)
  | V6 _ => 0
  end.

Definition ip_export_filter (f : ip_filter) : list (ip_range bytes) := export_filter (H := array_ops 4) (m_filter4 f).

Record port_filter := PortFilter { m_filter : filter_impl Z }.

Definition port_filter_new : port_filter := PortFilter filter_new.
Definition port_add_rule (first last : Z) (flags : Z) (f : port_filter) : port_filter :=
  PortFilter (add_rule first last flags (m_filter f)).
Definition port_access (port : Z) (f : port_filter) : Z := access port (m_filter f).

(** ** The representation *)

Section Laws.
Context {A : Type} {ops : AddrOps A} {size : Z} {valid : A -> Prop} {val : A -> Z} {laws : AddrLaws A size valid val}.

(** What has been read of a list: the last start and the flags that hold. *)
Definition after (s : Z * option Z) (l : filter_impl A) : Z * option Z :=
  foldl (fun _ r => (val (start r), Some (range_access r))) s l.

(** Starts increase and neighbours have different flags. *)
Fixpoint canon (s : Z * option Z) (l : filter_impl A) : Prop :=
  match l with
  | [] => True
  | r :: l =>
      valid (start r) /\ s.1 < val (start r) /\ Some (range_access r) <> s.2 /\
      canon (val (start r), Some (range_access r)) l
  end.

Definition filter_ok (l : filter_impl A) : Prop := canon (-1, None) l /\ exists d l', l = Range zero d :: l'.

(** The flags of the address with number [v]. *)
Fixpoint den (d : option Z) (l : filter_impl A) (v : Z) : option Z :=
  match l with
  | [] => d
  | r :: l => if v <? val (start r) then d else den (Some (range_access r)) l v
  end.

Definition low (v : Z) (l : filter_impl A) : Prop := Forall (fun r => valid (start r) /\ val (start r) <= v) l.
Definition high (v : Z) (l : filter_impl A) : Prop := Forall (fun r => valid (start r) /\ v < val (start r)) l.

Lemma canon_app s l1 l2 : canon s (l1 ++ l2) <-> canon s l1 /\ canon (after s l1) l2.
Proof.
  revert s. induction l1 as [|r l1 IH]; intros s; cbn [canon app]; [cbn; tauto|]. rewrite IH. cbn. tauto.
Qed.

Lemma canon_weaken lo lo' d l : lo' <= lo -> canon (lo, d) l -> canon (lo', d) l.
Proof. intros Hlo. destruct l as [|r l]; cbn; [done|]. intros (?&?&?&?). split_and!; try done. lia. Qed.

Lemma canon_high s v l : v <= s.1 -> canon s l -> high v l.
Proof.
  revert s. induction l as [|r l IH]; intros s Hv; cbn; [constructor|]. intros (Hval & Hlt & _ & Hc).
  constructor; [split; [done|lia]|]. eapply IH; [|exact Hc]. cbn. lia.
Qed.

Lemma den_high d v l : high v l -> den d l v = d.
Proof. intros Hh. destruct Hh as [|r l [_ Hr] _]; cbn; [done|]. by rewrite (proj2 (Z.ltb_lt _ _)). Qed.

Lemma den_low s v l1 l2 : low v l1 -> den s.2 (l1 ++ l2) v = den (after s l1).2 l2 v.
Proof.
  revert s. induction l1 as [|r l1 IH]; intros s Hl; [done|]. inversion_clear Hl as [|? ? [_ Hr] Hl']. cbn [app den].
  rewrite (proj2 (Z.ltb_ge _ _)) by done. apply (IH (val (start r), Some (range_access r)) Hl').
Qed.

Lemma den_app_high d v l1 l2 : high v l2 -> den d (l1 ++ l2) v = den d l1 v.
Proof.
  intros Hh. revert d. induction l1 as [|r l1 IH]; intros d; cbn; [by apply den_high|]. by case_match.
Qed.

(** Two canonical lists that answer alike are equal. *)
Lemma canon_unique s l l' : canon s l -> canon s l' -> (forall v, s.1 < v < size -> den s.2 l v = den s.2 l' v) -> l = l'.
Proof.
  revert s l'. induction l as [|r l IH]; intros s [|r' l']; cbn [canon]; intros Hc Hc' Hd; [done|..].
  - destruct Hc' as (Hv & Hlt & Hne & Hc'). specialize (Hd (val (start r'))). cbn in Hd. pose proof (val_range _ Hv).
    rewrite Z.ltb_irrefl, (den_high _ _ l') in Hd by (eapply canon_high; [|exact Hc']; cbn; lia). by rewrite <- Hd in Hne by lia.
  - destruct Hc as (Hv & Hlt & Hne & Hc). specialize (Hd (val (start r))). cbn in Hd. pose proof (val_range _ Hv).
    rewrite Z.ltb_irrefl, (den_high _ _ l) in Hd by (eapply canon_high; [|exact Hc]; cbn; lia). by rewrite Hd in Hne by lia.
  - destruct Hc as (Hv & Hlt & Hne & Hc), Hc' as (Hv' & Hlt' & Hne' & Hc'). cbn [den] in Hd.
    pose proof (val_range _ Hv) as R. pose proof (val_range _ Hv') as R'.
    assert (den (Some (range_access r)) l (val (start r)) = Some (range_access r)) as E by (apply den_high; eapply canon_high; [|exact Hc]; cbn; lia).
    assert (den (Some (range_access r')) l' (val (start r')) = Some (range_access r')) as E' by (apply den_high; eapply canon_high; [|exact Hc']; cbn; lia).
    assert (val (start r) = val (start r')) as Es.
    { destruct (Z.lt_trichotomy (val (start r)) (val (start r'))) as [L|[L|L]]; [exfalso|done|exfalso].
      - specialize (Hd (val (start r)) ltac:(lia)). rewrite Z.ltb_irrefl, (proj2 (Z.ltb_lt _ _) L), E in Hd. done.
      - specialize (Hd (val (start r')) ltac:(lia)). rewrite Z.ltb_irrefl, (proj2 (Z.ltb_lt _ _) L), E' in Hd. done. }
    assert (range_access r = range_access r') as Ea.
    { specialize (Hd (val (start r)) ltac:(lia)). rewrite E, Es, E', !Z.ltb_irrefl in Hd. congruence. }
    destruct r as [a f], r' as [a' f']; cbn [start range_access] in *. f_equal; [f_equal; [by apply val_inj|done]|].
    apply (IH (val a, Some f)); [done|by rewrite Es, Ea|]. cbn [fst snd]. intros v Hvv. specialize (Hd v ltac:(lia)).
    rewrite <- Es, Ea, (proj2 (Z.ltb_ge _ _)) in Hd by lia. by rewrite Ea.
Qed.

(** ** Positions *)

Lemma canon_split s v l : canon s l -> exists l1 l2, l = l1 ++ l2 /\ low v l1 /\ high v l2.
Proof.
  revert s. induction l as [|r l IH]; intros s Hc; [exists [], []; by repeat constructor|]. pose proof Hc as (Hv & _ & _ & Hc').
  destruct (Z.le_gt_cases (val (start r)) v) as [Hr|Hr].
  - destruct (IH _ Hc') as (l1 & l2 & -> & H1 & H2). exists (r :: l1), l2. split_and!; [done|by constructor|done].
  - exists [], (r :: l). split_and!; [done|constructor|]. constructor; [done|]. eapply canon_high; [|exact Hc']. cbn. lia.
Qed.

Lemma upper_bound_at a l1 l2 : valid a -> low (val a) l1 -> high (val a) l2 -> upper_bound a (l1 ++ l2) = length l1.
Proof.
  intros Ha Hl Hh. induction Hl as [|r l1 [Hv Hr] Hl IH]; cbn [app upper_bound length].
  - destruct Hh as [|r l2 [Hv Hr] _]; cbn; [done|]. by rewrite addr_lt_val, (proj2 (Z.ltb_lt _ _)).
  - by rewrite addr_lt_val, (proj2 (Z.ltb_ge _ _)), IH.
Qed.

Lemma set_insert_at x l1 l2 :
  valid (start x) -> low (val (start x) - 1) l1 -> high (val (start x)) l2 ->
  set_insert x (l1 ++ l2) = (l1 ++ x :: l2, length l1, true).
Proof.
  intros Ha Hl Hh. induction Hl as [|r l1 [Hv Hr] Hl IH]; cbn [app set_insert length].
  - destruct Hh as [|r l2 [Hv Hr] _]; cbn; [done|]. by rewrite addr_lt_val, (proj2 (Z.ltb_lt _ _)).
  - rewrite !addr_lt_val by done. rewrite (proj2 (Z.ltb_ge _ _)), (proj2 (Z.ltb_lt _ _)), IH by lia. done.
Qed.

Lemma range_at_mid l1 r l2 : range_at (l1 ++ r :: l2) (length l1) = r.
Proof. unfold range_at. rewrite app_nth2, Nat.sub_diag by lia. done. Qed.

Lemma range_at_app_low l1 l2 i : (i < length l1)%nat -> range_at (l1 ++ l2) i = range_at l1 i.
Proof. intros. unfold range_at. by rewrite app_nth1. Qed.

Lemma low_app v l1 l2 : low v (l1 ++ l2) <-> low v l1 /\ low v l2.
Proof. apply Forall_app. Qed.

Lemma low_weaken v w l : v <= w -> low v l -> low w l.
Proof. intros Hv. apply Forall_impl. intros r [? ?]. split; [done|lia]. Qed.

Lemma after_low lo v d l : lo <= v -> low v l -> (after (lo, d) l).1 <= v.
Proof.
  intros Hlo Hl. revert lo d Hlo. induction Hl as [|r l [_ Hr] _ IH]; intros lo d Hlo; [done|]. by apply (IH _ _ Hr).
Qed.

(** ** What add_rule computes *)

(** The ranges up to the rule, when [r] is the range [first] falls into. *)
Definition rule_head (a : A) (flags : Z) (P : filter_impl A) (r : range A) : filter_impl A :=
  if val (start r) =? val a then
    if bool_decide ((after (0, None) P).2 = Some flags) then P else P ++ [Range a flags]
  else if range_access r =? flags then P ++ [r] else P ++ [r; Range a flags].

(** The ranges behind the rule; [f] holds at its end so far. *)
Definition rule_tail (b : A) (flags f : Z) (Q : filter_impl A) : filter_impl A :=
  if match Q with [] => val b =? size - 1 | q :: _ => val (start q) =? val b + 1 end then
    match Q with q :: Q' => if range_access q =? flags then Q' else Q | [] => [] end
  else if f =? flags then Q else Range (plus_one b) f :: Q.

Lemma plus_one_next b : valid b -> val b < size - 1 -> val (plus_one b) = val b + 1.
Proof. intros Hb Hlt. rewrite plus_one_val by done. apply Z.mod_small. pose proof (val_range b Hb). lia. Qed.

Lemma minus_one_prev b : valid b -> 0 < val b -> val (minus_one b) = val b - 1.
Proof. intros Hb Hlt. rewrite minus_one_val by done. apply Z.mod_small. pose proof (val_range b Hb). lia. Qed.

Lemma rule_end_eq b flags f H Q :
  valid b -> canon (val b, Some f) Q -> low (val b) H -> rule_end b flags f (H ++ Q) (length H) = H ++ rule_tail b flags f Q.
Proof.
  intros Hb HQ HH. pose proof (val_range b Hb). unfold rule_end, rule_tail. rewrite length_app.
  destruct Q as [|q Q].
  - rewrite (proj2 (Nat.eqb_eq _ _)) by (cbn; lia). cbn [negb andb orb]. rewrite addr_eq_val, max_val by (done || apply max_valid).
    destruct (Z.eqb_spec (val b) (size - 1)); cbn [negb].
    { rewrite length_app, (proj2 (Nat.eqb_eq _ _)) by (cbn; lia). by rewrite app_nil_r. }
    destruct (Z.eqb_spec f flags) as [->|Hf]; cbn [negb].
    { by rewrite length_app, (proj2 (Nat.eqb_eq _ _)) by (cbn; lia). }
    rewrite set_insert_at; cbn [start]; [|by apply plus_one_valid|rewrite plus_one_next by (done || lia); by rewrite Z.add_simpl_r|constructor].
    rewrite length_app, (proj2 (Nat.eqb_neq _ _)), range_at_mid by (cbn; lia). cbn. by rewrite (proj2 (Z.eqb_neq _ _)).
  - rewrite (proj2 (Nat.eqb_neq _ _)) by (cbn; lia). cbn [negb andb orb]. rewrite orb_false_r. pose proof HQ as (Hq & Hlt & Hne & HQ').
    cbn [fst snd] in *. pose proof (val_range _ Hq). rewrite range_at_mid, addr_eq_val by (done || by apply minus_one_valid). rewrite minus_one_prev by (done || lia).
    replace (val (start q) - 1 =? val b) with (val (start q) =? val b + 1) by (bool_cases; lia).
    destruct (Z.eqb_spec (val (start q)) (val b + 1)); cbn [negb].
    + rewrite length_app, (proj2 (Nat.eqb_neq _ _)), range_at_mid by (cbn; lia). cbn. destruct (range_access q =? flags); [|done].
      rewrite take_app_length. f_equal. rewrite <- Nat.add_1_r, <- drop_drop, drop_app_length. done.
    + destruct (Z.eqb_spec f flags) as [->|Hf]; cbn [negb].
      { rewrite length_app, (proj2 (Nat.eqb_neq _ _)), range_at_mid by (cbn; lia). cbn. rewrite (proj2 (Z.eqb_neq _ _)) by congruence. done. }
      rewrite set_insert_at; cbn [start]; [|by apply plus_one_valid|rewrite plus_one_next by (done || lia); by rewrite Z.add_simpl_r|].
      * rewrite length_app, (proj2 (Nat.eqb_neq _ _)), range_at_mid by (cbn; lia). cbn. by rewrite (proj2 (Z.eqb_neq _ _)).
      * rewrite plus_one_next by (done || lia). constructor; [split; [done|lia]|]. eapply canon_high; [|exact HQ']. cbn. lia.
Qed.

Lemma erase_between n m (H M Q : filter_impl A) :
  n = length H -> m = length (H ++ M) -> take n (H ++ M ++ Q) ++ drop m (H ++ M ++ Q) = H ++ Q.
Proof. intros -> ->. by rewrite take_app_length, (assoc_L app H M Q), drop_app_length. Qed.

Lemma after_last s l1 l2 n : l1 <> [] -> n = (length l1 - 1)%nat -> (after s l1).2 = Some (range_access (range_at (l1 ++ l2) n)).
Proof.
  intros Hl ->. destruct (exists_last Hl) as (l & x & ->). unfold after. rewrite foldl_app. cbn [foldl snd].
  rewrite <- (assoc_L app), length_app. cbn [length app]. rewrite Nat.add_sub, range_at_mid. done.
Qed.

Lemma insert_last (H Q : filter_impl A) x y n : n = length H -> <[n := y]> (H ++ x :: Q) = H ++ y :: Q.
Proof. intros ->. rewrite <- (Nat.add_0_r (length H)), insert_app_r. done. Qed.

Lemma high_weaken v w l : v <= w -> high w l -> high v l.
Proof. intros Hv. apply Forall_impl. intros r [? ?]. split; [done|lia]. Qed.

Lemma canon_low s P r l : canon s (P ++ r :: l) -> low (val (start r) - 1) P.
Proof.
  revert s. induction P as [|p P IH]; intros s; cbn [app canon]; [constructor|]. intros (Hv & _ & _ & Hc).
  constructor; [|by eapply IH]. split; [done|]. assert (high (val (start p)) (P ++ r :: l)) as Hh by (eapply canon_high; [|exact Hc]; cbn; lia).
  apply Forall_app in Hh as [_ Hh]. inversion_clear Hh as [|? ? [_ ?] _]. lia.
Qed.

Lemma low_snoc v l x : low v l -> valid (start x) -> val (start x) <= v -> low v (l ++ [x]).
Proof. intros Hl Hv Hx. apply low_app. split; [done|]. by constructor. Qed.

Lemma app_mid (P M Q : filter_impl A) r : P ++ r :: M ++ Q = (P ++ [r]) ++ M ++ Q.
Proof. by rewrite <- (assoc_L app P). Qed.

Lemma length_snoc (P : filter_impl A) r : length (P ++ [r]) = S (length P).
Proof. rewrite length_app. cbn. lia. Qed.

Section Rule.
Context (a b : A) (flags f : Z) (P : filter_impl A) (r : range A) (M Q : filter_impl A).
Context (Ha : valid a) (Hb : valid b) (Hab : val a <= val b) (Hc : canon (-1, None) (P ++ r :: M ++ Q)).
Context (HP : low (val a) P) (Hrv : valid (start r)) (Hra : val (start r) <= val a) (HM : high (val a) M) (HM' : low (val b) M) (HQ : high (val b) Q).
Context (Hf : (after (0, None) (r :: M)).2 = Some f).

Lemma rule_after s : (after s (P ++ r :: M)).2 = Some f.
Proof. rewrite <- Hf. unfold after. by rewrite foldl_app. Qed.

Lemma rule_first : upper_bound a (P ++ r :: M ++ Q) = S (length P).
Proof.
  rewrite app_mid, upper_bound_at, length_snoc; [done|done|by apply low_snoc|].
  apply Forall_app. split; [done|]. by eapply high_weaken.
Qed.

Lemma rule_low : low (val b) (P ++ r :: M).
Proof. apply low_app. split; [by eapply low_weaken|]. constructor; [split; [done|lia]|done]. Qed.

Lemma rule_last : upper_bound b (P ++ r :: M ++ Q) = length (P ++ r :: M).
Proof.
  change (r :: M ++ Q) with ((r :: M) ++ Q). rewrite (assoc_L app P). apply upper_bound_at; [done|apply rule_low|done].
Qed.

Lemma rule_rest : canon (val b, Some f) Q.
Proof.
  change (r :: M ++ Q) with ((r :: M) ++ Q) in Hc. rewrite (assoc_L app) in Hc. apply canon_app in Hc as [_ Hc'].
  pose proof (rule_after (-1, None)) as E. destruct (after (-1, None) (P ++ r :: M)) as [lo d]. cbn in E. subst d.
  destruct Q as [|q Q']; [done|]. inversion_clear HQ as [|? ? [_ Hq] _]. destruct Hc' as (?&?&?&?). by split_and!.
Qed.

Lemma rule_last_access : range_access (range_at (P ++ r :: M ++ Q) (length (P ++ r :: M) - 1)) = f.
Proof.
  change (r :: M ++ Q) with ((r :: M) ++ Q). rewrite (assoc_L app P). pose proof (rule_after (0, None)) as E.
  rewrite (after_last _ (P ++ r :: M) Q _ (not_eq_sym (app_cons_not_nil P M r)) eq_refl) in E. congruence.
Qed.

(** The range before [r] has other flags and a smaller start. *)
Lemma rule_prev P0 p : P = P0 ++ [p] -> val (start p) < val (start r) /\ valid (start p) /\ range_access p <> range_access r.
Proof.
  intros ->. rewrite <- (assoc_L app) in Hc. apply canon_app in Hc as [_ (? & _ & _ & ? & ? & Hne & _)]. cbn in *. split_and!; congruence.
Qed.

(** Once the ranges inside the rule are erased. *)
Lemma rule_finish H n : low (val b) H -> n = length H -> rule_end b flags f (H ++ Q) n = H ++ rule_tail b flags f Q.
Proof. intros HH ->. apply rule_end_eq; [done|apply rule_rest|done]. Qed.

Ltac at_mid := rewrite range_at_mid, addr_eq_val by done.
Ltac lengths := rewrite ?length_app; cbn [length]; lia.

Ltac rule_start :=
  unfold add_rule; rewrite rule_first, rule_last, rule_last_access; cbn [Nat.eqb]; rewrite Nat.sub_1_r; cbn [Nat.pred]; at_mid.

(** [first] starts a range and the one before has the new flags: they merge. *)
Lemma rule_merge P0 p :
  P = P0 ++ [p] -> range_access p = flags -> val (start r) = val a ->
  add_rule a b flags (P ++ r :: M ++ Q) = P ++ rule_tail b flags f Q.
Proof.
  intros EP Hpf Hs. destruct (rule_prev P0 p EP) as (Hpr & Hpv & _). rule_start. rewrite (proj2 (Z.eqb_eq _ _) Hs). cbn [negb andb].
  rewrite EP, length_snoc, <- (assoc_L app P0). cbn [app negb andb Nat.eqb Nat.sub]. rewrite Nat.sub_0_r, range_at_mid, (proj2 (Z.eqb_eq _ _) Hpf).
  rewrite (proj2 (Nat.eqb_neq _ _)) by lengths. change (p :: r :: M ++ Q) with ([p] ++ (r :: M) ++ Q).
  rewrite (assoc_L app P0), erase_between, <- (assoc_L app P0) by lengths. cbn [app]. at_mid.
  rewrite (proj2 (Z.eqb_neq (val (start p)) _)) by lia. rewrite (proj2 (Z.eqb_eq _ _) Hpf). cbn [negb].
  change (p :: Q) with ([p] ++ Q). rewrite (assoc_L app P0). rewrite rule_finish; [by rewrite <- (assoc_L app P0)| |by rewrite length_snoc].
  rewrite <- EP. by eapply low_weaken.
Qed.

(** No range before [r] has the new flags. *)
Lemma rule_no_merge :
  (val (start r) = val a -> (after (0, None) P).2 <> Some flags) -> (val (start r) <> val a -> range_access r = flags) ->
  negb (length P =? 0)%nat && (range_access (range_at (P ++ r :: M ++ Q) (length P - 1)) =? flags) = false.
Proof.
  intros H1 H2. destruct (decide (P = [])) as [->|HP0]; [done|]. destruct (exists_last HP0) as (P0 & p & EP).
  destruct (rule_prev P0 p EP) as (_ & _ & Hpa). pose proof (after_last (0, None) P (r :: M ++ Q) _ HP0 eq_refl) as E.
  apply andb_false_iff. right. apply Z.eqb_neq. intros Hpf. destruct (Z.eq_dec (val (start r)) (val a)) as [Hs|Hs].
  - by rewrite E, Hpf in H1; apply H1.
  - rewrite EP, length_snoc, <- (assoc_L app P0) in Hpf. cbn [app Nat.sub] in Hpf. rewrite Nat.sub_0_r, range_at_mid in Hpf. rewrite <- (H2 Hs) in Hpf. done.
Qed.

(** [first] starts a range: its flags change. *)
Lemma rule_change :
  (after (0, None) P).2 <> Some flags -> val (start r) = val a ->
  add_rule a b flags (P ++ r :: M ++ Q) = (P ++ [Range a flags]) ++ rule_tail b flags f Q.
Proof.
  intros Hpf Hs. rule_start. rewrite rule_no_merge by done. rewrite (proj2 (Z.eqb_eq _ _) Hs). cbn [negb andb].
  rewrite (proj2 (Nat.eqb_neq _ _)) by lengths. rewrite app_mid, erase_between, <- (assoc_L app P) by lengths. cbn [app]. at_mid.
  rewrite (proj2 (Z.eqb_eq _ _) Hs), insert_last by done. change (Range a flags :: Q) with ([Range a flags] ++ Q). rewrite (assoc_L app P).
  apply rule_finish; [|by rewrite length_snoc]. eapply low_weaken; [exact Hab|]. by apply low_snoc.
Qed.

(** [first] is inside a range with the new flags. *)
Lemma rule_same :
  range_access r = flags -> val (start r) <> val a ->
  add_rule a b flags (P ++ r :: M ++ Q) = (P ++ [r]) ++ rule_tail b flags f Q.
Proof.
  intros Hrf Hs. rule_start. rewrite rule_no_merge by done. rewrite (proj2 (Z.eqb_neq _ _) Hs), (proj2 (Z.eqb_eq _ _) Hrf). cbn [negb andb].
  rewrite (proj2 (Nat.eqb_neq _ _)) by lengths. rewrite app_mid, erase_between, <- (assoc_L app P) by lengths. cbn [app]. at_mid.
  rewrite (proj2 (Z.eqb_neq _ _) Hs), (proj2 (Z.eqb_eq _ _) Hrf). cbn [negb]. change (r :: Q) with ([r] ++ Q). rewrite (assoc_L app P).
  apply rule_finish; [|by rewrite length_snoc]. eapply low_weaken; [exact Hab|]. by apply low_snoc.
Qed.

(** [first] is inside a range with other flags. *)
Lemma rule_split :
  range_access r <> flags -> val (start r) <> val a ->
  add_rule a b flags (P ++ r :: M ++ Q) = (P ++ [r; Range a flags]) ++ rule_tail b flags f Q.
Proof.
  intros Hrf Hs. rule_start. rewrite (proj2 (Z.eqb_neq _ _) Hs), (proj2 (Z.eqb_neq _ _) Hrf). cbn [negb andb]. rewrite app_mid, set_insert_at; cbn [start].
  - unfold shifted. rewrite (proj2 (Nat.leb_le _ _)) by lengths. cbn [andb]. rewrite (proj2 (Nat.eqb_neq _ _)) by lengths.
    rewrite app_mid, erase_between, <- (assoc_L app (P ++ [r])) by lengths. cbn [app]. at_mid. cbn [start]. rewrite Z.eqb_refl, insert_last by done.
    change (Range a flags :: Q) with ([Range a flags] ++ Q). rewrite (assoc_L app (P ++ [r])).
    rewrite rule_finish; [by rewrite <- (assoc_L app P [r])| |by rewrite !length_snoc].
    eapply low_weaken; [exact Hab|]. apply low_snoc; [by apply low_snoc|done|done].
  - done.
  - apply low_app. split; [eapply low_weaken; [|by eapply canon_low]; lia|]. constructor; [split; [done|lia]|constructor].
  - apply Forall_app. split; [done|]. by eapply high_weaken.
Qed.

Lemma add_rule_eq : add_rule a b flags (P ++ r :: M ++ Q) = rule_head a flags P r ++ rule_tail b flags f Q.
Proof.
  unfold rule_head. destruct (Z.eqb_spec (val (start r)) (val a)) as [Hs|Hs].
  - case_bool_decide as Hp; [|by apply rule_change]. destruct (decide (P = [])) as [->|HP0]; [done|].
    destruct (exists_last HP0) as (P0 & p & EP). eapply rule_merge; [exact EP| |done].
    rewrite EP in Hp. unfold after in Hp. rewrite foldl_app in Hp. cbn in Hp. congruence.
  - destruct (Z.eqb_spec (range_access r) flags); [by apply rule_same|by apply rule_split].
Qed.
End Rule.

(** ** add_rule and access *)

Lemma rule_parts a b l :
  filter_ok l -> valid a -> valid b -> val a <= val b ->
  exists P r M Q f, l = P ++ r :: M ++ Q /\ low (val a) P /\ valid (start r) /\ val (start r) <= val a /\ high (val a) M /\
    low (val b) M /\ high (val b) Q /\ (after (0, None) (r :: M)).2 = Some f.
Proof.
  intros [Hc (d & l' & El)] Ha Hb Hab. destruct (canon_split _ (val a) _ Hc) as (l1 & l2 & E & H1 & H2).
  assert (l1 <> []) as Hn.
  { intros ->. cbn in E. subst l2. rewrite El in H2. inversion_clear H2 as [|? ? [_ Hz] _]. cbn in Hz. rewrite zero_val in Hz. pose proof (val_range a Ha). lia. }
  destruct (exists_last Hn) as (P & r & ->). rewrite E in Hc. pose proof Hc as [_ Hc2]%canon_app.
  destruct (canon_split _ (val b) _ Hc2) as (M & Q & -> & HM & HQ). apply low_app in H1 as [H1 Hr]. inversion_clear Hr as [|? ? [Hrv Hra] _].
  apply Forall_app in H2 as [H2 _]. exists P, r, M, Q. eexists. rewrite E, <- (assoc_L app P). split_and!; try done.
  apply (after_last _ (r :: M) []); done.
Qed.

Lemma rule_head_canon a flags P r :
  valid a -> canon (-1, None) (P ++ [r]) -> val (start r) <= val a ->
  canon (-1, None) (rule_head a flags P r) /\ (after (-1, None) (rule_head a flags P r)).2 = Some flags /\
  low (val a) (rule_head a flags P r).
Proof.
  intros Ha Hc Hr. pose proof Hc as [HcP (Hrv & Hlt & Hne & _)]%canon_app. pose proof (canon_low _ _ _ _ Hc) as Hlow.
  assert (low (val a) P) as HP by (eapply low_weaken; [|exact Hlow]; lia). pose proof (val_range a Ha).
  assert (forall l x, after (-1, None) (l ++ [x]) = (val (start x), Some (range_access x))) as Hsn by (intros; unfold after; by rewrite foldl_app).
  unfold rule_head. destruct (Z.eqb_spec (val (start r)) (val a)) as [Hs|Hs].
  - case_bool_decide as Hp.
    + split_and!; [done| |done]. rewrite <- Hp. by destruct P.
    + split_and!; [|by rewrite Hsn|by apply low_snoc]. apply canon_app. split; [done|]. split_and!; [done|cbn; lia| |done].
      cbn. intros E. apply Hp. rewrite E. by destruct P.
  - destruct (Z.eqb_spec (range_access r) flags) as [Hrf|Hrf].
    + split_and!; [done|rewrite Hsn; cbn; congruence|by apply low_snoc].
    + change [r; Range a flags] with ([r] ++ [Range a flags]). rewrite (assoc_L app P). split_and!; [|by rewrite Hsn|apply low_snoc; [by apply low_snoc|done|done]].
      apply canon_app. split; [done|]. rewrite Hsn. split_and!; [done|cbn; lia|cbn; congruence|done].
Qed.

Lemma rule_head_den a flags P r v :
  valid a -> valid (start r) -> v < val a -> den None (rule_head a flags P r) v = den None (P ++ [r]) v.
Proof.
  intros Ha Hr Hv. assert (forall l x, valid (start x) -> val (start x) = val a -> den None (l ++ [x]) v = den None l v) as Hx.
  { intros l x Hxv Hx. apply den_app_high. constructor; [|constructor]. split; [done|lia]. }
  unfold rule_head. destruct (Z.eqb_spec (val (start r)) (val a)) as [Hs|Hs].
  - rewrite (Hx P r) by done. case_bool_decide; [done|]. by apply Hx.
  - destruct (_ =? _); [done|]. change [r; Range a flags] with ([r] ++ [Range a flags]). rewrite (assoc_L app P). by apply Hx.
Qed.

Lemma rule_tail_canon b flags f Q :
  valid b -> canon (val b, Some f) Q -> canon (val b, Some flags) (rule_tail b flags f Q) /\
  forall v, val b < v < size -> den (Some flags) (rule_tail b flags f Q) v = den (Some f) Q v.
Proof.
  intros Hb Hc. unfold rule_tail. pose proof (val_range b Hb). pose proof (plus_one_valid b Hb).
  destruct Q as [|q Q].
  - destruct (Z.eqb_spec (val b) (size - 1)); [split; [done|lia]|]. destruct (Z.eqb_spec f flags) as [->|]; [done|].
    split; [|intros v Hv; cbn; rewrite plus_one_next, (proj2 (Z.ltb_ge _ _)) by (done || lia); done].
    split_and!; [done|cbn; rewrite plus_one_next by (done || lia); lia|cbn; congruence|done].
  - pose proof Hc as (Hq & Hlt & Hne & Hc'). cbn [fst snd] in *. pose proof (val_range _ Hq).
    destruct (Z.eqb_spec (val (start q)) (val b + 1)) as [Hn|Hn].
    + destruct (Z.eqb_spec (range_access q) flags) as [<-|Hf].
      * split; [by eapply canon_weaken; [|exact Hc']; lia|]. intros v Hv. cbn. rewrite (proj2 (Z.ltb_ge _ _)) by lia. done.
      * split; [split_and!; [done|cbn; lia|cbn; congruence|done]|]. intros v Hv. cbn. by rewrite (proj2 (Z.ltb_ge _ _)) by lia.
    + destruct (Z.eqb_spec f flags) as [->|Hf]; [done|].
      split; [|intros v Hv; cbn [den start range_access]; rewrite plus_one_next, (proj2 (Z.ltb_ge v (val b + 1))) by (done || lia); done].
      cbn [canon start range_access fst snd]. rewrite plus_one_next by (done || lia). split_and!; try done; [lia|congruence|lia].
Qed.

(** [add_rule] keeps the representation and changes the flags of the rule's
    addresses only. *)
Lemma add_rule_ok a b flags l :
  filter_ok l -> valid a -> valid b -> val a <= val b ->
  filter_ok (add_rule a b flags l) /\
  forall v, 0 <= v < size -> den None (add_rule a b flags l) v = if (val a <=? v) && (v <=? val b) then Some flags else den None l v.
Proof.
  intros Hok Ha Hb Hab. pose proof Hok as [Hc (d & l' & El)]. destruct (rule_parts a b l Hok Ha Hb Hab) as (P & r & M & Q & f & -> & HP & Hrv & Hra & HM & HM' & HQ & Hf).
  rewrite (add_rule_eq a b flags f P r M Q) by done. pose proof (rule_rest b f P r M Q Hc HQ Hf) as HcQ.
  pose proof Hc as Hc1. rewrite app_mid in Hc1. apply canon_app in Hc1 as [Hc1 _].
  destruct (rule_head_canon a flags P r Ha Hc1 Hra) as (HcH & HaH & HlH). destruct (rule_tail_canon b flags f Q Hb HcQ) as [HcT HdT].
  destruct (after (-1, None) (rule_head a flags P r)) as [lo fl] eqn:EH. cbn in HaH. subst fl.
  pose proof (val_range a Ha). pose proof (after_low (-1) (val a) None _ ltac:(lia) HlH) as Hlo. rewrite EH in Hlo. cbn in Hlo.
  assert (high (val b) (rule_tail b flags f Q)) as HhT by (by eapply canon_high; [|exact HcT]).
  split.
  - split; [apply canon_app; rewrite EH; split; [done|]; eapply canon_weaken; [|exact HcT]; lia|].
    unfold rule_head. destruct P as [|p P]; cbn [app] in El; injection El as -> _.
    + cbn [start]. rewrite zero_val. destruct (Z.eqb_spec 0 (val a)) as [E0|E0]; cbn [after foldl snd].
      * rewrite bool_decide_false by done. rewrite (val_inj a zero) by (done || apply zero_valid || by rewrite zero_val). by eexists _, _.
      * destruct (_ =? _); by eexists _, _.
    + repeat case_match; by eexists _, _.
  - intros v Hv. destruct (Z.leb_spec (val a) v) as [Hv1|Hv1]; cbn [andb].
    + rewrite (den_low (-1, None) v) by (by eapply low_weaken). rewrite EH. cbn [snd]. destruct (Z.leb_spec v (val b)) as [Hv2|Hv2].
      * apply den_high. by eapply high_weaken.
      * rewrite HdT by lia. change (r :: M ++ Q) with ((r :: M) ++ Q). rewrite (assoc_L app P).
        rewrite (den_low (-1, None) v); [by rewrite (rule_after f P r M)|].
        eapply low_weaken; [|by apply (rule_low a b P r M)]. lia.
    + rewrite den_app_high by (eapply high_weaken; [|exact HhT]; lia). rewrite app_mid.
      rewrite den_app_high by (apply Forall_app; split; [eapply high_weaken; [|exact HM]; lia|eapply high_weaken; [|exact HQ]; lia]).
      apply rule_head_den; [done..|lia].
Qed.

Lemma access_den a l : filter_ok l -> valid a -> den None l (val a) = Some (access a l).
Proof.
  intros [Hc (d & l' & El)] Ha. destruct (canon_split _ (val a) _ Hc) as (l1 & l2 & -> & H1 & H2). unfold access.
  rewrite upper_bound_at, (den_low (-1, None)), den_high by done. destruct (decide (l1 = [])) as [->|Hn].
  { cbn in El. subst l2. inversion_clear H2 as [|? ? [_ Hz] _]. cbn in Hz. rewrite zero_val in Hz. pose proof (val_range a Ha). lia. }
  rewrite (proj2 (Nat.eqb_neq _ _)) by (destruct l1; done). by apply after_last.
Qed.

Lemma access_new a : access a filter_new = 0.
Proof. unfold access, filter_new. cbn. by destruct (addr_lt a zero). Qed.

Lemma filter_new_ok : filter_ok filter_new.
Proof. split; [|by eexists _, _]. split_and!; [apply zero_valid|cbn; rewrite zero_val; lia|done|done]. Qed.

(** ** Lists of rules *)

Definition rule_ok (x : ip_range A) : Prop := valid (first x) /\ valid (last x) /\ val (first x) <= val (last x).

Definition covers (x : ip_range A) (v : Z) : bool := (val (first x) <=? v) && (v <=? val (last x)).

Definition add_rules (l : filter_impl A) (rs : list (ip_range A)) : filter_impl A :=
  foldl (fun l x => add_rule (first x) (last x) (flags x) l) l rs.

(** The flags of the last rule for an address, [f] when there is none. *)
Definition last_rule (f : Z) (rs : list (ip_range A)) (v : Z) : Z :=
  foldl (fun f x => if covers x v then flags x else f) f rs.

Lemma last_rule_cons f x rs v : last_rule f (x :: rs) v = last_rule (if covers x v then flags x else f) rs v.
Proof. done. Qed.

Lemma add_rules_ok l rs : filter_ok l -> Forall rule_ok rs -> filter_ok (add_rules l rs).
Proof.
  intros Hl Hr. revert l Hl. induction Hr as [|x rs (H1 & H2 & H3) _ IH]; intros l Hl; [done|]. apply IH. by apply add_rule_ok.
Qed.

Lemma add_rules_access l rs a :
  filter_ok l -> Forall rule_ok rs -> valid a -> access a (add_rules l rs) = last_rule (access a l) rs (val a).
Proof.
  intros Hl Hr Ha. revert l Hl. induction Hr as [|x rs (H1 & H2 & H3) _ IH]; intros l Hl; [done|]. cbn.
  destruct (add_rule_ok (first x) (last x) (flags x) l Hl H1 H2 H3) as [Hok Hd]. unfold add_rules in IH. rewrite IH by done.
  specialize (Hd (val a) (val_range a Ha)). rewrite !access_den in Hd by done. unfold last_rule at 1, covers. f_equal. destruct (_ && _); congruence.
Qed.

(** Filters that answer alike are equal. *)
Lemma filter_unique l l' :
  filter_ok l -> filter_ok l' -> (forall v, 0 <= v < size -> exists a, valid a /\ val a = v) ->
  (forall a, valid a -> access a l = access a l') -> l = l'.
Proof.
  intros [Hc Hz] [Hc' Hz'] Hall Ha. apply (canon_unique (-1, None)); [done..|]. cbn. intros v Hv.
  destruct (Hall v ltac:(lia)) as (a & Hav & <-). rewrite !access_den, Ha by done. done.
Qed.

Lemma export_rules_ok s l : canon s l -> Forall rule_ok (export_filter l).
Proof.
  revert s. induction l as [|r l IH]; intros s; cbn [canon export_filter]; [constructor|]. intros (Hv & _ & _ & Hc).
  constructor; [|by eapply IH]. pose proof (val_range _ Hv). destruct l as [|next l]; cbn.
  - split_and!; [done|apply max_valid|]. cbn. rewrite max_val. lia.
  - destruct Hc as (Hn & Hlt & _). cbn in Hlt. split_and!; [done|by apply minus_one_valid|]. cbn. rewrite minus_one_prev by (done || lia). lia.
Qed.

Lemma export_below l v f : high v l -> last_rule f (export_filter l) v = f.
Proof.
  intros Hl. revert f. induction Hl as [|r l [_ Hr] _ IH]; intros f; [done|].
  cbn [export_filter]. rewrite last_rule_cons. unfold covers at 1. cbn [first last].
  rewrite (proj2 (Z.leb_gt _ _)) by lia. apply IH.
Qed.

Lemma export_den s r l v f :
  canon s (r :: l) -> val (start r) <= v < size -> Some (last_rule f (export_filter (r :: l)) v) = den (Some (range_access r)) l v.
Proof.
  revert s r f. induction l as [|next l IH]; intros s r f Hc Hv; destruct Hc as (Hrv & _ & _ & Hc); cbn [export_filter];
    rewrite last_rule_cons; unfold covers at 1; cbn [first last flags]; rewrite (proj2 (Z.leb_le _ _)) by lia; cbn [andb].
  - by rewrite max_val, (proj2 (Z.leb_le _ _)) by lia.
  - pose proof Hc as (Hnv & Hlt & _). cbn in Hlt. pose proof (val_range _ Hrv). rewrite minus_one_prev by (done || lia). cbn [den].
    destruct (Z.ltb_spec v (val (start next))) as [Hl|Hl].
    + rewrite (proj2 (Z.leb_le _ _)) by lia. f_equal. apply (export_below (next :: l)). constructor; [done|].
      destruct Hc as (_ & _ & _ & Hc). eapply canon_high; [|exact Hc]. cbn. lia.
    + rewrite (proj2 (Z.leb_gt _ _)) by lia. eapply (IH _ next f Hc). lia.
Qed.

(** The exported ranges, given to a new filter as rules, make the same filter. *)
Lemma export_rebuilds l :
  (forall v, 0 <= v < size -> exists a, valid a /\ val a = v) -> filter_ok l -> add_rules filter_new (export_filter l) = l.
Proof.
  intros Hall Hl. pose proof Hl as [Hc (d & l' & ->)]. apply filter_unique; [|done|done|].
  - apply add_rules_ok; [apply filter_new_ok|by eapply export_rules_ok].
  - intros a Ha. rewrite add_rules_access by (done || apply filter_new_ok || by eapply export_rules_ok).
    pose proof (val_range a Ha). pose proof (access_den a _ Hl Ha) as E. cbn [den start] in E. rewrite zero_val, (proj2 (Z.ltb_ge _ _)) in E by lia.
    rewrite <- (export_den (-1, None) (Range zero d) l' (val a) (access a filter_new)) in E; [congruence|done|]. cbn. rewrite zero_val. lia.
Qed.

End Laws.

(** ** The laws of the instances *)

#[global] Instance port_laws : AddrLaws Z (2 ^ 16) (is_uint 2) id.
Proof.
  split; unfold id, is_uint; cbn; try done; try lia.
  - intros. by apply (to_uint_range 2).
  - intros. by apply (to_uint_range 2).
Qed.

Lemma port_values v : 0 <= v < 2 ^ 16 -> exists a, is_uint 2 a /\ id a = v.
Proof. by exists v. Qed.

Lemma length_carry l : length (carry l) = length l.
Proof. induction l; cbn; [done|]. case_match; cbn; by rewrite ?IHl. Qed.

Lemma length_borrow l : length (borrow l) = length l.
Proof. induction l; cbn; [done|]. case_match; cbn; by rewrite ?IHl. Qed.

Lemma be_value_snoc l b : be_value (l ++ [b]) = be_value l * 256 + b2z b.
Proof. rewrite be_value_app. cbn. lia. Qed.

Lemma be_value_inj l1 l2 : length l1 = length l2 -> be_value l1 = be_value l2 -> l1 = l2.
Proof.
  intros Hl He. apply bytes_equal_spec; [done|]. revert l2 Hl He. induction l1 as [|b1 l1 IH]; intros [|b2 l2] Hl He; try done.
  cbn in Hl. rewrite !be_value_cons in He. replace (length l2) with (length l1) in He by lia.
  pose proof (be_value_range l1). pose proof (be_value_range l2) as R2. replace (length l2) with (length l1) in R2 by lia.
  destruct (Z.div_mod_unique (2 ^ (8 * Z.of_nat (length l1))) (b2z b1) (b2z b2) (be_value l1) (be_value l2)) as [Eb El]; [by left..|lia|]. cbn. rewrite Eb, Z.eqb_refl. apply IH; [lia|done].
Qed.

Lemma carry_value l : be_value (reverse (carry l)) = (be_value (reverse l) + 1) mod 2 ^ (8 * Z.of_nat (length l)).
Proof.
  induction l as [|b l IH]; [done|]. cbn [carry]. pose proof (b2z_range b). pose proof (be_value_range (reverse l)) as R. rewrite length_reverse in R.
  assert (2 ^ (8 * Z.of_nat (length (b :: l))) = 2 ^ (8 * Z.of_nat (length l)) * 256) as Ep.
  { cbn [length]. replace (8 * Z.of_nat (S (length l))) with (8 * Z.of_nat (length l) + 8) by lia. by rewrite Z.pow_add_r by lia. }
  rewrite Ep, (reverse_cons l b), be_value_snoc. destruct (Z.ltb_spec (b2z b) 255).
  - rewrite reverse_cons, be_value_snoc, b2z_z2b, Z.mod_small by lia. lia.
  - rewrite reverse_cons, be_value_snoc, IH, b2z_z2b by lia. replace (b2z b) with 255 by lia.
    replace (be_value (reverse l) * 256 + 255 + 1) with ((be_value (reverse l) + 1) * 256) by lia. rewrite Zmult_mod_distr_r. lia.
Qed.

Lemma borrow_value l : be_value (reverse (borrow l)) = (be_value (reverse l) - 1) mod 2 ^ (8 * Z.of_nat (length l)).
Proof.
  induction l as [|b l IH]; [done|]. cbn [borrow]. pose proof (b2z_range b). pose proof (be_value_range (reverse l)) as R. rewrite length_reverse in R.
  assert (2 ^ (8 * Z.of_nat (length (b :: l))) = 2 ^ (8 * Z.of_nat (length l)) * 256) as Ep.
  { cbn [length]. replace (8 * Z.of_nat (S (length l))) with (8 * Z.of_nat (length l) + 8) by lia. by rewrite Z.pow_add_r by lia. }
  rewrite Ep, (reverse_cons l b), be_value_snoc. destruct (Z.ltb_spec 0 (b2z b)).
  - rewrite reverse_cons, be_value_snoc, b2z_z2b, Z.mod_small by lia. lia.
  - rewrite reverse_cons, be_value_snoc, IH, b2z_z2b by lia. replace (b2z b) with 0 by lia.
    set (m := 2 ^ (8 * Z.of_nat (length l))) in *. assert (0 < m) by (apply Z.pow_pos_nonneg; lia).
    destruct (Z.eq_dec (be_value (reverse l)) 0) as [->|]; [|rewrite !Z.mod_small by lia; lia].
    rewrite <- (Z.mod_unique (0 - 1) m (-1) (m - 1)) by lia. apply (Z.mod_unique _ _ (-1)); lia.
Qed.

Lemma array_laws n : AddrLaws bytes (H := array_ops n) (2 ^ (8 * Z.of_nat n)) (fun a => length a = n) be_value.
Proof.
  assert (0 < 2 ^ (8 * Z.of_nat n)) by (apply Z.pow_pos_nonneg; lia).
  split; cbn [addr_lt addr_eq zero plus_one minus_one max_addr array_ops].
  - intros a <-. apply be_value_range.
  - intros a b Ha Hb. apply be_value_inj. congruence.
  - intros a b Ha Hb. apply eq_true_iff_eq. rewrite bytes_ltb_spec, Z.ltb_lt by congruence. done.
  - intros a b Ha Hb. apply eq_true_iff_eq. rewrite bytes_equal_spec, Z.eqb_eq by congruence. split; [by intros ->|apply be_value_inj; congruence].
  - apply length_replicate.
  - apply be_value_zeros.
  - apply length_replicate.
  - induction n as [|k IH]; [done|]. cbn [replicate]. rewrite be_value_cons, length_replicate, IH by (apply Z.pow_pos_nonneg; lia).
    rewrite b2z_z2b by lia. replace (8 * Z.of_nat (S k)) with (8 * Z.of_nat k + 8) by lia. rewrite Z.pow_add_r by lia. lia.
  - intros a Ha. by rewrite length_reverse, length_carry, length_reverse.
  - intros a Ha. rewrite carry_value, reverse_involutive, length_reverse, Ha. done.
  - intros a Ha. by rewrite length_reverse, length_borrow, length_reverse.
  - intros a Ha. rewrite borrow_value, reverse_involutive, length_reverse, Ha. done.
Qed.

Lemma array_values n v : 0 <= v < 2 ^ (8 * Z.of_nat n) -> exists a, length a = n /\ be_value a = v.
Proof.
  revert v. induction n as [|n IH]; intros v Hv; [exists []; cbn in *; lia|].
  replace (8 * Z.of_nat (S n)) with (8 * Z.of_nat n + 8) in Hv by lia. rewrite Z.pow_add_r in Hv by lia.
  destruct (IH (v / 256)) as (a & Ha & Ea).
  { split; [apply Z.div_pos; lia|]. apply Z.div_lt_upper_bound; lia. }
  exists (a ++ [z2b (v mod 256)]). split; [rewrite length_app; cbn; lia|].
  rewrite be_value_snoc, Ea, b2z_z2b by (apply Z.mod_pos_bound; lia). pose proof (Z.div_mod v 256). lia.
Qed.

(** ** Properties *)

Definition ip_rules (rs : list (ip_range bytes)) : option ip_filter :=
  foldl (fun f x => f ← f; ip_add_rule (V4 (first x)) (V4 (last x)) (flags x) f) (Some ip_filter_new) rs.

Definition port_rules (rs : list (ip_range Z)) : port_filter :=
  foldl (fun f x => port_add_rule (first x) (last x) (flags x) f) port_filter_new rs.

(** A rule of [ip_filter] and of [port_filter]. *)
Definition ip_rule_ok (x : ip_range bytes) : Prop := rule_ok (valid := fun a => length a = 4%nat) (val := be_value) x.
Definition port_rule_ok (x : ip_range Z) : Prop := rule_ok (valid := is_uint 2) (val := id) x.

Lemma ip_rules_eq rs : ip_rules rs = Some (IpFilter (add_rules (ops := array_ops 4) (filter_new (H := array_ops 4)) rs)).
Proof.
  unfold ip_rules, ip_filter_new. generalize (filter_new (H := array_ops 4)) as l. induction rs as [|x rs IH]; intros l; [done|]. cbn. apply IH.
Qed.

Lemma port_rules_eq rs : port_rules rs = PortFilter (add_rules filter_new rs).
Proof. unfold port_rules, port_filter_new. generalize (filter_new (A := Z)) as l. induction rs as [|x rs IH]; intros l; [done|]. cbn. apply IH. Qed.

(** C21: the filters implement a function from addresses to flags that each rule
    overrides on its range: whatever rules have been added to an [ip_filter] or a
    [port_filter] (their ranges may overlap, touch, or reach the first or the
    last address), [access] answers with the flags of the last rule that covers
    the address, and with 0 when there is none.  IPv6 addresses are not
    filtered. *)
Theorem filter_access_last_rule rs ports :
  Forall ip_rule_ok rs -> Forall port_rule_ok ports ->
  (exists f, ip_rules rs = Some f /\
     (forall a, length a = 4%nat -> ip_access (V4 a) f = last_rule (val := be_value) 0 rs (be_value a)) /\
     forall a, ip_access (V6 a) f = 0) /\
  forall port, is_uint 2 port -> port_access port (port_rules ports) = last_rule (val := id) 0 ports port.
Proof.
  intros Hrs Hps. split.
  - exists (IpFilter (add_rules (ops := array_ops 4) (filter_new (H := array_ops 4)) rs)). split_and!; [apply ip_rules_eq| |done].
    intros a Ha. pose proof (array_laws 4) as L. cbn [ip_access m_filter4]. rewrite (add_rules_access (laws := L)), access_new by (done || apply filter_new_ok). done.
  - intros port Hp. rewrite port_rules_eq. unfold port_access. cbn [m_filter]. rewrite add_rules_access, access_new by (done || apply filter_new_ok). done.
Qed.

Definition sample_rules : list (ip_range bytes) :=
  [IpRange (z2b <$> [10; 0; 0; 0]) (z2b <$> [10; 0; 0; 255]) 1;
   IpRange (z2b <$> [10; 0; 0; 200]) (z2b <$> [255; 255; 255; 255]) 2;
   IpRange (z2b <$> [10; 0; 0; 0]) (z2b <$> [10; 0; 0; 99]) 0].

Lemma sample_rules_ok : Forall ip_rule_ok sample_rules.
Proof. repeat (constructor; [split_and!; vm_compute; done|]). constructor. Defined.

Lemma filter_access_last_rule_witness :
  exists f, ip_rules sample_rules = Some f /\
    (forall a, length a = 4%nat -> ip_access (V4 a) f = last_rule (val := be_value) 0 sample_rules (be_value a)) /\
    forall a, ip_access (V6 a) f = 0.
Proof. apply (filter_access_last_rule sample_rules []); [apply sample_rules_ok|constructor]. Defined.

(** A filter is determined by its answers: the ranges [export_filter] returns
    are rules that rebuild exactly the same filter, and two lists of rules that
    give every address the same flags give equal filters, with no range more than
    is needed, whatever the order and the overlaps of the rules. *)
Theorem filter_export_rebuilds rs rs' f f' :
  Forall ip_rule_ok rs -> Forall ip_rule_ok rs' -> ip_rules rs = Some f -> ip_rules rs' = Some f' ->
  Forall ip_rule_ok (ip_export_filter f) /\ ip_rules (ip_export_filter f) = Some f /\
  ((forall a, length a = 4%nat -> ip_access (V4 a) f = ip_access (V4 a) f') -> f = f').
Proof.
  intros Hrs Hrs'. rewrite !ip_rules_eq. intros [= <-] [= <-]. pose proof (array_laws 4) as L.
  assert (forall l, Forall ip_rule_ok l -> filter_ok (ops := array_ops 4) (valid := fun a => length a = 4%nat) (val := be_value)
    (add_rules (ops := array_ops 4) (filter_new (H := array_ops 4)) l)) as Hok.
  { intros l Hl. apply (add_rules_ok (laws := L)); [apply filter_new_ok|done]. }
  unfold ip_export_filter. cbn [m_filter4]. split_and!.
  - eapply (export_rules_ok (laws := L)). apply (Hok rs Hrs).
  - do 2 f_equal. apply (export_rebuilds (laws := L)); [apply array_values|by apply Hok].
  - intros Ha. f_equal. apply (filter_unique (laws := L)); [by apply Hok..|apply array_values|done].
Qed.

Definition sample_ip_filter : ip_filter := default ip_filter_new (ip_rules sample_rules).

Lemma filter_export_rebuilds_witness : ip_rules (ip_export_filter sample_ip_filter) = Some sample_ip_filter.
Proof.
  apply (filter_export_rebuilds sample_rules sample_rules sample_ip_filter sample_ip_filter sample_rules_ok sample_rules_ok); vm_compute; reflexivity.
Defined.
