(* ===== verification/Entry.v ===== *)
(** * Bencoded values

    [entry] of include/libed2k/entry.hpp and src/entry.cpp, and [bencode] and
    [bdecode] of include/libed2k/bencode.hpp, which store the DHT state and the
    resume data.  [std::map] is the list of its pairs in the order of the keys.

    The decoder is a function of the bytes left; what the code does when it looks
    behind the end of its buffer is the outcome [DFault]. *)

From S2P Require Import Prelude Archive Md4Hash.
From stdpp Require Import sorting.
Open Scope Z_scope.

#[local] Set Warnings "-register-all".

(** ** Values *)

Inductive entry :=
| e_undefined
| e_int (v : Z)
| e_string (s : bytes)
| e_list (l : list entry)
| e_dict (d : list (bytes * entry)).

(** The induction principle with the elements of lists and dictionaries. *)
Section EntryInd.
Context (P : entry -> Prop) (Hu : P e_undefined) (Hi : forall v, P (e_int v)) (Hs : forall s, P (e_string s)).
Context (Hl : forall l, Forall P l -> P (e_list l)) (Hd : forall d, Forall (fun kv => P kv.2) d -> P (e_dict d)).

Fixpoint entry_tree_ind (e : entry) : P e :=
  match e with
  | e_undefined => Hu
  | e_int v => Hi v
  | e_string s => Hs s
  | e_list l =>
      Hl l ((fix go l := match l return Forall P l with
                         | [] => Forall_nil_2 _
                         | x :: l => Forall_cons_2 _ _ _ (entry_tree_ind x) (go l)
                         end) l)
  | e_dict d =>
      Hd d ((fix go (d : list (bytes * entry)) : Forall (fun kv => P kv.2) d :=
               match d with
               | [] => Forall_nil_2 _
               | kv :: d => Forall_cons_2 (fun kv => P kv.2) kv d (match kv return P kv.2 with (_, x) => entry_tree_ind x end) (go d)
               end) d)
  end.
End EntryInd.

(** [std::string::operator<]. *)
Fixpoint str_lt (a b : bytes) : bool :=
  match a, b with
  | _, [] => false
  | [], _ :: _ => true
  | x :: a, y :: b => if b2z x <? b2z y then true else if b2z y <? b2z x then false else str_lt a b
  end.

(** [map::find] and the assignment to [map::operator[]]. *)
Fixpoint dict_get (k : bytes) (d : list (bytes * entry)) : option entry :=
  match d with
  | [] => None
  | (k', v) :: d => if str_lt k k' then None else if str_lt k' k then dict_get k d else Some v
  end.

Fixpoint dict_set (k : bytes) (v : entry) (d : list (bytes * entry)) : list (bytes * entry) :=
  match d with
  | [] => [(k, v)]
  | (k', v') :: d' =>
      if str_lt k k' then (k, v) :: d else if str_lt k' k then (k', v') :: dict_set k v d' else (k', v) :: d'
  end.

(** The accessors of a constant entry: another type is an exception. *)
Definition entry_integer (e : entry) : outcome Z := match e with e_int v => Ok v | _ => Throw invalid_entry_type end.
Definition entry_string (e : entry) : outcome bytes := match e with e_string s => Ok s | _ => Throw invalid_entry_type end.
Definition entry_list (e : entry) : outcome (list entry) := match e with e_list l => Ok l | _ => Throw invalid_entry_type end.
Definition entry_dict (e : entry) : outcome (list (bytes * entry)) :=
  match e with e_dict d => Ok d | _ => Throw invalid_entry_type end.

(** The accessors of an entry that can be changed make the type of an undefined
    one. *)
Definition entry_list_mut (e : entry) : outcome (list entry) :=
  match e with e_undefined => Ok [] | _ => entry_list e end.
Definition entry_dict_mut (e : entry) : outcome (list (bytes * entry)) :=
  match e with e_undefined => Ok [] | _ => entry_dict e end.

Definition find_key (k : bytes) (e : entry) : outcome (option entry) := d ← entry_dict e; mret (dict_get k d).

(** [e[k] = v] *)
Definition entry_assign_key (k : bytes) (v : entry) (e : entry) : outcome entry :=
  d ← entry_dict_mut e; mret (e_dict (dict_set k v d)).

Fixpoint entry_eqb (e1 e2 : entry) : bool :=
  match e1, e2 with
  | e_undefined, e_undefined => true
  | e_int v1, e_int v2 => v1 =? v2
  | e_string s1, e_string s2 => bool_decide (s1 = s2)
  | e_list l1, e_list l2 =>
      (fix go l1 l2 := match l1, l2 with
                       | [], [] => true
                       | x1 :: l1, x2 :: l2 => entry_eqb x1 x2 && go l1 l2
                       | _, _ => false
                       end) l1 l2
  | e_dict d1, e_dict d2 =>
      (fix go d1 d2 := match d1, d2 with
                       | [], [] => true
                       | (k1, x1) :: d1, (k2, x2) :: d2 => bool_decide (k1 = k2) && entry_eqb x1 x2 && go d1 d2
                       | _, _ => false
                       end) d1 d2
  | _, _ => false
  end.

(** ** Writing *)

Definition chr (c : Z) : byte := z2b c.

(** The loop of [integer_to_str]; the digits are written from the end of the
    buffer, which has [room] characters left. *)
Fixpoint write_digits (room : nat) (val : Z) (buf : bytes) : bytes :=
  match room with
  | O => buf
  | S room => if val =? 0 then buf else write_digits room (Z.quot val 10) (chr (48 + Z.rem val 10) :: buf)
  end.

(** [integer_to_str] with the buffer of [write_integer], 21 bytes. *)
Definition integer_to_str (val : Z) : bytes :=
  let sign := val <? 0 in
  let val := if sign then to_int64 (- val) else val in
  let digits := if val =? 0 then [chr 48] else write_digits (if sign then 19 else 20) val [] in
  if sign then chr 45 :: digits else digits.

(** The bytes written and the number returned. *)
Definition write_integer (val : Z) : bytes * Z :=
  let s := integer_to_str val in (s, Z.of_nat (length s)).
Definition write_string (s : bytes) : bytes * Z := (s, Z.of_nat (length s)).

(** The loops over the elements. *)
Definition bencode_list (rec : entry -> bytes * Z) : list entry -> bytes * Z :=
  fix go l := match l with
              | [] => ([], 0)
              | x :: l => let '(s1, n1) := rec x in let '(s2, n2) := go l in (s1 ++ s2, n1 + n2)
              end.

Definition bencode_dict (rec : entry -> bytes * Z) : list (bytes * entry) -> bytes * Z :=
  fix go d := match d with
              | [] => ([], 0)
              | (k, x) :: d =>
                  let '(l, n1) := write_integer (Z.of_nat (length k)) in
                  let '(k, n2) := write_string k in
                  let '(s1, n3) := rec x in
                  let '(s2, n4) := go d in (l ++ chr 58 :: k ++ s1 ++ s2, n1 + n2 + n3 + 1 + n4)
              end.

Fixpoint bencode_recursive (e : entry) : bytes * Z :=
  match e with
  | e_undefined => ([], 0)
  | e_int v => let '(s, n) := write_integer v in (chr 105 :: s ++ [chr 101], n + 2)
  | e_string s =>
      let '(l, n1) := write_integer (Z.of_nat (length s)) in
      let '(s, n2) := write_string s in (l ++ chr 58 :: s, n1 + n2 + 1)
  | e_list l => let '(s, n) := bencode_list bencode_recursive l in (chr 108 :: s ++ [chr 101], n + 2)
  | e_dict d => let '(s, n) := bencode_dict bencode_recursive d in (chr 100 :: s ++ [chr 101], n + 2)
  end.

Definition bencode (e : entry) : bytes * Z := bencode_recursive e.

(** ** Reading *)

(** A decoded value with the bytes left, an error, or a look behind the end of
    the buffer. *)
Inductive decoded (A : Type) :=
| DOk (a : A) (rest : bytes)
| DErr (rest : bytes)
| DFault
| DFuel.
Arguments DOk {A}.
Arguments DErr {A}.
Arguments DFault {A}.
Arguments DFuel {A}.

Definition is_digit (c : byte) : bool := (48 <=? b2z c) && (b2z c <=? 57).

(** What is before the token, and from the token on; [None] with the end of the
    buffer. *)
Fixpoint read_until (token : Z) (in_ : bytes) : option (bytes * bytes) :=
  match in_ with
  | [] => None
  | c :: in' =>
      if b2z c =? token then Some ([], in_)
      else match read_until token in' with Some (s, rest) => Some (c :: s, rest) | None => None end
  end.

Definition is_space (c : byte) : bool := bool_decide (b2z c ∈ [32; 9; 10; 11; 12; 13]).

Fixpoint skip_space (s : bytes) : bytes :=
  match s with
  | c :: s' => if is_space c then skip_space s' else s
  | [] => []
  end.

Fixpoint digits_value (acc : Z) (s : bytes) : Z :=
  match s with
  | c :: s => if is_digit c then digits_value (acc * 10 + (b2z c - 48)) s else acc
  | [] => acc
  end.

(** [strtoll(s, &end, 10)]: [None] when there is nothing to convert, the nearest
    value when the number does not fit. *)
Definition strtoll (s : bytes) : option Z :=
  let s := skip_space s in
  let '(sign, s) := match s with
                    | c :: s' => if b2z c =? 45 then (-1, s') else if b2z c =? 43 then (1, s') else (1, s)
                    | [] => (1, s)
                    end in
  match s with
  | c :: _ => if is_digit c then Some (Z.max (- 2 ^ 63) (Z.min (2 ^ 63 - 1) (sign * digits_value 0 s))) else None
  | [] => None
  end.

(** [atoi], which is [strtol] converted to [int]. *)
Definition atoi (s : bytes) : Z := to_int32 (default 0 (strtoll s)).

Section Loops.
Context (value : bytes -> decoded entry).

(** [while ( *in != 'e')] of a list. *)
Fixpoint bdecode_list (fuel : nat) (l : list entry) (in_ : bytes) : decoded entry :=
  match fuel with
  | O => DFuel
  | S fuel =>
      match in_ with
      | [] => DFault
      | c :: in' =>
          if b2z c =? 101 then DOk (e_list l) in'
          else match value in_ with
               | DOk e [] => DErr []
               | DOk e rest => bdecode_list fuel (l ++ [e]) rest
               | r => r
               end
      end
  end.

(** That of a dictionary.  A key that is not a string ends the function without
    an error. *)
Fixpoint bdecode_dict (fuel : nat) (d : list (bytes * entry)) (in_ : bytes) : decoded entry :=
  match fuel with
  | O => DFuel
  | S fuel =>
      match in_ with
      | [] => DFault
      | c :: in' =>
          if b2z c =? 101 then DOk (e_dict d) in'
          else match value in_ with
               | DOk (e_string k) rest =>
                   match value rest with
                   | DOk e [] => DErr []
                   | DOk e rest => bdecode_dict fuel (dict_set k e d) rest
                   | r => r
                   end
               | DOk _ rest => DOk (e_dict d) rest
               | r => r
               end
      end
  end.
End Loops.

(** [bdecode_recursive] with [levels] levels left until the depth is 100. *)
Fixpoint bdecode_recursive (levels : nat) (in_ : bytes) : decoded entry :=
  match levels with
  | O => DErr in_
  | S levels =>
      match in_ with
      | [] => DErr []
      | c :: in' =>
          if b2z c =? 105 then
            match read_until 101 in' with
            | None => DErr []
            | Some (val, rest) => match strtoll val with Some v => DOk (e_int v) (tail rest) | None => DErr (tail rest) end
            end
          else if b2z c =? 108 then bdecode_list (bdecode_recursive levels) (S (length in')) [] in'
          else if b2z c =? 100 then bdecode_dict (bdecode_recursive levels) (S (length in')) [] in'
          else if is_digit c then
            match read_until 58 in_ with
            | None => DErr []
            | Some (len_s, rest) =>
                let len := Z.to_nat (atoi len_s) in
                let rest := tail rest in
                if (length rest <? len)%nat then DErr [] else DOk (e_string (take len rest)) (drop len rest)
            end
          else DErr in_
      end
  end.

(** [bdecode(start, end, len)]: the value, undefined after an error, and the
    number of bytes read; [None] when the memory behind the buffer is read. *)
Definition bdecode (in_ : bytes) : option (entry * Z) :=
  match bdecode_recursive 100 in_ with
  | DOk e rest => Some (e, Z.of_nat (length in_ - length rest))
  | DErr rest => Some (e_undefined, Z.of_nat (length in_ - length rest))
  | _ => None
  end.

(** ** Decimal numbers *)

Lemma digit_of v : 0 <= v < 10 -> is_digit (chr (48 + v)) = true /\ b2z (chr (48 + v)) = 48 + v.
Proof.
  intros Hv. assert (b2z (chr (48 + v)) = 48 + v) as E by (apply b2z_z2b; lia). split; [|done].
  unfold is_digit. rewrite E. apply andb_true_iff. split; apply Z.leb_le; lia.
Qed.

Lemma write_digits_spec n v buf :
  0 <= v < 10 ^ Z.of_nat n -> exists s, write_digits n v buf = s ++ buf /\ Forall (fun c => is_digit c = true) s /\
    (v <> 0 -> s <> []) /\ forall acc t, digits_value acc (s ++ t) = digits_value (acc * 10 ^ Z.of_nat (length s) + v) t.
Proof.
  revert v buf. induction n as [|n IH]; intros v buf Hv; cbn [write_digits].
  { exists []. split_and!; [done|constructor|cbn in Hv; lia|]. intros. cbn in *. f_equal. lia. }
  destruct (Z.eqb_spec v 0) as [->|Hn]; [exists []; split_and!; [done|constructor|done|intros; cbn; f_equal; lia]|].
  rewrite Z.quot_div_nonneg, Z.rem_mod_nonneg by lia. rewrite Nat2Z.inj_succ, Z.pow_succ_r in Hv by lia.
  destruct (IH (v / 10) (chr (48 + v mod 10) :: buf)) as (s & -> & Hs & _ & Hval).
  { split; [apply Z.div_pos; lia|apply Z.div_lt_upper_bound; lia]. }
  pose proof (Z.mod_pos_bound v 10 ltac:(lia)) as Hm. destruct (digit_of (v mod 10) Hm) as [Hd Hb].
  exists (s ++ [chr (48 + v mod 10)]). split_and!.
  - by rewrite <- (assoc_L app).
  - apply Forall_app. split; [done|]. by constructor.
  - by destruct s.
  - intros acc t. rewrite <- (assoc_L app), Hval. cbn [app digits_value]. rewrite Hd, Hb. f_equal.
    rewrite length_app, Nat2Z.inj_add, Z.pow_add_r by lia. cbn. pose proof (Z.div_mod v 10). lia.
Qed.

(** The decimal form of a number that is not negative. *)
Lemma integer_to_str_digits v :
  0 <= v < 2 ^ 63 -> Forall (fun c => is_digit c = true) (integer_to_str v) /\ integer_to_str v <> [] /\
    forall acc t, digits_value acc (integer_to_str v ++ t) = digits_value (acc * 10 ^ Z.of_nat (length (integer_to_str v)) + v) t.
Proof.
  intros Hv. unfold integer_to_str. rewrite (proj2 (Z.ltb_ge _ _)) by lia. destruct (Z.eqb_spec v 0) as [->|Hn].
  { split_and!; [by repeat constructor|done|done]. }
  destruct (write_digits_spec 20 v []) as (s & -> & Hs & Hne & Hval); [cbn; lia|]. rewrite app_nil_r. auto.
Qed.

Lemma digits_not (c : byte) (P : Z -> Prop) : is_digit c = true -> (forall v, 48 <= v <= 57 -> P v) -> P (b2z c).
Proof. intros [H1%Z.leb_le H2%Z.leb_le]%andb_true_iff HP. apply HP. lia. Qed.

Lemma skip_space_digit c s : is_digit c = true -> skip_space (c :: s) = c :: s.
Proof.
  intros Hc. cbn. unfold is_space. rewrite bool_decide_false; [done|]. apply (digits_not c (fun v => v ∉ [32; 9; 10; 11; 12; 13])); [done|].
  intros v Hv Hin. rewrite !elem_of_cons, elem_of_nil in Hin. lia.
Qed.

Lemma strtoll_digits s t v :
  Forall (fun c => is_digit c = true) s -> s <> [] -> 0 <= v < 2 ^ 63 -> digits_value 0 (s ++ t) = v -> strtoll (s ++ t) = Some v.
Proof.
  intros Hs Hn Hv Hval. destruct s as [|c s]; [done|]. inversion_clear Hs as [|? ? Hc _]. unfold strtoll. cbn [app].
  rewrite skip_space_digit by done. replace (b2z c =? 45) with false; [replace (b2z c =? 43) with false|].
  - rewrite Hc. cbn [app] in Hval. rewrite Hval. f_equal. lia.
  - symmetry. apply Z.eqb_neq. by apply (digits_not c (fun v => v <> 43)); [|lia].
  - symmetry. apply Z.eqb_neq. by apply (digits_not c (fun v => v <> 45)); [|lia].
Qed.

Lemma strtoll_integer_to_str v : - 2 ^ 63 < v < 2 ^ 63 -> strtoll (integer_to_str v) = Some v.
Proof.
  intros Hv. destruct (Z.lt_ge_cases v 0) as [Hneg|Hpos].
  - unfold integer_to_str. rewrite (proj2 (Z.ltb_lt v 0)) by done.
    assert (to_int64 (- v) = - v) as -> by (unfold to_int64; rewrite Z.mod_small by lia; lia).
    rewrite (proj2 (Z.eqb_neq (- v) 0)) by lia. destruct (write_digits_spec 19 (- v) []) as (s & -> & Hs & Hn & Hval); [cbn; lia|].
    specialize (Hn ltac:(lia)). specialize (Hval 0 []). destruct s as [|c s]; [done|]. inversion_clear Hs as [|? ? Hc _].
    unfold strtoll. replace (skip_space (chr 45 :: (c :: s) ++ [])) with (chr 45 :: (c :: s) ++ []) by done. cbn [app].
    replace (b2z (chr 45) =? 45) with true by done. cbn iota. rewrite Hc. cbn [app] in Hval. rewrite Hval. cbn [digits_value]. f_equal. lia.
  - destruct (integer_to_str_digits v ltac:(lia)) as (Hs & Hn & Hval). rewrite <- (app_nil_r (integer_to_str v)).
    apply strtoll_digits; [done|done|lia|]. rewrite Hval. cbn. lia.
Qed.

(** ** The encoding *)

Definition enc (e : entry) : bytes := (bencode_recursive e).1.
Definition enc_string (s : bytes) : bytes := integer_to_str (Z.of_nat (length s)) ++ chr 58 :: s.
Definition enc_list (l : list entry) : bytes := concat (enc <$> l).
Definition enc_dict (d : list (bytes * entry)) : bytes := concat ((fun kv => enc_string kv.1 ++ enc kv.2) <$> d).

Lemma enc_string_eq s : enc (e_string s) = enc_string s.
Proof. done. Qed.

Lemma enc_list_eq l : enc (e_list l) = chr 108 :: enc_list l ++ [chr 101].
Proof.
  assert ((bencode_list bencode_recursive l).1 = enc_list l) as E.
  { induction l as [|x l IH]; [done|]. unfold enc_list in *. cbn. unfold enc at 1. rewrite <- IH.
    destruct (bencode_recursive x), (bencode_list bencode_recursive l). done. }
  unfold enc. cbn [bencode_recursive]. rewrite <- E. by destruct (bencode_list bencode_recursive l).
Qed.

Lemma enc_dict_eq d : enc (e_dict d) = chr 100 :: enc_dict d ++ [chr 101].
Proof.
  assert ((bencode_dict bencode_recursive d).1 = enc_dict d) as E.
  { induction d as [|[k x] d IH]; [done|]. unfold enc_dict in *. cbn. unfold enc at 1, enc_string at 1. rewrite <- IH.
    destruct (bencode_recursive x), (bencode_dict bencode_recursive d). cbn. by rewrite <- !(assoc_L app). }
  unfold enc. cbn [bencode_recursive]. rewrite <- E. by destruct (bencode_dict bencode_recursive d).
Qed.

(** The number returned is the number of bytes. *)
Lemma bencode_length e : (bencode_recursive e).2 = Z.of_nat (length (enc e)).
Proof.
  unfold enc. induction e as [|v|s|l IH|d IH] using entry_tree_ind; cbn [bencode_recursive]; [done|..].
  - unfold write_integer. cbn. rewrite length_app. cbn. lia.
  - unfold write_integer, write_string. cbn. rewrite length_app. cbn. lia.
  - enough ((bencode_list bencode_recursive l).2 = Z.of_nat (length (bencode_list bencode_recursive l).1)) as E
      by (destruct (bencode_list bencode_recursive l); cbn in *; rewrite length_app; cbn; lia).
    induction IH as [|x l Hx _ IH]; [done|]. cbn. destruct (bencode_recursive x), (bencode_list bencode_recursive l). cbn in *. rewrite length_app. lia.
  - enough ((bencode_dict bencode_recursive d).2 = Z.of_nat (length (bencode_dict bencode_recursive d).1)) as E
      by (destruct (bencode_dict bencode_recursive d); cbn in *; rewrite length_app; cbn; lia).
    induction IH as [|[k x] d Hx _ IH]; [done|]. cbn in Hx |- *. destruct (bencode_recursive x), (bencode_dict bencode_recursive d). cbn in *.
    rewrite length_app. cbn. rewrite !length_app. lia.
Qed.

(** Entries that can be encoded and have at most [levels] levels. *)
Definition str_sorted (d : list (bytes * entry)) : Prop := StronglySorted (fun a b => str_lt a.1 b.1 = true) d.

Inductive entry_ok : nat -> entry -> Prop :=
| ok_int n v : - 2 ^ 63 < v < 2 ^ 63 -> entry_ok (S n) (e_int v)
| ok_string n s : Z.of_nat (length s) < 2 ^ 31 -> entry_ok (S n) (e_string s)
| ok_list n l : Forall (entry_ok n) l -> entry_ok (S n) (e_list l)
| ok_dict n d : (d <> [] -> n <> 0%nat) -> str_sorted d -> Forall (fun kv => Z.of_nat (length kv.1) < 2 ^ 31 /\ entry_ok n kv.2) d ->
    entry_ok (S n) (e_dict d).

Lemma str_lt_asym a b : str_lt a b = true -> str_lt b a = false.
Proof.
  revert b. induction a as [|x a IH]; intros [|y b]; cbn; try done. repeat case_match; try done; try lia. intros. by apply IH.
Qed.

Lemma dict_set_last k v d : Forall (fun kv => str_lt kv.1 k = true) d -> dict_set k v d = d ++ [(k, v)].
Proof.
  induction 1 as [|[k' v'] d Hk _ IH]; [done|]. cbn [dict_set fst] in *. rewrite str_lt_asym, Hk, IH by done. done.
Qed.

(** ** Decoding an encoding *)

Lemma read_until_app token s rest c : Forall (fun c => b2z c <> token) s -> b2z c = token -> read_until token (s ++ c :: rest) = Some (s, c :: rest).
Proof.
  intros Hs Hc. induction Hs as [|x s Hx _ IH]; cbn [app read_until]; [by rewrite (proj2 (Z.eqb_eq _ _))|].
  by rewrite (proj2 (Z.eqb_neq _ _)), IH.
Qed.

Lemma digits_until (P : Z -> Prop) s : (forall v, 48 <= v <= 57 -> P v) -> Forall (fun c => is_digit c = true) s -> Forall (fun c => P (b2z c)) s.
Proof. intros HP Hs. induction Hs; constructor; [by apply digits_not|done]. Qed.

Lemma integer_to_str_token v : - 2 ^ 63 < v < 2 ^ 63 -> Forall (fun c => b2z c <> 101) (integer_to_str v).
Proof.
  intros Hv. destruct (Z.lt_ge_cases v 0).
  - unfold integer_to_str. rewrite (proj2 (Z.ltb_lt v 0)) by done.
    assert (to_int64 (- v) = - v) as -> by (unfold to_int64; rewrite Z.mod_small by lia; lia).
    rewrite (proj2 (Z.eqb_neq (- v) 0)) by lia. destruct (write_digits_spec 19 (- v) []) as (s & -> & Hs & _); [cbn; lia|].
    constructor; [done|]. rewrite app_nil_r. eapply (digits_until (fun v => v <> 101)); [lia|done].
  - eapply (digits_until (fun v => v <> 101)); [lia|]. apply integer_to_str_digits. lia.
Qed.

Lemma tests_digit c : is_digit c = true -> (b2z c =? 105) = false /\ (b2z c =? 108) = false /\ (b2z c =? 100) = false /\ (b2z c =? 101) = false.
Proof. intros Hc. apply (digits_not c (fun v => (v =? 105) = false /\ (v =? 108) = false /\ (v =? 100) = false /\ (v =? 101) = false) Hc). intros. split_and!; apply Z.eqb_neq; lia. Qed.

Lemma bdecode_enc_string n s rest :
  Z.of_nat (length s) < 2 ^ 31 -> bdecode_recursive (S n) (enc_string s ++ rest) = DOk (e_string s) rest.
Proof.
  intros Hl. unfold enc_string. rewrite <- (assoc_L app). cbn [app].
  destruct (integer_to_str_digits (Z.of_nat (length s)) ltac:(lia)) as (Hd & Hn & Hval).
  assert (read_until 58 (integer_to_str (Z.of_nat (length s)) ++ chr 58 :: s ++ rest) = Some (integer_to_str (Z.of_nat (length s)), chr 58 :: s ++ rest)) as Hr.
  { apply read_until_app; [|done]. eapply (digits_until (fun v => v <> 58)); [lia|done]. }
  assert (atoi (integer_to_str (Z.of_nat (length s))) = Z.of_nat (length s)) as Ha.
  { unfold atoi. rewrite strtoll_integer_to_str by lia. cbn. unfold to_int32. rewrite Z.mod_small by lia. lia. }
  destruct (integer_to_str (Z.of_nat (length s))) as [|c ds]; [done|]. inversion_clear Hd as [|? ? Hc _].
  destruct (tests_digit c Hc) as (T1 & T2 & T3 & _). cbn [app bdecode_recursive] in *. rewrite T1, T2, T3, Hc, Hr, Ha. cbn [tail].
  rewrite Nat2Z.id, length_app, (proj2 (Nat.ltb_ge _ _)) by lia. by rewrite take_app_length, drop_app_length.
Qed.

(** An encoding does not start with the end of a list. *)
Lemma enc_head n e : entry_ok n e -> exists c s, enc e = c :: s /\ b2z c <> 101.
Proof.
  intros Hok. destruct Hok as [n v Hv|n s Hs|n l _|n d _ _ _].
  - eexists _, _. split; [unfold enc; cbn; reflexivity|done].
  - rewrite enc_string_eq. unfold enc_string. destruct (integer_to_str_digits (Z.of_nat (length s)) ltac:(lia)) as (Hd & Hn & _).
    destruct (integer_to_str _) as [|c ds]; [done|]. inversion_clear Hd as [|? ? Hc _]. eexists _, _. split; [done|].
    apply Z.eqb_neq. by destruct (tests_digit c Hc) as (_ & _ & _ & ?).
  - rewrite enc_list_eq. by eexists _, _.
  - rewrite enc_dict_eq. by eexists _, _.
Qed.

Lemma enc_string_head s : Z.of_nat (length s) < 2 ^ 31 -> exists c t, enc_string s = c :: t /\ b2z c <> 101.
Proof. intros Hs. rewrite <- enc_string_eq. apply (enc_head 1). by constructor. Qed.

Section Roundtrip.
Context (n : nat) (value := bdecode_recursive n).

Lemma bdecode_enc_list l fuel acc rest :
  Forall (fun e => entry_ok n e /\ forall rest, value (enc e ++ rest) = DOk e rest) l -> (length (enc_list l) < fuel)%nat ->
  bdecode_list value fuel acc (enc_list l ++ chr 101 :: rest) = DOk (e_list (acc ++ l)) rest.
Proof.
  intros Hl. revert fuel acc. induction Hl as [|e l [Hok He] _ IH]; intros fuel acc Hf.
  - destruct fuel; [lia|]. cbn. by rewrite app_nil_r.
  - destruct fuel as [|fuel]; [lia|]. unfold enc_list in *. cbn [fmap list_fmap concat] in *. rewrite length_app in Hf.
    rewrite <- (assoc_L app). specialize (He (concat (enc <$> l) ++ chr 101 :: rest)). destruct (enc_head n e Hok) as (c & s & Ec & Hc).
    rewrite Ec in *. cbn [app bdecode_list length] in *. rewrite (proj2 (Z.eqb_neq _ _) Hc), He.
    destruct (concat (enc <$> l) ++ chr 101 :: rest) as [|c' s'] eqn:E; [by destruct (concat (enc <$> l))|].
    rewrite IH by lia. by rewrite <- (assoc_L app).
Qed.

Lemma bdecode_enc_dict d fuel acc rest :
  (d <> [] -> n <> 0%nat) -> str_sorted (acc ++ d) ->
  Forall (fun kv => Z.of_nat (length kv.1) < 2 ^ 31 /\ entry_ok n kv.2 /\ forall rest, value (enc kv.2 ++ rest) = DOk kv.2 rest) d ->
  (length (enc_dict d) < fuel)%nat -> bdecode_dict value fuel acc (enc_dict d ++ chr 101 :: rest) = DOk (e_dict (acc ++ d)) rest.
Proof.
  intros Hn Hs Hl. revert fuel acc Hs. induction Hl as [|[k e] d (Hk & Hok & He) _ IH]; intros fuel acc Hs Hf.
  - destruct fuel; [lia|]. cbn. by rewrite app_nil_r.
  - destruct fuel as [|fuel]; [lia|]. unfold enc_dict in *. cbn [fmap list_fmap concat fst snd] in *. rewrite !length_app in Hf.
    rewrite <- !(assoc_L app). destruct (enc_string_head k Hk) as (c & s & Ec & Hc).
    assert (value (enc_string k ++ enc e ++ concat ((fun kv => enc_string kv.1 ++ enc kv.2) <$> d) ++ chr 101 :: rest)
      = DOk (e_string k) (enc e ++ concat ((fun kv => enc_string kv.1 ++ enc kv.2) <$> d) ++ chr 101 :: rest)) as Hv.
    { unfold value. specialize (Hn ltac:(done)). destruct n; [done|]. by apply bdecode_enc_string. }
    specialize (He (concat ((fun kv => enc_string kv.1 ++ enc kv.2) <$> d) ++ chr 101 :: rest)).
    rewrite Ec in *. cbn [app bdecode_dict length] in *. rewrite (proj2 (Z.eqb_neq _ _) Hc), Hv, He.
    destruct (concat _ ++ chr 101 :: rest) as [|c' s'] eqn:E; [by destruct (concat _)|].
    rewrite dict_set_last.
    + rewrite IH; [by rewrite <- (assoc_L app)|intros _; by apply Hn|by rewrite <- (assoc_L app)|lia].
    + clear -Hs. induction acc as [|[k' v'] acc IH]; [constructor|]. inversion_clear Hs as [|? ? Hs' Hf]. constructor; [|by apply IH].
      apply Forall_app in Hf as [_ Hf]. by inversion_clear Hf.
Qed.
End Roundtrip.

Lemma bdecode_enc n e rest : entry_ok n e -> bdecode_recursive n (enc e ++ rest) = DOk e rest.
Proof.
  revert n rest. induction e as [|v|s|l IH|d IH] using entry_tree_ind; intros n rest Hok; inversion_clear Hok as [? ? Hv|? ? Hs|? ? Hl|n' ? Hn Hs Hl].
  - unfold enc. cbn [bencode_recursive write_integer fst app bdecode_recursive]. rewrite <- (assoc_L app).
    cbn [app]. change (b2z (chr 105) =? 105) with true. cbn iota. rewrite read_until_app by (done || by apply integer_to_str_token).
    by rewrite strtoll_integer_to_str.
  - by apply bdecode_enc_string.
  - rewrite enc_list_eq. cbn [app bdecode_recursive]. change (b2z (chr 108) =? 105) with false. change (b2z (chr 108) =? 108) with true. cbn iota.
    rewrite <- (assoc_L app). apply (bdecode_enc_list _ l _ []); [|rewrite !length_app; cbn; lia].
    rewrite Forall_forall in *. intros x Hx. split; [by apply Hl|]. intros. by apply IH; [|apply Hl].
  - rewrite enc_dict_eq. cbn [app bdecode_recursive]. change (b2z (chr 100) =? 105) with false. change (b2z (chr 100) =? 108) with false.
    change (b2z (chr 100) =? 100) with true. cbn iota. rewrite <- (assoc_L app). apply (bdecode_enc_dict _ d _ []); [done|done| |rewrite !length_app; cbn; lia].
    rewrite Forall_forall in *. intros x Hx. destruct (Hl x Hx). split_and!; [done|done|]. intros. by apply IH.
Qed.

(** ** The decoder ends *)

(** An outcome that was reached, with at least one byte read. *)
Definition shrinks {A} (n : nat) (r : decoded A) : Prop :=
  match r with
  | DOk _ rest => (length rest < n)%nat
  | DErr rest => (length rest <= n)%nat
  | DFault => True
  | DFuel => False
  end.

Section Shrinks.
Context (value : bytes -> decoded entry) (Hvalue : forall s, shrinks (length s) (value s)).

Lemma shrinks_step {A} (n m : nat) (r : decoded A) : shrinks m r -> (m <= n)%nat -> shrinks n r.
Proof. destruct r; cbn; lia. Qed.

Lemma bdecode_list_shrinks fuel l s : (length s < fuel)%nat -> shrinks (length s) (bdecode_list value fuel l s).
Proof.
  revert l s. induction fuel as [|fuel IH]; intros l s Hf; [lia|]. cbn. destruct s as [|c s]; [done|].
  destruct (b2z c =? 101); [cbn; lia|]. pose proof (Hvalue (c :: s)) as Hv. destruct (value (c :: s)) as [e [|c' rest]|rest| |]; try done; [cbn; lia|].
  eapply shrinks_step; [apply IH|]; cbn in *; lia.
Qed.

Lemma bdecode_dict_shrinks fuel d s : (length s < fuel)%nat -> shrinks (length s) (bdecode_dict value fuel d s).
Proof.
  revert d s. induction fuel as [|fuel IH]; intros d s Hf; [lia|]. cbn. destruct s as [|c s]; [done|].
  destruct (b2z c =? 101); [cbn; lia|]. pose proof (Hvalue (c :: s)) as Hv. destruct (value (c :: s)) as [[| |k| |] rest|rest| |]; try done.
  pose proof (Hvalue rest) as Hv'. cbn in Hv. destruct (value rest) as [e [|c' rest']|rest'| |]; cbn in *; try done; try lia.
  eapply shrinks_step; [apply IH|]; cbn in *; lia.
Qed.
End Shrinks.

Lemma read_until_length token s t rest : read_until token s = Some (t, rest) -> (length rest <= length s)%nat /\ rest <> [].
Proof.
  revert t rest. induction s as [|c s IH]; intros t rest; cbn; [done|]. case_match; [intros [= <- <-]; by split|].
  destruct (read_until token s) as [[t' r']|]; [|done]. intros [= <- <-]. destruct (IH _ _ eq_refl). split; [lia|done].
Qed.

Lemma bdecode_shrinks n s : shrinks (length s) (bdecode_recursive n s).
Proof.
  revert s. induction n as [|n IH]; intros s; [cbn; lia|]. cbn [bdecode_recursive]. destruct s as [|c s]; [cbn; lia|].
  destruct (b2z c =? 105).
  { destruct (read_until 101 s) as [[t rest]|] eqn:E; [|cbn; lia]. apply read_until_length in E as [E _]. destruct rest; destruct (strtoll t); cbn in *; lia. }
  destruct (b2z c =? 108); [eapply shrinks_step; [apply bdecode_list_shrinks; [done|lia]|cbn; lia]|].
  destruct (b2z c =? 100); [eapply shrinks_step; [apply bdecode_dict_shrinks; [done|lia]|cbn; lia]|].
  destruct (is_digit c); [|cbn; lia]. destruct (read_until 58 (c :: s)) as [[t rest]|] eqn:E; [|cbn; lia].
  apply read_until_length in E as [E Hn]. destruct rest as [|c' rest]; [done|]. cbn [tail]. case_match; [cbn; lia|]. cbn in *. rewrite length_drop. lia.
Qed.

(** ** Properties *)

(** C22: a value that can be stored, with at most 100 levels, is decoded from its
    encoding, whatever follows it, and both functions return the number of bytes
    of the encoding. *)
Theorem bdecode_bencode e rest :
  entry_ok 100 e -> bdecode ((bencode e).1 ++ rest) = Some (e, Z.of_nat (length (bencode e).1)) /\
  (bencode e).2 = Z.of_nat (length (bencode e).1).
Proof.
  intros Hok. unfold bdecode, bencode. rewrite (bdecode_enc 100 e rest Hok : bdecode_recursive 100 ((bencode_recursive e).1 ++ rest) = _).
  split; [|apply bencode_length]. do 2 f_equal. rewrite length_app. lia.
Qed.

Definition sample_entry : entry :=
  e_dict [([chr 97], e_int (-120)); ([chr 97; chr 98], e_list [e_string [chr 0; chr 101]; e_dict []; e_int 0])].

Lemma sample_entry_ok n : entry_ok (S (S (S n))) sample_entry.
Proof. repeat (constructor || split || lia); done. Qed.

Lemma bdecode_bencode_witness : bdecode ((bencode sample_entry).1 ++ [chr 101]) = Some (sample_entry, 26).
Proof. apply (bdecode_bencode sample_entry [chr 101]). apply sample_entry_ok. Defined.

(** What the decoder does not refuse.  A dictionary with a key that is not a
    string is not an error: the dictionary read so far is returned.  A buffer that
    ends behind the start of a list makes it read the byte behind the buffer.  A
    length above the range of [int] is cut to 32 bits.  The smallest 64-bit number
    is encoded as text that is not a number. *)
Theorem bdecode_accepts :
  bdecode (chr <$> [100; 105; 49; 101; 105; 50; 101; 101]) = Some (e_dict [], 4) /\
  bdecode [chr 108] = None /\
  bdecode (chr <$> [52; 50; 57; 52; 57; 54; 55; 50; 57; 55; 58; 120]) = Some (e_string [chr 120], 12) /\
  bdecode (bencode (e_int (- 2 ^ 63))).1 = Some (e_undefined, 22).
Proof. split_and!; by vm_compute. Qed.
