(* ===== verification/LazyEntry.v ===== *)
(** * Lazily decoded bencoded values

    [lazy_entry] of include/libed2k/lazy_entry.hpp and src/lazy_bdecode.cpp: a
    tree of pointers into the buffer, built by a loop with a stack of the entries
    under construction; and its conversion to [entry] (src/entry.cpp).

    Pointers into the buffer are offsets.  Growing the arrays of elements is not
    visible in the model; allocation is taken to succeed.  Reading outside the
    buffer is the outcome [LFault]. *)

From S2P Require Import Prelude Archive Md4Hash Entry.
From stdpp Require Import sorting.
Open Scope Z_scope.

#[local] Set Warnings "-register-all".

(** ** Entries *)

(** [m_begin] and [m_len] of strings and numbers are functions of their place;
    the keys of a dictionary are pointers to their first character. *)
Inductive lazy_entry :=
| l_none
| l_dict (begin len : Z) (items : list (Z * lazy_entry))
| l_list (begin len : Z) (items : list lazy_entry)
| l_string (start length : Z)
| l_int (start length : Z).

(** The digits of a length. *)
Fixpoint num_digits_loop (fuel : nat) (ret val : Z) : Z :=
  match fuel with
  | O => ret
  | S fuel => if 10 <=? val then num_digits_loop fuel (ret + 1) (val / 10) else ret
  end.
Definition num_digits (val : Z) : Z := num_digits_loop 10 1 val.

Definition m_begin (e : lazy_entry) : Z :=
  match e with
  | l_none => 0
  | l_dict begin _ _ | l_list begin _ _ => begin
  | l_string start length => start - 1 - num_digits length
  | l_int start _ => start - 1
  end.

Definition m_len (e : lazy_entry) : Z :=
  match e with
  | l_none => 0
  | l_dict _ len _ | l_list _ len _ => len
  | l_string start length => start - m_begin e + length
  | l_int _ length => length + 2
  end.

Definition data_section (e : lazy_entry) : Z * Z := (m_begin e, m_len e).

(** The entry being read becomes the last element of the entry below it. *)
Definition attach (child parent : lazy_entry) : lazy_entry :=
  match parent with
  | l_dict begin len items =>
      l_dict begin len (take (length items - 1) items ++ ((fun kv => (kv.1, child)) <$> drop (length items - 1) items))
  | l_list begin len items => l_list begin len (take (length items - 1) items ++ [child])
  | _ => parent
  end.

(** ** lazy_bdecode *)

Section Decode.
Context (buf : bytes) (depth_limit : Z).

Definition end_ : Z := Z.of_nat (length buf).
Definition char_at (p : Z) : option byte := if 0 <=? p then buf !! Z.to_nat p else None.
Definition from (p : Z) : bytes := drop (Z.to_nat p) buf.

(** [parse_int]: how far it gets, none when it meets another character, and the
    number so far. *)
Fixpoint parse_int (delimiter : Z) (s : bytes) (val : Z) : option Z * Z :=
  match s with
  | [] => (Some 0, val)
  | c :: s =>
      if b2z c =? delimiter then (Some 0, val)
      else if is_digit c then
        let '(n, v) := parse_int delimiter s (to_int64 (to_int64 (val * 10) + (b2z c - 48))) in
        ((fun n => n + 1) <$> n, v)
      else (None, val)
  end.

Fixpoint find_char (delimiter : Z) (s : bytes) : Z :=
  match s with
  | [] => 0
  | c :: s => if b2z c =? delimiter then 0 else 1 + find_char delimiter s
  end.

(** [start], the stack with its top first, [item_limit], and the root once it has
    left the stack. *)
Record lstate := LState { l_start : Z; l_stack : list lazy_entry; l_items : Z; l_root : lazy_entry }.

Inductive lresult :=
| LSuccess (root : lazy_entry)
| LError (ec : error_code) (error_pos : option Z)
| LFault.

Definition pop (start : Z) (child : lazy_entry) (stack : list lazy_entry) (items : Z) : lstate :=
  match stack with
  | [] => LState start [] items child
  | parent :: stack => LState start (attach child parent :: stack) items l_none
  end.

(** The end of an iteration: the value that starts with [t] before [start]. *)
Definition read_value (t : byte) (start : Z) (stack : list lazy_entry) (items : Z) : lstate + lresult :=
  let items := items - 1 in
  if items <=? 0 then inr (LError limit_exceeded (Some start))
  else
    let stack := tail stack in
    if b2z t =? 100 then inl (LState start (l_dict (start - 1) 0 [] :: stack) items l_none)
    else if b2z t =? 108 then inl (LState start (l_list (start - 1) 0 [] :: stack) items l_none)
    else if b2z t =? 105 then
      let int_start := start in
      let start := start + find_char 101 (from start) in
      if start =? end_ then inr (LError unexpected_eof (Some start))
      else inl (pop (start + 1) (l_int int_start (start - int_start)) stack items)
    else if negb (is_digit t) then inr (LError expected_value (Some start))
    else
      match parse_int 58 (from start) (b2z t - 48) with
      | (None, _) => inr (LError expected_colon None)
      | (Some n, len) =>
          let start := start + n in
          if end_ <? start + len + 1 then inr (LError expected_colon (Some start))
          else match char_at start with
               | None => inr LFault
               | Some c =>
                   if negb (b2z c =? 58) then inr (LError expected_colon (Some start))
                   else let start := start + 1 in
                        inl (pop (start + len) (l_string start (to_int32 len)) stack items)
               end
      end.

(** One iteration, when [start < end]. *)
Definition lazy_step (s : lstate) : lstate + lresult :=
  match l_stack s with
  | [] => inr (LSuccess (l_root s))
  | top :: stack =>
      if depth_limit <? Z.of_nat (length (l_stack s)) then inr (LError depth_exceeded (Some (l_start s)))
      else match char_at (l_start s) with
      | None => inr LFault
      | Some t =>
          let start := l_start s + 1 in
          if (end_ <=? start) && negb (b2z t =? 101) then inr (LError unexpected_eof (Some start))
          else match top with
          | l_dict begin len items =>
              if b2z t =? 101 then inl (pop start (l_dict begin (start - begin) items) stack (l_items s))
              else if negb (is_digit t) then inr (LError expected_string (Some start))
              else match parse_int 58 (from start) (b2z t - 48) with
              | (None, _) => inr (LError expected_colon None)
              | (Some n, klen) =>
                  let start := start + n in
                  if end_ <? start + klen + 3 then inr (LError expected_colon (Some start))
                  else match char_at start with
                  | None => inr LFault
                  | Some c =>
                      if negb (b2z c =? 58) then inr (LError expected_colon (Some start))
                      else
                        let start := start + 1 in
                        if start =? end_ then inr (LError unexpected_eof (Some start))
                        else
                          let name := start in
                          let start := start + klen in
                          if end_ <=? start then inr (LError unexpected_eof (Some start))
                          else match char_at start with
                          | None => inr LFault
                          | Some t =>
                              read_value t (start + 1) (l_none :: l_dict begin len (items ++ [(name, l_none)]) :: stack) (l_items s)
                          end
                  end
              end
          | l_list begin len items =>
              if b2z t =? 101 then inl (pop start (l_list begin (start - begin) items) stack (l_items s))
              else read_value t start (l_none :: l_list begin len (items ++ [l_none]) :: stack) (l_items s)
          | _ => read_value t start (l_stack s) (l_items s)
          end
      end
  end.

(** What the caller sees of the entries on the stack. *)
Fixpoint collapse (child : lazy_entry) (stack : list lazy_entry) : lazy_entry :=
  match stack with
  | [] => child
  | parent :: stack => collapse (attach child parent) stack
  end.

Definition lazy_root (s : lstate) : lazy_entry :=
  match l_stack s with
  | [] => l_root s
  | top :: stack => collapse top stack
  end.

Fixpoint lazy_run (fuel : nat) (s : lstate) : option lresult :=
  match fuel with
  | O => None
  | S fuel =>
      if l_start s <? end_ then match lazy_step s with inl s => lazy_run fuel s | inr r => Some r end
      else Some (LSuccess (lazy_root s))
  end.

Definition lazy_bdecode (item_limit : Z) : option lresult :=
  if end_ =? 0 then Some (LSuccess l_none)
  else lazy_run (2 * Z.to_nat item_limit + 2) (LState 0 [l_none] item_limit l_none).

(** ** Reading the tree *)

(** [std::string(p, n)]: characters of the buffer. *)
Definition substr (p n : Z) : option bytes :=
  if (0 <=? p) && (0 <=? n) && (p + n <=? end_) then Some (take (Z.to_nat n) (from p)) else None.

Definition string_value (start length : Z) : option bytes := substr start (to_uint 4 length).

Definition int_value (start length : Z) : option Z :=
  c ← char_at start;
  let negative := b2z c =? 45 in
  let p := if negative then start + 1 else start in
  let '(_, val) := parse_int 101 (take (Z.to_nat (start + length - p)) (from p)) 0 in
  Some (if negative then to_int64 (- val) else val).

(** [dict_at]: the key of an element. *)
Definition key_of (kv : Z * lazy_entry) : option bytes := substr kv.1 (m_begin kv.2 - kv.1).

(** [string_equal]: [str1] ends with a zero, [str2] does not. *)
Fixpoint string_equal (str1 str2 : bytes) : bool :=
  match str1, str2 with
  | [], [] => true
  | c1 :: str1, c2 :: str2 => (b2z c1 =? b2z c2) && negb (b2z c1 =? 0) && string_equal str1 str2
  | _, _ => false
  end.

Fixpoint dict_find_loop (name : bytes) (items : list (Z * lazy_entry)) : option (option lazy_entry) :=
  match items with
  | [] => Some None
  | kv :: items => k ← key_of kv; if string_equal name k then Some (Some kv.2) else dict_find_loop name items
  end.

(** The element with that name, if there is one; [None] when the keys lead out of
    the buffer. *)
Definition dict_find (name : bytes) (e : lazy_entry) : option (option lazy_entry) :=
  match e with l_dict _ _ items => dict_find_loop name items | _ => None end.

Definition dict_find_string_value (name : bytes) (e : lazy_entry) : option bytes :=
  x ← dict_find name e;
  match x with Some (l_string start length) => string_value start length | _ => Some [] end.

Definition dict_find_int_value (name : bytes) (default_val : Z) (e : lazy_entry) : option Z :=
  x ← dict_find name e;
  match x with Some (l_int start length) => int_value start length | _ => Some default_val end.

(** [entry::operator=(lazy_entry const&)]: an entry of another type is an
    exception; the elements of a list are added to those it has. *)
Definition assign_list (rec : lazy_entry -> entry -> option (outcome entry)) : list lazy_entry -> list entry -> option (outcome (list entry)) :=
  fix go items l :=
    match items with
    | [] => Some (Ok l)
    | x :: items => o ← rec x e_undefined; match o with Ok e => go items (l ++ [e]) | Throw ec => Some (Throw ec) end
    end.

Definition assign_dict (rec : lazy_entry -> entry -> option (outcome entry)) :
    list (Z * lazy_entry) -> list (bytes * entry) -> option (outcome (list (bytes * entry))) :=
  fix go items d :=
    match items with
    | [] => Some (Ok d)
    | (name, x) :: items =>
        k ← key_of (name, x);
        o ← rec x (default e_undefined (dict_get k d));
        match o with Ok e => go items (dict_set k e d) | Throw ec => Some (Throw ec) end
    end.

Fixpoint assign_lazy (l : lazy_entry) (this : entry) : option (outcome entry) :=
  match l with
  | l_none => Some (Ok e_undefined)
  | l_string start length =>
      match this with
      | e_undefined | e_string _ => s ← string_value start length; Some (Ok (e_string s))
      | _ => Some (Throw invalid_entry_type)
      end
  | l_int start length =>
      match this with
      | e_undefined | e_int _ => v ← int_value start length; Some (Ok (e_int v))
      | _ => Some (Throw invalid_entry_type)
      end
  | l_dict _ _ items =>
      match entry_dict_mut this with
      | Ok d => o ← assign_dict assign_lazy items d; Some (o ≫= fun d => Ok (e_dict d))
      | Throw ec => Some (Throw ec)
      end
  | l_list _ _ items =>
      match entry_list_mut this with
      | Ok l => o ← assign_list assign_lazy items l; Some (o ≫= fun l => Ok (e_list l))
      | Throw ec => Some (Throw ec)
      end
  end.
End Decode.

(** ** Places in the buffer *)

Section Machine.
Context (buf : bytes) (depth_limit : Z).

(** From place [p] on the buffer holds [s]. *)
Definition at_place (p : Z) (s : bytes) : Prop := exists pre, buf = pre ++ s /\ p = Z.of_nat (length pre).

Lemma at_app p s1 s2 : at_place p (s1 ++ s2) -> at_place (p + Z.of_nat (length s1)) s2.
Proof. intros (pre & E & ->). exists (pre ++ s1). rewrite length_app, <- (assoc_L app). split; [done|lia]. Qed.

Lemma at_cons p c s : at_place p (c :: s) -> char_at buf p = Some c /\ at_place (p + 1) s.
Proof.
  intros H. split; [|by apply (at_app p [c])]. destruct H as (pre & E & ->). unfold char_at. rewrite (proj2 (Z.leb_le _ _)), Nat2Z.id, E by lia.
  rewrite lookup_app_r, Nat.sub_diag by lia. done.
Qed.

Lemma at_from p s : at_place p s -> from buf p = s.
Proof. intros (pre & E & ->). unfold from. by rewrite E, Nat2Z.id, drop_app_length. Qed.

Lemma at_end p s : at_place p s -> end_ buf = p + Z.of_nat (length s) /\ 0 <= p.
Proof. intros (pre & E & ->). unfold end_. rewrite E, length_app. lia. Qed.

Lemma at_substr p s1 s2 : at_place p (s1 ++ s2) -> substr buf p (Z.of_nat (length s1)) = Some s1.
Proof.
  intros H. unfold substr. destruct (at_end _ _ H) as [He Hp]. rewrite length_app in He.
  rewrite !(proj2 (Z.leb_le _ _)) by lia. cbn. by rewrite (at_from _ _ H), Nat2Z.id, take_app_length.
Qed.

(** ** Numbers *)

Lemma digit_range c : is_digit c = true -> 48 <= b2z c <= 57.
Proof. intros Hc. by apply (digits_not c (fun v => 48 <= v <= 57)). Qed.

Lemma digits_value_le acc s : 0 <= acc -> acc <= digits_value acc s.
Proof.
  revert acc. induction s as [|c s IH]; intros acc Hacc; cbn; [lia|]. destruct (is_digit c) eqn:Hc; [|lia].
  pose proof (digit_range c Hc). specialize (IH (acc * 10 + (b2z c - 48))). lia.
Qed.

Lemma parse_int_digits delimiter s rest acc v :
  Forall (fun c => is_digit c = true) s -> (delimiter < 48 \/ 57 < delimiter) -> 0 <= acc ->
  digits_value acc s = v -> v < 2 ^ 63 -> match rest with [] => True | c :: _ => b2z c = delimiter end ->
  parse_int delimiter (s ++ rest) acc = (Some (Z.of_nat (length s)), v).
Proof.
  intros Hs Hdel. revert acc. induction Hs as [|c s Hc Hs IH]; intros acc Hacc Hv Hlt Hr.
  - cbn in Hv. subst acc. destruct rest as [|c rest]; cbn; [done|]. by rewrite (proj2 (Z.eqb_eq _ _) Hr).
  - cbn [app parse_int digits_value] in *. rewrite Hc in *. rewrite (proj2 (Z.eqb_neq _ _)) by (pose proof (digit_range c Hc); lia).
    pose proof (digit_range c Hc). assert (acc * 10 + (b2z c - 48) <= v) as Hle.
    { rewrite <- Hv. apply digits_value_le. lia. }
    rewrite (to_int64_small (acc * 10)), to_int64_small by lia. rewrite IH by (done || lia). cbn. do 2 f_equal. lia.
Qed.

(** The length of the decimal form of a length. *)
Lemma length_write_digits room fuel v l :
  0 < v < 10 ^ Z.of_nat room -> v < 10 ^ (Z.of_nat fuel + 1) ->
  Z.of_nat (length (write_digits room v l)) = num_digits_loop fuel (1 + Z.of_nat (length l)) v.
Proof.
  revert fuel v l. induction room as [|room IH]; intros fuel v l Hv Hf; [cbn in Hv; lia|]. cbn [write_digits].
  rewrite (proj2 (Z.eqb_neq _ _)), Z.quot_div_nonneg by lia. destruct (Z.lt_ge_cases v 10) as [Hs|Hs].
  - rewrite Z.div_small by lia. destruct room; cbn [write_digits Z.eqb]; (destruct fuel; cbn [num_digits_loop length]; [lia|]);
      rewrite (proj2 (Z.leb_gt _ _)) by lia; lia.
  - destruct fuel as [|fuel]; [cbn in Hf; lia|]. cbn [num_digits_loop]. rewrite (proj2 (Z.leb_le _ _)) by lia.
    rewrite Nat2Z.inj_succ, Z.pow_succ_r in Hv by lia. replace (Z.of_nat (S fuel) + 1) with (Z.succ (Z.of_nat fuel + 1)) in Hf by lia. rewrite Z.pow_succ_r in Hf by lia.
    rewrite (IH fuel).
    + cbn [length]. f_equal. lia.
    + split; [apply Z.div_str_pos; lia|apply Z.div_lt_upper_bound; lia].
    + apply Z.div_lt_upper_bound; lia.
Qed.

Lemma length_integer_to_str n : 0 <= n < 2 ^ 31 -> Z.of_nat (length (integer_to_str n)) = num_digits n.
Proof.
  intros Hn. unfold integer_to_str. rewrite (proj2 (Z.ltb_ge _ _)) by lia. destruct (Z.eqb_spec n 0) as [->|]; [done|].
  rewrite (length_write_digits 20 10 n []); [done|cbn; lia|cbn; lia].
Qed.

(** ** The tree of an encoding *)

Definition built_list (rec : entry -> Z -> lazy_entry) : list entry -> Z -> list lazy_entry :=
  fix go l p := match l with [] => [] | x :: l => rec x p :: go l (p + Z.of_nat (length (enc x))) end.

(** The place of the first character of a string. *)
Definition text_at (s : bytes) (p : Z) : Z := p + Z.of_nat (length (integer_to_str (Z.of_nat (length s)))) + 1.

Definition built_dict (rec : entry -> Z -> lazy_entry) : list (bytes * entry) -> Z -> list (Z * lazy_entry) :=
  fix go d p := match d with
                | [] => []
                | (k, x) :: d =>
                    let q := text_at k p in
                    (q, rec x (q + Z.of_nat (length k))) :: go d (q + Z.of_nat (length k) + Z.of_nat (length (enc x)))
                end.

Fixpoint built (e : entry) (p : Z) : lazy_entry :=
  match e with
  | e_undefined => l_none
  | e_int v => l_int (p + 1) (Z.of_nat (length (integer_to_str v)))
  | e_string s => l_string (text_at s p) (Z.of_nat (length s))
  | e_list l => l_list p (Z.of_nat (length (enc e))) (built_list built l (p + 1))
  | e_dict d => l_dict p (Z.of_nat (length (enc e))) (built_dict built d (p + 1))
  end.

(** The values in an entry. *)
Definition items_list (rec : entry -> Z) : list entry -> Z :=
  fix go l := match l with [] => 0 | x :: l => rec x + go l end.
Definition items_dict (rec : entry -> Z) : list (bytes * entry) -> Z :=
  fix go d := match d with [] => 0 | (_, x) :: d => rec x + go d end.
Fixpoint items (e : entry) : Z :=
  match e with
  | e_list l => 1 + items_list items l
  | e_dict d => 1 + items_dict items d
  | _ => 1
  end.

Lemma items_pos e : 1 <= items e.
Proof.
  induction e as [|v|s|l IH|d IH] using entry_tree_ind; cbn; try lia.
  - enough (0 <= items_list items l) by lia. induction IH; cbn; lia.
  - enough (0 <= items_dict items d) by lia. induction IH as [|[k x] d Hx _ IH]; cbn in *; lia.
Qed.

Lemma items_list_pos l : 0 <= items_list items l.
Proof. induction l as [|x l IH]; cbn; [lia|]. pose proof (items_pos x). lia. Qed.

Lemma items_dict_pos d : 0 <= items_dict items d.
Proof. induction d as [|[k x] l IH]; cbn; [lia|]. pose proof (items_pos x). lia. Qed.

(** ** The machine on an encoding *)

Definition cont (fuel : nat) (x : lstate + lresult) : option lresult :=
  match x with inl s => lazy_run buf depth_limit fuel s | inr r => Some r end.

(** Reading the length of a string. *)
Lemma read_length p s rest :
  at_place p (enc_string s ++ rest) -> Z.of_nat (length s) < 2 ^ 31 ->
  exists c, char_at buf p = Some c /\ is_digit c = true /\
    parse_int 58 (from buf (p + 1)) (b2z c - 48) = (Some (text_at s p - 2 - p), Z.of_nat (length s)) /\
    char_at buf (text_at s p - 1) = Some (chr 58) /\ at_place (text_at s p) (s ++ rest) /\ p + 2 <= text_at s p.
Proof.
  intros Hp Hs. unfold enc_string, text_at in *. rewrite <- (assoc_L app) in Hp. cbn [app] in Hp.
  destruct (integer_to_str_digits (Z.of_nat (length s)) ltac:(lia)) as (Hd & Hn & Hval). specialize (Hval 0 []).
  pose proof (at_app _ _ _ Hp) as Hc. apply at_cons in Hc as [Hc Ht].
  destruct (integer_to_str (Z.of_nat (length s))) as [|c ds]; [done|]. inversion_clear Hd as [|? ? Hdc Hds]. exists c.
  pose proof (at_cons _ _ _ Hp) as [Hp0 Hp1]. cbn [length] in *. split_and!; try done; try lia.
  - rewrite (at_from _ _ Hp1). rewrite (parse_int_digits 58 ds _ _ (Z.of_nat (length s))); [do 2 f_equal; lia|done|lia| | |lia|done].
    + pose proof (digit_range c Hdc). lia.
    + rewrite app_nil_r in Hval. cbn in Hval. rewrite Hdc in Hval. rewrite Z.add_0_l in Hval. exact Hval.
  - rewrite <- Hc. f_equal. lia.
Qed.

(** From the dispatch on its first character the machine builds the entry and
    leaves it to the stack below. *)
Definition builds (n : nat) (e : entry) : Prop :=
  forall p rest stk i, at_place p (enc e ++ rest) -> items e < i -> Z.of_nat (length stk + n) <= depth_limit ->
  exists t k, char_at buf p = Some t /\ b2z t <> 101 /\ forall fuel,
    cont (k + fuel) (read_value buf t (p + 1) (l_none :: stk) i)
    = lazy_run buf depth_limit fuel (pop (p + Z.of_nat (length (enc e))) (built e p) stk (i - items e)).

Lemma builds_int n v : - 2 ^ 63 < v < 2 ^ 63 -> builds n (e_int v).
Proof.
  intros Hv p rest stk i Hp Hi _. cbn [items] in Hi. unfold enc in *. cbn [bencode_recursive write_integer fst app] in *.
  rewrite <- (assoc_L app) in Hp. cbn [app] in Hp. apply at_cons in Hp as [Hc Hp]. exists (chr 105), 0%nat. split_and!; [done|done|]. intros fuel.
  unfold read_value. rewrite (proj2 (Z.leb_gt _ _)) by lia. change (b2z (chr 105) =? 100) with false. change (b2z (chr 105) =? 108) with false.
  change (b2z (chr 105) =? 105) with true. cbn iota. rewrite (at_from _ _ Hp).
  assert (find_char 101 (integer_to_str v ++ chr 101 :: rest) = Z.of_nat (length (integer_to_str v))) as ->.
  { generalize (integer_to_str_token v Hv). generalize (integer_to_str v) as s. intros s Hs. induction Hs as [|c s Hc' _ IH]; [done|].
    cbn [app find_char length]. rewrite (proj2 (Z.eqb_neq _ _) Hc'), IH. lia. }
  destruct (at_end _ _ Hp) as [He _]. rewrite length_app in He. cbn [length] in He. rewrite (proj2 (Z.eqb_neq _ _)) by lia. cbn [cont tail built items length].
  rewrite length_app. cbn [length]. cbn [Nat.add]. do 2 f_equal; [lia|f_equal; lia].
Qed.

Lemma builds_string n s : Z.of_nat (length s) < 2 ^ 31 -> builds n (e_string s).
Proof.
  intros Hs p rest stk i Hp Hi _. cbn [items] in Hi. rewrite enc_string_eq in *. destruct (read_length p s rest Hp Hs) as (c & Hc & Hd & Hl & Hcol & Ht & Hle).
  exists c, 0%nat. pose proof (digit_range c Hd). destruct (tests_digit c Hd) as (T1 & T2 & T3 & _). split_and!; [done|lia|]. intros fuel.
  unfold read_value. rewrite (proj2 (Z.leb_gt _ _)) by lia. rewrite T1, T2, T3, Hd. cbn [negb]. rewrite Hl.
  destruct (at_end _ _ Ht) as [He _]. rewrite length_app in He. rewrite (proj2 (Z.ltb_ge _ _)) by lia.
  replace (p + 1 + (text_at s p - 2 - p)) with (text_at s p - 1) by lia. rewrite Hcol. change (negb (b2z (chr 58) =? 58)) with false. cbn iota.
  cbn [cont tail built items]. rewrite Z.sub_add.
  assert (to_int32 (Z.of_nat (length s)) = Z.of_nat (length s)) as -> by (unfold to_int32; rewrite Z.mod_small by lia; lia).
  unfold enc_string. rewrite length_app. cbn [length]. do 2 f_equal. unfold text_at. lia.
Qed.

Lemma attach_list child b m done : attach child (l_list b m (done ++ [l_none])) = l_list b m (done ++ [child]).
Proof. cbn. rewrite length_app, Nat.add_sub, take_app_length. done. Qed.

Lemma attach_dict child b m done name : attach child (l_dict b m (done ++ [(name, l_none)])) = l_dict b m (done ++ [(name, child)]).
Proof. cbn. rewrite length_app, Nat.add_sub, take_app_length, drop_app_length. done. Qed.

(** The test at the head of an iteration that is inside an encoding. *)
Lemma step_head p s (t : byte) : at_place p (t :: s) -> s <> [] \/ b2z t = 101 -> (p <? end_ buf) = true /\ (end_ buf <=? p + 1) && negb (b2z t =? 101) = false.
Proof.
  intros Hp Hs. destruct (at_end _ _ Hp) as [He _]. cbn [length] in He. split; [apply Z.ltb_lt; lia|]. destruct Hs as [Hs|Hs].
  - rewrite (proj2 (Z.leb_gt _ _)); [done|]. destruct s; [done|]. cbn in He. lia.
  - rewrite (proj2 (Z.eqb_eq _ _) Hs). apply andb_false_r.
Qed.

Lemma builds_list_loop n b stk l :
  Forall (fun e => entry_ok n e /\ builds n e) l -> Z.of_nat (length stk + S n) <= depth_limit ->
  forall done q i r rest, at_place q (enc_list l ++ chr 101 :: rest) -> items_list items l < i -> exists k, forall fuel,
    lazy_run buf depth_limit (k + fuel) (LState q (l_list b 0 done :: stk) i r)
    = lazy_run buf depth_limit fuel (pop (q + Z.of_nat (length (enc_list l)) + 1)
        (l_list b (q + Z.of_nat (length (enc_list l)) + 1 - b) (done ++ built_list built l q)) stk (i - items_list items l)).
Proof.
  intros Hl Hdep. induction Hl as [|e l [Hok He] _ IH]; intros done q i r rest Hq Hi.
  - exists 1%nat. intros fuel. cbn [Nat.add lazy_run l_start]. destruct (step_head _ _ _ Hq ltac:(by right)) as [-> H2]. apply at_cons in Hq as [Hc _].
    unfold lazy_step. cbn [l_stack l_start]. rewrite (proj2 (Z.ltb_ge _ _)), Hc, H2 by (cbn [length]; lia).
    change (b2z (chr 101) =? 101) with true. cbn iota. cbn [l_items items_list built_list]. rewrite app_nil_r. cbn. do 2 f_equal; f_equal; lia.
  - unfold enc_list in *. cbn [fmap list_fmap concat] in *. rewrite <- (assoc_L app) in Hq. cbn [items_list] in Hi. pose proof (items_pos e). pose proof (items_list_pos l).
    destruct (He q _ (l_list b 0 (done ++ [l_none]) :: stk) i Hq) as (t & k1 & Hc & Ht & Hk1); [lia|cbn [length]; lia|].
    specialize (IH (done ++ [built e q]) (q + Z.of_nat (length (enc e))) (i - items e) l_none rest (at_app _ _ _ Hq) ltac:(lia)). destruct IH as (k2 & Hk2).
    exists (S (k1 + k2))%nat. intros fuel. cbn [Nat.add lazy_run l_start].
    destruct (enc_head n e Hok) as (c & s & Ee & _). pose proof Hq as Hq'. rewrite Ee in Hq'. cbn [app] in Hq'. pose proof (at_cons _ _ _ Hq') as [Hc' _].
    rewrite Hc in Hc'. injection Hc' as <-. destruct (step_head _ _ _ Hq' ltac:(left; by destruct s, (concat (enc <$> l)))) as [-> H2].
    unfold lazy_step. cbn [l_stack l_start]. rewrite (proj2 (Z.ltb_ge _ _)), Hc, H2 by (cbn [length]; lia). rewrite (proj2 (Z.eqb_neq _ _) Ht). cbn [l_items].
    specialize (Hk1 (k2 + fuel)%nat). rewrite (assoc_L Nat.add) in Hk1. unfold cont in Hk1. rewrite Hk1. cbn [pop]. rewrite attach_list, Hk2.
    cbn [items_list built_list]. rewrite <- (assoc_L app), length_app, Nat2Z.inj_add. cbn [app]. do 2 f_equal; [lia|f_equal; lia|lia].
Qed.

Lemma enc_size n e : entry_ok n e -> (2 <= length (enc e))%nat.
Proof.
  intros Hok. destruct Hok as [n v Hv|n s Hs|n l _|n d _ _ _].
  - unfold enc. cbn. rewrite length_app. cbn. lia.
  - rewrite enc_string_eq. unfold enc_string. rewrite length_app. cbn. destruct (integer_to_str_digits (Z.of_nat (length s)) ltac:(lia)) as (_ & Hn & _).
    destruct (integer_to_str _); [done|]. cbn. lia.
  - rewrite enc_list_eq. cbn. rewrite length_app. cbn. lia.
  - rewrite enc_dict_eq. cbn. rewrite length_app. cbn. lia.
Qed.

(** An iteration that reads a key goes on to the value behind it. *)
Lemma step_key b stk done q i r k e rest n :
  entry_ok n e -> at_place q (enc_string k ++ enc e ++ rest) -> rest <> [] ->
  Z.of_nat (length k) < 2 ^ 31 -> Z.of_nat (S (length stk)) <= depth_limit ->
  forall t, char_at buf (text_at k q + Z.of_nat (length k)) = Some t ->
  lazy_step buf depth_limit (LState q (l_dict b 0 done :: stk) i r)
  = read_value buf t (text_at k q + Z.of_nat (length k) + 1) (l_none :: l_dict b 0 (done ++ [(text_at k q, l_none)]) :: stk) i.
Proof.
  intros Hok Hq Hs Hk Hdep t Ht. destruct (read_length q k _ Hq Hk) as (c & Hc & Hd & Hl & Hcol & Htext & Hle). pose proof (enc_size n e Hok) as Hsz.
  destruct (at_end _ _ Htext) as [He _]. rewrite !length_app in He. assert (1 <= length rest)%nat by (destruct rest; [done|cbn; lia]).
  destruct (tests_digit c Hd) as (_ & _ & _ & T4). unfold lazy_step. cbn [l_stack l_start l_items length].
  rewrite (proj2 (Z.ltb_ge depth_limit _)), Hc, T4, (proj2 (Z.leb_gt (end_ buf) (q + 1))) by lia. cbn [andb]. rewrite Hd. cbn [negb]. rewrite Hl.
  replace (q + 1 + (text_at k q - 2 - q)) with (text_at k q - 1) by lia. rewrite (proj2 (Z.ltb_ge _ _)), Hcol by lia.
  change (negb (b2z (chr 58) =? 58)) with false. cbn iota. rewrite Z.sub_add, (proj2 (Z.eqb_neq _ _)), (proj2 (Z.leb_gt _ _)), Ht by lia. done.
Qed.

Lemma builds_dict_loop n b stk d :
  Forall (fun kv => Z.of_nat (length kv.1) < 2 ^ 31 /\ entry_ok n kv.2 /\ builds n kv.2) d -> Z.of_nat (length stk + S n) <= depth_limit ->
  forall done q i r rest, at_place q (enc_dict d ++ chr 101 :: rest) -> items_dict items d < i -> exists k, forall fuel,
    lazy_run buf depth_limit (k + fuel) (LState q (l_dict b 0 done :: stk) i r)
    = lazy_run buf depth_limit fuel (pop (q + Z.of_nat (length (enc_dict d)) + 1)
        (l_dict b (q + Z.of_nat (length (enc_dict d)) + 1 - b) (done ++ built_dict built d q)) stk (i - items_dict items d)).
Proof.
  intros Hl Hdep. induction Hl as [|[k e] d (Hk & Hok & He) _ IH]; intros done q i r rest Hq Hi.
  - exists 1%nat. intros fuel. cbn [Nat.add lazy_run l_start]. destruct (step_head _ _ _ Hq ltac:(by right)) as [-> H2]. apply at_cons in Hq as [Hc _].
    unfold lazy_step. cbn [l_stack l_start]. rewrite (proj2 (Z.ltb_ge _ _)), Hc, H2 by (cbn [length]; lia).
    change (b2z (chr 101) =? 101) with true. cbn iota. cbn [l_items items_dict built_dict]. rewrite app_nil_r. cbn. do 2 f_equal; f_equal; lia.
  - unfold enc_dict in *. cbn [fmap list_fmap concat fst snd] in *. rewrite <- !(assoc_L app) in Hq. cbn [items_dict] in Hi. pose proof (items_pos e). pose proof (items_dict_pos d).
    set (s := concat ((fun kv => enc_string kv.1 ++ enc kv.2) <$> d) ++ chr 101 :: rest) in *. assert (s <> []) as Hs by (by destruct (concat ((fun kv => enc_string kv.1 ++ enc kv.2) <$> d))).
    destruct (read_length q k _ Hq Hk) as (c & Hc & Hd & _ & _ & Htext & Hle). pose proof (at_app _ _ _ Htext) as Hv.
    destruct (He (text_at k q + Z.of_nat (length k)) s (l_dict b 0 (done ++ [(text_at k q, l_none)]) :: stk) i Hv) as (t & k1 & Ht & _ & Hk1); [lia|cbn [length]; lia|].
    destruct (IH (done ++ [(text_at k q, built e (text_at k q + Z.of_nat (length k)))]) (text_at k q + Z.of_nat (length k) + Z.of_nat (length (enc e))) (i - items e) l_none rest (at_app _ _ _ Hv) ltac:(lia)) as (k2 & Hk2).
    exists (S (k1 + k2))%nat. intros fuel. cbn [Nat.add lazy_run l_start].
    destruct (at_end _ _ Hq) as [Hend _]. rewrite (proj2 (Z.ltb_lt _ _)) by (unfold enc_string in Hend; rewrite !length_app in Hend; cbn [length] in Hend; lia).
    rewrite (step_key b stk done q i r k e s n Hok Hq Hs Hk) with (t := t) by (done || lia).
    specialize (Hk1 (k2 + fuel)%nat). rewrite (assoc_L Nat.add) in Hk1. unfold cont in Hk1. rewrite Hk1. cbn [pop]. rewrite attach_dict, Hk2.
    cbn [items_dict built_dict]. rewrite <- (assoc_L app), !length_app. unfold enc_string, text_at. rewrite length_app. cbn [app length].
    do 2 f_equal; [lia|f_equal; lia|lia].
Qed.

Lemma builds_ok n e : entry_ok n e -> builds n e.
Proof.
  revert n. induction e as [|v|s|l IH|d IH] using entry_tree_ind; intros n Hok; inversion_clear Hok as [? ? Hv|? ? Hs|n' ? Hl|n' ? Hn Hs Hl].
  - by apply builds_int.
  - by apply builds_string.
  - intros p rest stk i Hp Hi Hdep. rewrite enc_list_eq in Hp. cbn [app items] in *. rewrite <- (assoc_L app) in Hp. cbn [app] in Hp. apply at_cons in Hp as [Hc Hp].
    pose proof (items_list_pos l). destruct (builds_list_loop n' p stk l) with (done := @nil lazy_entry) (q := p + 1) (i := i - 1) (r := l_none) (rest := rest) as (k & Hk); [|lia|done|lia|].
    { rewrite Forall_forall in *. auto. }
    exists (chr 108), k. split_and!; [done|done|]. intros fuel. unfold read_value. rewrite (proj2 (Z.leb_gt _ _)) by lia.
    change (b2z (chr 108) =? 100) with false. change (b2z (chr 108) =? 108) with true. cbn iota. cbn [cont tail]. rewrite Z.add_simpl_r, Hk.
    cbn [built items]. rewrite enc_list_eq. cbn [app length]. rewrite length_app. cbn [length]. do 2 f_equal; [lia|f_equal; lia|lia].
  - intros p rest stk i Hp Hi Hdep. rewrite enc_dict_eq in Hp. cbn [app items] in *. rewrite <- (assoc_L app) in Hp. cbn [app] in Hp. apply at_cons in Hp as [Hc Hp].
    pose proof (items_dict_pos d). destruct (builds_dict_loop n' p stk d) with (done := @nil (Z * lazy_entry)) (q := p + 1) (i := i - 1) (r := l_none) (rest := rest) as (k & Hk); [|lia|done|lia|].
    { rewrite Forall_forall in *. intros x Hx. destruct (Hl x Hx). auto. }
    exists (chr 100), k. split_and!; [done|done|]. intros fuel. unfold read_value. rewrite (proj2 (Z.leb_gt _ _)) by lia.
    change (b2z (chr 100) =? 100) with true. cbn iota. cbn [cont tail]. rewrite Z.add_simpl_r, Hk.
    cbn [built items]. rewrite enc_dict_eq. cbn [app length]. rewrite length_app. cbn [length]. do 2 f_equal; [lia|f_equal; lia|lia].
Qed.

(** ** The machine stops *)

Definition measure (s : lstate) : nat := (2 * Z.to_nat (l_items s) + length (l_stack s))%nat.

Lemma measure_pop start child stk i : measure (pop start child stk i) = (2 * Z.to_nat i + length stk)%nat.
Proof. by destruct stk. Qed.

Lemma read_value_measure t start top stk i s :
  read_value buf t start (top :: stk) i = inl s -> (measure s < 2 * Z.to_nat i + length stk)%nat.
Proof.
  unfold read_value. destruct (Z.leb_spec (i - 1) 0); [done|]. cbn [tail]. repeat case_match; try done; intros [= <-]; rewrite ?measure_pop; unfold measure; cbn [l_items l_stack length]; lia.
Qed.

Lemma lazy_step_measure s s' : lazy_step buf depth_limit s = inl s' -> (measure s' < measure s)%nat.
Proof.
  unfold lazy_step, measure at 2. destruct (l_stack s) as [|top stk]; [done|]. case_match; [done|]. destruct (char_at buf (l_start s)) as [t|]; [|done].
  case_match; [done|]. destruct top as [|b m d|b m l|st n|st n]; cbn [length].
  - intros E%read_value_measure. lia.
  - case_match; [intros [= <-]; rewrite measure_pop; lia|]. repeat case_match; try done. intros E%read_value_measure. cbn [length] in E. lia.
  - case_match; [intros [= <-]; rewrite measure_pop; lia|]. intros E%read_value_measure. cbn [length] in E. lia.
  - intros E%read_value_measure. lia.
  - intros E%read_value_measure. lia.
Qed.

Lemma lazy_run_stops fuel s : (measure s < fuel)%nat -> exists r, forall more, lazy_run buf depth_limit (fuel + more) s = Some r.
Proof.
  revert s. induction fuel as [|fuel IH]; intros s Hf; [lia|]. cbn [Nat.add lazy_run]. case_match; [|eauto].
  destruct (lazy_step buf depth_limit s) as [s'|r] eqn:E; [|eauto]. apply lazy_step_measure in E. apply IH. lia.
Qed.

Lemma lazy_run_fuel fuel k s r : (measure s < fuel)%nat -> lazy_run buf depth_limit k s = Some r -> lazy_run buf depth_limit fuel s = Some r.
Proof.
  intros Hf Hk. destruct (lazy_run_stops fuel s Hf) as (r' & Hr). pose proof (Hr 0%nat) as H0. rewrite Nat.add_0_r in H0. rewrite H0.
  assert (forall a b s r, lazy_run buf depth_limit a s = Some r -> lazy_run buf depth_limit (a + b) s = Some r) as Hmore.
  { clear. induction a as [|a IH]; intros b s r; [done|]. cbn. case_match; [|done]. destruct (lazy_step buf depth_limit s); [apply IH|done]. }
  specialize (Hmore k fuel s r Hk). rewrite Nat.add_comm, Hr in Hmore. done.
Qed.

Lemma lazy_bdecode_enc n e rest item_limit :
  buf = enc e ++ rest -> entry_ok n e -> Z.of_nat n <= depth_limit -> items e < item_limit ->
  lazy_bdecode buf depth_limit item_limit = Some (LSuccess (built e 0)).
Proof.
  intros Hbuf Hok Hdep Hi. assert (at_place 0 (enc e ++ rest)) as Hp by (exists []; by rewrite Hbuf).
  destruct (builds_ok n e Hok 0 rest [] item_limit Hp Hi Hdep) as (t & k & Hc & Ht & Hk). pose proof (enc_size n e Hok) as Hsz.
  destruct (at_end _ _ Hp) as [He _]. rewrite length_app in He. unfold lazy_bdecode. rewrite (proj2 (Z.eqb_neq _ _)) by lia.
  apply (lazy_run_fuel _ (S (k + 1))); [cbn; lia|]. cbn [lazy_run l_start]. rewrite (proj2 (Z.ltb_lt _ _)) by lia.
  assert (1 <= Z.of_nat n) by (destruct Hok; lia).
  unfold lazy_step. cbn [l_stack l_start l_items length]. rewrite (proj2 (Z.ltb_ge _ _)), Hc, (proj2 (Z.leb_gt _ _)) by lia. cbn [andb].
  specialize (Hk 1%nat). unfold cont in Hk. cbn [Z.add] in *. rewrite Hk. cbn [pop lazy_run l_start l_root]. by destruct (_ <? _).
Qed.

(** ** The tree and the entry *)

Lemma built_section n e p : entry_ok n e -> data_section (built e p) = (p, Z.of_nat (length (enc e))).
Proof.
  intros Hok. unfold data_section. destruct Hok as [n v Hv|n s Hs|n l _|n d _ _ _]; cbn [built m_begin m_len].
  - unfold enc. cbn. rewrite length_app. cbn. f_equal; lia.
  - rewrite enc_string_eq. unfold enc_string, text_at. rewrite <- length_integer_to_str, length_app by lia. cbn [length]. f_equal; lia.
  - done.
  - done.
Qed.

Lemma int_value_at p v rest :
  - 2 ^ 63 < v < 2 ^ 63 -> at_place p (integer_to_str v ++ rest) -> int_value buf p (Z.of_nat (length (integer_to_str v))) = Some v.
Proof.
  intros Hv Hp. assert (forall s w q t, at_place q (s ++ t) -> Forall (fun c => is_digit c = true) s -> digits_value 0 s = w -> w < 2 ^ 63 ->
    parse_int 101 (take (length s) (from buf q)) 0 = (Some (Z.of_nat (length s)), w)) as Hdig.
  { intros s w q t Hq Hs Hw Hlt. rewrite (at_from _ _ Hq), take_app_length, <- (app_nil_r s) at 1. by apply parse_int_digits; [|lia|..]. }
  unfold int_value. destruct (Z.lt_ge_cases v 0) as [Hn|Hn].
  - unfold integer_to_str in *. rewrite (proj2 (Z.ltb_lt v 0)), (to_int64_small (- v)), (proj2 (Z.eqb_neq (- v) 0)) in * by lia.
    destruct (write_digits_spec 19 (- v) []) as (s & Es & Hs & _ & Hval); [cbn; lia|]. rewrite Es, app_nil_r in *. specialize (Hval 0 []).
    rewrite app_nil_r in Hval. cbn [digits_value] in Hval. cbn [app] in Hp. apply at_cons in Hp as [Hc Hp]. rewrite Hc. cbn [mbind option_bind].
    change (b2z (chr 45) =? 45) with true. cbn iota. replace (Z.to_nat (p + Z.of_nat (length (chr 45 :: s)) - (p + 1))) with (length s) by (cbn [length]; lia).
    rewrite (Hdig s (- v) _ rest) by (done || lia). rewrite to_int64_small by lia. f_equal. lia.
  - destruct (integer_to_str_digits v ltac:(lia)) as (Hs & Hne & Hval). specialize (Hval 0 []). rewrite app_nil_r in Hval. cbn [digits_value] in Hval.
    destruct (integer_to_str v) as [|c s] eqn:E; [done|]. rewrite <- E in *. pose proof Hp as Hp'. rewrite E in Hp'. cbn [app] in Hp'. apply at_cons in Hp' as [Hc _].
    rewrite Hc. cbn [mbind option_bind]. assert (is_digit c = true) as Hd by (rewrite E in Hs; by inversion_clear Hs). pose proof (digit_range c Hd).
    rewrite (proj2 (Z.eqb_neq _ _)) by lia. replace (Z.to_nat (p + Z.of_nat (length (integer_to_str v)) - p)) with (length (integer_to_str v)) by lia.
    by rewrite (Hdig _ v _ rest) by (done || lia).
Qed.

Lemma string_value_at p s rest : Z.of_nat (length s) < 2 ^ 31 -> at_place p (s ++ rest) -> string_value buf p (Z.of_nat (length s)) = Some s.
Proof. intros Hs Hp. unfold string_value. rewrite to_uint_small by (unfold is_uint; cbn; lia). by eapply at_substr. Qed.

Lemma dict_get_above k d : Forall (fun kv => str_lt kv.1 k = true) d -> dict_get k d = None.
Proof. induction 1 as [|[k' v'] d Hk _ IH]; [done|]. cbn [dict_get fst] in *. by rewrite str_lt_asym, Hk. Qed.

Lemma sorted_above done k e d : str_sorted (done ++ (k, e) :: d) -> Forall (fun kv => str_lt kv.1 k = true) done.
Proof.
  induction done as [|[k' v'] done IH]; [constructor|]. intros Hs. inversion_clear Hs as [|? ? Hs' Hf]. constructor; [|by apply IH].
  apply Forall_app in Hf as [_ Hf]. by inversion_clear Hf.
Qed.

Lemma assign_built n e p rest : entry_ok n e -> at_place p (enc e ++ rest) -> assign_lazy buf (built e p) e_undefined = Some (Ok e).
Proof.
  revert n p rest. induction e as [|v|s|l IH|d IH] using entry_tree_ind; intros n p rest Hok Hp; inversion_clear Hok as [? ? Hv|? ? Hs|n' ? Hl|n' ? Hn Hs Hl].
  - unfold enc in Hp. cbn [bencode_recursive write_integer fst app] in Hp. rewrite <- (assoc_L app) in Hp. apply at_cons in Hp as [_ Hp].
    cbn [built assign_lazy]. by rewrite (int_value_at _ _ _ Hv Hp).
  - rewrite enc_string_eq in Hp. destruct (read_length p s rest Hp Hs) as (_ & _ & _ & _ & _ & Ht & _). cbn [built assign_lazy]. by rewrite (string_value_at _ _ _ Hs Ht).
  - rewrite enc_list_eq in Hp. cbn [app] in Hp. rewrite <- (assoc_L app) in Hp. apply at_cons in Hp as [_ Hp]. cbn [built assign_lazy entry_list_mut].
    enough (forall q done, at_place q (enc_list l ++ chr 101 :: rest) -> assign_list (assign_lazy buf) (built_list built l q) done = Some (Ok (done ++ l))) as E.
    { by rewrite (E _ [] Hp). }
    clear Hp. induction IH as [|x l Hx _ IHl]; intros q done Hq; cbn; [by rewrite app_nil_r|]. inversion_clear Hl as [|? ? Hx' Hl'].
    unfold enc_list in Hq. cbn [fmap list_fmap concat] in Hq. rewrite <- (assoc_L app) in Hq. rewrite (Hx _ _ _ Hx' Hq). cbn.
    rewrite IHl by (done || by apply at_app in Hq). by rewrite <- (assoc_L app).
  - rewrite enc_dict_eq in Hp. cbn [app] in Hp. rewrite <- (assoc_L app) in Hp. apply at_cons in Hp as [_ Hp]. cbn [built assign_lazy entry_dict_mut].
    enough (forall q done, str_sorted (done ++ d) -> at_place q (enc_dict d ++ chr 101 :: rest) -> assign_dict buf (assign_lazy buf) (built_dict built d q) done = Some (Ok (done ++ d))) as E.
    { by rewrite (E _ [] Hs Hp). }
    clear Hp Hs Hn. induction IH as [|[k x] d Hx _ IHd]; intros q done Hs Hq; [cbn; by rewrite app_nil_r|]. inversion_clear Hl as [|? ? [Hk Hx'] Hl'].
    unfold enc_dict in Hq. cbn [fmap list_fmap concat fst snd] in *. rewrite <- !(assoc_L app) in Hq.
    destruct (read_length q k _ Hq Hk) as (_ & _ & _ & _ & _ & Ht & _). pose proof (at_app _ _ _ Ht) as Hv. pose proof (sorted_above _ _ _ _ Hs) as Hab.
    cbn [built_dict assign_dict]. unfold key_of. cbn [fst snd]. pose proof (built_section n' x (text_at k q + Z.of_nat (length k)) Hx') as [Eb _]%pair_equal_spec.
    cbn in Eb. rewrite Eb, Z.add_simpl_l, (at_substr _ _ _ Ht). cbn [mbind option_bind]. rewrite dict_get_above by done. cbn [default].
    rewrite (Hx _ _ _ Hx' Hv). cbn [mbind option_bind]. fold (assign_dict buf (assign_lazy buf)). rewrite dict_set_last by done.
    rewrite IHd; [by rewrite <- (assoc_L app)|done|by rewrite <- (assoc_L app)|]. by apply at_app in Hv.
Qed.
End Machine.

(** ** Properties *)

(** C23: the lazy decoder reads what the encoder writes: within its limits of depth
    and items it accepts the encoding of a value, whatever follows it, the root
    covers exactly the encoding, and converting the tree of pointers gives the
    value back. *)
Theorem lazy_bdecode_bencode e rest n depth_limit item_limit :
  entry_ok n e -> Z.of_nat n <= depth_limit -> items e < item_limit ->
  let buf := (bencode e).1 ++ rest in
  exists root, lazy_bdecode buf depth_limit item_limit = Some (LSuccess root) /\
    assign_lazy buf root e_undefined = Some (Ok e) /\ data_section root = (0, Z.of_nat (length (bencode e).1)).
Proof.
  intros Hok Hn Hi buf. exists (built e 0). split_and!.
  - by apply (lazy_bdecode_enc buf depth_limit n e rest).
  - eapply (assign_built buf n e 0 rest Hok). by exists [].
  - by apply (built_section n).
Qed.

Lemma lazy_bdecode_bencode_witness :
  let buf := (bencode sample_entry).1 ++ [chr 0] in
  exists root, lazy_bdecode buf 3 10 = Some (LSuccess root) /\
    assign_lazy buf root e_undefined = Some (Ok sample_entry) /\ data_section root = (0, 26).
Proof. apply (lazy_bdecode_bencode sample_entry [chr 0] 3 3 10); [apply sample_entry_ok|lia|vm_compute; done]. Defined.

(** C24: the loop of the lazy decoder ends on every buffer: every iteration removes
    an entry from the stack or takes one from the item limit, and puts at most one
    on the stack; more iterations than twice the limit and two change nothing. *)
Theorem lazy_bdecode_ends buf depth_limit item_limit :
  exists r, lazy_bdecode buf depth_limit item_limit = Some r /\
    (buf <> [] -> forall more, lazy_run buf depth_limit (2 * Z.to_nat item_limit + 2 + more) (LState 0 [l_none] item_limit l_none) = Some r).
Proof.
  unfold lazy_bdecode, end_. destruct buf as [|c s]; [by eexists|]. rewrite (proj2 (Z.eqb_neq _ _)) by (cbn; lia).
  destruct (lazy_run_stops (c :: s) depth_limit (2 * Z.to_nat item_limit + 2) (LState 0 [l_none] item_limit l_none)) as (r & Hr); [cbn; lia|].
  exists r. split; [|done]. specialize (Hr 0%nat). by rewrite Nat.add_0_r in Hr.
Qed.

Definition text (s : list Z) : bytes := chr <$> s.

(** [l18446744073709551595:e]: the length is [2^64 - 21], which [parse_int] wraps to
    -21, the distance back to the first digit. *)
Definition negative_length : bytes :=
  text [108; 49; 56; 52; 52; 54; 55; 52; 52; 48; 55; 51; 55; 48; 57; 53; 53; 49; 53; 57; 53; 58; 101].

(** What the lazy decoder does with malformed input.  A list or a dictionary
    whose end is missing is accepted.  A length that wraps to a negative number is
    accepted and moves the read pointer backwards, so the same string is read again
    and again until the item limit stops it.  A length with a leading zero behind a
    key makes the key longer, and the element is not found under its name.  And
    when the length of a key has another character in it the error position is
    computed from a null pointer. *)
Theorem lazy_bdecode_accepts :
  lazy_bdecode (text [108; 105; 49; 101]) 1000 1000 = Some (LSuccess (l_list 0 0 [l_int 2 1])) /\
  lazy_step negative_length 1000 (LState 1 [l_list 0 0 []] 1000 l_none) = inl (LState 1 [l_list 0 0 [l_string 22 (-21)]] 999 l_none) /\
  lazy_bdecode negative_length 1000 100 = Some (LError limit_exceeded (Some 2)) /\
  (let buf := text [100; 49; 58; 97; 48; 49; 58; 120; 101] in
   exists root, lazy_bdecode buf 1000 1000 = Some (LSuccess root) /\ dict_find buf [chr 97] root = Some None /\
     assign_lazy buf root e_undefined = Some (Ok (e_dict [([chr 97; chr 48], e_string [chr 120])]))) /\
  lazy_bdecode (text [100; 49; 120; 58; 97; 101]) 1000 1000 = Some (LError expected_colon None).
Proof. split_and!; [by vm_compute..| |by vm_compute]. exists (l_dict 0 9 [(3, l_string 7 1)]). split_and!; by vm_compute. Qed.
