(* ===== verification/Policy.v ===== *)
(** * The peer list of a transfer

    [policy] of include/libed2k/policy.hpp and src/policy.cpp with [peer] of
    include/libed2k/peer.hpp: the peers a transfer knows, ordered by address,
    which of them it may connect to, and which are dropped when the list grows;
    and the part of src/transfer.cpp that connects to a peer.

    What the policy asks of its surroundings is the record [env]: the settings,
    the IP filter (IpFilter.v), whether the transfer is paused or finished, and
    whether the session has a connection to an endpoint; and two flags of its
    connections.  The picker of the
    transfer (PiecePicker.v) is part of the state, since erasing a peer clears it
    there.  A peer is known to the picker and to its connection by its address in
    memory, [ptr]. *)

From S2P Require Import Prelude Archive Md4Hash KadId IpFilter PiecePicker.
From stdpp Require Import sorting.
Open Scope Z_scope.

(** ** Peers *)

Record tcp_endpoint := Endpoint { ep_address : bytes; ep_port : Z }.

#[global] Instance tcp_endpoint_eq_dec : EqDecision tcp_endpoint.
Proof. solve_decision. Defined.

(** [connection] is a pointer, 0 when there is none; the times have 16 bits.  The
    policy does not use [fast_reconnects]. *)
Record peer := Peer {
  ptr : Z; peer_endpoint : tcp_endpoint; connection : Z; last_connected : Z; next_connect : Z;
  connectable : bool; seed : bool; failcount : Z; trust_points : Z; source : Z; added_to_dht : bool
}.

Definition peer_new (p : Z) (ep : tcp_endpoint) (conn : bool) (src : Z) : peer := Peer p ep 0 0 0 conn false 0 0 src false.
Definition peer_address (p : peer) : bytes := ep_address (peer_endpoint p).

(** [peer_info::peer_source_flags] *)
Definition src_tracker : Z := 0x1.
Definition src_dht : Z := 0x2.
Definition src_pex : Z := 0x4.
Definition src_lsd : Z := 0x8.
Definition src_resume_data : Z := 0x10.
Definition src_incoming : Z := 0x20.

Definition has_flag (bits flag : Z) : bool := negb (Z.land bits flag =? 0).

Definition source_rank (source_bitmask : Z) : Z :=
  Z.lor (Z.lor (if has_flag source_bitmask src_tracker then Z.shiftl 1 5 else 0) (if has_flag source_bitmask src_lsd then Z.shiftl 1 4 else 0))
        (Z.lor (if has_flag source_bitmask src_dht then Z.shiftl 1 3 else 0) (if has_flag source_bitmask src_pex then Z.shiftl 1 2 else 0)).

Definition set_conn (c : Z) (p : peer) : peer :=
  Peer (ptr p) (peer_endpoint p) c (last_connected p) (next_connect p) (connectable p) (seed p) (failcount p) (trust_points p) (source p) (added_to_dht p).
Definition set_last (t : Z) (p : peer) : peer :=
  Peer (ptr p) (peer_endpoint p) (connection p) (to_uint 2 t) (next_connect p) (connectable p) (seed p) (failcount p) (trust_points p) (source p) (added_to_dht p).
Definition set_next (t : Z) (p : peer) : peer :=
  Peer (ptr p) (peer_endpoint p) (connection p) (last_connected p) (to_uint 2 t) (connectable p) (seed p) (failcount p) (trust_points p) (source p) (added_to_dht p).
Definition set_connectable (c : bool) (p : peer) : peer :=
  Peer (ptr p) (peer_endpoint p) (connection p) (last_connected p) (next_connect p) c (seed p) (failcount p) (trust_points p) (source p) (added_to_dht p).
Definition set_seed (s : bool) (p : peer) : peer :=
  Peer (ptr p) (peer_endpoint p) (connection p) (last_connected p) (next_connect p) (connectable p) s (failcount p) (trust_points p) (source p) (added_to_dht p).
Definition set_fails (f : Z) (p : peer) : peer :=
  Peer (ptr p) (peer_endpoint p) (connection p) (last_connected p) (next_connect p) (connectable p) (seed p) (to_uint 4 f) (trust_points p) (source p) (added_to_dht p).
Definition set_source (s : Z) (p : peer) : peer :=
  Peer (ptr p) (peer_endpoint p) (connection p) (last_connected p) (next_connect p) (connectable p) (seed p) (failcount p) (trust_points p) s (added_to_dht p).
Definition set_added (a : bool) (p : peer) : peer :=
  Peer (ptr p) (peer_endpoint p) (connection p) (last_connected p) (next_connect p) (connectable p) (seed p) (failcount p) (trust_points p) (source p) a.

(** ** The state and what is around it *)

Record policy := Policy {
  m_peers : list peer;
  m_round_robin : nat;
  m_num_connect_candidates : Z;
  m_num_seeds : Z;
  m_finished : bool;
  picker : option piece_picker
}.

Definition policy_new (pk : option piece_picker) : policy := Policy [] 0 0 0 false pk.

Record env := Env {
  allow_multiple_connections_per_ip : bool;
  max_peerlist_size : Z;
  max_paused_peerlist_size : Z;
  min_reconnect_time : Z;
  max_failcount : Z;
  session_filter : ip_filter;
  is_paused : bool;
  is_finished : bool;
  find_peer_connection : tcp_endpoint -> bool;
  fast_reconnect : Z -> bool;
  failed : Z -> bool
}.

(** The session with one more connection. *)
Definition connected_to (ep : tcp_endpoint) (e : env) : env :=
  Env (allow_multiple_connections_per_ip e) (max_peerlist_size e) (max_paused_peerlist_size e) (min_reconnect_time e) (max_failcount e)
    (session_filter e) (is_paused e) (is_finished e) (fun x => bool_decide (x = ep) || find_peer_connection e x) (fast_reconnect e) (failed e).

Definition with_peers (l : list peer) (t : policy) : policy :=
  Policy l (m_round_robin t) (m_num_connect_candidates t) (m_num_seeds t) (m_finished t) (picker t).
Definition with_round_robin (n : nat) (t : policy) : policy :=
  Policy (m_peers t) n (m_num_connect_candidates t) (m_num_seeds t) (m_finished t) (picker t).
Definition with_candidates (n : Z) (t : policy) : policy :=
  Policy (m_peers t) (m_round_robin t) n (m_num_seeds t) (m_finished t) (picker t).
Definition with_num_seeds (n : Z) (t : policy) : policy :=
  Policy (m_peers t) (m_round_robin t) (m_num_connect_candidates t) n (m_finished t) (picker t).
Definition with_picker (pk : option piece_picker) (t : policy) : policy :=
  Policy (m_peers t) (m_round_robin t) (m_num_connect_candidates t) (m_num_seeds t) (m_finished t) pk.

Section Policy.
Context (e : env).

(** ** Predicates on peers *)

(** [int(p.failcount)]: the count has 32 bits without a sign. *)
Definition int_failcount (p : peer) : Z := if failcount p <? 2 ^ 31 then failcount p else failcount p - 2 ^ 32.

Definition is_connect_candidate (p : peer) (finished : bool) : bool :=
  if negb (connection p =? 0) || negb (connectable p) || (seed p && finished) || (max_failcount e <=? int_failcount p) then false
  else negb (find_peer_connection e (peer_endpoint p)).

Definition is_erase_candidate (pe : peer) (finished : bool) : bool :=
  if negb (connection pe =? 0) then false
  else if is_connect_candidate pe finished then false
  else (0 <? failcount pe) || (source pe =? src_resume_data).

Definition is_force_erase_candidate (pe : peer) : bool := connection pe =? 0.

Definition should_erase_immediately (p : peer) : bool := source p =? src_resume_data.

(** [lhs] is a better erase candidate than [rhs]. *)
Definition compare_peer_erase (lhs rhs : peer) : bool :=
  if negb (failcount lhs =? failcount rhs) then failcount rhs <? failcount lhs
  else
    let lhs_resume_data_source := source lhs =? src_resume_data in
    let rhs_resume_data_source := source rhs =? src_resume_data in
    if negb (Bool.eqb lhs_resume_data_source rhs_resume_data_source) then lhs_resume_data_source
    else if negb (Bool.eqb (connectable lhs) (connectable rhs)) then connectable rhs
    else trust_points lhs <? trust_points rhs.

(** [lhs] is a better connect candidate than [rhs]. *)
Definition compare_peer (lhs rhs : peer) : bool :=
  if negb (failcount lhs =? failcount rhs) then failcount lhs <? failcount rhs
  else
    let lhs_local := is_local (peer_address lhs) in
    let rhs_local := is_local (peer_address rhs) in
    if negb (Bool.eqb lhs_local rhs_local) then lhs_local
    else if negb (last_connected lhs =? last_connected rhs) then last_connected lhs <? last_connected rhs
    else if negb (next_connect lhs =? next_connect rhs) then next_connect lhs <? next_connect rhs
    else
      let lhs_rank := source_rank (source lhs) in
      let rhs_rank := source_rank (source rhs) in
      if negb (lhs_rank =? rhs_rank) then rhs_rank <? lhs_rank else false.

(** ** Finding peers *)

Fixpoint peers_lower_bound (a : bytes) (l : list peer) : nat :=
  match l with
  | [] => 0
  | p :: l => if bytes_ltb (peer_address p) a then S (peers_lower_bound a l) else 0
  end.

Fixpoint peers_upper_bound (a : bytes) (l : list peer) : nat :=
  match l with
  | [] => 0
  | p :: l => if bytes_ltb a (peer_address p) then 0 else S (peers_upper_bound a l)
  end.

(** [find_peers] and the search for the endpoint in the range. *)
Definition find_endpoint (ep : tcp_endpoint) (l : list peer) : option nat :=
  let first := peers_lower_bound (ep_address ep) l in
  let last := peers_upper_bound (ep_address ep) l in
  match list_find (fun p => peer_endpoint p = ep) (take (last - first) (drop first l)) with
  | Some (k, _) => Some (first + k)%nat
  | None => None
  end.

(** The iterator and whether it points to the peer. *)
Definition find_peer (ep : tcp_endpoint) (l : list peer) : nat * bool :=
  if allow_multiple_connections_per_ip e then
    match find_endpoint ep l with Some k => (k, true) | None => (peers_upper_bound (ep_address ep) l, false) end
  else
    let iter := peers_lower_bound (ep_address ep) l in
    (iter, match l !! iter with Some p => bool_decide (peer_address p = ep_address ep) | None => false end).

(** The peer a pointer points to, with its place in the list. *)
Definition find_ptr (p : Z) (l : list peer) : option (nat * peer) := list_find (fun x => ptr x = p) l.

(** ** Erasing *)

Definition erase_at (i : nat) (t : policy) : policy :=
  match m_peers t !! i with
  | None => t
  | Some p =>
      let t := with_picker (clear_peer (ptr p) <$> picker t) t in
      let t := if seed p then with_num_seeds (m_num_seeds t - 1) t else t in
      let t := if is_connect_candidate p (m_finished t) then with_candidates (m_num_connect_candidates t - 1) t else t in
      let t := if (i <? m_round_robin t)%nat then with_round_robin (m_round_robin t - 1) t else t in
      let t := if (length (m_peers t) <=? m_round_robin t)%nat then with_round_robin 0 t else t in
      with_peers (delete i (m_peers t)) t
  end.

Definition erase_peer (p : peer) (t : policy) : policy :=
  match find_endpoint (peer_endpoint p) (m_peers t) with
  | None => t
  | Some i => erase_at i t
  end.

Definition peerlist_limit : Z := if is_paused e then max_paused_peerlist_size e else max_peerlist_size e.

(** [-1] when there is no candidate, as in the code. *)
Definition better (candidate : option nat) (cmp : peer -> peer -> bool) (l : list peer) (pe : peer) : bool :=
  match candidate with
  | None => true
  | Some k => match l !! k with Some p => negb (cmp p pe) | None => true end
  end.

Definition moved (candidate : option nat) (current : nat) : option nat :=
  (fun k => if (current <? k)%nat then (k - 1)%nat else k) <$> candidate.

(** The loop of [erase_peers]. *)
Fixpoint erase_loop (iterations : nat) (low_watermark : Z) (round_robin : nat) (erase_candidate force_erase_candidate : option nat) (t : policy) :
    policy * option nat * option nat :=
  match iterations with
  | O => (t, erase_candidate, force_erase_candidate)
  | S iterations =>
      if Z.of_nat (length (m_peers t)) <? low_watermark then (t, erase_candidate, force_erase_candidate)
      else
        let round_robin := if (round_robin =? length (m_peers t))%nat then 0%nat else round_robin in
        match m_peers t !! round_robin with
        | None => (t, erase_candidate, force_erase_candidate)
        | Some pe =>
            let current := round_robin in
            let candidate := is_erase_candidate pe (m_finished t) && better erase_candidate compare_peer_erase (m_peers t) pe in
            if candidate && should_erase_immediately pe then
              erase_loop iterations low_watermark round_robin (moved erase_candidate current) (moved force_erase_candidate current) (erase_at current t)
            else
              let erase_candidate := if candidate then Some current else erase_candidate in
              let force_erase_candidate :=
                if is_force_erase_candidate pe && better force_erase_candidate compare_peer_erase (m_peers t) pe
                then Some current else force_erase_candidate in
              erase_loop iterations low_watermark (S round_robin) erase_candidate force_erase_candidate t
        end
  end.

Definition erase_peers (random : nat) (force_erase : bool) (t : policy) : policy :=
  if (peerlist_limit =? 0) || (length (m_peers t) =? 0)%nat then t
  else
    let low_watermark := Z.quot (peerlist_limit * 95) 100 in
    let low_watermark := if low_watermark =? peerlist_limit then low_watermark - 1 else low_watermark in
    let '(t, erase_candidate, force_erase_candidate) :=
      erase_loop (Nat.min (length (m_peers t)) 300) low_watermark (random mod length (m_peers t)) None None t in
    match erase_candidate, force_erase_candidate with
    | Some i, _ => erase_at i t
    | None, Some i => if force_erase then erase_at i t else t
    | None, None => t
    end.

(** ** Adding *)

Definition insert_at (i : nat) (p : peer) (t : policy) : policy :=
  let t := with_peers (take i (m_peers t) ++ p :: drop i (m_peers t)) t in
  if (i <=? m_round_robin t)%nat then with_round_robin (S (m_round_robin t)) t else t.

Definition insert_peer (random : nat) (p : peer) (iter : nat) (flags : Z) (t : policy) : policy * bool :=
  let full t := negb (peerlist_limit =? 0) && (peerlist_limit <=? Z.of_nat (length (m_peers t))) in
  if full t && (source p =? src_resume_data) then (t, false)
  else
    let '(t, iter) :=
      if full t then let t := erase_peers random false t in (t, peers_lower_bound (peer_address p) (m_peers t)) else (t, iter) in
    if full t then (t, false)
    else
      let '(p, t) := if has_flag flags 2 then (set_seed true p, with_num_seeds (m_num_seeds t + 1) t) else (p, t) in
      let t := insert_at iter p t in
      (if is_connect_candidate p (m_finished t) then with_candidates (m_num_connect_candidates t + 1) t else t, true).

(** The counter after a peer has changed. *)
Definition recount (was_conn_cand is_cand : bool) (t : policy) : policy :=
  if negb (Bool.eqb was_conn_cand is_cand)
  then with_candidates (m_num_connect_candidates t + (if was_conn_cand then -1 else 1)) t else t.

Definition at_least_zero (t : policy) : policy := if m_num_connect_candidates t <? 0 then with_candidates 0 t else t.

Definition update_peer (i : nat) (p : peer) (src flags : Z) (t : policy) : policy :=
  let was_conn_cand := is_connect_candidate p (m_finished t) in
  let p := set_source (Z.lor (source p) src) (set_connectable true p) in
  let p := if (0 <? failcount p) && (src =? src_tracker) then set_fails (failcount p - 1) p else p in
  let '(p, t) :=
    if has_flag flags 2 && (connection p =? 0)
    then (set_seed true p, if seed p then t else with_num_seeds (m_num_seeds t + 1) t)
    else (p, t) in
  let t := with_peers (<[i := p]> (m_peers t)) t in
  if negb (Bool.eqb was_conn_cand (is_connect_candidate p (m_finished t)))
  then at_least_zero (recount was_conn_cand (is_connect_candidate p (m_finished t)) t) else t.

Definition blocked (a : bytes) : bool := has_flag (ip_access (V4 a) (session_filter e)) 1.

(** The peer at the end, if it is in the list. [new_ptr] is the memory the pool
    would give. *)
Definition add_peer (random : nat) (new_ptr : Z) (ep : tcp_endpoint) (src flags : Z) (t : policy) : policy * option Z :=
  if blocked (ep_address ep) then (t, None)
  else
    let '(iter, found) := find_peer ep (m_peers t) in
    if found then
      match m_peers t !! iter with
      | Some p => (update_peer iter p src flags t, Some (ptr p))
      | None => (t, None)
      end
    else
      let '(t, inserted) := insert_peer random (peer_new new_ptr ep true src) iter flags t in
      (t, if inserted then Some new_ptr else None).

(** ** Connections *)

Definition set_connection (p c : Z) (t : policy) : policy :=
  match find_ptr p (m_peers t) with
  | None => t
  | Some (i, x) =>
      let was_conn_cand := is_connect_candidate x (m_finished t) in
      let t := with_peers (<[i := set_conn c x]> (m_peers t)) t in
      if was_conn_cand then with_candidates (m_num_connect_candidates t - 1) t else t
  end.

Definition set_failcount (p f : Z) (t : policy) : policy :=
  match find_ptr p (m_peers t) with
  | None => t
  | Some (i, x) =>
      let was_conn_cand := is_connect_candidate x (m_finished t) in
      let x := set_fails f x in
      recount was_conn_cand (is_connect_candidate x (m_finished t)) (with_peers (<[i := x]> (m_peers t)) t)
  end.

(** [p] is the peer of the connection [c]; [also_failed] when it is closed with an
    error of the peer. *)
Definition connection_closed (c p : Z) (also_failed : bool) (session_time : Z) (t : policy) : policy :=
  match find_ptr p (m_peers t) with
  | None => t
  | Some (i, x) =>
      let x := set_conn 0 x in
      let x := if fast_reconnect e c then x else set_last session_time x in
      let x := if (failed e c || also_failed) && (failcount x <? 31) then set_fails (failcount x + 1) x else x in
      let t := with_peers (<[i := x]> (m_peers t)) t in
      let t := if is_connect_candidate x (m_finished t) then with_candidates (m_num_connect_candidates t + 1) t else t in
      if allow_multiple_connections_per_ip e && negb (connectable x) then erase_peer x t else t
  end.

(** What [new_connection] finds when the peer is connected already. *)
Inductive sockets := this_socket_error | same_socket | other_socket_error | other_connecting | other_connected.

(** The end of [new_connection]: the peer [p] gets the connection. *)
Definition take_connection (c session_time p : Z) (t : policy) : option (policy * bool) :=
  match find_ptr p (m_peers t) with
  | None => None
  | Some (i, x) =>
      let x := set_conn c x in
      let x := if fast_reconnect e c then x else set_last session_time x in
      Some (with_peers (<[i := set_next 0 x]> (m_peers t)) t, true)
  end.

(** [None] when the peer the function holds has been erased under it. *)
Definition new_connection (new_ptr : Z) (c : Z) (remote : tcp_endpoint) (c_is_local : bool) (found_sockets : sockets) (session_time : Z) (t : policy) :
    option (policy * bool) :=
  let '(iter, found) := find_peer remote (m_peers t) in
  if found then
    match m_peers t !! iter with
    | None => None
    | Some i =>
        let other := connection i in
        let found_peer (t : policy) : option (policy * bool) :=
          match find_ptr (ptr i) (m_peers t) with
          | None => None
          | Some (_, x) =>
              take_connection c session_time (ptr i) (if is_connect_candidate x (m_finished t)
                               then at_least_zero (with_candidates (m_num_connect_candidates t - 1) t) else t)
          end in
        if other =? 0 then found_peer t
        else
          match found_sockets with
          | this_socket_error => Some (t, false)
          | same_socket => Some (connection_closed other (ptr i) true session_time t, false)
          | other_socket_error => found_peer (connection_closed other (ptr i) false session_time t)
          | other_connected => Some (t, false)
          | other_connecting =>
              if c_is_local then Some (t, false)
              else found_peer (connection_closed other (ptr i) false session_time t)
          end
    end
  else if max_peerlist_size e <=? Z.of_nat (length (m_peers t)) then Some (t, false)
  else take_connection c session_time new_ptr (insert_at iter (set_source src_incoming (peer_new new_ptr remote false 0)) t).

Definition recalculate_connect_candidates (t : policy) : policy :=
  if Bool.eqb (is_finished e) (m_finished t) then t
  else
    Policy (m_peers t) (m_round_robin t)
      (foldl (fun n p => n + Z.b2z (is_connect_candidate p (is_finished e))) 0 (m_peers t))
      (m_num_seeds t) (is_finished e) (picker t).

(** The loop of [ip_filter_updated]. *)
Fixpoint filter_loop (fuel : nat) (session_time : Z) (i : nat) (t : policy) : policy :=
  match fuel with
  | O => t
  | S fuel =>
      match m_peers t !! i with
      | None => t
      | Some p =>
          if negb (blocked (peer_address p)) then filter_loop fuel session_time (S i) t
          else
            let t' := if connection p =? 0 then t else connection_closed (connection p) (ptr p) false session_time t in
            if (length (m_peers t') <? length (m_peers t))%nat then filter_loop fuel session_time i t'
            else filter_loop fuel session_time i (erase_at i t')
      end
  end.

Definition ip_filter_updated (session_time : Z) (t : policy) : policy := filter_loop (S (length (m_peers t))) session_time 0 t.

(** ** Choosing a peer to connect to *)

(** Whether the times of a peer allow another try. *)
Definition may_try (session_time : Z) (pe : peer) : bool :=
  negb (negb (next_connect pe =? 0) && (session_time <? next_connect pe))
  && negb (negb (last_connected pe =? 0) && (session_time - last_connected pe <? (int_failcount pe + 1) * min_reconnect_time e)).

Fixpoint candidate_loop (iterations : nat) (session_time : Z) (pinged : bool) (candidate erase_candidate : option nat) (t : policy) :
    policy * option nat * option nat :=
  match iterations with
  | O => (t, candidate, erase_candidate)
  | S iterations =>
      let t := if (length (m_peers t) <=? m_round_robin t)%nat then with_round_robin 0 t else t in
      let current := m_round_robin t in
      match m_peers t !! current with
      | None => (t, candidate, erase_candidate)
      | Some pe =>
          let ping := negb pinged && negb (added_to_dht pe) in
          let '(pe, t) := if ping then (set_added true pe, with_peers (<[current := set_added true pe]> (m_peers t)) t) else (pe, t) in
          let pinged := pinged || ping in
          let weed := (peerlist_limit * 19 <=? Z.of_nat (length (m_peers t)) * 20) && (0 <? peerlist_limit) in
          let erase := weed && is_erase_candidate pe (m_finished t) && better erase_candidate compare_peer_erase (m_peers t) pe in
          if erase && should_erase_immediately pe then
            candidate_loop iterations session_time pinged (moved candidate current) (moved erase_candidate current) (erase_at current t)
          else
            let erase_candidate := if erase then Some current else erase_candidate in
            let t := with_round_robin (S (m_round_robin t)) t in
            let candidate :=
              if is_connect_candidate pe (m_finished t) && better candidate compare_peer (m_peers t) pe && may_try session_time pe
              then Some current else candidate in
            candidate_loop iterations session_time pinged candidate erase_candidate t
      end
  end.

(** The policy and the index of the candidate. *)
Definition find_connect_candidate (session_time : Z) (t : policy) : policy * option nat :=
  let t := if (length (m_peers t) <=? m_round_robin t)%nat then with_round_robin 0 t else t in
  let '(t, candidate, erase_candidate) := candidate_loop (Nat.min (length (m_peers t)) 300) session_time false None None t in
  match erase_candidate with
  | Some i => (erase_at i t, moved candidate i)
  | None => (t, candidate)
  end.
End Policy.

(** [transfer::connect_to_peer] with a new connection [c]: the session knows the
    connection before the policy does.  When the connection cannot be queued it is
    closed, but the transfer has forgotten it by then. *)
Definition connect_to_peer (e : env) (c session_time : Z) (queued : bool) (p : Z) (t : policy) : policy * bool :=
  match find_ptr p (m_peers t) with
  | None => (t, false)
  | Some (i, x) =>
      let t := with_peers (<[i := set_next 0 (set_last session_time x)]> (m_peers t)) t in
      (set_connection (connected_to (peer_endpoint x) e) p c t, queued)
  end.

Definition connect_one_peer (e : env) (c session_time : Z) (queued : bool) (t : policy) : policy * bool :=
  let '(t, candidate) := find_connect_candidate e session_time t in
  match candidate ≫= fun i => m_peers t !! i with
  | None => (t, false)
  | Some p =>
      let '(t, connected) := connect_to_peer e c session_time queued (ptr p) t in
      if connected then (t, true)
      else
        let e := connected_to (peer_endpoint p) e in
        match find_ptr (ptr p) (m_peers t) with
        | None => (t, false)
        | Some (i, x) =>
            let was_conn_cand := is_connect_candidate e x (m_finished t) in
            let x := if failcount x <? 31 then set_fails (failcount x + 1) x else x in
            let t := with_peers (<[i := x]> (m_peers t)) t in
            (if was_conn_cand && negb (is_connect_candidate e x (m_finished t))
             then with_candidates (m_num_connect_candidates t - 1) t else t, false)
        end
  end.
