(* ===== verification/PolicyInv.v ===== *)
(** * The peer list stays consistent

    The invariant of the peer list ([policy_ok]): peers in the order of their
    addresses, no endpoint twice, the counters of seeds and of connect candidates
    exact.  Every operation of Policy.v keeps it as long as the session's
    connections, which decide who is a candidate, do not change under it. *)

From S2P Require Import Prelude Archive Md4Hash KadId IpFilter PiecePicker Policy.
From stdpp Require Import sorting.
Open Scope Z_scope.

(** The fields of an updated policy. *)
Ltac fields :=
  cbn [m_peers m_round_robin m_num_connect_candidates m_num_seeds m_finished picker
       with_peers with_round_robin with_candidates with_num_seeds with_picker].

(** ** Counting *)

Definition num (f : peer -> bool) (l : list peer) : Z := foldr (fun p n => Z.b2z (f p) + n) 0 l.

Lemma num_app f l1 l2 : num f (l1 ++ l2) = num f l1 + num f l2.
Proof. induction l1 as [|p l1 IH]; cbn; [done|]. unfold num in *. lia. Qed.

Lemma num_nonneg f l : 0 <= num f l.
Proof. induction l as [|p l IH]; cbn; [lia|]. unfold num in *. destruct (f p); cbn; lia. Qed.

Lemma num_update f l i x y : l !! i = Some x -> num f (<[i := y]> l) = num f l - Z.b2z (f x) + Z.b2z (f y).
Proof.
  intros Hx. rewrite <- (take_drop_middle l i x Hx) at 2. rewrite insert_take_drop by (by eapply lookup_lt_Some). rewrite !num_app. cbn. unfold num. lia.
Qed.

Lemma num_delete f l i x : l !! i = Some x -> num f (delete i l) = num f l - Z.b2z (f x).
Proof. intros Hx. rewrite <- (take_drop_middle l i x Hx) at 2. rewrite delete_take_drop, !num_app. cbn. unfold num. lia. Qed.

Lemma num_insert f l i x : num f (take i l ++ x :: drop i l) = num f l + Z.b2z (f x).
Proof. rewrite <- (take_drop i l) at 3. rewrite !num_app. cbn. unfold num. lia. Qed.

Lemma foldl_num f l n : foldl (fun n p => n + Z.b2z (f p)) n l = n + num f l.
Proof. revert n. induction l as [|p l IH]; intros n; cbn; [lia|]. rewrite IH. unfold num. lia. Qed.

(** ** The invariant *)

Definition ep_val (ep : tcp_endpoint) : Z := be_value (ep_address ep).
Definition ep_ok (ep : tcp_endpoint) : Prop := length (ep_address ep) = 4%nat.

(** The order of the list; addresses are different unless an address may have
    several peers. *)
Definition ep_before (e : env) (a b : tcp_endpoint) : Prop :=
  if allow_multiple_connections_per_ip e then ep_val a <= ep_val b else ep_val a < ep_val b.

Definition endpoints (t : policy) : list tcp_endpoint := peer_endpoint <$> m_peers t.
Definition ptrs (t : policy) : list Z := ptr <$> m_peers t.

Record list_ok (e : env) (t : policy) : Prop := {
  ok_sorted : StronglySorted (ep_before e) (endpoints t);
  ok_endpoints : NoDup (endpoints t);
  ok_ptrs : NoDup (ptrs t);
  ok_address : Forall ep_ok (endpoints t)
}.

(** No block of the picker names a peer that is gone. *)
Definition no_dangling (t : policy) : Prop :=
  forall pk b, picker t = Some pk -> b ∈ m_block_info pk -> bi_peer b = 0 \/ bi_peer b ∈ ptrs t.

(** [exact]: the counter of connect candidates agrees with the connections the
    session has in [e]. *)
Record policy_ok (exact : bool) (e : env) (t : policy) : Prop := {
  ok_list : list_ok e t;
  ok_round : (m_round_robin t <= length (m_peers t))%nat;
  ok_seeds : m_num_seeds t = num seed (m_peers t);
  ok_picker : no_dangling t;
  ok_candidates : exact = true -> m_num_connect_candidates t = num (fun p => is_connect_candidate e p (m_finished t)) (m_peers t)
}.

Lemma list_ok_same e t t' : endpoints t' = endpoints t -> ptrs t' = ptrs t -> list_ok e t -> list_ok e t'.
Proof. intros He Hp [H1 H2 H3 H4]. split; congruence. Qed.

(** A peer is replaced by one with the same endpoint and pointer. *)
Lemma update_endpoints i x y t :
  m_peers t !! i = Some x -> peer_endpoint y = peer_endpoint x -> ptr y = ptr x ->
  (peer_endpoint <$> <[i := y]> (m_peers t)) = endpoints t /\ (ptr <$> <[i := y]> (m_peers t)) = ptrs t.
Proof.
  intros Hx He Hp. unfold endpoints, ptrs. rewrite !list_fmap_insert, He, Hp. split; apply list_insert_id; by rewrite list_lookup_fmap, Hx.
Qed.

Lemma list_ok_update e i x y t n c s f pk :
  m_peers t !! i = Some x -> peer_endpoint y = peer_endpoint x -> ptr y = ptr x -> list_ok e t ->
  list_ok e (Policy (<[i := y]> (m_peers t)) n c s f pk).
Proof. intros Hx He Hp. destruct (update_endpoints i x y t Hx He Hp). by apply list_ok_same. Qed.

Lemma list_ok_peers e t t' : m_peers t' = m_peers t -> list_ok e t -> list_ok e t'.
Proof. intros E. apply list_ok_same; unfold endpoints, ptrs; by rewrite E. Qed.

Lemma sublist_sorted {A} (R : A -> A -> Prop) (l k : list A) : l `sublist_of` k -> StronglySorted R k -> StronglySorted R l.
Proof.
  intros Hs. induction Hs as [|x l k Hs IH|x l k Hs IH]; intros Hk; [constructor|..]; inversion_clear Hk as [|? ? Hk' Hf].
  - constructor; [by apply IH|]. rewrite Forall_forall in *. intros y Hy. apply Hf. by eapply elem_of_sublist.
  - by apply IH.
Qed.

Lemma list_ok_sublist e t t' : m_peers t' `sublist_of` m_peers t -> list_ok e t -> list_ok e t'.
Proof.
  intros Hs [H1 H2 H3 H4]. assert (endpoints t' `sublist_of` endpoints t) as He by (by apply fmap_sublist).
  assert (ptrs t' `sublist_of` ptrs t) as Hp by (by apply fmap_sublist). split.
  - by eapply sublist_sorted.
  - by eapply sublist_NoDup.
  - by eapply sublist_NoDup.
  - rewrite Forall_forall in *. intros x Hx. apply H4. by eapply elem_of_sublist.
Qed.

(** ** Places in the order *)

Definition peer_val (p : peer) : Z := ep_val (peer_endpoint p).
Definition addresses_ok (l : list peer) : Prop := Forall (fun p => ep_ok (peer_endpoint p)) l.
Definition peers_sorted (l : list peer) : Prop := StronglySorted (fun p q => peer_val p <= peer_val q) l.

Lemma list_ok_peers_sorted e t : list_ok e t -> peers_sorted (m_peers t) /\ addresses_ok (m_peers t).
Proof.
  intros [H1 _ _ H4]. unfold endpoints in *. split; [|unfold addresses_ok; rewrite Forall_fmap in H4; exact H4].
  unfold peers_sorted. induction (m_peers t) as [|p l IH]; [constructor|]. cbn in H1, H4. inversion_clear H1 as [|? ? Hs Hf]. inversion_clear H4 as [|? ? _ H4'].
  constructor; [by apply IH|]. rewrite Forall_fmap in Hf. eapply Forall_impl; [exact Hf|]. unfold ep_before, compose, peer_val. intros q Hq. case_match; lia.
Qed.

Lemma address_ltb a b : length a = 4%nat -> length b = 4%nat -> bytes_ltb a b = (be_value a <? be_value b).
Proof. intros Ha Hb. apply eq_true_iff_eq. rewrite bytes_ltb_spec, Z.ltb_lt by congruence. done. Qed.

Lemma peers_lower_bound_split a l :
  length a = 4%nat -> addresses_ok l -> peers_sorted l ->
  (peers_lower_bound a l <= length l)%nat /\
  Forall (fun p => peer_val p < be_value a) (take (peers_lower_bound a l) l) /\ Forall (fun p => be_value a <= peer_val p) (drop (peers_lower_bound a l) l).
Proof.
  intros Ha Hl Hs. induction Hl as [|p l Hp Hl IH]; cbn [peers_lower_bound]; [split_and!; [lia|constructor|constructor]|].
  inversion_clear Hs as [|? ? Hs' Hf]. unfold peer_address. rewrite address_ltb by done. change (be_value (ep_address (peer_endpoint p))) with (peer_val p).
  destruct (Z.ltb_spec (peer_val p) (be_value a)) as [Hlt|Hge].
  - destruct (IH Hs') as (H1 & H2 & H3). cbn. split_and!; [lia|by constructor|done].
  - cbn. split_and!; [lia|constructor|]. constructor; [done|]. eapply Forall_impl; [exact Hf|]. cbn. lia.
Qed.

Lemma upper_bound_split a l :
  length a = 4%nat -> addresses_ok l -> peers_sorted l ->
  (peers_upper_bound a l <= length l)%nat /\
  Forall (fun p => peer_val p <= be_value a) (take (peers_upper_bound a l) l) /\ Forall (fun p => be_value a < peer_val p) (drop (peers_upper_bound a l) l).
Proof.
  intros Ha Hl Hs. induction Hl as [|p l Hp Hl IH]; cbn [peers_upper_bound]; [split_and!; [lia|constructor|constructor]|].
  inversion_clear Hs as [|? ? Hs' Hf]. unfold peer_address. rewrite address_ltb by done. change (be_value (ep_address (peer_endpoint p))) with (peer_val p).
  destruct (Z.ltb_spec (be_value a) (peer_val p)) as [Hlt|Hge].
  - cbn. split_and!; [lia|constructor|]. constructor; [done|]. eapply Forall_impl; [exact Hf|]. cbn. lia.
  - destruct (IH Hs') as (H1 & H2 & H3). cbn. split_and!; [lia|by constructor|done].
Qed.

(** No peer has the endpoint, nor the address unless several are allowed. *)
Definition absent (e : env) (ep : tcp_endpoint) (l : list peer) : Prop :=
  (ep ∉ (peer_endpoint <$> l)) /\ (allow_multiple_connections_per_ip e = false -> Forall (fun p => peer_val p <> ep_val ep) l).

Definition fits (e : env) (ep : tcp_endpoint) (i : nat) (l : list peer) : Prop :=
  (i <= length l)%nat /\ Forall (fun p => ep_before e (peer_endpoint p) ep) (take i l) /\ Forall (fun p => ep_before e ep (peer_endpoint p)) (drop i l).

Lemma lower_bound_fits e ep l :
  ep_ok ep -> addresses_ok l -> peers_sorted l -> absent e ep l -> fits e ep (peers_lower_bound (ep_address ep) l) l.
Proof.
  intros Hep Hl Hs [_ Ha]. destruct (peers_lower_bound_split (ep_address ep) l Hep Hl Hs) as (H1 & H2 & H3). split_and!; [done|..].
  - eapply Forall_impl; [exact H2|]. intros p Hp. unfold ep_before. change (be_value (ep_address ep)) with (ep_val ep) in Hp. unfold peer_val in Hp. case_match; lia.
  - rewrite Forall_forall in *. intros p Hp. specialize (H3 p Hp). unfold ep_before. change (be_value (ep_address ep)) with (ep_val ep) in H3. unfold peer_val in *.
    destruct (allow_multiple_connections_per_ip e); [lia|]. specialize (Ha eq_refl).
    assert (p ∈ l) as Hin by (rewrite <- (take_drop (peers_lower_bound (ep_address ep) l) l); apply elem_of_app; by right). specialize (Ha p Hin). cbn in Ha. lia.
Qed.

Lemma ep_inj a b : ep_ok a -> ep_ok b -> ep_val a = ep_val b -> ep_address a = ep_address b.
Proof. intros Ha Hb. apply be_value_inj. unfold ep_ok in *. congruence. Qed.

Lemma find_endpoint_some ep l i : find_endpoint ep l = Some i -> exists p, l !! i = Some p /\ peer_endpoint p = ep.
Proof.
  unfold find_endpoint. destruct (list_find _ _) as [[k p]|] eqn:E; [|done]. intros [= <-]. apply list_find_Some in E as (Hk & Hp & _).
  apply lookup_take_Some in Hk as [Hk _]. rewrite lookup_drop in Hk. by exists p.
Qed.

Lemma find_endpoint_none ep l : ep_ok ep -> addresses_ok l -> peers_sorted l -> find_endpoint ep l = None -> ep ∉ (peer_endpoint <$> l).
Proof.
  intros Hep Hl Hs. unfold find_endpoint. destruct (list_find _ _) as [[k p]|] eqn:E; [done|]. intros _ Hin. apply list_find_None in E.
  destruct (peers_lower_bound_split (ep_address ep) l Hep Hl Hs) as (L1 & L2 & _), (upper_bound_split (ep_address ep) l Hep Hl Hs) as (_ & _ & U3).
  apply list_elem_of_fmap in Hin as (p & -> & Hp). apply list_elem_of_lookup in Hp as (i & Hi).
  assert (peers_lower_bound (ep_address (peer_endpoint p)) l <= i)%nat as Hlo.
  { destruct (Nat.le_gt_cases (peers_lower_bound (ep_address (peer_endpoint p)) l) i); [done|]. rewrite Forall_lookup in L2.
    specialize (L2 i p). rewrite lookup_take_lt in L2 by done. specialize (L2 Hi). unfold peer_val, ep_val in L2. lia. }
  assert (i < peers_upper_bound (ep_address (peer_endpoint p)) l)%nat as Hhi.
  { destruct (Nat.le_gt_cases (peers_upper_bound (ep_address (peer_endpoint p)) l) i) as [Hle|]; [|done]. rewrite Forall_lookup in U3.
    specialize (U3 (i - peers_upper_bound (ep_address (peer_endpoint p)) l)%nat p). rewrite lookup_drop in U3.
    replace (_ + (i - _))%nat with i in U3 by lia. specialize (U3 Hi). unfold peer_val, ep_val in U3. lia. }
  rewrite Forall_lookup in E. eapply (E (i - peers_lower_bound (ep_address (peer_endpoint p)) l)%nat p); [|done].
  rewrite lookup_take_lt by lia. rewrite lookup_drop. replace (_ + (i - _))%nat with i by lia. done.
Qed.

Lemma find_peer_found e ep l i : find_peer e ep l = (i, true) -> exists p, l !! i = Some p /\ peer_address p = ep_address ep.
Proof.
  unfold find_peer. destruct (allow_multiple_connections_per_ip e).
  - destruct (find_endpoint ep l) as [k|] eqn:E; [|done]. intros [= <-]. apply find_endpoint_some in E as (p & Hp & <-). by exists p.
  - intros [= <- H]. destruct (l !! peers_lower_bound (ep_address ep) l) as [p|]; [|done]. exists p. by apply bool_decide_eq_true in H.
Qed.

Lemma find_peer_absent e ep l i :
  ep_ok ep -> addresses_ok l -> peers_sorted l -> find_peer e ep l = (i, false) -> absent e ep l /\ fits e ep i l.
Proof.
  intros Hep Hl Hs. unfold find_peer. destruct (allow_multiple_connections_per_ip e) eqn:Hm.
  - destruct (find_endpoint ep l) as [k|] eqn:E; [done|]. intros [= <-]. apply find_endpoint_none in E; [|done..]. split; [by split; [|congruence]|].
    destruct (upper_bound_split (ep_address ep) l Hep Hl Hs) as (U1 & U2 & U3). unfold fits, ep_before. rewrite Hm. split_and!; [done|exact U2|].
    eapply Forall_impl; [exact U3|]. intros p. unfold peer_val, ep_val. lia.
  - intros [= <- H]. destruct (peers_lower_bound_split (ep_address ep) l Hep Hl Hs) as (L1 & L2 & L3).
    assert (Forall (fun p => peer_val p <> ep_val ep) l) as Hne.
    { rewrite <- (take_drop (peers_lower_bound (ep_address ep) l) l). apply Forall_app. split.
      - eapply Forall_impl; [exact L2|]. intros p. unfold ep_val. lia.
      - destruct (drop (peers_lower_bound (ep_address ep) l) l) as [|p rest] eqn:E; [constructor|].
        assert (l !! peers_lower_bound (ep_address ep) l = Some p) as Hp by (rewrite <- (Nat.add_0_r (peers_lower_bound _ _)), <- lookup_drop, E; done).
        rewrite Hp in H. apply bool_decide_eq_false in H. assert (StronglySorted (fun p q => peer_val p <= peer_val q) (p :: rest)) as Hs'.
        { rewrite <- E. unfold peers_sorted in Hs. rewrite <- (take_drop (peers_lower_bound (ep_address ep) l) l) in Hs. by apply StronglySorted_app_1_r in Hs. }
        inversion_clear Hs' as [|? ? _ Hf]. inversion_clear L3 as [|? ? Hpv Hrest].
        assert (ep_ok (peer_endpoint p)) as Hpo by exact (Forall_lookup_1 _ _ _ _ Hl Hp).
        assert (peer_val p <> ep_val ep) as Hn by (intros Hv; by apply H, ep_inj).
        constructor; [done|]. eapply Forall_impl; [exact Hf|]. cbn. unfold ep_val in *. lia. }
    assert (absent e ep l) as Hab.
    { split; [|done]. intros (p & -> & Hp)%list_elem_of_fmap. rewrite Forall_forall in Hne. by apply (Hne p Hp). }
    split; [done|]. by apply lower_bound_fits.
Qed.

Lemma sorted_insert {A} (R : A -> A -> Prop) (l1 l2 : list A) x :
  StronglySorted R (l1 ++ l2) -> Forall (fun y => R y x) l1 -> Forall (R x) l2 -> StronglySorted R (l1 ++ x :: l2).
Proof.
  intros Hs H1 H2. induction H1 as [|y l1 Hy _ IH]; cbn in *; [by constructor|]. inversion_clear Hs as [|? ? Hs' Hf]. constructor; [by apply IH|].
  apply Forall_app in Hf as [Hf1 Hf2]. apply Forall_app. split; [done|by constructor].
Qed.

Lemma insert_at_peers i p t : m_peers (insert_at i p t) = take i (m_peers t) ++ p :: drop i (m_peers t).
Proof. unfold insert_at. by case_match. Qed.

Lemma insert_at_finished i p t : m_finished (insert_at i p t) = m_finished t.
Proof. unfold insert_at. by case_match. Qed.

Lemma list_ok_insert e i p t :
  list_ok e t -> ep_ok (peer_endpoint p) -> absent e (peer_endpoint p) (m_peers t) -> fits e (peer_endpoint p) i (m_peers t) -> ptr p ∉ ptrs t ->
  list_ok e (insert_at i p t).
Proof.
  intros [H1 H2 H3 H4] Hp [Ha _] (Hi & F1 & F2) Hptr. pose proof (take_drop i (m_peers t)) as Etd.
  assert (forall B (f : peer -> B), f <$> (take i (m_peers t) ++ p :: drop i (m_peers t)) ≡ₚ f p :: (f <$> m_peers t)) as Hperm.
  { intros B f. rewrite fmap_app, fmap_cons, <- Permutation_middle, <- fmap_app, Etd. done. }
  split; unfold endpoints, ptrs in *; rewrite insert_at_peers.
  - rewrite fmap_app, fmap_cons. apply sorted_insert; [by rewrite <- fmap_app, Etd|by apply Forall_fmap|by apply Forall_fmap].
  - rewrite Hperm. by constructor.
  - rewrite Hperm. by constructor.
  - rewrite Hperm. by constructor.
Qed.

(** ** Erasing *)

(** Peers have gone, nothing else has changed. *)
Definition shrunk (t t' : policy) : Prop := m_peers t' `sublist_of` m_peers t /\ m_finished t' = m_finished t.

Lemma shrunk_refl t : shrunk t t.
Proof. by split. Qed.

Lemma shrunk_trans t1 t2 t3 : shrunk t1 t2 -> shrunk t2 t3 -> shrunk t1 t3.
Proof. intros [H1 F1] [H2 F2]. split; [by etrans|congruence]. Qed.

Lemma erase_at_fields e i p t :
  m_peers t !! i = Some p ->
  m_peers (erase_at e i t) = delete i (m_peers t) /\ m_finished (erase_at e i t) = m_finished t /\
  m_num_seeds (erase_at e i t) = m_num_seeds t - Z.b2z (seed p) /\
  m_num_connect_candidates (erase_at e i t) = m_num_connect_candidates t - Z.b2z (is_connect_candidate e p (m_finished t)) /\
  picker (erase_at e i t) = clear_peer (ptr p) <$> picker t.
Proof.
  intros Hp. unfold erase_at. rewrite Hp. cbn. destruct (seed p); cbn; (destruct (is_connect_candidate e p (m_finished t)); cbn);
    (case_match; cbn); (case_match; cbn); split_and!; done || lia.
Qed.

Lemma erase_at_shrunk e i t : shrunk t (erase_at e i t).
Proof.
  destruct (m_peers t !! i) as [p|] eqn:Hp; [|unfold erase_at; rewrite Hp; apply shrunk_refl].
  destruct (erase_at_fields e i p t Hp) as (E1 & E2 & _). split; [|done]. rewrite E1. apply sublist_delete.
Qed.

Lemma erase_at_round e i p t :
  m_peers t !! i = Some p -> (m_round_robin t <= length (m_peers t))%nat -> (m_round_robin (erase_at e i t) <= length (m_peers (erase_at e i t)))%nat.
Proof.
  intros Hp Hr. pose proof (lookup_lt_Some _ _ _ Hp). destruct (erase_at_fields e i p t Hp) as (-> & _). rewrite length_delete by done.
  assert (m_round_robin (erase_at e i t) = let r := if (i <? m_round_robin t)%nat then (m_round_robin t - 1)%nat else m_round_robin t in
    if (length (m_peers t) <=? r)%nat then 0%nat else r) as ->.
  { unfold erase_at. rewrite Hp. fields. destruct (seed p); fields; (destruct (is_connect_candidate e p (m_finished t)); fields);
      (destruct (i <? m_round_robin t)%nat; fields); by destruct (_ <=? _)%nat. }
  cbv zeta. destruct (Nat.ltb_spec i (m_round_robin t)); case_match eqn:Hc; try apply Nat.leb_le in Hc; try apply Nat.leb_gt in Hc; lia.
Qed.

Lemma no_dangling_same t t' : ptrs t' = ptrs t -> picker t' = picker t -> no_dangling t -> no_dangling t'.
Proof. intros E1 E2 H pk b. rewrite E1, E2. apply H. Qed.

Lemma erase_at_dangling e i t : no_dangling t -> no_dangling (erase_at e i t).
Proof.
  intros Hd. destruct (m_peers t !! i) as [p|] eqn:Hp; [|unfold erase_at; by rewrite Hp].
  destruct (erase_at_fields e i p t Hp) as (E1 & _ & _ & _ & E5). intros pk b. rewrite E5. destruct (picker t) as [pk0|] eqn:Epk; [|done].
  intros [= <-] Hb. cbn in Hb. apply list_elem_of_fmap in Hb as (b0 & -> & Hb). destruct (Z.eqb_spec (bi_peer b0) (ptr p)) as [E|E]; [by left|].
  destruct (Hd pk0 b0 Epk Hb) as [H0|Hin]; [by left|right]. unfold ptrs in *. rewrite E1. rewrite <- (take_drop_middle _ _ _ Hp) in Hin.
  rewrite delete_take_drop, fmap_app, elem_of_app in *. rewrite fmap_cons, elem_of_cons in Hin. tauto.
Qed.

Lemma erase_at_ok ex e i t : policy_ok ex e t -> policy_ok ex e (erase_at e i t).
Proof.
  intros [Hl Hr Hs Hd Hc]. destruct (m_peers t !! i) as [p|] eqn:Hp; [|unfold erase_at; rewrite Hp; by split].
  destruct (erase_at_fields e i p t Hp) as (E1 & E2 & E3 & E4 & _). split.
  - eapply list_ok_sublist; [apply erase_at_shrunk|done].
  - by eapply erase_at_round.
  - rewrite E1, E3, Hs. symmetry. by apply num_delete.
  - by apply erase_at_dangling.
  - intros Hex. rewrite E1, E2, E4, (Hc Hex). symmetry. by rewrite (num_delete _ _ _ _ Hp).
Qed.

Lemma erase_peer_ok ex e p t : policy_ok ex e t -> policy_ok ex e (erase_peer e p t).
Proof. intros Ht. unfold erase_peer. case_match; [by apply erase_at_ok|done]. Qed.

Lemma erase_loop_ok ex e n low rr ec fc t :
  policy_ok ex e t -> let '(t', _, _) := erase_loop e n low rr ec fc t in policy_ok ex e t' /\ shrunk t t'.
Proof.
  revert rr ec fc t. induction n as [|n IH]; intros rr ec fc t Ht; cbn [erase_loop]; [split; [done|apply shrunk_refl]|].
  destruct (_ <? low); [split; [done|apply shrunk_refl]|]. cbv zeta. destruct (m_peers t !! _) as [pe|]; [|split; [done|apply shrunk_refl]].
  destruct (_ && should_erase_immediately pe).
  - match goal with |- context [erase_loop e n low ?a ?b ?c ?t'] => specialize (IH a b c t' (erase_at_ok _ _ _ _ Ht)) end.
    destruct (erase_loop _ _ _ _ _ _ _) as [[t' ?] ?]. destruct IH as [H1 H2]. split; [done|]. eapply shrunk_trans; [apply erase_at_shrunk|done].
  - match goal with |- context [erase_loop e n low ?a ?b ?c ?t'] => specialize (IH a b c t' Ht) end. done.
Qed.

Lemma erase_peers_ok ex e random force t : policy_ok ex e t -> policy_ok ex e (erase_peers e random force t) /\ shrunk t (erase_peers e random force t).
Proof.
  intros Ht. unfold erase_peers. case_match; [split; [done|apply shrunk_refl]|].
  match goal with |- context [erase_loop e ?n ?l ?a ?b ?c ?t'] => pose proof (erase_loop_ok ex e n l a b c t' Ht) as H1 end.
  destruct (erase_loop _ _ _ _ _ _ _) as [[t' ec] fc]. destruct H1 as [H1 H2].
  destruct ec as [i|]; [|destruct fc as [i|]; [destruct force|]]; try done; (split; [by apply erase_at_ok|eapply shrunk_trans; [done|apply erase_at_shrunk]]).
Qed.

(** ** Changing one peer *)

Definition cand (e : env) (t : policy) (p : peer) : Z := Z.b2z (is_connect_candidate e p (m_finished t)).

Lemma change_peer ex e t i x y t' :
  policy_ok ex e t -> m_peers t !! i = Some x -> peer_endpoint y = peer_endpoint x -> ptr y = ptr x ->
  m_peers t' = <[i := y]> (m_peers t) -> m_round_robin t' = m_round_robin t -> m_finished t' = m_finished t -> picker t' = picker t ->
  m_num_seeds t' = m_num_seeds t - Z.b2z (seed x) + Z.b2z (seed y) ->
  (ex = true -> m_num_connect_candidates t' = m_num_connect_candidates t - cand e t x + cand e t y) -> policy_ok ex e t'.
Proof.
  intros [Hl Hr Hs Hd Hc] Hx He Hp E1 E2 E3 Epk E4 E5. destruct (update_endpoints i x y t Hx He Hp) as [U1 U2]. split.
  - eapply list_ok_same; [..|exact Hl]; unfold endpoints, ptrs in *; by rewrite E1.
  - rewrite E1, E2, length_insert. done.
  - rewrite E1, E4, Hs. symmetry. by apply num_update.
  - eapply no_dangling_same; [..|exact Hd]; [|done]. unfold ptrs in *. by rewrite E1.
  - intros Hex. rewrite E1, E3, (E5 Hex), (Hc Hex). symmetry. by rewrite (num_update _ _ _ _ _ Hx).
Qed.

Lemma find_ptr_some p l i x : find_ptr p l = Some (i, x) -> l !! i = Some x /\ ptr x = p.
Proof. intros E. apply list_find_Some in E as (Hk & Hy & _). done. Qed.

Lemma ptr_unique l i j x y : NoDup (ptr <$> l) -> l !! i = Some x -> l !! j = Some y -> ptr x = ptr y -> i = j.
Proof. intros Hn Hi Hj E. eapply (NoDup_lookup _ _ _ (ptr x)); [exact Hn|..]; rewrite list_lookup_fmap; [by rewrite Hi|by rewrite Hj, E]. Qed.

Lemma find_ptr_at p l i : NoDup (ptr <$> l) -> l !! i = Some p -> find_ptr (ptr p) l = Some (i, p).
Proof.
  intros Hn Hi. destruct (find_ptr (ptr p) l) as [[k y]|] eqn:E.
  - apply find_ptr_some in E as [Hk Hy]. pose proof (ptr_unique l k i y p Hn Hk Hi Hy) as ->. rewrite Hi in Hk. congruence.
  - apply list_find_None in E. rewrite Forall_forall in E. exfalso. eapply E; [|done]. by eapply list_elem_of_lookup_2.
Qed.

Lemma cand_connected e t p : connection p <> 0 -> cand e t p = 0.
Proof. intros Hc. unfold cand, is_connect_candidate. by rewrite (proj2 (Z.eqb_neq _ _)). Qed.

Lemma candidates_pos e t i x : policy_ok true e t -> m_peers t !! i = Some x -> cand e t x <= m_num_connect_candidates t.
Proof.
  intros [_ _ _ _ Hc] Hx. rewrite (Hc eq_refl). pose proof (num_delete (fun p => is_connect_candidate e p (m_finished t)) _ _ _ Hx) as E.
  pose proof (num_nonneg (fun p => is_connect_candidate e p (m_finished t)) (delete i (m_peers t))). cbv beta in E. unfold cand. lia.
Qed.

Lemma set_connection_ok ex e p c t : c <> 0 -> policy_ok ex e t -> policy_ok ex e (set_connection e p c t).
Proof.
  intros Hc Ht. unfold set_connection. destruct (find_ptr _ _) as [[i x]|] eqn:E; [|done]. apply find_ptr_some in E as [Hx Hp].
  assert (cand e t (set_conn c x) = 0) as E0 by (by apply cand_connected). cbv zeta.
  destruct (is_connect_candidate e x (m_finished t)) eqn:Ec; eapply (change_peer ex e t i x (set_conn c x)); fields; try done; try (cbn; lia);
    intros _; rewrite E0; unfold cand; rewrite Ec; cbn; lia.
Qed.

Lemma recount_eq e t x y t' :
  m_num_connect_candidates t' = m_num_connect_candidates t -> m_finished t' = m_finished t ->
  m_num_connect_candidates (recount (is_connect_candidate e x (m_finished t)) (is_connect_candidate e y (m_finished t)) t')
  = m_num_connect_candidates t - cand e t x + cand e t y.
Proof. intros E1 E2. unfold recount, cand. destruct (is_connect_candidate e x _), (is_connect_candidate e y _); fields; cbn; lia. Qed.

Lemma recount_fields b1 b2 t : m_peers (recount b1 b2 t) = m_peers t /\ m_round_robin (recount b1 b2 t) = m_round_robin t /\
  m_num_seeds (recount b1 b2 t) = m_num_seeds t /\ m_finished (recount b1 b2 t) = m_finished t /\
  picker (recount b1 b2 t) = picker t.
Proof. unfold recount. by case_match. Qed.

Lemma set_failcount_ok ex e p f t : policy_ok ex e t -> policy_ok ex e (set_failcount e p f t).
Proof.
  intros Ht. unfold set_failcount. destruct (find_ptr _ _) as [[i x]|] eqn:E; [|done]. apply find_ptr_some in E as [Hx Hp]. cbv zeta.
  match goal with |- policy_ok ex e (recount ?b1 ?b2 ?t') => destruct (recount_fields b1 b2 t') as (R1 & R2 & R3 & R4 & R5) end.
  eapply (change_peer ex e t i x (set_fails f x)); try done; [by rewrite R3; cbn; lia|]. intros _. by apply recount_eq.
Qed.

Lemma connection_closed_ok ex e c p also session_time t :
  policy_ok ex e t -> (forall i x, m_peers t !! i = Some x -> ptr x = p -> connection x <> 0) -> policy_ok ex e (connection_closed e c p also session_time t).
Proof.
  intros Ht Hconn. unfold connection_closed. destruct (find_ptr _ _) as [[i x]|] eqn:E; [|done]. apply find_ptr_some in E as [Hx Hp]. cbv zeta.
  set (y := if (failed e c || also) && _ then _ else _).
  assert (peer_endpoint y = peer_endpoint x /\ ptr y = ptr x /\ seed y = seed x) as (Y1 & Y2 & Y3) by (unfold y; repeat case_match; done).
  match goal with |- policy_ok ex e (if _ then erase_peer e y ?t' else ?t') => assert (policy_ok ex e t') as Ht' end.
  { assert (cand e t x = 0) as E0 by (apply cand_connected; by eapply Hconn). fields.
    destruct (is_connect_candidate e y (m_finished t)) eqn:Ec; eapply (change_peer ex e t i x y); fields; try done; try (rewrite Y3; lia);
      intros _; rewrite E0; unfold cand; rewrite Ec; cbn; lia. }
  destruct (allow_multiple_connections_per_ip e && _); [by apply erase_peer_ok|done].
Qed.

Lemma recalculate_ok ex e t : list_ok e t -> (m_round_robin t <= length (m_peers t))%nat -> m_num_seeds t = num seed (m_peers t) ->
  no_dangling t -> is_finished e <> m_finished t \/ policy_ok ex e t -> policy_ok ex e (recalculate_connect_candidates e t).
Proof.
  intros Hl Hr Hs Hd Hc. unfold recalculate_connect_candidates. destruct (Bool.eqb (is_finished e) (m_finished t)) eqn:E.
  - destruct Hc as [Hc|Hc]; [|done]. apply eqb_prop in E. done.
  - split; fields; [by apply (list_ok_peers e t)|done|done|by apply (no_dangling_same t)|]. intros _. by rewrite foldl_num.
Qed.

(** ** Adding a peer *)

Lemma absent_sublist e ep l l' : l' `sublist_of` l -> absent e ep l -> absent e ep l'.
Proof.
  intros Hs [H1 H2]. split.
  - intros Hin. apply H1. eapply elem_of_sublist; [exact Hin|]. by apply fmap_sublist.
  - intros Hm. specialize (H2 Hm). rewrite Forall_forall in *. intros p Hp. apply H2. by eapply elem_of_sublist.
Qed.

Lemma insert_at_ok ex e i p t t' :
  policy_ok ex e t -> ep_ok (peer_endpoint p) -> absent e (peer_endpoint p) (m_peers t) -> fits e (peer_endpoint p) i (m_peers t) -> ptr p ∉ ptrs t ->
  m_peers t' = m_peers (insert_at i p t) -> m_round_robin t' = m_round_robin (insert_at i p t) -> m_finished t' = m_finished t ->
  picker t' = picker t -> m_num_seeds t' = m_num_seeds t + Z.b2z (seed p) ->
  m_num_connect_candidates t' = m_num_connect_candidates t + cand e t p -> policy_ok ex e t'.
Proof.
  intros [Hl Hr Hs Hd Hc] Hep Hab Hfit Hptr E1 E2 E3 Epk E4 E5. pose proof Hfit as (Hi & _). split.
  - eapply list_ok_peers; [exact E1|]. by apply list_ok_insert.
  - rewrite E1, E2, insert_at_peers. rewrite length_app. cbn [length]. rewrite length_take, length_drop. unfold insert_at. fields. case_match; fields; lia.
  - rewrite E1, E4, Hs, insert_at_peers. symmetry. apply num_insert.
  - intros pk b Hpk Hb. rewrite Epk in Hpk. destruct (Hd pk b Hpk Hb) as [H0|Hin]; [by left|right]. unfold ptrs in *. rewrite E1, insert_at_peers.
    rewrite <- (take_drop i (m_peers t)), fmap_app, elem_of_app in Hin. rewrite fmap_app, fmap_cons, elem_of_app, elem_of_cons. tauto.
  - intros Hex. rewrite E1, E3, E5, (Hc Hex), insert_at_peers. symmetry. by rewrite num_insert.
Qed.

Lemma insert_peer_ok ex e random p iter fl t :
  policy_ok ex e t -> ep_ok (peer_endpoint p) -> absent e (peer_endpoint p) (m_peers t) -> fits e (peer_endpoint p) iter (m_peers t) ->
  ptr p ∉ ptrs t -> seed p = false -> policy_ok ex e (insert_peer e random p iter fl t).1.
Proof.
  intros Ht Hep Hab Hfit Hptr Hseed. unfold insert_peer. cbv zeta. destruct (_ && (source p =? src_resume_data)); [done|].
  assert (exists t1 i1, (if negb (peerlist_limit e =? 0) && (peerlist_limit e <=? Z.of_nat (length (m_peers t)))
    then (erase_peers e random false t, peers_lower_bound (peer_address p) (m_peers (erase_peers e random false t))) else (t, iter)) = (t1, i1) /\
    policy_ok ex e t1 /\ absent e (peer_endpoint p) (m_peers t1) /\ fits e (peer_endpoint p) i1 (m_peers t1) /\ (ptr p ∉ ptrs t1)) as (t1 & i1 & -> & Ht1 & Hab1 & Hfit1 & Hptr1).
  { case_match; [|by eexists _, _]. destruct (erase_peers_ok ex e random false t Ht) as [H1 [H2 _]]. eexists _, _. split; [done|].
    pose proof (absent_sublist e _ _ _ H2 Hab) as Hab'. destruct (list_ok_peers_sorted e _ (ok_list _ _ _ H1)) as [Hs Ha]. split_and!; [done|done|by apply lower_bound_fits|].
    intros Hin. apply Hptr. eapply elem_of_sublist; [exact Hin|]. by apply fmap_sublist. }
  destruct (negb _ && _); [done|].
  destruct (has_flag fl 2); cbn [fst].
  - rewrite insert_at_finished. fields. eapply (insert_at_ok ex e i1 (set_seed true p) t1); try done; case_match eqn:Ec; unfold insert_at, cand; fields;
      cbn [seed set_seed peer_endpoint]; rewrite ?Ec; repeat case_match; fields; cbn; done || lia.
  - rewrite insert_at_finished. eapply (insert_at_ok ex e i1 p t1); try done; case_match eqn:Ec; unfold insert_at, cand; fields;
      rewrite ?Hseed, ?Ec; repeat case_match; fields; cbn; done || lia.
Qed.
