(* ===== verification/PolicySteps.v ===== *)
(** * The operations on the peer list keep it consistent

    [policy_ok] (PolicyInv.v) through the operations that add peers, take
    connections in, drop filtered peers and choose the next peer to connect to. *)

From S2P Require Import Prelude Archive Md4Hash KadId IpFilter PiecePicker Policy PolicyInv.
From stdpp Require Import sorting.
Open Scope Z_scope.

(** ** Adding *)

Lemma at_least_zero_fields t :
  m_peers (at_least_zero t) = m_peers t /\ m_round_robin (at_least_zero t) = m_round_robin t /\ m_num_seeds (at_least_zero t) = m_num_seeds t /\
  m_finished (at_least_zero t) = m_finished t /\ picker (at_least_zero t) = picker t /\
  m_num_connect_candidates (at_least_zero t) = Z.max 0 (m_num_connect_candidates t).
Proof. unfold at_least_zero. destruct (Z.ltb_spec (m_num_connect_candidates t) 0); fields; split_and!; done || lia. Qed.

(** The counter after a peer has changed, cut off at 0. *)
Lemma settle_ok ex e t i x y s t1 :
  policy_ok ex e t -> m_peers t !! i = Some x -> peer_endpoint y = peer_endpoint x -> ptr y = ptr x ->
  s = m_num_seeds t - Z.b2z (seed x) + Z.b2z (seed y) -> t1 = with_peers (<[i := y]> (m_peers t)) (with_num_seeds s t) ->
  policy_ok ex e (if negb (Bool.eqb (is_connect_candidate e x (m_finished t)) (is_connect_candidate e y (m_finished t1)))
                  then at_least_zero (recount (is_connect_candidate e x (m_finished t)) (is_connect_candidate e y (m_finished t1)) t1) else t1).
Proof.
  intros Ht Hx He Hp Hs ->. fields.
  match goal with |- context [recount ?b1 ?b2 ?t'] => set (t2 := recount b1 b2 t'); destruct (recount_fields b1 b2 t') as (R1 & R2 & R3 & R4 & R5);
    pose proof (recount_eq e t x y t' eq_refl eq_refl) as R6 end. fold t2 in R1, R2, R3, R4, R5, R6.
  destruct (at_least_zero_fields t2) as (Z1 & Z2 & Z3 & Z4 & Z5 & Z6).
  destruct (Bool.eqb _ _) eqn:Eb; cbn [negb]; eapply (change_peer ex e t i x y); try done; fields; rewrite ?Z1, ?Z2, ?Z3, ?Z4, ?Z5, ?R1, ?R2, ?R3, ?R4, ?R5; try done.
  - intros _. unfold cand. apply eqb_prop in Eb as ->. lia.
  - intros ->. pose proof (candidates_pos e t i x Ht Hx). unfold t2 in *. assert (0 <= cand e t y) by (unfold cand; destruct (is_connect_candidate _ y _); cbn; lia). lia.
Qed.

Lemma update_peer_ok ex e i p src fl t : policy_ok ex e t -> m_peers t !! i = Some p -> policy_ok ex e (update_peer e i p src fl t).
Proof.
  intros Ht Hp. unfold update_peer. cbv zeta. set (y := if (0 <? _) && _ then _ else _).
  assert (peer_endpoint y = peer_endpoint p /\ ptr y = ptr p /\ seed y = seed p) as (Y1 & Y2 & Y3) by (unfold y; by case_match).
  destruct (has_flag fl 2 && _).
  - rewrite Y3. eapply (settle_ok ex e t i p (set_seed true y)); [done|done|done|done|reflexivity|].
    cbn [seed set_seed]. destruct t, (seed p); unfold with_peers, with_num_seeds; fields; f_equal; cbn; lia.
  - eapply (settle_ok ex e t i p y); [done|done|done|done|reflexivity|]. rewrite Y3. destruct t; unfold with_peers, with_num_seeds; fields; f_equal; lia.
Qed.

Lemma add_peer_ok ex e random new_ptr ep src fl t :
  policy_ok ex e t -> ep_ok ep -> (new_ptr ∉ ptrs t) -> policy_ok ex e (add_peer e random new_ptr ep src fl t).1.
Proof.
  intros Ht Hep Hptr. unfold add_peer. destruct (blocked e _); [done|]. destruct (find_peer e ep (m_peers t)) as [iter []] eqn:E.
  - destruct (m_peers t !! iter) as [p|] eqn:Hp; [|done]. by apply update_peer_ok.
  - destruct (list_ok_peers_sorted e t (ok_list _ _ _ Ht)) as [Hs Ha]. destruct (find_peer_absent e ep _ _ Hep Ha Hs E) as [Hab Hfit].
    pose proof (insert_peer_ok ex e random (peer_new new_ptr ep true src) iter fl t Ht Hep Hab Hfit Hptr eq_refl) as H.
    by destruct (insert_peer _ _ _ _ _ _) as [t' b].
Qed.

(** ** Connections *)

(** A peer takes a connection, and is no candidate any more. *)
Lemma take_connection_ok ex e t t2 c session_time p i x r :
  policy_ok ex e t -> c <> 0 -> m_peers t !! i = Some x -> ptr x = p ->
  t2 = (if is_connect_candidate e x (m_finished t) then at_least_zero (with_candidates (m_num_connect_candidates t - 1) t) else t) ->
  take_connection e c session_time p t2 = Some r -> policy_ok ex e r.1.
Proof.
  intros Ht Hc Hx Hp E2 Hr. set (t1 := with_candidates (m_num_connect_candidates t - 1) t) in *. destruct (at_least_zero_fields t1) as (Z1 & Z2 & Z3 & Z4 & Z5 & Z6).
  assert (m_peers t2 = m_peers t) as Ep by (subst t2; by case_match). unfold take_connection in Hr. rewrite Ep in Hr.
  rewrite <- Hp, (find_ptr_at x _ i (ok_ptrs _ _ (ok_list _ _ _ Ht)) Hx) in Hr. injection Hr as <-. cbn [fst].
  set (y := set_next 0 _). assert (peer_endpoint y = peer_endpoint x /\ ptr y = ptr x /\ seed y = seed x /\ connection y = c) as (Y1 & Y2 & Y3 & Y4)
    by (unfold y; by destruct (fast_reconnect e c)).
  assert (cand e t y = 0) as E0 by (apply cand_connected; congruence). pose proof (candidates_pos e t i x).
  eapply (change_peer ex e t i x y); fields; try done; subst t2; destruct (is_connect_candidate e x (m_finished t)) eqn:Ec; try done; try (rewrite ?Z3; rewrite Y3; cbn; lia).
  - intros ->. rewrite Z6, E0. specialize (H Ht Hx). unfold cand in *. rewrite Ec in *. cbn in *. lia.
  - intros _. rewrite E0. unfold cand. rewrite Ec. cbn. lia.
Qed.

Lemma closed_ok ex e t i x c also session_time :
  policy_ok ex e t -> m_peers t !! i = Some x -> connection x <> 0 -> policy_ok ex e (connection_closed e c (ptr x) also session_time t).
Proof.
  intros Ht Hx Hc. apply connection_closed_ok; [done|]. intros j y Hy Ey.
  pose proof (ptr_unique _ _ _ _ _ (ok_ptrs _ _ (ok_list _ _ _ Ht)) Hy Hx Ey) as ->. congruence.
Qed.

Lemma new_connection_ok ex e new_ptr c remote local found session_time t r :
  policy_ok ex e t -> c <> 0 -> ep_ok remote -> (new_ptr ∉ ptrs t) ->
  new_connection e new_ptr c remote local found session_time t = Some r -> policy_ok ex e r.1.
Proof.
  intros Ht Hc Hep Hptr. unfold new_connection. destruct (find_peer e remote (m_peers t)) as [iter []] eqn:E.
  - destruct (m_peers t !! iter) as [x|] eqn:Hx; [|done].
    assert (forall t1, policy_ok ex e t1 -> match find_ptr (ptr x) (m_peers t1) with None => None | Some (_, y) =>
        take_connection e c session_time (ptr x) (if is_connect_candidate e y (m_finished t1)
          then at_least_zero (with_candidates (m_num_connect_candidates t1 - 1) t1) else t1) end = Some r -> policy_ok ex e r.1) as Hfound.
    { intros t1 Ht1. destruct (find_ptr (ptr x) (m_peers t1)) as [[j y]|] eqn:Ej; [|done]. apply find_ptr_some in Ej as [Hj Ey].
      by eapply take_connection_ok. }
    destruct (Z.eqb_spec (connection x) 0) as [E0|E0]; [by apply Hfound|].
    pose proof (fun also => closed_ok ex e t iter x (connection x) also session_time Ht Hx E0) as Hcl.
    destruct found; try (by intros [= <-]); try (by apply Hfound, Hcl); [by intros [= <-]; apply (Hcl true)|].
    destruct local; [by intros [= <-]|by apply Hfound, Hcl].
  - destruct (_ <=? _); [by intros [= <-]|]. destruct (list_ok_peers_sorted e t (ok_list _ _ _ Ht)) as [Hs Ha].
    destruct (find_peer_absent e remote _ _ Hep Ha Hs E) as [Hab Hfit]. set (p := set_source _ _). set (t1 := insert_at iter p t).
    assert (policy_ok ex e t1) as Ht1.
    { eapply (insert_at_ok ex e iter p t t1); try done; unfold t1, insert_at; case_match; fields; unfold cand; cbn; rewrite ?orb_true_r; cbn; try lia; done. }
    destruct (find_ptr new_ptr (m_peers t1)) as [[j y]|] eqn:Ej; [|unfold take_connection; by rewrite Ej]. pose proof Ej as [Hj Ey]%find_ptr_some.
    assert (y = p) as ->.
    { assert (m_peers t1 !! iter = Some p) as Hp.
      { unfold t1. rewrite insert_at_peers, lookup_app_r; rewrite length_take_le by (apply Hfit); [by rewrite Nat.sub_diag|done]. }
      pose proof (ptr_unique _ _ _ _ _ (ok_ptrs _ _ (ok_list _ _ _ Ht1)) Hj Hp Ey) as ->. congruence. }
    eapply (take_connection_ok ex e t1 t1); done.
Qed.

(** ** Filtered peers *)

Lemma find_endpoint_at e t i x : list_ok e t -> m_peers t !! i = Some x -> find_endpoint (peer_endpoint x) (m_peers t) = Some i.
Proof.
  intros Hl Hx. destruct (list_ok_peers_sorted e t Hl) as [Hs Ha]. destruct (find_endpoint _ _) as [j|] eqn:E.
  - apply find_endpoint_some in E as (y & Hy & Ey). f_equal. eapply (NoDup_lookup _ _ _ (peer_endpoint x)); [apply (ok_endpoints _ _ Hl)|..]; unfold endpoints;
      rewrite list_lookup_fmap; [by rewrite Hy, <- Ey|by rewrite Hx].
  - apply find_endpoint_none in E; [|exact (Forall_lookup_1 _ _ _ _ Ha Hx)|done..]. destruct E. apply list_elem_of_fmap. exists x. split; [done|].
    by eapply list_elem_of_lookup_2.
Qed.

Lemma fmap_delete_at {A B} (f : A -> B) (l : list A) (i : nat) : f <$> delete i l = delete i (f <$> l).
Proof. revert i. induction l as [|x l IH]; intros [|i]; cbn; [done..|]. f_equal. apply IH. Qed.

Lemma erase_at_endpoints e i x t : m_peers t !! i = Some x -> endpoints (erase_at e i t) = delete i (endpoints t).
Proof. intros Hx. unfold endpoints. destruct (erase_at_fields e i x t Hx) as (-> & _). apply fmap_delete_at. Qed.

(** Closing a connection keeps the peer, or drops it. *)
Lemma closed_endpoints e t i x c also session_time :
  list_ok e t -> m_peers t !! i = Some x ->
  endpoints (connection_closed e c (ptr x) also session_time t)
  = if allow_multiple_connections_per_ip e && negb (connectable x) then delete i (endpoints t) else endpoints t.
Proof.
  intros Hl Hx. unfold connection_closed. rewrite (find_ptr_at x _ i (ok_ptrs _ _ Hl) Hx). cbv zeta. set (y := if (failed e c || also) && _ then _ else _).
  assert (peer_endpoint y = peer_endpoint x /\ ptr y = ptr x /\ connectable y = connectable x) as (Y1 & Y2 & Y3) by (unfold y; repeat case_match; done).
  rewrite Y3. match goal with |- context [erase_peer e y ?t'] => set (t1 := t'); assert (m_peers t1 = <[i := y]> (m_peers t)) as E1 by (unfold t1; by case_match) end.
  pose proof (lookup_lt_Some _ _ _ Hx). destruct (update_endpoints i x y t Hx Y1 Y2) as [U1 U2].
  assert (endpoints t1 = endpoints t) as E2 by (unfold endpoints at 1; by rewrite E1). assert (m_peers t1 !! i = Some y) as Hy by (rewrite E1; by apply list_lookup_insert_eq).
  assert (list_ok e t1) as Hl1 by (apply (list_ok_same e t); [done|unfold ptrs at 1; by rewrite E1|done]).
  destruct (allow_multiple_connections_per_ip e && negb (connectable x)); [|exact E2]. unfold erase_peer. rewrite (find_endpoint_at e t1 i y Hl1 Hy), (erase_at_endpoints e i y t1 Hy). by rewrite E2.
Qed.

Definition allowed (e : env) (ep : tcp_endpoint) : Prop := blocked e (ep_address ep) = false.

#[global] Instance allowed_dec e ep : Decision (allowed e ep).
Proof. unfold allowed. apply _. Defined.

Lemma length_endpoints t : length (endpoints t) = length (m_peers t).
Proof. apply length_fmap. Qed.

Lemma filter_loop_ok ex e fuel session_time i t :
  policy_ok ex e t -> (length (m_peers t) - i < fuel)%nat ->
  policy_ok ex e (filter_loop e fuel session_time i t) /\
  endpoints (filter_loop e fuel session_time i t) = take i (endpoints t) ++ filter (allowed e) (drop i (endpoints t)).
Proof.
  revert i t. induction fuel as [|fuel IH]; intros i t Ht Hfuel; [lia|]. cbn [filter_loop]. destruct (m_peers t !! i) as [p|] eqn:Hp.
  2: { apply lookup_ge_None in Hp. rewrite <- length_endpoints in Hp. rewrite take_ge, drop_ge by done. by rewrite filter_nil, app_nil_r. }
  pose proof (lookup_lt_Some _ _ _ Hp) as Hi. assert (endpoints t !! i = Some (peer_endpoint p)) as Hep by (unfold endpoints; by rewrite list_lookup_fmap, Hp).
  rewrite (drop_S _ _ _ Hep). unfold peer_address. destruct (blocked e (ep_address (peer_endpoint p))) eqn:Eb; cbn [negb].
  - rewrite filter_cons_False by (unfold allowed; congruence).
    assert (forall t', policy_ok ex e t' -> endpoints t' = delete i (endpoints t) ->
      policy_ok ex e (filter_loop e fuel session_time i t') /\
      endpoints (filter_loop e fuel session_time i t') = take i (endpoints t) ++ filter (allowed e) (drop (S i) (endpoints t))) as Hgone.
    { intros t' Ht' E'. pose proof (f_equal length E') as El. rewrite length_delete, !length_endpoints in El by done. destruct (IH i t' Ht') as [H1 H2]; [lia|]. split; [done|].
      rewrite H2, E', delete_take_drop. rewrite take_app_le, drop_app_ge by (rewrite length_take, length_endpoints; lia). rewrite take_take, length_take, length_endpoints.
      rewrite !Nat.min_l by lia. by rewrite Nat.sub_diag. }
    destruct (Z.eqb_spec (connection p) 0) as [E0|E0].
    + rewrite Nat.ltb_irrefl. apply Hgone; [by apply erase_at_ok|by apply (erase_at_endpoints e i p)].
    + pose proof (closed_ok ex e t i p (connection p) false session_time Ht Hp E0) as Hc.
      pose proof (closed_endpoints e t i p (connection p) false session_time (ok_list _ _ _ Ht) Hp) as Ee. set (t' := connection_closed _ _ _ _ _ _) in *.
      pose proof (f_equal length Ee) as El. rewrite length_endpoints in El. destruct (_ && _).
      * rewrite length_delete, length_endpoints in El by done. rewrite (proj2 (Nat.ltb_lt _ _)) by lia. by apply Hgone.
      * rewrite length_endpoints in El. rewrite (proj2 (Nat.ltb_ge _ _)) by lia.
        assert (endpoints t' !! i = Some (peer_endpoint p)) as Hep' by (by rewrite Ee). unfold endpoints in Hep'. rewrite list_lookup_fmap in Hep'.
        destruct (m_peers t' !! i) as [p'|] eqn:Hp'; [|done]. apply Hgone; [by apply erase_at_ok|]. by rewrite (erase_at_endpoints e i p' t' Hp'), Ee.
  - destruct (IH (S i) t Ht) as [H1 H2]; [lia|]. split; [done|]. rewrite H2, (take_S_r _ _ _ Hep), <- app_assoc. rewrite filter_cons_True by done. done.
Qed.
