(* ===== verification/PolicyConnect.v ===== *)
(** * The next peer to connect to

    [find_connect_candidate] (Policy.v) chooses a peer that may be connected to,
    and no worse than any other; the operations of the peer list as steps. *)

From S2P Require Import Prelude Archive Md4Hash KadId IpFilter PiecePicker Policy PolicyInv PolicySteps.
From stdpp Require Import sorting.
Open Scope Z_scope.

(** ** The orders of peers are orders by keys *)

Fixpoint lex_ltb (k1 k2 : list Z) : bool :=
  match k1, k2 with
  | x :: k1, y :: k2 => if negb (x =? y) then x <? y else lex_ltb k1 k2
  | _, _ => false
  end.

Lemma lex_ltb_asym k1 k2 : lex_ltb k1 k2 = true -> lex_ltb k2 k1 = false.
Proof.
  revert k2. induction k1 as [|x k1 IH]; intros [|y k2]; cbn; try done. rewrite (Z.eqb_sym y x).
  destruct (Z.eqb_spec x y); cbn; [apply IH|]. rewrite Z.ltb_lt, Z.ltb_ge. lia.
Qed.

(** What is not better than something no better is no better. *)
Lemma lex_ltb_trans k1 k2 k3 : length k1 = length k2 -> length k2 = length k3 ->
  lex_ltb k1 k2 = false -> lex_ltb k2 k3 = false -> lex_ltb k1 k3 = false.
Proof.
  revert k2 k3. induction k1 as [|x k1 IH]; intros [|y k2] [|z k3]; cbn; try done. intros [= H1] [= H2].
  destruct (Z.eqb_spec x y), (Z.eqb_spec y z), (Z.eqb_spec x z); subst; cbn; rewrite ?Z.ltb_ge; try lia; try done; by apply IH.
Qed.

Definition connect_key (p : peer) : list Z :=
  [failcount p; Z.b2z (negb (is_local (peer_address p))); last_connected p; next_connect p; - source_rank (source p)].
Definition erase_key (p : peer) : list Z :=
  [- failcount p; Z.b2z (negb (source p =? src_resume_data)); Z.b2z (connectable p); trust_points p].

Lemma neg_eqb a b : (- a =? - b) = (a =? b).
Proof. destruct (Z.eqb_spec a b), (Z.eqb_spec (- a) (- b)); done || lia. Qed.

Lemma neg_ltb a b : (- a <? - b) = (b <? a).
Proof. destruct (Z.ltb_spec b a), (Z.ltb_spec (- a) (- b)); done || lia. Qed.

Lemma compare_peer_key lhs rhs : compare_peer lhs rhs = lex_ltb (connect_key lhs) (connect_key rhs).
Proof.
  unfold compare_peer, connect_key. cbn [lex_ltb]. rewrite neg_eqb, neg_ltb. destruct (_ =? _); cbn [negb]; [|done].
  destruct (is_local (peer_address lhs)), (is_local (peer_address rhs)); cbn; done.
Qed.

Lemma compare_peer_erase_key lhs rhs : compare_peer_erase lhs rhs = lex_ltb (erase_key lhs) (erase_key rhs).
Proof.
  unfold compare_peer_erase, erase_key. cbn [lex_ltb]. rewrite neg_eqb, neg_ltb. destruct (_ =? _); cbn [negb]; [|done].
  destruct (source lhs =? _), (source rhs =? _), (connectable lhs), (connectable rhs); cbn; try done;
    destruct (Z.eqb_spec (trust_points lhs) (trust_points rhs)) as [E|E]; cbn; try done; rewrite E; apply Z.ltb_irrefl.
Qed.

Lemma compare_peer_trans p q r : compare_peer p q = false -> compare_peer q r = false -> compare_peer p r = false.
Proof. rewrite !compare_peer_key. by apply lex_ltb_trans. Qed.

Lemma compare_peer_asym p q : compare_peer p q = true -> compare_peer q p = false.
Proof. rewrite !compare_peer_key. apply lex_ltb_asym. Qed.

Lemma compare_peer_irrefl p : compare_peer p p = false.
Proof. destruct (compare_peer p p) eqn:E; [|done]. by rewrite (compare_peer_asym _ _ E) in E. Qed.

(** ** The walk around the list *)

Definition rot {A} (r : nat) (l : list A) : list A := drop r l ++ take r l.

Lemma rot_cons {A} r (l : list A) x : l !! r = Some x -> rot r l = x :: drop (S r) l ++ take r l.
Proof. intros H. unfold rot. by rewrite (drop_S _ _ _ H). Qed.

Lemma rot_next {A} r (l : list A) x : l !! r = Some x -> rot (S r) l = (drop (S r) l ++ take r l) ++ [x].
Proof. intros H. unfold rot. rewrite (take_S_r _ _ _ H). by rewrite app_assoc. Qed.

Lemma rot_delete {A} r (l : list A) : (r < length l)%nat -> rot r (delete r l) = drop (S r) l ++ take r l.
Proof.
  intros H. unfold rot. rewrite delete_take_drop. rewrite drop_app_ge, take_app_le by (rewrite length_take; lia). rewrite length_take, take_take, !Nat.min_l by lia.
  by rewrite Nat.sub_diag.
Qed.

Lemma rot_elem {A} r (l : list A) x : x ∈ rot r l <-> x ∈ l.
Proof. unfold rot. rewrite <- (take_drop r l) at 3. rewrite !elem_of_app. tauto. Qed.

Lemma rot_length {A} r (l : list A) : length (rot r l) = length l.
Proof. unfold rot. rewrite length_app, length_take, length_drop. lia. Qed.

Lemma lookup_moved {A} (l : list A) i k x :
  l !! k = Some x -> k <> i -> delete i l !! (if (i <? k)%nat then (k - 1)%nat else k) = Some x.
Proof.
  intros Hk Hne. destruct (Nat.ltb_spec i k).
  - rewrite list_lookup_delete_ge by lia. by replace (S (k - 1)) with k by lia.
  - rewrite list_lookup_delete_lt by lia. done.
Qed.

(** A peer that can be tried now. *)
Definition eligible (e : env) (session_time : Z) (finished : bool) (p : peer) : bool :=
  is_connect_candidate e p finished && may_try e session_time p.

Section Walk.
Context (ex all : bool) (e : env) (session_time : Z) (t0 : policy).
Let elig := eligible e session_time (m_finished t0).

(** An index points to a peer already seen. *)
Definition points (idx : option nat) (l seen : list peer) (P : peer -> Prop) : Prop :=
  forall k, idx = Some k -> exists p, l !! k = Some p /\ p ∈ seen /\ P p.

Definition as_good (seen : list peer) (c : peer) : Prop := elig c = true /\ (all = true -> Forall (fun p => elig p = true -> compare_peer p c = false) seen).

Definition seen_by (n : nat) (t : policy) : list peer := drop n (rot (m_round_robin t) (m_peers t)).

(** The state of the loop with [n] turns left. *)
Record walk (n : nat) (candidate erase_candidate : option nat) (t : policy) : Prop := {
  w_ok : policy_ok ex e t;
  w_n : (n <= length (m_peers t))%nat;
  w_finished : m_finished t = m_finished t0;
  w_kept : forall p, p ∈ m_peers t0 -> is_connect_candidate e p (m_finished t0) = true -> exists q, q ∈ m_peers t /\ set_added true q = set_added true p;
  w_candidate : points candidate (m_peers t) (seen_by n t) (as_good (seen_by n t));
  w_none : candidate = None -> all = true -> Forall (fun p => elig p = false) (seen_by n t);
  w_erase : points erase_candidate (m_peers t) (seen_by n t) (fun p => is_erase_candidate e p (m_finished t0) = true)
}.

Lemma erase_not_candidate p f : is_erase_candidate e p f = true -> is_connect_candidate e p f = false.
Proof. unfold is_erase_candidate. case_match; [done|]. by case_match. Qed.

Lemma walk_reset n c ec t : walk n c ec t -> walk n c ec (if (length (m_peers t) <=? m_round_robin t)%nat then with_round_robin 0 t else t).
Proof.
  intros Hw. destruct (Nat.leb_spec (length (m_peers t)) (m_round_robin t)) as [Hle|]; [|done]. destruct Hw as [Ht H1 H2 H3 H4 H5 H6].
  assert (seen_by n (with_round_robin 0 t) = seen_by n t) as Es.
  { unfold seen_by, rot. fields. rewrite (drop_ge _ (m_round_robin t)), (take_ge _ (m_round_robin t)) by done. by rewrite app_nil_r. }
  split; rewrite ?Es; try done. destruct Ht as [[] ? ? ? ?]. split; fields; try done. cbn. lia.
Qed.

(** The seen peers, and the current one which is not among them. *)
Lemma walk_current n c ec t pe :
  walk (S n) c ec t -> m_peers t !! m_round_robin t = Some pe ->
  let tl := drop (S (m_round_robin t)) (m_peers t) ++ take (m_round_robin t) (m_peers t) in
  seen_by (S n) t = drop n tl /\ (n <= length tl)%nat /\ (pe ∉ drop n tl).
Proof.
  intros [Ht H1 _ _ _ _ _] Hpe tl. pose proof (rot_cons _ _ _ Hpe) as Er. fold tl in Er. unfold seen_by. rewrite Er. cbn [drop]. split_and!; [done|..].
  - pose proof (rot_length (m_round_robin t) (m_peers t)) as El. rewrite Er in El. cbn in El. lia.
  - intros Hin. assert (NoDup (rot (m_round_robin t) (m_peers t))) as Hn.
    { unfold rot. rewrite (Permutation_app_comm _ _), take_drop. apply (NoDup_fmap_1 ptr). apply (ok_ptrs _ _ (ok_list _ _ _ Ht)). }
    rewrite Er in Hn. inversion_clear Hn as [|? ? Hnin _]. apply Hnin. eapply elem_of_sublist; [exact Hin|apply sublist_drop].
Qed.

Lemma points_ne idx l seen (P : peer -> Prop) r pe k : points idx l seen P -> l !! r = Some pe -> (pe ∉ seen) -> idx = Some k -> k <> r.
Proof. intros Hp Hr Hn E ->. destruct (Hp r E) as (p & Hl & Hin & _). by simplify_eq. Qed.

Lemma walk_ping n c ec t pe :
  walk (S n) c ec t -> m_peers t !! m_round_robin t = Some pe -> walk (S n) c ec (with_peers (<[m_round_robin t := set_added true pe]> (m_peers t)) t).
Proof.
  intros Hw Hpe. destruct (walk_current n c ec t pe Hw Hpe) as (Es & Hn & Hnin). destruct Hw as [Ht H1 H2 H3 H4 H5 H6].
  pose proof (lookup_lt_Some _ _ _ Hpe) as Hr. set (t' := with_peers _ t). rewrite Es in *.
  assert (seen_by (S n) t' = seen_by (S n) t) as Es'.
  { rewrite Es. unfold seen_by, t'. fields. rewrite (rot_cons _ _ (set_added true pe)) by (by apply list_lookup_insert_eq). cbn [drop].
    by rewrite drop_insert_lt, take_insert_ge by lia. }
  assert (forall idx P, points idx (m_peers t) (seen_by (S n) t) P -> points idx (m_peers t') (seen_by (S n) t) P) as Hpt.
  { intros idx P Hp k Hk. rewrite Es in *. pose proof (points_ne _ _ _ _ _ _ _ Hp Hpe Hnin Hk) as Hne. destruct (Hp k Hk) as (p & Hl & Hin & HP). exists p.
    unfold t'. fields. by rewrite list_lookup_insert_ne by done. }
  split; rewrite ?Es', ?Es; try done.
  - eapply (change_peer ex e t _ pe (set_added true pe)); try done; unfold t'; fields; cbn; try lia. intros _. change (cand e t (set_added true pe)) with (cand e t pe). lia.
  - unfold t'. fields. by rewrite length_insert.
  - intros p Hp Hc. destruct (H3 p Hp Hc) as (q & Hq & Eq). apply list_elem_of_lookup in Hq as (j & Hj). destruct (decide (j = m_round_robin t)) as [->|Hj'].
    + exists (set_added true pe). assert (q = pe) as -> by congruence. split; [|exact Eq]. apply (list_elem_of_lookup_2 _ (m_round_robin t)). unfold t'. fields. by apply list_lookup_insert_eq.
    + exists q. split; [|done]. apply (list_elem_of_lookup_2 _ j). unfold t'. fields. by rewrite list_lookup_insert_ne.
  - rewrite <- Es. apply Hpt. by rewrite Es.
  - rewrite <- Es. apply Hpt. by rewrite Es.
Qed.

Lemma walk_erased n c ec t pe :
  walk (S n) c ec t -> m_peers t !! m_round_robin t = Some pe -> is_erase_candidate e pe (m_finished t) = true ->
  walk n (moved c (m_round_robin t)) (moved ec (m_round_robin t)) (erase_at e (m_round_robin t) t).
Proof.
  intros Hw Hpe He. destruct (walk_current n c ec t pe Hw Hpe) as (Es & Hn & Hnin). destruct Hw as [Ht H1 H2 H3 H4 H5 H6].
  pose proof (lookup_lt_Some _ _ _ Hpe) as Hr. set (r := m_round_robin t) in *. set (t' := erase_at e r t).
  destruct (erase_at_fields e r pe t Hpe) as (E1 & E2 & _).
  assert (m_round_robin t' = r) as Err.
  { unfold t', erase_at. rewrite Hpe. fields. fold r. destruct (seed pe); fields; (destruct (is_connect_candidate e pe (m_finished t)); fields);
      fold r; rewrite Nat.ltb_irrefl; fields; fold r; by rewrite (proj2 (Nat.leb_gt _ _)) by lia. }
  assert (seen_by n t' = seen_by (S n) t) as Es'.
  { rewrite Es. unfold seen_by. rewrite Err. unfold t'. rewrite E1. by rewrite rot_delete. }
  assert (forall idx P, points idx (m_peers t) (seen_by (S n) t) P -> points (moved idx r) (m_peers t') (seen_by (S n) t) P) as Hpt.
  { intros idx P Hp k Hk. rewrite Es in *. destruct idx as [k0|]; [|done]. injection Hk as <-. pose proof (points_ne _ _ _ _ _ _ _ Hp Hpe Hnin eq_refl) as Hne.
    destruct (Hp k0 eq_refl) as (p & Hl & Hin & HP). exists p. unfold t'. rewrite E1. by rewrite (lookup_moved _ _ _ _ Hl Hne). }
  split; rewrite ?Es'; try done.
  - by apply erase_at_ok.
  - unfold t'. rewrite E1, length_delete by done. lia.
  - unfold t'. congruence.
  - intros p Hp Hc. destruct (H3 p Hp Hc) as (q & Hq & Eq). exists q. split; [|done]. unfold t'. rewrite E1.
    rewrite <- (take_drop_middle _ _ _ Hpe) in Hq. rewrite delete_take_drop, elem_of_app. apply elem_of_app in Hq as [Hq|Hq]; [by left|right].
    apply elem_of_cons in Hq as [->|Hq]; [|done]. exfalso. apply erase_not_candidate in He. rewrite H2 in He.
    change (is_connect_candidate e (set_added true pe) (m_finished t0) = false) in He. rewrite Eq in He. change (is_connect_candidate e p (m_finished t0) = false) in He. congruence.
  - by apply Hpt.
  - intros E. apply H5. by destruct c.
  - by apply Hpt.
Qed.

(** The loop passes the current peer; the candidate after it. *)
Lemma walk_advance n c ec ec' t pe :
  walk (S n) c ec t -> m_peers t !! m_round_robin t = Some pe ->
  ec' = ec \/ (ec' = Some (m_round_robin t) /\ is_erase_candidate e pe (m_finished t) = true) ->
  walk n (if is_connect_candidate e pe (m_finished t) && better c compare_peer (m_peers t) pe && may_try e session_time pe
          then Some (m_round_robin t) else c) ec' (with_round_robin (S (m_round_robin t)) t).
Proof.
  intros Hw Hpe Hec. destruct (walk_current n c ec t pe Hw Hpe) as (Es & Hn & Hnin). destruct Hw as [Ht H1 H2 H3 H4 H5 H6].
  pose proof (lookup_lt_Some _ _ _ Hpe) as Hr. set (r := m_round_robin t) in *. set (t' := with_round_robin _ _).
  assert (seen_by n t' = seen_by (S n) t ++ [pe]) as Es'.
  { rewrite Es. unfold seen_by, t'. fields. rewrite (rot_next _ _ _ Hpe). by rewrite drop_app_le by done. }
  assert (elig pe = is_connect_candidate e pe (m_finished t) && may_try e session_time pe) as Eel by (unfold elig, eligible; by rewrite H2).
  assert (forall idx P Q, points idx (m_peers t) (seen_by (S n) t) P -> (forall p, P p -> Q p) -> points idx (m_peers t') (seen_by (S n) t ++ [pe]) Q) as Hold.
  { intros idx P Q Hp HPQ k Hk. destruct (Hp k Hk) as (p & Hl & Hin & HP). exists p. split_and!; [done|apply elem_of_app; by left|by apply HPQ]. }
  assert (pe ∈ seen_by (S n) t ++ [pe]) as Hin by (apply elem_of_app; right; by left).
  split; rewrite ?Es'; try done.
  - destruct Ht as [[] ? ? ? ?]. split; fields; done.
  - unfold t'. fields. lia.
  - destruct (is_connect_candidate e pe (m_finished t) && better c compare_peer (m_peers t) pe && may_try e session_time pe) eqn:Eb.
    + apply andb_prop in Eb as [[Ec Eb]%andb_prop Em]. rewrite Ec, Em in Eel. intros k [= <-]. exists pe. split_and!; [done..|]. split; [done|]. intros Hall.
      apply Forall_app. split; [|constructor; [|constructor]; intros _; apply compare_peer_irrefl]. destruct c as [k|].
      * destruct (H4 k eq_refl) as (q & Hq & _ & _ & Hg). cbn in Eb. rewrite Hq in Eb. apply negb_true_iff in Eb. specialize (Hg Hall).
        eapply Forall_impl; [exact Hg|]. intros p Hp Hep. eapply compare_peer_trans; [by apply Hp|done].
      * eapply Forall_impl; [by apply H5|]. cbn. congruence.
    + intros k ->. destruct (H4 k eq_refl) as (q & Hq & Hqs & Hqe & Hg). exists q. split_and!; [done|apply elem_of_app; by left|]. split; [done|]. intros Hall.
      apply Forall_app. split; [by apply Hg|]. constructor; [|constructor]. rewrite Eel. intros [Ec Em]%andb_prop. rewrite Ec, Em, andb_true_r in Eb. cbn in Eb.
      rewrite Hq in Eb. apply negb_false_iff in Eb. by apply compare_peer_asym.
  - case_match eqn:Eb; [done|]. intros -> Hall. apply Forall_app. split; [by apply H5|]. constructor; [|constructor]. cbn in Eb. rewrite Eel.
    by rewrite andb_true_r in Eb.
  - destruct Hec as [->|[-> He]]; [by eapply Hold|]. intros k [= <-]. exists pe. rewrite H2 in He. done.
Qed.

Lemma candidate_loop_walk n pinged c ec t :
  walk n c ec t -> let '(t', c', ec') := candidate_loop e n session_time pinged c ec t in walk 0 c' ec' t'.
Proof.
  revert pinged c ec t. induction n as [|n IH]; intros pinged c ec t Hw; [done|]. cbn [candidate_loop]. cbv zeta. apply walk_reset in Hw.
  assert (m_round_robin (if (length (m_peers t) <=? m_round_robin t)%nat then with_round_robin 0 t else t) <
          length (m_peers (if (length (m_peers t) <=? m_round_robin t)%nat then with_round_robin 0 t else t)))%nat as Hr.
  { pose proof (w_n _ _ _ _ Hw) as Hn. destruct (Nat.leb_spec (length (m_peers t)) (m_round_robin t)); fields; cbn in Hn; lia. }
  set (t1 := if (length (m_peers t) <=? m_round_robin t)%nat then _ else t) in *. clearbody t1. clear t. rename t1 into t.
  destruct (lookup_lt_is_Some_2 _ _ Hr) as [pe Hpe]. rewrite Hpe.
  assert (exists pe' t', (if negb pinged && negb (added_to_dht pe)
      then (set_added true pe, with_peers (<[m_round_robin t := set_added true pe]> (m_peers t)) t) else (pe, t)) = (pe', t') /\
    walk (S n) c ec t' /\ m_peers t' !! m_round_robin t' = Some pe' /\ m_round_robin t' = m_round_robin t) as (pe' & t' & -> & Hw' & Hpe' & Er).
  { case_match; eexists _, _; (split; [done|]); split_and!; try done; [by apply walk_ping|]. fields. by apply list_lookup_insert_eq. }
  rewrite <- Er. match goal with |- context [if (?b && should_erase_immediately pe') then _ else _] => destruct b eqn:Eb end.
  - apply andb_prop in Eb as [[_ He]%andb_prop _]. destruct (should_erase_immediately pe'); cbn [andb].
    + by apply IH, (walk_erased _ _ _ _ pe').
    + apply IH. exact (walk_advance n c ec _ t' pe' Hw' Hpe' (or_intror (conj eq_refl He))).
  - cbn [andb]. apply IH. exact (walk_advance n c ec _ t' pe' Hw' Hpe' (or_introl eq_refl)).
Qed.
End Walk.

(** The policy after the choice and the peer chosen: it may be tried, it is still
    in the list, and when the walk reaches all peers no other that may be tried is
    better; nothing that could be tried is lost. *)
Lemma find_connect_candidate_best ex e session_time t :
  policy_ok ex e t ->
  let '(t', candidate) := find_connect_candidate e session_time t in
  let elig := eligible e session_time (m_finished t) in
  policy_ok ex e t' /\ m_finished t' = m_finished t /\
  match candidate with
  | Some i => exists c, m_peers t' !! i = Some c /\ elig c = true /\
      ((length (m_peers t) <= 300)%nat -> forall p, p ∈ m_peers t -> elig p = true -> compare_peer p c = false)
  | None => (length (m_peers t) <= 300)%nat -> forall p, p ∈ m_peers t -> elig p = false
  end.
Proof.
  intros Ht. unfold find_connect_candidate. cbv zeta. set (all := (length (m_peers t) <=? 300)%nat).
  assert (walk ex all e session_time t (Nat.min (length (m_peers t)) 300) None None t) as Hw.
  { split; try done; [lia|intros p Hp _; by exists p|]. intros _ Hall. apply Nat.leb_le in Hall. unfold seen_by. rewrite drop_ge; [constructor|]. rewrite rot_length. lia. }
  apply walk_reset in Hw. set (t1 := if (length (m_peers t) <=? m_round_robin t)%nat then _ else t) in *.
  assert (m_peers t1 = m_peers t) as -> by (unfold t1; by case_match).
  apply (candidate_loop_walk ex all e session_time t _ false) in Hw. destruct (candidate_loop _ _ _ _ _ _ _) as [[t2 c] ec].
  assert (policy_ok ex e t2 /\ m_finished t2 = m_finished t /\ match c with
    | Some i => exists x, m_peers t2 !! i = Some x /\ eligible e session_time (m_finished t) x = true /\
        ((length (m_peers t) <= 300)%nat -> forall p, p ∈ m_peers t -> eligible e session_time (m_finished t) p = true -> compare_peer p x = false)
    | None => (length (m_peers t) <= 300)%nat -> forall p, p ∈ m_peers t -> eligible e session_time (m_finished t) p = false end) as (H1 & H2 & H3).
  { destruct Hw as [Hok _ Hf Hk Hc Hn _]. split_and!; [done..|].
    assert (forall p, p ∈ m_peers t -> eligible e session_time (m_finished t) p = true -> exists q, q ∈ seen_by 0 t2 /\ set_added true q = set_added true p) as Hall.
    { intros p Hp Hel. apply andb_prop in Hel as [Hel _]. destruct (Hk p Hp Hel) as (q & Hq & Eq). exists q. split; [|done]. unfold seen_by. rewrite drop_0. by apply rot_elem. }
    destruct c as [k|].
    - destruct (Hc k eq_refl) as (x & Hx & _ & Hel & Hg). exists x. split_and!; [done..|]. intros H300 p Hp Hpe. destruct (Hall p Hp Hpe) as (q & Hq & Eq).
      apply Nat.leb_le in H300. specialize (Hg H300). rewrite Forall_forall in Hg. specialize (Hg q Hq).
      change (eligible e session_time (m_finished t) (set_added true q) = true -> compare_peer (set_added true q) x = false) in Hg. rewrite Eq in Hg. by apply Hg.
    - intros H300 p Hp. apply Nat.leb_le in H300. specialize (Hn eq_refl H300). destruct (eligible e session_time (m_finished t) p) eqn:Hpe; [|done].
      destruct (Hall p Hp Hpe) as (q & Hq & Eq). rewrite Forall_forall in Hn. specialize (Hn q Hq).
      change (eligible e session_time (m_finished t) (set_added true q) = false) in Hn. rewrite Eq in Hn. change (eligible e session_time (m_finished t) p = false) in Hn. congruence. }
  destruct ec as [i|]; [|done]. destruct (w_erase _ _ _ _ _ _ _ _ _ Hw i eq_refl) as (pe & Hpe & _ & He). destruct (erase_at_fields e i pe t2 Hpe) as (E1 & E2 & _).
  split_and!; [by apply erase_at_ok|congruence|]. destruct c as [k|]; [|done]. destruct H3 as (x & Hx & Hel & Hg). cbn. exists x. split; [|done]. rewrite E1.
  apply lookup_moved; [done|]. intros ->. assert (pe = x) as -> by congruence. apply erase_not_candidate in He. unfold eligible in Hel. by rewrite He in Hel.
Qed.
