(* ===== verification/PolicyTheorems.v ===== *)
(** * The peer list: theorems

    What the operations of Policy.v promise, from the lemmas of PolicyInv.v,
    PolicySteps.v and PolicyConnect.v. *)

From S2P Require Import Prelude Archive Md4Hash KadId IpFilter PiecePicker Policy PolicyInv PolicySteps PolicyConnect.
From stdpp Require Import sorting relations.
Open Scope Z_scope.

(** ** The operations as steps *)

(** One operation while the session's connections are those of [e].  New peers and
    connections have addresses of their own; a connection is closed once, by the
    peer that has it; the picker is told of peers in the list only. *)
Inductive op (e : env) (t : policy) : policy -> Prop :=
  | op_add random new_ptr ep src fl : ep_ok ep -> (new_ptr ∉ ptrs t) -> op e t (add_peer e random new_ptr ep src fl t).1
  | op_incoming new_ptr c remote local found session_time t' b :
      ep_ok remote -> (new_ptr ∉ ptrs t) -> c <> 0 ->
      new_connection e new_ptr c remote local found session_time t = Some (t', b) -> op e t t'
  | op_closed i x also session_time :
      m_peers t !! i = Some x -> connection x <> 0 -> op e t (connection_closed e (connection x) (ptr x) also session_time t)
  | op_set_connection p c : c <> 0 -> op e t (set_connection e p c t)
  | op_set_failcount p f : op e t (set_failcount e p f t)
  | op_erase p : op e t (erase_peer e p t)
  | op_weed random force : op e t (erase_peers e random force t)
  | op_filter session_time : op e t (ip_filter_updated e session_time t)
  | op_recalculate : op e t (recalculate_connect_candidates e t)
  | op_choose session_time : op e t (find_connect_candidate e session_time t).1
  | op_picker pk : (forall b, b ∈ m_block_info pk -> bi_peer b = 0 \/ bi_peer b ∈ ptrs t) -> op e t (with_picker (Some pk) t).

Lemma op_ok ex e t t' : op e t t' -> policy_ok ex e t -> policy_ok ex e t'.
Proof.
  intros Hop Ht. pose proof Ht as [Hl Hr Hs Hd Hc]. destruct Hop.
  - by apply add_peer_ok.
  - by eapply (new_connection_ok ex e new_ptr c remote local found session_time t (t', b)).
  - by eapply closed_ok.
  - by apply set_connection_ok.
  - by apply set_failcount_ok.
  - by apply erase_peer_ok.
  - by apply erase_peers_ok.
  - apply filter_loop_ok; [done|lia].
  - apply recalculate_ok; auto.
  - pose proof (find_connect_candidate_best ex e session_time t Ht) as H. destruct (find_connect_candidate _ _ _) as [t' c]. by destruct H.
  - split; try done; fields; [by apply (list_ok_peers e t)|]. intros pk' b [= <-]. by apply H.
Qed.

(** The settings decide the order, not the connections. *)
Lemma policy_ok_env e e' t : allow_multiple_connections_per_ip e = allow_multiple_connections_per_ip e' -> policy_ok false e t -> policy_ok false e' t.
Proof.
  intros He [[H1 H2 H3 H4] Hr Hs Hd _]. split; [|done|done|done|done]. split; [|done..]. unfold ep_before in *. by rewrite <- He.
Qed.

Lemma connect_to_peer_ok e c session_time queued p t : c <> 0 -> policy_ok false e t -> policy_ok false e (connect_to_peer e c session_time queued p t).1.
Proof.
  intros Hc Ht. unfold connect_to_peer. destruct (find_ptr p (m_peers t)) as [[i x]|] eqn:E; [|done]. apply find_ptr_some in E as [Hx Ep]. cbn [fst].
  apply (policy_ok_env (connected_to (peer_endpoint x) e)); [done|]. apply set_connection_ok; [done|]. apply (policy_ok_env e); [done|].
  eapply (change_peer false e t i x); [done|done| | |reflexivity|..]; try done. cbn. lia.
Qed.

Lemma connect_one_peer_ok e c session_time queued t : c <> 0 -> policy_ok false e t -> policy_ok false e (connect_one_peer e c session_time queued t).1.
Proof.
  intros Hc Ht. unfold connect_one_peer. pose proof (find_connect_candidate_best false e session_time t Ht) as Hf. destruct (find_connect_candidate _ _ _) as [t1 cd].
  destruct Hf as [Ht1 _]. destruct (cd ≫= _) as [p|]; [|done]. pose proof (connect_to_peer_ok e c session_time queued (ptr p) t1 Hc Ht1) as Ht2.
  destruct (connect_to_peer _ _ _ _ _ _) as [t2 []]; [done|]. destruct (find_ptr _ _) as [[i x]|] eqn:E; [|done]. apply find_ptr_some in E as [Hx Ep]. cbn [fst] in *.
  set (y := if failcount x <? 31 then _ else x). assert (peer_endpoint y = peer_endpoint x /\ ptr y = ptr x /\ seed y = seed x) as (Y1 & Y2 & Y3) by (unfold y; by case_match).
  case_match; cbn [fst]; eapply (change_peer false e t2 i x y); fields; try done; rewrite Y3; lia.
Qed.

(** What can happen to the peer list; the session's connections and the other
    settings may change between two steps. *)
Inductive reachable (multiple : bool) : policy -> Prop :=
  | reach_new pk : (forall p b, pk = Some p -> b ∈ m_block_info p -> bi_peer b = 0) -> reachable multiple (policy_new pk)
  | reach_op e t t' : allow_multiple_connections_per_ip e = multiple -> reachable multiple t -> op e t t' -> reachable multiple t'
  | reach_connect e c session_time queued t :
      allow_multiple_connections_per_ip e = multiple -> reachable multiple t -> c <> 0 -> reachable multiple (connect_one_peer e c session_time queued t).1.

Lemma reachable_policy_ok e t : reachable (allow_multiple_connections_per_ip e) t -> policy_ok false e t.
Proof.
  intros Hr. remember (allow_multiple_connections_per_ip e) as m eqn:Em. induction Hr as [pk Hpk|e' t t' He Hr IH Hop|e' c st q t He Hr IH Hc].
  - split; cbn; try done; [split; constructor|]. intros p b E Hb. left. by eapply Hpk.
  - apply (policy_ok_env e'); [congruence|]. eapply op_ok; [done|]. apply (policy_ok_env e); [congruence|by apply IH].
  - apply (policy_ok_env e'); [congruence|]. apply connect_one_peer_ok; [done|]. apply (policy_ok_env e); [congruence|by apply IH].
Qed.

(** C9: whatever sequence of operations a transfer runs on its peer list, with any
    connections of the session, the list is in the order of the addresses (strictly
    unless one address may have several peers), no endpoint is in it twice, the
    position of the round robin is in range, the counter of seeds is exact, and no
    block of the piece picker points to a peer that has been erased. *)
Theorem peer_list_consistent e t :
  reachable (allow_multiple_connections_per_ip e) t ->
  StronglySorted (ep_before e) (peer_endpoint <$> m_peers t) /\ NoDup (peer_endpoint <$> m_peers t) /\
  (m_round_robin t <= length (m_peers t))%nat /\ m_num_seeds t = Z.of_nat (length (filter (fun p => seed p = true) (m_peers t))) /\
  (forall pk b, picker t = Some pk -> b ∈ m_block_info pk -> bi_peer b = 0 \/ exists p, p ∈ m_peers t /\ ptr p = bi_peer b).
Proof.
  intros Hr. destruct (reachable_policy_ok e t Hr) as [[H1 H2 _ _] Hrr Hs Hd _]. split_and!; [done..| |].
  - rewrite Hs. clear. induction (m_peers t) as [|p l IH]; [done|]. rewrite filter_cons. unfold num in *. cbn [foldr]. rewrite IH.
    destruct (decide (seed p = true)) as [E|E]; [rewrite E|apply not_true_is_false in E; rewrite E]; cbn; lia.
  - intros pk b E Hb. destruct (Hd pk b E Hb) as [H|H]; [by left|right]. apply list_elem_of_fmap in H as (p & Ep & Hp). by exists p.
Qed.

(** ** The counter of connect candidates *)

Lemma num_filter (f : peer -> bool) l : num f l = Z.of_nat (length (filter (fun p => f p = true) l)).
Proof.
  induction l as [|p l IH]; [done|]. rewrite filter_cons. unfold num in *. cbn [foldr]. rewrite IH.
  destruct (decide (f p = true)) as [E|E]; [rewrite E|apply not_true_is_false in E; rewrite E]; cbn; lia.
Qed.

Lemma ops_ok e pk t :
  (forall p b, pk = Some p -> b ∈ m_block_info p -> bi_peer b = 0) -> rtc (op e) (policy_new pk) t -> policy_ok true e t.
Proof.
  intros Hpk Hr. remember (policy_new pk) as t0 eqn:E0. assert (policy_ok true e t0) as H0.
  { subst. split; cbn; try done; [split; constructor|]. intros p b E Hb. left. by eapply Hpk. }
  clear E0. induction Hr as [t|t1 t2 t3 Hop _ IH]; [done|]. apply IH. by eapply op_ok.
Qed.

(** As long as the connections of the session stay the same, the counter that
    tells the session whether the transfer wants more peers is the number of peers
    in the list that may be connected to. *)
Theorem candidates_counted e pk t :
  (forall p b, pk = Some p -> b ∈ m_block_info p -> bi_peer b = 0) -> rtc (op e) (policy_new pk) t ->
  m_num_connect_candidates t = Z.of_nat (length (filter (fun p => is_connect_candidate e p (m_finished t) = true) (m_peers t))).
Proof. intros Hpk Hr. destruct (ops_ok e pk t Hpk Hr) as [_ _ _ _ Hc]. rewrite (Hc eq_refl). apply num_filter. Qed.

(** The connection of a peer counts for that peer only. *)
Lemma connected_num e t i x y :
  list_ok e t -> m_peers t !! i = Some x -> is_connect_candidate e x (m_finished t) = true -> peer_endpoint y = peer_endpoint x ->
  num (fun p => is_connect_candidate (connected_to (peer_endpoint x) e) p (m_finished t)) (<[i := y]> (m_peers t))
  = num (fun p => is_connect_candidate e p (m_finished t)) (m_peers t) - 1.
Proof.
  intros Hl Hx Hc Hy. rewrite (insert_take_drop _ _ _ (lookup_lt_Some _ _ _ Hx)). rewrite <- (take_drop_middle _ _ _ Hx) at 3. rewrite !num_app. cbn [num foldr].
  change (foldr _ 0 (drop (S i) (m_peers t))) with (num (fun p => is_connect_candidate (connected_to (peer_endpoint x) e) p (m_finished t)) (drop (S i) (m_peers t))) at 1.
  fold (num (fun p => is_connect_candidate e p (m_finished t)) (drop (S i) (m_peers t))).
  assert (forall l, (peer_endpoint x ∉ (peer_endpoint <$> l)) -> num (fun p => is_connect_candidate (connected_to (peer_endpoint x) e) p (m_finished t)) l
    = num (fun p => is_connect_candidate e p (m_finished t)) l) as Hsame.
  { intros l. induction l as [|p l IH]; [done|]. rewrite fmap_cons, not_elem_of_cons. intros [Hne Hl']. specialize (IH Hl'). unfold num in *. cbn [foldr]. rewrite IH. f_equal.
    unfold is_connect_candidate. cbn. rewrite bool_decide_eq_false_2 by congruence. done. }
  pose proof (ok_endpoints _ _ Hl) as Hn. unfold endpoints in Hn. rewrite <- (take_drop_middle _ _ _ Hx), fmap_app, fmap_cons, NoDup_app, NoDup_cons in Hn.
  destruct Hn as (_ & Hn1 & Hn2 & _). rewrite !Hsame; [|done|intros H; eapply Hn1; [exact H|by left]]. rewrite Hc.
  assert (is_connect_candidate (connected_to (peer_endpoint x) e) y (m_finished t) = false) as ->.
  { unfold is_connect_candidate. case_match; [done|]. cbn. by rewrite bool_decide_eq_true_2. }
  cbn. unfold num. lia.
Qed.

(** Connecting to a peer leaves the counter one too high.  The transfer enters
    the new connection into the session before it tells the policy, so the policy
    does not see the peer as a candidate any more and does not take it off. *)
Theorem connect_keeps_counter e c session_time t t' :
  policy_ok true e t -> connect_one_peer e c session_time true t = (t', true) ->
  exists ep, m_num_connect_candidates t' =
    Z.of_nat (length (filter (fun p => is_connect_candidate (connected_to ep e) p (m_finished t') = true) (m_peers t'))) + 1.
Proof.
  intros Ht. unfold connect_one_peer. pose proof (find_connect_candidate_best true e session_time t Ht) as Hf.
  destruct (find_connect_candidate _ _ _) as [t1 cd]. destruct Hf as (Ht1 & Hfin & Hcd). destruct cd as [i|]; [|done]. destruct Hcd as (x & Hx & Hel & _).
  cbn [mbind option_bind]. rewrite Hx. apply andb_prop in Hel as [Hel _]. rewrite <- Hfin in Hel. unfold connect_to_peer.
  pose proof (ok_ptrs _ _ (ok_list _ _ _ Ht1)) as Hptrs. rewrite (find_ptr_at x _ i Hptrs Hx). cbv zeta. set (y := set_next 0 (set_last session_time x)).
  destruct (update_endpoints i x y t1 Hx eq_refl eq_refl) as [_ U]. pose proof (lookup_lt_Some _ _ _ Hx) as Hi.
  set (t2 := with_peers _ t1). assert (m_peers t2 !! i = Some y) as Hy by (by apply list_lookup_insert_eq).
  unfold set_connection. change (ptr x) with (ptr y). rewrite (find_ptr_at y (m_peers t2) i); [|unfold t2; fields; by rewrite U|done].
  assert (is_connect_candidate (connected_to (peer_endpoint x) e) y (m_finished t2) = false) as ->.
  { unfold is_connect_candidate. case_match; [done|]. cbn. by rewrite bool_decide_eq_true_2. }
  intros [= <-]. exists (peer_endpoint x). rewrite <- num_filter. unfold t2. fields. rewrite list_insert_insert_eq.
  rewrite (connected_num e t1 i x (set_conn c y) (ok_list _ _ _ Ht1) Hx Hel eq_refl). rewrite (ok_candidates _ _ _ Ht1 eq_refl). lia.
Qed.

(** ** Choosing and filtering *)

(** C10: after any sequence of operations on the peer list, connections and whatever the
    counter of candidates says included, [find_connect_candidate] returns a peer of the
    list that may be connected to now (listening, not connected, with tries left, and
    its times allow another try); among up to 300 peers none that may be tried is better
    by [compare_peer], and when it returns none there is none, however many peers it
    weeds out. *)
Theorem connect_candidate_best e session_time t :
  reachable (allow_multiple_connections_per_ip e) t ->
  let '(t', candidate) := find_connect_candidate e session_time t in
  let may p := is_connect_candidate e p (m_finished t) && may_try e session_time p in
  match candidate with
  | Some i => exists c, m_peers t' !! i = Some c /\ may c = true /\
      ((length (m_peers t) <= 300)%nat -> forall p, p ∈ m_peers t -> may p = true -> compare_peer p c = false)
  | None => (length (m_peers t) <= 300)%nat -> forall p, p ∈ m_peers t -> may p = false
  end.
Proof.
  intros Hr. pose proof (find_connect_candidate_best false e session_time t (reachable_policy_ok e t Hr)) as H.
  destruct (find_connect_candidate _ _ _) as [t' c]. by destruct H as (_ & _ & H).
Qed.

(** After the IP filter has changed, the peers left are those whose address is
    not blocked, in the same order, connected or not. *)
Theorem ip_filter_updated_drops e session_time t :
  policy_ok false e t ->
  peer_endpoint <$> m_peers (ip_filter_updated e session_time t)
  = filter (fun ep => blocked e (ep_address ep) = false) (peer_endpoint <$> m_peers t).
Proof. intros Ht. destruct (filter_loop_ok false e (S (length (m_peers t))) session_time 0 t Ht) as [_ H]; [lia|]. exact H. Qed.

(** ** Adding *)

Lemma insert_at_length i p t : length (m_peers (insert_at i p t)) = S (length (m_peers t)).
Proof. rewrite insert_at_peers, length_app. cbn [length]. rewrite length_take, length_drop. lia. Qed.

Lemma insert_peer_length e random p iter fl t :
  policy_ok true e t -> peerlist_limit e <> 0 ->
  let '(t', inserted) := insert_peer e random p iter fl t in
  Z.of_nat (length (m_peers t')) <= Z.max (Z.of_nat (length (m_peers t))) (peerlist_limit e) /\
  (inserted = false -> peerlist_limit e <= Z.of_nat (length (m_peers t))).
Proof.
  intros Ht Hlim. unfold insert_peer. cbv zeta. assert (negb (peerlist_limit e =? 0) = true) as -> by (by apply negb_true_iff, Z.eqb_neq). cbn [andb].
  destruct (erase_peers_ok true e random false t Ht) as [_ [Hs%sublist_length _]].
  destruct (Z.leb_spec (peerlist_limit e) (Z.of_nat (length (m_peers t)))) as [Hf|Hf]; cbn [andb].
  - destruct (source p =? _); [split; [lia|done]|].
    destruct (Z.leb_spec (peerlist_limit e) (Z.of_nat (length (m_peers (erase_peers e random false t))))); [split; [lia|done]|].
    destruct (has_flag fl 2); (split; [|done]); case_match; fields; rewrite insert_at_length; fields; lia.
  - rewrite (proj2 (Z.leb_gt _ _)) by done. destruct (has_flag fl 2); (split; [|done]); case_match; fields; rewrite insert_at_length; fields; lia.
Qed.

(** An inserted peer is in the list. *)
Lemma insert_peer_in e random p iter fl t t' :
  insert_peer e random p iter fl t = (t', true) -> exists q, q ∈ m_peers t' /\ ptr q = ptr p /\ peer_endpoint q = peer_endpoint p /\ connectable q = connectable p.
Proof.
  unfold insert_peer. cbv zeta. destruct (_ && (source p =? _)); [done|]. match goal with |- context [let '(_, _) := ?x in _] => destruct x as [t1 i] end. destruct (_ && _); [done|].
  assert (forall q t2, q ∈ m_peers (insert_at i q t2)) as Hin by (intros q t2; rewrite insert_at_peers; apply elem_of_app; right; by left).
  destruct (has_flag fl 2); intros [= <-]; [exists (set_seed true p)|exists p]; (split; [|done]); case_match; fields; apply Hin.
Qed.

Lemma update_peer_in e i p src fl t :
  m_peers t !! i = Some p ->
  exists q, q ∈ m_peers (update_peer e i p src fl t) /\ ptr q = ptr p /\ peer_endpoint q = peer_endpoint p /\ connectable q = true.
Proof.
  intros Hp. unfold update_peer. cbv zeta. set (y := if (0 <? _) && _ then _ else _).
  assert (ptr y = ptr p /\ peer_endpoint y = peer_endpoint p /\ connectable y = true) as Hy by (unfold y; by case_match).
  assert (forall q b1 b2 (b : bool) t1, q ∈ <[i := q]> (m_peers t) -> m_peers t1 = <[i := q]> (m_peers t) ->
    q ∈ m_peers (if b then at_least_zero (recount b1 b2 t1) else t1)) as Hin.
  { intros q b1 b2 b t1 Hq E. destruct b; [|by rewrite E]. destruct (at_least_zero_fields (recount b1 b2 t1)) as (-> & _).
    destruct (recount_fields b1 b2 t1) as (-> & _). by rewrite E. }
  assert (forall q, q ∈ <[i := q]> (m_peers t)) as Hq
    by (intros q; apply (list_elem_of_lookup_2 _ i), list_lookup_insert_eq; by eapply lookup_lt_Some).
  destruct (has_flag fl 2 && _); [exists (set_seed true y)|exists y]; (split; [|done]); apply Hin; try done. by case_match.
Qed.

Lemma update_peer_length e i p src fl t : length (m_peers (update_peer e i p src fl t)) = length (m_peers t).
Proof.
  unfold update_peer. cbv zeta. destruct (_ && (connection _ =? 0)); case_match; try (match goal with |- context [at_least_zero ?t1] =>
    destruct (at_least_zero_fields t1) as (-> & _) end; match goal with |- context [recount ?b1 ?b2 ?t1] => destruct (recount_fields b1 b2 t1) as (-> & _) end);
    fields; rewrite length_insert; repeat case_match; done.
Qed.

(** [add_peer] on a blocked address changes nothing; otherwise it gives a peer of
    the list with that address (that endpoint, when an address may have several),
    marked as one that listens, and it fails only when the list is limited and full,
    and the list never grows over its limit. *)
Theorem add_peer_adds e random new_ptr ep src fl t t' r :
  policy_ok true e t -> add_peer e random new_ptr ep src fl t = (t', r) ->
  (blocked e (ep_address ep) = true -> t' = t /\ r = None) /\
  (blocked e (ep_address ep) = false ->
   match r with
   | Some q => exists p, p ∈ m_peers t' /\ ptr p = q /\ peer_address p = ep_address ep /\ connectable p = true /\
                         (allow_multiple_connections_per_ip e = true -> peer_endpoint p = ep)
   | None => peerlist_limit e <> 0 /\ peerlist_limit e <= Z.of_nat (length (m_peers t))
   end) /\
  (peerlist_limit e <> 0 -> Z.of_nat (length (m_peers t')) <= Z.max (Z.of_nat (length (m_peers t))) (peerlist_limit e)).
Proof.
  intros Ht. unfold add_peer. destruct (blocked e (ep_address ep)); [intros [= <- <-]; split_and!; [done|done|lia]|].
  destruct (find_peer e ep (m_peers t)) as [iter []] eqn:E.
  - destruct (find_peer_found e ep _ _ E) as (x & Hx & Ex). rewrite Hx. intros [= <- <-]. split_and!; [done| |].
    + intros _. destruct (update_peer_in e iter x src fl t Hx) as (q & Hq & Q1 & Q2 & Q3). exists q. unfold peer_address in *. rewrite Q2. split_and!; try done.
      intros Hm. unfold find_peer in E. rewrite Hm in E. destruct (find_endpoint ep (m_peers t)) as [k|] eqn:Ek; [|done]. injection E as <-.
      apply find_endpoint_some in Ek as (z & Hz & Ez). congruence.
    + intros _. rewrite update_peer_length. lia.
  - destruct (insert_peer e random (peer_new new_ptr ep true src) iter fl t) as [t1 b] eqn:Ei. intros [= <- <-].
    pose proof (insert_peer_length e random (peer_new new_ptr ep true src) iter fl t Ht) as Hlen. rewrite Ei in Hlen. split_and!; [done| |by intros H; apply Hlen].
    intros _. destruct b.
    + destruct (insert_peer_in _ _ _ _ _ _ _ Ei) as (q & Hq & Q1 & Q2 & Q3). exists q. unfold peer_address. rewrite Q2. done.
    + destruct (Z.eq_dec (peerlist_limit e) 0) as [E0|E0]; [|by split; [|apply Hlen]]. exfalso. unfold insert_peer in Ei. rewrite E0 in Ei. cbn in Ei. by destruct (has_flag fl 2).
Qed.

(** ** Instances *)

Definition demo_filter : ip_filter := default ip_filter_new (ip_add_rule (V4 (z2b <$> [83; 149; 8; 4])) (V4 (z2b <$> [83; 149; 8; 5])) 1 ip_filter_new).
Definition demo_env : env := Env false 4 4 60 3 ip_filter_new false false (fun _ => false) (fun _ => false) (fun _ => false).
Definition demo_endpoint (last : Z) : tcp_endpoint := Endpoint (z2b <$> [83; 149; 8; last]) 4662.
Definition demo_add (last : Z) (t : policy) : policy := (add_peer demo_env 0 (1000 + last) (demo_endpoint last) src_tracker 0 t).1.
Definition demo_policy : policy := demo_add 7 (demo_add 3 (demo_add 5 (policy_new None))).

Lemma demo_ops : rtc (op demo_env) (policy_new None) demo_policy.
Proof.
  assert (forall last t, bool_decide ((1000 + last) ∈ ptrs t) = false -> op demo_env t (demo_add last t)) as H.
  { intros last t Hp. apply op_add; [done|]. by apply bool_decide_eq_false in Hp. }
  eapply rtc_l; [apply (H 5); by vm_compute|]. eapply rtc_l; [apply (H 3); by vm_compute|]. eapply rtc_l; [apply (H 7); by vm_compute|]. apply rtc_refl.
Qed.

Lemma demo_ok : policy_ok true demo_env demo_policy.
Proof. apply (ops_ok demo_env None); [done|apply demo_ops]. Qed.

Lemma demo_reachable : reachable false demo_policy.
Proof.
  assert (forall t t', rtc (op demo_env) t t' -> reachable false t -> reachable false t') as H.
  { intros t t' Hr. induction Hr as [|t1 t2 t3 Hop _ IH]; [done|]. intros H1. apply IH. by apply (reach_op false demo_env t1 t2). }
  apply (H _ _ demo_ops). by apply reach_new.
Qed.

Lemma peer_list_consistent_witness :
  length (m_peers demo_policy) = 3%nat /\ NoDup (peer_endpoint <$> m_peers demo_policy) /\
  StronglySorted (ep_before demo_env) (peer_endpoint <$> m_peers demo_policy).
Proof. split; [by vm_compute|]. destruct (peer_list_consistent demo_env demo_policy demo_reachable) as (H1 & H2 & _). by split. Defined.

Lemma candidates_counted_witness :
  rtc (op demo_env) (policy_new None) demo_policy /\
  m_num_connect_candidates demo_policy
  = Z.of_nat (length (filter (fun p => is_connect_candidate demo_env p (m_finished demo_policy) = true) (m_peers demo_policy))).
Proof. split; [apply demo_ops|]. apply (candidates_counted demo_env None demo_policy); [done|apply demo_ops]. Defined.

Definition demo_connected : policy := (connect_one_peer demo_env 9 120 true demo_policy).1.

Lemma connect_keeps_counter_witness :
  m_num_connect_candidates demo_connected = 3 /\
  exists ep, m_num_connect_candidates demo_connected =
    Z.of_nat (length (filter (fun p => is_connect_candidate (connected_to ep demo_env) p (m_finished demo_connected) = true) (m_peers demo_connected))) + 1.
Proof. split; [by vm_compute|]. apply (connect_keeps_counter demo_env 9 120 demo_policy demo_connected demo_ok). by vm_compute. Defined.

(** The second choice, with the first peer chosen connected. *)
Definition demo_connected_env : env := connected_to (demo_endpoint 7) demo_env.

Lemma connect_candidate_best_witness :
  m_num_connect_candidates demo_connected = 3 /\
  let '(t', candidate) := find_connect_candidate demo_connected_env 130 demo_connected in
  exists i c, candidate = Some i /\ m_peers t' !! i = Some c /\ forall p, p ∈ m_peers demo_connected -> compare_peer p c = true ->
    is_connect_candidate demo_connected_env p (m_finished demo_connected) && may_try demo_connected_env 130 p = false.
Proof.
  split; [by vm_compute|].
  assert (exists i, (find_connect_candidate demo_connected_env 130 demo_connected).2 = Some i) as [i Hi] by (eexists; vm_compute; reflexivity).
  assert (length (m_peers demo_connected) <= 300)%nat as Hlen by (vm_compute; lia).
  assert (reachable (allow_multiple_connections_per_ip demo_connected_env) demo_connected) as Hr
    by (apply (reach_connect false demo_env 9 120 true demo_policy); [reflexivity|apply demo_reachable|discriminate]).
  pose proof (connect_candidate_best demo_connected_env 130 demo_connected Hr) as H.
  destruct (find_connect_candidate demo_connected_env 130 demo_connected) as [t' candidate]. cbn [snd] in Hi. subst candidate. destruct H as (c & H1 & _ & H2).
  exists i, c. split_and!; [done|done|]. intros p Hp Hc. apply not_true_is_false. intros Hm. rewrite (H2 Hlen p Hp Hm) in Hc. done.
Defined.

Definition demo_filter_env : env := Env false 4 4 60 3 demo_filter false false (fun _ => false) (fun _ => false) (fun _ => false).

Lemma ip_filter_updated_drops_witness :
  peer_endpoint <$> m_peers (ip_filter_updated demo_filter_env 120 demo_policy) = [demo_endpoint 3; demo_endpoint 7].
Proof.
  rewrite (ip_filter_updated_drops demo_filter_env 120 demo_policy); [by vm_compute|]. apply (reachable_policy_ok demo_filter_env). apply demo_reachable.
Defined.

Lemma add_peer_adds_witness : exists p, p ∈ m_peers (demo_add 6 demo_policy) /\ ptr p = 1006 /\ peer_address p = ep_address (demo_endpoint 6).
Proof.
  destruct (add_peer_adds demo_env 0 1006 (demo_endpoint 6) src_tracker 0 demo_policy (demo_add 6 demo_policy) (Some 1006) demo_ok) as (_ & H & _);
    [by vm_compute|]. destruct (H ltac:(by vm_compute)) as (p & H1 & H2 & H3 & _). by exists p.
Defined.

(** A limit of 0 lets [add_peer] add without bound, but every unknown peer that
    connects is refused. *)
Example unlimited_refuses_incoming :
  let e := Env false 0 0 60 3 ip_filter_new false false (fun _ => false) (fun _ => false) (fun _ => false) in
  (exists t, add_peer e 0 1001 (demo_endpoint 1) src_tracker 0 (policy_new None) = (t, Some 1001)) /\
  new_connection e 1001 9 (demo_endpoint 1) false other_connected 120 (policy_new None) = Some (policy_new None, false).
Proof. split; [eexists; vm_compute; reflexivity|by vm_compute]. Qed.

(** A peer that came in and connects again while its old socket has failed: closing
    the old connection erases the peer that [new_connection] goes on to use. *)
Example incoming_peer_erased :
  let e := Env true 4 4 60 3 ip_filter_new false false (fun _ => false) (fun _ => false) (fun _ => false) in
  exists t, new_connection e 1001 8 (demo_endpoint 1) false other_connected 100 (policy_new None) = Some (t, true) /\
            new_connection e 1002 9 (demo_endpoint 1) false other_socket_error 120 t = None.
Proof. eexists. split; [vm_compute; reflexivity|by vm_compute]. Qed.
