(* ===== verification/Bandwidth.v ===== *)
(** * Bandwidth: src/bandwidth_manager.cpp, src/bandwidth_limit.cpp, src/bandwidth_queue_entry.cpp

    The rate limits of the session and its peers.  A channel has a number of bytes
    per second and a quota that grows with time; a connection that wants to send or
    receive puts a request into the queue of the manager, and every round the quota
    of each channel is divided among the requests that wait for it, by their
    priorities.  Connections share channels, so the channels are a store, a request
    holds the numbers of its channels.

    Shown: the quota a channel hands out in a round is never more than it has, the
    manager counts the bytes it owes exactly, no request is lost, and one that has
    been given something waits 20 rounds at most. *)

From S2P Require Import Prelude.
From stdpp Require Import list relations sorting.
Open Scope Z_scope.

(** ** Channels *)

Record bandwidth_channel := Channel { tmp : Z; distribute_quota : Z; m_quota_left : Z; m_limit : Z }.

#[global] Instance channel_inhabited : Inhabited bandwidth_channel := populate (Channel 0 0 0 0).

Definition channel_new : bandwidth_channel := Channel 0 0 0 0.
Definition throttle (limit : Z) (c : bandwidth_channel) : bandwidth_channel := Channel (tmp c) (distribute_quota c) (m_quota_left c) limit.
Definition inf : Z := 2 ^ 31 - 1.
Definition quota_left (c : bandwidth_channel) : Z := if m_limit c =? 0 then inf else Z.max (m_quota_left c) 0.

Definition update_quota (dt_milliseconds : Z) (c : bandwidth_channel) : bandwidth_channel :=
  if m_limit c =? 0 then c
  else
    let left := m_quota_left c + Z.quot (m_limit c * dt_milliseconds + 500) 1000 in
    let left := if m_limit c * 3 <? left then m_limit c * 3 else left in
    Channel (tmp c) (Z.max left 0) left (m_limit c).

Definition return_quota (amount : Z) (c : bandwidth_channel) : bandwidth_channel :=
  if m_limit c =? 0 then c else Channel (tmp c) (distribute_quota c) (m_quota_left c + amount) (m_limit c).

Definition use_quota (amount : Z) (c : bandwidth_channel) : bandwidth_channel :=
  if m_limit c =? 0 then c else Channel (tmp c) (distribute_quota c) (m_quota_left c - amount) (m_limit c).

Definition set_tmp (n : Z) (c : bandwidth_channel) : bandwidth_channel := Channel n (distribute_quota c) (m_quota_left c) (m_limit c).

(** ** Requests *)

Abbreviation channels := (list bandwidth_channel).

Record bw_request := Request { bw_peer : Z; bw_priority : Z; assigned : Z; request_size : Z; ttl : Z; bw_channel : list nat }.

Definition request_new (pe blk prio : Z) (cs : list nat) : bw_request := Request pe prio 0 blk 20 cs.

(** What a channel has for a request of priority [prio]. *)
Definition share (prio : Z) (c : bandwidth_channel) (quota : Z) : Z :=
  if m_limit c =? 0 then quota
  else if tmp c =? 0 then quota
  else Z.min (Z.quot (distribute_quota c * prio) (tmp c)) quota.

(** [bw_request::assign_bandwidth]: the quota, the request and the channels. *)
Definition assign_bandwidth (r : bw_request) (cs : channels) : Z * bw_request * channels :=
  let quota := request_size r - assigned r in
  let aged a := Request (bw_peer r) (bw_priority r) a (request_size r) (ttl r - 1) (bw_channel r) in
  if quota =? 0 then (quota, aged (assigned r), cs)
  else
    let quota := foldl (fun q j => share (bw_priority r) (cs !!! j) q) quota (bw_channel r) in
    (quota, aged (assigned r + quota), foldl (fun cs j => alter (use_quota quota) j cs) cs (bw_channel r)).

(** ** The manager *)

Record bandwidth_manager := Manager { m_queue : list bw_request; m_queued_bytes : Z; m_abort : bool }.

Definition manager_new : bandwidth_manager := Manager [] 0 false.
Definition close (m : bandwidth_manager) : bandwidth_manager := Manager [] 0 true.
Definition is_queued (peer : Z) (m : bandwidth_manager) : bool := existsb (fun r => bw_peer r =? peer) (m_queue m).

(** The channels given may be null. *)
Definition request_bandwidth (peer blk priority : Z) (chans : list (option nat)) (cs : channels) (m : bandwidth_manager) : bandwidth_manager * Z :=
  if m_abort m then (m, 0)
  else
    let used := omap (fun c => c ≫= fun j => if 0 <? m_limit (cs !!! j) then Some j else None) chans in
    match used with
    | [] => (m, blk)
    | _ => (Manager (m_queue m ++ [request_new peer blk priority used]) (m_queued_bytes m + blk) (m_abort m), 0)
    end.

Definition check_invariant (m : bandwidth_manager) : bool :=
  foldl (fun n r => n + (request_size r - assigned r)) 0 (m_queue m) =? m_queued_bytes m.

(** The first loop of [update_quotas]: requests of peers that are disconnecting go,
    and return what they were assigned. *)
Definition drop_disconnecting (disconnecting : Z -> bool) (s : list bw_request * Z * channels) (r : bw_request) : list bw_request * Z * channels :=
  let '(queue, queued, cs) := s in
  if disconnecting (bw_peer r)
  then (queue, queued - (request_size r - assigned r), foldl (fun cs j => alter (return_quota (assigned r)) j cs) cs (bw_channel r))
  else (queue ++ [r], queued, foldl (fun cs j => alter (set_tmp 0) j cs) cs (bw_channel r)).

(** The second: the sum of the priorities of every channel, and the channels. *)
Definition count_channel (prio : Z) (s : list nat * channels) (j : nat) : list nat * channels :=
  let '(found, cs) := s in
  (if tmp (cs !!! j) =? 0 then found ++ [j] else found, alter (fun c => set_tmp (tmp c + prio) c) j cs).

Definition count_channels (s : list nat * channels) (r : bw_request) : list nat * channels :=
  foldl (count_channel (bw_priority r)) s (bw_channel r).

(** The last: every request gets its share; what is left in the queue, what goes. *)
Definition assign_request (s : list bw_request * list bw_request * Z * channels) (r : bw_request) : list bw_request * list bw_request * Z * channels :=
  let '(queue, tm, queued, cs) := s in
  let '(a, r, cs) := assign_bandwidth r cs in
  if (assigned r =? request_size r) || ((ttl r <=? 0) && (0 <? assigned r))
  then (queue, tm ++ [r], queued - (a + (request_size r - assigned r)), cs)
  else (queue ++ [r], tm, queued - a, cs).

(** The first three loops of [update_quotas]: the queue and the channels a round
    starts with. *)
Definition start_round (dt : Z) (disconnecting : Z -> bool) (cs : channels) (m : bandwidth_manager) : list bw_request * Z * channels :=
  let dt_milliseconds := if 3000 <? dt then 3000 else dt in
  let '(queue, queued, cs) := foldl (drop_disconnecting disconnecting) ([], m_queued_bytes m, cs) (m_queue m) in
  let '(found, cs) := foldl count_channels ([], cs) queue in
  (queue, queued, foldl (fun cs j => alter (update_quota dt_milliseconds) j cs) cs found).

(** The manager, the channels, and the calls of [peer_connection::assign_bandwidth]
    in their order, with the number of bytes. *)
Definition update_quotas (dt : Z) (disconnecting : Z -> bool) (cs : channels) (m : bandwidth_manager) : bandwidth_manager * channels * list (Z * Z) :=
  if m_abort m then (m, cs, [])
  else match m_queue m with
  | [] => (m, cs, [])
  | _ =>
      let '(queue, queued, cs) := start_round dt disconnecting cs m in
      let '(queue, tm, queued, cs) := foldl assign_request ([], [], queued, cs) queue in
      (Manager queue queued (m_abort m), cs, (fun r => (bw_peer r, assigned r)) <$> reverse tm)
  end.

(** ** Sums over requests *)

Definition total (f : bw_request -> Z) (l : list bw_request) : Z := foldr (fun r n => f r + n) 0 l.

Lemma total_app f l1 l2 : total f (l1 ++ l2) = total f l1 + total f l2.
Proof. induction l1 as [|r l1 IH]; cbn; [done|]. unfold total in *. lia. Qed.

Lemma total_le f g l : Forall (fun r => f r <= g r) l -> total f l <= total g l.
Proof. intros Hl. induction Hl as [|r l Hr _ IH]; cbn; [done|]. unfold total in *. lia. Qed.

Lemma foldl_total f l n : foldl (fun n r => n + f r) n l = n + total f l.
Proof. revert n. induction l as [|r l IH]; intros n; cbn; [lia|]. rewrite IH. unfold total. lia. Qed.

(** How often a request names a channel. *)
Definition mult (k : nat) (l : list nat) : Z := foldr (fun j n => Z.b2z (bool_decide (j = k)) + n) 0 l.

Lemma mult_nonneg k l : 0 <= mult k l.
Proof. induction l as [|j l IH]; cbn; [done|]. unfold mult in *. case_bool_decide; cbn; lia. Qed.

Lemma mult_pos k l : k ∈ l -> 0 < mult k l.
Proof.
  induction l as [|j l IH]; [by rewrite elem_of_nil|]. rewrite elem_of_cons. intros [->|Hin]; cbn; unfold mult in *.
  - rewrite bool_decide_eq_true_2 by done. cbn. pose proof (mult_nonneg j l). unfold mult in *. lia.
  - specialize (IH Hin). case_bool_decide; cbn; lia.
Qed.

Lemma mult_zero k l : k ∉ l -> mult k l = 0.
Proof.
  induction l as [|j l IH]; [done|]. rewrite not_elem_of_cons. intros [Hne Hin]. cbn. rewrite bool_decide_eq_false_2 by done. unfold mult in IH. by rewrite IH.
Qed.

(** ** Loops over the channels of a request *)

Lemma lookup_total_alter_eq f k (cs : channels) : (k < length cs)%nat -> alter f k cs !!! k = f (cs !!! k).
Proof.
  intros Hk. destruct (lookup_lt_is_Some_2 cs k Hk) as [c Hc]. rewrite (list_lookup_total_correct _ _ _ Hc). apply list_lookup_total_correct.
  by rewrite list_lookup_alter_eq, Hc.
Qed.

Lemma lookup_total_alter_ne f j k (cs : channels) : j <> k -> alter f j cs !!! k = cs !!! k.
Proof. intros Hne. rewrite !list_lookup_total_alt. by rewrite list_lookup_alter_ne. Qed.

Lemma length_alters f l (cs : channels) : length (foldl (fun cs j => alter f j cs) cs l) = length cs.
Proof. revert cs. induction l as [|j l IH]; intros cs; cbn; [done|]. by rewrite IH, length_alter. Qed.

(** What a loop of changes does to one channel. *)
Lemma alters_ind (P : Z -> bandwidth_channel -> Prop) f l (cs : channels) k :
  (k < length cs)%nat -> P 0 (cs !!! k) -> (forall n c, 0 <= n -> P n c -> P (n + 1) (f c)) ->
  P (mult k l) (foldl (fun cs j => alter f j cs) cs l !!! k).
Proof.
  intros Hk H0 Hf. assert (forall n, 0 <= n -> P n (cs !!! k) -> P (n + mult k l) (foldl (fun cs j => alter f j cs) cs l !!! k)) as H.
  { clear H0. revert cs Hk. induction l as [|j l IH]; intros cs Hk n Hn Hc; cbn [foldl]; [by rewrite Z.add_0_r|].
    change (mult k (j :: l)) with (Z.b2z (bool_decide (j = k)) + mult k l). case_bool_decide as E; cbn [Z.b2z].
    - rewrite Z.add_assoc. subst j. apply IH; [by rewrite length_alter|lia|]. rewrite lookup_total_alter_eq by done. by apply Hf.
    - rewrite Z.add_0_l. apply IH; [by rewrite length_alter|done|]. by rewrite lookup_total_alter_ne. }
  specialize (H 0). rewrite Z.add_0_l in H. by apply H.
Qed.

Lemma use_quota_loop q l (cs : channels) k :
  (k < length cs)%nat ->
  foldl (fun cs j => alter (use_quota q) j cs) cs l !!! k
  = Channel (tmp (cs !!! k)) (distribute_quota (cs !!! k)) (if m_limit (cs !!! k) =? 0 then m_quota_left (cs !!! k) else m_quota_left (cs !!! k) - mult k l * q) (m_limit (cs !!! k)).
Proof.
  intros Hk. apply (alters_ind (fun n c => c = Channel (tmp (cs !!! k)) (distribute_quota (cs !!! k))
    (if m_limit (cs !!! k) =? 0 then m_quota_left (cs !!! k) else m_quota_left (cs !!! k) - n * q) (m_limit (cs !!! k)))); [done|..].
  - destruct (cs !!! k) as [a b c d]. cbn. f_equal. by destruct (d =? 0); [|lia].
  - intros n c _ ->. unfold use_quota. cbn. destruct (m_limit (cs !!! k) =? 0); [done|]. f_equal. lia.
Qed.

Lemma return_quota_loop q l (cs : channels) k :
  (k < length cs)%nat ->
  foldl (fun cs j => alter (return_quota q) j cs) cs l !!! k
  = Channel (tmp (cs !!! k)) (distribute_quota (cs !!! k)) (if m_limit (cs !!! k) =? 0 then m_quota_left (cs !!! k) else m_quota_left (cs !!! k) + mult k l * q) (m_limit (cs !!! k)).
Proof.
  intros Hk. apply (alters_ind (fun n c => c = Channel (tmp (cs !!! k)) (distribute_quota (cs !!! k))
    (if m_limit (cs !!! k) =? 0 then m_quota_left (cs !!! k) else m_quota_left (cs !!! k) + n * q) (m_limit (cs !!! k)))); [done|..].
  - destruct (cs !!! k) as [a b c d]. cbn. f_equal. by destruct (d =? 0); [|lia].
  - intros n c _ ->. unfold return_quota. cbn. destruct (m_limit (cs !!! k) =? 0); [done|]. f_equal. lia.
Qed.

Lemma set_tmp_loop l (cs : channels) k :
  (k < length cs)%nat -> foldl (fun cs j => alter (set_tmp 0) j cs) cs l !!! k = if bool_decide (k ∈ l) then set_tmp 0 (cs !!! k) else cs !!! k.
Proof.
  intros Hk. assert (foldl (fun cs j => alter (set_tmp 0) j cs) cs l !!! k = if mult k l =? 0 then cs !!! k else set_tmp 0 (cs !!! k)) as ->.
  { apply (alters_ind (fun n c => c = if n =? 0 then cs !!! k else set_tmp 0 (cs !!! k))); [done|done|]. intros n c Hn ->.
    rewrite (proj2 (Z.eqb_neq (n + 1) 0)) by lia. by destruct (n =? 0). }
  case_bool_decide as E; [pose proof (mult_pos k l E)|pose proof (mult_zero k l E)]; destruct (Z.eqb_spec (mult k l) 0); done || lia.
Qed.

(** ** The invariant *)

Definition owed (r : bw_request) : Z := request_size r - assigned r.

Record request_ok (n : nat) (r : bw_request) : Prop := {
  rq_assigned : 0 <= assigned r < request_size r;
  rq_priority : 0 < bw_priority r;
  rq_channels : Forall (fun j => (j < n)%nat) (bw_channel r);
  rq_ttl : 0 < ttl r \/ assigned r = 0;
  rq_rounds : ttl r <= 20
}.

Record manager_ok (cs : channels) (m : bandwidth_manager) : Prop := {
  mg_queue : Forall (request_ok (length cs)) (m_queue m);
  mg_bytes : m_queued_bytes m = total owed (m_queue m);
  mg_abort : m_abort m = true -> m_queue m = []
}.

(** ** The shares of a request *)

Lemma foldl_share prio (cs : channels) l q0 :
  0 < prio -> 0 <= q0 -> (forall j, j ∈ l -> m_limit (cs !!! j) <> 0 -> 0 <= distribute_quota (cs !!! j) /\ 0 < tmp (cs !!! j)) ->
  let q := foldl (fun q j => share prio (cs !!! j) q) q0 l in
  0 <= q <= q0 /\ forall j, j ∈ l -> m_limit (cs !!! j) <> 0 -> q * tmp (cs !!! j) <= distribute_quota (cs !!! j) * prio.
Proof.
  intros Hp. revert q0. induction l as [|j l IH]; intros q0 Hq Hc; [split; [cbn; lia|by intros j ?%elem_of_nil]|].
  assert (0 <= share prio (cs !!! j) q0 <= q0 /\ (m_limit (cs !!! j) <> 0 -> share prio (cs !!! j) q0 * tmp (cs !!! j) <= distribute_quota (cs !!! j) * prio)) as [H1 H2].
  { unfold share. destruct (Z.eqb_spec (m_limit (cs !!! j)) 0) as [E|E]; [split; [lia|done]|]. destruct (Hc j ltac:(by left) E) as [Hd Ht].
    rewrite (proj2 (Z.eqb_neq (tmp (cs !!! j)) 0)) by lia.
    assert (0 <= distribute_quota (cs !!! j) * prio) as H0 by (apply Z.mul_nonneg_nonneg; lia).
    assert (tmp (cs !!! j) <> 0) as Hn by lia.
    pose proof (Z.quot_pos _ _ H0 Ht). pose proof (Z.mul_quot_le _ _ H0 Hn). split; [lia|]. intros _. nia. }
  destruct (IH (share prio (cs !!! j) q0) (proj1 H1)) as [H3 H4]; [intros i Hi; apply Hc; by right|]. cbn [foldl]. split; [lia|].
  intros i Hi Hl. apply elem_of_cons in Hi as [->|Hi]; [|by apply H4]. specialize (H2 Hl). destruct (Hc j ltac:(by left) Hl) as [_ Ht]. nia.
Qed.

(** A request a round later. *)
Definition aged (r r' : bw_request) : Prop :=
  bw_peer r' = bw_peer r /\ bw_priority r' = bw_priority r /\ request_size r' = request_size r /\ bw_channel r' = bw_channel r /\
  ttl r' = ttl r - 1 /\ assigned r <= assigned r' <= request_size r.

(** The channel [k] while the last loop runs: only its quota changes. *)
Definition spent (cs0 cs : channels) (used : nat -> Z) : Prop :=
  length cs = length cs0 /\
  forall k, (k < length cs0)%nat ->
    cs !!! k = Channel (tmp (cs0 !!! k)) (distribute_quota (cs0 !!! k))
      (if m_limit (cs0 !!! k) =? 0 then m_quota_left (cs0 !!! k) else m_quota_left (cs0 !!! k) - used k) (m_limit (cs0 !!! k)).

(** The channels of the requests are ready to be divided. *)
Definition divisible (cs : channels) (ks : list nat) : Prop :=
  forall k, k ∈ ks -> m_limit (cs !!! k) <> 0 -> 0 <= distribute_quota (cs !!! k) /\ 0 < tmp (cs !!! k).

Lemma assign_bandwidth_ok (cs0 cs : channels) used r :
  request_ok (length cs0) r -> spent cs0 cs used -> divisible cs0 (bw_channel r) ->
  let '(a, r', cs') := assign_bandwidth r cs in
  aged r r' /\ a = assigned r' - assigned r /\ spent cs0 cs' (fun k => used k + mult k (bw_channel r) * a) /\
  forall k, (k < length cs0)%nat -> m_limit (cs0 !!! k) <> 0 -> 0 < tmp (cs0 !!! k) -> 0 <= distribute_quota (cs0 !!! k) ->
    mult k (bw_channel r) * a * tmp (cs0 !!! k) <= distribute_quota (cs0 !!! k) * (mult k (bw_channel r) * bw_priority r).
Proof.
  intros [Ha Hp Hcs Ht _] [Hlen Hsp] Hdiv. unfold assign_bandwidth. rewrite (proj2 (Z.eqb_neq (request_size r - assigned r) 0)) by lia.
  rewrite Forall_forall in Hcs.
  destruct (foldl_share (bw_priority r) cs (bw_channel r) (request_size r - assigned r) Hp ltac:(lia)) as [Hq Hshare].
  { intros j Hj. rewrite (Hsp j (Hcs j Hj)). cbn. by apply Hdiv. }
  set (q := foldl (fun q j => share (bw_priority r) (cs !!! j) q) (request_size r - assigned r) (bw_channel r)) in *. split_and!.
  - unfold aged. cbn. split_and!; done || lia.
  - cbn. lia.
  - split; [by rewrite length_alters|]. intros k Hk. rewrite use_quota_loop by lia. rewrite (Hsp k Hk). cbn. f_equal. destruct (m_limit (cs0 !!! k) =? 0); [done|lia].
  - intros k Hk Hl Htmp Hd. destruct (decide (k ∈ bw_channel r)) as [Hin|Hin].
    + specialize (Hshare k Hin). rewrite (Hsp k Hk) in Hshare. cbn in Hshare. specialize (Hshare Hl). pose proof (mult_nonneg k (bw_channel r)). nia.
    + rewrite (mult_zero _ _ Hin). lia.
Qed.

Definition on_channel (k : nat) (r : bw_request) : Z := mult k (bw_channel r) * assigned r.
Definition weight (k : nat) (r : bw_request) : Z := mult k (bw_channel r) * bw_priority r.

Lemma spent_ext cs0 cs f g : (forall k, f k = g k) -> spent cs0 cs f -> spent cs0 cs g.
Proof. intros E [H1 H2]. split; [done|]. intros k Hk. rewrite <- E. by apply H2. Qed.

(** The bytes a round gives to the requests on a channel. *)
Definition given (k : nat) (l l' : list bw_request) : Z := total (on_channel k) l' - total (on_channel k) l.

Lemma assign_loop_ok cs0 l queued0 :
  Forall (request_ok (length cs0)) l -> Forall (fun r => divisible cs0 (bw_channel r)) l ->
  let '(queue, tm, queued, cs) := foldl assign_request ([], [], queued0, cs0) l in
  exists l', Forall2 aged l l' /\ l' ≡ₚ queue ++ tm /\ Forall (request_ok (length cs0)) queue /\ Forall (fun r => 0 < assigned r) tm /\
    queued = queued0 - total owed l + total owed queue /\ spent cs0 cs (fun k => given k l l') /\
    forall k, (k < length cs0)%nat -> m_limit (cs0 !!! k) <> 0 -> 0 < tmp (cs0 !!! k) -> 0 <= distribute_quota (cs0 !!! k) ->
      0 <= given k l l' /\ given k l l' * tmp (cs0 !!! k) <= distribute_quota (cs0 !!! k) * total (weight k) l.
Proof.
  intros Hok Hdiv. induction l as [|r l IH] using rev_ind.
  - exists []. split_and!; [constructor|done|constructor|constructor|cbn; lia| |intros; unfold given; cbn; lia].
    split; [done|]. intros k _. unfold given. cbn. destruct (cs0 !!! k) as [a b c d]. cbn. f_equal. destruct (d =? 0); lia.
  - apply Forall_app in Hok as [Hok Hr]. apply Forall_app in Hdiv as [Hdiv Hdr]. inversion_clear Hr as [|? ? Hr' _]. inversion_clear Hdr as [|? ? Hdr' _].
    specialize (IH Hok Hdiv). rewrite foldl_snoc. destruct (foldl assign_request _ l) as [[[queue tm] queued] cs].
    destruct IH as (l' & F1 & F2 & F3 & F4 & F5 & F6 & F7). unfold assign_request. pose proof (assign_bandwidth_ok cs0 cs _ r Hr' F6 Hdr') as Ha.
    destruct (assign_bandwidth r cs) as [[a r'] cs']. destruct Ha as (A1 & A2 & A3 & A4). pose proof A1 as (B1 & B2 & B3 & B4 & B5 & B6).
    pose proof Hr' as [C1 C2 C3 C4 C5].
    assert (forall k, given k (l ++ [r]) (l' ++ [r']) = given k l l' + mult k (bw_channel r) * a) as Eg.
    { intros k. unfold given. rewrite !total_app. cbn. unfold on_channel. rewrite B4, A2. lia. }
    assert (spent cs0 cs' (fun k => given k (l ++ [r]) (l' ++ [r']))) as Hsp by (eapply spent_ext; [|exact A3]; intros k; by rewrite Eg).
    assert (forall k, (k < length cs0)%nat -> m_limit (cs0 !!! k) <> 0 -> 0 < tmp (cs0 !!! k) -> 0 <= distribute_quota (cs0 !!! k) ->
      0 <= given k (l ++ [r]) (l' ++ [r']) /\ given k (l ++ [r]) (l' ++ [r']) * tmp (cs0 !!! k) <= distribute_quota (cs0 !!! k) * total (weight k) (l ++ [r])) as Hb.
    { intros k Hk Hl Ht Hd. destruct (F7 k Hk Hl Ht Hd) as [G1 G2]. specialize (A4 k Hk Hl Ht Hd). rewrite Eg, total_app. cbn [total foldr]. rewrite Z.add_0_r.
      change (weight k r) with (mult k (bw_channel r) * bw_priority r). assert (0 <= mult k (bw_channel r) * a) by (apply Z.mul_nonneg_nonneg; [apply mult_nonneg|lia]). lia. }
    assert (total owed (l ++ [r]) = total owed l + owed r) as Eo by (rewrite total_app; cbn; lia). assert (owed r = request_size r - assigned r) by done.
    destruct ((assigned r' =? request_size r') || ((ttl r' <=? 0) && (0 <? assigned r'))) eqn:Eb; exists (l' ++ [r']); split_and!; try done;
      try (by apply Forall2_app; [|constructor]).
    + rewrite F2. by rewrite app_assoc.
    + apply Forall_app. split; [done|]. constructor; [|constructor]. apply orb_prop in Eb as [Eb|[_ Eb]%andb_prop]; [apply Z.eqb_eq in Eb; lia|by apply Z.ltb_lt].
    + rewrite Eo. lia.
    + rewrite F2. rewrite <- app_assoc, (Permutation_app_comm tm). by rewrite app_assoc.
    + apply Forall_app. split; [done|]. constructor; [|constructor]. apply orb_false_elim in Eb as [Eb1 Eb2]. apply Z.eqb_neq in Eb1. split; [lia|congruence|congruence| |lia].
      destruct (Z.leb_spec (ttl r') 0); [|lia]. cbn in Eb2. apply Z.ltb_ge in Eb2. lia.
    + rewrite Eo, total_app. cbn. change (owed r') with (request_size r' - assigned r'). lia.
Qed.

(** ** The first three loops *)

Lemma drop_loop_ok disconnecting l n0 cs0 :
  let '(q, n, cs) := foldl (drop_disconnecting disconnecting) ([], n0, cs0) l in
  q = filter (fun r => disconnecting (bw_peer r) = false) l /\ n = n0 - total owed l + total owed q /\ length cs = length cs0 /\
  forall k, (k < length cs0)%nat ->
    m_limit (cs !!! k) = m_limit (cs0 !!! k) /\
    m_quota_left (cs !!! k) = (if m_limit (cs0 !!! k) =? 0 then m_quota_left (cs0 !!! k)
                               else m_quota_left (cs0 !!! k) + total (on_channel k) l - total (on_channel k) q) /\
    (Exists (fun r => k ∈ bw_channel r) q -> tmp (cs !!! k) = 0).
Proof.
  induction l as [|r l IH] using rev_ind.
  - split_and!; [done|cbn; lia|done|]. intros k _. split_and!; [done|cbn; case_match; lia|by intros ?%Exists_nil].
  - rewrite foldl_snoc, filter_app, filter_cons, filter_nil, !total_app. destruct (foldl _ _ l) as [[q n] cs]. destruct IH as (E1 & E2 & E3 & E4). unfold drop_disconnecting.
    destruct (disconnecting (bw_peer r)); cbn.
    + split_and!; [by rewrite app_nil_r|change (owed r) with (request_size r - assigned r); lia|by rewrite length_alters|]. intros k Hk.
      destruct (E4 k Hk) as (F1 & F2 & F3). rewrite return_quota_loop by lia. cbn. rewrite F1. split_and!; [done| |done]. rewrite F2, total_app. cbn.
      destruct (m_limit (cs0 !!! k) =? 0); [done|]. change (on_channel k r) with (mult k (bw_channel r) * assigned r). lia.
    + rewrite E1. split_and!; [done|rewrite <- E1, total_app; cbn; lia|by rewrite length_alters|]. rewrite <- E1. intros k Hk. destruct (E4 k Hk) as (F1 & F2 & F3).
      rewrite set_tmp_loop by lia. rewrite !total_app. cbn. split_and!.
      * by case_bool_decide.
      * case_bool_decide; cbn; rewrite F2; case_match; lia.
      * rewrite Exists_app, Exists_cons, Exists_nil. case_bool_decide; [done|]. intros [He|[He|He]]; [by apply F3|done|done].
Qed.

(** What the second loop keeps for the channels [K] of the queue. *)
Definition counting (K : nat -> Prop) (found : list nat) (cs : channels) : Prop :=
  NoDup found /\ (forall k, k ∈ found -> K k) /\ forall k, K k -> 0 <= tmp (cs !!! k) /\ (tmp (cs !!! k) = 0 <-> k ∉ found).

Lemma count_channel_ok K prio l found cs :
  0 < prio -> Forall (fun j => (j < length cs)%nat /\ K j) l -> counting K found cs ->
  let '(found', cs') := foldl (count_channel prio) (found, cs) l in
  counting K found' cs' /\ length cs' = length cs /\ forall k, (k < length cs)%nat -> cs' !!! k = set_tmp (tmp (cs !!! k) + mult k l * prio) (cs !!! k).
Proof.
  intros Hp Hl. revert found cs Hl. induction l as [|j l IH]; intros found cs Hl Hc.
  - cbn. split_and!; [done|done|]. intros k _. destruct (cs !!! k). unfold set_tmp. cbn. f_equal. lia.
  - inversion_clear Hl as [|? ? [Hj Kj] Hl']. cbn [foldl count_channel]. destruct Hc as (H1 & H2 & H3). destruct (H3 j Kj) as [T1 T2].
    set (cs1 := alter _ j cs). set (found1 := if tmp (cs !!! j) =? 0 then _ else _).
    assert (forall k, (k < length cs)%nat -> cs1 !!! k = if bool_decide (j = k) then set_tmp (tmp (cs !!! k) + prio) (cs !!! k) else cs !!! k) as E1.
    { intros k Hk. unfold cs1. case_bool_decide as E; [subst; by rewrite lookup_total_alter_eq|by apply lookup_total_alter_ne]. }
    specialize (IH found1 cs1). destruct (foldl _ _ l) as [found' cs']. destruct IH as (I1 & I2 & I3).
    { unfold cs1. by rewrite length_alter. }
    { split_and!.
      - unfold found1. destruct (Z.eqb_spec (tmp (cs !!! j)) 0) as [E|E]; [|done]. apply NoDup_app. split_and!; [done| |apply NoDup_singleton].
        intros k Hk ->%list_elem_of_singleton. by apply T2 in E.
      - unfold found1. intros k. destruct (_ =? 0); [|apply H2]. rewrite elem_of_app, list_elem_of_singleton. intros [Hk| ->]; [by apply H2|done].
      - intros k Kk. destruct (H3 k Kk) as [U1 U2]. unfold found1. destruct (decide (j = k)) as [<-|Hne].
        + rewrite E1 by done. rewrite bool_decide_eq_true_2 by done. cbn. split; [lia|]. split; [lia|]. intros Hn. exfalso.
          destruct (Z.eqb_spec (tmp (cs !!! j)) 0) as [E|E]; [apply Hn, elem_of_app; right; by left|]. apply E, T2. exact Hn.
        + unfold cs1. rewrite lookup_total_alter_ne by done. split; [done|]. rewrite U2. destruct (_ =? 0); [|done].
          rewrite elem_of_app, list_elem_of_singleton. split; [intros Hk [?|?]; congruence|tauto]. }
    split_and!; [done|by rewrite I2; unfold cs1; rewrite length_alter|]. intros k Hk. rewrite I3 by (unfold cs1; by rewrite length_alter). rewrite E1 by done.
    change (mult k (j :: l)) with (Z.b2z (bool_decide (j = k)) + mult k l). case_bool_decide; unfold set_tmp; cbn; f_equal; lia.
Qed.

Lemma count_channels_ok K l found cs :
  Forall (request_ok (length cs)) l -> Forall (fun r => Forall K (bw_channel r)) l -> counting K found cs ->
  let '(found', cs') := foldl count_channels (found, cs) l in
  counting K found' cs' /\ length cs' = length cs /\ forall k, (k < length cs)%nat -> cs' !!! k = set_tmp (tmp (cs !!! k) + total (weight k) l) (cs !!! k).
Proof.
  revert found cs. induction l as [|r l IH]; intros found cs Hl HK Hc.
  - cbn. split_and!; [done|done|]. intros k _. destruct (cs !!! k). unfold set_tmp. cbn. f_equal. lia.
  - inversion_clear Hl as [|? ? [_ Rp Rc _ _] Hl']. inversion_clear HK as [|? ? Kr HK']. cbn [foldl]. unfold count_channels at 2.
    pose proof (count_channel_ok K (bw_priority r) (bw_channel r) found cs Rp) as H. destruct (foldl (count_channel _) _ _) as [found1 cs1].
    destruct H as (H1 & H2 & H3); [by apply Forall_and|done|]. rewrite <- H2 in Hl'. specialize (IH found1 cs1 Hl' HK' H1). destruct (foldl _ _ l) as [found' cs'].
    destruct IH as (I1 & I2 & I3). split_and!; [done|congruence|]. intros k Hk. rewrite I3, H3 by lia. unfold set_tmp. cbn. f_equal. unfold weight, total. lia.
Qed.

Lemma mult_nodup k l : NoDup l -> mult k l = if bool_decide (k ∈ l) then 1 else 0.
Proof.
  intros Hn. induction Hn as [|j l Hj Hn IH]; [done|]. change (mult k (j :: l)) with (Z.b2z (bool_decide (j = k)) + mult k l). rewrite IH.
  destruct (decide (j = k)) as [->|E].
  - rewrite bool_decide_eq_true_2 by done. rewrite bool_decide_eq_false_2 by done. by rewrite bool_decide_eq_true_2 by (by left).
  - rewrite bool_decide_eq_false_2 by done. cbn. apply f_equal with (f := fun b : bool => if b then 1 else 0). apply bool_decide_ext. rewrite elem_of_cons. intuition congruence.
Qed.

Lemma update_loop_ok f l (cs : channels) k :
  (k < length cs)%nat -> NoDup l -> foldl (fun cs j => alter f j cs) cs l !!! k = if bool_decide (k ∈ l) then f (cs !!! k) else cs !!! k.
Proof.
  intros Hk Hn. assert (mult k l <= 1 -> foldl (fun cs j => alter f j cs) cs l !!! k = if mult k l =? 0 then cs !!! k else f (cs !!! k)) as H.
  { apply (alters_ind (fun n c => n <= 1 -> c = if n =? 0 then cs !!! k else f (cs !!! k))); [done|done|]. intros n c Hn0 IH Hle.
    rewrite IH by lia. assert (n = 0) as -> by lia. done. }
  rewrite (mult_nodup k l Hn) in H. case_bool_decide; by apply H.
Qed.

(** ** A round *)

(** The quota of a channel at the start of the round, with what peers that leave give
    back; when requests wait for it, it has grown with the time. *)
Definition available (dt : Z) (waiting : bool) (returned : Z) (c : bandwidth_channel) : Z :=
  let left := m_quota_left c + returned in
  if waiting then Z.min (left + Z.quot (m_limit c * Z.min dt 3000 + 500) 1000) (m_limit c * 3) else left.

Lemma update_quota_left dt c :
  m_limit c <> 0 -> let c' := update_quota (if 3000 <? dt then 3000 else dt) c in
  m_quota_left c' = available dt true 0 c /\ distribute_quota c' = Z.max (available dt true 0 c) 0 /\ tmp c' = tmp c /\ m_limit c' = m_limit c.
Proof.
  intros Hl. unfold update_quota, available. rewrite (proj2 (Z.eqb_neq _ _)) by done. cbn.
  assert ((if 3000 <? dt then 3000 else dt) = Z.min dt 3000) as -> by (destruct (Z.ltb_spec 3000 dt); lia).
  destruct (Z.ltb_spec (m_limit c * 3) (m_quota_left c + (m_limit c * Z.min dt 3000 + 500) `quot` 1000)); split_and!; lia.
Qed.

Lemma update_quota_unlimited dt c : m_limit c = 0 -> update_quota dt c = c.
Proof. intros E. unfold update_quota. by rewrite E. Qed.

Definition waits_for (k : nat) (l : list bw_request) : Prop := Exists (fun r => k ∈ bw_channel r) l.

#[global] Instance waits_for_dec k l : Decision (waits_for k l).
Proof. unfold waits_for. apply _. Defined.

Lemma weight_total k l :
  Forall (fun r => 0 < bw_priority r) l -> 0 <= total (weight k) l /\ (waits_for k l -> 0 < total (weight k) l).
Proof.
  intros Hl. induction Hl as [|r l Hr _ IH]; [split; [done|by intros ?%Exists_nil]|]. destruct IH as [I1 I2]. change (total (weight k) (r :: l)) with (weight k r + total (weight k) l).
  assert (0 <= weight k r) by (apply Z.mul_nonneg_nonneg; [apply mult_nonneg|lia]). split; [lia|]. intros [Hk|Hk]%Exists_cons; [|specialize (I2 Hk); lia].
  pose proof (mult_pos k _ Hk). assert (0 < weight k r) by (by apply Z.mul_pos_pos). lia.
Qed.

Lemma waiting_channel n k l : Forall (request_ok n) l -> waits_for k l -> (k < n)%nat.
Proof.
  intros Hl (r & Hr & Hin)%Exists_exists. rewrite Forall_forall in Hl. destruct (Hl r Hr) as [_ _ Hc _ _]. rewrite Forall_forall in Hc. by apply Hc.
Qed.

Lemma given_idle k l l' : Forall2 aged l l' -> ~ waits_for k l -> given k l l' = 0.
Proof.
  intros Hf. induction Hf as [|r r' l l' Hr _ IH]; [done|]. intros Hn. unfold waits_for in Hn. rewrite Exists_cons in Hn. destruct Hr as (_ & _ & _ & Hc & _).
  specialize (IH ltac:(tauto)). unfold given in *. cbn. unfold on_channel at 1 3. rewrite Hc, (mult_zero k (bw_channel r)) by tauto. unfold total in *. lia.
Qed.

(** What a round does: the requests of peers that stay get more bytes and are a
    round older, some of them leave the queue with what they have. *)
Definition round_done (dt : Z) (disconnecting : Z -> bool) (cs : channels) (m : bandwidth_manager) (m' : bandwidth_manager) (cs' : channels)
    (grants : list (Z * Z)) : Prop :=
  let kept := filter (fun r => disconnecting (bw_peer r) = false) (m_queue m) in
  exists granted l',
    Forall2 aged kept l' /\ l' ≡ₚ m_queue m' ++ granted /\ grants = (fun r => (bw_peer r, assigned r)) <$> reverse granted /\
    Forall (fun r => 0 < assigned r) granted /\
    forall k, (k < length cs)%nat -> m_limit (cs !!! k) <> 0 ->
      let avail := available dt (bool_decide (waits_for k kept)) (total (on_channel k) (m_queue m) - total (on_channel k) kept) (cs !!! k) in
      m_quota_left (cs' !!! k) = avail - given k kept l' /\ 0 <= given k kept l' <= Z.max avail 0.

Lemma kept_ok {A} (P Q : A -> Prop) `{!forall x, Decision (P x)} l : Forall Q l -> Forall Q (filter P l).
Proof. rewrite !Forall_forall. intros HQ x [_ Hx]%list_elem_of_filter. by apply HQ. Qed.

Lemma manager_ok_abort cs m : manager_ok cs m -> m_queue m <> [] -> m_abort m = false.
Proof. intros [_ _ Ha] Hq. destruct (m_abort m); [|done]. by specialize (Ha eq_refl). Qed.

Lemma round_idle dt disconnecting cs m : m_queue m = [] -> round_done dt disconnecting cs m m cs [].
Proof.
  intros E. exists [], []. rewrite E. split_and!; [constructor|done|done|constructor|]. intros k _ _. cbv zeta. rewrite bool_decide_eq_false_2 by (by intros ?%Exists_nil).
  unfold available, given. cbn. lia.
Qed.

Lemma if_same {A} (b : bool) (x y : A) : y = x -> (if b then y else x) = x.
Proof. intros ->. by destruct b. Qed.

Lemma start_round_ok dt disconnecting cs m :
  manager_ok cs m ->
  let '(kept, queued, cs3) := start_round dt disconnecting cs m in
  kept = filter (fun r => disconnecting (bw_peer r) = false) (m_queue m) /\ queued = total owed kept /\ length cs3 = length cs /\
  Forall (request_ok (length cs)) kept /\
  forall k, (k < length cs)%nat -> m_limit (cs3 !!! k) = m_limit (cs !!! k) /\
   (m_limit (cs !!! k) = 0 -> m_quota_left (cs3 !!! k) = m_quota_left (cs !!! k)) /\ (m_limit (cs !!! k) <> 0 ->
    m_quota_left (cs3 !!! k) = available dt (bool_decide (waits_for k kept)) (total (on_channel k) (m_queue m) - total (on_channel k) kept) (cs !!! k) /\
    (waits_for k kept -> distribute_quota (cs3 !!! k) = Z.max (m_quota_left (cs3 !!! k)) 0 /\ tmp (cs3 !!! k) = total (weight k) kept)).
Proof.
  intros [Hq Hb _]. unfold start_round.
  pose proof (drop_loop_ok disconnecting (m_queue m) (m_queued_bytes m) cs) as D. destruct (foldl (drop_disconnecting _) _ _) as [[kept n1] cs1].
  destruct D as (D1 & D2 & D3 & D4).
  assert (Forall (request_ok (length cs1)) kept) as Hk by (rewrite D1, D3; by apply kept_ok).
  pose proof (fun k => waiting_channel (length cs1) k kept Hk) as Hw.
  pose proof (count_channels_ok (fun k => waits_for k kept) kept [] cs1 Hk) as C. destruct (foldl count_channels _ _) as [found cs2]. destruct C as ((C1 & C2 & C3) & C4 & C5).
  { rewrite Forall_forall. intros r Hr. rewrite Forall_forall. intros k Hkr. apply Exists_exists. by exists r. }
  { split_and!; [constructor|by intros k ?%elem_of_nil|]. intros k Hk1. destruct (D4 k ltac:(rewrite <- D3; by apply Hw)) as (_ & _ & Ht). rewrite (Ht Hk1).
    split; [lia|]. split; [intros _; by intros ?%elem_of_nil|done]. }
  assert (Forall (fun r => 0 < bw_priority r) kept) as Hp by (eapply Forall_impl; [exact Hk|]; by intros r []).
  assert (forall k, (k < length cs)%nat -> k ∈ found <-> waits_for k kept) as Hfound.
  { intros k Hk1. split; [apply C2|]. intros Hk2. destruct (C3 k Hk2) as [_ C]. destruct (decide (k ∈ found)) as [|Hn]; [done|]. apply C in Hn.
    rewrite C5 in Hn by lia. cbn in Hn. destruct (D4 k Hk1) as (_ & _ & Ht). rewrite (Ht Hk2) in Hn. pose proof (proj2 (weight_total k kept Hp) Hk2). lia. }
  split_and!; [done|lia|rewrite length_alters; lia|by rewrite <- D3|]. intros k Hk1. set (returned := _ - total (on_channel k) kept).
  destruct (D4 k Hk1) as (E1 & E2 & E3). rewrite (update_loop_ok _ found cs2 k ltac:(lia) C1), C5 by lia. set (c2 := set_tmp _ _).
  assert (m_limit c2 = m_limit (cs !!! k)) as El by done. destruct (decide (m_limit (cs !!! k) = 0)) as [E0|E0].
  { rewrite E0 in E2. cbn in E2. rewrite (if_same _ c2) by (apply update_quota_unlimited; congruence). split_and!; [done|by intros _|done]. }
  destruct (update_quota_left dt c2 ltac:(congruence)) as (U1 & U2 & U3 & U4). rewrite (proj2 (Z.eqb_neq _ _) E0) in E2.
  assert (m_quota_left c2 = m_quota_left (cs !!! k) + returned) as Eq2 by (unfold c2, returned; cbn; lia).
  rewrite (bool_decide_ext (k ∈ found) (waits_for k kept)) by (by apply Hfound). case_bool_decide as Hwk.
  - split_and!; [congruence|done|]. intros _. rewrite U1, U2, U3. unfold available. rewrite El, Eq2, Z.add_0_r. split; [done|]. intros _. split; [done|].
    unfold c2. cbn. rewrite (E3 Hwk). lia.
  - split_and!; [done|done|]. intros _. split; [by rewrite Eq2|done].
Qed.

Lemma update_quotas_ok dt disconnecting cs m :
  manager_ok cs m ->
  let '(m', cs', grants) := update_quotas dt disconnecting cs m in
  manager_ok cs' m' /\ length cs' = length cs /\
  (forall k, (k < length cs)%nat -> m_limit (cs' !!! k) = m_limit (cs !!! k) /\ (m_limit (cs !!! k) = 0 -> m_quota_left (cs' !!! k) = m_quota_left (cs !!! k))) /\
  round_done dt disconnecting cs m m' cs' grants.
Proof.
  intros Hm. pose proof Hm as [Hq Hb Hab]. unfold update_quotas.
  destruct (m_abort m) eqn:Ea; [split_and!; [done|done|done|]; apply round_idle; by apply Hab|].
  destruct (m_queue m) as [|r0 rest] eqn:Eq; [split_and!; [done|done|done|]; by apply round_idle|].
  pose proof (start_round_ok dt disconnecting cs m Hm) as S. rewrite <- Eq in *. clear Eq r0 rest.
  destruct (start_round dt disconnecting cs m) as [[kept n1] cs3]. destruct S as (S1 & S2 & L3 & Hk & H3).
  assert (Forall (fun r => 0 < bw_priority r) kept) as Hp by (eapply Forall_impl; [exact Hk|]; by intros r []).
  pose proof (assign_loop_ok cs3 kept n1) as A. destruct (foldl assign_request _ _) as [[[queue tm] queued] cs']. destruct A as (l' & A1 & A2 & A3 & A4 & A5 & A6 & A7).
  { by rewrite L3. }
  { rewrite Forall_forall. intros r Hr k Hkr Hlim. assert (waits_for k kept) as Hk2 by (apply Exists_exists; by exists r).
    assert (k < length cs)%nat as Hk1 by (by eapply waiting_channel). destruct (H3 k Hk1) as (H31 & _ & H32). destruct (H32 ltac:(congruence)) as [_ H33].
    destruct (H33 Hk2) as [-> ->]. pose proof (proj2 (weight_total k kept Hp) Hk2). lia. }
  destruct A6 as [L4 A6]. split_and!.
  - split; cbn [m_queue m_queued_bytes m_abort]; [by rewrite L4|rewrite A5, S2; lia|congruence].
  - congruence.
  - intros k Hk1. destruct (H3 k Hk1) as (H31 & H30 & _). rewrite A6 by lia. cbn. split; [done|]. intros E0. rewrite H31, E0. cbn. by apply H30.
  - exists tm, l'. rewrite <- S1. split_and!; [done|done|done|done|]. intros k Hk1 Hlim. cbv zeta. destruct (H3 k Hk1) as (H31 & _ & H32). destruct (H32 Hlim) as [H33 H34].
    rewrite A6 by lia. cbn. rewrite H31, (proj2 (Z.eqb_neq _ _) Hlim), H33. split; [done|]. case_bool_decide as Hwk.
    + destruct (H34 Hwk) as [H35 H36]. pose proof (proj2 (weight_total k kept Hp) Hwk) as Hpos. specialize (A7 k ltac:(lia) ltac:(congruence) ltac:(lia) ltac:(lia)).
      rewrite H36, H35, H33 in A7. destruct A7 as [A71 A72]. split; [done|]. by apply Z.mul_le_mono_pos_r in A72.
    + rewrite (given_idle k kept l' A1 Hwk). lia.
Qed.

(** ** The manager as it is used *)

(** New channels come with new peers, limits are changed, requests are made for more
    than 0 bytes, rounds follow each other. *)
Inductive bw_step : channels * bandwidth_manager -> channels * bandwidth_manager -> Prop :=
  | bw_channel_step cs m : bw_step (cs, m) (cs ++ [channel_new], m)
  | bw_throttle_step k limit cs m : 0 <= limit -> bw_step (cs, m) (alter (throttle limit) k cs, m)
  | bw_request_step peer blk priority chans cs m :
      0 < blk -> 0 < priority -> (forall j, Some j ∈ chans -> (j < length cs)%nat) ->
      bw_step (cs, m) (cs, (request_bandwidth peer blk priority chans cs m).1)
  | bw_round_step dt disconnecting cs m m' cs' grants :
      0 <= dt -> update_quotas dt disconnecting cs m = (m', cs', grants) -> bw_step (cs, m) (cs', m')
  | bw_close_step cs m : bw_step (cs, m) (cs, close m).

(** No channel owes bytes. *)
Definition channels_ok (cs : channels) : Prop := forall k, (k < length cs)%nat -> 0 <= m_quota_left (cs !!! k) /\ 0 <= m_limit (cs !!! k).

Lemma on_channel_kept k n l (P : bw_request -> Prop) `{!forall x, Decision (P x)} :
  Forall (request_ok n) l -> 0 <= total (on_channel k) (filter P l) <= total (on_channel k) l.
Proof.
  intros Hl. induction Hl as [|r l [Ha _ _ _ _] _ IH]; [done|]. rewrite filter_cons. assert (0 <= on_channel k r) by (apply Z.mul_nonneg_nonneg; [apply mult_nonneg|lia]).
  case_decide; unfold total in *; cbn; lia.
Qed.

Definition bw_ok (s : channels * bandwidth_manager) : Prop := channels_ok s.1 /\ manager_ok s.1 s.2.

Lemma request_ok_more n n' r : (n <= n')%nat -> request_ok n r -> request_ok n' r.
Proof. intros Hn []. split; try done. eapply Forall_impl; [done|]. cbn. lia. Qed.

Lemma update_quotas_channels dt disconnecting cs m m' cs' grants :
  0 <= dt -> channels_ok cs -> manager_ok cs m -> update_quotas dt disconnecting cs m = (m', cs', grants) -> channels_ok cs'.
Proof.
  intros Hdt Hc Hm Hu. pose proof (update_quotas_ok dt disconnecting cs m Hm) as H. rewrite Hu in H. destruct H as (_ & Hlen & Hlim & granted & l' & _ & _ & _ & _ & Hk).
  intros k Hk1. rewrite Hlen in Hk1. destruct (Hc k Hk1) as [Hl Hm0], (Hlim k Hk1) as [E1 E2]. split; [|lia].
  destruct (decide (m_limit (cs !!! k) = 0)) as [E0|E0]; [by rewrite E2|]. destruct (Hk k Hk1 E0) as [E3 [_ E4]]. rewrite E3. clear E3.
  pose proof (on_channel_kept k (length cs) (m_queue m) (fun r => disconnecting (bw_peer r) = false) (mg_queue _ _ Hm)).
  assert (0 <= Z.quot (m_limit (cs !!! k) * Z.min dt 3000 + 500) 1000) by (apply Z.quot_pos; [|lia]; assert (0 <= m_limit (cs !!! k) * Z.min dt 3000) by (apply Z.mul_nonneg_nonneg; lia); lia).
  unfold available in *. case_bool_decide; lia.
Qed.

Lemma request_bandwidth_ok peer blk priority chans cs m :
  0 < blk -> 0 < priority -> (forall j, Some j ∈ chans -> (j < length cs)%nat) -> manager_ok cs m -> manager_ok cs (request_bandwidth peer blk priority chans cs m).1.
Proof.
  intros Hb Hp Hj Hm. pose proof Hm as [H1 H2 H3]. unfold request_bandwidth. destruct (m_abort m) eqn:Ea; [done|]. set (used := omap _ chans).
  assert (Forall (fun j => (j < length cs)%nat) used) as Hu.
  { rewrite Forall_forall. intros j (c & Hc & Ej)%list_elem_of_omap. destruct c as [i|]; [|done]. cbn in Ej. case_match; [|done]. injection Ej as <-. by apply Hj. }
  destruct used as [|j used]; [done|]. cbn [fst]. split; cbn [m_queue m_queued_bytes m_abort].
  - apply Forall_app. split; [done|]. constructor; [|constructor]. split; cbn; try done; lia.
  - rewrite total_app. unfold total at 2, owed at 2. cbn. lia.
  - congruence.
Qed.

Lemma bw_step_ok s s' : bw_step s s' -> bw_ok s -> bw_ok s'.
Proof.
  intros Hs [Hc Hm]. destruct Hs as [cs m|k limit cs m Hl|peer blk priority chans cs m Hb Hp Hj|dt disconnecting cs m m' cs' grants Hdt Hu|cs m]; cbn [fst snd] in *.
  - split.
    + intros k Hk. cbn [fst] in *. rewrite length_app in Hk. cbn in Hk. destruct (decide (k < length cs)%nat).
      * rewrite lookup_total_app_l by done. by apply Hc.
      * rewrite lookup_total_app_r by lia. replace (k - length cs)%nat with 0%nat by lia. cbn. lia.
    + destruct Hm as [H1 H2 H3]. split; [|done|done]. eapply Forall_impl; [exact H1|]. intros r. apply request_ok_more. cbn. rewrite length_app. lia.
  - split; [|destruct Hm as [H1 H2 H3]; split; [|done|done]; cbn; by rewrite length_alter]. intros i Hi. cbn in *. rewrite length_alter in Hi.
    destruct (decide (k = i)) as [->|E]; [|rewrite lookup_total_alter_ne by done; by apply Hc]. rewrite lookup_total_alter_eq by done. cbn. split; [by apply Hc|done].
  - split; [done|]. by apply request_bandwidth_ok.
  - split; [by eapply update_quotas_channels|]. pose proof (update_quotas_ok dt disconnecting cs m Hm) as H. rewrite Hu in H. apply H.
  - split; [done|]. split; cbn; [constructor|done|done].
Qed.

Lemma bw_reachable_ok s : rtc bw_step ([], manager_new) s -> bw_ok s.
Proof.
  intros Hr. remember ([], manager_new) as s0 eqn:E. assert (bw_ok s0) as H0.
  { subst. split; [intros k Hk; cbn in Hk; lia|]. split; [constructor|done|done]. }
  clear E. induction Hr as [|s1 s2 s3 Hs _ IH]; [done|]. apply IH. by eapply bw_step_ok.
Qed.

(** ** Properties *)

(** C32: whatever requests are made and however the limits change, the number of
    bytes the manager owes is the sum of what its requests still want
    ([check_invariant]), every request wants something and every quota is at least 0:
    no channel hands out bytes it does not have. *)
Theorem bandwidth_accounted cs m :
  rtc bw_step ([], manager_new) (cs, m) ->
  check_invariant m = true /\ Forall (fun r => 0 <= assigned r < request_size r) (m_queue m) /\ Forall (fun c => 0 <= m_quota_left c) cs.
Proof.
  intros Hr. destruct (bw_reachable_ok _ Hr) as [Hc [Hq Hb _]]. cbn [fst snd] in *. split_and!.
  - unfold check_invariant. apply Z.eqb_eq. rewrite (foldl_total owed). rewrite Hb. lia.
  - eapply Forall_impl; [exact Hq|]. by intros r [].
  - apply Forall_lookup. intros k c Hk. rewrite <- (list_lookup_total_correct _ _ _ Hk). apply Hc. by eapply lookup_lt_Some.
Qed.

(** C25: what a round of [update_quotas] does.  The requests of peers that disconnect
    go and return their bytes; every other one is a round older ([aged]) with at
    least the bytes it had and at most those it wants, and is in the queue or
    granted, once; the peers are given the bytes of the granted ones.  On every
    limited channel the bytes given are taken from the quota; they are at most what
    is available, the quota with the bytes of the time that has passed, and at most
    those of three seconds. *)
Theorem round_accounted cs m dt disconnecting m' cs' grants :
  rtc bw_step ([], manager_new) (cs, m) -> 0 <= dt -> update_quotas dt disconnecting cs m = (m', cs', grants) ->
  let kept := filter (fun r => disconnecting (bw_peer r) = false) (m_queue m) in
  exists granted l',
    Forall2 aged kept l' /\ l' ≡ₚ m_queue m' ++ granted /\ grants = (fun r => (bw_peer r, assigned r)) <$> reverse granted /\
    Forall (fun r => 0 < assigned r) granted /\
    forall k, (k < length cs)%nat -> m_limit (cs !!! k) <> 0 ->
      let avail := available dt (bool_decide (waits_for k kept)) (total (on_channel k) (m_queue m) - total (on_channel k) kept) (cs !!! k) in
      m_quota_left (cs' !!! k) = avail - given k kept l' /\ 0 <= given k kept l' <= avail /\ given k kept l' <= 3 * m_limit (cs !!! k).
Proof.
  intros Hr Hdt Hu kept. destruct (bw_reachable_ok _ Hr) as [Hc Hm]. cbn [fst snd] in Hc, Hm. pose proof (update_quotas_ok dt disconnecting cs m Hm) as H. rewrite Hu in H.
  destruct H as (_ & _ & _ & granted & l' & H1 & H2 & H3 & H4 & H5). exists granted, l'. split_and!; [done..|]. intros k Hk Hlim. cbv zeta.
  destruct (H5 k Hk Hlim) as [E1 E2]. fold kept in E1, E2, H1. pose proof (update_quotas_channels dt disconnecting cs m m' cs' grants Hdt Hc Hm Hu k) as E3.
  pose proof (update_quotas_ok dt disconnecting cs m Hm) as H. rewrite Hu in H. destruct H as (_ & Hlen & _). destruct (E3 ltac:(lia)) as [E4 _]. destruct (Hc k Hk) as [_ E5].
  split_and!; [done|lia|lia|]. unfold available in *. case_bool_decide as Hw; [lia|]. rewrite (given_idle k kept l' H1 Hw). lia.
Qed.

(** Rounds one after the other, with the time of each and who disconnects. *)
Fixpoint rounds (l : list (Z * (Z -> bool))) (cs : channels) (m : bandwidth_manager) : bandwidth_manager * channels * list (Z * Z) :=
  match l with
  | [] => (m, cs, [])
  | (dt, disconnecting) :: l =>
      let '(m, cs, grants) := update_quotas dt disconnecting cs m in
      let '(m, cs, grants') := rounds l cs m in (m, cs, grants ++ grants')
  end.

Lemma rounds_aged l cs m :
  manager_ok cs m ->
  let '(m', cs', grants) := rounds l cs m in
  manager_ok cs' m' /\ Forall (fun r' => exists r, r ∈ m_queue m /\ bw_peer r = bw_peer r' /\ ttl r' = ttl r - Z.of_nat (length l) /\ assigned r <= assigned r') (m_queue m').
Proof.
  revert cs m. induction l as [|[dt disconnecting] l IH]; intros cs m Hm; cbn [rounds].
  - split; [done|]. rewrite Forall_forall. intros r Hr. exists r. cbn. split_and!; done || lia.
  - pose proof (update_quotas_ok dt disconnecting cs m Hm) as H. destruct (update_quotas dt disconnecting cs m) as [[m1 cs1] g1]. destruct H as (Hm1 & _ & _ & granted & l' & F1 & F2 & _).
    specialize (IH cs1 m1 Hm1). destruct (rounds l cs1 m1) as [[m' cs'] g']. destruct IH as [Hm' IH]. split; [done|]. eapply Forall_impl; [exact IH|].
    intros r' (r1 & Hr1 & P1 & T1 & A1). assert (r1 ∈ l') as Hin by (rewrite F2; apply elem_of_app; by left).
    apply list_elem_of_lookup in Hin as (i & Hi). destruct (Forall2_lookup_r _ _ _ _ _ F1 Hi) as (r & Hr & (B1 & _ & _ & _ & B5 & B6)).
    exists r. apply list_elem_of_lookup_2, list_elem_of_filter in Hr as [_ Hr]. cbn [length]. split_and!; [done|congruence|lia|lia].
Qed.

(** A request that has been given any bytes is answered within 20 rounds, however
    low the limits are: what is still in the queue then has got nothing. *)
Theorem answered_in_20_rounds cs m l m' cs' grants :
  rtc bw_step ([], manager_new) (cs, m) -> (20 <= length l)%nat -> rounds l cs m = (m', cs', grants) ->
  Forall (fun r' => exists r, r ∈ m_queue m /\ bw_peer r = bw_peer r' /\ assigned r = 0 /\ assigned r' = 0) (m_queue m').
Proof.
  intros Hr Hl Hrounds. destruct (bw_reachable_ok _ Hr) as [_ Hm]. pose proof (rounds_aged l cs m Hm) as H. rewrite Hrounds in H. destruct H as [[Hq _ _] Ha]. cbn [snd] in *.
  rewrite Forall_forall in *. intros r' Hr'. destruct (Ha r' Hr') as (r & Hin & Hp & Ht & Hle). destruct (Hq r' Hr') as [_ _ _ Ht' _].
  destruct (proj1 (Forall_forall _ _) (mg_queue _ _ Hm) r Hin) as [Ha0 _ _ _ H20].
  exists r. split_and!; [done|done|lia|lia].
Qed.

(** ** Instances *)

Definition example_channels : channels := alter (throttle 300) 1%nat (alter (throttle 1000) 0%nat ([channel_new] ++ [channel_new])).
Definition example_manager : bandwidth_manager :=
  (request_bandwidth 2 500 2 [Some 0; None; Some 1]%nat example_channels (request_bandwidth 1 2000 1 [Some 0%nat] example_channels manager_new).1).1.

Lemma example_bandwidth : rtc bw_step ([], manager_new) (example_channels, example_manager).
Proof.
  eapply rtc_l; [apply bw_channel_step|]. eapply rtc_l; [apply bw_channel_step|]. eapply rtc_l; [apply (bw_throttle_step 0%nat 1000); lia|].
  eapply rtc_l; [apply (bw_throttle_step 1%nat 300); lia|].
  eapply rtc_l; [apply (bw_request_step 1 2000 1 [Some 0%nat]); [lia|lia|]; intros j ?%list_elem_of_singleton; simplify_eq; cbn; lia|].
  eapply rtc_l; [|apply rtc_refl]. apply (bw_request_step 2 500 2 [Some 0; None; Some 1]%nat); [lia|lia|].
  intros j Hj. rewrite !elem_of_cons, elem_of_nil in Hj. cbn. destruct Hj as [?|[?|[?|?]]]; simplify_eq; lia || done.
Qed.

Lemma bandwidth_accounted_witness : check_invariant example_manager = true /\ m_queued_bytes example_manager = 2500.
Proof. split; [|by vm_compute]. apply (bandwidth_accounted example_channels example_manager example_bandwidth). Defined.

Definition no_one : Z -> bool := fun _ => false.
Definition example_round := update_quotas 1000 no_one example_channels example_manager.

Lemma round_accounted_witness :
  exists granted l', Forall2 aged (m_queue example_manager) l' /\ l' ≡ₚ m_queue example_round.1.1 ++ granted /\
    m_quota_left (example_round.1.2 !!! 1%nat) = 300 - given 1 (m_queue example_manager) l'.
Proof.
  destruct (round_accounted example_channels example_manager 1000 no_one example_round.1.1 example_round.1.2 example_round.2 example_bandwidth)
    as (granted & l' & H1 & H2 & _ & _ & H3); [lia|by vm_compute|]. exists granted, l'. split_and!; [exact H1|exact H2|].
  destruct (H3 1%nat) as [H4 _]; [vm_compute; lia|by vm_compute|]. exact H4.
Defined.

Definition example_rounds := rounds (replicate 20 (1000, no_one)) example_channels example_manager.

Lemma answered_in_20_rounds_witness :
  Forall (fun r' => exists r, r ∈ m_queue example_manager /\ bw_peer r = bw_peer r' /\ assigned r = 0 /\ assigned r' = 0) (m_queue example_rounds.1.1).
Proof.
  apply (answered_in_20_rounds example_channels example_manager (replicate 20 (1000, no_one)) example_rounds.1.1 example_rounds.1.2 example_rounds.2 example_bandwidth);
    [by rewrite length_replicate|]. unfold example_rounds. destruct (rounds _ _ _) as [[m' cs'] g]. done.
Defined.
