(* ===== verification/PacketBuffer.v ===== *)
(** * The packet buffer of uTP: src/packet_buffer.cpp, include/libed2k/packet_buffer.hpp

    The circular buffer that holds sent packets until they are acknowledged and
    received ones until those before them have come, by their 16-bit sequence
    numbers.  A null pointer is 0.  The capacity is the length of [m_storage], a
    power of two. *)

From S2P Require Import Prelude.
From stdpp Require Import list gmap.
Open Scope Z_scope.

(** [compare_less_wrap] of src/utp_stream.cpp *)
Definition compare_less_wrap (lhs rhs mask : Z) : bool :=
  let dist_down := Z.land (to_uint 4 (lhs - rhs)) mask in
  let dist_up := Z.land (to_uint 4 (rhs - lhs)) mask in
  dist_up <? dist_down.

Record packet_buffer := Buffer { m_storage : list Z; m_size : Z; m_first : Z; m_last : Z }.

Definition m_capacity (t : packet_buffer) : Z := Z.of_nat (length (m_storage t)).
Definition packet_buffer_new : packet_buffer := Buffer [] 0 0 0.

(** [m_storage[i & (m_capacity - 1)]] *)
Definition place (cap i : Z) : nat := Z.to_nat (Z.land i (cap - 1)).
Definition slot (t : packet_buffer) (i : Z) : Z := m_storage t !!! place (m_capacity t) i.

Definition cursor (t : packet_buffer) : Z := m_first t.
Definition span (t : packet_buffer) : Z := Z.land (m_last t - m_first t) 0xffff.

(** [while (new_size < size) new_size <<= 1] *)
Fixpoint grow (fuel : nat) (new_size size : Z) : Z :=
  match fuel with
  | O => new_size
  | S fuel => if new_size <? size then grow fuel (Z.shiftl new_size 1) size else new_size
  end.

(** The loop that copies [n] elements from [i] on. *)
Fixpoint copy_elements (n : nat) (i : Z) (t : packet_buffer) (new_storage : list Z) : list Z :=
  match n with
  | O => new_storage
  | S n => copy_elements n (i + 1) t (<[place (Z.of_nat (length new_storage)) i := slot t i]> new_storage)
  end.

Definition reserve (size : Z) (t : packet_buffer) : packet_buffer :=
  let new_size := grow 16 (if m_capacity t =? 0 then 16 else m_capacity t) size in
  Buffer (copy_elements (length (m_storage t)) (m_first t) t (replicate (Z.to_nat new_size) 0)) (m_size t) (m_first t) (m_last t).

(** The empty slots before [m_first]: [i] goes down to [m_first]. *)
Fixpoint free_loop (fuel : nat) (i : Z) (free_space : Z) (t : packet_buffer) : Z :=
  match fuel with
  | O => free_space
  | S fuel =>
      if (place (m_capacity t) i =? place (m_capacity t) (m_first t))%nat then free_space
      else if negb (slot t i =? 0) then free_space
      else free_loop fuel (i - 1) (free_space + 1) t
  end.

Definition free_space (t : packet_buffer) : Z := free_loop (length (m_storage t)) (m_first t - 1) 0 t.

(** The buffer with room for [idx], when it has elements. *)
Definition make_room (idx : Z) (t : packet_buffer) : packet_buffer :=
  if compare_less_wrap idx (m_first t) 0xffff then
    let free_space := free_space t in
    let before := Z.land (m_first t - idx) 0xffff in
    let t := if free_space <? before then reserve (before + m_capacity t - free_space) t else t in
    Buffer (m_storage t) (m_size t) idx (m_last t)
  else if m_first t + m_capacity t <=? idx then reserve (idx - m_first t + 1) t
  else if idx <? m_first t then
    let wrapped := Z.land (m_first t + m_capacity t) 0xffff in
    if (wrapped <=? idx) && (m_capacity t <? 0xffff) then reserve (m_capacity t + (idx + 1 - wrapped)) t else t
  else t.

Definition set_last (last : Z) (t : packet_buffer) : packet_buffer := Buffer (m_storage t) (m_size t) (m_first t) last.

Definition at_ (idx : Z) (t : packet_buffer) : Z :=
  if m_first t + m_capacity t <=? idx then 0
  else if compare_less_wrap idx (m_first t) 0xffff then 0
  else slot t idx.

(** The loops of [remove] that look for the next and the previous element. *)
Fixpoint next_used (n : nat) (i : Z) (t : packet_buffer) : Z :=
  match n with
  | O => i
  | S n => if negb (slot t i =? 0) then i else next_used n (i + 1) t
  end.

Fixpoint previous_used (n : nat) (i : Z) (t : packet_buffer) : Z :=
  match n with
  | O => i
  | S n => if negb (slot t i =? 0) then i else previous_used n (i - 1) t
  end.

Definition remove (idx : Z) (t : packet_buffer) : packet_buffer * Z :=
  if m_first t + m_capacity t <=? idx then (t, 0)
  else if compare_less_wrap idx (m_first t) 0xffff then (t, 0)
  else
    let old_value := slot t idx in
    let size := if old_value =? 0 then m_size t else m_size t - 1 in
    let last := if negb (old_value =? 0) && (size =? 0) then m_first t else m_last t in
    let t := Buffer (<[place (m_capacity t) idx := 0]> (m_storage t)) size (m_first t) last in
    let t :=
      if (idx =? m_first t) && negb (size =? 0)
      then Buffer (m_storage t) size (Z.land (next_used (length (m_storage t)) (m_first t + 1) t) 0xffff) (m_last t) else t in
    let t :=
      if (Z.land (idx + 1) 0xffff =? m_last t) && negb (size =? 0)
      then Buffer (m_storage t) size (m_first t) (Z.land (previous_used (length (m_storage t)) (m_last t - 1) t + 1) 0xffff) else t in
    (t, old_value).

(** The end of [insert]: the element is stored, the old value is the result. *)
Definition put (idx value : Z) (t : packet_buffer) : packet_buffer * Z :=
  let old_value := slot t idx in
  (Buffer (<[place (m_capacity t) idx := value]> (m_storage t)) (if old_value =? 0 then m_size t + 1 else m_size t)
     (if m_size t =? 0 then idx else m_first t) (m_last t), old_value).

(** A null pointer removes. *)
Definition insert (idx value : Z) (t : packet_buffer) : packet_buffer * Z :=
  if value =? 0 then remove idx t else
  let next := Z.land (idx + 1) 0xffff in
  let t :=
    if negb (m_size t =? 0) then
      let t := make_room idx t in
      if compare_less_wrap (m_last t) next 0xffff then set_last next t else t
    else Buffer (m_storage t) (m_size t) idx next in
  let t := if m_capacity t =? 0 then reserve 16 t else t in
  put idx value t.

(** ** Places *)

Definition pow2_cap (cap : Z) : Prop := exists c, 4 <= c <= 16 /\ cap = 2 ^ c.

Lemma pow2_cap_range cap : pow2_cap cap -> 16 <= cap <= 65536.
Proof.
  intros (c & Hc & ->). change 16 with (2 ^ 4). change 65536 with (2 ^ 16). split; apply Z.pow_le_mono_r; lia.
Qed.

Lemma place_mod cap i : pow2_cap cap -> place cap i = Z.to_nat (i mod cap).
Proof. intros (c & Hc & ->). unfold place. rewrite Z.sub_1_r, <- Z.ones_equiv. by rewrite Z.land_ones by lia. Qed.

Lemma mask_mod i : Z.land i 0xffff = i mod 65536.
Proof. change 0xffff with (Z.ones 16). by rewrite Z.land_ones by lia. Qed.

Lemma place_lt cap i : pow2_cap cap -> (place cap i < Z.to_nat cap)%nat.
Proof. intros Hc. rewrite place_mod by done. pose proof (pow2_cap_range cap Hc). pose proof (Z.mod_pos_bound i cap ltac:(lia)). lia. Qed.

(** The capacity divides the range of sequence numbers. *)
Lemma wrap_mod cap i j : pow2_cap cap -> i mod 65536 = j mod 65536 -> i mod cap = j mod cap.
Proof.
  intros (c & Hc & ->) E. assert (forall x, x mod 2 ^ c = (x mod 65536) mod 2 ^ c) as H.
  { intros x. symmetry. apply Z.mod_mod_divide. exists (2 ^ (16 - c)). change 65536 with (2 ^ 16). rewrite <- Z.pow_add_r by lia. f_equal. lia. }
  rewrite (H i), (H j). by rewrite E.
Qed.

Lemma place_wrap cap i j : pow2_cap cap -> i mod 65536 = j mod 65536 -> place cap i = place cap j.
Proof. intros Hc E. rewrite !place_mod by done. f_equal. by apply wrap_mod. Qed.

Lemma place_inj cap f a b : pow2_cap cap -> 0 <= a < cap -> 0 <= b < cap -> place cap (f + a) = place cap (f + b) -> a = b.
Proof.
  intros Hc Ha Hb E. rewrite !place_mod in E by done. pose proof (pow2_cap_range cap Hc).
  pose proof (Z.mod_pos_bound (f + a) cap ltac:(lia)). pose proof (Z.mod_pos_bound (f + b) cap ltac:(lia)). apply Z2Nat.inj in E; [|lia..].
  pose proof (Z.div_mod (f + a) cap ltac:(lia)). pose proof (Z.div_mod (f + b) cap ltac:(lia)).
  set (k := (f + a) / cap - (f + b) / cap). assert (a - b = cap * k) by (unfold k; lia). assert (k = 0) by (destruct (Z.lt_trichotomy k 0) as [?|[?|?]]; nia). lia.
Qed.

(** [compare_less_wrap] on 16-bit numbers compares distances. *)
Lemma compare_less_wrap_16 lhs rhs : compare_less_wrap lhs rhs 0xffff = ((rhs - lhs) mod 65536 <? (lhs - rhs) mod 65536).
Proof.
  unfold compare_less_wrap, to_uint. rewrite !mask_mod. assert (forall x, (x mod 2 ^ (Z.of_nat 4 * 8)) mod 65536 = x mod 65536) as H.
  { intros x. apply Z.mod_mod_divide. by exists 65536. }
  by rewrite !H.
Qed.

(** ** The buffer from [m_first] on *)

(** The elements in the order of their numbers. *)
Definition viewed (t : packet_buffer) (w : list Z) : Prop :=
  length w = length (m_storage t) /\ forall off, (off < length w)%nat -> slot t (m_first t + Z.of_nat off) = w !!! off.

Lemma slot_wrap t i j : pow2_cap (m_capacity t) -> i mod 65536 = j mod 65536 -> slot t i = slot t j.
Proof. intros Hc E. unfold slot. by rewrite (place_wrap _ _ _ Hc E). Qed.

(** The same storage from another number on. *)
Lemma viewed_rotate t t' a b :
  pow2_cap (m_capacity t) -> viewed t (a ++ b) -> m_storage t' = m_storage t ->
  m_first t' mod m_capacity t = (m_first t + Z.of_nat (length a)) mod m_capacity t -> viewed t' (b ++ a).
Proof.
  intros Hc [Hl Hv] Es Ef. assert (m_capacity t' = m_capacity t) as Ec by (unfold m_capacity; by rewrite Es). rewrite length_app in Hl.
  split; [rewrite Es, length_app; lia|]. intros off Hoff. rewrite length_app in Hoff.
  assert (slot t' (m_first t' + Z.of_nat off) = slot t (m_first t + Z.of_nat (length a) + Z.of_nat off)) as ->.
  { unfold slot. rewrite Es, Ec. f_equal. pose proof (pow2_cap_range _ Hc). rewrite !place_mod by done. f_equal. rewrite Z.add_mod, Ef, <- Z.add_mod by lia. done. }
  destruct (decide (off < length b)%nat) as [Hb|Hb].
  - rewrite lookup_total_app_l by done. replace (m_first t + Z.of_nat (length a) + Z.of_nat off) with (m_first t + Z.of_nat (length a + off)) by lia.
    rewrite Hv by (rewrite length_app; lia). rewrite lookup_total_app_r by lia. f_equal. lia.
  - rewrite lookup_total_app_r by lia. transitivity (slot t (m_first t + Z.of_nat (off - length b))).
    + unfold slot. f_equal. rewrite !place_mod by done. f_equal. pose proof (pow2_cap_range _ Hc).
      replace (m_first t + Z.of_nat (length a) + Z.of_nat off) with (m_first t + Z.of_nat (off - length b) + 1 * m_capacity t) by (unfold m_capacity; lia).
      apply Z.mod_add. lia.
    + rewrite Hv by (rewrite length_app; lia). rewrite lookup_total_app_l by lia. done.
Qed.

Lemma viewed_set t w off v n f l :
  pow2_cap (m_capacity t) -> viewed t w -> (off < length w)%nat -> f = m_first t ->
  viewed (Buffer (<[place (m_capacity t) (m_first t + Z.of_nat off) := v]> (m_storage t)) n f l) (<[off := v]> w).
Proof.
  intros Hc [Hl Hv] Hoff ->. split; [cbn; by rewrite !length_insert|]. intros i Hi. rewrite length_insert in Hi. unfold slot, m_capacity in *. cbn. rewrite length_insert.
  destruct (decide (i = off)) as [->|Hne].
  - rewrite !list_lookup_total_insert_eq; [done|lia|]. pose proof (place_lt _ (m_first t + Z.of_nat off) Hc). lia.
  - rewrite !list_lookup_total_insert_ne; [by apply Hv|done|]. intros E. apply Hne. apply place_inj in E; [lia|done|lia|lia].
Qed.

Lemma viewed_slot t w i d : pow2_cap (m_capacity t) -> viewed t w -> (i - m_first t) mod 65536 = Z.of_nat d -> (d < length w)%nat -> slot t i = w !!! d.
Proof.
  intros Hc [Hl Hv] Ed Hd. rewrite <- Hv by done. apply slot_wrap; [done|]. rewrite <- Ed. rewrite Zplus_mod_idemp_r. f_equal. lia.
Qed.

Lemma place_offset t i d : pow2_cap (m_capacity t) -> (i - m_first t) mod 65536 = Z.of_nat d -> place (m_capacity t) i = place (m_capacity t) (m_first t + Z.of_nat d).
Proof. intros Hc Ed. apply place_wrap; [done|]. rewrite <- Ed, Zplus_mod_idemp_r. f_equal. lia. Qed.

(** ** Growing *)

Lemma grow_spec fuel c size :
  4 <= c <= 16 -> 16 <= c + Z.of_nat fuel -> size <= 2 ^ 16 -> exists c', c <= c' <= 16 /\ grow fuel (2 ^ c) size = 2 ^ c' /\ size <= 2 ^ c'.
Proof.
  revert c. induction fuel as [|fuel IH]; intros c Hc H16 Hs; cbn [grow].
  - exists c. assert (c = 16) as -> by lia. split_and!; done.
  - destruct (Z.ltb_spec (2 ^ c) size) as [Hlt|Hge]; [|exists c; split_and!; done || lia]. rewrite Z.shiftl_mul_pow2 by lia. rewrite <- Z.pow_add_r by lia.
    assert (c < 16) as Hc16. { destruct (Z.lt_ge_cases c 16); [done|]. assert (c = 16) as -> by lia. lia. }
    destruct (IH (c + 1)) as (c' & H1 & H2 & H3); [lia|lia|done|]. exists c'. split_and!; [lia|lia|done|done].
Qed.

(** The loop has copied the elements from [off] on to their places. *)
Lemma copy_elements_spec n off t (w : list Z) cap new_storage :
  pow2_cap cap -> Z.of_nat (length new_storage) = cap -> Z.of_nat (off + n) <= cap -> (off + n = length w)%nat ->
  (forall k, (k < length w)%nat -> slot t (m_first t + Z.of_nat k) = w !!! k) ->
  (forall k, Z.of_nat k < cap -> new_storage !!! place cap (m_first t + Z.of_nat k) = if (k <? off)%nat then w !!! k else 0) ->
  let s := copy_elements n (m_first t + Z.of_nat off) t new_storage in
  Z.of_nat (length s) = cap /\ forall k, Z.of_nat k < cap -> s !!! place cap (m_first t + Z.of_nat k) = if (k <? length w)%nat then w !!! k else 0.
Proof.
  intros Hc. revert off new_storage. induction n as [|n IH]; intros off s Hs Hn Hw Hslot Hk; cbn [copy_elements]; cbv zeta.
  - split; [done|]. intros k Hk'. rewrite Hk by done. by replace (length w) with off by lia.
  - rewrite Hs. replace (m_first t + Z.of_nat off + 1) with (m_first t + Z.of_nat (S off)) by lia. apply IH; [by rewrite length_insert|lia|lia|done|].
    intros k Hk'. pose proof (place_lt _ (m_first t + Z.of_nat off) Hc). destruct (decide (k = off)) as [->|Hne].
    + rewrite list_lookup_total_insert_eq by lia. rewrite Hslot by lia. by rewrite (proj2 (Nat.ltb_lt _ _)) by lia.
    + rewrite list_lookup_total_insert_ne by (intros E; apply Hne; apply place_inj in E; [lia|done|lia|lia]). rewrite Hk by done.
      destruct (Nat.ltb_spec k off), (Nat.ltb_spec k (S off)); done || lia.
Qed.

Lemma reserve_viewed t w size :
  m_capacity t = 0 \/ pow2_cap (m_capacity t) -> viewed t w -> size <= 65536 ->
  exists k, viewed (reserve size t) (w ++ replicate k 0) /\ pow2_cap (m_capacity (reserve size t)) /\ size <= m_capacity (reserve size t) /\
    m_first (reserve size t) = m_first t /\ m_size (reserve size t) = m_size t /\ m_last (reserve size t) = m_last t.
Proof.
  intros Hcap [Hl Hv] Hs. assert (exists c, 4 <= c <= 16 /\ (if m_capacity t =? 0 then 16 else m_capacity t) = 2 ^ c /\ m_capacity t <= 2 ^ c) as (c & Hc & Ec & Hle).
  { destruct Hcap as [E|(c & Hc & E)]; rewrite E; [exists 4; cbn; lia|]. exists c. rewrite (proj2 (Z.eqb_neq _ _)) by (apply Z.pow_nonzero; lia). lia. }
  destruct (grow_spec 16 c size Hc ltac:(lia) Hs) as (c' & Hc' & Eg & Hge).
  unfold reserve. rewrite Ec, Eg. pose proof (Z.pow_le_mono_r 2 c c' ltac:(lia) ltac:(lia)) as Hmono.
  assert (pow2_cap (2 ^ c')) as Hp by (exists c'; lia). pose proof (pow2_cap_range _ Hp) as Hr.
  destruct (copy_elements_spec (length (m_storage t)) 0 t w (2 ^ c') (replicate (Z.to_nat (2 ^ c')) 0) Hp) as [E1 E2].
  { rewrite length_replicate. lia. }
  { unfold m_capacity in Hle. lia. }
  { done. }
  { done. }
  { intros k Hk. cbn. pose proof (place_lt _ (m_first t + Z.of_nat k) Hp). by rewrite lookup_total_replicate_2 by lia. }
  rewrite Z.add_0_r in *. set (s := copy_elements _ _ _ _) in *. assert (length s = Z.to_nat (2 ^ c')) as El by lia.
  exists (length s - length w)%nat. unfold m_capacity in *. cbn. rewrite E1. split_and!; [|done|done|done|done|done]. split; [cbn; rewrite length_app, length_replicate; lia|].
  intros off Hoff. rewrite length_app, length_replicate in Hoff. unfold slot, m_capacity. cbn. rewrite E1, E2 by lia. destruct (Nat.ltb_spec off (length w)).
  - by rewrite lookup_total_app_l.
  - rewrite lookup_total_app_r by lia. by rewrite lookup_total_replicate_2 by lia.
Qed.

(** ** Looking for elements *)

Lemma place_add_cap cap i : pow2_cap cap -> place cap (i + cap) = place cap i.
Proof. intros Hc. rewrite !place_mod by done. pose proof (pow2_cap_range _ Hc). f_equal. rewrite <- (Z.mul_1_l cap) at 1. apply Z.mod_add. lia. Qed.

Lemma free_loop_spec fuel j t u x z :
  pow2_cap (m_capacity t) -> viewed t (u ++ [x] ++ replicate z 0) -> x <> 0 -> (j <= z)%nat -> (z - j < fuel)%nat ->
  free_loop fuel (m_first t - 1 - Z.of_nat j) (Z.of_nat j) t = Z.of_nat z.
Proof.
  intros Hc [Hl Hv] Hx. rewrite !length_app, length_replicate in Hl. cbn [length] in Hl. revert j. induction fuel as [|fuel IH]; intros j Hj Hf; [lia|]. cbn [free_loop].
  set (off := (length u + z - j)%nat). assert (place (m_capacity t) (m_first t - 1 - Z.of_nat j) = place (m_capacity t) (m_first t + Z.of_nat off)) as Ep.
  { rewrite <- (place_add_cap _ (m_first t - 1 - Z.of_nat j)) by done. f_equal. unfold m_capacity, off. lia. }
  assert (slot t (m_first t - 1 - Z.of_nat j) = (u ++ [x] ++ replicate z 0) !!! off) as Es.
  { unfold slot. rewrite Ep. apply Hv. rewrite !length_app, length_replicate. cbn. unfold off. lia. }
  rewrite Es, Ep. destruct (Nat.eqb_spec (place (m_capacity t) (m_first t + Z.of_nat off)) (place (m_capacity t) (m_first t))) as [E|E].
  - rewrite <- (Z.add_0_r (m_first t)) in E at 2. apply place_inj in E; [|done|unfold m_capacity, off; lia|unfold m_capacity; lia]. unfold off in E. lia.
  - unfold off. rewrite lookup_total_app_r by lia. replace (length u + z - j - length u)%nat with (z - j)%nat by lia.
    destruct (z - j)%nat as [|r] eqn:Er.
    + cbn. rewrite (proj2 (Z.eqb_neq _ _) Hx). cbn. lia.
    + rewrite lookup_total_app_r by (cbn; lia). rewrite lookup_total_replicate_2 by (cbn; lia). cbn. replace (m_first t - 1 - Z.of_nat j - 1) with (m_first t - 1 - Z.of_nat (S j)) by lia.
      replace (Z.of_nat j + 1) with (Z.of_nat (S j)) by lia. apply IH; lia.
Qed.

Lemma next_used_spec n i k t :
  (forall j, (j < k)%nat -> slot t (i + Z.of_nat j) = 0) -> slot t (i + Z.of_nat k) <> 0 -> (k < n)%nat -> next_used n i t = i + Z.of_nat k.
Proof.
  revert i k. induction n as [|n IH]; intros i k Hz Hk Hn; [lia|]. cbn [next_used]. destruct k as [|k].
  - rewrite Z.add_0_r in *. by rewrite (proj2 (Z.eqb_neq _ _) Hk).
  - pose proof (Hz 0%nat ltac:(lia)) as H0. rewrite Z.add_0_r in H0. rewrite H0. cbn. rewrite (IH (i + 1) k); [lia| | |lia].
    + intros j Hj. specialize (Hz (S j) ltac:(lia)). rewrite <- Hz. f_equal. lia.
    + replace (i + 1 + Z.of_nat k) with (i + Z.of_nat (S k)) by lia. done.
Qed.

Lemma previous_used_spec n i k t :
  (forall j, (j < k)%nat -> slot t (i - Z.of_nat j) = 0) -> slot t (i - Z.of_nat k) <> 0 -> (k < n)%nat -> previous_used n i t = i - Z.of_nat k.
Proof.
  revert i k. induction n as [|n IH]; intros i k Hz Hk Hn; [lia|]. cbn [previous_used]. destruct k as [|k].
  - rewrite Z.sub_0_r in *. by rewrite (proj2 (Z.eqb_neq _ _) Hk).
  - pose proof (Hz 0%nat ltac:(lia)) as H0. rewrite Z.sub_0_r in H0. rewrite H0. cbn. rewrite (IH (i - 1) k); [lia| | |lia].
    + intros j Hj. specialize (Hz (S j) ltac:(lia)). rewrite <- Hz. f_equal. lia.
    + replace (i - 1 - Z.of_nat k) with (i - Z.of_nat (S k)) by lia. done.
Qed.

(** ** What the buffer holds *)

Definition used (l : list Z) : Z := Z.of_nat (length (filter (fun x => x <> 0) l)).

(** The elements from the first to the last, with a null pointer where one is
    missing. *)
Record holds (t : packet_buffer) (u : list Z) : Prop := {
  h_capacity : (m_capacity t = 0 /\ u = [] /\ m_first t = 0) \/ pow2_cap (m_capacity t);
  h_first : 0 <= m_first t < 65536;
  h_length : Z.of_nat (length u) <= 32768;
  h_view : exists z, viewed t (u ++ replicate z 0);
  h_size : m_size t = used u;
  h_last : u <> [] -> m_last t = (m_first t + Z.of_nat (length u)) mod 65536;
  h_head : u <> [] -> u !!! 0%nat <> 0;
  h_end : u <> [] -> u !!! (length u - 1)%nat <> 0
}.

Lemma used_app l1 l2 : used (l1 ++ l2) = used l1 + used l2.
Proof. unfold used. rewrite filter_app, length_app. lia. Qed.

Lemma used_cons x l : used (x :: l) = (if x =? 0 then 0 else 1) + used l.
Proof. unfold used. rewrite filter_cons. destruct (Z.eqb_spec x 0) as [->|E]; [by rewrite decide_False by (by intros ?)|]. rewrite decide_True by done. cbn. lia. Qed.

Lemma used_zeros n : used (replicate n 0) = 0.
Proof. induction n as [|n IH]; [done|]. cbn [replicate]. rewrite used_cons, IH. done. Qed.

Lemma used_set l i v : (i < length l)%nat -> used (<[i := v]> l) = used l - (if l !!! i =? 0 then 0 else 1) + (if v =? 0 then 0 else 1).
Proof.
  intros Hi. destruct (lookup_lt_is_Some_2 l i Hi) as [x Hx]. rewrite (list_lookup_total_correct _ _ _ Hx). rewrite insert_take_drop by done.
  rewrite <- (take_drop_middle l i x Hx) at 3. rewrite !used_app, !used_cons. lia.
Qed.

Lemma used_nonneg l : 0 <= used l.
Proof. unfold used. lia. Qed.

Lemma used_pos l i : (i < length l)%nat -> l !!! i <> 0 -> 0 < used l.
Proof.
  intros Hi Hx. pose proof (used_set l i 0 Hi). rewrite (proj2 (Z.eqb_neq _ _) Hx) in H. cbn in H. pose proof (used_nonneg (<[i := 0]> l)). lia.
Qed.

(** The element with the number [i]. *)
Definition contents (first : Z) (u : list Z) (i : Z) : Z := default 0 (u !! Z.to_nat ((i - first) mod 65536)).

Lemma contents_app_zeros first u n i : contents first (u ++ replicate n 0) i = contents first u i.
Proof.
  unfold contents. set (d := Z.to_nat _). destruct (decide (d < length u)%nat); [by rewrite lookup_app_l|]. rewrite lookup_app_r by lia. rewrite (lookup_ge_None_2 u) by lia.
  destruct (replicate n 0 !! _) as [x|] eqn:E; [|done]. by apply lookup_replicate in E as [-> _].
Qed.

Lemma contents_set first u d idx v i :
  (d < length u)%nat -> (idx - first) mod 65536 = Z.of_nat d -> 0 <= idx < 65536 -> 0 <= i < 65536 ->
  contents first (<[d := v]> u) i = if i =? idx then v else contents first u i.
Proof.
  intros Hd Ed Hidx Hi. unfold contents. destruct (Z.eqb_spec i idx) as [->|Hne].
  - rewrite Ed, Nat2Z.id. by rewrite list_lookup_insert_eq.
  - rewrite list_lookup_insert_ne; [done|]. intros E. apply Hne. pose proof (Z.mod_pos_bound (i - first) 65536 ltac:(lia)).
    assert ((i - first) mod 65536 = (idx - first) mod 65536) as Em by lia.
    pose proof (Z.div_mod (i - first) 65536 ltac:(lia)). pose proof (Z.div_mod (idx - first) 65536 ltac:(lia)). lia.
Qed.

(** The numbers start [e] earlier. *)
Lemma contents_before first idx u e i :
  (first - idx) mod 65536 = Z.of_nat e -> Z.of_nat (e + length u) <= 32768 -> contents idx (replicate e 0 ++ u) i = contents first u i.
Proof.
  intros He Hle. unfold contents. pose proof (Z.mod_pos_bound (i - idx) 65536 ltac:(lia)) as H1. pose proof (Z.mod_pos_bound (i - first) 65536 ltac:(lia)) as H2.
  assert ((i - first) mod 65536 = ((i - idx) mod 65536 - Z.of_nat e) mod 65536) as Em.
  { rewrite <- He. rewrite <- Zminus_mod. f_equal. lia. }
  destruct (Z.lt_ge_cases ((i - idx) mod 65536) (Z.of_nat e)) as [Hlt|Hge].
  - rewrite lookup_app_l by (rewrite length_replicate; lia). rewrite lookup_replicate_2 by lia. rewrite (lookup_ge_None_2 u); [done|].
    assert ((i - first) mod 65536 = (i - idx) mod 65536 - Z.of_nat e + 65536) by (rewrite Em; symmetry; apply (Z.mod_unique_pos _ 65536 (-1)); lia). lia.
  - rewrite lookup_app_r by (rewrite length_replicate; lia). rewrite length_replicate. do 2 f_equal. rewrite (Z.mod_small (_ - Z.of_nat e)) in Em by lia. lia.
Qed.

Lemma put_holds t u z d idx v :
  pow2_cap (m_capacity t) -> 0 <= m_first t < 65536 -> Z.of_nat (length u) <= 32768 -> viewed t (u ++ replicate z 0) -> m_size t = used u ->
  m_last t = (m_first t + Z.of_nat (length u)) mod 65536 -> (d < length u)%nat -> (idx - m_first t) mod 65536 = Z.of_nat d -> v <> 0 ->
  <[d := v]> u !!! 0%nat <> 0 -> <[d := v]> u !!! (length u - 1)%nat <> 0 ->
  slot t idx = u !!! d /\
  forall f, f = m_first t ->
  holds (Buffer (<[place (m_capacity t) idx := v]> (m_storage t)) (if slot t idx =? 0 then m_size t + 1 else m_size t) f (m_last t)) (<[d := v]> u).
Proof.
  intros Hc Hf Hlen Hv Hsize Hlast Hd Ed Hne Hhead Hend.
  assert (slot t idx = u !!! d) as Es.
  { rewrite (viewed_slot t _ idx d Hc Hv Ed) by (rewrite length_app; lia). by rewrite lookup_total_app_l. }
  split; [done|]. intros f ->. split; cbn; rewrite ?length_insert; try done.
  - right. unfold m_capacity in *. cbn. by rewrite length_insert.
  - exists z. rewrite <- insert_app_l by done. rewrite (place_offset t idx d Hc Ed). apply viewed_set; [done|done| |done]. rewrite length_app. lia.
  - rewrite used_set by done. rewrite Es, Hsize, (proj2 (Z.eqb_neq _ _) Hne). destruct (u !!! d =? 0); lia.
Qed.

(** ** Inserting *)

Definition ahead (t : packet_buffer) (idx : Z) : Z := (idx - m_first t) mod 65536.
Definition behind (t : packet_buffer) (idx : Z) : Z := (m_first t - idx) mod 65536.

Lemma behind_ahead t idx : behind t idx = if ahead t idx =? 0 then 0 else 65536 - ahead t idx.
Proof.
  unfold behind, ahead. replace (m_first t - idx) with (- (idx - m_first t)) by lia. destruct (Z.eqb_spec ((idx - m_first t) mod 65536) 0) as [E|E].
  - by apply Z_mod_zero_opp_full.
  - by apply Z_mod_nz_opp_full.
Qed.

Lemma ahead_range t idx : 0 <= ahead t idx < 65536.
Proof. apply Z.mod_pos_bound. lia. Qed.

(** The number as it comes, with or without a wrap. *)
Lemma ahead_number t idx : 0 <= m_first t < 65536 -> 0 <= idx < 65536 -> m_first t + ahead t idx = if idx <? m_first t then idx + 65536 else idx.
Proof.
  intros Hf Hi. unfold ahead. destruct (Z.ltb_spec idx (m_first t)).
  - rewrite <- (Z.mod_unique_pos (idx - m_first t) 65536 (-1) (idx - m_first t + 65536)); lia.
  - rewrite Z.mod_small; lia.
Qed.

(** What the room for a number must allow: numbers within half of the range, and no
    wrap between the capacity and the number. *)
Definition insertable (t : packet_buffer) (idx : Z) : Prop :=
  if behind t idx <? ahead t idx then behind t idx + (m_last t - m_first t) mod 65536 <= 32768
  else ahead t idx < 32768 /\ (m_first t + m_capacity t < 65536 -> m_first t + ahead t idx < 65536).

Lemma holds_capacity t u : holds t u -> u <> [] -> pow2_cap (m_capacity t).
Proof. intros [[(_ & E & _)|Hc] _ _ _ _ _ _ _] Hu; done. Qed.

Lemma make_room_ahead t u idx :
  holds t u -> u <> [] -> 0 <= idx < 65536 -> ahead t idx <= behind t idx -> insertable t idx ->
  let t1 := make_room idx t in
  (exists z, viewed t1 (u ++ replicate z 0)) /\ pow2_cap (m_capacity t1) /\ ahead t idx < m_capacity t1 /\
  m_first t1 = m_first t /\ m_size t1 = m_size t /\ m_last t1 = m_last t.
Proof.
  intros Ht Hu Hidx Hnb Hins. pose proof (holds_capacity t u Ht Hu) as Hc. pose proof Ht as [_ Hf _ [z Hv] _ _ _ _]. pose proof (pow2_cap_range _ Hc) as Hcr.
  unfold insertable in Hins. rewrite (proj2 (Z.ltb_ge _ _) Hnb) in Hins. destruct Hins as [Hd Hwrap]. pose proof (ahead_range t idx) as Har. pose proof (ahead_number t idx Hf Hidx) as Han.
  assert (forall size, size = ahead t idx + 1 -> let t1 := reserve size t in (exists z, viewed t1 (u ++ replicate z 0)) /\ pow2_cap (m_capacity t1) /\
    ahead t idx < m_capacity t1 /\ m_first t1 = m_first t /\ m_size t1 = m_size t /\ m_last t1 = m_last t) as Hres.
  { intros size ->. destruct (reserve_viewed t _ (ahead t idx + 1) (or_intror Hc) Hv ltac:(lia)) as (k & R1 & R2 & R3 & R4 & R5 & R6). cbv zeta.
    split_and!; try done; [|lia]. exists (z + k)%nat. by rewrite replicate_add, app_assoc. }
  assert (ahead t idx < m_capacity t -> let t1 := t in (exists z, viewed t1 (u ++ replicate z 0)) /\ pow2_cap (m_capacity t1) /\
    ahead t idx < m_capacity t1 /\ m_first t1 = m_first t /\ m_size t1 = m_size t /\ m_last t1 = m_last t) as Hsame by (intros H; cbv zeta; split_and!; try done; by exists z).
  unfold make_room. rewrite compare_less_wrap_16. change ((m_first t - idx) mod 65536) with (behind t idx). change ((idx - m_first t) mod 65536) with (ahead t idx).
  rewrite (proj2 (Z.ltb_ge _ _) Hnb). destruct (Z.leb_spec (m_first t + m_capacity t) idx) as [H1|H1].
  - apply Hres. destruct (Z.ltb_spec idx (m_first t)); lia.
  - destruct (Z.ltb_spec idx (m_first t)) as [H2|H2]; [|apply Hsame; lia]. rewrite mask_mod. assert (65536 <= m_first t + m_capacity t) as H3.
    { destruct (Z.lt_ge_cases (m_first t + m_capacity t) 65536) as [H|H]; [|done]. specialize (Hwrap H). lia. }
    assert ((m_first t + m_capacity t) mod 65536 = m_first t + m_capacity t - 65536) as -> by (symmetry; apply (Z.mod_unique_pos _ 65536 1); lia).
    destruct (Z.leb_spec (m_first t + m_capacity t - 65536) idx) as [H4|H4]; cbn [andb]; [|apply Hsame; lia].
    destruct (Z.ltb_spec (m_capacity t) 65535) as [H5|H5]; [apply Hres; lia|]. apply Hsame.
    destruct Hc as (c & Hc & Ec). assert (c = 16) as -> by (destruct (Z.lt_ge_cases c 16) as [H|H]; [|lia];
      pose proof (Z.pow_le_mono_r 2 c 15 ltac:(lia) ltac:(lia)); change (2 ^ 15) with 32768 in *; lia). change (2 ^ 16) with 65536 in Ec. lia.
Qed.

Lemma snoc_end (u : list Z) : u <> [] -> u = take (length u - 1) u ++ [u !!! (length u - 1)%nat].
Proof.
  intros Hu. assert (length u - 1 < length u)%nat as H by (destruct u; [done|cbn; lia]). destruct (lookup_lt_is_Some_2 u _ H) as [x Hx].
  rewrite (list_lookup_total_correct _ _ _ Hx). rewrite <- (take_drop_middle u _ x Hx) at 1. f_equal. rewrite drop_ge by lia. done.
Qed.

Lemma holds_span t u : holds t u -> u <> [] -> (m_last t - m_first t) mod 65536 = Z.of_nat (length u).
Proof.
  intros [_ _ Hlen _ _ Hlast _ _] Hu. rewrite (Hlast Hu). rewrite Zminus_mod_idemp_l. replace (m_first t + Z.of_nat (length u) - m_first t) with (Z.of_nat (length u)) by lia.
  apply Z.mod_small. lia.
Qed.

Lemma make_room_before t u idx :
  holds t u -> u <> [] -> 0 <= idx < 65536 -> behind t idx < ahead t idx -> insertable t idx ->
  let t1 := make_room idx t in
  (exists z, viewed t1 ((replicate (Z.to_nat (behind t idx)) 0 ++ u) ++ replicate z 0)) /\ pow2_cap (m_capacity t1) /\
  m_first t1 = idx /\ m_size t1 = m_size t /\ m_last t1 = m_last t.
Proof.
  intros Ht Hu Hidx Hb Hins. pose proof (holds_capacity t u Ht Hu) as Hc. pose proof (holds_span t u Ht Hu) as Hsp. pose proof Ht as [_ Hf Hlen [z Hv] _ _ _ Hend].
  unfold insertable in Hins. rewrite (proj2 (Z.ltb_lt _ _) Hb), Hsp in Hins. pose proof (ahead_range t idx) as Har. pose proof (behind_ahead t idx) as Hba.
  assert (0 <= behind t idx) as Hb0 by (apply Z.mod_pos_bound; lia). assert (length u <> 0)%nat as Hu0 by (by destruct u).
  unfold make_room. rewrite compare_less_wrap_16. change ((m_first t - idx) mod 65536) with (behind t idx). change ((idx - m_first t) mod 65536) with (ahead t idx).
  rewrite (proj2 (Z.ltb_lt _ _) Hb), mask_mod. change ((m_first t - idx) mod 65536) with (behind t idx).
  assert (free_space t = Z.of_nat z) as Efree.
  { unfold free_space. pose proof Hv as [Hl _]. rewrite length_app, length_replicate in Hl. rewrite <- (free_loop_spec (length (m_storage t)) 0 t (take (length u - 1) u) (u !!! (length u - 1)%nat) z);
      [f_equal; lia|done| |by apply Hend|lia|lia]. rewrite app_assoc, <- (snoc_end u Hu). done. }
  rewrite Efree. assert (Z.of_nat z = m_capacity t - Z.of_nat (length u)) as Ez.
  { pose proof Hv as [Hl _]. rewrite length_app, length_replicate in Hl. unfold m_capacity. lia. }
  assert (exists t2 z2, (if Z.of_nat z <? behind t idx then reserve (behind t idx + m_capacity t - Z.of_nat z) t else t) = t2 /\ viewed t2 (u ++ replicate z2 0) /\
    pow2_cap (m_capacity t2) /\ behind t idx <= Z.of_nat z2 /\ m_first t2 = m_first t /\ m_size t2 = m_size t /\ m_last t2 = m_last t) as (t2 & z2 & -> & V2 & C2 & B2 & F2 & S2 & L2).
  { destruct (Z.ltb_spec (Z.of_nat z) (behind t idx)) as [H|H]; [|exists t, z; split_and!; done].
    destruct (reserve_viewed t _ (behind t idx + m_capacity t - Z.of_nat z) (or_intror Hc) Hv ltac:(lia)) as (k & R1 & R2 & R3 & R4 & R5 & R6).
    exists (reserve (behind t idx + m_capacity t - Z.of_nat z) t), (z + k)%nat. split_and!; try done; [by rewrite replicate_add, app_assoc|].
    pose proof R1 as [R7 _]. rewrite !length_app, !length_replicate in R7. unfold m_capacity in R3 at 2. lia. }
  cbn. split_and!; try done. exists (z2 - Z.to_nat (behind t idx))%nat. rewrite <- app_assoc. eapply (viewed_rotate t2 _ (u ++ replicate (z2 - Z.to_nat (behind t idx)) 0)); try done.
  - rewrite <- app_assoc, <- replicate_add. replace (z2 - Z.to_nat (behind t idx) + Z.to_nat (behind t idx))%nat with z2 by lia. done.
  - cbn. pose proof V2 as [V3 _]. rewrite length_app, length_replicate in V3. rewrite length_app, length_replicate, F2.
    replace (m_first t + Z.of_nat (length u + (z2 - Z.to_nat (behind t idx)))) with (m_first t - behind t idx + 1 * m_capacity t2) by (unfold m_capacity; lia).
    pose proof (pow2_cap_range _ C2). rewrite Z.mod_add by lia. apply (wrap_mod (m_capacity t2)); [done|]. unfold behind. rewrite Zminus_mod_idemp_r. f_equal. lia.
Qed.

Lemma holds_size t u : holds t u -> (m_size t =? 0) = true <-> u = [].
Proof.
  intros [_ _ _ _ Hs _ Hh _]. rewrite Hs, Z.eqb_eq. split; [|by intros ->]. intros E. destruct u as [|x u]; [done|]. pose proof (used_pos (x :: u) 0 ltac:(cbn; lia) ltac:(by apply Hh)). lia.
Qed.

(** The result of [insert] behind the room it has made. *)
Lemma insert_put t1 u z d idx v :
  v <> 0 -> pow2_cap (m_capacity t1) -> 0 <= m_first t1 < 65536 -> Z.of_nat (length u) <= 32768 -> viewed t1 (u ++ replicate z 0) -> m_size t1 = used u ->
  m_last t1 = (m_first t1 + Z.of_nat (length u)) mod 65536 -> (d < length u)%nat -> (idx - m_first t1) mod 65536 = Z.of_nat d -> 0 <= idx < 65536 ->
  (m_size t1 = 0 -> m_first t1 = idx) ->
  <[d := v]> u !!! 0%nat <> 0 -> <[d := v]> u !!! (length u - 1)%nat <> 0 ->
  exists u', holds (put idx v t1).1 u' /\ (put idx v t1).2 = contents (m_first t1) u idx /\
    forall i, 0 <= i < 65536 -> contents (m_first (put idx v t1).1) u' i = if i =? idx then v else contents (m_first t1) u i.
Proof.
  intros Hne Hc Hf Hlen Hv Hsize Hlast Hd Ed Hidx H0 Hhead Hend. unfold put. destruct (put_holds t1 u z d idx v Hc Hf Hlen Hv Hsize Hlast Hd Ed Hne Hhead Hend) as [Es Hh]. cbn [fst snd m_first].
  assert ((if m_size t1 =? 0 then idx else m_first t1) = m_first t1) as Ef by (destruct (Z.eqb_spec (m_size t1) 0) as [E|E]; [by rewrite (H0 E)|done]).
  exists (<[d := v]> u). rewrite Ef. split_and!; [by apply Hh| |].
  - rewrite Es. unfold contents. rewrite Ed, Nat2Z.id. destruct (lookup_lt_is_Some_2 u d Hd) as [x Hx]. rewrite Hx. cbn. by apply list_lookup_total_correct.
  - intros i Hi. by apply contents_set.
Qed.

Lemma zeros_insert_last (u : list Z) n v : <[(length u + n)%nat := v]> (u ++ replicate (S n) 0) = u ++ replicate n 0 ++ [v].
Proof. rewrite insert_app_r. f_equal. induction n as [|n IH]; [done|]. cbn [replicate]. cbn. f_equal. exact IH. Qed.

Lemma contents_zeros first n i : contents first (replicate n 0) i = 0.
Proof. exact (contents_app_zeros first [] n i). Qed.

(** An empty buffer can start anywhere. *)
Lemma viewed_empty t z t' : pow2_cap (m_capacity t) -> viewed t (replicate z 0) -> m_storage t' = m_storage t -> viewed t' (replicate z 0).
Proof.
  intros Hc Hv Es. pose proof (pow2_cap_range _ Hc). pose proof (Z.mod_pos_bound (m_first t' - m_first t) (m_capacity t) ltac:(lia)) as Hn.
  set (n := Z.to_nat ((m_first t' - m_first t) mod m_capacity t)). assert (n <= z)%nat as Hz by (destruct Hv as [Hl _]; rewrite length_replicate in Hl; unfold n; unfold m_capacity in *; lia).
  replace z with ((z - n) + n)%nat by lia. rewrite replicate_add. apply (viewed_rotate t t' (replicate n 0)); [done| |done|].
  - rewrite <- replicate_add. by replace (n + (z - n))%nat with z by lia.
  - rewrite length_replicate. unfold n. rewrite Z2Nat.id by lia. rewrite Zplus_mod_idemp_r. f_equal. lia.
Qed.

Lemma insert_empty t idx v :
  holds t [] -> 0 <= idx < 65536 -> v <> 0 ->
  exists u', holds (insert idx v t).1 u' /\ (insert idx v t).2 = 0 /\
    forall i, 0 <= i < 65536 -> contents (m_first (insert idx v t).1) u' i = if i =? idx then v else 0.
Proof.
  intros Ht Hidx Hne. unfold insert. rewrite (proj2 (Z.eqb_neq _ _) Hne), (proj2 (holds_size t [] Ht) eq_refl). cbn [negb]. pose proof Ht as [Hcap Hf _ [z Hv] Hsize _ _ _].
  set (t0 := Buffer (m_storage t) (m_size t) idx (Z.land (idx + 1) 65535)). change (m_capacity t0) with (m_capacity t).
  assert (exists t1 z1, (if m_capacity t =? 0 then reserve 16 t0 else t0) = t1 /\ viewed t1 ([0] ++ replicate z1 0) /\ pow2_cap (m_capacity t1) /\
    m_first t1 = idx /\ m_size t1 = 0 /\ m_last t1 = (idx + 1) mod 65536) as (t1 & z1 & -> & V & C & F & S & L).
  { assert (forall t1 k, viewed t1 (replicate k 0) -> pow2_cap (m_capacity t1) -> viewed t1 ([0] ++ replicate (k - 1) 0)) as Hk.
    { intros t1 k Hv1 Hc1. pose proof (pow2_cap_range _ Hc1). destruct k as [|k]; [destruct Hv1 as [Hl _]; cbn in Hl; unfold m_capacity in *; lia|].
      cbn. by rewrite Nat.sub_0_r. }
    assert (m_last t0 = (idx + 1) mod 65536) as Hl0 by apply mask_mod. destruct Hcap as [(E & _ & _)|Hc].
    - rewrite E. cbn. destruct (reserve_viewed t0 [] 16 (or_introl E)) as (k & R1 & R2 & R3 & R4 & R5 & R6); [|lia|].
      { unfold m_capacity in E. split; [cbn; lia|]. cbn. lia. }
      exists (reserve 16 t0), (k - 1)%nat. split_and!; try done. by apply Hk.
    - pose proof (pow2_cap_range _ Hc). rewrite (proj2 (Z.eqb_neq _ _)) by lia. exists t0, (z - 1)%nat. split_and!; try done. apply Hk; [|done]. by apply (viewed_empty t). }
  destruct (insert_put t1 [0] z1 0 idx v Hne C) as (u' & H1 & H2 & H3); try done; [lia|by rewrite L, F|cbn; lia|by rewrite F, Z.sub_diag|].
  exists u'. split_and!; [done|by rewrite H2; apply (contents_zeros _ 1)|]. intros i Hi. rewrite (H3 i Hi). by rewrite (contents_zeros _ 1).
Qed.

Lemma insert_behind t u idx v :
  holds t u -> u <> [] -> 0 <= idx < 65536 -> v <> 0 -> insertable t idx -> behind t idx < ahead t idx ->
  exists u', holds (insert idx v t).1 u' /\ (insert idx v t).2 = contents (m_first t) u idx /\
    forall i, 0 <= i < 65536 -> contents (m_first (insert idx v t).1) u' i = if i =? idx then v else contents (m_first t) u i.
Proof.
  intros Ht Hu Hidx Hne Hins Hb. destruct (make_room_before t u idx Ht Hu Hidx Hb Hins) as ((z & V) & C & F & S & L).
  pose proof (holds_span t u Ht Hu) as Hsp. pose proof Ht as [_ Hf Hlen _ Hsize Hlast Hhead Hend]. pose proof (pow2_cap_range _ C).
  unfold insertable in Hins. rewrite (proj2 (Z.ltb_lt _ _) Hb), Hsp in Hins. set (e := Z.to_nat (behind t idx)) in *.
  assert (0 < behind t idx) as Hb0. { pose proof (ahead_range t idx). rewrite behind_ahead in *. destruct (Z.eqb_spec (ahead t idx) 0); lia. }
  assert (length u <> 0)%nat as Hu0 by (by destruct u). assert (Z.of_nat e = behind t idx) as Ee by (unfold e; lia).
  unfold insert. rewrite (proj2 (Z.eqb_neq _ _) Hne). assert ((m_size t =? 0) = false) as -> by (apply not_true_is_false; rewrite (holds_size t u Ht); done). cbn [negb].
  assert (m_last t = (idx + Z.of_nat (e + length u)) mod 65536) as Hl.
  { rewrite (Hlast Hu), Nat2Z.inj_add, Ee. unfold behind. rewrite Z.add_assoc. rewrite <- (Zplus_mod_idemp_l (idx + _)), Zplus_mod_idemp_r, Zplus_mod_idemp_l. f_equal. lia. }
  rewrite compare_less_wrap_16, L, mask_mod.
  assert ((((idx + 1) mod 65536 - m_last t) mod 65536 <? (m_last t - (idx + 1) mod 65536) mod 65536) = false) as ->.
  { apply Z.ltb_ge. rewrite Hl, <- !Zminus_mod. replace (idx + Z.of_nat (e + length u) - (idx + 1)) with (Z.of_nat (e + length u) - 1) by lia.
    rewrite Z.mod_small by lia. replace (idx + 1 - (idx + Z.of_nat (e + length u))) with (1 - Z.of_nat (e + length u)) by lia.
    rewrite <- (Z.mod_unique_pos (1 - Z.of_nat (e + length u)) 65536 (-1) (65537 - Z.of_nat (e + length u))); lia. }
  rewrite (proj2 (Z.eqb_neq _ _)) by lia.
  pose proof (insert_put (make_room idx t) (replicate e 0 ++ u) z 0 idx v Hne C) as H'. rewrite length_app, length_replicate in H'.
  destruct (H' ltac:(lia) ltac:(lia) V) as (u' & H1 & H2 & H3); [|by rewrite L, F|lia|rewrite F, Z.sub_diag; done|done|done| | |].
  - rewrite S, Hsize, used_app, used_zeros. lia.
  - rewrite list_lookup_total_insert_eq; [done|]. rewrite length_app, length_replicate. lia.
  - rewrite list_lookup_total_insert_ne by lia. rewrite lookup_total_app_r by (rewrite length_replicate; lia). rewrite length_replicate.
    replace (e + length u - 1 - e)%nat with (length u - 1)%nat by lia. by apply Hend.
  - assert (forall i, contents idx (replicate e 0 ++ u) i = contents (m_first t) u i) as Ec by (intros i; apply contents_before; [done|lia]).
    rewrite F in *. exists u'. split_and!; [done|by rewrite H2, Ec|]. intros i Hi. by rewrite (H3 i Hi), Ec.
Qed.

(** The new end of the buffer. *)
Lemma last_ahead first (a b : nat) : (0 < a)%nat -> (0 < b)%nat -> Z.of_nat a <= 32768 -> Z.of_nat b <= 32768 ->
  compare_less_wrap ((first + Z.of_nat a) mod 65536) ((first + Z.of_nat b) mod 65536) 0xffff = (a <? b)%nat.
Proof.
  intros Ha0 Hb0 Ha Hb. rewrite compare_less_wrap_16, <- !Zminus_mod. replace (first + Z.of_nat b - (first + Z.of_nat a)) with (Z.of_nat b - Z.of_nat a) by lia.
  replace (first + Z.of_nat a - (first + Z.of_nat b)) with (Z.of_nat a - Z.of_nat b) by lia. destruct (Nat.ltb_spec a b).
  - rewrite (Z.mod_small (Z.of_nat b - Z.of_nat a)) by lia. apply Z.ltb_lt.
    rewrite <- (Z.mod_unique_pos (Z.of_nat a - Z.of_nat b) 65536 (-1) (65536 + Z.of_nat a - Z.of_nat b)); lia.
  - apply Z.ltb_ge. rewrite (Z.mod_small (Z.of_nat a - Z.of_nat b)) by lia. destruct (decide (a = b)) as [->|E]; [by rewrite Z.sub_diag|].
    rewrite <- (Z.mod_unique_pos (Z.of_nat b - Z.of_nat a) 65536 (-1) (65536 + Z.of_nat b - Z.of_nat a)); lia.
Qed.

Lemma insert_ahead t u idx v :
  holds t u -> u <> [] -> 0 <= idx < 65536 -> v <> 0 -> insertable t idx -> ahead t idx <= behind t idx ->
  exists u', holds (insert idx v t).1 u' /\ (insert idx v t).2 = contents (m_first t) u idx /\
    forall i, 0 <= i < 65536 -> contents (m_first (insert idx v t).1) u' i = if i =? idx then v else contents (m_first t) u i.
Proof.
  intros Ht Hu Hidx Hne Hins Hb. destruct (make_room_ahead t u idx Ht Hu Hidx Hb Hins) as ((z & V) & C & A & F & Sz & L).
  pose proof Ht as [_ Hf Hlen _ Hsize Hlast Hhead Hend]. pose proof (pow2_cap_range _ C). pose proof (ahead_range t idx) as Har.
  unfold insertable in Hins. rewrite (proj2 (Z.ltb_ge _ _) Hb) in Hins. destruct Hins as [Hd _]. set (d := Z.to_nat (ahead t idx)). assert (Z.of_nat d = ahead t idx) as Ed by (unfold d; lia).
  assert (length u <> 0)%nat as Hu0 by (by destruct u). assert ((idx - m_first t) mod 65536 = Z.of_nat d) as Ed' by (by rewrite Ed).
  unfold insert. rewrite (proj2 (Z.eqb_neq _ _) Hne). assert ((m_size t =? 0) = false) as Esz by (apply not_true_is_false; rewrite (holds_size t u Ht); done). rewrite Esz. cbn [negb].
  assert (Z.land (idx + 1) 65535 = (m_first t + Z.of_nat (S d)) mod 65536) as En.
  { rewrite mask_mod, Nat2Z.inj_succ, <- Z.add_1_r, Z.add_assoc, <- Ed'. rewrite <- (Zplus_mod_idemp_l (m_first t + _)), Zplus_mod_idemp_r, Zplus_mod_idemp_l. f_equal. lia. }
  rewrite L, (Hlast Hu), En, last_ahead by lia.
  set (u2 := u ++ replicate (S d - length u) 0). assert (length u2 = Nat.max (length u) (S d)) as El2 by (unfold u2; rewrite length_app, length_replicate; lia).
  set (t2 := if (length u <? S d)%nat then set_last ((m_first t + Z.of_nat (S d)) mod 65536) (make_room idx t) else make_room idx t).
  assert (m_storage t2 = m_storage (make_room idx t) /\ m_first t2 = m_first t /\ m_size t2 = m_size t) as (E1 & E2 & E3) by (unfold t2; by case_match).
  assert (m_capacity t2 = m_capacity (make_room idx t)) as Ec by (unfold m_capacity; by rewrite E1). rewrite Ec, (proj2 (Z.eqb_neq _ _)) by lia.
  assert (viewed t2 (u2 ++ replicate (z - (S d - length u)) 0)) as V2.
  { pose proof V as [Vl _]. rewrite length_app, length_replicate in Vl. unfold u2. rewrite <- app_assoc, <- replicate_add. unfold m_capacity in A.
    replace (S d - length u + (z - (S d - length u)))%nat with z by lia. unfold t2. by case_match. }
  destruct (insert_put t2 u2 (z - (S d - length u)) d idx v Hne) as (u' & H1 & H2 & H3); try done; try congruence; try (rewrite ?El2; lia).
  - rewrite E3, Hsize. unfold u2. rewrite used_app, used_zeros. lia.
  - rewrite E2, El2. unfold t2. destruct (Nat.ltb_spec (length u) (S d)); cbn; [f_equal; lia|]. rewrite L, (Hlast Hu). f_equal. lia.
  - destruct (decide (d = 0)%nat) as [->|Hd0]; [by rewrite list_lookup_total_insert_eq by lia|]. rewrite list_lookup_total_insert_ne by lia. unfold u2.
    rewrite lookup_total_app_l by lia. by apply Hhead.
  - destruct (decide (length u <= d)%nat) as [Hle|Hle].
    + replace (length u2 - 1)%nat with d by lia. by rewrite list_lookup_total_insert_eq by lia.
    + replace (length u2 - 1)%nat with (length u - 1)%nat by lia. destruct (decide (d = length u - 1)%nat) as [->|Hd1]; [rewrite list_lookup_total_insert_eq by lia; done|].
      rewrite list_lookup_total_insert_ne by lia. unfold u2. rewrite lookup_total_app_l by lia. by apply Hend.
  - assert (forall i, contents (m_first t2) u2 i = contents (m_first t) u i) as Econt by (intros i; rewrite E2; unfold u2; apply contents_app_zeros).
    exists u'. split_and!; [done|by rewrite H2, Econt|]. intros i Hi. by rewrite (H3 i Hi), Econt.
Qed.

Lemma insert_ok t u idx v :
  holds t u -> 0 <= idx < 65536 -> v <> 0 -> (u <> [] -> insertable t idx) ->
  exists u', holds (insert idx v t).1 u' /\ (insert idx v t).2 = contents (m_first t) u idx /\
    forall i, 0 <= i < 65536 -> contents (m_first (insert idx v t).1) u' i = if i =? idx then v else contents (m_first t) u i.
Proof.
  intros Ht Hidx Hne Hins. destruct u as [|x u].
  - destruct (insert_empty t idx v Ht Hidx Hne) as (u' & H1 & H2 & H3). by exists u'.
  - destruct (Z.lt_ge_cases (behind t idx) (ahead t idx)) as [Hb|Hb]; [apply insert_behind|apply insert_ahead]; auto.
Qed.

(** ** Removing *)

(** The number is not taken for one with the same place. *)
Definition visible (t : packet_buffer) (idx : Z) : Prop := 65536 <= m_first t + ahead t idx -> ahead t idx < m_capacity t.

Lemma contents_none first u i : Z.of_nat (length u) <= (i - first) mod 65536 -> contents first u i = 0.
Proof. intros H. unfold contents. rewrite lookup_ge_None_2; [done|lia]. Qed.

(** The guards of [at] and [remove]: the number is outside, or it has a place. *)
Lemma guards_ok t u idx :
  holds t u -> 0 <= idx < 65536 -> visible t idx ->
  ((m_first t + m_capacity t <=? idx) = true \/ compare_less_wrap idx (m_first t) 0xffff = true) /\ contents (m_first t) u idx = 0 \/
  (m_first t + m_capacity t <=? idx) = false /\ compare_less_wrap idx (m_first t) 0xffff = false /\ pow2_cap (m_capacity t) /\ ahead t idx < m_capacity t.
Proof.
  intros Ht Hidx Hvis. pose proof Ht as [Hcap Hf Hlen [z [Hv _]] _ _ _ _]. pose proof (ahead_range t idx) as Har. pose proof (ahead_number t idx Hf Hidx) as Han.
  pose proof (behind_ahead t idx) as Hba. rewrite length_app, length_replicate in Hv. rewrite compare_less_wrap_16.
  change ((m_first t - idx) mod 65536) with (behind t idx). change ((idx - m_first t) mod 65536) with (ahead t idx). unfold visible, m_capacity in *.
  destruct (Z.leb_spec (m_first t + Z.of_nat (length (m_storage t))) idx) as [H1|H1].
  - left. split; [by left|]. apply contents_none. change ((idx - m_first t) mod 65536) with (ahead t idx). destruct (Z.ltb_spec idx (m_first t)); lia.
  - destruct (Z.ltb_spec (behind t idx) (ahead t idx)) as [H2|H2].
    + left. split; [by right|]. apply contents_none. change ((idx - m_first t) mod 65536) with (ahead t idx). destruct (Z.eqb_spec (ahead t idx) 0); lia.
    + right. destruct Hcap as [(E & _ & E0)|Hc]; [lia|]. split_and!; [done|done|done|]. destruct (Z.ltb_spec idx (m_first t)); [apply Hvis; lia|lia].
Qed.

Lemma slot_contents t u idx : holds t u -> pow2_cap (m_capacity t) -> ahead t idx < m_capacity t -> slot t idx = contents (m_first t) u idx.
Proof.
  intros [_ _ _ [z Hv] _ _ _ _] Hc Ha. pose proof (ahead_range t idx). set (d := Z.to_nat (ahead t idx)). pose proof Hv as [Hl _].
  rewrite (viewed_slot t _ idx d Hc Hv); [|change ((idx - m_first t) mod 65536) with (ahead t idx); unfold d; lia|unfold m_capacity in Ha; rewrite Hl; unfold d; lia].
  rewrite <- (contents_app_zeros _ _ z). unfold contents. change ((idx - m_first t) mod 65536) with (ahead t idx). fold d. rewrite list_lookup_total_alt.
  destruct (lookup_lt_is_Some_2 (u ++ replicate z 0) d) as [x ->]; [|done]. rewrite Hl. unfold m_capacity in Ha. unfold d. lia.
Qed.

Lemma at_ok t u idx : holds t u -> 0 <= idx < 65536 -> visible t idx -> at_ idx t = contents (m_first t) u idx.
Proof.
  intros Ht Hidx Hvis. unfold at_. destruct (guards_ok t u idx Ht Hidx Hvis) as [[[->| E] ->]|(-> & -> & Hc & Ha)]; [done|rewrite E; by case_match|by apply slot_contents].
Qed.

Lemma zeros_front (l : list Z) : 0 < used l -> exists k y l', l = replicate k 0 ++ y :: l' /\ y <> 0.
Proof.
  induction l as [|x l IH]; intros Hu; [unfold used in Hu; cbn in Hu; lia|]. rewrite used_cons in Hu. destruct (Z.eqb_spec x 0) as [->|E]; [|by exists 0%nat, x, l].
  destruct (IH ltac:(lia)) as (k & y & l' & -> & Hy). by exists (S k), y, l'.
Qed.

Lemma zeros_back (l : list Z) : 0 < used l -> exists k y l', l = l' ++ [y] ++ replicate k 0 /\ y <> 0.
Proof.
  induction l as [|x l IH] using rev_ind; intros Hu; [unfold used in Hu; cbn in Hu; lia|]. rewrite used_app, used_cons in Hu. destruct (Z.eqb_spec x 0) as [->|E].
  - change (used []) with 0 in Hu. destruct (IH ltac:(lia)) as (k & y & l' & -> & Hy). exists (S k), y, l'. split; [|done].
    rewrite (replicate_S_end k). by rewrite <- !app_assoc.
  - exists 0%nat, x, l. split; [|done]. done.
Qed.

Section Remove.
Context (t : packet_buffer) (u : list Z) (idx : Z) (d : nat).
Hypothesis Ht : holds t u.
Hypothesis Hidx : 0 <= idx < 65536.
Hypothesis Hcap : pow2_cap (m_capacity t).
Hypothesis Hguards : (m_first t + m_capacity t <=? idx) = false /\ compare_less_wrap idx (m_first t) 0xffff = false.
Hypothesis Hd : ahead t idx = Z.of_nat d.
Hypothesis Hin : Z.of_nat d < m_capacity t.

Let x : Z := slot t idx.

(** The buffer without the element, before its ends move. *)
Definition cleared (size last : Z) : packet_buffer := Buffer (<[place (m_capacity t) idx := 0]> (m_storage t)) size (m_first t) last.

Lemma cleared_capacity size last : m_capacity (cleared size last) = m_capacity t.
Proof using Type. unfold m_capacity, cleared. cbn. by rewrite length_insert. Qed.

Lemma cleared_viewed size last z : viewed t (u ++ replicate z 0) -> viewed (cleared size last) (<[d := 0]> (u ++ replicate z 0)).
Proof using Hcap Hd Hin.
  intros Hv. unfold cleared. rewrite (place_offset t idx d Hcap Hd). apply viewed_set; [done|done| |done]. destruct Hv as [-> _]. unfold m_capacity in Hin. lia.
Qed.

Lemma first_offset : (idx =? m_first t) = (d =? 0)%nat.
Proof using Ht Hidx Hd.
  pose proof (h_first _ _ Ht) as Hf. pose proof (ahead_number t idx Hf Hidx) as Han. destruct (Z.eqb_spec idx (m_first t)), (Nat.eqb_spec d 0), (Z.ltb_spec idx (m_first t)); done || lia.
Qed.

Lemma last_offset : u <> [] -> (Z.land (idx + 1) 0xffff =? m_last t) = (S d =? length u)%nat.
Proof using Ht Hidx Hd.
  intros Hu. pose proof Ht as [_ Hf Hlen _ _ Hlast _ _]. rewrite mask_mod, (Hlast Hu). pose proof (ahead_range t idx) as Har.
  assert ((idx + 1) mod 65536 = (m_first t + Z.of_nat (S d)) mod 65536) as ->.
  { rewrite Nat2Z.inj_succ, <- Z.add_1_r, Z.add_assoc, <- Hd. unfold ahead. rewrite <- (Zplus_mod_idemp_l (m_first t + _)), Zplus_mod_idemp_r, Zplus_mod_idemp_l. f_equal. lia. }
  assert (length u <> 0)%nat by (by destruct u). destruct (Nat.eqb_spec (S d) (length u)) as [E|E]; [by rewrite E, Z.eqb_refl|]. apply Z.eqb_neq. intros Em.
  pose proof (Z.div_mod (m_first t + Z.of_nat (S d)) 65536 ltac:(lia)). pose proof (Z.div_mod (m_first t + Z.of_nat (length u)) 65536 ltac:(lia)). lia.
Qed.

Lemma removed_contents z i : 0 <= i < 65536 -> contents (m_first t) (<[d := 0]> (u ++ replicate z 0)) i = if i =? idx then 0 else contents (m_first t) u i.
Proof using Hd Hidx.
  intros Hi. destruct (decide (d < length (u ++ replicate z 0%Z))%nat) as [H|H].
  - rewrite (contents_set (m_first t) _ d idx 0 i H Hd Hidx Hi). by rewrite contents_app_zeros.
  - rewrite list_insert_ge by lia. rewrite contents_app_zeros. destruct (Z.eqb_spec i idx) as [->|]; [|done]. apply contents_none.
    change ((idx - m_first t) mod 65536) with (ahead t idx). rewrite length_app in H. lia.
Qed.

(** There is no element: nothing changes. *)
Lemma remove_nothing : x = 0 -> remove idx t = (cleared (m_size t) (m_last t), 0) /\ holds (cleared (m_size t) (m_last t)) u.
Proof using Ht Hidx Hcap Hguards Hd Hin.
  intros Hx. pose proof Ht as [_ Hf Hlen [z Hv] Hsize Hlast Hhead Hend]. destruct Hguards as [G1 G2].
  assert ((u ++ replicate z 0) !!! d = 0) as Hxd by (transitivity x; [symmetry; apply (viewed_slot t _ idx d Hcap Hv Hd); destruct Hv as [-> _]; unfold m_capacity in Hin; lia|done]).
  assert (u <> [] -> d <> 0%nat /\ S d <> length u) as Hends.
  { intros Hu. assert (length u <> 0)%nat by (by destruct u). split; [intros ->; rewrite lookup_total_app_l in Hxd by lia; by apply (Hhead Hu)|].
    intros E. rewrite lookup_total_app_l in Hxd by lia. apply (Hend Hu). by replace (length u - 1)%nat with d by lia. }
  split.
  - unfold remove. rewrite G1, G2. fold x. rewrite Hx. cbn. fold (cleared (m_size t) (m_last t)). rewrite first_offset. destruct (decide (u = [])) as [Hu|Hu].
    + assert ((m_size t =? 0) = true) as -> by (by apply (holds_size t u Ht)). cbn [negb]. by rewrite !andb_false_r.
    + destruct (Hends Hu) as [E1 E2]. rewrite (proj2 (Nat.eqb_neq _ _) E1). cbn. rewrite (last_offset Hu), (proj2 (Nat.eqb_neq _ _) E2). done.
  - split; try done.
    + right. by rewrite cleared_capacity.
    + exists z. pose proof (cleared_viewed (m_size t) (m_last t) z Hv) as H. rewrite list_insert_id in H; [done|].
      destruct (lookup_lt_is_Some_2 (u ++ replicate z 0) d) as [y Hy]; [destruct Hv as [-> _]; unfold m_capacity in Hin; lia|].
      rewrite Hy. f_equal. by rewrite <- (list_lookup_total_correct _ _ _ Hy).
Qed.

Lemma element_offset : x <> 0 -> (d < length u)%nat /\ u !!! d = x.
Proof using Ht Hcap Hd Hin.
  intros Hx. pose proof Ht as [_ _ _ [z Hv] _ _ _ _]. assert (x = (u ++ replicate z 0) !!! d) as Ex
    by (apply (viewed_slot t _ idx d Hcap Hv Hd); destruct Hv as [-> _]; unfold m_capacity in Hin; lia).
  destruct (decide (d < length u)%nat) as [H|H]; [by rewrite lookup_total_app_l in Ex|]. rewrite lookup_total_app_r in Ex by lia.
  destruct Hv as [Hl _]. rewrite length_app, length_replicate in Hl. rewrite lookup_total_replicate_2 in Ex by (unfold m_capacity in Hin; lia). done.
Qed.

(** Several elements: both ends are there. *)
Lemma rest_used : x <> 0 -> length u <> 1%nat -> used (<[d := 0]> u) = m_size t - 1 /\ 0 < m_size t - 1.
Proof using Ht Hcap Hd Hin.
  intros Hx Hu1. destruct (element_offset Hx) as [Hdu Ex]. pose proof Ht as [_ _ _ _ Hsize _ Hhead Hend]. assert (u <> []) as Hu by (intros ->; cbn in Hdu; lia).
  assert (used (<[d := 0]> u) = m_size t - 1) as Es by (rewrite used_set, Ex, Hsize, (proj2 (Z.eqb_neq _ _) Hx) by done; cbn; lia). split; [done|]. rewrite <- Es.
  destruct (decide (d = 0)%nat) as [E|E].
  - apply (used_pos _ (length u - 1)); rewrite ?length_insert; [lia|]. rewrite list_lookup_total_insert_ne by lia. by apply Hend.
  - apply (used_pos _ 0); rewrite ?length_insert; [lia|]. rewrite list_lookup_total_insert_ne by lia. by apply Hhead.
Qed.

Lemma remove_only : x <> 0 -> length u = 1%nat -> remove idx t = (cleared 0 (m_first t), x) /\ holds (cleared 0 (m_first t)) [].
Proof using Ht Hidx Hcap Hguards Hd Hin.
  intros Hx Hu1. destruct (element_offset Hx) as [Hdu Ex]. pose proof Ht as [_ Hf _ [z Hv] Hsize _ _ _]. destruct Hguards as [G1 G2].
  assert (d = 0)%nat as Hd0 by lia. assert (u = [x]) as Eu by (rewrite Hd0 in Ex; destruct u as [|y [|? ?]]; [done| |done]; cbn in Ex; congruence).
  assert (m_size t = 1) as Es1 by (rewrite Hsize, Eu, used_cons, (proj2 (Z.eqb_neq _ _) Hx); done). split.
  - unfold remove. rewrite G1, G2. fold x. rewrite (proj2 (Z.eqb_neq _ _) Hx), Es1. cbn. by rewrite !andb_false_r.
  - split; try done; [right; by rewrite cleared_capacity|]. exists (S z). pose proof (cleared_viewed 0 (m_first t) z Hv) as H. by rewrite Hd0, Eu in H.
Qed.

Lemma remove_open : x <> 0 -> length u <> 1%nat ->
  remove idx t = (let size := m_size t - 1 in
    let t := cleared size (m_last t) in
    let t := if (d =? 0)%nat then Buffer (m_storage t) size (Z.land (next_used (length (m_storage t)) (m_first t + 1) t) 0xffff) (m_last t) else t in
    if (S d =? length u)%nat then Buffer (m_storage t) size (m_first t) (Z.land (previous_used (length (m_storage t)) (m_last t - 1) t + 1) 0xffff) else t, x).
Proof using Ht Hidx Hcap Hguards Hd Hin.
  intros Hx Hu1. destruct (rest_used Hx Hu1) as [_ Hpos]. destruct Hguards as [G1 G2]. destruct (element_offset Hx) as [Hdu _]. assert (u <> []) as Hu by (intros ->; cbn in Hdu; lia).
  unfold remove. rewrite G1, G2. fold x. rewrite (proj2 (Z.eqb_neq _ _) Hx). cbn [negb andb]. rewrite (proj2 (Z.eqb_neq (m_size t - 1) 0)) by lia. cbn [negb].
  rewrite !andb_true_r. fold (cleared (m_size t - 1) (m_last t)). cbn [m_first cleared]. rewrite first_offset.
  assert (m_last (if (d =? 0)%nat then Buffer (m_storage (cleared (m_size t - 1) (m_last t))) (m_size t - 1)
    (Z.land (next_used (length (m_storage (cleared (m_size t - 1) (m_last t)))) (m_first t + 1) (cleared (m_size t - 1) (m_last t))) 0xffff)
    (m_last (cleared (m_size t - 1) (m_last t))) else cleared (m_size t - 1) (m_last t)) = m_last t) as El by (by case_match).
  rewrite El, (last_offset Hu). done.
Qed.

Lemma remove_middle : x <> 0 -> (0 < d)%nat -> (S d < length u)%nat ->
  remove idx t = (cleared (m_size t - 1) (m_last t), x) /\ holds (cleared (m_size t - 1) (m_last t)) (<[d := 0]> u).
Proof using Ht Hidx Hcap Hguards Hd Hin.
  intros Hx Hd0 Hdu. assert (length u <> 1)%nat as Hu1 by lia. assert (u <> []) as Hu by (intros ->; cbn in Hdu; lia). destruct (rest_used Hx Hu1) as [Es _].
  pose proof Ht as [_ Hf Hlen [z Hv] Hsize Hlast Hhead Hend]. split.
  - rewrite (remove_open Hx Hu1). cbv zeta. rewrite (proj2 (Nat.eqb_neq d 0)), (proj2 (Nat.eqb_neq (S d) (length u))) by lia. done.
  - split; rewrite ?length_insert; try done; [right; by rewrite cleared_capacity|..].
    + exists z. rewrite <- insert_app_l by lia. by apply cleared_viewed.
    + intros _. by apply Hlast.
    + intros _. rewrite list_lookup_total_insert_ne by lia. by apply Hhead.
    + intros _. rewrite list_lookup_total_insert_ne by lia. by apply Hend.
Qed.

Lemma remove_first : x <> 0 -> d = 0%nat -> length u <> 1%nat ->
  exists u', holds (remove idx t).1 u' /\ (remove idx t).2 = x /\
    forall z i, contents (m_first (remove idx t).1) u' i = contents (m_first t) (<[d := 0]> (u ++ replicate z 0)) i.
Proof using Ht Hidx Hcap Hguards Hd Hin.
  intros Hx Hd0 Hu1. destruct (element_offset Hx) as [Hdu Ex]. destruct (rest_used Hx Hu1) as [Es Hpos]. pose proof Ht as [_ Hf Hlen [z Hv] Hsize Hlast _ Hend].
  assert (exists u1, u = x :: u1) as [u1 Eu] by (rewrite Hd0 in *; destruct u as [|y u1]; [cbn in Hdu; lia|]; cbn in Ex; exists u1; congruence).
  assert (u <> []) as Hu by (by rewrite Eu). assert (used u1 = m_size t - 1) as Es1 by (rewrite <- Es, Hd0, Eu; cbn; by rewrite used_cons).
  destruct (zeros_front u1 ltac:(lia)) as (k & y & u2 & Eu1 & Hy). set (tc := cleared (m_size t - 1) (m_last t)).
  assert (viewed tc (replicate (S k) 0 ++ (y :: u2) ++ replicate z 0)) as Vc.
  { pose proof (cleared_viewed (m_size t - 1) (m_last t) z Hv) as H. rewrite Hd0, Eu, Eu1 in H. cbn in H. by rewrite <- app_assoc in H. }
  assert (length u = (S k + length (y :: u2))%nat) as El by (rewrite Eu, Eu1; cbn; rewrite length_app, length_replicate; done).
  assert (next_used (length (m_storage tc)) (m_first tc + 1) tc = m_first t + 1 + Z.of_nat k) as En.
  { pose proof Vc as [Vl Vs]. rewrite !length_app, !length_replicate in Vl. apply (next_used_spec _ _ k); [| |lia].
    - intros j Hj. replace (m_first tc + 1 + Z.of_nat j) with (m_first tc + Z.of_nat (S j)) by lia. rewrite Vs by (rewrite !length_app, !length_replicate; lia).
      rewrite lookup_total_app_l by (rewrite length_replicate; lia). by rewrite lookup_total_replicate_2 by lia.
    - replace (m_first tc + 1 + Z.of_nat k) with (m_first tc + Z.of_nat (S k)) by lia. rewrite Vs by (rewrite !length_app, !length_replicate; cbn; lia).
      rewrite lookup_total_app_r by (rewrite length_replicate; lia). rewrite length_replicate, Nat.sub_diag. done. }
  rewrite (remove_open Hx Hu1). cbv zeta. rewrite (proj2 (Nat.eqb_eq d 0) Hd0), (proj2 (Nat.eqb_neq (S d) (length u))) by (rewrite Hd0, El; cbn; lia).
  fold tc. rewrite En, mask_mod. cbn [fst snd m_first]. exists (y :: u2). pose proof (Z.mod_pos_bound (m_first t + 1 + Z.of_nat k) 65536 ltac:(lia)) as Hmod. split_and!; [|done|].
  - split; cbn [m_first m_size m_last]; try done.
    + right. exact (eq_ind_r pow2_cap Hcap (cleared_capacity (m_size t - 1) (m_last t))).
    + rewrite El in Hlen. lia.
    + exists (z + S k)%nat. rewrite replicate_add, app_assoc. apply (viewed_rotate tc _ (replicate (S k) 0)); [unfold tc; by rewrite cleared_capacity|done|done|].
      cbn [m_first]. rewrite length_replicate. apply wrap_mod; [unfold tc; by rewrite cleared_capacity|]. rewrite Z.mod_mod by lia. f_equal. cbn. lia.
    + rewrite <- Es1, Eu1, used_app, used_zeros. lia.
    + intros _. cbn. rewrite (Hlast Hu), Zplus_mod_idemp_l. f_equal. rewrite El. cbn [length]. lia.
    + intros _ E. apply (Hend Hu). rewrite <- E, El, Eu, Eu1. change (x :: replicate k 0 ++ y :: u2) with ((x :: replicate k 0) ++ y :: u2).
      rewrite lookup_total_app_r by (cbn; rewrite length_replicate; lia). cbn [length]. rewrite length_replicate. f_equal. lia.
  - intros z' i. rewrite Hd0, Eu, Eu1. cbn. change (0 :: (replicate k 0 ++ y :: u2) ++ replicate z' 0) with ((replicate (S k) 0 ++ (y :: u2)) ++ replicate z' 0).
    rewrite contents_app_zeros. symmetry. apply contents_before; [|rewrite El in Hlen; rewrite <- El in Hlen; lia].
    rewrite Zminus_mod_idemp_l. rewrite Z.mod_small; lia.
Qed.

Lemma remove_last : x <> 0 -> S d = length u -> length u <> 1%nat ->
  exists u', holds (remove idx t).1 u' /\ (remove idx t).2 = x /\
    forall z i, contents (m_first (remove idx t).1) u' i = contents (m_first t) (<[d := 0]> (u ++ replicate z 0)) i.
Proof using Ht Hidx Hcap Hguards Hd Hin.
  intros Hx HdS Hu1. destruct (element_offset Hx) as [Hdu Ex]. destruct (rest_used Hx Hu1) as [Es Hpos]. pose proof Ht as [_ Hf Hlen [z Hv] Hsize Hlast Hhead _].
  assert (u <> []) as Hu by (intros E; rewrite E in Hdu; cbn in Hdu; lia). set (u1 := take d u).
  assert (u = u1 ++ [x]) as Eu by (rewrite (snoc_end u Hu); unfold u1; replace (length u - 1)%nat with d by lia; by rewrite Ex).
  assert (length u1 = d) as El1 by (unfold u1; rewrite length_take; lia).
  assert (forall z', <[d := 0]> (u ++ replicate z' 0) = u1 ++ replicate (S z') 0) as Eset.
  { intros z'. rewrite Eu, <- app_assoc. rewrite insert_app_r_alt by lia. replace (d - length u1)%nat with 0%nat by lia. done. }
  assert (used u1 = m_size t - 1) as Es1 by (rewrite <- Es; pose proof (Eset 0%nat) as E0; cbn in E0; rewrite app_nil_r in E0; rewrite E0, used_app, (used_zeros 1 : used [0] = 0); lia).
  destruct (zeros_back u1 ltac:(lia)) as (k & y & u2 & Eu1 & Hy). set (tc := cleared (m_size t - 1) (m_last t)).
  assert (viewed tc ((u2 ++ [y]) ++ replicate (S k + z) 0)) as Vc.
  { pose proof (cleared_viewed (m_size t - 1) (m_last t) z Hv) as H. rewrite Eset, Eu1 in H. rewrite <- !app_assoc in H. rewrite <- replicate_add, Nat.add_succ_r in H.
    rewrite <- app_assoc. exact H. }
  assert (d = (length u2 + 1 + k)%nat) as Edk by (rewrite <- El1, Eu1, !length_app, length_replicate; cbn; lia).
  assert (pow2_cap (m_capacity tc)) as Cc by (unfold tc; by rewrite cleared_capacity).
  assert (forall j, (j <= S k)%nat -> slot tc (m_last tc - 1 - Z.of_nat j) = ((u2 ++ [y]) ++ replicate (S k + z) 0) !!! (d - j)%nat) as Hslot.
  { intros j Hj. pose proof Vc as [Vl Vs]. rewrite <- Vs by (rewrite !length_app, length_replicate; cbn; lia). apply slot_wrap; [done|]. change (m_first tc) with (m_first t). change (m_last tc) with (m_last t).
    rewrite (Hlast Hu), <- HdS. rewrite <- Z.sub_add_distr, Zminus_mod_idemp_l. f_equal. lia. }
  assert (previous_used (length (m_storage tc)) (m_last tc - 1) tc = m_last t - 1 - Z.of_nat (S k)) as Ep.
  { pose proof Vc as [Vl _]. rewrite !length_app, length_replicate in Vl. apply (previous_used_spec _ _ (S k)); [| |change (length [y]) with 1%nat in Vl; lia].
    - intros j Hj. rewrite Hslot by lia. rewrite lookup_total_app_r by (rewrite length_app; cbn; lia). by rewrite lookup_total_replicate_2 by (rewrite length_app; cbn; lia).
    - rewrite Hslot by lia. rewrite lookup_total_app_l by (rewrite length_app; cbn; lia). rewrite lookup_total_app_r by lia.
      replace (d - S k - length u2)%nat with 0%nat by lia. done. }
  rewrite (remove_open Hx Hu1). cbv zeta. rewrite (proj2 (Nat.eqb_neq d 0)), (proj2 (Nat.eqb_eq (S d) (length u)) HdS) by lia.
  fold tc. rewrite Ep, mask_mod. cbn [fst snd m_first]. exists (u2 ++ [y]). split_and!; [|done|].
  - split; cbn [m_first m_size m_last]; try done.
    + right. exact Cc.
    + rewrite length_app. cbn. lia.
    + exists (S k + z)%nat. exact Vc.
    + rewrite <- Es1, Eu1, !used_app, used_zeros. lia.
    + intros _. rewrite (Hlast Hu), <- HdS. replace ((m_first t + Z.of_nat (S d)) mod 65536 - 1 - Z.of_nat (S k) + 1) with ((m_first t + Z.of_nat (S d)) mod 65536 - Z.of_nat (S k)) by lia.
      rewrite Zminus_mod_idemp_l. f_equal. rewrite length_app. cbn [length]. change (m_first tc) with (m_first t). lia.
    + intros _ E. apply (Hhead Hu). rewrite <- E, Eu, Eu1, <- !app_assoc. rewrite (app_assoc u2 [y]). by rewrite lookup_total_app_l by (rewrite length_app; cbn; lia).
    + intros _. rewrite length_app. cbn [length]. replace (length u2 + 1 - 1)%nat with (length u2) by lia. rewrite lookup_total_app_r by lia. by rewrite Nat.sub_diag.
  - intros z' i. rewrite Eset, Eu1. change (m_first tc) with (m_first t). rewrite app_assoc, <- app_assoc, <- replicate_add. symmetry. apply contents_app_zeros.
Qed.
End Remove.

Lemma remove_ok t u idx :
  holds t u -> 0 <= idx < 65536 -> visible t idx ->
  exists u', holds (remove idx t).1 u' /\ (remove idx t).2 = contents (m_first t) u idx /\
    forall i, 0 <= i < 65536 -> contents (m_first (remove idx t).1) u' i = if i =? idx then 0 else contents (m_first t) u i.
Proof.
  intros Ht Hidx Hvis. destruct (guards_ok t u idx Ht Hidx Hvis) as [[Hg E0]|(G1 & G2 & Hc & Ha)].
  - assert (remove idx t = (t, 0)) as -> by (unfold remove; destruct Hg as [->| ->]; [done|by case_match]). exists u. split_and!; [done|done|]. intros i _.
    destruct (Z.eqb_spec i idx) as [->|]; [done|done].
  - pose proof (ahead_range t idx). set (d := Z.to_nat (ahead t idx)). assert (ahead t idx = Z.of_nat d) as Hd by (unfold d; lia). rewrite Hd in Ha.
    assert (Hg : (m_first t + m_capacity t <=? idx) = false /\ compare_less_wrap idx (m_first t) 0xffff = false) by done.
    rewrite <- (slot_contents t u idx Ht Hc ltac:(lia)). destruct (Z.eq_dec (slot t idx) 0) as [Ex|Ex].
    + destruct (remove_nothing t u idx d Ht Hidx Hc Hg Hd Ha Ex) as [-> Hh]. exists u. split_and!; [done|done|]. intros i Hi. cbn [fst m_first cleared].
      destruct (Z.eqb_spec i idx) as [->|]; [|done]. rewrite <- (slot_contents t u idx Ht Hc ltac:(lia)). done.
    + destruct (element_offset t u idx d Ht Hc Hd Ha Ex) as [Hdu _].
      assert (forall u' t', holds t' u' -> (remove idx t).1 = t' -> (remove idx t).2 = slot t idx ->
        (forall z i, contents (m_first t') u' i = contents (m_first t) (<[d := 0]> (u ++ replicate z 0)) i) ->
        exists u', holds (remove idx t).1 u' /\ (remove idx t).2 = slot t idx /\
          forall i, 0 <= i < 65536 -> contents (m_first (remove idx t).1) u' i = if i =? idx then 0 else contents (m_first t) u i) as Hdone.
      { intros u' t' Hh E1 E2 Hcont. exists u'. rewrite E1, E2. split_and!; [done|done|]. intros i Hi. rewrite (Hcont 0%nat i). by apply removed_contents. }
      destruct (decide (length u = 1)%nat) as [E1|E1].
      * destruct (remove_only t u idx d Ht Hidx Hc Hg Hd Ha Ex E1) as [Er Hh]. apply (Hdone [] _ Hh); [by rewrite Er|by rewrite Er|]. intros z i.
        assert (d = 0)%nat as -> by lia. destruct u as [|y [|? ?]]; [done| |done]. symmetry. exact (contents_zeros (m_first t) (S z) i).
      * destruct (decide (d = 0)%nat) as [E2|E2]; [|destruct (decide (S d = length u)%nat) as [E3|E3]].
        -- destruct (remove_first t u idx d Ht Hidx Hc Hg Hd Ha Ex E2 E1) as (u' & Hh & E4 & E5). by apply (Hdone u' _ Hh).
        -- destruct (remove_last t u idx d Ht Hidx Hc Hg Hd Ha Ex E3 E1) as (u' & Hh & E4 & E5). by apply (Hdone u' _ Hh).
        -- destruct (remove_middle t u idx d Ht Hidx Hc Hg Hd Ha Ex ltac:(lia) ltac:(lia)) as [Er Hh]. apply (Hdone _ _ Hh); [by rewrite Er|by rewrite Er|].
           intros z i. cbn [m_first cleared]. rewrite insert_app_l by lia. by rewrite contents_app_zeros.
Qed.

(** ** The number of elements *)

Lemma make_room_size idx t : m_size (make_room idx t) = m_size t.
Proof. unfold make_room. repeat case_match; done. Qed.

Lemma insert_size idx v t : v <> 0 -> m_size (insert idx v t).1 = m_size t + if (insert idx v t).2 =? 0 then 1 else 0.
Proof.
  intros Hv. unfold insert. rewrite (proj2 (Z.eqb_neq _ _) Hv). match goal with |- context [put idx v ?t1] => set (t2 := t1) end.
  assert (m_size t2 = m_size t) as E.
  { unfold t2. case_match; [change (m_size (reserve 16 ?x)) with (m_size x)|]; (destruct (negb (m_size t =? 0)); [|done]); case_match; apply make_room_size. }
  unfold put. cbn. rewrite E. case_match; lia.
Qed.

Lemma remove_size idx t : m_size (remove idx t).1 = m_size t - if (remove idx t).2 =? 0 then 0 else 1.
Proof.
  unfold remove. case_match; [cbn; lia|]. case_match; [cbn; lia|]. cbv zeta. cbn [snd].
  destruct (slot t idx =? 0); cbn [fst]; repeat case_match; cbn; lia.
Qed.

(** ** The buffer is a finite map *)

(** A buffer with the elements of [m]: what is done to the one is done to the other,
    with numbers the buffer can tell apart. *)
Inductive buffer_run : packet_buffer -> gmap Z Z -> Prop :=
  | run_new : buffer_run packet_buffer_new ∅
  | run_insert t m idx v :
      buffer_run t m -> 0 <= idx < 65536 -> v <> 0 -> (m <> ∅ -> insertable t idx) -> buffer_run (insert idx v t).1 (<[idx := v]> m)
  | run_remove t m idx : buffer_run t m -> 0 <= idx < 65536 -> visible t idx -> buffer_run (remove idx t).1 (delete idx m)
  | run_reserve t m size : buffer_run t m -> size <= 0xffff -> buffer_run (reserve size t) m.

Definition represents (t : packet_buffer) (u : list Z) (m : gmap Z Z) : Prop :=
  holds t u /\ (forall i, 0 <= i < 65536 -> contents (m_first t) u i = default 0 (m !! i)) /\
  (forall i v, m !! i = Some v -> 0 <= i < 65536 /\ v <> 0) /\ m_size t = Z.of_nat (size m).

Lemma represents_empty t u m : represents t u m -> u = [] <-> m = ∅.
Proof.
  intros (Ht & _ & _ & Hs). rewrite <- (holds_size t u Ht), Z.eqb_eq, Hs. rewrite <- map_size_empty_iff. lia.
Qed.

Lemma new_holds : holds packet_buffer_new [].
Proof. split; try done; [by left|]. exists 0%nat. split; [done|]. cbn. lia. Qed.

Lemma reserve_holds t u size : holds t u -> size <= 0xffff -> holds (reserve size t) u.
Proof.
  intros Ht Hs. pose proof Ht as [Hcap Hf Hlen [z Hv] Hsize Hlast Hhead Hend].
  destruct (reserve_viewed t _ size ltac:(destruct Hcap as [(E & _)|Hc]; [by left|by right]) Hv ltac:(lia)) as (k & R1 & R2 & _ & R4 & R5 & R6).
  split; try done; [by right|]. exists (z + k)%nat. by rewrite replicate_add, app_assoc.
Qed.

Lemma buffer_run_represents t m : buffer_run t m -> exists u, represents t u m.
Proof.
  intros Hr. induction Hr as [|t m idx v _ [u IH] Hidx Hv Hins|t m idx _ [u IH] Hidx Hvis|t m size _ [u IH] Hs].
  - exists []. split_and!; [apply new_holds|by intros i _; rewrite lookup_empty|by intros i v; rewrite lookup_empty|done].
  - pose proof (represents_empty t u m IH) as He. destruct IH as (Ht & Hc & Hm & Hs).
    destruct (insert_ok t u idx v Ht Hidx Hv ltac:(intros Hu; apply Hins; by rewrite <- He)) as (u' & H1 & H2 & H3). exists u'. split_and!; [done|..].
    + intros i Hi. rewrite (H3 i Hi). destruct (Z.eqb_spec i idx) as [->|Hne]; [by rewrite lookup_insert_eq|]. rewrite lookup_insert_ne by done. by apply Hc.
    + intros i w. destruct (decide (i = idx)) as [->|Hne]; [rewrite lookup_insert_eq; by intros [= <-]|]. rewrite lookup_insert_ne by done. apply Hm.
    + rewrite (insert_size idx v t Hv), Hs, H2, (Hc idx Hidx), map_size_insert. destruct (m !! idx) as [w|] eqn:Ew; cbn; [|lia].
      destruct (Hm idx w Ew) as [_ Hw]. rewrite (proj2 (Z.eqb_neq _ _) Hw). lia.
  - destruct IH as (Ht & Hc & Hm & Hs). destruct (remove_ok t u idx Ht Hidx Hvis) as (u' & H1 & H2 & H3). exists u'. split_and!; [done|..].
    + intros i Hi. rewrite (H3 i Hi). destruct (Z.eqb_spec i idx) as [->|Hne]; [by rewrite lookup_delete_eq|]. rewrite lookup_delete_ne by done. by apply Hc.
    + intros i w. destruct (decide (i = idx)) as [->|Hne]; [by rewrite lookup_delete_eq|]. rewrite lookup_delete_ne by done. apply Hm.
    + rewrite (remove_size idx t), Hs, H2, (Hc idx Hidx), map_size_delete. destruct (m !! idx) as [w|] eqn:Ew; cbn; [|lia].
      destruct (Hm idx w Ew) as [_ Hw]. rewrite (proj2 (Z.eqb_neq _ _) Hw). assert (size m <> 0%nat) by (rewrite map_size_empty_iff; intros ->; by rewrite lookup_empty in Ew). lia.
  - exists u. destruct IH as (Ht & Hc & Hm & Hsz). split_and!; [by apply reserve_holds|done|done|done].
Qed.

(** C26: the buffer behaves as the finite map of the elements put into it and not
    removed: [at] and [remove] give the element with the number or null, [insert] the
    one it replaces, [size()] is the number of elements, the cursor is the number
    of an element and all the others lie within [span()] behind it.  The numbers
    asked for must not wrap beyond the capacity ([visible]), and an insertion must
    stay within half of the range and not wrap between the capacity and the number
    ([insertable]). *)
Theorem packet_buffer_refines t m :
  buffer_run t m ->
  m_size t = Z.of_nat (size m) /\
  (forall idx, 0 <= idx < 65536 -> visible t idx -> at_ idx t = default 0 (m !! idx) /\ (remove idx t).2 = default 0 (m !! idx)) /\
  (forall idx v, 0 <= idx < 65536 -> v <> 0 -> (m <> ∅ -> insertable t idx) -> (insert idx v t).2 = default 0 (m !! idx)) /\
  (m <> ∅ -> is_Some (m !! cursor t) /\ forall i v, m !! i = Some v -> (i - cursor t) mod 65536 < span t).
Proof.
  intros Hr. destruct (buffer_run_represents t m Hr) as (u & Hrep). pose proof (represents_empty t u m Hrep) as He. destruct Hrep as (Ht & Hc & Hm & Hs). split_and!; [done|..].
  - intros idx Hidx Hvis. rewrite (at_ok t u idx Ht Hidx Hvis). destruct (remove_ok t u idx Ht Hidx Hvis) as (_ & _ & -> & _). by rewrite (Hc idx Hidx).
  - intros idx v Hidx Hv Hins. destruct (insert_ok t u idx v Ht Hidx Hv ltac:(intros Hu; apply Hins; by rewrite <- He)) as (_ & _ & -> & _). by rewrite (Hc idx Hidx).
  - intros Hne. assert (u <> []) as Hu by (by rewrite He). pose proof (holds_span t u Ht Hu) as Hsp. pose proof Ht as [_ Hf _ _ _ _ Hhead _]. unfold cursor. split.
    + specialize (Hc (m_first t) Hf). destruct (m !! m_first t); [by eexists|]. exfalso. unfold contents in Hc. rewrite Z.sub_diag in Hc. destruct u as [|x u]; [done|]. by apply (Hhead Hu).
    + intros i v Hi. unfold span. rewrite mask_mod, Hsp. destruct (Hm i v Hi) as [Hi0 Hv]. specialize (Hc i Hi0). rewrite Hi in Hc. unfold contents in Hc.
      destruct (u !! Z.to_nat ((i - m_first t) mod 65536)) as [x|] eqn:Ex; [|cbn in Hc; congruence]. apply lookup_lt_Some in Ex.
      pose proof (Z.mod_pos_bound (i - m_first t) 65536 ltac:(lia)). lia.
Qed.

(** When the numbers wrap between the capacity and the new number, [insert] sees
    room where there is none: a buffer of 16 that holds packet 65500 replaces it when
    packet 12, 48 later, is inserted; and [at] takes a number that has wrapped
    beyond the capacity for the element in its place. *)
Theorem insert_overwrites :
  let t := (insert 65500 7 packet_buffer_new).1 in
  let '(t', old) := insert 12 8 t in
  old = 7 /\ m_size t' = 1 /\ at_ 65500 t' = 8 /\
  (let t2 := (insert 0 9 (insert 65530 7 packet_buffer_new).1).1 in m_capacity t2 = 16 /\ at_ 0 t2 = 9 /\ at_ 16 t2 = 9).
Proof. vm_compute. done. Qed.

Definition example_run : packet_buffer := (insert 65534 3 (insert 2 5 (insert 65535 4 packet_buffer_new).1).1).1.
Definition example_map : gmap Z Z := <[65534 := 3]> (<[2 := 5]> (<[65535 := 4]> ∅)).

Lemma example_buffer_run : buffer_run example_run example_map.
Proof.
  apply run_insert; [|lia|lia|intros _; vm_compute; done]. apply run_insert; [|lia|lia|intros _; vm_compute; split; done].
  apply run_insert; [apply run_new|lia|lia|done].
Qed.

Lemma packet_buffer_refines_witness : m_size example_run = 3 /\ at_ 2 example_run = 5 /\ cursor example_run = 65534.
Proof.
  destruct (packet_buffer_refines example_run example_map example_buffer_run) as (H1 & H2 & _ & _). split_and!; [rewrite H1; by vm_compute| |by vm_compute].
  destruct (H2 2 ltac:(lia)) as [-> _]; [intros _; by vm_compute|by vm_compute].
Defined.
