(* ===== verification/Dht.v ===== *)
(** * The Kademlia node: lookups and remote calls

    [observer] (include/libed2k/kademlia/observer.hpp), [rpc_manager]
    (src/kademlia/rpc_manager.cpp), [traversal_algorithm] with [find_data],
    [refresh] and [bootstrap] (src/kademlia/traversal_algorithm.cpp,
    find_data.cpp, refresh.cpp) and [node_impl] (src/kademlia/node.cpp), over the
    routing table of RoutingTable.v.

    A lookup keeps the nodes it knows as observers ordered by their distance to
    the target and asks them a few at a time; the rpc manager keeps the observers
    whose requests are outstanding.  The two share the observers, so these are
    cells of a store, named by number; lookups too.  A freed observer stays in
    the store.  Addresses are IPv4 ones.

    What the node asks of its surroundings is the record [environment]: whether
    the n-th allocation and the n-th datagram succeed, the n-th random
    identifier, and the bytes of the two fields [entry_to_emule] leaves unset.
    Calls of the user's functions and datagrams are events of a log, the newest
    first. *)

From S2P Require Import Prelude Archive Md4Hash Bitfield KadId RoutingTable.
From stdpp Require Import gmap sorting.
Open Scope Z_scope.

(** ** Messages *)

(** [kad_entry]: an identifier with its [kad_net_identifier], and the version. *)
Record kad_entry := KadEntry { ke_kid : node_id; ke_address : Z; ke_udp_port : Z; ke_tcp_port : Z; ke_version : Z }.

Definition KADEMLIA_VERSION : Z := 0x05.
Definition KADEMLIA_FIND_VALUE : Z := 0x02.
Definition KADEMLIA_STORE : Z := 0x04.
Definition KADEMLIA_FIND_NODE : Z := 0x0B.

(** The requests this node sends and answers. *)
Inductive kad_request :=
| kad2_ping
| kad2_hello_req (kid : node_id) (tcp_port version : Z)
| kad2_bootstrap_req
| kademlia2_req (search_type : Z) (kid_target kid_receiver : node_id)
| kad2_search_key_req (target_id : node_id) (start_position : Z)
| kad2_search_sources_req (target_id : node_id) (start_position size : Z)
| kad_firewalled_req (tcp_port : Z).

Inductive kad_reply :=
| kad2_pong (udp_port : Z)
| kad2_hello_res (kid : node_id) (tcp_port version : Z)
| kad2_bootstrap_res (kid : node_id) (tcp_port version : Z) (contacts : list kad_entry)
| kademlia2_res (kid_target : node_id) (results : list kad_entry).

Inductive kad_message := request_message (r : kad_request) | reply_message (r : kad_reply) | kad_firewalled_res (ip : Z).

(** The codes of ['p'], ['h'], ['b'], ['l'], ['s'] and ['f']. *)
Definition request_identifier (r : kad_request) : Z :=
  match r with
  | kad2_ping => 112
  | kad2_hello_req _ _ _ => 104
  | kad2_bootstrap_req => 98
  | kademlia2_req _ _ _ => 108
  | kad2_search_key_req _ _ | kad2_search_sources_req _ _ _ => 115
  | kad_firewalled_req _ => 102
  end.

Definition reply_identifier (r : kad_reply) : Z :=
  match r with
  | kad2_pong _ => 112
  | kad2_hello_res _ _ _ => 104
  | kad2_bootstrap_res _ _ _ _ => 98
  | kademlia2_res _ _ => 108
  end.

Definition packet_kad_identifier (r : kad_reply) : node_id :=
  match r with kademlia2_res t _ => t | _ => hash_clear end.

(** [md4_hash::invalid] is the zero identifier. *)
Definition extract_packet_node_id (r : kad_reply) : node_id :=
  match r with kad2_hello_res kid _ _ => kid | _ => hash_clear end.

(** The address of [from_string(int2ipstr(ip))], which always succeeds, and
    [address2int]: the first byte of the address is the low byte. *)
Definition int2ip (ip : Z) : address :=
  [z2b (Z.land ip 0xFF); z2b (Z.land (Z.shiftr ip 8) 0xFF); z2b (Z.land (Z.shiftr ip 16) 0xFF); z2b (Z.land (Z.shiftr ip 24) 0xFF)].
Definition address2int (a : address) : Z := le_combine a.

(** ** Observers *)

Definition flag_queried : Z := 1.
Definition flag_initial : Z := 2.
Definition flag_no_id : Z := 4.
Definition flag_short_timeout : Z := 8.
Definition flag_failed : Z := 16.
Definition flag_ipv6_address : Z := 32.
Definition flag_alive : Z := 64.
Definition flag_done : Z := 128.

Inductive observer_kind := null_observer | announce_observer | find_data_observer.

#[global] Instance observer_kind_eq_dec : EqDecision observer_kind.
Proof. solve_decision. Defined.

Record observer := Observer {
  o_kind : observer_kind;
  o_algorithm : nat;
  o_packet_id : node_id;
  o_sent : Z;
  o_id : node_id;
  o_target : endpoint;
  o_transaction_id : Z;
  o_flags : Z
}.

Definition has (flag : Z) (o : observer) : bool := negb (Z.land (o_flags o) flag =? 0).
Definition set_flags (flags : Z) (o : observer) : observer :=
  Observer (o_kind o) (o_algorithm o) (o_packet_id o) (o_sent o) (o_id o) (o_target o) (o_transaction_id o) (Z.lor (o_flags o) flags).
Definition clear_flag (flag : Z) (o : observer) : observer :=
  Observer (o_kind o) (o_algorithm o) (o_packet_id o) (o_sent o) (o_id o) (o_target o) (o_transaction_id o) (Z.land (o_flags o) (Z.lnot flag)).
Definition set_id (id : node_id) (o : observer) : observer :=
  Observer (o_kind o) (o_algorithm o) (o_packet_id o) (o_sent o) id (o_target o) (o_transaction_id o) (o_flags o).
Definition set_packet_id (id : node_id) (o : observer) : observer :=
  Observer (o_kind o) (o_algorithm o) id (o_sent o) (o_id o) (o_target o) (o_transaction_id o) (o_flags o).
Definition set_transaction_id (tid : Z) (o : observer) : observer :=
  Observer (o_kind o) (o_algorithm o) (o_packet_id o) (o_sent o) (o_id o) (o_target o) tid (o_flags o).
Definition set_target (now : Z) (e : endpoint) (o : observer) : observer :=
  clear_flag flag_ipv6_address
    (Observer (o_kind o) (o_algorithm o) (o_packet_id o) now (o_id o) e (o_transaction_id o) (o_flags o)).
Definition target_addr (o : observer) : address := fst (o_target o).
Definition target_ep (o : observer) : endpoint := o_target o.

Definition observer_new (now : Z) (kind : observer_kind) (a : nat) (e : endpoint) (id : node_id) : observer :=
  set_target now e (Observer kind a hash_clear 0 id ([], 0) 0 0).

#[global] Instance observer_inhabited : Inhabited observer :=
  populate (Observer null_observer 0 hash_clear 0 hash_clear ([], 0) 0 0).

(** ** Lookups *)

(** The classes; [traversal_algorithm] itself only owns observers of single
    requests. *)
Inductive traversal_kind := plain_traversal | find_data | refresh | bootstrap.

(** What is bound into [m_nodes_callback]. *)
Inductive nodes_callback :=
| nop
| announce_fun (listen_port : Z) (ih : node_id)
| search_keywords_fun (listen_port : Z) (target : node_id)
| search_sources_fun (listen_port size : Z) (target : node_id).

(** The fields of [find_data] are used by the classes derived from it only;
    [m_data_callback] is the user's function, if it is set. *)
Record traversal := Traversal {
  t_kind : traversal_kind;
  t_target : node_id;
  t_results : list nat;
  t_invoke_count : Z;
  t_branch_factor : Z;
  t_responses : Z;
  t_timeouts : Z;
  t_num_target_nodes : Z;
  t_nodes_callback : nodes_callback;
  t_data_callback : option nat;
  t_done : bool;
  t_got_peers : bool;
  t_search_type : Z
}.

#[global] Instance traversal_inhabited : Inhabited traversal :=
  populate (Traversal plain_traversal hash_min [] 0 3 0 0 0 nop None false false 0).

Definition set_kind (k : traversal_kind) (t : traversal) : traversal :=
  Traversal k (t_target t) (t_results t) (t_invoke_count t) (t_branch_factor t) (t_responses t) (t_timeouts t) (t_num_target_nodes t) (t_nodes_callback t) (t_data_callback t) (t_done t) (t_got_peers t) (t_search_type t).
Definition set_results (l : list nat) (t : traversal) : traversal :=
  Traversal (t_kind t) (t_target t) l (t_invoke_count t) (t_branch_factor t) (t_responses t) (t_timeouts t) (t_num_target_nodes t) (t_nodes_callback t) (t_data_callback t) (t_done t) (t_got_peers t) (t_search_type t).
Definition set_invoke_count (c : Z) (t : traversal) : traversal :=
  Traversal (t_kind t) (t_target t) (t_results t) c (t_branch_factor t) (t_responses t) (t_timeouts t) (t_num_target_nodes t) (t_nodes_callback t) (t_data_callback t) (t_done t) (t_got_peers t) (t_search_type t).
Definition set_branch_factor (b : Z) (t : traversal) : traversal :=
  Traversal (t_kind t) (t_target t) (t_results t) (t_invoke_count t) b (t_responses t) (t_timeouts t) (t_num_target_nodes t) (t_nodes_callback t) (t_data_callback t) (t_done t) (t_got_peers t) (t_search_type t).
Definition set_responses (r : Z) (t : traversal) : traversal :=
  Traversal (t_kind t) (t_target t) (t_results t) (t_invoke_count t) (t_branch_factor t) r (t_timeouts t) (t_num_target_nodes t) (t_nodes_callback t) (t_data_callback t) (t_done t) (t_got_peers t) (t_search_type t).
Definition set_timeouts (r : Z) (t : traversal) : traversal :=
  Traversal (t_kind t) (t_target t) (t_results t) (t_invoke_count t) (t_branch_factor t) (t_responses t) r (t_num_target_nodes t) (t_nodes_callback t) (t_data_callback t) (t_done t) (t_got_peers t) (t_search_type t).
Definition set_num_target_nodes (k : Z) (t : traversal) : traversal :=
  Traversal (t_kind t) (t_target t) (t_results t) (t_invoke_count t) (t_branch_factor t) (t_responses t) (t_timeouts t) k (t_nodes_callback t) (t_data_callback t) (t_done t) (t_got_peers t) (t_search_type t).
Definition set_done (d : bool) (t : traversal) : traversal :=
  Traversal (t_kind t) (t_target t) (t_results t) (t_invoke_count t) (t_branch_factor t) (t_responses t) (t_timeouts t) (t_num_target_nodes t) (t_nodes_callback t) (t_data_callback t) d (t_got_peers t) (t_search_type t).

(** ** The node *)

Record environment := Env {
  env_malloc : nat -> bool;
  env_send : nat -> bool;
  env_random : nat -> node_id;
  env_unset : Z * Z
}.

Inductive event :=
| ev_send (m : kad_message) (to : endpoint) (flags : Z)
| ev_nodes (a : nat) (cb : nodes_callback) (results : list node_entry) (got_peers : bool)
| ev_data (f : nat) (target : node_id).

(** [peer_entry] of the tracker tables, and when a stored item was seen. *)
Record peer_entry := PeerEntry { pe_addr : endpoint; pe_added : Z; pe_seed : bool }.

Record node_impl := Node {
  n_search_branching : Z;
  n_restrict_search_ips : bool;
  n_id : node_id;
  n_port : Z;
  n_table : routing_table;
  n_transactions : list nat;
  n_destructing : bool;
  n_observers : gmap nat observer;
  n_algorithms : gmap nat traversal;
  n_running : list nat;
  n_map : list (node_id * list peer_entry);
  n_immutable : list (node_id * Z);
  n_last_tracker_tick : Z;
  n_mallocs : nat;
  n_news : nat;
  n_sends : nat;
  n_randoms : nat;
  n_log : list event
}.

Definition set_table (t : routing_table) (n : node_impl) : node_impl :=
  Node (n_search_branching n) (n_restrict_search_ips n) (n_id n) (n_port n) t (n_transactions n) (n_destructing n) (n_observers n) (n_algorithms n) (n_running n) (n_map n) (n_immutable n) (n_last_tracker_tick n) (n_mallocs n) (n_news n) (n_sends n) (n_randoms n) (n_log n).
Definition set_transactions (l : list nat) (n : node_impl) : node_impl :=
  Node (n_search_branching n) (n_restrict_search_ips n) (n_id n) (n_port n) (n_table n) l (n_destructing n) (n_observers n) (n_algorithms n) (n_running n) (n_map n) (n_immutable n) (n_last_tracker_tick n) (n_mallocs n) (n_news n) (n_sends n) (n_randoms n) (n_log n).
Definition set_destructing (b : bool) (n : node_impl) : node_impl :=
  Node (n_search_branching n) (n_restrict_search_ips n) (n_id n) (n_port n) (n_table n) (n_transactions n) b (n_observers n) (n_algorithms n) (n_running n) (n_map n) (n_immutable n) (n_last_tracker_tick n) (n_mallocs n) (n_news n) (n_sends n) (n_randoms n) (n_log n).
Definition set_observers (m : gmap nat observer) (n : node_impl) : node_impl :=
  Node (n_search_branching n) (n_restrict_search_ips n) (n_id n) (n_port n) (n_table n) (n_transactions n) (n_destructing n) m (n_algorithms n) (n_running n) (n_map n) (n_immutable n) (n_last_tracker_tick n) (n_mallocs n) (n_news n) (n_sends n) (n_randoms n) (n_log n).
Definition set_algorithms (m : gmap nat traversal) (n : node_impl) : node_impl :=
  Node (n_search_branching n) (n_restrict_search_ips n) (n_id n) (n_port n) (n_table n) (n_transactions n) (n_destructing n) (n_observers n) m (n_running n) (n_map n) (n_immutable n) (n_last_tracker_tick n) (n_mallocs n) (n_news n) (n_sends n) (n_randoms n) (n_log n).
Definition set_running (l : list nat) (n : node_impl) : node_impl :=
  Node (n_search_branching n) (n_restrict_search_ips n) (n_id n) (n_port n) (n_table n) (n_transactions n) (n_destructing n) (n_observers n) (n_algorithms n) l (n_map n) (n_immutable n) (n_last_tracker_tick n) (n_mallocs n) (n_news n) (n_sends n) (n_randoms n) (n_log n).
Definition set_tracker (m : list (node_id * list peer_entry)) (i : list (node_id * Z)) (tick : Z) (n : node_impl) : node_impl :=
  Node (n_search_branching n) (n_restrict_search_ips n) (n_id n) (n_port n) (n_table n) (n_transactions n) (n_destructing n) (n_observers n) (n_algorithms n) (n_running n) m i tick (n_mallocs n) (n_news n) (n_sends n) (n_randoms n) (n_log n).
(** The numbers of allocations, lookups, datagrams and random identifiers so far. *)
Definition set_counters (mallocs news sends randoms : nat) (n : node_impl) : node_impl :=
  Node (n_search_branching n) (n_restrict_search_ips n) (n_id n) (n_port n) (n_table n) (n_transactions n) (n_destructing n) (n_observers n) (n_algorithms n) (n_running n) (n_map n) (n_immutable n) (n_last_tracker_tick n) mallocs news sends randoms (n_log n).
Definition log_event (e : event) (n : node_impl) : node_impl :=
  Node (n_search_branching n) (n_restrict_search_ips n) (n_id n) (n_port n) (n_table n) (n_transactions n) (n_destructing n) (n_observers n) (n_algorithms n) (n_running n) (n_map n) (n_immutable n) (n_last_tracker_tick n) (n_mallocs n) (n_news n) (n_sends n) (n_randoms n) (e :: n_log n).

(** What a pointer points to, and a change of it. *)
Definition obs (n : node_impl) (p : nat) : observer := n_observers n !!! p.
Definition alg (n : node_impl) (a : nat) : traversal := n_algorithms n !!! a.
Definition upd_obs (p : nat) (f : observer -> observer) (n : node_impl) : node_impl :=
  set_observers (<[p := f (obs n p)]> (n_observers n)) n.
Definition upd_alg (a : nat) (f : traversal -> traversal) (n : node_impl) : node_impl :=
  set_algorithms (<[a := f (alg n a)]> (n_algorithms n)) n.

(** [std::lower_bound] of a sorted sequence: the first element that is not less. *)
Fixpoint results_lower_bound (less : nat -> bool) (l : list nat) : nat :=
  match l with
  | [] => 0
  | p :: l => if less p then S (results_lower_bound less l) else 0
  end.

(** The order [std::set] keeps endpoints in. *)
Definition endpoint_leb (e1 e2 : endpoint) : bool :=
  (be_value (fst e1) <? be_value (fst e2)) || ((be_value (fst e1) =? be_value (fst e2)) && (snd e1 <=? snd e2)).

Definition endpoint_le (e1 e2 : endpoint) : Prop := endpoint_leb e1 e2 = true.
#[global] Instance endpoint_le_dec e1 e2 : Decision (endpoint_le e1 e2).
Proof. unfold endpoint_le. apply _. Defined.

Section Node.
(** The surroundings, [min_time()], and [time_now()], which is cached while an
    event is handled. *)
Context (env : environment) (min_time now : Z).

(** ** rpc_manager *)

Definition allocate_observer (n : node_impl) : option nat * node_impl :=
  let p := n_mallocs n in
  (if env_malloc env p then Some p else None, set_counters (S p) (n_news n) (n_sends n) (n_randoms n) n).

Definition generate_random_id (n : node_impl) : node_id * node_impl :=
  (env_random env (n_randoms n), set_counters (n_mallocs n) (n_news n) (n_sends n) (S (n_randoms n)) n).

Definition m_send (m : kad_message) (to : endpoint) (flags : Z) (n : node_impl) : bool * node_impl :=
  (env_send env (n_sends n),
   log_event (ev_send m to flags) (set_counters (n_mallocs n) (n_news n) (S (n_sends n)) (n_randoms n) n)).

Definition append_data (n : node_impl) (r : kad_request) : kad_request :=
  match r with
  | kad2_hello_req _ _ _ => kad2_hello_req (n_id n) (n_port n) KADEMLIA_VERSION
  | _ => r
  end.

Definition rpc_invoke (r : kad_request) (target : endpoint) (o : option nat) (n : node_impl) : bool * node_impl :=
  if n_destructing n then (false, n)
  else
    let r := append_data n r in
    let n := match o with
             | Some p => upd_obs p (fun x => set_transaction_id (request_identifier r) (set_target now target x)) n
             | None => n
             end in
    let '(sent, n) := m_send (request_message r) target 1 n in
    if sent then
      (true, match o with Some p => set_transactions (n_transactions n ++ [p]) n | None => n end)
    else (false, n).

(** ** Functions called with the nodes a lookup found *)

(** A dummy [traversal_algorithm], as [node_impl::add_node] creates one. *)
Definition new_algorithm (t : traversal) (n : node_impl) : nat * node_impl :=
  let a := n_news n in
  (a, set_algorithms (<[a := t]> (n_algorithms n)) (set_counters (n_mallocs n) (S a) (n_sends n) (n_randoms n) n)).

Definition traversal_new (n : node_impl) (kind : traversal_kind) (target : node_id) (cb : nodes_callback)
    (f : option nat) (search_type : Z) : traversal :=
  Traversal kind target [] 0 3 0 0 (Z.of_nat (m_bucket_size (n_table n)) * 2) cb f false false search_type.

Definition dummy_algorithm (n : node_impl) : nat * node_impl :=
  new_algorithm (traversal_new n plain_traversal hash_min nop None 0) n.

Fixpoint search_requests (r : kad_request) (v : list node_entry) (n : node_impl) : node_impl :=
  match v with
  | [] => n
  | e :: v => search_requests r v (snd (rpc_invoke r (ep e) None n))
  end.

Fixpoint announce_requests (a : nat) (ih : node_id) (v : list node_entry) (n : node_impl) : node_impl :=
  match v with
  | [] => n
  | e :: v =>
      match allocate_observer n with
      | (None, n) => n
      | (Some p, n) =>
          let n := upd_obs p (fun _ => observer_new now announce_observer a (ep e) (nid e)) n in
          announce_requests a ih v (snd (rpc_invoke (kad2_search_key_req ih 0) (ep e) (Some p) n))
      end
  end.

Definition call_nodes_callback (cb : nodes_callback) (v : list node_entry) (n : node_impl) : node_impl :=
  match cb with
  | nop => n
  | announce_fun _ ih => let '(a, n) := dummy_algorithm n in announce_requests a ih v n
  | search_keywords_fun _ target => search_requests (kad2_search_key_req target 0) v n
  | search_sources_fun _ size target => search_requests (kad2_search_sources_req target 0 size) v n
  end.

(** [node_impl::add_node]: pings the node. *)
Definition node_add_node (node : endpoint) (id : node_id) (n : node_impl) : node_impl :=
  match allocate_observer n with
  | (None, n) => n
  | (Some p, n) =>
      let '(a, n) := dummy_algorithm n in
      let n := upd_obs p (fun _ => observer_new now null_observer a node id) n in
      snd (rpc_invoke kad2_ping node (Some p) n)
  end.

(** ** The end of a lookup *)

Definition traversal_done (a : nat) (n : node_impl) : node_impl := upd_alg a (set_results []) n.

(** The loop of [find_data::done]. *)
Fixpoint collect_results (n : node_impl) (num_results : nat) (l : list nat) : list node_entry :=
  match l, num_results with
  | [], _ | _, O => []
  | p :: l, S num =>
      let o := obs n p in
      if has flag_no_id o then collect_results n num_results l
      else if negb (has flag_queried o) then collect_results n num_results l
      else node_entry_new (o_id o) (target_ep o) false :: collect_results n num l
  end.

Definition find_data_done (a : nat) (n : node_impl) : node_impl :=
  if negb (t_invoke_count (alg n a) =? 0) then n
  else
    let n := upd_alg a (set_done true) n in
    let t := alg n a in
    let results := collect_results n (m_bucket_size (n_table n)) (t_results t) in
    let n := call_nodes_callback (t_nodes_callback t) results
               (log_event (ev_nodes a (t_nodes_callback t) results (t_got_peers t)) n) in
    let n := match t_data_callback t with Some f => log_event (ev_data f (t_target t)) n | None => n end in
    traversal_done a n.

Fixpoint ping_rest (l : list nat) (n : node_impl) : node_impl :=
  match l with
  | [] => n
  | p :: l =>
      let o := obs n p in
      if has flag_queried o then ping_rest l n
      else ping_rest l (node_add_node (target_ep o) (o_id o) n)
  end.

Definition bootstrap_done (a : nat) (n : node_impl) : node_impl :=
  find_data_done a (ping_rest (t_results (alg n a)) n).

(** The virtual [done]. *)
Definition done (a : nat) (n : node_impl) : node_impl :=
  match t_kind (alg n a) with
  | plain_traversal => traversal_done a n
  | find_data | refresh => find_data_done a n
  | bootstrap => bootstrap_done a n
  end.

(** ** Requests of a lookup *)

(** The virtual [invoke]. *)
Definition invoke (a : nat) (p : nat) (n : node_impl) : bool * node_impl :=
  match t_kind (alg n a) with
  | plain_traversal => (false, n)
  | find_data =>
      if t_done (alg n a) then (false, upd_alg a (set_invoke_count (-1)) n)
      else
        let r := kademlia2_req (t_search_type (alg n a)) (t_target (alg n a)) (o_id (obs n p)) in
        let n := upd_obs p (set_packet_id (t_target (alg n a))) n in
        rpc_invoke r (target_ep (obs n p)) (Some p) n
  | refresh => rpc_invoke (kad2_hello_req hash_clear 0 0) (target_ep (obs n p)) (Some p) n
  | bootstrap => rpc_invoke kad2_bootstrap_req (target_ep (obs n p)) (Some p) n
  end.

(** The loop of [add_requests], from an element of [m_results] on. *)
Fixpoint add_requests_loop (a : nat) (l : list nat) (results_target : Z) (n : node_impl) : node_impl :=
  match l with
  | [] => n
  | p :: l =>
      if (0 <? results_target) && (t_invoke_count (alg n a) <? t_branch_factor (alg n a)) then
        let results_target := if has flag_alive (obs n p) then results_target - 1 else results_target in
        if has flag_queried (obs n p) then add_requests_loop a l results_target n
        else
          let n := upd_obs p (set_flags flag_queried) n in
          let '(sent, n) := invoke a p n in
          let n := if sent then upd_alg a (fun t => set_invoke_count (t_invoke_count t + 1) t) n
                   else upd_obs p (set_flags flag_failed) n in
          add_requests_loop a l results_target n
      else n
  end.

Definition add_requests (a : nat) (n : node_impl) : node_impl :=
  add_requests_loop a (t_results (alg n a)) (t_num_target_nodes (alg n a)) n.

Definition done_if_idle (a : nat) (n : node_impl) : node_impl :=
  if t_invoke_count (alg n a) =? 0 then done a n else n.

(** ** The nodes of a lookup *)

(** "returns true of lhs and rhs are too close to each other to appear in the
    same DHT search under different node IDs" *)
Definition search_compare_ip_cidr (lhs rhs : observer) : bool :=
  cidr_distance (target_addr lhs) (target_addr rhs) <=? 4.

Definition traversal_observer (k : traversal_kind) : observer_kind :=
  match k with plain_traversal => null_observer | _ => find_data_observer end.

(** [add_entry] once the observer exists. *)
Definition insert_result (a : nat) (id : node_id) (flags : Z) (p : nat) (n : node_impl) : node_impl :=
  let t := alg n a in
  let i := results_lower_bound (fun q => compare_ref (o_id (obs n q)) (o_id (obs n p)) (t_target t)) (t_results t) in
  let resized (l : list nat) : list nat := if (100 <? length l)%nat then take 100 l else l in
  let present := match t_results t !! i with Some q => bool_decide (o_id (obs n q) = id) | None => false end in
  if present then upd_alg a (set_results (resized (t_results t))) n
  else if n_restrict_search_ips n && (Z.land flags flag_initial =? 0)
          && existsb (fun q => search_compare_ip_cidr (obs n q) (obs n p)) (t_results t) then n
  else upd_alg a (set_results (resized (take i (t_results t) ++ p :: drop i (t_results t)))) n.

Definition add_entry (a : nat) (id : node_id) (addr : endpoint) (flags : Z) (n : node_impl) : node_impl :=
  match allocate_observer n with
  | (None, n) => done a n
  | (Some p, n) =>
      let o := observer_new now (traversal_observer (t_kind (alg n a))) a addr id in
      let '(o, n) := if is_all_zeros id
                     then let '(r, n) := generate_random_id n in (set_flags flag_no_id (set_id r o), n)
                     else (o, n) in
      let n := upd_obs p (fun _ => set_flags flags o) n in
      insert_result a id flags p n
  end.

Definition traverse (a : nat) (id : node_id) (addr : endpoint) (n : node_impl) : node_impl := add_entry a id addr 0 n.

Fixpoint add_initial (a : nat) (l : list (node_id * endpoint)) (n : node_impl) : node_impl :=
  match l with
  | [] => n
  | (id, e) :: l => add_initial a l (add_entry a id e flag_initial n)
  end.

Definition add_router_entries (a : nat) (n : node_impl) : node_impl :=
  add_initial a ((fun e => (hash_clear, e)) <$> merge_sort endpoint_le (m_router_nodes (n_table n))) n.

Definition add_traversal_algorithm (a : nat) (n : node_impl) : node_impl :=
  if decide (a ∈ n_running n) then n else set_running (a :: n_running n) n.

Definition traversal_init (a : nat) (n : node_impl) : node_impl :=
  let n := set_table (touch_bucket min_time now (n_table n) (t_target (alg n a))) n in
  let n := upd_alg a (set_branch_factor (n_search_branching n)) n in
  add_traversal_algorithm a n.

Definition start (a : nat) (n : node_impl) : node_impl :=
  let n := match t_results (alg n a) with [] => add_router_entries a n | _ => n end in
  let n := traversal_init a n in
  let n := add_requests a n in
  done_if_idle a n.

(** ** Answers and timeouts *)

Definition finished (p : nat) (n : node_impl) : node_impl :=
  let a := o_algorithm (obs n p) in
  let n := if has flag_short_timeout (obs n p)
           then upd_alg a (fun t => set_branch_factor (t_branch_factor t - 1) t) n else n in
  let n := upd_obs p (set_flags flag_alive) n in
  let n := upd_alg a (fun t => set_invoke_count (t_invoke_count t - 1) (set_responses (t_responses t + 1) t)) n in
  let n := add_requests a n in
  done_if_idle a n.

Definition prevent_request : Z := 1.
Definition short_timeout : Z := 2.

(** The branch of [failed] for the first timeout, and the one for the last. *)
Definition failed_short (a p : nat) (n : node_impl) : node_impl :=
  let n := if has flag_short_timeout (obs n p) then n
           else upd_alg a (fun t => set_branch_factor (t_branch_factor t + 1) t) n in
  upd_obs p (set_flags flag_short_timeout) n.

Definition failed_last (a p : nat) (n : node_impl) : node_impl :=
  let n := upd_obs p (set_flags flag_failed) n in
  let n := if has flag_short_timeout (obs n p)
           then upd_alg a (fun t => set_branch_factor (t_branch_factor t - 1) t) n else n in
  let n := if has flag_no_id (obs n p) then n
           else set_table (node_failed min_time (n_table n) (o_id (obs n p)) (target_ep (obs n p))) n in
  upd_alg a (fun t => set_invoke_count (t_invoke_count t - 1) (set_timeouts (t_timeouts t + 1) t)) n.

Definition failed (p : nat) (flags : Z) (n : node_impl) : node_impl :=
  let a := o_algorithm (obs n p) in
  match t_results (alg n a) with
  | [] => n
  | _ =>
      let n := if negb (Z.land flags short_timeout =? 0) then failed_short a p n else failed_last a p n in
      let n := if negb (Z.land flags prevent_request =? 0)
               then upd_alg a (fun t => let b := t_branch_factor t - 1 in set_branch_factor (if b <=? 0 then 1 else b) t) n
               else n in
      let n := add_requests a n in
      done_if_idle a n
  end.

(** *** observer *)

Definition observer_abort (p : nat) (n : node_impl) : node_impl :=
  if has flag_done (obs n p) then n else failed p prevent_request (upd_obs p (set_flags flag_done) n).

Definition observer_done (p : nat) (n : node_impl) : node_impl :=
  if has flag_done (obs n p) then n else finished p (upd_obs p (set_flags flag_done) n).

Definition observer_short_timeout (p : nat) (n : node_impl) : node_impl :=
  if has flag_short_timeout (obs n p) then n else failed p short_timeout n.

Definition observer_timeout (p : nat) (n : node_impl) : node_impl :=
  if has flag_done (obs n p) then n else failed p 0 (upd_obs p (set_flags flag_done) n).

Fixpoint traverse_all (a : nat) (l : list kad_entry) (n : node_impl) : node_impl :=
  match l with
  | [] => n
  | e :: l => traverse_all a l (traverse a (ke_kid e) (int2ip (ke_address e), ke_udp_port e) n)
  end.

(** The virtual [reply]. *)
Definition observer_reply (p : nat) (r : kad_reply) (n : node_impl) : node_impl :=
  match o_kind (obs n p) with
  | null_observer | announce_observer => upd_obs p (set_flags flag_done) n
  | find_data_observer =>
      match r with
      | kad2_bootstrap_res _ _ _ l | kademlia2_res _ l => observer_done p (traverse_all (o_algorithm (obs n p)) l n)
      | _ => observer_done p n
      end
  end.

(** ** rpc_manager, the calls of the node *)

Definition erase_transaction (i : nat) (n : node_impl) : node_impl :=
  set_transactions (delete i (n_transactions n)) n.

Definition unreachable (e : endpoint) (n : node_impl) : node_impl :=
  match list_find (fun p => target_ep (obs n p) = e) (n_transactions n) with
  | None => n
  | Some (i, p) => observer_timeout p (erase_transaction i n)
  end.

Definition transaction_matches (r : kad_reply) (target : endpoint) (o : observer) : bool :=
  (o_transaction_id o =? reply_identifier r) && bool_decide (target_addr o = fst target)
  && bool_decide (packet_kad_identifier r = o_packet_id o).

(** [rpc_manager::incoming]: the identifier of the node to refresh, if any. *)
Definition rpc_incoming (r : kad_reply) (target : endpoint) (n : node_impl) : option node_id * node_impl :=
  if n_destructing n then (None, n)
  else
    match list_find (fun p => transaction_matches r target (obs n p)) (n_transactions n) with
    | None => (None, n)
    | Some (i, p) =>
        let n := observer_reply p r (erase_transaction i n) in
        let id := extract_packet_node_id r in
        let id := if bool_decide (id = hash_clear) then o_id (obs n p) else id in
        let '(refresh_needed, t) := node_seen min_time now (n_table n) id target in
        (if refresh_needed then Some id else None, set_table t n)
    end.

(** The observers at the front of the list that are older than [age], and the age
    of the first that is not. *)
Fixpoint older (n : node_impl) (age : Z) (l : list nat) : list nat * list nat :=
  match l with
  | [] => ([], [])
  | p :: l' =>
      if now - o_sent (obs n p) <? age then ([], l)
      else let '(old, rest) := older n age l' in (p :: old, rest)
  end.

(** The time until the first of [rest] reaches [age]. *)
Definition next_timeout (n : node_impl) (age : Z) (rest : list nat) (ret : Z) : Z :=
  match rest with [] => ret | p :: _ => age - (now - o_sent (obs n p)) end.

Definition fold_obs (f : nat -> node_impl -> node_impl) (l : list nat) (n : node_impl) : node_impl :=
  fold_left (fun n p => f p n) l n.

Definition rpc_tick (n : node_impl) : Z * node_impl :=
  match n_transactions n with
  | [] => (seconds 2, n)
  | _ =>
      let '(timeouts, rest) := older n (seconds 12) (n_transactions n) in
      let ret := next_timeout n (seconds 12) rest (seconds 2) in
      let n := fold_obs observer_timeout timeouts (set_transactions rest n) in
      let '(first, rest) := older n (seconds 2) (n_transactions n) in
      let ret := next_timeout n (seconds 2) rest ret in
      let timeouts := filter (fun p => has flag_short_timeout (obs n p) = false) first in
      (ret, fold_obs observer_short_timeout timeouts n)
  end.

Definition rpc_manager_destroy (n : node_impl) : node_impl :=
  let n := set_destructing true n in
  set_transactions [] (fold_obs observer_abort (n_transactions n) n).

(** ** node_impl *)

(** The constructors of the lookups: [find_data] fills in the live nodes of the
    table; while it does, the object is a [find_data], whatever it is to become. *)
Definition live_entries (t : routing_table) : list (node_id * endpoint) :=
  (fun e => (nid e, ep e)) <$> (m_buckets t ≫= live_nodes).

Definition find_data_new (target : node_id) (cb : nodes_callback) (f : option nat) (search_type : Z) (n : node_impl) : nat * node_impl :=
  let '(a, n) := new_algorithm (traversal_new n find_data target cb f search_type) n in
  (a, add_initial a (live_entries (n_table n)) n).

Definition refresh_new (target : node_id) (cb : nodes_callback) (n : node_impl) : nat * node_impl :=
  let '(a, n) := find_data_new target cb None 0 n in
  (a, upd_alg a (set_kind refresh) n).

Definition bootstrap_new (target : node_id) (cb : nodes_callback) (n : node_impl) : nat * node_impl :=
  let '(a, n) := refresh_new target cb n in
  (a, upd_alg a (fun t => set_num_target_nodes (t_num_target_nodes t * 2) (set_kind bootstrap t)) n).

Definition node_refresh (id : node_id) (cb : nodes_callback) (n : node_impl) : node_impl :=
  let '(a, n) := refresh_new id cb n in start a n.

Definition node_bootstrap (nodes : list endpoint) (cb : nodes_callback) (n : node_impl) : node_impl :=
  let '(a, n) := bootstrap_new (n_id n) cb n in
  start a (add_initial a ((fun e => (hash_clear, e)) <$> nodes) n).

Definition node_announce (info_hash : node_id) (listen_port : Z) (f : option nat) (n : node_impl) : node_impl :=
  let '(a, n) := find_data_new info_hash (announce_fun listen_port info_hash) f KADEMLIA_STORE n in start a n.

Definition node_search_keywords (info_hash : node_id) (listen_port : Z) (f : option nat) (n : node_impl) : node_impl :=
  let '(a, n) := find_data_new info_hash (search_keywords_fun listen_port info_hash) f KADEMLIA_FIND_VALUE n in start a n.

Definition node_search_sources (info_hash : node_id) (listen_port size : Z) (f : option nat) (n : node_impl) : node_impl :=
  let '(a, n) := find_data_new info_hash (search_sources_fun listen_port size info_hash) f KADEMLIA_FIND_NODE n in start a n.

Definition node_add_router_node (router : endpoint) (n : node_impl) : node_impl :=
  set_table (add_router_node (n_table n) router) n.

(** [node_impl::tick]; the table draws a random identifier when it needs one. *)
Definition node_tick (n : node_impl) : node_impl :=
  let '(r, n) := generate_random_id n in
  let '(target, t) := need_refresh now r (n_table n) in
  let n := set_table t n in
  match target with Some id => node_refresh id nop n | None => n end.

(** [minutes(int(announce_interval * 1.5f))] is 45 minutes. *)
Definition purge_peers (l : list peer_entry) : list peer_entry :=
  filter (fun p => negb (pe_added p + minutes 45 <? now)) l.

Definition connection_timeout (n : node_impl) : Z * node_impl :=
  let '(d, n) := rpc_tick n in
  if now - n_last_tracker_tick n <? minutes 2 then (d, n)
  else
    let immutable := filter (fun x => now <? snd x + minutes 60) (n_immutable n) in
    let map := filter (fun x => snd x <> []) ((fun x => (fst x, purge_peers (snd x))) <$> n_map n) in
    (d, set_tracker map immutable now n).

Definition node_incoming (r : kad_reply) (target : endpoint) (n : node_impl) : node_impl :=
  match rpc_incoming r target n with
  | (Some id, n) => node_refresh id nop n
  | (None, n) => n
  end.

(** [kad_entry ke;] leaves [tcp_port] and [version] unset. *)
Definition entry_to_emule (e : node_entry) : kad_entry :=
  KadEntry (nid e) (address2int (RoutingTable.addr e)) (port e) (fst (env_unset env)) (snd (env_unset env)).

(** The answer to a request, and what else [incoming_request] does. *)
Definition incoming_request (r : kad_request) (target : endpoint) (n : node_impl) : node_impl :=
  let answer (p : kad_reply) (n : node_impl) := snd (m_send (reply_message p) target 0 n) in
  match r with
  | kad2_ping => answer (kad2_pong (n_port n)) n
  | kad_firewalled_req _ => snd (m_send (kad_firewalled_res (address2int (fst target))) target 0 n)
  | kad2_hello_req kid _ _ => node_add_node target kid (answer (kad2_hello_res (n_id n) (n_port n) KADEMLIA_VERSION) n)
  | kad2_bootstrap_req => answer (kad2_bootstrap_res (n_id n) 4661 KADEMLIA_VERSION []) n
  | kademlia2_req search_type kid_target _ =>
      let '(t, res) := find_node min_time (n_table n) kid_target true (Z.to_nat search_type) in
      answer (kademlia2_res hash_clear (entry_to_emule <$> res)) (set_table t n)
  | _ => n
  end.

(** The constructor, with the identifier [nid] it keeps or the one it generates. *)
Definition node_new (search_branching : Z) (restrict_search_ips : bool) (settings : dht_settings) (external : address)
    (crc32c : bytes -> Z) (random : nat -> Z) (r : Z) (nid : node_id) (port : Z) : node_impl :=
  let id := if bool_decide (nid = hash_min) || negb (verify_id crc32c random nid external)
            then generate_id_impl crc32c random external r else nid in
  Node search_branching restrict_search_ips id port (routing_table_new min_time id 10 settings) [] false ∅ ∅ [] [] [] now 0 0 0 0 [].

(** [traversal_algorithm::status]; [INT_MAX] when nothing was sent. *)
Record dht_lookup := Lookup {
  l_timeouts : Z; l_responses : Z; l_outstanding_requests : Z; l_branch_factor : Z; l_kind : traversal_kind;
  l_nodes_left : Z; l_first_timeout : Z; l_last_sent : Z }.

Definition status_step (n : node_impl) (l : dht_lookup) (p : nat) : dht_lookup :=
  let o := obs n p in
  if has flag_queried o then
    Lookup (l_timeouts l) (l_responses l) (l_outstanding_requests l) (l_branch_factor l) (l_kind l) (l_nodes_left l)
      (if has flag_short_timeout o then l_first_timeout l + 1 else l_first_timeout l)
      (Z.min (l_last_sent l) (Z.quot (now - o_sent o) 1000000))
  else
    Lookup (l_timeouts l) (l_responses l) (l_outstanding_requests l) (l_branch_factor l) (l_kind l) (l_nodes_left l + 1)
      (l_first_timeout l) (l_last_sent l).

Definition traversal_status (a : nat) (n : node_impl) : dht_lookup :=
  let t := alg n a in
  fold_left (status_step n) (t_results t)
    (Lookup (t_timeouts t) (t_responses t) (t_invoke_count t) (t_branch_factor t) (t_kind t) 0 0 0x7fffffff).
End Node.
