(* ===== verification/DhtInv.v ===== *)
(** * The Kademlia node: the invariant of its lookups

    What holds of the observers, the lookups and the outstanding requests of
    Dht.v between two events, and the relation [touches] that says what an
    operation on one lookup leaves alone. *)

From S2P Require Import Prelude Archive Md4Hash Bitfield KadId RoutingTable RoutingTableInv RoutingTableProps Dht.
From stdpp Require Import gmap sorting.
Open Scope Z_scope.

(** ** Flags *)

Lemma has_set f g o : has f (set_flags g o) = has f o || negb (Z.land g f =? 0).
Proof.
  unfold has, set_flags. cbn [o_flags]. rewrite Z.land_lor_distr_l.
  destruct (Z.eqb_spec (Z.lor (Z.land (o_flags o) f) (Z.land g f)) 0) as [E|E].
  - apply Z.lor_eq_0_iff in E as [-> ->]. done.
  - destruct (Z.eqb_spec (Z.land (o_flags o) f) 0) as [E1|], (Z.eqb_spec (Z.land g f) 0) as [E2|]; try done.
    by rewrite E1, E2 in E.
Qed.

Lemma has_clear f g o : Z.ldiff f g = f -> has f (clear_flag g o) = has f o.
Proof.
  intros E. unfold has, clear_flag. cbn [o_flags]. rewrite <- Z.land_assoc, (Z.land_comm _ f), <- Z.ldiff_land.
  by rewrite E.
Qed.

(** The pointers whose observers satisfy a test. *)
Definition with_flag (n : node_impl) (f : Z) (l : list nat) : list nat := filter (fun p => has f (obs n p) = true) l.

(** ** The store *)

Lemma obs_upd n p f q : obs (upd_obs p f n) q = if decide (q = p) then f (obs n p) else obs n q.
Proof.
  unfold obs, upd_obs. cbn. rewrite lookup_total_insert. by repeat case_decide; subst.
Qed.

Lemma alg_upd n a f b : alg (upd_alg a f n) b = if decide (b = a) then f (alg n a) else alg n b.
Proof.
  unfold alg, upd_alg. cbn. rewrite lookup_total_insert. by repeat case_decide; subst.
Qed.

Lemma obs_upd_eq n p f : obs (upd_obs p f n) p = f (obs n p).
Proof. rewrite obs_upd. by rewrite decide_True. Qed.
Lemma obs_upd_ne n p f q : q <> p -> obs (upd_obs p f n) q = obs n q.
Proof. intros. rewrite obs_upd. by rewrite decide_False. Qed.
Lemma alg_upd_eq n a f : alg (upd_alg a f n) a = f (alg n a).
Proof. rewrite alg_upd. by rewrite decide_True. Qed.
Lemma alg_upd_ne n a f b : b <> a -> alg (upd_alg a f n) b = alg n b.
Proof. intros. rewrite alg_upd. by rewrite decide_False. Qed.

(** The other updates of the node do not touch the store. *)
Lemma obs_log e n p : obs (log_event e n) p = obs n p.
Proof. done. Qed.
Lemma obs_counters i j k l n p : obs (set_counters i j k l n) p = obs n p.
Proof. done. Qed.
Lemma obs_transactions l n p : obs (set_transactions l n) p = obs n p.
Proof. done. Qed.
Lemma obs_table t n p : obs (set_table t n) p = obs n p.
Proof. done. Qed.
Lemma obs_running l n p : obs (set_running l n) p = obs n p.
Proof. done. Qed.
Lemma obs_alg a f n p : obs (upd_alg a f n) p = obs n p.
Proof. done. Qed.
Lemma obs_algorithms m n p : obs (set_algorithms m n) p = obs n p.
Proof. done. Qed.
Lemma alg_log e n a : alg (log_event e n) a = alg n a.
Proof. done. Qed.
Lemma alg_counters i j k l n a : alg (set_counters i j k l n) a = alg n a.
Proof. done. Qed.
Lemma alg_transactions l n a : alg (set_transactions l n) a = alg n a.
Proof. done. Qed.
Lemma alg_table t n a : alg (set_table t n) a = alg n a.
Proof. done. Qed.
Lemma alg_running l n a : alg (set_running l n) a = alg n a.
Proof. done. Qed.
Lemma alg_obs p f n a : alg (upd_obs p f n) a = alg n a.
Proof. done. Qed.

Create Rewrite HintDb dht_store.
#[export] Hint Rewrite obs_log obs_counters obs_transactions obs_table obs_running obs_alg obs_algorithms
  alg_log alg_counters alg_transactions alg_table alg_running alg_obs obs_upd_eq alg_upd_eq : dht_store.
Ltac store := autorewrite with dht_store.

(** ** The invariant *)

(** Calls of the function a lookup was given. *)
Definition is_call (a : nat) (e : event) : bool := match e with ev_nodes b _ _ _ => Nat.eqb b a | _ => false end.
Definition called (a : nat) (log : list event) : list event := filter (fun e => is_call a e = true) log.
Definition calls (a : nat) (log : list event) : nat := length (called a log).

(** The nodes handed over are in the order of their distances to the target. *)
Definition by_distance (target : node_id) (v : list node_entry) : Prop :=
  StronglySorted (fun x y => value (distance (nid x) target) <= value (distance (nid y) target)) v.
Definition nearest_first (target : node_id) (e : event) : Prop :=
  match e with ev_nodes _ _ v _ => by_distance target v | _ => True end.

(** The outstanding requests of a lookup among [ol]. *)
Definition out (n : node_impl) (ol : list nat) (a : nat) : list nat := filter (fun p => o_algorithm (obs n p) = a) ol.

Definition short_out (n : node_impl) (ol : list nat) (a : nat) : list nat := with_flag n flag_short_timeout (out n ol a).

(** An outstanding request of a lookup. *)
Definition asked (n : node_impl) (p : nat) : Prop :=
  has flag_queried (obs n p) = true /\ has flag_done (obs n p) = false /\ o_kind (obs n p) = find_data_observer.

(** The counters of a lookup, when the requests [ol] are outstanding. *)
Record accounts (n : node_impl) (ol : list nat) (a : nat) : Prop := {
  ac_count : t_invoke_count (alg n a) = Z.of_nat (length (out n ol a));
  ac_branch : t_branch_factor (alg n a) = n_search_branching n + Z.of_nat (length (short_out n ol a));
  ac_limit : Z.of_nat (length (out n ol a)) - Z.of_nat (length (short_out n ol a)) <= Z.max 0 (n_search_branching n);
  ac_out : Forall (asked n) (out n ol a);
  ac_calls : calls a (n_log n) = if t_done (alg n a) then 1%nat else 0%nat;
  ac_nearest : Forall (nearest_first (t_target (alg n a))) (called a (n_log n));
  ac_done : t_done (alg n a) = true -> out n ol a = [] /\ t_results (alg n a) = []
}.

(** A node of a lookup: one that was not asked did not time out or answer. *)
Definition known (n : node_impl) (a p : nat) : Prop :=
  (p < n_mallocs n)%nat /\ o_algorithm (obs n p) = a /\ hash_wf (o_id (obs n p)) /\ o_kind (obs n p) = find_data_observer /\
  (has flag_queried (obs n p) = false -> has flag_short_timeout (obs n p) = false /\ has flag_done (obs n p) = false).

(** Distance of a known node from the target. *)
Definition dist (n : node_impl) (a p : nat) : Z := value (distance (o_id (obs n p)) (t_target (alg n a))).

(** Two nodes may appear in one search: they are not close, or both were there
    from the start. *)
Definition apart (n : node_impl) (p q : nat) : Prop :=
  search_compare_ip_cidr (obs n p) (obs n q) = false \/
  (has flag_initial (obs n p) = true /\ has flag_initial (obs n q) = true).

Record ordered (n : node_impl) (a : nat) : Prop := {
  or_known : Forall (known n a) (t_results (alg n a));
  or_nodup : NoDup (t_results (alg n a));
  or_sorted : StronglySorted (fun p q => dist n a p <= dist n a q) (t_results (alg n a));
  or_length : (length (t_results (alg n a)) <= 100)%nat;
  or_ids : NoDup ((fun p => o_id (obs n p)) <$> filter (fun p => has flag_no_id (obs n p) = false) (t_results (alg n a)));
  or_apart : n_restrict_search_ips n = true -> forall p q, p ∈ t_results (alg n a) -> q ∈ t_results (alg n a) -> p <> q -> apart n p q;
  or_kind : t_kind (alg n a) <> plain_traversal;
  or_target : hash_wf (t_target (alg n a))
}.

(** An object that only owns single requests. *)
Definition single (n : node_impl) (ol : list nat) (a : nat) : Prop :=
  t_kind (alg n a) = plain_traversal /\ t_results (alg n a) = [] /\
  Forall (fun p => o_kind (obs n p) <> find_data_observer) (out n ol a).

(** A lookup between two events: unless it is done, it waits for an answer. *)
Definition lookup_inv (n : node_impl) (ol : list nat) (a : nat) : Prop :=
  accounts n ol a /\ ordered n a /\ (t_done (alg n a) = false -> out n ol a <> [] /\ t_results (alg n a) <> []).

Record node_inv (n : node_impl) (ol : list nat) : Prop := {
  ni_running : n_destructing n = false;
  ni_own : hash_wf (n_id n);
  ni_table : table_inv (n_table n);
  ni_nodup : NoDup ol;
  ni_out : Forall (fun p => (p < n_mallocs n)%nat /\ (o_algorithm (obs n p) < n_news n)%nat /\ hash_wf (o_id (obs n p))) ol;
  ni_algs : forall a, (a < n_news n)%nat -> single n ol a \/ lookup_inv n ol a;
  ni_calls : forall a, (n_news n <= a)%nat -> called a (n_log n) = []
}.

(** ** What an operation on a lookup changes *)

Section Touches.
Context (now : Z).

(** An observer keeps who it is; the request of one that was asked keeps its time. *)
Record stable (o o' : observer) : Prop := {
  st_kind : o_kind o' = o_kind o;
  st_alg : o_algorithm o' = o_algorithm o;
  st_id : o_id o' = o_id o;
  st_target : o_target o' = o_target o;
  st_no_id : has flag_no_id o' = has flag_no_id o;
  st_initial : has flag_initial o' = has flag_initial o;
  st_queried : has flag_queried o = true -> has flag_queried o' = true /\ o_sent o' = o_sent o;
  st_single : o_kind o <> find_data_observer -> o_sent o' = o_sent o;
  st_rest : o_kind o = find_data_observer -> has flag_queried o' = false ->
    has flag_short_timeout o' = has flag_short_timeout o /\ has flag_done o' = has flag_done o
}.

(** A request that was sent since [n], to a node of the lookup [a] that had not been
    asked, or for an object created since. *)
Definition fresh_request (a : nat) (n n' : node_impl) (p : nat) : Prop :=
  (p < n_mallocs n')%nat /\ (o_algorithm (obs n' p) < n_news n')%nat /\ hash_wf (o_id (obs n' p)) /\ o_sent (obs n' p) = now /\
  ((o_algorithm (obs n' p) = a /\ has flag_queried (obs n' p) = true /\ o_kind (obs n' p) = find_data_observer /\
    ((p < n_mallocs n)%nat -> has flag_queried (obs n p) = false)) \/
   ((n_news n <= o_algorithm (obs n' p))%nat /\ o_algorithm (obs n' p) <> a /\
    o_kind (obs n' p) <> find_data_observer /\ (n_mallocs n <= p)%nat)).

Record touches (a : nat) (n n' : node_impl) (new : list nat) : Prop := {
  tc_const : n_search_branching n' = n_search_branching n /\ n_restrict_search_ips n' = n_restrict_search_ips n /\
             n_destructing n' = n_destructing n /\ n_id n' = n_id n;
  tc_table : table_inv (n_table n) -> table_inv (n_table n');
  tc_mallocs : (n_mallocs n <= n_mallocs n')%nat;
  tc_news : (n_news n <= n_news n')%nat;
  tc_trans : n_transactions n' = n_transactions n ++ new;
  tc_new : Forall (fresh_request a n n') new;
  tc_nodup : NoDup new;
  tc_algs : forall b, b <> a -> (b < n_news n)%nat -> alg n' b = alg n b;
  tc_plain : forall b, b <> a -> (n_news n <= b < n_news n')%nat -> t_kind (alg n' b) = plain_traversal /\ t_results (alg n' b) = [];
  tc_obs : forall p, (p < n_mallocs n)%nat -> o_algorithm (obs n p) <> a -> obs n' p = obs n p;
  tc_stable : forall p, (p < n_mallocs n)%nat -> stable (obs n p) (obs n' p);
  tc_calls : forall b, b <> a -> called b (n_log n') = called b (n_log n)
}.

Lemma stable_refl o : stable o o.
Proof. by split. Qed.

Lemma stable_trans o1 o2 o3 : stable o1 o2 -> stable o2 o3 -> stable o1 o3.
Proof.
  intros [] []. split; try congruence.
  - intros Hq. destruct (st_queried0 Hq) as [Hq2 ?]. destruct (st_queried1 Hq2). split; congruence.
  - intros Hk. rewrite st_single1 by congruence. by apply st_single0.
  - intros Hk Hq. destruct st_rest1 as [-> ->]; [congruence|done|]. apply st_rest0; [done|]. destruct (has flag_queried o2); [|done].
    destruct st_queried1; congruence.
Qed.

Lemma touches_refl a n : touches a n n [].
Proof. split; intros; try done; try lia; [by rewrite app_nil_r|apply NoDup_nil_2]. Qed.

Lemma fresh_request_later a n1 n2 n3 new p :
  touches a n2 n3 new -> (n_news n1 <= n_news n2)%nat -> fresh_request a n1 n2 p -> fresh_request a n1 n3 p.
Proof.
  intros [] Hn (Hp & Halt & Hid & Hs & Hor). pose proof (tc_stable0 p Hp) as [Hk Ha Hi ? _ _ Hq _ _].
  split_and!; [lia|rewrite Ha; lia|by rewrite Hi| |].
  - destruct Hor as [(_ & Hq0 & _)|(_ & Hne & _)]; [by rewrite (proj2 (Hq Hq0))|]. by rewrite tc_obs0.
  - rewrite Ha, Hk. destruct Hor as [(Ha0 & Hq0 & ? & ?)|(? & ? & ? & ?)]; [left|by right].
    split_and!; [done|apply (Hq Hq0)|done..].
Qed.

Lemma fresh_request_earlier a n1 n2 n3 new p :
  touches a n1 n2 new -> fresh_request a n2 n3 p -> fresh_request a n1 n3 p.
Proof.
  intros [] (? & ? & ? & ? & [(? & ? & ? & Hq)|(? & ? & ? & ?)]); (split_and!; try done); [left|right]; (split_and!; try (done || lia)).
  intros Hp. destruct (has flag_queried (obs n1 p)) eqn:E; [|done]. apply (st_queried _ _ (tc_stable0 p Hp)) in E as [E _].
  rewrite Hq in E by lia. done.
Qed.

Lemma fresh_disjoint a n1 n2 n3 p : fresh_request a n1 n2 p -> fresh_request a n2 n3 p -> stable (obs n2 p) (obs n3 p) -> False.
Proof.
  intros (Hp & _ & _ & _ & Hor) (_ & _ & _ & _ & Hor') Hst. destruct Hor' as [(Ha & _ & _ & Hq)|(_ & _ & _ & ?)]; [|lia].
  rewrite (st_alg _ _ Hst) in Ha. destruct Hor as [(_ & Hq' & _)|(_ & ? & _)]; [|done]. by rewrite Hq in Hq'.
Qed.

Lemma touches_trans a n1 n2 n3 new1 new2 :
  touches a n1 n2 new1 -> touches a n2 n3 new2 -> touches a n1 n3 (new1 ++ new2).
Proof.
  intros H1 H2. pose proof H1 as []. pose proof H2 as []. destruct tc_const0 as (? & ? & ? & ?), tc_const1 as (? & ? & ? & ?).
  split.
  - split_and!; congruence.
  - auto.
  - lia.
  - lia.
  - by rewrite tc_trans1, tc_trans0, app_assoc.
  - apply Forall_app; split; [eapply Forall_impl; [exact tc_new0|]; intros p; by eapply fresh_request_later|].
    eapply Forall_impl; [exact tc_new1|]. intros p. by eapply fresh_request_earlier.
  - apply NoDup_app; split_and!; [done| |done]. intros p Hp1 Hp2. rewrite Forall_forall in tc_new0, tc_new1.
    apply (fresh_disjoint a n1 n2 n3 p); [auto..|]. apply tc_stable1. by apply tc_new0.
  - intros b Hb Hlt. rewrite tc_algs1 by lia. by apply tc_algs0.
  - intros b Hb Hlt. destruct (decide (b < n_news n2)%nat); [rewrite tc_algs1 by lia; apply tc_plain0; lia|]. apply tc_plain1; lia.
  - intros p Hp Ha. rewrite tc_obs1; [by apply tc_obs0|lia|]. by rewrite (st_alg _ _ (tc_stable0 p Hp)).
  - intros p Hp. eapply stable_trans; [by apply tc_stable0|]. apply tc_stable1. lia.
  - intros b Hb. by rewrite tc_calls1, tc_calls0.
Qed.

(** ** The other lookups *)

Lemma filter_all {A} (P : A -> Prop) `{!forall x, Decision (P x)} (l : list A) : Forall P l -> filter P l = l.
Proof. induction 1 as [|x l Hx _ IH]; [done|]. rewrite filter_cons_True by done. by rewrite IH. Qed.

Lemma filter_nothing {A} (P : A -> Prop) `{!forall x, Decision (P x)} (l : list A) : Forall (fun x => ~ P x) l -> filter P l = [].
Proof. induction 1 as [|x l Hx _ IH]; [done|]. by rewrite filter_cons_False by done. Qed.

Lemma elem_of_out n ol a p : p ∈ out n ol a <-> o_algorithm (obs n p) = a /\ p ∈ ol.
Proof. unfold out. by rewrite list_elem_of_filter. Qed.

Lemma out_app n l1 l2 a : out n (l1 ++ l2) a = out n l1 a ++ out n l2 a.
Proof. apply filter_app. Qed.

Lemma filter_agree {A} (P Q : A -> Prop) `{!forall x, Decision (P x)} `{!forall x, Decision (Q x)} (l : list A) :
  (forall x, x ∈ l -> P x <-> Q x) -> filter P l = filter Q l.
Proof.
  induction l as [|x l IH]; intros Hl; [done|]. rewrite !filter_cons, IH by (intros y Hy; apply Hl; by right).
  pose proof (Hl x (list_elem_of_here x l)). by repeat case_decide; tauto.
Qed.

Lemma sorted_agree {A} (R R' : A -> A -> Prop) (l : list A) :
  (forall x y, x ∈ l -> y ∈ l -> R x y -> R' x y) -> StronglySorted R l -> StronglySorted R' l.
Proof.
  intros Hag Hs. revert Hag. induction Hs as [|x l _ IH Hx]; intros Hag; [constructor|]. constructor.
  - apply IH. intros y z Hy Hz. apply Hag; by right.
  - rewrite Forall_forall in Hx |- *. intros y Hy. apply Hag; [by left|by right|by apply Hx].
Qed.

Lemma StronglySorted_sublist {A} (R : A -> A -> Prop) l l' : l' `sublist_of` l -> StronglySorted R l -> StronglySorted R l'.
Proof.
  induction 1 as [|x l' l Hs IH|x l' l Hs IH]; intros H; inversion H; subst; auto.
  constructor; [auto|]. rewrite Forall_forall in * |- *. intros y Hy. eapply elem_of_sublist in Hy; [|done]. eauto.
Qed.

Definition below (n : node_impl) (ol : list nat) : Prop :=
  Forall (fun p => (p < n_mallocs n)%nat /\ (o_algorithm (obs n p) < n_news n)%nat /\ hash_wf (o_id (obs n p))) ol.

Lemma out_same a n n' new ol b : touches a n n' new -> below n ol -> out n' ol b = out n ol b.
Proof.
  intros [] Hol. apply filter_agree. intros p Hp. unfold below in Hol. rewrite Forall_forall in Hol. destruct (Hol p Hp) as (Hlt & _).
  by rewrite (st_alg _ _ (tc_stable0 p Hlt)).
Qed.

Lemma out_frame a n n' new ol b :
  touches a n n' new -> below n ol -> b <> a -> (b < n_news n)%nat -> out n' (ol ++ new) b = out n ol b.
Proof.
  intros Ht Hol Hb Hlt. rewrite out_app, (out_same a n n' new) by done. destruct Ht.
  unfold out at 2. rewrite (filter_nothing _ new), app_nil_r; [done|].
  eapply Forall_impl; [exact tc_new0|]. intros p (_ & _ & _ & _ & [[Ea _]|(? & _)]); [congruence|lia].
Qed.

(** Accounts only depend on the lookup, on the outstanding requests in any order,
    and on their observers. *)
Lemma accounts_transfer n n' ol ol' b :
  accounts n ol b -> n_search_branching n' = n_search_branching n -> alg n' b = alg n b ->
  called b (n_log n') = called b (n_log n) -> out n' ol' b ≡ₚ out n ol b ->
  (forall p, p ∈ out n ol b -> obs n' p = obs n p) -> accounts n' ol' b.
Proof.
  intros [] Hc Ha Hl Ho Hobs. assert (short_out n' ol' b ≡ₚ short_out n ol b) as Hs.
  { unfold short_out, with_flag. rewrite Ho. erewrite filter_agree; [done|]. intros p Hp. by rewrite Hobs. }
  split; unfold calls; rewrite ?Ha, ?Hc, ?Hl, ?Hs, ?Ho; try done.
  - apply Forall_forall. intros p Hp. rewrite Forall_forall in ac_out0. unfold asked. rewrite Hobs by done. by apply ac_out0.
  - intros Hd. destruct (ac_done0 Hd) as [E ->]. rewrite E in Ho. by apply Permutation_nil_r in Ho.
Qed.

Lemma accounts_perm n ol ol' b : ol ≡ₚ ol' -> accounts n ol b -> accounts n ol' b.
Proof. intros Hp H. apply (accounts_transfer n n ol ol' b); try done. unfold out. by rewrite Hp. Qed.

Lemma known_stable n n' a p : known n a p -> (n_mallocs n <= n_mallocs n')%nat -> stable (obs n p) (obs n' p) -> known n' a p.
Proof.
  intros (? & ? & ? & ? & Hq) ? []. split_and!; [lia|congruence..|]. intros E. destruct st_rest0 as [-> ->]; [done..|]. apply Hq.
  destruct (has flag_queried (obs n p)); [|done]. destruct st_queried0; congruence.
Qed.

(** The order of a lookup's nodes is kept as long as its observers are who they were. *)
Lemma ordered_transfer n n' b :
  ordered n b -> n_restrict_search_ips n' = n_restrict_search_ips n -> (n_mallocs n <= n_mallocs n')%nat ->
  t_results (alg n' b) = t_results (alg n b) -> t_kind (alg n' b) <> plain_traversal -> t_target (alg n' b) = t_target (alg n b) ->
  (forall p, p ∈ t_results (alg n b) -> stable (obs n p) (obs n' p)) -> ordered n' b.
Proof.
  intros [] Hr Hm Hres Hk Htg Hst. rewrite Forall_forall in or_known0.
  split; rewrite ?Hres, ?Hr, ?Htg; try done.
  - apply Forall_forall. intros p Hp. apply (known_stable n n'); auto.
  - assert (forall p, p ∈ t_results (alg n b) -> dist n' b p = dist n b p) as Hd.
    { intros p Hp. unfold dist. by rewrite Htg, (st_id _ _ (Hst p Hp)). }
    eapply sorted_agree; [|exact or_sorted0]. intros p q Hp Hq. by rewrite !Hd.
  - erewrite filter_agree; [erewrite list_fmap_ext; [exact or_ids0|]|].
    + intros i p Hp%list_elem_of_lookup_2. cbn. apply list_elem_of_filter in Hp as [_ Hp]. by rewrite (st_id _ _ (Hst p Hp)).
    + intros p Hp. cbn. by rewrite (st_no_id _ _ (Hst p Hp)).
  - intros Hrs p q Hp Hq Hne. destruct (Hst p Hp) as [_ _ _ E1 _ I1 _ _ _], (Hst q Hq) as [_ _ _ E2 _ I2 _ _ _].
    specialize (or_apart0 Hrs p q Hp Hq Hne). unfold apart, search_compare_ip_cidr, target_addr in *. by rewrite E1, E2, I1, I2.
Qed.

Lemma lookup_frame a n n' new ol ol' gone b :
  touches a n n' new -> below n ol -> ol ≡ₚ gone ++ ol' -> Forall (fun p => o_algorithm (obs n p) = a) gone ->
  b <> a -> (b < n_news n)%nat -> lookup_inv n ol b -> lookup_inv n' (ol' ++ new) b.
Proof.
  intros Ht Hol Hp Hg Hb Hlt (Hac & Hor & Hlive).
  assert (below n ol') as Hol' by (unfold below in *; rewrite Hp, Forall_app in Hol; apply Hol).
  assert (out n' (ol' ++ new) b ≡ₚ out n ol b) as Ho.
  { rewrite (out_frame a n n' new) by done. unfold out. rewrite Hp, filter_app, (filter_nothing _ gone); [done|].
    eapply Forall_impl; [exact Hg|]. by intros p ->. }
  pose proof (tc_algs _ _ _ _ Ht b Hb Hlt) as Ea. pose proof (tc_const _ _ _ _ Ht) as (E1 & E2 & E3 & E4).
  split_and!.
  - apply (accounts_transfer n n' ol); try done; [by eapply tc_calls|]. intros p [Hpa Hpo]%elem_of_out.
    unfold below in Hol. rewrite Forall_forall in Hol. eapply tc_obs; [exact Ht|by apply Hol|by rewrite Hpa].
  - apply (ordered_transfer n n'); rewrite ?Ea; try done; [eapply tc_mallocs, Ht|apply Hor|].
    intros p Hpr. eapply tc_stable; [exact Ht|]. destruct Hor. rewrite Forall_forall in or_known0. by apply or_known0.
  - rewrite Ea. intros Hd. destruct (Hlive Hd) as [H1 H2]. split; [|done]. intros E. rewrite E in Ho. by apply Permutation_nil_l in Ho.
Qed.

Lemma single_frame a n n' new ol ol' gone b :
  touches a n n' new -> below n ol -> ol ≡ₚ gone ++ ol' -> b <> a -> (b < n_news n)%nat -> single n ol b -> single n' (ol' ++ new) b.
Proof.
  intros Ht Hol Hp Hb Hlt (Hk & Hr & Ho). pose proof (tc_algs _ _ _ _ Ht b Hb Hlt) as Ea. unfold single. rewrite Ea.
  assert (below n ol') as Hol' by (unfold below in *; rewrite Hp, Forall_app in Hol; apply Hol).
  split_and!; [done..|]. rewrite (out_frame a n n' new) by done. unfold below in Hol'. rewrite Forall_forall in Ho, Hol' |- *.
  intros p [Hpa Hpo]%elem_of_out. rewrite (st_kind _ _ (tc_stable _ _ _ _ Ht p (proj1 (Hol' p Hpo)))). apply Ho.
  apply elem_of_out. split; [done|]. rewrite Hp. apply elem_of_app. by right.
Qed.

Lemma single_new a n n' new ol b :
  touches a n n' new -> below n ol -> b <> a -> (n_news n <= b < n_news n')%nat -> single n' (ol ++ new) b.
Proof.
  intros Ht Hol Hb Hlt. destruct (tc_plain _ _ _ _ Ht b Hb Hlt) as [Hk Hr]. split_and!; [done..|].
  rewrite out_app, (out_same a n n' new) by done. apply Forall_app; split; apply Forall_forall.
  - intros p [Hpa Hp]%elem_of_out. unfold below in Hol. rewrite Forall_forall in Hol. destruct (Hol p Hp) as (? & ? & ?). lia.
  - intros p [Hpa Hp]%elem_of_out. pose proof (tc_new _ _ _ _ Ht) as Hn. rewrite Forall_forall in Hn.
    destruct (Hn p Hp) as (_ & _ & _ & _ & [[Ea _]|(_ & _ & ? & _)]); [congruence|done].
Qed.

(** Nothing is asked twice. *)
Lemma new_disjoint a n n' new ol p :
  node_inv n ol -> touches a n n' new -> p ∈ ol -> p ∈ new -> False.
Proof.
  intros [] Ht Hp Hpn. rewrite Forall_forall in ni_out0. destruct (ni_out0 p Hp) as (Hlt & Halt & _).
  pose proof (tc_new _ _ _ _ Ht) as Hn. rewrite Forall_forall in Hn. destruct (Hn p Hpn) as (_ & _ & _ & _ & [(Ea & _ & Hk & Hq)|(_ & _ & _ & ?)]); [|lia].
  specialize (Hq Hlt). destruct (tc_stable _ _ _ _ Ht p Hlt) as [Ek Eo _ _ _ _ _ _ _]. rewrite Eo in Ea. rewrite Ek in Hk.
  assert (p ∈ out n ol a) as Hpo by (by apply elem_of_out). rewrite Ea in Halt.
  destruct (ni_algs0 a Halt) as [(_ & _ & Hs)|([] & _)].
  - rewrite Forall_forall in Hs. by apply (Hs p Hpo).
  - rewrite Forall_forall in ac_out0. destruct (ac_out0 p Hpo) as [E _]. congruence.
Qed.

(** The object [a] keeps its invariant; or there is no such object. *)
Definition kept (a : nat) (n n' : node_impl) (ol' : list nat) : Prop :=
  ((a < n_news n')%nat /\ (single n' ol' a \/ lookup_inv n' ol' a)) \/
  ((n_news n' <= a)%nat /\ called a (n_log n') = called a (n_log n)).

(** An operation on the lookup [a] that resolves the requests [gone] and sends the
    requests [new] keeps the invariant if it keeps that of [a]. *)
Lemma node_inv_step a n n' new ol ol' gone :
  node_inv n ol -> touches a n n' new -> ol ≡ₚ gone ++ ol' -> Forall (fun p => o_algorithm (obs n p) = a) gone ->
  kept a n n' (ol' ++ new) -> node_inv n' (ol' ++ new).
Proof.
  intros Hinv Ht Hp Hg Ha. pose proof Hinv as []. pose proof Ht as []. destruct tc_const0 as (_ & _ & E3 & E4).
  assert (below n ol') as Hol' by (unfold below; rewrite Hp, Forall_app in ni_out0; apply ni_out0).
  split.
  - congruence.
  - congruence.
  - auto.
  - rewrite Hp in ni_nodup0. apply NoDup_app in ni_nodup0 as (_ & _ & Hnd). apply NoDup_app; split_and!; [done| |done].
    intros p Hpo Hpn. apply (new_disjoint a n n' new ol p); try done. rewrite Hp. apply elem_of_app. by right.
  - apply Forall_app; split.
    + eapply Forall_impl; [exact Hol'|]. intros p (H1 & H2 & H3). destruct (tc_stable0 p H1) as [_ -> -> _ _ _ _ _ _]. split_and!; [lia..|done].
    + eapply Forall_impl; [exact tc_new0|]. intros p (? & ? & ? & ? & ?). done.
  - intros b Hb. destruct (decide (b = a)) as [->|Hne]; [destruct Ha as [[_ ?]|[? _]]; [done|lia]|].
    destruct (decide (b < n_news n)%nat) as [Hlt|].
    + destruct (ni_algs0 b Hlt) as [Hs|Hl]; [left; by apply (single_frame a n n' new ol ol' gone)|right; by apply (lookup_frame a n n' new ol ol' gone)].
    + left. apply (single_new a n n' new ol'); [done..|lia].
  - intros b Hb. destruct (decide (b = a)) as [->|Hne]; [|rewrite tc_calls0 by done; apply ni_calls0; lia].
    destruct Ha as [[? _]|[_ ->]]; [lia|]. apply ni_calls0. lia.
Qed.
End Touches.
