(* ===== verification/DhtSteps.v ===== *)
(** * The Kademlia node: the operations keep the invariant

    What each operation of Dht.v does to the accounts and the order of a lookup,
    and that every operation of the node keeps [node_inv]. *)

From S2P Require Import Prelude Archive Md4Hash Bitfield KadId RoutingTable RoutingTableInv RoutingTableProps Dht DhtInv.
From stdpp Require Import gmap sorting.
Open Scope Z_scope.

Lemma has_id f id o : has f (set_id id o) = has f o.
Proof. done. Qed.
Lemma has_packet f id o : has f (set_packet_id id o) = has f o.
Proof. done. Qed.
Lemma has_tid f tid o : has f (set_transaction_id tid o) = has f o.
Proof. done. Qed.
Lemma has_target f now e o : Z.ldiff f flag_ipv6_address = f -> has f (set_target now e o) = has f o.
Proof. intros. unfold set_target. by rewrite has_clear. Qed.

Create Rewrite HintDb dht_flags.
#[export] Hint Rewrite has_set has_id has_packet has_tid : dht_flags.

(** Reads a flag through the updates of an observer. *)
Ltac flags := autorewrite with dht_flags; rewrite ?has_target by reflexivity; rewrite ?orb_false_r, ?orb_true_r.

Section Operations.
Context (env : environment) (min_time now : Z).

(** ** Sending *)

(** A datagram to the node of [p]; [b] says that it was sent. *)
Record sends (p : nat) (b : bool) (n n' : node_impl) : Prop := {
  sd_const : n_search_branching n' = n_search_branching n /\ n_restrict_search_ips n' = n_restrict_search_ips n /\
             n_destructing n' = n_destructing n /\ n_id n' = n_id n;
  sd_table : n_table n' = n_table n;
  sd_mallocs : n_mallocs n' = n_mallocs n;
  sd_news : n_news n' = n_news n;
  sd_algs : forall a, alg n' a = alg n a;
  sd_trans : n_transactions n' = n_transactions n ++ (if b then [p] else []);
  sd_obs : forall q, q <> p -> obs n' q = obs n q;
  sd_self : o_kind (obs n' p) = o_kind (obs n p) /\ o_algorithm (obs n' p) = o_algorithm (obs n p) /\
            o_id (obs n' p) = o_id (obs n p) /\ o_target (obs n' p) = o_target (obs n p) /\ o_sent (obs n' p) = now;
  sd_flags : forall f, Z.ldiff f flag_ipv6_address = f -> has f (obs n' p) = has f (obs n p);
  sd_calls : forall a, called a (n_log n') = called a (n_log n)
}.

Lemma rpc_invoke_sends r p n :
  n_destructing n = false ->
  let '(b, n') := rpc_invoke env now r (target_ep (obs n p)) (Some p) n in sends p b n n'.
Proof.
  intros Hd. unfold rpc_invoke. rewrite Hd. unfold m_send.
  set (g := fun x => set_transaction_id _ (set_target now _ x)).
  destruct (env_send env _); split; intros; try done; try (cbn; rewrite ?app_nil_r; done).
  all: store; try (by rewrite obs_upd_ne); unfold g; try done; by rewrite has_tid, has_target.
Qed.

(** Marking the observer before sending makes no difference to the rest. *)
Lemma sends_marked p b f n n' :
  (forall o, o_kind (f o) = o_kind o /\ o_algorithm (f o) = o_algorithm o /\ o_id (f o) = o_id o /\ o_target (f o) = o_target o) ->
  (forall g o, has g (f o) = has g o) -> sends p b (upd_obs p f n) n' -> sends p b n n'.
Proof.
  intros Hf Hfl []. split; try done.
  - intros q Hq. by rewrite sd_obs0, obs_upd_ne.
  - destruct (Hf (obs n p)) as (E1 & E2 & E3 & E4). rewrite obs_upd_eq, E1, E2, E3, E4 in sd_self0. done.
  - intros g Hg. by rewrite sd_flags0, obs_upd_eq.
Qed.

Lemma invoke_sends a p n :
  n_destructing n = false -> t_kind (alg n a) <> plain_traversal -> t_done (alg n a) = false ->
  let '(b, n') := invoke env now a p n in sends p b n n'.
Proof.
  intros Hd Hk Hdone. unfold invoke. destruct (t_kind (alg n a)); [done| |by apply rpc_invoke_sends..].
  rewrite Hdone. set (f := set_packet_id _). set (r := kademlia2_req _ _ _).
  pose proof (rpc_invoke_sends r p (upd_obs p f n) Hd) as H. destruct (rpc_invoke _ _ _ _ _ _) as [b n'].
  apply (sends_marked p b f); done.
Qed.

Definition mark_queried (p : nat) (n : node_impl) : node_impl := upd_obs p (set_flags flag_queried) n.

Lemma ask_stable p b n n' : has flag_queried (obs n p) = false -> o_kind (obs n p) = find_data_observer -> sends p b (mark_queried p n) n' -> stable (obs n p) (obs n' p).
Proof.
  intros Hq Hk []. unfold mark_queried in *. rewrite obs_upd_eq in *. destruct sd_self0 as (? & ? & ? & ? & ?).
  split; try done; rewrite ?sd_flags0 by reflexivity; flags; try done. by rewrite Hq.
Qed.

Lemma ask_touches a p b n n' :
  sends p b (mark_queried p n) n' -> known n a p -> (a < n_news n)%nat -> has flag_queried (obs n p) = false ->
  touches now a n n' (if b then [p] else []).
Proof.
  intros Hs (Hp & Ha & Hid & Hk & _) Hlt Hq. pose proof (ask_stable p b n n' Hq Hk Hs) as Hst. destruct Hs. unfold mark_queried in *.
  destruct sd_self0 as (_ & _ & _ & _ & Hsent). split; try done.
  - by rewrite sd_table0.
  - by rewrite sd_mallocs0.
  - by rewrite sd_news0.
  - destruct b; [|constructor]. apply Forall_singleton. rewrite obs_upd_eq in *. destruct Hst. split_and!.
    + by rewrite sd_mallocs0.
    + rewrite sd_news0. cbn. congruence.
    + congruence.
    + done.
    + left. split_and!; [congruence|rewrite sd_flags0 by reflexivity; by flags|congruence|done].
  - destruct b; [apply NoDup_singleton|apply NoDup_nil_2].
  - rewrite sd_news0. cbn. lia.
  - intros q Hqm Hqa. rewrite sd_obs0, obs_upd_ne; congruence.
  - intros q Hqm. destruct (decide (q = p)) as [->|]; [done|]. rewrite sd_obs0, obs_upd_ne by done. apply stable_refl.
Qed.

(** A request more. *)
Lemma accounts_push n n' ol a p :
  accounts n ol a -> n_search_branching n' = n_search_branching n -> called a (n_log n') = called a (n_log n) ->
  alg n' a = set_invoke_count (t_invoke_count (alg n a) + 1) (alg n a) -> out n' ol a = out n ol a ->
  (forall q, q ∈ out n ol a -> obs n' q = obs n q) -> o_algorithm (obs n' p) = a -> asked n' p ->
  has flag_short_timeout (obs n' p) = false -> t_invoke_count (alg n a) < t_branch_factor (alg n a) -> t_done (alg n a) = false ->
  accounts n' (ol ++ [p]) a.
Proof.
  intros [] Hc Hl Ea Ho Hobs Hpa Hask Hs Hlt Hd.
  assert (out n' (ol ++ [p]) a = out n ol a ++ [p]) as Eo by (rewrite out_app, Ho; unfold out at 2; by rewrite filter_cons_True).
  assert (short_out n' (ol ++ [p]) a = short_out n ol a) as Es.
  { unfold short_out, with_flag. rewrite Eo, filter_app. rewrite (filter_cons_False _ p) by (by rewrite Hs). rewrite app_nil_r.
    apply filter_agree. intros q Hq. by rewrite Hobs. }
  split; unfold calls; rewrite ?Ea, ?Hc, ?Hl, ?Eo, ?Es, ?length_app; cbn [t_invoke_count t_branch_factor t_done t_results t_target set_invoke_count length]; try done; try lia.
  - apply Forall_app; split; [|by apply Forall_singleton]. rewrite Forall_forall in ac_out |- *. intros q Hq. unfold asked.
    rewrite Hobs by done. by apply ac_out.
  - congruence.
Qed.

(** A node of the lookup that was not asked is not outstanding. *)
Lemma unasked_out n ol a p q : accounts n ol a -> has flag_queried (obs n p) = false -> q ∈ out n ol a -> q <> p.
Proof. intros [] Hq Hin ->. rewrite Forall_forall in ac_out. destruct (ac_out p Hin) as [? _]. congruence. Qed.

(** ** add_requests *)

(** What [add_requests] does for [a]: it sends the requests [new] to nodes of [l] it
    had not asked, and counts them. *)
Definition requested (a : nat) (l : list nat) (ol : list nat) (n n' : node_impl) (new : list nat) : Prop :=
  touches now a n n' new /\ accounts n' (ol ++ new) a /\ (forall p, p ∈ new -> p ∈ l) /\
  exists c, alg n' a = set_invoke_count c (alg n a).

Lemma requested_trans a p l ol n1 n2 n3 new1 new2 :
  requested a [p] ol n1 n2 new1 -> requested a l (ol ++ new1) n2 n3 new2 -> requested a (p :: l) ol n1 n3 (new1 ++ new2).
Proof.
  intros (T1 & _ & L1 & c1 & E1) (T2 & A2 & L2 & c2 & E2). split_and!.
  - by eapply touches_trans.
  - by rewrite app_assoc.
  - intros q [Hq|Hq]%elem_of_app; [apply L1 in Hq; apply list_elem_of_singleton in Hq as ->; by left|right; auto].
  - exists c2. by rewrite E2, E1.
Qed.

Lemma touches_fails a p n n' new f :
  touches now a n n' new -> (p < n_mallocs n)%nat -> o_algorithm (obs n p) = a ->
  stable (obs n' p) (f (obs n' p)) -> touches now a n (upd_obs p f n') new.
Proof.
  intros Ht Hp Ha Hst. rewrite <- (app_nil_r new). eapply touches_trans; [exact Ht|].
  split; try done; [by rewrite app_nil_r|apply NoDup_nil_2|cbn; lia|..]; intros q Hq.
  - intros Hqa. rewrite obs_upd_ne; [done|]. intros ->. by rewrite (st_alg _ _ (tc_stable _ _ _ _ _ Ht p Hp)) in Hqa.
  - rewrite obs_upd. case_decide as E; [by rewrite E|apply stable_refl].
Qed.

Lemma touches_alg a n n' new f : touches now a n n' new -> touches now a n (upd_alg a f n') new.
Proof.
  intros Ht. rewrite <- (app_nil_r new). eapply touches_trans; [exact Ht|].
  split; try done; [by rewrite app_nil_r|apply NoDup_nil_2|..]; intros b; intros.
  - by rewrite alg_upd_ne.
  - cbn in *. lia.
Qed.

Lemma failed_flag_stable o : stable o (set_flags flag_failed o).
Proof. by split; try done; flags. Qed.

Definition ask (a p : nat) (n : node_impl) : node_impl :=
  let '(sent, n) := invoke env now a p (mark_queried p n) in
  if sent then upd_alg a (fun t => set_invoke_count (t_invoke_count t + 1) t) n else upd_obs p (set_flags flag_failed) n.

Lemma ask_requested a p ol n :
  n_destructing n = false -> accounts n ol a -> t_kind (alg n a) <> plain_traversal -> t_done (alg n a) = false ->
  (a < n_news n)%nat -> known n a p -> below n ol -> has flag_queried (obs n p) = false ->
  t_invoke_count (alg n a) < t_branch_factor (alg n a) ->
  exists new, requested a [p] ol n (ask a p n) new.
Proof.
  intros Hd Hac Hk Hdone Hlt Hp Hol Hq Hb. unfold ask. pose proof (invoke_sends a p (mark_queried p n) Hd Hk Hdone) as Hs.
  destruct (invoke env now a p (mark_queried p n)) as [b n1]. exists (if b then [p] else []).
  pose proof (ask_touches a p b n n1 Hs Hp Hlt Hq) as Ht. pose proof Hp as (Hpm & Hpa & _ & Hpk & Hrest). destruct (Hrest Hq) as [Hns Hnd].
  assert (forall q, q ∈ out n ol a -> obs n1 q = obs n q) as Hobs.
  { intros q Hqo. pose proof (unasked_out n ol a p q Hac Hq Hqo). rewrite (sd_obs _ _ _ _ Hs) by done. unfold mark_queried. by rewrite obs_upd_ne. }
  pose proof (sd_algs _ _ _ _ Hs a) as Ea. pose proof (sd_flags _ _ _ _ Hs) as Hf.
  unfold mark_queried in Ea, Hf. rewrite alg_obs in Ea. rewrite obs_upd_eq in Hf. destruct b.
  - split_and!; [by apply touches_alg| |done|eexists; rewrite alg_upd_eq; f_equal; done].
    apply (accounts_push n); try done; store; rewrite ?Ea; try done.
    + apply (sd_const _ _ _ _ Hs).
    + apply (sd_calls _ _ _ _ Hs).
    + apply (out_same now a n n1 _ ol a Ht Hol).
    + rewrite (st_alg _ _ (tc_stable _ _ _ _ _ Ht p Hpm)). done.
    + unfold asked. store. rewrite !Hf by reflexivity. flags. split_and!; [done..|].
      by rewrite (st_kind _ _ (tc_stable _ _ _ _ _ Ht p Hpm)).
    + rewrite Hf by reflexivity. by flags.
  - split_and!; [apply touches_fails; [done..|apply failed_flag_stable]| |by intros q Hn%not_elem_of_nil|exists (t_invoke_count (alg n a)); store; rewrite Ea; by destruct (alg n a)].
    rewrite app_nil_r. apply (accounts_transfer n _ ol); try done.
    + apply (sd_const _ _ _ _ Hs).
    + apply (sd_calls _ _ _ _ Hs).
    + transitivity (out n1 ol a); [|by rewrite (out_same now a n n1 [] ol a Ht Hol)]. unfold out. erewrite filter_agree; [done|].
      intros q _. cbn. rewrite obs_upd. by case_decide as E; [rewrite E|].
    + intros q Hqo. rewrite obs_upd_ne; [by apply Hobs|]. by eapply unasked_out.
Qed.

Lemma below_step a n n' ol new : touches now a n n' new -> below n ol -> below n' (ol ++ new).
Proof.
  intros [] Hol. apply Forall_app; split.
  - eapply Forall_impl; [exact Hol|]. intros p (H1 & H2 & H3). destruct (tc_stable p H1) as [_ -> -> _ _ _ _ _ _]. split_and!; [lia..|done].
  - eapply Forall_impl; [exact tc_new|]. intros p (? & ? & ? & ? & ?). done.
Qed.

Lemma known_step a b n n' new p : touches now b n n' new -> known n a p -> known n' a p.
Proof. intros [] Hk. apply (known_stable n); [done..|]. apply tc_stable, Hk. Qed.

Lemma requested_none a l ol n : accounts n ol a -> requested a l ol n n [].
Proof.
  intros. split_and!; [apply touches_refl|by rewrite app_nil_r|by intros q Hn%not_elem_of_nil|].
  exists (t_invoke_count (alg n a)). by destruct (alg n a).
Qed.

(** What the loop needs to know of the lookup. *)
Record askable (a : nat) (ol : list nat) (n : node_impl) : Prop := {
  ak_running : n_destructing n = false;
  ak_accounts : accounts n ol a;
  ak_kind : t_kind (alg n a) <> plain_traversal;
  ak_open : t_done (alg n a) = false;
  ak_news : (a < n_news n)%nat;
  ak_below : below n ol
}.

Lemma requested_askable a l ol n n' new : askable a ol n -> requested a l ol n n' new -> askable a (ol ++ new) n'.
Proof.
  intros [] (Ht & Hac & _ & c & E). pose proof Ht as []. destruct tc_const as (_ & _ & ? & _).
  split; rewrite ?E; try done; [congruence|lia|by apply (below_step a n)].
Qed.

Lemma add_requests_loop_requested a l rt n ol :
  askable a ol n -> Forall (known n a) l -> exists new, requested a l ol n (add_requests_loop env now a l rt n) new.
Proof.
  revert rt n ol. induction l as [|p l IH]; intros rt n ol Hak Hl; cbn [add_requests_loop];
    [eexists; apply requested_none, Hak|].
  apply Forall_cons in Hl as [Hp Hl]. destruct ((0 <? rt) && _) eqn:E; [|eexists; apply requested_none, Hak].
  apply andb_true_iff in E as [_ E%Z.ltb_lt]. set (rt' := if has flag_alive _ then _ else _).
  destruct (has flag_queried (obs n p)) eqn:Hq.
  - destruct (IH rt' n ol Hak Hl) as (new & Ht & Hac & Hin & Ha). exists new. split_and!; try done. intros q Hqn. right. auto.
  - pose proof Hak as []. destruct (ask_requested a p ol n) as [new1 H1]; [done..|].
    pose proof (requested_askable a [p] ol n _ new1 Hak H1) as Hak1. pose proof H1 as (Ht1 & _).
    destruct (IH rt' (ask a p n) (ol ++ new1)) as [new2 H2];
      [done|eapply Forall_impl; [exact Hl|]; intros q; by apply (known_step a a n _ new1)|].
    exists (new1 ++ new2). eapply requested_trans; [exact H1|]. unfold ask, mark_queried in H2 |- *. by destruct (invoke _ _ _ _ _).
Qed.

Lemma add_requests_requested a n ol :
  askable a ol n -> ordered n a -> exists new, requested a (t_results (alg n a)) ol n (add_requests env now a n) new.
Proof. intros Hak []. by apply add_requests_loop_requested. Qed.

Lemma requested_ordered a l ol n n' new : requested a l ol n n' new -> ordered n a -> ordered n' a.
Proof.
  intros (Ht & _ & _ & c & E) Hor. pose proof Ht as []. pose proof Hor as []. apply (ordered_transfer n); rewrite ?E; try done.
  - apply tc_const.
  - intros p Hp. apply tc_stable. rewrite Forall_forall in or_known. by apply or_known.
Qed.

(** ** Single requests *)

(** An operation that has nothing to do with the lookup [a]. *)
Record quiet (a : nat) (n n' : node_impl) (new : list nat) : Prop := {
  q_touches : touches now a n n' new;
  q_alg : alg n' a = alg n a;
  q_calls : called a (n_log n') = called a (n_log n);
  q_obs : forall p, (p < n_mallocs n)%nat -> obs n' p = obs n p;
  q_new : Forall (fun p => o_algorithm (obs n' p) <> a) new
}.

Lemma quiet_refl a n : quiet a n n [].
Proof. split; try done. apply touches_refl. Qed.

Lemma quiet_trans a n1 n2 n3 new1 new2 : quiet a n1 n2 new1 -> quiet a n2 n3 new2 -> quiet a n1 n3 (new1 ++ new2).
Proof.
  intros [] []. pose proof q_touches0 as []. split; try congruence.
  - by eapply touches_trans.
  - intros p Hp. rewrite q_obs1 by lia. by apply q_obs0.
  - apply Forall_app; split; [|done]. rewrite Forall_forall in q_new0, tc_new |- *. intros p Hp.
    rewrite q_obs1; [by apply q_new0|by apply tc_new].
Qed.

(** A state that only differs in the log (without calls) and in the counters. *)
Lemma quiet_log a n e : (forall b, is_call b e = false) -> quiet a n (log_event e n) [].
Proof.
  intros He. assert (forall b, called b (n_log (log_event e n)) = called b (n_log n)) as Hc.
  { intros b. unfold called. cbn [n_log log_event]. rewrite filter_cons_False; [done|]. by rewrite He. }
  split; try done. split; try done; [by rewrite app_nil_r|apply NoDup_nil_2|cbn; lia].
Qed.

Lemma quiet_counters a n m s r : (n_mallocs n <= m)%nat -> quiet a n (set_counters m (n_news n) s r n) [].
Proof. intros Hm. split; try done. split; try done; [by rewrite app_nil_r|apply NoDup_nil_2|cbn; lia]. Qed.

Lemma quiet_dummy a n : a <> n_news n -> quiet a n (snd (dummy_algorithm n)) [].
Proof.
  intros Ha. assert (forall b, b <> n_news n -> alg (snd (dummy_algorithm n)) b = alg n b) as He.
  { intros b Hb. unfold alg. cbn. by rewrite lookup_total_insert_ne. }
  split; try done; [|by apply He]. split; try done; cbn [n_news n_transactions snd dummy_algorithm new_algorithm set_algorithms set_counters].
  - lia.
  - by rewrite app_nil_r.
  - apply NoDup_nil_2.
  - intros b Hb Hlt. apply He. lia.
  - intros b Hb Hlt. assert (b = n_news n) as -> by lia. unfold alg. cbn. by rewrite lookup_total_insert_eq.
Qed.

(** The store of a new observer that belongs to an object created since [n]. *)
Lemma quiet_store a n n' new p o :
  quiet a n n' new -> (n_mallocs n <= p)%nat -> p ∉ new -> quiet a n (upd_obs p (fun _ => o) n') new.
Proof.
  intros [] Hp Hpn. pose proof q_touches0 as [].
  assert (forall q, q <> p -> obs (upd_obs p (fun _ => o) n') q = obs n' q) as Ho by (intros; by apply obs_upd_ne).
  split; try done; [|intros q Hq; rewrite Ho by lia; by apply q_obs0|].
  - split; try done; [|intros; rewrite Ho by lia; auto..].
    rewrite Forall_forall in tc_new |- *. intros q Hq. specialize (tc_new q Hq). unfold fresh_request in *.
    by rewrite Ho by (by intros ->).
  - rewrite Forall_forall in q_new0 |- *. intros q Hq. rewrite Ho by (by intros ->). by apply q_new0.
Qed.

Lemma quiet_sends a n n' new p b n2 :
  quiet a n n' new -> sends p b n' n2 -> (n_mallocs n <= p < n_mallocs n')%nat -> p ∉ new ->
  (n_news n <= o_algorithm (obs n' p) < n_news n')%nat -> o_algorithm (obs n' p) <> a ->
  o_kind (obs n' p) <> find_data_observer -> hash_wf (o_id (obs n' p)) ->
  quiet a n n2 (new ++ if b then [p] else []).
Proof.
  intros [] [] Hp Hpn Hal Hne Hk Hid. pose proof q_touches0 as []. destruct sd_self0 as (E1 & E2 & E3 & E4 & E5).
  assert (forall q, (q < n_mallocs n)%nat -> obs n2 q = obs n' q) as Ho by (intros; apply sd_obs0; lia).
  split; [|by rewrite sd_algs0|by rewrite sd_calls0|intros q Hq; rewrite Ho by done; by apply q_obs0|].
  - split; rewrite ?sd_mallocs0, ?sd_news0, ?sd_table0; try done.
    + destruct tc_const as (? & ? & ? & ?), sd_const0 as (? & ? & ? & ?). split_and!; congruence.
    + by rewrite sd_trans0, tc_trans, app_assoc.
    + apply Forall_app; split.
      * rewrite Forall_forall in tc_new |- *. intros q Hq. specialize (tc_new q Hq). unfold fresh_request in *.
        by rewrite sd_obs0, sd_mallocs0, sd_news0 by (by intros ->).
      * destruct b; [|done]. apply Forall_singleton. unfold fresh_request.
        rewrite sd_mallocs0, sd_news0, E1, E2, E3. split_and!; [lia..|done|done|]. right. split_and!; (done || lia).
    + apply NoDup_app; split_and!; [done| |destruct b; [apply NoDup_singleton|apply NoDup_nil_2]].
      intros q Hq Hqb. destruct b; [|by apply not_elem_of_nil in Hqb]. apply list_elem_of_singleton in Hqb as ->. done.
    + intros c Hc Hlt. rewrite sd_algs0. by apply tc_algs.
    + intros c Hc Hlt. rewrite sd_algs0. by apply tc_plain.
    + intros q Hq Hqa. rewrite Ho by done. by apply tc_obs.
    + intros q Hq. rewrite Ho by done. by apply tc_stable.
    + intros c Hc. rewrite sd_calls0. by apply tc_calls.
  - apply Forall_app; split.
    + rewrite Forall_forall in q_new0 |- *. intros q Hq. rewrite sd_obs0 by (by intros ->). by apply q_new0.
    + destruct b; [|done]. apply Forall_singleton. by rewrite E2.
Qed.

Context (Hmalloc : forall k, env_malloc env k = true) (Hrandom : forall k, hash_wf (env_random env k)).

(** A new observer [p] of an object created since [n], and its request. *)
Lemma quiet_request a n n' new r p o :
  quiet a n n' new -> n_destructing n' = false -> (n_mallocs n <= p < n_mallocs n')%nat -> p ∉ new ->
  (n_news n <= o_algorithm o < n_news n')%nat -> o_algorithm o <> a -> o_kind o <> find_data_observer -> hash_wf (o_id o) ->
  exists new', quiet a n (snd (rpc_invoke env now r (target_ep o) (Some p) (upd_obs p (fun _ => o) n'))) new' /\
               forall q, q ∈ new' -> q ∈ new \/ q = p.
Proof.
  intros Hqt Hd Hp Hpn Ha1 Ha2 Hk Hid. pose proof (rpc_invoke_sends r p (upd_obs p (fun _ => o) n') Hd) as Hs.
  rewrite obs_upd_eq in Hs. destruct (rpc_invoke _ _ _ _ _ _) as [b n2]. cbn [snd].
  exists (new ++ if b then [p] else []). split.
  - apply (quiet_sends a n (upd_obs p (fun _ => o) n') new p b n2); rewrite ?obs_upd_eq; try done. apply quiet_store; [done|lia|done].
  - intros q [Hq|Hq]%elem_of_app; [by left|]. destruct b; [|by apply not_elem_of_nil in Hq]. apply list_elem_of_singleton in Hq. by right.
Qed.

Lemma quiet_running a n n' new : quiet a n n' new -> n_destructing n = false -> n_destructing n' = false.
Proof. intros [[]] <-. apply tc_const. Qed.

Lemma allocate_ok n : allocate_observer env n = (Some (n_mallocs n), set_counters (S (n_mallocs n)) (n_news n) (n_sends n) (n_randoms n) n).
Proof. unfold allocate_observer. by rewrite Hmalloc. Qed.

Lemma new_below a n n' new q : quiet a n n' new -> q ∈ new -> (q < n_mallocs n')%nat.
Proof. intros [[] _ _ _ _] Hq. rewrite Forall_forall in tc_new. apply (tc_new q Hq). Qed.

Lemma rpc_invoke_news r e o n : n_news (snd (rpc_invoke env now r e o n)) = n_news n.
Proof. unfold rpc_invoke, m_send. destruct (n_destructing n); [done|]. destruct o, (env_send env _); done. Qed.

Lemma node_add_node_quiet a e id n :
  a <> n_news n -> n_destructing n = false -> hash_wf id ->
  exists new, quiet a n (node_add_node env now e id n) new /\ n_news (node_add_node env now e id n) = S (n_news n).
Proof.
  intros Ha Hd Hid. unfold node_add_node. rewrite allocate_ok. set (n1 := set_counters _ _ _ _ n).
  assert (quiet a n (snd (dummy_algorithm n1)) []) as Hq1.
  { apply (quiet_trans a n n1 _ [] []); [apply quiet_counters; lia|by apply quiet_dummy]. }
  destruct (quiet_request a n (snd (dummy_algorithm n1)) [] kad2_ping (n_mallocs n) (observer_new now null_observer (n_news n) e id))
    as (new & Hq & _); try done; try (cbn; lia).
  - apply not_elem_of_nil.
  - exists new. split; [done|]. cbn [dummy_algorithm new_algorithm]. by rewrite rpc_invoke_news.
Qed.

Lemma announce_quiet a n n' new a' ih v :
  quiet a n n' new -> n_destructing n = false -> (n_news n <= a' < n_news n')%nat -> a' <> a -> Forall (fun e => hash_wf (nid e)) v ->
  exists new', quiet a n (announce_requests env now a' ih v n') new'.
Proof.
  revert n' new. induction v as [|e v IH]; intros n' new Hq Hd Ha Hne Hv; cbn [announce_requests]; [by exists new|].
  apply Forall_cons in Hv as [He Hv]. rewrite allocate_ok. set (n1 := set_counters _ _ _ _ n').
  pose proof (quiet_running a n n' new Hq Hd) as Hd'. pose proof (q_touches _ _ _ _ Hq) as [].
  assert (quiet a n n1 new) as Hq1.
  { rewrite <- (app_nil_r new). eapply quiet_trans; [exact Hq|]. apply quiet_counters. lia. }
  assert (n_mallocs n' ∉ new) as Hp by (intros Hp%(new_below a n n' new); [lia|done]).
  destruct (quiet_request a n n1 new (kad2_search_key_req ih 0) (n_mallocs n') (observer_new now announce_observer a' (ep e) (nid e)))
    as (new1 & Hq2 & _); try done; try (cbn; lia).
  pose proof (q_touches _ _ _ _ Hq2) as [_ _ _ Hn2 _ _ _ _ _ _ _ _]. pose proof (q_touches _ _ _ _ Hq1) as T1.
  apply (IH _ new1); try done. split; [lia|]. unfold rpc_invoke. cbn [n_destructing upd_obs set_observers n1 set_counters]. rewrite Hd'.
  unfold m_send. destruct (env_send _ _); cbn; lia.
Qed.

Lemma search_requests_quiet a n r v : n_destructing n = false -> quiet a n (search_requests env now r v n) [].
Proof.
  revert n. induction v as [|e v IH]; intros n Hd; cbn [search_requests]; [apply quiet_refl|].
  apply (quiet_trans a n (snd (rpc_invoke env now r (ep e) None n)) _ [] []).
  - unfold rpc_invoke. rewrite Hd. unfold m_send. set (n1 := set_counters _ _ _ _ n).
    assert (quiet a n (log_event (ev_send (request_message (append_data n r)) (ep e) 1) n1) []) as H.
    { apply (quiet_trans a n n1 _ [] []); [apply quiet_counters; lia|by apply quiet_log]. }
    by destruct (env_send _ _).
  - apply IH. unfold rpc_invoke. rewrite Hd. unfold m_send. by destruct (env_send _ _).
Qed.

Lemma callback_quiet a n cb v :
  (a < n_news n)%nat -> n_destructing n = false -> Forall (fun e => hash_wf (nid e)) v ->
  exists new, quiet a n (call_nodes_callback env now cb v n) new.
Proof.
  intros Ha Hd Hv. destruct cb as [|port ih| |]; cbn [call_nodes_callback].
  - exists []. apply quiet_refl.
  - destruct (dummy_algorithm n) as [a' n'] eqn:E. assert (a <> n_news n) as Hne by lia. pose proof (quiet_dummy a n Hne) as Hq. rewrite E in Hq. cbn in Hq.
    injection E as E1 E2. apply (announce_quiet a n n' []); try done; subst; cbn; lia.
  - exists []. by apply search_requests_quiet.
  - exists []. by apply search_requests_quiet.
Qed.

(** ** The end of a lookup *)

(** The nodes of the lookup that were asked and whose identifiers are known. *)
Definition candidates (n : node_impl) (a : nat) : list nat :=
  filter (fun p => has flag_no_id (obs n p) = false /\ has flag_queried (obs n p) = true) (t_results (alg n a)).

Definition report (n : node_impl) (p : nat) : node_entry := node_entry_new (o_id (obs n p)) (target_ep (obs n p)) false.

Lemma collect_results_take n k l :
  collect_results n k l = report n <$> take k (filter (fun p => has flag_no_id (obs n p) = false /\ has flag_queried (obs n p) = true) l).
Proof.
  revert k. induction l as [|p l IH]; intros k; [by destruct k|]. destruct k as [|k]; [done|]. cbn [collect_results]. rewrite filter_cons.
  destruct (has flag_no_id (obs n p)) eqn:E1; [rewrite decide_False by (intros [? _]; congruence); apply IH|].
  destruct (has flag_queried (obs n p)) eqn:E2; [|rewrite decide_False by (intros [_ ?]; congruence); apply IH].
  rewrite decide_True by done. cbn. by rewrite IH.
Qed.

Lemma collect_results_sorted n a k l :
  StronglySorted (fun p q => dist n a p <= dist n a q) l -> by_distance (t_target (alg n a)) (collect_results n k l).
Proof.
  intros Hs. rewrite collect_results_take. unfold by_distance.
  assert (StronglySorted (fun p q => dist n a p <= dist n a q) (take k (filter (fun p => has flag_no_id (obs n p) = false /\ has flag_queried (obs n p) = true) l))) as H.
  { eapply StronglySorted_sublist; [|exact Hs]. etrans; [apply sublist_take|apply sublist_filter]. }
  induction H as [|p l' _ IH Hp]; cbn; constructor; [done|]. apply Forall_fmap. exact Hp.
Qed.

Lemma collect_results_wf n k l : Forall (fun p => hash_wf (o_id (obs n p))) l -> Forall (fun e => hash_wf (nid e)) (collect_results n k l).
Proof.
  intros Hl. revert k. induction Hl as [|p l Hp _ IH]; intros k; cbn [collect_results]; [done|]. destruct k; [done|].
  repeat case_match; auto.
Qed.

Lemma touches_call a n cb v g : touches now a n (log_event (ev_nodes a cb v g) n) [].
Proof.
  split; try done; [by rewrite app_nil_r|apply NoDup_nil_2|cbn; lia|]. intros b Hb. unfold called. cbn [n_log log_event].
  rewrite filter_cons_False; [done|]. cbn. destruct (Nat.eqb_spec a b); congruence.
Qed.

(** A lookup that ended: the state [n'] after [find_data::done]. *)
Record ended (a : nat) (n n' : node_impl) (new : list nat) : Prop := {
  en_touches : touches now a n n' new;
  en_alg : alg n' a = set_results [] (set_done true (alg n a));
  en_calls : exists e, called a (n_log n') = e :: called a (n_log n) /\ nearest_first (t_target (alg n a)) e;
  en_new : Forall (fun p => o_algorithm (obs n' p) <> a) new
}.

Lemma find_data_done_ended a n :
  t_invoke_count (alg n a) = 0 -> (a < n_news n)%nat -> n_destructing n = false ->
  Forall (fun p => hash_wf (o_id (obs n p))) (t_results (alg n a)) -> StronglySorted (fun p q => dist n a p <= dist n a q) (t_results (alg n a)) ->
  exists new, ended a n (find_data_done env now a n) new.
Proof.
  intros Hc Ha Hd Hr Hso. unfold find_data_done. rewrite Hc. cbn [negb Z.eqb].
  set (n1 := upd_alg a (set_done true) n). assert (alg n1 a = set_done true (alg n a)) as E1 by apply alg_upd_eq.
  set (v := collect_results n1 _ _). set (n2 := log_event _ n1).
  assert (touches now a n n2 []) as H2.
  { apply (touches_trans now a n n1 n2 [] []); [apply touches_alg, touches_refl|apply touches_call]. }
  destruct (callback_quiet a n2 (t_nodes_callback (alg n1 a)) v) as [new Hq]; [done|done| |].
  { apply collect_results_wf. rewrite E1. exact Hr. }
  set (n3 := call_nodes_callback _ _ _ _ _) in *. exists new.
  set (n4 := match t_data_callback (alg n1 a) with Some _ => _ | None => _ end).
  assert (quiet a n2 n4 new) as Hq4.
  { unfold n4. destruct (t_data_callback (alg n1 a)); [|done]. rewrite <- (app_nil_r new). eapply quiet_trans; [exact Hq|]. by apply quiet_log. }
  destruct Hq4. split.
  - apply touches_alg. apply (touches_trans now a n n2 n4 [] new); done.
  - unfold traversal_done. store. rewrite q_alg0. unfold n2. store. by rewrite E1.
  - cbn [n_log traversal_done upd_alg set_algorithms]. rewrite q_calls0. unfold called at 1. cbn [n2 n_log log_event].
    rewrite filter_cons_True by (cbn; by rewrite Nat.eqb_refl). eexists. split; [done|].
    assert (t_target (alg n1 a) = t_target (alg n a)) as <- by (by rewrite E1). apply (collect_results_sorted n1 a).
    rewrite E1. eapply sorted_agree; [|exact Hso]. intros p q _ _. unfold dist. by rewrite E1.
  - done.
Qed.

Lemma ended_inv a n n' new ol :
  ended a n n' new -> accounts n ol a -> ordered n a -> out n ol a = [] -> t_done (alg n a) = false -> below n ol ->
  lookup_inv n' (ol ++ new) a.
Proof.
  intros [] [] [] Ho Hd Hol. pose proof en_touches0 as []. destruct en_calls0 as (ev & Hcall & Hnear). destruct tc_const as (E1 & E2 & _ & _).
  assert (out n' (ol ++ new) a = []) as Eo.
  { rewrite out_app, (out_same now a n n' new) by done. rewrite Ho. apply filter_nothing. done. }
  assert (short_out n' (ol ++ new) a = []) as Es by (unfold short_out; by rewrite Eo).
  unfold short_out in ac_branch, ac_limit. rewrite Ho in *. cbn in ac_count, ac_branch, ac_limit.
  split_and!; [split|split|]; unfold calls; rewrite ?en_alg0, ?Hcall, ?Eo, ?Es, ?E1;
    cbn [t_invoke_count t_branch_factor t_done t_results t_kind t_target set_results set_done length];
    try done; try lia; try apply NoDup_nil_2; try apply SSorted_nil.
  - cbn [length]. fold (calls a (n_log n)). rewrite ac_calls. by rewrite Hd.
  - by constructor.
  - intros _ p q Hp. by apply not_elem_of_nil in Hp.
Qed.

(** [bootstrap::done] pings the nodes that were not asked. *)
Lemma ping_rest_quiet a n l :
  (a < n_news n)%nat -> n_destructing n = false -> Forall (fun p => (p < n_mallocs n)%nat /\ hash_wf (o_id (obs n p))) l ->
  exists new, quiet a n (ping_rest env now l n) new.
Proof.
  revert n. induction l as [|p l IH]; intros n Ha Hd Hl; cbn [ping_rest]; [exists []; apply quiet_refl|].
  apply Forall_cons in Hl as [[Hp Hid] Hl]. destruct (has flag_queried (obs n p)); [by apply IH|].
  destruct (node_add_node_quiet a (target_ep (obs n p)) (o_id (obs n p)) n) as (new1 & H1 & _); [lia|done|done|].
  pose proof (q_touches _ _ _ _ H1) as []. destruct (IH (node_add_node env now (target_ep (obs n p)) (o_id (obs n p)) n)) as [new2 H2].
  - lia.
  - by eapply quiet_running.
  - eapply Forall_impl; [exact Hl|]. intros q [Hq Hqid]. split; [lia|]. by rewrite (q_obs _ _ _ _ H1).
  - exists (new1 ++ new2). by eapply quiet_trans.
Qed.

Lemma ended_quiet a n1 n2 n3 new1 new2 : quiet a n1 n2 new1 -> ended a n2 n3 new2 -> ended a n1 n3 (new1 ++ new2).
Proof.
  intros [] []. pose proof q_touches0 as []. pose proof en_touches0 as [].
  split; [by eapply touches_trans|congruence| |].
  { destruct en_calls0 as (ev & -> & Hn). exists ev. rewrite q_calls0. split; [done|]. by rewrite <- q_alg0. }
  apply Forall_app; split; [|done].
  rewrite Forall_forall in q_new0, tc_new |- *. intros p Hp. rewrite (st_alg _ _ (tc_stable0 p (proj1 (tc_new p Hp)))). by apply q_new0.
Qed.

Lemma done_ended a n :
  t_invoke_count (alg n a) = 0 -> (a < n_news n)%nat -> n_destructing n = false -> ordered n a ->
  exists new, ended a n (done env now a n) new.
Proof.
  intros Hc Ha Hd []. unfold known in or_known. rewrite Forall_forall in or_known. unfold done.
  assert (Forall (fun p => hash_wf (o_id (obs n p))) (t_results (alg n a))) as Hr by (apply Forall_forall; intros p Hp; by apply or_known).
  destruct (t_kind (alg n a)); [done|by apply find_data_done_ended..|]. unfold bootstrap_done.
  destruct (ping_rest_quiet a n (t_results (alg n a))) as [new1 H1]; [done..| |].
  { apply Forall_forall. intros p Hp. by split; apply (or_known p Hp). }
  pose proof (q_touches _ _ _ _ H1) as []. destruct (find_data_done_ended a (ping_rest env now (t_results (alg n a)) n)) as [new2 H2].
  - by rewrite (q_alg _ _ _ _ H1).
  - lia.
  - by eapply quiet_running.
  - rewrite (q_alg _ _ _ _ H1). apply Forall_forall. intros p Hp. destruct (or_known p Hp) as (? & ? & ? & _). by rewrite (q_obs _ _ _ _ H1).
  - rewrite (q_alg _ _ _ _ H1). eapply sorted_agree; [|exact or_sorted]. intros p q Hp Hq. destruct (or_known p Hp) as (? & _), (or_known q Hq) as (? & _).
    unfold dist. by rewrite (q_alg _ _ _ _ H1), !(q_obs _ _ _ _ H1).
  - exists (new1 ++ new2). by eapply ended_quiet.
Qed.

(** ** Going on with a lookup *)

(** The lookup is over, or it asked nodes of its list. *)
Definition progress (a : nat) (n n' : node_impl) (new : list nat) : Prop :=
  t_done (alg n' a) = true \/
  (t_results (alg n' a) = t_results (alg n a) /\ forall p, p ∈ new -> p ∈ t_results (alg n a)).

Lemma proceed_inv a n ol :
  askable a ol n -> ordered n a -> (out n ol a <> [] -> t_results (alg n a) <> []) ->
  exists new, let n' := done_if_idle env now a (add_requests env now a n) in
    touches now a n n' new /\ lookup_inv n' (ol ++ new) a /\ progress a n n' new.
Proof.
  intros Hak Hor Hne. destruct (add_requests_requested a n ol Hak Hor) as [new1 H1].
  pose proof (requested_askable _ _ _ _ _ _ Hak H1) as []. pose proof (requested_ordered _ _ _ _ _ _ H1 Hor) as Hor1.
  set (n1 := add_requests env now a n) in *. destruct H1 as (T1 & A1 & L1 & c & E1). unfold done_if_idle.
  pose proof (ac_count _ _ _ A1) as Hc. destruct (Z.eqb_spec (t_invoke_count (alg n1 a)) 0) as [E0|E0].
  - destruct (done_ended a n1) as [new2 H2]; [done..|]. exists (new1 ++ new2). cbv zeta. pose proof (en_touches _ _ _ _ H2) as T2.
    split_and!; [by eapply touches_trans| |left; by rewrite (en_alg _ _ _ _ H2)].
    rewrite app_assoc. apply (ended_inv a n1); try done. apply length_zero_iff_nil. lia.
  - exists new1. cbv zeta. split_and!; [done| |right; by rewrite E1]. split_and!; [done|done|]. intros Hd.
    assert (out n1 (ol ++ new1) a <> []) as Ho by (intros E; rewrite E in Hc; cbn in Hc; lia). split; [done|]. rewrite E1. cbn.
    destruct new1 as [|p new1].
    + apply Hne. rewrite app_nil_r, (out_same now a n n1 []) in Ho; [done..|apply Hak].
    + intros E. rewrite E in L1. by specialize (L1 p (list_elem_of_here p new1)) as H%not_elem_of_nil.
Qed.

(** A request less. *)
Lemma accounts_resolve n n' ol a p :
  accounts n (p :: ol) a -> o_algorithm (obs n p) = a -> n_search_branching n' = n_search_branching n ->
  called a (n_log n') = called a (n_log n) -> t_done (alg n' a) = t_done (alg n a) -> t_target (alg n' a) = t_target (alg n a) ->
  t_invoke_count (alg n' a) = t_invoke_count (alg n a) - 1 ->
  t_branch_factor (alg n' a) = t_branch_factor (alg n a) - (if has flag_short_timeout (obs n p) then 1 else 0) ->
  out n' ol a = out n ol a -> (forall q, q ∈ out n ol a -> obs n' q = obs n q) -> accounts n' ol a.
Proof.
  intros [] Hpa Hc Hl Hd Htg Hi Hb Ho Hobs. assert (out n (p :: ol) a = p :: out n ol a) as Eo by (unfold out; by rewrite filter_cons_True).
  assert (short_out n' ol a = short_out n ol a) as Es.
  { unfold short_out, with_flag. rewrite Ho. apply filter_agree. intros q Hq. by rewrite Hobs. }
  assert (length (short_out n (p :: ol) a) = (if has flag_short_timeout (obs n p) then 1 else 0) + length (short_out n ol a))%nat as El.
  { unfold short_out, with_flag. rewrite Eo, filter_cons. destruct (has flag_short_timeout (obs n p)); by case_decide. }
  rewrite Eo, El in *. cbn [length] in *. apply Forall_cons in ac_out as [_ ac_out].
  split; unfold calls; rewrite ?Hd, ?Htg, ?Hi, ?Hb, ?Ho, ?Es, ?Hc, ?Hl; try done; try (destruct (has flag_short_timeout (obs n p)); lia).
  - rewrite Forall_forall in ac_out |- *. intros q Hq. unfold asked. rewrite Hobs by done. by apply ac_out.
  - intros H. by destruct (ac_done H).
Qed.

(** ** Answers and timeouts *)

Lemma stable_flags g o :
  Z.land g flag_no_id = 0 -> Z.land g flag_initial = 0 -> has flag_queried o = true -> stable o (set_flags g o).
Proof. intros H1 H2 Hq. split; try done; rewrite !has_set, ?H1, ?H2, ?Hq; by rewrite ?orb_false_r. Qed.

(** A lookup one of whose requests, [p], is about to be resolved. *)
Record resolving (a p : nat) (ol : list nat) (n : node_impl) : Prop := {
  rs_running : n_destructing n = false;
  rs_accounts : accounts n (p :: ol) a;
  rs_ordered : ordered n a;
  rs_some : t_results (alg n a) <> [];
  rs_news : (a < n_news n)%nat;
  rs_below : below n (p :: ol);
  rs_fresh : p ∉ ol;
  rs_alg : o_algorithm (obs n p) = a
}.

Lemma resolving_open a p ol n : resolving a p ol n -> t_done (alg n a) = false /\ asked n p /\ (p < n_mallocs n)%nat.
Proof.
  intros []. destruct rs_accounts0. assert (p ∈ out n (p :: ol) a) as Hp by (apply elem_of_out; split; [done|by left]).
  rewrite Forall_forall in ac_out. split_and!; [|by apply ac_out|by apply Forall_cons in rs_below0 as [[? _] _]].
  destruct (t_done (alg n a)); [|done]. destruct (ac_done eq_refl) as [E _]. rewrite E in Hp. by apply not_elem_of_nil in Hp.
Qed.

(** The changes of the lookup and of [p] that resolve it. *)
Record resolves (a p : nat) (n n' : node_impl) : Prop := {
  rv_touches : touches now a n n' [];
  rv_obs : forall q, q <> p -> obs n' q = obs n q;
  rv_calls : called a (n_log n') = called a (n_log n);
  rv_alg : t_done (alg n' a) = t_done (alg n a) /\ t_results (alg n' a) = t_results (alg n a) /\
           t_kind (alg n' a) = t_kind (alg n a) /\ t_target (alg n' a) = t_target (alg n a);
  rv_count : t_invoke_count (alg n' a) = t_invoke_count (alg n a) - 1;
  rv_branch : t_branch_factor (alg n' a) = t_branch_factor (alg n a) - (if has flag_short_timeout (obs n p) then 1 else 0)
}.

Lemma resolve_proceed a p ol n n1 :
  resolving a p ol n -> resolves a p n n1 ->
  exists new, let n' := done_if_idle env now a (add_requests env now a n1) in
    touches now a n n' new /\ lookup_inv n' (ol ++ new) a /\ progress a n n' new.
Proof.
  intros Hrs Hrv. destruct (resolving_open a p ol n Hrs) as (Hd & _ & Hpm). destruct Hrs, Hrv.
  pose proof rv_touches0 as []. destruct tc_const as (E1 & E2 & E3 & _). destruct rv_alg0 as (A1 & A2 & A3 & A4).
  assert (below n ol) as Hol by (by apply Forall_cons in rs_below0 as [_ ?]).
  assert (forall q, q ∈ ol -> obs n1 q = obs n q) as Hobs by (intros q Hq; apply rv_obs0; by intros ->).
  assert (accounts n1 ol a) as Hac.
  { apply (accounts_resolve n n1 ol a p); try done; [by apply (out_same now a n n1 [])|].
    intros q [_ Hq]%elem_of_out. by apply Hobs. }
  assert (ordered n1 a) as Hor.
  { apply (ordered_transfer n); try done; [rewrite A3; apply rs_ordered0|]. intros q Hq. apply tc_stable.
    destruct rs_ordered0. rewrite Forall_forall in or_known. by apply or_known. }
  destruct (proceed_inv a n1 ol) as (new & T & L & P).
  - split; [congruence|done|rewrite A3; apply rs_ordered0|congruence|lia|]. rewrite <- (app_nil_r ol). by apply (below_step a n).
  - done.
  - intros _. by rewrite A2.
  - exists new. cbv zeta. split_and!; [by apply (touches_trans now a n n1 _ [] new)|done|]. unfold progress in *. by rewrite A2 in P.
Qed.

Lemma touches_set_table a n n' new t :
  touches now a n n' new -> (table_inv (n_table n') -> table_inv t) -> touches now a n (set_table t n') new.
Proof. intros [] Ht. split; try done. auto. Qed.

Lemma finished_resolves a p ol n :
  resolving a p ol n ->
  exists new, let n' := observer_done env now p n in
    touches now a n n' new /\ lookup_inv n' (ol ++ new) a /\ progress a n n' new.
Proof.
  intros Hrs. destruct (resolving_open a p ol n Hrs) as (_ & (Hq & Hnd & _) & Hpm). pose proof (rs_alg _ _ _ _ Hrs) as Ha.
  unfold observer_done. rewrite Hnd. unfold finished. store. cbn [o_algorithm set_flags]. rewrite Ha. flags.
  set (n0 := upd_obs p (set_flags flag_done) n).
  assert (touches now a n n0 []) as T0 by (apply touches_fails; [apply touches_refl|done|done|by apply stable_flags]).
  apply (resolve_proceed a p ol n); [done|].
  destruct (has flag_short_timeout (obs n p)) eqn:Es; split; unfold n0; store; rewrite ?Es; try done.
  all: try (intros q Hqp; repeat (rewrite obs_alg || rewrite obs_upd_ne by done); done).
  all: try (cbn; lia).
  all: apply touches_alg, touches_fails; [try apply touches_alg; exact T0|done|done|store; apply stable_flags; [done..|]; by rewrite has_set, Hq].
Qed.

Lemma failed_last_resolves a p ol n n0 :
  resolving a p ol n -> n0 = upd_obs p (set_flags flag_done) n -> resolves a p n (failed_last min_time a p n0).
Proof.
  intros Hrs ->. destruct (resolving_open a p ol n Hrs) as (_ & (Hq & Hnd & _) & Hpm). pose proof (rs_alg _ _ _ _ Hrs) as Ha.
  pose proof (rs_below _ _ _ _ Hrs) as Hb. apply Forall_cons in Hb as [(_ & _ & Hid) _].
  unfold failed_last. store. flags. set (n1 := upd_obs p _ (upd_obs p _ n)).
  assert (touches now a n n1 []) as T1.
  { apply touches_fails; [apply touches_fails; [apply touches_refl|done|done|by apply stable_flags]|done|done|].
    store. apply stable_flags; [done..|]. by rewrite has_set, Hq. }
  set (n2 := if has flag_short_timeout (obs n p) then _ else _).
  assert (touches now a n n2 []) as T2 by (unfold n2; destruct (has flag_short_timeout (obs n p)); [by apply touches_alg|done]).
  assert (forall q, obs n2 q = obs n1 q) as O2 by (intros q; unfold n2; by destruct (has flag_short_timeout (obs n p))).
  assert (obs n2 p = set_flags flag_failed (set_flags flag_done (obs n p))) as Op.
  { rewrite O2. unfold n1. by rewrite !obs_upd_eq. }
  set (n3 := if has flag_no_id (obs n2 p) then _ else _).
  assert (touches now a n n3 []) as T3.
  { unfold n3. destruct (has flag_no_id (obs n2 p)); [done|]. apply touches_set_table; [done|]. intros Ht. apply node_failed_inv; [done|]. by rewrite Op. }
  assert (forall q, obs n3 q = obs n2 q) as O3 by (intros q; unfold n3; by destruct (has flag_no_id (obs n2 p))).
  assert (alg n3 a = alg n2 a /\ n_log n3 = n_log n2) as [A3 L3] by (unfold n3; by destruct (has flag_no_id (obs n2 p))).
  assert (alg n2 a = set_branch_factor (t_branch_factor (alg n a) - (if has flag_short_timeout (obs n p) then 1 else 0)) (alg n a)) as A2.
  { unfold n2. destruct (has flag_short_timeout (obs n p)); store; [by unfold n1; store|]. unfold n1. store. rewrite Z.sub_0_r. by destruct (alg n a). }
  split; store; rewrite ?A3, ?A2; try done.
  - by apply touches_alg.
  - intros q Hqp. rewrite obs_alg, O3, O2. unfold n1. by rewrite !obs_upd_ne.
  - cbn [n_log upd_alg set_algorithms]. rewrite L3. unfold n2. by destruct (has flag_short_timeout (obs n p)).
Qed.

Lemma timeout_resolves a p ol n :
  resolving a p ol n ->
  exists new, let n' := observer_timeout env min_time now p n in
    touches now a n n' new /\ lookup_inv n' (ol ++ new) a /\ progress a n n' new.
Proof.
  intros Hrs. destruct (resolving_open a p ol n Hrs) as (_ & (Hq & Hnd & _) & Hpm). pose proof (rs_alg _ _ _ _ Hrs) as Ha.
  unfold observer_timeout. rewrite Hnd. unfold failed. store. cbn [o_algorithm set_flags]. rewrite Ha.
  pose proof (rs_some _ _ _ _ Hrs) as Hne. destruct (t_results (alg n a)) eqn:Er; [done|]. cbn [Z.land Z.eqb negb].
  apply (resolve_proceed a p ol n); [done|]. by apply (failed_last_resolves a p ol).
Qed.

Lemma filter_one_more {A} `{EqDecision A} (P Q : A -> Prop) `{!forall x, Decision (P x)} `{!forall x, Decision (Q x)} (l : list A) p :
  NoDup l -> p ∈ l -> ~ P p -> Q p -> (forall x, x <> p -> P x <-> Q x) -> length (filter Q l) = S (length (filter P l)).
Proof.
  intros Hnd Hp HnP HQ Hag. apply list_elem_of_split in Hp as (l1 & l2 & ->).
  apply NoDup_app in Hnd as (_ & Hd & Hnd2). apply NoDup_cons in Hnd2 as [Hp2 _].
  assert (p ∉ l1) as Hp1 by (intros Hin; apply (Hd p Hin); by left).
  rewrite !filter_app, !length_app, filter_cons_True, filter_cons_False by done. cbn [length].
  rewrite (filter_agree Q P l1), (filter_agree Q P l2); [lia|..]; intros x Hx; symmetry; apply Hag; by intros ->.
Qed.

(** The first timeout of a request opens a slot for another one. *)
Lemma short_timeout_proceeds a p ol n :
  n_destructing n = false -> lookup_inv n ol a -> (a < n_news n)%nat -> below n ol -> NoDup ol -> p ∈ ol -> o_algorithm (obs n p) = a ->
  exists new, let n' := observer_short_timeout env min_time now p n in
    touches now a n n' new /\ lookup_inv n' (ol ++ new) a /\ progress a n n' new.
Proof.
  intros Hd (Hac & Hor & Hlive) Hlt Hol Hnd Hp Ha. unfold observer_short_timeout. destruct (has flag_short_timeout (obs n p)) eqn:Es.
  { exists []. cbv zeta. rewrite app_nil_r. split_and!; [apply touches_refl|done|right; split; [done|by intros q Hq%not_elem_of_nil]]. }
  assert (p ∈ out n ol a) as Hpo by (by apply elem_of_out).
  pose proof Hac as []. rewrite Forall_forall in ac_out. destruct (ac_out p Hpo) as (Hq & Hpd & Hpk).
  assert (t_done (alg n a) = false) as Hopen.
  { destruct (t_done (alg n a)); [|done]. destruct (ac_done eq_refl) as [E _]. rewrite E in Hpo. by apply not_elem_of_nil in Hpo. }
  assert (p < n_mallocs n)%nat as Hpm by (unfold below in Hol; rewrite Forall_forall in Hol; by apply Hol).
  destruct (Hlive Hopen) as [_ Hne]. unfold failed. rewrite Ha. destruct (t_results (alg n a)) eqn:Er; [done|].
  change (negb (Z.land short_timeout short_timeout =? 0)) with true. change (negb (Z.land short_timeout prevent_request =? 0)) with false.
  unfold failed_short. rewrite Es. set (n1 := upd_obs p _ _).
  assert (touches now a n n1 []) as T1 by (apply touches_fails; [apply touches_alg, touches_refl|done|done|by apply stable_flags]).
  assert (forall q, q <> p -> obs n1 q = obs n q) as Hobs by (intros q Hqp; unfold n1; by rewrite obs_upd_ne).
  assert (obs n1 p = set_flags flag_short_timeout (obs n p)) as Ep by (unfold n1; by rewrite obs_upd_eq).
  assert (alg n1 a = set_branch_factor (t_branch_factor (alg n a) + 1) (alg n a)) as Ea by (unfold n1; store; done).
  assert (out n1 ol a = out n ol a) as Eo by (by apply (out_same now a n n1 [])).
  assert (length (short_out n1 ol a) = S (length (short_out n ol a))) as El.
  { unfold short_out, with_flag. rewrite Eo. apply (filter_one_more _ _ _ p); [by apply NoDup_filter|done|by rewrite Es|rewrite Ep; by flags|].
    intros x Hx. by rewrite Hobs. }
  assert (accounts n1 ol a) as Hac1.
  { split; rewrite ?Ea, ?Eo, ?El; try done; try (cbn; lia); [|cbn; congruence]. apply Forall_forall. intros q Hqo. unfold asked.
    destruct (decide (q = p)) as [->|Hqp]; [rewrite Ep; flags; by rewrite Hq|]. rewrite Hobs by done. by apply ac_out. }
  destruct (proceed_inv a n1 ol) as (new & T & L & P).
  - split; rewrite ?Ea; try done; [apply Hor|]. rewrite <- (app_nil_r ol). by apply (below_step a n).
  - apply (ordered_transfer n); rewrite ?Ea; try done; [apply Hor|]. intros q Hqr. apply (tc_stable _ _ _ _ _ T1).
    destruct Hor. rewrite Forall_forall in or_known. by apply or_known.
  - intros _. rewrite Ea. cbn. by rewrite Er.
  - exists new. cbv zeta. split_and!; [by apply (touches_trans now a n n1 _ [] new)|done|]. unfold progress in *. rewrite Ea in P. done.
Qed.
End Operations.
