(* ===== verification/DhtEntries.v ===== *)
(** * The Kademlia node: the nodes of a lookup

    [add_entry] keeps the nodes of a lookup ordered by their distance to the
    target, without duplicates and apart from each other; and the lookups that
    start. *)

From S2P Require Import Prelude Archive Md4Hash Bitfield KadId RoutingTable RoutingTableInv RoutingTableProps Dht DhtInv DhtSteps.
From stdpp Require Import gmap sorting.
Open Scope Z_scope.

(** ** Lists of nodes *)

(** [ordered], for a list. *)
Record listing (n : node_impl) (a : nat) (l : list nat) : Prop := {
  ls_known : Forall (known n a) l;
  ls_nodup : NoDup l;
  ls_sorted : StronglySorted (fun p q => dist n a p <= dist n a q) l;
  ls_ids : NoDup ((fun p => o_id (obs n p)) <$> filter (fun p => has flag_no_id (obs n p) = false) l);
  ls_apart : n_restrict_search_ips n = true -> forall p q, p ∈ l -> q ∈ l -> p <> q -> apart n p q
}.

Lemma ordered_listing n a : ordered n a -> listing n a (t_results (alg n a)).
Proof. by intros []. Qed.

Lemma listing_ordered n a l :
  listing n a l -> (length l <= 100)%nat -> t_kind (alg n a) <> plain_traversal -> hash_wf (t_target (alg n a)) ->
  ordered (upd_alg a (set_results l) n) a.
Proof.
  intros [] Hl Hk Ht. split; rewrite ?alg_upd_eq; try done.
  assert (forall p, dist (upd_alg a (set_results l) n) a p = dist n a p) as Hd by (intros p; unfold dist; by rewrite alg_upd_eq).
  eapply sorted_agree; [|exact ls_sorted0]. intros p q _ _. by rewrite !Hd.
Qed.

Lemma sublist_Forall {A} (P : A -> Prop) (l' l : list A) : l' `sublist_of` l -> Forall P l -> Forall P l'.
Proof. rewrite !Forall_forall. intros Hs Hl x Hx. apply Hl. by eapply elem_of_sublist. Qed.

Lemma sublist_filter_mono {A} (P : A -> Prop) `{!forall x, Decision (P x)} (l' l : list A) :
  l' `sublist_of` l -> filter P l' `sublist_of` filter P l.
Proof. induction 1; rewrite ?filter_cons; try case_decide; try done; by constructor. Qed.

Lemma listing_sublist n a l l' : l' `sublist_of` l -> listing n a l -> listing n a l'.
Proof.
  intros Hs []. split.
  - by eapply sublist_Forall.
  - by eapply sublist_NoDup.
  - by eapply StronglySorted_sublist.
  - eapply sublist_NoDup; [exact ls_ids0|]. by apply fmap_sublist, sublist_filter_mono.
  - intros Hr p q Hp Hq. apply ls_apart0; [done|by eapply elem_of_sublist..].
Qed.

(** The first nodes are nearer than the new one, the others are not. *)
Lemma lower_bound_dist n a l o :
  hash_wf (t_target (alg n a)) -> hash_wf o -> Forall (known n a) l -> StronglySorted (fun p q => dist n a p <= dist n a q) l ->
  let i := results_lower_bound (fun q => compare_ref (o_id (obs n q)) o (t_target (alg n a))) l in
  Forall (fun q => dist n a q < value (distance o (t_target (alg n a)))) (take i l) /\
  Forall (fun q => value (distance o (t_target (alg n a))) <= dist n a q) (drop i l).
Proof.
  intros Ht Ho Hk Hs. induction Hs as [|p l _ IH Hp]; cbn; [done|]. apply Forall_cons in Hk as [(_ & _ & Hid & _) Hk].
  pose proof (compare_ref_lt (o_id (obs n p)) o _ Hid Ho Ht) as Hc. destruct (compare_ref _ _ _).
  - destruct (IH Hk) as [H1 H2]. cbn. split; [|done]. constructor; [|done]. by apply Hc.
  - cbn. split; [done|]. assert (value (distance o (t_target (alg n a))) <= dist n a p) as Hd.
    { unfold dist. destruct (Z_le_gt_dec (value (distance o (t_target (alg n a)))) (value (distance (o_id (obs n p)) (t_target (alg n a))))); [done|].
      assert (false = true) by (apply Hc; lia). done. }
    constructor; [done|]. eapply Forall_impl; [exact Hp|]. intros q Hq. etrans; [exact Hd|exact Hq].
Qed.

Lemma lookup_sorted_insert {A} (R : A -> A -> Prop) l1 l2 x :
  StronglySorted R (l1 ++ l2) -> Forall (fun y => R y x) l1 -> Forall (R x) l2 -> StronglySorted R (l1 ++ x :: l2).
Proof.
  intros Hs H1 H2. induction l1 as [|y l1 IH]; cbn in *; [by constructor|]. inversion Hs as [|? ? Hs' Hy]; subst.
  apply Forall_cons in H1 as [Hyx H1]. constructor; [by apply IH|]. apply Forall_app in Hy as [? ?]. apply Forall_app; split; [done|by constructor].
Qed.

(** A node with the identifier of the new one would have been found. *)
Lemma not_present n a l o i :
  hash_wf (t_target (alg n a)) -> hash_wf o -> Forall (known n a) l -> StronglySorted (fun p q => dist n a p <= dist n a q) l ->
  i = results_lower_bound (fun q => compare_ref (o_id (obs n q)) o (t_target (alg n a))) l ->
  match l !! i with Some q => o_id (obs n q) <> o | None => True end -> Forall (fun q => o_id (obs n q) <> o) l.
Proof.
  intros Ht Ho Hk Hs -> Hi. destruct (lower_bound_dist n a l o Ht Ho Hk Hs) as [H1 H2]. set (i := results_lower_bound _ _) in *.
  rewrite <- (take_drop i l). apply Forall_app; split.
  - eapply Forall_impl; [exact H1|]. intros q Hq E. unfold dist in Hq. rewrite E in Hq. lia.
  - pose proof (Forall_drop _ i _ Hk) as Hkd. destruct (drop i l) as [|q l'] eqn:Ed; [done|].
    assert (l !! i = Some q) as Eq by (by rewrite <- (Nat.add_0_r i), <- lookup_drop, Ed). rewrite Eq in Hi.
    assert (StronglySorted (fun p q => dist n a p <= dist n a q) (q :: l')) as Hsd.
    { rewrite <- Ed. eapply StronglySorted_sublist; [|exact Hs]. apply sublist_drop. }
    inversion Hsd as [|? ? _ Hql]; subst. apply Forall_cons in H2 as [Hq _]. apply Forall_cons in Hkd as [(_ & _ & Hqid & _) Hkd].
    constructor; [done|]. rewrite Forall_forall in Hql, Hkd |- *. intros r Hr E. specialize (Hql r Hr). cbv beta in Hql. unfold dist in *. rewrite E in Hql.
    apply Hi. apply (distance_inj _ _ (t_target (alg n a))); [done..|lia].
Qed.

Lemma search_close_sym o1 o2 : search_compare_ip_cidr o1 o2 = search_compare_ip_cidr o2 o1.
Proof.
  unfold search_compare_ip_cidr, cidr_distance, common_bits. f_equal. f_equal. generalize 0 as i.
  generalize (target_addr o2) as l2. generalize (target_addr o1) as l1.
  induction l1 as [|x l1 IH]; intros [|y l2] i; try done. cbn [common_bits_loop]. by rewrite (Z.lxor_comm (b2z x)), IH.
Qed.

Lemma apart_sym n p q : apart n p q -> apart n q p.
Proof. intros [H|[H1 H2]]; [left; by rewrite search_close_sym|by right]. Qed.

(** ** insert_result *)

Definition all_initial (n : node_impl) (l : list nat) : Prop := Forall (fun q => has flag_initial (obs n q) = true) l.

Lemma insert_listing n a l p i :
  listing n a l -> known n a p -> p ∉ l -> hash_wf (t_target (alg n a)) ->
  i = results_lower_bound (fun q => compare_ref (o_id (obs n q)) (o_id (obs n p)) (t_target (alg n a))) l ->
  (has flag_no_id (obs n p) = false -> match l !! i with Some q => o_id (obs n q) <> o_id (obs n p) | None => True end) ->
  (n_restrict_search_ips n = true -> Forall (fun q => apart n q p) l) -> listing n a (take i l ++ p :: drop i l).
Proof.
  intros [] Hp Hnp Ht Ei Hid Hap. pose proof Hp as (_ & _ & Hpid & _).
  destruct (lower_bound_dist n a l (o_id (obs n p)) Ht Hpid ls_known0 ls_sorted0) as [H1 H2]. rewrite <- Ei in H1, H2.
  assert (take i l ++ p :: drop i l ≡ₚ p :: l) as Hperm by (rewrite <- Permutation_middle; by rewrite take_drop).
  split.
  - rewrite Hperm. by constructor.
  - rewrite Hperm. by constructor.
  - apply lookup_sorted_insert; [by rewrite take_drop| |done]. eapply Forall_impl; [exact H1|]. intros q Hq. apply Z.lt_le_incl, Hq.
  - rewrite Hperm, filter_cons. case_decide as E; [|done]. rewrite fmap_cons. constructor; [|done].
    pose proof (not_present n a l (o_id (obs n p)) i Ht Hpid ls_known0 ls_sorted0 Ei (Hid E)) as Hn. rewrite Forall_forall in Hn.
    intros (q & Eq & Hq)%list_elem_of_fmap. apply list_elem_of_filter in Hq as [_ Hq]. by apply (Hn q Hq).
  - intros Hr q r Hq Hr' Hne. rewrite Hperm in Hq, Hr'. specialize (Hap Hr). rewrite Forall_forall in Hap.
    apply elem_of_cons in Hq as [->|Hq], Hr' as [->|Hr']; [done|apply apart_sym; by apply Hap|by apply Hap|by apply ls_apart0].
Qed.

Lemma resized_sublist (l : list nat) : (if (100 <? length l)%nat then take 100 l else l) `sublist_of` l.
Proof. case_match; [apply sublist_take|done]. Qed.

Lemma resized_length (l : list nat) : (length (if (100 <? length l)%nat then take 100 l else l) <= 100)%nat.
Proof. destruct (Nat.ltb_spec 100 (length l)); rewrite ?length_take; lia. Qed.

Lemma resized_some (l : list nat) : l <> [] -> (if (100 <? length l)%nat then take 100 l else l) <> [].
Proof. case_match; [|done]. by destruct l. Qed.

(** What [insert_result] leaves: another list of nodes, old ones or [p]. *)
Definition relisted (a p : nat) (n n' : node_impl) : Prop :=
  n' = n \/ exists l, n' = upd_alg a (set_results l) n /\ (t_results (alg n a) <> [] -> l <> []) /\ (forall q, q ∈ l -> q = p \/ q ∈ t_results (alg n a)).

Lemma insert_result_relisted a id fl p n : relisted a p n (insert_result a id fl p n).
Proof.
  unfold insert_result. set (i := results_lower_bound _ _). set (l := t_results (alg n a)).
  destruct (match l !! i with Some _ => _ | None => _ end); [|destruct (_ && _); [by left|]]; right; eexists; (split; [done|]); split.
  - apply resized_some.
  - intros q Hq. right. eapply elem_of_sublist; [exact Hq|apply resized_sublist].
  - intros _. apply resized_some. by destruct (take i l).
  - intros q Hq. assert (q ∈ take i l ++ p :: drop i l) as Hq' by (eapply elem_of_sublist; [exact Hq|apply resized_sublist]).
    apply elem_of_app in Hq' as [Hq'|Hq']; [right; by apply elem_of_take in Hq' as (j & ? & _); eapply list_elem_of_lookup_2|].
    apply elem_of_cons in Hq' as [->|Hq']; [by left|right]. eapply elem_of_sublist; [exact Hq'|apply sublist_drop].
Qed.

Lemma insert_result_ordered a id fl p n :
  ordered n a -> known n a p -> p ∉ t_results (alg n a) -> (has flag_no_id (obs n p) = false -> o_id (obs n p) = id) ->
  ((Z.land fl flag_initial =? 0) = false -> has flag_initial (obs n p) = true /\ all_initial n (t_results (alg n a))) ->
  ordered (insert_result a id fl p n) a.
Proof.
  intros Hor Hp Hnp Hid Hfl. pose proof (ordered_listing n a Hor) as Hls. pose proof Hor as [].
  unfold insert_result. set (i := results_lower_bound _ _). destruct (match _ !! i with Some _ => _ | None => _ end) eqn:Epr.
  { apply listing_ordered; [eapply listing_sublist; [apply resized_sublist|done]|apply resized_length|done..]. }
  destruct (_ && _) eqn:Eip; [done|].
  apply listing_ordered; [|apply resized_length|done..]. eapply listing_sublist; [apply resized_sublist|].
  apply insert_listing; try done.
  - intros Hno. rewrite (Hid Hno). destruct (t_results (alg n a) !! i); [|done]. by apply bool_decide_eq_false in Epr.
  - intros Hr. rewrite Hr in Eip. cbn in Eip. apply Forall_forall. intros q Hq. destruct (Z.land fl flag_initial =? 0) eqn:Ef.
    + left. cbn in Eip. destruct (search_compare_ip_cidr (obs n q) (obs n p)) eqn:Ec; [|done].
      assert (existsb (fun q => search_compare_ip_cidr (obs n q) (obs n p)) (t_results (alg n a)) = true) as H; [|congruence].
      apply existsb_exists. exists q. split; [by apply list_elem_of_In|done].
    + right. destruct (Hfl eq_refl) as [H1 H2]. unfold all_initial in H2. rewrite Forall_forall in H2. split; [by apply H2|done].
Qed.

Section Entries.
Context (env : environment) (min_time now : Z).
Context (Hmalloc : forall k, env_malloc env k = true) (Hrandom : forall k, hash_wf (env_random env k)).

(** ** add_entry *)

(** Nodes were added to the lookup. *)
Record grows (a : nat) (n n' : node_impl) : Prop := {
  gw_touches : touches now a n n' [];
  gw_alg : exists l, alg n' a = set_results l (alg n a) /\ (t_results (alg n a) <> [] -> l <> []);
  gw_obs : forall p, (p < n_mallocs n)%nat -> obs n' p = obs n p;
  gw_calls : called a (n_log n') = called a (n_log n)
}.

Lemma set_results_same t : set_results (t_results t) t = t.
Proof. by destruct t. Qed.

Lemma store_grows_refl a n : grows a n n.
Proof. split; try done; [apply touches_refl|]. exists (t_results (alg n a)). by rewrite set_results_same. Qed.

Lemma store_grows_trans a n1 n2 n3 : grows a n1 n2 -> grows a n2 n3 -> grows a n1 n3.
Proof.
  intros [] []. pose proof gw_touches0 as []. destruct gw_alg0 as (l1 & E1 & H1), gw_alg1 as (l2 & E2 & H2). split.
  - by apply (touches_trans now a n1 n2 n3 [] []).
  - exists l2. rewrite E2, E1. split; [done|]. intros H. apply H2. rewrite E1. by apply H1.
  - intros p Hp. rewrite gw_obs1 by lia. by apply gw_obs0.
  - congruence.
Qed.

(** New nodes do not change the accounts. *)
Lemma grows_askable a ol n n' : askable a ol n -> grows a n n' -> askable a ol n'.
Proof.
  intros [] []. pose proof gw_touches0 as []. destruct tc_const as (E1 & E2 & E3 & E4). destruct gw_alg0 as (l & Ea & _).
  assert (forall p, p ∈ ol -> obs n' p = obs n p) as Ho.
  { intros p Hp. unfold below in ak_below. rewrite Forall_forall in ak_below. apply gw_obs0. by apply ak_below. }
  assert (out n' ol a = out n ol a) as Eo by (by apply (out_same now a n n' [])).
  assert (short_out n' ol a = short_out n ol a) as Es.
  { unfold short_out, with_flag. rewrite Eo. apply filter_agree. intros p [_ Hp]%elem_of_out. by rewrite Ho. }
  destruct ak_accounts. split; rewrite ?Ea; try done; [congruence| |lia|rewrite <- (app_nil_r ol); by apply (below_step now a n)].
  split; unfold calls; rewrite ?Ea, ?Eo, ?Es, ?E1, ?gw_calls0; try done; [|cbn; congruence].
  rewrite Forall_forall in ac_out |- *. intros p Hp. unfold asked. rewrite Ho; [by apply ac_out|].
  by apply elem_of_out in Hp as [_ ?].
Qed.

(** The new observer, before it is inserted. *)
Definition entry_observer (a : nat) (id : node_id) (e : endpoint) (fl : Z) (n : node_impl) : observer :=
  let o := observer_new now (traversal_observer (t_kind (alg n a))) a e id in
  set_flags fl (if is_all_zeros id then set_flags flag_no_id (set_id (env_random env (n_randoms n)) o) else o).

Definition entry_node (a : nat) (id : node_id) (e : endpoint) (fl : Z) (n : node_impl) : node_impl :=
  upd_obs (n_mallocs n) (fun _ => entry_observer a id e fl n)
    (set_counters (S (n_mallocs n)) (n_news n) (n_sends n) (if is_all_zeros id then S (n_randoms n) else n_randoms n) n).

Lemma add_entry_eq a id e fl n :
  add_entry env now a id e fl n = insert_result a id fl (n_mallocs n) (entry_node a id e fl n).
Proof.
  unfold add_entry. rewrite (allocate_ok env Hmalloc). unfold entry_node, entry_observer, generate_random_id.
  by destruct (is_all_zeros id).
Qed.

Lemma entry_node_quiet a id e fl n : quiet now a n (entry_node a id e fl n) [].
Proof. apply quiet_store; [apply quiet_counters; lia|done|apply not_elem_of_nil]. Qed.

Lemma entry_known a id e fl n :
  t_kind (alg n a) <> plain_traversal -> hash_wf id -> fl = 0 \/ fl = flag_initial -> known (entry_node a id e fl n) a (n_mallocs n).
Proof.
  intros Hk Hid Hfl. unfold known, entry_node. rewrite obs_upd_eq. cbn [n_mallocs upd_obs set_observers set_counters].
  assert (traversal_observer (t_kind (alg n a)) = find_data_observer) as Ek by (by destruct (t_kind (alg n a))).
  unfold entry_observer. rewrite Ek. split_and!; [lia|by destruct (is_all_zeros id)|destruct (is_all_zeros id); [apply Hrandom|done]|by destruct (is_all_zeros id)|].
  intros _. destruct Hfl as [-> | ->], (is_all_zeros id); done.
Qed.

Definition initial_rest (a : nat) (fl : Z) (n : node_impl) : Prop :=
  fl = 0 \/ (fl = flag_initial /\ all_initial n (t_results (alg n a))).

Lemma add_entry_grows a id e fl n :
  ordered n a -> hash_wf id -> initial_rest a fl n ->
  grows a n (add_entry env now a id e fl n) /\ ordered (add_entry env now a id e fl n) a /\
  (fl = flag_initial -> all_initial (add_entry env now a id e fl n) (t_results (alg (add_entry env now a id e fl n) a))).
Proof.
  intros Hor Hid Hfl. rewrite add_entry_eq. set (p := n_mallocs n). set (n1 := entry_node a id e fl n).
  pose proof (entry_node_quiet a id e fl n) as Hq. fold n1 in Hq. pose proof (q_touches _ _ _ _ _ Hq) as [].
  pose proof Hor as [].
  assert (Forall (fun q => (q < p)%nat) (t_results (alg n a))) as Hlt by (eapply Forall_impl; [exact or_known|]; by intros q [? _]).
  assert (forall q, q ∈ t_results (alg n a) -> obs n1 q = obs n q) as Ho.
  { intros q Hqr. apply (q_obs _ _ _ _ _ Hq). rewrite Forall_forall in Hlt. by apply Hlt. }
  assert (ordered n1 a) as Hor1.
  { apply (ordered_transfer n); rewrite ?(q_alg _ _ _ _ _ Hq); try done. intros q Hqr. rewrite Ho by done. apply stable_refl. }
  assert (known n1 a p) as Hp by (apply entry_known; [done|done|destruct Hfl as [?|[? _]]; auto]).
  assert (obs n1 p = entry_observer a id e fl n) as Ep by (unfold n1, entry_node; by rewrite obs_upd_eq).
  assert (all_initial n (t_results (alg n a)) -> all_initial n1 (t_results (alg n1 a))) as Hai.
  { intros H. rewrite (q_alg _ _ _ _ _ Hq). unfold all_initial in *. rewrite Forall_forall in H |- *. intros q Hqr. rewrite Ho by done. by apply H. }
  assert (fl = flag_initial -> has flag_initial (obs n1 p) = true) as Hpi by (intros ->; rewrite Ep; unfold entry_observer; rewrite has_set; apply orb_true_r).
  assert (ordered (insert_result a id fl p n1) a) as Hor2.
  { apply insert_result_ordered; try done.
    - rewrite (q_alg _ _ _ _ _ Hq). rewrite Forall_forall in Hlt. intros Hin%Hlt. lia.
    - rewrite Ep. unfold entry_observer. destruct (is_all_zeros id); [|done]. rewrite !has_set. by rewrite orb_true_r.
    - destruct Hfl as [->|[-> Hi]]; [done|]. intros _. split; [by apply Hpi|by apply Hai]. }
  assert (grows a n (insert_result a id fl p n1)) as Hgr.
  { apply (store_grows_trans a n n1).
    - split; [exact (q_touches _ _ _ _ _ Hq)| |exact (q_obs _ _ _ _ _ Hq)|exact (q_calls _ _ _ _ _ Hq)]. exists (t_results (alg n a)). by rewrite (q_alg _ _ _ _ _ Hq), set_results_same.
    - destruct (insert_result_relisted a id fl p n1) as [->|(l & -> & Hl & _)]; [apply store_grows_refl|].
      split; [apply touches_alg, touches_refl|exists l; store; split; [done|apply Hl]|done|done]. }
  split_and!; [done..|]. intros Hi. destruct Hfl as [->|[_ Hall]]; [done|].
  destruct (insert_result_relisted a id fl p n1) as [->|(l & -> & _ & Hl)]; [by apply Hai|]. store. cbn [t_results set_results].
  specialize (Hai Hall). unfold all_initial in *. rewrite Forall_forall in Hai |- *. intros q Hql. store. destruct (Hl q Hql) as [->|Hin]; auto.
Qed.

Lemma traverse_all_grows a l n :
  ordered n a -> Forall (fun e => hash_wf (ke_kid e)) l ->
  grows a n (traverse_all env now a l n) /\ ordered (traverse_all env now a l n) a.
Proof.
  revert n. induction l as [|e l IH]; intros n Hor Hl; cbn [traverse_all]; [split; [apply store_grows_refl|done]|].
  apply Forall_cons in Hl as [He Hl]. unfold traverse.
  destruct (add_entry_grows a (ke_kid e) (int2ip (ke_address e), ke_udp_port e) 0 n) as (H1 & H2 & _); [done|done|by left|].
  destruct (IH _ H2 Hl) as [H3 H4]. split; [by eapply store_grows_trans|done].
Qed.

Lemma add_initial_grows a l n :
  ordered n a -> Forall (fun x => hash_wf (fst x)) l -> all_initial n (t_results (alg n a)) ->
  let n' := add_initial env now a l n in grows a n n' /\ ordered n' a /\ all_initial n' (t_results (alg n' a)).
Proof.
  revert n. induction l as [|[id e] l IH]; intros n Hor Hl Hi; cbn [add_initial]; [split; [apply store_grows_refl|done]|].
  apply Forall_cons in Hl as [Hid Hl].
  destruct (add_entry_grows a id e flag_initial n) as (H1 & H2 & H3); [done|done|by right|].
  destruct (IH _ H2 Hl (H3 eq_refl)) as (H4 & H5 & H6). split_and!; [by eapply store_grows_trans|done..].
Qed.

(** ** Lookups that start *)

(** The new lookup [a], before [start]. *)
Record seeded (a : nat) (n : node_impl) : Prop := {
  se_ordered : ordered n a;
  se_initial : all_initial n (t_results (alg n a));
  se_fresh : t_invoke_count (alg n a) = 0 /\ t_done (alg n a) = false;
  se_calls : called a (n_log n) = []
}.

Lemma grows_seeded a l n :
  seeded a n -> Forall (fun x => hash_wf (fst x)) l -> grows a n (add_initial env now a l n) /\ seeded a (add_initial env now a l n).
Proof.
  intros [] Hl. destruct (add_initial_grows a l n) as (Hg & Ho & Hi); [done..|]. split; [done|].
  destruct Hg. destruct gw_alg0 as (r & E & _). split; try done; [by rewrite E|by rewrite gw_calls0].
Qed.

Lemma start_inv a n0 n ol :
  touches now a n0 n [] -> n_news n0 = a -> (a < n_news n)%nat -> below n0 ol -> n_destructing n0 = false -> table_inv (n_table n0) ->
  seeded a n -> exists new, let n' := start env min_time now a n in
    touches now a n0 n' new /\ lookup_inv n' (ol ++ new) a /\ (a < n_news n')%nat.
Proof.
  intros Ht0 Ea Hlt Hol Hd Htab Hse. unfold start.
  set (n1 := match t_results (alg n a) with [] => _ | _ => _ end).
  assert (grows a n n1 /\ seeded a n1) as [Hg Hse1].
  { unfold n1. destruct (t_results (alg n a)); [|split; [apply store_grows_refl|done]]. apply grows_seeded; [done|].
    apply Forall_forall. intros x (e & -> & _)%list_elem_of_fmap. done. }
  clear Hse. set (n2 := traversal_init min_time now a n1). destruct Hse1.
  assert (hash_wf (t_target (alg n1 a))) as Htg by (by destruct se_ordered0).
  assert (touches now a n1 n2 [] /\ alg n2 a = set_branch_factor (n_search_branching n1) (alg n1 a) /\ n_log n2 = n_log n1 /\
          (forall q, obs n2 q = obs n1 q)) as (T2 & A2 & L2 & O2).
  { unfold n2, traversal_init, add_traversal_algorithm. set (m := upd_alg a _ _).
    assert (touches now a n1 m []) as Tm.
    { apply touches_alg, touches_set_table; [apply touches_refl|]. intros H. by apply touch_bucket_inv. }
    assert (alg m a = set_branch_factor (n_search_branching n1) (alg n1 a)) as Em by (unfold m; by store).
    cbn [n_running]. case_decide; (split_and!; try done). destruct Tm. by split. }
  pose proof (gw_touches _ _ _ Hg) as T1.
  assert (touches now a n0 n2 []) as T02.
  { apply (touches_trans now a n0 n n2 [] []); [done|]. by apply (touches_trans now a n n1 n2 [] []). }
  pose proof T02 as []. destruct tc_const as (C1 & C2 & C3 & C4).
  assert (out n2 ol a = []) as Eo.
  { rewrite (out_same now a n0 n2 []) by done. apply filter_nothing. unfold below in Hol. eapply Forall_impl; [exact Hol|]. intros p (_ & ? & _). cbv beta. lia. }
  assert (short_out n2 ol a = []) as Es by (unfold short_out; by rewrite Eo). destruct se_fresh0 as [F1 F2].
  assert (ordered n2 a) as Hor.
  { pose proof T2 as [C _ ? _ _ _ _ _ _ _ _ _]. destruct C as (_ & ? & _). apply (ordered_transfer n1); rewrite ?A2; try done; [apply se_ordered0|].
    intros q _. rewrite O2. apply stable_refl. }
  destruct (proceed_inv env now Hmalloc a n2 ol) as (new & T & L & _).
  - split; rewrite ?A2; try done; [congruence| |apply se_ordered0| |rewrite <- (app_nil_r ol); by apply (below_step now a n0)].
    + split; unfold calls; rewrite ?A2, ?Eo, ?Es, ?L2, ?se_calls0; cbn [t_invoke_count t_branch_factor t_done t_results set_branch_factor length];
        [done|rewrite Z.add_0_r; symmetry; by destruct T2 as [(? & _) _ _ _ _ _ _ _ _ _ _ _]|lia|done|by rewrite F2|done|congruence].
    + destruct T1 as [_ _ _ N1 _ _ _ _ _ _ _ _], T2 as [_ _ _ N2 _ _ _ _ _ _ _ _]. lia.
  - done.
  - by rewrite Eo.
  - exists new. cbv zeta. split_and!; [by apply (touches_trans now a n0 n2 _ [] new)|done|].
    destruct T1 as [_ _ _ N1 _ _ _ _ _ _ _ _], T2 as [_ _ _ N2 _ _ _ _ _ _ _ _], T as [_ _ _ N3 _ _ _ _ _ _ _ _]. lia.
Qed.
End Entries.
