(* ===== verification/DhtNode.v ===== *)
(** * The Kademlia node: its events

    Every event the node handles keeps the invariant of DhtInv.v. *)

From S2P Require Import Prelude Archive Md4Hash Bitfield KadId RoutingTable RoutingTableInv RoutingTableProps Dht DhtInv DhtSteps DhtEntries.
From stdpp Require Import gmap sorting.
Open Scope Z_scope.

(** The requests that are outstanding in [n], in the order they were sent, were
    sent at ever later times, up to [now]. *)
Definition sent_inv (now : Z) (n : node_impl) : Prop :=
  StronglySorted (fun p q => o_sent (obs n p) <= o_sent (obs n q)) (n_transactions n) /\
  Forall (fun p => o_sent (obs n p) <= now) (n_transactions n).

Section Events.
Context (env : environment) (min_time now : Z).
Context (Hmalloc : forall k, env_malloc env k = true) (Hrandom : forall k, hash_wf (env_random env k)).

(** ** Steps *)

(** The requests of [n] that are still there in [n'] were not sent again; the new
    ones were sent now. *)
Record moves (n n' : node_impl) (new : list nat) : Prop := {
  mv_trans : n_transactions n' = n_transactions n ++ new;
  mv_old : forall p, p ∈ n_transactions n -> o_sent (obs n' p) = o_sent (obs n p);
  mv_new : Forall (fun p => o_sent (obs n' p) = now) new
}.

Lemma moves_sent n n' new : moves n n' new -> sent_inv now n -> sent_inv now n'.
Proof.
  intros [Ht Ho Hn] [Hs Hf]. unfold sent_inv. rewrite Ht. rewrite Forall_forall in Hf, Hn. split.
  - assert (StronglySorted (fun p q => o_sent (obs n' p) <= o_sent (obs n' q)) (n_transactions n)) as Hs'.
    { eapply sorted_agree; [|exact Hs]. intros p q Hp Hq. by rewrite !Ho. }
    assert (Forall (fun p => o_sent (obs n' p) <= now) (n_transactions n)) as Hf'.
    { apply Forall_forall. intros p Hp. rewrite Ho by done. by apply Hf. }
    clear -Hs' Hf' Hn. revert Hs' Hf'. induction (n_transactions n) as [|p l IH]; intros Hs Hf; cbn.
    + clear -Hn. induction new as [|p new IH]; constructor; [apply IH; intros q Hq; apply Hn; by right|].
      apply Forall_forall. intros q Hq. rewrite (Hn p), (Hn q); [lia|by right|by left].
    + inversion Hs as [|? ? Hs' Hp]; subst. apply Forall_cons in Hf as [Hpn Hf]. constructor; [by apply IH|].
      apply Forall_app; split; [done|]. apply Forall_forall. intros q Hq. rewrite (Hn q Hq). done.
  - apply Forall_app; split; apply Forall_forall; intros p Hp; [rewrite Ho by done; by apply Hf|rewrite Hn by done; lia].
Qed.

Lemma moves_trans n1 n2 n3 new1 new2 : moves n1 n2 new1 -> moves n2 n3 new2 -> moves n1 n3 (new1 ++ new2).
Proof.
  intros [] []. split.
  - by rewrite mv_trans1, mv_trans0, app_assoc.
  - intros p Hp. rewrite mv_old1, mv_old0; [done..|]. rewrite mv_trans0. apply elem_of_app. by left.
  - apply Forall_app; split; [|done]. rewrite Forall_forall in mv_new0 |- *. intros p Hp. rewrite mv_old1; [by apply mv_new0|].
    rewrite mv_trans0. apply elem_of_app. by right.
Qed.

Lemma moves_refl n : moves n n [].
Proof. split; try done. by rewrite app_nil_r. Qed.

(** An outstanding request belongs to a lookup or is a single one. *)
Lemma outstanding_lookup n ol p :
  node_inv n ol -> p ∈ ol -> o_kind (obs n p) = find_data_observer -> lookup_inv n ol (o_algorithm (obs n p)).
Proof.
  intros [] Hp Hk. rewrite Forall_forall in ni_out. destruct (ni_out p Hp) as (_ & Hlt & _).
  destruct (ni_algs _ Hlt) as [(_ & _ & Hs)|?]; [|done]. rewrite Forall_forall in Hs. exfalso. apply (Hs p); [by apply elem_of_out|done].
Qed.

Lemma outstanding_single n ol p :
  node_inv n ol -> p ∈ ol -> o_kind (obs n p) <> find_data_observer -> single n ol (o_algorithm (obs n p)).
Proof.
  intros [] Hp Hk. rewrite Forall_forall in ni_out. destruct (ni_out p Hp) as (_ & Hlt & _).
  destruct (ni_algs _ Hlt) as [?|([] & _)]; [done|]. rewrite Forall_forall in ac_out. exfalso. apply Hk. by apply ac_out, elem_of_out.
Qed.

Lemma touches_moves a n n' new ol :
  node_inv n ol -> (forall p, p ∈ n_transactions n -> p ∈ ol) -> touches now a n n' new -> moves n n' new.
Proof.
  intros Hinv Hsub []. split; [done| |].
  - intros p Hp. pose proof (ni_out _ _ Hinv) as Hol. rewrite Forall_forall in Hol. destruct (Hol p (Hsub p Hp)) as (Hlt & _).
    destruct (o_kind (obs n p)) eqn:Ek; try (apply (st_single _ _ (tc_stable p Hlt)); by rewrite Ek).
    destruct (outstanding_lookup n ol p Hinv (Hsub p Hp) Ek) as ([] & _). rewrite Forall_forall in ac_out.
    destruct (ac_out p) as [Hq _]; [apply elem_of_out; auto|]. by apply (st_queried _ _ (tc_stable p Hlt)).
  - eapply Forall_impl; [exact tc_new|]. by intros p (_ & _ & _ & ? & _).
Qed.

(** The state [n'] follows [n]: the requests [ol] are left of the outstanding ones,
    [new] were sent. *)
Record follows (n n' : node_impl) (ol new : list nat) : Prop := {
  fl_inv : node_inv n' (ol ++ new);
  fl_moves : moves n n' new;
  fl_stable : forall p, (p < n_mallocs n)%nat -> (p < n_mallocs n')%nat /\ stable (obs n p) (obs n' p)
}.

Lemma touches_follows a n n' new ol ol' gone :
  node_inv n ol -> (forall p, p ∈ n_transactions n -> p ∈ ol) -> touches now a n n' new -> ol ≡ₚ gone ++ ol' ->
  Forall (fun p => o_algorithm (obs n p) = a) gone -> kept a n n' (ol' ++ new) -> follows n n' ol' new.
Proof. intros Hinv Hsub Ht Hp Hg Hk. split; [by apply (node_inv_step now a n n' new ol ol' gone)|by apply (touches_moves a n n' new ol)|]. destruct Ht. intros p Hp0. split; [lia|auto]. Qed.

Lemma resolving_of n ol p : node_inv n (p :: ol) -> o_kind (obs n p) = find_data_observer -> resolving (o_algorithm (obs n p)) p ol n.
Proof.
  intros Hinv Hk. destruct (outstanding_lookup n (p :: ol) p Hinv) as (Hac & Hor & Hl); [by left|done|]. pose proof Hinv as [].
  apply NoDup_cons in ni_nodup as [Hp _]. pose proof (Forall_inv ni_out) as (? & ? & ?).
  split; try done. assert (p ∈ out n (p :: ol) (o_algorithm (obs n p))) as Hpo by (apply elem_of_out; split; [done|by left]).
  destruct (t_done (alg n (o_algorithm (obs n p)))) eqn:Ed; [|by apply Hl].
  destruct Hac. destruct (ac_done Ed) as [E _]. rewrite E in Hpo. by apply not_elem_of_nil in Hpo.
Qed.

(** A single request that is resolved. *)
Lemma single_gone n n' ol p :
  node_inv n (p :: ol) -> (forall q, q ∈ n_transactions n -> q ∈ p :: ol) -> o_kind (obs n p) <> find_data_observer ->
  touches now (o_algorithm (obs n p)) n n' [] -> alg n' (o_algorithm (obs n p)) = alg n (o_algorithm (obs n p)) -> follows n n' ol [].
Proof.
  intros Hinv Hsub Hk T Ea. pose proof Hinv as []. pose proof (Forall_inv ni_out) as (Hp & Ha & _).
  destruct (outstanding_single n (p :: ol) p Hinv) as (S1 & S2 & S3); [by left|done|].
  apply (touches_follows (o_algorithm (obs n p)) n n' [] (p :: ol) ol [p]); try done; [by apply Forall_singleton|].
  pose proof T as []. left. split; [lia|]. left. unfold single. rewrite Ea. split_and!; [done..|]. rewrite app_nil_r.
  assert (below n ol) as Hol by (by apply Forall_cons in ni_out as [_ ?]).
  rewrite (out_same now _ n n' [] ol _ T Hol). unfold below in Hol. rewrite Forall_forall in S3, Hol |- *. intros q [Hqa Hq]%elem_of_out.
  rewrite (st_kind _ _ (tc_stable q (proj1 (Hol q Hq)))). apply S3, elem_of_out. split; [done|by right].
Qed.

Lemma single_marked n ol p g :
  node_inv n (p :: ol) -> (forall q, q ∈ n_transactions n -> q ∈ p :: ol) -> o_kind (obs n p) <> find_data_observer ->
  Z.land g flag_no_id = 0 -> Z.land g flag_initial = 0 -> Z.land g flag_queried = 0 -> follows n (upd_obs p (set_flags g) n) ol [].
Proof.
  intros Hinv Hsub Hk G1 G2 G3. pose proof (ni_out _ _ Hinv) as Ho. apply Forall_inv in Ho as (Hp & _).
  apply (single_gone n _ ol p); try done. apply touches_fails; [apply touches_refl|done|done|].
  split; try done; rewrite !has_set, ?G1, ?G2, ?G3; by rewrite ?orb_false_r.
Qed.

(** ** Resolved requests *)

Lemma kept_lookup a n n' ol' : (a < n_news n')%nat -> lookup_inv n' ol' a -> kept a n n' ol'.
Proof. intros. left. auto. Qed.

Lemma timeout_follows n ol p :
  node_inv n (p :: ol) -> (forall q, q ∈ n_transactions n -> q ∈ p :: ol) -> exists new, follows n (observer_timeout env min_time now p n) ol new.
Proof.
  intros Hinv Hsub. destruct (decide (o_kind (obs n p) = find_data_observer)) as [Hk|Hk].
  - pose proof (resolving_of n ol p Hinv Hk) as Hrs. destruct (timeout_resolves env min_time now Hmalloc _ p ol n Hrs) as (new & T & L & _).
    exists new. apply (touches_follows (o_algorithm (obs n p)) n _ new (p :: ol) ol [p]); try done; [by apply Forall_singleton|].
    apply kept_lookup; [|done]. pose proof (tc_news _ _ _ _ _ T). pose proof (rs_news _ _ _ _ Hrs). lia.
  - exists []. unfold observer_timeout. destruct (has flag_done (obs n p)) eqn:Ed.
    + apply (single_gone n n ol p); try done. apply touches_refl.
    + destruct (outstanding_single n (p :: ol) p Hinv) as (_ & S2 & _); [by left|done|]. unfold failed. store. cbn [o_algorithm set_flags]. rewrite S2.
      by apply single_marked.
Qed.

Lemma grows_resolving a p ol n n' :
  resolving a p ol n -> grows now a n n' -> ordered n' a -> resolving a p ol n'.
Proof.
  intros Hrs Hg Hor. pose proof (resolving_open a p ol n Hrs) as (Hd & _ & _). destruct Hrs.
  assert (askable a (p :: ol) n) as Hak by (split; try done; apply rs_ordered).
  pose proof (grows_askable now a (p :: ol) n n' Hak Hg) as []. pose proof Hg as []. destruct gw_alg as (l & E & Hl). pose proof (Forall_inv rs_below) as (Hp & _).
  split; try done; [rewrite E; by apply Hl|]. by rewrite gw_obs.
Qed.

Lemma reply_follows n ol p r :
  node_inv n (p :: ol) -> (forall q, q ∈ n_transactions n -> q ∈ p :: ol) ->
  match r with kad2_bootstrap_res _ _ _ l | kademlia2_res _ l => Forall (fun e => hash_wf (ke_kid e)) l | _ => True end ->
  exists new, follows n (observer_reply env now p r n) ol new.
Proof.
  intros Hinv Hsub Hr. destruct (decide (o_kind (obs n p) = find_data_observer)) as [Hk|Hk].
  - pose proof (resolving_of n ol p Hinv Hk) as Hrs. set (a := o_algorithm (obs n p)) in *. unfold observer_reply. rewrite Hk.
    assert (forall n', grows now a n n' -> ordered n' a -> exists new, follows n (observer_done env now p n') ol new) as H.
    { intros n' Hg Hor. destruct (finished_resolves env now Hmalloc a p ol n') as (new & T & L & _); [by eapply grows_resolving|].
      assert (touches now a n (observer_done env now p n') new) as T' by (apply (touches_trans now a n n' _ [] new); [apply Hg|done]).
      exists new. apply (touches_follows a n _ new (p :: ol) ol [p]); try done; [by apply Forall_singleton|].
      apply kept_lookup; [|done]. pose proof (tc_news _ _ _ _ _ T'). pose proof (rs_news _ _ _ _ Hrs). lia. }
    pose proof (rs_ordered _ _ _ _ Hrs) as Hor.
    destruct r; try (apply H; [apply store_grows_refl|done]); (destruct (traverse_all_grows env now Hmalloc Hrandom a _ n Hor Hr) as [H1 H2]; by apply H).
  - exists []. assert (follows n (upd_obs p (set_flags flag_done) n) ol []) as H by (by apply single_marked).
    unfold observer_reply. by destruct (o_kind (obs n p)).
Qed.

(** ** Between two events *)

(** The outstanding requests are the transactions of the rpc manager. *)
Definition ready (n : node_impl) : Prop := node_inv n (n_transactions n) /\ sent_inv now n.

Lemma node_inv_perm n ol ol' : ol ≡ₚ ol' -> node_inv n ol -> node_inv n ol'.
Proof.
  intros Hp Hinv. rewrite <- (app_nil_r ol'). apply (node_inv_step now (n_news n) n n [] ol ol' []); try done; [apply touches_refl|].
  right. by split.
Qed.

(** What the invariant depends on. *)
Lemma node_inv_same n n' ol :
  n_search_branching n' = n_search_branching n -> n_restrict_search_ips n' = n_restrict_search_ips n ->
  n_destructing n' = n_destructing n -> n_id n' = n_id n -> n_observers n' = n_observers n -> n_algorithms n' = n_algorithms n ->
  n_mallocs n' = n_mallocs n -> n_news n' = n_news n -> n_log n' = n_log n -> table_inv (n_table n') -> node_inv n ol -> node_inv n' ol.
Proof.
  intros E1 E2 E3 E4 E5 E6 E7 E8 E9 Ht [].
  assert (forall p, obs n' p = obs n p) as Ho by (intros p; unfold obs; by rewrite E5).
  assert (forall a, alg n' a = alg n a) as Ha by (intros a; unfold alg; by rewrite E6).
  assert (forall a, out n' ol a = out n ol a) as Eo by (intros a; apply filter_agree; intros p _; by rewrite Ho).
  split; rewrite ?E3, ?E4, ?E8, ?E9; try done.
  - eapply Forall_impl; [exact ni_out|]. intros p. by rewrite Ho, E7.
  - intros a Hlt. destruct (ni_algs a Hlt) as [(S1 & S2 & S3)|(L1 & L2 & L3)]; [left|right].
    + unfold single. rewrite Ha, Eo. split_and!; [done..|]. eapply Forall_impl; [exact S3|]. intros p. by rewrite Ho.
    + split_and!.
      * apply (accounts_transfer n n' ol); rewrite ?Eo, ?E9; done.
      * apply (ordered_transfer n); rewrite ?Ha, ?E7; try done; [apply L2|]. intros p _. rewrite Ho. apply stable_refl.
      * by rewrite Ha, Eo.
Qed.

Lemma follows_ready n n' new : sent_inv now n -> follows n n' (n_transactions n) new -> ready n'.
Proof.
  intros Hs [Hinv Hm _]. split; [|by eapply moves_sent]. by rewrite (mv_trans _ _ _ Hm).
Qed.

Lemma erase_inv n i p :
  ready n -> n_transactions n !! i = Some p ->
  let n' := erase_transaction i n in node_inv n' (p :: n_transactions n') /\ sent_inv now n' /\ n_transactions n' = delete i (n_transactions n).
Proof.
  intros [Hinv [Hs Hf]] Hi. cbv zeta. split_and!; [| |done].
  - apply (node_inv_same n); try done; [by destruct Hinv|]. eapply node_inv_perm; [|exact Hinv]. by apply delete_Permutation.
  - split.
    + apply (StronglySorted_sublist _ (n_transactions n)); [apply sublist_delete|done].
    + apply (sublist_Forall _ _ (n_transactions n)); [apply sublist_delete|done].
Qed.

Lemma ready_quiet a n n' new : ready n -> quiet now a n n' new -> (n_news n' <= a)%nat -> ready n'.
Proof.
  intros [Hinv Hs] Hq Ha. apply (follows_ready n n' new Hs).
  apply (touches_follows a n n' new (n_transactions n) (n_transactions n) []); try done; [exact (q_touches _ _ _ _ _ Hq)|].
  right. split; [done|exact (q_calls _ _ _ _ _ Hq)].
Qed.

Lemma ready_table n t : ready n -> table_inv t -> ready (set_table t n).
Proof. intros [Hinv Hs] Ht. split; [by apply (node_inv_same n)|done]. Qed.

(** A new lookup that starts. *)
Lemma ready_start n n' :
  ready n -> touches now (n_news n) n n' [] -> (n_news n < n_news n')%nat -> seeded (n_news n) n' -> ready (start env min_time now (n_news n) n').
Proof.
  intros [Hinv Hs] T Hlt Hse. pose proof Hinv as [].
  destruct (start_inv env min_time now Hmalloc Hrandom (n_news n) n n' (n_transactions n)) as (new & T' & L & Hn); try done.
  apply (follows_ready n _ new Hs). apply (touches_follows (n_news n) n _ new (n_transactions n) (n_transactions n) []); try done.
  by apply kept_lookup.
Qed.

(** ** Lookups *)

(** A lookup that was created and filled in. *)
Definition created (n n' : node_impl) : Prop :=
  touches now (n_news n) n n' [] /\ (n_news n < n_news n')%nat /\ seeded (n_news n) n'.

Lemma live_entries_wf t : table_inv t -> Forall (fun x => hash_wf (fst x)) (live_entries t).
Proof.
  intros []. apply Forall_forall. intros x (e & -> & He)%list_elem_of_fmap. apply list_elem_of_bind in He as (b & He & Hb).
  apply list_elem_of_lookup in Hb as [i Hb]. specialize (inv_placed i b Hb). rewrite Forall_forall in inv_placed.
  apply (inv_placed (key e)). unfold bucket_keys, bucket_entries. apply list_elem_of_fmap_2, elem_of_app. by left.
Qed.

Lemma find_data_created target cb f st n :
  ready n -> hash_wf target -> exists n', find_data_new env now target cb f st n = (n_news n, n') /\ created n n'.
Proof.
  intros [Hinv _] Ht. pose proof Hinv as []. unfold find_data_new. set (t := traversal_new n find_data target cb f st).
  destruct (new_algorithm t n) as [a n1] eqn:E. injection E as <- E. eexists. split; [done|].
  assert (alg n1 (n_news n) = t) as Ea by (rewrite <- E; unfold alg; cbn; by rewrite lookup_total_insert_eq).
  assert (n_log n1 = n_log n /\ n_news n1 = S (n_news n) /\ n_table n1 = n_table n) as (L1 & N1 & B1) by (by rewrite <- E).
  assert (touches now (n_news n) n n1 []) as T1.
  { subst n1. split; try done; cbn [n_news n_transactions set_algorithms set_counters].
    - lia.
    - by rewrite app_nil_r.
    - apply NoDup_nil_2.
    - intros b Hb _. unfold alg. cbn. by rewrite lookup_total_insert_ne.
    - intros b Hb Hlt. lia. }
  assert (seeded (n_news n) n1) as Hse.
  { split; rewrite ?Ea, ?L1; [|apply Forall_nil_2|done|by apply ni_calls].
    split; rewrite ?Ea; cbn; try done; try apply NoDup_nil_2; try lia; [constructor|]. intros _ p q Hp. by apply not_elem_of_nil in Hp. }
  destruct (grows_seeded env now Hmalloc Hrandom (n_news n) (live_entries (n_table n1)) n1 Hse) as [Hg Hse2]; [rewrite B1; by apply live_entries_wf|].
  pose proof (gw_touches _ _ _ _ Hg) as T2. pose proof (tc_news _ _ _ _ _ T2). split_and!; [|lia|done].
  by apply (touches_trans now (n_news n) n n1 _ [] []).
Qed.

Lemma created_set n n' f :
  created n n' -> (forall t, t_kind (f t) <> plain_traversal /\ t_results (f t) = t_results t /\ t_target (f t) = t_target t /\
    t_invoke_count (f t) = t_invoke_count t /\ t_done (f t) = t_done t) -> created n (upd_alg (n_news n) f n').
Proof.
  intros (T & Hlt & []) Hf. destruct (Hf (alg n' (n_news n))) as (F1 & F2 & F3 & F4 & F5).
  split_and!; [by apply touches_alg|done|]. split; store; rewrite ?F2, ?F3, ?F4, ?F5; try done.
  by apply (ordered_transfer n'); store.
Qed.

Lemma refresh_ready id cb n : ready n -> hash_wf id -> ready (node_refresh env min_time now id cb n).
Proof.
  intros Hr Hid. unfold node_refresh, refresh_new. destruct (find_data_created id cb None 0 n Hr Hid) as (n' & -> & Hc).
  pose proof (created_set n n' (set_kind refresh) Hc) as (T & Hlt & Hse); [done|]. by apply ready_start.
Qed.

Lemma find_data_ready target cb f st n :
  ready n -> hash_wf target -> ready (let '(a, n) := find_data_new env now target cb f st n in start env min_time now a n).
Proof. intros Hr Ht. destruct (find_data_created target cb f st n Hr Ht) as (n' & -> & T & Hlt & Hse). by apply ready_start. Qed.

Lemma bootstrap_ready nodes cb n : ready n -> ready (node_bootstrap env min_time now nodes cb n).
Proof.
  intros Hr. pose proof Hr as [[] _]. unfold node_bootstrap, bootstrap_new, refresh_new.
  destruct (find_data_created (n_id n) cb None 0 n Hr ni_own) as (n' & -> & Hc). set (n1 := upd_alg _ _ (upd_alg _ _ n')).
  assert (created n n1) as (T & Hlt & Hse) by (apply created_set; [by apply created_set|done]).
  destruct (grows_seeded env now Hmalloc Hrandom (n_news n) ((fun e => (hash_clear, e)) <$> nodes) n1 Hse) as [Hg Hse2].
  { apply Forall_forall. intros x (e & -> & _)%list_elem_of_fmap. done. }
  pose proof (gw_touches _ _ _ _ Hg) as T2. pose proof (tc_news _ _ _ _ _ T2).
  apply ready_start; [done|by apply (touches_trans now (n_news n) n n1 _ [] [])|lia|done].
Qed.

Lemma add_node_ready e id n : ready n -> hash_wf id -> ready (node_add_node env now e id n).
Proof.
  intros Hr Hid. pose proof Hr as [[] _].
  destruct (node_add_node_quiet env now Hmalloc (S (n_news n)) e id n) as (new & Hq & En); [lia|done|done|].
  eapply ready_quiet; [done|exact Hq|lia].
Qed.

(** ** The rpc manager *)

Lemma unreachable_ready e n : ready n -> ready (unreachable env min_time now e n).
Proof.
  intros Hr. unfold unreachable. destruct (list_find _ _) as [[i p]|] eqn:E; [|done]. apply list_find_Some in E as (Hi & _ & _).
  destruct (erase_inv n i p Hr Hi) as (Hinv & Hs & _). set (n' := erase_transaction i n) in *.
  destruct (timeout_follows n' (n_transactions n') p Hinv) as [new H]; [intros q Hq; by right|]. by apply (follows_ready n' _ new).
Qed.

Definition reply_wf (r : kad_reply) : Prop :=
  match r with
  | kad2_hello_res kid _ _ => hash_wf kid
  | kad2_bootstrap_res kid _ _ l => hash_wf kid /\ Forall (fun e => hash_wf (ke_kid e)) l
  | kademlia2_res t l => hash_wf t /\ Forall (fun e => hash_wf (ke_kid e)) l
  | _ => True
  end.

Lemma rpc_incoming_ready r e n :
  ready n -> reply_wf r ->
  let '(id, n') := rpc_incoming env min_time now r e n in ready n' /\ match id with Some id => hash_wf id | None => True end.
Proof.
  intros Hr Hwf. unfold rpc_incoming. destruct (n_destructing n); [done|]. destruct (list_find _ _) as [[i p]|] eqn:E; [|done].
  apply list_find_Some in E as (Hi & _ & _). destruct (erase_inv n i p Hr Hi) as (Hinv & Hs & _). set (n1 := erase_transaction i n) in *.
  destruct (reply_follows n1 (n_transactions n1) p r Hinv) as [new H]; [intros q Hq; by right|destruct r; try done; by destruct Hwf|].
  pose proof (follows_ready n1 _ new Hs H) as Hr2. set (n2 := observer_reply env now p r n1) in *.
  set (id := if bool_decide _ then _ else _).
  assert (hash_wf id) as Hid.
  { unfold id. case_bool_decide; [|by destruct r]. pose proof (ni_out _ _ Hinv) as Ho. apply Forall_inv in Ho as (Hp & _ & Hpid).
    by rewrite (st_id _ _ (proj2 (fl_stable _ _ _ _ H p Hp))). }
  pose proof (add_node_inv min_time now (n_table n2) (node_entry_new id e true)) as Ht. fold (node_seen min_time now (n_table n2) id e) in Ht.
  destruct (node_seen min_time now (n_table n2) id e) as [b t]. split; [|by destruct b]. apply ready_table; [done|]. apply Ht; [|done].
  by destruct Hr2 as [[] _].
Qed.

Lemma incoming_ready r e n : ready n -> reply_wf r -> ready (node_incoming env min_time now r e n).
Proof.
  intros Hr Hwf. unfold node_incoming. pose proof (rpc_incoming_ready r e n Hr Hwf) as H.
  destruct (rpc_incoming _ _ _ _ _ _) as [[id|] n']; destruct H as [H Hid]; [by apply refresh_ready|done].
Qed.

Lemma older_split n age l : let '(old, rest) := older now n age l in l = old ++ rest.
Proof.
  induction l as [|p l IH]; cbn [older]; [done|]. destruct (_ <? age); [done|]. destruct (older now n age l) as [old rest]. cbn. by rewrite <- IH.
Qed.

Lemma timeouts_ready l n :
  node_inv n (l ++ n_transactions n) -> sent_inv now n -> ready (fold_obs (observer_timeout env min_time now) l n).
Proof.
  revert n. induction l as [|p l IH]; intros n Hinv Hs; [done|]. cbn [fold_obs fold_left].
  destruct (timeout_follows n (l ++ n_transactions n) p Hinv) as [new []]; [intros q Hq; right; apply elem_of_app; by right|].
  apply IH; [|by eapply moves_sent]. rewrite (mv_trans _ _ _ fl_moves0). by rewrite app_assoc.
Qed.

Lemma short_timeout_ready p n :
  ready n -> p ∈ n_transactions n ->
  ready (observer_short_timeout env min_time now p n) /\ exists new, moves n (observer_short_timeout env min_time now p n) new.
Proof.
  intros [Hinv Hs] Hp. destruct (decide (o_kind (obs n p) = find_data_observer)) as [Hk|Hk].
  - pose proof (outstanding_lookup n _ p Hinv Hp Hk) as L. pose proof Hinv as []. rewrite Forall_forall in ni_out. destruct (ni_out p Hp) as (? & Hlt & ?).
    destruct (short_timeout_proceeds env min_time now Hmalloc (o_algorithm (obs n p)) p (n_transactions n) n) as (new & T & L' & _); try done.
    { by apply Forall_forall. }
    split; [|exists new; by apply (touches_moves (o_algorithm (obs n p)) n _ new (n_transactions n))].
    apply (follows_ready n _ new Hs). apply (touches_follows (o_algorithm (obs n p)) n _ new (n_transactions n) (n_transactions n) []); try done.
    apply kept_lookup; [|done]. pose proof (tc_news _ _ _ _ _ T). lia.
  - destruct (outstanding_single n _ p Hinv Hp Hk) as (_ & S2 & _). unfold observer_short_timeout, failed. rewrite S2.
    assert (ready n /\ exists new, moves n n new) as H by (split; [done|exists []; apply moves_refl]). by destruct (has flag_short_timeout (obs n p)).
Qed.

Lemma short_timeouts_ready l n :
  ready n -> (forall p, p ∈ l -> p ∈ n_transactions n) ->
  ready (fold_obs (observer_short_timeout env min_time now) l n) /\ exists new, moves n (fold_obs (observer_short_timeout env min_time now) l n) new.
Proof.
  revert n. induction l as [|p l IH]; intros n Hr Hl; [split; [done|exists []; apply moves_refl]|]. cbn [fold_obs fold_left].
  destruct (short_timeout_ready p n Hr) as (H1 & new1 & M1); [apply Hl; by left|].
  destruct (IH (observer_short_timeout env min_time now p n) H1) as (H2 & new2 & M2).
  - intros q Hq. rewrite (mv_trans _ _ _ M1). apply elem_of_app. left. apply Hl. by right.
  - split; [done|]. exists (new1 ++ new2). by eapply moves_trans.
Qed.

Lemma tick_ready n : ready n -> ready (snd (rpc_tick env min_time now n)).
Proof.
  intros Hr. pose proof Hr as [Hinv [Hs Hf]]. unfold rpc_tick. destruct (n_transactions n) as [|p0 l0] eqn:El; [done|]. rewrite <- El in *. clear p0 l0 El.
  pose proof (older_split n (seconds 12) (n_transactions n)) as H1. destruct (older now n (seconds 12) (n_transactions n)) as [old rest].
  assert (ready (fold_obs (observer_timeout env min_time now) old (set_transactions rest n))) as Hr1.
  { apply timeouts_ready.
    - apply (node_inv_same n); try done; [by destruct Hinv|]. cbn [n_transactions set_transactions]. by rewrite <- H1.
    - split; cbn [n_transactions set_transactions].
      + apply (StronglySorted_sublist _ (n_transactions n)); [|done]. rewrite H1. by apply sublist_inserts_l.
      + rewrite H1 in Hf. by apply Forall_app in Hf as [_ ?]. }
  set (n1 := fold_obs _ old _) in *. pose proof (older_split n1 (seconds 2) (n_transactions n1)) as H2.
  destruct (older now n1 (seconds 2) (n_transactions n1)) as [first rest2]. cbn [snd].
  apply short_timeouts_ready; [done|]. intros p [_ Hp]%list_elem_of_filter. rewrite H2. apply elem_of_app. by left.
Qed.

(** ** Other events *)

Lemma node_tick_ready n : ready n -> ready (node_tick env min_time now n).
Proof.
  intros Hr. unfold node_tick, generate_random_id. set (n1 := set_counters _ _ _ _ n).
  assert (ready n1) as Hr1 by (apply (ready_quiet (n_news n) n n1 []); [done|apply quiet_counters; lia|done]).
  pose proof Hr1 as [[] _]. pose proof (need_refresh_inv now (env_random env (n_randoms n)) (n_table n1) ni_table) as Ht.
  destruct (need_refresh now (env_random env (n_randoms n)) (n_table n1)) as [target t] eqn:En. cbn in Ht.
  pose proof (ready_table n1 t Hr1 Ht) as Hr2. destruct target as [id|]; [|done]. apply refresh_ready; [done|].
  by apply (need_refresh_wf now (env_random env (n_randoms n)) (n_table n1) id t).
Qed.

Lemma connection_timeout_ready n : ready n -> ready (snd (connection_timeout env min_time now n)).
Proof.
  intros Hr. unfold connection_timeout. pose proof (tick_ready n Hr) as Hr1. destruct (rpc_tick env min_time now n) as [d n1]. cbn in Hr1.
  case_match; [done|]. cbn [snd]. destruct Hr1 as [Hinv Hs]. split; [|done]. apply (node_inv_same n1); try done. by destruct Hinv.
Qed.

Lemma send_ready m e fl n : ready n -> ready (snd (m_send env m e fl n)).
Proof.
  intros Hr. unfold m_send. cbn [snd]. set (n1 := set_counters _ _ _ _ n).
  assert (ready n1) as Hr1 by (apply (ready_quiet (n_news n) n n1 []); [done|apply quiet_counters; lia|done]).
  eapply (ready_quiet (n_news n) n1); [done|by apply quiet_log|done].
Qed.

Definition request_wf (r : kad_request) : Prop :=
  match r with kad2_hello_req kid _ _ => hash_wf kid | kademlia2_req _ t _ => hash_wf t | _ => True end.

Lemma incoming_request_ready r e n : ready n -> request_wf r -> ready (incoming_request env min_time now r e n).
Proof.
  intros Hr Hwf. unfold incoming_request. destruct r; try (by apply send_ready); try done.
  - by apply add_node_ready; [apply send_ready|].
  - pose proof (find_node_table min_time (n_table n) kid_target true (Z.to_nat search_type)) as Ht.
    destruct (find_node _ _ _ _ _) as [t res]. cbn in Ht. subst t. apply send_ready, ready_table; [done|]. apply inv_first_bucket. by destruct Hr as [[] _].
Qed.

Lemma add_router_ready e n : ready n -> ready (node_add_router_node e n).
Proof.
  intros Hr. apply ready_table; [done|]. destruct Hr as [[] _]. apply (table_step_inv min_time (n_table n)); [done|constructor].
Qed.

(** ** Timeouts in detail *)

Lemma older_spec n age l :
  StronglySorted (fun p q => o_sent (obs n p) <= o_sent (obs n q)) l ->
  let '(old, rest) := older now n age l in
  Forall (fun p => age <= now - o_sent (obs n p)) old /\ Forall (fun p => now - o_sent (obs n p) < age) rest.
Proof.
  intros Hs. induction Hs as [|p l _ IH Hp]; cbn [older]; [done|]. destruct (Z.ltb_spec (now - o_sent (obs n p)) age) as [H|H].
  - split; [done|]. constructor; [done|]. eapply Forall_impl; [exact Hp|]. cbv beta. lia.
  - destruct (older now n age l) as [old rest]. destruct IH as [H1 H2]. split; [by constructor|done].
Qed.

(** What a timeout may do to the lookup [a]: end it, or ask some more of its nodes. *)
Definition advanced (a : nat) (n n' : node_impl) (new : list nat) : Prop :=
  t_done (alg n' a) = true \/
  (t_done (alg n a) = false /\ t_results (alg n' a) = t_results (alg n a) /\
   forall q, q ∈ new -> o_algorithm (obs n' q) = a ->
     q ∈ t_results (alg n a) /\ has flag_queried (obs n q) = false /\ has flag_queried (obs n' q) = true).

Lemma touches_advanced a b n n' new ol :
  touches now b n n' new -> node_inv n ol -> (a < n_news n)%nat -> lookup_inv n ol a ->
  (b = a -> t_done (alg n a) = false /\ progress a n n' new) -> advanced a n n' new.
Proof.
  intros T Hinv Ha L Hp. pose proof T as []. rewrite Forall_forall in tc_new. destruct (decide (b = a)) as [->|Hne].
  - destruct (Hp eq_refl) as [Hd [?|[Hr Hin]]]; [by left|right]. split_and!; [done..|]. intros q Hq Hqa. specialize (Hin q Hq).
    destruct (tc_new q Hq) as (_ & _ & _ & _ & [(_ & Hq1 & _ & Hq2)|(_ & ? & _)]); [|done]. split_and!; [done| |done]. apply Hq2.
    destruct L as (_ & [] & _). rewrite Forall_forall in or_known. by apply or_known.
  - assert (alg n' a = alg n a) as Ea by (apply tc_algs; [congruence|done]). unfold advanced. rewrite Ea.
    destruct (t_done (alg n a)); [by left|right]. split_and!; [done..|]. intros q Hq Hqa.
    destruct (tc_new q Hq) as (_ & _ & _ & _ & [(Eb & _)|(Hge & _)]); [congruence|]. rewrite Hqa in Hge. lia.
Qed.

Lemma timeout_advanced a n ol p :
  node_inv n (p :: ol) -> (forall q, q ∈ n_transactions n -> q ∈ p :: ol) -> (a < n_news n)%nat -> t_kind (alg n a) <> plain_traversal ->
  let n' := observer_timeout env min_time now p n in
  exists new, follows n n' ol new /\ advanced a n n' new /\ (n_news n <= n_news n')%nat /\ t_kind (alg n' a) <> plain_traversal.
Proof.
  intros Hinv Hsub Ha Hk n'.
  assert (lookup_inv n (p :: ol) a) as L by (destruct Hinv; by destruct (ni_algs a Ha) as [(? & _)|?]).
  assert (exists b new, touches now b n n' new /\ follows n n' ol new /\
          (b = a -> t_done (alg n a) = false /\ progress a n n' new) /\ (b = a -> t_kind (alg n' a) <> plain_traversal)) as (b & new & T & F & P & K).
  { destruct (decide (o_kind (obs n p) = find_data_observer)) as [Hpk|Hpk].
    - pose proof (resolving_of n ol p Hinv Hpk) as Hrs. destruct (timeout_resolves env min_time now Hmalloc _ p ol n Hrs) as (new & T & Lp & Pr).
      fold n' in T, Lp, Pr. exists (o_algorithm (obs n p)), new. split_and!; [done| | |].
      + apply (touches_follows (o_algorithm (obs n p)) n _ new (p :: ol) ol [p]); try done; [by apply Forall_singleton|].
        apply kept_lookup; [|done]. pose proof (tc_news _ _ _ _ _ T). pose proof (rs_news _ _ _ _ Hrs). lia.
      + intros <-. split; [apply (resolving_open _ p ol n Hrs)|done].
      + intros <-. destruct Lp as (_ & [] & _). done.
    - assert (o_algorithm (obs n p) <> a) as Hne.
      { intros E. destruct (outstanding_single n (p :: ol) p Hinv) as (S1 & _); [by left|done|]. by rewrite E in S1. }
      exists (o_algorithm (obs n p)), []. pose proof (ni_out _ _ Hinv) as Ho. apply Forall_inv in Ho as (Hp & _).
      assert (n' = n \/ n' = upd_obs p (set_flags flag_done) n) as En.
      { destruct (outstanding_single n (p :: ol) p Hinv) as (_ & S2 & _); [by left|done|]. unfold n', observer_timeout, failed. store. cbn [o_algorithm set_flags]. rewrite S2.
        destruct (has flag_done (obs n p)); auto. }
      split_and!; [| |done..].
      + destruct En as [->| ->]; [apply touches_refl|]. apply touches_fails; [apply touches_refl|done|done|]. by split; try done; rewrite !has_set, ?orb_false_r.
      + destruct En as [->| ->]; [apply (single_gone n n ol p); try done; apply touches_refl|by apply single_marked]. }
  exists new. pose proof (tc_news _ _ _ _ _ T). split_and!; [done|by apply (touches_advanced a b n n' new (p :: ol))|done|].
  destruct (decide (b = a)) as [Hb|Hne]; [by apply K|]. by rewrite (tc_algs _ _ _ _ _ T) by (congruence || done).
Qed.

(** How far [m] is from [n] for the lookup [a]: it ended, or waits only for nodes it
    had not asked in [n]. *)
Record advancing (a : nat) (n m : node_impl) : Prop := {
  av_news : (n_news n <= n_news m)%nat;
  av_kind : t_kind (alg m a) <> plain_traversal;
  av_stable : forall p, (p < n_mallocs n)%nat -> (p < n_mallocs m)%nat /\ stable (obs n p) (obs m p);
  av_state : t_done (alg m a) = true \/
    (t_results (alg m a) = t_results (alg n a) /\
     forall q, q ∈ n_transactions m -> o_algorithm (obs m q) = a ->
       q ∈ t_results (alg n a) /\ has flag_queried (obs n q) = false /\ has flag_queried (obs m q) = true)
}.

Lemma timeouts_advancing a n l m :
  ordered n a -> (a < n_news n)%nat -> node_inv m (l ++ n_transactions m) -> advancing a n m ->
  advancing a n (fold_obs (observer_timeout env min_time now) l m) /\
  (Forall (fun p => o_sent (obs m p) = now) (n_transactions m) ->
   Forall (fun p => o_sent (obs (fold_obs (observer_timeout env min_time now) l m) p) = now) (n_transactions (fold_obs (observer_timeout env min_time now) l m))).
Proof.
  intros Hor Ha. revert m. induction l as [|p l IH]; intros m Hinv [Hn Hk Hst Hs]; [done|]. cbn [fold_obs fold_left].
  destruct (timeout_advanced a m (l ++ n_transactions m) p Hinv) as (new & F & Adv & Hnews & Hk'); [intros q Hq; right; apply elem_of_app; by right|lia|done|].
  set (m' := observer_timeout env min_time now p m) in *. pose proof F as [Finv Fm Fst]. pose proof (mv_trans _ _ _ Fm) as Et.
  assert (forall q, q ∈ n_transactions m -> (q < n_mallocs m)%nat) as Hlt.
  { intros q Hq. pose proof (ni_out _ _ Hinv) as Ho. rewrite Forall_forall in Ho. apply Ho. right. apply elem_of_app. by right. }
  assert (node_inv m' (l ++ n_transactions m')) as Hinv' by (rewrite Et, app_assoc; done).
  assert (advancing a n m') as Hav.
  { split; [lia|done| |].
    - intros q Hq. destruct (Hst q Hq) as [Hqm Hqs]. destruct (Fst q Hqm). split; [done|by eapply stable_trans].
    - destruct Hs as [Hd|[Er Hq]]; [destruct Adv as [?|(? & _)]; [by left|congruence]|]. destruct Adv as [?|(_ & Er' & Hnew)]; [by left|right].
      split; [congruence|]. intros q Hqt Hqa. rewrite Et in Hqt. apply elem_of_app in Hqt as [Hqt|Hqt].
      + pose proof (Fst q (Hlt q Hqt)) as [_ []]. destruct (Hq q Hqt) as (H1 & H2 & H3); [congruence|]. split_and!; [done..|]. by apply st_queried.
      + destruct (Hnew q Hqt Hqa) as (H1 & H2 & H3). rewrite Er in H1. split_and!; [done| |done].
        destruct Hor. rewrite Forall_forall in or_known. destruct (or_known q H1) as (Hqn & _). destruct (Hst q Hqn) as [_ []].
        destruct (has flag_queried (obs n q)); [|done]. destruct (st_queried eq_refl). congruence. }
  destruct (IH m' Hinv' Hav) as [H1 H2]. split; [done|]. intros Hsent. apply H2. rewrite Et. apply Forall_app; split; [|apply Fm].
  rewrite Forall_forall in Hsent |- *. intros q Hq. rewrite (mv_old _ _ _ Fm) by done. by apply Hsent.
Qed.

(** The nodes of a lookup that were not asked. *)
Definition unasked (n : node_impl) (a : nat) : list nat := filter (fun p => has flag_queried (obs n p) = false) (t_results (alg n a)).

Lemma advancing_unasked a n m q :
  ordered n a -> t_results (alg m a) = t_results (alg n a) -> (forall p, (p < n_mallocs n)%nat -> stable (obs n p) (obs m p)) ->
  q ∈ t_results (alg n a) -> has flag_queried (obs n q) = false -> has flag_queried (obs m q) = true ->
  (length (unasked m a) < length (unasked n a))%nat.
Proof.
  intros [] Er Hst Hq Hn Hm. unfold unasked. rewrite Er. rewrite Forall_forall in or_known.
  apply list_elem_of_split in Hq as (l1 & l2 & El). rewrite El in *. rewrite !filter_app, !length_app.
  rewrite (filter_cons_False _ q), (filter_cons_True _ q) by (done || congruence). cbn [length].
  assert (forall l, (forall p, p ∈ l -> p ∈ l1 ++ q :: l2) ->
    (length (filter (fun p => has flag_queried (obs m p) = false) l) <= length (filter (fun p => has flag_queried (obs n p) = false) l))%nat) as Hle.
  { intros l. induction l as [|p l IH]; intros Hl; [done|]. rewrite !filter_cons. specialize (IH (fun x Hx => Hl x (list_elem_of_further x p l Hx))).
    destruct (or_known p (Hl p (list_elem_of_here p l))) as (Hp & _). pose proof (Hst p Hp) as []. repeat case_decide; cbn; try lia.
    destruct (has flag_queried (obs n p)) eqn:E; [|done]. destruct (st_queried eq_refl). congruence. }
  pose proof (Hle l1 ltac:(intros p Hp; apply elem_of_app; by left)).
  pose proof (Hle l2 ltac:(intros p Hp; apply elem_of_app; right; by right)). lia.
Qed.

Lemma older_none n age l : Forall (fun p => now - o_sent (obs n p) < age) l -> older now n age l = ([], l).
Proof. destruct l as [|p l]; [done|]. intros [H _]%Forall_cons. cbn. by destruct (Z.ltb_spec (now - o_sent (obs n p)) age); [|lia]. Qed.

Lemma older_all n age l : Forall (fun p => age <= now - o_sent (obs n p)) l -> older now n age l = (l, []).
Proof.
  induction 1 as [|p l Hp _ IH]; [done|]. cbn [older]. destruct (Z.ltb_spec (now - o_sent (obs n p)) age); [lia|]. by rewrite IH.
Qed.

(** When no answer came for twelve seconds, a tick ends the lookup or asks some of
    the nodes it did not ask yet. *)
Lemma tick_advances last n a :
  node_inv n (n_transactions n) -> sent_inv last n -> last + seconds 12 <= now -> (a < n_news n)%nat -> t_kind (alg n a) <> plain_traversal ->
  let n' := snd (rpc_tick env min_time now n) in
  (n_news n <= n_news n')%nat /\ t_kind (alg n' a) <> plain_traversal /\
  (t_done (alg n' a) = true \/ (length (unasked n' a) < length (unasked n a))%nat).
Proof.
  intros Hinv [Hs Hf] Hnow Ha Hk. assert (seconds 12 = 12000000) as Es by done.
  assert (ready n) as Hr by (split; [done|split; [done|eapply Forall_impl; [exact Hf|]; cbv beta; lia]]).
  pose proof (tick_ready n Hr) as Hr'. revert Hr'. unfold rpc_tick.
  assert (lookup_inv n (n_transactions n) a) as (Hac & Hor & Hlive) by (destruct Hinv; by destruct (ni_algs a Ha) as [(? & _)|?]).
  destruct (n_transactions n) as [|p0 l0] eqn:El; [cbn; intros _; split_and!; [lia|done|left]; destruct (t_done (alg n a)); [done|by destruct (Hlive eq_refl) as [? _]]|].
  rewrite <- El in *. clear p0 l0 El. rewrite older_all by (eapply Forall_impl; [exact Hf|]; cbv beta; lia).
  set (n0 := set_transactions [] n). set (m := fold_obs (observer_timeout env min_time now) (n_transactions n) n0).
  destruct (timeouts_advancing a n (n_transactions n) n0) as [[A1 A2 A3 A4] Hsent]; [done|done| | |].
  { rewrite app_nil_r. apply (node_inv_same n); try done. by destruct Hinv. }
  { split; try done. right. split; [done|]. intros q Hq. by apply not_elem_of_nil in Hq. }
  fold m in A1, A2, A3, A4, Hsent. assert (Forall (fun p => o_sent (obs m p) = now) (n_transactions m)) as Hm by (apply Hsent; constructor).
  rewrite (older_none m (seconds 2)) by (eapply Forall_impl; [exact Hm|]; cbv beta; intros p ->; unfold seconds; lia).
  cbn [snd filter list_filter fold_obs fold_left]. intros [Hinv' _]. cbv zeta. split_and!; [done|done|].
  destruct A4 as [Hd|[Er Hq]]; [by left|]. destruct (t_done (alg m a)) eqn:Ed; [by left|right].
  pose proof Hinv' as []. destruct (ni_algs a) as [(? & _)|(_ & _ & Hlm)]; [lia|done|]. destruct (Hlm Ed) as [Ho _].
  destruct (out m (n_transactions m) a) as [|q l] eqn:Eo; [done|]. assert (q ∈ out m (n_transactions m) a) as Hqo by (rewrite Eo; by left).
  apply elem_of_out in Hqo as [Hqa Hqt]. destruct (Hq q Hqt Hqa) as (H1 & H2 & H3).
  apply (advancing_unasked a n m q); try done. intros p Hp. by apply A3.
Qed.

(** ** What a tick leaves *)

Lemma timeouts_moves l n :
  node_inv n (l ++ n_transactions n) -> exists new, moves n (fold_obs (observer_timeout env min_time now) l n) new.
Proof.
  revert n. induction l as [|p l IH]; intros n Hinv; [exists []; apply moves_refl|]. cbn [fold_obs fold_left].
  destruct (timeout_follows n (l ++ n_transactions n) p Hinv) as [new []]; [intros q Hq; right; apply elem_of_app; by right|].
  destruct (IH (observer_timeout env min_time now p n)) as [new2 H2]; [by rewrite (mv_trans _ _ _ fl_moves0), app_assoc|].
  exists (new ++ new2). by eapply moves_trans.
Qed.

Lemma tick_kept n :
  ready n ->
  let '(ret, n') := rpc_tick env min_time now n in
  Forall (fun p => now - o_sent (obs n' p) < seconds 12) (n_transactions n') /\
  filter (fun p => now - o_sent (obs n p) < seconds 12) (n_transactions n) `prefix_of` n_transactions n' /\ 0 < ret <= seconds 12.
Proof.
  intros Hr. pose proof Hr as [Hinv [Hs Hf]]. unfold rpc_tick. assert (seconds 12 = 12000000 /\ seconds 2 = 2000000) as [S12 S2] by done.
  destruct (n_transactions n) as [|p0 l0] eqn:El; [rewrite El; split_and!; [constructor|done|lia|lia]|]. rewrite <- El in *. clear p0 l0 El.
  pose proof (older_split n (seconds 12) (n_transactions n)) as H1. pose proof (older_spec n (seconds 12) _ Hs) as Hsp.
  destruct (older now n (seconds 12) (n_transactions n)) as [old rest]. destruct Hsp as [Hold Hrest]. set (n0 := set_transactions rest n).
  assert (node_inv n0 (old ++ n_transactions n0)) as Hinv0.
  { apply (node_inv_same n); try done; [by destruct Hinv|]. cbn [n_transactions set_transactions n0]. by rewrite <- H1. }
  assert (sent_inv now n0) as Hs0.
  { split; cbn [n_transactions set_transactions n0].
    - apply (StronglySorted_sublist _ (n_transactions n)); [|done]. rewrite H1. by apply sublist_inserts_l.
    - rewrite H1 in Hf. by apply Forall_app in Hf as [_ ?]. }
  pose proof (timeouts_ready old n0 Hinv0 Hs0) as Hr1. destruct (timeouts_moves old n0 Hinv0) as [new1 M1]. set (n1 := fold_obs _ old n0) in *.
  pose proof (older_split n1 (seconds 2) (n_transactions n1)) as H2. pose proof (older_spec n1 (seconds 2) _ (proj1 (proj2 Hr1))) as Hsp2.
  destruct (older now n1 (seconds 2) (n_transactions n1)) as [first rest2]. destruct Hsp2 as [_ Hrest2]. set (l := filter _ first).
  destruct (short_timeouts_ready l n1 Hr1) as (_ & new2 & M2).
  { intros p [_ Hp]%list_elem_of_filter. rewrite H2. apply elem_of_app. by left. }
  pose proof (moves_trans n0 n1 _ new1 new2 M1 M2) as [Et Eo En]. cbn [n_transactions set_transactions n0] in Et, Eo. split_and!.
  - rewrite Et. apply Forall_app; split; [|eapply Forall_impl; [exact En|]; cbv beta; intros p ->; lia].
    rewrite Forall_forall in Hrest |- *. intros p Hp. rewrite (Eo p Hp). by apply Hrest.
  - rewrite Et, H1, filter_app, (filter_nothing _ old), (filter_all _ rest); [by eexists|done|].
    eapply Forall_impl; [exact Hold|]. cbv beta. lia.
  - destruct Hr1 as [_ [_ Hf1]]. rewrite H2 in Hf1. apply Forall_app in Hf1 as [_ Hf1].
    destruct rest2 as [|q rest2]; cbn [next_timeout]; [destruct rest as [|q rest]; cbn [next_timeout]; [lia|apply Forall_inv in Hrest; lia]|apply Forall_inv in Hrest2; lia].
  - destruct Hr1 as [_ [_ Hf1]]. rewrite H2 in Hf1. apply Forall_app in Hf1 as [_ Hf1]. rewrite H1 in Hf. apply Forall_app in Hf as [_ Hf].
    destruct rest2 as [|q rest2]; cbn [next_timeout]; [destruct rest as [|q rest]; cbn [next_timeout]; [lia|apply Forall_inv in Hf; lia]|apply Forall_inv in Hf1; lia].
Qed.
End Events.
