(* ===== verification/DhtTheorems.v ===== *)
(** * The Kademlia node: theorems

    Runs of the node: any sequence of calls, datagrams, timeouts and ticks.  The
    lookups account for their requests, end, and report the nodes closest to
    their target; the routing table stays well formed. *)

From S2P Require Import Prelude Archive Md4Hash Bitfield KadId RoutingTable RoutingTableInv RoutingTableProps Dht DhtInv DhtSteps DhtEntries DhtNode.
From stdpp Require Import gmap sorting.
Open Scope Z_scope.

(** ** Runs *)

(** What [dht_tracker] calls. *)
Inductive dht_event :=
| do_refresh (id : node_id)
| do_bootstrap (nodes : list endpoint)
| do_announce (info_hash : node_id) (listen_port : Z) (f : option nat)
| do_search_keywords (info_hash : node_id) (listen_port : Z) (f : option nat)
| do_search_sources (info_hash : node_id) (listen_port size : Z) (f : option nat)
| do_add_node (node : endpoint) (id : node_id)
| do_add_router_node (router : endpoint)
| do_tick
| do_connection_timeout
| do_unreachable (e : endpoint)
| do_incoming (r : kad_reply) (from : endpoint)
| do_incoming_request (r : kad_request) (from : endpoint).

Definition event_wf (e : dht_event) : Prop :=
  match e with
  | do_refresh id | do_announce id _ _ | do_search_keywords id _ _ | do_search_sources id _ _ _ | do_add_node _ id => hash_wf id
  | do_incoming r _ => reply_wf r
  | do_incoming_request r _ => request_wf r
  | _ => True
  end.

Section Runs.
Context (env : environment) (min_time : Z).

Definition handle (now : Z) (e : dht_event) (n : node_impl) : node_impl :=
  match e with
  | do_refresh id => node_refresh env min_time now id nop n
  | do_bootstrap nodes => node_bootstrap env min_time now nodes nop n
  | do_announce ih port f => node_announce env min_time now ih port f n
  | do_search_keywords ih port f => node_search_keywords env min_time now ih port f n
  | do_search_sources ih port size f => node_search_sources env min_time now ih port size f n
  | do_add_node e id => node_add_node env now e id n
  | do_add_router_node e => node_add_router_node e n
  | do_tick => node_tick env min_time now n
  | do_connection_timeout => snd (connection_timeout env min_time now n)
  | do_unreachable e => unreachable env min_time now e n
  | do_incoming r e => node_incoming env min_time now r e n
  | do_incoming_request r e => incoming_request env min_time now r e n
  end.

Fixpoint run (events : list (Z * dht_event)) (n : node_impl) : node_impl :=
  match events with
  | [] => n
  | (now, e) :: events => run events (handle now e n)
  end.

(** The times of the events do not decrease, from [last] on. *)
Fixpoint timely (last : Z) (events : list (Z * dht_event)) : Prop :=
  match events with
  | [] => True
  | (now, e) :: events => last <= now /\ event_wf e /\ timely now events
  end.

Definition last_time (last : Z) (events : list (Z * dht_event)) : Z := fold_left (fun _ x => fst x) events last.

Context (Hmalloc : forall k, env_malloc env k = true) (Hrandom : forall k, hash_wf (env_random env k)).

Lemma handle_ready now e n : ready now n -> event_wf e -> ready now (handle now e n).
Proof.
  intros Hr Hwf. destruct e; cbn [handle].
  - by apply refresh_ready.
  - by apply bootstrap_ready.
  - by apply find_data_ready.
  - by apply find_data_ready.
  - by apply find_data_ready.
  - by apply add_node_ready.
  - by apply add_router_ready.
  - by apply node_tick_ready.
  - by apply connection_timeout_ready.
  - by apply unreachable_ready.
  - by apply incoming_ready.
  - by apply incoming_request_ready.
Qed.

Lemma ready_later now now' n : now <= now' -> ready now n -> ready now' n.
Proof. intros Hle [Hinv [Hs Hf]]. split; [done|]. split; [done|]. eapply Forall_impl; [exact Hf|]. cbv beta. lia. Qed.

Lemma run_ready events last n : ready last n -> timely last events -> ready (last_time last events) (run events n).
Proof.
  revert last n. induction events as [|[now e] events IH]; intros last n Hr Ht; [done|]. destruct Ht as (Hle & Hwf & Ht).
  cbn [run]. apply (IH now); [|done]. apply handle_ready; [by eapply ready_later|done].
Qed.

Lemma run_snoc events now e n : run (events ++ [(now, e)]) n = handle now e (run events n).
Proof. revert n. induction events as [|[now0 e0] events IH]; intros n; [done|]. apply IH. Qed.

Lemma last_time_snoc last events now e : last_time last (events ++ [(now, e)]) = now.
Proof. unfold last_time. by rewrite fold_left_app. Qed.

Lemma timely_snoc last events now e : timely last events -> last_time last events <= now -> event_wf e -> timely last (events ++ [(now, e)]).
Proof.
  revert last. induction events as [|[now0 e0] events IH]; intros last; [done|]. intros (? & ? & ?) ? ?. split_and!; [done..|]. by apply IH.
Qed.

Lemma generate_id_wf crc32c random ip r : hash_wf (generate_id_impl crc32c random ip r).
Proof. done. Qed.

Lemma new_ready now sb restrict mf ext crc32c random r nid port :
  hash_wf nid -> ready now (node_new min_time now sb restrict (Settings true mf) ext crc32c random r nid port).
Proof.
  intros Hid. unfold node_new. cbv zeta. match goal with |- context [routing_table_new _ ?i _ _] => set (id := i) end.
  assert (hash_wf id) as Hw by (unfold id; case_match; [apply generate_id_wf|done]).
  split; [split|]; cbn; try done; try lia; [|apply NoDup_nil_2|split; [constructor|done]]. by apply new_table_inv; [|lia].
Qed.
End Runs.

(** Memory does not run out, and random identifiers are identifiers. *)
Definition env_ok (env : environment) : Prop := (forall k, env_malloc env k = true) /\ (forall k, hash_wf (env_random env k)).

(** The states at time [last] of a node created with [restrict_routing_ips] on, after
    any events. *)
Definition node_reached (env : environment) (min_time last : Z) (n : node_impl) : Prop :=
  exists sb restrict mf ext crc32c random r nid port now0 events,
    hash_wf nid /\ timely now0 events /\ last = last_time now0 events /\
    n = run env min_time events (node_new min_time now0 sb restrict (Settings true mf) ext crc32c random r nid port).

Lemma reached_ready env min_time last n : env_ok env -> node_reached env min_time last n -> ready last n.
Proof.
  intros [Hm Hr] (sb & restrict & mf & ext & crc & rnd & r & nid & port & now0 & events & Hid & Ht & -> & ->).
  apply run_ready; [done..| |done]. by apply new_ready.
Qed.

Lemma ready_lookup last n a :
  ready last n -> (a < n_news n)%nat -> t_kind (alg n a) <> plain_traversal -> lookup_inv n (n_transactions n) a.
Proof. intros [[] _] Ha Hk. by destruct (ni_algs a Ha) as [(? & _)|?]. Qed.

(** ** Requests *)

(** The outstanding requests of the lookup [a], and those of them that had their
    first timeout. *)
Definition outstanding (n : node_impl) (a : nat) : list nat := filter (fun p => o_algorithm (obs n p) = a) (n_transactions n).
Definition first_timeouts (n : node_impl) (a : nat) : list nat := filter (fun p => has flag_short_timeout (obs n p) = true) (outstanding n a).

(** C11: in every state a node reaches, [m_invoke_count] of a lookup is the number
    of its requests the rpc manager waits for, and [m_branch_factor] is the
    configured number of simultaneous requests plus one for each request that had
    its first timeout, so that at most the configured number of requests without a
    timeout are under way.  A lookup called the function it was given exactly once
    if it is done and never before; it is done exactly if it waits for nothing. *)
Theorem lookups_accounted env min_time last n a :
  env_ok env -> node_reached env min_time last n -> (a < n_news n)%nat -> t_kind (alg n a) <> plain_traversal ->
  t_invoke_count (alg n a) = Z.of_nat (length (outstanding n a)) /\
  t_branch_factor (alg n a) = n_search_branching n + Z.of_nat (length (first_timeouts n a)) /\
  Z.of_nat (length (outstanding n a)) - Z.of_nat (length (first_timeouts n a)) <= Z.max 0 (n_search_branching n) /\
  calls a (n_log n) = (if t_done (alg n a) then 1%nat else 0%nat) /\
  (t_done (alg n a) = true <-> outstanding n a = []).
Proof.
  intros He Hn Ha Hk. destruct (ready_lookup last n a (reached_ready _ _ _ _ He Hn) Ha Hk) as ([] & _ & Hl).
  split_and!; try done. split; [intros Hd; by apply ac_done|]. intros E. destruct (t_done (alg n a)); [done|]. by destruct (Hl eq_refl).
Qed.

(** ** The nodes of a lookup *)

(** The nodes a lookup knows are ordered by the distance of their identifiers to
    the target and at most a hundred; no two of them that told their identifier
    have the same one; and with [restrict_search_ips] no two of them are within 4
    bits of IPv4 address of each other unless both were there when the lookup
    started. *)
Theorem lookup_nodes_ordered env min_time last n a :
  env_ok env -> node_reached env min_time last n -> (a < n_news n)%nat -> t_kind (alg n a) <> plain_traversal ->
  let l := t_results (alg n a) in
  StronglySorted (fun p q => value (distance (o_id (obs n p)) (t_target (alg n a))) <= value (distance (o_id (obs n q)) (t_target (alg n a)))) l /\
  (length l <= 100)%nat /\
  NoDup ((fun p => o_id (obs n p)) <$> filter (fun p => has flag_no_id (obs n p) = false) l) /\
  (n_restrict_search_ips n = true -> forall p q, p ∈ l -> q ∈ l -> p <> q ->
     4 < cidr_distance (target_addr (obs n p)) (target_addr (obs n q)) \/
     (has flag_initial (obs n p) = true /\ has flag_initial (obs n q) = true)).
Proof.
  intros He Hn Ha Hk. destruct (ready_lookup last n a (reached_ready _ _ _ _ He Hn) Ha Hk) as (_ & [] & _).
  split_and!; try done. intros Hr p q Hp Hq Hne. destruct (or_apart Hr p q Hp Hq Hne) as [H|H]; [left|by right].
  unfold search_compare_ip_cidr in H. by apply Z.leb_gt in H.
Qed.

(** The routing table of a node is well formed in every state the node reaches,
    whatever lookups, answers and failures changed it. *)
Theorem dht_table_invariant env min_time last n :
  env_ok env -> node_reached env min_time last n -> table_inv (n_table n).
Proof. intros He Hn. by destruct (reached_ready _ _ _ _ He Hn) as [[] _]. Qed.

(** ** Timeouts *)

(** [rpc_manager::tick] gives up exactly the requests that were sent twelve
    seconds ago or earlier: those that are left are younger, those that were
    younger are left, in their order, and the time it returns to be called again is
    positive and at most twelve seconds. *)
Theorem tick_expires env min_time last now n :
  env_ok env -> node_reached env min_time last n -> last <= now ->
  let '(ret, n') := rpc_tick env min_time now n in
  Forall (fun p => now - o_sent (obs n' p) < seconds 12) (n_transactions n') /\
  filter (fun p => now - o_sent (obs n p) < seconds 12) (n_transactions n) `prefix_of` n_transactions n' /\
  0 < ret <= seconds 12.
Proof.
  intros He Hn Hle. pose proof (ready_later last now n Hle (reached_ready _ _ _ _ He Hn)) as Hr. destruct He as [Hm Hrnd].
  pose proof (tick_kept env min_time now Hm n Hr) as H. by destruct (rpc_tick env min_time now n).
Qed.

(** The node is only called back by its timer, at [times]. *)
Definition unanswered (times : list Z) : list (Z * dht_event) := (fun t => (t, do_connection_timeout)) <$> times.

(** The times are twelve seconds apart, from [last] on. *)
Fixpoint spaced (last : Z) (times : list Z) : Prop :=
  match times with [] => True | t :: times => last + seconds 12 <= t /\ spaced t times end.

Lemma unanswered_ends env min_time times last n a k :
  env_ok env -> ready last n -> (a < n_news n)%nat -> t_kind (alg n a) <> plain_traversal -> spaced last times ->
  (length (unasked n a) <= k)%nat -> (k < length times)%nat ->
  let n' := run env min_time (unanswered times) n in t_done (alg n' a) = true /\ calls a (n_log n') = 1%nat.
Proof.
  intros He Hr Ha Hk Hsp. revert k last n Hr Ha Hk Hsp. induction times as [|t times IH]; intros k last n Hr Ha Hk Hsp Hle Hlt; [cbn in Hlt; lia|].
  destruct Hsp as [Ht Hsp]. pose proof He as [Hm Hrnd]. assert (seconds 12 = 12000000) as Es by done. pose proof Hr as [Hinv Hs].
  assert (ready t n) as Hrt by (apply (ready_later last); [lia|done]).
  pose proof (connection_timeout_ready env min_time t Hm n Hrt) as Hr'. pose proof (tick_advances env min_time t Hm last n a Hinv Hs Ht Ha Hk) as Hadv.
  cbn [unanswered fmap list_fmap run handle]. set (n' := snd (connection_timeout env min_time t n)) in *.
  assert (n_news n' = n_news (snd (rpc_tick env min_time t n)) /\ alg n' a = alg (snd (rpc_tick env min_time t n)) a /\
          unasked n' a = unasked (snd (rpc_tick env min_time t n)) a) as (E1 & E2 & E3).
  { unfold n', connection_timeout. destruct (rpc_tick env min_time t n) as [d m]. by case_match. }
  cbv zeta in Hadv. rewrite <- E1, <- E2, <- E3 in Hadv. destruct Hadv as (H1 & H2 & H3).
  assert (a < n_news n')%nat as Ha' by lia. destruct (ready_lookup t n' a Hr' Ha' H2) as ([] & _ & _).
  destruct (decide (t_done (alg n' a) = true)) as [Hd|Hnd].
  - assert (length (unasked n' a) = 0)%nat as H0 by (unfold unasked; by destruct (ac_done Hd) as [_ ->]).
    destruct times as [|t2 times]; [cbn; by rewrite ac_calls, Hd|]. apply (IH 0%nat t); try done; [lia|cbn; lia].
  - destruct H3 as [?|H3]; [done|]. apply (IH (k - 1)%nat t); try done; [lia|]. cbn in Hlt. lia.
Qed.

(** C12: a lookup ends, even if nobody answers any more: after the timer of the node
    went off 101 times, twelve seconds apart, it is done and has called the
    function it was given once.  A lookup knows at most a hundred nodes and every
    twelve seconds asks another one or ends. *)
Theorem lookup_ends env min_time last n a times :
  env_ok env -> node_reached env min_time last n -> (a < n_news n)%nat -> t_kind (alg n a) <> plain_traversal ->
  spaced last times -> (101 <= length times)%nat ->
  let n' := run env min_time (unanswered times) n in t_done (alg n' a) = true /\ calls a (n_log n') = 1%nat.
Proof.
  intros He Hn Ha Hk Hsp Hlen. pose proof (reached_ready _ _ _ _ He Hn) as Hr.
  destruct (ready_lookup last n a Hr Ha Hk) as (_ & [] & _). apply (unanswered_ends env min_time times last n a 100); try done.
  unfold unasked. etrans; [apply length_filter|done].
Qed.

(** ** What a lookup reports *)

(** The log only grows. *)
Lemma rpc_invoke_log env now r e o n ev : ev ∈ n_log n -> ev ∈ n_log (snd (rpc_invoke env now r e o n)).
Proof.
  intros H. unfold rpc_invoke, m_send. destruct (n_destructing n); [done|]. destruct o, (env_send env _); cbn; by right.
Qed.

Lemma callback_log env now cb v n ev : ev ∈ n_log n -> ev ∈ n_log (call_nodes_callback env now cb v n).
Proof.
  intros H. destruct cb; cbn [call_nodes_callback]; [done| | |].
  - destruct (dummy_algorithm n) as [a n'] eqn:E. assert (ev ∈ n_log n') as H' by (by injection E as _ <-). clear H E. revert n' H'.
    induction v as [|e v IH]; intros n' H'; cbn [announce_requests]; [done|]. unfold allocate_observer. destruct (env_malloc env _); [|done].
    by apply IH, rpc_invoke_log.
  - revert n H. induction v as [|e v IH]; intros n H; [done|]. by apply IH, rpc_invoke_log.
  - revert n H. induction v as [|e v IH]; intros n H; [done|]. by apply IH, rpc_invoke_log.
Qed.

Lemma StronglySorted_app_le {A} (R : A -> A -> Prop) l1 l2 x y : StronglySorted R (l1 ++ l2) -> x ∈ l1 -> y ∈ l2 -> R x y.
Proof.
  induction l1 as [|z l1 IH]; intros Hs Hx Hy; [by apply not_elem_of_nil in Hx|]. inversion Hs as [|? ? Hs' Hz]; subst.
  apply elem_of_cons in Hx as [->|Hx]; [|by apply IH]. rewrite Forall_forall in Hz. apply Hz, elem_of_app. by right.
Qed.

Lemma ordered_idle n a : ordered n a -> ordered (upd_alg a (set_invoke_count 0) n) a.
Proof. intros Ho. apply (ordered_transfer n); store; try done. apply Ho. Qed.

(** What [find_data::done] hands over, of the nodes of a lookup in their order. *)
Lemma done_hands_over env now n a :
  ordered n a -> t_invoke_count (alg n a) = 0 ->
  let k := m_bucket_size (n_table n) in
  ev_nodes a (t_nodes_callback (alg n a)) (report n <$> take k (candidates n a)) (t_got_peers (alg n a)) ∈ n_log (find_data_done env now a n) /\
  (forall p q, p ∈ take k (candidates n a) -> q ∈ candidates n a -> q ∉ take k (candidates n a) -> dist n a p <= dist n a q).
Proof.
  intros [] Hc k.
  assert (StronglySorted (fun p q => dist n a p <= dist n a q) (candidates n a)) as Hs.
  { eapply StronglySorted_sublist; [|exact or_sorted]. apply sublist_filter. }
  split_and!.
  - unfold find_data_done. rewrite Hc. cbn [negb Z.eqb]. set (n1 := upd_alg a (set_done true) n).
    assert (alg n1 a = set_done true (alg n a)) as E1 by apply alg_upd_eq. rewrite E1. cbn [t_nodes_callback t_got_peers t_data_callback t_results t_target set_done].
    rewrite collect_results_take.
    match goal with |- ?e ∈ n_log (traversal_done a ?m) => change (e ∈ n_log m) end.
    destruct (t_data_callback (alg n a)); [right|]; apply callback_log; by left.
  - intros p q Hp Hq Hnq. apply (StronglySorted_app_le (fun p q => dist n a p <= dist n a q) (take k (candidates n a)) (drop k (candidates n a))); [by rewrite take_drop|done|].
    rewrite <- (take_drop k (candidates n a)) in Hq. by apply elem_of_app in Hq as [?|?].
Qed.

(** C13: in every state a node reaches, each list of nodes a lookup has handed over is
    ordered by the distance to its target, the closest first.  A lookup that ends, that
    is, one whose [done] is called when it has nothing more to wait for, hands over, of
    its nodes that were asked and whose identifiers are known, as many as a bucket
    holds, or all there are, and none of the others is closer than one of these. *)
Theorem found_nodes_closest env min_time last n a :
  env_ok env -> node_reached env min_time last n -> (a < n_news n)%nat -> t_kind (alg n a) <> plain_traversal ->
  (forall cb v got, ev_nodes a cb v got ∈ n_log n -> by_distance (t_target (alg n a)) v) /\
  (forall now, let m := upd_alg a (set_invoke_count 0) n in let found := take (m_bucket_size (n_table n)) (candidates n a) in
   ev_nodes a (t_nodes_callback (alg n a)) (report n <$> found) (t_got_peers (alg n a)) ∈ n_log (find_data_done env now a m) /\
   by_distance (t_target (alg n a)) (report n <$> found) /\
   forall p q, p ∈ found -> q ∈ candidates n a -> q ∉ found -> dist n a p <= dist n a q).
Proof.
  intros He Hn Ha Hk. destruct (ready_lookup last n a (reached_ready _ _ _ _ He Hn) Ha Hk) as (Hac & Ho & _). split.
  - intros cb v got Hev. pose proof (ac_nearest _ _ _ Hac) as Hall. rewrite Forall_forall in Hall. apply (Hall (ev_nodes a cb v got)).
    apply list_elem_of_filter. split; [cbn; by rewrite Nat.eqb_refl|done].
  - intros now m found. assert (alg m a = set_invoke_count 0 (alg n a)) as Em by (unfold m; by store).
    assert (candidates m a = candidates n a) as Ec by (unfold candidates; by rewrite Em).
    destruct (done_hands_over env now m a) as [H1 H2]; [by apply ordered_idle|by rewrite Em|]. rewrite Ec, Em in *. split_and!.
    + exact H1.
    + unfold found, candidates. rewrite <- collect_results_take. by apply (collect_results_sorted n a), Ho.
    + intros p q Hp Hq Hnq. pose proof (H2 p q Hp Hq Hnq) as H. unfold dist in *. by rewrite Em in H.
Qed.

(** ** Answers *)

(** An answer nobody waits for changes nothing: unless an outstanding request
    with the transaction identifier of the answer was sent to its address (and, for
    [kademlia2_res], about its target), the node stays as it was. *)
Theorem unasked_answer_ignored env min_time now r from n :
  (forall p, p ∈ n_transactions n ->
     o_transaction_id (obs n p) <> reply_identifier r \/ target_addr (obs n p) <> fst from \/ o_packet_id (obs n p) <> packet_kad_identifier r) ->
  node_incoming env min_time now r from n = n.
Proof.
  intros Hp. unfold node_incoming, rpc_incoming. destruct (n_destructing n); [done|].
  destruct (list_find _ _) as [[i p]|] eqn:E; [|done]. exfalso. apply list_find_Some in E as (Hi & Hm & _).
  unfold transaction_matches in Hm. apply andb_prop_elim in Hm as [Hm H3%bool_decide_spec]. apply andb_prop_elim in Hm as [H1 H2%bool_decide_spec].
  apply Is_true_true, Z.eqb_eq in H1. apply list_elem_of_lookup_2 in Hi. destruct (Hp p Hi) as [?|[?|?]]; congruence.
Qed.

(** the answer this node itself gives to a [kademlia2_req] carries the zero
    identifier instead of the target, since [incoming_request] does not set
    [kid_target]; so a node of the same implementation that sent the request drops
    the answer, unless it searched for the zero identifier. *)
Theorem own_answer_dropped env min_time now search_type target receiver from n b_env b_now b :
  (forall p, p ∈ n_transactions n -> o_transaction_id (obs n p) = request_identifier (kademlia2_req search_type target receiver) ->
     o_packet_id (obs n p) <> hash_clear) ->
  exists res, n_log (incoming_request b_env min_time b_now (kademlia2_req search_type target receiver) from b) =
      ev_send (reply_message (kademlia2_res hash_clear res)) from 0 :: n_log b /\
    forall e, node_incoming env min_time now (kademlia2_res hash_clear res) e n = n.
Proof.
  intros Hp. unfold incoming_request. destruct (find_node min_time (n_table b) target true (Z.to_nat search_type)) as [t res].
  exists (entry_to_emule b_env <$> res). split; [done|]. intros e. unfold node_incoming, rpc_incoming. destruct (n_destructing n); [done|].
  destruct (list_find _ _) as [[i p]|] eqn:E; [|done]. exfalso. apply list_find_Some in E as (Hi & Hm & _).
  unfold transaction_matches in Hm. apply andb_prop_elim in Hm as [Hm H3%bool_decide_spec]. apply andb_prop_elim in Hm as [H1 _].
  apply Is_true_true, Z.eqb_eq in H1. apply list_elem_of_lookup_2 in Hi. cbn in H1, H3. by apply (Hp p Hi).
Qed.

(** ** A sample run *)

Definition sample_peer (b : Z) : node_id := Hash (z2b b :: replicate 15 (z2b 1)).
Definition sample_at (b : Z) : endpoint := (z2b <$> [b; b; 0; 1], 4672).

(** Every datagram is sent. *)
Definition sample_env : environment :=
  Env (fun _ => true) (fun _ => true) (fun k => Hash (z2b (Z.of_nat k + 77) :: replicate 15 (z2b 7))) (0, 0).

(** The node starts with four nodes it was told of and finds two more in the answer
    of one of them. *)
Definition sample_events : list (Z * dht_event) :=
  [(100, do_bootstrap (sample_at <$> [1; 2; 3; 4]));
   (200, do_incoming (kad2_bootstrap_res (sample_peer 5) 4662 5 [KadEntry (sample_peer 9) 33 4672 4662 5; KadEntry (sample_peer 10) 330000000 4672 4662 5])
           (sample_at 2))].

Definition sample_run (events : list (Z * dht_event)) : node_impl :=
  run sample_env 0 events (node_new 0 100 3 true (Settings true 20) (z2b <$> [127; 0; 0; 1]) (fun _ => 0) (fun _ => 0) 0 (sample_peer 200) 4662).

Lemma sample_env_ok : env_ok sample_env.
Proof. by split. Qed.

Lemma sample_reached events : timely 100 events -> node_reached sample_env 0 (last_time 100 events) (sample_run events).
Proof.
  intros Ht. exists 3, true, 20, (z2b <$> [127; 0; 0; 1]), (fun _ => 0), (fun _ => 0), 0, (sample_peer 200), 4662, 100, events. split_and!; done.
Qed.

Lemma sample_timely : timely 100 sample_events.
Proof. cbn. split_and!; try done; try lia; repeat constructor. Qed.

Lemma lookups_accounted_witness :
  exists n, node_reached sample_env 0 200 n /\ length (outstanding n 0) = 3%nat /\
    t_invoke_count (alg n 0) = Z.of_nat (length (outstanding n 0)) /\ calls 0 (n_log n) = 0%nat.
Proof.
  exists (sample_run sample_events). pose proof (sample_reached sample_events sample_timely) as Hn.
  assert (0 < n_news (sample_run sample_events))%nat as H0 by (vm_compute; lia).
  assert (t_kind (alg (sample_run sample_events) 0) <> plain_traversal) as Hk by (vm_compute; discriminate).
  destruct (lookups_accounted sample_env 0 200 (sample_run sample_events) 0 sample_env_ok Hn H0 Hk) as (H1 & _ & _ & H4 & _).
  split_and!; [exact Hn|vm_compute; reflexivity|exact H1|exact H4].
Defined.

Lemma lookup_nodes_ordered_witness :
  exists n, node_reached sample_env 0 200 n /\ t_results (alg n 0) = [0; 1; 2; 3; 4; 5]%nat /\
    StronglySorted (fun p q => value (distance (o_id (obs n p)) (t_target (alg n 0))) <= value (distance (o_id (obs n q)) (t_target (alg n 0)))) (t_results (alg n 0)).
Proof.
  exists (sample_run sample_events). pose proof (sample_reached sample_events sample_timely) as Hn.
  assert (0 < n_news (sample_run sample_events))%nat as H0 by (vm_compute; lia).
  assert (t_kind (alg (sample_run sample_events) 0) <> plain_traversal) as Hk by (vm_compute; discriminate).
  destruct (lookup_nodes_ordered sample_env 0 200 (sample_run sample_events) 0 sample_env_ok Hn H0 Hk) as (H1 & _).
  split_and!; [exact Hn|vm_compute; reflexivity|exact H1].
Defined.

Lemma dht_table_invariant_witness :
  exists n, node_reached sample_env 0 200 n /\ length (m_buckets (n_table n)) = 1%nat /\ table_inv (n_table n).
Proof.
  exists (sample_run sample_events). pose proof (sample_reached sample_events sample_timely) as Hn.
  pose proof (dht_table_invariant sample_env 0 200 (sample_run sample_events) sample_env_ok Hn) as H.
  split_and!; [exact Hn|vm_compute; reflexivity|exact H].
Defined.

Lemma tick_expires_witness :
  exists n, node_reached sample_env 0 200 n /\ length (n_transactions n) = 3%nat /\
    let '(ret, n') := rpc_tick sample_env 0 12000150 n in 0 < ret <= seconds 12.
Proof.
  exists (sample_run sample_events). pose proof (sample_reached sample_events sample_timely) as Hn.
  assert (200 <= 12000150) as Hle by lia. pose proof (tick_expires sample_env 0 200 12000150 (sample_run sample_events) sample_env_ok Hn Hle) as H.
  split_and!; [exact Hn|vm_compute; reflexivity|]. destruct (rpc_tick sample_env 0 12000150 (sample_run sample_events)) as [ret n']. exact (proj2 (proj2 H)).
Defined.

Definition sample_times : list Z := (fun k => 200 + 12000000 * Z.of_nat k) <$> seq 1 101.

Lemma lookup_ends_witness :
  exists n times, node_reached sample_env 0 200 n /\ length times = 101%nat /\
    t_done (alg n 0) = false /\ t_done (alg (run sample_env 0 (unanswered times) n) 0) = true.
Proof.
  exists (sample_run sample_events), sample_times. pose proof (sample_reached sample_events sample_timely) as Hn.
  assert (0 < n_news (sample_run sample_events))%nat as H0 by (vm_compute; lia).
  assert (t_kind (alg (sample_run sample_events) 0) <> plain_traversal) as Hk by (vm_compute; discriminate).
  assert (spaced 200 sample_times) as Hs by (vm_compute; repeat (split; [discriminate|]); exact I).
  assert (101 <= length sample_times)%nat as Hl by (vm_compute; lia).
  destruct (lookup_ends sample_env 0 200 (sample_run sample_events) 0 sample_times sample_env_ok Hn H0 Hk Hs Hl) as [H1 _].
  split_and!; [exact Hn|reflexivity|vm_compute; reflexivity|exact H1].
Defined.

(** The sample run, and nobody answering from then on. *)
Definition sample_over : list (Z * dht_event) := sample_events ++ unanswered (take 5 sample_times).

Lemma sample_over_timely : timely 100 sample_over.
Proof. cbn. split_and!; try done; try lia; repeat constructor. Qed.

Lemma found_nodes_closest_witness :
  exists cb v got, length v = 2%nat /\ ev_nodes 0 cb v got ∈ n_log (sample_run sample_over) /\ by_distance (t_target (alg (sample_run sample_over) 0)) v.
Proof.
  pose proof (sample_reached sample_over sample_over_timely) as Hn. assert (0 < n_news (sample_run sample_over))%nat as H0 by (vm_compute; lia).
  assert (t_kind (alg (sample_run sample_over) 0) <> plain_traversal) as Hk by (vm_compute; discriminate).
  destruct (found_nodes_closest sample_env 0 _ (sample_run sample_over) 0 sample_env_ok Hn H0 Hk) as [H _].
  assert (exists cb v got, find (is_call 0) (n_log (sample_run sample_over)) = Some (ev_nodes 0 cb v got) /\ length v = 2%nat) as (cb & v & got & Hf & Hl)
    by (vm_compute; do 3 eexists; split; reflexivity).
  apply find_some in Hf as [Hf _]. apply list_elem_of_In in Hf. exists cb, v, got. split_and!; [exact Hl|exact Hf|exact (H cb v got Hf)].
Defined.

Lemma unasked_answer_ignored_witness :
  length (n_transactions (sample_run sample_events)) = 3%nat /\
  node_incoming sample_env 0 300 (kad2_pong 4672) (sample_at 1) (sample_run sample_events) = sample_run sample_events.
Proof.
  split; [vm_compute; reflexivity|]. apply unasked_answer_ignored. intros p Hp. left.
  assert (forallb (fun p => negb (o_transaction_id (obs (sample_run sample_events) p) =? 112)) (n_transactions (sample_run sample_events)) = true) as H
    by (vm_compute; reflexivity).
  rewrite forallb_forall in H. specialize (H p (proj1 (list_elem_of_In _ _) Hp)). by apply negb_true_iff, Z.eqb_neq in H.
Defined.

(** A search for sources asks the node of the routing table. *)
Definition sample_search : list (Z * dht_event) :=
  [(100, do_add_node (sample_at 1) (sample_peer 40)); (101, do_incoming (kad2_pong 4672) (sample_at 1));
   (102, do_search_sources (sample_peer 7) 4662 1000 None)].

Lemma own_answer_dropped_witness :
  exists p, p ∈ n_transactions (sample_run sample_search) /\ o_transaction_id (obs (sample_run sample_search) p) = 108 /\
    exists res, forall e, node_incoming sample_env 0 103 (kademlia2_res hash_clear res) e (sample_run sample_search) = sample_run sample_search.
Proof.
  assert (forallb (fun p => negb (o_transaction_id (obs (sample_run sample_search) p) =? 108) || bool_decide (o_packet_id (obs (sample_run sample_search) p) <> hash_clear))
    (n_transactions (sample_run sample_search)) = true) as H by (vm_compute; reflexivity).
  destruct (own_answer_dropped sample_env 0 103 KADEMLIA_FIND_NODE (sample_peer 7) (sample_peer 40) (sample_at 9) (sample_run sample_search)
    sample_env 103 (sample_run [])) as (res & _ & Hres).
  { intros p Hp Ht. rewrite forallb_forall in H. specialize (H p (proj1 (list_elem_of_In _ _) Hp)). 
    apply orb_true_iff in H as [H|H]; [|by apply bool_decide_eq_true in H]. apply negb_true_iff, Z.eqb_neq in H. exact (False_ind _ (H Ht)). }
  exists 1%nat. split_and!; [vm_compute; repeat constructor|vm_compute; reflexivity|]. exists res. exact Hres.
Defined.

(** The constructor of [find_data] calls [done] when an observer cannot be allocated,
    and [start] goes on as if nothing had happened: the function the lookup was
    given is called twice. *)
Definition no_memory_env : environment := Env (fun _ => false) (fun _ => true) (env_random sample_env) (0, 0).

Lemma out_of_memory_calls_twice :
  let n := sample_run (take 2 sample_search) in
  length (live_entries (n_table n)) = 1%nat /\ calls (n_news n) (n_log (node_search_sources no_memory_env 0 102 (sample_peer 7) 4662 1000 None n)) = 2%nat.
Proof. vm_compute. split; reflexivity. Qed.
