(* ===== verification/KadPackets.v ===== *)
(** * Kademlia packets: include/libed2k/kademlia/kad_packet_struct.hpp

    The structures Kademlia nodes exchange and the list of nodes eMule keeps in
    nodes.dat.  An identifier is sent as four 32-bit numbers in little-endian order,
    an IP address in the other byte order than it has in memory. *)

From S2P Require Import Prelude Archive Md4Hash CTag Bitfield Packets.
Open Scope Z_scope.

(** ** kad_id *)

(** [kad_id], a [md4_hash] with a serialisation of its own. *)
Record kad_id := KId { kad_hash : md4_hash }.

#[global] Instance kad_id_eq_dec : EqDecision kad_id.
Proof. solve_decision. Defined.

(** The index [(i / 4) * 4 + 3 - (i % 4)]. *)
Definition rotated (i : nat) : nat := i / 4 * 4 + 3 - i mod 4.

Fixpoint kad_id_load_loop (ix : list nat) (h : bytes) : reader bytes :=
  match ix with
  | [] => mret h
  | i :: ix => c ← read_uint 1; kad_id_load_loop ix (<[rotated i := z2b c]> h)
  end.

#[global] Instance kad_id_serializable : Serializable kad_id := {
  fresh := KId fresh;
  save x := seq 0 16 ≫= fun i => write_uint 1 (b2z (byte_at (m_hash (kad_hash x)) (rotated i)));
  load x := h ← kad_id_load_loop (seq 0 16) (m_hash (kad_hash x)); mret (KId (Hash h))
}.

Lemma reads_kad_id_loop (ix : list nat) (f : nat -> byte) (h : bytes) :
  reads (kad_id_load_loop ix h) (ix ≫= fun i => write_uint 1 (b2z (f i))) (fold_left (fun h i => <[rotated i := f i]> h) ix h).
Proof.
  revert h. induction ix as [|i ix IH]; intros h; [apply reads_ret|].
  change ((i :: ix) ≫= (fun i => write_uint 1 (b2z (f i)))) with (write_uint 1 (b2z (f i)) ++ (ix ≫= fun i => write_uint 1 (b2z (f i)))).
  eapply (reads_bind _ (fun c => kad_id_load_loop ix (<[rotated i := z2b c]> h))).
  - apply reads_uint. pose proof (b2z_range (f i)). by unfold is_uint.
  - cbn [fold_left]. rewrite z2b_b2z. apply IH.
Qed.

#[global] Program Instance kad_id_wire : Wire kad_id := { wf x := hash_wf (kad_hash x); stored x := x }.
Next Obligation.
  intros [[l]] Hl. cbn [kad_hash] in Hl. unfold hash_wf in Hl. cbn [m_hash] in Hl.
  assert (fold_left (fun h i => <[rotated i := byte_at l (rotated i)]> h) (seq 0 16) (m_hash (kad_hash fresh)) = l) as Hf
    by (do 16 (destruct l as [|? l]; [done|]); by destruct l).
  apply (reads_bind_ret _ (fun h => KId (Hash h))). rewrite <- Hf at 2. apply reads_kad_id_loop.
Qed.

(** ** kad_net_identifier *)

(** [htonl] and [ntohl] on a little-endian machine. *)
Definition htonl (v : Z) : Z := le_combine (rev (le_split 4 v)).

Lemma htonl_uint v : is_uint 4 (htonl v).
Proof. unfold htonl. pose proof (le_combine_bound (rev (le_split 4 v))) as H. rewrite length_rev, length_le_split in H. exact H. Qed.

Lemma htonl_htonl v : is_uint 4 v -> htonl (htonl v) = v.
Proof.
  intros Hv. unfold htonl. rewrite split_le_combine' by (by rewrite length_rev, length_le_split). rewrite rev_involutive.
  by apply le_combine_le_split.
Qed.

Record kad_net_identifier := KadNetId { ka_address : Z; ka_udp_port : Z; ka_tcp_port : Z }.
#[global] Instance kad_net_identifier_serializable : Serializable kad_net_identifier := {
  fresh := KadNetId 0 0 0;
  save x := write_uint 4 (htonl (ka_address x)) ++ write_uint 2 (ka_udp_port x) ++ write_uint 2 (ka_tcp_port x);
  load x := v0 ← read_uint 4; v1 ← read_uint 2; v2 ← read_uint 2; mret (KadNetId (htonl v0) v1 v2)
}.
#[global] Program Instance kad_net_identifier_wire : Wire kad_net_identifier := {
  wf x := is_uint 4 (ka_address x) /\ is_uint 2 (ka_udp_port x) /\ is_uint 2 (ka_tcp_port x); stored x := x
}.
Next Obligation.
  intros [a p q] (Ha & Hp & Hq). cbn [ka_address ka_udp_port ka_tcp_port] in *. cbn [load save fresh kad_net_identifier_serializable ka_address ka_udp_port ka_tcp_port].
  eapply reads_bind; [apply reads_uint, htonl_uint|]. eapply reads_bind; [by apply reads_uint|].
  rewrite htonl_htonl by done. by apply (reads_bind_ret _ (KadNetId a p)), reads_uint.
Qed.

(** ** The packets *)
(** [kad_entry]. *)
Record kad_entry := KadEntry { we_kid : kad_id; we_address : kad_net_identifier; we_version : Z }.
#[global] Instance kad_entry_serializable : Serializable kad_entry := {
  fresh := KadEntry fresh fresh 0;
  save x := save (we_kid x) ++ save (we_address x) ++ write_uint 1 (we_version x);
  load x := v0 ← load (we_kid x); v1 ← load (we_address x); v2 ← read_uint 1; mret (KadEntry v0 v1 v2)
}.
#[global] Program Instance kad_entry_wire : Wire kad_entry := {
  wf x := wf (we_kid x) /\ wf (we_address x) /\ is_uint 1 (we_version x);
  stored x := KadEntry (stored (we_kid x)) (stored (we_address x)) (we_version x)
}.
Next Obligation. wire_record kad_entry_serializable. Qed.

(** [kad2_common_res]. *)
Record kad2_common_res := Kad2CommonRes { cr_kid : kad_id; cr_tcp_port : Z; cr_version : Z }.
#[global] Instance kad2_common_res_serializable : Serializable kad2_common_res := {
  fresh := Kad2CommonRes fresh 0 0;
  save x := save (cr_kid x) ++ write_uint 2 (cr_tcp_port x) ++ write_uint 1 (cr_version x);
  load x := v0 ← load (cr_kid x); v1 ← read_uint 2; v2 ← read_uint 1; mret (Kad2CommonRes v0 v1 v2)
}.
#[global] Program Instance kad2_common_res_wire : Wire kad2_common_res := {
  wf x := wf (cr_kid x) /\ is_uint 2 (cr_tcp_port x) /\ is_uint 1 (cr_version x);
  stored x := Kad2CommonRes (stored (cr_kid x)) (cr_tcp_port x) (cr_version x)
}.
Next Obligation. wire_record kad2_common_res_serializable. Qed.

(** [kad_info_entry]. *)
Record kad_info_entry := KadInfoEntry { ie_hash : kad_id; ie_tags : tag_list }.
#[global] Instance kad_info_entry_serializable : Serializable kad_info_entry := {
  fresh := KadInfoEntry fresh [];
  save x := save (ie_hash x) ++ tag_list_save 1 (ie_tags x);
  load x := v0 ← load (ie_hash x); v1 ← tag_list_load 1 (ie_tags x); mret (KadInfoEntry v0 v1)
}.
#[global] Program Instance kad_info_entry_wire : Wire kad_info_entry := {
  wf x := wf (ie_hash x) /\ tag_list_wf 1 (ie_tags x);
  stored x := KadInfoEntry (stored (ie_hash x)) (tags_stored (ie_tags x))
}.
Next Obligation. wire_record kad_info_entry_serializable. Qed.

(** Bootstrap. *)
Record kad_bootstrap_req := KadBootstrapReq { br_kid : kad_id; br_address : kad_net_identifier; br_tail : Z }.
#[global] Instance kad_bootstrap_req_serializable : Serializable kad_bootstrap_req := {
  fresh := KadBootstrapReq fresh fresh 0;
  save x := save (br_kid x) ++ save (br_address x) ++ write_uint 1 (br_tail x);
  load x := v0 ← load (br_kid x); v1 ← load (br_address x); v2 ← read_uint 1; mret (KadBootstrapReq v0 v1 v2)
}.
#[global] Program Instance kad_bootstrap_req_wire : Wire kad_bootstrap_req := {
  wf x := wf (br_kid x) /\ wf (br_address x) /\ is_uint 1 (br_tail x);
  stored x := KadBootstrapReq (stored (br_kid x)) (stored (br_address x)) (br_tail x)
}.
Next Obligation. wire_record kad_bootstrap_req_serializable. Qed.

Abbreviation kad_contacts_res := (list kad_entry).
Abbreviation kad_bootstrap_res := (container_holder 2 kad_entry).

(** [kad2_bootstrap_req]. *)
Inductive kad2_bootstrap_req := Kad2BootstrapReq.
#[global] Instance kad2_bootstrap_req_serializable : Serializable kad2_bootstrap_req := { fresh := Kad2BootstrapReq; save _ := []; load x := mret x }.
#[global] Program Instance kad2_bootstrap_req_wire : Wire kad2_bootstrap_req := { wf _ := True; stored x := x }.
Next Obligation. intros [] _. apply reads_ret. Qed.

Record kad2_bootstrap_res := Kad2BootstrapRes { bs_client_info : kad2_common_res; bs_contacts : (container_holder 2 kad_entry) }.
#[global] Instance kad2_bootstrap_res_serializable : Serializable kad2_bootstrap_res := {
  fresh := Kad2BootstrapRes fresh fresh;
  save x := save (bs_client_info x) ++ save (bs_contacts x);
  load x := v0 ← load (bs_client_info x); v1 ← load (bs_contacts x); mret (Kad2BootstrapRes v0 v1)
}.
#[global] Program Instance kad2_bootstrap_res_wire : Wire kad2_bootstrap_res := {
  wf x := wf (bs_client_info x) /\ wf (bs_contacts x);
  stored x := Kad2BootstrapRes (stored (bs_client_info x)) (stored (bs_contacts x))
}.
Next Obligation. wire_record kad2_bootstrap_res_serializable. Qed.

(** Hello; the requests and answers are derived from their base. *)
Record kad_hello_base := KadHelloBase { hb_kid : kad_id; hb_address : kad_net_identifier; hb_tail : Z }.
#[global] Instance kad_hello_base_serializable : Serializable kad_hello_base := {
  fresh := KadHelloBase fresh fresh 0;
  save x := save (hb_kid x) ++ save (hb_address x) ++ write_uint 1 (hb_tail x);
  load x := v0 ← load (hb_kid x); v1 ← load (hb_address x); v2 ← read_uint 1; mret (KadHelloBase v0 v1 v2)
}.
#[global] Program Instance kad_hello_base_wire : Wire kad_hello_base := {
  wf x := wf (hb_kid x) /\ wf (hb_address x) /\ is_uint 1 (hb_tail x);
  stored x := KadHelloBase (stored (hb_kid x)) (stored (hb_address x)) (hb_tail x)
}.
Next Obligation. wire_record kad_hello_base_serializable. Qed.

Record kad_hello_req := KadHelloReq { hrq_base : kad_hello_base }.
#[global] Instance kad_hello_req_serializable : Serializable kad_hello_req := {
  fresh := KadHelloReq fresh;
  save x := save (hrq_base x);
  load x := v0 ← load (hrq_base x); mret (KadHelloReq v0)
}.
#[global] Program Instance kad_hello_req_wire : Wire kad_hello_req := {
  wf x := wf (hrq_base x);
  stored x := KadHelloReq (stored (hrq_base x))
}.
Next Obligation. wire_record kad_hello_req_serializable. Qed.

Record kad_hello_res := KadHelloRes { hrs_base : kad_hello_base }.
#[global] Instance kad_hello_res_serializable : Serializable kad_hello_res := {
  fresh := KadHelloRes fresh;
  save x := save (hrs_base x);
  load x := v0 ← load (hrs_base x); mret (KadHelloRes v0)
}.
#[global] Program Instance kad_hello_res_wire : Wire kad_hello_res := {
  wf x := wf (hrs_base x);
  stored x := KadHelloRes (stored (hrs_base x))
}.
Next Obligation. wire_record kad_hello_res_serializable. Qed.

Record kad2_hello_base := Kad2HelloBase { h2_client_info : kad2_common_res; h2_tags : tag_list }.
#[global] Instance kad2_hello_base_serializable : Serializable kad2_hello_base := {
  fresh := Kad2HelloBase fresh [];
  save x := save (h2_client_info x) ++ tag_list_save 1 (h2_tags x);
  load x := v0 ← load (h2_client_info x); v1 ← tag_list_load 1 (h2_tags x); mret (Kad2HelloBase v0 v1)
}.
#[global] Program Instance kad2_hello_base_wire : Wire kad2_hello_base := {
  wf x := wf (h2_client_info x) /\ tag_list_wf 1 (h2_tags x);
  stored x := Kad2HelloBase (stored (h2_client_info x)) (tags_stored (h2_tags x))
}.
Next Obligation. wire_record kad2_hello_base_serializable. Qed.

Record kad2_hello_req := Kad2HelloReq { h2q_base : kad2_hello_base }.
#[global] Instance kad2_hello_req_serializable : Serializable kad2_hello_req := {
  fresh := Kad2HelloReq fresh;
  save x := save (h2q_base x);
  load x := v0 ← load (h2q_base x); mret (Kad2HelloReq v0)
}.
#[global] Program Instance kad2_hello_req_wire : Wire kad2_hello_req := {
  wf x := wf (h2q_base x);
  stored x := Kad2HelloReq (stored (h2q_base x))
}.
Next Obligation. wire_record kad2_hello_req_serializable. Qed.

Record kad2_hello_res := Kad2HelloRes { h2s_base : kad2_hello_base }.
#[global] Instance kad2_hello_res_serializable : Serializable kad2_hello_res := {
  fresh := Kad2HelloRes fresh;
  save x := save (h2s_base x);
  load x := v0 ← load (h2s_base x); mret (Kad2HelloRes v0)
}.
#[global] Program Instance kad2_hello_res_wire : Wire kad2_hello_res := {
  wf x := wf (h2s_base x);
  stored x := Kad2HelloRes (stored (h2s_base x))
}.
Next Obligation. wire_record kad2_hello_res_serializable. Qed.

(** The requests of a lookup. *)
Record kademlia_req := KademliaReq { kr_search_type : Z; kr_kid_target : kad_id; kr_kid_receiver : kad_id }.
#[global] Instance kademlia_req_serializable : Serializable kademlia_req := {
  fresh := KademliaReq 0 fresh fresh;
  save x := write_uint 1 (kr_search_type x) ++ save (kr_kid_target x) ++ save (kr_kid_receiver x);
  load x := v0 ← read_uint 1; v1 ← load (kr_kid_target x); v2 ← load (kr_kid_receiver x); mret (KademliaReq v0 v1 v2)
}.
#[global] Program Instance kademlia_req_wire : Wire kademlia_req := {
  wf x := is_uint 1 (kr_search_type x) /\ wf (kr_kid_target x) /\ wf (kr_kid_receiver x);
  stored x := KademliaReq (kr_search_type x) (stored (kr_kid_target x)) (stored (kr_kid_receiver x))
}.
Next Obligation. wire_record kademlia_req_serializable. Qed.

Record kademlia_res := KademliaRes { ks_kid_target : kad_id; ks_results : (container_holder 1 kad_entry) }.
#[global] Instance kademlia_res_serializable : Serializable kademlia_res := {
  fresh := KademliaRes fresh fresh;
  save x := save (ks_kid_target x) ++ save (ks_results x);
  load x := v0 ← load (ks_kid_target x); v1 ← load (ks_results x); mret (KademliaRes v0 v1)
}.
#[global] Program Instance kademlia_res_wire : Wire kademlia_res := {
  wf x := wf (ks_kid_target x) /\ wf (ks_results x);
  stored x := KademliaRes (stored (ks_kid_target x)) (stored (ks_results x))
}.
Next Obligation. wire_record kademlia_res_serializable. Qed.

Record kademlia2_req := Kademlia2Req { kr2_base : kademlia_req }.
#[global] Instance kademlia2_req_serializable : Serializable kademlia2_req := {
  fresh := Kademlia2Req fresh;
  save x := save (kr2_base x);
  load x := v0 ← load (kr2_base x); mret (Kademlia2Req v0)
}.
#[global] Program Instance kademlia2_req_wire : Wire kademlia2_req := {
  wf x := wf (kr2_base x);
  stored x := Kademlia2Req (stored (kr2_base x))
}.
Next Obligation. wire_record kademlia2_req_serializable. Qed.

Record kademlia2_res := Kademlia2Res { ks2_base : kademlia_res }.
#[global] Instance kademlia2_res_serializable : Serializable kademlia2_res := {
  fresh := Kademlia2Res fresh;
  save x := save (ks2_base x);
  load x := v0 ← load (ks2_base x); mret (Kademlia2Res v0)
}.
#[global] Program Instance kademlia2_res_wire : Wire kademlia2_res := {
  wf x := wf (ks2_base x);
  stored x := Kademlia2Res (stored (ks2_base x))
}.
Next Obligation. wire_record kademlia2_res_serializable. Qed.

(** Searches. *)
Record kad2_search_res := Kad2SearchRes { sres_source_id : kad_id; sres_target_id : kad_id; sres_results : (container_holder 2 kad_info_entry) }.
#[global] Instance kad2_search_res_serializable : Serializable kad2_search_res := {
  fresh := Kad2SearchRes fresh fresh fresh;
  save x := save (sres_source_id x) ++ save (sres_target_id x) ++ save (sres_results x);
  load x := v0 ← load (sres_source_id x); v1 ← load (sres_target_id x); v2 ← load (sres_results x); mret (Kad2SearchRes v0 v1 v2)
}.
#[global] Program Instance kad2_search_res_wire : Wire kad2_search_res := {
  wf x := wf (sres_source_id x) /\ wf (sres_target_id x) /\ wf (sres_results x);
  stored x := Kad2SearchRes (stored (sres_source_id x)) (stored (sres_target_id x)) (stored (sres_results x))
}.
Next Obligation. wire_record kad2_search_res_serializable. Qed.

Record kad_search_notes_req := KadSearchNotesReq { snr_target_id : kad_id }.
#[global] Instance kad_search_notes_req_serializable : Serializable kad_search_notes_req := {
  fresh := KadSearchNotesReq fresh;
  save x := save (snr_target_id x);
  load x := v0 ← load (snr_target_id x); mret (KadSearchNotesReq v0)
}.
#[global] Program Instance kad_search_notes_req_wire : Wire kad_search_notes_req := {
  wf x := wf (snr_target_id x);
  stored x := KadSearchNotesReq (stored (snr_target_id x))
}.
Next Obligation. wire_record kad_search_notes_req_serializable. Qed.

(** [serialize] also cuts [start_position] after it was saved or loaded. *)
Record kad2_search_sources_req := Kad2SearchSourcesReq { ssr_target_id : kad_id; ssr_start_position : Z; ssr_size : Z }.
#[global] Instance kad2_search_sources_req_serializable : Serializable kad2_search_sources_req := {
  fresh := Kad2SearchSourcesReq fresh 0 0;
  save x := save (ssr_target_id x) ++ write_uint 2 (ssr_start_position x) ++ write_uint 8 (ssr_size x);
  load x := v0 ← load (ssr_target_id x); v1 ← read_uint 2; v2 ← read_uint 8; mret (Kad2SearchSourcesReq v0 (Z.land v1 0x7FFF) v2)
}.
#[global] Program Instance kad2_search_sources_req_wire : Wire kad2_search_sources_req := {
  wf x := wf (ssr_target_id x) /\ is_uint 2 (ssr_start_position x) /\ is_uint 8 (ssr_size x);
  stored x := Kad2SearchSourcesReq (stored (ssr_target_id x)) (Z.land (ssr_start_position x) 0x7FFF) (ssr_size x)
}.
Next Obligation. wire_record kad2_search_sources_req_serializable. Qed.

Record kad2_search_key_req := Kad2SearchKeyReq { skr_target_id : kad_id; skr_start_position : Z }.
#[global] Instance kad2_search_key_req_serializable : Serializable kad2_search_key_req := {
  fresh := Kad2SearchKeyReq fresh 0;
  save x := save (skr_target_id x) ++ write_uint 2 (skr_start_position x);
  load x := v0 ← load (skr_target_id x); v1 ← read_uint 2; mret (Kad2SearchKeyReq v0 v1)
}.
#[global] Program Instance kad2_search_key_req_wire : Wire kad2_search_key_req := {
  wf x := wf (skr_target_id x) /\ is_uint 2 (skr_start_position x);
  stored x := Kad2SearchKeyReq (stored (skr_target_id x)) (skr_start_position x)
}.
Next Obligation. wire_record kad2_search_key_req_serializable. Qed.

Record kad2_search_notes_req := Kad2SearchNotesReq { sn2_target_id : kad_id; sn2_filesize : Z }.
#[global] Instance kad2_search_notes_req_serializable : Serializable kad2_search_notes_req := {
  fresh := Kad2SearchNotesReq fresh 0;
  save x := save (sn2_target_id x) ++ write_uint 8 (sn2_filesize x);
  load x := v0 ← load (sn2_target_id x); v1 ← read_uint 8; mret (Kad2SearchNotesReq v0 v1)
}.
#[global] Program Instance kad2_search_notes_req_wire : Wire kad2_search_notes_req := {
  wf x := wf (sn2_target_id x) /\ is_uint 8 (sn2_filesize x);
  stored x := Kad2SearchNotesReq (stored (sn2_target_id x)) (sn2_filesize x)
}.
Next Obligation. wire_record kad2_search_notes_req_serializable. Qed.

(** Publishing. *)
Record kad2_publish_key_req := Kad2PublishKeyReq { pkr_client_id : kad_id; pkr_keys : (container_holder 2 kad_info_entry) }.
#[global] Instance kad2_publish_key_req_serializable : Serializable kad2_publish_key_req := {
  fresh := Kad2PublishKeyReq fresh fresh;
  save x := save (pkr_client_id x) ++ save (pkr_keys x);
  load x := v0 ← load (pkr_client_id x); v1 ← load (pkr_keys x); mret (Kad2PublishKeyReq v0 v1)
}.
#[global] Program Instance kad2_publish_key_req_wire : Wire kad2_publish_key_req := {
  wf x := wf (pkr_client_id x) /\ wf (pkr_keys x);
  stored x := Kad2PublishKeyReq (stored (pkr_client_id x)) (stored (pkr_keys x))
}.
Next Obligation. wire_record kad2_publish_key_req_serializable. Qed.

Record kad2_publish_source_req := Kad2PublishSourceReq { psr_client_id : kad_id; psr_source_id : kad_id; psr_tags : tag_list }.
#[global] Instance kad2_publish_source_req_serializable : Serializable kad2_publish_source_req := {
  fresh := Kad2PublishSourceReq fresh fresh [];
  save x := save (psr_client_id x) ++ save (psr_source_id x) ++ tag_list_save 1 (psr_tags x);
  load x := v0 ← load (psr_client_id x); v1 ← load (psr_source_id x); v2 ← tag_list_load 1 (psr_tags x); mret (Kad2PublishSourceReq v0 v1 v2)
}.
#[global] Program Instance kad2_publish_source_req_wire : Wire kad2_publish_source_req := {
  wf x := wf (psr_client_id x) /\ wf (psr_source_id x) /\ tag_list_wf 1 (psr_tags x);
  stored x := Kad2PublishSourceReq (stored (psr_client_id x)) (stored (psr_source_id x)) (tags_stored (psr_tags x))
}.
Next Obligation. wire_record kad2_publish_source_req_serializable. Qed.

Record kad_publish_note_req := KadPublishNoteReq { pnr_note_id : kad_id; pnr_publisher_id : kad_id; pnr_tags : tag_list }.
#[global] Instance kad_publish_note_req_serializable : Serializable kad_publish_note_req := {
  fresh := KadPublishNoteReq fresh fresh [];
  save x := save (pnr_note_id x) ++ save (pnr_publisher_id x) ++ tag_list_save 1 (pnr_tags x);
  load x := v0 ← load (pnr_note_id x); v1 ← load (pnr_publisher_id x); v2 ← tag_list_load 1 (pnr_tags x); mret (KadPublishNoteReq v0 v1 v2)
}.
#[global] Program Instance kad_publish_note_req_wire : Wire kad_publish_note_req := {
  wf x := wf (pnr_note_id x) /\ wf (pnr_publisher_id x) /\ tag_list_wf 1 (pnr_tags x);
  stored x := KadPublishNoteReq (stored (pnr_note_id x)) (stored (pnr_publisher_id x)) (tags_stored (pnr_tags x))
}.
Next Obligation. wire_record kad_publish_note_req_serializable. Qed.

(** The field [count] is neither saved nor loaded. *)
Record kad2_publish_res := Kad2PublishRes { pr_target_id : kad_id; pr_count : Z }.
#[global] Instance kad2_publish_res_serializable : Serializable kad2_publish_res := {
  fresh := Kad2PublishRes fresh 0;
  save x := save (pr_target_id x);
  load x := v0 ← load (pr_target_id x); mret (Kad2PublishRes v0 (pr_count x))
}.
#[global] Program Instance kad2_publish_res_wire : Wire kad2_publish_res := {
  wf x := wf (pr_target_id x); stored x := Kad2PublishRes (stored (pr_target_id x)) 0
}.
Next Obligation. intros [t c] Ht. apply (reads_bind_ret _ (fun v => Kad2PublishRes v 0)), (load_save t). exact Ht. Qed.

(** Firewall checks. *)
Record kad_firewalled_req := KadFirewalledReq { fr_tcp_port : Z }.
#[global] Instance kad_firewalled_req_serializable : Serializable kad_firewalled_req := {
  fresh := KadFirewalledReq 0;
  save x := write_uint 2 (fr_tcp_port x);
  load x := v0 ← read_uint 2; mret (KadFirewalledReq v0)
}.
#[global] Program Instance kad_firewalled_req_wire : Wire kad_firewalled_req := {
  wf x := is_uint 2 (fr_tcp_port x);
  stored x := KadFirewalledReq (fr_tcp_port x)
}.
Next Obligation. wire_record kad_firewalled_req_serializable. Qed.

Record kad2_firewalled_req := Kad2FirewalledReq { fr2_tcp_port : Z; fr2_user_id : kad_id }.
#[global] Instance kad2_firewalled_req_serializable : Serializable kad2_firewalled_req := {
  fresh := Kad2FirewalledReq 0 fresh;
  save x := write_uint 2 (fr2_tcp_port x) ++ save (fr2_user_id x);
  load x := v0 ← read_uint 2; v1 ← load (fr2_user_id x); mret (Kad2FirewalledReq v0 v1)
}.
#[global] Program Instance kad2_firewalled_req_wire : Wire kad2_firewalled_req := {
  wf x := is_uint 2 (fr2_tcp_port x) /\ wf (fr2_user_id x);
  stored x := Kad2FirewalledReq (fr2_tcp_port x) (stored (fr2_user_id x))
}.
Next Obligation. wire_record kad2_firewalled_req_serializable. Qed.

Record kad_firewalled_res := KadFirewalledRes { frs_ip : Z }.
#[global] Instance kad_firewalled_res_serializable : Serializable kad_firewalled_res := {
  fresh := KadFirewalledRes 0;
  save x := write_uint 4 (frs_ip x);
  load x := v0 ← read_uint 4; mret (KadFirewalledRes v0)
}.
#[global] Program Instance kad_firewalled_res_wire : Wire kad_firewalled_res := {
  wf x := is_uint 4 (frs_ip x);
  stored x := KadFirewalledRes (frs_ip x)
}.
Next Obligation. wire_record kad_firewalled_res_serializable. Qed.

(** [kad_firewalled_ack_res]. *)
Inductive kad_firewalled_ack_res := KadFirewalledAckRes.
#[global] Instance kad_firewalled_ack_res_serializable : Serializable kad_firewalled_ack_res := { fresh := KadFirewalledAckRes; save _ := []; load x := mret x }.
#[global] Program Instance kad_firewalled_ack_res_wire : Wire kad_firewalled_ack_res := { wf _ := True; stored x := x }.
Next Obligation. intros [] _. apply reads_ret. Qed.

Record kad2_firewalled_up := Kad2FirewalledUp { fup_error_code : Z; fup_incoming_port : Z }.
#[global] Instance kad2_firewalled_up_serializable : Serializable kad2_firewalled_up := {
  fresh := Kad2FirewalledUp 0 0;
  save x := write_uint 1 (fup_error_code x) ++ write_uint 2 (fup_incoming_port x);
  load x := v0 ← read_uint 1; v1 ← read_uint 2; mret (Kad2FirewalledUp v0 v1)
}.
#[global] Program Instance kad2_firewalled_up_wire : Wire kad2_firewalled_up := {
  wf x := is_uint 1 (fup_error_code x) /\ is_uint 2 (fup_incoming_port x);
  stored x := Kad2FirewalledUp (fup_error_code x) (fup_incoming_port x)
}.
Next Obligation. wire_record kad2_firewalled_up_serializable. Qed.

(** [kad2_ping]. *)
Inductive kad2_ping := Kad2Ping.
#[global] Instance kad2_ping_serializable : Serializable kad2_ping := { fresh := Kad2Ping; save _ := []; load x := mret x }.
#[global] Program Instance kad2_ping_wire : Wire kad2_ping := { wf _ := True; stored x := x }.
Next Obligation. intros [] _. apply reads_ret. Qed.

Record kad2_pong := Kad2Pong { pong_udp_port : Z }.
#[global] Instance kad2_pong_serializable : Serializable kad2_pong := {
  fresh := Kad2Pong 0;
  save x := write_uint 2 (pong_udp_port x);
  load x := v0 ← read_uint 2; mret (Kad2Pong v0)
}.
#[global] Program Instance kad2_pong_wire : Wire kad2_pong := {
  wf x := is_uint 2 (pong_udp_port x);
  stored x := Kad2Pong (pong_udp_port x)
}.
Next Obligation. wire_record kad2_pong_serializable. Qed.

(** The nodes of the routing table for the user. *)
Record kad_state_entry := KadStateEntry { kse_point : net_identifier; kse_pid : kad_id; kse_timeout_count : Z }.
#[global] Instance kad_state_entry_serializable : Serializable kad_state_entry := {
  fresh := KadStateEntry fresh fresh 0;
  save x := save (kse_point x) ++ save (kse_pid x) ++ write_uint 2 (kse_timeout_count x);
  load x := v0 ← load (kse_point x); v1 ← load (kse_pid x); v2 ← read_uint 2; mret (KadStateEntry v0 v1 v2)
}.
#[global] Program Instance kad_state_entry_wire : Wire kad_state_entry := {
  wf x := wf (kse_point x) /\ wf (kse_pid x) /\ is_uint 2 (kse_timeout_count x);
  stored x := KadStateEntry (stored (kse_point x)) (stored (kse_pid x)) (kse_timeout_count x)
}.
Next Obligation. wire_record kad_state_entry_serializable. Qed.

Record kad_state := KadState { kst_self_id : kad_id; kst_entries : (container_holder 2 kad_state_entry) }.
#[global] Instance kad_state_serializable : Serializable kad_state := {
  fresh := KadState fresh fresh;
  save x := save (kst_self_id x) ++ save (kst_entries x);
  load x := v0 ← load (kst_self_id x); v1 ← load (kst_entries x); mret (KadState v0 v1)
}.
#[global] Program Instance kad_state_wire : Wire kad_state := {
  wf x := wf (kst_self_id x) /\ wf (kst_entries x);
  stored x := KadState (stored (kst_self_id x)) (stored (kst_entries x))
}.
Next Obligation. wire_record kad_state_serializable. Qed.

(** nodes.dat. *)
Record kad_entry_ext := KadEntryExt { ext_dw_key : Z; ext_dw_ip : Z; ext_verified : Z }.
#[global] Instance kad_entry_ext_serializable : Serializable kad_entry_ext := {
  fresh := KadEntryExt 0 0 0;
  save x := write_uint 4 (ext_dw_key x) ++ write_uint 4 (ext_dw_ip x) ++ write_uint 1 (ext_verified x);
  load x := v0 ← read_uint 4; v1 ← read_uint 4; v2 ← read_uint 1; mret (KadEntryExt v0 v1 v2)
}.
#[global] Program Instance kad_entry_ext_wire : Wire kad_entry_ext := {
  wf x := is_uint 4 (ext_dw_key x) /\ is_uint 4 (ext_dw_ip x) /\ is_uint 1 (ext_verified x);
  stored x := KadEntryExt (ext_dw_key x) (ext_dw_ip x) (ext_verified x)
}.
Next Obligation. wire_record kad_entry_ext_serializable. Qed.

(** ** Messages *)

Definition KADEMLIA2_BOOTSTRAP_REQ     : Z := 0x01.
Definition KADEMLIA2_BOOTSTRAP_RES     : Z := 0x09.
Definition KADEMLIA2_HELLO_REQ         : Z := 0x11.
Definition KADEMLIA2_HELLO_RES         : Z := 0x19.
Definition KADEMLIA2_REQ               : Z := 0x21.
Definition KADEMLIA2_RES               : Z := 0x29.
Definition KADEMLIA2_SEARCH_KEY_REQ    : Z := 0x33.
Definition KADEMLIA2_SEARCH_SOURCE_REQ : Z := 0x34.
Definition KADEMLIA2_SEARCH_NOTES_REQ  : Z := 0x35.
Definition KADEMLIA2_SEARCH_RES        : Z := 0x3B.
Definition KADEMLIA2_PING              : Z := 0x60.
Definition KADEMLIA2_PONG              : Z := 0x61.
Definition KADEMLIA_FIREWALLED_REQ     : Z := 0x50.
Definition KADEMLIA_FIREWALLED_RES     : Z := 0x58.
Definition KADEMLIA_BOOTSTRAP_REQ_DEPRECATED : Z := 0x00.
Definition KADEMLIA_HELLO_REQ_DEPRECATED     : Z := 0x10.
Definition KADEMLIA_REQ_DEPRECATED           : Z := 0x20.

#[global] Instance kad2_ping_packet : PacketType kad2_ping := packet _ KADEMLIA2_PING OP_KADEMLIAHEADER.
#[global] Instance kad2_pong_packet : PacketType kad2_pong := packet _ KADEMLIA2_PONG OP_KADEMLIAHEADER.
#[global] Instance kad2_hello_req_packet : PacketType kad2_hello_req := packet _ KADEMLIA2_HELLO_REQ OP_KADEMLIAHEADER.
#[global] Instance kad2_hello_res_packet : PacketType kad2_hello_res := packet _ KADEMLIA2_HELLO_RES OP_KADEMLIAHEADER.
#[global] Instance kad2_bootstrap_req_packet : PacketType kad2_bootstrap_req := packet _ KADEMLIA2_BOOTSTRAP_REQ OP_KADEMLIAHEADER.
#[global] Instance kad2_bootstrap_res_packet : PacketType kad2_bootstrap_res := packet _ KADEMLIA2_BOOTSTRAP_RES OP_KADEMLIAHEADER.
#[global] Instance kad_firewalled_req_packet : PacketType kad_firewalled_req := packet _ KADEMLIA_FIREWALLED_REQ OP_KADEMLIAHEADER.
#[global] Instance kad_firewalled_res_packet : PacketType kad_firewalled_res := packet _ KADEMLIA_FIREWALLED_RES OP_KADEMLIAHEADER.
#[global] Instance kademlia2_req_packet : PacketType kademlia2_req := packet _ KADEMLIA2_REQ OP_KADEMLIAHEADER.
#[global] Instance kademlia2_res_packet : PacketType kademlia2_res := packet _ KADEMLIA2_RES OP_KADEMLIAHEADER.
#[global] Instance kad2_search_key_req_packet : PacketType kad2_search_key_req := packet _ KADEMLIA2_SEARCH_KEY_REQ OP_KADEMLIAHEADER.
#[global] Instance kad2_search_notes_req_packet : PacketType kad2_search_notes_req := packet _ KADEMLIA2_SEARCH_NOTES_REQ OP_KADEMLIAHEADER.
#[global] Instance kad2_search_sources_req_packet : PacketType kad2_search_sources_req := packet _ KADEMLIA2_SEARCH_SOURCE_REQ OP_KADEMLIAHEADER.
#[global] Instance kad2_search_res_packet : PacketType kad2_search_res := packet _ KADEMLIA2_SEARCH_RES OP_KADEMLIAHEADER.

(** [udp_libed2k_header]: two bytes. *)
Record udp_libed2k_header := UdpHeader { uh_protocol : Z; uh_type : Z }.
Definition udp_message : Type := udp_libed2k_header * bytes.

Definition make_udp_message {T} `{Serializable T, PacketType T} (t : T) : udp_message :=
  (UdpHeader (packet_protocol T) (packet_value T), save t).

(** The bytes [dht_tracker::send_packet] gives to the socket. *)
Definition udp_bytes (m : udp_message) : bytes :=
  write_uint 1 (uh_protocol (fst m)) ++ write_uint 1 (uh_type (fst m)) ++ snd m.

(** ** nodes.dat *)

Record kad_nodes_dat := NodesDat {
  nd_num_contacts : Z;
  nd_version : Z;
  nd_bootstrap_edition : Z;
  nd_bootstrap_container : container_holder 4 kad_entry;
  nd_contacts : list kad_entry;
  nd_ext : list kad_entry_ext
}.

(** [save] writes version 1, whatever was loaded. *)
Definition nodes_dat_save (x : kad_nodes_dat) : bytes :=
  write_uint 4 0 ++ write_uint 4 1 ++ write_uint 4 (to_uint 4 (Z.of_nat (length (nd_contacts x)))) ++ (nd_contacts x ≫= save).

(** The loop over the contacts; from version 2 on each has an extension. *)
Fixpoint nodes_dat_loop (num_contacts : nat) (version : Z) (contacts : list kad_entry) (ext : list kad_entry_ext)
    : reader (list kad_entry * list kad_entry_ext) :=
  match num_contacts with
  | O => mret (contacts, ext)
  | S n =>
      ke ← load fresh;
      if 2 <=? version then kee ← load fresh; nodes_dat_loop n version (contacts ++ [ke]) (ext ++ [kee])
      else nodes_dat_loop n version (contacts ++ [ke]) ext
  end.

Definition nodes_dat_contacts (num_contacts : Z) (x : kad_nodes_dat) : reader kad_nodes_dat :=
  l ← nodes_dat_loop (Z.to_nat num_contacts) (nd_version x) (nd_contacts x) (nd_ext x);
  mret (NodesDat num_contacts (nd_version x) (nd_bootstrap_edition x) (nd_bootstrap_container x) (fst l) (snd l)).

(** [load] into an object that has not been initialised: [version] keeps its value
    when the file begins with the number of contacts. *)
Definition nodes_dat_load (x : kad_nodes_dat) : reader kad_nodes_dat :=
  n ← read_uint 4;
  if n =? 0 then
    v ← read_uint 4;
    let x := NodesDat n v (nd_bootstrap_edition x) (nd_bootstrap_container x) (nd_contacts x) (nd_ext x) in
    if v =? 3 then
      e ← read_uint 4;
      let x := NodesDat n v e (nd_bootstrap_container x) (nd_contacts x) (nd_ext x) in
      if e =? 1 then b ← load (nd_bootstrap_container x); mret (NodesDat n v e b (nd_contacts x) (nd_ext x))
      else m ← read_uint 4; nodes_dat_contacts m x
    else if (1 <=? v) && (v <=? 3) then m ← read_uint 4; nodes_dat_contacts m x
    else nodes_dat_contacts n x
  else nodes_dat_contacts n x.

(** ** What is sent is received *)

Lemma reads_nodes_dat_loop version contacts ext l :
  version < 2 -> Forall wf l -> reads (nodes_dat_loop (length l) version contacts ext) (l ≫= save) (contacts ++ (stored <$> l), ext).
Proof.
  intros Hv Hl. revert contacts. induction Hl as [|e l He Hl IH]; intros contacts.
  - cbn. rewrite app_nil_r. apply reads_ret.
  - change ((e :: l) ≫= save) with (save e ++ (l ≫= save)). cbn [length nodes_dat_loop].
    eapply reads_bind; [by apply load_save|]. destruct (Z.leb_spec 2 version); [lia|].
    specialize (IH (contacts ++ [stored e])). rewrite <- app_assoc in IH. exact IH.
Qed.

(** A saved nodes.dat is loaded back into any object [y] as version 1 with the
    contacts added to those of [y]; every truncation of the file is an exception. *)
Theorem nodes_dat_roundtrip (x y : kad_nodes_dat) :
  Forall wf (nd_contacts x) -> is_uint 4 (Z.of_nat (length (nd_contacts x))) ->
  reads (nodes_dat_load y) (nodes_dat_save x)
    (NodesDat (Z.of_nat (length (nd_contacts x))) 1 (nd_bootstrap_edition y) (nd_bootstrap_container y)
       (nd_contacts y ++ (stored <$> nd_contacts x)) (nd_ext y)).
Proof.
  intros Hx Hn. unfold nodes_dat_load, nodes_dat_save. rewrite to_uint_small by done.
  eapply reads_bind; [by apply reads_uint|]. rewrite Z.eqb_refl.
  eapply reads_bind; [by apply reads_uint|]. cbn [Z.eqb Pos.eqb Z.leb andb Z.compare Pos.compare Pos.compare_cont].
  eapply reads_bind; [by apply reads_uint|]. unfold nodes_dat_contacts. rewrite Nat2Z.id.
  cbn [nd_version nd_contacts nd_ext nd_bootstrap_edition nd_bootstrap_container].
  eapply (reads_bind_ret _ (fun l => NodesDat _ 1 _ _ (fst l) (snd l)) _ (_, _)). by apply reads_nodes_dat_loop.
Qed.

Definition sample_contact : kad_entry := KadEntry (KId (Hash (z2b <$> seqZ 1 16))) (KadNetId 0x0100007F 4672 4662) 5.
Definition sample_nodes (version : Z) : kad_nodes_dat := NodesDat 0 version 0 fresh [sample_contact] [].

Lemma nodes_dat_roundtrip_witness :
  reads (nodes_dat_load (sample_nodes 2)) (nodes_dat_save (sample_nodes 1))
    (NodesDat 1 1 0 fresh [sample_contact; sample_contact] []).
Proof.
  apply (nodes_dat_roundtrip (sample_nodes 1) (sample_nodes 2)); [|by vm_compute].
  apply Forall_singleton. by split_and!; vm_compute.
Defined.

(** The file of an old eMule, which begins with the number of its contacts: what is
    read depends on the value memory happens to have for [version]. *)
Lemma nodes_dat_version_unset :
  let file := write_uint 4 1 ++ save sample_contact in
  nodes_dat_load (NodesDat 0 0 0 fresh [] []) (IA file 0) =
    Ok (NodesDat 1 0 0 fresh [sample_contact] [], IA file (length file)) /\
  exists e, nodes_dat_load (NodesDat 0 2 0 fresh [] []) (IA file 0) = Throw e.
Proof. split; [by vm_compute|]. eexists. by vm_compute. Qed.

(** ** What is received has the types of the packets *)

#[global] Instance kad_id_fitting : LoadsFitting kad_id.
Proof.
  split; [done|]. intros [[h]] Hh. unfold load, kad_id_serializable.
  eapply (yields_bind (fun h : bytes => length h = 16%nat)); [|intros l Hl; by apply yields_ret].
  cbn [kad_hash m_hash]. unfold wf, kad_id_wire, hash_wf in Hh. cbn [kad_hash m_hash] in Hh.
  generalize (seq 0 16). intros ix. revert h Hh. induction ix as [|i ix IH]; intros h Hh; cbn [kad_id_load_loop]; [by apply yields_ret|].
  eapply yields_bind; [apply yields_uint|]. intros c _. apply IH. by rewrite length_insert.
Qed.

#[global] Instance kad_net_identifier_fitting : LoadsFitting kad_net_identifier.
Proof.
  split; [by split_and!|]. intros x _. unfold load, kad_net_identifier_serializable.
  do 3 (eapply yields_bind; [apply yields_uint|intros ? ?]). apply yields_ret. split_and!; [apply htonl_uint|done|done].
Qed.

#[global] Instance holder_fitting w T `{LoadsFitting T} : LoadsFitting (container_holder w T).
Proof.
  split; [split_and!; [apply Forall_nil_2|split; [done|by apply Z.pow_pos_nonneg; lia]|done]|].
  intros [c l] (Hl & _ & _). unfold load, holder_serializable. cbn [m_collection] in *.
  eapply yields_bind; [apply yields_uint|]. intros n Hn. destruct (Z.ltb_spec MAX_COLLECTION_SIZE n) as [|Hle]; [done|].
  assert (Forall wf (resize_collection fresh (Z.to_nat n) l)) as Hr.
  { apply Forall_app. split; [by apply Forall_take|]. apply Forall_replicate, fresh_fits. }
  assert (length (resize_collection fresh (Z.to_nat n) l) = Z.to_nat n) as Hlen
    by (unfold resize_collection; rewrite length_app, length_take, length_replicate; lia).
  eapply yields_bind; [apply (yields_each wf load _ Hr), load_fits|]. intros k [Hk Hkl]. apply yields_ret.
  unfold is_uint in Hn. cbn [wf holder_wire m_collection]. rewrite Hkl, Hlen, Z2Nat.id by lia. by split_and!.
Qed.

(** The packets without tags. *)
Ltac fits_record inst wire :=
  split; [repeat (first [done|apply fresh_fits|split])|];
  intros x Hx; unfold load, inst; unfold wf, wire in Hx; destruct_and?;
  repeat (eapply yields_bind; [first [apply yields_uint|by apply load_fits]|intros ? ?]); apply yields_ret; by repeat (first [done|split]).

#[global] Instance kad_entry_fitting : LoadsFitting kad_entry.
Proof. fits_record kad_entry_serializable kad_entry_wire. Qed.
#[global] Instance kad2_common_res_fitting : LoadsFitting kad2_common_res.
Proof. fits_record kad2_common_res_serializable kad2_common_res_wire. Qed.
#[global] Instance kad2_bootstrap_res_fitting : LoadsFitting kad2_bootstrap_res.
Proof. fits_record kad2_bootstrap_res_serializable kad2_bootstrap_res_wire. Qed.
#[global] Instance kademlia_req_fitting : LoadsFitting kademlia_req.
Proof. fits_record kademlia_req_serializable kademlia_req_wire. Qed.
#[global] Instance kademlia_res_fitting : LoadsFitting kademlia_res.
Proof. fits_record kademlia_res_serializable kademlia_res_wire. Qed.
#[global] Instance kademlia2_req_fitting : LoadsFitting kademlia2_req.
Proof. fits_record kademlia2_req_serializable kademlia2_req_wire. Qed.
#[global] Instance kademlia2_res_fitting : LoadsFitting kademlia2_res.
Proof. fits_record kademlia2_res_serializable kademlia2_res_wire. Qed.
#[global] Instance kad_firewalled_req_fitting : LoadsFitting kad_firewalled_req.
Proof. fits_record kad_firewalled_req_serializable kad_firewalled_req_wire. Qed.
#[global] Instance kad2_pong_fitting : LoadsFitting kad2_pong.
Proof. fits_record kad2_pong_serializable kad2_pong_wire. Qed.

(** A hello has tags; its first part fits. *)
Lemma hello_base_fitting x : wf (h2_client_info x) -> yields (fun x => wf (h2_client_info x)) (load (T := kad2_hello_base) x).
Proof.
  intros Hx. unfold load, kad2_hello_base_serializable. eapply yields_bind; [by apply load_fits|]. intros c Hc.
  apply (yields_bind (fun _ => True)); [done|]. intros l _. by apply yields_ret.
Qed.
