(* ===== verification/DhtTracker.v ===== *)
(** * The Kademlia tracker: src/kademlia/dht_tracker.cpp

    Between the UDP socket and the node of Dht.v: datagrams become calls of the
    node, the messages of the node become datagrams, and the nodes of the routing
    table are kept on disk as a bencoded dictionary.  Timers are left to the caller:
    the handlers they call are operations of the node. *)

From S2P Require Import Prelude Archive Md4Hash CTag Bitfield Packets KadId RoutingTable Entry Dht KadPackets.
Open Scope Z_scope.

(** ** Datagrams of a node *)

Definition entry_packet (e : Dht.kad_entry) : KadPackets.kad_entry :=
  KadPackets.KadEntry (KId (ke_kid e)) (KadNetId (ke_address e) (ke_udp_port e) (ke_tcp_port e)) (ke_version e).
Definition packet_entry (e : KadPackets.kad_entry) : Dht.kad_entry :=
  Dht.KadEntry (kad_hash (we_kid e)) (ka_address (we_address e)) (ka_udp_port (we_address e)) (ka_tcp_port (we_address e)) (we_version e).

Definition common_res (kid : node_id) (tcp_port version : Z) : kad2_common_res := Kad2CommonRes (KId kid) tcp_port version.

(** The packet of a message: the structure [rpc_manager] and [node_impl] fill in,
    given to [make_udp_message].  A hello carries no tags. *)
Definition request_packet (r : kad_request) : udp_message :=
  match r with
  | Dht.kad2_ping => make_udp_message Kad2Ping
  | Dht.kad2_hello_req kid p v => make_udp_message (Kad2HelloReq (Kad2HelloBase (common_res kid p v) []))
  | Dht.kad2_bootstrap_req => make_udp_message Kad2BootstrapReq
  | Dht.kademlia2_req t target receiver => make_udp_message (Kademlia2Req (KademliaReq t (KId target) (KId receiver)))
  | Dht.kad2_search_key_req target start => make_udp_message (Kad2SearchKeyReq (KId target) start)
  | Dht.kad2_search_sources_req target start size => make_udp_message (Kad2SearchSourcesReq (KId target) start size)
  | Dht.kad_firewalled_req p => make_udp_message (KadFirewalledReq p)
  end.

Definition reply_packet (r : kad_reply) : udp_message :=
  match r with
  | Dht.kad2_pong p => make_udp_message (Kad2Pong p)
  | Dht.kad2_hello_res kid p v => make_udp_message (Kad2HelloRes (Kad2HelloBase (common_res kid p v) []))
  | Dht.kad2_bootstrap_res kid p v l => make_udp_message (Kad2BootstrapRes (common_res kid p v) (holder_of (entry_packet <$> l)))
  | Dht.kademlia2_res target l => make_udp_message (Kademlia2Res (KademliaRes (KId target) (holder_of (entry_packet <$> l))))
  end.

Definition message_packet (m : kad_message) : udp_message :=
  match m with
  | request_message r => request_packet r
  | reply_message r => reply_packet r
  | Dht.kad_firewalled_res ip => make_udp_message (KadFirewalledRes ip)
  end.

(** ** The tracker *)

Record node_ban_entry := BanEntry { src : address; limit : Z; count : Z }.

Definition num_ban_nodes : nat := 20.

(** Calls of the session. *)
Inductive session_call :=
| on_find_dht_source (hash : md4_hash) (type ip port low_id : Z)
| on_find_dht_keyword (hash : md4_hash) (results : list kad_info_entry).

Record dht_tracker := Tracker {
  m_dht : node_impl;
  m_received_bytes : Z;
  m_ban_nodes : list node_ban_entry;
  m_calls : list session_call
}.

Definition set_dht (n : node_impl) (t : dht_tracker) : dht_tracker := Tracker n (m_received_bytes t) (m_ban_nodes t) (m_calls t).
Definition set_received (r : Z) (t : dht_tracker) : dht_tracker := Tracker (m_dht t) r (m_ban_nodes t) (m_calls t).
Definition set_ban_nodes (b : list node_ban_entry) (t : dht_tracker) : dht_tracker := Tracker (m_dht t) (m_received_bytes t) b (m_calls t).
Definition add_calls (c : list session_call) (t : dht_tracker) : dht_tracker :=
  Tracker (m_dht t) (m_received_bytes t) (m_ban_nodes t) (m_calls t ++ c).

Definition TAG_CLIENTLOWID : Z := 0xF9.
Definition TAG_SOURCEPORT  : Z := 0xFD.
Definition TAG_SOURCEIP    : Z := 0xFE.
Definition TAG_SOURCETYPE  : Z := 0xFF.

(** The answer to a search: sources if the first result has a source type,
    otherwise files.  The arguments of the session have 8, 32 and 16 bits. *)
Definition source_call (target : md4_hash) (e : kad_info_entry) : session_call :=
  on_find_dht_source target
    (to_uint 1 (getIntTagByNameId (ie_tags e) TAG_SOURCETYPE))
    (htonl (to_uint 4 (getIntTagByNameId (ie_tags e) TAG_SOURCEIP)))
    (to_uint 2 (getIntTagByNameId (ie_tags e) TAG_SOURCEPORT))
    (to_uint 4 (getIntTagByNameId (ie_tags e) TAG_CLIENTLOWID)).

Definition search_calls (p : kad2_search_res) : list session_call :=
  let target := kad_hash (sres_target_id p) in
  match m_collection (sres_results p) with
  | [] => []
  | e :: _ as l =>
      match getTagByNameId (ie_tags e) TAG_SOURCETYPE with
      | Some _ => source_call target <$> l
      | None => [on_find_dht_keyword target l]
      end
  end.

Section Tracker.
(** [uncompress] of zlib, given the size of the buffer for the result. *)
Context (env : environment) (min_time now : Z) (uncompress : Z -> bytes -> option bytes).

(** [ia >> p], and what is done with [p]; [None] is an exception. *)
Definition with_packet {T} `{Serializable T} (container : bytes) (f : T -> dht_tracker) : option dht_tracker :=
  match load (fresh : T) (IA container 0) with Ok (p, _) => Some (f p) | Throw _ => None end.

Definition request_in (r : kad_request) (from : endpoint) (t : dht_tracker) : dht_tracker :=
  set_dht (incoming_request env min_time now r from (m_dht t)) t.
Definition reply_in (r : kad_reply) (from : endpoint) (t : dht_tracker) : dht_tracker :=
  set_dht (node_incoming env min_time now r from (m_dht t)) t.

(** The switch over the type of the packet. *)
Definition dispatch (type : Z) (container : bytes) (from : endpoint) (t : dht_tracker) : option dht_tracker :=
  if (type =? KADEMLIA_BOOTSTRAP_REQ_DEPRECATED) || (type =? KADEMLIA_HELLO_REQ_DEPRECATED) || (type =? KADEMLIA_REQ_DEPRECATED)
  then with_packet container (fun _ : kademlia_req => t)
  else if type =? KADEMLIA_FIREWALLED_REQ
  then with_packet container (fun p : kad_firewalled_req => request_in (Dht.kad_firewalled_req (fr_tcp_port p)) from t)
  else if type =? KADEMLIA2_BOOTSTRAP_REQ
  then with_packet container (fun _ : kad2_bootstrap_req => request_in Dht.kad2_bootstrap_req from t)
  else if type =? KADEMLIA2_BOOTSTRAP_RES
  then with_packet container (fun p : kad2_bootstrap_res =>
         let c := bs_client_info p in
         reply_in (Dht.kad2_bootstrap_res (kad_hash (cr_kid c)) (cr_tcp_port c) (cr_version c) (packet_entry <$> m_collection (bs_contacts p))) from t)
  else if type =? KADEMLIA2_HELLO_REQ
  then with_packet container (fun p : kad2_hello_req =>
         let c := h2_client_info (h2q_base p) in
         request_in (Dht.kad2_hello_req (kad_hash (cr_kid c)) (cr_tcp_port c) (cr_version c)) from t)
  else if type =? KADEMLIA2_HELLO_RES
  then with_packet container (fun p : kad2_hello_res =>
         let c := h2_client_info (h2s_base p) in
         reply_in (Dht.kad2_hello_res (kad_hash (cr_kid c)) (cr_tcp_port c) (cr_version c)) from t)
  else if type =? KADEMLIA2_REQ
  then with_packet container (fun p : kademlia2_req =>
         let p := kr2_base p in
         request_in (Dht.kademlia2_req (kr_search_type p) (kad_hash (kr_kid_target p)) (kad_hash (kr_kid_receiver p))) from t)
  else if type =? KADEMLIA2_RES
  then with_packet container (fun p : kademlia2_res =>
         let p := ks2_base p in
         reply_in (Dht.kademlia2_res (kad_hash (ks_kid_target p)) (packet_entry <$> m_collection (ks_results p))) from t)
  else if type =? KADEMLIA2_SEARCH_RES
  then with_packet container (fun p : kad2_search_res => add_calls (search_calls p) t)
  else if type =? KADEMLIA2_PING
  then with_packet container (fun _ : kad2_ping => request_in Dht.kad2_ping from t)
  else if type =? KADEMLIA2_PONG
  then with_packet container (fun p : kad2_pong => reply_in (Dht.kad2_pong (pong_udp_port p)) from t)
  else Some t.

(** The search of the ban table: the entry of the address, or the first of the
    entries with the smallest count. *)
Fixpoint find_ban (a : address) (i min : nat) (min_count : Z) (l : list node_ban_entry) : nat + nat :=
  match l with
  | [] => inr min
  | e :: l =>
      if decide (src e = a) then inl i
      else if count e <? min_count then find_ban a (S i) i (count e) l else find_ban a (S i) min min_count l
  end.

Definition ban_step (a : address) (l : list node_ban_entry) : list node_ban_entry :=
  match find_ban a 0 0 (match l with e :: _ => count e | [] => 0 end) l with
  | inl i =>
      match l !! i with
      | None => l
      | Some e =>
          let c := count e + 1 in
          if 20 <=? c then
            if now <? limit e then <[i := BanEntry (src e) (now + minutes 5) c]> l
            else <[i := BanEntry (src e) (now + seconds 5) 0]> l
          else <[i := BanEntry (src e) (limit e) c]> l
      end
  | inr i => <[i := BanEntry a (now + seconds 5) 1]> l
  end.

(** What is left to do when the packet was handled. *)
Definition account (from : endpoint) (bytes_transferred : Z) (t : dht_tracker) : dht_tracker :=
  let t := set_received (m_received_bytes t + bytes_transferred + 28) t in
  set_ban_nodes (ban_step (fst from) (m_ban_nodes t)) t.

Definition on_receive (from : endpoint) (buf : bytes) (t : dht_tracker) : dht_tracker :=
  match buf with
  | p :: ty :: body =>
      let bytes_transferred := Z.of_nat (length buf) in
      let container :=
        if b2z p =? OP_KADEMLIAPACKEDPROT then uncompress (bytes_transferred * 10 + 300) body
        else if b2z p =? OP_KADEMLIAHEADER then Some body
        else None in
      match container with
      | None => t
      | Some container =>
          match dispatch (b2z ty) container from t with
          | None => t
          | Some t => account from bytes_transferred t
          end
      end
  | _ => t
  end.
End Tracker.

(** ** State on disk *)

Definition key_nodes : bytes := z2b <$> [110; 111; 100; 101; 115].
Definition key_node_id : bytes := z2b <$> [110; 111; 100; 101; 45; 105; 100].

(** [write_endpoint] and [read_v4_endpoint]: four and two bytes, the highest first. *)
Definition write_be (w : nat) (v : Z) : bytes := rev (le_split w v).
Definition write_endpoint (e : endpoint) : bytes := write_be 4 (be_value (fst e)) ++ write_be 2 (snd e).
Definition read_v4_endpoint (s : bytes) : endpoint :=
  (write_be 4 (be_value (take 4 s)), be_value (take 2 (drop 4 s))).

(** [for_each_node] with the same function for live nodes and replacements. *)
Definition all_nodes (t : routing_table) : list node_entry := m_buckets t ≫= fun b => live_nodes b ++ replacements b.

Definition state (t : dht_tracker) : entry :=
  let table := n_table (m_dht t) in
  let nodes := (fun e => e_string (write_endpoint (ep e))) <$> (all_nodes table ++ replacement_cache table) in
  let ret := match nodes with [] => [] | _ => dict_set key_nodes (e_list nodes) [] end in
  e_dict (dict_set key_node_id (e_string (m_hash (n_id (m_dht t)))) ret).

(** [extract_node_id]: the identifier in the state, or the zero one. *)
Definition extract_node_id (e : option entry) : node_id :=
  match e with
  | Some (e_dict d) =>
      match dict_get key_node_id d with
      | Some (e_string s) => if (length s =? 20)%nat then Hash (take 16 s) else hash_min
      | _ => hash_min
      end
  | _ => hash_min
  end.

(** [read_endpoint_list] stops at the first element that is not a string. *)
Fixpoint endpoints_of (l : list entry) : list endpoint :=
  match l with
  | e_string p :: l => if (length p =? 6)%nat then read_v4_endpoint p :: endpoints_of l else endpoints_of l
  | _ => []
  end.
Definition read_endpoint_list (e : entry) : list endpoint := match e with e_list l => endpoints_of l | _ => [] end.

Definition initial_nodes (e : entry) : list endpoint :=
  match e with
  | e_dict d => match dict_get key_nodes d with Some nodes => read_endpoint_list nodes | None => [] end
  | _ => []
  end.

Definition tracker_start (env : environment) (min_time now : Z) (bootstrap : entry) (t : dht_tracker) : dht_tracker :=
  set_dht (node_bootstrap env min_time now (initial_nodes bootstrap) nop (m_dht t)) t.

(** [estate]: the same nodes for the user. *)
Definition node_state (e : node_entry) : kad_state_entry :=
  KadStateEntry (NetId (address2int (RoutingTable.addr e)) (port e)) (KId (nid e)) (timeout_count e).

Definition estate (t : dht_tracker) : kad_state :=
  let table := n_table (m_dht t) in
  KadState (KId (n_id (m_dht t))) (holder_of (node_state <$> (all_nodes table ++ replacement_cache table))).

(** The constructor makes the node with the identifier of the state. *)
Definition tracker_new (now min_time search_branching : Z) (restrict_search_ips : bool) (settings : dht_settings) (external : address)
    (crc32c : bytes -> Z) (random : nat -> Z) (r : Z) (saved : option entry) (port unset : Z) : dht_tracker :=
  Tracker (node_new min_time now search_branching restrict_search_ips settings external crc32c random r (extract_node_id saved) port)
    0 (replicate num_ban_nodes (BanEntry [z2b 0; z2b 0; z2b 0; z2b 0] unset 0)) [].
