(* ===== verification/DhtTrackerProps.v ===== *)
(** * What the Kademlia tracker promises

    A datagram that one node sends is the same message to the node that receives
    it, a part of a datagram is none at all, and the nodes that are saved are the
    nodes the next start asks. *)

From S2P Require Import Prelude Archive Md4Hash CTag Bitfield Packets KadId RoutingTable Entry Dht DhtNode DhtTheorems KadPackets DhtTracker.
Open Scope Z_scope.

(** ** Messages as datagrams *)

Definition entry_fits (e : Dht.kad_entry) : Prop :=
  hash_wf (ke_kid e) /\ is_uint 4 (ke_address e) /\ is_uint 2 (ke_udp_port e) /\ is_uint 2 (ke_tcp_port e) /\ is_uint 1 (ke_version e).

Definition request_fits (r : kad_request) : Prop :=
  match r with
  | Dht.kad2_ping | Dht.kad2_bootstrap_req => True
  | Dht.kad2_hello_req kid p v => hash_wf kid /\ is_uint 2 p /\ is_uint 1 v
  | Dht.kademlia2_req t target receiver => is_uint 1 t /\ hash_wf target /\ hash_wf receiver
  | Dht.kad2_search_key_req target start => hash_wf target /\ is_uint 2 start
  | Dht.kad2_search_sources_req target start size => hash_wf target /\ 0 <= start < 2 ^ 15 /\ is_uint 8 size
  | Dht.kad_firewalled_req p => is_uint 2 p
  end.

Definition reply_fits (r : kad_reply) : Prop :=
  match r with
  | Dht.kad2_pong p => is_uint 2 p
  | Dht.kad2_hello_res kid p v => hash_wf kid /\ is_uint 2 p /\ is_uint 1 v
  | Dht.kad2_bootstrap_res kid p v l =>
      hash_wf kid /\ is_uint 2 p /\ is_uint 1 v /\ Forall entry_fits l /\ is_uint 2 (Z.of_nat (length l))
  | Dht.kademlia2_res target l => hash_wf target /\ Forall entry_fits l /\ is_uint 1 (Z.of_nat (length l))
  end.

(** The fields have the width of the packet; a search for sources begins below 2^15. *)
Definition message_fits (m : kad_message) : Prop :=
  match m with
  | request_message r => request_fits r
  | reply_message r => reply_fits r
  | Dht.kad_firewalled_res ip => is_uint 4 ip
  end.

(** The message in a packet of the type [ty], by the loaders of the structures. *)
Definition read_as {T} `{Serializable T} (body : bytes) (f : T -> kad_message) : option kad_message :=
  match load (fresh : T) (IA body 0) with Ok (x, _) => Some (f x) | Throw _ => None end.

Definition hello_of {A} (f : node_id -> Z -> Z -> A) (h : kad2_hello_base) : A :=
  let c := h2_client_info h in f (kad_hash (cr_kid c)) (cr_tcp_port c) (cr_version c).

Definition read_message (ty : Z) (body : bytes) : option kad_message :=
  if ty =? KADEMLIA2_PING then read_as body (fun _ : kad2_ping => request_message Dht.kad2_ping)
  else if ty =? KADEMLIA2_HELLO_REQ then read_as body (fun x : kad2_hello_req => request_message (hello_of Dht.kad2_hello_req (h2q_base x)))
  else if ty =? KADEMLIA2_BOOTSTRAP_REQ then read_as body (fun _ : kad2_bootstrap_req => request_message Dht.kad2_bootstrap_req)
  else if ty =? KADEMLIA2_REQ then read_as body (fun x : kademlia2_req =>
    request_message (Dht.kademlia2_req (kr_search_type (kr2_base x)) (kad_hash (kr_kid_target (kr2_base x))) (kad_hash (kr_kid_receiver (kr2_base x)))))
  else if ty =? KADEMLIA2_SEARCH_KEY_REQ then read_as body (fun x : kad2_search_key_req =>
    request_message (Dht.kad2_search_key_req (kad_hash (skr_target_id x)) (skr_start_position x)))
  else if ty =? KADEMLIA2_SEARCH_SOURCE_REQ then read_as body (fun x : kad2_search_sources_req =>
    request_message (Dht.kad2_search_sources_req (kad_hash (ssr_target_id x)) (ssr_start_position x) (ssr_size x)))
  else if ty =? KADEMLIA_FIREWALLED_REQ then read_as body (fun x : kad_firewalled_req => request_message (Dht.kad_firewalled_req (fr_tcp_port x)))
  else if ty =? KADEMLIA2_PONG then read_as body (fun x : kad2_pong => reply_message (Dht.kad2_pong (pong_udp_port x)))
  else if ty =? KADEMLIA2_HELLO_RES then read_as body (fun x : kad2_hello_res => reply_message (hello_of Dht.kad2_hello_res (h2s_base x)))
  else if ty =? KADEMLIA2_BOOTSTRAP_RES then read_as body (fun x : kad2_bootstrap_res => let c := bs_client_info x in
    reply_message (Dht.kad2_bootstrap_res (kad_hash (cr_kid c)) (cr_tcp_port c) (cr_version c) (packet_entry <$> m_collection (bs_contacts x))))
  else if ty =? KADEMLIA2_RES then read_as body (fun x : kademlia2_res =>
    reply_message (Dht.kademlia2_res (kad_hash (ks_kid_target (ks2_base x))) (packet_entry <$> m_collection (ks_results (ks2_base x)))))
  else if ty =? KADEMLIA_FIREWALLED_RES then read_as body (fun x : kad_firewalled_res => Dht.kad_firewalled_res (frs_ip x))
  else None.

(** What [on_receive] has a case for: not the searches of others, nor the answer to
    [kad_firewalled_req]. *)
Definition handles (m : kad_message) : bool :=
  match m with
  | request_message (Dht.kad2_search_key_req _ _ | Dht.kad2_search_sources_req _ _ _) | Dht.kad_firewalled_res _ => false
  | _ => true
  end.

(** What the receiver does with a message it handles. *)
Definition deliver (env : environment) (min_time now : Z) (m : kad_message) (from : endpoint) (t : dht_tracker) : dht_tracker :=
  match m with
  | request_message r => request_in env min_time now r from t
  | reply_message r => reply_in env min_time now r from t
  | Dht.kad_firewalled_res _ => t
  end.

Lemma with_packet_all {T} `{Wire T} (x : T) (f : T -> dht_tracker) : wf x -> with_packet (save x) f = Some (f (stored x)).
Proof.
  intros Hx. unfold with_packet. destruct (load_save x Hx) as [Hl _].
  specialize (Hl [] []). rewrite app_nil_r in Hl. cbn [app length] in Hl. by rewrite Hl.
Qed.

Lemma read_as_all {T} `{Wire T} (x : T) (f : T -> kad_message) : wf x -> read_as (save x) f = Some (f (stored x)).
Proof.
  intros Hx. unfold read_as. destruct (load_save x Hx) as [Hl _].
  specialize (Hl [] []). rewrite app_nil_r in Hl. cbn [app length] in Hl. by rewrite Hl.
Qed.

Lemma with_packet_part {T} `{Wire T} (x : T) (f : T -> dht_tracker) k :
  wf x -> (k < length (save x))%nat -> with_packet (take k (save x)) f = None.
Proof.
  intros Hx Hk. unfold with_packet. destruct (load_save x Hx) as [_ Hl].
  destruct (Hl [] k Hk) as [e He]. cbn [app length] in He. by rewrite He.
Qed.

Lemma packet_entry_packet (l : list Dht.kad_entry) : packet_entry <$> (stored <$> (entry_packet <$> l)) = l.
Proof. rewrite <- !list_fmap_compose. rewrite <- (list_fmap_id l) at 2. apply list_fmap_ext. by intros ? [] _. Qed.

Lemma entry_packets_fit w l :
  Forall entry_fits l -> is_uint w (Z.of_nat (length l)) -> (w <= 2)%nat -> wf (holder_of (w := w) (entry_packet <$> l)).
Proof.
  intros Hl Hn Hw. cbn [wf holder_wire holder_of m_collection]. rewrite length_fmap. split_and!; [|done|].
  - apply Forall_fmap. eapply List.Forall_impl; [|exact Hl]. intros [] (?&?&?&?&?). by split_and!.
  - unfold is_uint in Hn. assert (2 ^ (Z.of_nat w * 8) <= 2 ^ 16) by (apply Z.pow_le_mono_r; lia).
    change MAX_COLLECTION_SIZE with 262144. lia.
Qed.

(** The two bytes of the header. *)
Lemma on_receive_header env min_time now uncompress from ty body t :
  is_uint 1 ty ->
  on_receive env min_time now uncompress from (write_uint 1 OP_KADEMLIAHEADER ++ write_uint 1 ty ++ body) t =
  match dispatch env min_time now ty body from t with
  | None => t
  | Some t => account now from (Z.of_nat (2 + length body)) t
  end.
Proof.
  intros Hty. assert (write_uint 1 ty = [z2b ty]) as -> by (rewrite <- (b2z_z2b ty Hty) at 1; apply write_byte).
  change (write_uint 1 OP_KADEMLIAHEADER) with [z2b OP_KADEMLIAHEADER]. cbn [app]. unfold on_receive.
  rewrite (b2z_z2b ty Hty). reflexivity.
Qed.

(** A message as it is dispatched: whole, and cut short. *)
Definition dispatched env min_time now from t (m : kad_message) : Prop :=
  exists ty body, udp_bytes (message_packet m) = write_uint 1 OP_KADEMLIAHEADER ++ write_uint 1 ty ++ body /\ is_uint 1 ty /\
    read_message ty body = Some m /\
    dispatch env min_time now ty body from t = Some (if handles m then deliver env min_time now m from t else t) /\
    forall k, (k < length body)%nat -> dispatch env min_time now ty (take k body) from t ∈ [None; Some t].

(** A packet [x] whose case of the switch is [f]. *)
Lemma dispatched_packet {T} `{Wire T, !PacketType T} (x : T) (f : T -> dht_tracker) (g : T -> kad_message) env min_time now from t m :
  message_packet m = make_udp_message x -> packet_protocol T = OP_KADEMLIAHEADER -> is_uint 1 (packet_value T) -> wf x ->
  (forall body, dispatch env min_time now (packet_value T) body from t = with_packet body f) ->
  (forall body, read_message (packet_value T) body = read_as body g) -> g (stored x) = m ->
  f (stored x) = (if handles m then deliver env min_time now m from t else t) -> dispatched env min_time now from t m.
Proof.
  intros Hm Hp Hv Hx Hd Hg Em Hf. exists (packet_value T), (save x). rewrite Hm.
  unfold udp_bytes, make_udp_message. cbn [fst snd uh_protocol uh_type]. rewrite Hp. split_and!; [done|done| | |].
  - by rewrite Hg, read_as_all, Em.
  - by rewrite Hd, with_packet_all, Hf.
  - intros k Hk. rewrite Hd, with_packet_part by done. by left.
Qed.

Lemma dispatched_ignored {T} `{Wire T, !PacketType T} (x : T) (g : T -> kad_message) env min_time now from t m :
  message_packet m = make_udp_message x -> packet_protocol T = OP_KADEMLIAHEADER -> is_uint 1 (packet_value T) -> wf x ->
  (forall body, dispatch env min_time now (packet_value T) body from t = Some t) ->
  (forall body, read_message (packet_value T) body = read_as body g) -> g (stored x) = m ->
  handles m = false -> dispatched env min_time now from t m.
Proof.
  intros Hm Hp Hv Hx Hd Hg Em Hf. exists (packet_value T), (save x). rewrite Hm.
  unfold udp_bytes, make_udp_message. cbn [fst snd uh_protocol uh_type]. rewrite Hp, Hd, Hf. split_and!; [done|done|by rewrite Hg, read_as_all, Em|done|].
  intros k _. rewrite Hd. right. by left.
Qed.

Ltac dispatched_as x :=
  first
    [ eapply (dispatched_packet x); [reflexivity|reflexivity|by vm_compute| |reflexivity|reflexivity| | ]
    | eapply (dispatched_ignored x); [reflexivity|reflexivity|by vm_compute| |reflexivity|reflexivity|reflexivity|reflexivity] ].

Lemma hello_fits kid p v : hash_wf kid -> is_uint 2 p -> is_uint 1 v -> wf (Kad2HelloBase (common_res kid p v) []).
Proof. intros. split; [by split_and!|]. by split; [vm_compute|apply Forall_nil]. Qed.

Lemma message_dispatched env min_time now from t m : message_fits m -> dispatched env min_time now from t m.
Proof.
  destruct m as [r|r|ip]; cbn [message_fits]; [destruct r|destruct r|]; cbn [request_fits reply_fits]; intros Hm; destruct_and?.
  - dispatched_as Kad2Ping; done.
  - dispatched_as (Kad2HelloReq (Kad2HelloBase (common_res kid tcp_port version) [])); [by apply hello_fits|done..].
  - dispatched_as Kad2BootstrapReq; done.
  - dispatched_as (Kademlia2Req (KademliaReq search_type (KId kid_target) (KId kid_receiver))); [by split_and!|done..].
  - dispatched_as (Kad2SearchKeyReq (KId target_id) start_position). by split_and!.
  - eapply (dispatched_ignored (Kad2SearchSourcesReq (KId target_id) start_position size)); [reflexivity|reflexivity|by vm_compute| |reflexivity|reflexivity| |reflexivity].
    + split; [done|]. split; [|done]. unfold is_uint. assert (2 ^ 15 < 2 ^ (Z.of_nat 2 * 8)) by done. cbn [ssr_start_position]. lia.
    + cbn. change 0x7FFF with (Z.ones 15). by rewrite Z.land_ones, Z.mod_small by lia.
  - dispatched_as (KadFirewalledReq tcp_port); done.
  - dispatched_as (Kad2Pong udp_port); done.
  - dispatched_as (Kad2HelloRes (Kad2HelloBase (common_res kid tcp_port version) [])); [by apply hello_fits|done..].
  - dispatched_as (Kad2BootstrapRes (common_res kid tcp_port version) (holder_of (entry_packet <$> contacts))).
    + split; [by split_and!|apply entry_packets_fit; [done|done|lia]].
    + cbn. by rewrite packet_entry_packet.
    + cbn. by rewrite packet_entry_packet.
  - dispatched_as (Kademlia2Res (KademliaRes (KId kid_target) (holder_of (entry_packet <$> results)))).
    + split; [done|apply entry_packets_fit; [done|done|lia]].
    + cbn. by rewrite packet_entry_packet.
    + cbn. by rewrite packet_entry_packet.
  - dispatched_as (KadFirewalledRes ip). done.
Qed.

(** C14: the datagram of a message that fits its packet holds exactly that message: its
    body, read with the loader of its type, gives the message back.  A receiver calls its
    node with the message, if it is one that [on_receive] handles, and counts the
    datagram; searches and the answer to [kad_firewalled_req], which it has no case for,
    are only counted.  Of a datagram cut short the node sees nothing, nor does the
    session. *)
Theorem datagram_delivered env min_time now uncompress from m t :
  message_fits m ->
  let datagram := udp_bytes (message_packet m) in
  (exists ty, take 2 datagram = write_uint 1 OP_KADEMLIAHEADER ++ write_uint 1 ty /\ is_uint 1 ty /\ read_message ty (drop 2 datagram) = Some m) /\
  on_receive env min_time now uncompress from datagram t =
    account now from (Z.of_nat (length datagram)) (if handles m then deliver env min_time now m from t else t) /\
  forall k, (k < length datagram)%nat ->
    let t' := on_receive env min_time now uncompress from (take k datagram) t in m_dht t' = m_dht t /\ m_calls t' = m_calls t.
Proof.
  intros Hm. destruct (message_dispatched env min_time now from t m Hm) as (ty & body & Hb & Hty & Hrd & Hd & Hk).
  cbv zeta. rewrite Hb. split_and!.
  - exists ty. by split_and!.
  - rewrite on_receive_header, Hd by done. done.
  - intros k Hlen. destruct k as [|[|k]]; [done|done|].
    change (take (S (S k)) (write_uint 1 OP_KADEMLIAHEADER ++ write_uint 1 ty ++ body)) with
      (write_uint 1 OP_KADEMLIAHEADER ++ write_uint 1 ty ++ take k body).
    rewrite on_receive_header by done. specialize (Hk k ltac:(by apply Nat.succ_lt_mono, Nat.succ_lt_mono)).
    rewrite !elem_of_cons, elem_of_nil in Hk. by destruct Hk as [->|[->|[]]].
Qed.

(** ** Any datagram *)

(** What [with_packet] passes on. *)
Lemma with_packet_inv {T} `{Serializable T} (P : T -> Prop) body (f : T -> dht_tracker) t :
  yields P (load (fresh : T)) -> with_packet body f = Some t -> exists p, P p /\ t = f p.
Proof.
  intros Hy. unfold with_packet. destruct (load fresh (IA body 0)) as [[p ar]|] eqn:Hp; [|done]. intros [= <-].
  exists p. split; [by eapply Hy|done].
Qed.

Lemma packet_entry_fits (e : KadPackets.kad_entry) : wf e -> entry_fits (packet_entry e).
Proof. destruct e as [[] [] ?]. intros (? & (? & ? & ?) & ?). by split_and!. Qed.

Lemma packet_entries_fit w (h : container_holder w KadPackets.kad_entry) :
  wf h -> Forall entry_fits (packet_entry <$> m_collection h) /\ is_uint w (Z.of_nat (length (packet_entry <$> m_collection h))).
Proof.
  intros (Hf & Hn & _). split; [|by rewrite length_fmap]. apply Forall_fmap. eapply List.Forall_impl; [|exact Hf]. apply packet_entry_fits.
Qed.

(** The outcome of the switch: nothing for the node, or a message that fits. *)
Definition handled env min_time now from (t t' : dht_tracker) : Prop :=
  m_dht t' = m_dht t \/
  (exists r, request_fits r /\ t' = request_in env min_time now r from t) \/
  (exists r, reply_fits r /\ t' = reply_in env min_time now r from t).

Lemma dispatch_handled env min_time now ty body from t t' :
  dispatch env min_time now ty body from t = Some t' -> handled env min_time now from t t'.
Proof.
  unfold dispatch. repeat case_match; intros Hd.
  - apply (with_packet_inv (fun _ => True)) in Hd as (p & _ & ->); [by left|done].
  - apply (with_packet_inv wf) in Hd as (p & Hp & ->); [|apply load_fits, fresh_fits]. right. left. eexists. split; [|done]. exact Hp.
  - apply (with_packet_inv (fun _ => True)) in Hd as (p & _ & ->); [right; left; by eexists (Dht.kad2_bootstrap_req)|done].
  - apply (with_packet_inv wf) in Hd as (p & [(? & ? & ?) Hl] & ->); [|apply load_fits, fresh_fits]. right. right. eexists. split; [|done].
    apply packet_entries_fit in Hl as [? ?]. by split_and!.
  - apply (with_packet_inv (fun x => wf (h2_client_info (h2q_base x)))) in Hd as (p & (? & ? & ?) & ->).
    + right. left. eexists. split; [|done]. by split_and!.
    + eapply yields_bind; [by apply hello_base_fitting, fresh_fits|]. intros b Hb. by apply yields_ret.
  - apply (with_packet_inv (fun x => wf (h2_client_info (h2s_base x)))) in Hd as (p & (? & ? & ?) & ->).
    + right. right. eexists. split; [|done]. by split_and!.
    + eapply yields_bind; [by apply hello_base_fitting, fresh_fits|]. intros b Hb. by apply yields_ret.
  - apply (with_packet_inv wf) in Hd as (p & (? & ? & ?) & ->); [|apply load_fits, fresh_fits]. right. left. eexists. split; [|done]. by split_and!.
  - apply (with_packet_inv wf) in Hd as (p & [? Hl] & ->); [|apply load_fits, fresh_fits]. right. right. eexists. split; [|done].
    apply packet_entries_fit in Hl as [? ?]. by split_and!.
  - apply (with_packet_inv (fun _ => True)) in Hd as (p & _ & ->); [by left|done].
  - apply (with_packet_inv (fun _ => True)) in Hd as (p & _ & ->); [right; left; by eexists (Dht.kad2_ping)|done].
  - apply (with_packet_inv wf) in Hd as (p & Hp & ->); [|apply load_fits, fresh_fits]. right. right. eexists. split; [|done]. exact Hp.
  - injection Hd as <-. by left.
Qed.

Lemma request_fits_wf r : request_fits r -> request_wf r.
Proof. destruct r; cbn; tauto. Qed.
Lemma reply_fits_wf r : reply_fits r -> reply_wf r.
Proof.
  destruct r; cbn; try tauto.
  - intros (? & _ & _ & Hl & _). split; [done|]. eapply List.Forall_impl; [|exact Hl]. by intros e [].
  - intros (? & Hl & _). split; [done|]. eapply List.Forall_impl; [|exact Hl]. by intros e [].
Qed.

Lemma node_reached_step env min_time last now e n :
  node_reached env min_time last n -> last <= now -> event_wf e -> node_reached env min_time now (handle env min_time now e n).
Proof.
  intros (sb & restrict & mf & ext & crc & rnd & r & nid & port & now0 & events & Hid & Ht & -> & ->) Hle He.
  exists sb, restrict, mf, ext, crc, rnd, r, nid, port, now0, (events ++ [(now, e)]). split_and!; [done| | |].
  - by apply timely_snoc.
  - by rewrite last_time_snoc.
  - by rewrite run_snoc.
Qed.

(** C15: whatever bytes arrive from whatever address, the node does nothing or
    handles a message whose fields have their types, so its state is again one
    that a node reaches, with all that holds of these. *)
Theorem any_datagram_typed env min_time now uncompress from buf t last :
  node_reached env min_time last (m_dht t) -> last <= now ->
  exists t', handled env min_time now from t t' /\ m_dht (on_receive env min_time now uncompress from buf t) = m_dht t' /\
    exists last', last' <= now /\ node_reached env min_time last' (m_dht t').
Proof.
  intros Hn Hle.
  assert (exists t', handled env min_time now from t t' /\ m_dht (on_receive env min_time now uncompress from buf t) = m_dht t') as (t' & Ht & Heq).
  { unfold on_receive. destruct buf as [|p [|ty body]]; [by exists t; split; [left|]..|]. case_match; [|by exists t; split; [left|]].
    destruct (dispatch env min_time now (b2z ty) l from t) as [t'|] eqn:Hd; [|by exists t; split; [left|]].
    exists t'. split; [by eapply dispatch_handled|done]. }
  exists t'. split_and!; [done..|]. destruct Ht as [->|[(r & Hr & ->)|(r & Hr & ->)]].
  - by exists last.
  - exists now. split; [done|]. by apply (node_reached_step _ _ last now (do_incoming_request r from)); [..|apply request_fits_wf].
  - exists now. split; [done|]. by apply (node_reached_step _ _ last now (do_incoming r from)); [..|apply reply_fits_wf].
Qed.

Definition sample_message : kad_message :=
  reply_message (Dht.kademlia2_res (Hash (replicate 16 (z2b 3))) [Dht.KadEntry (Hash (replicate 16 (z2b 9))) 0x0100007F 4672 4662 5]).
Definition sample_tracker : dht_tracker :=
  tracker_new 0 0 5 true (Settings true 20) [z2b 10; z2b 0; z2b 0; z2b 1] (fun _ => 0) (fun _ => 0) 0 None 4662 0.
Definition sample_env : environment := Env (fun _ => true) (fun _ => true) (fun _ => hash_max) (0, 0).

Lemma datagram_delivered_witness :
  let datagram := udp_bytes (message_packet sample_message) in
  let from := ([z2b 1; z2b 2; z2b 3; z2b 4], 4672) in
  (exists ty, take 2 datagram = write_uint 1 OP_KADEMLIAHEADER ++ write_uint 1 ty /\ is_uint 1 ty /\ read_message ty (drop 2 datagram) = Some sample_message) /\
  on_receive sample_env 0 1000 (fun _ _ => None) from datagram sample_tracker =
    account 1000 from (Z.of_nat (length datagram)) (if handles sample_message then deliver sample_env 0 1000 sample_message from sample_tracker else sample_tracker) /\
  forall k, (k < length datagram)%nat ->
    let t' := on_receive sample_env 0 1000 (fun _ _ => None) from (take k datagram) sample_tracker in
    m_dht t' = m_dht sample_tracker /\ m_calls t' = m_calls sample_tracker.
Proof.
  apply (datagram_delivered sample_env 0 1000 (fun _ _ => None) ([z2b 1; z2b 2; z2b 3; z2b 4], 4672) sample_message sample_tracker).
  split_and!; [by vm_compute| |by vm_compute]. apply Forall_singleton. by split_and!; vm_compute.
Defined.

(** ** The ban table *)

Lemma dispatch_node env min_time now ty body from t t' :
  m_dht t = m_dht t' -> m_dht <$> dispatch env min_time now ty body from t = m_dht <$> dispatch env min_time now ty body from t'.
Proof.
  intros Ht. unfold dispatch, with_packet, request_in, reply_in.
  repeat case_match; cbn [fmap option_fmap option_map set_dht add_calls m_dht]; by rewrite ?Ht.
Qed.

(** The node sees the datagrams of a banned address: what the node becomes does
    not depend on the ban table nor on what was received before, since the table
    is looked up after the packet was handled. *)
Theorem ban_without_effect env min_time now uncompress from buf t t' :
  m_dht t = m_dht t' ->
  m_dht (on_receive env min_time now uncompress from buf t) = m_dht (on_receive env min_time now uncompress from buf t').
Proof.
  intros Ht. unfold on_receive. destruct buf as [|p [|ty body]]; [done..|]. case_match; [|done].
  pose proof (dispatch_node env min_time now (b2z ty) l from t t' Ht) as Hd.
  destruct (dispatch env min_time now (b2z ty) l from t), (dispatch env min_time now (b2z ty) l from t'); cbn in Hd; [|done..].
  by injection Hd.
Qed.

(** ** State *)

Definition endpoint_fits (e : endpoint) : Prop := address_wf (fst e) /\ is_uint 2 (snd e).

Lemma be_value_rev l : be_value (rev l) = le_combine l.
Proof.
  induction l as [|b l IH]; [done|]. cbn [rev].
  change (le_combine (b :: l)) with (Z.lor (b2z b) (Z.shiftl (le_combine l) 8)). rewrite be_value_app, IH, Z.lor_comm.
  rewrite Z_lor_shiftl_add by (try apply b2z_range; lia). cbn. lia.
Qed.

Lemma write_be_value w l : length l = w -> write_be w (be_value l) = l.
Proof.
  intros Hl. unfold write_be. rewrite <- (rev_involutive l) at 1. rewrite be_value_rev, split_le_combine' by (by rewrite length_rev).
  apply rev_involutive.
Qed.

Lemma be_value_write_be w v : is_uint w v -> be_value (write_be w v) = v.
Proof. intros. unfold write_be. rewrite be_value_rev. by apply le_combine_le_split. Qed.

Lemma length_write_be w v : length (write_be w v) = w.
Proof. unfold write_be. by rewrite length_rev, length_le_split. Qed.

Lemma endpoint_roundtrip e : endpoint_fits e -> read_v4_endpoint (write_endpoint e) = e.
Proof.
  destruct e as [a p]. intros [Ha Hp]. cbn [fst snd] in *. unfold read_v4_endpoint, write_endpoint. cbn [fst snd].
  rewrite take_app_length', drop_app_length' by (by rewrite length_write_be). rewrite take_ge by (by rewrite length_write_be).
  by rewrite !write_be_value, be_value_write_be by done.
Qed.

Lemma endpoints_of_written l : Forall endpoint_fits l -> endpoints_of ((fun e => e_string (write_endpoint e)) <$> l) = l.
Proof.
  induction 1 as [|e l He _ IH]; [done|]. cbn [fmap list_fmap endpoints_of].
  assert (length (write_endpoint e) = 6%nat) as -> by (unfold write_endpoint; by rewrite length_app, !length_write_be).
  by rewrite endpoint_roundtrip, IH by done.
Qed.

(** The two keys of the state, in the order of the dictionary. *)
Lemma dict_get_id v w : dict_get key_node_id (dict_set key_node_id v (dict_set key_nodes w [])) = Some v /\
  dict_get key_node_id (dict_set key_node_id v []) = Some v.
Proof. split; reflexivity. Qed.
Lemma dict_get_nodes v w : dict_get key_nodes (dict_set key_node_id v (dict_set key_nodes w [])) = Some w /\
  dict_get key_nodes (dict_set key_node_id v []) = None.
Proof. split; reflexivity. Qed.

Definition state_nodes (t : dht_tracker) : list node_entry :=
  all_nodes (n_table (m_dht t)) ++ replacement_cache (n_table (m_dht t)).

(** What [start] reads back from the state of [state] are the endpoints of the
    nodes in the routing table, live ones and replacements; but the identifier of
    the node is lost, since [state] writes 16 bytes and [extract_node_id] wants 20:
    a tracker made from the state has a generated identifier. *)
Theorem saved_state_restored t :
  Forall endpoint_fits (ep <$> state_nodes t) -> hash_wf (n_id (m_dht t)) ->
  initial_nodes (state t) = ep <$> state_nodes t /\ extract_node_id (Some (state t)) = hash_min.
Proof.
  intros Hn Hid. unfold state. cbv zeta. fold (state_nodes t).
  change (fun e => e_string (write_endpoint (ep e))) with ((fun e => e_string (write_endpoint e)) ∘ ep). rewrite list_fmap_compose.
  pose proof (endpoints_of_written _ Hn) as He. revert He.
  generalize ((fun e => e_string (write_endpoint e)) <$> (ep <$> state_nodes t)). intros nodes <-.
  assert ((length (m_hash (n_id (m_dht t))) =? 20)%nat = false) as Hl by (by rewrite Hid).
  unfold initial_nodes, extract_node_id. destruct nodes; rewrite (proj1 (dict_get_id _ _)) || rewrite (proj2 (dict_get_id _ (e_list []))); rewrite Hl; split; done || apply (proj2 (dict_get_nodes _ _)).
Qed.

Definition restored_table : routing_table :=
  Table 10 (Settings true 20) [Bucket [node_entry_new (Hash (replicate 16 (z2b 7))) ([z2b 5; z2b 6; z2b 7; z2b 8], 4672) false]
    [node_entry_new (Hash (replicate 16 (z2b 8))) ([z2b 1; z2b 2; z2b 3; z2b 4], 4672) true] 0] hash_max 0 0 0 [] [].

Lemma saved_state_restored_witness :
  let t := set_dht (set_table restored_table (m_dht sample_tracker)) sample_tracker in
  initial_nodes (state t) = ep <$> state_nodes t /\ extract_node_id (Some (state t)) = hash_min.
Proof.
  apply (saved_state_restored (set_dht (set_table restored_table (m_dht sample_tracker)) sample_tracker)); [|by vm_compute].
  repeat (apply Forall_cons_2; [by split; vm_compute|]). apply Forall_nil_2.
Defined.

Lemma ban_without_effect_witness :
  let banned := set_ban_nodes [BanEntry [z2b 1; z2b 2; z2b 3; z2b 4] 300000000 20] sample_tracker in
  let from := ([z2b 1; z2b 2; z2b 3; z2b 4], 4672) in
  let ping := udp_bytes (message_packet (request_message Dht.kad2_ping)) in
  m_dht (on_receive sample_env 0 1000 (fun _ _ => None) from ping banned) =
  m_dht (on_receive sample_env 0 1000 (fun _ _ => None) from ping sample_tracker).
Proof.
  apply (ban_without_effect sample_env 0 1000 (fun _ _ => None) ([z2b 1; z2b 2; z2b 3; z2b 4], 4672)
           (udp_bytes (message_packet (request_message Dht.kad2_ping)))). reflexivity.
Defined.

Lemma any_datagram_typed_witness :
  let from := ([z2b 1; z2b 2; z2b 3; z2b 4], 4672) in
  let buf := z2b <$> [0xE4; 0x21; 11; 1; 2; 3] in
  exists t', handled sample_env 0 1000 from sample_tracker t' /\
    m_dht (on_receive sample_env 0 1000 (fun _ _ => None) from buf sample_tracker) = m_dht t' /\
    exists last', last' <= 1000 /\ node_reached sample_env 0 last' (m_dht t').
Proof.
  apply (any_datagram_typed sample_env 0 1000 (fun _ _ => None) ([z2b 1; z2b 2; z2b 3; z2b 4], 4672)
           (z2b <$> [0xE4; 0x21; 11; 1; 2; 3]) sample_tracker 0); [|lia].
  exists 5, true, 20, [z2b 10; z2b 0; z2b 0; z2b 1], (fun _ => 0), (fun _ => 0), 0, hash_min, 4662, 0, [].
  split_and!; done.
Defined.
