(* ===== verification/ConnectionQueue.v ===== *)
(** * The connection queue: src/connection_queue.cpp

    Connection attempts wait here until few enough are under way; each may take its
    timeout.  The functions given for an attempt are known by its ticket; calls of
    them are events of a log.  [io_service::post] counts the calls of
    [on_try_connect] that are still to come, the timer is the time it is set to.

    [on_timeout] gives up the lock while it calls the functions of the attempts
    that timed out, and these may call the queue: it is modelled as two steps, with
    [q_next_expire] kept in between.  [try_connect] gives up the lock, too, before it
    calls [on_connect] of the attempts it has started; it is one step here, so that what
    these functions and other threads do to the queue comes after all of these calls. *)

From S2P Require Import Prelude.
From stdpp Require Import list.
Open Scope Z_scope.

(** [max_time()] of the configuration without boost date_time. *)
Definition max_time : Z := 2 ^ 64 - 1.
Definition milliseconds (n : Z) : Z := n * 1000.

(** [connection_queue::entry]. *)
Record attempt := Attempt { at_connecting : bool; at_ticket : Z; at_expires : Z; at_timeout : Z; at_priority : Z }.

Inductive queue_event := called_on_connect (ticket : Z) | called_on_timeout (ticket : Z).

Record connection_queue := Queue {
  q_queue : list attempt;
  q_next_ticket : Z;
  q_num_connecting : Z;
  q_half_open_limit : Z;
  q_abort : bool;
  q_timer : option Z;
  q_posts : nat;
  q_log : list queue_event;
  q_next_expire : option Z
}.

Definition set_queue (l : list attempt) (num : Z) (q : connection_queue) : connection_queue :=
  Queue l (q_next_ticket q) num (q_half_open_limit q) (q_abort q) (q_timer q) (q_posts q) (q_log q) (q_next_expire q).
Definition set_timer (d : option Z) (q : connection_queue) : connection_queue :=
  Queue (q_queue q) (q_next_ticket q) (q_num_connecting q) (q_half_open_limit q) (q_abort q) d (q_posts q) (q_log q) (q_next_expire q).
Definition set_posts (n : nat) (q : connection_queue) : connection_queue :=
  Queue (q_queue q) (q_next_ticket q) (q_num_connecting q) (q_half_open_limit q) (q_abort q) (q_timer q) n (q_log q) (q_next_expire q).
Definition log_events (l : list queue_event) (q : connection_queue) : connection_queue :=
  Queue (q_queue q) (q_next_ticket q) (q_num_connecting q) (q_half_open_limit q) (q_abort q) (q_timer q) (q_posts q) (q_log q ++ l) (q_next_expire q).
Definition set_next_expire (e : option Z) (q : connection_queue) : connection_queue :=
  Queue (q_queue q) (q_next_ticket q) (q_num_connecting q) (q_half_open_limit q) (q_abort q) (q_timer q) (q_posts q) (q_log q) e.

Definition queue_new : connection_queue := Queue [] 0 0 0 false None 0 [] None.

Definition free_slots (q : connection_queue) : Z :=
  if q_half_open_limit q =? 0 then 2 ^ 31 - 1 else q_half_open_limit q - Z.of_nat (length (q_queue q)).

(** Posts [on_try_connect] if there is a slot. *)
Definition post_if_free (q : connection_queue) : connection_queue :=
  if (q_num_connecting q <? q_half_open_limit q) || (q_half_open_limit q =? 0) then set_posts (S (q_posts q)) q else q.

Definition enqueue (timeout priority : Z) (q : connection_queue) : connection_queue :=
  let e := Attempt false (q_next_ticket q) max_time timeout priority in
  let l := if priority =? 0 then q_queue q ++ [e] else e :: q_queue q in
  post_if_free
    (Queue l (q_next_ticket q + 1) (q_num_connecting q) (q_half_open_limit q) (q_abort q) (q_timer q) (q_posts q) (q_log q) (q_next_expire q)).

Definition queue_done (ticket : Z) (q : connection_queue) : connection_queue :=
  match list_find (fun e => at_ticket e = ticket) (q_queue q) with
  | None => q
  | Some (i, e) =>
      post_if_free (set_queue (delete i (q_queue q)) (if at_connecting e then q_num_connecting q - 1 else q_num_connecting q) q)
  end.

(** The loop of [close] keeps the attempts of priority 2. *)
Definition kept_on_close (e : attempt) : bool := 1 <? at_priority e.

Definition queue_close (q : connection_queue) : connection_queue :=
  let q := if q_num_connecting q =? 0 then set_timer None q else q in
  let kept := filter (fun e => kept_on_close e = true) (q_queue q) in
  let closed := filter (fun e => kept_on_close e = false) (q_queue q) in
  log_events ((fun e => called_on_timeout (at_ticket e)) <$> closed)
    (Queue kept (q_next_ticket q) (Z.of_nat (length (filter (fun e => at_connecting e = true) kept)))
       (q_half_open_limit q) true (q_timer q) (q_posts q) (q_log q) (q_next_expire q)).

Definition queue_limit (limit : Z) (q : connection_queue) : connection_queue :=
  Queue (q_queue q) (q_next_ticket q) (q_num_connecting q) limit (q_abort q) (q_timer q) (q_posts q) (q_log q) (q_next_expire q).

(** The loop of [try_connect] over the rest [l] of the queue: the queue with the
    attempts that were started, these, their number and the timer. *)
Fixpoint start_attempts (now limit num : Z) (timer : option Z) (l : list attempt) : list attempt * list Z * Z * option Z :=
  match l with
  | [] => ([], [], num, timer)
  | e :: l =>
      if at_connecting e then
        let '(l', started, num', timer') := start_attempts now limit num timer l in (e :: l', started, num', timer')
      else
        let expire := now + at_timeout e in
        let timer := if num =? 0 then Some expire else timer in
        let e' := Attempt true (at_ticket e) expire (at_timeout e) (at_priority e) in
        if (limit <=? num + 1) && (0 <? limit) then (e' :: l, [at_ticket e], num + 1, timer)
        else let '(l', started, num', timer') := start_attempts now limit (num + 1) timer l in (e' :: l', at_ticket e :: started, num', timer')
  end.

Definition try_connect (now : Z) (q : connection_queue) : connection_queue :=
  if (q_half_open_limit q <=? q_num_connecting q) && (0 <? q_half_open_limit q) then q
  else
    match q_queue q with
    | [] => set_timer None q
    | l =>
        let '(l', started, num, timer) := start_attempts now (q_half_open_limit q) (q_num_connecting q) (q_timer q) l in
        log_events (called_on_connect <$> started) (set_timer timer (set_queue l' num q))
    end.

Definition on_try_connect (now : Z) (q : connection_queue) : connection_queue := try_connect now (set_posts (pred (q_posts q)) q).

(** The first half of [on_timeout]: the attempts that have timed out leave the queue
    and their functions are called. *)
Definition expired (now : Z) (e : attempt) : bool := at_connecting e && (at_expires e <? now + milliseconds 100).

Definition on_timeout (now : Z) (q : connection_queue) : connection_queue :=
  let timed_out := filter (fun e => expired now e = true) (q_queue q) in
  let rest := filter (fun e => expired now e = false) (q_queue q) in
  let next_expire := fold_left (fun m e => if at_expires e <? m then at_expires e else m) rest max_time in
  log_events ((fun e => called_on_timeout (at_ticket e)) <$> timed_out)
    (set_next_expire (Some next_expire) (set_timer None (set_queue rest (q_num_connecting q - Z.of_nat (length timed_out)) q))).

(** The second half, when the functions have returned. *)
Definition after_timeouts (now next_expire : Z) (q : connection_queue) : connection_queue :=
  let q := set_next_expire None q in
  try_connect now (if next_expire <? max_time then set_timer (Some next_expire) q else q).

(** ** Steps

    The calls of the users of the queue, also from within the functions it calls,
    and the handlers of the event loop, which runs one at a time.  The session closes
    its queue once. *)
Inductive queue_op :=
| op_enqueue (timeout priority : Z)
| op_done (ticket : Z)
| op_close
| op_limit (limit : Z)
| op_try_connect
| op_timeout
| op_after_timeouts.

Definition enabled (now : Z) (o : queue_op) (q : connection_queue) : Prop :=
  match o with
  | op_enqueue timeout priority => 0 <= timeout /\ 0 <= priority < 3
  | op_done _ => True
  | op_close => q_abort q = false
  | op_limit limit => 0 <= limit
  | op_try_connect => q_next_expire q = None /\ (0 < q_posts q)%nat
  | op_timeout => q_next_expire q = None /\ match q_timer q with Some d => d <= now | None => False end
  | op_after_timeouts => q_next_expire q <> None
  end.

Definition perform (now : Z) (o : queue_op) (q : connection_queue) : connection_queue :=
  match o with
  | op_enqueue timeout priority => enqueue timeout priority q
  | op_done ticket => queue_done ticket q
  | op_close => queue_close q
  | op_limit limit => queue_limit limit q
  | op_try_connect => on_try_connect now q
  | op_timeout => on_timeout now q
  | op_after_timeouts => match q_next_expire q with Some e => after_timeouts now e q | None => q end
  end.

(** The queue at time [now]; [Tmax] bounds the timeouts. *)
Inductive reached (Tmax : Z) : Z -> connection_queue -> Prop :=
| reached_new now : now + Tmax < max_time -> reached Tmax now queue_new
| reached_later now now' q : reached Tmax now q -> now <= now' -> now' + Tmax < max_time -> reached Tmax now' q
| reached_step now o q : reached Tmax now q -> enabled now o q ->
    match o with op_enqueue timeout _ => timeout <= Tmax | _ => True end -> reached Tmax now (perform now o q).

(** ** The invariant *)

Definition waiting (e : attempt) : Prop := at_connecting e = false.
Definition connecting (e : attempt) : Prop := at_connecting e = true.
#[global] Instance waiting_dec e : Decision (waiting e).
Proof. unfold waiting. apply _. Defined.
#[global] Instance connecting_dec e : Decision (connecting e).
Proof. unfold connecting. apply _. Defined.

Definition num_connecting (l : list attempt) : Z := Z.of_nat (length (filter connecting l)).
Definition tickets (l : list attempt) : list Z := at_ticket <$> l.

(** An attempt of the queue: one that is under way was started before and its timeout is
    set. *)
Definition attempt_ok (Tmax now : Z) (e : attempt) : Prop :=
  0 <= at_timeout e <= Tmax /\
  if at_connecting e then at_expires e - at_timeout e <= now else at_expires e = max_time.

Definition event_ticket (ev : queue_event) : Z := match ev with called_on_connect t | called_on_timeout t => t end.
Definition called (t : Z) (log : list queue_event) : list queue_event := filter (fun ev => event_ticket ev = t) log.

(** Which functions of an attempt were called. *)
Definition calls_ok (q : connection_queue) : Prop :=
  NoDup (tickets (q_queue q)) /\ Forall (fun t => t < q_next_ticket q) (tickets (q_queue q)) /\
  (forall e, e ∈ q_queue q -> called (at_ticket e) (q_log q) = if at_connecting e then [called_on_connect (at_ticket e)] else []) /\
  (forall t, called t (q_log q) ∈ [[]; [called_on_connect t]; [called_on_connect t; called_on_timeout t]; [called_on_timeout t]]) /\
  (forall t, q_next_ticket q <= t -> called t (q_log q) = []).

(** The timer is set when an attempt is under way, early enough for each. *)
Definition timer_ok (Tmax now : Z) (q : connection_queue) : Prop :=
  match q_next_expire q with
  | None =>
      (0 < q_num_connecting q -> q_timer q <> None) /\
      (forall d, q_timer q = Some d -> d <= now + Tmax /\ forall e, e ∈ q_queue q -> connecting e -> d <= at_expires e - at_timeout e + Tmax)
  | Some ne =>
      q_timer q = None /\ (ne < max_time -> ne <= now + Tmax) /\ forall e, e ∈ q_queue q -> connecting e -> ne <= at_expires e
  end.

(** An attempt that waits will be looked at again. *)
Definition waiting_ok (q : connection_queue) : Prop :=
  q_next_expire q = None -> Exists waiting (q_queue q) ->
  (0 < q_posts q)%nat \/ (q_timer q <> None /\ (q_abort q = false -> 0 < q_num_connecting q)).

Record queue_inv (Tmax now : Z) (q : connection_queue) : Prop := QueueInv {
  qi_now : now + Tmax < max_time;
  qi_limit : 0 <= q_half_open_limit q;
  qi_num : q_num_connecting q = num_connecting (q_queue q);
  qi_attempts : Forall (attempt_ok Tmax now) (q_queue q);
  qi_calls : calls_ok q;
  qi_timer : timer_ok Tmax now q;
  qi_waiting : waiting_ok q
}.

(** *** Lemmas on lists of attempts *)

Lemma num_connecting_nonneg l : 0 <= num_connecting l.
Proof. unfold num_connecting. lia. Qed.

Lemma num_connecting_cons e l : num_connecting (e :: l) = (if at_connecting e then 1 else 0) + num_connecting l.
Proof.
  unfold num_connecting. rewrite filter_cons. destruct (decide (connecting e)) as [->|Hc]; [cbn; lia|].
  apply not_true_is_false in Hc. rewrite Hc. cbn. lia.
Qed.

Lemma num_connecting_app l l' : num_connecting (l ++ l') = num_connecting l + num_connecting l'.
Proof. unfold num_connecting. rewrite filter_app, length_app. lia. Qed.

Lemma num_connecting_split (P : attempt -> bool) l :
  num_connecting l = num_connecting (filter (fun e => P e = true) l) + num_connecting (filter (fun e => P e = false) l).
Proof.
  induction l as [|e l IH]; [done|]. rewrite !filter_cons, num_connecting_cons.
  destruct (P e); repeat case_decide; try done; rewrite num_connecting_cons; lia.
Qed.

Lemma num_connecting_pos e l : e ∈ l -> connecting e -> 0 < num_connecting l.
Proof.
  intros He Hc. unfold num_connecting. assert (e ∈ filter connecting l) as H by (by apply list_elem_of_filter).
  destruct (filter connecting l); [by apply not_elem_of_nil in H|]. cbn. lia.
Qed.

Lemma num_connecting_some l : 0 < num_connecting l -> exists e, e ∈ l /\ connecting e.
Proof.
  unfold num_connecting. destruct (filter connecting l) as [|e f] eqn:Hf; [cbn; lia|]. intros _. exists e.
  assert (e ∈ filter connecting l) as H by (rewrite Hf; left). apply list_elem_of_filter in H. tauto.
Qed.

Lemma called_app t l l' : called t (l ++ l') = called t l ++ called t l'.
Proof. apply filter_app. Qed.

Lemma called_each t (f : Z -> queue_event) l :
  (forall t, event_ticket (f t) = t) -> NoDup l -> called t (f <$> l) = if decide (t ∈ l) then [f t] else [].
Proof.
  intros Hf Hl. induction Hl as [|u l Hu Hl IH]; [by rewrite decide_False by apply not_elem_of_nil|].
  unfold called in *. cbn [fmap list_fmap]. rewrite filter_cons, Hf, IH. destruct (decide (u = t)) as [->|Hne].
  - rewrite (decide_True _ _ (list_elem_of_here t l)). by rewrite (decide_False _ _ Hu).
  - destruct (decide (t ∈ l)); [by rewrite decide_True by (by right)|]. rewrite decide_False; [done|]. by intros [->|?]%elem_of_cons.
Qed.

#[global] Instance num_connecting_proper : Proper (Permutation ==> eq) num_connecting.
Proof. intros l l' Hl. unfold num_connecting. by rewrite Hl. Qed.

Lemma partition_permutation (P : attempt -> bool) l :
  l ≡ₚ filter (fun e => P e = true) l ++ filter (fun e => P e = false) l.
Proof.
  induction l as [|e l IH]; [done|]. rewrite !filter_cons. destruct (P e); repeat case_decide; try done.
  - cbn. by constructor.
  - etransitivity; [by apply perm_skip, IH|]. apply Permutation_middle.
Qed.

(** Attempts leave the queue; the timeout functions of those that did not end well
    are called. *)
Lemma calls_ok_leave q q' kept gone :
  calls_ok q -> q_queue q ≡ₚ kept ++ gone -> q_queue q' = kept -> q_next_ticket q' = q_next_ticket q ->
  q_log q' = q_log q \/ q_log q' = q_log q ++ (called_on_timeout <$> tickets gone) -> calls_ok q'.
Proof.
  intros (Hnd & Hlt & Hin & Hall & Hnew) Hp Hk Hn Hlog. unfold calls_ok. rewrite Hk, Hn.
  assert (tickets (q_queue q) ≡ₚ tickets kept ++ tickets gone) as Hpt by (unfold tickets; by rewrite Hp, fmap_app).
  rewrite Hpt in Hnd, Hlt. apply NoDup_app in Hnd as (Hndk & Hdis & Hndg). apply Forall_app in Hlt as [Hltk Hltg].
  assert (forall t, called t (q_log q') = called t (q_log q) \/
    (t ∈ tickets gone /\ called t (q_log q') = called t (q_log q) ++ [called_on_timeout t])) as Hc.
  { intros t. destruct Hlog as [->| ->]; [by left|]. rewrite called_app, called_each by done.
    case_decide; [by right|]. left. apply app_nil_r. }
  assert (forall e, e ∈ kept -> called (at_ticket e) (q_log q') = called (at_ticket e) (q_log q)) as Hck.
  { intros e He. destruct (Hc (at_ticket e)) as [?|[Hg _]]; [done|]. exfalso. apply (Hdis (at_ticket e)); [|done]. by apply list_elem_of_fmap_2. }
  split_and!; [done|done| | |].
  - intros e He. rewrite (Hck e He). apply Hin. rewrite Hp. apply elem_of_app. by left.
  - intros t. destruct (Hc t) as [->|[Hg ->]]; [apply Hall|]. apply list_elem_of_fmap in Hg as (e & -> & He).
    rewrite Hin by (rewrite Hp; apply elem_of_app; by right). destruct (at_connecting e); cbn; repeat (first [by left|right]).
  - intros t Ht. destruct (Hc t) as [->|[Hg _]]; [by apply Hnew|]. rewrite Forall_forall in Hltg. specialize (Hltg t Hg). lia.
Qed.

(** *** enqueue *)

Lemma enqueue_calls timeout priority q : calls_ok q -> calls_ok (enqueue timeout priority q).
Proof.
  intros (Hnd & Hlt & Hin & Hall & Hnew). set (e := Attempt false (q_next_ticket q) max_time timeout priority).
  assert (q_queue (enqueue timeout priority q) ≡ₚ e :: q_queue q) as Hp.
  { unfold enqueue, post_if_free. repeat case_match; cbn; try done; symmetry; apply Permutation_cons_append. }
  assert (q_log (enqueue timeout priority q) = q_log q) as Hl by (unfold enqueue, post_if_free; repeat case_match; done).
  assert (q_next_ticket (enqueue timeout priority q) = q_next_ticket q + 1) as Hn by (unfold enqueue, post_if_free; repeat case_match; done).
  unfold calls_ok. rewrite Hl, Hn. assert (tickets (q_queue (enqueue timeout priority q)) ≡ₚ q_next_ticket q :: tickets (q_queue q)) as Hpt
    by (unfold tickets; by rewrite Hp). rewrite Hpt. split_and!.
  - constructor; [|done]. intros H. rewrite Forall_forall in Hlt. specialize (Hlt _ H). lia.
  - constructor; [lia|]. eapply Forall_impl; [exact Hlt|]. cbv beta. lia.
  - intros f Hf. rewrite Hp in Hf. apply elem_of_cons in Hf as [->|Hf]; [apply Hnew; cbn; lia|by apply Hin].
  - done.
  - intros t Ht. apply Hnew. lia.
Qed.

(** *** try_connect *)

Definition start_attempt (now : Z) (e : attempt) : attempt :=
  Attempt true (at_ticket e) (now + at_timeout e) (at_timeout e) (at_priority e).

(** The attempts [ws] are started and [same] stay; if one is left waiting, the limit
    is reached. *)
Lemma start_attempts_spec now limit num timer l l' started num' timer' :
  start_attempts now limit num timer l = (l', started, num', timer') -> 0 <= num ->
  exists same ws, l ≡ₚ same ++ ws /\ l' ≡ₚ same ++ (start_attempt now <$> ws) /\ started = tickets ws /\ Forall waiting ws /\
    num' = num + Z.of_nat (length ws) /\
    timer' = (if num =? 0 then match ws with [] => timer | w :: _ => Some (now + at_timeout w) end else timer) /\
    (Exists waiting same -> 0 < limit <= num').
Proof.
  revert num timer l' started num' timer'. induction l as [|e l IH]; intros num timer l' started num' timer'; cbn [start_attempts].
  - intros [= <- <- <- <-] _. exists [], []. split_and!; try done; [cbn; lia|by case_match|by intros ?%Exists_nil].
  - destruct (at_connecting e) eqn:Hc.
    + destruct (start_attempts now limit num timer l) as [[[l1 s1] n1] t1] eqn:Hs. intros [= <- <- <- <-] Hn.
      destruct (IH _ _ _ _ _ _ Hs Hn) as (same & ws & Hl & Hl' & -> & Hw & -> & -> & Hex). exists (e :: same), ws.
      split_and!; try done; [by rewrite Hl|by rewrite Hl'|]. intros [He|?]%Exists_cons; [by rewrite He in Hc|auto].
    + destruct ((limit <=? num + 1) && (0 <? limit)) eqn:Hlim.
      * intros [= <- <- <- <-] Hn. exists l, [e]. split_and!; try done; [apply Permutation_cons_append|apply Permutation_cons_append|by repeat constructor|lia].
      * destruct (start_attempts now limit (num + 1) _ l) as [[[l1 s1] n1] t1] eqn:Hs. intros [= <- <- <- <-] Hn.
        destruct (IH _ _ _ _ _ _ Hs ltac:(lia)) as (same & ws & Hl & Hl' & -> & Hw & -> & -> & Hex). exists same, (e :: ws).
        split_and!; try done.
        -- rewrite Hl. apply Permutation_middle.
        -- rewrite Hl', fmap_cons. apply (Permutation_middle same (start_attempt now <$> ws) (start_attempt now e)).
        -- by constructor.
        -- cbn [length]. lia.
        -- destruct (Z.eqb_spec (num + 1) 0); [lia|]. done.
Qed.

Lemma start_calls q q' same ws now :
  calls_ok q -> q_queue q ≡ₚ same ++ ws -> Forall waiting ws -> q_queue q' ≡ₚ same ++ (start_attempt now <$> ws) ->
  q_next_ticket q' = q_next_ticket q -> q_log q' = q_log q ++ (called_on_connect <$> tickets ws) -> calls_ok q'.
Proof.
  intros (Hnd & Hlt & Hin & Hall & Hnew) Hp Hw Hp' Hn Hl.
  assert (tickets (q_queue q') ≡ₚ tickets (q_queue q)) as Ht.
  { unfold tickets. rewrite Hp, Hp', !fmap_app, <- list_fmap_compose. done. }
  assert (tickets (q_queue q) ≡ₚ tickets same ++ tickets ws) as Hpt by (unfold tickets; by rewrite Hp, fmap_app).
  unfold calls_ok. rewrite Ht, Hn, Hl. pose proof Hnd as Hnd'. rewrite Hpt in Hnd'. apply NoDup_app in Hnd' as (_ & Hdis & Hndw).
  assert (forall t, called t (q_log q ++ (called_on_connect <$> tickets ws)) =
    called t (q_log q) ++ (if decide (t ∈ tickets ws) then [called_on_connect t] else [])) as Hc
    by (intros t; by rewrite called_app, called_each).
  assert (forall e, e ∈ ws -> called (at_ticket e) (q_log q) = []) as Hws.
  { intros e He. rewrite Hin by (rewrite Hp; apply elem_of_app; by right). rewrite Forall_forall in Hw. by rewrite (Hw e He). }
  split_and!; [done|done| | |].
  - intros e He. rewrite Hp', elem_of_app in He. rewrite Hc. destruct He as [He|He].
    + rewrite decide_False, app_nil_r; [apply Hin; rewrite Hp; apply elem_of_app; by left|]. intros H.
      apply (Hdis (at_ticket e)); [|done]. by apply list_elem_of_fmap_2.
    + apply list_elem_of_fmap in He as (w & -> & He). cbn [start_attempt at_ticket at_connecting]. rewrite Hws by done.
      by rewrite decide_True by (by apply list_elem_of_fmap_2).
  - intros t. rewrite Hc. case_decide as Hd; [|rewrite app_nil_r; apply Hall].
    apply list_elem_of_fmap in Hd as (w & -> & He). rewrite Hws by done. cbn. right. by left.
  - intros t Hge. rewrite Hc, Hnew, decide_False by done || (intros H; rewrite Hpt, Forall_app, !Forall_forall in Hlt; destruct Hlt as [_ Hlt]; specialize (Hlt t H); lia). done.
Qed.

Lemma num_connecting_waiting l : Forall waiting l -> num_connecting l = 0.
Proof. induction 1 as [|e l He _ IH]; [done|]. rewrite num_connecting_cons, He. lia. Qed.

Lemma num_connecting_started now l : num_connecting (start_attempt now <$> l) = Z.of_nat (length l).
Proof. induction l as [|e l IH]; [done|]. rewrite fmap_cons, num_connecting_cons, IH. cbn. lia. Qed.

Lemma num_connecting_all l : Forall connecting l -> num_connecting l = Z.of_nat (length l).
Proof. induction 1 as [|e l He _ IH]; [done|]. rewrite num_connecting_cons, He, IH. cbn [length]. lia. Qed.

(** *** Every step keeps the invariant *)

(** All of the invariant but what [post_if_free] and [try_connect] establish. *)
Record pre_inv (Tmax now : Z) (q : connection_queue) : Prop := PreInv {
  pre_now : now + Tmax < max_time;
  pre_limit : 0 <= q_half_open_limit q;
  pre_num : q_num_connecting q = num_connecting (q_queue q);
  pre_attempts : Forall (attempt_ok Tmax now) (q_queue q);
  pre_calls : calls_ok q;
  pre_timer : timer_ok Tmax now q
}.

Lemma inv_pre Tmax now q : queue_inv Tmax now q -> pre_inv Tmax now q.
Proof. by intros []. Qed.

Lemma pre_inv_posts Tmax now n q : pre_inv Tmax now q -> pre_inv Tmax now (set_posts n q).
Proof. by intros []. Qed.

Lemma post_inv Tmax now q : pre_inv Tmax now q -> queue_inv Tmax now (post_if_free q).
Proof.
  intros Hp. unfold post_if_free. destruct (Z.ltb_spec (q_num_connecting q) (q_half_open_limit q)); [|destruct (Z.eqb_spec (q_half_open_limit q) 0)]; cbn [orb].
  1,2: destruct (pre_inv_posts _ _ (S (q_posts q)) _ Hp); split; try done; intros _ _; left; cbn; lia.
  destruct Hp as [? Hlim ? ? ? Ht]. split; try done. intros Hne _. right. unfold timer_ok in Ht. rewrite Hne in Ht.
  destruct Ht as [Ht _]. split; [apply Ht|]; lia.
Qed.

Lemma attempts_later Tmax now now' l : now <= now' -> Forall (attempt_ok Tmax now) l -> Forall (attempt_ok Tmax now') l.
Proof. intros Hle Hl. eapply Forall_impl; [exact Hl|]. intros e [? ?]. split; [done|]. destruct (at_connecting e); lia. Qed.

Lemma later_inv Tmax now now' q : queue_inv Tmax now q -> now <= now' -> now' + Tmax < max_time -> queue_inv Tmax now' q.
Proof.
  intros [? ? ? ? ? Ht ?] Hle Hmax. split; try done; [by eapply attempts_later|]. unfold timer_ok in *. case_match; [destruct Ht as (? & ? & ?); split_and!; [done|lia|done]|].
  destruct Ht as [? Ht]. split; [done|]. intros d Hd. destruct (Ht d Hd). split; [lia|done].
Qed.

(** Attempts leave the queue: a part of [queue_inv]. *)
Lemma timer_ok_leave Tmax now q q' kept gone :
  timer_ok Tmax now q -> q_num_connecting q = num_connecting (q_queue q) -> q_queue q ≡ₚ kept ++ gone -> q_queue q' = kept ->
  q_num_connecting q' = num_connecting kept -> q_next_expire q' = q_next_expire q -> q_timer q' = q_timer q -> timer_ok Tmax now q'.
Proof.
  intros Ht Hn Hp Hk Hn' He Htm. unfold timer_ok in *. rewrite He, Htm, Hk, Hn'.
  assert (forall e, e ∈ kept -> e ∈ q_queue q) as Hsub by (intros e ?; rewrite Hp; apply elem_of_app; by left).
  case_match; [destruct Ht as (? & ? & ?); split_and!; auto|]. destruct Ht as [H1 H2]. split.
  - intros H0. apply H1. rewrite Hn, Hp, num_connecting_app. pose proof (num_connecting_nonneg gone). lia.
  - intros d Hd. destruct (H2 d Hd). split; auto.
Qed.

Lemma enqueue_inv Tmax now timeout priority q :
  queue_inv Tmax now q -> 0 <= timeout <= Tmax -> queue_inv Tmax now (enqueue timeout priority q).
Proof.
  intros [Hnow Hlim Hnum Hat Hcalls Ht Hw] Hto. pose proof (enqueue_calls timeout priority q Hcalls) as Hc. unfold enqueue in *.
  set (e := Attempt false (q_next_ticket q) max_time timeout priority) in *.
  set (l := if priority =? 0 then q_queue q ++ [e] else e :: q_queue q) in *.
  assert (l ≡ₚ e :: q_queue q) as Hl by (unfold l; case_match; [symmetry; apply Permutation_cons_append|done]).
  apply post_inv. split; try done; cbn.
  - by rewrite Hl, num_connecting_cons.
  - rewrite Hl. by constructor.
  - unfold calls_ok, post_if_free in *. by repeat case_match.
  - unfold timer_ok in *. cbn. assert (forall f, f ∈ l -> connecting f -> f ∈ q_queue q) as Hin
      by (intros f Hf Hcf; rewrite Hl in Hf; apply elem_of_cons in Hf as [->|?]; done).
    case_match; [destruct Ht as (? & ? & ?); split_and!; eauto|]. destruct Ht as [H1 H2]. split; [done|]. intros d Hd. destruct (H2 d Hd). split; eauto.
Qed.

Lemma done_inv Tmax now ticket q : queue_inv Tmax now q -> queue_inv Tmax now (queue_done ticket q).
Proof.
  intros Hq. unfold queue_done. destruct (list_find _ _) as [[i e]|] eqn:Hf; [|done].
  apply list_find_Some in Hf as (Hi & _ & _). apply post_inv. destruct Hq as [Hnow Hlim Hnum Hat Hcalls Ht Hw].
  assert (q_queue q ≡ₚ delete i (q_queue q) ++ [e]) as Hp by (rewrite <- Permutation_cons_append; by apply delete_Permutation).
  assert (num_connecting (delete i (q_queue q)) = (if at_connecting e then q_num_connecting q - 1 else q_num_connecting q)) as Hn.
  { pose proof (num_connecting_proper _ _ Hp) as Hn. rewrite num_connecting_app, num_connecting_cons in Hn.
    change (num_connecting []) with 0 in Hn. case_match; lia. }
  split; try done; cbn.
  - rewrite Hp in Hat. by apply Forall_app in Hat as [? _].
  - eapply (calls_ok_leave q); [done|exact Hp|done|done|by left].
  - eapply (timer_ok_leave _ _ q); [done|done|exact Hp|done|by cbn; rewrite Hn|done|done].
Qed.

Lemma close_inv Tmax now q : queue_inv Tmax now q -> q_abort q = false -> queue_inv Tmax now (queue_close q).
Proof.
  intros [Hnow Hlim Hnum Hat Hcalls Ht Hw] Hab. unfold queue_close. set (q1 := if q_num_connecting q =? 0 then set_timer None q else q).
  assert (q_queue q1 = q_queue q /\ q_next_ticket q1 = q_next_ticket q /\ q_log q1 = q_log q /\ q_half_open_limit q1 = q_half_open_limit q /\
    q_posts q1 = q_posts q /\ q_next_expire q1 = q_next_expire q /\ q_num_connecting q1 = q_num_connecting q) as (Hq1 & Ht1 & Hl1 & Hli1 & Hp1 & Hne1 & Hn1)
    by (unfold q1; by case_match).
  assert (timer_ok Tmax now q1) as Htq1.
  { unfold q1. destruct (Z.eqb_spec (q_num_connecting q) 0); [|done]. unfold timer_ok in *. cbn. case_match; [by destruct Ht as (_ & ? & ?)|]. split; [lia|done]. }
  pose proof (partition_permutation kept_on_close (q_queue q)) as Hp. cbv zeta. rewrite Hq1.
  set (kept := filter (fun e => kept_on_close e = true) (q_queue q)) in *. set (closed := filter (fun e => kept_on_close e = false) (q_queue q)) in *.
  split; try done; cbn.
  - by rewrite Hli1.
  - rewrite Hp in Hat. by apply Forall_app in Hat as [? _].
  - eapply (calls_ok_leave q); [done|exact Hp|done|done|]. right. cbn. rewrite Hl1. unfold tickets. by rewrite <- list_fmap_compose.
  - eapply (timer_ok_leave _ _ q1 _ kept closed); try done; [by rewrite Hn1, Hq1|by rewrite Hq1].
  - intros Hne Hex. cbn in *. rewrite Hne1 in Hne. rewrite Hp1. destruct (Hw Hne) as [?|[Htm Hc]].
    + rewrite Hp. apply Exists_app. by left.
    + by left.
    + right. specialize (Hc Hab). split; [|done]. unfold q1. destruct (Z.eqb_spec (q_num_connecting q) 0); [lia|done].
Qed.

Lemma limit_inv Tmax now limit q : queue_inv Tmax now q -> 0 <= limit -> queue_inv Tmax now (queue_limit limit q).
Proof. by intros [] ?. Qed.

Lemma try_connect_inv Tmax now q : pre_inv Tmax now q -> q_next_expire q = None -> queue_inv Tmax now (try_connect now q).
Proof.
  intros [Hnow Hlim Hnum Hat Hcalls Ht] Hne. pose proof Ht as Ht'. unfold timer_ok in Ht'. rewrite Hne in Ht'. destruct Ht' as [Ht1 Ht2].
  unfold try_connect. destruct ((q_half_open_limit q <=? q_num_connecting q) && (0 <? q_half_open_limit q)) eqn:Hfull.
  { split; try done. intros _ _. right. assert (0 < q_num_connecting q) by lia. auto. }
  destruct (q_queue q) as [|e0 l0] eqn:Hq0.
  { split; try done; cbn; rewrite ?Hq0; [done|done| |intros _; cbn; rewrite Hq0; by intros ?%Exists_nil]. unfold timer_ok. cbn. rewrite Hne, Hnum. split; [|done]. by cbn. }
  rewrite <- Hq0 in *. clear Hq0 e0 l0. destruct (start_attempts _ _ _ _ _) as [[[l' started] num'] timer'] eqn:Hs.
  apply start_attempts_spec in Hs as (same & ws & Hl & Hl' & -> & Hw & -> & -> & Hex); [|rewrite Hnum; apply num_connecting_nonneg].
  rewrite Hl in Hat. apply Forall_app in Hat as [Hat1 Hat2]. pose proof (num_connecting_proper _ _ Hl) as Hn.
  rewrite num_connecting_app, (num_connecting_waiting ws) in Hn by done.
  pose proof (num_connecting_nonneg same). assert (forall e, e ∈ l' -> e ∈ same \/ exists w, w ∈ ws /\ e = start_attempt now w) as Hin.
  { intros e He. rewrite Hl', elem_of_app in He. destruct He as [?|(w & -> & ?)%list_elem_of_fmap]; eauto. }
  split; try done; cbn.
  - rewrite Hl', num_connecting_app, num_connecting_started. lia.
  - rewrite Hl'. apply Forall_app. split; [done|]. apply Forall_fmap. eapply Forall_impl; [exact Hat2|]. intros w [? _]. split; cbn; lia.
  - by eapply (start_calls q).
  - unfold timer_ok. cbn. rewrite Hne. rewrite Forall_forall in Hat2. split.
    + intros Hpos. destruct (Z.eqb_spec (q_num_connecting q) 0); [|apply Ht1; lia]. destruct ws; [cbn in Hpos; lia|done].
    + intros d Hd. destruct (Z.eqb_spec (q_num_connecting q) 0) as [H0|H0].
      * destruct ws as [|w ws].
        -- destruct (Ht2 d Hd) as [? Hd2]. split; [done|]. intros e He He'. destruct (Hin e He) as [?|(? & []%not_elem_of_nil & _)].
           apply Hd2; [rewrite Hl, app_nil_r|]; done.
        -- injection Hd as <-. destruct (Hat2 w ltac:(left)) as [? _]. split; [lia|]. intros e He He'.
           destruct (Hin e He) as [Hsame|(u & Hu & ->)]; [|cbn; lia]. pose proof (num_connecting_pos e same Hsame He'). lia.
      * destruct (Ht2 d Hd) as [? Hd2]. split; [done|]. intros e He He'. destruct (Hin e He) as [Hsame|(u & Hu & ->)]; [|cbn; lia].
        apply Hd2; [|done]. rewrite Hl. apply elem_of_app. by left.
  - intros _ Hw'. right. cbn in *. assert (Exists waiting same) as Hsame.
    { apply Exists_exists in Hw' as (e & He & Hwe). destruct (Hin e He) as [?|(u & _ & ->)]; [|done]. apply Exists_exists. eauto. }
    specialize (Hex Hsame). split; [|lia]. destruct (Z.eqb_spec (q_num_connecting q) 0); [|apply Ht1; lia]. destruct ws; [cbn in Hex; lia|done].
Qed.

(** The earliest time an attempt that is left expires. *)
Definition earliest (l : list attempt) : Z := fold_left (fun m e => if at_expires e <? m then at_expires e else m) l max_time.

Lemma earliest_from m l :
  let r := fold_left (fun m e => if at_expires e <? m then at_expires e else m) l m in
  r <= m /\ (forall e, e ∈ l -> r <= at_expires e) /\ (r = m \/ exists e, e ∈ l /\ r = at_expires e).
Proof.
  revert m. induction l as [|e l IH]; intros m; cbn [fold_left].
  - split_and!; [lia|by intros ? ?%not_elem_of_nil|by left].
  - destruct (IH (if at_expires e <? m then at_expires e else m)) as (H1 & H2 & H3).
    assert (e ∈ e :: l) by left. destruct (Z.ltb_spec (at_expires e) m).
    + split_and!; [lia| |].
      * intros f [->|?]%elem_of_cons; [lia|auto].
      * right. destruct H3 as [->|(f & ? & ->)]; [eauto|]. exists f. split; [by right|done].
    + split_and!; [lia| |].
      * intros f [->|?]%elem_of_cons; [lia|auto].
      * destruct H3 as [->|(f & ? & ->)]; [by left|]. right. exists f. split; [by right|done].
Qed.

Lemma attempt_expires Tmax now e : attempt_ok Tmax now e -> connecting e -> at_expires e <= now + Tmax.
Proof. intros [? H] Hc. rewrite Hc in H. lia. Qed.

Lemma on_timeout_inv Tmax now q :
  queue_inv Tmax now q -> q_next_expire q = None -> queue_inv Tmax now (on_timeout now q).
Proof.
  intros [Hnow Hlim Hnum Hat Hcalls Ht Hw] Hne. unfold on_timeout. cbv zeta.
  pose proof (partition_permutation (fun e => expired now e) (q_queue q)) as Hp. cbv beta in Hp.
  set (timed_out := filter (fun e => expired now e = true) (q_queue q)) in *. set (rest := filter (fun e => expired now e = false) (q_queue q)) in *.
  fold (earliest rest). rewrite Permutation_app_comm in Hp.
  assert (Forall connecting timed_out) as Hto.
  { apply Forall_forall. intros e [He _]%list_elem_of_filter. unfold expired in He. by apply andb_true_iff in He as [? _]. }
  pose proof (num_connecting_proper _ _ Hp) as Hn. rewrite num_connecting_app, (num_connecting_all timed_out) in Hn by done.
  pose proof Hat as Hat'. rewrite Hp in Hat'. apply Forall_app in Hat' as [Hatr _]. rewrite Forall_forall in Hatr.
  split; try done; cbn.
  - lia.
  - by apply Forall_forall.
  - eapply (calls_ok_leave q _ rest timed_out); [done|exact Hp|done|done|]. right. cbn. unfold tickets. by rewrite <- list_fmap_compose.
  - unfold timer_ok. cbn. destruct (earliest_from max_time rest) as (_ & H2 & H3). split_and!; [done| |intros e He _; by apply H2].
    intros Hlt. unfold earliest in *. destruct H3 as [H3|(e & He & H3)]; [lia|]. rewrite H3 in *. apply attempt_expires; [by apply Hatr|].
    destruct (at_connecting e) eqn:Hc; [done|]. exfalso. destruct (Hatr e He) as [_ H]. rewrite Hc in H. lia.
Qed.

Lemma after_timeouts_inv Tmax now ne q :
  queue_inv Tmax now q -> q_next_expire q = Some ne -> queue_inv Tmax now (after_timeouts now ne q).
Proof.
  intros [Hnow Hlim Hnum Hat Hcalls Ht Hw] Hne. unfold timer_ok in Ht. rewrite Hne in Ht. destruct Ht as (Htm & Hle & Hall).
  unfold after_timeouts. apply try_connect_inv; [|by case_match].
  assert (forall e, e ∈ q_queue q -> connecting e -> at_expires e <= at_expires e - at_timeout e + Tmax /\ at_expires e <= now + Tmax) as Hb.
  { intros e He Hc. rewrite Forall_forall in Hat. pose proof (Hat e He) as Ha. pose proof (attempt_expires _ _ _ Ha Hc). destruct Ha. lia. }
  assert (timer_ok Tmax now (if ne <? max_time then set_timer (Some ne) (set_next_expire None q) else set_next_expire None q)) as Ht.
  { destruct (Z.ltb_spec ne max_time) as [Hlt|Hge]; unfold timer_ok; cbn.
    - split; [done|]. intros d [= <-]. split; [by apply Hle|]. intros e He Hc. specialize (Hall e He Hc). destruct (Hb e He Hc). lia.
    - split; [|by rewrite Htm]. intros Hpos. rewrite Hnum in Hpos. apply num_connecting_some in Hpos as (e & He & Hc).
      specialize (Hall e He Hc). destruct (Hb e He Hc). lia. }
  case_match; by split.
Qed.

Theorem queue_inv_reached Tmax now q : 0 <= Tmax -> reached Tmax now q -> queue_inv Tmax now q.
Proof.
  intros HT Hr. induction Hr as [now Hnow|now now' q _ IH Hle Hmax|now o q _ IH He Ho].
  - split; try done; [|by intros _ ?%Exists_nil].
    split_and!; [constructor|constructor|by intros e ?%not_elem_of_nil|intros t; cbn; left|done].
  - by eapply later_inv.
  - destruct o; cbn [perform enabled] in *.
    + apply enqueue_inv; [done|lia].
    + by apply done_inv.
    + by apply close_inv.
    + by apply limit_inv.
    + destruct He as [Hne _]. apply try_connect_inv; [|done]. by apply pre_inv_posts, inv_pre.
    + destruct He as [Hne _]. by apply on_timeout_inv.
    + destruct (q_next_expire q) eqn:Hne; [|done]. by apply after_timeouts_inv.
Qed.

(** ** Theorems *)

(** The assertions of [check_invariant]. *)
Definition check_queue (q : connection_queue) : bool :=
  forallb (fun e => at_connecting e || (at_expires e =? max_time)) (q_queue q) &&
  (num_connecting (q_queue q) =? q_num_connecting q).

(** C29: the contract of the functions of an attempt: they are called in one of the
    three orders the code documents, on_connect alone, on_connect and then
    on_timeout, or on_timeout alone, or not at all; for an attempt in the queue
    on_connect was called exactly if it is under way, and on_timeout was not.  The
    assertions of [check_invariant] hold in all states. *)
Theorem connection_calls Tmax now q :
  0 <= Tmax -> reached Tmax now q ->
  check_queue q = true /\
  (forall t, called t (q_log q) ∈ [[]; [called_on_connect t]; [called_on_connect t; called_on_timeout t]; [called_on_timeout t]]) /\
  (forall e, e ∈ q_queue q -> called (at_ticket e) (q_log q) = if at_connecting e then [called_on_connect (at_ticket e)] else []).
Proof.
  intros HT Hr. destruct (queue_inv_reached _ _ _ HT Hr) as [_ _ Hnum Hat (_ & _ & Hin & Hall & _) _ _]. split_and!; [|done|done].
  unfold check_queue. apply andb_true_iff. split; [|by apply Z.eqb_eq].
  apply forallb_forall. intros e He. rewrite Forall_forall in Hat. destruct (Hat e) as [_ H]; [by apply list_elem_of_In|].
  destruct (at_connecting e); [done|]. by apply Z.eqb_eq.
Qed.

Lemma attempts_not_forgotten_timer Tmax now q e :
  queue_inv Tmax now q -> q_next_expire q = None -> e ∈ q_queue q -> connecting e ->
  exists d, q_timer q = Some d /\ d <= at_expires e - at_timeout e + Tmax.
Proof.
  intros [_ _ Hnum _ _ Ht _] Hne He Hc. unfold timer_ok in Ht. rewrite Hne in Ht. destruct Ht as [H1 H2].
  destruct (q_timer q) as [d|]; [|exfalso].
  - exists d. split; [done|]. by apply (proj2 (H2 d eq_refl)).
  - apply H1; [|done]. rewrite Hnum. by eapply num_connecting_pos.
Qed.

(** An attempt that waits is not forgotten: [on_try_connect] is posted or the
    timer is set; and one that is under way has the timer set, to at most the
    longest timeout after its start. *)
Theorem attempts_not_forgotten Tmax now q :
  0 <= Tmax -> reached Tmax now q -> q_next_expire q = None ->
  (Exists waiting (q_queue q) -> (0 < q_posts q)%nat \/ q_timer q <> None) /\
  (forall e, e ∈ q_queue q -> connecting e -> exists d, q_timer q = Some d /\ d <= at_expires e - at_timeout e + Tmax).
Proof.
  intros HT Hr Hne. destruct (queue_inv_reached _ _ _ HT Hr) as [_ _ _ _ _ _ Hw]. split.
  - intros Hex. destruct (Hw Hne Hex) as [?|[? _]]; auto.
  - intros e He Hc. by apply (attempts_not_forgotten_timer Tmax now q e (queue_inv_reached _ _ _ HT Hr)).
Qed.

(** *** Which attempts are started *)

(** The tickets of the attempts that wait, in the order of the queue. *)
Definition waiting_tickets (l : list attempt) : list Z := tickets (filter waiting l).

(** How many of [n] attempts may be started. *)
Definition slots (limit num : Z) (n : nat) : nat := if limit =? 0 then n else Nat.min n (Z.to_nat (limit - num)).

Lemma start_attempts_first now limit num timer l :
  0 <= limit -> (limit = 0 \/ num < limit) ->
  let '(l', started, num', _) := start_attempts now limit num timer l in
  let k := slots limit num (length (waiting_tickets l)) in
  started = take k (waiting_tickets l) /\ waiting_tickets l' = drop k (waiting_tickets l) /\ tickets l' = tickets l /\ num' = num + Z.of_nat k.
Proof.
  intros Hl. revert num timer. induction l as [|e l IH]; intros num timer Hlim; cbn [start_attempts].
  { unfold slots. cbn. case_match; cbn; split_and!; try done; lia. }
  unfold waiting_tickets in *. rewrite filter_cons. destruct (at_connecting e) eqn:Hc.
  - rewrite decide_False by (unfold waiting; by rewrite Hc). specialize (IH num timer Hlim).
    destruct (start_attempts now limit num timer l) as [[[l1 s1] n1] t1]. cbv zeta in *. destruct IH as (-> & Hw & Ht & ->).
    rewrite filter_cons, decide_False by (unfold waiting; by rewrite Hc). split_and!; try done. exact (f_equal (cons (at_ticket e)) Ht).
  - rewrite decide_True by done. cbn [tickets fmap list_fmap length]. fold (tickets (filter waiting l)).
    destruct ((limit <=? num + 1) && (0 <? limit)) eqn:Hfull.
    + assert (slots limit num (S (length (tickets (filter waiting l)))) = 1%nat) as -> by (unfold slots; case_match; lia).
      rewrite filter_cons, decide_False by done. cbn. rewrite take_0, drop_0. split_and!; try done; lia.
    + assert (limit = 0 \/ num + 1 < limit) as Hlim' by lia. specialize (IH (num + 1) (if num =? 0 then Some (now + at_timeout e) else timer) Hlim').
      destruct (start_attempts now limit (num + 1) _ l) as [[[l1 s1] n1] t1]. cbv zeta in *. destruct IH as (-> & Hw & Ht & ->).
      assert (slots limit num (S (length (tickets (filter waiting l)))) = S (slots limit (num + 1) (length (tickets (filter waiting l))))) as ->
        by (unfold slots; case_match; lia).
      rewrite filter_cons, decide_False by done. cbn. rewrite Hw. split_and!; try done; [exact (f_equal (cons (at_ticket e)) Ht)|lia].
Qed.

(** [try_connect] starts the attempts that have waited at the front of the queue,
    in this order, as many as the limit of half-open connections allows (all of
    them if there is no limit), and calls their functions; the others keep waiting
    in their order. *)
Theorem try_connect_starts Tmax now q :
  0 <= Tmax -> reached Tmax now q ->
  let q' := try_connect now q in
  let k := slots (q_half_open_limit q) (q_num_connecting q) (length (waiting_tickets (q_queue q))) in
  q_log q' = q_log q ++ (called_on_connect <$> take k (waiting_tickets (q_queue q))) /\
  waiting_tickets (q_queue q') = drop k (waiting_tickets (q_queue q)) /\ tickets (q_queue q') = tickets (q_queue q) /\
  q_num_connecting q' = q_num_connecting q + Z.of_nat k.
Proof.
  intros HT Hr. destruct (queue_inv_reached _ _ _ HT Hr) as [_ Hlim _ _ _ _ _]. cbv zeta. unfold try_connect.
  destruct ((q_half_open_limit q <=? q_num_connecting q) && (0 <? q_half_open_limit q)) eqn:Hfull.
  - assert (slots (q_half_open_limit q) (q_num_connecting q) (length (waiting_tickets (q_queue q))) = 0%nat) as -> by (unfold slots; case_match; lia).
    rewrite take_0, drop_0, app_nil_r. split_and!; try done. lia.
  - destruct (q_queue q) as [|e l] eqn:Hq; [|rewrite <- Hq].
    + cbn. rewrite take_nil, drop_nil, app_nil_r, Hq. unfold slots. split_and!; try done. case_match; cbn; lia.
    + pose proof (start_attempts_first now (q_half_open_limit q) (q_num_connecting q) (q_timer q) (q_queue q) Hlim ltac:(lia)) as H.
      destruct (start_attempts _ _ _ _ _) as [[[l' started] num'] timer']. cbv zeta in H. destruct H as (-> & Hw & Ht & ->). by split_and!.
Qed.

(** *** Timeouts come *)

(** The timer goes off [k] times and nothing else happens. *)
Fixpoint timer_runs (k : nat) (now : Z) (q : connection_queue) : Z * connection_queue :=
  match k, q_timer q with
  | S k, Some d =>
      let t := Z.max now d in
      let q := on_timeout t q in
      match q_next_expire q with
      | Some ne => timer_runs k t (after_timeouts t ne q)
      | None => (t, q)
      end
  | _, _ => (now, q)
  end.

Lemma try_connect_keeps now q e :
  e ∈ q_queue q -> connecting e -> q_num_connecting q = num_connecting (q_queue q) ->
  e ∈ q_queue (try_connect now q) /\ q_timer (try_connect now q) = q_timer q.
Proof.
  intros He Hc Hnum. pose proof (num_connecting_pos e _ He Hc) as Hpos. unfold try_connect. case_match; [done|].
  destruct (q_queue q) as [|e0 l0] eqn:Hq; [by apply not_elem_of_nil in He|]. rewrite <- Hq in *.
  destruct (start_attempts _ _ _ _ _) as [[[l' started] num'] timer'] eqn:Hs.
  apply start_attempts_spec in Hs as (same & ws & Hl & Hl' & _ & Hw & _ & -> & _); [|lia]. cbn. split.
  - rewrite Hl, elem_of_app in He. rewrite Hl', elem_of_app. left. destruct He as [?|He]; [done|].
    rewrite Forall_forall in Hw. specialize (Hw e He). congruence.
  - destruct (Z.eqb_spec (q_num_connecting q) 0); [lia|done].
Qed.

(** One run of the timer: the attempt times out, or the timer is set to a later time
    before it expires. *)
Lemma timer_run Tmax now q e d :
  queue_inv Tmax now q -> q_next_expire q = None -> q_timer q = Some d -> d <= now -> e ∈ q_queue q -> connecting e ->
  let q1 := on_timeout now q in
  exists ne, q_next_expire q1 = Some ne /\ let q2 := after_timeouts now ne q1 in
  queue_inv Tmax now q2 /\
  (called_on_timeout (at_ticket e) ∈ q_log q2 \/
   (e ∈ q_queue q2 /\ q_next_expire q2 = None /\ exists d', q_timer q2 = Some d' /\ now + milliseconds 100 <= d' <= at_expires e)).
Proof.
  intros Hinv Hne Hd Hle He Hc. cbv zeta. pose proof (on_timeout_inv _ _ _ Hinv Hne) as Hi1.
  exists (earliest (filter (fun e => expired now e = false) (q_queue q))). split; [done|].
  set (q1 := on_timeout now q) in *. set (ne := earliest _). pose proof (after_timeouts_inv _ _ ne _ Hi1 eq_refl) as Hi2. split; [done|].
  assert (forall ev, ev ∈ q_log q1 -> ev ∈ q_log (after_timeouts now ne q1)) as Hlog.
  { intros ev Hev. unfold after_timeouts, try_connect. cbn zeta.
    repeat case_match; cbn; try done; apply elem_of_app; by left. }
  destruct (expired now e) eqn:Hx.
  - left. apply Hlog. cbn. apply elem_of_app. right. apply (list_elem_of_fmap_2 (fun e => called_on_timeout (at_ticket e))). by apply list_elem_of_filter.
  - right. assert (e ∈ q_queue q1) as He1 by (by apply list_elem_of_filter).
    destruct Hinv as [Hnow _ _ Hat _ _ _]. rewrite Forall_forall in Hat. pose proof (attempt_expires _ _ _ (Hat e He) Hc) as Hex.
    destruct (earliest_from max_time (q_queue q1)) as (_ & H2 & H3). change (fold_left _ (q_queue q1) max_time) with ne in H2, H3.
    specialize (H2 e He1). unfold expired, connecting in Hx, Hc. rewrite Hc in Hx. cbn in Hx.
    assert ((ne <? max_time) = true) as Hlt by lia. unfold after_timeouts. rewrite Hlt.
    destruct (try_connect_keeps now (set_timer (Some ne) (set_next_expire None q1)) e) as [H6 H7]; [exact He1|exact Hc|by destruct Hi1|].
    split_and!; [exact H6| |].
    + unfold try_connect. repeat case_match; done.
    + exists ne. split; [by rewrite H7|]. split; [|done]. destruct H3 as [->|(f & Hf & ->)]; [lia|].
      apply list_elem_of_filter in Hf as [Hfx Hf]. unfold expired in Hfx. destruct (Hat f Hf) as [_ Hfo].
      destruct (at_connecting f); cbn in Hfx; lia.
Qed.

Lemma timer_runs_out Tmax (n : nat) now q e d :
  queue_inv Tmax now q -> q_next_expire q = None -> q_timer q = Some d -> e ∈ q_queue q -> connecting e ->
  let last := Z.max now (at_expires e - at_timeout e + Tmax) in
  last + Tmax < max_time -> at_expires e - Z.max now d < Z.of_nat n ->
  exists k t q', timer_runs k now q = (t, q') /\ now <= t <= last /\ called_on_timeout (at_ticket e) ∈ q_log q'.
Proof.
  revert now q d. induction n as [|n IH]; intros now q d Hinv Hne Hd He Hc last Hlast Hn.
  all: assert (attempt_ok Tmax now e) as Ha by (destruct Hinv as [_ _ _ Hat _ _ _]; rewrite Forall_forall in Hat; auto).
  all: assert (Z.max now d <= last) as Hdl by (destruct Hinv as [_ _ _ _ _ Ht _]; unfold timer_ok in Ht; rewrite Hne in Ht; destruct Ht as [_ Ht]; destruct (Ht d Hd) as [_ H]; specialize (H e He Hc); unfold last; lia).
  all: pose proof (later_inv Tmax now (Z.max now d) q Hinv ltac:(lia) ltac:(lia)) as Hinv'.
  all: destruct (timer_run Tmax (Z.max now d) q e d Hinv' Hne Hd ltac:(lia) He Hc) as (ne & Hq1 & Hi2 & [Hgone|(He2 & Hne2 & d' & Hd' & Hb)]).
  1,3: exists 1%nat, (Z.max now d), (after_timeouts (Z.max now d) ne (on_timeout (Z.max now d) q)); cbn [timer_runs]; rewrite Hd; cbv zeta; rewrite Hq1; split_and!; [done|lia|lia|done].
  1: change (milliseconds 100) with 100000 in Hb; lia.
  change (milliseconds 100) with 100000 in Hb.
  destruct (IH (Z.max now d) _ d' Hi2 Hne2 Hd' He2 Hc) as (k & t & q' & Hk & Ht & Hcall).
  - unfold last in *. lia.
  - lia.
  - exists (S k), t, q'. cbn [timer_runs]. rewrite Hd. cbv zeta. rewrite Hq1, Hk. split_and!; [done|lia|unfold last in *; lia|done].
Qed.

(** C30: an attempt that is under way ends: if it is not reported as done, the timer
    calls its on_timeout, at most the longest timeout after the attempt was
    started. *)
Theorem attempt_times_out Tmax now q e :
  0 <= Tmax -> reached Tmax now q -> q_next_expire q = None -> now + 2 * Tmax < max_time -> e ∈ q_queue q -> connecting e ->
  exists k t q', timer_runs k now q = (t, q') /\ now <= t <= Z.max now (at_expires e - at_timeout e + Tmax) /\
    called_on_timeout (at_ticket e) ∈ q_log q'.
Proof.
  intros HT Hr Hne Hmax He Hc. pose proof (queue_inv_reached _ _ _ HT Hr) as Hinv.
  destruct (attempts_not_forgotten_timer Tmax now q e Hinv Hne He Hc) as (d & Hd & _).
  assert (attempt_ok Tmax now e) as [Hto Ha] by (destruct Hinv as [_ _ _ Hat _ _ _]; rewrite Forall_forall in Hat; auto).
  rewrite Hc in Ha. eapply (timer_runs_out Tmax (Z.to_nat (at_expires e + 1 - Z.max now d))); [done|done|exact Hd|done|done|lia|lia].
Qed.

(** ** Examples *)

Definition perform_all (l : list (Z * queue_op)) (q : connection_queue) : connection_queue :=
  fold_left (fun q x => perform (fst x) (snd x) q) l q.

Lemma reached_next Tmax now now' o q :
  reached Tmax now q -> now <= now' -> now' + Tmax < max_time -> enabled now' o q ->
  match o with op_enqueue timeout _ => timeout <= Tmax | _ => True end -> reached Tmax now' (perform now' o q).
Proof. intros. apply reached_step; [by apply (reached_later _ now)|done|done]. Qed.

(** Two attempts, with timeouts of 30 and 5 seconds; a third waits. *)
Definition sample_ops : list (Z * queue_op) :=
  [(0, op_limit 2); (0, op_enqueue 30000000 0); (0, op_try_connect); (1000000, op_enqueue 5000000 0);
   (1000000, op_try_connect); (2000000, op_enqueue 5000000 0)].

Definition sample_queue : connection_queue := perform_all sample_ops queue_new.

Lemma sample_queue_reached : reached 30000000 2000000 sample_queue.
Proof.
  unfold sample_queue, sample_ops, perform_all. cbn [fold_left fst snd].
  apply (reached_next _ 1000000); [|by vm_compute..]. apply (reached_next _ 1000000 1000000); [|by vm_compute..].
  apply (reached_next _ 0 1000000); [|by vm_compute..].
  do 3 (apply (reached_next _ 0 0); [|by vm_compute..]). by apply reached_new; vm_compute.
Qed.

Lemma sample_queue_entries :
  q_queue sample_queue = [Attempt true 0 30000000 30000000 0; Attempt true 1 6000000 5000000 0; Attempt false 2 max_time 5000000 0].
Proof. by vm_compute. Qed.

(** The second attempt expires after 6 seconds, but the timer is set for the first:
    its on_timeout is called after 30 seconds. *)
Example late_timeout :
  (exists e, e ∈ q_queue sample_queue /\ connecting e /\ at_expires e = 6000000) /\ q_timer sample_queue = Some 30000000 /\
  let '(t, q) := timer_runs 1 2000000 sample_queue in t = 30000000 /\ q_log q =
    [called_on_connect 0; called_on_connect 1; called_on_timeout 0; called_on_timeout 1; called_on_connect 2].
Proof.
  split_and!; [|by vm_compute|by vm_compute]. exists (Attempt true 1 6000000 5000000 0). split_and!; [|done|done]. rewrite sample_queue_entries. right. left.
Qed.

Lemma connection_calls_witness :
  check_queue sample_queue = true /\
  (forall t, called t (q_log sample_queue) ∈ [[]; [called_on_connect t]; [called_on_connect t; called_on_timeout t]; [called_on_timeout t]]) /\
  (forall e, e ∈ q_queue sample_queue ->
     called (at_ticket e) (q_log sample_queue) = if at_connecting e then [called_on_connect (at_ticket e)] else []).
Proof. apply (connection_calls 30000000 2000000 sample_queue); [lia|apply sample_queue_reached]. Defined.

Lemma attempts_not_forgotten_witness :
  (Exists waiting (q_queue sample_queue) -> (0 < q_posts sample_queue)%nat \/ q_timer sample_queue <> None) /\
  (forall e, e ∈ q_queue sample_queue -> connecting e -> exists d, q_timer sample_queue = Some d /\ d <= at_expires e - at_timeout e + 30000000).
Proof. apply (attempts_not_forgotten 30000000 2000000 sample_queue); [lia|apply sample_queue_reached|by vm_compute]. Defined.

Lemma try_connect_starts_witness :
  let q := queue_limit 0 sample_queue in
  let q' := try_connect 2000000 q in
  let k := slots (q_half_open_limit q) (q_num_connecting q) (length (waiting_tickets (q_queue q))) in
  q_log q' = q_log q ++ (called_on_connect <$> take k (waiting_tickets (q_queue q))) /\
  waiting_tickets (q_queue q') = drop k (waiting_tickets (q_queue q)) /\ tickets (q_queue q') = tickets (q_queue q) /\
  q_num_connecting q' = q_num_connecting q + Z.of_nat k.
Proof.
  apply (try_connect_starts 30000000 2000000 (queue_limit 0 sample_queue)); [lia|].
  apply (reached_step _ _ (op_limit 0)); [apply sample_queue_reached|by vm_compute|done].
Defined.

Lemma attempt_times_out_witness :
  let e := Attempt true 1 6000000 5000000 0 in
  exists k t q', timer_runs k 2000000 sample_queue = (t, q') /\ 2000000 <= t <= Z.max 2000000 (at_expires e - at_timeout e + 30000000) /\
    called_on_timeout (at_ticket e) ∈ q_log q'.
Proof.
  apply (attempt_times_out 30000000 2000000 sample_queue (Attempt true 1 6000000 5000000 0));
    [lia|apply sample_queue_reached|by vm_compute|by vm_compute|rewrite sample_queue_entries; right; left|done].
Defined.
