(* ===== verification/ChainedBuffer.v ===== *)
(** * The send buffer: src/chained_buffer.cpp

    A chain of memory blocks whose used parts are the bytes still to be sent.  A
    block is its memory, the offset of the first byte to send and the number of
    bytes to send; its destructor is known by a number, and calls of destructors are
    logged.  The chain is a queue of bytes: [contents]. *)

From S2P Require Import Prelude.
From stdpp Require Import list.
Open Scope Z_scope.

Record buffer_t := Block { b_free : nat; b_buf : bytes; b_size : Z; b_start : Z; b_used_size : Z }.

Record chained_buffer := Chain { m_vec : list buffer_t; m_bytes : Z; m_capacity : Z; m_freed : list nat }.

Definition chain_new : chained_buffer := Chain [] 0 0 [].

Definition chain_empty (t : chained_buffer) : bool := m_bytes t =? 0.

(** [pop_front]: the loop over the blocks at the front. *)
Fixpoint pop_blocks (bytes_to_pop : Z) (vec : list buffer_t) (size capacity : Z) (freed : list nat) : chained_buffer :=
  match vec with
  | [] => Chain [] size capacity freed
  | b :: vec' =>
      if 0 <? bytes_to_pop then
        if bytes_to_pop <? b_used_size b then
          Chain (Block (b_free b) (b_buf b) (b_size b) (b_start b + bytes_to_pop) (b_used_size b - bytes_to_pop) :: vec')
            (size - bytes_to_pop) capacity freed
        else pop_blocks (bytes_to_pop - b_used_size b) vec' (size - b_used_size b) (capacity - b_size b) (freed ++ [b_free b])
      else Chain vec size capacity freed
  end.

Definition pop_front (bytes_to_pop : Z) (t : chained_buffer) : chained_buffer :=
  pop_blocks bytes_to_pop (m_vec t) (m_bytes t) (m_capacity t) (m_freed t).

Definition append_buffer (buffer : bytes) (s used_size : Z) (destructor : nat) (t : chained_buffer) : chained_buffer :=
  Chain (m_vec t ++ [Block destructor buffer s 0 used_size]) (m_bytes t + used_size) (m_capacity t + s) (m_freed t).

Definition space_in_last_buffer (t : chained_buffer) : Z :=
  match last (m_vec t) with None => 0 | Some b => b_size b - b_used_size b - b_start b end.

(** [allocate_appendix]: the offset in the last block, if there is room. *)
Definition allocate_appendix (s : Z) (t : chained_buffer) : option Z * chained_buffer :=
  match last (m_vec t) with
  | None => (None, t)
  | Some b =>
      let insert := b_start b + b_used_size b in
      if b_size b <? insert + s then (None, t)
      else (Some insert,
            Chain (removelast (m_vec t) ++ [Block (b_free b) (b_buf b) (b_size b) (b_start b) (b_used_size b + s)])
              (m_bytes t + s) (m_capacity t) (m_freed t))
  end.

(** [memcpy] into the last block. *)
Definition copy_to (mem : bytes) (at_ : nat) (buf : bytes) : bytes := take at_ mem ++ buf ++ drop (at_ + length buf) mem.

Definition append (buf : bytes) (t : chained_buffer) : bool * chained_buffer :=
  match allocate_appendix (Z.of_nat (length buf)) t with
  | (None, t) => (false, t)
  | (Some insert, t) =>
      (true,
       match last (m_vec t) with
       | None => t
       | Some b =>
           Chain (removelast (m_vec t) ++ [Block (b_free b) (copy_to (b_buf b) (Z.to_nat insert) buf) (b_size b) (b_start b) (b_used_size b)])
             (m_bytes t) (m_capacity t) (m_freed t)
       end)
  end.

(** The bytes of a block from [start] on. *)
Definition block_bytes (b : buffer_t) (n : Z) : bytes := take (Z.to_nat n) (drop (Z.to_nat (b_start b)) (b_buf b)).

Fixpoint build_iovec (to_send : Z) (vec : list buffer_t) : list bytes :=
  match vec with
  | [] => []
  | b :: vec =>
      if 0 <? to_send then
        if to_send <? b_used_size b then [block_bytes b to_send]
        else block_bytes b (b_used_size b) :: build_iovec (to_send - b_used_size b) vec
      else []
  end.

(** The destructor frees what is left. *)
Definition chain_destroy (t : chained_buffer) : list nat := m_freed t ++ (b_free <$> m_vec t).

(** ** The queue of bytes *)

Definition used (b : buffer_t) : bytes := block_bytes b (b_used_size b).
Definition contents (t : chained_buffer) : bytes := concat (used <$> m_vec t).

Definition block_ok (b : buffer_t) : Prop :=
  b_size b = Z.of_nat (length (b_buf b)) /\ 0 <= b_start b /\ 0 <= b_used_size b /\ b_start b + b_used_size b <= b_size b.

(** The comments of the class: [m_bytes] is the sum of the used sizes, [m_capacity]
    of the sizes. *)
Definition chain_ok (t : chained_buffer) : Prop :=
  Forall block_ok (m_vec t) /\ m_bytes t = Z.of_nat (length (contents t)) /\
  m_capacity t = Z.of_nat (sum_list_with (fun b => length (b_buf b)) (m_vec t)).

Lemma length_used b : block_ok b -> Z.of_nat (length (used b)) = b_used_size b.
Proof. intros (Hs & H1 & H2 & H3). unfold used, block_bytes. rewrite length_take, length_drop. lia. Qed.

Lemma contents_app l1 l2 n c f n' c' f' :
  contents (Chain (l1 ++ l2) n c f) = contents (Chain l1 n' c' f') ++ concat (used <$> l2).
Proof. unfold contents. cbn. by rewrite fmap_app, concat_app. Qed.

Lemma last_split {A} (l : list A) b : last l = Some b -> l = removelast l ++ [b].
Proof.
  intros Hl. apply last_Some in Hl as [l' ->]. by rewrite removelast_last.
Qed.

(** *** pop_front *)

Lemma pop_blocks_spec vec n size capacity freed :
  Forall block_ok vec -> 0 <= n <= Z.of_nat (length (concat (used <$> vec))) ->
  let t := pop_blocks n vec size capacity freed in
  contents t = drop (Z.to_nat n) (concat (used <$> vec)) /\ m_bytes t = size - n /\ Forall block_ok (m_vec t) /\
  exists k, m_freed t = freed ++ (b_free <$> take k vec) /\ b_free <$> m_vec t = b_free <$> drop k vec /\
    m_capacity t = capacity - Z.of_nat (sum_list_with (fun b => length (b_buf b)) (take k vec)) /\
    sum_list_with (fun b => length (b_buf b)) (m_vec t) = sum_list_with (fun b => length (b_buf b)) (drop k vec).
Proof.
  intros Hv. revert n size capacity freed. induction Hv as [|b vec Hb Hv IH]; intros n size capacity freed Hn; cbn [pop_blocks].
  - cbn in *. assert (n = 0) as -> by lia. split_and!; [done|lia|done|]. exists 0%nat. cbn. rewrite app_nil_r. split_and!; try done; lia.
  - rewrite fmap_cons in *. cbn [concat] in *. rewrite length_app in Hn. pose proof (length_used b Hb) as Hu. destruct (Z.ltb_spec 0 n).
    2: { assert (n = 0) as -> by lia. cbn [m_bytes m_freed m_vec m_capacity]. split_and!; [done|lia|by constructor|].
         exists 0%nat. rewrite app_nil_r. cbn. split_and!; try done; lia. }
    destruct (Z.ltb_spec n (b_used_size b)).
    + cbn [m_bytes m_freed m_vec m_capacity]. split_and!; [| |constructor; [|done]|].
      * unfold contents. cbn. rewrite drop_app_le by lia. f_equal. destruct Hb as (Hs & H1 & H2 & H3). unfold used, block_bytes. cbn.
        rewrite skipn_firstn_comm, drop_drop. repeat f_equal; lia.
      * lia.
      * destruct Hb as (Hs & H1 & H2 & H3). split_and!; cbn; lia.
      * exists 0%nat. cbn. rewrite app_nil_r. split_and!; try done; lia.
    + destruct (IH (n - b_used_size b) (size - b_used_size b) (capacity - b_size b) (freed ++ [b_free b])) as (H1 & H2 & H3 & k & H4 & H5 & H6 & H7); [lia|].
      split_and!; [|lia|done|].
      * rewrite H1, drop_app_ge by lia. f_equal. lia.
      * exists (S k). cbn [take drop sum_list_with foldr fmap list_fmap]. destruct Hb as (Hs & _). split_and!; [by rewrite H4, <- app_assoc|done| |done].
        rewrite H6. cbn. lia.
Qed.

Lemma pop_front_ok n t :
  chain_ok t -> 0 <= n <= m_bytes t ->
  chain_ok (pop_front n t) /\ contents (pop_front n t) = drop (Z.to_nat n) (contents t) /\ chain_destroy (pop_front n t) = chain_destroy t.
Proof.
  intros (Hv & Hb & Hc) Hn. unfold pop_front. rewrite Hb in Hn.
  destruct (pop_blocks_spec (m_vec t) n (m_bytes t) (m_capacity t) (m_freed t) Hv Hn) as (H1 & H2 & H3 & k & H4 & H5 & H6 & H7).
  fold (contents t) in H1. unfold chain_ok, chain_destroy. split_and!; [done| | |done|].
  - rewrite H1, H2, length_drop. lia.
  - rewrite H6, H7, Hc. rewrite <- (take_drop k (m_vec t)) at 1. rewrite sum_list_with_app. lia.
  - rewrite H4, H5, <- app_assoc. f_equal. by rewrite <- fmap_app, take_drop.
Qed.

Lemma append_buffer_ok buffer s u d t :
  chain_ok t -> s = Z.of_nat (length buffer) -> 0 <= u <= s ->
  chain_ok (append_buffer buffer s u d t) /\ contents (append_buffer buffer s u d t) = contents t ++ take (Z.to_nat u) buffer /\
  chain_destroy (append_buffer buffer s u d t) = chain_destroy t ++ [d].
Proof.
  intros (Hv & Hb & Hc) -> Hu. unfold append_buffer.
  assert (contents (Chain (m_vec t ++ [Block d buffer (Z.of_nat (length buffer)) 0 u]) (m_bytes t + u) (m_capacity t + Z.of_nat (length buffer)) (m_freed t)) =
    contents t ++ take (Z.to_nat u) buffer) as Hcon.
  { unfold contents. cbn. rewrite fmap_app, concat_app. cbn. by rewrite app_nil_r. }
  unfold chain_ok, chain_destroy. rewrite Hcon. cbn [m_vec m_bytes m_capacity m_freed]. split_and!; [| | |done|].
  - apply Forall_app. split; [done|]. apply Forall_singleton. split_and!; cbn; lia.
  - rewrite length_app, length_take. lia.
  - rewrite sum_list_with_app. cbn. lia.
  - by rewrite fmap_app, app_assoc.
Qed.

Lemma copy_to_length mem at_ buf : (at_ + length buf <= length mem)%nat -> length (copy_to mem at_ buf) = length mem.
Proof. intros H. unfold copy_to. rewrite !length_app, length_take, length_drop. lia. Qed.

(** The bytes copied behind the used ones are the new used ones. *)
Lemma copy_to_used mem start n buf :
  (start + n + length buf <= length mem)%nat ->
  take (n + length buf) (drop start (copy_to mem (start + n) buf)) = take n (drop start mem) ++ buf.
Proof.
  intros H. unfold copy_to. rewrite drop_app_le by (rewrite length_take; lia). rewrite skipn_firstn_comm.
  replace (start + n - start)%nat with n by lia. rewrite take_app_split by (rewrite length_take, length_drop; lia).
  f_equal. rewrite length_take, length_drop, Nat.min_l by lia. replace (n + length buf - n)%nat with (length buf) by lia. by rewrite take_app_length.
Qed.

Lemma append_ok buf t :
  chain_ok t ->
  let '(ok, t') := append buf t in
  ok = (negb (bool_decide (m_vec t = [])) && (Z.of_nat (length buf) <=? space_in_last_buffer t)) /\
  chain_ok t' /\ contents t' = (if ok then contents t ++ buf else contents t) /\ chain_destroy t' = chain_destroy t.
Proof.
  intros Ht. unfold append, allocate_appendix, space_in_last_buffer. destruct (last (m_vec t)) as [b|] eqn:Hl.
  2: { apply last_None in Hl. by rewrite Hl. }
  pose proof (last_split _ _ Hl) as Hv. assert (m_vec t <> []) as Hne by (intros H; by rewrite H in Hl).
  rewrite bool_decide_false by done. cbn [negb andb]. destruct (Z.ltb_spec (b_size b) (b_start b + b_used_size b + Z.of_nat (length buf))).
  { destruct (Z.leb_spec (Z.of_nat (length buf)) (b_size b - b_used_size b - b_start b)); [lia|done]. }
  destruct (Z.leb_spec (Z.of_nat (length buf)) (b_size b - b_used_size b - b_start b)); [|lia].
  cbn [m_vec]. rewrite last_snoc. cbn [b_free b_buf b_size b_start b_used_size m_vec m_bytes m_capacity m_freed]. rewrite removelast_last.
  destruct Ht as (Hf & Hb & Hc). pose proof Hf as Hf'. rewrite Hv in Hf'. apply Forall_app in Hf' as [Hf1 Hfb]. apply Forall_singleton in Hfb as (Hs & H1 & H2 & H3).
  set (b' := Block (b_free b) (copy_to (b_buf b) (Z.to_nat (b_start b + b_used_size b)) buf) (b_size b) (b_start b) (b_used_size b + Z.of_nat (length buf))).
  assert (used b' = used b ++ buf) as Hu.
  { unfold used, block_bytes, b'. cbn. rewrite !Z2Nat.inj_add, Nat2Z.id by lia. apply copy_to_used. lia. }
  assert (length (b_buf b') = length (b_buf b)) as Hlen by (apply copy_to_length; lia).
  assert (concat (used <$> (removelast (m_vec t) ++ [b'])) = contents t ++ buf) as Hcon.
  { unfold contents. rewrite Hv at 2. rewrite !fmap_app, !concat_app. cbn. by rewrite Hu, !app_nil_r, <- app_assoc. }
  unfold chain_ok, chain_destroy, contents at 1 3. cbn [m_vec m_bytes m_capacity m_freed]. rewrite Hcon. split_and!; try done.
  - apply Forall_app. split; [done|]. apply Forall_singleton. split_and!; cbn; unfold b' in Hlen; cbn in Hlen; lia.
  - rewrite length_app. lia.
  - rewrite Hc. rewrite Hv at 1. rewrite !sum_list_with_app. cbn [sum_list_with foldr]. by rewrite Hlen.
  - rewrite Hv at 2. by rewrite !fmap_app.
Qed.

Lemma build_iovec_ok vec n : Forall block_ok vec -> 0 <= n -> concat (build_iovec n vec) = take (Z.to_nat n) (concat (used <$> vec)).
Proof.
  intros Hv. revert n. induction Hv as [|b vec Hb Hv IH]; intros n Hn; cbn [build_iovec]; [by destruct (Z.to_nat n)|].
  rewrite fmap_cons. cbn [concat]. pose proof (length_used b Hb) as Hu. destruct (Z.ltb_spec 0 n); [|by replace n with 0 by lia].
  destruct (Z.ltb_spec n (b_used_size b)); cbn [concat].
  - rewrite take_app_le, app_nil_r by lia. unfold used, block_bytes. rewrite take_take. f_equal. lia.
  - rewrite IH by lia. fold (used b). rewrite take_app_split by lia. f_equal. f_equal. lia.
Qed.

(** C31: the chain of blocks is a queue of bytes.  Appending a block adds its used
    part at the end; [append] adds the bytes if the last block has room for them
    and otherwise changes nothing; [pop_front] removes bytes at the front;
    [build_iovec] shows the first bytes; and every block that was appended is freed
    once, when its last byte is popped or at the end. *)
Theorem chained_buffer_refines t :
  chain_ok t ->
  m_bytes t = Z.of_nat (length (contents t)) /\
  (forall buffer u d, 0 <= u <= Z.of_nat (length buffer) ->
     let t' := append_buffer buffer (Z.of_nat (length buffer)) u d t in
     chain_ok t' /\ contents t' = contents t ++ take (Z.to_nat u) buffer /\ chain_destroy t' = chain_destroy t ++ [d]) /\
  (forall buf, let '(ok, t') := append buf t in
     ok = (negb (bool_decide (m_vec t = [])) && (Z.of_nat (length buf) <=? space_in_last_buffer t)) /\
     chain_ok t' /\ contents t' = (if ok then contents t ++ buf else contents t) /\ chain_destroy t' = chain_destroy t) /\
  (forall n, 0 <= n <= m_bytes t ->
     let t' := pop_front n t in
     chain_ok t' /\ contents t' = drop (Z.to_nat n) (contents t) /\ chain_destroy t' = chain_destroy t) /\
  (forall n, 0 <= n -> concat (build_iovec n (m_vec t)) = take (Z.to_nat n) (contents t)).
Proof.
  intros Ht. split_and!.
  - by destruct Ht as (_ & ? & _).
  - intros. by apply append_buffer_ok.
  - intros. by apply append_ok.
  - intros. by apply pop_front_ok.
  - intros n Hn. destruct Ht as (Hv & _). by apply build_iovec_ok.
Qed.

Definition sample_chain : chained_buffer :=
  append_buffer [Byte.x04; Byte.x05; Byte.x06; Byte.x00; Byte.x00] 5 3 7 (append_buffer [Byte.x01; Byte.x02; Byte.x03] 3 3 6 chain_new).

Lemma chained_buffer_refines_witness :
  let t := sample_chain in
  contents (pop_front 4 (snd (append [Byte.x08] t))) = [Byte.x05; Byte.x06; Byte.x08] /\
  m_bytes t = Z.of_nat (length (contents t)).
Proof.
  split; [by vm_compute|]. apply (chained_buffer_refines sample_chain).
  split_and!; [|by vm_compute|by vm_compute]. repeat (apply Forall_cons_2; [by split_and!; vm_compute|]). apply Forall_nil_2.
Defined.
