(* ===== verification/TimestampHistory.v ===== *)
(** * The delay history of uTP: src/timestamp_history.cpp

    The lowest delay of the last twenty minutes.  Samples are microseconds modulo
    2^32; the code compares them with [compare_less_wrap] of PacketBuffer.v.  Against
    it stands the list of the samples of each minute, as they were before they were
    cut to 32 bits. *)

From S2P Require Import Prelude PacketBuffer.
From stdpp Require Import list.
Open Scope Z_scope.

Definition TIME_MASK : Z := 0xffffffff.
Definition history_size : nat := 20.

Record timestamp_history := History { m_history : list Z; m_index : nat; m_initialized : bool; m_base : Z; m_num_samples : Z }.

(** The constructor leaves [m_history] as it finds it. *)
Definition history_new (memory : list Z) : timestamp_history := History memory 0 false 0 0.

(** The loop that looks for the lowest entry of the history. *)
Fixpoint lowest_entry (base : Z) (l : list Z) : Z :=
  match l with [] => base | h :: l => lowest_entry (if compare_less_wrap h base TIME_MASK then h else base) l end.

Definition add_sample (sample : Z) (step : bool) (t : timestamp_history) : Z * timestamp_history :=
  let t := if m_initialized t then t else History (replicate history_size sample) (m_index t) true sample (m_num_samples t) in
  let num := m_num_samples t + 1 in
  let t :=
    if compare_less_wrap sample (m_base t) TIME_MASK then History (<[m_index t := sample]> (m_history t)) (m_index t) true sample num
    else if compare_less_wrap sample (m_history t !!! m_index t) TIME_MASK
    then History (<[m_index t := sample]> (m_history t)) (m_index t) true (m_base t) num
    else History (m_history t) (m_index t) true (m_base t) num in
  let ret := to_uint 4 (sample - m_base t) in
  (ret,
   if step && (120 <? num) then
     let index := ((m_index t + 1) mod history_size)%nat in
     let history := <[index := sample]> (m_history t) in
     History history index true (lowest_entry sample history) 0
   else t).

(** [adjust_base]: no entry of the history is left below the new base. *)
Definition adjust_base (change : Z) (t : timestamp_history) : timestamp_history :=
  let base := to_uint 4 (m_base t + change) in
  History ((fun h => if compare_less_wrap h base TIME_MASK then base else h) <$> m_history t) (m_index t) (m_initialized t) base (m_num_samples t).

(** ** The samples of the last minutes *)

(** The samples of each minute, by the place of the minute in the history; the first
    sample stands for the minutes before it.  A sample that ends a minute is also the
    first of the next. *)
Record minute_log := Minutes { mi_samples : list (list Z); mi_index : nat; mi_count : Z }.

Definition minutes_start (v : Z) : minute_log := Minutes (replicate history_size [v]) 0 0.

Definition minutes_add (v : Z) (step : bool) (m : minute_log) : minute_log :=
  let samples := <[mi_index m := v :: (mi_samples m !!! mi_index m)]> (mi_samples m) in
  let count := mi_count m + 1 in
  if step && (120 <? count) then
    let index := ((mi_index m + 1) mod history_size)%nat in Minutes (<[index := [v]]> samples) index 0
  else Minutes samples (mi_index m) count.

Definition is_min (m : Z) (l : list Z) : Prop := m ∈ l /\ forall x, x ∈ l -> m <= x.

(** All samples lie in a window of less than 2^31 microseconds, 35 minutes. *)
Definition in_window (l : list Z) : Prop := forall x y, x ∈ l -> y ∈ l -> x - y < 2 ^ 31.

(** The history holds the lowest sample of each minute, [m_base] the lowest of all. *)
Record represents (t : timestamp_history) (m : minute_log) : Prop := Represents {
  rep_init : m_initialized t = true;
  rep_index : m_index t = mi_index m;
  rep_index_lt : (mi_index m < history_size)%nat;
  rep_count : m_num_samples t = mi_count m;
  rep_length : length (mi_samples m) = history_size;
  rep_history : Forall2 (fun h l => exists x, is_min x l /\ h = to_uint 4 x) (m_history t) (mi_samples m);
  rep_base : exists x, is_min x (concat (mi_samples m)) /\ m_base t = to_uint 4 x
}.

Lemma to_uint_mod x : to_uint 4 x = x mod 2 ^ 32.
Proof. reflexivity. Qed.

(** In the window the comparison of the wrapped numbers is that of the numbers. *)
Lemma compare_less_wrap_window x y :
  - 2 ^ 31 < x - y < 2 ^ 31 -> compare_less_wrap (to_uint 4 x) (to_uint 4 y) TIME_MASK = (x <? y).
Proof.
  intros H. unfold compare_less_wrap, TIME_MASK. change 0xffffffff with (Z.ones 32). rewrite !Z.land_ones, !to_uint_mod by lia.
  rewrite <- !Zminus_mod, !Zmod_mod. destruct (Z.ltb_spec x y).
  - rewrite (Z.mod_small (y - x)) by lia. replace ((x - y) mod 2 ^ 32) with (x - y + 2 ^ 32); [apply Z.ltb_lt; lia|].
    rewrite <- (Z_mod_plus_full (x - y) 1). rewrite Z.mod_small; lia.
  - rewrite (Z.mod_small (x - y)) by lia. destruct (Z.eq_dec x y) as [->|].
    + rewrite Z.sub_diag. done.
    + replace ((y - x) mod 2 ^ 32) with (y - x + 2 ^ 32); [apply Z.ltb_ge; lia|].
      rewrite <- (Z_mod_plus_full (y - x) 1). rewrite Z.mod_small; lia.
Qed.

Lemma is_min_cons v x l : is_min x l -> is_min (Z.min v x) (v :: l).
Proof.
  intros [Hx Hl]. split.
  - destruct (Z.min_spec v x) as [[_ ->]|[_ ->]]; [left|by right].
  - intros y [->|Hy]%elem_of_cons; [lia|]. specialize (Hl y Hy). lia.
Qed.

Lemma is_min_same x l l' : (forall y, y ∈ l <-> y ∈ l') -> is_min x l -> is_min x l'.
Proof. intros H [Hx Hl]. split; [by apply H|]. intros y Hy. by apply Hl, H. Qed.

Lemma elem_of_concat (x : Z) ls : x ∈ concat ls <-> exists l, l ∈ ls /\ x ∈ l.
Proof. rewrite list_elem_of_In, in_concat. setoid_rewrite list_elem_of_In. done. Qed.

(** A list in place of another. *)
Lemma elem_of_concat_insert (ls : list (list Z)) i l x :
  (i < length ls)%nat -> x ∈ concat (<[i := l]> ls) <-> x ∈ l \/ exists k, k <> i /\ x ∈ ls !!! k /\ (k < length ls)%nat.
Proof.
  intros Hi. rewrite elem_of_concat. split.
  - intros (l' & Hl' & Hx). apply list_elem_of_lookup in Hl' as [k Hk]. apply list_lookup_insert_Some in Hk as [(-> & -> & _)|[Hne Hk]]; [by left|].
    right. exists k. split_and!; [done|by rewrite (list_lookup_total_correct _ _ _ Hk)|by eapply lookup_lt_Some].
  - intros [Hx|(k & Hne & Hx & Hk)].
    + exists l. split; [|done]. apply list_elem_of_lookup. exists i. by apply list_lookup_insert_eq.
    + exists (ls !!! k). split; [|done]. apply list_elem_of_lookup. exists k. rewrite list_lookup_insert_ne by done.
      by apply list_lookup_lookup_total_lt.
Qed.

Lemma concat_insert_cons (ls : list (list Z)) i v x :
  (i < length ls)%nat -> x ∈ concat (<[i := v :: (ls !!! i)]> ls) <-> x ∈ v :: concat ls.
Proof.
  intros Hi. rewrite elem_of_concat_insert, !elem_of_cons, elem_of_concat by done. split.
  - intros [[->|Hx]|(k & _ & Hx & Hk)]; [by left| |]; right.
    + exists (ls !!! i). split; [|done]. by apply list_elem_of_lookup_total_2.
    + exists (ls !!! k). split; [|done]. by apply list_elem_of_lookup_total_2.
  - intros [->|(l & Hl & Hx)]; [by left; left|]. apply list_elem_of_lookup in Hl as [k Hk]. destruct (decide (k = i)) as [->|Hne].
    + left. right. by rewrite (list_lookup_total_correct _ _ _ Hk).
    + right. exists k. split_and!; [done|by rewrite (list_lookup_total_correct _ _ _ Hk)|by eapply lookup_lt_Some].
Qed.

Definition lowest_of (h : Z) (l : list Z) : Prop := exists x, is_min x l /\ h = to_uint 4 x.

Lemma lowest_entry_min b hs ls :
  Forall2 lowest_of hs ls -> in_window (b :: concat ls) -> exists x, is_min x (b :: concat ls) /\ lowest_entry (to_uint 4 b) hs = to_uint 4 x.
Proof.
  intros H. revert b. induction H as [|h l hs ls (x & [Hx Hl] & ->) H IH]; intros b Hw.
  - exists b. split; [|done]. split; [left|]. intros y [->|[]%not_elem_of_nil]%elem_of_cons. done.
  - cbn [lowest_entry concat]. assert (- 2 ^ 31 < x - b < 2 ^ 31) as Hd.
    { assert (x ∈ b :: l ++ concat ls) by (right; apply elem_of_app; by left). assert (b ∈ b :: l ++ concat ls) by left.
      pose proof (Hw x b ltac:(done) ltac:(done)). pose proof (Hw b x ltac:(done) ltac:(done)). lia. }
    rewrite compare_less_wrap_window by done.
    assert ((if x <? b then to_uint 4 x else to_uint 4 b) = to_uint 4 (Z.min b x)) as -> by (destruct (Z.ltb_spec x b); f_equal; lia).
    destruct (IH (Z.min b x)) as (y & [Hy Hmin] & ->).
    + intros u v Hu Hv. apply Hw; [clear Hv|clear Hu].
      * apply elem_of_cons in Hu as [->|?]; [destruct (Z.min_spec b x) as [[_ ->]|[_ ->]]; [left|]|]; right; apply elem_of_app; auto.
      * apply elem_of_cons in Hv as [->|?]; [destruct (Z.min_spec b x) as [[_ ->]|[_ ->]]; [left|]|]; right; apply elem_of_app; auto.
    + exists y. split; [|done]. split.
      * apply elem_of_cons in Hy as [->|Hy]; [destruct (Z.min_spec b x) as [[_ ->]|[_ ->]]; [left|]|]; right; apply elem_of_app; auto.
      * assert (y <= Z.min b x) by (apply Hmin; left). intros z [->|[Hz|Hz]%elem_of_app]%elem_of_cons; [lia| |].
        -- specialize (Hl z Hz). lia.
        -- apply Hmin. by right.
Qed.

(** The part of [add_sample] before the step to the next minute. *)
Lemma add_sample_now v t m :
  represents t m -> in_window (v :: concat (mi_samples m)) ->
  let samples := <[mi_index m := v :: (mi_samples m !!! mi_index m)]> (mi_samples m) in
  exists x, is_min x (v :: concat (mi_samples m)) /\
    let history := if compare_less_wrap (to_uint 4 v) (m_base t) TIME_MASK || compare_less_wrap (to_uint 4 v) (m_history t !!! m_index t) TIME_MASK
                   then <[m_index t := to_uint 4 v]> (m_history t) else m_history t in
    Forall2 lowest_of history samples /\
    (if compare_less_wrap (to_uint 4 v) (m_base t) TIME_MASK then to_uint 4 v else m_base t) = to_uint 4 x.
Proof.
  intros [Hin Hi Hlt Hc Hlen Hh (x & Hx & Hb)] Hw samples. rewrite Hi, Hb.
  assert (mi_samples m !! mi_index m = Some (mi_samples m !!! mi_index m)) as Hl by (apply list_lookup_lookup_total_lt; lia).
  destruct (Forall2_lookup_r _ _ _ _ _ Hh Hl) as (h & Hhi & y & Hy & ->). rewrite (list_lookup_total_correct _ _ _ Hhi).
  assert (forall z, z ∈ mi_samples m !!! mi_index m -> z ∈ concat (mi_samples m)) as Hsub.
  { intros z Hz. apply elem_of_concat. exists (mi_samples m !!! mi_index m). split; [|done]. by eapply list_elem_of_lookup_2. }
  assert (x <= y) as Hxy by (apply Hx, Hsub, Hy).
  assert (forall z, z ∈ concat (mi_samples m) -> - 2 ^ 31 < v - z < 2 ^ 31) as Hwin.
  { intros z Hz. pose proof (Hw v z ltac:(left) ltac:(by right)). pose proof (Hw z v ltac:(by right) ltac:(left)). lia. }
  rewrite !compare_less_wrap_window by (apply Hwin; first [apply Hx|apply Hsub, Hy]).
  exists (Z.min v x). split; [by apply is_min_cons|]. split.
  - destruct ((v <? x) || (v <? y)) eqn:Hcmp.
    + apply Forall2_insert; [done|]. exists v. split; [|done]. replace v with (Z.min v y) at 1 by lia. by apply is_min_cons.
    + rewrite <- (list_insert_id _ _ _ Hhi). apply Forall2_insert; [done|]. exists y. split; [|done]. replace y with (Z.min v y) at 1 by lia. by apply is_min_cons.
  - destruct (Z.ltb_spec v x); f_equal; lia.
Qed.

Lemma add_sample_represents v step t m :
  represents t m -> in_window (v :: concat (mi_samples m)) ->
  let '(ret, t') := add_sample (to_uint 4 v) step t in
  represents t' (minutes_add v step m) /\ exists x, is_min x (v :: concat (mi_samples m)) /\ ret = v - x.
Proof.
  intros Hr Hw. destruct (add_sample_now v t m Hr Hw) as (x & Hx & Hh & Hb). destruct Hr as [Hin Hi Hlt Hc Hlen _ _].
  set (samples := <[mi_index m := v :: (mi_samples m !!! mi_index m)]> (mi_samples m)) in *.
  assert (length samples = history_size) as Hls by (unfold samples; by rewrite length_insert).
  assert (forall y, y ∈ concat samples <-> y ∈ v :: concat (mi_samples m)) as Hsame by (intros y; apply concat_insert_cons; lia).
  unfold add_sample, minutes_add. rewrite Hin, Hc. fold samples.
  set (t1 := if compare_less_wrap (to_uint 4 v) (m_base t) TIME_MASK then _ else _).
  assert (m_history t1 = (if compare_less_wrap (to_uint 4 v) (m_base t) TIME_MASK || compare_less_wrap (to_uint 4 v) (m_history t !!! m_index t) TIME_MASK
                   then <[m_index t := to_uint 4 v]> (m_history t) else m_history t) /\
    m_base t1 = (if compare_less_wrap (to_uint 4 v) (m_base t) TIME_MASK then to_uint 4 v else m_base t) /\
    m_index t1 = m_index t /\ m_initialized t1 = true /\ m_num_samples t1 = mi_count m + 1) as (Hh1 & Hb1 & Hi1 & Hin1 & Hn1)
    by (unfold t1; destruct (compare_less_wrap (to_uint 4 v) (m_base t) TIME_MASK), (compare_less_wrap (to_uint 4 v) (m_history t !!! m_index t) TIME_MASK); done).
  rewrite <- Hh1 in Hh. rewrite <- Hb1 in Hb. split.
  2: { exists x. split; [done|]. rewrite Hb, !to_uint_mod, <- Zminus_mod. apply Z.mod_small.
       assert (x <= v) by (apply Hx; left). pose proof (Hw v x ltac:(left) (proj1 Hx)). lia. }
  destruct (step && (120 <? mi_count m + 1)).
  2: { split; cbn; try done; [by rewrite Hi1|]. exists x. split; [|done]. by eapply is_min_same; [intros y; symmetry; apply Hsame|]. }
  rewrite Hi1, Hi. set (j := ((mi_index m + 1) mod history_size)%nat).
  assert (j < history_size)%nat as Hj by (by apply Nat.mod_upper_bound).
  assert (Forall2 lowest_of (<[j := to_uint 4 v]> (m_history t1)) (<[j := [v]]> samples)) as Hf.
  { apply Forall2_insert; [done|]. exists v. split; [|done]. split; [left|]. intros y [->|[]%not_elem_of_nil]%elem_of_cons. done. }
  assert (forall y, y ∈ concat (<[j := [v]]> samples) -> y ∈ v :: concat (mi_samples m)) as Hsub.
  { intros y Hy. apply elem_of_concat_insert in Hy as [Hy|(k & _ & Hy & Hk)]; [| |lia].
    - apply elem_of_cons in Hy as [->|[]%not_elem_of_nil]. left.
    - apply Hsame, elem_of_concat. exists (samples !!! k). split; [|done]. by apply list_elem_of_lookup_total_2. }
  assert (v ∈ concat (<[j := [v]]> samples)) as Hv by (apply elem_of_concat_insert; [lia|left; left]).
  destruct (lowest_entry_min v _ _ Hf) as (z & Hz & Hlow).
  { intros a b Ha Hb'. apply Hw; [clear Hb'|clear Ha].
    - apply elem_of_cons in Ha as [->|?]; [left|auto].
    - apply elem_of_cons in Hb' as [->|?]; [left|auto]. }
  split; cbn; try done; [by rewrite length_insert|]. exists z. split; [|done]. eapply is_min_same; [|exact Hz].
  intros y. rewrite elem_of_cons. split; [by intros [->|?]|auto].
Qed.

(** ** Any number of samples *)

(** [f v step] for each sample; the results of [add_sample], the last first. *)
Fixpoint add_samples (l : list (Z * bool)) (t : timestamp_history) : list Z * timestamp_history :=
  match l with
  | [] => ([], t)
  | (v, step) :: l =>
      let '(ret, t) := add_sample (to_uint 4 v) step t in
      let '(rets, t) := add_samples l t in (ret :: rets, t)
  end.

Definition minutes_of (v0 : Z) (l : list (Z * bool)) : minute_log := fold_left (fun m x => minutes_add (fst x) (snd x) m) l (minutes_start v0).

Lemma minutes_add_samples v step m x :
  length (mi_samples m) = history_size -> (mi_index m < history_size)%nat ->
  x ∈ concat (mi_samples (minutes_add v step m)) -> x ∈ v :: concat (mi_samples m).
Proof.
  intros Hl Hi. unfold minutes_add. set (samples := <[mi_index m := v :: (mi_samples m !!! mi_index m)]> (mi_samples m)). assert (length samples = history_size) as Hls by (unfold samples; by rewrite length_insert).
  assert (forall y, y ∈ concat samples <-> y ∈ v :: concat (mi_samples m)) as Hsame by (intros y; apply concat_insert_cons; lia).
  case_match; cbn [mi_samples]; [|apply Hsame]. intros Hx. apply elem_of_concat_insert in Hx as [Hx|(k & _ & Hx & Hk)].
  - apply elem_of_cons in Hx as [->|[]%not_elem_of_nil]. left.
  - apply Hsame, elem_of_concat. exists (samples !!! k). split; [|done]. by apply list_elem_of_lookup_total_2.
  - rewrite Hls. by apply Nat.mod_upper_bound.
Qed.

Lemma minutes_start_represents v0 :
  represents (History (replicate history_size (to_uint 4 v0)) 0 true (to_uint 4 v0) 0) (minutes_start v0).
Proof.
  assert (is_min v0 [v0]) as Hm by (split; [left|]; intros y [->|[]%not_elem_of_nil]%elem_of_cons; done).
  split; cbn [minutes_start mi_index mi_samples mi_count m_initialized m_index m_num_samples m_history m_base]; try done.
  - unfold history_size. lia.
  - apply Forall2_replicate. by exists v0.
  - exists v0. split; [|done]. eapply is_min_same; [|exact Hm]. intros y. rewrite elem_of_concat. split.
    + intros Hy. exists [v0]. split; [|done]. apply elem_of_replicate. unfold history_size. split; [done|lia].
    + intros (l & [-> _]%elem_of_replicate & Hy). done.
Qed.

Lemma window_of W v l : W <= v < W + 2 ^ 31 -> (forall x, x ∈ l -> W <= x < W + 2 ^ 31) -> in_window (v :: l).
Proof.
  intros Hv Hl. assert (forall x, x ∈ v :: l -> W <= x < W + 2 ^ 31) as H by (intros x [->|?]%elem_of_cons; auto).
  intros x y Hx Hy. pose proof (H x Hx). pose proof (H y Hy). lia.
Qed.

Lemma add_samples_represent W l t m :
  represents t m -> (forall x, x ∈ concat (mi_samples m) -> W <= x < W + 2 ^ 31) -> Forall (fun x => W <= fst x < W + 2 ^ 31) l ->
  let m' := fold_left (fun m x => minutes_add (fst x) (snd x) m) l m in
  represents (snd (add_samples l t)) m' /\ forall x, x ∈ concat (mi_samples m') -> W <= x < W + 2 ^ 31.
Proof.
  intros Hr Hm Hl. revert t m Hr Hm. induction Hl as [|[v step] l Hv Hl IH]; intros t m Hr Hm; [done|]. cbv zeta in *. cbn [fst] in Hv. cbn [add_samples fold_left fst snd].
  assert (forall x, x ∈ v :: concat (mi_samples m) -> W <= x < W + 2 ^ 31) as Hvm by (intros x [->|?]%elem_of_cons; auto).
  assert (in_window (v :: concat (mi_samples m))) as Hw by (by apply (window_of W)).
  pose proof (add_sample_represents v step t m Hr Hw) as Hs. destruct (add_sample (to_uint 4 v) step t) as [ret t'].
  destruct Hs as [Hs _]. specialize (IH t' _ Hs). destruct (add_samples l t') as [rets t'']. cbn [snd] in *. apply IH.
  intros x Hx. apply Hvm. apply (minutes_add_samples v step m x); [by destruct Hr|by destruct Hr|done].
Qed.

(** When all samples lie within 35 minutes of each other, [m_base] is the lowest
    sample of the last twenty minutes although samples and comparisons wrap at 2^32,
    and [add_sample] returns by how much a sample exceeds it. *)
Theorem timestamp_history_lowest memory W v0 step0 l v step :
  W <= v0 < W + 2 ^ 31 -> Forall (fun x => W <= fst x < W + 2 ^ 31) l -> W <= v < W + 2 ^ 31 ->
  let t := snd (add_samples ((v0, step0) :: l) (history_new memory)) in
  let m := minutes_of v0 ((v0, step0) :: l) in
  represents t m /\
  let '(ret, t') := add_sample (to_uint 4 v) step t in
  represents t' (minutes_add v step m) /\ exists x, is_min x (v :: concat (mi_samples m)) /\ ret = v - x.
Proof.
  intros H0 Hl Hv t m.
  assert (t = snd (add_samples ((v0, step0) :: l) (History (replicate history_size (to_uint 4 v0)) 0 true (to_uint 4 v0) 0))) as Ht by done.
  assert (represents t m /\ forall x, x ∈ concat (mi_samples m) -> W <= x < W + 2 ^ 31) as [Hr Hm].
  { rewrite Ht. apply (add_samples_represent W); [apply minutes_start_represents| |by constructor].
    intros x Hx. apply elem_of_concat in Hx as (k & [-> _]%elem_of_replicate & Hx). by apply elem_of_cons in Hx as [->|[]%not_elem_of_nil]. }
  split; [done|]. apply add_sample_represents; [done|]. by apply (window_of W).
Qed.

Lemma timestamp_history_lowest_witness :
  let l := [(2 ^ 32 - 5, false); (2 ^ 32 + 40, true)] in
  let t := snd (add_samples ((2 ^ 32 + 7, false) :: l) (history_new (replicate 20 99))) in
  let m := minutes_of (2 ^ 32 + 7) ((2 ^ 32 + 7, false) :: l) in
  represents t m /\
  let '(ret, t') := add_sample (to_uint 4 (2 ^ 32 + 10)) false t in
  represents t' (minutes_add (2 ^ 32 + 10) false m) /\ exists x, is_min x (2 ^ 32 + 10 :: concat (mi_samples m)) /\ ret = 2 ^ 32 + 10 - x.
Proof.
  apply (timestamp_history_lowest (replicate 20 99) (2 ^ 32 - 100) (2 ^ 32 + 7) false [(2 ^ 32 - 5, false); (2 ^ 32 + 40, true)] (2 ^ 32 + 10) false);
    [lia| |lia]. repeat (apply Forall_cons_2; [cbn; lia|]). apply Forall_nil_2.
Defined.
