(* ===== verification/PeerRequests.v ===== *)
(** * Parts of a file: requests, blocks and what is left of a block

    The arithmetic of src/peer_connection.cpp between the offsets of the wire
    format, the requests of the disk thread (a piece, an offset in it and a length)
    and the blocks of the piece picker; and the set of intervals of
    include/libed2k/util.hpp in which a block records what is still to come. *)

From S2P Require Import Prelude CTag PiecePicker.
From stdpp Require Import list.
Open Scope Z_scope.

Definition PIECE_SIZE : Z := 9728000.

(** ** Intervals *)

(** [range<T>::sub]: [seg1] without [seg2]. *)
Definition sub (seg1 seg2 : Z * Z) : list (Z * Z) :=
  if (fst seg1 <? fst seg2) && (snd seg2 <? snd seg1) then [(fst seg1, fst seg2); (snd seg2, snd seg1)]
  else if (snd seg1 <=? fst seg2) || (snd seg2 <=? fst seg1) then [seg1]
  else if (fst seg1 <? fst seg2) && (fst seg2 <? snd seg1) then [(fst seg1, fst seg2)]
  else if (fst seg1 <? snd seg2) && (snd seg2 <? snd seg1) then [(snd seg2, snd seg1)]
  else [].

(** [operator-=]. *)
Definition range_minus (r : list (Z * Z)) (seg : Z * Z) : list (Z * Z) := concat ((fun s => sub s seg) <$> r).

(** [shrink_end] and [begin] are for a range of one segment. *)
Definition shrink_end (size : Z) (r : list (Z * Z)) : list (Z * Z) :=
  match r with (a, _) :: r => (a, a + size) :: r | [] => [] end.

Definition range_begin (r : list (Z * Z)) : Z := match r with (a, _) :: _ => a | [] => 0 end.

(** ** Blocks and requests *)

(** [block_range]. *)
Definition block_range (piece : Z) (block : Z) (size : Z) : Z * Z :=
  let begin_ := piece * PIECE_SIZE + block * BLOCK_SIZE in
  let align_size := (piece + 1) * PIECE_SIZE in
  (begin_, Z.min (begin_ + BLOCK_SIZE) (Z.min align_size size)).

Definition block_size (b : piece_block) (size : Z) : Z :=
  let r := block_range (piece_index b) (Z.of_nat (block_index b)) size in snd r - fst r.

Record peer_request := PeerRequest { r_piece : Z; r_start : Z; r_length : Z }.

#[global] Instance peer_request_eq_dec : EqDecision peer_request.
Proof. solve_decision. Defined.

(** [mk_peer_request]: the fields of a request are ints. *)
Definition mk_peer_request (begin_ end_ : Z) : peer_request :=
  PeerRequest (to_int32 (Z.quot begin_ PIECE_SIZE)) (to_int32 (Z.rem begin_ PIECE_SIZE)) (to_int32 (end_ - begin_)).

(** [mk_peer_requests]: one request for each piece that is touched. *)
Fixpoint mk_peer_requests_loop (n : nat) (i end_ : Z) : list peer_request :=
  match n with
  | O => []
  | S n =>
      if i <? end_ then
        let r := mk_peer_request i (Z.min (i + PIECE_SIZE - Z.rem i PIECE_SIZE) end_) in
        r :: mk_peer_requests_loop n (i + r_length r) end_
      else []
  end.

Definition mk_peer_requests (begin_ end_ fsize : Z) : list peer_request :=
  let begin_ := Z.min begin_ fsize in
  let end_ := Z.min end_ fsize in
  mk_peer_requests_loop (Z.to_nat ((end_ - begin_) / PIECE_SIZE + 2)) begin_ end_.

Definition mk_block_request (b : piece_block) (fsize : Z) : peer_request :=
  let r := block_range (piece_index b) (Z.of_nat (block_index b)) fsize in mk_peer_request (fst r) (snd r).

Definition mk_range (r : peer_request) : Z * Z :=
  let begin_ := r_piece r * PIECE_SIZE + r_start r in (begin_, begin_ + r_length r).

(** [mk_block]: the numbers of the piece and the block, which are ints. *)
Definition mk_block (r : peer_request) : Z * Z := (r_piece r, Z.quot (r_start r) BLOCK_SIZE).

Definition mk_block_at (offset : Z) : Z * Z :=
  (to_int32 (Z.quot offset PIECE_SIZE), Z.quot (to_int32 (Z.rem offset PIECE_SIZE)) BLOCK_SIZE).

Definition offset_in_block (r : peer_request) : Z := Z.rem (r_start r) BLOCK_SIZE.

(** [split_request]: a block at most, and what is left. *)
Definition split_request (req : peer_request) : peer_request * peer_request :=
  let r := PeerRequest (r_piece req) (r_start req) (Z.min (r_length req) BLOCK_SIZE) in
  (r, PeerRequest (r_piece req) (r_start r + r_length r) (r_length req - r_length r)).

(** [pending_block]; the buffer data are received into is known by a number. *)
Record pending_block := PendingBlock {
  pb_skipped : Z; pb_not_wanted : bool; pb_timed_out : bool; pb_busy : bool;
  pb_block : piece_block; pb_data_size : Z; pb_data_left : list (Z * Z);
  pb_buffer : option nat; pb_create_time : Z
}.

Definition pending_block_new (b : piece_block) (fsize now : Z) : pending_block :=
  PendingBlock 0 false false false b (block_size b fsize)
    [block_range (piece_index b) (Z.of_nat (block_index b)) fsize] None now.

Definition complete (range : Z * Z) (pb : pending_block) : pending_block :=
  PendingBlock (pb_skipped pb) (pb_not_wanted pb) (pb_timed_out pb) (pb_busy pb) (pb_block pb) (pb_data_size pb)
    (range_minus (pb_data_left pb) range) (pb_buffer pb) (pb_create_time pb).

Definition pb_set_buffer (id : nat) (pb : pending_block) : pending_block :=
  PendingBlock (pb_skipped pb) (pb_not_wanted pb) (pb_timed_out pb) (pb_busy pb) (pb_block pb) (pb_data_size pb)
    (pb_data_left pb) (Some id) (pb_create_time pb).

Definition completed (pb : pending_block) : bool := match pb_data_left pb with [] => true | _ => false end.

Definition has_block (b : Z * Z) (pb : pending_block) : bool :=
  (piece_index (pb_block pb) =? fst b) && (Z.of_nat (block_index (pb_block pb)) =? snd b).

(** ** Intervals are sets *)

Definition in_range (r : list (Z * Z)) (x : Z) : Prop := exists s, s ∈ r /\ fst s <= x < snd s.
Definition range_ok (r : list (Z * Z)) : Prop := Forall (fun s => fst s < snd s) r.

Lemma in_range_nil x : ~ in_range [] x.
Proof. intros (s & []%not_elem_of_nil & _). Qed.

Lemma in_range_cons s r x : in_range (s :: r) x <-> fst s <= x < snd s \/ in_range r x.
Proof.
  unfold in_range. setoid_rewrite elem_of_cons. split.
  - intros (s' & [->|H] & Hx); [by left|right; eauto].
  - intros [Hx|(s' & H & Hx)]; eauto.
Qed.

Lemma in_range_app r r' x : in_range (r ++ r') x <-> in_range r x \/ in_range r' x.
Proof.
  unfold in_range. setoid_rewrite elem_of_app. split.
  - intros (s & [H|H] & Hx); eauto.
  - intros [(s & H & Hx)|(s & H & Hx)]; eauto.
Qed.

Lemma sub_spec s seg x : fst s < snd s -> fst seg <= snd seg ->
  range_ok (sub s seg) /\ (in_range (sub s seg) x <-> fst s <= x < snd s /\ ~ (fst seg <= x < snd seg)).
Proof.
  destruct s as [a b], seg as [c d]. cbn. intros H1 H2. unfold sub, range_ok. cbn. pose proof (in_range_nil x) as Hnil.
  repeat case_match; rewrite ?in_range_cons; cbn; (split; [|intuition lia]); repeat (apply Forall_cons_2; [cbn; lia|]); apply Forall_nil_2.
Qed.

Lemma range_minus_spec r seg : range_ok r -> fst seg <= snd seg ->
  range_ok (range_minus r seg) /\ forall x, in_range (range_minus r seg) x <-> in_range r x /\ ~ (fst seg <= x < snd seg).
Proof.
  intros Hr Hseg. induction Hr as [|s r Hs Hr [IH1 IH2]].
  - split; [constructor|]. intros x. pose proof (in_range_nil x). cbn. tauto.
  - unfold range_minus in *. cbn. split.
    + apply Forall_app. split; [|done]. by apply (sub_spec s seg 0).
    + intros x. rewrite in_range_app, in_range_cons, IH2. destruct (sub_spec s seg x Hs Hseg) as [_ ->]. tauto.
Qed.

Lemma range_empty r : range_ok r -> r = [] <-> forall x, ~ in_range r x.
Proof.
  intros Hr. split; [intros -> x; apply in_range_nil|]. intros H. destruct Hr as [|s r Hs Hr]; [done|].
  destruct (H (fst s)). apply in_range_cons. left. lia.
Qed.

(** ** Requests and the bytes of the file *)

(** The bytes [a, b) of a file. *)
Definition slice (data : bytes) (a b : Z) : bytes := take (Z.to_nat (b - a)) (drop (Z.to_nat a) data).

(** What the disk thread reads for a request. *)
Definition read_request (data : bytes) (r : peer_request) : bytes := slice data (fst (mk_range r)) (snd (mk_range r)).

Lemma slice_app data a b c : 0 <= a <= b -> b <= c -> slice data a c = slice data a b ++ slice data b c.
Proof.
  intros. unfold slice. replace (Z.to_nat b) with (Z.to_nat a + Z.to_nat (b - a))%nat by lia.
  rewrite <- drop_drop. replace (Z.to_nat (c - a)) with (Z.to_nat (b - a) + Z.to_nat (c - b))%nat by lia.
  by rewrite take_take_drop.
Qed.

Lemma slice_empty data a b : b <= a -> slice data a b = [].
Proof. intros. unfold slice. by replace (Z.to_nat (b - a)) with 0%nat by lia. Qed.

Lemma length_slice data a b : 0 <= a <= b -> b <= Z.of_nat (length data) -> Z.of_nat (length (slice data a b)) = b - a.
Proof. intros. unfold slice. rewrite length_take, length_drop. lia. Qed.

(** A request within one piece and within the file. *)
Record request_ok (fsize : Z) (r : peer_request) : Prop := RequestOk {
  ro_piece : 0 <= r_piece r;
  ro_start : 0 <= r_start r;
  ro_length : 0 < r_length r;
  ro_in_piece : r_start r + r_length r <= PIECE_SIZE;
  ro_in_file : snd (mk_range r) <= fsize
}.

Lemma mk_peer_request_fit a e :
  0 <= a -> a / PIECE_SIZE < 2 ^ 31 -> 0 <= e - a < 2 ^ 31 ->
  mk_peer_request a e = PeerRequest (a / PIECE_SIZE) (a mod PIECE_SIZE) (e - a).
Proof.
  intros Ha Hp He. unfold mk_peer_request.
  rewrite Z.quot_div_nonneg, Z.rem_mod_nonneg by (unfold PIECE_SIZE; lia).
  pose proof (Z.mod_pos_bound a PIECE_SIZE ltac:(unfold PIECE_SIZE; lia)). pose proof (Z.div_pos a PIECE_SIZE Ha ltac:(unfold PIECE_SIZE; lia)).
  rewrite !to_int32_small; unfold PIECE_SIZE in *; lia || done.
Qed.

Lemma mk_range_request a e :
  0 <= a -> a / PIECE_SIZE < 2 ^ 31 -> 0 <= e - a < 2 ^ 31 -> mk_range (mk_peer_request a e) = (a, e).
Proof.
  intros. rewrite mk_peer_request_fit by done. unfold mk_range. cbn [r_piece r_start r_length].
  pose proof (Z.div_mod a PIECE_SIZE ltac:(unfold PIECE_SIZE; lia)). f_equal; lia.
Qed.

(** The files a session can hold have fewer than 2^31 pieces. *)
Definition max_size : Z := 2 ^ 31 * PIECE_SIZE.

Lemma piece_fits a : 0 <= a < max_size -> a / PIECE_SIZE < 2 ^ 31.
Proof. intros. apply Z.div_lt_upper_bound; unfold max_size, PIECE_SIZE in *; lia. Qed.

Lemma mk_peer_requests_loop_spec data n i end_ :
  0 <= i -> end_ <= Z.of_nat (length data) < max_size ->
  end_ <= i \/ end_ - i <= (Z.of_nat n - 1) * PIECE_SIZE \/ (i mod PIECE_SIZE = 0 /\ end_ - i <= Z.of_nat n * PIECE_SIZE) ->
  Forall (request_ok (Z.of_nat (length data))) (mk_peer_requests_loop n i end_) /\
  concat (read_request data <$> mk_peer_requests_loop n i end_) = slice data i end_.
Proof.
  revert i. induction n as [|n IH]; intros i Hi He Hn.
  - cbn. rewrite slice_empty; [done|]. unfold PIECE_SIZE in *. lia.
  - cbn [mk_peer_requests_loop]. destruct (Z.ltb_spec i end_) as [Hlt|?]; [|by rewrite slice_empty].
    assert (0 < PIECE_SIZE < 2 ^ 31) as HP by done.
    pose proof (Z.mod_pos_bound i PIECE_SIZE ltac:(lia)) as Hm. pose proof (Z.div_mod i PIECE_SIZE ltac:(lia)) as Hd.
    rewrite Z.rem_mod_nonneg by lia. set (e := Z.min (i + PIECE_SIZE - i mod PIECE_SIZE) end_).
    assert (i < e <= end_) as Hie by (unfold e; lia).
    assert (i / PIECE_SIZE < 2 ^ 31) as Hip by (apply piece_fits; lia).
    assert (mk_range (mk_peer_request i e) = (i, e)) as Hr by (apply mk_range_request; unfold e; lia).
    assert (mk_peer_request i e = PeerRequest (i / PIECE_SIZE) (i mod PIECE_SIZE) (e - i)) as Hq by (apply mk_peer_request_fit; unfold e; lia).
    assert (i + r_length (mk_peer_request i e) = e) as -> by (rewrite Hq; cbn; lia).
    assert ((i + PIECE_SIZE - i mod PIECE_SIZE) mod PIECE_SIZE = 0) as Hnext.
    { replace (i + PIECE_SIZE - i mod PIECE_SIZE) with ((i / PIECE_SIZE + 1) * PIECE_SIZE) by lia. by apply Z_mod_mult. }
    destruct (IH e) as [IH1 IH2]; [lia|lia| |].
    { unfold e. destruct (Z.min_spec (i + PIECE_SIZE - i mod PIECE_SIZE) end_) as [[? ->]|[? ->]]; [right; right; split; [done|]; unfold PIECE_SIZE in *|left]; lia. }
    split.
    + constructor; [|done]. split; rewrite ?Hr, ?Hq; cbn; [apply Z.div_pos|lia|lia|unfold e|]; lia.
    + cbn. rewrite IH2. unfold read_request at 1. rewrite Hr. cbn [fst snd]. symmetry. apply slice_app; lia.
Qed.

(** The requests made of a range of a file lie each within one piece and together
    are that range. *)
Lemma mk_peer_requests_spec data begin_ end_ :
  let fsize := Z.of_nat (length data) in
  0 <= begin_ -> fsize < max_size ->
  Forall (request_ok fsize) (mk_peer_requests begin_ end_ fsize) /\
  concat (read_request data <$> mk_peer_requests begin_ end_ fsize) = slice data (Z.min begin_ fsize) (Z.min end_ fsize).
Proof.
  cbv zeta. intros Hb Hs. unfold mk_peer_requests. set (b := Z.min begin_ _). set (e := Z.min end_ _).
  assert (0 < PIECE_SIZE) as HP by done.
  destruct (Z.le_gt_cases e b) as [Hle|Hgt].
  - rewrite slice_empty by done. destruct (Z.to_nat _) as [|n]; [done|]. cbn [mk_peer_requests_loop].
    rewrite (proj2 (Z.ltb_ge b e) Hle). done.
  - apply mk_peer_requests_loop_spec; [lia|lia|right; left].
    pose proof (Z.div_mod (e - b) PIECE_SIZE ltac:(lia)). pose proof (Z.mod_pos_bound (e - b) PIECE_SIZE HP).
    pose proof (Z.div_pos (e - b) PIECE_SIZE ltac:(lia) HP). rewrite Z2Nat.id by lia. unfold PIECE_SIZE in *. lia.
Qed.

(** Splitting off a block. *)
Lemma split_request_spec data r :
  request_ok (Z.of_nat (length data)) r ->
  let '(first_, rest_) := split_request r in
  request_ok (Z.of_nat (length data)) first_ /\ r_length first_ <= BLOCK_SIZE /\
  (r_length rest_ = 0 \/ request_ok (Z.of_nat (length data)) rest_) /\ r_length rest_ < r_length r /\
  read_request data r = read_request data first_ ++ read_request data rest_.
Proof.
  intros [H1 H2 H3 H4 H5]. unfold split_request. unfold mk_range in *. cbn [r_piece r_start r_length fst snd] in *.
  assert (0 < BLOCK_SIZE) by done. split_and!; [split| |destruct (Z.le_gt_cases (r_length r) BLOCK_SIZE); [left|right; split]| |];
    unfold mk_range; cbn [r_piece r_start r_length fst snd]; try lia.
  unfold read_request, mk_range. cbn [r_piece r_start r_length fst snd].
  rewrite (slice_app data _ (r_piece r * PIECE_SIZE + r_start r + Z.min (r_length r) BLOCK_SIZE)) by (unfold PIECE_SIZE in *; lia).
  f_equal; f_equal; lia.
Qed.

(** ** Blocks *)

(** A block of a file. *)
Definition block_in_file (fsize : Z) (b : piece_block) : Prop :=
  0 <= piece_index b /\ Z.of_nat (block_index b) * BLOCK_SIZE < PIECE_SIZE /\ 0 < block_size b fsize.

(** The data of a block that arrive in a part of their own belong to that block
    and have their place in its buffer. *)
Lemma part_of_block fsize b a e :
  let r := block_range (piece_index b) (Z.of_nat (block_index b)) fsize in
  fsize < max_size -> block_in_file fsize b -> fst r <= a < e -> e <= snd r ->
  mk_range (mk_peer_request a e) = (a, e) /\ mk_block (mk_peer_request a e) = (piece_index b, Z.of_nat (block_index b)) /\
  offset_in_block (mk_peer_request a e) = a - fst r /\ r_length (mk_peer_request a e) = e - a.
Proof.
  destruct b as [p k]. unfold block_in_file, block_size, block_range. cbn [piece_index block_index fst snd].
  intros Hs (Hp & Hk & Hsz) Ha He. assert (0 < PIECE_SIZE < 2 ^ 31 /\ 0 < BLOCK_SIZE < 2 ^ 31) as [HP HB] by done.
  assert (0 <= a) by lia. assert (a / PIECE_SIZE < 2 ^ 31) by (apply piece_fits; lia).
  rewrite mk_range_request by lia. rewrite mk_peer_request_fit by lia.
  assert (a / PIECE_SIZE = p /\ a mod PIECE_SIZE = a - p * PIECE_SIZE) as [-> Hm].
  { assert (a / PIECE_SIZE = p) as Hd by (symmetry; apply (Z.div_unique_pos a PIECE_SIZE p (a - p * PIECE_SIZE)); lia).
    split; [done|]. rewrite Z.mod_eq by lia. rewrite Hd. lia. }
  unfold mk_block, offset_in_block. cbn [r_piece r_start r_length]. rewrite Hm.
  rewrite Z.quot_div_nonneg, Z.rem_mod_nonneg by lia.
  assert ((a - p * PIECE_SIZE) / BLOCK_SIZE = Z.of_nat k) as Hd by (symmetry; apply (Z.div_unique_pos _ _ _ (a - p * PIECE_SIZE - Z.of_nat k * BLOCK_SIZE)); lia).
  split_and!; [done|by rewrite Hd| |done]. rewrite Z.mod_eq by lia. rewrite Hd. lia.
Qed.

(** Offsets are unsigned on the wire and signed in the code: a request can begin
    before the file. *)
Example request_before_file :
  mk_peer_requests (to_int64 (2 ^ 64 - 1)) (to_int64 10) 1000 = [PeerRequest 0 (-1) 11].
Proof. by vm_compute. Qed.
