(* ===== verification/PeerUpload.v ===== *)
(** * Uploads of a peer connection: src/peer_connection.cpp, src/base_connection.cpp

    The sending half of a connection: messages and parts of the file go through the
    send buffer of ChainedBuffer.v, within the quota the bandwidth manager grants.  A
    part is a header followed by data that are read from disk block by block; while
    it is under way ([bw_seq]) messages are deferred.

    The session, the disk and the socket are outside: the record [upload_env] has
    what they answer, [u_job] is the read the disk thread works on, [u_writing] the
    bytes the socket has been given, [u_sent] what it has sent.  [u_frames] and
    [u_accepted] are logs of what was put into the send buffer and of the requests
    that were accepted; no operation looks at them, nor at [u_sent]. *)

From S2P Require Import Prelude Archive Md4Hash CTag Packets ClientPackets PiecePicker ChainedBuffer PeerRequests.
From stdpp Require Import list.
Open Scope Z_scope.

Definition send_buffer_size : Z := 128.

(** [allocate_send_buffer] gives whole buffers of [send_buffer_size]. *)
Definition buffers_size (size : Z) : Z := (size + send_buffer_size - 1) / send_buffer_size * send_buffer_size.

(** What is outside: the file and which pieces of it we have, the setting
    [send_buffer_watermark], and the answers of the session to the n-th question, how
    much bandwidth it grants and the memory it allocates. *)
Record upload_env := UploadEnv {
  ue_hash : md4_hash;
  ue_data : bytes;
  ue_have : Z -> bool;
  ue_watermark : Z;
  ue_grant : nat -> Z;
  ue_alloc : nat -> Z -> option bytes
}.

(** What is sent: messages, and parts, which are a message and data. *)
Inductive frame := frame_message (m : message) | frame_part (r : peer_request).

Record upload := Upload {
  u_send_buffer : chained_buffer;
  u_bw_limit : bool; u_bw_network : bool; u_bw_seq : bool;
  u_quota : Z;
  u_requests : list peer_request;
  u_deferred : list message;
  u_payloads : list (Z * Z);
  u_handshake_complete : bool;
  u_connecting : bool;
  u_open : bool;
  u_disconnecting : bool;
  u_attached : bool;
  u_job : option (peer_request * peer_request);
  u_writing : option bytes;
  u_sent : bytes;
  u_sent_payload : Z; u_sent_protocol : Z;
  u_calls : nat;
  u_frames : list frame;
  u_accepted : list peer_request
}.

Definition set_send_buffer (b : chained_buffer) (u : upload) : upload :=
  Upload b (u_bw_limit u) (u_bw_network u) (u_bw_seq u) (u_quota u) (u_requests u) (u_deferred u) (u_payloads u)
    (u_handshake_complete u) (u_connecting u) (u_open u) (u_disconnecting u) (u_attached u) (u_job u) (u_writing u) (u_sent u)
    (u_sent_payload u) (u_sent_protocol u) (u_calls u) (u_frames u) (u_accepted u).
Definition set_channel (limit network : bool) (quota : Z) (u : upload) : upload :=
  Upload (u_send_buffer u) limit network (u_bw_seq u) quota (u_requests u) (u_deferred u) (u_payloads u)
    (u_handshake_complete u) (u_connecting u) (u_open u) (u_disconnecting u) (u_attached u) (u_job u) (u_writing u) (u_sent u)
    (u_sent_payload u) (u_sent_protocol u) (u_calls u) (u_frames u) (u_accepted u).
Definition set_seq (seq : bool) (job : option (peer_request * peer_request)) (u : upload) : upload :=
  Upload (u_send_buffer u) (u_bw_limit u) (u_bw_network u) seq (u_quota u) (u_requests u) (u_deferred u) (u_payloads u)
    (u_handshake_complete u) (u_connecting u) (u_open u) (u_disconnecting u) (u_attached u) job (u_writing u) (u_sent u)
    (u_sent_payload u) (u_sent_protocol u) (u_calls u) (u_frames u) (u_accepted u).
Definition set_requests (l accepted : list peer_request) (u : upload) : upload :=
  Upload (u_send_buffer u) (u_bw_limit u) (u_bw_network u) (u_bw_seq u) (u_quota u) l (u_deferred u) (u_payloads u)
    (u_handshake_complete u) (u_connecting u) (u_open u) (u_disconnecting u) (u_attached u) (u_job u) (u_writing u) (u_sent u)
    (u_sent_payload u) (u_sent_protocol u) (u_calls u) (u_frames u) accepted.
Definition set_deferred (l : list message) (u : upload) : upload :=
  Upload (u_send_buffer u) (u_bw_limit u) (u_bw_network u) (u_bw_seq u) (u_quota u) (u_requests u) l (u_payloads u)
    (u_handshake_complete u) (u_connecting u) (u_open u) (u_disconnecting u) (u_attached u) (u_job u) (u_writing u) (u_sent u)
    (u_sent_payload u) (u_sent_protocol u) (u_calls u) (u_frames u) (u_accepted u).
Definition set_payloads (l : list (Z * Z)) (u : upload) : upload :=
  Upload (u_send_buffer u) (u_bw_limit u) (u_bw_network u) (u_bw_seq u) (u_quota u) (u_requests u) (u_deferred u) l
    (u_handshake_complete u) (u_connecting u) (u_open u) (u_disconnecting u) (u_attached u) (u_job u) (u_writing u) (u_sent u)
    (u_sent_payload u) (u_sent_protocol u) (u_calls u) (u_frames u) (u_accepted u).
Definition set_status (handshake connecting open disconnecting attached : bool) (u : upload) : upload :=
  Upload (u_send_buffer u) (u_bw_limit u) (u_bw_network u) (u_bw_seq u) (u_quota u) (u_requests u) (u_deferred u) (u_payloads u)
    handshake connecting open disconnecting attached (u_job u) (u_writing u) (u_sent u)
    (u_sent_payload u) (u_sent_protocol u) (u_calls u) (u_frames u) (u_accepted u).
Definition set_writing (w : option bytes) (sent : bytes) (u : upload) : upload :=
  Upload (u_send_buffer u) (u_bw_limit u) (u_bw_network u) (u_bw_seq u) (u_quota u) (u_requests u) (u_deferred u) (u_payloads u)
    (u_handshake_complete u) (u_connecting u) (u_open u) (u_disconnecting u) (u_attached u) (u_job u) w sent
    (u_sent_payload u) (u_sent_protocol u) (u_calls u) (u_frames u) (u_accepted u).
Definition sent_bytes (payload protocol : Z) (u : upload) : upload :=
  Upload (u_send_buffer u) (u_bw_limit u) (u_bw_network u) (u_bw_seq u) (u_quota u) (u_requests u) (u_deferred u) (u_payloads u)
    (u_handshake_complete u) (u_connecting u) (u_open u) (u_disconnecting u) (u_attached u) (u_job u) (u_writing u) (u_sent u)
    (u_sent_payload u + payload) (u_sent_protocol u + protocol) (u_calls u) (u_frames u) (u_accepted u).
Definition next_call (u : upload) : upload :=
  Upload (u_send_buffer u) (u_bw_limit u) (u_bw_network u) (u_bw_seq u) (u_quota u) (u_requests u) (u_deferred u) (u_payloads u)
    (u_handshake_complete u) (u_connecting u) (u_open u) (u_disconnecting u) (u_attached u) (u_job u) (u_writing u) (u_sent u)
    (u_sent_payload u) (u_sent_protocol u) (S (u_calls u)) (u_frames u) (u_accepted u).
Definition log_frame (f : frame) (u : upload) : upload :=
  Upload (u_send_buffer u) (u_bw_limit u) (u_bw_network u) (u_bw_seq u) (u_quota u) (u_requests u) (u_deferred u) (u_payloads u)
    (u_handshake_complete u) (u_connecting u) (u_open u) (u_disconnecting u) (u_attached u) (u_job u) (u_writing u) (u_sent u)
    (u_sent_payload u) (u_sent_protocol u) (u_calls u) (u_frames u ++ [f]) (u_accepted u).

(** A connection: one we opened for a transfer ([attached]), or an incoming one. *)
Definition upload_new (attached : bool) : upload :=
  Upload chain_new false false false 0 [] [] [] false attached (negb attached) false attached None None [] 0 0 0 [] [].

Section Uploads.
Context (e : upload_env).

(** [disconnect], as far as sending is concerned: it lets go of the transfer and
    closes the socket. *)
Definition disconnect (u : upload) : upload :=
  if u_disconnecting u then u else set_status (u_handshake_complete u) (u_connecting u) false true false u.

(** ** The send buffer *)

Definition can_write (u : upload) : bool :=
  negb (chain_empty (u_send_buffer u)) && (0 <? u_quota u) && negb (u_connecting u).

Definition has_upload_bandwidth (u : upload) : bool * upload :=
  if (u_quota u =? 0) && negb (chain_empty (u_send_buffer u)) && negb (u_connecting u) then
    let ret := ue_grant e (u_calls u) in
    let u := next_call u in
    if ret =? 0 then (false, set_channel true (u_bw_network u) (u_quota u) u)
    else (true, set_channel (u_bw_limit u) (u_bw_network u) (u_quota u + ret) u)
  else (true, u).

(** [base_connection::do_write]. *)
Definition base_do_write (quota : Z) (u : upload) : upload :=
  if negb (u_open u) then u
  else if u_bw_network u || u_bw_limit u then u
  else
    let amount_to_send := Z.min (m_bytes (u_send_buffer u)) quota in
    if amount_to_send =? 0 then u
    else
      set_channel (u_bw_limit u) true (u_quota u)
        (set_writing (Some (concat (build_iovec amount_to_send (m_vec (u_send_buffer u))))) (u_sent u) u).

(** [peer_connection::do_write]. *)
Definition do_write (u : upload) : upload :=
  if u_disconnecting u then u
  else if u_bw_network u || u_bw_limit u then u
  else
    let '(ok, u) := has_upload_bandwidth u in
    if negb ok then u else if negb (can_write u) then u else base_do_write (u_quota u) u.

Definition copy_send_buffer (buf : bytes) (u : upload) : upload :=
  let size := Z.of_nat (length buf) in
  let free_space := Z.min (space_in_last_buffer (u_send_buffer u)) size in
  let '(u, buf) :=
    if 0 <? free_space
    then (set_send_buffer (snd (append (take (Z.to_nat free_space) buf) (u_send_buffer u))) u, drop (Z.to_nat free_space) buf)
    else (u, buf) in
  match buf with
  | [] => u
  | _ =>
      let size := Z.of_nat (length buf) in
      match ue_alloc e (u_calls u) (buffers_size size) with
      | None => disconnect (next_call u)
      | Some mem =>
          set_send_buffer
            (append_buffer (copy_to mem 0 buf) (buffers_size size) size (u_calls u) (u_send_buffer u)) (next_call u)
      end
  end.

(** [base_connection::write_message]; [f] is what is logged. *)
Definition write_message (f : frame) (msg : message) (u : upload) : upload :=
  do_write (copy_send_buffer (snd msg) (copy_send_buffer (header_bytes (fst msg)) (log_frame f u))).

(** [peer_connection::write_struct] with the message made of the structure. *)
Definition write_struct (msg : message) (u : upload) : upload :=
  if u_bw_seq u then set_deferred (u_deferred u ++ [msg]) u else write_message (frame_message msg) msg u.

Definition send_deferred (u : upload) : upload :=
  set_deferred [] (fold_left (fun u msg => write_message (frame_message msg) msg u) (u_deferred u) u).

(** ** Parts *)

Definition part_message (r : peer_request) : message :=
  make_message (ClientSendingPart (w := 8) (ue_hash e) (fst (mk_range r)) (snd (mk_range r))).

(** [write_part] is called when no part is under way. *)
Definition write_part (r : peer_request) (u : upload) : upload :=
  if u_attached u then write_message (frame_part r) (part_message r) u else u.

(** [send_data] asks the disk for the next block of [req], or ends the part. *)
Definition send_data (fill_send_buffer : upload -> option upload) (req : peer_request) (u : upload) : option upload :=
  if negb (u_attached u) then Some u
  else
    let '(r, left_) := split_request req in
    if 0 <? r_length r then Some (set_seq true (Some (r, left_)) u)
    else fill_send_buffer (set_seq false (u_job u) u).

(** [None] is a recursion that does not end. *)
Fixpoint fill_send_buffer (n : nat) (u : upload) : option upload :=
  match n with
  | O => None
  | S n =>
      if u_bw_seq u then Some u
      else
        let u := if u_handshake_complete u then send_deferred u else u in
        match u_requests u with
        | [] => Some u
        | req :: _ =>
            if m_bytes (u_send_buffer u) <? ue_watermark e then
              u ← send_data (fill_send_buffer n) req (write_part req u);
              Some (set_requests (drop 1 (u_requests u)) (u_accepted u) u)
            else Some u
        end
  end.

Definition fill : upload -> option upload := fill_send_buffer 2.

(** ** Handlers *)

(** The data of a block that was read go to the send buffer as a block of their own. *)
Definition append_payload (r : peer_request) (u : upload) : upload :=
  let b := append_buffer (read_request (ue_data e) r) (r_length r) (r_length r) (u_calls u) (u_send_buffer u) in
  let u := next_call (set_send_buffer b u) in
  set_payloads (u_payloads u ++ [(m_bytes b - r_length r, r_length r)]) u.

(** [on_disk_read_complete]; for an error [handle_disk_error] may disconnect us. *)
Definition on_disk_read_complete (ok disconnects : bool) (u : upload) : option upload :=
  match u_job u with
  | None => Some u
  | Some (r, left_) =>
      let u := set_seq (u_bw_seq u) None u in
      if negb ok then Some (if negb (u_attached u) || disconnects then disconnect u else u)
      else send_data fill left_ (do_write (append_payload r u))
  end.

(** The loop over the payload markers in [on_sent]: the bytes of payload sent and
    the markers. *)
Fixpoint payloads_sent (n : Z) (l : list (Z * Z)) : Z * list (Z * Z) :=
  match l with
  | [] => (0, [])
  | (start, len) :: l =>
      let '(amount, l) := payloads_sent n l in
      let start := start - n in
      if start <? 0 then
        if start + len <=? 0 then (amount + len, (start, len) :: l)
        else (amount - start, (0, len + start) :: l)
      else (amount, (start, len) :: l)
  end.

Definition range_below_zero (r : Z * Z) : bool := fst r <? 0.

Definition on_sent (n : Z) (u : upload) : upload :=
  let u := set_channel (u_bw_limit u) (u_bw_network u) (u_quota u - n) u in
  let '(amount_payload, l) := payloads_sent n (u_payloads u) in
  sent_bytes amount_payload (n - amount_payload) (set_payloads (filter (fun r => range_below_zero r = false) l) u).

(** [on_write]: the socket has sent [n] bytes of [data]. *)
Definition bytes_written (n : nat) (data : bytes) (u : upload) : upload :=
  let u := set_writing None (u_sent u ++ take n data) u in
  let u := set_send_buffer (pop_front (Z.of_nat n) (u_send_buffer u)) u in
  set_channel (u_bw_limit u) false (u_quota u) u.

(** All bytes were sent if there was no error. *)
Definition on_write (error : bool) (n : nat) (u : upload) : upload :=
  match u_writing u with
  | None => u
  | Some data =>
      if error then disconnect (bytes_written (Nat.min n (length data)) data u)
      else
        let u := bytes_written (length data) data u in
        if negb (u_open u) then u else do_write (on_sent (Z.of_nat (length data)) u)
  end.

(** [assign_bandwidth] for the upload channel. *)
Definition assign_upload (amount : Z) (u : upload) : upload :=
  do_write (set_channel false (u_bw_network u) (u_quota u + amount) u).

(** [send_throw_meta_order]. *)
Definition send_throw_meta_order (msg : message) (u : upload) : option upload :=
  let u := set_deferred (u_deferred u ++ [msg]) u in
  if u_open u then fill u else Some u.

(** [on_request_parts]: the offsets are unsigned, [mk_peer_requests] takes them as
    signed. *)
Definition wanted_requests (ranges : list (Z * Z)) : list peer_request :=
  filter (fun r => ue_have e (r_piece r) = true)
    (concat ((fun r => mk_peer_requests (to_int64 (fst r)) (to_int64 (snd r)) (Z.of_nat (length (ue_data e)))) <$> ranges)).

Definition on_request_parts (ranges : list (Z * Z)) (u : upload) : option upload :=
  if u_attached u then
    let l := wanted_requests ranges in
    fill (set_requests (u_requests u ++ l) (u_accepted u ++ l) u)
  else Some u.

(** The upload half of [second_tick]; a connection that times out is disconnected by
    another step. *)
Definition second_tick (u : upload) : option upload :=
  if negb (u_attached u) || u_disconnecting u
  then Some (disconnect (set_status (u_handshake_complete u) false (u_open u) (u_disconnecting u) (u_attached u) u))
  else if u_open u then fill u else Some u.

(** [finalize_handshake], without the message it writes; [fills] if there is none. *)
Definition finalize_handshake (fills : bool) (u : upload) : option upload :=
  if u_handshake_complete u then Some u
  else
    let u := set_status true (u_connecting u) (u_open u) (u_disconnecting u) (u_attached u) u in
    if fills then fill u else Some u.

(** [connect] opens the socket; [on_connect] is called when it is connected and
    writes the hello message. *)
Definition connect (u : upload) : upload :=
  set_status (u_handshake_complete u) (u_connecting u) true (u_disconnecting u) (u_attached u) u.
Definition on_connect (hello : message) (u : upload) : upload :=
  if u_disconnecting u then u
  else write_struct hello (set_status (u_handshake_complete u) false (u_open u) (u_disconnecting u) (u_attached u) u).

(** [attach_to_transfer]: an incoming connection gets its transfer. *)
Definition attach_transfer (u : upload) : upload :=
  set_status (u_handshake_complete u) (u_connecting u) (u_open u) (u_disconnecting u) true u.

(** ** Steps

    The handlers, in any order.  A message is a structure that some handler of the
    connection writes.  A handler of a packet is called only while the connection is
    open; the offsets of a request are below 2^63. *)
Inductive upload_op :=
| op_write (msg : message)
| op_meta_order (msg : message)
| op_request_parts (ranges : list (Z * Z))
| op_disk_read (ok disconnects : bool)
| op_on_write (error : bool) (n : nat)
| op_assign (amount : Z)
| op_tick
| op_handshake (fills : bool)
| op_connect
| op_on_connect (hello : message)
| op_attach
| op_disconnect.

Definition upload_enabled (o : upload_op) (u : upload) : Prop :=
  match o with
  | op_request_parts ranges => u_disconnecting u = false /\ u_connecting u = false /\ Forall (fun r => 0 <= fst r < 2 ^ 63) ranges
  | op_assign amount => 0 < amount /\ u_bw_limit u = true
  | op_on_connect _ => u_open u = true
  | op_attach => u_disconnecting u = false
  | _ => True
  end.

Definition upload_perform (o : upload_op) (u : upload) : option upload :=
  match o with
  | op_write msg => Some (write_struct msg u)
  | op_meta_order msg => send_throw_meta_order msg u
  | op_request_parts ranges => on_request_parts ranges u
  | op_disk_read ok disconnects => on_disk_read_complete ok disconnects u
  | op_on_write error n => Some (on_write error n u)
  | op_assign amount => Some (assign_upload amount u)
  | op_tick => second_tick u
  | op_handshake fills => finalize_handshake fills u
  | op_connect => Some (connect u)
  | op_on_connect hello => Some (on_connect hello u)
  | op_attach => Some (attach_transfer u)
  | op_disconnect => Some (disconnect u)
  end.

Inductive upload_reached : upload -> Prop :=
| upload_reached_new attached : upload_reached (upload_new attached)
| upload_reached_step o u u' : upload_reached u -> upload_enabled o u -> upload_perform o u = Some u' -> upload_reached u'.

End Uploads.

(** What the session answers: grants are not negative, memory has the size that was
    asked for; and the file has fewer than 2^31 pieces. *)
Record upload_env_ok (e : upload_env) : Prop := UploadEnvOk {
  eo_grant : forall n, 0 <= ue_grant e n;
  eo_alloc : forall n size mem, 0 <= size -> ue_alloc e n size = Some mem -> Z.of_nat (length mem) = size;
  eo_size : Z.of_nat (length (ue_data e)) < max_size
}.
