(* ===== verification/PeerUploadProps.v ===== *)
(** * Uploads: what is sent

    The stream of bytes a connection sends is a sequence of whole messages and whole
    parts, whatever order its handlers run in; the accepted requests are served in
    order; and the statistics tell payload and protocol bytes apart. *)

From S2P Require Import Prelude Archive Md4Hash CTag Packets ClientPackets PiecePicker ChainedBuffer PeerRequests PeerUpload.
From stdpp Require Import list.
Open Scope Z_scope.

(** ** The stream *)

(** Bytes, and whether they are payload. *)
Definition tag (b : bool) (l : bytes) : list (bool * byte) := pair b <$> l.

Lemma tag_app b l l' : tag b (l ++ l') = tag b l ++ tag b l'.
Proof. apply fmap_app. Qed.

Lemma tag_snd b l : snd <$> tag b l = l.
Proof. unfold tag. rewrite <- list_fmap_compose. apply list_fmap_id. Qed.

Lemma tag_fst b l : fst <$> tag b l = replicate (length l) b.
Proof. unfold tag. rewrite <- list_fmap_compose. induction l; cbn; by f_equal. Qed.

Section Stream.
Context (e : upload_env).

Definition frame_header (f : frame) : message := match f with frame_message m => m | frame_part r => part_message e r end.
Definition frame_data (f : frame) : bytes := match f with frame_message _ => [] | frame_part r => read_request (ue_data e) r end.
Definition frame_tagged (f : frame) : list (bool * byte) := tag false (message_bytes (frame_header f)) ++ tag true (frame_data f).
Definition stream (l : list frame) : list (bool * byte) := concat (frame_tagged <$> l).

Lemma stream_snoc l f : stream (l ++ [f]) = stream l ++ frame_tagged f.
Proof. unfold stream. rewrite fmap_app, concat_app. cbn. by rewrite app_nil_r. Qed.

End Stream.

(** The requests that have been begun. *)
Definition parts (l : list frame) : list peer_request := omap (fun f => match f with frame_part r => Some r | _ => None end) l.

Lemma parts_app l l' : parts (l ++ l') = parts l ++ parts l'.
Proof. apply omap_app. Qed.

(** ** Payload markers *)

(** The flags of the bytes of the send buffer from [pos] on, as the markers tell them. *)
Fixpoint render (pos : Z) (l : list (Z * Z)) : list bool :=
  match l with
  | [] => []
  | (start, len) :: l => replicate (Z.to_nat (start - pos)) false ++ replicate (Z.to_nat len) true ++ render (start + len) l
  end.

Fixpoint markers_ok (pos : Z) (l : list (Z * Z)) : Prop :=
  match l with [] => True | (start, len) :: l => pos <= start /\ 0 < len /\ markers_ok (start + len) l end.

(** The markers describe the flags of the bytes in the send buffer. *)
Definition describes (l : list (Z * Z)) (flags : list bool) : Prop :=
  markers_ok 0 l /\ exists k, flags = render 0 l ++ replicate k false.

Definition count_true (l : list bool) : Z := Z.of_nat (length (filter (fun b => b = true) l)).

Lemma count_true_app l l' : count_true (l ++ l') = count_true l + count_true l'.
Proof. unfold count_true. rewrite filter_app, length_app. lia. Qed.

Lemma count_true_replicate n b : count_true (replicate n b) = if b then Z.of_nat n else 0.
Proof. unfold count_true. induction n as [|n IH]; [by destruct b|]. change (replicate (S n) b) with (b :: replicate n b). rewrite filter_cons. destruct b; case_decide; cbn in *; lia || done. Qed.

Lemma length_render pos l : markers_ok pos l -> Z.of_nat (length (render pos l)) = match last l with Some (s, n) => s + n - pos | None => 0 end.
Proof.
  revert pos. induction l as [|[s n] l IH]; intros pos; [done|]. cbn [markers_ok render]. intros (H1 & H2 & H3).
  rewrite !length_app, !length_replicate, !Nat2Z.inj_add, (IH _ H3). rewrite last_cons. destruct (last l) as [[s' n']|]; cbn; lia.
Qed.

Lemma payloads_sent_spec n l pos :
  markers_ok pos l ->
  let '(amount, l') := payloads_sent n l in
  let l' := filter (fun r => range_below_zero r = false) l' in
  markers_ok (Z.max pos n - n) l' /\ render (Z.max pos n - n) l' = drop (Z.to_nat (n - pos)) (render pos l) /\
  amount = count_true (take (Z.to_nat (n - pos)) (render pos l)).
Proof.
  revert pos. induction l as [|[s len] l IH]; intros pos.
  { intros _. cbn. by rewrite drop_nil, take_nil. }
  cbn [markers_ok payloads_sent render]. intros (H1 & H2 & H3). specialize (IH _ H3). destruct (payloads_sent n l) as [amount l'].
  cbv zeta in *. destruct IH as (IH1 & IH2 & IH3). set (tail := filter _ l') in *.
  rewrite !drop_app, !take_app, !drop_replicate, !take_replicate, !length_replicate, !count_true_app, !count_true_replicate.
  replace (Z.to_nat (n - pos) - Z.to_nat (s - pos))%nat with (Z.to_nat (n - s)) by lia.
  replace (Z.to_nat (n - s) - Z.to_nat len)%nat with (Z.to_nat (n - (s + len))) by lia. rewrite <- IH2, <- IH3.
  destruct (Z.ltb_spec (s - n) 0); [destruct (Z.leb_spec (s - n + len) 0)|]; rewrite filter_cons; fold tail; unfold range_below_zero; cbn [fst].
  - rewrite decide_False by lia. replace (Z.max pos n - n) with (Z.max (s + len) n - n) by lia.
    replace (Z.to_nat (s - pos) - Z.to_nat (n - pos))%nat with 0%nat by lia. replace (Z.to_nat len - Z.to_nat (n - s))%nat with 0%nat by lia.
    split_and!; [done|done|lia].
  - rewrite decide_True by done. cbn [markers_ok render]. replace (0 + (len + (s - n))) with (Z.max (s + len) n - n) by lia.
    split_and!; [lia|lia|done| |lia]. f_equal; [f_equal; lia|]. f_equal. f_equal. lia.
  - rewrite decide_True by lia. cbn [markers_ok render]. replace (s - n + len) with (Z.max (s + len) n - n) by lia.
    split_and!; [lia|lia|done| |lia]. f_equal; [f_equal; lia|]. f_equal. f_equal. lia.
Qed.

Lemma describes_sent n l flags :
  describes l flags -> (n <= length flags)%nat ->
  let '(amount, l') := payloads_sent (Z.of_nat n) l in
  describes (filter (fun r => range_below_zero r = false) l') (drop n flags) /\ amount = count_true (take n flags).
Proof.
  intros [Hl [k ->]] Hn. pose proof (payloads_sent_spec (Z.of_nat n) l 0 Hl) as H. destruct (payloads_sent (Z.of_nat n) l) as [amount l'].
  cbv zeta in H. destruct H as (H1 & H2 & H3). replace (Z.max 0 (Z.of_nat n) - Z.of_nat n) with 0 in * by lia.
  rewrite Z.sub_0_r, Nat2Z.id in *. split.
  - split; [done|]. exists (k - (n - length (render 0 l)))%nat. by rewrite H2, drop_app, drop_replicate.
  - rewrite take_app, take_replicate, count_true_app, count_true_replicate. lia.
Qed.

Lemma render_snoc pos l s n :
  render pos (l ++ [(s, n)]) = render pos l ++ replicate (Z.to_nat (s - match last l with Some (a, b) => a + b | None => pos end)) false ++ replicate (Z.to_nat n) true.
Proof.
  revert pos. induction l as [|[a b] l IH]; intros pos; cbn [render app].
  - cbn. by rewrite app_nil_r.
  - rewrite IH, last_cons, <- !app_assoc. do 3 f_equal. destruct (last l) as [[? ?]|]; done.
Qed.

Lemma markers_snoc pos l s n :
  markers_ok pos l -> match last l with Some (a, b) => a + b | None => pos end <= s -> 0 < n -> markers_ok pos (l ++ [(s, n)]).
Proof.
  revert pos. induction l as [|[a b] l IH]; intros pos; cbn [markers_ok app]; [intuition lia|]. intros (H1 & H2 & H3) Hs Hn.
  split_and!; [done|done|]. apply IH; [done| |done]. rewrite last_cons in Hs. destruct (last l) as [[? ?]|]; done.
Qed.

Lemma describes_header l flags k : describes l flags -> describes l (flags ++ replicate k false).
Proof. intros [Hl [k' ->]]. split; [done|]. exists (k' + k)%nat. by rewrite <- app_assoc, <- replicate_add. Qed.

(** The marker of data appended to the send buffer. *)
Lemma describes_data l flags n :
  describes l flags -> (0 < n)%nat -> describes (l ++ [(Z.of_nat (length flags), Z.of_nat n)]) (flags ++ replicate n true).
Proof.
  intros [Hl [k ->]] Hn. pose proof (length_render 0 l Hl) as Hr. rewrite length_app, length_replicate.
  split.
  - apply markers_snoc; [done| |lia]. destruct (last l) as [[a b]|]; lia.
  - exists 0%nat. rewrite app_nil_r, render_snoc, <- !app_assoc. f_equal. rewrite Nat2Z.id. do 2 f_equal.
    destruct (last l) as [[a b]|]; lia.
Qed.

(** ** The invariant *)

Section Invariant.
Context (e : upload_env) (He : upload_env_ok e).
Local Abbreviation fsize := (Z.of_nat (length (ue_data e))).

(** The stream up to now is what was sent, what is in the send buffer, and [tr]. *)
Definition cut (tr : list (bool * byte)) (u : upload) : Prop :=
  exists ts tc, stream e (u_frames u) = ts ++ tc ++ tr /\ snd <$> ts = u_sent u /\ snd <$> tc = contents (u_send_buffer u) /\
    describes (u_payloads u) (fst <$> tc) /\ u_sent_payload u = count_true (fst <$> ts) /\
    u_sent_payload u + u_sent_protocol u = Z.of_nat (length ts).

Record stream_inv (tr : list (bool * byte)) (u : upload) : Prop := StreamInv {
  si_chain : chain_ok (u_send_buffer u);
  si_writing : match u_writing u with Some d => u_bw_network u = true /\ d `prefix_of` contents (u_send_buffer u) | None => True end;
  si_cut : u_disconnecting u = false -> cut tr u;
  si_open : u_writing u <> None -> u_disconnecting u = false -> u_open u = true;
  si_sent : u_sent u ++ default [] (u_writing u) `prefix_of` (snd <$> stream e (u_frames u))
}.

(** The requests and the part under way. *)
Record request_inv (tr : list (bool * byte)) (u : upload) : Prop := RequestInv {
  ri_requests : Forall (request_ok fsize) (u_requests u);
  ri_attached : u_disconnecting u = false -> u_attached u = false -> u_requests u = [];
  ri_gone : u_disconnecting u = true -> u_attached u = false;
  ri_parts : u_disconnecting u = false -> parts (u_frames u) ++ u_requests u = u_accepted u;
  ri_job : match u_job u with
           | Some (r, left_) =>
               u_bw_seq u = true /\ request_ok fsize r /\ (r_length left_ = 0 \/ request_ok fsize left_) /\
               tr = tag true (read_request (ue_data e) r ++ read_request (ue_data e) left_)
           | None => u_disconnecting u = false -> u_bw_seq u = false -> tr = []
           end
}.

Definition upload_inv (u : upload) : Prop := exists tr, stream_inv tr u /\ request_inv tr u.

(** The fields that no write touches. *)
Definition core (u : upload) :=
  (u_bw_seq u, u_requests u, u_deferred u, u_payloads u, u_handshake_complete u, u_job u, u_sent u, u_sent_payload u,
   u_sent_protocol u, u_accepted u).

Lemma core_fields u u' :
  core u = core u' -> u_bw_seq u = u_bw_seq u' /\ u_requests u = u_requests u' /\ u_deferred u = u_deferred u' /\ u_job u = u_job u'.
Proof. intros H. by injection H. Qed.

(** After a write that may have failed. *)
Definition wrote (u u' : upload) : Prop :=
  core u' = core u /\
  ((u_disconnecting u' = u_disconnecting u /\ u_attached u' = u_attached u) \/ (u_disconnecting u' = true /\ u_attached u' = false)).

Lemma wrote_refl u : wrote u u.
Proof. split; auto. Qed.

Lemma wrote_trans u u' u'' : wrote u u' -> wrote u' u'' -> wrote u u''.
Proof.
  intros [H1 H2] [H3 H4]. split; [by rewrite H3|]. destruct H4 as [[-> ->]|?]; auto.
Qed.

Lemma request_inv_wrote tr u u' : wrote u u' -> u_frames u' = u_frames u -> request_inv tr u -> request_inv tr u'.
Proof.
  intros [Hc Hd] Hf [H1 H2 H3 H4 H5]. injection Hc as E1 E2 _ _ _ E3 _ _ _ E4.
  split; rewrite ?E1, ?E2, ?E3, ?E4, ?Hf; [done| | | |destruct (u_job u) as [[r l]|]; [done|]]; destruct Hd as [[Ha Hb]|[Ha Hb]]; rewrite ?Ha, ?Hb; done.
Qed.

Lemma has_upload_bandwidth_spec u :
  let '(ok, u') := has_upload_bandwidth e u in
  wrote u u' /\ u_frames u' = u_frames u /\ u_send_buffer u' = u_send_buffer u /\ u_writing u' = u_writing u /\
  u_bw_network u' = u_bw_network u /\ u_disconnecting u' = u_disconnecting u /\ u_open u' = u_open u.
Proof. unfold has_upload_bandwidth. repeat case_match; simplify_eq; cbn; split_and!; try done; split; auto. Qed.

Lemma do_write_spec tr u :
  stream_inv tr u -> stream_inv tr (do_write e u) /\ wrote u (do_write e u) /\ u_frames (do_write e u) = u_frames u.
Proof.
  intros Hs. unfold do_write. destruct (u_disconnecting u) eqn:Hd; [by split_and!; [|apply wrote_refl|]|].
  destruct (u_bw_network u || u_bw_limit u) eqn:Hb; [by split_and!; [|apply wrote_refl|]|]. apply orb_false_iff in Hb as [Hnet _].
  pose proof (has_upload_bandwidth_spec u) as H. destruct (has_upload_bandwidth e u) as [ok u1]. destruct H as (Hw & Hf & Hsb & Hwr & Hn & Hd1 & Ho).
  assert (stream_inv tr u1) as Hs1.
  { destruct Hs as [H1 H2 H3 H5 H4]. destruct Hw as [Hc _]. injection Hc as _ _ _ E1 _ _ E2 E3 E4 _.
    split; unfold cut; rewrite ?Ho, ?Hsb, ?Hwr, ?Hn, ?Hf, ?E1, ?E2, ?E3, ?E4, ?Hd1; done. }
  destruct ok; cbn [negb]; [|done]. destruct (can_write u1) eqn:Hcan; cbn [negb]; [|done].
  unfold base_do_write. destruct (u_open u1) eqn:Hop; cbn [negb]; [|done]. destruct (u_bw_network u1 || u_bw_limit u1); [done|].
  destruct (_ =? 0) eqn:Ha; [done|]. split_and!; [|by eapply wrote_trans; [exact Hw|split; auto]|done].
  destruct Hs1 as [H1 H2 H3 H5 H4]. unfold can_write in Hcan. apply andb_true_iff in Hcan as [Hcan _]. apply andb_true_iff in Hcan as [_ Hq].
  assert (concat (build_iovec (Z.min (m_bytes (u_send_buffer u1)) (u_quota u1)) (m_vec (u_send_buffer u1))) =
    take (Z.to_nat (Z.min (m_bytes (u_send_buffer u1)) (u_quota u1))) (contents (u_send_buffer u1))) as ->.
  { destruct H1 as (Hv & Hbytes & _). apply build_iovec_ok; [done|]. lia. }
  destruct (H3 ltac:(congruence)) as (ts & tc & Hst & Hts & Htc & Hcut).
  split; cbn [u_send_buffer u_writing u_bw_network u_disconnecting u_sent u_frames set_channel set_writing default];
    [done|split; [done|apply prefix_take]|by exists ts, tc|done|].
  rewrite Hst, <- Hts, <- Htc, !fmap_app. apply prefix_app. apply prefix_app_r, prefix_take.
Qed.

Lemma disconnect_spec tr u :
  stream_inv tr u -> stream_inv tr (disconnect u) /\ wrote u (disconnect u) /\ u_frames (disconnect u) = u_frames u.
Proof.
  intros Hs. unfold disconnect. destruct (u_disconnecting u) eqn:Hd; [by split_and!; [|apply wrote_refl|]|]. destruct Hs as [H1 H2 H3 H5 H4].
  split_and!; [split; cbn; done|split; auto|done].
Qed.

(** Bytes copied into the send buffer, unless there is no memory. *)
Lemma copy_send_buffer_spec buf u :
  chain_ok (u_send_buffer u) ->
  let u' := copy_send_buffer e buf u in
  chain_ok (u_send_buffer u') /\ wrote u u' /\ u_frames u' = u_frames u /\ u_writing u' = u_writing u /\ u_bw_network u' = u_bw_network u /\
  (u_disconnecting u' = false -> u_open u' = u_open u) /\
  contents (u_send_buffer u) `prefix_of` contents (u_send_buffer u') /\
  (u_disconnecting u' = false -> contents (u_send_buffer u') = contents (u_send_buffer u) ++ buf).
Proof.
  intros Hc. cbv zeta. unfold copy_send_buffer.
  set (n := Z.min (space_in_last_buffer (u_send_buffer u)) (Z.of_nat (length buf))).
  set (p := if 0 <? n then _ else _).
  assert (exists sb b1 b2, p = (set_send_buffer sb u, b2) /\ buf = b1 ++ b2 /\ chain_ok sb /\ contents sb = contents (u_send_buffer u) ++ b1)
    as (sb & b1 & b2 & -> & -> & Hc1 & Hcon).
  { unfold p. destruct (Z.ltb_spec 0 n) as [Hn|_]; [|exists (u_send_buffer u), [], buf; rewrite app_nil_r; by destruct u].
    pose proof (append_ok (take (Z.to_nat n) buf) _ Hc) as Ha. destruct (append _ _) as [ok t'] eqn:Happ. destruct Ha as (Hok & Hc' & Hcon & _).
    assert (ok = true) as ->.
    { rewrite Hok, length_take. apply andb_true_iff. split; [|apply Z.leb_le; lia]. apply negb_true_iff, bool_decide_eq_false. intros Hv.
      unfold n, space_in_last_buffer in Hn. rewrite Hv in Hn. cbn in Hn. lia. }
    exists t', (take (Z.to_nat n) buf), (drop (Z.to_nat n) buf). split_and!; [done|by rewrite take_drop|done|done]. }
  destruct b2 as [|c b2].
  { rewrite app_nil_r. cbn [u_send_buffer set_send_buffer]. rewrite Hcon. split_and!; try done; [by split; auto|by apply prefix_app_r]. }
  cbn [u_calls set_send_buffer]. destruct (ue_alloc e (u_calls u) _) as [mem|] eqn:Hal.
  - cbn [u_send_buffer set_send_buffer].
    assert (Z.of_nat (length (c :: b2)) <= buffers_size (Z.of_nat (length (c :: b2)))) as Hle.
    { unfold buffers_size, send_buffer_size. pose proof (Z.div_mod (Z.of_nat (length (c :: b2)) + 128 - 1) 128 ltac:(lia)).
      pose proof (Z.mod_pos_bound (Z.of_nat (length (c :: b2)) + 128 - 1) 128 ltac:(lia)). lia. }
    pose proof (eo_alloc e He _ _ _ (Z.le_trans _ _ _ (Nat2Z.is_nonneg (length (c :: b2))) Hle) Hal) as Hlen.
    destruct (append_buffer_ok (copy_to mem 0 (c :: b2)) (buffers_size (Z.of_nat (length (c :: b2)))) (Z.of_nat (length (c :: b2))) (u_calls u) sb Hc1) as (Hc2 & Hcon2 & _);
      [rewrite copy_to_length; lia|lia|]. rewrite Nat2Z.id, Hcon in Hcon2.
    assert (take (length (c :: b2)) (copy_to mem 0 (c :: b2)) = c :: b2) as Htk by (unfold copy_to; rewrite take_0; exact (take_app_length (c :: b2) _)).
    rewrite Htk, <- app_assoc in Hcon2. rewrite Hcon2. split_and!; try done; [by split; auto|by apply prefix_app_r].
  - unfold disconnect. cbn [u_disconnecting set_send_buffer next_call]. destruct (u_disconnecting u) eqn:Hd1;
      cbn [u_send_buffer set_send_buffer next_call set_status u_disconnecting]; rewrite Hcon;
      (split_and!; try done; try (by apply prefix_app_r); try congruence; split; auto).
Qed.

Lemma write_message_spec f u :
  stream_inv [] u ->
  let u' := write_message e f (frame_header e f) u in
  stream_inv (tag true (frame_data e f)) u' /\ wrote u u' /\ u_frames u' = u_frames u ++ [f].
Proof.
  intros [H1 H2 H3 H5 H4]. cbv zeta. unfold write_message. set (m := frame_header e f).
  destruct (copy_send_buffer_spec (header_bytes (fst m)) (log_frame f u) H1) as (A1 & A2 & A3 & A4 & A5 & A8 & A6 & A7).
  set (u1 := copy_send_buffer e _ (log_frame f u)) in *.
  destruct (copy_send_buffer_spec (snd m) u1 A1) as (B1 & B2 & B3 & B4 & B5 & B8 & B6 & B7).
  set (u2 := copy_send_buffer e _ u1) in *. pose proof (wrote_trans _ _ _ A2 B2) as [Hc Hd].
  assert (u_frames u2 = u_frames u ++ [f]) as Hf by (by rewrite B3, A3).
  assert (stream_inv (tag true (frame_data e f)) u2) as Hs2.
  2: { destruct (do_write_spec _ _ Hs2) as (? & ? & Hf'). split_and!; [done|eapply wrote_trans; [|done]; by split|by rewrite Hf']. }
  cbn [log_frame u_send_buffer u_writing u_bw_network u_disconnecting u_frames] in *.
  injection Hc as _ _ _ E1 _ _ E2 E3 E4 _.
  split; [done| | | |].
  - rewrite B4, A4, B5, A5. destruct (u_writing u); [|done]. destruct H2 as [H2 H2']. split; [done|].
    etransitivity; [exact H2'|]. etransitivity; [exact A6|exact B6].
  - intros Hd2. destruct Hd as [[Hd _]|[Hd _]]; [|congruence]. rewrite Hd2 in Hd.
    assert (u_disconnecting u1 = false) as Hd1 by (destruct B2 as [_ [[? _]|[? _]]]; congruence).
    destruct (H3 (eq_sym Hd)) as (ts & tc & Hst & Hts & Htc & Hp & Hn & Hn'). exists ts, (tc ++ tag false (message_bytes m)).
    rewrite Hf, stream_snoc, Hst, E1, E2, E3, E4, (B7 Hd2), (A7 Hd1), !fmap_app, tag_snd, tag_fst, Htc, app_nil_r.
    unfold message_bytes, frame_tagged. fold m. rewrite <- !app_assoc. split_and!; try done. by apply describes_header.
  - rewrite B4, A4. intros Hwr Hd2. assert (u_disconnecting u1 = false) as Hd1 by (destruct B2 as [_ [[? _]|[? _]]]; congruence).
    rewrite (B8 Hd2), (A8 Hd1). apply H5; [done|]. destruct Hd as [[? _]|[? _]]; congruence.
  - rewrite B4, A4, Hf, E2, stream_snoc, fmap_app. by apply prefix_app_r.
Qed.

Lemma request_inv_message u u' m :
  wrote u u' -> u_frames u' = u_frames u ++ [frame_message m] -> request_inv [] u -> request_inv [] u'.
Proof.
  intros [Hc Hd] Hf [H1 H2 H3 H4 H5]. injection Hc as E1 E2 _ _ _ E3 _ _ _ E4.
  split; rewrite ?E1, ?E2, ?E3, ?E4, ?Hf, ?parts_app, ?app_nil_r; [done| | | |destruct (u_job u) as [[r l]|]; [done|]]; destruct Hd as [[Ha Hb]|[Ha Hb]]; rewrite ?Ha, ?Hb; try done.
Qed.

(** *** No part is under way *)

Definition quiet (u : upload) : Prop := stream_inv [] u /\ request_inv [] u /\ u_bw_seq u = false.

Lemma quiet_of_inv u : upload_inv u -> u_bw_seq u = false -> u_disconnecting u = false \/ u_job u = None -> quiet u.
Proof.
  intros (tr & Hs & Hr) Hseq Hor. pose proof (ri_job _ _ Hr) as Hj. destruct (u_job u) as [[r l]|] eqn:Hjob; [destruct Hj; congruence|].
  destruct (u_disconnecting u) eqn:Hd.
  - split_and!; [|destruct Hr as [A B C D E]; split; try done; by rewrite Hjob, Hd|done].
    destruct Hs as [A B C D E]. split; try done. congruence.
  - rewrite (Hj eq_refl Hseq) in *. done.
Qed.

Lemma quiet_inv u : quiet u -> upload_inv u.
Proof. intros (? & ? & ?). by exists []. Qed.

Lemma quiet_message m u : quiet u -> quiet (write_message e (frame_message m) m u).
Proof.
  intros (Hs & Hr & Hq). destruct (write_message_spec (frame_message m) u Hs) as (Hs' & Hw & Hf). cbn [frame_header frame_data tag fmap list_fmap] in *.
  split_and!; [done|by eapply request_inv_message|]. destruct Hw as [Hc _]. injection Hc as -> _. done.
Qed.

Lemma quiet_deferred l u : quiet u -> quiet (set_deferred l u).
Proof. intros ([] & [] & ?). split_and!; [split|split|]; done. Qed.

Lemma quiet_send_deferred u : quiet u -> quiet (send_deferred e u).
Proof.
  intros Hq. unfold send_deferred. apply quiet_deferred. generalize (u_deferred u). intros l. revert u Hq.
  induction l as [|m l IH]; intros u Hq; [done|]. cbn. apply IH. by apply quiet_message.
Qed.

Lemma split_first r : request_ok fsize r -> 0 < r_length (fst (split_request r)).
Proof. intros [_ _ H _ _]. unfold split_request. cbn. assert (0 < BLOCK_SIZE) by done. lia. Qed.

(** *** fill_send_buffer *)

Lemma drop_request_inv tr u :
  request_inv tr u -> u_disconnecting u = true -> request_inv tr (set_requests (drop 1 (u_requests u)) (u_accepted u) u).
Proof.
  intros [A B C D E] Hd. split; cbn [u_requests u_disconnecting u_attached u_accepted u_frames u_job u_bw_seq set_requests]; try done; try congruence.
  by apply Forall_drop.
Qed.

Lemma stream_inv_requests tr l a u : stream_inv tr u -> stream_inv tr (set_requests l a u).
Proof. intros []. by split. Qed.

Lemma stream_inv_seq tr s j u : stream_inv tr u -> stream_inv tr (set_seq s j u).
Proof. intros []. by split. Qed.

(** The first request becomes the part under way. *)
Lemma start_part req reqs u :
  quiet u -> u_requests u = req :: reqs -> u_attached u = true ->
  exists u', send_data (fill_send_buffer e 1) req (write_part e req u) = Some u' /\
    upload_inv (set_requests (drop 1 (u_requests u')) (u_accepted u') u').
Proof.
  intros (Hs & Hr & Hq) Hreq Ha. unfold write_part. rewrite Ha. destruct (write_message_spec (frame_part req) u Hs) as (Hs' & [Hc Hd] & Hf).
  cbn [frame_header frame_data] in *. set (u1 := write_message _ _ _ _) in *. injection Hc as E1 E2 E3 E4 E5 E6 E7 E8 E9 E10.
  pose proof (ri_requests _ _ Hr) as Hok. rewrite Hreq in Hok. apply Forall_cons in Hok as [Hok Hoks].
  unfold send_data. destruct (u_attached u1) eqn:Ha1; cbn [negb].
  - pose proof (split_request_spec (ue_data e) req Hok) as Hsp. pose proof (split_first req Hok) as Hpos.
    destruct (split_request req) as [r l]. cbn [fst] in Hpos. destruct Hsp as (Hr1 & _ & Hl & _ & Hread).
    rewrite (proj2 (Z.ltb_lt 0 (r_length r))) by lia. eexists. split; [done|]. exists (tag true (read_request (ue_data e) r ++ read_request (ue_data e) l)).
    split; [apply stream_inv_requests, stream_inv_seq; by rewrite <- Hread|].
    assert (u_disconnecting u1 = u_disconnecting u) as Hdd by (destruct Hd as [[? _]|[_ ?]]; congruence).
    split; cbn [u_requests u_disconnecting u_attached u_accepted u_frames u_job u_bw_seq set_requests set_seq]; rewrite ?E2, ?Hreq, ?E10, ?Hf; cbn [drop].
    + done.
    + congruence.
    + intros Hdt. rewrite Hdd in Hdt. pose proof (ri_gone _ _ Hr Hdt). congruence.
    + intros Hdf. rewrite parts_app, <- app_assoc. rewrite <- (ri_parts _ _ Hr) by congruence. by rewrite Hreq.
    + done.
  - eexists. split; [done|]. assert (u_disconnecting u1 = true) as Hd1 by (destruct Hd as [[_ ?]|[? _]]; [congruence|done]).
    exists (tag true (read_request (ue_data e) req)). split; [by apply stream_inv_requests|]. apply drop_request_inv; [|done].
    split; rewrite ?E2, ?Hreq; try done; try congruence; [by constructor|]. rewrite E6.
    pose proof (ri_job _ _ Hr) as Hj. destruct (u_job u) as [[? ?]|]; [destruct Hj; congruence|]. congruence.
Qed.

Lemma quiet_now u : upload_inv u -> u_bw_seq u = false -> quiet u.
Proof.
  intros Hi Hseq. apply quiet_of_inv; [done|done|]. destruct Hi as (tr & _ & Hr). pose proof (ri_job _ _ Hr) as Hj.
  destruct (u_job u) as [[? ?]|]; [destruct Hj; congruence|by right].
Qed.

(** It does not recur for ever, and keeps the invariant. *)
Lemma fill_spec n u :
  upload_inv u -> exists u', fill_send_buffer e (S (S n)) u = Some u' /\ upload_inv u'.
Proof.
  intros Hi. cbn [fill_send_buffer]. destruct (u_bw_seq u) eqn:Hseq; [by eexists|].
  pose proof (quiet_now u Hi Hseq) as Hq.
  set (u1 := if u_handshake_complete u then _ else _). assert (quiet u1) as Hq1 by (unfold u1; case_match; [by apply quiet_send_deferred|done]).
  destruct (u_requests u1) as [|req reqs] eqn:Hreq; [exists u1; split; [done|by apply quiet_inv]|].
  destruct (m_bytes (u_send_buffer u1) <? ue_watermark e); [|exists u1; split; [done|by apply quiet_inv]].
  destruct (u_attached u1) eqn:Ha.
  - assert (forall f f' u', send_data f req (write_part e req u1) = Some u' -> 0 < r_length (fst (split_request req)) ->
      send_data f' req (write_part e req u1) = Some u') as Hany.
    { intros f f' u'. unfold send_data. case_match; [done|]. destruct (split_request req) as [r l]. cbn [fst]. intros Hf Hpos.
      rewrite (proj2 (Z.ltb_lt 0 (r_length r)) Hpos) in *. done. }
    destruct (start_part req reqs u1 Hq1 Hreq Ha) as (u' & Hsd & Hinv). eexists. split; [|exact Hinv].
    rewrite (Hany _ _ _ Hsd); [done|]. apply split_first. destruct Hq1 as (_ & Hr & _). pose proof (ri_requests _ _ Hr) as Hok.
    rewrite Hreq in Hok. by apply Forall_cons in Hok as [? _].
  - unfold write_part. rewrite Ha. unfold send_data. rewrite Ha. eexists. split; [done|].
    destruct Hq1 as (Hs & Hr & _). exists []. split; [by apply stream_inv_requests|]. apply drop_request_inv; [done|].
    destruct (u_disconnecting u1) eqn:Hd; [done|]. pose proof (ri_attached _ _ Hr Hd Ha). congruence.
Qed.

Lemma upload_inv_wrote u u' :
  (forall tr, stream_inv tr u -> stream_inv tr u' /\ wrote u u' /\ u_frames u' = u_frames u) -> upload_inv u -> upload_inv u'.
Proof. intros H (tr & Hs & Hr). destruct (H tr Hs) as (? & ? & ?). exists tr. split; [done|by apply (request_inv_wrote tr u)]. Qed.

Lemma upload_inv_deferred l u : upload_inv u -> upload_inv (set_deferred l u).
Proof. intros (tr & [] & []). exists tr. split; by split. Qed.

Lemma upload_inv_channel limit network q u :
  (u_bw_network u = true -> network = true) -> upload_inv u -> upload_inv (set_channel limit network q u).
Proof.
  intros Hn (tr & [A B C D E] & []). exists tr. split; [split|by split]; try done. cbn. destruct (u_writing u); [|done]. destruct B; auto.
Qed.

Lemma upload_inv_status h c o a u :
  (u_disconnecting u = false -> u_open u = true -> o = true) -> (a = u_attached u \/ u_disconnecting u = false /\ u_requests u = [] /\ u_attached u = false) ->
  upload_inv u -> upload_inv (set_status h c o (u_disconnecting u) a u).
Proof.
  intros Ho Ha (tr & [A B C D E] & [F G H I J]). exists tr. split; split; try done; cbn [u_writing u_disconnecting u_open u_attached u_requests set_status].
  - auto.
  - destruct Ha as [->|(? & ? & ?)]; auto.
  - destruct Ha as [->|(? & ? & ?)]; auto. congruence.
Qed.

Lemma send_rest_inv l u :
  stream_inv (tag true (read_request (ue_data e) l)) u -> request_inv (tag true (read_request (ue_data e) l)) u -> u_bw_seq u = true -> u_job u = None ->
  (r_length l = 0 \/ request_ok fsize l) -> exists u', send_data (fill e) l u = Some u' /\ upload_inv u'.
Proof.
  intros Hs Hr Hseq Hjob Hl. unfold send_data. destruct (u_attached u) eqn:Ha; cbn [negb]; [|by eexists; split; [|exists (tag true (read_request (ue_data e) l))]].
  destruct Hl as [Hl|Hl].
  - assert (read_request (ue_data e) l = []) as Hread by (unfold read_request, mk_range; cbn; apply slice_empty; lia). rewrite Hread in *.
    unfold split_request. rewrite Hl. cbn [r_length Z.ltb Z.compare Z.min BLOCK_SIZE]. apply (fill_spec 0). exists []. split; [by apply stream_inv_seq|].
    destruct Hr as [F G H I J]. split; try done. cbn. by rewrite Hjob.
  - pose proof (split_request_spec (ue_data e) l Hl) as Hsp. pose proof (split_first l Hl) as Hpos. destruct (split_request l) as [r l'].
    cbn [fst] in Hpos. destruct Hsp as (Hr1 & _ & Hl' & _ & Hread). rewrite (proj2 (Z.ltb_lt 0 (r_length r))) by lia. eexists. split; [done|].
    rewrite Hread in *. eexists. split; [by apply stream_inv_seq|]. destruct Hr as [F G H I J]. by split.
Qed.

Lemma append_payload_spec r rest u :
  request_ok fsize r -> stream_inv (tag true (read_request (ue_data e) r ++ rest)) u -> stream_inv (tag true rest) (append_payload e r u).
Proof.
  intros Hok [A B C D E].
  assert (Z.of_nat (length (read_request (ue_data e) r)) = r_length r) as Hlen.
  { destruct Hok as [F G H I J]. unfold read_request, mk_range in *. cbn [fst snd] in *. rewrite length_slice by (unfold PIECE_SIZE in *; lia). lia. }
  destruct (append_buffer_ok (read_request (ue_data e) r) (r_length r) (r_length r) (u_calls u) (u_send_buffer u) A) as (Hb & Hcon & _); [lia|destruct Hok; lia|].
  rewrite take_ge in Hcon by lia. unfold append_payload. set (b := append_buffer _ _ _ _ _) in *. split; try done.
  - change (match u_writing u with Some d => u_bw_network u = true /\ d `prefix_of` contents b | None => True end).
    destruct (u_writing u); [|done]. destruct B as [? Hp]. split; [done|]. rewrite Hcon. by apply prefix_app_r.
  - intros Hd. destruct (C Hd) as (ts & tc & Hst & Hts & Htc & Hp & Hn & Hn'). exists ts, (tc ++ tag true (read_request (ue_data e) r)).
    cbn [u_frames u_sent u_send_buffer u_payloads u_sent_payload u_sent_protocol set_payloads next_call set_send_buffer].
    rewrite Hst, tag_app, !fmap_app, tag_snd, tag_fst, Hcon, Htc, <- !app_assoc. split_and!; try done.
    replace (m_bytes b - r_length r) with (Z.of_nat (length (fst <$> tc))).
    + replace (r_length r) with (Z.of_nat (length (read_request (ue_data e) r))) by done. apply describes_data; [done|]. destruct Hok. lia.
    + destruct Hb as (_ & -> & _). rewrite Hcon, <- Htc, length_app, !length_fmap. lia.
Qed.

(** The state in which the rest of a part is sent. *)
Lemma data_read_spec r l u :
  upload_inv u -> u_job u = Some (r, l) ->
  let u' := do_write e (append_payload e r (set_seq (u_bw_seq u) None u)) in
  chain_ok (u_send_buffer (append_payload e r (set_seq (u_bw_seq u) None u))) /\
  stream_inv (tag true (read_request (ue_data e) l)) u' /\ request_inv (tag true (read_request (ue_data e) l)) u' /\
  u_bw_seq u' = true /\ u_job u' = None /\ (r_length l = 0 \/ request_ok fsize l).
Proof.
  intros (tr & Hs & [F G H I J]) Hjob. rewrite Hjob in J. destruct J as (Hseq & Hok & Hl & ->). rewrite tag_app in Hs.
  assert (stream_inv (tag true (read_request (ue_data e) l)) (append_payload e r (set_seq (u_bw_seq u) None u))) as Hs1.
  { apply append_payload_spec; [done|]. rewrite tag_app. by apply stream_inv_seq. }
  destruct (do_write_spec _ _ Hs1) as (Hs2 & Hw & Hf). pose proof Hw as [Hc _]. destruct (core_fields _ _ Hc) as (E1 & _ & _ & E2).
  cbv zeta. rewrite E1, E2. split_and!; try done; [by destruct Hs1|]. apply (request_inv_wrote _ _ _ Hw Hf). split; try done. cbn. congruence.
Qed.

Lemma on_disk_read_inv ok d u :
  upload_inv u -> exists u', on_disk_read_complete e ok d u = Some u' /\ upload_inv u'.
Proof.
  intros Hi. unfold on_disk_read_complete. destruct (u_job u) as [[r l]|] eqn:Hjob; [|by eexists].
  destruct ok; cbn [negb].
  - destruct (data_read_spec r l u Hi Hjob) as (_ & Hs & Hr & Hseq & Hj & Hl). by apply send_rest_inv.
  - assert (upload_inv (set_seq (u_bw_seq u) None u)) as Hi'.
    { destruct Hi as (tr & Hs & [F G H I J]). exists tr. split; [by apply stream_inv_seq|]. rewrite Hjob in J. split; try done. cbn. destruct J. congruence. }
    eexists. split; [done|]. case_match; [|done]. eapply upload_inv_wrote; [|exact Hi']. intros tr. apply disconnect_spec.
Qed.

Lemma bytes_written_spec tr k data u :
  upload_inv u -> u_writing u = Some data -> (k <= length data)%nat ->
  let u1 := bytes_written k data u in
  chain_ok (u_send_buffer u1) /\ contents (u_send_buffer u1) = drop k (contents (u_send_buffer u)) /\
  u_sent u1 `prefix_of` (snd <$> stream e (u_frames u)) /\ (request_inv tr u -> request_inv tr u1) /\
  exists rest, contents (u_send_buffer u) = data ++ rest.
Proof.
  intros (tr' & [A B _ _ E] & _) Hw Hk. rewrite Hw in *. destruct B as [_ [rest Hrest]].
  destruct (pop_front_ok (Z.of_nat k) (u_send_buffer u) A) as (Hc & Hcon & _).
  { destruct A as (_ & -> & _). rewrite Hrest, length_app. lia. }
  rewrite Nat2Z.id in Hcon. split_and!; [done|done| |intros [F G H I J]; by split|by exists rest].
  change (u_sent u ++ take k data `prefix_of` (snd <$> stream e (u_frames u))). etransitivity; [|exact E]. apply prefix_app, prefix_take.
Qed.

Lemma on_write_error_inv n u data :
  upload_inv u -> u_writing u = Some data -> (n <= length data)%nat -> upload_inv (disconnect (bytes_written n data u)).
Proof.
  intros Hi Hw Hn. pose proof Hi as (tr & _ & Hr). destruct (bytes_written_spec tr n data u Hi Hw Hn) as (Hc & _ & Hpre & Hr1 & _).
  set (u1 := bytes_written n data u) in *. unfold disconnect. change (u_disconnecting u1) with (u_disconnecting u).
  destruct (u_disconnecting u) eqn:Hd; (exists tr; split; [split; try done|]).
  - intros Hf. change (u_disconnecting u = false) in Hf. congruence.
  - cbn. by rewrite app_nil_r.
  - by apply Hr1.
  - cbn. by rewrite app_nil_r.
  - destruct (Hr1 Hr) as [F G H I J]. split; try done. cbn. change (u_job u1) with (u_job u) in *. destruct (u_job u) as [[? ?]|]; done.
Qed.

(** The markers and the statistics follow what was sent. *)
Lemma on_sent_cut tr data u :
  cut tr u -> contents (u_send_buffer (bytes_written (length data) data u)) = drop (length data) (contents (u_send_buffer u)) ->
  (exists rest, contents (u_send_buffer u) = data ++ rest) -> cut tr (on_sent (Z.of_nat (length data)) (bytes_written (length data) data u)).
Proof.
  intros (ts & tc & Hst & Hts & Htc & Hp & Hn & Hn') Hcon [rest Hrest]. set (u1 := bytes_written (length data) data u) in *.
  exists (ts ++ take (length data) tc), (drop (length data) tc).
  assert (length data <= length tc)%nat as Hlt by (rewrite <- (length_fmap snd tc), Htc, Hrest, length_app; lia).
  pose proof (describes_sent (length data) (u_payloads u) _ Hp ltac:(by rewrite length_fmap)) as Hds. unfold on_sent.
  change (u_payloads (set_channel _ _ _ u1)) with (u_payloads u). destruct (payloads_sent _ _) as [amount l]. destruct Hds as [Hds1 Hds2].
  cbn [u_frames u_sent u_send_buffer u_payloads u_sent_payload u_sent_protocol sent_bytes set_payloads set_channel].
  change (u_frames u1) with (u_frames u). change (u_sent u1) with (u_sent u ++ take (length data) data).
  change (u_sent_payload u1) with (u_sent_payload u). change (u_sent_protocol u1) with (u_sent_protocol u).
  rewrite !fmap_app, !fmap_drop, !fmap_take, Hcon, <- Hts, Htc, count_true_app, length_app, length_take. split_and!.
  - by rewrite Hst, <- !app_assoc, (app_assoc (take _ tc)), take_drop.
  - by rewrite Hrest, take_app_length, take_ge.
  - done.
  - done.
  - lia.
  - lia.
Qed.

Lemma on_write_inv error n u : upload_inv u -> upload_inv (on_write e error n u).
Proof.
  intros Hi. unfold on_write. destruct (u_writing u) as [data|] eqn:Hw; [|done].
  destruct error; [apply on_write_error_inv; [done|done|lia]|]. pose proof Hi as (tr & [A B C D E] & Hr).
  destruct (bytes_written_spec tr (length data) data u Hi Hw ltac:(lia)) as (Hc & Hcon & Hpre & Hr1 & Hrest).
  pose proof (fun Hd => on_sent_cut tr data u (C Hd) Hcon Hrest) as Hcut. set (u1 := bytes_written (length data) data u) in *.
  change (u_open u1) with (u_open u). destruct (u_open u) eqn:Hop; cbn [negb].
  - assert (exists l a p, on_sent (Z.of_nat (length data)) u1 = sent_bytes a p (set_payloads l (set_channel (u_bw_limit u1) (u_bw_network u1) (u_quota u1 - Z.of_nat (length data)) u1))) as (l & a & p & Heq).
    { unfold on_sent. destruct (payloads_sent _ _). by do 3 eexists. }
    rewrite Heq in *. assert (stream_inv tr (sent_bytes a p (set_payloads l (set_channel (u_bw_limit u1) (u_bw_network u1) (u_quota u1 - Z.of_nat (length data)) u1)))) as Hs.
    { split; try done. cbn. by rewrite app_nil_r. }
    destruct (do_write_spec _ _ Hs) as (Hs2 & Hw2 & Hf2). exists tr. split; [done|]. apply (request_inv_wrote _ _ _ Hw2 Hf2).
    destruct (Hr1 Hr) as [F G H I J]. by split.
  - exists tr. split; [|by apply Hr1]. split; try done; [|cbn; by rewrite app_nil_r].
    intros Hd. discriminate D; [congruence|done].
Qed.

Lemma wanted_requests_ok ranges :
  Forall (fun r => 0 <= fst r < 2 ^ 63) ranges -> Forall (request_ok fsize) (wanted_requests e ranges).
Proof.
  intros Hr. unfold wanted_requests. apply Forall_forall. intros q [_ Hq]%list_elem_of_filter. revert q Hq. apply Forall_forall, Forall_concat, Forall_fmap.
  eapply Forall_impl; [exact Hr|]. intros r Hr'. cbv beta in Hr'. cbn. rewrite (to_int64_small (fst r)) by lia. apply mk_peer_requests_spec; [lia|apply He].
Qed.

Lemma on_request_parts_inv ranges u :
  u_disconnecting u = false -> Forall (fun r => 0 <= fst r < 2 ^ 63) ranges -> upload_inv u ->
  exists u', on_request_parts e ranges u = Some u' /\ upload_inv u'.
Proof.
  intros Hd Hok (tr & Hs & Hr). unfold on_request_parts. destruct (u_attached u) eqn:Ha; [|eexists; split; [done|by exists tr]].
  destruct Hr as [F G H I J]. apply (fill_spec 0). exists tr. split; [by apply stream_inv_requests|]. split; try done.
  - apply Forall_app. split; [done|]. by apply wanted_requests_ok.
  - cbn. congruence.
  - intros _. change (parts (u_frames u) ++ u_requests u ++ wanted_requests e ranges = u_accepted u ++ wanted_requests e ranges).
    by rewrite app_assoc, I.
Qed.

Lemma write_struct_inv msg u : upload_inv u -> upload_inv (write_struct e msg u).
Proof.
  intros Hi. unfold write_struct. destruct (u_bw_seq u) eqn:Hseq; [by apply upload_inv_deferred|].
  by apply quiet_inv, quiet_message, quiet_now.
Qed.

Lemma upload_inv_step o u :
  upload_inv u -> upload_enabled o u -> exists u', upload_perform e o u = Some u' /\ upload_inv u'.
Proof.
  intros Hi Hen. destruct o; cbn [upload_perform upload_enabled] in *.
  - eexists. split; [done|]. by apply write_struct_inv.
  - unfold send_throw_meta_order. pose proof (upload_inv_deferred (u_deferred u ++ [msg]) u Hi). case_match; [by apply (fill_spec 0)|by eexists].
  - destruct Hen as (? & _ & ?). by apply on_request_parts_inv.
  - by apply on_disk_read_inv.
  - eexists. split; [done|]. by apply on_write_inv.
  - eexists. split; [done|]. unfold assign_upload. eapply upload_inv_wrote; [intros tr; apply do_write_spec|]. by apply upload_inv_channel.
  - unfold second_tick. destruct (negb (u_attached u) || u_disconnecting u); [|case_match; [by apply (fill_spec 0)|by eexists]].
    eexists. split; [done|]. eapply upload_inv_wrote; [intros tr; apply disconnect_spec|]. apply upload_inv_status; auto.
  - unfold finalize_handshake. destruct (u_handshake_complete u); [by eexists|].
    assert (upload_inv (set_status true (u_connecting u) (u_open u) (u_disconnecting u) (u_attached u) u)) by (apply upload_inv_status; auto).
    destruct fills; [by apply (fill_spec 0)|by eexists].
  - eexists. split; [done|]. apply upload_inv_status; auto.
  - eexists. split; [done|]. unfold on_connect. destruct (u_disconnecting u) eqn:Hd; [done|]. apply write_struct_inv.
    rewrite <- Hd. apply upload_inv_status; auto.
  - eexists. split; [done|]. unfold attach_transfer. destruct (u_attached u) eqn:Ha.
    + apply upload_inv_status; auto.
    + apply upload_inv_status; [auto|right|done]. split_and!; [done| |done]. destruct Hi as (tr & _ & Hr). by apply (ri_attached _ _ Hr).
  - eexists. split; [done|]. eapply upload_inv_wrote; [intros tr; apply disconnect_spec|done].
Qed.

Lemma upload_inv_new attached : upload_inv (upload_new attached).
Proof.
  exists []. split; split; try done.
  - intros _. exists [], []. split_and!; try done. split; [done|]. by exists 0%nat.
Qed.

Lemma upload_inv_reached u : upload_reached e u -> upload_inv u.
Proof.
  intros Hr. induction Hr as [|o u u' _ IH Hen Hp]; [apply upload_inv_new|]. destruct (upload_inv_step o u IH Hen) as (u1 & Hp1 & ?).
  rewrite Hp in Hp1. by simplify_eq.
Qed.

End Invariant.

(** ** Results *)

(** A message or a part on the wire. *)
Definition frame_bytes (e : upload_env) (f : frame) : bytes := message_bytes (frame_header e f) ++ frame_data e f.

Lemma stream_bytes e l : snd <$> stream e l = concat (frame_bytes e <$> l).
Proof.
  unfold stream. induction l as [|f l IH]; [done|]. cbn [fmap list_fmap concat] in *. rewrite fmap_app, IH. f_equal.
  unfold frame_tagged, frame_bytes. by rewrite fmap_app, !tag_snd.
Qed.

(** C17: whatever order the handlers of a connection run in, the bytes it sends are
    whole messages and whole parts, each part its header and the data of the file,
    never with a message in between; while the connection lasts everything written
    is sent, in the send buffer, or data the disk still has to read; and the requests
    are served in the order they were accepted. *)
Theorem upload_stream e u :
  upload_env_ok e -> upload_reached e u ->
  u_sent u `prefix_of` concat (frame_bytes e <$> u_frames u) /\
  (u_disconnecting u = false ->
   parts (u_frames u) ++ u_requests u = u_accepted u /\
   exists rest, concat (frame_bytes e <$> u_frames u) = u_sent u ++ contents (u_send_buffer u) ++ rest /\
     (u_bw_seq u = false -> rest = []) /\
     (forall r left_, u_job u = Some (r, left_) -> rest = read_request (ue_data e) r ++ read_request (ue_data e) left_)).
Proof.
  intros He Hr. destruct (upload_inv_reached e He u Hr) as (tr & Hs & Hq). rewrite <- stream_bytes. split.
  - etransitivity; [|apply (si_sent _ _ _ Hs)]. by apply prefix_app_r.
  - intros Hd. split; [by apply (ri_parts _ _ _ Hq)|]. destruct (si_cut _ _ _ Hs Hd) as (ts & tc & -> & <- & <- & _).
    pose proof (ri_job _ _ _ Hq) as Hj. exists (snd <$> tr). rewrite !fmap_app. split_and!; [done| |].
    + intros Hseq. destruct (u_job u) as [[? ?]|]; [destruct Hj; congruence|]. by rewrite Hj.
    + intros r l Hjob. rewrite Hjob in Hj. destruct Hj as (_ & _ & _ & ->). by rewrite tag_snd.
Qed.

(** The statistics of a connection that lasts count each byte that was sent once,
    the data of parts as payload and all else as protocol. *)
Theorem upload_statistics e u :
  upload_env_ok e -> upload_reached e u -> u_disconnecting u = false ->
  let sent := take (length (u_sent u)) (stream e (u_frames u)) in
  snd <$> sent = u_sent u /\ u_sent_payload u = count_true (fst <$> sent) /\ u_sent_protocol u = Z.of_nat (length sent) - count_true (fst <$> sent).
Proof.
  intros He Hr Hd. destruct (upload_inv_reached e He u Hr) as (tr & Hs & _). destruct (si_cut _ _ _ Hs Hd) as (ts & tc & Hst & <- & _ & _ & Hn & Hn').
  cbv zeta. rewrite Hst, length_fmap, take_app_length. split_and!; [done|done|lia].
Qed.

(** ** A connection that is asked for two ranges of a small file *)

#[global] Instance upload_enabled_dec o u : Decision (upload_enabled o u).
Proof. destruct o; cbn; apply _. Defined.

Fixpoint upload_run (e : upload_env) (ops : list upload_op) (u : upload) : option upload :=
  match ops with
  | [] => Some u
  | o :: ops => if decide (upload_enabled o u) then u ← upload_perform e o u; upload_run e ops u else None
  end.

Lemma upload_run_reached e ops u u' : upload_reached e u -> upload_run e ops u = Some u' -> upload_reached e u'.
Proof.
  revert u. induction ops as [|o ops IH]; intros u Hr; cbn [upload_run]; [by intros [= <-]|].
  case_decide; [|done]. destruct (upload_perform e o u) as [u1|] eqn:Hp; [|done]. apply IH. by apply (upload_reached_step e o u).
Qed.

Definition sample_upload_env : upload_env :=
  UploadEnv (Hash (replicate 16 (z2b 7))) ((fun n => z2b (Z.of_nat n)) <$> seq 0 200) (fun _ => true) 100
    (fun n => if (n mod 3 =? 0)%nat then 0 else 40) (fun _ size => Some (replicate (Z.to_nat size) (z2b 0))).

Lemma sample_upload_env_ok : upload_env_ok sample_upload_env.
Proof.
  split; [|intros n size mem Hs [= <-]; by rewrite length_replicate, Z2Nat.id|by vm_compute].
  intros n. cbn [ue_grant sample_upload_env]. case_match; lia.
Qed.

Definition sample_uploads : list upload_op :=
  [op_connect; op_on_connect (Header 0xe3 20 1, replicate 19 (z2b 5)); op_handshake false; op_on_write false 0;
   op_request_parts [(0, 120); (150, 2 ^ 40); (7, 3)]; op_on_write false 0; op_meta_order (Header 0xe3 1 9, []); op_disk_read true false;
   op_assign 60; op_on_write false 0].

Definition sample_upload : upload := default (upload_new true) (upload_run sample_upload_env sample_uploads (upload_new true)).

Lemma sample_upload_reached : upload_reached sample_upload_env sample_upload.
Proof.
  apply (upload_run_reached _ sample_uploads (upload_new true)); [constructor|]. by vm_compute.
Qed.

Lemma upload_stream_witness :
  let u := sample_upload in
  length (u_sent u) = 100%nat /\ u_sent u `prefix_of` concat (frame_bytes sample_upload_env <$> u_frames u) /\
  parts (u_frames u) ++ u_requests u = u_accepted u.
Proof.
  pose proof (upload_stream sample_upload_env sample_upload sample_upload_env_ok sample_upload_reached) as [H1 H2].
  destruct H2 as [H2 _]; [by vm_compute|]. split_and!; [by vm_compute|exact H1|exact H2].
Defined.

Lemma upload_statistics_witness :
  u_sent_payload sample_upload = 37 /\
  u_sent_payload sample_upload = count_true (fst <$> take (length (u_sent sample_upload)) (stream sample_upload_env (u_frames sample_upload))).
Proof.
  split; [by vm_compute|]. apply (upload_statistics sample_upload_env sample_upload sample_upload_env_ok sample_upload_reached). by vm_compute.
Defined.
