(* ===== verification/PeerUploadLive.v ===== *)
(** * Uploads: what was requested is sent

    When the disk reads, the socket writes and the session grants bandwidth and
    memory, a connection serves all requests. *)

From S2P Require Import Prelude Archive Md4Hash CTag Packets ClientPackets PiecePicker ChainedBuffer PeerRequests PeerUpload PeerUploadProps.
From stdpp Require Import list.
Open Scope Z_scope.

Section Live.
Context (e : upload_env) (He : upload_env_ok e).

(** ** Nothing waits without somebody to wake it *)

Record pre_live (u : upload) : Prop := PreLive {
  pl_network : u_bw_network u = true <-> u_writing u <> None;
  pl_writing : forall d, u_writing u = Some d -> d <> [] /\ Z.of_nat (length d) <= u_quota u;
  pl_quota : 0 <= u_quota u;
  pl_open : u_disconnecting u = false -> u_connecting u = false -> u_open u = true;
  pl_connecting : u_disconnecting u = false -> u_connecting u = true -> u_requests u = [] /\ u_bw_seq u = false
}.

(** If there are bytes to send, the socket or the bandwidth manager has been asked. *)
Definition woken (u : upload) : Prop :=
  u_disconnecting u = false -> u_connecting u = false -> m_bytes (u_send_buffer u) = 0 \/ u_bw_network u = true \/ u_bw_limit u = true.

Definition live (u : upload) : Prop := pre_live u /\ woken u.

Definition status (u : upload) := (u_handshake_complete u, u_connecting u, u_open u, u_disconnecting u, u_attached u).

Lemma do_write_status u : status (do_write e u) = status u.
Proof. unfold do_write, has_upload_bandwidth, base_do_write. repeat case_match; simplify_eq; done. Qed.

Lemma chain_size (t : chained_buffer) : chain_ok t -> 0 <= m_bytes t.
Proof. intros (_ & -> & _). lia. Qed.

Lemma base_do_write_live u :
  chain_ok (u_send_buffer u) -> pre_live u -> u_bw_network u = false -> u_bw_limit u = false -> u_disconnecting u = false -> can_write u = true ->
  live (base_do_write (u_quota u) u).
Proof.
  intros Hc [P1 P2 P3 P4 P5] Hnet Hlim Hd Hcan. unfold can_write, chain_empty in Hcan. rewrite !andb_true_iff, !negb_true_iff in Hcan.
  destruct Hcan as ((Hm%Z.eqb_neq & Hq%Z.ltb_lt) & Hcn). pose proof (chain_size _ Hc) as Hsz.
  unfold base_do_write. rewrite (P4 Hd Hcn), Hnet, Hlim. cbn [negb orb]. set (k := Z.min _ _). destruct (Z.eqb_spec k 0); [lia|].
  pose proof (build_iovec_ok (m_vec (u_send_buffer u)) k ltac:(by destruct Hc) ltac:(lia)) as Hiov. fold (contents (u_send_buffer u)) in Hiov.
  destruct Hc as (_ & Hmb & _). split; [|intros _ _; cbn; auto].
  split; cbn [u_bw_network u_writing u_quota u_disconnecting u_connecting u_open u_requests u_bw_seq set_channel set_writing]; try done.
  intros d [= <-]. rewrite Hiov. split; [|rewrite length_take; lia]. intros H0%(f_equal length). rewrite length_take in H0. cbn in H0. lia.
Qed.

Lemma do_write_live u : chain_ok (u_send_buffer u) -> pre_live u -> live (do_write e u).
Proof.
  intros Hc Hp. pose proof (chain_size _ Hc) as Hsz. unfold do_write.
  destruct (u_disconnecting u) eqn:Hd; [split; [done|intros ?; congruence]|].
  destruct (u_bw_network u || u_bw_limit u) eqn:Hb.
  { split; [done|]. intros _ _. apply orb_true_iff in Hb. tauto. }
  apply orb_false_iff in Hb as [Hnet Hlim]. pose proof Hp as [P1 P2 P3 P4 P5].
  unfold has_upload_bandwidth. destruct (_ && negb (u_connecting u)) eqn:Hask.
  - rewrite !andb_true_iff, !negb_true_iff in Hask. destruct Hask as ((Hq%Z.eqb_eq & Hm) & Hcn).
    destruct (Z.eqb_spec (ue_grant e (u_calls u)) 0) as [Hg|Hg]; cbn [negb].
    { split; [by split|]. intros _ _. cbn. auto. }
    pose proof (eo_grant e He (u_calls u)). set (u1 := set_channel _ _ _ _).
    assert (can_write u1 = true) as Hcan.
    { unfold can_write. cbn. rewrite Hm, Hcn, (proj2 (Z.ltb_lt _ _)) by lia. done. }
    rewrite Hcan. cbn [negb]. apply base_do_write_live; try done. split; try done; cbn; [|lia]. intros d Hd'. destruct (P2 d Hd'). split; [done|lia].
  - cbn [negb]. destruct (can_write u) eqn:Hcan; cbn [negb]; [by apply base_do_write_live|]. split; [done|]. intros _ Hcn. left.
    unfold can_write, chain_empty in *. rewrite Hcn in *. cbn [negb] in *. rewrite !andb_true_r in *. lia.
Qed.

Lemma copy_send_buffer_pre buf u : pre_live u -> pre_live (copy_send_buffer e buf u).
Proof.
  intros [P1 P2 P3 P4 P5]. unfold copy_send_buffer, disconnect. repeat case_match; simplify_eq; by split.
Qed.

Lemma log_frame_pre f u : pre_live u -> pre_live (log_frame f u).
Proof. intros []. by split. Qed.

Lemma write_message_live f msg u : chain_ok (u_send_buffer u) -> pre_live u -> live (write_message e f msg u).
Proof.
  intros Hc Hp. unfold write_message. apply do_write_live; [|by do 2 apply copy_send_buffer_pre; apply log_frame_pre].
  apply (copy_send_buffer_spec e He); [done..|]. by apply (copy_send_buffer_spec e He).
Qed.

Lemma live_deferred l u : live u -> live (set_deferred l u).
Proof. intros [[] ?]. by split; [split|]. Qed.

Lemma quiet_chain u : quiet e u -> chain_ok (u_send_buffer u).
Proof. intros ([] & _). done. Qed.

Lemma send_deferred_live u : quiet e u -> live u -> live (send_deferred e u).
Proof.
  intros Hq Hl. unfold send_deferred. apply live_deferred. generalize (u_deferred u). intros l. revert u Hq Hl.
  induction l as [|m l IH]; intros u Hq Hl; [done|]. cbn. apply IH; [by apply quiet_message|].
  apply write_message_live; [by apply quiet_chain|apply Hl].
Qed.

Lemma write_message_connecting f msg u : u_connecting (write_message e f msg u) = u_connecting u.
Proof.
  assert (forall u, u_connecting (do_write e u) = u_connecting u) as Hdw by (intros u'; pose proof (do_write_status u') as H; unfold status in H; congruence).
  assert (forall buf u, u_connecting (copy_send_buffer e buf u) = u_connecting u) as Hcp.
  { intros buf u'. unfold copy_send_buffer, disconnect. repeat case_match; simplify_eq; done. }
  unfold write_message. by rewrite Hdw, !Hcp.
Qed.

Lemma live_requests l a u : (l = [] \/ u_connecting u = false \/ u_disconnecting u = true) -> live u -> live (set_requests l a u).
Proof.
  intros Hl [[P1 P2 P3 P4 P5] W]. split; [|done]. split; try done. cbn. intros Hd Hc. destruct (P5 Hd Hc) as [? ?].
  destruct Hl as [->|[?|?]]; [done|congruence|congruence].
Qed.

Lemma live_seq s j u : (s = false \/ u_connecting u = false) -> live u -> live (set_seq s j u).
Proof.
  intros Hl [[P1 P2 P3 P4 P5] W]. split; [|done]. split; try done. cbn. intros Hd Hc. destruct (P5 Hd Hc) as [? ?].
  destruct Hl as [->|?]; [done|congruence].
Qed.

Lemma fill_live n u u' : upload_inv e u -> live u -> fill_send_buffer e (S (S n)) u = Some u' -> live u'.
Proof.
  intros Hi Hl. cbn [fill_send_buffer]. destruct (u_bw_seq u) eqn:Hseq; [by intros [= <-]|].
  pose proof (quiet_now e u Hi Hseq) as Hq. set (u1 := if u_handshake_complete u then _ else _).
  assert (quiet e u1 /\ live u1) as [Hq1 Hl1] by (unfold u1; case_match; [split; [by apply quiet_send_deferred|by apply send_deferred_live]|done]).
  destruct (u_requests u1) as [|req reqs] eqn:Hreq; [by intros [= <-]|].
  destruct (m_bytes (u_send_buffer u1) <? ue_watermark e); [|by intros [= <-]]. unfold write_part. destruct (u_attached u1) eqn:Ha.
  - assert (u_connecting u1 = false) as Hcn.
    { destruct (u_connecting u1) eqn:Hcn; [|done]. destruct Hl1 as [[_ _ _ _ P5] _]. destruct (u_disconnecting u1) eqn:Hd.
      - destruct Hq1 as (_ & Hr & _). pose proof (ri_gone _ _ _ Hr Hd). congruence.
      - destruct (P5 eq_refl Hcn). congruence. }
    pose proof (write_message_live (frame_part req) (part_message e req) u1 (quiet_chain _ Hq1) (proj1 Hl1)) as Hl2.
    pose proof (write_message_connecting (frame_part req) (part_message e req) u1) as Hcn2. set (u2 := write_message _ _ _ _) in *.
    rewrite Hcn in Hcn2. unfold send_data. destruct (negb (u_attached u2)); [intros [= <-]; apply live_requests; auto|].
    pose proof (split_first e req) as Hpos. destruct (split_request req) as [r l]. cbn [fst] in Hpos.
    rewrite (proj2 (Z.ltb_lt 0 (r_length r))).
    + intros [= <-]. apply live_requests; [auto|]. apply live_seq; auto.
    + apply Hpos. destruct Hq1 as (_ & Hr & _). pose proof (ri_requests _ _ _ Hr) as Hok. rewrite Hreq in Hok. by apply Forall_cons in Hok as [? _].
  - unfold send_data. rewrite Ha. cbn [negb]. intros [= <-]. apply live_requests; [|done]. right. right.
    destruct (u_disconnecting u1) eqn:Hd; [done|]. destruct Hq1 as (_ & Hr & _). pose proof (ri_attached _ _ _ Hr Hd Ha). congruence.
Qed.

Lemma write_struct_live msg u : upload_inv e u -> live u -> live (write_struct e msg u).
Proof.
  intros Hi Hl. unfold write_struct. destruct (u_bw_seq u) eqn:Hseq; [by apply live_deferred|].
  apply write_message_live; [by apply quiet_chain, quiet_now|apply Hl].
Qed.

Lemma disconnect_live u : live u -> live (disconnect u).
Proof.
  intros [[P1 P2 P3 P4 P5] W]. unfold disconnect. destruct (u_disconnecting u) eqn:Hd; [by split; [split; rewrite ?Hd|]|].
  split; [by split|done].
Qed.

Lemma on_disk_read_live ok d u u' : upload_inv e u -> live u -> on_disk_read_complete e ok d u = Some u' -> live u'.
Proof.
  intros Hi Hl. unfold on_disk_read_complete. destruct (u_job u) as [[r l]|] eqn:Hjob; [|by intros [= <-]].
  assert (u_connecting u = false \/ u_disconnecting u = true) as Hcn.
  { destruct (u_disconnecting u) eqn:Hd; [by right|left]. destruct (u_connecting u) eqn:Hcn; [|done].
    destruct Hi as (tr & _ & Hr). pose proof (ri_job _ _ _ Hr) as Hj. rewrite Hjob in Hj. destruct Hl as [[_ _ _ _ P5] _]. destruct (P5 Hd Hcn), Hj. congruence. }
  assert (live (set_seq (u_bw_seq u) None u)) as Hl1.
  { destruct Hl as [[P1 P2 P3 P4 P5] W]. by split; [split|]. }
  destruct ok; cbn [negb]; [|intros [= <-]; case_match; [by apply disconnect_live|done]].
  destruct (data_read_spec e r l u Hi Hjob) as (Hc & Hs & Hr & Hseq & Hj & Hl').
  assert (live (do_write e (append_payload e r (set_seq (u_bw_seq u) None u)))) as Hl2.
  { apply do_write_live; [done|]. destruct Hl1 as [[P1 P2 P3 P4 P5] _]. by split. }
  set (u2 := do_write _ _) in *. assert (u_connecting u2 = u_connecting u) as Hcn2.
  { unfold u2. pose proof (do_write_status (append_payload e r (set_seq (u_bw_seq u) None u))) as H. unfold status in H. cbn in H. congruence. }
  unfold send_data. destruct (u_attached u2) eqn:Ha; cbn [negb]; [|by intros [= <-]].
  assert (u_connecting u2 = false) as Hcf.
  { rewrite Hcn2. destruct Hcn as [?|Hd]; [done|]. destruct (u_disconnecting u2) eqn:Hd2; [pose proof (ri_gone _ _ _ Hr Hd2); congruence|].
    unfold u2 in Hd2. pose proof (do_write_status (append_payload e r (set_seq (u_bw_seq u) None u))) as H. unfold status in H. cbn in H. congruence. }
  destruct (split_request l) as [r' l'] eqn:Hsp. destruct (0 <? r_length r') eqn:Hpos.
  - intros [= <-]. apply live_seq; auto.
  - apply (fill_live 0); [|apply live_seq; auto]. assert (r_length l = 0) as Hl0.
    { destruct Hl' as [?|Hok]; [done|]. pose proof (split_first e l Hok) as H. rewrite Hsp in H. cbn in H. lia. }
    assert (read_request (ue_data e) l = []) as Hread by (unfold read_request, mk_range; cbn; apply slice_empty; lia). rewrite Hread in *.
    exists []. split; [by apply stream_inv_seq|]. destruct Hr as [F G H I J]. split; try done. cbn. by rewrite Hj.
Qed.

Lemma on_write_live error n u : upload_inv e u -> live u -> live (on_write e error n u).
Proof.
  intros Hi Hl. unfold on_write. destruct (u_writing u) as [data|] eqn:Hw; [|done]. destruct Hl as [[P1 P2 P3 P4 P5] W].
  destruct (P2 data Hw) as [_ Hq]. assert (forall k, pre_live (bytes_written k data u)) as Hp.
  { intros k. split; done. }
  destruct error.
  - unfold disconnect. destruct (u_disconnecting (bytes_written _ data u)) eqn:Hd; [split; [done|intros ?; congruence]|].
    destruct (Hp (Nat.min n (length data))) as [A B C D E]. split; [by split|done].
  - destruct (bytes_written_spec e [] (length data) data u Hi Hw ltac:(lia)) as (Hc & _). set (u1 := bytes_written (length data) data u) in *.
    change (u_open u1) with (u_open u). destruct (u_open u) eqn:Hop; cbn [negb].
    + destruct (Hp (length data)) as [A B C D E]. fold u1 in A, B, C, D, E. apply do_write_live.
      * unfold on_sent. by destruct (payloads_sent _ _).
      * unfold on_sent. destruct (payloads_sent _ _). split; try done. cbn. lia.
    + split; [apply Hp|]. intros Hd Hcn. change (u_disconnecting u = false) in Hd. change (u_connecting u = false) in Hcn. by discriminate (P4 Hd Hcn).
Qed.

Lemma live_step o u u' : upload_inv e u -> live u -> upload_enabled o u -> upload_perform e o u = Some u' -> live u'.
Proof.
  intros Hi Hl Hen. destruct o; cbn [upload_perform upload_enabled] in *.
  - intros [= <-]. by apply write_struct_live.
  - unfold send_throw_meta_order. pose proof (upload_inv_deferred e (u_deferred u ++ [msg]) u Hi). pose proof (live_deferred (u_deferred u ++ [msg]) u Hl).
    case_match; [by apply (fill_live 0)|by intros [= <-]].
  - destruct Hen as (Hd & Hcn & Hr). unfold on_request_parts. destruct (u_attached u) eqn:Ha; [|by intros [= <-]].
    apply (fill_live 0); [|apply live_requests; auto]. destruct Hi as (tr & Hs & [F G H I J]). exists tr. split; [by apply stream_inv_requests|].
    split; try done; [apply Forall_app; split; [done|by apply wanted_requests_ok]|cbn; congruence|].
    intros _. change (parts (u_frames u) ++ u_requests u ++ wanted_requests e ranges = u_accepted u ++ wanted_requests e ranges). by rewrite app_assoc, I.
  - by apply on_disk_read_live.
  - intros [= <-]. by apply on_write_live.
  - intros [= <-]. unfold assign_upload. destruct Hi as (tr & [Hc _ _ _ _] & _). apply do_write_live; [done|]. destruct Hl as [[P1 P2 P3 P4 P5] _].
    split; try done; cbn; [|lia]. intros d Hd. destruct (P2 d Hd). split; [done|lia].
  - unfold second_tick. destruct (negb (u_attached u) || u_disconnecting u).
    { intros [= <-]. destruct Hl as [[P1 P2 P3 P4 P5] W]. unfold disconnect. cbn [u_disconnecting set_status].
      destruct (u_disconnecting u) eqn:Hd; (split; [split; cbn; try congruence; done|intros ?; cbn in *; congruence]). }
    case_match; [by apply (fill_live 0)|by intros [= <-]].
  - unfold finalize_handshake. destruct (u_handshake_complete u); [by intros [= <-]|].
    assert (upload_inv e (set_status true (u_connecting u) (u_open u) (u_disconnecting u) (u_attached u) u)) by (apply upload_inv_status; auto).
    assert (live (set_status true (u_connecting u) (u_open u) (u_disconnecting u) (u_attached u) u)) by (destruct Hl as [[] ?]; by split; [split|]).
    destruct fills; [by apply (fill_live 0)|by intros [= <-]].
  - intros [= <-]. destruct Hl as [[] ?]. by split; [split|].
  - intros [= <-]. unfold on_connect. destruct (u_disconnecting u) eqn:Hd; [done|].
    destruct Hl as [[P1 P2 P3 P4 P5] W]. destruct (u_connecting u) eqn:Hcn.
    + destruct (P5 Hd eq_refl) as [Hreq Hseq]. unfold write_struct. cbn [u_bw_seq set_status]. rewrite Hseq.
      destruct Hi as (tr & [Hc _ _ _ _] & _). apply write_message_live; [done|]. by split.
    + apply write_struct_live; [rewrite <- Hd; apply upload_inv_status; auto|]. split; [split; try done; cbn; auto; congruence|intros _ _; cbn; by apply W].
  - intros [= <-]. destruct Hl as [[] ?]. by split; [split|].
  - intros [= <-]. by apply disconnect_live.
Qed.

Lemma live_reached u : upload_reached e u -> live u.
Proof.
  intros Hr. induction Hr as [a|o u u' Hr IH Hen Hp]; [|by apply (live_step o u); [apply upload_inv_reached|..]].
  by destruct a; (split; [split|left]).
Qed.

End Live.

(** ** Serving the requests *)

(** Disk, socket and bandwidth manager each do what they have been asked; when nobody
    has been asked a second passes. *)
Definition serve_op (u : upload) : upload_op :=
  match u_job u, u_writing u with
  | Some _, _ => op_disk_read true false
  | None, Some _ => op_on_write false 0
  | None, None => if u_bw_limit u then op_assign 1 else op_tick
  end.

Fixpoint serve (e : upload_env) (n : nat) (u : upload) : option upload :=
  match n with O => Some u | S n => u ← upload_perform e (serve_op u) u; serve e n u end.

Section Serve.
Context (e : upload_env) (He : upload_env_ok e).
Context (Hmem : forall n size, ue_alloc e n size <> None) (Hwm : 0 < ue_watermark e).

(** Connected, with a transfer, and no part was given up. *)
Definition established (u : upload) : Prop :=
  status u = (true, false, true, false, true) /\ (u_bw_seq u = true -> u_job u <> None).

(** What is still to be done: bytes to read, requests and messages to begin. *)
Definition work (u : upload) : nat :=
  match u_job u with Some (r, l) => Z.to_nat (r_length r) + Z.to_nat (r_length l) | None => 0 end +
  sum_list_with (fun r => S (Z.to_nat (r_length r))) (u_requests u) + length (u_deferred u).

Lemma do_write_core u : core (do_write e u) = core u /\ u_send_buffer (do_write e u) = u_send_buffer u.
Proof. unfold do_write, has_upload_bandwidth, base_do_write. repeat case_match; simplify_eq; done. Qed.

Lemma copy_send_buffer_core buf u : core (copy_send_buffer e buf u) = core u /\ status (copy_send_buffer e buf u) = status u.
Proof.
  unfold copy_send_buffer. repeat case_match; simplify_eq; try done;
    by match goal with H : ue_alloc _ _ _ = None |- _ => destruct (Hmem _ _ H) end.
Qed.

Lemma write_message_core f msg u : core (write_message e f msg u) = core u /\ status (write_message e f msg u) = status u.
Proof.
  unfold write_message. rewrite do_write_status. destruct (do_write_core (copy_send_buffer e (snd msg) (copy_send_buffer e (header_bytes (fst msg)) (log_frame f u)))) as [-> _].
  destruct (copy_send_buffer_core (snd msg) (copy_send_buffer e (header_bytes (fst msg)) (log_frame f u))) as [-> ->].
  by destruct (copy_send_buffer_core (header_bytes (fst msg)) (log_frame f u)) as [-> ->].
Qed.

Lemma send_deferred_core u :
  let u' := send_deferred e u in
  u_bw_seq u' = u_bw_seq u /\ u_requests u' = u_requests u /\ u_job u' = u_job u /\ u_deferred u' = [] /\ status u' = status u.
Proof.
  unfold send_deferred. set (g := fold_left _ _ _).
  assert (core g = core u /\ status g = status u) as [Hc Hs].
  { unfold g. generalize (u_deferred u). intros l. generalize u. clear u g. induction l as [|m l IH]; intros u; [done|]. cbn [fold_left].
    destruct (IH (write_message e (frame_message m) m u)) as [-> ->]. apply write_message_core. }
  injection Hc as E1 E2 _ _ _ E3 _. by split_and!.
Qed.

Lemma fill_work n u u' :
  upload_inv e u -> established u -> u_bw_seq u = false -> fill_send_buffer e (S (S n)) u = Some u' ->
  established u' /\ (work u' <= work u)%nat /\
  (u_deferred u <> [] \/ (u_requests u <> [] /\ m_bytes (u_send_buffer u) = 0) -> (work u' < work u)%nat).
Proof.
  intros Hi [Hst _] Hseq. cbn [fill_send_buffer]. rewrite Hseq. assert (u_handshake_complete u = true) as -> by (unfold status in Hst; congruence).
  assert (u_job u = None) as Hjob.
  { destruct Hi as (tr & _ & Hr). pose proof (ri_job _ _ _ Hr) as Hj. destruct (u_job u) as [[? ?]|]; [destruct Hj; congruence|done]. }
  destruct (send_deferred_core u) as (S1 & S2 & S3 & S4 & S5).
  assert (u_deferred u = [] -> send_deferred e u = set_deferred [] u) as Hnone by (unfold send_deferred; by intros ->).
  set (u1 := send_deferred e u) in *. assert (quiet e u1) as Hq1 by (apply quiet_send_deferred; [done|by apply quiet_now]).
  rewrite Hseq in S1. rewrite Hjob in S3. rewrite Hst in S5.
  assert (work u1 = sum_list_with (fun r => S (Z.to_nat (r_length r))) (u_requests u)) as Hw1 by (unfold work; rewrite S2, S3, S4; cbn; lia).
  assert (work u = sum_list_with (fun r => S (Z.to_nat (r_length r))) (u_requests u) + length (u_deferred u))%nat as Hw by (unfold work; by rewrite Hjob).
  assert (established u1) as He1 by (split; [done|congruence]).
  assert (work u1 <= work u)%nat as Hle by lia.
  assert (u_deferred u <> [] -> work u1 < work u)%nat as Hlt by (destruct (u_deferred u); [done|cbn in *; lia]).
  rewrite S2. destruct (u_requests u) as [|req reqs] eqn:Hreq.
  { intros [= <-]. split_and!; [done|done|]. intros [?|[? _]]; [auto|done]. }
  destruct (Z.ltb_spec (m_bytes (u_send_buffer u1)) (ue_watermark e)) as [Hlow|Hhigh].
  2: { intros [= <-]. split_and!; [done|done|]. intros [?|[_ Hm]]; [auto|]. destruct (u_deferred u) eqn:Hdf; [|auto].
       exfalso. rewrite (Hnone eq_refl) in Hhigh. cbn in Hhigh. lia. }
  assert (u_attached u1 = true) as Ha by (unfold status in S5; congruence). unfold write_part. rewrite Ha.
  destruct (write_message_core (frame_part req) (part_message e req) u1) as [Hc2 Hs2]. set (u2 := write_message _ _ _ _) in *.
  rewrite S5 in Hs2. injection Hc2 as C1 C2 C3 _ _ C4 _. unfold send_data. assert (u_attached u2 = true) as -> by (unfold status in Hs2; congruence). cbn [negb].
  assert (request_ok (Z.of_nat (length (ue_data e))) req) as Hok.
  { destruct Hq1 as (_ & Hr & _). pose proof (ri_requests _ _ _ Hr) as Hall. rewrite S2 in Hall. by apply Forall_cons in Hall as [? _]. }
  pose proof (split_first e req Hok) as Hpos. destruct (split_request req) as [r l] eqn:Hsp. cbn [fst] in Hpos. rewrite (proj2 (Z.ltb_lt 0 (r_length r))) by lia.
  intros [= <-]. assert (work (set_requests (drop 1 (u_requests (set_seq true (Some (r, l)) u2))) (u_accepted (set_seq true (Some (r, l)) u2)) (set_seq true (Some (r, l)) u2)) < work u)%nat as Hlt'.
  { unfold work at 1. cbn [u_job u_requests u_deferred set_requests set_seq]. rewrite (eq_trans C2 S2), (eq_trans C3 S4), Hw. cbn [drop sum_list_with foldr length].
    unfold split_request in Hsp. injection Hsp as <- <-. cbn [r_length]. destruct Hok as [_ _ Hp _ _]. assert (0 < BLOCK_SIZE) by done. cbn. rewrite drop_0. lia. }
  split_and!; [split; [exact Hs2|done]|apply Nat.lt_le_incl; exact Hlt'|intros _; exact Hlt'].
Qed.

Lemma disk_work r l u u' :
  upload_inv e u -> established u -> u_job u = Some (r, l) -> on_disk_read_complete e true false u = Some u' -> established u' /\ (work u' < work u)%nat.
Proof.
  intros Hi [Hst _] Hjob. unfold on_disk_read_complete. rewrite Hjob. cbn [negb].
  destruct (data_read_spec e r l u Hi Hjob) as (_ & Hs & Hr & Hseq & Hj & Hl).
  destruct (do_write_core (append_payload e r (set_seq (u_bw_seq u) None u))) as [Hc _]. pose proof (do_write_status e (append_payload e r (set_seq (u_bw_seq u) None u))) as Hs2.
  set (u2 := do_write _ _) in *. assert (status u2 = (true, false, true, false, true)) as Hst2 by (rewrite Hs2; exact Hst).
  destruct (core_fields _ _ Hc) as (_ & C1 & C2 & _). change (u_requests u2 = u_requests u) in C1. change (u_deferred u2 = u_deferred u) in C2.
  clear Hc Hs2. clearbody u2.
  assert (0 < r_length r) as Hpos.
  { destruct Hi as (tr & _ & Hr'). pose proof (ri_job _ _ _ Hr') as Hj'. rewrite Hjob in Hj'. destruct Hj' as (_ & [] & _). lia. }
  assert (work u = Z.to_nat (r_length r) + Z.to_nat (r_length l) + work u2)%nat as Hw by (unfold work; rewrite Hjob, Hj, C1, C2; lia).
  unfold send_data. assert (u_attached u2 = true) as -> by (unfold status in Hst2; congruence). cbn [negb].
  destruct (split_request l) as [r' l'] eqn:Hsp. destruct (Z.ltb_spec 0 (r_length r')) as [Hpos'|Hz].
  - intros [= <-]. split; [split; [exact Hst2|done]|]. unfold work at 1. cbn [u_job u_requests u_deferred set_seq].
    unfold work in Hw. rewrite Hj in Hw. unfold work. rewrite Hjob, C1, C2. unfold split_request in Hsp. injection Hsp as <- <-. cbn [r_length] in *. lia.
  - assert (r_length l = 0) as Hl0.
    { destruct Hl as [?|Hok]; [done|]. pose proof (split_first e l Hok) as Hfst. rewrite Hsp in Hfst. cbn in Hfst. lia. }
    assert (read_request (ue_data e) l = []) as Hread by (unfold read_request, mk_range; cbn; apply slice_empty; lia). rewrite Hread in *.
    intros Hf. assert (upload_inv e (set_seq false (u_job u2) u2)) as Hi2.
    { exists []. split; [by apply stream_inv_seq|]. destruct Hr. split; try done. cbn. by rewrite Hj. }
    destruct (fill_work 0 _ u' Hi2 (conj Hst2 (fun H => False_ind _ (diff_false_true H))) eq_refl Hf) as (? & Hle & _). split; [done|]. change (work (set_seq false (u_job u2) u2)) with (work u2) in Hle. lia.
Qed.

Definition waiting_bytes (u : upload) : nat := 2 * Z.to_nat (m_bytes (u_send_buffer u)) + if u_bw_limit u then 1 else 0.

Lemma written_work u d :
  upload_inv e u -> live u -> established u -> u_writing u = Some d ->
  let u' := on_write e false 0 u in established u' /\ work u' = work u /\ (waiting_bytes u' < waiting_bytes u)%nat.
Proof.
  intros Hi [[_ P2 _ _ _] _] [Hst Hsj] Hw. cbv zeta. unfold on_write. rewrite Hw. destruct (P2 d Hw) as [Hne _].
  destruct (bytes_written_spec e [] (length d) d u Hi Hw ltac:(lia)) as (Hc & Hcon & _ & _ & rest & Hrest).
  pose proof Hi as (tr & [(_ & Hm & _) _ _ _ _] & _). destruct Hc as (_ & Hm' & _). rewrite Hcon, Hrest, drop_app_length in Hm'. rewrite Hrest, length_app in Hm.
  set (u1 := bytes_written (length d) d u) in *. change (u_open u1) with (u_open u). assert (u_open u = true) as -> by (unfold status in Hst; congruence). cbn [negb].
  set (u2 := on_sent _ u1). destruct (do_write_core u2) as [Hcore Hsb]. pose proof (do_write_status e u2) as Hs2.
  assert (status u2 = status u /\ u_bw_seq u2 = u_bw_seq u /\ u_requests u2 = u_requests u /\ u_deferred u2 = u_deferred u /\ u_job u2 = u_job u /\ u_send_buffer u2 = u_send_buffer u1)
    as (E1 & E2 & E3 & E4 & E5 & E6) by (unfold u2, on_sent; by destruct (payloads_sent _ _)).
  injection Hcore as C1 C2 C3 _ _ C4 _. split_and!.
  - split; [by rewrite Hs2, E1|]. by rewrite C1, E2, C4, E5.
  - unfold work. by rewrite C4, C2, C3, E3, E4, E5.
  - unfold waiting_bytes. rewrite Hsb, E6, Hm', Hm. destruct d; [done|]. cbn [length]. repeat case_match; lia.
Qed.

Lemma assigned_work u :
  live u -> established u -> u_bw_limit u = true -> u_writing u = None ->
  let u' := assign_upload e 1 u in established u' /\ work u' = work u /\ (waiting_bytes u' < waiting_bytes u)%nat.
Proof.
  intros [[P1 _ P3 _ _] _] [Hst Hsj] Hlim Hw. cbv zeta. unfold assign_upload. set (u1 := set_channel _ _ _ u).
  destruct (do_write_core u1) as [Hcore Hsb]. pose proof (do_write_status e u1) as Hs. injection Hcore as C1 C2 C3 _ _ C4 _. split_and!.
  - split; [by rewrite Hs|]. rewrite C1, C4. done.
  - unfold work. by rewrite C4, C2, C3.
  - unfold waiting_bytes. rewrite Hsb, Hlim. change (u_send_buffer u1) with (u_send_buffer u).
    assert (u_bw_limit (do_write e u1) = false) as ->; [|lia].
    assert (0 < u_quota u1) by (cbn; lia). unfold do_write, has_upload_bandwidth, base_do_write. rewrite (proj2 (Z.eqb_neq (u_quota u1) 0)) by lia. cbn [andb].
    repeat case_match; simplify_eq; done.
Qed.

(** Nothing left to be done. *)
Definition all_served (u : upload) : Prop := u_requests u = [] /\ u_deferred u = [] /\ u_job u = None /\ u_writing u = None /\ u_bw_limit u = false.

Lemma serve_step u :
  upload_reached e u -> established u -> all_served u \/
  exists u', upload_perform e (serve_op u) u = Some u' /\ upload_reached e u' /\ established u' /\
    ((work u' < work u)%nat \/ (work u' = work u /\ (waiting_bytes u' < waiting_bytes u)%nat)).
Proof.
  intros Hr Hest. pose proof (upload_inv_reached e He u Hr) as Hi. pose proof (live_reached e He u Hr) as Hl.
  assert (upload_enabled (serve_op u) u) as Hen by (unfold serve_op; repeat case_match; done).
  destruct (upload_inv_step e He (serve_op u) u Hi Hen) as (u' & Hp & _). pose proof (upload_reached_step e _ _ _ Hr Hen Hp) as Hr'.
  unfold serve_op in *. destruct (u_job u) as [[r l]|] eqn:Hjob.
  { right. exists u'. destruct (disk_work r l u u' Hi Hest Hjob Hp). auto. }
  destruct (u_writing u) as [d|] eqn:Hw.
  { right. exists u'. injection Hp as <-. destruct (written_work u d Hi Hl Hest Hw) as (? & ? & ?). auto 6. }
  destruct (u_bw_limit u) eqn:Hlim.
  { right. exists u'. injection Hp as <-. destruct (assigned_work u Hl Hest Hlim Hw) as (? & ? & ?). auto 6. }
  destruct Hl as [[P1 _ _ _ _] W]. destruct Hest as [Hst Hsj]. assert (u_bw_seq u = false) as Hseq by (destruct (u_bw_seq u); [by destruct Hsj|done]).
  assert (m_bytes (u_send_buffer u) = 0) as Hm.
  { unfold status in Hst. destruct (W ltac:(congruence) ltac:(congruence)) as [?|[Hn|?]]; [done| |congruence]. by destruct (proj1 P1 Hn). }
  cbn [upload_perform] in Hp. unfold second_tick in Hp. assert (u_attached u = true /\ u_disconnecting u = false /\ u_open u = true) as (E1 & E2 & E3) by (unfold status in Hst; split_and!; congruence).
  rewrite E1, E2, E3 in Hp. cbn [negb orb] in Hp. destruct (fill_work 0 u u' Hi (conj Hst Hsj) Hseq Hp) as (Hest' & _ & Hlt).
  destruct (u_deferred u) eqn:Hdf; [|right; exists u'; split_and!; [unfold upload_perform, second_tick; by rewrite E1, E2, E3|done|done|left; by apply Hlt; left]].
  destruct (u_requests u) eqn:Hrq; [by left|]. right. exists u'. split_and!; [unfold upload_perform, second_tick; by rewrite E1, E2, E3|done|done|]. left. apply Hlt. by right.
Qed.

Lemma serve_all u : upload_reached e u -> established u -> exists n u', serve e n u = Some u' /\ upload_reached e u' /\ established u' /\ all_served u'.
Proof.
  remember (work u) as w eqn:Hw. revert u Hw. induction w as [w IHw] using lt_wf_ind. intros u Hw.
  remember (waiting_bytes u) as b eqn:Hb. revert u Hw Hb. induction b as [b IHb] using lt_wf_ind. intros u Hw Hb Hr Hest.
  destruct (serve_step u Hr Hest) as [Hdone|(u1 & Hp & Hr1 & Hest1 & Hless)]; [by exists 0%nat, u|].
  assert (exists n u', serve e n u1 = Some u' /\ upload_reached e u' /\ established u' /\ all_served u') as (n & u' & Hn & ?).
  { destruct Hless as [Hlt|[Heq Hlt]]; [by eapply IHw; [|done|..]; [lia|..]|]. eapply IHb; [|by rewrite Heq|done|done|done]. lia. }
  exists (S n), u'. cbn [serve]. by rewrite Hp.
Qed.

End Serve.

(** C18: when memory, disk, socket and bandwidth do not fail, a connection serves all
    requests: from any state that can be reached with the handshake complete and no
    failed read, after finitely many answers of disk, socket and bandwidth manager
    and ticks of the clock, every accepted request has been sent as a whole part,
    and so has every message. *)
Theorem requests_served e u :
  upload_env_ok e -> (forall n size, ue_alloc e n size <> None) -> 0 < ue_watermark e -> upload_reached e u ->
  u_handshake_complete u = true -> u_connecting u = false -> u_disconnecting u = false -> u_attached u = true ->
  (u_bw_seq u = true -> u_job u <> None) ->
  exists n u', serve e n u = Some u' /\ parts (u_frames u') = u_accepted u' /\
    u_sent u' = concat (frame_bytes e <$> u_frames u') /\ u_deferred u' = [].
Proof.
  intros He Hmem Hwm Hr E1 E2 E3 E4 Hsj. destruct (live_reached e He u Hr) as [[_ _ _ P4 _] _].
  assert (established u) as Hest by (split; [unfold status; by rewrite E1, E2, (P4 E3 E2), E3, E4|done]).
  destruct (serve_all e He Hmem Hwm u Hr Hest) as (n & u' & Hn & Hr' & [Hst Hsj'] & Hreq & Hdf & Hjob & Hw & Hlim).
  assert (u_disconnecting u' = false /\ u_connecting u' = false) as [Hd Hcn] by (unfold status in Hst; split; congruence).
  assert (u_bw_seq u' = false) as Hseq by (destruct (u_bw_seq u'); [by destruct Hsj'|done]).
  destruct (upload_inv_reached e He u' Hr') as (tr & Hs & Hq). pose proof (ri_parts _ _ _ Hq Hd) as Hparts. rewrite Hreq, app_nil_r in Hparts.
  exists n, u'. split_and!; try done. rewrite <- stream_bytes. destruct (si_cut _ _ _ Hs Hd) as (ts & tc & -> & <- & Htc & _).
  pose proof (ri_job _ _ _ Hq) as Hj. rewrite Hjob in Hj. rewrite (Hj Hd Hseq), app_nil_r, fmap_app, Htc.
  destruct (live_reached e He u' Hr') as [[P1 _ _ _ _] W]. destruct (W Hd Hcn) as [Hm|[Hn'|?]]; [|by destruct (proj1 P1 Hn')|congruence].
  destruct Hs as [(_ & Hmb & _) _ _ _ _]. rewrite Hm in Hmb. destruct (contents (u_send_buffer u')); [by rewrite app_nil_r|cbn in Hmb; lia].
Qed.

Lemma requests_served_witness :
  u_requests sample_upload <> [] /\
  exists n u', serve sample_upload_env n sample_upload = Some u' /\ parts (u_frames u') = u_accepted u' /\
    u_sent u' = concat (frame_bytes sample_upload_env <$> u_frames u') /\ u_deferred u' = [].
Proof.
  split; [by vm_compute|].
  apply (requests_served sample_upload_env sample_upload sample_upload_env_ok); [done|done|exact sample_upload_reached|by vm_compute..].
Defined.
