(* ===== verification/PeerDownload.v ===== *)
(** * Downloads of a peer connection: src/peer_connection.cpp

    The receiving half of a connection.  It reserves blocks in the piece picker,
    requests them from the peer, and receives the parts the peer sends into disk
    buffers; a block that is complete is written and marked in the picker.

    Disk buffers are numbers; [d_heap] has the contents of those that are
    allocated, a byte that was never written is [None].  A read that the socket works
    on is [d_reading].  What the connection asks others to do is a log of actions.

    Compressed parts are left out: [m_recv_compressed] is false. *)

From S2P Require Import Prelude Archive Md4Hash CTag Bitfield Packets ClientPackets PiecePicker PiecePick PeerRequests.
From stdpp Require Import list gmap.
Open Scope Z_scope.

(** [m_desired_queue_size] and [m_max_busy_blocks], which are set once; the size of
    [m_skip_buffer]. *)
Definition desired_queue_size : nat := 3.
Definition max_busy_blocks : nat := 1.
Definition skip_buffer_size : Z := 4096.

(** A buffer: the byte at each offset. *)
Definition memory : Type := Z -> option byte.

Definition store (offset : Z) (data : bytes) (m : memory) : memory :=
  fun x => if (offset <=? x) && (x <? offset + Z.of_nat (length data)) then data !! Z.to_nat (x - offset) else m x.

Inductive reading :=
| reading_header
| reading_part (buffer : nat) (offset len : Z)
| reading_skip (len : Z).

Inductive action :=
| ask_parts (rp : client_request_parts 8)
| ask_cancel
| write_block (b : piece_block) (data : option memory)
| verify_piece (i : Z)
| read_part (buffer : nat) (offset len : Z) (allocated : bool)
| ask_disconnect.

Record download := Download {
  d_peer : Z;
  d_remote_pieces : bitfield;
  d_request_queue : list pending_block;
  d_download_queue : list pending_block;
  d_speed : piece_state_t;
  d_connecting : bool; d_disconnecting : bool; d_attached : bool;
  d_bw_limit : bool; d_bw_network : bool; d_bw_disk : bool; d_bw_seq : bool;
  d_quota : Z;
  d_recv_pos : Z; d_recv_req : peer_request;
  d_disk_recv_buffer : option nat;
  d_heap : gmap nat memory;
  d_next_buffer : nat;
  d_reading : option reading;
  d_log : list action
}.

Definition set_queues (rq dq : list pending_block) (d : download) : download :=
  Download (d_peer d) (d_remote_pieces d) rq dq (d_speed d) (d_connecting d) (d_disconnecting d) (d_attached d)
    (d_bw_limit d) (d_bw_network d) (d_bw_disk d) (d_bw_seq d) (d_quota d) (d_recv_pos d) (d_recv_req d)
    (d_disk_recv_buffer d) (d_heap d) (d_next_buffer d) (d_reading d) (d_log d).
Definition set_speed (s : piece_state_t) (d : download) : download :=
  Download (d_peer d) (d_remote_pieces d) (d_request_queue d) (d_download_queue d) s (d_connecting d) (d_disconnecting d) (d_attached d)
    (d_bw_limit d) (d_bw_network d) (d_bw_disk d) (d_bw_seq d) (d_quota d) (d_recv_pos d) (d_recv_req d)
    (d_disk_recv_buffer d) (d_heap d) (d_next_buffer d) (d_reading d) (d_log d).
Definition set_gone (d : download) : download :=
  Download (d_peer d) (d_remote_pieces d) (d_request_queue d) (d_download_queue d) (d_speed d) (d_connecting d) true false
    (d_bw_limit d) (d_bw_network d) (d_bw_disk d) (d_bw_seq d) (d_quota d) (d_recv_pos d) (d_recv_req d)
    (d_disk_recv_buffer d) (d_heap d) (d_next_buffer d) (d_reading d) (d_log d).
Definition set_bits (limit network disk seq : bool) (d : download) : download :=
  Download (d_peer d) (d_remote_pieces d) (d_request_queue d) (d_download_queue d) (d_speed d) (d_connecting d) (d_disconnecting d) (d_attached d)
    limit network disk seq (d_quota d) (d_recv_pos d) (d_recv_req d)
    (d_disk_recv_buffer d) (d_heap d) (d_next_buffer d) (d_reading d) (d_log d).
Definition set_quota (q : Z) (d : download) : download :=
  Download (d_peer d) (d_remote_pieces d) (d_request_queue d) (d_download_queue d) (d_speed d) (d_connecting d) (d_disconnecting d) (d_attached d)
    (d_bw_limit d) (d_bw_network d) (d_bw_disk d) (d_bw_seq d) q (d_recv_pos d) (d_recv_req d)
    (d_disk_recv_buffer d) (d_heap d) (d_next_buffer d) (d_reading d) (d_log d).
Definition set_recv (pos : Z) (req : peer_request) (d : download) : download :=
  Download (d_peer d) (d_remote_pieces d) (d_request_queue d) (d_download_queue d) (d_speed d) (d_connecting d) (d_disconnecting d) (d_attached d)
    (d_bw_limit d) (d_bw_network d) (d_bw_disk d) (d_bw_seq d) (d_quota d) pos req
    (d_disk_recv_buffer d) (d_heap d) (d_next_buffer d) (d_reading d) (d_log d).
Definition set_buffers (holder : option nat) (heap : gmap nat memory) (next : nat) (d : download) : download :=
  Download (d_peer d) (d_remote_pieces d) (d_request_queue d) (d_download_queue d) (d_speed d) (d_connecting d) (d_disconnecting d) (d_attached d)
    (d_bw_limit d) (d_bw_network d) (d_bw_disk d) (d_bw_seq d) (d_quota d) (d_recv_pos d) (d_recv_req d)
    holder heap next (d_reading d) (d_log d).
Definition set_reading (r : option reading) (d : download) : download :=
  Download (d_peer d) (d_remote_pieces d) (d_request_queue d) (d_download_queue d) (d_speed d) (d_connecting d) (d_disconnecting d) (d_attached d)
    (d_bw_limit d) (d_bw_network d) (d_bw_disk d) (d_bw_seq d) (d_quota d) (d_recv_pos d) (d_recv_req d)
    (d_disk_recv_buffer d) (d_heap d) (d_next_buffer d) r (d_log d).
Definition log_action (a : action) (d : download) : download :=
  Download (d_peer d) (d_remote_pieces d) (d_request_queue d) (d_download_queue d) (d_speed d) (d_connecting d) (d_disconnecting d) (d_attached d)
    (d_bw_limit d) (d_bw_network d) (d_bw_disk d) (d_bw_seq d) (d_quota d) (d_recv_pos d) (d_recv_req d)
    (d_disk_recv_buffer d) (d_heap d) (d_next_buffer d) (d_reading d) (d_log d ++ [a]).

(** What a handler finds: the transfer ([t_]), the settings, the statistics and the
    answers of the session and the disk. *)
Record surroundings := Surroundings {
  t_hash : md4_hash;
  t_size : Z;
  t_upload_mode : bool;
  t_can_download : bool;
  t_sequential : bool;
  t_num_peers : Z;
  s_now : Z;
  s_block_request_timeout : Z;
  s_download_rate : Z;
  s_transfer_rate : Z;
  s_upload_seq : bool;
  s_grant : Z;
  s_disk_writable : bool;
  s_memory : bool;
  s_random : nat -> nat;
  s_shuffle : nat -> list Z -> list Z
}.

Section Downloads.
Context (s : surroundings).

Definition is_seed (p : piece_picker) : bool := m_num_have p =? Z.of_nat (num_pieces p).

Definition peer_speed (d : download) : download :=
  let rate := s_download_rate s in
  let transfer_rate := s_transfer_rate s in
  set_speed
    (if (512 <? rate) && (Z.quot transfer_rate 16 <? rate) then fast
     else if (4096 <? rate) && (Z.quot transfer_rate 64 <? rate) then medium
     else if (rate <? Z.quot transfer_rate 15) && bool_decide (d_speed d = fast) then medium
     else slow) d.

Definition picker_options : Z :=
  if t_sequential s then Z.lor sequential ignore_whole_pieces else Z.lor rarest_first speed_affinity.

Definition can_request (d : download) (p : piece_picker) : bool := (num_pieces p =? Bitfield.m_size (d_remote_pieces d))%nat.

Definition block_of (b : piece_block) : Z * Z := (piece_index b, Z.of_nat (block_index b)).

Definition requesting (b : piece_block) (d : download) : bool :=
  existsb (has_block (block_of b)) (d_download_queue d) || existsb (has_block (block_of b)) (d_request_queue d).

Definition num_requesting_busy_blocks (d : download) : nat :=
  length (filter (fun q => pb_busy q = true) (d_download_queue d)) + length (filter (fun q => pb_busy q = true) (d_request_queue d)).

(** [n] tells the calls of [random()] apart. *)
Definition add_request (n : nat) (b : piece_block) (busy : bool) (d : download) (p : piece_picker) : bool * download * piece_picker :=
  if negb (d_attached d) || t_upload_mode s then (false, d, p)
  else if d_disconnecting d then (false, d, p)
  else
    let d := peer_speed d in
    if busy && (max_busy_blocks <=? num_requesting_busy_blocks d)%nat then (false, d, p)
    else
      let '(ok, p) := mark_as_downloading (s_random s n) b (d_peer d) (d_speed d) p in
      if ok then (true, set_queues (d_request_queue d ++ [pending_block_new b (t_size s) (s_now s)]) (d_download_queue d) d, p)
      else (false, d, p).

(** The loop over the blocks that were picked; the blocks somebody else downloads
    are kept for later. *)
Fixpoint request_picked (dont_pick_busy : bool) (l : list piece_block) (num_requests : Z) (busy : list piece_block) (d : download) (p : piece_picker) :
    list piece_block * download * piece_picker :=
  match l with
  | [] => (busy, d, p)
  | b :: l =>
      if 0 <? num_peers b p then
        if num_requests <=? 0 then (busy, d, p)
        else if dont_pick_busy || (max_busy_blocks <=? length busy)%nat then (busy, d, p)
        else request_picked dont_pick_busy l num_requests (busy ++ [b]) d p
      else if requesting b d then request_picked dont_pick_busy l num_requests busy d p
      else
        let '(ok, d, p) := add_request (length l) b false d p in
        request_picked dont_pick_busy l (if ok then num_requests - 1 else num_requests) busy d p
  end.

Fixpoint request_busy (l : list piece_block) (d : download) (p : piece_picker) : download * piece_picker :=
  match l with
  | [] => (d, p)
  | b :: l => let '(_, d, p) := add_request (length l) b true d p in request_busy l d p
  end.

Definition request_block (d : download) (p : piece_picker) : download * piece_picker :=
  if d_disconnecting d then (d, p)
  else if negb (d_attached d) || is_seed p || t_upload_mode s || negb (can_request d p) then (d, p)
  else
    let num_requests := Z.of_nat desired_queue_size - Z.of_nat (length (d_download_queue d)) - Z.of_nat (length (d_request_queue d)) in
    if num_requests <=? 0 then (d, p)
    else
      let d := peer_speed d in
      let '(p, interesting_pieces) :=
        pick_pieces (s_shuffle s) (s_random s 0) (s_random s 1) (d_remote_pieces d) [] num_requests 0 (d_peer d) (d_speed d) picker_options [] (t_num_peers s) p in
      let dont_pick_busy_blocks :=
        (m_num_have p + Z.of_nat (length (m_downloads p)) <? Z.of_nat (num_pieces p))
        || (0 <? length (d_download_queue d) + length (d_request_queue d))%nat in
      let '(busy_blocks, d, p) := request_picked dont_pick_busy_blocks interesting_pieces num_requests [] d p in
      if (length (d_download_queue d) + length (d_request_queue d) =? 0)%nat then request_busy busy_blocks d p else (d, p).

(** The loop of [send_block_requests] over the request queue [rq]; [rp] is the packet
    that is being filled. *)
Fixpoint send_requests (rq dq : list pending_block) (rp : client_request_parts 8) (d : download) (p : piece_picker) : download * piece_picker :=
  let done_ d := set_queues rq dq (if rp_empty rp then d else log_action (ask_parts rp) d) in
  match rq with
  | [] => (done_ d, p)
  | q :: rq' =>
      if (length dq <? desired_queue_size)%nat then
        if is_seed p then send_requests rq' dq rp d p
        else if is_finished (pb_block q) p || is_downloaded (pb_block q) p
        then send_requests rq' dq rp d (abort_download (s_random s (length rq')) (pb_block q) 0 p)
        else
          let range := block_range (piece_index (pb_block q)) (Z.of_nat (block_index (pb_block q))) (t_size s) in
          let rp := default rp (rp_append rp range) in
          if rp_full rp then send_requests rq' (dq ++ [q]) (rp_reset rp) (log_action (ask_parts rp) d) p
          else send_requests rq' (dq ++ [q]) rp d p
      else (done_ d, p)
  end.

Definition send_block_requests (d : download) (p : piece_picker) : download * piece_picker :=
  if s_upload_seq s then (d, p)
  else if negb (d_attached d) || d_disconnecting d then (d, p)
  else if negb (t_can_download s) then (d, p)
  else if (desired_queue_size <=? length (d_download_queue d) + 2)%nat || t_upload_mode s then (d, p)
  else send_requests (d_request_queue d) (d_download_queue d) (RequestParts (t_hash s) [0; 0; 0] [0; 0; 0] 0) d p.

(** ** Giving up *)

(** [abort_download] for each of [l]. *)
Fixpoint abort_each (l : list pending_block) (p : piece_picker) : piece_picker :=
  match l with [] => p | q :: l => abort_each l (abort_download (s_random s (length l)) (pb_block q) 0 p) end.

Definition abort_all_requests (d : download) (p : piece_picker) : download * piece_picker :=
  (set_queues [] [] d,
   if d_attached d then
     let p := abort_each (filter (fun q => pb_timed_out q = false /\ pb_not_wanted q = false) (reverse (d_download_queue d))) p in
     abort_each (reverse (d_request_queue d)) p
   else p).

Definition request_expired (q : pending_block) : bool := s_block_request_timeout s * 1000000 <? s_now s - pb_create_time q.

Definition abort_expired_requests (d : download) (p : piece_picker) : download * piece_picker :=
  if negb (d_attached d) then (d, p)
  else
    let expired l := filter (fun q => request_expired q = true) l in
    let kept l := filter (fun q => request_expired q = false) l in
    let p := abort_each (expired (d_download_queue d)) p in
    let p := abort_each (expired (d_request_queue d)) p in
    (set_queues (kept (d_request_queue d)) (kept (d_download_queue d)) d, p).

Definition cancel_all_requests (d : download) (p : piece_picker) : download * piece_picker :=
  if negb (d_attached d) then (d, p)
  else (log_action ask_cancel (set_queues [] (d_download_queue d) d), abort_each (reverse (d_request_queue d)) p).

(** [disconnect], as far as the picker is concerned. *)
Definition disconnect_download (d : download) (p : piece_picker) : download * piece_picker :=
  if d_disconnecting d then (d, p)
  else
    let '(d, p) := if d_attached d then abort_all_requests d p else (d, p) in
    (log_action ask_disconnect (set_gone d), p).

(** ** Receiving parts *)

(** [can_read] with the state it may overwrite. *)
Definition can_read (d : download) : bool * download :=
  if negb (0 <? d_quota d) then (false, d)
  else if negb (s_disk_writable s) then (false, set_bits false false true false d)
  else (negb (d_connecting d) && negb (d_disconnecting d), d).

Definition has_download_bandwidth (d : download) : bool * download :=
  if (d_quota d =? 0) && negb (d_connecting d) then
    if s_grant s =? 0 then (false, set_bits true (d_bw_network d) (d_bw_disk d) (d_bw_seq d) d)
    else (true, set_quota (d_quota d + s_grant s) d)
  else (true, d).

Definition find_pending (b : Z * Z) (l : list pending_block) : option (nat * pending_block) := list_find (fun q => has_block b q = true) l.

(** [base_connection::do_read]: the header of a packet. *)
Definition base_do_read (d : download) : download :=
  if d_disconnecting d then d
  else if d_bw_network d || d_bw_limit d then d
  else set_reading (Some reading_header) (set_bits (d_bw_limit d) true (d_bw_disk d) (d_bw_seq d) d).

Definition skip_data (d : download) : download :=
  let skip_bytes := Z.min (r_length (d_recv_req d) - d_recv_pos d) skip_buffer_size in
  if skip_bytes =? 0 then d
  else set_reading (Some (reading_skip skip_bytes)) (set_bits (d_bw_limit d) true (d_bw_disk d) true d).

(** [allocate_receive_buffer]: the buffer the connection held is freed first. *)
Definition allocate_receive_buffer (d : download) (p : piece_picker) : option nat * download * piece_picker :=
  let heap := match d_disk_recv_buffer d with Some id => delete id (d_heap d) | None => d_heap d end in
  if s_memory s then
    (Some (d_next_buffer d), set_buffers (Some (d_next_buffer d)) (<[d_next_buffer d := fun _ => None]> heap) (S (d_next_buffer d)) d, p)
  else
    let '(d, p) := disconnect_download (set_buffers None heap (d_next_buffer d) d) p in (None, d, p).

(** The buffer of the [i]-th block of the download queue. *)
Definition block_buffer (i : nat) (q : pending_block) (d : download) (p : piece_picker) : option nat * download * piece_picker :=
  match pb_buffer q with
  | Some id => (Some id, d, p)
  | None =>
      let '(id, d, p) := allocate_receive_buffer d p in
      (id, match id with
           | Some id => set_queues (d_request_queue d) (<[i := pb_set_buffer id q]> (d_download_queue d)) d
           | None => d
           end, p)
  end.

(** [receive_data()], which [do_read] calls again; [None] is a recursion that does not
    end. *)
Fixpoint receive_data (n : nat) (d : download) (p : piece_picker) : option (download * piece_picker) :=
  match n with
  | O => None
  | S n =>
      let '(ok, d) := has_download_bandwidth d in
      if negb ok then Some (d, p)
      else
        let '(ok, d) := can_read d in
        if negb ok then Some (d, p)
        else if negb (d_attached d) then Some (d, p)
        else
          match find_pending (mk_block (d_recv_req d)) (d_download_queue d) with
          | None => Some (skip_data d, p)
          | Some (i, q) =>
              match block_buffer i q d p with
              | (None, d, p) => Some (d, p)
              | (Some id, d, p) =>
                  let max_receive := Z.min (r_length (d_recv_req d) - d_recv_pos d) (d_quota d) in
                  if 0 <? max_receive then
                    let offset := offset_in_block (d_recv_req d) + d_recv_pos d in
                    let d := set_bits (d_bw_limit d) true (d_bw_disk d) (d_bw_seq d) d in
                    let d := set_reading (Some (reading_part id offset max_receive)) d in
                    Some (log_action (read_part id offset max_receive (bool_decide (is_Some (d_heap d !! id)))) d, p)
                  else if d_disconnecting d then Some (d, p)
                  else if d_bw_network d || d_bw_limit d then Some (d, p)
                  else if d_bw_seq d then receive_data n d p
                  else Some (base_do_read d, p)
              end
          end
  end.

(** [do_read]. *)
Definition do_read (n : nat) (d : download) (p : piece_picker) : option (download * piece_picker) :=
  if d_disconnecting d then Some (d, p)
  else if d_bw_network d || d_bw_limit d then Some (d, p)
  else if d_bw_seq d then receive_data n d p
  else Some (base_do_read d, p).

(** [on_read_packet] with [on_sending_part] and [receive_data(req, compressed)]. *)
Definition on_sending_part (n : nat) (begin_offset end_offset : Z) (d : download) (p : piece_picker) : option (download * piece_picker) :=
  match d_reading d with
  | Some reading_header =>
      let d := set_recv 0 (mk_peer_request (to_int64 begin_offset) (to_int64 end_offset)) (set_reading None d) in
      receive_data n (set_bits (d_bw_limit d) false (d_bw_disk d) true d) p
  | _ => Some (d, p)
  end.

(** The block [q] at [i] of the download queue is complete: the buffer that is held
    is written, whichever it is. *)
Definition finish_block (i : nat) (q : pending_block) (d : download) (p : piece_picker) : download * piece_picker :=
  let data := id ← d_disk_recv_buffer d; d_heap d !! id in
  let d := log_action (write_block (pb_block q) data) d in
  let heap := match d_disk_recv_buffer d with Some id => delete id (d_heap d) | None => d_heap d end in
  let d := set_buffers None heap (d_next_buffer d) d in
  let piece := r_piece (d_recv_req d) in
  let was_finished := is_piece_finished piece p in
  let '(_, p) := mark_as_writing (s_random s 2) (pb_block q) (d_peer d) p in
  let d := set_queues (d_request_queue d) (delete i (d_download_queue d)) d in
  (if is_piece_finished piece p && negb was_finished then log_action (verify_piece piece) d else d, p).

(** The bytes of a part that have arrived, for the block [q] at [i]. *)
Definition part_received (n : nat) (i : nat) (q : pending_block) (d : download) (p : piece_picker) : option (download * piece_picker) :=
  if d_recv_pos d =? r_length (d_recv_req d) then
    let q := complete (mk_range (d_recv_req d)) q in
    let d := set_queues (d_request_queue d) (<[i := q]> (d_download_queue d)) d in
    let '(d, p) := if completed q then finish_block i q d p else (d, p) in
    let d := set_bits (d_bw_limit d) (d_bw_network d) (d_bw_disk d) false d in
    let '(d, p) := request_block d p in
    let '(d, p) := send_block_requests d p in
    do_read n d p
  else do_read n d p.

(** [on_receive_data]: [data] has arrived in the buffer that was given to the socket;
    on an error the connection ends. *)
Definition on_receive_data (n : nat) (error : bool) (data : bytes) (d : download) (p : piece_picker) : option (download * piece_picker) :=
  match d_reading d with
  | Some (reading_part id offset _) =>
      let heap := alter (store offset data) id (d_heap d) in
      let d := set_reading None (set_buffers (d_disk_recv_buffer d) heap (d_next_buffer d) d) in
      if error then Some (disconnect_download d p)
      else if d_disconnecting d then Some (d, p)
      else
        let len := Z.of_nat (length data) in
        let d := set_recv (d_recv_pos d + len) (d_recv_req d) (set_quota (d_quota d - len) d) in
        let d := set_bits (d_bw_limit d) false (d_bw_disk d) (d_bw_seq d) d in
        if negb (d_attached d) || is_seed p then Some (d, p)
        else
          match find_pending (mk_block (d_recv_req d)) (d_download_queue d) with
          | None => Some (skip_data d, p)
          | Some (i, q) =>
              if is_downloaded (pb_block q) p
              then Some (skip_data (set_queues (d_request_queue d) (delete i (d_download_queue d)) d), p)
              else part_received n i q d p
          end
  | _ => Some (d, p)
  end.

(** [on_skip_data]: [len] bytes of a part nobody waits for were read. *)
Definition on_skip_data (n : nat) (error : bool) (len : Z) (d : download) (p : piece_picker) : option (download * piece_picker) :=
  match d_reading d with
  | Some (reading_skip _) =>
      let d := set_reading None d in
      if error then Some (disconnect_download d p)
      else if d_disconnecting d then Some (d, p)
      else
        let d := set_recv (d_recv_pos d + len) (d_recv_req d) d in
        if d_recv_pos d <? r_length (d_recv_req d) then Some (skip_data d, p)
        else
          let d := set_bits (d_bw_limit d) false (d_bw_disk d) false d in
          '(d, p) ← do_read n d p;
          let '(d, p) := request_block d p in
          Some (send_block_requests d p)
  | _ => Some (d, p)
  end.

(** [assign_bandwidth] for the download channel. *)
Definition assign_download (n : nat) (amount : Z) (d : download) (p : piece_picker) : option (download * piece_picker) :=
  do_read n (set_bits false (d_bw_network d) (d_bw_disk d) (d_bw_seq d) (set_quota (d_quota d + amount) d)) p.

(** [on_accept_upload]. *)
Definition on_accept_upload (d : download) (p : piece_picker) : download * piece_picker :=
  let '(d, p) := request_block d p in send_block_requests d p.

(** [on_read_packet] for a packet without an effect on the download: the next one is
    read. *)
Definition on_other_packet (n : nat) (d : download) (p : piece_picker) : option (download * piece_picker) :=
  match d_reading d with
  | Some reading_header => do_read n (set_bits (d_bw_limit d) false (d_bw_disk d) (d_bw_seq d) (set_reading None d)) p
  | _ => Some (d, p)
  end.

End Downloads.

(** A connection before anything was received. *)
Definition download_new (peer : Z) (pieces : bitfield) (connecting attached : bool) : download :=
  Download peer pieces [] [] slow connecting false attached false false false false 0 0 (PeerRequest (-1) (-1) (-1)) None ∅ 0 None [].
