(* ===== verification/PeerDownloadProps.v ===== *)
(** * Downloads: parts the code does not expect

    What a connection does with parts that do not belong to one requested block, and
    when the disk cannot keep up.  The examples run a connection to a file of one
    piece and four blocks. *)

From S2P Require Import Prelude Archive Md4Hash CTag Bitfield Packets ClientPackets PiecePicker PiecePick PeerRequests PeerDownload.
From stdpp Require Import list gmap.
Open Scope Z_scope.

(** ** Examples *)

Definition sample_hash : md4_hash := Hash (replicate 16 (z2b 3)).

(** Bandwidth for [q] bytes; the disk can write or not. *)
Definition sample_view (q : Z) (disk : bool) : surroundings :=
  Surroundings sample_hash 1000000 false true false 1 0 60 0 0 false q disk true (fun n => n) (fun _ l => l).

Definition one_piece : bitfield := BF [z2b 128] 1 true.

Definition sample_picker : piece_picker := inc_refcount_mask one_piece (init 38 4 1 piece_picker_new).

Definition sample_download : download * piece_picker :=
  let '(d, p) := on_accept_upload (sample_view 0 true) (download_new 5 one_piece false true) sample_picker in
  (base_do_read d, p).

(** What is seen of a connection. *)
Definition seen (o : option (download * piece_picker)) : option (list action * option reading * bool * bool) :=
  '(d, _) ← o; Some (d_log d, d_reading d, d_bw_seq d, d_bw_disk d).

Example blocks_requested :
  d_log (fst sample_download) = [ask_parts (RequestParts sample_hash [0; 262144; 524288] [262144; 524288; 786432] 3)].
Proof. vm_compute. reflexivity. Qed.

(** A part that goes beyond its block is read beyond the buffer of the block. *)
Example part_overruns_buffer :
  seen (on_sending_part (sample_view 9000000 true) 2 262000 400000 (fst sample_download) (snd sample_download)) =
  Some (d_log (fst sample_download) ++ [read_part 0 262000 138000 true], Some (reading_part 0 262000 138000), true, false) /\
  BLOCK_SIZE < 262000 + 138000.
Proof. split; [vm_compute; reflexivity|done]. Qed.

Definition then_ (o : option (download * piece_picker)) (f : download -> piece_picker -> option (download * piece_picker)) : option (download * piece_picker) :=
  '(d, p) ← o; f d p.

Definition zeros (n : nat) : bytes := replicate n (z2b 0).

(** The buffer of a block is freed when a part of another block arrives before the
    block is complete, and the next part of it is read into freed memory. *)
Example interleaved_parts_use_freed_buffer :
  let v := sample_view 9000000 true in
  let part a e o := then_ (then_ o (on_sending_part v 2 a e)) (on_receive_data v 2 false (zeros (Z.to_nat (e - a)))) in
  let o := part 262144 262244 (part 0 100 (Some sample_download)) in
  option_map (fun x => last (d_log (fst x))) (then_ o (on_sending_part v 2 100 200)) = Some (Some (read_part 0 100 100 false)).
Proof. vm_compute. reflexivity. Qed.

(** When the disk cannot keep up in the middle of a part, [can_read] overwrites the
    state of the channel and with it the mark that a part is being received: the rest
    of the part is read as the header of a packet. *)
Example disk_wait_loses_part :
  let o := then_ (Some sample_download) (on_sending_part (sample_view 100 true) 2 0 262144) in
  let o := then_ o (on_receive_data (sample_view 100 false) 2 false (zeros 100)) in
  let o := then_ o (do_read (sample_view 100 true) 2) in
  option_map (fun x => (d_recv_pos (fst x), r_length (d_recv_req (fst x)), d_reading (fst x))) o = Some (100, 262144, Some reading_header).
Proof. vm_compute. reflexivity. Qed.

(** The last bytes of a part arrive after another peer has delivered the block: the
    connection reads nothing any more, also when it is asked to. *)
Example late_block_stalls :
  let v := sample_view 9000000 true in
  let o := then_ (Some sample_download) (on_sending_part v 2 0 100) in
  let o := then_ o (fun d p => Some (d, snd (mark_as_writing 0 (PieceBlock 0 0) 6 p))) in
  let o := then_ o (on_receive_data v 2 false (zeros 100)) in
  option_map (fun x => (d_reading (fst x), d_bw_seq (fst x), length (d_download_queue (fst x)))) o = Some (None, true, 2%nat) /\
  option_map (fun x => d_reading (fst x)) (then_ o (do_read v 2)) = Some None.
Proof. split; vm_compute; reflexivity. Qed.

(** ** A part without data *)

(** [receive_data] and [do_read] call each other without end when a part of a block
    that has its buffer has no bytes left. *)
Lemma receive_nothing s d p i q n :
  s_disk_writable s = true -> 0 < d_quota d -> d_connecting d = false -> d_disconnecting d = false -> d_attached d = true ->
  d_bw_network d = false -> d_bw_limit d = false -> d_bw_seq d = true ->
  find_pending (mk_block (d_recv_req d)) (d_download_queue d) = Some (i, q) -> pb_buffer q <> None ->
  r_length (d_recv_req d) <= d_recv_pos d -> receive_data s n d p = None.
Proof.
  intros Hw Hq Hc Hd Ha Hn Hl Hs Hf Hb Hlen. induction n as [|n IH]; [done|]. cbn [receive_data].
  unfold has_download_bandwidth. rewrite (proj2 (Z.eqb_neq (d_quota d) 0)) by lia. cbn [andb negb].
  unfold can_read. rewrite (proj2 (Z.ltb_lt 0 (d_quota d)) Hq), Hw, Hc, Hd. cbn [andb negb]. rewrite Ha. cbn [negb]. rewrite Hf.
  unfold block_buffer. destruct (pb_buffer q) as [id|]; [|done]. rewrite (proj2 (Z.ltb_ge 0 _)) by lia. by rewrite Hd, Hn, Hl, Hs.
Qed.

(** C39: a peer can crash the client.  A part without data (or whose end is before its
    begin) for a block that was requested from the peer makes [receive_data] and
    [do_read] call each other without end, on a connection that has bandwidth and
    memory and is reading packets. *)
Theorem empty_part_never_ends s d p b e i q :
  s_disk_writable s = true -> s_memory s = true -> 0 < d_quota d -> d_connecting d = false -> d_disconnecting d = false -> d_attached d = true ->
  d_reading d = Some reading_header -> d_bw_limit d = false ->
  0 <= b < max_size -> b - 2 ^ 31 <= e <= b ->
  find_pending (mk_block_at b) (d_download_queue d) = Some (i, q) -> forall n, on_sending_part s n b e d p = None.
Proof.
  intros Hw Hm Hq Hc Hd Ha Hr Hl Hb He Hf n. unfold on_sending_part. rewrite Hr.
  assert (max_size < 2 ^ 62) as Hmax by done. rewrite !to_int64_small by lia.
  assert (mk_block (mk_peer_request b e) = mk_block_at b) as Hblk by done.
  assert (r_length (mk_peer_request b e) <= 0) as Hlen by (cbn; rewrite to_int32_small; lia).
  set (d1 := set_bits _ _ _ _ _). destruct n as [|n]; [done|].
  destruct (pb_buffer q) as [id|] eqn:Hbuf; [by apply (receive_nothing s d1 p i q); rewrite ?Hbuf|].
  cbn [receive_data]. unfold has_download_bandwidth. change (d_quota d1) with (d_quota d). rewrite (proj2 (Z.eqb_neq (d_quota d) 0)) by lia. cbn [andb negb].
  unfold can_read. change (d_quota d1) with (d_quota d). rewrite (proj2 (Z.ltb_lt 0 (d_quota d)) Hq), Hw.
  change (d_connecting d1) with (d_connecting d). change (d_disconnecting d1) with (d_disconnecting d). rewrite Hc, Hd. cbn [andb negb].
  change (d_attached d1) with (d_attached d). rewrite Ha. cbn [negb]. change (find_pending _ (d_download_queue d1)) with (find_pending (mk_block_at b) (d_download_queue d)).
  rewrite Hf. unfold block_buffer. rewrite Hbuf. unfold allocate_receive_buffer. rewrite Hm. set (d2 := set_queues _ _ _).
  change (r_length (d_recv_req d2) - d_recv_pos d2) with (r_length (mk_peer_request b e) - 0). rewrite (proj2 (Z.ltb_ge 0 _)) by lia.
  change (d_disconnecting d2) with (d_disconnecting d). rewrite Hd. change (d_bw_network d2) with false. change (d_bw_limit d2) with (d_bw_limit d). rewrite Hl.
  cbn [orb]. change (d_bw_seq d2) with true. cbv iota.
  apply list_find_Some in Hf as (Hi & Hq' & Hbefore). apply (receive_nothing s d2 p i (pb_set_buffer (d_next_buffer d1) q)); try done.
  change (d_download_queue d2) with (<[i := pb_set_buffer (d_next_buffer d1) q]> (d_download_queue d)). apply list_find_Some. split_and!.
  - apply list_lookup_insert_eq. by eapply lookup_lt_Some.
  - done.
  - intros j y Hj Hlt. rewrite list_lookup_insert_ne in Hj by lia. by apply (Hbefore j).
Qed.

(** A connection that has requested the first block and reads packets. *)
Definition one_request : download :=
  Download 5 one_piece [] [pending_block_new (PieceBlock 0 0) 1000000 0] slow false false true false true false false
    100 0 (PeerRequest (-1) (-1) (-1)) None ∅ 0 (Some reading_header) [].

Lemma empty_part_never_ends_witness : on_sending_part (sample_view 0 true) 20 7 7 one_request sample_picker = None.
Proof.
  apply (empty_part_never_ends _ _ _ _ _ 0 (pending_block_new (PieceBlock 0 0) 1000000 0)); try reflexivity; vm_compute; split; congruence.
Defined.
