(* ===== verification/PeerSwarm.v ===== *)
(** * The connections of a transfer and its piece picker: src/transfer.cpp

    The connections that download one file share the piece picker of its transfer.
    This file has what the transfer does with both when blocks were written and pieces
    were checked, and the steps of a transfer with its connections. *)

From S2P Require Import Prelude Archive Md4Hash CTag Bitfield Packets ClientPackets PiecePicker PiecePickerSteps PiecePick PeerRequests PeerDownload.
From stdpp Require Import list gmap.
Open Scope Z_scope.

#[global] Instance piece_block_eq_dec : EqDecision piece_block.
Proof. solve_decision. Defined.

(** The connections, in the order of the set of their addresses, and the picker. *)
Record swarm := Swarm { m_connections : list download; m_picker : piece_picker }.

(** The blocks a connection waits for. *)
Definition entries (d : download) : list pending_block := d_download_queue d ++ d_request_queue d.

(** ** Pieces that were checked *)

Section Restore.
Context (s : surroundings) (index : Z).

(** The loop over a queue: [peer_speed] may change at each call. *)
Fixpoint restore_queue (l : list pending_block) (d : download) (p : piece_picker) : download * piece_picker :=
  match l with
  | [] => (d, p)
  | q :: l =>
      if piece_index (pb_block q) =? index then
        let d := peer_speed s d in
        restore_queue l d (snd (mark_as_downloading (s_random s (length l)) (pb_block q) (d_peer d) (d_speed d) p))
      else restore_queue l d p
  end.

Definition restore_connection (d : download) (p : piece_picker) : download * piece_picker :=
  let '(d, p) := restore_queue (filter (fun q => pb_timed_out q = false /\ pb_not_wanted q = false) (d_download_queue d)) d p in
  restore_queue (d_request_queue d) d p.
End Restore.

(** [env i] is what the [i]-th connection finds. *)
Fixpoint restore_piece_state (env : nat -> surroundings) (index : Z) (l : list download) (p : piece_picker) : list download * piece_picker :=
  match l with
  | [] => ([], p)
  | d :: l =>
      let '(d, p) := restore_connection (env 0%nat) index d p in
      let '(l, p) := restore_piece_state (fun i => env (S i)) index l p in
      (d :: l, p)
  end.

Definition piece_failed (env : nat -> surroundings) (index : Z) (w : swarm) : swarm :=
  let '(l, p) := restore_piece_state env index (m_connections w) (restore_piece (s_random (env 0%nat) 0) index (m_picker w)) in
  Swarm l p.

(** [piece_passed], as far as the picker is concerned. *)
Definition piece_passed (index : Z) (w : swarm) : swarm := Swarm (m_connections w) (we_have index (m_picker w)).

(** [piece_finished]: the piece was hashed with the result [passed_hash_check]. *)
Definition piece_finished (env : nat -> surroundings) (index passed_hash_check : Z) (w : swarm) : swarm :=
  if negb (is_piece_finished index (m_picker w)) then w
  else if passed_hash_check =? 0 then piece_passed index w
  else piece_failed env index w.

(** ** Blocks that were written *)

Definition handle_disk_write (random : nat) (piece offset peer : Z) (w : swarm) : swarm :=
  if is_seed (m_picker w) then w
  else Swarm (m_connections w) (mark_as_finished random (PieceBlock piece (Z.to_nat (offset / BLOCK_SIZE))) peer (m_picker w)).

(** [handle_disk_error] for a write. *)
Definition handle_disk_error (random : nat) (piece offset : Z) (w : swarm) : swarm :=
  if 0 <=? piece then Swarm (m_connections w) (write_failed random (PieceBlock piece (Z.to_nat (offset / BLOCK_SIZE))) (m_picker w)) else w.

(** ** Steps *)

(** The handlers of a connection; [n] bounds the depth of [receive_data]. *)
Inductive download_op :=
| accept_upload
| sending_part (begin_offset end_offset : Z)
| receive_part (error : bool) (data : bytes)
| receive_skipped (error : bool) (len : Z)
| get_bandwidth (amount : Z)
| other_packet
| read_again
| queues_full
| requests_expired
| close.

Definition perform_download (s : surroundings) (n : nat) (o : download_op) (d : download) (p : piece_picker) : option (download * piece_picker) :=
  match o with
  | accept_upload => Some (on_accept_upload s d p)
  | sending_part b e => on_sending_part s n b e d p
  | receive_part error data => on_receive_data s n error data d p
  | receive_skipped error len => on_skip_data s n error len d p
  | get_bandwidth amount => assign_download s n amount d p
  | other_packet => on_other_packet s n d p
  | read_again => do_read s n d p
  | queues_full => Some (cancel_all_requests s d p)
  | requests_expired => Some (abort_expired_requests s d p)
  | close => Some (disconnect_download s d p)
  end.

(** The steps of a transfer.  The file has not more than [connections_max] connections;
    a block that was written or that could not be written is one the disk was given,
    as the assertions of the picker say. *)
Definition connections_max : Z := 5000.

Inductive swarm_step : swarm -> swarm -> Prop :=
| step_connection l1 d l2 p s n o d' p' :
    (forall k l, s_shuffle s k l ≡ₚ l) -> perform_download s n o d p = Some (d', p') ->
    swarm_step (Swarm (l1 ++ d :: l2) p) (Swarm (l1 ++ d' :: l2) p')
| step_join l1 l2 p peer pieces connecting attached :
    Z.of_nat (length (l1 ++ l2)) < connections_max ->
    swarm_step (Swarm (l1 ++ l2) p) (Swarm (l1 ++ download_new peer pieces connecting attached :: l2) p)
| step_leave l1 d l2 p : d_attached d = false -> swarm_step (Swarm (l1 ++ d :: l2) p) (Swarm (l1 ++ l2) p)
| step_finished env index result w : is_piece (m_picker w) index = true -> swarm_step w (piece_finished env index result w)
| step_written random piece offset peer w :
    allowed (Mark_as_finished random (PieceBlock piece (Z.to_nat (offset / BLOCK_SIZE))) peer) (m_picker w) = true ->
    swarm_step w (handle_disk_write random piece offset peer w)
| step_failed random piece offset w :
    allowed (Write_failed random (PieceBlock piece (Z.to_nat (offset / BLOCK_SIZE)))) (m_picker w) = true ->
    swarm_step w (handle_disk_error random piece offset w)
| step_has l p bits : swarm_step (Swarm l p) (Swarm l (inc_refcount_mask bits p))
| step_lost l p bits : swarm_step (Swarm l p) (Swarm l (dec_refcount_mask bits p))
| step_seed_lost l p : swarm_step (Swarm l p) (Swarm l (dec_refcount_all p))
| step_priority l p random i n : is_piece p i = true -> 0 <= n < 8 -> swarm_step (Swarm l p) (Swarm l (snd (set_piece_priority random i n p)))
| step_peer_erased l p peer : swarm_step (Swarm l p) (Swarm l (clear_peer peer p)).

Inductive swarm_reached : swarm -> Prop :=
| reached_start blocks_per_piece blocks_in_last_piece total :
    allowed (Init blocks_per_piece blocks_in_last_piece total) piece_picker_new = true ->
    swarm_reached (Swarm [] (init blocks_per_piece blocks_in_last_piece total piece_picker_new))
| reached_step w w' : swarm_reached w -> swarm_step w w' -> swarm_reached w'.
