(* ===== verification/PeerSwarmProps.v ===== *)
(** * Requested blocks are waited for

    A block that the picker counts as requested is in the queue of a connection: no
    block is reserved for a connection that has gone or has given it up, and so each
    missing block stays available to the others. *)

From S2P Require Import Prelude Archive Md4Hash CTag Bitfield Packets ClientPackets PiecePicker PiecePickerBuckets PiecePickerInv PiecePickerView PiecePickerBlocks PiecePickerMarks PiecePickerCounts PiecePickerSteps PiecePick PiecePickProps PiecePickBounds PiecePickerTheorems PeerRequests PeerDownload PeerDownloadProps PeerSwarm.
From stdpp Require Import list gmap.
Open Scope Z_scope.

(** ** The peers of a block *)

Definition peers_at (p : piece_picker) (b : piece_block) : Z :=
  match blocks p (piece_index b) !! block_index b with Some info => bi_num_peers info | None => 0 end.

Lemma block_info_ok p i k info : blocks_ok p -> blocks p i !! k = Some info -> block_ok info.
Proof.
  intros Hb. unfold blocks. destruct (view p i) as [e|] eqn:E.
  - destruct (bk_entries p Hb i e E) as (_ & _ & Hok). intros Hk. by eapply Forall_lookup_1, Hk; apply Hok.
  - intros [-> _]%lookup_replicate. split_and!; cbn; [lia|lia|split; [lia|done]|done].
Qed.

Lemma not_requested info : block_ok info -> bi_state info <> state_requested -> bi_num_peers info = 0.
Proof. intros (H1 & H2 & _) Hs. destruct (decide (bi_num_peers info = 0)); [done|]. destruct Hs. apply H2. lia. Qed.

Lemma peers_at_bounds p b : blocks_ok p -> 0 <= peers_at p b.
Proof. intros Hb. unfold peers_at. destruct (_ !! _) eqn:E; [|done]. apply (block_info_ok p) in E as [? _]; [lia|done]. Qed.

Lemma num_peers_at p b : picker_ok p -> is_block p b = true -> num_peers b p = peers_at p b.
Proof.
  intros [_ Hb _] Hbl. apply is_block_lookup in Hbl as (i & k & q & old & -> & Hi & Hq & Hk & Hold & _); [|done].
  unfold peers_at. cbn. rewrite Hold. by apply (block_queries p i k q old).
Qed.

(** A block that is downloaded, or of a piece we have, is not requested. *)
Lemma downloaded_peers p b : picker_ok p -> is_block p b = true -> is_downloaded b p = true -> peers_at p b = 0.
Proof.
  intros [_ Hb _] Hbl Hd. apply is_block_lookup in Hbl as (i & k & q & old & -> & Hi & Hq & Hk & Hold & _); [|done].
  destruct (block_queries p i k q old Hb Hi Hq Hk Hold) as (_ & _ & E & _). rewrite E in Hd. unfold peers_at. cbn. rewrite Hold.
  pose proof (block_info_ok p i k old Hb Hold) as Hok. destruct (have q) eqn:Hh.
  - destruct (downloading q) eqn:Hdl; [by destruct (is_downloading p i k q) as (_ & _ & _ & _ & _ & _ & _ & _ & _ & _ & ?); congruence|].
    destruct (not_downloading p i q Hb Hq Hdl) as [Eb _]. rewrite Eb in Hold. by apply lookup_replicate in Hold as [-> _].
  - cbn in Hd. apply orb_true_iff in Hd as [Hd|Hd]; apply bool_decide_eq_true in Hd; apply not_requested; congruence.
Qed.

Lemma have_peers p b : picker_ok p -> is_block p b = true -> piece_have p (piece_index b) = true -> peers_at p b = 0.
Proof.
  intros H Hbl Hh. apply downloaded_peers; [done..|]. pose proof H as [_ Hb _].
  apply is_block_lookup in Hbl as (i & k & q & old & -> & Hi & Hq & Hk & Hold & Hph); [|done].
  destruct (block_queries p i k q old Hb Hi Hq Hk Hold) as (_ & _ & -> & _). cbn in Hh. rewrite (Hph i eq_refl) in Hh. by rewrite Hh.
Qed.

Lemma is_block_iff p b :
  blocks_ok p -> is_block p b = true <-> is_piece p (piece_index b) = true /\ is_Some (blocks p (piece_index b) !! block_index b).
Proof.
  intros Hb. unfold is_block. rewrite andb_true_iff, Nat.ltb_lt. split; intros [Hi Hk]; (split; [done|]).
  - apply is_piece_lookup in Hi as (Hi & q & Hq). pose proof (lookup_lt_Some _ _ _ Hq). apply blocks_lookup; [done|unfold num_pieces; lia|done].
  - apply lookup_lt_is_Some in Hk. unfold blocks in Hk. destruct (view _ _); [rewrite length_take in Hk; lia|by rewrite length_replicate in Hk].
Qed.

(** [p'] has the pieces and the blocks of [p]. *)
Record same_pieces (p p' : piece_picker) : Prop := {
  kept_ok : picker_ok p';
  kept_block : forall b, is_block p' b = is_block p b;
  kept_have : forall i, 0 <= i -> piece_have p' i = piece_have p i
}.

Lemma kept_refl p : picker_ok p -> same_pieces p p.
Proof. by split. Qed.

Lemma kept_trans p1 p2 p3 : same_pieces p1 p2 -> same_pieces p2 p3 -> same_pieces p1 p3.
Proof. intros [] []. split; [done|congruence|]. intros i Hi. by rewrite kept_have1, kept_have0. Qed.

Lemma same_wanted_have t t' i : same_wanted t' t -> piece_have t' i = piece_have t i.
Proof.
  intros (H & _). unfold wanted_at in H. unfold piece_have, piece_at. assert ((fun p => (have p, filtered p)) <$> m_piece_map t' !! Z.to_nat i = (fun p => (have p, filtered p)) <$> m_piece_map t !! Z.to_nat i) as E.
  { by rewrite <- !list_lookup_fmap, H. }
  destruct (m_piece_map t' !! _), (m_piece_map t !! _); cbn in E; congruence.
Qed.

Lemma same_wanted_pieces t t' : same_wanted t' t -> num_pieces t' = num_pieces t.
Proof. intros (H & _). apply (f_equal length) in H. unfold wanted_at in H. by rewrite !length_fmap in H. Qed.

Lemma blocks_kept p p' :
  picker_ok p -> picker_ok p' -> num_pieces p' = num_pieces p -> (forall i, length (blocks p' i) = length (blocks p i)) ->
  (forall i, 0 <= i -> piece_have p' i = piece_have p i) -> same_pieces p p'.
Proof.
  intros [_ Hb _] H' Hn Hl Hh. split; [done| |done]. intros b. apply eq_bool_prop_intro. rewrite !Is_true_true, !is_block_iff by (done || apply H').
  unfold is_piece. by rewrite Hn, !lookup_lt_is_Some, Hl.
Qed.

Lemma refines_kept t i k x t' : picker_ok t -> refines t i (<[k := x]> (blocks t i)) t' -> same_pieces t t'.
Proof.
  intros H Hr. pose proof (picker_ok_refines t i _ t' H Hr) as H'. pose proof Hr as [].
  apply blocks_kept; [done..|by apply same_wanted_pieces| |intros; by apply same_wanted_have].
  intros j. destruct (decide (j = i)) as [->|]; [by rewrite rf_blocks, length_insert|by rewrite rf_other].
Qed.

Lemma same_downloads_kept t t' : picker_ok t -> picker_ok t' -> same_downloads t' t -> same_pieces t t' /\ forall b, peers_at t' b = peers_at t b.
Proof.
  intros H H' Hs. pose proof (same_blocks t t' Hs) as Hb. split; [|intros b; unfold peers_at; by rewrite Hb].
  destruct Hs as (_ & _ & _ & _ & Hn & Hf). apply blocks_kept; try done; [intros i; by rewrite Hb|].
  intros i Hi. specialize (Hf i Hi). unfold flag_at in Hf. unfold piece_have. destruct (piece_at (m_piece_map t') i), (piece_at (m_piece_map t) i); cbn in Hf; congruence.
Qed.

Lemma clear_peer_kept peer t : picker_ok t -> same_pieces t (clear_peer peer t) /\ forall b, peers_at (clear_peer peer t) b = peers_at t b.
Proof.
  intros H. pose proof (clear_peer_ok peer t H) as H'.
  assert (forall i, blocks (clear_peer peer t) i = cleared_block peer <$> blocks t i) as Hb.
  { intros i. unfold blocks. rewrite clear_peer_view. change (blocks_in_piece (clear_peer peer t) i) with (blocks_in_piece t i).
    destruct (view t i); cbn [fmap option_fmap option_map e_blocks]; [by rewrite <- fmap_take|].
    rewrite fmap_replicate. f_equal. unfold cleared_block. by destruct (_ =? _). }
  split; [|intros b; unfold peers_at; rewrite Hb, list_lookup_fmap; destruct (blocks t (piece_index b) !! block_index b); cbn; [|done]; unfold cleared_block; by case_match].
  apply blocks_kept; try done. intros i. by rewrite Hb, length_fmap.
Qed.

(** What an operation on block [b] does to the numbers of peers. *)
Lemma run_peers p o b g :
  picker_ok p -> allowed o p = true -> block_effect o = Some (b, g) ->
  let p' := run keep_order o p in
  same_pieces p p' /\ (forall c, c <> b -> peers_at p' c = peers_at p c) /\
  (piece_have p (piece_index b) = true /\ peers_at p' b = 0 \/
   piece_have p (piece_index b) = false /\
   exists old, block_ok old /\ blocks p (piece_index b) !! block_index b = Some old /\ peers_at p b = bi_num_peers old /\ peers_at p' b = bi_num_peers (g old)).
Proof.
  intros H Ha He p'. pose proof (allowed_block o p b g Ha He) as Hbl. destruct (piece_have p (piece_index b)) eqn:Hh.
  { subst p'. rewrite (have_run keep_order p o b g) by done. split_and!; [by apply kept_refl|done|]. left. split; [done|by apply have_peers]. }
  destruct (run_refines keep_order p o b g H Ha He Hbl Hh) as (old & Hold & Hr). fold p' in Hr. split; [by eapply refines_kept|].
  pose proof Hr as []. split.
  - intros c Hc. unfold peers_at. destruct (decide (piece_index c = piece_index b)) as [E|E].
    + rewrite E, rf_blocks, list_lookup_insert_ne; [done|]. intros Hk. apply Hc. destruct b, c. cbn in *. congruence.
    + by rewrite rf_other.
  - right. split; [done|]. exists old. split_and!; [by eapply block_info_ok; [apply H|]|done| |]; unfold peers_at.
    + by rewrite Hold.
    + rewrite rf_blocks, list_lookup_insert_eq; [done|]. by eapply lookup_lt_Some.
Qed.

(** ** Accounts *)

(** How often a list of requests has block [b]. *)
Definition waited (b : piece_block) (l : list pending_block) : Z := Z.of_nat (length (filter (fun q => pb_block q = b) l)).

Lemma waiting_app b l1 l2 : waited b (l1 ++ l2) = waited b l1 + waited b l2.
Proof. unfold waited. rewrite filter_app, length_app. lia. Qed.

Lemma waiting_cons b q l : waited b (q :: l) = (if decide (pb_block q = b) then 1 else 0) + waited b l.
Proof. unfold waited. rewrite filter_cons. case_decide; cbn [length]; lia. Qed.

Lemma waiting_bounds b l : 0 <= waited b l <= Z.of_nat (length l).
Proof. unfold waited. pose proof (length_filter (fun q => pb_block q = b) l). lia. Qed.

Lemma waiting_perm b l l' : l ≡ₚ l' -> waited b l = waited b l'.
Proof. intros H. unfold waited. by rewrite H. Qed.

(** Requests that are the same but for what has arrived. *)
Lemma waiting_blocks b l l' : pb_block <$> l = pb_block <$> l' -> waited b l = waited b l'.
Proof.
  revert l'. induction l as [|q l IH]; intros [|q' l'] H; try done. injection H as H1 H2. rewrite !waiting_cons, H1. f_equal. by apply IH.
Qed.

(** A request as the code makes it. *)
Definition pending_ok (p : piece_picker) (q : pending_block) : Prop :=
  is_block p (pb_block q) = true /\ pb_timed_out q = false /\ pb_not_wanted q = false.

(** From [p0] to [p], no more peers are counted for a block than the other connections
    ([extra]) and this one, with the requests [l], account for. *)
Record accounted (extra : piece_block -> Z) (p0 : piece_picker) (l : list pending_block) (attached : bool) (p : piece_picker) : Prop := {
  ac_kept : same_pieces p0 p;
  ac_requests : Forall (pending_ok p0) l;
  ac_length : (length l <= 3)%nat;
  ac_gone : attached = false -> l = [];
  ac_peers : forall b, peers_at p b <= extra b + waited b l
}.

(** ** The operations of the picker *)

Section Operations.
Context (extra : piece_block -> Z) (Hextra : forall b, 0 <= extra b <= 15000) (p0 : piece_picker).

(** One more request for [b], if the picker accepts it. *)
Lemma mark_account random b peer speed l p :
  same_pieces p0 p -> is_block p b = true -> piece_have p (piece_index b) = false -> speed <> none -> (length l <= 20)%nat ->
  (forall c, peers_at p c <= extra c + waited c l) ->
  let '(ok, p') := mark_as_downloading random b peer speed p in
  same_pieces p0 p' /\ (forall i, 0 <= i -> piece_have p' i = piece_have p i) /\
  (forall c, peers_at p' c <= extra c + waited c l + (if decide (c = b) then (if ok then 1 else 0) else 0)).
Proof using Hextra.
  intros Hk Hb Hh Hs Hl Hp. pose proof (kept_ok _ _ Hk) as H. pose proof (waiting_bounds b l). pose proof (Hextra b). pose proof (Hp b).
  assert (allowed (Mark_as_downloading random b peer speed) p = true) as Ha.
  { cbn [allowed]. rewrite Hb, Hh, num_peers_at by done. rewrite bool_decide_eq_false_2 by done. cbn [negb andb]. apply Z.ltb_lt. lia. }
  pose proof (run_peers p _ b _ H Ha eq_refl) as (Hk' & Ho & [[? _]|[_ (old & Hok & Hl1 & E1 & E2)]]); [congruence|]. cbn [run] in *.
  pose proof Hb as (i & k & q & old' & -> & Hi & Hq & Hlt & Hold & Hph)%is_block_lookup; [|apply H]. cbn [piece_index block_index] in *.
  assert (old' = old) as -> by congruence. rewrite (Hph i eq_refl) in Hh.
  pose proof (mark_as_downloading_refines random i k peer speed q p old (ok_ordered p H) (ok_blocks p H) Hi Hq Hh Hlt Hs Hold ltac:(lia)) as Hr.
  destruct (mark_as_downloading _ _ _ _ _) as [ok p']. cbn [snd] in *. split_and!; [by eapply kept_trans|apply Hk'|].
  intros c. pose proof (Hp c). case_decide as Hc; [subst c|rewrite (Ho c Hc); lia]. rewrite E2.
  destruct (requested_block peer old) as [new|] eqn:Er; destruct Hr as [-> _]; cbn [default from_option id]; cbv iota.
  - unfold requested_block in Er. destruct (bi_state old); try done; injection Er as <-; cbn; lia.
  - lia.
Qed.

Lemma abort_account random b l p :
  same_pieces p0 p -> is_block p b = true -> (forall c, peers_at p c <= extra c + waited c l + (if decide (c = b) then 1 else 0)) ->
  same_pieces p0 (abort_download random b 0 p) /\ (forall c, peers_at (abort_download random b 0 p) c <= extra c + waited c l).
Proof using Hextra.
  intros Hk Hb Hp. pose proof (kept_ok _ _ Hk) as H.
  pose proof (run_peers p (Abort_download random b 0) b _ H Hb eq_refl) as (Hk' & Ho & Hcase). cbn [run] in *. split; [by eapply kept_trans|].
  intros c. pose proof (Hp c) as Hpc. pose proof (waiting_bounds c l). pose proof (Hextra c).
  case_decide as Hc; [subst c|by rewrite (Ho c Hc), Z.add_0_r in *].
  destruct Hcase as [[_ ->]|[_ (old & Hok & _ & E1 & E2)]]; [lia|]. rewrite E2. rewrite E1 in Hpc.
  pose proof (not_requested old Hok) as Hn. unfold aborted_block.
  destruct (bi_state old); try (rewrite Hn by done; lia). destruct (Z.ltb_spec 1 (bi_num_peers old)); cbn; lia.
Qed.

Lemma write_account random b peer l p :
  same_pieces p0 p -> is_block p b = true -> (forall c, c <> b -> peers_at p c <= extra c + waited c l) ->
  same_pieces p0 (snd (mark_as_writing random b peer p)) /\ (forall c, peers_at (snd (mark_as_writing random b peer p)) c <= extra c + waited c l).
Proof using Hextra.
  intros Hk Hb Hp. pose proof (kept_ok _ _ Hk) as H.
  pose proof (run_peers p (Mark_as_writing random b peer) b _ H Hb eq_refl) as (Hk' & Ho & Hcase). cbn [run] in *. split; [by eapply kept_trans|].
  intros c. pose proof (waiting_bounds c l). pose proof (Hextra c). destruct (decide (c = b)) as [->|Hc]; [|by rewrite (Ho c Hc); apply Hp].
  destruct Hcase as [[_ ->]|[_ (old & Hok & _ & E1 & ->)]]; [lia|]. pose proof (not_requested old Hok) as Hn. unfold written_block.
  destruct (bi_state old); cbn; try lia; (rewrite Hn by done; lia).
Qed.

Local Abbreviation holds := (fun d p => accounted extra p0 (entries d) (d_attached d) p).

(** Requests that are the same but for their order and what has arrived. *)
Lemma account_perm l l' a p : l' ≡ₚ l -> accounted extra p0 l a p -> accounted extra p0 l' a p.
Proof using.
  intros Hl []. split; [done|by rewrite Hl|by rewrite Hl|intros Ha; apply Permutation_nil_r; by rewrite Hl, ac_gone0|].
  intros b. by rewrite (waiting_perm b l' l).
Qed.

Lemma account_insert dq rq i q q' a p :
  dq !! i = Some q -> pb_block q' = pb_block q -> pb_timed_out q' = pb_timed_out q -> pb_not_wanted q' = pb_not_wanted q ->
  accounted extra p0 (dq ++ rq) a p -> accounted extra p0 (<[i := q']> dq ++ rq) a p.
Proof using.
  intros Hi H1 H2 H3 []. split; [done| |by rewrite length_app, length_insert, <- length_app| |].
  - apply Forall_app in ac_requests0 as [Hd Hr]. apply Forall_app. split; [|done]. apply Forall_insert; [done|].
    rewrite Forall_lookup in Hd. unfold pending_ok. rewrite H1, H2, H3. by apply (Hd i).
  - intros Ha. apply ac_gone0 in Ha. apply app_eq_nil in Ha as [-> _]. done.
  - intros b. rewrite (waiting_blocks b _ (dq ++ rq)); [done|]. rewrite !fmap_app, list_fmap_insert, H1. f_equal.
    apply list_insert_id. by rewrite list_lookup_fmap, Hi.
Qed.

Lemma entries_delete (dq rq : list pending_block) i q : dq !! i = Some q -> dq ++ rq ≡ₚ q :: (delete i dq ++ rq).
Proof using. intros Hi. change (q :: (delete i dq ++ rq)) with ((q :: delete i dq) ++ rq). apply Permutation_app_tail. by apply delete_Permutation. Qed.

Lemma waiting_delete c dq rq i q :
  dq !! i = Some q -> waited c (dq ++ rq) = waited c (delete i dq ++ rq) + (if decide (pb_block q = c) then 1 else 0).
Proof using.
  intros Hi. rewrite (waiting_perm c (dq ++ rq) (q :: (delete i dq ++ rq))) by (by apply entries_delete).
  rewrite waiting_cons. lia.
Qed.

(** A request that is not needed any more. *)
Lemma account_delete dq rq i q a p p' :
  dq !! i = Some q -> accounted extra p0 (dq ++ rq) a p -> same_pieces p0 p' ->
  (forall c, peers_at p' c <= extra c + waited c (delete i dq ++ rq)) -> accounted extra p0 (delete i dq ++ rq) a p'.
Proof using.
  intros Hi [] Hk Hp. pose proof (entries_delete dq rq i q Hi) as Hperm. split; [done| | | |done].
  - rewrite Hperm in ac_requests0. by apply Forall_cons in ac_requests0 as [_ ?].
  - rewrite Hperm in ac_length0. cbn in ac_length0. lia.
  - intros Ha. apply ac_gone0 in Ha. apply app_eq_nil in Ha as [-> _]. done.
Qed.

(** Two pickers with the same peers. *)
Lemma account_peers l a p p' : same_pieces p p' -> (forall b, peers_at p' b = peers_at p b) -> accounted extra p0 l a p -> accounted extra p0 l a p'.
Proof using. intros Hk Hp []. split; try done; [by eapply kept_trans|]. intros b. by rewrite Hp. Qed.

Lemma entry_at dq rq i q l a p : dq !! i = Some q -> l = dq ++ rq -> accounted extra p0 l a p -> is_block p (pb_block q) = true.
Proof using.
  intros Hi -> []. apply Forall_app in ac_requests0 as [Hd _]. rewrite Forall_lookup in Hd. destruct (Hd i q Hi) as [H _].
  by rewrite (kept_block _ _ ac_kept0).
Qed.

(** ** Requesting blocks *)

Context (s : surroundings) (Hshuffle : forall k l, s_shuffle s k l ≡ₚ l).

Definition pickable (b : piece_block) : Prop := is_block p0 b = true /\ 0 <= piece_index b /\ piece_have p0 (piece_index b) = false.

Lemma peer_speed_some d : d_speed (peer_speed s d) <> none.
Proof using. unfold peer_speed. cbn. repeat case_match; done. Qed.

Lemma add_request_account n b busy d p :
  pickable b -> (length (entries d) < 3)%nat -> holds d p ->
  let '(ok, d', p') := add_request s n b busy d p in
  holds d' p' /\ length (entries d') = (length (entries d) + (if ok then 1 else 0))%nat.
Proof using Hextra.
  intros (Hb & Hi & Hh) Hl H. pose proof H as []. unfold add_request.
  destruct (negb (d_attached d)) eqn:Hatt; cbn [orb]; [split; [done|lia]|].
  destruct (t_upload_mode s); [split; [done|lia]|]. destruct (d_disconnecting d); [split; [done|lia]|].
  destruct (busy && _); [split; [done|change (entries (peer_speed s d)) with (entries d); lia]|].
  pose proof (mark_account (s_random s n) b (d_peer (peer_speed s d)) (d_speed (peer_speed s d)) (entries d) p ac_kept0) as Hm.
  rewrite (kept_block _ _ ac_kept0), (kept_have _ _ ac_kept0) in Hm by done. specialize (Hm Hb Hh (peer_speed_some d) ltac:(lia) ac_peers0).
  destruct (mark_as_downloading _ _ _ _ _) as [ok p']. destruct Hm as (Hk & _ & Hp). destruct ok.
  - set (q := pending_block_new _ _ _). assert (entries (set_queues (d_request_queue (peer_speed s d) ++ [q]) (d_download_queue (peer_speed s d)) (peer_speed s d)) = entries d ++ [q]) as ->
      by (unfold entries; cbn; by rewrite app_assoc).
    split; [|rewrite length_app; cbn; lia]. split; [done| | | |].
    + apply Forall_app. split; [done|]. by apply Forall_singleton.
    + rewrite length_app. cbn. lia.
    + cbn. apply negb_false_iff in Hatt. congruence.
    + intros c. rewrite waiting_app, waiting_cons. specialize (Hp c). change (waited c []) with 0. change (pb_block q) with b.
      destruct (decide (c = b)), (decide (b = c)); try congruence; lia.
  - change (entries (peer_speed s d)) with (entries d). split; [|lia]. split; try done. intros c. specialize (Hp c). case_decide; lia.
Qed.

Lemma request_picked_account dont l : forall n busy d p,
  Forall pickable l -> Forall pickable busy -> (length busy <= 1)%nat -> (length (entries d) + length l <= 3)%nat -> holds d p ->
  let '(busy', d', p') := request_picked s dont l n busy d p in
  holds d' p' /\ Forall pickable busy' /\ (length busy' <= 1)%nat.
Proof using Hextra.
  induction l as [|b l IH]; intros n busy d p Hl Hb Hlen Hroom H; cbn [request_picked]; [done|]. apply Forall_cons in Hl as [Hbl Hl]. cbn [length] in Hroom.
  destruct (0 <? num_peers b p).
  - destruct (n <=? 0); [done|]. destruct (dont || _) eqn:Hd; [done|]. apply orb_false_iff in Hd as [_ Hd%Nat.leb_gt]. unfold max_busy_blocks in Hd.
    apply IH; try done; [by apply Forall_app_2; [|apply Forall_singleton]|rewrite length_app; cbn; lia|lia].
  - destruct (requesting b d); [apply IH; try done; lia|].
    pose proof (add_request_account (length l) b false d p Hbl ltac:(lia) H) as Ha. destruct (add_request _ _ _ _ _ _) as [[ok d'] p']. destruct Ha as [H' Hlen'].
    apply IH; try done. destruct ok; lia.
Qed.

Lemma request_busy_account l : forall d p,
  Forall pickable l -> (length (entries d) + length l <= 3)%nat -> holds d p -> let '(d', p') := request_busy s l d p in holds d' p'.
Proof using Hextra.
  induction l as [|b l IH]; intros d p Hl Hroom H; cbn [request_busy]; [done|]. apply Forall_cons in Hl as [Hbl Hl]. cbn [length] in Hroom.
  pose proof (add_request_account (length l) b true d p Hbl ltac:(lia) H) as Ha. destruct (add_request _ _ _ _ _ _) as [[ok d'] p']. destruct Ha as [H' Hlen'].
  apply IH; try done. destruct ok; lia.
Qed.

Lemma wanted_pickable p pieces peer b : same_pieces p0 p -> wanted p pieces peer b -> pickable b.
Proof using.
  intros Hk (q & info & Hi & Hq & _ & Hh & Hb & _). pose proof (kept_ok _ _ Hk) as H. unfold pickable.
  rewrite <- (kept_block _ _ Hk), <- (kept_have _ _ Hk) by done. split_and!; [|done|unfold piece_have; by rewrite Hq].
  apply is_block_iff; [apply H|]. split; [|by eexists]. unfold is_piece. apply lookup_lt_Some in Hq. apply andb_true_iff. unfold num_pieces. split; [lia|].
  apply Z.ltb_lt. lia.
Qed.

Lemma request_block_account d p : holds d p -> let '(d', p') := request_block s d p in holds d' p'.
Proof using Hextra Hshuffle.
  intros H. unfold request_block. destruct (d_disconnecting d); [done|]. destruct (negb _ || _ || _ || _); [done|].
  set (n := Z.of_nat desired_queue_size - _ - _). destruct (Z.leb_spec n 0) as [|Hn]; [done|].
  set (d1 := peer_speed s d). pose proof (ac_kept _ _ _ _ _ H) as Hk.
  pose proof (pick_pieces_collects (s_shuffle s) Hshuffle (s_random s 0) (s_random s 1) (d_remote_pieces d1) [] n 0 (d_peer d1) (d_speed d1) (picker_options s) []
    (t_num_peers s) p (kept_ok _ _ Hk) ltac:(lia) ltac:(done)) as Hp.
  pose proof (pick_pieces_budget (s_shuffle s) (s_random s 0) (s_random s 1) (d_remote_pieces d1) [] n 0 (d_peer d1) (d_speed d1) (picker_options s) []
    (t_num_peers s) p ltac:(done) ltac:(by left)) as Hbud.
  destruct (pick_pieces _ _ _ _ _ _ _ _ _ _ _ _ _) as [p' l]. destruct Hp as (Hok & Hsame & new & -> & Hw). cbn [snd length app] in *.
  destruct (same_downloads_kept p p' (kept_ok _ _ Hk) Hok Hsame) as [Hk' Hpe].
  assert (holds d1 p') as H1 by (by eapply (account_peers (entries d)); [..|apply H]).
  assert (Forall pickable new) as Hpick by (eapply Forall_impl; [done|]; intros b; by eapply wanted_pickable).
  set (dont := _ || _).
  pose proof (request_picked_account dont new n [] d1 p' Hpick ltac:(done) ltac:(cbn; lia)) as Hrp.
  destruct (request_picked _ _ _ _ _ _ _) as [[busy d2] p2]. destruct Hrp as (H2 & Hb2 & Hl2); [|done|].
  { change (entries d1) with (entries d). unfold entries. rewrite length_app. unfold n, desired_queue_size in *. lia. }
  destruct (Nat.eqb_spec (length (d_download_queue d2) + length (d_request_queue d2)) 0) as [Hz|]; [|done].
  apply request_busy_account; try done. unfold entries. rewrite length_app. lia.
Qed.

(** ** Sending requests *)

Lemma seed_have p i : picker_ok p -> is_seed p = true -> is_piece p i = true -> piece_have p i = true.
Proof using.
  intros [_ _ Hc] Hs%Z.eqb_eq (Hi & q & Hq)%is_piece_lookup. unfold piece_have. rewrite Hq. destruct (have q) eqn:Hh; [done|].
  rewrite (ct_have p Hc) in Hs. unfold count_if, num_pieces in Hs. apply Nat2Z.inj in Hs.
  assert (length (wanted_at (m_piece_map p)) = length (m_piece_map p)) as E by (unfold wanted_at; by rewrite length_fmap).
  pose proof (filter_length w_have (wanted_at (m_piece_map p))) as Hall. rewrite E in Hall.
  assert (wanted_at (m_piece_map p) !! Z.to_nat i = Some (false, filtered q)) as Hl.
  { unfold wanted_at. rewrite list_lookup_fmap. unfold piece_at in Hq. by rewrite Hq, <- Hh. }
  assert (List.In (false, filtered q) (List.filter (fun x => negb (w_have x)) (wanted_at (m_piece_map p)))) as Hin.
  { apply filter_In. split; [|done]. apply list_elem_of_In. by apply list_elem_of_lookup_2 in Hl. }
  destruct (List.filter (fun x => negb (w_have x)) _); [done|]. cbn in Hall. lia.
Qed.

(** The account without the first request of [q :: l], when no peer is counted for it. *)
Lemma account_drop q l a p p' :
  accounted extra p0 (q :: l) a p -> same_pieces p0 p' -> (forall c, peers_at p' c <= extra c + waited c l) -> accounted extra p0 l a p'.
Proof using.
  intros [] Hk Hp. split; try done; [by apply Forall_cons in ac_requests0 as [_ ?]|cbn in *; lia|]. intros Ha. by apply ac_gone0 in Ha.
Qed.

Lemma drop_peers q l p :
  accounted extra p0 (q :: l) true p -> peers_at p (pb_block q) = 0 -> forall c, peers_at p c <= extra c + waited c l.
Proof using Hextra.
  intros [] H0 c. pose proof (ac_peers0 c) as Hc. rewrite waiting_cons in Hc. pose proof (Hextra c). pose proof (waiting_bounds c l).
  case_decide as E; [subst c|]; lia.
Qed.

Lemma head_block q l a p : accounted extra p0 (q :: l) a p -> is_block p (pb_block q) = true.
Proof using. intros []. apply Forall_cons in ac_requests0 as [[H _] _]. by rewrite (kept_block _ _ ac_kept0). Qed.

Lemma abort_head random q l a p : accounted extra p0 (q :: l) a p -> accounted extra p0 l a (abort_download random (pb_block q) 0 p).
Proof using Hextra.
  intros H. pose proof H as []. destruct (abort_account random (pb_block q) l p ac_kept0 (head_block q l a p H)) as [Hk Hp].
  - intros c. pose proof (ac_peers0 c) as Hc. rewrite waiting_cons in Hc. destruct (decide (pb_block q = c)), (decide (c = pb_block q)); try congruence; lia.
  - by eapply account_drop.
Qed.

Lemma send_requests_account rq : forall dq rp d p,
  d_attached d = true -> accounted extra p0 (dq ++ rq) true p -> let '(d', p') := send_requests s rq dq rp d p in holds d' p'.
Proof using Hextra.
  assert (forall rq dq rp d p, d_attached d = true -> accounted extra p0 (dq ++ rq) true p ->
    holds (set_queues rq dq (if rp_empty rp then d else log_action (ask_parts rp) d)) p) as Hend.
  { intros rq' dq rp d p Hd H. destruct (rp_empty rp); unfold entries; cbn; by rewrite Hd. }
  induction rq as [|q rq IH]; intros dq rp d p Hd H; cbn [send_requests]; [by apply Hend|].
  destruct (length dq <? _)%nat; [|by apply Hend].
  assert (accounted extra p0 (q :: (dq ++ rq)) true p) as Hq by (eapply account_perm; [apply Permutation_middle|done]).
  destruct (is_seed p) eqn:Hs.
  { pose proof (head_block _ _ _ _ Hq) as Hb. pose proof (ac_kept _ _ _ _ _ Hq) as Hk. apply IH; [done|]. eapply account_drop; [done..|]. eapply drop_peers; [done|].
    apply have_peers; [apply Hk|done|]. apply seed_have; [apply Hk|done|]. apply is_block_iff in Hb as [? _]; [done|]. apply (kept_ok _ _ Hk). }
  destruct (is_finished _ _ || _); [apply IH; [done|by apply abort_head]|].
  assert (accounted extra p0 ((dq ++ [q]) ++ rq) true p) as Hmove by (by rewrite <- app_assoc).
  destruct (rp_full _); by apply IH.
Qed.

Lemma send_block_requests_account d p : holds d p -> let '(d', p') := send_block_requests s d p in holds d' p'.
Proof using Hextra.
  intros H. unfold send_block_requests. destruct (s_upload_seq s); [done|]. destruct (d_attached d) eqn:Ha; [|done].
  cbn [negb orb]. destruct (d_disconnecting d); [done|]. destruct (negb _); [done|]. destruct (_ || _); [done|].
  apply send_requests_account; [done|]. by rewrite <- Ha.
Qed.

(** ** Giving up *)

Lemma abort_each_account l : forall l' a p, accounted extra p0 (l ++ l') a p -> accounted extra p0 l' a (abort_each s l p).
Proof using Hextra. induction l as [|q l IH]; intros l' a p H; cbn [abort_each]; [done|]. apply IH. by apply abort_head. Qed.

Lemma wanted_requests_all l : Forall (pending_ok p0) l -> filter (fun q => pb_timed_out q = false /\ pb_not_wanted q = false) l = l.
Proof using. induction 1 as [|q l (H1 & H2 & H3) _ IH]; [done|]. by rewrite filter_cons_True, IH. Qed.

Lemma abort_all_account d p : holds d p -> let '(d', p') := abort_all_requests s d p in accounted extra p0 [] false p' /\ holds d' p'.
Proof using Hextra.
  intros H. unfold abort_all_requests. cbv zeta. destruct (d_attached d) eqn:Ha.
  2:{ cbv beta in H. rewrite Ha in H. rewrite (ac_gone _ _ _ _ _ H eq_refl) in H. split; [done|]. cbn. by rewrite Ha. }
  rewrite wanted_requests_all.
  2:{ pose proof (ac_requests _ _ _ _ _ H) as Hr. apply Forall_app in Hr as [Hr _]. by rewrite reverse_Permutation. }
  assert (accounted extra p0 [] (d_attached d) (abort_each s (reverse (d_request_queue d)) (abort_each s (reverse (d_download_queue d)) p))) as E.
  { apply abort_each_account. rewrite app_nil_r. apply abort_each_account. eapply account_perm; [|exact H]. unfold entries. by rewrite !reverse_Permutation. }
  split; [|exact E]. destruct E. by split.
Qed.

Lemma disconnect_account d p : holds d p -> let '(d', p') := disconnect_download s d p in holds d' p'.
Proof using Hextra.
  intros H. unfold disconnect_download. destruct (d_disconnecting d); [done|]. destruct (d_attached d) eqn:Ha.
  - pose proof (abort_all_account d p H) as Hab. destruct (abort_all_requests s d p) as [d' p'] eqn:E. destruct Hab as [Hab _].
    unfold abort_all_requests in E. injection E as <- <-. done.
  - cbv beta in H. rewrite Ha in H. change (accounted extra p0 (entries d) false p). done.
Qed.

Lemma cancel_account d p : holds d p -> let '(d', p') := cancel_all_requests s d p in holds d' p'.
Proof using Hextra.
  intros H. unfold cancel_all_requests. destruct (negb _); [done|]. unfold entries. cbn. rewrite app_nil_r. apply abort_each_account.
  eapply account_perm; [|exact H]. unfold entries. by rewrite reverse_Permutation, Permutation_app_comm.
Qed.

Lemma filter_split {A} (f : A -> bool) (l : list A) : l ≡ₚ filter (fun x => f x = true) l ++ filter (fun x => f x = false) l.
Proof using.
  induction l as [|x l IH]; [done|]. rewrite !filter_cons. destruct (f x) eqn:E; repeat case_decide; try congruence; rewrite IH at 1; [done|apply Permutation_middle].
Qed.

Lemma expired_account d p : holds d p -> let '(d', p') := abort_expired_requests s d p in holds d' p'.
Proof using Hextra.
  intros H. unfold abort_expired_requests. destruct (negb _); [done|]. cbv zeta. unfold entries. cbn. apply abort_each_account, abort_each_account.
  eapply account_perm; [|exact H]. unfold entries. rewrite (filter_split (request_expired s) (d_download_queue d)) at 3. rewrite (filter_split (request_expired s) (d_request_queue d)) at 3. solve_Permutation.
Qed.

(** ** Receiving parts *)

Lemma find_pending_lookup b l i q : find_pending b l = Some (i, q) -> l !! i = Some q.
Proof using. intros H. by apply list_find_Some in H as [? _]. Qed.

Lemma block_buffer_account i q d p :
  d_download_queue d !! i = Some q -> holds d p -> let '(_, d', p') := block_buffer s i q d p in holds d' p'.
Proof using Hextra.
  intros Hi H. unfold block_buffer. destruct (pb_buffer q); [done|]. unfold allocate_receive_buffer. destruct (s_memory s).
  - unfold entries. cbn. by eapply account_insert.
  - set (d1 := set_buffers _ _ _ d). pose proof (disconnect_account d1 p H) as Hd. by destruct (disconnect_download s d1 p) as [d2 p2].
Qed.

Lemma receive_data_account n : forall d p d' p', holds d p -> receive_data s n d p = Some (d', p') -> holds d' p'.
Proof using Hextra.
  induction n as [|n IH]; intros d p d' p' H E; cbn [receive_data] in E; [done|].
  assert (exists ok d1, has_download_bandwidth s d = (ok, d1) /\ holds d1 p) as (ok & d1 & E1 & H1).
  { unfold has_download_bandwidth. destruct (_ && _); [destruct (_ =? _)|]; by eexists _, _. }
  rewrite E1 in E. destruct (negb ok); [by simplify_eq|].
  assert (exists ok d2, can_read s d1 = (ok, d2) /\ holds d2 p) as (ok2 & d2 & E2 & H2).
  { unfold can_read. destruct (negb _); [|destruct (negb _)]; by eexists _, _. }
  rewrite E2 in E. destruct (negb ok2); [by simplify_eq|]. destruct (negb (d_attached d2)); [by simplify_eq|].
  destruct (find_pending _ _) as [[i q]|] eqn:Ef; [|unfold skip_data in E; destruct (_ =? _); by simplify_eq].
  pose proof (block_buffer_account i q d2 p (find_pending_lookup _ _ _ _ Ef) H2) as Hb.
  destruct (block_buffer s i q d2 p) as [[[id|] d3] p3]; [|by simplify_eq].
  destruct (0 <? _); [by simplify_eq|]. destruct (d_disconnecting d3); [by simplify_eq|]. destruct (_ || _); [by simplify_eq|].
  destruct (d_bw_seq d3); [by eapply IH|]. unfold base_do_read in E. repeat case_match; by simplify_eq.
Qed.

Lemma do_read_account n d p d' p' : holds d p -> do_read s n d p = Some (d', p') -> holds d' p'.
Proof using Hextra.
  intros H. unfold do_read. destruct (d_disconnecting d) eqn:?; [by intros; simplify_eq|]. destruct (_ || _) eqn:?; [by intros; simplify_eq|].
  destruct (d_bw_seq d); [by apply receive_data_account|]. unfold base_do_read. repeat case_match; intros; by simplify_eq.
Qed.

Lemma finish_block_account i q d p : d_download_queue d !! i = Some q -> holds d p -> let '(d', p') := finish_block s i q d p in holds d' p'.
Proof using Hextra.
  intros Hi H. unfold finish_block. cbv zeta. set (d1 := set_buffers _ _ _ _). set (piece := r_piece _).
  pose proof (write_account (s_random s 2) (pb_block q) (d_peer d1) (delete i (d_download_queue d) ++ d_request_queue d) p (ac_kept _ _ _ _ _ H)) as Hw.
  destruct Hw as [Hk Hp].
  - by apply (entry_at (d_download_queue d) (d_request_queue d) i q (entries d) (d_attached d)).
  - intros c Hc. pose proof (ac_peers _ _ _ _ _ H c) as Hpc. unfold entries in Hpc. rewrite (waiting_delete c _ _ i q Hi), decide_False in Hpc by done. lia.
  - destruct (mark_as_writing _ _ _ _) as [ok p']. cbn [snd] in *.
    assert (accounted extra p0 (delete i (d_download_queue d) ++ d_request_queue d) (d_attached d) p') as Ha by (by eapply account_delete).
    by destruct (_ && _).
Qed.

Lemma part_received_account n i q d p d' p' :
  d_download_queue d !! i = Some q -> holds d p -> part_received s n i q d p = Some (d', p') -> holds d' p'.
Proof using Hextra Hshuffle.
  intros Hi H. unfold part_received. destruct (_ =? _); [|by apply do_read_account]. cbv zeta.
  set (q' := complete _ q). set (d1 := set_queues _ _ d).
  assert (holds d1 p) as H1 by (unfold d1, entries; cbn; by eapply account_insert).
  assert (d_download_queue d1 !! i = Some q') as Hi1 by (apply list_lookup_insert_eq; by eapply lookup_lt_Some).
  assert (exists d2 p2, (if completed q' then finish_block s i q' d1 p else (d1, p)) = (d2, p2) /\ holds d2 p2) as (d2 & p2 & -> & H2).
  { pose proof (finish_block_account i q' d1 p Hi1 H1) as Hf. destruct (completed q'); [|by eexists _, _].
    destruct (finish_block s i q' d1 p) as [d2 p2]. by eexists _, _. }
  set (d3 := set_bits _ _ _ _ d2). pose proof (request_block_account d3 p2 H2) as Hr. destruct (request_block s d3 p2) as [d4 p4].
  pose proof (send_block_requests_account d4 p4 Hr) as Hs. destruct (send_block_requests s d4 p4) as [d5 p5]. by apply do_read_account.
Qed.

Lemma skip_data_account d p : holds d p -> holds (skip_data d) p.
Proof using. intros H. unfold skip_data. by destruct (_ =? _). Qed.

Lemma on_receive_data_account n error data d p d' p' : holds d p -> on_receive_data s n error data d p = Some (d', p') -> holds d' p'.
Proof using Hextra Hshuffle.
  intros H. unfold on_receive_data. destruct (d_reading d) as [[|id offset len|]|]; try (intros; by simplify_eq). cbv zeta.
  set (d1 := set_reading None _). assert (holds d1 p) as H1 by done. destruct error.
  { pose proof (disconnect_account d1 p H1) as Hd. intros [= E]. by rewrite E in Hd. }
  destruct (d_disconnecting d1); [intros; by simplify_eq|]. set (d2 := set_bits _ _ _ _ _). assert (holds d2 p) as H2 by done.
  destruct (_ || _); [intros; by simplify_eq|]. destruct (find_pending _ _) as [[i q]|] eqn:Ef.
  2:{ intros [= <- <-]. by apply skip_data_account. }
  pose proof (find_pending_lookup _ _ _ _ Ef) as Hi. destruct (is_downloaded _ _) eqn:Hdl; [|by apply part_received_account].
  intros [= <- <-]. apply skip_data_account. unfold entries. cbn [d_download_queue d_request_queue set_queues d_attached].
  apply (account_delete (d_download_queue d2) (d_request_queue d2) i q (d_attached d2) p p Hi H2); [apply H2|].
  intros c. pose proof (ac_peers _ _ _ _ _ H2 c) as Hpc. unfold entries in Hpc. rewrite (waiting_delete c _ _ i q Hi) in Hpc.
  pose proof (Hextra c). pose proof (waiting_bounds c (delete i (d_download_queue d2) ++ d_request_queue d2)).
  case_decide as Ec; [|lia]. subst c. rewrite downloaded_peers; [lia|apply (ac_kept _ _ _ _ _ H2)| |done].
  by apply (entry_at (d_download_queue d2) (d_request_queue d2) i q (entries d2) (d_attached d2)).
Qed.

Lemma on_skip_data_account n error len d p d' p' : holds d p -> on_skip_data s n error len d p = Some (d', p') -> holds d' p'.
Proof using Hextra Hshuffle.
  intros H. unfold on_skip_data. destruct (d_reading d) as [[| |]|]; try (intros; by simplify_eq). cbv zeta.
  set (d1 := set_reading None d). assert (holds d1 p) as H1 by done. destruct error.
  { pose proof (disconnect_account d1 p H1) as Hd. intros [= E]. by rewrite E in Hd. }
  destruct (d_disconnecting d1); [intros; by simplify_eq|]. set (d2 := set_recv _ _ d1). assert (holds d2 p) as H2 by done.
  destruct (_ <? _); [intros [= <- <-]; by apply skip_data_account|]. set (d3 := set_bits _ _ _ _ d2). assert (holds d3 p) as H3 by done.
  destruct (do_read s n d3 p) as [[d4 p4]|] eqn:E; [|done]. cbn. apply do_read_account in E; [|done].
  pose proof (request_block_account d4 p4 E) as Hr. destruct (request_block s d4 p4) as [d5 p5].
  pose proof (send_block_requests_account d5 p5 Hr) as Hs. intros [= E']. by rewrite E' in Hs.
Qed.

(** Every handler keeps the account. *)
Lemma perform_account n o d p d' p' : holds d p -> perform_download s n o d p = Some (d', p') -> holds d' p'.
Proof using Hextra Hshuffle.
  intros H. destruct o; cbn [perform_download].
  - unfold on_accept_upload. pose proof (request_block_account d p H) as Hr. destruct (request_block s d p) as [d1 p1].
    pose proof (send_block_requests_account d1 p1 Hr) as Hs. intros [= E]. by rewrite E in Hs.
  - unfold on_sending_part. destruct (d_reading d) as [[| |]|]; try (intros; by simplify_eq). by apply receive_data_account.
  - by apply on_receive_data_account.
  - by apply on_skip_data_account.
  - unfold assign_download. by apply do_read_account.
  - unfold on_other_packet. destruct (d_reading d) as [[| |]|]; try (intros; by simplify_eq). by apply do_read_account.
  - by apply do_read_account.
  - pose proof (cancel_account d p H) as Hc. intros [= E]. by rewrite E in Hc.
  - pose proof (expired_account d p H) as Hc. destruct (abort_expired_requests s d p) as [d1 p1]. by intros [= <- <-].
  - pose proof (disconnect_account d p H) as Hc. intros [= E]. by rewrite E in Hc.
Qed.
End Operations.

(** ** Whole pieces *)

Lemma blocks_length p i : blocks_ok p -> is_piece p i = true -> length (blocks p i) = blocks_in_piece p i.
Proof.
  intros Hb (Hi & q & Hq)%is_piece_lookup. pose proof (lookup_lt_Some _ _ _ Hq) as Hn.
  pose proof (blocks_in_piece_le p i Hb ltac:(unfold num_pieces; lia)). unfold blocks.
  destruct (view p i) as [e|] eqn:E; [|by rewrite length_replicate]. rewrite length_take, (view_length p i e (bk_store p Hb) E). lia.
Qed.

Lemma fresh_peers p b n : blocks p (piece_index b) = replicate n block_info_new -> peers_at p b = 0.
Proof. intros E. unfold peers_at. rewrite E. destruct (replicate _ _ !! _) eqn:Hl; [|done]. by apply lookup_replicate in Hl as [-> _]. Qed.

(** The blocks of a piece that starts again have no peers. *)
Lemma restore_kept random i p :
  picker_ok p -> is_piece p i = true ->
  let p' := restore_piece random i p in
  same_pieces p p' /\ forall b, peers_at p' b = if piece_index b =? i then 0 else peers_at p b.
Proof.
  intros H Hpi p'. pose proof H as [Ho Hb _]. pose proof (is_piece_lookup p i Hpi) as (Hi & q & Hq).
  pose proof (restore_piece_refines random i q p Ho Hb Hi Hq) as Hr. fold p' in Hr. pose proof (picker_ok_refines p i _ p' H Hr) as H'.
  pose proof Hr as []. split.
  - apply blocks_kept; [done..|by apply same_wanted_pieces| |intros; by apply same_wanted_have].
    intros j. destruct (decide (j = i)) as [->|]; [|by rewrite rf_other]. by rewrite rf_blocks, length_replicate, blocks_length.
  - intros b. destruct (Z.eqb_spec (piece_index b) i) as [E|E].
    + eapply fresh_peers. by rewrite E.
    + unfold peers_at. by rewrite rf_other.
Qed.

Lemma we_have_view i p x : picker_ok p -> is_piece p i = true ->
  m_blocks_per_piece (we_have i p) = m_blocks_per_piece p /\ m_blocks_in_last_piece (we_have i p) = m_blocks_in_last_piece p /\
  num_pieces (we_have i p) = num_pieces p /\ view (we_have i p) x = if decide (x = i) then None else view p x.
Proof.
  intros [Ho Hb Hc] (Hi & q & Hq)%is_piece_lookup. destruct (we_have_frame i p q Ho Hi Hq) as [_ Hre].
  apply rebucketed_downloads in Hre. pose proof (stop_download_changed i q p Hb Hi Hq) as []. set (t1 := stop_download i q p) in *.
  assert (same_downloads (we_have i p) t1 \/ same_downloads (we_have i p) (mark_have i q t1)) as [(H1 & H2 & H3 & H4 & H5 & _)|(H1 & H2 & H3 & H4 & H5 & _)]
    by (destruct (have q); [by left|by right]).
  - split_and!; try congruence. destruct (view_same t1 (we_have i p) H1 H2 H3) as [-> _]. apply ch_view.
  - destruct (mark_have_downloads i q t1) as (D1 & D2 & D3 & D4). destruct (mark_have_same i q t1) as [_ Hm].
    assert (num_pieces (mark_have i q t1) = num_pieces t1) as Hn by (unfold num_pieces; by rewrite Hm, length_alter_piece).
    split_and!; try congruence. destruct (view_same t1 (we_have i p)) as [-> _]; try congruence. apply ch_view.
Qed.

Lemma we_have_peers i p :
  picker_ok p -> is_piece p i = true ->
  let p' := we_have i p in
  picker_ok p' /\ (forall b, is_block p' b = is_block p b) /\ forall b, peers_at p' b <= peers_at p b.
Proof.
  intros H Hpi p'. pose proof (is_piece_lookup p i Hpi) as (Hi & _). split_and!; [by apply we_have_ok|..].
  - intros b. destruct (we_have_view i p 0 H Hpi) as (E1 & E2 & E3 & _). subst p'. unfold is_block, is_piece, blocks_in_piece. by rewrite E1, E2, E3.
  - intros b. destruct (we_have_view i p (piece_index b) H Hpi) as (E1 & E2 & E3 & E4).
    assert (blocks_in_piece p' (piece_index b) = blocks_in_piece p (piece_index b)) as E by (unfold blocks_in_piece, p'; by rewrite E1, E2, E3).
    destruct (decide (piece_index b = i)).
    + rewrite (fresh_peers p' b (blocks_in_piece p' (piece_index b))); [apply peers_at_bounds, H|]. unfold blocks. unfold p' at 1. by rewrite E4.
    + unfold peers_at, blocks. unfold p' at 1. by rewrite E4, E.
Qed.

(** ** Restoring a piece *)

Section Restoring.
Context (p0 : piece_picker) (index : Z) (Hindex : 0 <= index) (Hhave : piece_have p0 index = false).
Context (T : piece_block -> Z) (HT : forall c, 0 <= T c <= 15000).

(** The blocks of the piece have the peers of the requests [done] that were marked again. *)
Definition restored (done : list pending_block) (c : piece_block) : Z := if piece_index c =? index then waited c done else T c.

Lemma restored_bounds done c : Z.of_nat (length done) <= 15000 -> 0 <= restored done c <= 15000.
Proof using HT. intros H. unfold restored. pose proof (waiting_bounds c done). pose proof (HT c). destruct (_ =? _); lia. Qed.

Lemma restore_queue_account s l : forall done d p d' p',
  Forall (pending_ok p0) l -> Z.of_nat (length (done ++ l)) <= 15000 -> same_pieces p0 p -> (forall c, peers_at p c <= restored done c) ->
  restore_queue s index l d p = (d', p') ->
  entries d' = entries d /\ d_download_queue d' = d_download_queue d /\ d_request_queue d' = d_request_queue d /\ d_attached d' = d_attached d /\
  same_pieces p0 p' /\ forall c, peers_at p' c <= restored (done ++ l) c.
Proof using Hindex Hhave HT.
  induction l as [|q l IH]; intros done d p d' p' Hl Hlen Hk Hp E; cbn [restore_queue] in E.
  { simplify_eq. by rewrite app_nil_r. }
  apply Forall_cons in Hl as [(Hb & _) Hl]. replace (done ++ q :: l) with ((done ++ [q]) ++ l) in * by (by rewrite <- app_assoc).
  rewrite !length_app in Hlen. cbn in Hlen. destruct (Z.eqb_spec (piece_index (pb_block q)) index) as [Eq|Ne].
  - set (d1 := peer_speed s d) in *.
    pose proof (mark_account (restored done) (fun c => restored_bounds done c ltac:(lia)) p0 (s_random s (length l)) (pb_block q) (d_peer d1) (d_speed d1) [] p Hk) as Hm.
    rewrite (kept_block _ _ Hk), (kept_have _ _ Hk), Eq in Hm by lia.
    specialize (Hm Hb Hhave (peer_speed_some s d) ltac:(cbn; lia)). destruct (mark_as_downloading _ _ _ _ _) as [ok p1]. cbn [snd] in E.
    destruct Hm as (Hk1 & _ & Hp1). { intros c. specialize (Hp c). change (waited c []) with 0. lia. }
    apply (IH (done ++ [q]) d1 p1 d' p'); try done; [rewrite !length_app; cbn; lia|]. intros c. specialize (Hp1 c). change (waited c []) with 0 in Hp1.
    unfold restored in *. rewrite waiting_app, waiting_cons. change (waited c []) with 0.
    destruct (Z.eqb_spec (piece_index c) index), (decide (c = pb_block q)), (decide (pb_block q = c)); try congruence; destruct ok; lia.
  - apply (IH (done ++ [q]) d p d' p'); try done; [rewrite !length_app; cbn; lia|]. intros c. specialize (Hp c).
    unfold restored in *. rewrite waiting_app, waiting_cons. change (waited c []) with 0.
    destruct (Z.eqb_spec (piece_index c) index), (decide (pb_block q = c)); try congruence; lia.
Qed.

Lemma restore_connection_account s done d p d' p' :
  Forall (pending_ok p0) (entries d) -> Z.of_nat (length (done ++ entries d)) <= 15000 -> same_pieces p0 p -> (forall c, peers_at p c <= restored done c) ->
  restore_connection s index d p = (d', p') ->
  entries d' = entries d /\ d_attached d' = d_attached d /\ same_pieces p0 p' /\ forall c, peers_at p' c <= restored (done ++ entries d) c.
Proof using Hindex Hhave HT.
  intros Hr Hlen Hk Hp E. unfold restore_connection in E. pose proof Hr as [Hd Hq]%Forall_app. rewrite (wanted_requests_all p0) in E by done.
  destruct (restore_queue s index (d_download_queue d) d p) as [d1 p1] eqn:E1. unfold entries in Hlen. rewrite !length_app in Hlen.
  assert (Z.of_nat (length (done ++ d_download_queue d)) <= 15000) as Hlen1 by (rewrite length_app; lia).
  assert (Z.of_nat (length ((done ++ d_download_queue d) ++ d_request_queue d)) <= 15000) as Hlen2 by (rewrite !length_app; lia).
  destruct (restore_queue_account s (d_download_queue d) done d p d1 p1 Hd Hlen1 Hk Hp E1) as (He1 & Hd1 & Hq1 & Ha1 & Hk1 & Hp1). rewrite Hq1 in E.
  destruct (restore_queue_account s (d_request_queue d) (done ++ d_download_queue d) d1 p1 d' p' Hq Hlen2 Hk1 Hp1 E) as (He2 & _ & _ & Ha2 & Hk2 & Hp2).
  split_and!; [congruence..|done|]. unfold entries. by rewrite app_assoc.
Qed.

Definition all_entries (l : list download) : list pending_block := mjoin (entries <$> l).

Lemma restore_state_account l : forall env done p l' p',
  Forall (fun d => Forall (pending_ok p0) (entries d)) l -> Z.of_nat (length (done ++ all_entries l)) <= 15000 -> same_pieces p0 p ->
  (forall c, peers_at p c <= restored done c) -> restore_piece_state env index l p = (l', p') ->
  (entries <$> l') = (entries <$> l) /\ (d_attached <$> l') = (d_attached <$> l) /\ same_pieces p0 p' /\ forall c, peers_at p' c <= restored (done ++ all_entries l) c.
Proof using Hindex Hhave HT.
  induction l as [|d l IH]; intros env done p l' p' Hl Hlen Hk Hp E; cbn [restore_piece_state] in E.
  { simplify_eq. unfold all_entries. cbn. by rewrite app_nil_r. }
  apply Forall_cons in Hl as [Hd Hl]. unfold all_entries in *. cbn [fmap list_fmap mjoin list_join] in *. rewrite app_assoc in *.
  destruct (restore_connection (env 0%nat) index d p) as [d1 p1] eqn:E1.
  assert (Z.of_nat (length (done ++ entries d)) <= 15000) as Hlen1 by (rewrite length_app in Hlen; lia).
  destruct (restore_connection_account _ done d p d1 p1 Hd Hlen1 Hk Hp E1) as (He & Ha & Hk1 & Hp1).
  destruct (restore_piece_state _ index l p1) as [l2 p2] eqn:E2. injection E as <- <-.
  destruct (IH _ (done ++ entries d) p1 l2 p2 Hl Hlen Hk1 Hp1 E2) as (He2 & Ha2 & Hk2 & Hp2). cbn. split_and!; try done; congruence.
Qed.
End Restoring.

(** ** The invariant *)

(** What holds of one connection. *)
Definition connection_ok (p : piece_picker) (d : download) : Prop :=
  Forall (pending_ok p) (entries d) /\ (length (entries d) <= 3)%nat /\ (d_attached d = false -> entries d = []).

Record swarm_ok (w : swarm) : Prop := {
  sw_picker : picker_ok (m_picker w);
  sw_connections : Forall (connection_ok (m_picker w)) (m_connections w);
  sw_length : Z.of_nat (length (m_connections w)) <= connections_max;
  sw_peers : forall b, peers_at (m_picker w) b <= waited b (all_entries (m_connections w))
}.

Lemma connection_ok_kept p p' d : (forall b, is_block p' b = is_block p b) -> connection_ok p d -> connection_ok p' d.
Proof. intros H (H1 & H2 & H3). split_and!; [|done..]. eapply Forall_impl; [done|]. intros q []. split; [by rewrite H|done]. Qed.

Lemma all_entries_length p l : Forall (connection_ok p) l -> (length (all_entries l) <= 3 * length l)%nat.
Proof.
  induction 1 as [|d l (_ & H & _) _ IH]; [done|]. change (all_entries (d :: l)) with (entries d ++ all_entries l). rewrite length_app. cbn [length]. lia.
Qed.

Lemma all_entries_middle b l1 d l2 :
  waited b (all_entries (l1 ++ d :: l2)) = waited b (all_entries (l1 ++ l2)) + waited b (entries d).
Proof.
  unfold all_entries. rewrite !fmap_app, !join_app, !waiting_app. change (mjoin (entries <$> d :: l2)) with (entries d ++ mjoin (entries <$> l2)).
  rewrite waiting_app. lia.
Qed.

(** Only the picker changes. *)
Lemma swarm_ok_picker l p p' :
  swarm_ok (Swarm l p) -> picker_ok p' -> (forall b, is_block p' b = is_block p b) -> (forall b, peers_at p' b <= peers_at p b) -> swarm_ok (Swarm l p').
Proof.
  intros [] Hok Hb Hp. cbn [m_connections m_picker] in *. split; cbn [m_connections m_picker]; [done| |done|].
  - eapply Forall_impl; [done|]. intros d. by apply connection_ok_kept.
  - intros b. etrans; [apply Hp|apply sw_peers0].
Qed.

Lemma connection_step_ok l1 d l2 p s n o d' p' :
  (forall k l, s_shuffle s k l ≡ₚ l) -> swarm_ok (Swarm (l1 ++ d :: l2) p) -> perform_download s n o d p = Some (d', p') -> swarm_ok (Swarm (l1 ++ d' :: l2) p').
Proof.
  intros Hsh [Hok Hc Hn Hp] E. cbn [m_connections m_picker] in *. set (extra := fun b => waited b (all_entries (l1 ++ l2))).
  apply Forall_app in Hc as [Hc1 [Hd Hc2]%Forall_cons]. assert (Forall (connection_ok p) (l1 ++ l2)) as Hc by (by apply Forall_app).
  pose proof (all_entries_length p _ Hc) as Hlen. rewrite length_app in *. cbn in Hn. unfold connections_max in Hn.
  assert (forall b, 0 <= extra b <= 15000) as Hextra by (intros b; unfold extra; pose proof (waiting_bounds b (all_entries (l1 ++ l2))); lia).
  assert (accounted extra p (entries d) (d_attached d) p) as H.
  { destruct Hd as (H1 & H2 & H3). split; [by apply kept_refl|done..|]. intros b. unfold extra. rewrite <- all_entries_middle. apply Hp. }
  pose proof (perform_account extra Hextra p s Hsh n o d p d' p' H E) as []. split; cbn [m_connections m_picker].
  - apply ac_kept0.
  - pose proof (kept_block _ _ ac_kept0) as Hb. assert (Forall (connection_ok p') (l1 ++ l2)) as [? ?]%Forall_app.
    { eapply Forall_impl; [done|]. intros x. by apply connection_ok_kept. }
    apply Forall_app. split; [done|]. apply Forall_cons. split; [|done]. apply (connection_ok_kept p); [done|]. done.
  - rewrite length_app. cbn. unfold connections_max. lia.
  - intros b. rewrite all_entries_middle. apply ac_peers0.
Qed.

Lemma piece_finished_have index p : picker_ok p -> is_piece p index = true -> is_piece_finished index p = true -> piece_have p index = false.
Proof.
  intros [_ Hb _] (Hi & q & Hq)%is_piece_lookup Hf. unfold is_piece_finished in Hf. rewrite Hq in Hf. destruct (find_dl_piece index p) as [[j dp]|]; [|done].
  apply andb_true_iff in Hf as [Hd _]. unfold piece_have. rewrite Hq. destruct (bk_flags p Hb index (have q) Hi) as [e He]; [by rewrite (flag_piece _ _ _ Hq), Hd|].
  destruct (bk_entries p Hb index e He) as (_ & Hfl & _). rewrite (flag_piece _ _ _ Hq) in Hfl. congruence.
Qed.

Lemma piece_failed_ok env index w :
  is_piece (m_picker w) index = true -> piece_have (m_picker w) index = false -> swarm_ok w -> swarm_ok (piece_failed env index w).
Proof.
  intros Hpi Hh [Hok Hc Hn Hp]. unfold piece_failed. destruct w as [l p]. cbn [m_connections m_picker] in *.
  destruct (restore_kept (s_random (env 0%nat) 0) index p Hok Hpi) as [Hk Hpe]. set (p1 := restore_piece _ _ _) in *.
  pose proof (all_entries_length p l Hc) as Hlen. unfold connections_max in Hn. pose proof (is_piece_lookup p index Hpi) as [Hi _].
  destruct (restore_piece_state env index l p1) as [l' p'] eqn:E.
  destruct (restore_state_account p index Hi Hh (fun b => waited b (all_entries l)) (fun c => ltac:(pose proof (waiting_bounds c (all_entries l)); lia)) l env [] p1 l' p')
    as (He & Ha & Hk' & Hp'); try done.
  - eapply Forall_impl; [done|]. by intros d (? & _).
  - cbn. lia.
  - intros c. unfold restored. rewrite Hpe. change (waited c []) with 0. destruct (_ =? _); [done|apply Hp].
  - cbn [app] in Hp'. assert (all_entries l' = all_entries l) as Hall.
    { unfold all_entries. by rewrite He. }
    split; cbn [m_connections m_picker]; [apply Hk'| | |].
    + apply Forall_lookup. intros k d' Hd'. assert ((entries <$> l') !! k = (entries <$> l) !! k) as He' by (by rewrite He).
      assert ((d_attached <$> l') !! k = (d_attached <$> l) !! k) as Ha' by (by rewrite Ha). rewrite !list_lookup_fmap, Hd' in He'. rewrite !list_lookup_fmap, Hd' in Ha'. destruct (l !! k) as [d|] eqn:Hd; [|done]. cbn in He', Ha'. injection He' as He'. injection Ha' as Ha'.
      rewrite Forall_lookup in Hc. destruct (connection_ok_kept p p' d (kept_block _ _ Hk') (Hc k d Hd)) as (? & ? & ?).
      unfold connection_ok. by rewrite He', Ha'.
    + apply (f_equal length) in He. rewrite !length_fmap in He. unfold connections_max. lia.
    + intros b. rewrite Hall. specialize (Hp' b). unfold restored in Hp'. by destruct (_ =? _).
Qed.

(** The disk has written a block, or could not: nobody waits for it in the picker. *)
Lemma block_step_ok l p o b g :
  swarm_ok (Swarm l p) -> allowed o p = true -> block_effect o = Some (b, g) -> (forall old, bi_num_peers (g old) <= Z.max 0 (bi_num_peers old)) ->
  swarm_ok (Swarm l (run keep_order o p)).
Proof.
  intros H Ha He Hg. pose proof (sw_picker _ H) as Hok. cbn [m_picker] in Hok.
  pose proof (run_peers p o b g Hok Ha He) as (Hk & Ho & Hcase). apply (swarm_ok_picker l p); [done|apply Hk..|].
  intros c. destruct (decide (c = b)) as [->|Hc]; [|by rewrite Ho]. pose proof (peers_at_bounds p b (ok_blocks p Hok)).
  destruct Hcase as [[_ ->]|[_ (old & _ & _ & E1 & ->)]]; [done|]. specialize (Hg old). lia.
Qed.

(** The availability of pieces changes. *)
Lemma downloads_step_ok l p p' : swarm_ok (Swarm l p) -> picker_ok p' -> same_downloads p' p -> swarm_ok (Swarm l p').
Proof.
  intros H Hok' Hs. destruct (same_downloads_kept p p' (sw_picker _ H) Hok' Hs) as [Hk Hp].
  apply (swarm_ok_picker l p); [done|apply Hk..|]. intros b. by rewrite Hp.
Qed.

Lemma join_step_ok l1 l2 p d :
  Z.of_nat (length (l1 ++ l2)) < connections_max -> entries d = [] -> swarm_ok (Swarm (l1 ++ l2) p) -> swarm_ok (Swarm (l1 ++ d :: l2) p).
Proof.
  intros Hn Hd [Hok Hc Hl Hp]. cbn [m_connections m_picker] in *. split; cbn [m_connections m_picker]; [done| | |].
  - apply Forall_app in Hc as [? ?]. apply Forall_app. split; [done|]. apply Forall_cons. split; [|done]. unfold connection_ok. rewrite Hd.
    split_and!; [constructor|cbn; lia|done].
  - rewrite length_app in *. cbn. lia.
  - intros b. rewrite all_entries_middle, Hd. change (waited b []) with 0. rewrite Z.add_0_r. apply Hp.
Qed.

Lemma leave_step_ok l1 d l2 p : d_attached d = false -> swarm_ok (Swarm (l1 ++ d :: l2) p) -> swarm_ok (Swarm (l1 ++ l2) p).
Proof.
  intros Hd [Hok Hc Hl Hp]. cbn [m_connections m_picker] in *. apply Forall_app in Hc as [? [(_ & _ & Hg) ?]%Forall_cons].
  split; cbn [m_connections m_picker]; [done|by apply Forall_app|rewrite length_app in *; cbn in Hl; lia|].
  intros b. specialize (Hp b). rewrite all_entries_middle, Hg in Hp by done. change (waited b []) with 0 in Hp. lia.
Qed.

Lemma swarm_step_ok w w' : swarm_ok w -> swarm_step w w' -> swarm_ok w'.
Proof.
  intros H Hstep. pose proof (sw_picker _ H) as Hok.
  destruct Hstep as [l1 d l2 p s n o d' p' Hsh E|l1 l2 p peer pieces connecting attached Hn|l1 d l2 p Hd|env index result [l p] Hpi|random piece offset peer [l p] Ha
    |random piece offset [l p] Ha|l p bits|l p bits|l p|l p random i n Hi Hn|l p peer]; cbn [m_picker] in *.
  - exact (connection_step_ok l1 d l2 p s n o d' p' Hsh H E).
  - by apply join_step_ok.
  - by eapply leave_step_ok.
  - unfold piece_finished. cbn [m_picker]. destruct (is_piece_finished index p) eqn:Hf; cbn [negb]; [|done]. destruct (result =? 0).
    + destruct (we_have_peers index p Hok Hpi) as (? & ? & ?). by apply (swarm_ok_picker l p).
    + apply piece_failed_ok; [done|by apply piece_finished_have|done].
  - unfold handle_disk_write. cbn [m_picker m_connections]. destruct (is_seed p); [done|]. eapply (block_step_ok l p (Mark_as_finished _ _ _)); [done..|].
    intros old. unfold finished_block. destruct (bi_state old); cbn; lia.
  - unfold handle_disk_error. cbn [m_picker m_connections]. destruct (0 <=? piece); [|done]. eapply (block_step_ok l p (Write_failed _ _)); [done..|].
    intros old. cbn. lia.
  - apply (downloads_step_ok l p); [done|by apply refcount_mask_ok|apply refcount_mask_downloads].
  - apply (downloads_step_ok l p); [done|by apply refcount_mask_ok|apply refcount_mask_downloads].
  - apply (downloads_step_ok l p); [done|by apply dec_refcount_all_ok|apply dec_refcount_all_downloads].
  - assert (0 <= i) by (unfold is_piece in Hi; lia).
    apply (downloads_step_ok l p); [done|by apply set_piece_priority_ok|by apply set_piece_priority_downloads].
  - destruct (clear_peer_kept peer p Hok) as [Hk Hp]. apply (swarm_ok_picker l p); [done|apply Hk..|]. intros b. by rewrite Hp.
Qed.

Lemma swarm_reached_ok w : swarm_reached w -> swarm_ok w.
Proof.
  induction 1 as [bpp last total Ha|w w' _ IH Hs]; [|by eapply swarm_step_ok].
  pose proof (run_ok keep_order (Init bpp last total) piece_picker_new keep_order_perm picker_ok_new Ha) as Hok. cbn [run] in Hok.
  split; cbn [m_connections m_picker]; [done|constructor|done|]. intros b. change (waited b _) with 0.
  rewrite (fresh_peers _ b (blocks_in_piece (init bpp last total piece_picker_new) (piece_index b))); [done|]. done.
Qed.

(** ** Requested blocks *)

(** C16: no block is lost to a connection that has gone.  In a transfer with up to 5000
    connections, however the connections request, receive, expire, cancel and
    disconnect, blocks are written or fail, pieces pass or fail their check and change
    their priorities, and peers are erased from the list:
    the picker counts no more peers for a block than there are requests for it in
    the queues of the connections, a block that is requested is in such a queue,
    and a connection never waits for more than three blocks. *)
Theorem requested_blocks_waited_for w b :
  swarm_reached w -> is_block (m_picker w) b = true ->
  num_peers b (m_picker w) <= waited b (all_entries (m_connections w)) /\
  (is_requested b (m_picker w) = true -> exists d q, d ∈ m_connections w /\ q ∈ entries d /\ pb_block q = b) /\
  Forall (fun d => length (entries d) <= 3)%nat (m_connections w).
Proof.
  intros H%swarm_reached_ok Hb. pose proof H as []. rewrite num_peers_at by done. split_and!; [done| |by eapply Forall_impl; [done|]; intros d (_ & ? & _)].
  intros Hr. pose proof Hb as (i & k & q & old & -> & Hi & Hq & Hk & Hold & _)%is_block_lookup; [|apply H].
  destruct (block_queries (m_picker w) i k q old (ok_blocks _ sw_picker0) Hi Hq Hk Hold) as (E & _). rewrite E in Hr. apply bool_decide_eq_true in Hr.
  destruct (block_info_ok _ _ _ _ (ok_blocks _ sw_picker0) Hold) as (_ & Hpos & _). apply Hpos in Hr.
  pose proof (sw_peers0 (PieceBlock i k)) as Hw. unfold peers_at in Hw. cbn in Hw. rewrite Hold in Hw. unfold waited in Hw.
  destruct (filter _ (all_entries (m_connections w))) as [|x l] eqn:Ef; [cbn in Hw; lia|].
  assert (x ∈ filter (fun q => pb_block q = PieceBlock i k) (all_entries (m_connections w))) as Hx by (rewrite Ef; left).
  apply list_elem_of_filter in Hx as [Hx1 Hx2]. unfold all_entries in Hx2. apply list_elem_of_join in Hx2 as (es & Hx3 & (d & -> & Hd)%list_elem_of_fmap). eauto.
Qed.

Lemma accept_reached d p :
  on_accept_upload (sample_view 0 true) (download_new 5 one_piece false true) sample_picker = (d, p) -> swarm_reached (Swarm [d] p).
Proof.
  intros E. apply (reached_step (Swarm [download_new 5 one_piece false true] sample_picker)).
  - apply (reached_step (Swarm [] sample_picker)); [|by apply (step_join [] [])].
    apply (reached_step (Swarm [] (init 38 4 1 piece_picker_new))); [by apply reached_start|apply step_has].
  - apply (step_connection [] _ [] _ (sample_view 0 true) 0 accept_upload); [done|]. cbn [perform_download]. by rewrite E.
Qed.

(** One connection that has requested three blocks. *)
Definition sample_swarm : swarm :=
  let '(d, p) := on_accept_upload (sample_view 0 true) (download_new 5 one_piece false true) sample_picker in Swarm [d] p.

Lemma sample_swarm_reached : swarm_reached sample_swarm.
Proof. unfold sample_swarm. generalize accept_reached. destruct (on_accept_upload _ _ _) as [d p]. intros H. by apply H. Qed.

Lemma requested_blocks_waited_for_witness :
  exists d q, d ∈ m_connections sample_swarm /\ q ∈ entries d /\ pb_block q = PieceBlock 0 1.
Proof.
  refine (proj1 (proj2 (requested_blocks_waited_for sample_swarm (PieceBlock 0 1) sample_swarm_reached _)) _); vm_compute; reflexivity.
Defined.
