(* ===== verification/EscapeString.v ===== *)
(** * Text: src/escape_string.cpp, src/parse_url.cpp

    URLs and the encodings of bytes as text: percent escapes, base64, base32,
    hexadecimal and decimal digits.  A [std::string] is a list of bytes; an iterator
    is a position.  Functions that set [ec] return it with what they have
    computed. *)

From S2P Require Import Prelude Archive Md4Hash Search Entry.
From Stdlib Require Import Strings.String Strings.Byte.
From stdpp Require Import list.
Open Scope Z_scope.

Definition is_char (c : byte) (x : Z) : bool := b2z c =? x.

(** ** Numbers *)

(** The loop of [to_string]: at least one digit, from the last to the first. *)
Fixpoint decimal (room : nat) (un : Z) (p : bytes) : bytes :=
  match room with
  | O => p
  | S room =>
      let p := chr (48 + un mod 10) :: p in
      if un / 10 =? 0 then p else decimal room (un / 10) p
  end.

Definition to_string (n : Z) : bytes :=
  let un := if n <? 0 then to_uint 8 (- to_uint 8 n) else to_uint 8 n in
  let p := decimal 20 un [] in
  if n <? 0 then chr 45 :: p else p.

(** ** Percent escapes *)

(** The result and what has been unescaped. *)
Fixpoint unescape_string (s : bytes) : option error_code * bytes :=
  match s with
  | [] => (None, [])
  | c :: s =>
      if is_char c 43 then let '(ec, ret) := unescape_string s in (ec, chr 32 :: ret)
      else if negb (is_char c 37) then let '(ec, ret) := unescape_string s in (ec, c :: ret)
      else
        match s with
        | [] => (Some invalid_escaped_string, [])
        | h :: s =>
            if hex_to_int h =? -1 then (Some invalid_escaped_string, [])
            else
              match s with
              | [] => (Some invalid_escaped_string, [])
              | l :: s =>
                  if hex_to_int l =? -1 then (Some invalid_escaped_string, [])
                  else let '(ec, ret) := unescape_string s in (ec, z2b (hex_to_int h * 16 + hex_to_int l) :: ret)
              end
        end
  end.

Definition unreserved_chars : bytes :=
  str "%+" ++ str ";?:@=&,$/" ++ str "-_!.~*()" ++
  str "ABCDEFGHIJKLMNOPQRSTUVWXYZabcdefghijklmnopqrstuvwxyz" ++ str "0123456789".

Definition hex_chars : bytes := str "0123456789abcdef".

Definition char_at (table : bytes) (i : Z) : byte := nth (Z.to_nat i) table (chr 0).

(** [strchr] for a character other than NUL. *)
Definition strchr (s : bytes) (c : byte) : bool := negb (is_char c 0) && existsb (fun x => b2z x =? b2z c) s.

Definition escape_string_impl (offset : nat) (s : bytes) : bytes :=
  s ≫= fun c =>
    if strchr (drop offset unreserved_chars) c then [c]
    else [chr 37; char_at hex_chars (Z.shiftr (b2z c) 4); char_at hex_chars (Z.land (b2z c) 15)].

Definition escape_string : bytes -> bytes := escape_string_impl 11.
Definition escape_path : bytes -> bytes := escape_string_impl 10.

Definition need_encoding (s : bytes) : bool := existsb (fun c => negb (strchr unreserved_chars c)) s.

Definition convert_path_to_posix (path : bytes) : bytes := (fun c => if is_char c 92 then chr 47 else c) <$> path.

(** [read_until]: what was read and what is left. *)
Fixpoint skip_delim (delim : byte) (s : bytes) : bytes :=
  match s with
  | c :: s' => if b2z c =? b2z delim then skip_delim delim s' else s
  | [] => []
  end.
Fixpoint read_until_delim (delim : byte) (s : bytes) : bytes * bytes :=
  match s with
  | c :: s' => if b2z c =? b2z delim then ([], skip_delim delim s) else let '(ret, rest) := read_until_delim delim s' in (c :: ret, rest)
  | [] => ([], [])
  end.

(** ** Hexadecimal digits *)

Definition to_hex (s : bytes) : bytes :=
  s ≫= fun c => [char_at hex_chars (Z.shiftr (b2z c) 4); char_at hex_chars (Z.land (b2z c) 15)].

Definition is_hex (s : bytes) : bool := forallb (fun c => negb (hex_to_int c =? -1)) s.

(** ** base64 and base32 *)

(** [s] in blocks of [n] bytes, the last one shorter. *)
Fixpoint chunks {A} (fuel n : nat) (s : list A) : list (list A) :=
  match fuel, s with
  | S fuel, _ :: _ => take n s :: chunks fuel n (drop n s)
  | _, _ => []
  end.
Definition blocks_of_input (n : nat) (s : bytes) : list bytes := chunks (length s) n s.

(** The input buffer, cleared and filled. *)
Definition inbuf (n : nat) (block : bytes) (j : nat) : Z := nth j ((b2z <$> block) ++ replicate (n - length block) 0) 0.

Definition base64_table : bytes := str "ABCDEFGHIJKLMNOPQRSTUVWXYZabcdefghijklmnopqrstuvwxyz0123456789+/".

Definition base64_outbuf (b : nat -> Z) : list Z :=
  [Z.shiftr (Z.land (b 0%nat) 0xfc) 2;
   Z.lor (Z.shiftl (Z.land (b 0%nat) 0x03) 4) (Z.shiftr (Z.land (b 1%nat) 0xf0) 4);
   Z.lor (Z.shiftl (Z.land (b 1%nat) 0x0f) 2) (Z.shiftr (Z.land (b 2%nat) 0xc0) 6);
   Z.land (b 2%nat) 0x3f].

Definition base64_block (block : bytes) : bytes :=
  let available_input := length block in
  (char_at base64_table <$> take (available_input + 1) (base64_outbuf (inbuf 3 block))) ++ replicate (3 - available_input) (chr 61).

Definition base64encode (s : bytes) : bytes := blocks_of_input 3 s ≫= base64_block.

Definition base32_table : bytes := str "ABCDEFGHIJKLMNOPQRSTUVWXYZ234567".

Definition base32_outbuf (b : nat -> Z) : list Z :=
  [Z.shiftr (Z.land (b 0%nat) 0xf8) 3;
   Z.lor (Z.shiftl (Z.land (b 0%nat) 0x07) 2) (Z.shiftr (Z.land (b 1%nat) 0xc0) 6);
   Z.shiftr (Z.land (b 1%nat) 0x3e) 1;
   Z.lor (Z.shiftl (Z.land (b 1%nat) 0x01) 4) (Z.shiftr (Z.land (b 2%nat) 0xf0) 4);
   Z.lor (Z.shiftl (Z.land (b 2%nat) 0x0f) 1) (Z.shiftr (Z.land (b 3%nat) 0x80) 7);
   Z.shiftr (Z.land (b 3%nat) 0x7c) 2;
   Z.lor (Z.shiftl (Z.land (b 3%nat) 0x03) 3) (Z.shiftr (Z.land (b 4%nat) 0xe0) 5);
   Z.land (b 4%nat) 0x1f].

Definition base32_block (block : bytes) : bytes :=
  let num_out := nth (length block) [0; 2; 4; 5; 7; 8]%nat 0%nat in
  (char_at base32_table <$> take num_out (base32_outbuf (inbuf 5 block))) ++ replicate (8 - num_out) (chr 61).

Definition base32encode (s : bytes) : bytes := blocks_of_input 5 s ≫= base32_block.

Definition toupper (c : byte) : byte := if (97 <=? b2z c) && (b2z c <=? 122) then chr (b2z c - 32) else c.

(** The loop that reads a block into [inbuf]; [None] is a character it does not
    know. *)
Fixpoint base32_read (j pad_start : nat) (s : bytes) : option (list Z * nat) :=
  match s with
  | [] => Some ([], pad_start)
  | c :: s =>
      let in_ := b2z (toupper c) in
      if (65 <=? in_) && (in_ <=? 90) then '(l, pad) ← base32_read (S j) pad_start s; Some (in_ - 65 :: l, pad)
      else if (50 <=? in_) && (in_ <=? 55) then '(l, pad) ← base32_read (S j) pad_start s; Some (in_ - 50 + 25 + 1 :: l, pad)
      else if in_ =? 61 then '(l, pad) ← base32_read (S j) (if (pad_start =? 0)%nat then j else pad_start) s; Some (0 :: l, pad)
      else if in_ =? 49 then '(l, pad) ← base32_read (S j) pad_start s; Some (8 :: l, pad)
      else None
  end.

(** Each byte of the output is cut to its width. *)
Definition base32_decode_outbuf (b : nat -> Z) : bytes :=
  z2b <$>
  [Z.lor (Z.shiftl (b 0%nat) 3) (Z.shiftr (b 1%nat) 2);
   Z.lor (Z.lor (Z.shiftl (Z.land (b 1%nat) 0x3) 6) (Z.shiftl (b 2%nat) 1)) (Z.shiftr (Z.land (b 3%nat) 0x10) 4);
   Z.lor (Z.shiftl (Z.land (b 3%nat) 0x0f) 4) (Z.shiftr (Z.land (b 4%nat) 0x1e) 1);
   Z.lor (Z.lor (Z.shiftl (Z.land (b 4%nat) 0x01) 7) (Z.shiftl (Z.land (b 5%nat) 0x1f) 2)) (Z.shiftr (Z.land (b 6%nat) 0x18) 3);
   Z.lor (Z.shiftl (Z.land (b 6%nat) 0x07) 5) (b 7%nat)].

Definition base32_decode_block (block : bytes) : option bytes :=
  let available_input := length block in
  '(l, pad_start) ← base32_read 0 (if (available_input <? 8)%nat then available_input else 0%nat) block;
  let num_out := nth pad_start [5; 1; 1; 2; 2; 3; 4; 4; 5]%nat 0%nat in
  Some (take num_out (base32_decode_outbuf (fun j => nth j l 0))).

(** A character that is not known makes the result empty. *)
Definition base32decode (s : bytes) : bytes := default [] (@concat _ <$> mapM base32_decode_block (blocks_of_input 8 s)).

(** ** URLs *)

(** [std::find], as a distance; the length when the character is not there. *)
Fixpoint index_of (x : Z) (s : bytes) : nat :=
  match s with
  | [] => 0
  | c :: s => if is_char c x then 0 else S (index_of x s)
  end.

Fixpoint blanks (s : bytes) : nat :=
  match s with
  | c :: s => if is_char c 32 || is_char c 9 then S (blanks s) else 0
  | [] => 0
  end.

Definition sub_range (a b : nat) (s : bytes) : bytes := take (b - a) (drop a s).

Record url_components := Url { url_protocol : bytes; url_auth : bytes; url_hostname : bytes; url_port : Z; url_path : bytes }.

(** The end of the host name that begins at [start], where a colon and the port may
    follow; [None] is an address in brackets that are not closed. *)
Definition find_port_pos (start : nat) (rest : bytes) : option nat :=
  let host := drop start rest in
  match host with
  | c :: _ =>
      if is_char c 91 then
        let bracket := index_of 93 host in
        if (bracket =? length host)%nat then None else Some (start + bracket + index_of 58 (drop bracket host))%nat
      else Some (start + index_of 58 host)%nat
  | [] => Some start
  end.

(** After the protocol: [rest] follows the two slashes. *)
Definition parse_authority (protocol : bytes) (rest : bytes) : option error_code * url_components :=
  let port := if bool_decide (protocol = str "https") then 443 else 80 in
  let n := length rest in
  let at_ := index_of 64 rest in
  let colon := index_of 58 rest in
  let end_ := index_of 47 rest in
  let '(auth, start) :=
    if ((at_ <? n) && (colon <? n) && (colon <? at_) && (at_ <? end_))%nat then (take at_ rest, S at_) else ([], 0%nat) in
  match find_port_pos start rest with
  | None => (Some expected_close_bracket_in_address, Url protocol auth [] port (drop start rest))
  | Some port_pos =>
      if (port_pos <? end_)%nat
      then (None, Url protocol auth (sub_range start port_pos rest) (atoi (sub_range (S port_pos) end_ rest)) (drop end_ rest))
      else (None, Url protocol auth (sub_range start end_ rest) port (drop end_ rest))
  end.

Definition parse_url_components (url : bytes) : option error_code * url_components :=
  let start := blanks url in
  let end_ := index_of 58 url in
  let protocol := sub_range start end_ url in
  let port := if bool_decide (protocol = str "https") then 443 else 80 in
  match drop end_ url with
  | _ :: c1 :: c2 :: rest =>
      if is_char c1 47 && is_char c2 47 then parse_authority protocol rest
      else (Some unsupported_url_protocol, Url protocol [] [] port (drop start url))
  | _ => (Some unsupported_url_protocol, Url protocol [] [] port (drop start url))
  end.

(** A string as [printf] sees it: up to the first NUL. *)
Definition c_str (s : bytes) : bytes := take (index_of 0 s) s.

(** [snprintf] with the format of [maybe_url_encode]. *)
Definition print_url (u : url_components) : bytes :=
  c_str (url_protocol u) ++ str "://" ++ c_str (url_auth u) ++ (if bool_decide (url_auth u = []) then [] else str "@") ++
  c_str (url_hostname u) ++ str ":" ++ to_string (url_port u) ++ c_str (url_path u).

(** [LIBED2K_MAX_PATH], from which the size of the buffer is made, depends on the
    platform. *)
Definition maybe_url_encode (LIBED2K_MAX_PATH : nat) (url : bytes) : bytes :=
  let '(ec, u) := parse_url_components url in
  match ec with
  | Some _ => url
  | None =>
      if negb (need_encoding (url_path u)) then url
      else take (LIBED2K_MAX_PATH * 4 - 1)
        (print_url (Url (url_protocol u) (url_auth u) (url_hostname u) (url_port u) (escape_path (url_path u))))
  end.

(** ** Arguments of a URL *)

(** [std::string::find] for a string, from the beginning. *)
Fixpoint find_string (pattern s : bytes) : option nat :=
  if bool_decide (take (length pattern) s = pattern) then Some 0%nat
  else match s with [] => None | _ :: s => S <$> find_string pattern s end.

(** The value at [pos], up to the next ampersand, and [out_pos]. *)
Definition argument_at (url : bytes) (pos : nat) : option nat * bytes :=
  (Some pos, take (index_of 38 (drop pos url)) (drop pos url)).

Definition url_has_argument (url argument : bytes) : option nat * bytes :=
  let i := index_of 63 url in
  if (i =? length url)%nat then (None, [])
  else
    let i := S i in
    let argument := argument ++ [chr 61] in
    if bool_decide (take (length argument) (drop i url) = argument) then argument_at url (i + length argument)
    else
      let argument := chr 38 :: argument in
      match find_string argument (drop i url) with
      | None => (None, [])
      | Some k => argument_at url (i + k + length argument)
      end.

(** ** Examples *)

Example parse_url_example :
  parse_url_components (str " http://user:pw@[::1]:8080/a b") =
  (None, Url (str "http") (str "user:pw") (str "[::1]") 8080 (str "/a b")).
Proof. vm_compute. reflexivity. Qed.

Example encode_example : maybe_url_encode 255 (str "http://host/a b") = str "http://host:80/a%20b".
Proof. vm_compute. reflexivity. Qed.

Example argument_example : snd (url_has_argument (str "http://h/?a=1&bc=22&c=3") (str "c")) = str "3".
Proof. vm_compute. reflexivity. Qed.

Example base_example : base64encode (str "foob") = str "Zm9vYg==" /\ base32encode (str "foob") = str "MZXW6YQ=" /\ base32decode (str "mzxw6yq=") = str "foob".
Proof. split_and!; vm_compute; reflexivity. Qed.
