(* ===== verification/EscapeStringProps.v ===== *)
(** * Theorems about text

    What is escaped or encoded can be read back, the encodings are those of RFC 4648,
    and a URL that was encoded is still the same URL. *)

From S2P Require Import Prelude Archive Md4Hash Search Entry EscapeString.
From Stdlib Require Import Strings.String Strings.Byte.
From stdpp Require Import list.
Open Scope Z_scope.

(** A boolean test of all bytes. *)
Definition all_bytes : list byte := z2b <$> seqZ 0 256.

Lemma all_bytes_elem b : b ∈ all_bytes.
Proof. apply list_elem_of_fmap. exists (b2z b). split; [by rewrite z2b_b2z|]. apply elem_of_seqZ. pose proof (b2z_range b). lia. Qed.

Lemma bytes_test (f : byte -> bool) b : forallb f all_bytes = true -> f b = true.
Proof. rewrite forallb_forall. intros H. apply H, list_elem_of_In, all_bytes_elem. Qed.

Lemma bytes_test2 (f : byte -> byte -> bool) a b : forallb (fun a => forallb (f a) all_bytes) all_bytes = true -> f a b = true.
Proof. intros H. apply (bytes_test (f a)). by apply (bytes_test (fun a => forallb (f a) all_bytes)). Qed.

(** ** Percent escapes *)

(** What is kept as it is can be read as it is, and the digits of the others too. *)
Definition escape_ok (offset : nat) (c : byte) : bool :=
  if strchr (drop offset unreserved_chars) c then negb (is_char c 43) && negb (is_char c 37)
  else
    let h := char_at hex_chars (Z.shiftr (b2z c) 4) in
    let l := char_at hex_chars (Z.land (b2z c) 15) in
    negb (hex_to_int h =? -1) && negb (hex_to_int l =? -1) && (b2z (z2b (hex_to_int h * 16 + hex_to_int l)) =? b2z c).

Lemma unescape_impl offset s :
  (forall c, escape_ok offset c = true) -> unescape_string (escape_string_impl offset s) = (None, s).
Proof.
  intros Hok. unfold escape_string_impl. induction s as [|c s IH]; [done|]. rewrite bind_cons. specialize (Hok c). unfold escape_ok in Hok.
  destruct (strchr _ c).
  - apply andb_true_iff in Hok as [H1%negb_true_iff H2]. cbn [app unescape_string]. rewrite H1, H2, IH. done.
  - rewrite !andb_true_iff, !negb_true_iff in Hok. destruct Hok as [[Hh Hl] Hc%Z.eqb_eq]. cbn [app unescape_string].
    change (is_char (chr 37) 43) with false. change (is_char (chr 37) 37) with true. cbn [negb]. rewrite Hh, Hl, IH.
    assert (forall x, b2z x = b2z c -> x = c) as Hinj by (intros x Hx; by rewrite <- (z2b_b2z x), Hx, z2b_b2z). by rewrite (Hinj _ Hc).
Qed.

Lemma unescape_escape_path s : unescape_string (escape_path s) = (None, s).
Proof. apply unescape_impl. intros c. apply (bytes_test (escape_ok 10)). by vm_compute. Qed.

Lemma unescape_escape_string s : unescape_string (escape_string s) = (None, s).
Proof. apply unescape_impl. intros c. apply (bytes_test (escape_ok 11)). by vm_compute. Qed.

Lemma escape_path_encoded s : need_encoding (escape_path s) = false.
Proof.
  assert (forall c, forallb (strchr unreserved_chars) (escape_path [c]) = true) as H.
  { intros c. apply (bytes_test (fun c => forallb (strchr unreserved_chars) (escape_path [c]))). by vm_compute. }
  unfold need_encoding. induction s as [|c s IH]; [done|].
  assert (escape_path (c :: s) = escape_path [c] ++ escape_path s) as ->.
  { unfold escape_path, escape_string_impl. cbn [mbind list_bind]. by rewrite app_nil_r. }
  rewrite existsb_app, IH, orb_false_r. specialize (H c). induction (escape_path [c]) as [|x l IHl]; [done|]. cbn in *. apply andb_true_iff in H as [-> H]. by apply IHl.
Qed.

(** ** Numbers *)

Lemma decimal_digits room v p : 0 < v -> decimal room v p = write_digits room v p.
Proof.
  revert v p. induction room as [|room IH]; intros v p Hv; cbn [decimal write_digits]; [done|].
  rewrite (proj2 (Z.eqb_neq v 0)) by lia. rewrite Z.quot_div_nonneg, Z.rem_mod_nonneg by lia. pose proof (Z.div_pos v 10 ltac:(lia) ltac:(lia)).
  destruct (Z.eqb_spec (v / 10) 0) as [E|E]; [rewrite E; by destruct room|]. apply IH. lia.
Qed.

Lemma write_digits_room v : 0 <= v < 10 ^ 19 -> write_digits 19 v [] = write_digits 20 v [].
Proof.
  assert (forall n v p, 0 <= v < 10 ^ Z.of_nat n -> write_digits n v p = write_digits (S n) v p) as H.
  { induction n as [|n IH]; intros w p Hw; cbn [write_digits].
    - by rewrite (proj2 (Z.eqb_eq w 0)) by (cbn in Hw; lia).
    - destruct (Z.eqb_spec w 0); [done|]. apply (IH (Z.quot w 10)). rewrite Z.quot_div_nonneg by lia. rewrite Nat2Z.inj_succ, Z.pow_succ_r in Hw by lia.
      split; [apply Z.div_pos; lia|apply Z.div_lt_upper_bound; lia]. }
  intros Hv. by apply (H 19%nat).
Qed.

(** [to_string] prints what [integer_to_str] prints. *)
Lemma to_string_eq n : - 2 ^ 63 < n < 2 ^ 63 -> to_string n = integer_to_str n.
Proof.
  intros Hn. unfold to_string, integer_to_str. destruct (Z.ltb_spec n 0) as [Hneg|Hpos].
  - assert (to_uint 8 (- to_uint 8 n) = - n) as ->.
    { unfold to_uint. change (Z.of_nat 8 * 8) with 64. rewrite <- (Z.mod_add n 1), (Z.mod_small (n + _)) by lia. rewrite <- (Z.mod_add _ 1), Z.mod_small by lia. lia. }
    rewrite decimal_digits, to_int64_small, (proj2 (Z.eqb_neq (- n) 0)), write_digits_room by lia. done.
  - assert (to_uint 8 n = n) as -> by (apply to_uint_small; unfold is_uint; lia). destruct (Z.eqb_spec n 0) as [->|]; [done|]. by rewrite decimal_digits by lia.
Qed.

Lemma atoi_to_string n : - 2 ^ 31 <= n < 2 ^ 31 -> atoi (to_string n) = n.
Proof. intros Hn. unfold atoi. rewrite to_string_eq, strtoll_integer_to_str by lia. by apply to_int32_small. Qed.

(** The characters of a number. *)
Lemma to_string_chars n : - 2 ^ 63 < n < 2 ^ 63 -> Forall (fun c => is_digit c = true \/ b2z c = 45) (to_string n).
Proof.
  intros Hn. rewrite to_string_eq by done. destruct (Z.lt_ge_cases n 0).
  - unfold integer_to_str. rewrite (proj2 (Z.ltb_lt n 0)) by done. rewrite to_int64_small, (proj2 (Z.eqb_neq (- n) 0)) by lia.
    destruct (write_digits_spec 19 (- n) []) as (s & -> & Hs & _); [cbn; lia|]. rewrite app_nil_r. constructor; [by right|]. eapply Forall_impl; [done|]. auto.
  - destruct (integer_to_str_digits n ltac:(lia)) as (Hs & _). eapply Forall_impl; [done|]. auto.
Qed.

(** ** The encodings of RFC 4648 *)

(** The bits of a string, the highest of each byte first, and the number that bits
    stand for. *)
Definition bits_of (v : Z) : list bool := Z.testbit v <$> [7; 6; 5; 4; 3; 2; 1; 0].
Definition bits (s : bytes) : list bool := s ≫= fun c => bits_of (b2z c).
Definition bits_value (l : list bool) : Z := foldl (fun v b => 2 * v + Z.b2z b) 0 l.

(** The characters that stand for the values of groups: those from [first] on. *)
Definition characters (first : Z) (n : nat) : bytes := (fun i => chr (first + Z.of_nat i)) <$> seq 0 n.
Definition rfc4648_base64 : bytes := characters 65 26 ++ characters 97 26 ++ characters 48 10 ++ [chr 43; chr 47].
Definition rfc4648_base32 : bytes := characters 65 26 ++ characters 50 6.

(** RFC 4648: the bits are cut into groups of [k], the last one filled with zeros;
    each group is a character of the table; the text is padded to a multiple of [n]
    characters. *)
Definition rfc4648 (k n : nat) (table : bytes) (s : bytes) : bytes :=
  let b := bits s in
  let b := b ++ replicate ((k - length b mod k) mod k) false in
  let out := (fun g => char_at table (bits_value g)) <$> chunks (length b) k b in
  out ++ replicate ((n - length out mod n) mod n) (chr 61).

Lemma chunks_fuel {A} fuel fuel' n (s : list A) : (0 < n)%nat -> (length s <= fuel)%nat -> (length s <= fuel')%nat -> chunks fuel n s = chunks fuel' n s.
Proof.
  revert fuel' s. induction fuel as [|fuel IH]; intros [|fuel'] [|x s] Hn H H'; cbn [length] in *; try (done || lia).
  cbn [chunks]. f_equal. apply IH; [done|..]; rewrite length_drop; cbn; lia.
Qed.

Lemma chunks_app {A} fuel n (l s : list A) :
  (0 < n)%nat -> length l = n -> (length (l ++ s) <= fuel)%nat -> chunks fuel n (l ++ s) = l :: chunks (length s) n s.
Proof.
  intros Hn Hl Hf. rewrite length_app in Hf. destruct fuel as [|fuel]; [lia|]. destruct l as [|x l]; [cbn in Hl; lia|]. cbn [chunks app].
  rewrite <- Hl, (app_comm_cons l s x), take_app_length, drop_app_length. f_equal. apply chunks_fuel; cbn in *; lia.
Qed.

Lemma blocks_app n l s : (0 < n)%nat -> length l = n -> blocks_of_input n (l ++ s) = l :: blocks_of_input n s.
Proof. intros. by apply chunks_app. Qed.

(** The groups of a list that begins with whole groups. *)
Lemma groups_app k (gs : list (list bool)) b :
  (0 < k)%nat -> Forall (fun g => length g = k) gs -> chunks (length (concat gs ++ b)) k (concat gs ++ b) = gs ++ chunks (length b) k b.
Proof.
  intros Hk. induction 1 as [|g gs Hg _ IH]; [done|]. cbn [concat]. rewrite <- app_assoc, chunks_app by done. by rewrite IH.
Qed.

(** A block whose bits are [gs] is encoded by itself. *)
Lemma rfc4648_block k n table block s gs :
  (0 < k)%nat -> (0 < n)%nat -> bits block = concat gs -> Forall (fun g => length g = k) gs -> length gs = n ->
  rfc4648 k n table (block ++ s) = ((fun g => char_at table (bits_value g)) <$> gs) ++ rfc4648 k n table s.
Proof.
  intros Hk Hn Hb Hg Hl. unfold rfc4648. unfold bits in *. rewrite bind_app, Hb. set (t := s ≫= _).
  assert (length (concat gs ++ t) mod k = length t mod k)%nat as ->.
  { rewrite length_app. assert (length (concat gs) = length gs * k)%nat as ->.
    { clear -Hg. induction Hg as [|g gs Hg _ IH]; [done|]. cbn [concat length]. rewrite length_app, IH, Hg. lia. }
    rewrite Nat.add_comm. by apply Nat.Div0.mod_add. }
  rewrite <- app_assoc, groups_app, fmap_app, <- app_assoc by done. f_equal. f_equal. f_equal.
  rewrite length_app, length_fmap, Hl. rewrite <- (Nat.Div0.mod_add (length _) 1 n), Nat.mul_1_l. by rewrite Nat.add_comm.
Qed.

Local Abbreviation bit c i := (Z.testbit (b2z c) i).

(** Each character is made of the bits of its group. *)
Lemma group_bits (f : byte -> byte -> list bool) (g : byte -> byte -> Z) a b :
  forallb (fun a => forallb (fun b => bits_value (f a b) =? g a b) all_bytes) all_bytes = true -> bits_value (f a b) = g a b.
Proof. intros H. apply Z.eqb_eq. by apply (bytes_test2 (fun a b => bits_value (f a b) =? g a b)). Qed.

Definition base64_groups (a b c : byte) : list (list bool) :=
  [[bit a 7; bit a 6; bit a 5; bit a 4; bit a 3; bit a 2]; [bit a 1; bit a 0; bit b 7; bit b 6; bit b 5; bit b 4];
   [bit b 3; bit b 2; bit b 1; bit b 0; bit c 7; bit c 6]; [bit c 5; bit c 4; bit c 3; bit c 2; bit c 1; bit c 0]].

Lemma base64_groups_values a b c : bits_value <$> base64_groups a b c = base64_outbuf (fun j => nth j [b2z a; b2z b; b2z c] 0).
Proof.
  unfold base64_groups, base64_outbuf. cbn [fmap list_fmap nth]. repeat (apply f_equal2; [|]); [..|done].
  - by apply (group_bits (fun a _ => [bit a 7; bit a 6; bit a 5; bit a 4; bit a 3; bit a 2]) (fun a _ => Z.shiftr (Z.land (b2z a) 0xfc) 2) a a); vm_compute.
  - by apply (group_bits (fun a b => [bit a 1; bit a 0; bit b 7; bit b 6; bit b 5; bit b 4]) (fun a b => Z.lor (Z.shiftl (Z.land (b2z a) 0x03) 4) (Z.shiftr (Z.land (b2z b) 0xf0) 4)) a b); vm_compute.
  - by apply (group_bits (fun a b => [bit a 3; bit a 2; bit a 1; bit a 0; bit b 7; bit b 6]) (fun a b => Z.lor (Z.shiftl (Z.land (b2z a) 0x0f) 2) (Z.shiftr (Z.land (b2z b) 0xc0) 6)) b c); vm_compute.
  - by apply (group_bits (fun a _ => [bit a 5; bit a 4; bit a 3; bit a 2; bit a 1; bit a 0]) (fun a _ => Z.land (b2z a) 0x3f) c c); vm_compute.
Qed.

Lemma base64_char_values a b c :
  (fun g => char_at base64_table (bits_value g)) <$> base64_groups a b c = char_at base64_table <$> base64_outbuf (fun j => nth j [b2z a; b2z b; b2z c] 0).
Proof. by rewrite <- base64_groups_values, <- list_fmap_compose. Qed.

Lemma base64encode_rfc s : base64encode s = rfc4648 6 4 base64_table s.
Proof.
  revert s. fix IH 1. intros [|a [|b [|c s]]].
  - done.
  - pose proof (f_equal (take 2) (base64_char_values a (z2b 0) (z2b 0))) as H. symmetry. exact (f_equal (fun l => l ++ [chr 61; chr 61]) H).
  - pose proof (f_equal (take 3) (base64_char_values a b (z2b 0))) as H. symmetry. exact (f_equal (fun l => l ++ [chr 61]) H).
  - change (a :: b :: c :: s) with ([a; b; c] ++ s). unfold base64encode. rewrite (blocks_app 3 [a; b; c] s) by (done || lia). rewrite bind_cons. fold (base64encode s). rewrite IH. symmetry.
    rewrite (rfc4648_block 6 4 base64_table [a; b; c] s (base64_groups a b c)); [|lia|lia|done|by repeat constructor|done].
    rewrite base64_char_values. done.
Qed.

Definition base32_groups (a b c d e : byte) : list (list bool) :=
  [[bit a 7; bit a 6; bit a 5; bit a 4; bit a 3]; [bit a 2; bit a 1; bit a 0; bit b 7; bit b 6]; [bit b 5; bit b 4; bit b 3; bit b 2; bit b 1];
   [bit b 0; bit c 7; bit c 6; bit c 5; bit c 4]; [bit c 3; bit c 2; bit c 1; bit c 0; bit d 7]; [bit d 6; bit d 5; bit d 4; bit d 3; bit d 2];
   [bit d 1; bit d 0; bit e 7; bit e 6; bit e 5]; [bit e 4; bit e 3; bit e 2; bit e 1; bit e 0]].

Lemma base32_groups_values a b c d e :
  bits_value <$> base32_groups a b c d e = base32_outbuf (fun j => nth j [b2z a; b2z b; b2z c; b2z d; b2z e] 0).
Proof.
  unfold base32_groups, base32_outbuf. cbn [fmap list_fmap nth]. repeat (apply f_equal2; [|]); [..|done].
  - by apply (group_bits (fun a _ => [bit a 7; bit a 6; bit a 5; bit a 4; bit a 3]) (fun a _ => Z.shiftr (Z.land (b2z a) 0xf8) 3) a a); vm_compute.
  - by apply (group_bits (fun a b => [bit a 2; bit a 1; bit a 0; bit b 7; bit b 6]) (fun a b => Z.lor (Z.shiftl (Z.land (b2z a) 0x07) 2) (Z.shiftr (Z.land (b2z b) 0xc0) 6)) a b); vm_compute.
  - by apply (group_bits (fun a _ => [bit a 5; bit a 4; bit a 3; bit a 2; bit a 1]) (fun a _ => Z.shiftr (Z.land (b2z a) 0x3e) 1) b b); vm_compute.
  - by apply (group_bits (fun a b => [bit a 0; bit b 7; bit b 6; bit b 5; bit b 4]) (fun a b => Z.lor (Z.shiftl (Z.land (b2z a) 0x01) 4) (Z.shiftr (Z.land (b2z b) 0xf0) 4)) b c); vm_compute.
  - by apply (group_bits (fun a b => [bit a 3; bit a 2; bit a 1; bit a 0; bit b 7]) (fun a b => Z.lor (Z.shiftl (Z.land (b2z a) 0x0f) 1) (Z.shiftr (Z.land (b2z b) 0x80) 7)) c d); vm_compute.
  - by apply (group_bits (fun a _ => [bit a 6; bit a 5; bit a 4; bit a 3; bit a 2]) (fun a _ => Z.shiftr (Z.land (b2z a) 0x7c) 2) d d); vm_compute.
  - by apply (group_bits (fun a b => [bit a 1; bit a 0; bit b 7; bit b 6; bit b 5]) (fun a b => Z.lor (Z.shiftl (Z.land (b2z a) 0x03) 3) (Z.shiftr (Z.land (b2z b) 0xe0) 5)) d e); vm_compute.
  - by apply (group_bits (fun a _ => [bit a 4; bit a 3; bit a 2; bit a 1; bit a 0]) (fun a _ => Z.land (b2z a) 0x1f) e e); vm_compute.
Qed.

Lemma base32_char_values a b c d e :
  (fun g => char_at base32_table (bits_value g)) <$> base32_groups a b c d e =
  char_at base32_table <$> base32_outbuf (fun j => nth j [b2z a; b2z b; b2z c; b2z d; b2z e] 0).
Proof. by rewrite <- base32_groups_values, <- list_fmap_compose. Qed.

Lemma base32encode_rfc s : base32encode s = rfc4648 5 8 base32_table s.
Proof.
  revert s. fix IH 1. intros [|a [|b [|c [|d [|e s]]]]].
  - done.
  - pose proof (f_equal (take 2) (base32_char_values a (z2b 0) (z2b 0) (z2b 0) (z2b 0))) as H. symmetry. exact (f_equal (fun l => l ++ replicate 6 (chr 61)) H).
  - pose proof (f_equal (take 4) (base32_char_values a b (z2b 0) (z2b 0) (z2b 0))) as H. symmetry. exact (f_equal (fun l => l ++ replicate 4 (chr 61)) H).
  - pose proof (f_equal (take 5) (base32_char_values a b c (z2b 0) (z2b 0))) as H. symmetry. exact (f_equal (fun l => l ++ replicate 3 (chr 61)) H).
  - pose proof (f_equal (take 7) (base32_char_values a b c d (z2b 0))) as H. symmetry. exact (f_equal (fun l => l ++ replicate 1 (chr 61)) H).
  - change (a :: b :: c :: d :: e :: s) with ([a; b; c; d; e] ++ s). unfold base32encode. rewrite (blocks_app 5 [a; b; c; d; e] s) by (done || lia).
    rewrite bind_cons. fold (base32encode s). rewrite IH. symmetry.
    rewrite (rfc4648_block 5 8 base32_table [a; b; c; d; e] s (base32_groups a b c d e)); [|lia|lia|done|by repeat constructor|done].
    rewrite base32_char_values. done.
Qed.

(** ** Decoding base32 *)

(** The value a character of the table stands for. *)
Lemma base32_read_char v j pad s :
  0 <= v < 32 -> base32_read j pad (char_at base32_table v :: s) = ('(l, p) ← base32_read (S j) pad s; Some (v :: l, p)).
Proof.
  intros Hv. assert (v ∈ seqZ 0 32) as Hin by (apply elem_of_seqZ; lia). clear Hv. cbn [base32_read].
  assert (Forall (fun v => let in_ := b2z (toupper (char_at base32_table v)) in
    ((65 <=? in_) && (in_ <=? 90) = true /\ in_ - 65 = v) \/ ((65 <=? in_) && (in_ <=? 90) = false /\ (50 <=? in_) && (in_ <=? 55) = true /\ in_ - 50 + 25 + 1 = v)) (seqZ 0 32)) as H.
  { change (seqZ 0 32) with (Z.of_nat <$> seq 0 32). cbn [seq fmap list_fmap].
    repeat (constructor; [first [left; split; vm_compute; reflexivity | right; split_and!; vm_compute; reflexivity]|]). constructor. }
  rewrite Forall_forall in H. cbv zeta in H. destruct (H v Hin) as [[H1 H2]|(H1 & H2 & H3)]; rewrite H1, ?H2, ?H3; done.
Qed.

(** A group of five bits is such a value. *)
Lemma bits_value_range l : 0 <= bits_value l < 2 ^ Z.of_nat (length l).
Proof.
  unfold bits_value. induction l as [|b l IH] using rev_ind; [done|]. rewrite foldl_app, length_app. cbn [foldl length].
  rewrite Nat2Z.inj_add, Z.pow_add_r by lia. destruct b; cbn [Z.b2z]; lia.
Qed.

Lemma base32_read_groups gs : forall j pad s,
  Forall (fun g => length g = 5%nat) gs ->
  base32_read j pad (((fun g => char_at base32_table (bits_value g)) <$> gs) ++ s) =
  ('(l, p) ← base32_read (j + length gs) pad s; Some ((bits_value <$> gs) ++ l, p)).
Proof.
  induction gs as [|g gs IH]; intros j pad s Hg; cbn [fmap list_fmap app length].
  { rewrite Nat.add_0_r. by destruct (base32_read j pad s) as [[? ?]|]. }
  apply Forall_cons in Hg as [Hg Hgs]. rewrite base32_read_char by (pose proof (bits_value_range g) as Hr; rewrite Hg in Hr; exact Hr).
  rewrite IH by done. replace (S j + length gs)%nat with (j + S (length gs))%nat by lia. by destruct (base32_read (j + S (length gs)) pad s) as [[? ?]|].
Qed.

(** A boolean test of all lists of [n] bits. *)
Fixpoint all_bits (n : nat) : list (list bool) :=
  match n with O => [[]] | S n => (cons true <$> all_bits n) ++ (cons false <$> all_bits n) end.

Lemma bits_test (f : list bool -> bool) l : forallb f (all_bits (length l)) = true -> f l = true.
Proof.
  rewrite forallb_forall. intros H. apply H. clear H. apply list_elem_of_In. induction l as [|b l IH]; cbn; [by left|].
  apply elem_of_app. destruct b; [left|right]; by apply list_elem_of_fmap_2.
Qed.

Lemma bits_test_eq (f g : list bool -> Z) l : forallb (fun l => f l =? g l) (all_bits (length l)) = true -> f l = g l.
Proof. intros H. apply Z.eqb_eq. by apply (bits_test (fun l => f l =? g l)). Qed.

Lemma byte_of_bits c : z2b (bits_value (bits_of (b2z c))) = c.
Proof.
  assert (bits_value (bits_of (b2z c)) = b2z c) as ->; [|apply z2b_b2z]. apply Z.eqb_eq.
  apply (bytes_test (fun c => bits_value (bits_of (b2z c)) =? b2z c)). by vm_compute.
Qed.

(** The [i]-th group of five bits of [l]. *)
Definition group (i : nat) (l : list bool) : Z := bits_value (take 5 (drop (5 * i) l)).

Lemma base32_decode_groups a b c d e :
  base32_decode_outbuf (fun j => nth j (bits_value <$> base32_groups a b c d e) 0) = [a; b; c; d; e].
Proof.
  unfold base32_decode_outbuf, base32_groups. cbn [fmap list_fmap nth]. repeat (apply f_equal2; [|]); [..|done].
  - etrans; [apply f_equal|apply (byte_of_bits a)].
    by apply (bits_test_eq (fun l => Z.lor (Z.shiftl (group 0 l) 3) (Z.shiftr (group 1 l) 2)) (fun l => bits_value (take 8 l))
      [bit a 7; bit a 6; bit a 5; bit a 4; bit a 3; bit a 2; bit a 1; bit a 0; bit b 7; bit b 6]); vm_compute.
  - etrans; [apply f_equal|apply (byte_of_bits b)].
    by apply (bits_test_eq (fun l => Z.lor (Z.lor (Z.shiftl (Z.land (group 0 l) 0x3) 6) (Z.shiftl (group 1 l) 1)) (Z.shiftr (Z.land (group 2 l) 0x10) 4))
      (fun l => bits_value (take 8 (drop 3 l)))
      [bit a 2; bit a 1; bit a 0; bit b 7; bit b 6; bit b 5; bit b 4; bit b 3; bit b 2; bit b 1; bit b 0; bit c 7; bit c 6; bit c 5; bit c 4]); vm_compute.
  - etrans; [apply f_equal|apply (byte_of_bits c)].
    by apply (bits_test_eq (fun l => Z.lor (Z.shiftl (Z.land (group 0 l) 0x0f) 4) (Z.shiftr (Z.land (group 1 l) 0x1e) 1)) (fun l => bits_value (take 8 (drop 1 l)))
      [bit b 0; bit c 7; bit c 6; bit c 5; bit c 4; bit c 3; bit c 2; bit c 1; bit c 0; bit d 7]); vm_compute.
  - etrans; [apply f_equal|apply (byte_of_bits d)].
    by apply (bits_test_eq (fun l => Z.lor (Z.lor (Z.shiftl (Z.land (group 0 l) 0x01) 7) (Z.shiftl (Z.land (group 1 l) 0x1f) 2)) (Z.shiftr (Z.land (group 2 l) 0x18) 3))
      (fun l => bits_value (take 8 (drop 4 l)))
      [bit c 3; bit c 2; bit c 1; bit c 0; bit d 7; bit d 6; bit d 5; bit d 4; bit d 3; bit d 2; bit d 1; bit d 0; bit e 7; bit e 6; bit e 5]); vm_compute.
  - etrans; [apply f_equal|apply (byte_of_bits e)].
    by apply (bits_test_eq (fun l => Z.lor (Z.shiftl (Z.land (group 0 l) 0x07) 5) (group 1 l)) (fun l => bits_value (take 8 (drop 2 l)))
      [bit d 1; bit d 0; bit e 7; bit e 6; bit e 5; bit e 4; bit e 3; bit e 2; bit e 1; bit e 0]); vm_compute.
Qed.

Lemma base32_read_pads k : forall j p, (0 < j)%nat -> base32_read j p (replicate k (chr 61)) = Some (replicate k 0, if (k =? 0)%nat then p else if (p =? 0)%nat then j else p).
Proof.
  induction k as [|k IH]; intros j p Hj; [done|]. cbn [replicate base32_read]. change (b2z (toupper (chr 61))) with 61.
  change ((65 <=? 61) && (61 <=? 90)) with false. change ((50 <=? 61) && (61 <=? 55)) with false. change (61 =? 61) with true. cbv iota.
  rewrite IH by lia. cbn [mbind option_bind]. destruct (Nat.eqb_spec p 0) as [->|Hp]; destruct k; cbn [Nat.eqb]; try done.
  - by rewrite (proj2 (Nat.eqb_neq j 0)) by lia.
  - by rewrite (proj2 (Nat.eqb_neq p 0)).
Qed.

(** A block of [m] bytes, padded with zeros to five, is encoded in [num_out]
    characters. *)
Lemma base32_decode_padded m num_out block a b c d e :
  base32_block block = ((fun g => char_at base32_table (bits_value g)) <$> take num_out (base32_groups a b c d e)) ++ replicate (8 - num_out) (chr 61) ->
  block = take m [a; b; c; d; e] -> (0 < num_out <= 8)%nat ->
  nth (if (8 - num_out =? 0)%nat then 0%nat else num_out) [5; 1; 1; 2; 2; 3; 4; 4; 5]%nat 0%nat = m ->
  bits_value <$> drop num_out (base32_groups a b c d e) = replicate (8 - num_out) 0 ->
  length (base32_block block) = 8%nat /\ base32_decode_block (base32_block block) = Some block.
Proof.
  intros E Hblock Hn Hout Hzero. set (gs := base32_groups a b c d e) in *.
  assert (length (base32_block block) = 8%nat) as Hlen by (rewrite E, length_app, length_fmap, length_take, length_replicate; cbn; lia).
  split; [done|]. unfold base32_decode_block. rewrite Hlen. change (8 <? 8)%nat with false. cbv iota. rewrite E, base32_read_groups by (apply Forall_take; by repeat constructor).
  assert (length (take num_out gs) = num_out) as -> by (rewrite length_take; cbn; lia). rewrite Nat.add_0_l, base32_read_pads by lia.
  cbn [mbind option_bind]. rewrite Nat.eqb_refl, Hout, <- Hzero, <- fmap_app, take_drop. unfold gs. by rewrite base32_decode_groups, <- Hblock.
Qed.

(** Whatever is encoded in base32 can be decoded. *)
Lemma base32_blocks_decoded block :
  (0 < length block <= 5)%nat -> length (base32_block block) = 8%nat /\ base32_decode_block (base32_block block) = Some block.
Proof.
  intros Hl. destruct block as [|a [|b [|c [|d [|e [|? ?]]]]]]; cbn in Hl; try lia.
  - pose proof (f_equal (take 2) (base32_char_values a (z2b 0) (z2b 0) (z2b 0) (z2b 0))) as H.
    apply (base32_decode_padded 1 2 [a] a (z2b 0) (z2b 0) (z2b 0) (z2b 0)); [|done|lia|done|done]. symmetry. exact (f_equal (fun l => l ++ replicate 6 (chr 61)) H).
  - pose proof (f_equal (take 4) (base32_char_values a b (z2b 0) (z2b 0) (z2b 0))) as H.
    apply (base32_decode_padded 2 4 [a; b] a b (z2b 0) (z2b 0) (z2b 0)); [|done|lia|done|done]. symmetry. exact (f_equal (fun l => l ++ replicate 4 (chr 61)) H).
  - pose proof (f_equal (take 5) (base32_char_values a b c (z2b 0) (z2b 0))) as H.
    apply (base32_decode_padded 3 5 [a; b; c] a b c (z2b 0) (z2b 0)); [|done|lia|done|done]. symmetry. exact (f_equal (fun l => l ++ replicate 3 (chr 61)) H).
  - pose proof (f_equal (take 7) (base32_char_values a b c d (z2b 0))) as H.
    apply (base32_decode_padded 4 7 [a; b; c; d] a b c d (z2b 0)); [|done|lia|done|done]. symmetry. exact (f_equal (fun l => l ++ replicate 1 (chr 61)) H).
  - pose proof (f_equal (take 8) (base32_char_values a b c d e)) as H.
    apply (base32_decode_padded 5 8 [a; b; c; d; e] a b c d e); [|done|lia|done|done]. symmetry. exact (f_equal (fun l => l ++ []) H).
Qed.

(** The blocks of the input are not empty. *)
Lemma chunks_sizes {A} fuel n (s : list A) : (0 < n)%nat -> Forall (fun l => 0 < length l <= n)%nat (chunks fuel n s).
Proof.
  intros Hn. revert s. induction fuel as [|fuel IH]; intros [|x s]; cbn [chunks]; constructor; [|done]. rewrite length_take. cbn. lia.
Qed.

Lemma chunks_concat {A} fuel n (s : list A) : (0 < n)%nat -> (length s <= fuel)%nat -> concat (chunks fuel n s) = s.
Proof.
  intros Hn. revert s. induction fuel as [|fuel IH]; intros [|x s] H; cbn [chunks concat length] in *; try (done || lia).
  rewrite IH by (rewrite length_drop; cbn; lia). apply take_drop.
Qed.

Lemma base32decode_base32encode s : base32decode (base32encode s) = s.
Proof.
  unfold base32decode, base32encode. assert (forall l, Forall (fun b : bytes => 0 < length b <= 5)%nat l ->
    mapM base32_decode_block (blocks_of_input 8 (l ≫= base32_block)) = Some l) as H.
  { induction 1 as [|b l Hb _ IH]; [done|]. destruct (base32_blocks_decoded b Hb) as [Hl Hd]. rewrite bind_cons, blocks_app by (done || lia).
    cbn [mapM]. by rewrite Hd, IH. }
  rewrite H by (by apply chunks_sizes; lia). change (concat (blocks_of_input 5 s) = s). apply chunks_concat; lia.
Qed.

(** ** URLs *)

(** The character [x] is not in [s]. *)
Definition absent (x : Z) (s : bytes) : Prop := Forall (fun c => b2z c <> x) s.

Lemma is_char_false c x : b2z c <> x -> is_char c x = false.
Proof. intros H. by apply Z.eqb_neq. Qed.

Lemma index_of_app x l1 l2 : absent x l1 -> index_of x (l1 ++ l2) = (length l1 + index_of x l2)%nat.
Proof. induction 1 as [|c l Hc _ IH]; [done|]. cbn. by rewrite is_char_false, IH. Qed.

Lemma index_of_inside x l1 l2 : (index_of x l1 < length l1)%nat -> index_of x (l1 ++ l2) = index_of x l1.
Proof. induction l1 as [|c l IH]; cbn; [lia|]. destruct (is_char c x); [done|]. intros H. by rewrite IH by lia. Qed.

Lemma index_of_absent x l : absent x l -> index_of x l = length l.
Proof. intros H. rewrite <- (app_nil_r l) at 1. rewrite index_of_app by done. cbn. lia. Qed.

Lemma index_of_le x l : (index_of x l <= length l)%nat.
Proof. induction l as [|c l IH]; cbn; [done|]. destruct (is_char c x); lia. Qed.

Lemma absent_take x n l : (n <= index_of x l)%nat -> absent x (take n l).
Proof.
  revert n. induction l as [|c l IH]; intros [|n] H; cbn in *; try constructor.
  - destruct (is_char c x) eqn:E; [lia|]. by apply Z.eqb_neq.
  - destruct (is_char c x); [lia|]. apply IH. lia.
Qed.

Lemma absent_or x l : absent x l \/ (index_of x l < length l)%nat.
Proof.
  induction l as [|c l IH]; [left; constructor|]. cbn. destruct (is_char c x) eqn:E; [right; lia|]. apply Z.eqb_neq in E.
  destruct IH; [left; by constructor|right; lia].
Qed.

Lemma index_of_take x n l : (index_of x (take n l) < length (take n l))%nat -> index_of x l = index_of x (take n l).
Proof. intros H. rewrite <- (take_drop n l) at 1. by apply index_of_inside. Qed.

Lemma find_port_pos_drop start rest : find_port_pos start rest = (fun k => start + k)%nat <$> find_port_pos 0 (drop start rest).
Proof.
  unfold find_port_pos. rewrite drop_0. destruct (drop start rest) as [|c l]; cbn [fmap option_fmap option_map]; [by rewrite Nat.add_0_r|].
  destruct (is_char c 91); [|done]. destruct (_ =? _)%nat; [done|]. cbn. f_equal. lia.
Qed.

(** The host [take h host] followed by a colon is found again. *)
Lemma host_found_again host pp h tail :
  find_port_pos 0 host = Some pp -> (h <= pp)%nat -> (h <= length host)%nat ->
  (forall c l, take h host = c :: l -> is_char c 91 = true -> (index_of 93 (take h host) < h)%nat) ->
  find_port_pos 0 (take h host ++ chr 58 :: tail) = Some h.
Proof.
  intros Hf Hle Hlen Hbr. assert (length (take h host) = h) as Hh by (rewrite length_take; lia).
  destruct host as [|c host]; [cbn in Hlen; assert (h = 0%nat) as -> by lia; done|]. destruct h as [|h]; [done|].
  unfold find_port_pos in Hf |- *. rewrite drop_0 in *. cbn [take app] in *. destruct (is_char c 91) eqn:Hc.
  - specialize (Hbr c (take h host) eq_refl Hc). set (H := c :: take h host) in *. change (c :: take h host ++ chr 58 :: tail) with (H ++ chr 58 :: tail).
    rewrite index_of_inside by lia. assert (index_of 93 (c :: host) = index_of 93 H) as E by (apply (index_of_take 93 (S h) (c :: host)); cbn [take]; fold H; lia).
    rewrite E in Hf. generalize dependent (index_of 93 H). intros k Hf Hbr _.
    case_match; [done|]. injection Hf as Hf. change (k + index_of 58 (drop k (c :: host)) = pp)%nat in Hf.
    rewrite (proj2 (Nat.eqb_neq k _)) by (rewrite length_app; cbn [length]; lia). f_equal. rewrite drop_app_le by lia.
    assert (absent 58 (drop k H)) as Hab.
    { assert (drop k H = take (S h - k) (drop k (c :: host))) as -> by (change H with (take (S h) (c :: host)); apply skipn_firstn_comm). apply absent_take. lia. }
    rewrite index_of_app, length_drop by done. change (index_of 58 (chr 58 :: tail)) with 0%nat. lia.
  - injection Hf as Hf. change (index_of 58 (c :: host) = pp)%nat in Hf. f_equal. change (c :: take h host ++ chr 58 :: tail) with ((c :: take h host) ++ chr 58 :: tail).
    rewrite index_of_app; [change (index_of 58 (chr 58 :: tail)) with 0%nat; rewrite Nat.add_0_l, Nat.add_0_r; exact Hh|]. change (c :: take h host) with (take (S h) (c :: host)). apply absent_take. lia.
Qed.

(** The last step of [parse_authority], from the position of the host. *)
Definition parse_host (P auth : bytes) (start : nat) (rest : bytes) : option error_code * url_components :=
  let port := if bool_decide (P = str "https") then 443 else 80 in
  let end_ := index_of 47 rest in
  match find_port_pos start rest with
  | None => (Some expected_close_bracket_in_address, Url P auth [] port (drop start rest))
  | Some port_pos =>
      if (port_pos <? end_)%nat
      then (None, Url P auth (sub_range start port_pos rest) (atoi (sub_range (S port_pos) end_ rest)) (drop end_ rest))
      else (None, Url P auth (sub_range start end_ rest) port (drop end_ rest))
  end.

Lemma parse_host_spec P auth start rest u :
  parse_host P auth start rest = (None, u) -> (start <= index_of 47 rest)%nat ->
  exists pp h, find_port_pos 0 (drop start rest) = Some pp /\ (h <= pp)%nat /\ (start + h <= index_of 47 rest)%nat /\
    url_hostname u = take h (drop start rest) /\ url_auth u = auth /\ url_protocol u = P /\ - 2 ^ 31 <= url_port u < 2 ^ 31.
Proof.
  unfold parse_host. cbv zeta. rewrite find_port_pos_drop. intros H Hs. destruct (find_port_pos 0 (drop start rest)) as [pp|]; [|done]. cbn [fmap option_fmap option_map] in H.
  exists pp. assert (forall v, - 2 ^ 31 <= atoi v < 2 ^ 31) as Hatoi.
  { intros v. unfold atoi, to_int32. pose proof (Z.mod_pos_bound (default 0 (strtoll v) + 2 ^ 31) (2 ^ 32) ltac:(lia)). lia. }
  destruct (Nat.ltb_spec (start + pp) (index_of 47 rest)) as [Hlt|Hge]; injection H as <-; cbn [url_hostname url_auth url_protocol url_port]; unfold sub_range.
  - exists pp. split_and!; try done; try lia. { f_equal. lia. } all: apply Hatoi.
  - exists (index_of 47 rest - start)%nat. split_and!; try done; try lia. all: case_bool_decide; lia.
Qed.

(** A host, a colon, a number and a path are read as such. *)
Lemma parse_host_printed P auth start pre H D path :
  length pre = start -> find_port_pos 0 (H ++ chr 58 :: D ++ path) = Some (length H) ->
  absent 47 pre -> absent 47 H -> absent 47 D -> index_of 47 path = 0%nat ->
  parse_host P auth start (pre ++ H ++ chr 58 :: D ++ path) = (None, Url P auth H (atoi D) path) /\
  index_of 47 (pre ++ H ++ chr 58 :: D ++ path) = (start + length H + S (length D))%nat.
Proof.
  intros Hpre Hf A1 A2 A3 Hpath.
  assert (index_of 47 (pre ++ H ++ chr 58 :: D ++ path) = (start + length H + S (length D))%nat) as He.
  { rewrite !index_of_app by done. change (index_of 47 (chr 58 :: D ++ path)) with (S (index_of 47 (D ++ path))). rewrite index_of_app, Hpath by done. lia. }
  split; [|done]. unfold parse_host. cbv zeta. rewrite He, find_port_pos_drop, <- Hpre, drop_app_length, Hf. cbn [fmap option_fmap option_map].
  rewrite (proj2 (Nat.ltb_lt _ _)) by lia. unfold sub_range. f_equal.
  assert (forall k, drop (length pre + k) (pre ++ H ++ chr 58 :: D ++ path) = drop k (H ++ chr 58 :: D ++ path)) as Hdrop.
  { intros k. by rewrite <- drop_drop, drop_app_length. }
  rewrite drop_app_length. replace (length pre + length H - length pre)%nat with (length H) by lia. rewrite take_app_length.
  replace (S (length pre + length H)) with (length pre + S (length H))%nat by lia. rewrite Hdrop.
  replace (length pre + length H + S (length D))%nat with (length pre + (length H + S (length D)))%nat by lia. rewrite Hdrop.
  assert (forall k (l : bytes), drop (length H + k) (H ++ l) = drop k l) as Hdrop2 by (intros k l; by rewrite <- drop_drop, drop_app_length).
  replace (S (length H)) with (length H + 1)%nat by lia. rewrite !Hdrop2. cbn [drop].
  replace (length pre + (length H + S (length D)) - (length pre + (length H + 1)))%nat with (length D) by lia. by rewrite drop_0, take_app_length, drop_app_length.
Qed.

Lemma absent_to_string x n : - 2 ^ 31 <= n < 2 ^ 31 -> x = 47 \/ x = 58 \/ x = 64 \/ x = 0 -> absent x (to_string n).
Proof.
  intros Hn Hx. eapply Forall_impl; [apply to_string_chars; lia|]. intros c [H|H]; [|cbn in H; lia].
  unfold is_digit in H. apply andb_true_iff in H as [H1%Z.leb_le H2%Z.leb_le]. cbn. lia.
Qed.

(** [parse_authority], with its last step named. *)
Lemma parse_authority_eq P rest :
  parse_authority P rest =
  let '(auth, start) := if ((index_of 64 rest <? length rest) && (index_of 58 rest <? length rest) && (index_of 58 rest <? index_of 64 rest) && (index_of 64 rest <? index_of 47 rest))%nat
    then (take (index_of 64 rest) rest, S (index_of 64 rest)) else ([], 0%nat) in parse_host P auth start rest.
Proof. done. Qed.

(** The brackets around a host name are closed. *)
Definition brackets_closed (host : bytes) : Prop :=
  forall c l, host = c :: l -> is_char c 91 = true -> (index_of 93 host < length host)%nat.

(** What is read after the credentials is read again. *)
Lemma parse_host_again P auth start rest u pre path :
  parse_host P auth start rest = (None, u) -> (start <= index_of 47 rest)%nat -> brackets_closed (url_hostname u) ->
  absent 47 pre -> index_of 47 path = 0%nat ->
  let s := pre ++ url_hostname u ++ chr 58 :: to_string (url_port u) ++ path in
  parse_host P auth (length pre) s = (None, Url P auth (url_hostname u) (url_port u) path) /\
  index_of 47 s = (length pre + length (url_hostname u) + S (length (to_string (url_port u))))%nat /\
  url_auth u = auth /\ - 2 ^ 31 <= url_port u < 2 ^ 31 /\
  exists h, (start + h <= index_of 47 rest)%nat /\ url_hostname u = take h (drop start rest).
Proof.
  intros Hp Hs Hbr Hpre Hpath s. destruct (parse_host_spec P auth start rest u Hp Hs) as (pp & h & Hf & Hle & Hh & HH & Ha & _ & Hport).
  pose proof (index_of_le 47 rest). assert (absent 47 (url_hostname u)) as HH47.
  { rewrite HH. rewrite <- (Nat.add_sub h start). rewrite Nat.add_comm, <- skipn_firstn_comm. apply Forall_drop, absent_take. lia. }
  assert (length (url_hostname u) = h) as Hl by (rewrite HH, length_take, length_drop; lia).
  destruct (parse_host_printed P auth (length pre) pre (url_hostname u) (to_string (url_port u)) path) as [H1 H2]; try done.
  - rewrite Hl, HH. eapply host_found_again; [done..|rewrite length_drop; lia|]. intros c l E Hc. rewrite <- HH in *. rewrite <- Hl. by apply (Hbr c l).
  - apply absent_to_string; auto.
  - rewrite atoi_to_string in H1 by done. split_and!; try done; try lia. by exists h.
Qed.

(** A URL that was parsed is parsed to the same components again, whatever the path
    is now. *)
Lemma authority_parsed_again P rest u path :
  parse_authority P rest = (None, u) -> index_of 47 path = 0%nat -> brackets_closed (url_hostname u) ->
  parse_authority P (url_auth u ++ (if bool_decide (url_auth u = []) then [] else str "@") ++ url_hostname u ++ chr 58 :: to_string (url_port u) ++ path) =
  (None, Url P (url_auth u) (url_hostname u) (url_port u) path).
Proof.
  rewrite (parse_authority_eq P rest). intros Hp Hpath Hbr. destruct (_ && _) eqn:Hcond in Hp.
  - rewrite !andb_true_iff, !Nat.ltb_lt in Hcond. destruct Hcond as [[[Hat Hcn] Hca] Hae]. set (A := take (index_of 64 rest) rest) in *.
    assert (length A = index_of 64 rest) as HA by (unfold A; rewrite length_take; lia).
    assert (absent 64 A) as HA64 by (by apply absent_take).
    assert (absent 47 A) as HA47 by (apply absent_take; lia).
    destruct (parse_host_again P A _ rest u (A ++ str "@") path Hp) as (H1 & H2 & Ha & Hport & _); [lia|done|apply Forall_app; split; [done|by repeat constructor]|done|].
    rewrite Ha, bool_decide_eq_false_2 by (intros E; rewrite E in HA; cbn in HA; lia). rewrite <- (app_assoc A) in *. rewrite parse_authority_eq, H2.
    assert (index_of 58 A < length A)%nat as H58.
    { destruct (absent_or 58 A) as [Hab|]; [|done]. assert (index_of 58 (A ++ drop (index_of 64 rest) rest) = index_of 58 rest) as E by (unfold A; by rewrite take_drop). rewrite index_of_app in E by done. lia. }
    rewrite (index_of_inside 58 A), (index_of_app 64 A) by done. rewrite length_app in *. change (index_of 64 (str "@" ++ _)) with 0%nat.
    change (length (str "@")) with 1%nat in *. rewrite !(proj2 (Nat.ltb_lt _ _)) by (rewrite ?length_app; cbn; lia). cbn [andb].
    rewrite Nat.add_0_r, take_app_length. rewrite <- H1. f_equal. by rewrite Nat.add_1_r.
  - destruct (parse_host_again P [] 0 rest u [] path Hp) as (H1 & H2 & Ha & Hport & h & Hh & HH); [lia|done|constructor|done|].
    rewrite Ha, bool_decide_eq_true_2 by done. cbn [app] in *. rewrite parse_authority_eq. match goal with |- context [if ?b then _ else _] => destruct b eqn:Hc2 end; [|exact H1]. exfalso.
    rewrite !andb_true_iff, !Nat.ltb_lt in Hc2. destruct Hc2 as [[[Hat Hcn] Hca] Hae]. rewrite H2 in Hae. set (H := url_hostname u) in *. cbn [length] in Hae.
    assert (index_of 64 H < length H)%nat as H64.
    { destruct (absent_or 64 H) as [Hab|]; [|done]. rewrite index_of_app in Hae by done. change (index_of 64 (chr 58 :: ?l)) with (S (index_of 64 l)) in Hae.
      rewrite index_of_app in Hae by (apply absent_to_string; auto). lia. }
    rewrite (index_of_inside 64) in Hca by done. assert (index_of 58 H < length H)%nat as H58.
    { destruct (absent_or 58 H) as [Hab|]; [|done]. rewrite index_of_app in Hca by done. lia. }
    rewrite index_of_inside in Hca by done. rewrite drop_0 in HH. rewrite HH in H64, H58, Hca. pose proof (index_of_le 47 rest).
    rewrite <- !(index_of_take _ h rest) in Hca by done. rewrite <- (index_of_take 64 h rest) in H64 by done. rewrite <- (index_of_take 58 h rest) in H58 by done. rewrite length_take in *. apply not_true_iff_false in Hcond. apply Hcond.
    rewrite !andb_true_iff, !Nat.ltb_lt. lia.
Qed.

(** [print_url] of a URL without NUL, with the path escaped. *)
Definition encoded (u : url_components) : url_components :=
  Url (url_protocol u) (url_auth u) (url_hostname u) (url_port u) (escape_path (url_path u)).

Lemma c_str_absent s : absent 0 s -> c_str s = s.
Proof. intros H. unfold c_str. rewrite index_of_absent by done. by apply take_ge. Qed.

Lemma escape_path_absent s : absent 0 (escape_path s).
Proof.
  assert (forall c, forallb (fun x => negb (is_char x 0)) (escape_path [c]) = true) as H.
  { intros c. apply (bytes_test (fun c => forallb (fun x => negb (is_char x 0)) (escape_path [c]))). by vm_compute. }
  unfold escape_path, escape_string_impl. apply Forall_bind, Forall_true. intros c. specialize (H c). unfold escape_path, escape_string_impl in H. cbn [mbind list_bind] in H.
  rewrite app_nil_r, forallb_forall in H. apply Forall_forall. intros x Hx. apply list_elem_of_In, H, negb_true_iff, Z.eqb_neq in Hx. exact Hx.
Qed.

Lemma escape_path_slash s : index_of 47 s = 0%nat -> index_of 47 (escape_path s) = 0%nat.
Proof.
  destruct s as [|c s]; [done|]. cbn [index_of]. destruct (is_char c 47) eqn:Hc; [|done]. intros _. apply Z.eqb_eq in Hc.
  assert (c = chr 47) as -> by (rewrite <- (z2b_b2z c), Hc; done). done.
Qed.

Lemma index_of_drop x s : index_of x (drop (index_of x s) s) = 0%nat.
Proof. induction s as [|c s IH]; [done|]. cbn [index_of]. destruct (is_char c x) eqn:E; [cbn; by rewrite E|done]. Qed.

(** A parsed path begins with a slash, and no component has a NUL when the URL has
    none. *)
Lemma parse_authority_parts P rest u :
  parse_authority P rest = (None, u) -> absent 0 rest ->
  url_protocol u = P /\ index_of 47 (url_path u) = 0%nat /\ absent 0 (url_auth u) /\ absent 0 (url_hostname u).
Proof.
  unfold parse_authority, sub_range. intros H H0. match type of H with (let '(_, _) := ?p in _) = _ => destruct p as [auth start] eqn:E end.
  assert (absent 0 auth) by (destruct (_ && _) in E; injection E as <- <-; [by apply Forall_take|constructor]).
  destruct (find_port_pos start rest); [|done]. case_match; injection H as <-; cbn [url_protocol url_path url_auth url_hostname];
    split_and!; try done; try apply index_of_drop; by apply Forall_take, Forall_drop.
Qed.

Lemma blanks_le s : (blanks s <= index_of 58 s)%nat.
Proof.
  induction s as [|c s IH]; [done|]. cbn [blanks index_of]. destruct (_ || _) eqn:E; [|lia]. destruct (is_char c 58) eqn:E2; [|lia].
  apply Z.eqb_eq in E2. unfold is_char in E. rewrite E2 in E. done.
Qed.

(** A protocol that was read, three characters and something else are read as such. *)
Lemma protocol_read_again url rest :
  let P := sub_range (blanks url) (index_of 58 url) url in
  parse_url_components (P ++ str "://" ++ rest) = parse_authority P rest.
Proof.
  intros P. assert (absent 58 P) as HP.
  { unfold P, sub_range. rewrite <- skipn_firstn_comm. by apply Forall_drop, absent_take. }
  assert (blanks (P ++ str "://" ++ rest) = 0%nat) as Hb.
  { assert (forall s : bytes, blanks (drop (blanks s) s) = 0%nat) as Hd.
    { induction s as [|c s IH]; [done|]. cbn [blanks]. destruct (_ || _) eqn:E; [done|]. cbn. by rewrite E. }
    specialize (Hd url). unfold P, sub_range. destruct (index_of 58 url - blanks url)%nat; [done|]. destruct (drop (blanks url) url) as [|c l]; [done|].
    cbn [take app blanks] in *. by destruct (_ || _). }
  unfold parse_url_components. rewrite Hb, (index_of_app 58 P) by done. change (index_of 58 (str "://" ++ rest)) with 0%nat.
  rewrite Nat.add_0_r, drop_app_length. assert (sub_range 0 (length P) (P ++ str "://" ++ rest) = P) as ->; [|done].
  unfold sub_range. by rewrite drop_0, Nat.sub_0_r, take_app_length.
Qed.

(** What [parse_url_components] has read up to the host. *)
Lemma parse_url_components_rest url u :
  parse_url_components url = (None, u) ->
  exists rest, parse_authority (sub_range (blanks url) (index_of 58 url) url) rest = (None, u) /\ drop (3 + index_of 58 url) url = rest.
Proof.
  unfold parse_url_components. intros H. destruct (drop (index_of 58 url) url) as [|c [|c1 [|c2 rest]]] eqn:E; try done.
  destruct (_ && _); [|done]. exists rest. split; [done|]. rewrite Nat.add_comm, <- drop_drop, E. done.
Qed.

(** ** The theorems *)

(** Percent escapes are undone: whatever bytes a path or a string has, unescaping
    what [escape_path] and [escape_string] make of it gives the same bytes, without
    an error; and an escaped path needs no further encoding. *)
Theorem escapes_undone s :
  unescape_string (escape_path s) = (None, s) /\ unescape_string (escape_string s) = (None, s) /\ need_encoding (escape_path s) = false.
Proof. split_and!; [apply unescape_escape_path|apply unescape_escape_string|apply escape_path_encoded]. Qed.

(** C37: [base64encode] and [base32encode] are the encodings of RFC 4648: the bits of
    the input in groups of six or five, the last one filled with zeros, each written
    with the character of its value, and padding up to a whole number of blocks; and
    [base32decode] gives back what [base32encode] was given. *)
Theorem base_encodings s :
  base64encode s = rfc4648 6 4 rfc4648_base64 s /\ base32encode s = rfc4648 5 8 rfc4648_base32 s /\ base32decode (base32encode s) = s.
Proof.
  assert (rfc4648_base64 = base64_table) as -> by (vm_compute; reflexivity). assert (rfc4648_base32 = base32_table) as -> by (vm_compute; reflexivity).
  split_and!; [apply base64encode_rfc|apply base32encode_rfc|apply base32decode_base32encode].
Qed.

(** C38: of a URL that parses and whose part after the host has a character to encode,
    [maybe_url_encode] keeps the protocol, the credentials, the host and the port, and
    escapes all that comes after them, the query and escapes that are there already
    included: the result parses to the same parts and to the escaped rest, which
    unescaped gives the rest as it was; encoding it again changes nothing.  The URL has
    no NUL character, the brackets around its host are closed within the host, and the
    result fits the buffer. *)
Theorem maybe_url_encode_escapes_rest LIBED2K_MAX_PATH url u :
  parse_url_components url = (None, u) -> need_encoding (url_path u) = true ->
  absent 0 url -> brackets_closed (url_hostname u) -> (length (print_url (encoded u)) <= LIBED2K_MAX_PATH * 4 - 1)%nat ->
  parse_url_components (maybe_url_encode LIBED2K_MAX_PATH url) = (None, encoded u) /\
  unescape_string (url_path (encoded u)) = (None, url_path u) /\
  maybe_url_encode LIBED2K_MAX_PATH (maybe_url_encode LIBED2K_MAX_PATH url) = maybe_url_encode LIBED2K_MAX_PATH url.
Proof.
  intros Hp Hn H0 Hbr Hlen. destruct (parse_url_components_rest url u Hp) as (rest & Ha & Hrest).
  set (P := sub_range (blanks url) (index_of 58 url) url) in *.
  destruct (parse_authority_parts P rest u Ha) as (HP & Hslash & Hauth & Hhost); [rewrite <- Hrest; by apply Forall_drop|].
  assert (absent 0 (url_protocol u)) as HP0 by (rewrite HP; by apply Forall_take, Forall_drop).
  assert (parse_url_components (maybe_url_encode LIBED2K_MAX_PATH url) = (None, encoded u)) as He.
  { unfold maybe_url_encode. rewrite Hp, Hn. cbn [negb]. fold (encoded u). rewrite take_ge by done. unfold print_url, encoded. cbn [url_protocol url_auth url_hostname url_port url_path].
    rewrite !c_str_absent by (done || apply escape_path_absent). rewrite HP. unfold P. rewrite protocol_read_again. fold P.
    by apply (authority_parsed_again P rest); [|apply escape_path_slash|]. }
  split_and!; [done|apply unescape_escape_path|]. unfold maybe_url_encode at 1. rewrite He. unfold encoded at 1. cbn [url_path].
  by rewrite escape_path_encoded.
Qed.

Lemma maybe_url_encode_escapes_rest_witness :
  parse_url_components (maybe_url_encode 255 (str "https://u:p@host:8080/a b?x=1")) = (None, Url (str "https") (str "u:p") (str "host") 8080 (str "/a%20b%3fx%3d1")).
Proof.
  apply (maybe_url_encode_escapes_rest 255 (str "https://u:p@host:8080/a b?x=1") (Url (str "https") (str "u:p") (str "host") 8080 (str "/a b?x=1"))).
  - vm_compute. reflexivity.
  - vm_compute. reflexivity.
  - apply (bool_decide_unpack _). vm_compute. exact I.
  - intros c l [= <- <-]. vm_compute. discriminate.
  - apply Nat.leb_le. vm_compute. reflexivity.
Defined.

(** The query of a URL is lost when its path is encoded, and what is encoded already is
    encoded once more. *)
Theorem query_and_escapes_encoded :
  snd (url_has_argument (str "http://h/a b?x=1") (str "x")) = str "1" /\
  maybe_url_encode 255 (str "http://h/a b?x=1") = str "http://h:80/a%20b%3fx%3d1" /\
  fst (url_has_argument (maybe_url_encode 255 (str "http://h/a b?x=1")) (str "x")) = None /\
  maybe_url_encode 255 (str "http://h/a%20b c") = str "http://h:80/a%2520b%20c".
Proof. split_and!; vm_compute; reflexivity. Qed.
