(* ===== verification/Collection.v ===== *)
(** * Links and collections of files: src/file.cpp, src/util.cpp,
    include/libed2k/file.hpp

    The ed2k links of files, the collections made of them in their text and binary
    form, and the structures of the .met files.  What is read from or written to a
    file is its bytes. *)

From Stdlib Require Import Strings.String Strings.Byte.
From stdpp Require Import list.
From S2P Require Import Prelude Archive Md4Hash CTag Packets Search Entry EscapeString.
Open Scope Z_scope.

(** ** url_encode and url_decode *)

(** The table [SAFE]: only letters and digits. *)
Definition SAFE (c : byte) : bool :=
  let x := b2z c in
  ((48 <=? x) && (x <=? 57)) || ((65 <=? x) && (x <=? 90)) || ((97 <=? x) && (x <=? 122)).

Definition url_encode (s : bytes) : bytes :=
  s ≫= fun c => if SAFE c then [c] else [chr 37; hex_char (Z.shiftr (b2z c) 4); hex_char (Z.land (b2z c) 0x0F)].

(** The table [HEX2DEC] has 256 entries.  Its index is a [char] converted to [size_t]:
    a character of 128 and above is negative and beyond the table ([None]). *)
Definition HEX2DEC (c : byte) : option Z := if b2z c <? 128 then Some (hex_to_int c) else None.

(** [None] is a read outside of the table. *)
Fixpoint url_decode (s : bytes) : option bytes :=
  match s with
  | c :: ((h :: ((l :: rest) as s2)) as s1) =>
      if is_char c 37 then
        dec1 ← HEX2DEC h;
        if dec1 =? -1 then r ← url_decode s1; Some (c :: r)
        else
          dec2 ← HEX2DEC l;
          if dec2 =? -1 then r ← url_decode s1; Some (c :: r)
          else r ← url_decode rest; Some (z2b (Z.shiftl dec1 4 + dec2) :: r)
      else r ← url_decode s1; Some (c :: r)
  | _ => Some s
  end.

(** ** Links *)

Record emule_collection_entry := CollectionEntry { m_filename : bytes; m_filesize : Z; m_filehash : md4_hash }.

#[global] Instance emule_collection_entry_eq_dec : EqDecision emule_collection_entry.
Proof. solve_decision. Defined.

Definition entry_default : emule_collection_entry := CollectionEntry [] 0 hash_clear.

Definition collection_entry_eqb (a b : emule_collection_entry) : bool :=
  bool_decide (m_filename a = m_filename b) && (m_filesize a =? m_filesize b) && hash_eqb (m_filehash a) (m_filehash b).

Definition entry_defined (e : emule_collection_entry) : bool :=
  negb (bool_decide (m_filename e = [])) && negb (m_filesize e =? 0) && defined (m_filehash e).

Definition link_prefix : bytes := str "ed2k://|file|".

Definition toLink (strFilename : bytes) (nFilesize : Z) (hFile : md4_hash) (uencode : bool) : bytes :=
  link_prefix ++ (if uencode then url_encode strFilename else strFilename) ++
  str "|" ++ to_string nFilesize ++ str "|" ++ toString hFile ++ str "|/".

(** [stream >> std::dec >> n] for an unsigned 64-bit integer: what follows the digits is
    left alone, and a sign negates within the type. *)
Definition read_uint64 (s : bytes) : option Z :=
  let s := skip_space s in
  let '(negative, s) :=
    match s with
    | c :: s' => if is_char c 45 then (true, s') else if is_char c 43 then (false, s') else (false, s)
    | [] => (false, [])
    end in
  match s with
  | c :: _ =>
      let v := digits_value 0 s in
      if is_digit c && (v <? 2 ^ 64) then Some (to_uint 8 (if negative then - v else v)) else None
  | [] => None
  end.

(** [None] is undefined behaviour of [url_decode]; a link that is not one gives the
    default entry. *)
Definition fromLink (strLink : bytes) : option emule_collection_entry :=
  let n := length strLink in
  if (n <? 51)%nat || negb (bool_decide (take 13 strLink = link_prefix)) || negb (bool_decide (drop (n - 2) strLink = str "|/"))
  then Some entry_default
  else
    let iName := (13 + index_of 124 (drop 13 strLink))%nat in
    if (iName =? n)%nat then Some entry_default
    else
      fileName ← url_decode (sub_range 13 iName strLink);
      let iSize := (S iName + index_of 124 (drop (S iName) strLink))%nat in
      if (iSize =? n)%nat then Some entry_default
      else
        match read_uint64 (sub_range (S iName) iSize strLink) with
        | None => Some entry_default
        | Some fileSize =>
            let iHash := (S iSize + index_of 124 (drop (S iSize) strLink))%nat in
            if (iHash =? n)%nat then Some entry_default
            else Some (CollectionEntry fileName (to_int64 fileSize) (fromString (take 32 (drop (S iSize) strLink))))
        end.

(** ** Structures of the .met and collection files *)

Definition FT_FILENAME : Z := 0x01.
Definition FT_FILEHASH : Z := 0x28.
Definition FT_ULPRIORITY : Z := 0x19.
Definition FT_ATTRANSFERRED : Z := 0x50.
Definition FT_ATREQUESTED : Z := 0x51.
Definition FT_ATACCEPTED : Z := 0x52.
Definition FT_ATTRANSFERREDHI : Z := 0x54.
Definition FT_FAST_RESUME_DATA : Z := 0x31.

(** [make_typed_tag] for an unsigned 64-bit integer and for a hash, by id. *)
Definition make_uint64_tag (v nNameId : Z) (bNewED2K : bool) : base_tag := Tag [] nNameId bNewED2K (typed_uint64 v).
Definition make_hash_tag (v : md4_hash) (nNameId : Z) (bNewED2K : bool) : base_tag := Tag [] nNameId bNewED2K (typed_hash v).

(** [tag_list<boost::uint32_t>] as an element of a collection. *)
Record tag_list32 := Tags32 { tags32 : tag_list }.
#[global] Instance tag_list32_serializable : Serializable tag_list32 := {
  fresh := Tags32 [];
  save x := tag_list_save 4 (tags32 x);
  load x := v0 ← tag_list_load 4 (tags32 x); mret (Tags32 v0)
}.
#[global] Program Instance tag_list32_wire : Wire tag_list32 := {
  wf x := tag_list_wf 4 (tags32 x); stored x := Tags32 (tags_stored (tags32 x))
}.
Next Obligation. wire_record tag_list32_serializable. Qed.

(** [m_nVersion] has no initial value: [fresh] stands for any. *)
Record emule_binary_collection := BinaryCollection { bc_nVersion : Z; bc_list : tag_list; bc_files : (container_holder 4 tag_list32) }.
#[global] Instance emule_binary_collection_serializable : Serializable emule_binary_collection := {
  fresh := BinaryCollection 0 [] fresh;
  save x := write_uint 4 (bc_nVersion x) ++ tag_list_save 4 (bc_list x) ++ save (bc_files x);
  load x := v0 ← read_uint 4; v1 ← tag_list_load 4 (bc_list x); v2 ← load (bc_files x); mret (BinaryCollection v0 v1 v2)
}.
#[global] Program Instance emule_binary_collection_wire : Wire emule_binary_collection := {
  wf x := is_uint 4 (bc_nVersion x) /\ tag_list_wf 4 (bc_list x) /\ wf (bc_files x);
  stored x := BinaryCollection (bc_nVersion x) (tags_stored (bc_list x)) (stored (bc_files x))
}.
Next Obligation. wire_record emule_binary_collection_serializable. Qed.

Definition MET_HEADER : Z := 0x0E.
Definition MET_HEADER_WITH_LARGEFILES : Z := 0x0F.

(** The header byte of a .met file: any other value throws. *)
Record met_file_header := MetHeader { met_header : Z }.
Definition met_header_valid (h : Z) : bool := (h =? MET_HEADER) || (h =? MET_HEADER_WITH_LARGEFILES).
#[global] Instance met_file_header_serializable : Serializable met_file_header := {
  fresh := MetHeader MET_HEADER_WITH_LARGEFILES;
  save x := write_uint 1 (met_header x);
  load x := v0 ← read_uint 1; if met_header_valid v0 then mret (MetHeader v0) else throw met_file_invalid_header_byte
}.
#[global] Program Instance met_file_header_wire : Wire met_file_header := {
  wf x := met_header_valid (met_header x) = true; stored x := x
}.
Next Obligation.
  intros [h] Hh. cbn [load save fresh met_file_header_serializable met_header] in *. rewrite <- (app_nil_r (write_uint 1 h)).
  eapply reads_bind; [apply reads_uint|rewrite Hh; apply reads_ret].
  apply orb_true_iff in Hh as [->%Z.eqb_eq| ->%Z.eqb_eq]; done.
Qed.

(** An entry of known.met. *)
Record known_file_entry := KnownFile {
  kf_nLastChanged : Z; kf_hFile : md4_hash; kf_hash_list : (container_holder 2 md4_hash); kf_list : tag_list }.
#[global] Instance known_file_entry_serializable : Serializable known_file_entry := {
  fresh := KnownFile 0 fresh fresh [];
  save x := write_uint 4 (kf_nLastChanged x) ++ save (kf_hFile x) ++ save (kf_hash_list x) ++ tag_list_save 4 (kf_list x);
  load x := v0 ← read_uint 4; v1 ← load (kf_hFile x); v2 ← load (kf_hash_list x); v3 ← tag_list_load 4 (kf_list x); mret (KnownFile v0 v1 v2 v3)
}.
#[global] Program Instance known_file_entry_wire : Wire known_file_entry := {
  wf x := is_uint 4 (kf_nLastChanged x) /\ wf (kf_hFile x) /\ wf (kf_hash_list x) /\ tag_list_wf 4 (kf_list x);
  stored x := KnownFile (kf_nLastChanged x) (stored (kf_hFile x)) (stored (kf_hash_list x)) (tags_stored (kf_list x))
}.
Next Obligation. wire_record known_file_entry_serializable. Qed.

Record known_file_collection := KnownFiles { kfc_header : met_file_header; kfc_list : (container_holder 4 known_file_entry) }.
#[global] Instance known_file_collection_serializable : Serializable known_file_collection := {
  fresh := KnownFiles fresh fresh;
  save x := save (kfc_header x) ++ save (kfc_list x);
  load x := v0 ← load (kfc_header x); v1 ← load (kfc_list x); mret (KnownFiles v0 v1)
}.
#[global] Program Instance known_file_collection_wire : Wire known_file_collection := {
  wf x := wf (kfc_header x) /\ wf (kfc_list x); stored x := KnownFiles (stored (kfc_header x)) (stored (kfc_list x))
}.
Next Obligation. wire_record known_file_collection_serializable. Qed.

(** server.met. *)
Record server_met_entry := ServerMet { sme_network_point : net_identifier; sme_list : tag_list }.
Definition server_met_entry_eqb (a b : server_met_entry) : bool := net_identifier_eqb (sme_network_point a) (sme_network_point b).
Definition server_met_entry_ltb (a b : server_met_entry) : bool := net_identifier_ltb (sme_network_point a) (sme_network_point b).
#[global] Instance server_met_entry_serializable : Serializable server_met_entry := {
  fresh := ServerMet fresh [];
  save x := save (sme_network_point x) ++ tag_list_save 4 (sme_list x);
  load x := v0 ← load (sme_network_point x); v1 ← tag_list_load 4 (sme_list x); mret (ServerMet v0 v1)
}.
#[global] Program Instance server_met_entry_wire : Wire server_met_entry := {
  wf x := wf (sme_network_point x) /\ tag_list_wf 4 (sme_list x); stored x := ServerMet (stored (sme_network_point x)) (tags_stored (sme_list x))
}.
Next Obligation. wire_record server_met_entry_serializable. Qed.

Record server_met := Servers { smet_header : met_file_header; smet_servers : (container_holder 4 server_met_entry) }.
#[global] Instance server_met_serializable : Serializable server_met := {
  fresh := Servers fresh fresh;
  save x := save (smet_header x) ++ save (smet_servers x);
  load x := v0 ← load (smet_header x); v1 ← load (smet_servers x); mret (Servers v0 v1)
}.
#[global] Program Instance server_met_wire : Wire server_met := {
  wf x := wf (smet_header x) /\ wf (smet_servers x); stored x := Servers (stored (smet_header x)) (stored (smet_servers x))
}.
Next Obligation. wire_record server_met_serializable. Qed.

(** What is saved of a transfer.  [trd_seed] is the byte of a [bool]. *)
Record transfer_resume_data := ResumeData {
  trd_hash : md4_hash; trd_filename : (string_holder 2); trd_filesize : Z; trd_seed : Z; trd_fast_resume_data : tag_list }.

Definition resume_data_new (hash : md4_hash) (filename : bytes) (size : Z) (seed : bool) (fr_data : bytes) : transfer_resume_data :=
  ResumeData hash (holder_of filename) size (Z.b2z seed)
    (if bool_decide (fr_data = []) then [] else [make_blob_tag fr_data FT_FAST_RESUME_DATA true]).

#[global] Instance transfer_resume_data_serializable : Serializable transfer_resume_data := {
  fresh := ResumeData fresh fresh 0 0 [];
  save x := save (trd_hash x) ++ save (trd_filename x) ++ write_uint 8 (to_uint 8 (trd_filesize x)) ++ write_uint 1 (trd_seed x) ++
            tag_list_save 1 (trd_fast_resume_data x);
  load x := v0 ← load (trd_hash x); v1 ← load (trd_filename x); v2 ← read_uint 8; v3 ← read_uint 1;
            v4 ← tag_list_load 1 (trd_fast_resume_data x); mret (ResumeData v0 v1 (to_int64 v2) v3 v4)
}.
#[global] Program Instance transfer_resume_data_wire : Wire transfer_resume_data := {
  wf x := wf (trd_hash x) /\ wf (trd_filename x) /\ - 2 ^ 63 <= trd_filesize x < 2 ^ 63 /\ is_uint 1 (trd_seed x) /\ tag_list_wf 1 (trd_fast_resume_data x);
  stored x := ResumeData (stored (trd_hash x)) (stored (trd_filename x)) (trd_filesize x) (trd_seed x) (tags_stored (trd_fast_resume_data x))
}.
Next Obligation.
  intros [h f n s l] (Hh & Hf & Hn & Hs & Hl). cbn [load save fresh transfer_resume_data_serializable trd_hash trd_filename trd_filesize trd_seed trd_fast_resume_data] in *.
  assert (to_int64 (to_uint 8 n) = n) as En.
  { unfold to_int64, to_uint. rewrite <- (Z.add_mod_idemp_l (n mod _)), Z.mod_mod, Z.add_mod_idemp_l by done. change (8 * Z.of_nat 8) with 64. rewrite Z.mod_small; lia. }
  reads_steps ltac:(first [apply reads_uint; first [done|unfold to_uint, is_uint; apply Z.mod_pos_bound; lia]|apply load_save; done|refine (reads_tag_list _ _ [] _); done]).
  rewrite En. apply (reads_bind_ret _ (ResumeData (stored h) (stored f) n s)). by apply (reads_tag_list 1 l []).
Qed.

(** ** Collections *)

Record emule_collection := Collection { m_name : bytes; m_files : list emule_collection_entry }.

Definition collection_eqb (a b : emule_collection) : bool :=
  (length (m_files a) =? length (m_files b))%nat && forallb (fun '(x, y) => collection_entry_eqb x y) (zip (m_files a) (m_files b)).

(** [operator==] of binary collections: [m_list != ec.m_list], then the sizes kept in the
    collections, then every list; [None] is a read beyond the second collection or an
    undefined comparison of tags. *)
Fixpoint tag_lists_equal (l1 l2 : list tag_list32) : option bool :=
  match l1, l2 with
  | [], _ => Some true
  | x :: l1, y :: l2 => match tag_list_eq (tags32 x) (tags32 y) with Some true => tag_lists_equal l1 l2 | r => r end
  | _ :: _, [] => None
  end.
Definition binary_collection_eqb (a b : emule_binary_collection) : option bool :=
  if negb (bc_nVersion a =? bc_nVersion b) then Some false
  else
    match tag_list_eq (bc_list a) (bc_list b) with
    | Some true =>
        if m_size (bc_files a) =? m_size (bc_files b) then tag_lists_equal (m_collection (bc_files a)) (m_collection (bc_files b))
        else Some false
    | r => r
    end.

Definition push_file (e : emule_collection_entry) (c : emule_collection) : emule_collection := Collection (m_name c) (m_files c ++ [e]).

(** The result and the collection. *)
Definition add_link (strLink : bytes) (c : emule_collection) : option (bool * emule_collection) :=
  ecl ← fromLink strLink;
  Some (if entry_defined ecl then (true, push_file ecl c) else (false, c)).

Definition add_file (strFilename : bytes) (nFilesize : Z) (strFilehash : bytes) (c : emule_collection) : bool * emule_collection :=
  if bool_decide (strFilename = []) || (nFilesize =? 0) || negb (length strFilehash =? 2 * MD4_DIGEST_LENGTH)%nat then (false, c)
  else
    let hash := fromString strFilehash in
    if negb (defined hash) then (false, c) else (true, push_file (CollectionEntry strFilename nFilesize hash) c).

Definition entry_link (e : emule_collection_entry) : bytes := toLink (m_filename e) (m_filesize e) (m_filehash e) false.

Definition get_ed2k_link (nIndex : nat) (c : emule_collection) : bytes :=
  match m_files c !! nIndex with Some e => entry_link e | None => [] end.

(** *** Saving *)

Definition entry_tags (e : emule_collection_entry) : tag_list32 :=
  Tags32 [make_string_tag (m_filename e) FT_FILENAME [] true; make_uint64_tag (to_uint 8 (m_filesize e)) FT_FILESIZE true;
          make_hash_tag (m_filehash e) FT_FILEHASH true].

(** The binary collection that is saved; [nVersion] is what the memory of the version
    happens to hold. *)
Definition to_binary (nVersion : Z) (c : emule_collection) : emule_binary_collection :=
  BinaryCollection nVersion [] (Holder 0 (entry_tags <$> m_files c)).

(** The links, with a line feed between them. *)
Fixpoint text_of (l : list emule_collection_entry) : bytes :=
  match l with
  | [] => []
  | [e] => entry_link e
  | e :: l => entry_link e ++ chr 10 :: text_of l
  end.

(** What the file holds afterwards; [None] is a failure.  [opened] is whether it could be
    created. *)
Definition save_collection (opened : bool) (nVersion : Z) (binary : bool) (c : emule_collection) : option bytes :=
  if bool_decide (m_files c = []) then None
  else if opened then Some (if binary then save (to_binary nVersion c) else text_of (m_files c)) else None.

(** *** Loading *)

(** The loop over the tags of a file: its name, size and hash. *)
Fixpoint file_of_tags (l : tag_list) (e : emule_collection_entry) : outcome emule_collection_entry :=
  match l with
  | [] => Ok e
  | p :: l =>
      match
        (if m_nNameId p =? FT_FILENAME then
           match asString p with Ok s => Ok (CollectionEntry s (m_filesize e) (m_filehash e)) | Throw x => Throw x end
         else if m_nNameId p =? FT_FILESIZE then
           match asInt p with Ok v => Ok (CollectionEntry (m_filename e) (to_int64 v) (m_filehash e)) | Throw x => Throw x end
         else if m_nNameId p =? FT_FILEHASH then
           match asHash p with Ok h => Ok (CollectionEntry (m_filename e) (m_filesize e) h) | Throw x => Throw x end
         else Ok e)
      with
      | Ok e => file_of_tags l e
      | Throw x => Throw x
      end
  end.

(** The loop over the files: an exception leaves what has been added before. *)
Fixpoint files_of_binary (l : list tag_list32) (c : emule_collection) : emule_collection :=
  match l with
  | [] => c
  | x :: l =>
      match file_of_tags (tags32 x) entry_default with
      | Ok e => files_of_binary l (if negb (bool_decide (m_filename e = [])) && defined (m_filehash e) then push_file e c else c)
      | Throw _ => c
      end
  end.

Definition load_binary (nVersion : Z) (data : bytes) (c : emule_collection) : emule_collection :=
  match load (BinaryCollection nVersion [] fresh) (IA data 0) with
  | Ok (ebc, _) => files_of_binary (m_collection (bc_files ebc)) c
  | Throw _ => c
  end.

(** [std::getline] until it fails: [line] is what has been read of the line. *)
Fixpoint getlines (line : bytes) (s : bytes) : list bytes :=
  match s with
  | [] => if bool_decide (line = []) then [] else [line]
  | c :: s => if is_char c 10 then line :: getlines [] s else getlines (line ++ [c]) s
  end.

(** A carriage return at the end of a line of more than two characters is removed. *)
Definition strip_cr (line : bytes) : bytes :=
  if (2 <? length line)%nat && is_char (List.last line (chr 0)) 13 then take (length line - 1) line else line.

Fixpoint add_lines (l : list bytes) (c : emule_collection) : option emule_collection :=
  match l with
  | [] => Some c
  | line :: l => '(_, c) ← add_link (strip_cr line) c; add_lines l c
  end.

(** [content] is [None] when the file cannot be opened.  The lines are read also when the
    binary form has been. *)
Definition fromFile (nVersion : Z) (content : option bytes) : option emule_collection :=
  let ec := Collection [] [] in
  match content with
  | None => Some ec
  | Some data => add_lines (getlines [] data) (load_binary nVersion data ec)
  end.
