(* ===== verification/CollectionProps.v ===== *)
(** * Theorems about links and collections

    A link is read back as the file it was made of, and a collection that was saved, as
    text or in the binary form, is loaded as the same files. *)

From Stdlib Require Import Strings.String Strings.Byte.
From stdpp Require Import list.
From S2P Require Import Prelude Archive Md4Hash CTag Packets Search Entry EscapeString EscapeStringProps Collection.
Open Scope Z_scope.

(** ** Names *)

Lemma url_decode_other c s : b2z c <> 37 -> url_decode (c :: s) = cons c <$> url_decode s.
Proof.
  intros Hc. destruct s as [|h [|l s]]; [done..|]. change (url_decode (c :: h :: l :: s)) with
    (if is_char c 37 then dec1 ← HEX2DEC h;
        if dec1 =? -1 then r ← url_decode (h :: l :: s); Some (c :: r)
        else dec2 ← HEX2DEC l;
          if dec2 =? -1 then r ← url_decode (h :: l :: s); Some (c :: r)
          else r ← url_decode s; Some (z2b (Z.shiftl dec1 4 + dec2) :: r)
      else r ← url_decode (h :: l :: s); Some (c :: r)).
  by rewrite is_char_false.
Qed.

Definition encoded_ok (c : byte) : bool :=
  if SAFE c then negb (is_char c 37) && negb (is_char c 124)
  else
    let h := hex_char (Z.shiftr (b2z c) 4) in let l := hex_char (Z.land (b2z c) 0x0F) in
    negb (is_char h 124) && negb (is_char l 124) &&
    match HEX2DEC h, HEX2DEC l with
    | Some d1, Some d2 => negb (d1 =? -1) && negb (d2 =? -1) && (b2z (z2b (Z.shiftl d1 4 + d2)) =? b2z c)
    | _, _ => false
    end.

Lemma encoded_all c : encoded_ok c = true.
Proof. apply (bytes_test encoded_ok). by vm_compute. Qed.

Lemma url_decode_encode s : url_decode (url_encode s) = Some s.
Proof.
  induction s as [|c s IH]; [done|]. unfold url_encode in *. rewrite bind_cons. pose proof (encoded_all c) as Hc. unfold encoded_ok in Hc.
  destruct (SAFE c).
  - apply andb_true_iff in Hc as [Hc _]. apply negb_true_iff, Z.eqb_neq in Hc. cbn [app]. by rewrite url_decode_other, IH.
  - cbv zeta in Hc. apply andb_true_iff in Hc as [_ Hc]. cbn [app url_decode]. change (is_char (chr 37) 37) with true. cbv iota.
    destruct (HEX2DEC (hex_char _)) as [d1|]; [|done]. destruct (HEX2DEC (hex_char (Z.land _ _))) as [d2|]; [|done].
    rewrite !andb_true_iff, !negb_true_iff, Z.eqb_eq in Hc. destruct Hc as [[H1 H2] H3]. cbn [mbind option_bind]. rewrite H1. cbn [mbind option_bind]. rewrite H2, IH.
    cbn [mbind option_bind]. do 2 f_equal. rewrite <- (z2b_b2z c), <- H3. by rewrite z2b_b2z.
Qed.

Lemma url_decode_plain s : absent 37 s -> url_decode s = Some s.
Proof. induction 1 as [|c s Hc _ IH]; [done|]. by rewrite url_decode_other, IH. Qed.

Lemma url_encode_absent s : absent 124 (url_encode s).
Proof.
  apply Forall_bind, Forall_true. intros c. pose proof (encoded_all c) as Hc. unfold encoded_ok in Hc. unfold compose. destruct (SAFE c).
  - rewrite !andb_true_iff, !negb_true_iff in Hc. constructor; [|done]. by apply Z.eqb_neq, Hc.
  - cbv zeta in Hc. rewrite !andb_true_iff, !negb_true_iff in Hc. destruct Hc as [[H1 H2] _]. repeat constructor; by apply Z.eqb_neq.
Qed.

(** ** Links *)

Lemma read_uint64_to_string n : 0 <= n < 2 ^ 63 -> read_uint64 (to_string n) = Some n.
Proof.
  intros Hn. rewrite to_string_eq by lia. destruct (integer_to_str_digits n Hn) as (Hs & Hne & Hval). specialize (Hval 0 []). rewrite app_nil_r in Hval.
  destruct (integer_to_str n) as [|c s] eqn:E; [done|]. inversion_clear Hs as [|? ? Hc _]. unfold read_uint64. rewrite skip_space_digit by done.
  assert (b2z c <> 45 /\ b2z c <> 43) as [H1 H2] by (apply (digits_not c (fun v => v <> 45 /\ v <> 43)); [done|lia]).
  rewrite !is_char_false by done. rewrite Hc, Hval. cbn [andb digits_value]. rewrite Z.mul_0_l, Z.add_0_l.
  rewrite (proj2 (Z.ltb_lt n _)) by lia. by rewrite to_uint_small by (unfold is_uint; cbn; lia).
Qed.

Lemma toString_absent h : absent 124 (toString h).
Proof.
  unfold toString. apply Forall_bind, Forall_true. intros c.
  pose proof (bytes_test (fun c => negb (is_char (hex_char (Z.shiftr (b2z c) 4)) 124) && negb (is_char (hex_char (Z.land (b2z c) 15)) 124)) c) as H.
  rewrite andb_true_iff, !negb_true_iff in H. destruct H as [H1 H2]; [by vm_compute|]. repeat constructor; by apply Z.eqb_neq.
Qed.

Lemma to_string_absent x n : 0 <= n < 2 ^ 63 -> ~ (48 <= x <= 57) -> x <> 45 -> absent x (to_string n).
Proof.
  intros Hn H1 H2. refine (List.Forall_impl _ _ (to_string_chars n _)); [|lia]. intros c [H|H]; cbn; [|lia].
  intros E. unfold is_digit in H. rewrite E in H. apply andb_true_iff in H as [?%Z.leb_le ?%Z.leb_le]. lia.
Qed.

Lemma sub_range_app (p m t : bytes) : sub_range (length p) (length p + length m) (p ++ m ++ t) = m.
Proof. unfold sub_range. rewrite drop_app_length. replace (length p + length m - length p)%nat with (length m) by lia. apply take_app_length. Qed.

Lemma drop_past (p t : bytes) k : drop (length p + k) (p ++ t) = drop k t.
Proof. by rewrite <- drop_drop, drop_app_length. Qed.

(** The fields of a link are found. *)
Lemma fromLink_fields N D H :
  absent 124 N -> absent 124 D -> absent 124 H -> length H = 32%nat -> (0 < length N)%nat -> (0 < length D)%nat ->
  fromLink (link_prefix ++ N ++ str "|" ++ D ++ str "|" ++ H ++ str "|/") =
  fileName ← url_decode N;
  Some (match read_uint64 D with None => entry_default | Some v => CollectionEntry fileName (to_int64 v) (fromString H) end).
Proof.
  intros AN AD AH LH LN LD. set (s := link_prefix ++ _).
  assert (length s = 13 + length N + 1 + length D + 1 + 32 + 2)%nat as Hlen by (unfold s; rewrite !length_app, LH; cbn; lia).
  assert (take 13 s = link_prefix) as Ht by done.
  assert (forall k, drop (13 + k) s = drop k (N ++ str "|" ++ D ++ str "|" ++ H ++ str "|/")) as D1 by (intros k; apply (drop_past link_prefix)).
  assert (forall k, drop (13 + length N + 1 + k) s = drop k (D ++ str "|" ++ H ++ str "|/")) as D2.
  { intros k. replace (13 + length N + 1 + k)%nat with (13 + (length N + (1 + k)))%nat by lia. rewrite D1, (drop_past N). apply (drop_past (str "|")). }
  assert (forall k, drop (13 + length N + 1 + length D + 1 + k) s = drop k (H ++ str "|/")) as D3.
  { intros k. replace (13 + length N + 1 + length D + 1 + k)%nat with (13 + length N + 1 + (length D + (1 + k)))%nat by lia. rewrite D2, (drop_past D). apply (drop_past (str "|")). }
  assert (drop (length s - 2) s = str "|/") as Hd.
  { replace (length s - 2)%nat with (13 + length N + 1 + length D + 1 + length H)%nat by lia. rewrite D3. apply drop_app_length. }
  pose proof (D1 0%nat) as E1. pose proof (D2 0%nat) as E2. pose proof (D3 0%nat) as E3. rewrite Nat.add_0_r, drop_0 in E1, E2, E3.
  unfold fromLink. cbv zeta. rewrite Ht, Hd, !bool_decide_eq_true_2 by done. rewrite (proj2 (Nat.ltb_ge _ _)) by lia. cbn [negb orb].
  rewrite E1, index_of_app by done. change (index_of 124 (str "|" ++ _)) with 0%nat. rewrite Nat.add_0_r.
  rewrite (proj2 (Nat.eqb_neq _ _)) by lia. unfold sub_range. rewrite E1. replace (13 + length N - 13)%nat with (length N) by lia. rewrite take_app_length.
  destruct (url_decode N) as [name|]; [|done]. cbn [mbind option_bind].
  replace (S (13 + length N)) with (13 + length N + 1)%nat by lia. rewrite E2, index_of_app by done. change (index_of 124 (str "|" ++ _)) with 0%nat. rewrite Nat.add_0_r.
  rewrite (proj2 (Nat.eqb_neq _ _)) by lia. replace (13 + length N + 1 + length D - (13 + length N + 1))%nat with (length D) by lia. rewrite take_app_length.
  destruct (read_uint64 D) as [v|]; [|done]. replace (S (13 + length N + 1 + length D)) with (13 + length N + 1 + length D + 1)%nat by lia.
  rewrite E3, index_of_app by done. change (index_of 124 (str "|/")) with 0%nat. rewrite Nat.add_0_r, (proj2 (Nat.eqb_neq _ _)) by lia.
  rewrite <- LH, take_app_length. done.
Qed.

Lemma to_string_length n : 0 <= n < 2 ^ 63 -> (0 < length (to_string n))%nat.
Proof. intros Hn. rewrite to_string_eq by lia. destruct (integer_to_str_digits n Hn) as (_ & Hne & _). by destruct (integer_to_str n); [|cbn; lia]. Qed.

Lemma hash_text h : hash_wf h -> length (toString h) = 32%nat /\ fromString (toString h) = h.
Proof. apply fromString_toString. Qed.

(** A name, as it is in the link, that is decoded to the name. *)
Lemma link_read_back N name size h :
  absent 124 N -> (0 < length N)%nat -> url_decode N = Some name -> 0 <= size < 2 ^ 63 -> hash_wf h ->
  fromLink (link_prefix ++ N ++ str "|" ++ to_string size ++ str "|" ++ toString h ++ str "|/") = Some (CollectionEntry name size h).
Proof.
  intros AN LN Hd Hs Hh. destruct (hash_text h Hh) as [Hl He].
  rewrite fromLink_fields; [|done|apply to_string_absent; lia|apply toString_absent|done|done|by apply to_string_length].
  rewrite Hd, read_uint64_to_string by done. cbn [mbind option_bind]. by rewrite He, to_int64_small by lia.
Qed.

(** The name can be written into a link as it is. *)
Definition plain_name (name : bytes) : Prop := absent 124 name /\ absent 37 name.

Lemma fromLink_toLink name size h uencode :
  name <> [] -> 0 <= size < 2 ^ 63 -> hash_wf h -> (uencode = false -> plain_name name) ->
  fromLink (toLink name size h uencode) = Some (CollectionEntry name size h).
Proof.
  intros Hn Hs Hh Hp. unfold toLink. apply link_read_back; try done; destruct uencode.
  - apply url_encode_absent.
  - by apply Hp.
  - destruct name as [|c name]; [done|]. unfold url_encode. rewrite bind_cons, length_app. destruct (SAFE c); cbn; lia.
  - destruct name; [done|cbn; lia].
  - apply url_decode_encode.
  - by apply url_decode_plain, Hp.
Qed.

(** ** Text collections *)

Lemma getlines_line x acc s : absent 10 x -> getlines acc (x ++ chr 10 :: s) = (acc ++ x) :: getlines [] s.
Proof.
  intros H. revert acc. induction H as [|c x Hc _ IH]; intros acc; cbn [app getlines]; [by rewrite app_nil_r|].
  rewrite is_char_false, IH by done. by rewrite <- app_assoc.
Qed.

Lemma getlines_last x acc : absent 10 x -> acc ++ x <> [] -> getlines acc x = [acc ++ x].
Proof.
  intros H. revert acc. induction H as [|c x Hc _ IH]; intros acc Hne; cbn [getlines].
  - rewrite app_nil_r in *. by rewrite bool_decide_eq_false_2.
  - rewrite is_char_false, IH by (done || by destruct acc). by rewrite <- app_assoc.
Qed.

(** A file that can be written to a collection of links. *)
Definition linkable (e : emule_collection_entry) : Prop :=
  m_filename e <> [] /\ 0 < m_filesize e < 2 ^ 63 /\ hash_wf (m_filehash e) /\ defined (m_filehash e) = true /\
  plain_name (m_filename e) /\ absent 10 (m_filename e).

Lemma absent_app x l1 l2 : absent x l1 -> absent x l2 -> absent x (l1 ++ l2).
Proof. intros. by apply Forall_app. Qed.

Lemma entry_link_line e : linkable e -> absent 10 (entry_link e).
Proof.
  intros (_ & Hs & _ & _ & _ & Hn). assert (absent 10 (toString (m_filehash e))) as Hh.
  { unfold toString. apply Forall_bind, Forall_true. intros c.
    pose proof (bytes_test (fun c => negb (is_char (hex_char (Z.shiftr (b2z c) 4)) 10) && negb (is_char (hex_char (Z.land (b2z c) 15)) 10)) c) as H.
    rewrite andb_true_iff, !negb_true_iff in H. destruct H as [H1 H2]; [by vm_compute|]. repeat constructor; by apply Z.eqb_neq. }
  unfold entry_link, toLink. repeat apply absent_app; try done; try (by repeat constructor). apply to_string_absent; lia.
Qed.

Lemma entry_link_read e c : linkable e -> add_link (strip_cr (entry_link e)) c = Some (true, push_file e c).
Proof.
  intros (Hn & Hs & Hh & Hd & Hp & _). assert (strip_cr (entry_link e) = entry_link e) as ->.
  { unfold strip_cr, entry_link, toLink. rewrite !app_assoc. change (str "|/") with (str "|" ++ [chr 47]). rewrite app_assoc, List.last_last, andb_false_r. done. }
  unfold add_link, entry_link. rewrite fromLink_toLink by (done || lia). cbn [mbind option_bind]. unfold entry_defined. cbn [m_filename m_filesize m_filehash].
  rewrite bool_decide_eq_false_2, (proj2 (Z.eqb_neq _ _)), Hd by (done || lia). by destruct e.
Qed.

Lemma text_lines l : Forall linkable l -> getlines [] (text_of l) = entry_link <$> l.
Proof.
  induction 1 as [|e l He Hl IH]; [done|]. destruct l as [|e' l].
  - cbn [text_of]. by rewrite getlines_last by (by apply entry_link_line || done).
  - change (text_of (e :: e' :: l)) with (entry_link e ++ chr 10 :: text_of (e' :: l)). rewrite getlines_line by (by apply entry_link_line). cbn [app]. by rewrite IH.
Qed.

Lemma links_added l c : Forall linkable l -> add_lines (entry_link <$> l) c = Some (Collection (m_name c) (m_files c ++ l)).
Proof.
  intros H. revert c. induction H as [|e l He _ IH]; intros c; [cbn; rewrite app_nil_r; by destruct c|].
  cbn [fmap list_fmap add_lines]. rewrite entry_link_read by done. cbn [mbind option_bind]. rewrite IH. cbn. by rewrite <- app_assoc.
Qed.

(** Whatever is read, the position moves on by at least [k] and stays within the input. *)
Definition advances {A} (k : nat) (r : reader A) : Prop :=
  forall ar a ar', r ar = Ok (a, ar') -> m_container ar' = m_container ar /\ (tellg ar + k <= tellg ar')%nat /\
    ((tellg ar <= length (m_container ar))%nat -> (tellg ar' <= length (m_container ar))%nat).

Lemma advances_ret {A} (a : A) : advances 0 (mret a).
Proof. intros ar b ar' [= <- <-]. split_and!; [done|lia|done]. Qed.

Lemma advances_throw {A} k e : advances k (throw (A := A) e).
Proof. done. Qed.

Lemma advances_bind {A B} k1 k2 (m : reader A) (f : A -> reader B) :
  advances k1 m -> (forall a, advances k2 (f a)) -> advances (k1 + k2) (m ≫= f).
Proof.
  intros Hm Hf ar b ar'. unfold mbind, reader_bind. destruct (m ar) as [[a ar1]|] eqn:E; [|done]. intros H.
  destruct (Hm _ _ _ E) as (C1 & P1 & L1). destruct (Hf a _ _ _ H) as (C2 & P2 & L2). rewrite C1 in *. split_and!; [done|lia|auto].
Qed.

Lemma advances_le {A} k k' (r : reader A) : advances k r -> (k' <= k)%nat -> advances k' r.
Proof. intros H Hk ar a ar' E. destruct (H _ _ _ E) as (? & ? & ?). split_and!; [done|lia|done]. Qed.

Lemma advances_raw n : advances n (raw_read n).
Proof.
  intros ar a ar'. unfold raw_read. destruct (Nat.leb_spec (tellg ar + n) (length (m_container ar))); [|done]. intros [= <- <-]. cbn. split_and!; [done|lia|done].
Qed.

Lemma advances_uint w : advances w (read_uint w).
Proof. rewrite <- (Nat.add_0_r w) at 1. apply advances_bind; [apply advances_raw|intros; apply advances_ret]. Qed.

Lemma advances_string n : advances 0 (read_string n).
Proof. unfold read_string. case_decide; [apply advances_ret|]. eapply advances_le; [apply advances_raw|lia]. Qed.

Lemma advances_seekg off e : 0 <= off -> advances 0 (seekg off e).
Proof.
  intros Ho ar a ar'. unfold seekg. destruct (_ && _) eqn:E; [|done]. apply andb_true_iff in E as [E1%Z.leb_le E2%Z.leb_le]. intros [= <- <-]. cbn. split_and!; [done|lia|lia].
Qed.

Lemma advances_each {A} (ld : A -> reader A) l : (forall x, advances 0 (ld x)) -> advances 0 (read_each ld l).
Proof.
  intros H. induction l as [|x l IH]; cbn [read_each]; [apply advances_ret|].
  apply (advances_bind 0 0); [done|]. intros y. apply (advances_bind 0 0); [done|]. intros ys. apply advances_ret.
Qed.

(** Seeking beyond the data of a blob and back. *)
Lemma advances_look_ahead nSize e1 e2 : 0 < nSize < 2 ^ 32 -> advances 0 (seekg nSize e1 ≫= fun _ => seekg (nSignLength nSize) e2).
Proof.
  intros Hn ar a ar'. unfold mbind, reader_bind, seekg. destruct (_ && _) eqn:E; [|done]. cbn [m_container tellg]. apply andb_true_iff in E as [E3%Z.leb_le E4%Z.leb_le].
  destruct (_ && _) eqn:E2; [|done]. apply andb_true_iff in E2 as [E5%Z.leb_le E6%Z.leb_le]. intros [= <- <-]. cbn.
  assert (- nSize <= nSignLength nSize).
  { unfold nSignLength, to_uint. change (Z.of_nat 4 * 8) with 32. rewrite <- (Z.mod_add (- nSize) 1) by done. rewrite Z.mod_small by lia. case_match; lia. }
  split_and!; [done|lia|lia].
Qed.

Lemma advances_read_then {A} w (f : Z -> reader A) : (forall a, is_uint w a -> advances 0 (f a)) -> advances w (read_uint w ≫= f).
Proof.
  intros Hf ar b ar'. unfold mbind, reader_bind. destruct (read_uint w ar) as [[a ar1]|] eqn:E; [|done]. intros H.
  destruct (advances_uint w _ _ _ E) as (C1 & P1 & L1). destruct (Hf a (yields_uint w _ _ _ E) _ _ _ H) as (C2 & P2 & L2). rewrite C1 in *. split_and!; [done|lia|auto].
Qed.

Lemma advances_array : advances 0 array_load.
Proof.
  eapply advances_le; [apply advances_read_then|lia]. intros n Hn. destruct (Z.ltb_spec 0 n); [|apply advances_ret].
  apply (advances_bind 0 0).
  - destruct (MAX_ED2K_PACKET_LEN <? n); [|apply advances_ret]. apply advances_look_ahead. unfold is_uint in Hn. cbn in Hn. lia.
  - intros _. eapply advances_le; [eapply advances_bind; [apply advances_raw|intros; apply advances_ret]|lia].
Qed.

Lemma advances_value nType : advances 0 (value_load nType).
Proof.
  unfold value_load. repeat (case_match; [first [apply advances_array | eapply advances_le; [eapply advances_bind; [apply advances_uint|intros; apply advances_ret]|lia] | idtac]|]).
  - apply (advances_bind 0 0); [|intros; apply advances_ret]. cbn [load md4_hash_serializable]. apply (advances_bind 0 0); [|intros; apply advances_ret].
    apply advances_each. intros _. eapply advances_le; [eapply advances_bind; [apply advances_uint|intros; apply advances_ret]|lia].
  - unfold string_load. apply (advances_bind 0 0).
    + case_match; [apply advances_ret|]. eapply advances_le; [apply advances_uint|lia].
    + intros n. apply (advances_bind 0 0); [apply advances_string|intros; apply advances_ret].
  - apply advances_throw.
Qed.

Lemma advances_tag : advances 1 tag_load.
Proof.
  apply (advances_bind 1 0).
  - apply (advances_bind 1 0); [apply advances_uint|]. intros nType. case_match.
    + eapply advances_le; [eapply advances_bind; [apply advances_uint|intros; apply advances_ret]|lia].
    + eapply advances_le; [apply advances_read_then|lia]. intros n _. case_match.
      * eapply advances_le; [eapply advances_bind; [apply advances_uint|intros; apply advances_ret]|lia].
      * apply (advances_bind 0 0); [apply advances_string|intros; apply advances_ret].
  - intros [[nType nNameId] strName]. case_match; [|case_match].
    + eapply advances_le; [apply advances_read_then|lia]. intros n Hn. apply (advances_bind 0 0); [apply advances_seekg|intros; apply advances_ret].
      pose proof (Z.div_pos n 8). unfold is_uint in Hn. lia.
    + eapply advances_le; [apply advances_read_then|lia]. intros n Hn. apply (advances_bind 0 0); [apply advances_seekg|intros; apply advances_ret]. unfold is_uint in Hn. lia.
    + apply (advances_bind 0 0); [apply advances_value|intros; apply advances_ret].
Qed.

Lemma advances_tags n : forall l, advances n (tags_load n l).
Proof. induction n as [|n IH]; intros l; cbn [tags_load]; [apply advances_ret|]. apply (advances_bind 1 n); [apply advances_tag|intros; apply IH]. Qed.

(** A text that begins as a link is no binary collection: it would have to hold two
    thousand million tags. *)
Lemma text_not_binary nVersion s c : Z.of_nat (length s) < 2 ^ 30 -> load_binary nVersion (link_prefix ++ s) c = c.
Proof.
  intros Hl. unfold load_binary. cbn [load emule_binary_collection_serializable bc_list]. unfold tag_list_load.
  set (ar := IA (link_prefix ++ s) 0). unfold mbind at 1, reader_bind at 1.
  assert (read_uint 4 ar = Ok (0x6b326465, IA (link_prefix ++ s) 4)) as -> by done.
  unfold mbind at 1, reader_bind at 1. unfold mbind at 1, reader_bind at 1.
  assert (read_uint 4 (IA (link_prefix ++ s) 4) = Ok (0x7c2f2f3a, IA (link_prefix ++ s) 8)) as -> by done.
  destruct (tags_load _ _ _) as [[l ar']|] eqn:E; [|done]. exfalso. apply advances_tags in E as (_ & E1 & E2). cbn [tellg m_container] in *.
  rewrite length_app in E2. change (length link_prefix) with 13%nat in E2. lia.
Qed.

(** ** Binary collections *)

(** A file that fits the binary form. *)
Definition binary_fits (e : emule_collection_entry) : Prop :=
  m_filename e <> [] /\ Z.of_nat (length (m_filename e)) < 2 ^ 16 /\ CHECK_BOM (m_filename e) = false /\
  0 <= m_filesize e < 2 ^ 63 /\ hash_wf (m_filehash e) /\ defined (m_filehash e) = true.

Lemma string_type_fits s : Z.of_nat (length s) < 2 ^ 16 -> value_wf (string_value (length2type s) s).
Proof.
  intros H. unfold length2type. destruct (_ && _) eqn:E; [|by left]. right. apply andb_true_iff in E as [?%Z.leb_le ?%Z.leb_le].
  assert (to_uint 1 (to_uint 1 (TAGTYPE_STR1 + Z.of_nat (length s)) - 1) = TAGTYPE_STR1 + Z.of_nat (length s) - 1) as ->.
  { unfold TAGTYPE_STR1. rewrite !to_uint_small; unfold is_uint; cbn; rewrite ?to_uint_small by (unfold is_uint; cbn; lia); lia. }
  unfold TAGTYPE_STR1, TAGTYPE_STR16. lia.
Qed.

Lemma entry_tags_fit e : binary_fits e -> wf (entry_tags e).
Proof.
  intros (Hn & Hl & Hb & Hs & Hh & Hd). split; [done|]. repeat apply List.Forall_cons; try apply List.Forall_nil; (split; [done|split; [done|]]).
  - by apply string_type_fits.
  - apply Z.mod_pos_bound. lia.
  - done.
Qed.

Lemma file_read_back e : binary_fits e -> file_of_tags (tags32 (stored (entry_tags e))) entry_default = Ok e.
Proof.
  intros (Hn & Hl & Hb & Hs & Hh & Hd). cbn. unfold bom_filter. rewrite Hb. rewrite to_uint_small by (unfold is_uint; cbn; lia).
  rewrite to_int64_small by lia. by destruct e.
Qed.

Lemma files_read_back l c : Forall binary_fits l -> files_of_binary (stored <$> (entry_tags <$> l)) c = Collection (m_name c) (m_files c ++ l).
Proof.
  intros H. revert c. induction H as [|e l He _ IH]; intros c; [cbn; rewrite app_nil_r; by destruct c|].
  rewrite !fmap_cons. cbn [files_of_binary]. rewrite file_read_back by done. destruct He as (Hn & _ & _ & _ & _ & Hd).
  rewrite bool_decide_eq_false_2, Hd by done. cbn [negb andb]. rewrite IH. cbn. by rewrite <- app_assoc.
Qed.

Lemma load_saved_binary nVersion nVersion' c :
  is_uint 4 nVersion' -> Forall binary_fits (m_files c) -> Z.of_nat (length (m_files c)) <= MAX_COLLECTION_SIZE ->
  load_binary nVersion (save (to_binary nVersion' c)) (Collection [] []) = Collection [] (m_files c).
Proof.
  intros Hv Hf Hm. assert (wf (to_binary nVersion' c)) as Hwf.
  { cbn [wf emule_binary_collection_wire holder_wire to_binary bc_nVersion bc_list bc_files m_collection]. rewrite length_fmap.
    split_and!; [done|split; [done|constructor]| |unfold is_uint; unfold MAX_COLLECTION_SIZE, BLOCK_SIZE in Hm; cbn in *; lia|done].
    apply Forall_fmap. eapply List.Forall_impl; [|done]. intros e He. by apply entry_tags_fit. }
  unfold load_binary. change (load (BinaryCollection nVersion [] fresh)) with (load (Serializable := emule_binary_collection_serializable) fresh).
  destruct (load_save (to_binary nVersion' c) Hwf) as [Hacc _]. specialize (Hacc [] []). rewrite app_nil_r in Hacc. cbn [app length] in Hacc. rewrite Hacc.
  cbn [stored emule_binary_collection_wire holder_wire to_binary bc_files m_collection]. by rewrite files_read_back.
Qed.

(** No line is a link of a file. *)
Definition no_links (lines : list bytes) : Prop :=
  Forall (fun line => exists e, fromLink (strip_cr line) = Some e /\ entry_defined e = false) lines.

Lemma no_links_added lines c : no_links lines -> add_lines lines c = Some c.
Proof.
  induction 1 as [|line lines (e & He & Hd) _ IH]; [done|]. cbn [add_lines]. unfold add_link. rewrite He. cbn [mbind option_bind]. rewrite Hd. exact IH.
Qed.

(** ** The theorems *)

(** C33: an ed2k link is read back as the file it was made of, whatever characters its
    name has when the name is encoded, and without a bar and a percent sign when it is
    not. *)
Theorem link_roundtrip name size h uencode :
  name <> [] -> 0 <= size < 2 ^ 63 -> hash_wf h -> (uencode = false -> plain_name name) ->
  fromLink (toLink name size h uencode) = Some (CollectionEntry name size h).
Proof. apply fromLink_toLink. Qed.

Lemma link_roundtrip_witness :
  fromLink (toLink (str "a|b %41") 5 hash_max true) = Some (CollectionEntry (str "a|b %41") 5 hash_max).
Proof. apply (link_roundtrip (str "a|b %41") 5 hash_max true); [done|lia|done|done]. Defined.

(** C34: a collection saved as text is loaded as the same files, although the loader first
    tries to read it in the binary form, if every file is [linkable]: its name is not
    empty and has no bar, percent sign or line feed, its size is positive and below 2^63,
    its hash is defined; and the text is shorter than 2^30 bytes.  Saved in the binary form
    it is loaded as the same files, followed by those of whatever lines of the file are
    links, for the file is then read once more as text, if every file fits ([binary_fits]):
    its name is not empty, shorter than 2^16 bytes and does not begin with a byte order
    mark, its hash is defined.  [text_collection_changes_names] and
    [binary_collection_adds_links] show that the conditions are needed. *)
Theorem collection_saved_loaded nVersion nVersion' binary c data :
  save_collection true nVersion' binary c = Some data ->
  if binary
  then is_uint 4 nVersion' -> Forall binary_fits (m_files c) -> Z.of_nat (length (m_files c)) <= MAX_COLLECTION_SIZE ->
       fromFile nVersion (Some data) = add_lines (getlines [] data) (Collection [] (m_files c)) /\
       (no_links (getlines [] data) -> fromFile nVersion (Some data) = Some (Collection [] (m_files c)))
  else Forall linkable (m_files c) -> Z.of_nat (length data) < 2 ^ 30 -> fromFile nVersion (Some data) = Some (Collection [] (m_files c)).
Proof.
  unfold save_collection. case_bool_decide as Hne; [done|]. intros H. apply (inj Some) in H. subst data. destruct binary.
  - intros Hv Hf Hm. unfold fromFile. cbv zeta.
    pose proof (load_saved_binary nVersion nVersion' c Hv Hf Hm) as E. rewrite E. split; [done|]. apply no_links_added.
  - intros Hf Hl. unfold fromFile. cbv zeta. rewrite text_lines by done. assert (exists s, text_of (m_files c) = link_prefix ++ s) as [s Hs].
    { destruct (m_files c) as [|e [|e' l]]; [done|by eexists|]. eexists (_ ++ chr 10 :: text_of (e' :: l)). cbn [text_of]. unfold entry_link, toLink at 1. by rewrite <- app_assoc. }
    rewrite Hs in *. rewrite length_app in Hl. rewrite text_not_binary by lia. by rewrite links_added.
Qed.

Definition sample_collection : emule_collection := Collection [] [CollectionEntry (str "a file") 700 hash_max; CollectionEntry (str "b.txt") 5 hash_max].

Lemma collection_saved_loaded_witness :
  fromFile 0 (save_collection true 3 false sample_collection) = Some sample_collection /\
  fromFile 0 (save_collection true 3 true sample_collection) = Some sample_collection.
Proof.
  split.
  - apply (collection_saved_loaded 0 3 false sample_collection (text_of (m_files sample_collection))); [reflexivity| |vm_compute; reflexivity].
    repeat constructor; try done; apply (bool_decide_unpack _); vm_compute; exact I.
  - apply (collection_saved_loaded 0 3 true sample_collection (save (to_binary 3 sample_collection))); [reflexivity|done| |vm_compute; done|].
    + repeat constructor; try done.
    + unfold no_links. match goal with |- Forall _ ?l => let v := eval vm_compute in l in change l with v end.
      repeat (apply List.Forall_cons; [eexists; split; [vm_compute; reflexivity|reflexivity]|]). apply List.Forall_nil.
Defined.

(** A name with a percent sign or a bar comes back as another one, or not at all, for the
    links of a collection are written without encoding and read with decoding. *)
Theorem text_collection_changes_names :
  fromFile 0 (save_collection true 0 false (Collection [] [CollectionEntry (str "%41.txt") 5 hash_max; CollectionEntry (str "a|b") 5 hash_max])) =
  Some (Collection [] [CollectionEntry (str "A.txt") 5 hash_max]).
Proof.
  unfold save_collection. rewrite bool_decide_eq_false_2 by done. unfold fromFile. cbv zeta.
  match goal with |- add_lines (getlines [] ?t) _ = _ => change t with (link_prefix ++ drop 13 t) end.
  rewrite text_not_binary by (vm_compute; done). vm_compute. reflexivity.
Qed.

(** The files of links in the name of a file are added to a binary collection. *)
Theorem binary_collection_adds_links :
  let evil := str "x" ++ [chr 10] ++ toLink (str "y") 6 hash_max true ++ [chr 10] ++ str "z" in
  fromFile 0 (save_collection true 0 true (Collection [] [CollectionEntry evil 5 hash_max])) =
  Some (Collection [] [CollectionEntry evil 5 hash_max; CollectionEntry (str "y") 6 hash_max]).
Proof. vm_compute. reflexivity. Qed.

(** A percent sign before a character that is not ASCII makes [url_decode] read outside
    of its table. *)
Theorem url_decode_outside_table : url_decode (chr 37 :: chr 200 :: str "a") = None.
Proof. reflexivity. Qed.
