(* ===== verification/SharedFiles.v ===== *)
(** * Parameters of shared files: src/file.cpp, src/add_transfer_params.cpp

    What is needed to share a file: its hashes, computed by [file2atp] from its
    contents or found in known.met.  The file system answers through functions that
    are arguments: what opening, the size and a read give, and whether a cancellation
    is seen after the n-th read. *)

From Stdlib Require Import Strings.String Strings.Byte.
From stdpp Require Import list.
From S2P Require Import Prelude Archive Md4Hash Md4 CTag Packets Search Entry PeerRequests EscapeString Collection.
Open Scope Z_scope.

(** ** add_transfer_params *)

Definition storage_mode_sparse : Z := 1.

(** [resume_data] is a pointer to bytes. *)
Record add_transfer_params := Params {
  atp_file_hash : md4_hash; atp_file_path : bytes; atp_file_size : Z; atp_piece_hashses : list md4_hash;
  atp_resume_data : option bytes; atp_storage_mode : Z; atp_duplicate_is_error : bool; atp_seed_mode : bool;
  atp_num_complete_sources : Z; atp_num_incomplete_sources : Z;
  atp_accepted : Z; atp_requested : Z; atp_transferred : Z; atp_priority : Z }.

(** [add_transfer_params(filepath)], which calls [reset]. *)
Definition params_new (filepath : bytes) : add_transfer_params :=
  Params hash_clear filepath 0 [] None storage_mode_sparse false false (-1) (-1) 0 0 0 0.

Definition params_eqb (a t : add_transfer_params) : bool :=
  hash_eqb (atp_file_hash a) (atp_file_hash t) && bool_decide (atp_file_path a = atp_file_path t) && (atp_file_size a =? atp_file_size t) &&
  bool_decide (atp_piece_hashses a = atp_piece_hashses t) && (atp_accepted a =? atp_accepted t) && (atp_requested a =? atp_requested t) &&
  (atp_transferred a =? atp_transferred t) && (atp_priority a =? atp_priority t).

Definition set_file (h : md4_hash) (size : Z) (pieces : list md4_hash) (seed : bool) (p : add_transfer_params) : add_transfer_params :=
  Params h (atp_file_path p) size pieces (atp_resume_data p) (atp_storage_mode p) (atp_duplicate_is_error p) seed
    (atp_num_complete_sources p) (atp_num_incomplete_sources p) (atp_accepted p) (atp_requested p) (atp_transferred p) (atp_priority p).
Definition set_counts (accepted requested transferred priority : Z) (p : add_transfer_params) : add_transfer_params :=
  Params (atp_file_hash p) (atp_file_path p) (atp_file_size p) (atp_piece_hashses p) (atp_resume_data p) (atp_storage_mode p)
    (atp_duplicate_is_error p) (atp_seed_mode p) (atp_num_complete_sources p) (atp_num_incomplete_sources p) accepted requested transferred priority.

(** ** Hashing a file *)

(** An [error_code]: one of the library or of the system. *)
Inductive file_error := lib_error (e : error_code) | system_error (errno : Z).

(** An open file: its size, and the bytes a read at an offset puts into the buffer. *)
Record file_ops := FileOps { get_size : Z + Z; readv : Z -> Z -> Z + bytes }.

Definition div_ceil (a b : Z) : Z := Z.quot (a + b - 1) b.

Definition terminal : md4_hash := fromString (str "31D6CFE0D16AE931B73C59D7E0C089C0").

(** The locals of the loops: the position, the block buffer and the number of reads. *)
Record hash_state := HashState { hs_offset : Z; hs_chBlock : bytes; hs_reads : nat }.

Section Hashing.
Context (f : file_ops) (cancel : nat -> bool).

(** The loop over the blocks of a piece; [fuel] bounds its rounds. *)
Fixpoint hash_blocks (fuel : nat) (in_piece_capacity : Z) (piece_hash : MD4_CTX) (s : hash_state) : option file_error * MD4_CTX * hash_state :=
  match fuel with
  | O => (None, piece_hash, s)
  | S fuel =>
      if in_piece_capacity <=? 0 then (None, piece_hash, s)
      else
        let current_block_size := Z.min BLOCK_SIZE in_piece_capacity in
        match readv f (hs_offset s) current_block_size with
        | inl errno => (Some (system_error errno), piece_hash, HashState (hs_offset s) (hs_chBlock s) (S (hs_reads s)))
        | inr b =>
            let chBlock := b ++ drop (length b) (hs_chBlock s) in
            if cancel (hs_reads s)
            then (Some (lib_error file_params_making_was_cancelled), piece_hash, HashState (hs_offset s) chBlock (S (hs_reads s)))
            else
              hash_blocks fuel (in_piece_capacity - current_block_size) (MD4_Update piece_hash (take (Z.to_nat current_block_size) chBlock))
                (HashState (hs_offset s + current_block_size) chBlock (S (hs_reads s)))
        end
  end.

(** A piece has at most 38 blocks. *)
Definition blocks_fuel : nat := 38.

(** The loop over the pieces, from piece [i]: the hashes so far, with the rest as
    [resize] has left them. *)
Fixpoint hash_pieces (n i : nat) (capacity : Z) (hashes : list md4_hash) (s : hash_state) : option file_error * list md4_hash :=
  match n with
  | O => (None, hashes)
  | S n =>
      let in_piece_capacity := Z.min PIECE_SIZE capacity in
      let '(ec, piece_hash, s) := hash_blocks blocks_fuel in_piece_capacity (MD4_Init ctx_memory) s in
      match ec with
      | Some e => (Some e, hashes)
      | None => hash_pieces n (S i) (capacity - in_piece_capacity) (<[i := MD4_Final piece_hash]> hashes) s
      end
  end.
End Hashing.

(** [open_] is what opening the file gives; [chBlock] is what the memory of the buffer
    holds. *)
Definition file2atp (open_ : bytes -> Z + file_ops) (cancel : nat -> bool) (chBlock : bytes) (filepath : bytes) : add_transfer_params * option file_error :=
  let atp := params_new filepath in
  match open_ filepath with
  | inl errno => (atp, Some (system_error errno))
  | inr f =>
      match get_size f with
      | inl errno => (atp, Some (system_error errno))
      | inr file_size =>
          if file_size =? 0 then (atp, Some (lib_error filesize_is_zero))
          else
            let pieces_count := to_int32 (div_ceil file_size PIECE_SIZE) in
            let '(ec, hashes) := hash_pieces f cancel (Z.to_nat pieces_count) 0 file_size (replicate (Z.to_nat pieces_count) hash_clear) (HashState 0 chBlock 0) in
            match ec with
            | Some e => (set_file hash_clear file_size hashes false atp, Some e)
            | None =>
                let hashes := if pieces_count * PIECE_SIZE =? file_size then hashes ++ [terminal] else hashes in
                let file_hash := if (1 <? length hashes)%nat then hasher_run ctx_memory [hashes ≫= m_hash] else nth 0 hashes hash_clear in
                (set_file file_hash file_size hashes true atp, None)
            end
      end
  end.

(** ** known.met *)

(** [strrchr], as a position. *)
Fixpoint last_index (x : Z) (s : bytes) : option nat :=
  match s with
  | [] => None
  | c :: s => match last_index x s with Some k => Some (S k) | None => if is_char c x then Some 0%nat else None end
  end.

(** [filename] of src/filesystem.cpp, with slashes only: the last component. *)
Definition filename (f : bytes) : bytes :=
  match last_index 47 (c_str f) with
  | None => f
  | Some sep =>
      if (sep =? length f - 1)%nat then
        let p := take sep f in
        match last_index 47 p with Some k => drop (S k) p | None => p end
      else drop (S sep) (c_str f)
  end.

(** [known_file_entry(hFile, hSet, filename, ...)]: [file_size] is the size of the file on
    disk, [None] when it cannot be looked at. *)
Definition known_file_new (file_size : option Z) (hFile : md4_hash) (hSet : list md4_hash) (path : bytes) (nAccepted nRequested nTransferred nPriority : Z) : known_file_entry :=
  match file_size with
  | None => KnownFile 0 hFile (Holder 0 []) []
  | Some size =>
      KnownFile 0 hFile (Holder 0 hSet)
        [make_string_tag (filename path) FT_FILENAME [] true; make_string_tag (filename path) FT_FILENAME [] true;
         make_uint32_tag (to_uint 4 size) FT_FILESIZE true;
         make_uint32_tag (to_uint 4 nTransferred) FT_ATTRANSFERRED true;
         make_uint32_tag (to_uint 4 (Z.shiftr nTransferred 32)) FT_ATTRANSFERREDHI true;
         make_uint32_tag nRequested FT_ATREQUESTED true;
         make_uint32_tag nAccepted FT_ATACCEPTED true;
         Tag [] FT_ULPRIORITY true (typed_uint8 nPriority)]
  end.

(** The [switch] over the integer tags of an entry. *)
Definition params_tag (p : base_tag) (atp : add_transfer_params) : add_transfer_params :=
  if negb (is_int_tag p) then atp
  else
    let v := match asInt p with Ok v => v | Throw _ => 0 end in
    let counts a r t q := set_counts a r t q atp in
    let id := m_nNameId p in
    if id =? FT_FILESIZE then set_file (atp_file_hash atp) (to_int64 v) (atp_piece_hashses atp) (atp_seed_mode atp) atp
    else if id =? FT_ATTRANSFERRED then counts (atp_accepted atp) (atp_requested atp) (to_uint 8 (atp_transferred atp + v)) (atp_priority atp)
    else if id =? FT_ATTRANSFERREDHI then counts (atp_accepted atp) (atp_requested atp) (to_uint 8 (atp_transferred atp + to_uint 8 (Z.shiftl v 32))) (atp_priority atp)
    else if id =? FT_ATREQUESTED then counts (atp_accepted atp) (to_uint 4 v) (atp_transferred atp) (atp_priority atp)
    else if id =? FT_ATACCEPTED then counts (to_uint 4 v) (atp_requested atp) (atp_transferred atp) (atp_priority atp)
    else if id =? FT_ULPRIORITY then counts (atp_accepted atp) (atp_requested atp) (atp_transferred atp) (to_uint 1 v)
    else atp.

Definition known_file_matches (write_ts : Z) (filepath : bytes) (k : known_file_entry) : bool :=
  (write_ts =? kf_nLastChanged k) && bool_decide (bom_filter (filename filepath) = bom_filter (getStringTagByNameId (kf_list k) FT_FILENAME)).

(** The first entry with the time and the name of the file. *)
Definition extract_transfer_params (kfc : known_file_collection) (write_ts : Z) (filepath : bytes) : add_transfer_params :=
  match List.find (known_file_matches write_ts filepath) (m_collection (kfc_list kfc)) with
  | None => params_new []
  | Some k =>
      let pieces := m_collection (kf_hash_list k) in
      let atp := set_file (kf_hFile k) 0 (if bool_decide (pieces = []) then [kf_hFile k] else pieces) false (params_new filepath) in
      let atp := foldl (fun atp p => params_tag p atp) atp (kf_list k) in
      set_file (atp_file_hash atp) (atp_file_size atp) (atp_piece_hashses atp) true atp
  end.

(** [stat_file] gives the time of the last change.  What is posted as an alert. *)
Definition process_item (stat : bytes -> Z + Z) (open_ : bytes -> Z + file_ops) (cancel : nat -> bool) (chBlock : bytes)
    (kfc : known_file_collection) (current_filepath : bytes) : add_transfer_params * option file_error :=
  match stat current_filepath with
  | inl errno => (params_new current_filepath, Some (system_error errno))
  | inr mtime =>
      let atp := extract_transfer_params kfc mtime current_filepath in
      if negb (defined (atp_file_hash atp)) || (atp_file_size atp =? 0) then file2atp open_ cancel chBlock current_filepath
      else (atp, None)
  end.

(** ** Examples *)

(** A file with these bytes. *)
Definition file_with (data : bytes) : file_ops :=
  FileOps (inr (Z.of_nat (length data))) (fun offset n => inr (take (Z.to_nat n) (drop (Z.to_nat offset) data))).

Example hash_example :
  fst (file2atp (fun _ => inr (file_with (str "abc"))) (fun _ => false) (replicate 8 (chr 0)) (str "/tmp/abc")) =
  set_file (fromString (str "a448017aaf21d8525fc10ae87aa6729d")) 3 [fromString (str "a448017aaf21d8525fc10ae87aa6729d")] true (params_new (str "/tmp/abc")).
Proof. vm_compute. reflexivity. Qed.

Example filename_example : filename <$> [str "/a/b"; str "/a/b/"; str "b"; str "/"; str "b/"] = [str "b"; str "b"; str "b"; []; str "b"].
Proof. vm_compute. reflexivity. Qed.
