(* ===== verification/FileTypes.v ===== *)
(** * Types of files: the tables of src/file.cpp, include/libed2k/file.hpp

    The type of a file by the extension of its name, as it is published and searched
    for. *)

From Stdlib Require Import Strings.String Strings.Byte.
From stdpp Require Import list strings.
From S2P Require Import Prelude Md4Hash Search Entry EscapeString Collection SharedFiles.
Open Scope Z_scope.

Inductive EED2KFileType :=
| ED2KFT_ANY | ED2KFT_AUDIO | ED2KFT_VIDEO | ED2KFT_IMAGE | ED2KFT_PROGRAM | ED2KFT_DOCUMENT | ED2KFT_ARCHIVE | ED2KFT_CDIMAGE | ED2KFT_EMULECOLLECTION.

#[global] Instance EED2KFileType_eq_dec : EqDecision EED2KFileType.
Proof. solve_decision. Defined.

(** The values of the enumeration. *)
Definition type_value (t : EED2KFileType) : Z :=
  match t with
  | ED2KFT_ANY => 0 | ED2KFT_AUDIO => 1 | ED2KFT_VIDEO => 2 | ED2KFT_IMAGE => 3 | ED2KFT_PROGRAM => 4
  | ED2KFT_DOCUMENT => 5 | ED2KFT_ARCHIVE => 6 | ED2KFT_CDIMAGE => 7 | ED2KFT_EMULECOLLECTION => 8
  end.

(** The extensions, in the order in which they are inserted. *)
Open Scope string_scope.
Definition ext_audio : list string :=
  [".669"; ".aac"; ".ac3"; ".aif"; ".aifc"; ".aiff"; ".amf"; ".amr"; ".ams"; ".ape"; ".au"; ".aud";
  ".audio"; ".cda"; ".dbm"; ".dmf"; ".dsm"; ".dts"; ".far"; ".flac"; ".it"; ".m1a"; ".m2a"; ".m4a";
  ".mdl"; ".med"; ".mid"; ".midi"; ".mka"; ".mod"; ".mol"; ".mp1"; ".mp2"; ".mp3"; ".mpa"; ".mpc";
  ".mpp"; ".mtm"; ".nst"; ".ogg"; ".okt"; ".psm"; ".ptm"; ".ra"; ".rmi"; ".s3m"; ".snd"; ".stm";
  ".ult"; ".umx"; ".wav"; ".wma"; ".wow"; ".xm"].
Definition ext_video : list string :=
  [".3g2"; ".3gp"; ".3gp2"; ".3gpp"; ".asf"; ".amv"; ".asf"; ".avi"; ".bik"; ".divx"; ".dvr-ms";
  ".flc"; ".fli"; ".flic"; ".flv"; ".hdmov"; ".ifo"; ".m1v"; ".m2t"; ".m2ts"; ".m2v"; ".m4b"; ".m4v";
  ".mkv"; ".mov"; ".movie"; ".mp1v"; ".mp2v"; ".mp4"; ".mpe"; ".mpeg"; ".mpg"; ".mps"; ".mpv";
  ".mpv1"; ".mpv2"; ".ogm"; ".ogv"; ".pva"; ".qt"; ".ram"; ".ratdvd"; ".rm"; ".rmm"; ".rmvb"; ".rv";
  ".rv9"; ".smil"; ".smk"; ".swf"; ".tp"; ".ts"; ".vid"; ".video"; ".vivo"; ".vob"; ".vp6"; ".webm";
  ".wm"; ".wmv"; ".xvid"].
Definition ext_image : list string :=
  [".bmp"; ".dcx"; ".emf"; ".gif"; ".ico"; ".jfif"; ".jpe"; ".jpeg"; ".jpg"; ".pct"; ".pcx"; ".pic";
  ".pict"; ".png"; ".psd"; ".psp"; ".tga"; ".tif"; ".tiff"; ".wbmp"; ".webp"; ".wmf"; ".wmp"; ".xif";
  ".xpm"].
Definition ext_archive : list string :=
  [".7z"; ".ace"; ".alz"; ".arc"; ".arj"; ".bz2"; ".cab"; ".cbr"; ".cbt"; ".cbz"; ".gz"; ".hqx";
  ".lha"; ".lzh"; ".msi"; ".pak"; ".par"; ".par2"; ".rar"; ".sea"; ".sit"; ".sitx"; ".tar"; ".tbz2";
  ".tgz"; ".uc2"; ".xpi"; ".z"; ".zip"; ".zoo"].
Definition ext_program : list string :=
  [".bat"; ".cmd"; ".com"; ".exe"; ".hta"; ".js"; ".jse"; ".msc"; ".vbe"; ".vbs"; ".wsf"; ".wsh"].
Definition ext_cdimage : list string :=
  [".bin"; ".bwa"; ".bwi"; ".bws"; ".bwt"; ".ccd"; ".cue"; ".dmg"; ".dmz"; ".img"; ".iso"; ".mdf";
  ".mds"; ".nrg"; ".sub"; ".toast"].
Definition ext_document : list string :=
  [".chm"; ".css"; ".diz"; ".doc"; ".dot"; ".hlp"; ".htm"; ".html"; ".nfo"; ".odp"; ".ods"; ".odt";
  ".otp"; ".ott"; ".ots"; ".pdf"; ".pps"; ".ppt"; ".ps"; ".rtf"; ".stc"; ".sti"; ".stw"; ".sxc";
  ".sxi"; ".sxw"; ".text"; ".txt"; ".wri"; ".xls"; ".xlt"; ".xml"].
Definition ext_emulecollection : list string :=
  [".emulecollection"].
Close Scope string_scope.

(** [std::map::insert] keeps the first entry of a key. *)
Definition ED2KFileTypesMap : list (bytes * EED2KFileType) :=
  ((fun e => (str e, ED2KFT_AUDIO)) <$> ext_audio) ++ ((fun e => (str e, ED2KFT_VIDEO)) <$> ext_video) ++
  ((fun e => (str e, ED2KFT_IMAGE)) <$> ext_image) ++ ((fun e => (str e, ED2KFT_ARCHIVE)) <$> ext_archive) ++
  ((fun e => (str e, ED2KFT_PROGRAM)) <$> ext_program) ++ ((fun e => (str e, ED2KFT_CDIMAGE)) <$> ext_cdimage) ++
  ((fun e => (str e, ED2KFT_DOCUMENT)) <$> ext_document) ++ ((fun e => (str e, ED2KFT_EMULECOLLECTION)) <$> ext_emulecollection).

Definition type_of_extension (strExt : bytes) : EED2KFileType :=
  match List.find (fun '(e, _) => bool_decide (e = strExt)) ED2KFileTypesMap with Some (_, t) => t | None => ED2KFT_ANY end.

Definition GetED2KFileTypeID (strFileName : bytes) : EED2KFileType :=
  match last_index 46 strFileName with
  | None => ED2KFT_ANY
  | Some nPos => type_of_extension (drop nPos strFileName)
  end.

Definition GetED2KFileTypeSearchTerm (iFileID : EED2KFileType) : bytes :=
  match iFileID with
  | ED2KFT_AUDIO => str "Audio"
  | ED2KFT_VIDEO => str "Video"
  | ED2KFT_IMAGE => str "Image"
  | ED2KFT_PROGRAM | ED2KFT_ARCHIVE | ED2KFT_CDIMAGE => str "Pro"
  | ED2KFT_DOCUMENT => str "Doc"
  | ED2KFT_EMULECOLLECTION => str "EmuleCollection"
  | ED2KFT_ANY => []
  end.

Definition GetED2KFileTypeSearchID (iFileID : EED2KFileType) : EED2KFileType :=
  match iFileID with
  | ED2KFT_AUDIO => ED2KFT_AUDIO
  | ED2KFT_VIDEO => ED2KFT_VIDEO
  | ED2KFT_IMAGE => ED2KFT_IMAGE
  | ED2KFT_PROGRAM | ED2KFT_ARCHIVE | ED2KFT_CDIMAGE => ED2KFT_PROGRAM
  | ED2KFT_DOCUMENT => ED2KFT_DOCUMENT
  | ED2KFT_EMULECOLLECTION | ED2KFT_ANY => ED2KFT_ANY
  end.

Definition GetFileTypeByName (strFileName : bytes) : bytes :=
  match GetED2KFileTypeID strFileName with
  | ED2KFT_AUDIO => str "Audio"
  | ED2KFT_VIDEO => str "Video"
  | ED2KFT_IMAGE => str "Image"
  | ED2KFT_DOCUMENT => str "Doc"
  | ED2KFT_PROGRAM => str "Pro"
  | ED2KFT_ARCHIVE => str "Arc"
  | ED2KFT_CDIMAGE => str "Iso"
  | ED2KFT_ANY | ED2KFT_EMULECOLLECTION => []
  end.

(** ** Theorems *)

Lemma last_index_app x s t k : last_index x t = Some k -> last_index x (s ++ t) = Some (length s + k)%nat.
Proof. intros H. induction s as [|c s IH]; [done|]. cbn [app last_index length]. by rewrite IH. Qed.

(** An entry of the map: its extension has one dot, in front, and no earlier entry of
    the same extension has another type. *)
Definition entry_ok (e : bytes * EED2KFileType) : bool :=
  bool_decide (last_index 46 (fst e) = Some 0%nat) && bool_decide (type_of_extension (fst e) = snd e).

(** The type of a file is that of its extension, whatever stands before it; an extension
    that is not in the map gives no type; and a type is published as a number and as a
    string that mean the same, but for collections, which have no number. *)
Theorem file_type_of_extension stem e t :
  (e, t) ∈ ED2KFileTypesMap ->
  GetED2KFileTypeID (stem ++ e) = t /\
  (t <> ED2KFT_EMULECOLLECTION -> GetED2KFileTypeSearchTerm (GetED2KFileTypeSearchID t) = GetED2KFileTypeSearchTerm t).
Proof.
  intros H. assert (forallb entry_ok ED2KFileTypesMap = true) as Hall by (vm_compute; reflexivity). rewrite forallb_forall in Hall.
  apply list_elem_of_In, Hall in H. apply andb_true_iff in H as [H1%bool_decide_eq_true H2%bool_decide_eq_true]. cbn [fst snd] in *.
  split; [|by destruct t]. unfold GetED2KFileTypeID. rewrite (last_index_app _ _ _ _ H1), Nat.add_0_r, drop_app_length. done.
Qed.

Lemma file_type_of_extension_witness : GetED2KFileTypeID (str "song.tar" ++ str ".mp3") = ED2KFT_AUDIO.
Proof. apply (file_type_of_extension (str "song.tar") (str ".mp3") ED2KFT_AUDIO). apply (bool_decide_unpack _). vm_compute. exact I. Defined.
