(* ===== verification/ParamsMaker.v ===== *)
(** * The hasher thread: transfer_params_maker of src/file.cpp

    Files wait in a queue for a thread that makes the parameters of their transfers.
    A step is what a function does while it holds the mutex, so the steps of the
    callers and of the thread interleave in any order.  The thread processes a file
    without the mutex; a cancellation meanwhile only sets a flag that it reads.

    [made], [taken], [dropped] and [since] only record what has happened. *)

From Stdlib Require Import Strings.String Strings.Byte.
From stdpp Require Import list.
From S2P Require Import Prelude Archive Md4Hash CTag Packets Search Entry Collection SharedFiles.
Open Scope Z_scope.

(** Where the thread is: before the lock at the head of its loop, waiting for the
    condition, processing a file. *)
Inductive thread_state := not_started | at_head | waiting | processing | exited.

#[global] Instance thread_state_eq_dec : EqDecision thread_state.
Proof. solve_decision. Defined.

Inductive alert :=
| alert_params (p : add_transfer_params * option file_error)     (* transfer_params_alert of process_item *)
| alert_cancelled (filepath : bytes).                            (* the same with file_params_making_was_cancelled *)

Record maker := Maker {
  m_order : list bytes;            (* the front is the head *)
  m_cancel_order : list bytes;
  m_current_filepath : bytes;
  m_abort : bool;
  m_abort_current : bool;
  m_thread : thread_state;
  notified : bool;                 (* m_condition, while the thread waits for it *)
  alerts : list alert;
  made : list bytes;               (* the files that were requested *)
  taken : list bytes;              (* the files the thread has taken from the queue *)
  dropped : list bytes;            (* the files that were erased from the queue *)
  since : list bytes               (* the cancellations since the last take; of the empty path, since the head of the loop *)
}.

Definition maker_new : maker := Maker [] [] [] false false not_started false [] [] [] [] [].

(** ** The callers *)

Definition notify (m : maker) : bool := notified m || bool_decide (m_thread m = waiting).

Definition make_transfer_params (filepath : bytes) (m : maker) : maker :=
  Maker (filepath :: m_order m) (m_cancel_order m) (m_current_filepath m) (m_abort m) (m_abort_current m) (m_thread m) (notify m) (alerts m)
    (made m ++ [filepath]) (taken m) (dropped m) (since m).

Definition cancel_transfer_params (filepath : bytes) (m : maker) : maker :=
  if bool_decide (filepath ∈ m_order m)
  then
    Maker (filter (fun f => f <> filepath) (m_order m)) (m_cancel_order m) (m_current_filepath m) (m_abort m) (m_abort_current m) (m_thread m) (notified m) (alerts m)
      (made m) (taken m) (dropped m ++ filter (fun f => f = filepath) (m_order m)) (since m)
  else
    let abort_current := if bool_decide (m_current_filepath m = filepath) then true else m_abort_current m in
    Maker (m_order m) (m_cancel_order m ++ [filepath]) (m_current_filepath m) (m_abort m) abort_current (m_thread m) (notified m) (alerts m)
      (made m) (taken m) (dropped m) (since m ++ [filepath]).

(** [start] asserts that there is no thread. *)
Definition maker_start (m : maker) : option maker :=
  if bool_decide (m_thread m = not_started)
  then Some (Maker (m_order m) (m_cancel_order m) (m_current_filepath m) (m_abort m) (m_abort_current m) at_head false (alerts m) (made m) (taken m) (dropped m) (since m))
  else None.

(** [stop] up to [lock.unlock()]. *)
Definition stop_request (m : maker) : maker :=
  Maker [] (m_cancel_order m) (m_current_filepath m) true true (m_thread m) (notify m) (alerts m) (made m) (taken m)
    (dropped m ++ m_order m) (since m).

(** The rest of [stop]: the thread has been joined, if there is one. *)
Definition stop_joined (m : maker) : option maker :=
  match m_thread m with
  | exited | not_started =>
      Some (Maker (m_order m) (m_cancel_order m) (m_current_filepath m) false (m_abort_current m) not_started (notified m) (alerts m) (made m) (taken m) (dropped m) (since m))
  | _ => None
  end.

Definition order_size (m : maker) : nat := length (m_order m).

(** ** The thread *)

(** What [operator()] reads of known.met before its loop: [content] is [None] when there is
    no such file. *)
Definition load_known (content : option bytes) : known_file_collection :=
  match content with
  | None => fresh
  | Some data => match load fresh (IA data 0) with Ok (kfc, _) => kfc | Throw _ => fresh end
  end.

(** From the queue to the unlock: the oldest file is at the back. *)
Definition take_file (m : maker) : maker :=
  match List.rev (m_order m) with
  | [] => Maker [] (m_cancel_order m) (m_current_filepath m) (m_abort m) (m_abort_current m) at_head false (alerts m) (made m) (taken m) (dropped m) (since m)
  | f :: rest =>
      Maker (List.rev rest) (m_cancel_order m) f (m_abort m) (m_abort_current m) (if bool_decide (f = []) then at_head else processing) false (alerts m)
        (made m) (taken m ++ [f]) (dropped m) (filter (fun g => g = []) (since m))
  end.

(** From the lock at the head of the loop: it leaves the loop, waits, or takes a file. *)
Definition loop_head (m : maker) : maker :=
  let m := Maker (m_order m) (m_cancel_order m) [] (m_abort m) false (m_thread m) (notified m) (alerts m) (made m) (taken m) (dropped m) [] in
  if m_abort m
  then Maker (m_order m) (m_cancel_order m) [] true false exited (notified m) (alerts m) (made m) (taken m) (dropped m) (since m)
  else
    let m := Maker (m_order m) [] [] false false (m_thread m) (notified m) (alerts m ++ (alert_cancelled <$> m_cancel_order m)) (made m) (taken m) (dropped m) (since m) in
    if bool_decide (m_order m = [])
    then Maker [] [] [] false false waiting false (alerts m) (made m) (taken m) (dropped m) (since m)
    else take_file m.

(** [process_item] has come to its end with [result]; [posted] is whether there was room
    for the alert. *)
Definition item_done (result : add_transfer_params * option file_error) (posted : bool) (m : maker) : maker :=
  Maker (m_order m) (m_cancel_order m) (m_current_filepath m) (m_abort m) (m_abort_current m) at_head (notified m)
    (if posted then alerts m ++ [alert_params result] else alerts m) (made m) (taken m) (dropped m) (since m).

(** [process_item] saw its cancellation. *)
Definition was_cancelled (result : add_transfer_params * option file_error) : Prop := snd result = Some (lib_error file_params_making_was_cancelled).

Inductive step : maker -> maker -> Prop :=
| step_make f m : step m (make_transfer_params f m)
| step_cancel f m : step m (cancel_transfer_params f m)
| step_start m m' : maker_start m = Some m' -> step m m'
| step_stop m : step m (stop_request m)
| step_joined m m' : m_abort m = true -> stop_joined m = Some m' -> step m m'
| step_head m : m_thread m = at_head -> step m (loop_head m)
| step_wake m : m_thread m = waiting -> step m (take_file m)     (* notified or not *)
| step_done result posted m :
    m_thread m = processing -> (was_cancelled result -> m_abort_current m = true) -> step m (item_done result posted m).

Inductive reachable : maker -> Prop :=
| reachable_new : reachable maker_new
| reachable_step m m' : reachable m -> step m m' -> reachable m'.

(** ** The invariant *)

Record maker_inv (m : maker) : Prop := {
  (* every file that was requested was taken, erased, or is in the queue *)
  inv_account : Permutation (made m) (taken m ++ dropped m ++ m_order m);
  (* the files are taken in the order of their requests *)
  inv_fifo : sublist (taken m ++ List.rev (m_order m)) (made m);
  (* the thread does not wait although there is something to do *)
  inv_wait : m_thread m = waiting -> m_order m <> [] \/ m_abort m = true -> notified m = true;
  (* only a cancellation of this file, or of the empty path before it was taken, or a stop, cancels it *)
  inv_cancel : m_thread m = processing -> m_abort_current m = true -> m_current_filepath m ∈ since m \/ [] ∈ since m \/ m_abort m = true;
  (* the file that is processed was the last to be taken *)
  inv_current : m_thread m = processing -> m_current_filepath m <> [] /\ exists l, taken m = l ++ [m_current_filepath m];
  inv_idle : m_thread m = waiting -> m_current_filepath m = [] /\ (m_abort_current m = true -> [] ∈ since m \/ m_abort m = true)
}.

Lemma inv_new : maker_inv maker_new.
Proof. by split. Qed.

Lemma filter_by_name (f : bytes) l : Permutation l (filter (fun g => g = f) l ++ filter (fun g => g <> f) l).
Proof.
  induction l as [|x l IH]; [done|]. rewrite !filter_cons. destruct (decide (x = f)), (decide (x <> f)); try done.
  - cbn. by f_equiv.
  - rewrite IH at 1. apply Permutation_middle.
Qed.

Lemma sublist_filter_rev (f : bytes) l : sublist (List.rev (filter (fun g => g <> f) l)) (List.rev l).
Proof.
  induction l as [|x l IH]; [constructor|]. rewrite filter_cons. cbn [List.rev]. destruct (decide _).
  - cbn [List.rev]. by apply sublist_app.
  - etrans; [apply IH|]. apply sublist_inserts_r. done.
Qed.

Lemma inv_make f m : maker_inv m -> maker_inv (make_transfer_params f m).
Proof.
  intros [I1 I2 I3 I4 I5 I6]. split; cbn; try done.
  - rewrite I1. rewrite <- !app_assoc. f_equiv. f_equiv. apply Permutation_app_comm.
  - rewrite app_assoc. by apply sublist_app.
  - intros Hw _. unfold notify. rewrite bool_decide_eq_true_2 by done. apply orb_true_r.
Qed.

Lemma inv_do_cancel f m : maker_inv m -> maker_inv (cancel_transfer_params f m).
Proof.
  intros [I1 I2 I3 I4 I5 I6]. unfold cancel_transfer_params. case_bool_decide as Hin; split; cbn; try done.
  - rewrite I1. rewrite <- !app_assoc. f_equiv. f_equiv. apply filter_by_name.
  - etrans; [|exact I2]. apply sublist_app; [done|]. apply sublist_filter_rev.
  - intros Hw [Hne|Ha]; apply I3; auto. left. intros E. rewrite E in Hne. done.
  - intros Hp. case_bool_decide as Hc; intros Ha.
    + left. rewrite Hc. apply elem_of_app. right. by apply list_elem_of_singleton.
    + destruct (I4 Hp Ha) as [H|[H|H]]; [left|right; left|by right; right]; apply elem_of_app; by left.
  - intros Hw. destruct (I6 Hw) as [Hc Ha]. split; [done|]. rewrite elem_of_app. case_bool_decide as Hf; intros Hx.
    + left. right. apply list_elem_of_singleton. congruence.
    + destruct (Ha Hx); auto.
Qed.

Lemma inv_stop m : maker_inv m -> maker_inv (stop_request m).
Proof.
  intros [I1 I2 I3 I4 I5 I6]. split; cbn; try done; auto.
  - by rewrite app_nil_r.
  - etrans; [|exact I2]. apply sublist_app; [done|apply sublist_nil_l].
  - intros Hw _. unfold notify. rewrite bool_decide_eq_true_2 by done. apply orb_true_r.
  - intros Hw. split; [by apply I6|by right].
Qed.

Lemma inv_take m : maker_inv m -> m_thread m <> processing -> (m_abort_current m = true -> [] ∈ since m \/ m_abort m = true) -> m_current_filepath m = [] -> maker_inv (take_file m).
Proof.
  intros [I1 I2 I3 I4 I5 I6] Hp Ha Hc. unfold take_file. destruct (List.rev (m_order m)) as [|f rest] eqn:E.
  - assert (m_order m = []) as Eo by (rewrite <- (rev_involutive (m_order m)), E; done). rewrite Eo in *. split; cbn; try done. 
  - assert (m_order m = List.rev rest ++ [f]) as Eo by (rewrite <- (rev_involutive (m_order m)), E; done).
    split; cbn; try done.
    + rewrite I1, Eo. rewrite (Permutation_app_comm (List.rev rest) [f]). rewrite <- !app_assoc. f_equiv. cbn [app]. by rewrite <- Permutation_middle.
    + rewrite rev_involutive, <- app_assoc. exact I2.
    + by case_bool_decide.
    + case_bool_decide; [done|]. intros _ Hx. right. destruct (Ha Hx); [left|by right]. by apply list_elem_of_filter.
    + case_bool_decide; [done|]. intros _. split; [done|by eexists].
    + by case_bool_decide.
Qed.

Lemma inv_head m : maker_inv m -> m_thread m = at_head -> maker_inv (loop_head m).
Proof.
  intros I Ht. pose proof I as [I1 I2 I3 I4 I5 I6]. unfold loop_head. cbn [m_abort m_order]. destruct (m_abort m) eqn:Ea; [split; cbn; done|].
  case_bool_decide as Ho.
  - rewrite Ho in *. split; cbn; try done. intros _ [H|H]; done.
  - apply inv_take; cbn; try done; [|by rewrite Ht]. split; cbn; rewrite ?Ht; done.
Qed.

Lemma inv_done result posted m : maker_inv m -> maker_inv (item_done result posted m).
Proof. intros [I1 I2 I3 I4 I5 I6]. split; cbn; done. Qed.

Lemma inv_start m m' : maker_inv m -> maker_start m = Some m' -> maker_inv m'.
Proof. intros [I1 I2 I3 I4 I5 I6]. unfold maker_start. case_bool_decide; [|done]. intros [= <-]. split; cbn; done. Qed.

Lemma inv_joined m m' : maker_inv m -> stop_joined m = Some m' -> maker_inv m'.
Proof. intros [I1 I2 I3 I4 I5 I6]. unfold stop_joined. destruct (m_thread m) eqn:Ht; try done; intros [= <-]; split; cbn; done. Qed.

Lemma reachable_maker_inv m : reachable m -> maker_inv m.
Proof.
  induction 1 as [|m m' _ IH Hs]; [apply inv_new|]. destruct Hs.
  - by apply inv_make.
  - by apply inv_do_cancel.
  - by eapply inv_start.
  - by apply inv_stop.
  - by eapply inv_joined.
  - by apply inv_head.
  - destruct (inv_idle _ IH H) as [Hc Ha]. apply inv_take; try done. by rewrite H.
  - by apply inv_done.
Qed.

(** ** The thread alone *)

(** What the thread does next; waiting it goes on when it was notified. *)
Definition thread_step (r : add_transfer_params * option file_error * bool) (m : maker) : maker :=
  match m_thread m with
  | at_head => loop_head m
  | waiting => if notified m then take_file m else m
  | processing => item_done (fst r) (snd r) m
  | _ => m
  end.

(** [n] steps, with the results [rs] of the files that are processed meanwhile. *)
Fixpoint run (rs : nat -> add_transfer_params * option file_error * bool) (n : nat) (m : maker) : maker :=
  match n with O => m | S n => run (fun i => rs (S i)) n (thread_step (rs 0%nat) m) end.

Definition running (m : maker) : Prop := m_thread m = at_head \/ m_thread m = waiting \/ m_thread m = processing.

Lemma run_add rs n k m : run rs (n + k) m = run (fun i => rs (n + i)%nat) k (run rs n m).
Proof. revert rs m. induction n as [|n IH]; intros rs m; [done|]. cbn [Nat.add run]. by rewrite IH. Qed.

(** One file is taken. *)
Lemma take_file_order m f rest :
  List.rev (m_order m) = f :: rest -> m_abort m = false ->
  let m' := take_file m in List.rev (m_order m') = rest /\ taken m' = taken m ++ [f] /\ m_abort m' = false /\ running m'.
Proof. intros E Ha. unfold take_file. rewrite E. cbn. rewrite rev_involutive. split_and!; try done. unfold running. cbn. case_bool_decide; auto. Qed.

Lemma head_takes m f rest :
  m_thread m = at_head -> List.rev (m_order m) = f :: rest -> m_abort m = false ->
  let m' := loop_head m in List.rev (m_order m') = rest /\ taken m' = taken m ++ [f] /\ m_abort m' = false /\ running m'.
Proof.
  intros Ht E Ha. unfold loop_head. cbn [m_abort m_order]. rewrite Ha, bool_decide_eq_false_2 by (intros Eo; by rewrite Eo in E).
  match goal with |- context [take_file ?x] => by apply (take_file_order x f rest) end.
Qed.

Lemma next_taken rs m f rest :
  maker_inv m -> running m -> List.rev (m_order m) = f :: rest -> m_abort m = false ->
  exists k, (k <= 2)%nat /\ let m' := run rs k m in List.rev (m_order m') = rest /\ taken m' = taken m ++ [f] /\ m_abort m' = false /\ running m' /\ maker_inv m'.
Proof.
  intros I [Ht|[Ht|Ht]] E Ha.
  - exists 1%nat. split; [lia|]. cbn. unfold thread_step. rewrite Ht. destruct (head_takes m f rest Ht E Ha) as (? & ? & ? & ?). split_and!; try done. by apply inv_head.
  - exists 1%nat. split; [lia|]. cbn. unfold thread_step. rewrite Ht, (inv_wait _ I Ht) by (left; intros Eo; by rewrite Eo in E).
    destruct (take_file_order m f rest E Ha) as (? & ? & ? & ?). split_and!; try done. destruct (inv_idle _ I Ht). apply inv_take; try done. by rewrite Ht.
  - exists 2%nat. split; [lia|]. cbn. unfold thread_step at 2 4 6 8 10. rewrite Ht. unfold thread_step. cbn [m_thread item_done].
    pose proof (inv_done (fst (rs 0%nat)) (snd (rs 0%nat)) m I) as I'.
    destruct (head_takes (item_done (fst (rs 0%nat)) (snd (rs 0%nat)) m) f rest) as (? & ? & ? & ?); try done. split_and!; try done. by apply inv_head.
Qed.

(** ** The theorems *)

(** C36: whatever the callers and the hasher thread do, every file that was requested was
    either taken by the thread, or erased from the queue by a cancellation or a stop, or
    is still in the queue, each once; the files are taken in the order of their requests;
    and the flag that cancels the file being processed is set only when this file was
    cancelled meanwhile, when the empty path was cancelled since the thread was last at
    the head of its loop (which [empty_cancel_hits_next] shows to happen), or when the
    thread is being stopped. *)
Theorem files_taken_in_order m :
  reachable m ->
  Permutation (made m) (taken m ++ dropped m ++ m_order m) /\ sublist (taken m ++ List.rev (m_order m)) (made m) /\
  (m_thread m = processing -> m_abort_current m = true -> m_current_filepath m ∈ since m \/ [] ∈ since m \/ m_abort m = true).
Proof.
  intros Hr. pose proof (reachable_maker_inv m Hr) as I. split_and!; apply I.
Qed.

(** A file that is queued, one that is taken, and the first cancelled. *)
Definition sample_maker : maker :=
  cancel_transfer_params (str "a") (make_transfer_params (str "b") (loop_head (default maker_new (maker_start (make_transfer_params (str "a") maker_new))))).

Lemma sample_reachable : reachable sample_maker.
Proof.
  unfold sample_maker. eapply reachable_step; [|apply step_cancel]. eapply reachable_step; [|apply step_make]. eapply reachable_step; [|apply step_head; reflexivity].
  apply (reachable_step (make_transfer_params (str "a") maker_new)); [|apply step_start; reflexivity]. eapply reachable_step; [apply reachable_new|apply step_make].
Qed.

Lemma files_taken_in_order_witness :
  Permutation (made sample_maker) (taken sample_maker ++ dropped sample_maker ++ m_order sample_maker) /\ made sample_maker = [str "a"; str "b"].
Proof. split; [apply (files_taken_in_order sample_maker sample_reachable)|reflexivity]. Defined.

(** the hasher thread never sleeps over its work: in every state it can be in, once the
    callers are quiet, at most two of its steps for each file that waits take all of them
    in turn; and once [stop] has been called, at most three steps end it, so that [stop]
    returns. *)
Theorem queue_served rs m :
  reachable m -> running m ->
  (m_abort m = false -> exists k, (k <= 2 * length (m_order m))%nat /\ m_order (run rs k m) = [] /\ taken (run rs k m) = taken m ++ List.rev (m_order m)) /\
  (m_abort m = true -> exists k, (k <= 3)%nat /\ m_thread (run rs k m) = exited).
Proof.
  intros Hr%reachable_maker_inv Hrun. split; intros Ha.
  - remember (List.rev (m_order m)) as q eqn:E. symmetry in E. assert (length (m_order m) = length q) as -> by (rewrite <- E; by rewrite length_rev).
    revert rs m Hr Hrun Ha E. induction q as [|f q IH]; intros rs m Hr Hrun Ha E.
    { exists 0%nat. cbn. split_and!; [lia| |by rewrite app_nil_r]. rewrite <- (rev_involutive (m_order m)), E. done. }
    destruct (next_taken rs m f q Hr Hrun E Ha) as (k & Hk & E' & Et & Ha' & Hrun' & Hr').
    destruct (IH (fun i => rs (k + i)%nat) _ Hr' Hrun' Ha' E') as (k' & Hk' & Eo & Et'). exists (k + k')%nat. rewrite run_add, Eo, Et', Et, <- app_assoc. cbn. split_and!; [lia|done|done].
  - assert (forall m', m_thread m' = at_head -> m_abort m' = true -> m_thread (loop_head m') = exited) as Hx by (intros m' _ Hm'; unfold loop_head; cbn; by rewrite Hm').
    destruct Hrun as [Ht|[Ht|Ht]].
    + exists 1%nat. split; [lia|]. cbn. unfold thread_step. rewrite Ht. by apply Hx.
    + pose proof (inv_wait _ Hr Ht (or_intror Ha)) as Hn. assert (m_abort (take_file m) = true /\ (m_thread (take_file m) = at_head \/ m_thread (take_file m) = processing)) as [Ha' [Ht'|Ht']].
      { unfold take_file. destruct (List.rev (m_order m)); cbn; [auto|]. split; [done|]. case_bool_decide; auto. }
      * exists 2%nat. split; [lia|]. cbn. unfold thread_step at 2. rewrite Ht, Hn. unfold thread_step. rewrite Ht'. by apply Hx.
      * exists 3%nat. split; [lia|]. cbn. unfold thread_step at 3. rewrite Ht, Hn. unfold thread_step at 2. rewrite Ht'. unfold thread_step. cbn [m_thread item_done]. by apply Hx.
    + exists 2%nat. split; [lia|]. cbn. unfold thread_step at 2. rewrite Ht. unfold thread_step. cbn [m_thread item_done]. by apply Hx.
Qed.

Lemma queue_served_witness :
  exists k, (k <= 2)%nat /\ m_order (run (fun _ => (params_new [], None, true)) k sample_maker) = [] /\
    taken (run (fun _ => (params_new [], None, true)) k sample_maker) = [str "a"; str "b"].
Proof. apply (queue_served (fun _ => (params_new [], None, true)) sample_maker sample_reachable); [by right; right|reflexivity]. Defined.

(** A cancellation of the empty path while the thread waits cancels the next file. *)
Theorem empty_cancel_hits_next :
  let m := cancel_transfer_params [] (loop_head (default maker_new (maker_start maker_new))) in
  let m := take_file (make_transfer_params (str "a") m) in
  m_thread m = processing /\ m_current_filepath m = str "a" /\ m_abort_current m = true.
Proof. vm_compute. auto. Qed.
