(* ===== verification/ServerConnection.v ===== *)
(** * The connection to a server: src/server_connection.cpp,
    include/libed2k/server_connection.hpp, [get_announce] of src/transfer.cpp

    Resolving, connecting, the login, the packets of the server, announcing files, and
    reconnecting.  Asynchronous operations that are under way are in [sv_pending]; the
    function that a completed operation calls is a definition with its result as
    arguments.  [now] is what the clock shows.  The compression of packets, which is a
    library, is a pair of arguments. *)

From Stdlib Require Import Strings.String Strings.Byte.
From stdpp Require Import list.
From S2P Require Import Prelude Archive Md4Hash CTag Packets ClientPackets Search Entry EscapeString Collection SharedFiles FileTypes.
Open Scope Z_scope.

(** ** Parameters *)

(** An [error_code] of the library or of the system. *)
Inductive conn_error := lib_failed (e : error_code) | operation_aborted | timed_out | net_failed (errno : Z).

#[global] Instance conn_error_eq_dec : EqDecision conn_error.
Proof. solve_decision. Defined.

(** A timeout in microseconds; [None] is [pos_infin]. *)
Definition timeout : Type := option Z.
Definition seconds_or_never (t : Z) : timeout := if 0 <? t then Some (t * 1000000) else None.
Definition passed (d : Z) (t : timeout) : bool := match t with Some x => x <=? d | None => false end.

Record server_connection_parameters := ServerParams {
  sp_name : bytes; sp_host : bytes; sp_port : Z;
  operations_timeout : timeout; keep_alive_timeout : timeout; reconnect_timeout : timeout; announce_timeout : timeout;
  announce_items_per_call_limit : nat }.

Definition server_params_default : server_connection_parameters := ServerParams [] [] 0 None None None None 50.
Definition server_params_new (n h : bytes) (p operations_t kpl_t reconnect_t announce_t : Z) (ann_items_limit : nat) : server_connection_parameters :=
  ServerParams n h p (seconds_or_never operations_t) (seconds_or_never kpl_t) (seconds_or_never reconnect_t) (seconds_or_never announce_t) ann_items_limit.

Definition set_operations_timeout (t : Z) (p : server_connection_parameters) : server_connection_parameters :=
  ServerParams (sp_name p) (sp_host p) (sp_port p) (seconds_or_never t) (keep_alive_timeout p) (reconnect_timeout p) (announce_timeout p) (announce_items_per_call_limit p).
Definition set_keep_alive_timeout (t : Z) (p : server_connection_parameters) : server_connection_parameters :=
  ServerParams (sp_name p) (sp_host p) (sp_port p) (operations_timeout p) (seconds_or_never t) (reconnect_timeout p) (announce_timeout p) (announce_items_per_call_limit p).
Definition set_reconnect_timeout (t : Z) (p : server_connection_parameters) : server_connection_parameters :=
  ServerParams (sp_name p) (sp_host p) (sp_port p) (operations_timeout p) (keep_alive_timeout p) (seconds_or_never t) (announce_timeout p) (announce_items_per_call_limit p).
Definition set_announce_timeout (t : Z) (p : server_connection_parameters) : server_connection_parameters :=
  ServerParams (sp_name p) (sp_host p) (sp_port p) (operations_timeout p) (keep_alive_timeout p) (reconnect_timeout p) (seconds_or_never t) (announce_items_per_call_limit p).

Definition params_announce (p : server_connection_parameters) : bool :=
  match announce_timeout p with Some _ => (0 <? announce_items_per_call_limit p)%nat | None => false end.

(** ** State *)

Inductive sc_state := scs_stop | scs_resolve | scs_connection | scs_handshake | scs_start.

#[global] Instance sc_state_eq_dec : EqDecision sc_state.
Proof. solve_decision. Defined.

Inductive operation := op_resolve | op_connect | op_read_header | op_read_packet | op_write.

#[global] Instance operation_eq_dec : EqDecision operation.
Proof. solve_decision. Defined.

(** What the connection sees of a transfer. *)
Record transfer_view := TransferView {
  tv_hash : md4_hash; tv_name : bytes; tv_size : Z; tv_checking : bool; tv_num_have : Z; tv_is_seed : bool; tv_announced : bool }.

(** What it tells to the session and to transfers. *)
Inductive effect :=
| ef_closed (ec : option conn_error)
| ef_resolved (target : net_identifier)
| ef_initialized (client_id tcp_flags aux_port : Z)
| ef_message (s : bytes)
| ef_status (files users : Z)
| ef_identity (h : md4_hash) (np : net_identifier) (name descr : bytes)
| ef_shared_files (target : net_identifier) (h : md4_hash) (files : shared_files_list) (more : bool)
| ef_add_peer (h : md4_hash) (np : net_identifier)
| ef_connect (np : net_identifier).

Record server := Server {
  sv_client_id : Z; sv_tcp_flags : Z; sv_aux_port : Z; sv_hServer : md4_hash; sv_in_header : libed2k_header; sv_target : net_identifier;
  sv_write_order : list message; sv_operation : sc_state; sv_last_action : Z; sv_params : server_connection_parameters;
  sv_announced : Z;                            (* announced_transfers_count, a size_t *)
  sv_last_close : option conn_error;
  sv_transfers : list transfer_view;           (* m_ses.m_transfers, by hash *)
  sv_callbacks : list (Z * md4_hash);          (* lowid_conn_dict *)
  sv_effects : list effect; sv_pending : list operation }.

Definition server_new (now : Z) (transfers : list transfer_view) : server :=
  Server 0 0 0 hash_clear header_default (NetId 0 0) [] scs_stop now server_params_default (2 ^ 64 - 1) None transfers [] [] [].

Definition with_ids (c t a : Z) (s : server) : server :=
  Server c t a (sv_hServer s) (sv_in_header s) (sv_target s) (sv_write_order s) (sv_operation s) (sv_last_action s) (sv_params s) (sv_announced s) (sv_last_close s) (sv_transfers s) (sv_callbacks s) (sv_effects s) (sv_pending s).
Definition with_hServer (h : md4_hash) (s : server) : server :=
  Server (sv_client_id s) (sv_tcp_flags s) (sv_aux_port s) h (sv_in_header s) (sv_target s) (sv_write_order s) (sv_operation s) (sv_last_action s) (sv_params s) (sv_announced s) (sv_last_close s) (sv_transfers s) (sv_callbacks s) (sv_effects s) (sv_pending s).
Definition with_in_header (h : libed2k_header) (s : server) : server :=
  Server (sv_client_id s) (sv_tcp_flags s) (sv_aux_port s) (sv_hServer s) h (sv_target s) (sv_write_order s) (sv_operation s) (sv_last_action s) (sv_params s) (sv_announced s) (sv_last_close s) (sv_transfers s) (sv_callbacks s) (sv_effects s) (sv_pending s).
Definition with_target (t : net_identifier) (s : server) : server :=
  Server (sv_client_id s) (sv_tcp_flags s) (sv_aux_port s) (sv_hServer s) (sv_in_header s) t (sv_write_order s) (sv_operation s) (sv_last_action s) (sv_params s) (sv_announced s) (sv_last_close s) (sv_transfers s) (sv_callbacks s) (sv_effects s) (sv_pending s).
Definition with_order (w : list message) (s : server) : server :=
  Server (sv_client_id s) (sv_tcp_flags s) (sv_aux_port s) (sv_hServer s) (sv_in_header s) (sv_target s) w (sv_operation s) (sv_last_action s) (sv_params s) (sv_announced s) (sv_last_close s) (sv_transfers s) (sv_callbacks s) (sv_effects s) (sv_pending s).
Definition with_operation (op : sc_state) (s : server) : server :=
  Server (sv_client_id s) (sv_tcp_flags s) (sv_aux_port s) (sv_hServer s) (sv_in_header s) (sv_target s) (sv_write_order s) op (sv_last_action s) (sv_params s) (sv_announced s) (sv_last_close s) (sv_transfers s) (sv_callbacks s) (sv_effects s) (sv_pending s).
Definition with_last_action (now : Z) (s : server) : server :=
  Server (sv_client_id s) (sv_tcp_flags s) (sv_aux_port s) (sv_hServer s) (sv_in_header s) (sv_target s) (sv_write_order s) (sv_operation s) now (sv_params s) (sv_announced s) (sv_last_close s) (sv_transfers s) (sv_callbacks s) (sv_effects s) (sv_pending s).
Definition with_params (p : server_connection_parameters) (s : server) : server :=
  Server (sv_client_id s) (sv_tcp_flags s) (sv_aux_port s) (sv_hServer s) (sv_in_header s) (sv_target s) (sv_write_order s) (sv_operation s) (sv_last_action s) p (sv_announced s) (sv_last_close s) (sv_transfers s) (sv_callbacks s) (sv_effects s) (sv_pending s).
Definition with_announced (n : Z) (l : list transfer_view) (s : server) : server :=
  Server (sv_client_id s) (sv_tcp_flags s) (sv_aux_port s) (sv_hServer s) (sv_in_header s) (sv_target s) (sv_write_order s) (sv_operation s) (sv_last_action s) (sv_params s) n (sv_last_close s) l (sv_callbacks s) (sv_effects s) (sv_pending s).
Definition with_close (e : option conn_error) (s : server) : server :=
  Server (sv_client_id s) (sv_tcp_flags s) (sv_aux_port s) (sv_hServer s) (sv_in_header s) (sv_target s) (sv_write_order s) (sv_operation s) (sv_last_action s) (sv_params s) (sv_announced s) e (sv_transfers s) (sv_callbacks s) (sv_effects s) (sv_pending s).
Definition with_callbacks (l : list (Z * md4_hash)) (s : server) : server :=
  Server (sv_client_id s) (sv_tcp_flags s) (sv_aux_port s) (sv_hServer s) (sv_in_header s) (sv_target s) (sv_write_order s) (sv_operation s) (sv_last_action s) (sv_params s) (sv_announced s) (sv_last_close s) (sv_transfers s) l (sv_effects s) (sv_pending s).
Definition tell (e : effect) (s : server) : server :=
  Server (sv_client_id s) (sv_tcp_flags s) (sv_aux_port s) (sv_hServer s) (sv_in_header s) (sv_target s) (sv_write_order s) (sv_operation s) (sv_last_action s) (sv_params s) (sv_announced s) (sv_last_close s) (sv_transfers s) (sv_callbacks s) (sv_effects s ++ [e]) (sv_pending s).
Definition with_pending (l : list operation) (s : server) : server :=
  Server (sv_client_id s) (sv_tcp_flags s) (sv_aux_port s) (sv_hServer s) (sv_in_header s) (sv_target s) (sv_write_order s) (sv_operation s) (sv_last_action s) (sv_params s) (sv_announced s) (sv_last_close s) (sv_transfers s) (sv_callbacks s) (sv_effects s) l.
Definition begin_op (o : operation) (s : server) : server := with_pending (sv_pending s ++ [o]) s.

Definition set_tv_announced (b : bool) (t : transfer_view) : transfer_view :=
  TransferView (tv_hash t) (tv_name t) (tv_size t) (tv_checking t) (tv_num_have t) (tv_is_seed t) b.

(** ** Starting and stopping *)

(** [m_socket.close()] and [m_name_lookup.cancel()] leave the operations that are under way
    to complete with an error.  [ec] is [None] when there is no error. *)
Definition stop (now : Z) (ec : option conn_error) (s : server) : server :=
  if bool_decide (sv_operation s = scs_stop) then s
  else
    let s := with_order [] (with_last_action now (with_operation scs_stop s)) in
    let s := with_ids 0 0 0 s in
    let s := with_announced 0 (set_tv_announced false <$> sv_transfers s) s in
    tell (ef_closed ec) (with_close ec s).

Definition start (now : Z) (p : server_connection_parameters) (s : server) : server :=
  let s := stop now (Some operation_aborted) s in
  begin_op op_resolve (with_last_action now (with_operation scs_resolve (with_params p s))).

Definition connected (s : server) : bool := bool_decide (sv_operation s = scs_start).

(** [CHECK_ABORTED]. *)
Definition active (s : server) : bool := bool_decide (sv_operation s = scs_handshake) || bool_decide (sv_operation s = scs_start).

(** ** Announcements *)

Definition FT_FILESIZE_HI : Z := 0x3A.
Definition SRV_TCPFLG_COMPRESSION : Z := 0x00000001.
Definition SRV_TCPFLG_TYPETAGINTEGER : Z := 0x00000080.
Definition flag (flags mask : Z) : bool := negb (Z.land flags mask =? 0).

Definition entry_none : shared_file_entry := SharedFile hash_clear (NetId 0 0) [].
Definition is_empty (e : shared_file_entry) : bool := negb (defined (sf_hFile e)).

(** The tag with the type of a file. *)
Definition type_tags (tcp_flags : Z) (name : bytes) : tag_list :=
  let t := GetED2KFileTypeID name in
  let eFileType := type_value (GetED2KFileTypeSearchID t) in
  if flag tcp_flags SRV_TCPFLG_TYPETAGINTEGER && (1 <=? eFileType) && (eFileType <=? 8) then [make_uint32_tag eFileType FT_FILETYPE true]
  else
    let term := GetED2KFileTypeSearchTerm t in
    if bool_decide (term = []) then [] else [make_string_tag term FT_FILETYPE [] true].

(** [transfer::get_announce]. *)
Definition get_announce (listen_port : Z) (s : server) (t : transfer_view) : shared_file_entry :=
  if tv_checking t || (tv_num_have t =? 0) then entry_none
  else
    SharedFile (tv_hash t)
      (if flag (sv_tcp_flags s) SRV_TCPFLG_COMPRESSION
       then if tv_is_seed t then NetId 0xFBFBFBFB 0xFBFB else NetId 0xFCFCFCFC 0xFCFC
       else NetId (sv_client_id s) listen_port)
      ([make_string_tag (tv_name t) FT_FILENAME [] true; make_uint32_tag (to_uint 4 (tv_size t)) FT_FILESIZE true] ++
       (let hi := to_uint 4 (Z.shiftr (tv_size t) 32) in if 0 <? hi then [make_uint32_tag hi FT_FILESIZE_HI true] else []) ++
       type_tags (sv_tcp_flags s) (tv_name t)).

(** ** Packets *)

(** The settings of the session the connection reads. *)
Record client_settings := ClientSettings { cs_user_agent : md4_hash; cs_listen_port : Z; cs_client_name : bytes }.

Definition CT_SERVER_FLAGS : Z := 0x20.
Definition CT_EMULE_VERSION : Z := 0xFB.
Definition nCapability : Z := Z.lor (Z.lor (Z.lor (Z.lor 0x0001 0x0004) 0x0008) 0x0010) 0x0100.
Definition nClientVersion : Z := Z.lor (Z.lor (Z.lor (Z.shiftl 1 24) (Z.shiftl 1 17)) (Z.shiftl 0 10)) (Z.shiftl 1 7).

Definition login_request (c : client_settings) : cs_login_request :=
  CsLoginRequest (cs_user_agent c) (NetId 0 (cs_listen_port c))
    [make_string_tag (cs_client_name c) CT_NAME [] true; make_uint32_tag 0x3c CT_VERSION true;
     make_uint32_tag nCapability CT_SERVER_FLAGS true; make_uint32_tag nClientVersion CT_EMULE_VERSION true].

Definition OP_LOGINREQUEST : Z := 0x01.
Definition OP_GETSERVERLIST : Z := 0x14.
Definition OP_OFFERFILES : Z := 0x15.
Definition OP_SEARCHREQUEST : Z := 0x16.
Definition OP_GETSOURCES : Z := 0x19.
Definition OP_CALLBACKREQUEST : Z := 0x1C.
Definition OP_QUERY_MORE_RESULT : Z := 0x21.
Definition OP_SERVERLIST : Z := 0x32.
Definition OP_SEARCHRESULT : Z := 0x33.
Definition OP_SERVERSTATUS : Z := 0x34.
Definition OP_CALLBACKREQUESTED : Z := 0x35.
Definition OP_SERVERMESSAGE : Z := 0x38.
Definition OP_IDCHANGE : Z := 0x40.
Definition OP_SERVERIDENT : Z := 0x41.
Definition OP_FOUNDSOURCES : Z := 0x42.

Definition ST_SERVERNAME : Z := 0x01.
Definition ST_DESCRIPTION : Z := 0x0B.

Definition HIGHEST_LOWID_ED2K : Z := 16777216.
Definition isLowId (nId : Z) : bool := nId <? HIGHEST_LOWID_ED2K.

(** [register_callback]: [std::map::insert]. *)
Definition register_callback (id : Z) (h : md4_hash) (s : server) : bool * server :=
  if existsb (fun '(i, _) => i =? id) (sv_callbacks s) then (false, s) else (true, with_callbacks (sv_callbacks s ++ [(id, h)]) s).

Section Connection.
Context (compress : bytes -> option bytes) (uncompress : nat -> bytes -> option bytes) (settings : client_settings).

(** [compress_output_data]: [None] or an empty string is no compression.  [compress] is
    [mz_compress] into a buffer of the size of the data. *)
Definition compress_output_data (data : bytes) : bytes :=
  if (100 <? length data)%nat then default [] (compress data) else [].

Definition server_message_of (type : Z) (data : bytes) : message :=
  let compressed := compress_output_data data in
  let '(protocol, data) := if bool_decide (compressed = []) then (OP_EDONKEYPROT, data) else (OP_PACKEDPROT, compressed) in
  (Header protocol (to_uint 4 (Z.of_nat (length data) + 1)) type, data).

Definition do_write (now : Z) (type : Z) (data : bytes) (s : server) : server :=
  if negb (active s) then s
  else
    let s := with_last_action now s in
    let write_in_progress := negb (bool_decide (sv_write_order s = [])) in
    let s := with_order (sv_write_order s ++ [server_message_of type data]) s in
    if write_in_progress then s else begin_op op_write s.

Definition post_search_request (now : Z) (ro : list search_request_entry) : server -> server := do_write now OP_SEARCHREQUEST (search_request_block_save ro).
Definition post_search_more_result_request (now : Z) : server -> server := do_write now OP_QUERY_MORE_RESULT [].
Definition post_sources_request (now : Z) (hFile : md4_hash) (nSize : Z) : server -> server :=
  do_write now OP_GETSOURCES (save (GetFileSources hFile (FileSize (to_uint 4 nSize) (to_uint 4 (Z.shiftr nSize 32))))).
Definition post_announce (now : Z) (offer_list : list shared_file_entry) : server -> server := do_write now OP_OFFERFILES (save (holder_of (w := 4) offer_list)).
Definition post_callback_request (now : Z) (client_id : Z) : server -> server := do_write now OP_CALLBACKREQUEST (save (CallbackRequestOut client_id)).

(** The loop that offers transfers: at most [limit] that have not been announced and can
    be; how many, and the transfers with their flags. *)
Fixpoint offer (s : server) (limit : nat) (l : list transfer_view) : list shared_file_entry * list transfer_view :=
  match l with
  | [] => ([], [])
  | t :: rest =>
      match limit with
      | O => ([], l)
      | S limit' =>
          let se := get_announce (cs_listen_port settings) s t in
          if negb (tv_announced t) && negb (is_empty se)
          then let '(offers, rest) := offer s limit' rest in (se :: offers, set_tv_announced true t :: rest)
          else let '(offers, rest) := offer s limit rest in (offers, t :: rest)
      end
  end.

(** The announcement of [second_tick], without [LIBED2K_IS74]. *)
Definition announce (now : Z) (s : server) : server :=
  if sv_announced s =? Z.of_nat (length (sv_transfers s)) then s
  else
    let '(offers, l) := offer s (announce_items_per_call_limit (sv_params s)) (sv_transfers s) in
    let s := with_announced (to_uint 8 (sv_announced s + Z.of_nat (length offers))) l s in
    if bool_decide (offers = []) then s else post_announce now offers s.

Definition second_tick (now : Z) (s : server) : server :=
  let d := now - sv_last_action s in
  let p := sv_params s in
  match sv_operation s with
  | scs_stop =>
      match sv_last_close s with
      | Some e => if negb (bool_decide (e = operation_aborted)) && passed d (reconnect_timeout p) then start now p s else s
      | None => s
      end
  | scs_resolve | scs_connection | scs_handshake => if passed d (operations_timeout p) then stop now (Some timed_out) s else s
  | scs_start =>
      let s := if params_announce p && passed d (announce_timeout p) then announce now s else s in
      if passed (now - sv_last_action s) (keep_alive_timeout p) then do_write now OP_GETSERVERLIST [] s else s
  end.

(** ** Completed operations *)

Definition on_name_lookup (now : Z) (result : conn_error + option net_identifier) (s : server) : server :=
  if negb (bool_decide (sv_operation s = scs_resolve)) then s
  else
    match result with
    | inr (Some target) => begin_op op_connect (tell (ef_resolved target) (with_target target (with_last_action now (with_operation scs_connection s))))
    | inr None => stop now None s
    | inl e => stop now (Some e) s
    end.

(** [if (scs_connection != scs_connection) return] never returns. *)
Definition on_connection_complete (now : Z) (error : option conn_error) (s : server) : server :=
  match error with
  | Some e => stop now (Some e) s
  | None =>
      let s := begin_op op_read_header s in
      do_write now OP_LOGINREQUEST (save (login_request settings)) (with_last_action now (with_operation scs_handshake s))
  end.

Fixpoint found_peers (now : Z) (h : md4_hash) (l : list net_identifier) (s : server) : server :=
  match l with
  | [] => s
  | i :: l =>
      let s :=
        if isLowId (m_nIP i) && negb (isLowId (sv_client_id s))
        then let '(inserted, s) := register_callback (m_nIP i) h s in if inserted then post_callback_request now (m_nIP i) s else s
        else tell (ef_add_peer h i) s in
      found_peers now h l s
  end.

Definition on_found_peers (now : Z) (sources : found_file_sources) (s : server) : server :=
  if existsb (fun t => hash_eqb (tv_hash t) (ffs_hFile sources)) (sv_transfers s)
  then found_peers now (ffs_hFile sources) (m_collection (ffs_sources sources)) s else s.

Definition handle_write (now : Z) (error : option conn_error) (s : server) : server :=
  if negb (active s) then s
  else
    match error with
    | Some e => stop now (Some e) s
    | None =>
        let s := with_order (List.tl (sv_write_order s)) s in
        if bool_decide (sv_write_order s = []) then s else begin_op op_write s
    end.

(** The [switch] over the types of packets; [None] is an exception of the archive. *)
Definition dispatch (now : Z) (type : Z) (data : bytes) (s : server) : server * option error_code :=
  let parse {T} `{Serializable T} (s : server) (k : T -> server) : server * option error_code :=
    match load fresh (IA data 0) with Ok (x, _) => (k x, None) | Throw e => (s, Some e) end in
  if type =? OP_SERVERMESSAGE then parse s (fun m : server_message => tell (ef_message (sm_strMessage m)) s)
  else if type =? OP_SERVERLIST then parse s (fun _ : server_list => s)
  else if type =? OP_SERVERSTATUS then parse s (fun st : server_status => tell (ef_status (st_nFilesCount st) (st_nUserCount st)) s)
  else if type =? OP_IDCHANGE then
    let s := with_operation scs_start s in
    parse s (fun idc : id_change =>
      tell (ef_initialized (m_client_id idc) (m_tcp_flags idc) (m_aux_port idc)) (with_ids (m_client_id idc) (m_tcp_flags idc) (m_aux_port idc) s))
  else if type =? OP_SERVERIDENT then
    parse s (fun se : server_info_entry =>
      tell (ef_identity (si_hServer se) (si_network_point se) (getStringTagByNameId (si_list se) ST_SERVERNAME) (getStringTagByNameId (si_list se) ST_DESCRIPTION))
        (with_hServer (si_hServer se) s))
  else if type =? OP_FOUNDSOURCES then parse s (fun fs : found_file_sources => on_found_peers now fs s)
  else if type =? OP_SEARCHRESULT then
    parse s (fun sfl : search_result => tell (ef_shared_files (sv_target s) (sv_hServer s) (sr_files sfl) (negb (m_more_results_avaliable sfl =? 0))) s)
  else if type =? OP_CALLBACKREQUESTED then parse s (fun cb : callback_request_in => tell (ef_connect (cbi_network_point cb)) s)
  else (s, None).

(** [data] is what was read: the packet, or the compressed packet. *)
Definition handle_read_packet (now : Z) (error : option conn_error) (data : bytes) (s : server) : server :=
  if negb (active s) then s
  else
    match error with
    | Some e => stop now (Some e) s
    | None =>
        match (if m_protocol (sv_in_header s) =? OP_PACKEDPROT then uncompress (length data * 10 + 300) data else Some data) with
        | None => begin_op op_read_header s
        | Some data =>
            let '(s, ec) := dispatch now (m_type (sv_in_header s)) data s in
            match ec with
            | None => begin_op op_read_header s
            | Some _ => stop now (Some (lib_failed decode_packet_error)) s
            end
        end
    end.

Definition handle_read_header (now : Z) (error : option conn_error) (h : libed2k_header) (s : server) : server :=
  if negb (active s) then s
  else
    match error with
    | Some e => stop now (Some e) s
    | None =>
        let s := with_in_header h s in
        let ec := check_packet h in
        if bool_decide (ec = no_error) then
          let nSize := service_size h in
          if (m_protocol h =? OP_EDONKEYPROT) || (m_protocol h =? OP_EMULEPROT) then
            if nSize =? 0 then handle_read_packet now None [] s else begin_op op_read_packet s
          else if m_protocol h =? OP_PACKEDPROT then
            if 0 <? nSize then begin_op op_read_packet s else begin_op op_read_header s
          else s     (* assert(false) *)
        else stop now (Some (lib_failed ec)) s
    end.
End Connection.
