(* ===== verification/ServerConnectionProps.v ===== *)
(** * Theorems about the connection to a server

    In orderly runs the operations that are under way fit the state of the connection;
    every transfer that can be announced is, unless announced ones are removed; an attempt
    that leads nowhere is given up and made again; and what happens in other runs. *)

From Stdlib Require Import Strings.String Strings.Byte.
From stdpp Require Import list.
From S2P Require Import Prelude Archive Md4Hash CTag Packets ClientPackets Search Entry EscapeString Collection SharedFiles FileTypes ServerConnection.
Open Scope Z_scope.

(** How many operations of this kind are under way. *)
Definition under_way (o : operation) (s : server) : nat := count_occ operation_eq_dec (sv_pending s) o.

(** An operation has come to its end. *)
Definition completes (o : operation) (s s0 : server) : Prop :=
  exists l1 l2, sv_pending s = l1 ++ o :: l2 /\ s0 = with_pending (l1 ++ l2) s.

Definition num_announced (s : server) : nat := length (List.filter tv_announced (sv_transfers s)).

Section Steps.
Context (compress : bytes -> option bytes) (uncompress : nat -> bytes -> option bytes) (settings : client_settings).
Abbreviation do_write := (do_write compress).
Abbreviation second_tick := (second_tick compress settings).

(** What can happen.  A run is [orderly] if a connection is started, by its owner or by
    the timer, only when the operations of the last one have been completed, a connect
    that is completed after a stop has failed, and no header is of the Kademlia protocol.
    It [keeps] the announced transfers if none of them is removed. *)
Inductive sc_step (orderly keeps : bool) : server -> server -> Prop :=
| sc_started now p s : (orderly = true -> sv_pending s = []) -> sc_step orderly keeps s (start now p s)
| sc_stopped now ec s : sc_step orderly keeps s (stop now ec s)
| sc_post now type data s : sc_step orderly keeps s (do_write now type data s)
| sc_tick now s : (orderly = true -> sv_operation s = scs_stop -> sv_pending s = []) -> sc_step orderly keeps s (second_tick now s)
| sc_resolved now r s s0 : completes op_resolve s s0 -> sc_step orderly keeps s (on_name_lookup now r s0)
| sc_connected now e s s0 :
    completes op_connect s s0 -> (orderly = true -> sv_operation s = scs_stop -> e <> None) ->
    sc_step orderly keeps s (on_connection_complete compress settings now e s0)
| sc_header now e h s s0 :
    completes op_read_header s s0 -> (orderly = true -> m_protocol h <> OP_KADEMLIAHEADER) ->
    sc_step orderly keeps s (handle_read_header compress uncompress now e h s0)
| sc_packet now e data s s0 : completes op_read_packet s s0 -> sc_step orderly keeps s (handle_read_packet compress uncompress now e data s0)
| sc_written now e s s0 : completes op_write s s0 -> sc_step orderly keeps s (handle_write now e s0)
| sc_transfer t l1 l2 s : sv_transfers s = l1 ++ l2 -> tv_announced t = false -> sc_step orderly keeps s (with_announced (sv_announced s) (l1 ++ t :: l2) s)
| sc_removed t l1 l2 s :
    sv_transfers s = l1 ++ t :: l2 -> (keeps = true -> tv_announced t = false) -> sc_step orderly keeps s (with_announced (sv_announced s) (l1 ++ l2) s).

Inductive sc_reachable (orderly keeps : bool) : server -> Prop :=
| sc_new now l : Forall (fun t => tv_announced t = false) l -> sc_reachable orderly keeps (server_new now l)
| sc_next s s' : sc_reachable orderly keeps s -> sc_step orderly keeps s s' -> sc_reachable orderly keeps s'.

(** ** The invariants *)

(** Without a session there is nothing to write, no identifier, no announced transfer. *)
Definition sc_off (s : server) : Prop :=
  active s = false -> sv_write_order s = [] /\ sv_client_id s = 0 /\ sv_tcp_flags s = 0 /\ sv_aux_port s = 0 /\ num_announced s = 0%nat.

(** The count of announced transfers is exact, or one less. *)
Definition sc_counted (s : server) : Prop :=
  sv_announced s = to_uint 8 (Z.of_nat (num_announced s)) \/ sv_announced s = to_uint 8 (Z.of_nat (num_announced s) - 1).

(** The operations under way, with [k] reads while the connection is active. *)
Record sc_inv (k : nat) (s : server) : Prop := {
  inv_off : active s = false -> sv_write_order s = [] /\ sv_client_id s = 0 /\ sv_tcp_flags s = 0 /\ sv_aux_port s = 0 /\ num_announced s = 0%nat;
  inv_resolving : sv_operation s = scs_resolve -> sv_pending s = [op_resolve];
  inv_connecting : sv_operation s = scs_connection -> sv_pending s = [op_connect];
  inv_active : active s = true -> under_way op_resolve s = 0%nat /\ under_way op_connect s = 0%nat /\
    (under_way op_read_header s + under_way op_read_packet s)%nat = k /\ under_way op_write s = (if bool_decide (sv_write_order s = []) then 0 else 1)%nat
}.

Lemma none_announced l : List.filter tv_announced (set_tv_announced false <$> l) = [].
Proof. induction l as [|t l IH]; [done|]. cbn. exact IH. Qed.

(** Whatever the state was, [stop] leaves a stopped connection. *)
Lemma sc_inv_stop k k' now ec s : sv_operation s <> scs_stop \/ sc_inv k' s -> sc_inv k (stop now ec s).
Proof.
  intros H. unfold stop. case_bool_decide as Ho.
  - destruct H as [H|[I1 I2 I3 I4]]; [done|]. split; try done; unfold active in *; rewrite Ho in *; done.
  - split; unfold num_announced; cbn; try done. by rewrite none_announced.
Qed.

Lemma inv_begin_read k o s : sc_inv k s -> active s = true -> o = op_read_header \/ o = op_read_packet -> sc_inv (S k) (begin_op o s).
Proof.
  intros [I1 I2 I3 I4] Ha Hx. unfold active in *. split; unfold active; cbn; try done; try (by rewrite Ha); try (intros H; by rewrite H in Ha).
  intros _. unfold under_way in *. cbn. rewrite !count_occ_app. destruct (I4 Ha) as (A & B & C & D). rewrite A, B, D. destruct Hx as [-> | ->]; cbn; split_and!; try done; lia.
Qed.

Lemma inv_do_write k now type data s : sc_inv k s -> sc_inv k (do_write now type data s).
Proof.
  intros I. pose proof I as [I1 I2 I3 I4]. unfold ServerConnection.do_write. destruct (active s) eqn:Ha; [|done]. cbn [negb]. destruct (I4 eq_refl) as (A & B & C & D).
  unfold active in *. cbn [with_last_action with_order sv_write_order]. case_bool_decide as Hw; cbn [negb].
  - split; unfold active; cbn; try done; try (by rewrite Ha); try (intros H; by rewrite H in Ha).
    intros _. unfold under_way in *. cbn. rewrite !count_occ_app, A, B, D. cbn. rewrite !Nat.add_0_r. split_and!; try done. by rewrite Hw.
  - split; unfold active; cbn; try done; try (by rewrite Ha). intros _. split_and!; try done. etrans; [exact D|].
    rewrite bool_decide_eq_false_2; [done|]. intros E. by apply app_eq_nil in E as [].
Qed.

Lemma do_write_same now type data s :
  sv_operation (do_write now type data s) = sv_operation s /\ sv_transfers (do_write now type data s) = sv_transfers s /\
  sv_params (do_write now type data s) = sv_params s /\ sv_announced (do_write now type data s) = sv_announced s /\
  (sv_last_action (do_write now type data s) = sv_last_action s \/ sv_last_action (do_write now type data s) = now).
Proof. unfold ServerConnection.do_write. destruct (active s); cbn [negb]; [case_bool_decide; cbn|]; split_and!; auto. Qed.

Lemma do_write_active now type data s : active (do_write now type data s) = active s.
Proof. unfold active. by destruct (do_write_same now type data s) as (-> & _). Qed.

(** Changes that the invariant does not mention. *)
Lemma sc_inv_same k s s' :
  sc_inv k s -> sv_operation s' = sv_operation s -> sv_pending s' = sv_pending s -> sv_write_order s' = sv_write_order s ->
  sv_announced s' = sv_announced s -> sv_transfers s' = sv_transfers s ->
  (active s = false -> sv_client_id s' = sv_client_id s /\ sv_tcp_flags s' = sv_tcp_flags s /\ sv_aux_port s' = sv_aux_port s) -> sc_inv k s'.
Proof.
  intros [I1 I2 I3 I4] E1 E2 E3 E4 E5 E6. unfold active, under_way, num_announced in *. split; unfold active, under_way, num_announced; rewrite ?E1, ?E2, ?E3, ?E4, ?E5 in *; try done.
  intros Ha. destruct (I1 Ha) as (? & ? & ? & ? & ?). destruct (E6 Ha) as (? & ? & ?). split_and!; congruence.
Qed.

Lemma inv_found_peers k now h l : forall s, sc_inv k s -> active s = true -> sc_inv k (found_peers compress now h l s) /\ active (found_peers compress now h l s) = true.
Proof.
  induction l as [|i l IH]; intros s I Ha; [done|]. cbn [found_peers]. destruct (_ && _); [|apply IH; [by eapply sc_inv_same|done]].
  unfold register_callback. destruct (existsb _ _); [by apply IH|]. cbn.
  assert (sc_inv k (with_callbacks (sv_callbacks s ++ [(m_nIP i, h)]) s)) as I' by (by eapply sc_inv_same).
  apply IH; unfold post_callback_request; [by apply inv_do_write|by rewrite do_write_active].
Qed.

Lemma sc_inv_dispatch k now type data s :
  sc_inv k s -> active s = true -> let '(s', ec) := dispatch compress now type data s in sc_inv k s' /\ active s' = true.
Proof.
  intros I Ha. pose proof I as [I1 I2 I3 I4]. unfold dispatch. cbv zeta.
  assert (sc_inv k (with_operation scs_start s)) as Is.
  { destruct (I4 Ha) as (A & B & C & D). split; unfold active; cbn; try done. }
  do 3 (destruct (_ =? _); [destruct (load _ _) as [[x ?]|e]; (split; [by apply (sc_inv_same k s)|done])|]).
  destruct (_ =? _); [destruct (load _ _) as [[x ?]|e]; (split; [by apply (sc_inv_same k (with_operation scs_start s))|done])|].
  destruct (_ =? _); [destruct (load _ _) as [[x ?]|e]; (split; [by apply (sc_inv_same k s)|done])|].
  destruct (_ =? _); [destruct (load _ _) as [[x ?]|e]; [|done]; unfold on_found_peers; destruct (existsb _ _); [by apply inv_found_peers|done]|].
  do 2 (destruct (_ =? _); [destruct (load _ _) as [[x ?]|e]; (split; [by apply (sc_inv_same k s)|done])|]). done.
Qed.

Lemma completes_count o s s0 :
  completes o s s0 -> under_way o s = S (under_way o s0) /\ forall o', o' <> o -> under_way o' s0 = under_way o' s.
Proof.
  intros (l1 & l2 & E & ->). unfold under_way. rewrite E. cbn. split.
  - rewrite !count_occ_app. cbn. destruct (operation_eq_dec o o); [lia|done].
  - intros o' Hn. rewrite !count_occ_app. cbn. destruct (operation_eq_dec o o'); [congruence|done].
Qed.

(** A read that is completed while the connection is active. *)
Lemma inv_read_completed o s s0 :
  completes o s s0 -> o = op_read_header \/ o = op_read_packet -> sc_inv 1 s -> (active s0 = true -> sc_inv 0 s0) /\ (active s0 = false -> sc_inv 1 s0).
Proof.
  intros Hc Ho I. pose proof Hc as (l1 & l2 & E & ->). destruct (completes_count _ _ _ Hc) as [H1 H2]. pose proof I as [I1 I2 I3 I4].
  assert (active (with_pending (l1 ++ l2) s) = active s) as Ea by done. rewrite Ea. split; intros Ha.
  - destruct (I4 Ha) as (A & B & C & D). split; rewrite ?Ea; try done; try (by rewrite Ha); try (intros H; by rewrite E in *; unfold active in Ha; cbn in H; rewrite H in Ha).
    intros _. rewrite (H2 op_resolve), (H2 op_connect), (H2 op_write) by (by destruct Ho as [-> | ->]). split_and!; try done.
    destruct Ho as [-> | ->]; [rewrite (H2 op_read_packet) by done|rewrite (H2 op_read_header) by done]; lia.
  - split; rewrite ?Ea; try done; rewrite ?Ha; try done.
    + intros H. rewrite (I2 H) in E. destruct l1 as [|? [|? ?]]; cbn in E; simplify_eq; by destruct Ho.
    + intros H. rewrite (I3 H) in E. destruct l1 as [|? [|? ?]]; cbn in E; simplify_eq; by destruct Ho.
Qed.

Lemma active_running s : active s = true -> sv_operation s <> scs_stop.
Proof. unfold active. intros H E. by rewrite E in H. Qed.

Lemma sc_inv_packet now e data s : (active s = true -> sc_inv 0 s) -> (active s = false -> sc_inv 1 s) -> sc_inv 1 (handle_read_packet compress uncompress now e data s).
Proof.
  intros I0 I1. unfold handle_read_packet. destruct (active s) eqn:Ha; [|by apply I1]. cbn [negb]. specialize (I0 eq_refl).
  destruct e as [e|]; [apply (sc_inv_stop 1 0); left; by apply active_running|]. destruct (if _ =? _ then _ else _) as [d|]; [|by apply (inv_begin_read 0); auto].
  pose proof (sc_inv_dispatch 0 now (m_type (sv_in_header s)) d s I0 Ha) as Hd. destruct (dispatch _ _ _ _ _) as [s' [ec|]]; destruct Hd as [I' Ha'].
  - apply (sc_inv_stop 1 0). left. by apply active_running.
  - by apply (inv_begin_read 0); auto.
Qed.

Lemma sc_inv_header now e h s :
  m_protocol h <> OP_KADEMLIAHEADER -> (active s = true -> sc_inv 0 s) -> (active s = false -> sc_inv 1 s) -> sc_inv 1 (handle_read_header compress uncompress now e h s).
Proof.
  intros Hk I0 I1. unfold handle_read_header. destruct (active s) eqn:Ha; [|by apply I1]. cbn [negb]. specialize (I0 eq_refl).
  destruct e as [e|]; [apply (sc_inv_stop 1 0); left; by apply active_running|]. assert (sc_inv 0 (with_in_header h s)) as I' by (by apply (sc_inv_same 0 s)).
  case_bool_decide as Hc; [|apply (sc_inv_stop 1 0); left; by apply active_running].
  destruct (_ || _) eqn:E1; [destruct (_ =? 0); [apply sc_inv_packet; [done|intros Hf; exfalso; unfold active in *; cbn in Hf; congruence]|by apply (inv_begin_read 0); auto]|].
  destruct (_ =? OP_PACKEDPROT) eqn:E2; [destruct (0 <? _); by apply (inv_begin_read 0); auto|].
  exfalso. unfold check_packet in Hc. apply orb_false_iff in E1 as [E1 E3]. rewrite E1, E3, E2, (proj2 (Z.eqb_neq _ _) Hk) in Hc. cbn [orb] in Hc. repeat case_match; done.
Qed.

Lemma sc_inv_written now e s s0 : completes op_write s s0 -> sc_inv 1 s -> sc_inv 1 (handle_write now e s0).
Proof.
  intros Hc I. pose proof Hc as (l1 & l2 & E & E0). destruct (completes_count _ _ _ Hc) as [H1 H2]. pose proof I as [I1 I2 I3 I4].
  assert (active s0 = active s) as Ea by (by subst). assert (sv_write_order s0 = sv_write_order s) as Ew by (by subst). assert (sv_operation s0 = sv_operation s) as Eo by (by subst).
  unfold handle_write. rewrite Ea. destruct (active s) eqn:Ha; cbn [negb].
  - destruct e as [e|]; [apply (sc_inv_stop 1 1); left; rewrite Eo; by apply active_running|]. destruct (I4 eq_refl) as (A & B & C & D).
    pose proof (H2 op_resolve) as R1. pose proof (H2 op_connect) as R2. pose proof (H2 op_read_header) as R3. pose proof (H2 op_read_packet) as R4.
    assert (under_way op_write s0 = 0%nat) as W by (revert D; case_bool_decide; lia). clear D.
    assert (active s0 = true) as Ha0 by congruence. cbn [with_order sv_write_order].
    destruct (bool_decide_reflect (List.tl (sv_write_order s0) = [])) as [Hw|Hw].
    + split; unfold active, under_way, num_announced in *; cbn; rewrite ?Eo, ?Ew in *; try done; try (by rewrite Ha); try (intros H; by rewrite H in Ha).
      intros _. rewrite Hw. cbn. rewrite R1, R2, R3, R4 by done. done.
    + split; unfold active, under_way, num_announced in *; cbn; rewrite ?Eo, ?Ew in *; try done; try (by rewrite Ha); try (intros H; by rewrite H in Ha).
      intros _. rewrite !count_occ_app, R1, R2, R3, R4, W by done. cbn. rewrite bool_decide_eq_false_2 by done. rewrite !Nat.add_0_r. done.
  - destruct (I1 eq_refl) as (? & ? & ? & ? & ?). subst s0. split; unfold active in *; cbn; try done; rewrite ?Ha; try done.
    + intros H'. rewrite (I2 H') in E. destruct l1 as [|? [|? ?]]; cbn in E; simplify_eq.
    + intros H'. rewrite (I3 H') in E. destruct l1 as [|? [|? ?]]; cbn in E; simplify_eq.
Qed.

(** A completion that nothing waits for. *)
Lemma sc_inv_late o s s0 :
  completes o s s0 -> o = op_resolve /\ sv_operation s <> scs_resolve \/ o = op_connect /\ sv_operation s <> scs_connection ->
  sc_inv 1 s -> sc_inv 1 s0 /\ sv_operation s0 = scs_stop.
Proof.
  intros Hc Ho I. pose proof Hc as (l1 & l2 & E & ->). destruct (completes_count _ _ _ Hc) as [H1 _]. pose proof I as [I1 I2 I3 I4].
  assert (sv_operation s = scs_stop) as Hs.
  { destruct (sv_operation s) eqn:Hs; [done| | | |]; exfalso.
    1,2: first [rewrite (I2 eq_refl) in E|rewrite (I3 eq_refl) in E]; destruct l1 as [|? [|? ?]]; cbn in E; simplify_eq; destruct Ho as [[]|[]]; congruence.
    all: destruct I4 as (A & B & _); [by unfold active; rewrite Hs|]; destruct Ho as [[-> _]|[-> _]]; lia. }
  split; [|done]. split; unfold active in *; cbn; rewrite ?Hs in *; done.
Qed.

(** One that is waited for is the only one. *)
Lemma completes_only o s s0 : completes o s s0 -> sv_pending s = [o] -> sv_pending s0 = [].
Proof. intros (l1 & l2 & E & ->) H. rewrite H in E. by destruct l1 as [|? [|? ?]]; cbn in *; simplify_eq. Qed.

Lemma inv_name_lookup now r s s0 : completes op_resolve s s0 -> sc_inv 1 s -> sc_inv 1 (on_name_lookup now r s0).
Proof.
  intros Hc I. pose proof I as [I1 I2 I3 I4]. pose proof Hc as (l1 & l2 & E & E0). unfold on_name_lookup. assert (sv_operation s0 = sv_operation s) as Eo by (by subst).
  rewrite Eo. destruct (bool_decide_reflect (sv_operation s = scs_resolve)) as [Hr|Hr]; cbn [negb]; [|eapply (sc_inv_late op_resolve); eauto].
  assert (sv_pending s0 = []) as Hp by (eapply completes_only; eauto).
  destruct r as [e|[t|]]; [apply (sc_inv_stop 1 1); left; congruence| |apply (sc_inv_stop 1 1); left; congruence].
  destruct I1 as (A & B & C & D & F); [by unfold active; rewrite Hr|]. subst s0. split; unfold active, num_announced; cbn in *; try done. intros _. by rewrite Hp.
Qed.

Lemma sc_inv_connected now e s s0 :
  completes op_connect s s0 -> (sv_operation s = scs_stop -> e <> None) -> sc_inv 1 s -> sc_inv 1 (on_connection_complete compress settings now e s0).
Proof.
  intros Hc He I. pose proof I as [I1 I2 I3 I4]. pose proof Hc as (l1 & l2 & E & E0). assert (sv_operation s0 = sv_operation s) as Eo by (by subst).
  destruct (decide (sv_operation s = scs_connection)) as [Hr|Hr].
  - unfold on_connection_complete. destruct e as [e|]; [apply (sc_inv_stop 1 1); left; congruence|]. cbv zeta. apply inv_do_write.
    assert (sv_pending s0 = []) as Hp by (eapply completes_only; eauto).
    destruct I1 as (A & B & C & D & F); [by unfold active; rewrite Hr|]. subst s0. split; unfold active, num_announced, under_way; cbn in *; try done.
    intros _. rewrite Hp, A. done.
  - destruct (sc_inv_late op_connect s s0) as [I' Hs]; eauto. destruct e as [e|]; [|by exfalso; apply He; [congruence|]].
    cbn. eapply sc_inv_stop. eauto.
Qed.

Lemma stop_stopped now ec s : sv_operation (stop now ec s) = scs_stop /\ sv_pending (stop now ec s) = sv_pending s.
Proof. unfold stop. by case_bool_decide. Qed.

Lemma sc_inv_start now p s : sv_pending s = [] -> sc_inv 1 s -> sc_inv 1 (start now p s).
Proof.
  intros Hp I. unfold start. cbv zeta. destruct (stop_stopped now (Some operation_aborted) s) as [Ho Hq].
  destruct (sc_inv_stop 1 1 now (Some operation_aborted) s) as [I1 I2 I3 I4]; [by right|].
  destruct I1 as (A & B & C & D & F); [by unfold active; rewrite Ho|]. split; unfold active, num_announced; cbn in *; try done. intros _. by rewrite Hq, Hp.
Qed.

(** ** Announcing *)

Definition announceable (t : transfer_view) : bool := negb (tv_checking t) && negb (tv_num_have t =? 0) && defined (tv_hash t).

(** What is still to be announced. *)
Definition to_announce (t : transfer_view) : bool := negb (tv_announced t) && announceable t.

Lemma announce_entry_empty port s t : is_empty (get_announce port s t) = negb (announceable t).
Proof.
  unfold is_empty, get_announce, announceable. destruct (tv_checking t); cbn; [done|]. by destruct (_ =? 0).
Qed.

(** The loop takes the first transfers that are still to be announced, and marks them. *)
Lemma offer_spec s l : forall limit,
  let '(offers, l') := offer settings s limit l in
  offers = get_announce (cs_listen_port settings) s <$> take limit (List.filter to_announce l) /\
  List.filter to_announce l' = drop limit (List.filter to_announce l) /\ length l' = length l /\
  length (List.filter tv_announced l') = (length (List.filter tv_announced l) + length offers)%nat.
Proof.
  induction l as [|t l IH]; intros limit; [by destruct limit|]. cbn [offer]. destruct limit as [|limit]; [cbn [take drop fmap list_fmap length]; split_and!; auto; lia|].
  cbv zeta. rewrite announce_entry_empty, negb_involutive. fold (to_announce t). destruct (to_announce t) eqn:Ht.
  - specialize (IH limit). destruct (offer _ _ _ _) as [offers l']. destruct IH as (-> & E1 & E2 & E3).
    assert (to_announce (set_tv_announced true t) = false) as Hm by done. assert (tv_announced t = false) as Ha by (unfold to_announce in Ht; by destruct (tv_announced t)).
    cbn [List.filter]. rewrite Hm, Ht, Ha. cbn. split_and!; [done|done|by rewrite E2|]. rewrite E3. lia.
  - specialize (IH (S limit)). destruct (offer _ _ _ _) as [offers l']. destruct IH as (-> & E1 & E2 & E3).
    cbn [List.filter]. rewrite Ht. split_and!; [done|done|by cbn; rewrite E2|]. destruct (tv_announced t); cbn; rewrite E3; lia.
Qed.

Lemma to_uint_shift a b : to_uint 8 (to_uint 8 a + b) = to_uint 8 (a + b).
Proof. unfold to_uint. apply Zplus_mod_idemp_l. Qed.

Lemma sc_inv_announce now s : sc_inv 1 s -> active s = true -> sc_inv 1 (announce compress settings now s).
Proof.
  intros I Ha. unfold announce. destruct (_ =? _); [done|]. pose proof I as [I1 I2 I3 I4]. pose proof (offer_spec s (sv_transfers s) (announce_items_per_call_limit (sv_params s))) as Ho.
  destruct (offer _ _ _ _) as [offers l]. destruct Ho as (_ & _ & _ & En).
  assert (sc_inv 1 (with_announced (to_uint 8 (sv_announced s + Z.of_nat (length offers))) l s)) as I'.
  { unfold num_announced in *. split; unfold num_announced; unfold active in *; cbn; try done. by rewrite Ha. }
  destruct (bool_decide_reflect (offers = [])); [done|]. by apply inv_do_write.
Qed.

Lemma announce_same now s : sv_operation (announce compress settings now s) = sv_operation s /\ sv_params (announce compress settings now s) = sv_params s.
Proof.
  unfold announce. destruct (_ =? _); [done|]. destruct (offer _ _ _ _) as [offers l]. case_bool_decide; [done|]. unfold post_announce.
  edestruct do_write_same as (-> & _ & -> & _). done.
Qed.

Lemma sc_inv_tick now s : (sv_operation s = scs_stop -> sv_pending s = []) -> sc_inv 1 s -> sc_inv 1 (second_tick now s).
Proof.
  intros Hp I. unfold ServerConnection.second_tick. cbv zeta.
  destruct (sv_operation s) eqn:Ho; try (destruct (passed _ _); [apply (sc_inv_stop 1 1); by right|done]).
  - destruct (sv_last_close s); [|done]. destruct (_ && _); [|done]. apply sc_inv_start; auto.
  - set (s1 := if _ && _ then _ else s). assert (sc_inv 1 s1) as I1.
    { subst s1. destruct (_ && _); [|done]. apply sc_inv_announce; [done|]. by unfold active; rewrite Ho. }
    clearbody s1. destruct (passed _ _); [|done]. by apply inv_do_write.
Qed.

Lemma none_announced_part l1 t l2 : List.filter tv_announced (l1 ++ t :: l2) = [] -> List.filter tv_announced (l1 ++ l2) = [].
Proof.
  rewrite !List.filter_app. cbn [List.filter]. intros H. apply app_eq_nil in H as [-> H]. by destruct (tv_announced t).
Qed.

Lemma unannounced_part l1 t l2 : tv_announced t = false -> List.filter tv_announced (l1 ++ t :: l2) = List.filter tv_announced (l1 ++ l2).
Proof. intros Ht. rewrite !List.filter_app. cbn [List.filter]. by rewrite Ht. Qed.

Lemma sc_inv_num k l s : sc_inv k s -> (num_announced s = 0%nat -> num_announced (with_announced (sv_announced s) l s) = 0%nat) -> sc_inv k (with_announced (sv_announced s) l s).
Proof. intros [I1 I2 I3 I4] E. split; try done. intros Ha. destruct (I1 Ha) as (? & ? & ? & ? & ?). split_and!; auto. Qed.

Lemma sc_inv_step keeps s s' : sc_step true keeps s s' -> sc_inv 1 s -> sc_inv 1 s'.
Proof.
  intros Hs I. destruct Hs.
  - by apply sc_inv_start; [apply H|].
  - apply (sc_inv_stop 1 1). by right.
  - by apply inv_do_write.
  - by apply sc_inv_tick; [apply H|].
  - by eapply inv_name_lookup.
  - by eapply sc_inv_connected; [..|apply H0|].
  - destruct (inv_read_completed op_read_header s s0) as [A B]; auto. by apply sc_inv_header; [apply H0|..].
  - destruct (inv_read_completed op_read_packet s s0) as [A B]; auto. by apply sc_inv_packet.
  - by eapply sc_inv_written.
  - apply sc_inv_num; [done|]. unfold num_announced. cbn. by rewrite H, unannounced_part.
  - apply sc_inv_num; [done|]. unfold num_announced. cbn. rewrite H. intros E%length_zero_iff_nil. by rewrite (none_announced_part l1 t l2).
Qed.

Lemma new_unannounced now l : Forall (fun t => tv_announced t = false) l -> num_announced (server_new now l) = 0%nat.
Proof. intros Hl. unfold num_announced; cbn. induction Hl as [|t l Ht _ IH]; [done|]. cbn. by rewrite Ht. Qed.

Lemma sc_inv_reachable keeps s : sc_reachable true keeps s -> sc_inv 1 s.
Proof. induction 1 as [now l Hl|s s' _ IH Hs]; [|by eapply sc_inv_step]. split; try done. by rewrite new_unannounced. Qed.

(** ** Any run *)

(** What holds without an orderly run. *)
Definition sc_base (keeps : bool) (s : server) : Prop := sc_off s /\ (keeps = true -> sc_counted s).

(** An operation that has nothing to do with announcements. *)
Record calm (s s' : server) : Prop := {
  calm_off : sc_off s -> sc_off s';
  calm_announced : sv_announced s' = sv_announced s;
  calm_transfers : sv_transfers s' = sv_transfers s
}.

Lemma base_calm keeps s s' : calm s s' -> sc_base keeps s -> sc_base keeps s'.
Proof. intros [C1 C2 C3] [B1 B2]. split; [auto|]. intros Hk. unfold sc_counted, num_announced in *. rewrite C2, C3. by apply B2. Qed.

Lemma calm_active s s' : active s' = true -> sv_announced s' = sv_announced s -> sv_transfers s' = sv_transfers s -> calm s s'.
Proof. intros Ha ? ?. split; try done. intros _ Hf. congruence. Qed.

Lemma calm_trans s1 s2 s3 : calm s1 s2 -> calm s2 s3 -> calm s1 s3.
Proof. intros [] []. split; [auto|congruence..]. Qed.

Lemma calm_write now type data s : calm s (do_write now type data s).
Proof.
  unfold ServerConnection.do_write. destruct (active s) eqn:Ha; cbn [negb]; [|by split].
  destruct (bool_decide_reflect (sv_write_order (with_last_action now s) = [])); by apply calm_active.
Qed.

Lemma base_stop keeps now ec s : sc_base keeps s -> sc_base keeps (stop now ec s).
Proof.
  intros B. unfold stop. destruct (bool_decide_reflect (sv_operation s = scs_stop)); [done|].
  split; [intros _|intros _; left]; unfold num_announced; cbn; by rewrite none_announced.
Qed.

Lemma base_start keeps now p s : sc_base keeps s -> sc_base keeps (start now p s).
Proof.
  intros B. unfold start. cbv zeta. apply (base_calm _ (stop now (Some operation_aborted) s)); [|by apply base_stop].
  split; try done. intros Ho _. destruct (stop_stopped now (Some operation_aborted) s) as [Es _]. destruct Ho as (? & ? & ? & ? & ?); [by unfold active; rewrite Es|done].
Qed.

Lemma calm_found_peers now h l : forall s, active s = true -> calm s (found_peers compress now h l s) /\ active (found_peers compress now h l s) = true.
Proof.
  induction l as [|i l IH]; intros s Ha; [by split; [apply calm_active|]|]. cbn [found_peers].
  set (s1 := if _ && _ then _ else _). assert (calm s s1 /\ active s1 = true) as [C1 A1].
  { subst s1. destruct (_ && _); [|by split; [apply calm_active|]]. unfold register_callback. destruct (existsb _ _); [by split; [apply calm_active|]|].
    unfold post_callback_request. rewrite do_write_active. split; [|done]. eapply calm_trans; [|apply calm_write]. by apply calm_active. }
  destruct (IH s1 A1) as [C2 A2]. split; [by eapply calm_trans|done].
Qed.

Lemma calm_dispatch now type data s : active s = true -> let '(s', ec) := dispatch compress now type data s in calm s s' /\ active s' = true.
Proof.
  intros Ha. unfold dispatch. cbv zeta.
  do 5 (destruct (_ =? _); [destruct (load _ _) as [[x ?]|e]; (split; [by apply calm_active|done])|]).
  destruct (_ =? _); [destruct (load _ _) as [[x ?]|e]; [|by split; [apply calm_active|]]; unfold on_found_peers;
    destruct (existsb _ _); [by apply calm_found_peers|by split; [apply calm_active|]]|].
  do 2 (destruct (_ =? _); [destruct (load _ _) as [[x ?]|e]; (split; [by apply calm_active|done])|]). by split; [apply calm_active|].
Qed.

Lemma base_packet keeps now e data s : sc_base keeps s -> sc_base keeps (handle_read_packet compress uncompress now e data s).
Proof.
  intros B. unfold handle_read_packet. destruct (active s) eqn:Ha; cbn [negb]; [|done]. destruct e as [e|]; [by apply base_stop|].
  destruct (if _ =? _ then _ else _) as [d|]; [|by eapply base_calm; [by apply calm_active|]].
  pose proof (calm_dispatch now (m_type (sv_in_header s)) d s Ha) as Hd. destruct (dispatch _ _ _ _ _) as [s' [ec|]]; destruct Hd as [C A].
  - apply base_stop. by eapply base_calm.
  - eapply base_calm; [|exact B]. eapply calm_trans; [exact C|]. by apply calm_active.
Qed.

Lemma base_header keeps now e h s : sc_base keeps s -> sc_base keeps (handle_read_header compress uncompress now e h s).
Proof.
  intros B. unfold handle_read_header. destruct (active s) eqn:Ha; cbn [negb]; [|done]. destruct e as [e|]; [by apply base_stop|].
  assert (sc_base keeps (with_in_header h s)) as B' by (by eapply base_calm; [by apply (calm_active s)|]).
  cbv zeta. destruct (bool_decide _); [|by apply base_stop]. repeat case_match; try done; try by apply base_packet.
  all: by eapply base_calm; [by apply (calm_active s)|].
Qed.

Lemma base_written keeps now e s : sc_base keeps s -> sc_base keeps (handle_write now e s).
Proof.
  intros B. unfold handle_write. destruct (active s) eqn:Ha; cbn [negb]; [|done]. destruct e as [e|]; [by apply base_stop|]. cbv zeta.
  destruct (bool_decide _); by eapply base_calm; [by apply (calm_active s)|].
Qed.

Lemma base_name_lookup keeps now r s : sc_base keeps s -> sc_base keeps (on_name_lookup now r s).
Proof.
  intros B. unfold on_name_lookup. destruct (bool_decide_reflect (sv_operation s = scs_resolve)) as [Hr|]; cbn [negb]; [|done].
  destruct r as [e|[t|]]; [by apply base_stop| |by apply base_stop]. eapply base_calm; [|exact B]. split; try done.
  intros Ho _. destruct Ho as (? & ? & ? & ? & ?); [by unfold active; rewrite Hr|done].
Qed.

Lemma base_connected keeps now e s : sc_base keeps s -> sc_base keeps (on_connection_complete compress settings now e s).
Proof.
  intros B. unfold on_connection_complete. destruct e as [e|]; [by apply base_stop|]. cbv zeta.
  eapply base_calm; [apply calm_write|]. by eapply base_calm; [by apply (calm_active s)|].
Qed.

Lemma base_announce keeps now s : active s = true -> sc_base keeps s -> sc_base keeps (announce compress settings now s).
Proof.
  intros Ha [B1 B2]. unfold announce. destruct (_ =? _); [done|]. pose proof (offer_spec s (sv_transfers s) (announce_items_per_call_limit (sv_params s))) as Ho.
  destruct (offer _ _ _ _) as [offers l]. destruct Ho as (_ & _ & _ & En).
  assert (sc_base keeps (with_announced (to_uint 8 (sv_announced s + Z.of_nat (length offers))) l s)) as B'.
  { split; [intros Hf; unfold active in *; cbn in Hf; congruence|]. intros Hk. unfold sc_counted, num_announced in *. cbn [with_announced sv_announced sv_transfers].
    rewrite En, Nat2Z.inj_add. destruct (B2 Hk) as [-> | ->]; rewrite to_uint_shift; [by left|right]. f_equal. lia. }
  destruct (bool_decide _); [done|]. eapply base_calm; [apply calm_write|done].
Qed.

Lemma base_tick keeps now s : sc_base keeps s -> sc_base keeps (second_tick now s).
Proof.
  intros B. unfold ServerConnection.second_tick. cbv zeta.
  destruct (sv_operation s) eqn:Ho; try (destruct (passed _ _); [by apply base_stop|done]).
  - destruct (sv_last_close s); [|done]. destruct (_ && _); [by apply base_start|done].
  - set (s1 := if _ && _ then _ else s). assert (sc_base keeps s1) as B1.
    { subst s1. destruct (_ && _); [|done]. apply base_announce; [|done]. by unfold active; rewrite Ho. }
    clearbody s1. destruct (passed _ _); [|done]. eapply base_calm; [apply calm_write|done].
Qed.

Lemma base_completes keeps o s s0 : completes o s s0 -> sc_base keeps s -> sc_base keeps s0.
Proof. intros (l1 & l2 & _ & ->). apply base_calm. by split. Qed.

Lemma base_step orderly keeps s s' : sc_step orderly keeps s s' -> sc_base keeps s -> sc_base keeps s'.
Proof.
  intros Hs B. destruct Hs; try (assert (sc_base keeps s0) as B0 by (by eapply base_completes)).
  - by apply base_start.
  - by apply base_stop.
  - eapply base_calm; [apply calm_write|done].
  - by apply base_tick.
  - by apply base_name_lookup.
  - by apply base_connected.
  - by apply base_header.
  - by apply base_packet.
  - by apply base_written.
  - destruct B as [B1 B2]. unfold sc_base, sc_off, sc_counted, num_announced in *. cbn. rewrite unannounced_part, <- H by done. done.
  - destruct B as [B1 B2]. unfold sc_base, sc_off, sc_counted, num_announced in *. cbn. rewrite H in *. split.
    + intros Ha. destruct (B1 Ha) as (? & ? & ? & ? & E%length_zero_iff_nil). rewrite (none_announced_part l1 t l2) by done. done.
    + intros Hk. rewrite <- (unannounced_part l1 t l2) by auto. by apply B2.
Qed.

Lemma base_reachable orderly keeps s : sc_reachable orderly keeps s -> sc_base keeps s.
Proof.
  induction 1 as [now l Hl|s s' _ IH Hs]; [|by eapply base_step]. split; [intros _|intros _; right]; by rewrite new_unannounced.
Qed.

(** ** Announcing everything *)

(** The times of ticks, each at least [a] after the one before. *)
Fixpoint spaced (a last : Z) (times : list Z) : Prop :=
  match times with [] => True | t :: times => a <= t - last /\ spaced a t times end.

Lemma announced_or_not l : (length (List.filter tv_announced l) + length (List.filter to_announce l) <= length l)%nat.
Proof. induction l as [|t l IH]; [done|]. cbn. unfold to_announce at 1. destruct (tv_announced t), (announceable t); cbn; lia. Qed.

(** The count equals the number of transfers only if none is left. *)
Lemma count_complete s :
  sc_counted s -> Z.of_nat (length (sv_transfers s)) < 2 ^ 64 - 1 -> sv_announced s = Z.of_nat (length (sv_transfers s)) -> List.filter to_announce (sv_transfers s) = [].
Proof.
  intros I5 Hl E. unfold sc_counted in I5. pose proof (announced_or_not (sv_transfers s)) as Hle. apply length_zero_iff_nil. unfold num_announced in I5.
  assert (length (List.filter tv_announced (sv_transfers s)) = length (sv_transfers s) \/ length (List.filter tv_announced (sv_transfers s)) = S (length (sv_transfers s))); [|lia].
  rewrite E in I5. unfold to_uint in I5. change (2 ^ (Z.of_nat 8 * 8)) with (2 ^ 64) in I5. destruct I5 as [H|H].
  - rewrite Z.mod_small in H by lia. lia.
  - destruct (length (List.filter tv_announced (sv_transfers s))) as [|n]; [|rewrite Z.mod_small in H by lia; lia].
    exfalso. change ((Z.of_nat 0 - 1) mod 2 ^ 64) with (2 ^ 64 - 1) in H. lia.
Qed.

Lemma announce_takes now s :
  sc_counted s -> Z.of_nat (length (sv_transfers s)) < 2 ^ 64 - 1 ->
  let s' := announce compress settings now s in
  length (sv_transfers s') = length (sv_transfers s) /\ (sv_last_action s' = sv_last_action s \/ sv_last_action s' = now) /\
  List.filter to_announce (sv_transfers s') = drop (announce_items_per_call_limit (sv_params s)) (List.filter to_announce (sv_transfers s)).
Proof.
  intros I Hl s'. subst s'. unfold announce. destruct (_ =? _) eqn:Hc.
  { split_and!; auto. apply Z.eqb_eq in Hc. rewrite (count_complete s) by done. by rewrite drop_nil. }
  pose proof (offer_spec s (sv_transfers s) (announce_items_per_call_limit (sv_params s))) as Hs. destruct (offer _ _ _ _) as [offers l]. destruct Hs as (_ & E1 & E2 & _).
  destruct (bool_decide_reflect (offers = [])); [by split_and!; auto|]. unfold post_announce.
  edestruct do_write_same as (_ & -> & _ & _ & Hla). by split_and!.
Qed.

(** A tick at which announcements are due takes the next transfers and sends them. *)
Lemma tick_announces a now s :
  sc_counted s -> sv_operation s = scs_start -> Z.of_nat (length (sv_transfers s)) < 2 ^ 64 - 1 ->
  announce_timeout (sv_params s) = Some a -> (0 < announce_items_per_call_limit (sv_params s))%nat -> a <= now - sv_last_action s -> 0 <= a ->
  let s' := second_tick now s in
  sv_operation s' = scs_start /\ sv_params s' = sv_params s /\ length (sv_transfers s') = length (sv_transfers s) /\ sv_last_action s' <= now /\
  List.filter to_announce (sv_transfers s') = drop (announce_items_per_call_limit (sv_params s)) (List.filter to_announce (sv_transfers s)).
Proof.
  intros I Ho Hl Ha Hlim Ht Hpos s'. subst s'. unfold ServerConnection.second_tick. cbv zeta. rewrite Ho. unfold params_announce. rewrite Ha.
  rewrite (proj2 (Nat.ltb_lt _ _) Hlim). cbn [passed]. rewrite (proj2 (Z.leb_le _ _) Ht). cbn [andb].
  destruct (announce_same now s) as [Eo Ep]. destruct (announce_takes now s I Hl) as (E1 & E2 & E3). set (s1 := announce _ _ _ _) in *. clearbody s1.
  destruct (passed _ _).
  - destruct (do_write_same now OP_GETSERVERLIST [] s1) as (-> & -> & -> & _ & Hla). split_and!; try congruence. destruct Hla, E2; lia.
  - split_and!; try congruence. destruct E2; lia.
Qed.

Lemma ticks_announce orderly a times : forall s,
  sc_reachable orderly true s -> sv_operation s = scs_start -> Z.of_nat (length (sv_transfers s)) < 2 ^ 64 - 1 ->
  announce_timeout (sv_params s) = Some a -> (0 < announce_items_per_call_limit (sv_params s))%nat -> 0 <= a -> spaced a (sv_last_action s) times ->
  List.filter to_announce (sv_transfers (fold_left (fun s now => second_tick now s) times s)) =
  drop (length times * announce_items_per_call_limit (sv_params s)) (List.filter to_announce (sv_transfers s)).
Proof.
  induction times as [|t times IH]; intros s Hr Ho Hl Ha Hlim Hpos Hsp; [done|]. destruct Hsp as [Ht Hsp]. cbn [fold_left].
  destruct (tick_announces a t s) as (A & B & C & D & E); auto; [by apply (base_reachable orderly true)|].
  rewrite IH; rewrite ?B, ?C; auto.
  - rewrite E, drop_drop. cbn [length]. f_equal; lia.
  - eapply sc_next; [done|]. apply sc_tick. congruence.
  - destruct times as [|t' times]; [done|]. destruct Hsp. split; [lia|done].
Qed.

(** What an announcement writes: one packet with the transfers that are next. *)
Lemma announce_writes now s :
  sc_counted s -> active s = true -> Z.of_nat (length (sv_transfers s)) < 2 ^ 64 - 1 ->
  sv_write_order (announce compress settings now s) =
  sv_write_order s ++
  match get_announce (cs_listen_port settings) s <$> take (announce_items_per_call_limit (sv_params s)) (List.filter to_announce (sv_transfers s)) with
  | [] => []
  | offers => [server_message_of compress OP_OFFERFILES (save (holder_of (w := 4) offers))]
  end.
Proof.
  intros I Ha Hl. unfold announce. destruct (_ =? _) eqn:Hc.
  { apply Z.eqb_eq in Hc. rewrite (count_complete s) by done. by rewrite take_nil, app_nil_r. }
  pose proof (offer_spec s (sv_transfers s) (announce_items_per_call_limit (sv_params s))) as Hs. destruct (offer _ _ _ _) as [offers l]. destruct Hs as (<- & _).
  destruct offers as [|o offers]; [by rewrite app_nil_r|]. rewrite bool_decide_eq_false_2 by done. unfold post_announce, ServerConnection.do_write.
  change (active (with_announced _ _ _)) with (active s). rewrite Ha. cbn [negb]. cbn [with_last_action with_announced sv_write_order]. by destruct (bool_decide_reflect (sv_write_order s = [])).
Qed.

(** C19: in every state a connection can get to, whatever its owner, the network and the
    timer do: while it is not active there is nothing to write, no identifier of a session
    with the server, and no transfer that counts as announced.  If moreover each connection
    is started when the operations of the last one have been completed, a connect that is
    completed after a stop has failed, and no header is of the Kademlia protocol, then the
    asynchronous operations under way fit its state: while it resolves or connects, that
    one operation; while it is active, no such operation, exactly one read, of a header or
    of a packet, and one write if and only if there are messages to write.  Without these
    conditions they need not ([aborted_connect_ends_next_attempt],
    [connect_reopens_stopped], [kademlia_header_ends_reading]). *)
Theorem server_connection_invariant orderly keeps s : sc_reachable orderly keeps s -> sc_off s /\ (orderly = true -> sc_inv 1 s).
Proof. intros Hr. split; [by apply (base_reachable orderly keeps)|]. intros ->. by apply (sc_inv_reachable keeps). Qed.

(** C20: as long as no announced transfer has been removed
    ([replaced_transfer_not_announced] shows what happens otherwise), with an announce
    timeout and a positive number of transfers to a call, an announcement of a connection
    that is open is one packet with the next transfers that have pieces, are not being
    checked and have not been announced, at most the limit; and after ticks of the timer
    that are at least the timeout apart, as many as the transfers fill, each transfer that
    can be announced has been. *)
Theorem transfers_announced orderly a times s :
  sc_reachable orderly true s -> sv_operation s = scs_start -> Z.of_nat (length (sv_transfers s)) < 2 ^ 64 - 1 ->
  announce_timeout (sv_params s) = Some a -> (0 < announce_items_per_call_limit (sv_params s))%nat -> 0 <= a -> spaced a (sv_last_action s) times ->
  (length (List.filter to_announce (sv_transfers s)) <= length times * announce_items_per_call_limit (sv_params s))%nat ->
  (forall now, sv_write_order (announce compress settings now s) =
    sv_write_order s ++
    match get_announce (cs_listen_port settings) s <$> take (announce_items_per_call_limit (sv_params s)) (List.filter to_announce (sv_transfers s)) with
    | [] => []
    | offers => [server_message_of compress OP_OFFERFILES (save (holder_of (w := 4) offers))]
    end) /\
  forall t, List.In t (sv_transfers (fold_left (fun s now => second_tick now s) times s)) -> announceable t = true -> tv_announced t = true.
Proof.
  intros Hr Ho Hl Ha Hlim Hpos Hsp Hn. split.
  { intros now. apply announce_writes; [by apply (base_reachable orderly true)| |done]. unfold active. by rewrite Ho, orb_true_r. }
  intros t Ht Hs. pose proof (ticks_announce orderly a times s Hr Ho Hl Ha Hlim Hpos Hsp) as E. rewrite drop_ge in E by done.
  destruct (tv_announced t) eqn:Hb; [done|]. exfalso. apply (List.in_nil (a := t)). rewrite <- E. apply List.filter_In. split; [done|]. unfold to_announce. by rewrite Hb.
Qed.

(** An attempt that leads nowhere is given up after the operations timeout, and, once the
    reconnect timeout has passed, made again with the same parameters. *)
Theorem attempt_made_again o r t1 t2 s :
  sv_operation s = scs_resolve \/ sv_operation s = scs_connection \/ sv_operation s = scs_handshake ->
  operations_timeout (sv_params s) = Some o -> reconnect_timeout (sv_params s) = Some r ->
  o <= t1 - sv_last_action s -> r <= t2 - t1 ->
  let s' := second_tick t1 s in
  sv_operation s' = scs_stop /\ sv_last_close s' = Some timed_out /\
  sv_operation (second_tick t2 s') = scs_resolve /\ sv_params (second_tick t2 s') = sv_params s /\ sv_pending (second_tick t2 s') = sv_pending s ++ [op_resolve].
Proof.
  intros Ho Eo Er H1 H2 s'. assert (s' = stop t1 (Some timed_out) s) as ->.
  { subst s'. unfold ServerConnection.second_tick. cbv zeta. rewrite Eo. cbn [passed]. rewrite (proj2 (Z.leb_le _ _) H1). by destruct Ho as [-> |[-> | ->]]. }
  assert (sv_operation s <> scs_stop) as Hn by (destruct Ho as [-> |[-> | ->]]; done).
  unfold stop. rewrite bool_decide_eq_false_2 by done. unfold ServerConnection.second_tick. cbn. rewrite Er. cbn [passed]. by rewrite (proj2 (Z.leb_le _ _) H2).
Qed.
End Steps.

(** ** A connection that comes about *)

Module Sample.

Definition no_compress (_ : bytes) : option bytes := None.
Definition no_uncompress (_ : nat) (_ : bytes) : option bytes := None.
Definition settings : client_settings := ClientSettings hash_max 4662 [x61; x62].
Definition params : server_connection_parameters := server_params_new [x73] [x68] 4661 10 0 30 5 1.
Definition transfer_of (id have : Z) : transfer_view := TransferView (Hash (replicate MD4_DIGEST_LENGTH (z2b id))) [x66; x2e; x61; x76; x69] 1000 false have true false.
Definition id_header : libed2k_header := Header OP_EDONKEYPROT 5 OP_IDCHANGE.

Definition s0 : server := server_new 0 [transfer_of 1 1; transfer_of 2 0; transfer_of 3 2].
Definition resolving : server := start 0 params s0.
Definition connecting : server := on_name_lookup 1 (inr (Some (NetId 1 4661))) (with_pending [] resolving).
Definition handshake : server := on_connection_complete no_compress settings 2 None (with_pending [] connecting).
Definition written : server := handle_write 3 None (with_pending [op_read_header] handshake).
Definition with_header : server := handle_read_header no_compress no_uncompress 4 None id_header (with_pending [] written).
Definition opened : server := handle_read_packet no_compress no_uncompress 5 None [x01; x02; x03; x04] (with_pending [] with_header).

Lemma opened_reachable : sc_reachable no_compress no_uncompress settings true true opened.
Proof.
  apply sc_next with with_header; [|apply sc_packet; by exists [], []]. apply sc_next with written; [|apply sc_header; [by exists [], []|done]].
  apply sc_next with handshake; [|apply sc_written; by exists [op_read_header], []]. apply sc_next with connecting; [|apply sc_connected; [by exists [], []|done]].
  apply sc_next with resolving; [|apply sc_resolved; by exists [], []]. apply sc_next with s0; [|by apply sc_started]. apply sc_new. by repeat constructor.
Defined.
End Sample.

Lemma server_connection_invariant_witness : sc_off Sample.opened /\ sc_inv 1 Sample.opened.
Proof.
  destruct (server_connection_invariant Sample.no_compress Sample.no_uncompress Sample.settings true true Sample.opened Sample.opened_reachable) as [H1 H2].
  split; [exact H1|exact (H2 eq_refl)].
Defined.

Lemma transfers_announced_witness :
  Forall (fun t => announceable t = true -> tv_announced t = true)
    (sv_transfers (fold_left (fun s now => second_tick Sample.no_compress Sample.settings now s) [6000000; 12000000] Sample.opened)).
Proof.
  apply List.Forall_forall.
  apply (transfers_announced Sample.no_compress Sample.no_uncompress Sample.settings true 5000000); [apply Sample.opened_reachable|by vm_compute..| |vm_compute; lia].
  repeat split; vm_compute; done.
Defined.

(** ** What happens in other runs *)

(** [on_connection_complete] does not see that the attempt it belongs to is over: the
    aborted completion of an attempt that was made again ends the new attempt, as if its
    owner had stopped it, so that it is not made again; *)
Theorem aborted_connect_ends_next_attempt compress settings now p s now' t :
  let s' := on_connection_complete compress settings now' (Some operation_aborted) (start now p s) in
  sv_operation s' = scs_stop /\ second_tick compress settings t s' = s'.
Proof.
  unfold start. cbv zeta. generalize (stop now (Some operation_aborted) s). intros s0. unfold on_connection_complete, stop.
  rewrite bool_decide_eq_false_2 by done. split; [done|]. unfold second_tick. cbn [sv_operation with_close tell with_announced with_ids with_order with_last_action with_operation sv_last_close].
  by rewrite bool_decide_eq_true_2.
Qed.

(** and one that had succeeded before the connection was stopped opens it again. *)
Theorem connect_reopens_stopped compress settings now ec now' s :
  sv_operation (on_connection_complete compress settings now' None (stop now ec s)) = scs_handshake.
Proof. unfold on_connection_complete. cbv zeta. by destruct (do_write_same compress now' OP_LOGINREQUEST (save (login_request settings)) (with_last_action now' (with_operation scs_handshake (begin_op op_read_header (stop now ec s))))) as (-> & _). Qed.

(** The count of announced transfers is not reduced when one of them is removed: when
    another takes its place the numbers agree, and it is not announced. *)
Theorem replaced_transfer_not_announced compress settings now t t' l1 l2 s :
  sv_transfers s = l1 ++ t :: l2 -> sv_announced s = Z.of_nat (length (sv_transfers s)) ->
  let s' := with_announced (sv_announced s) (l1 ++ t' :: l2) s in announce compress settings now s' = s'.
Proof.
  intros E Ha s'. unfold announce. rewrite (proj2 (Z.eqb_eq _ _)); [done|]. subst s'. cbn. rewrite Ha, E, !length_app. done.
Qed.

(** [check_packet] lets a header of the Kademlia protocol pass, for which no case reads on
    (the assertion that it is impossible is wrong): the connection stays open and never
    reads again. *)
Theorem kademlia_header_ends_reading compress uncompress now type size s :
  active s = true -> 1 <= size <= MAX_ED2K_PACKET_LEN ->
  let h := Header OP_KADEMLIAHEADER size type in
  check_packet h = no_error /\ handle_read_header compress uncompress now None h s = with_in_header h s.
Proof.
  intros Ha Hs h. assert (check_packet h = no_error) as E by (apply check_packet_ok; unfold known_protocol; auto).
  split; [done|]. unfold handle_read_header. rewrite Ha. cbn [negb]. cbv zeta. by rewrite E.
Qed.
